(* ===== verification/_CoqProject ===== *)
-Q . S2P
Prelude.v
Wire.v
Bytes.v
Config.v
Events.v
State.v
Sample.v
Network.v
FlowControl.v
MembSets.v
MembCore.v
Deliver.v
Delivery.v
DeliveryEvs.v
ProtSend.v
Retrans.v
MembForm.v
MembInstall.v
Membership.v
ProtHandle.v
Frame.v
Ring.v
Daemon.v
Requests.v
Packing.v
Sending.v
EndToEnd.v
Message.v
EventsFd.v
Names.v
GroupState.v
SessState.v
SessTable.v
SessDir.v
SessWrite.v
SessStream.v
SessServe.v
SessDrain.v
SessDeliver.v
SessRead.v
SessHeader.v
SessFanout.v
SessParse.v
Acm.v
SessAuth.v
SessAccept.v
Skl.v
SkipList.v
SkipLinks.v
SkipSteps.v
SkipListOk.v
Groups.v
GroupsHold.v
GroupsOk.v
GroupsVs.v
GroupsBufs.v
GroupsMerge.v
GroupsSynced.v
GroupsTell.v
GroupsLocal.v
GroupsJoin.v
GroupsLeave.v
Arq.v
Window.v
Control.v
Sp.v
SpRecv.v
SpTable.v
SpReceive.v
SpSend.v
SpMemb.v
SpMembOk.v
SpConnect.v
SpHandshake.v
HashTable.v
HashOk.v
HashUse.v
CircArray.v
CircArrayOk.v
Findings.v
