(* ===== verification/Prelude.v ===== *)
(** * The Spread toolkit: daemon core, session layer, groups and client library

    The repository holds the sources of the Spread group communication
    toolkit 5.0.1 (src/ProjetoFinal/spread/spread-src-5.0.1) beside the
    exercises of a course.  This development models the daemon and the client
    library of the toolkit, function by function, and proves what makes them
    correct.  File names below are relative to that directory.

    ** The program

    A daemon runs one event loop (libspread-util/src/events.c).  Its core is a
    token ring: [membership.c] agrees on who is in the ring and in which order,
    [protocol.c] sends, retransmits and delivers packets while the token goes
    round, [network.c] routes packets and token, [flow_control.c] bounds what a
    visit of the token sends, [configuration.c] knows all the processes.  On
    top, [session.c] keeps a session per client, reads the messages of the
    clients into the down queues of the core and writes delivered messages to
    their sockets; [acm.c] and its modules decide who may connect and do what;
    [groups.c] keeps the process groups, which the daemons exchange when rings
    merge.  An application links libspread/sp.c, which connects to a daemon
    and turns its calls into bytes on the socket and back.  Control goes down
    by calls (a handler of the event loop calls the core, which calls the
    network) and up by calls as well (the core calls [Sess_deliver_message] and
    the like); the upper layers block and release each other through
    thresholds of the event loop.

    ** How it is modelled

    C integers are [Z] with the conversions of an assignment written out
    ([u16] ... [s32] below); packets, tokens and messages are lists of bytes
    with typed reads and writes at offsets ([Bytes]).  A computation is a
    function from a state to an [outcome]: [Done] with a value and the new
    state, or [Failed] with an error: [Fatal] is an alarm that stops the
    daemon, [Undefined] an access outside an array or another thing C leaves
    undefined, [Diverges] a loop that does not end or a call that does not
    return.  A theorem [wp m Q E w] says that the run of [m] from [w] either
    ends in [Q] or fails with an error in [E]; with [E] = [never] it ends in
    [Q], so nothing is "right only if it returns".

    The state of the core is the record [world] (State): every file-scope
    variable of its files, with outputs (datagrams, upcalls) as a log and
    clock, received datagrams and results of [sendto] as inputs.  The session
    layer keeps [sess_state] (SessState) beside the core and the state of the
    groups (GroupState): [sess_world].  The client library has a state of its
    own, [sp_lib] (Sp).

    Layers meet at interfaces.  The core sees the session layer as the class
    [Session], the platform as [Platform]; the laws it needs of them are
    [SessionOk], [SessionFrame], [SessionQueue], [SessionHold] and
    [PlatformOk], with [null_session] and the sample platform as instances.
    The session layer sees the groups component as [Groups], implemented by
    [groups_c], and the access policy as [AccessPolicy], implemented by
    [permit] (acp-permit.c).  The groups component uses ordered lists by the
    functions of Skl; SkipList is the skip list of stdskl.c node by node, and
    SkipListOk shows that it does what these functions say.  The hash tables of
    stdhash.c, which the libraries on top of sp.c use, and the circular arrays of
    stdcarr.c stand by themselves.

    ** Files and what they show

    - Core data: Wire (net_types.h, arch.h), Bytes, Config (configuration.c,
      spu_addr.c), Events and EventsFd (events.c), State, Sample, Network,
      FlowControl, MembSets.  The time queue is a stable ordered insertion with
      replacement; flow control stays within its windows; sets and sorting of
      members; the masks of the loop under a threshold.
    - Sending and delivery: MembCore, Deliver, Delivery, DeliveryEvs, ProtSend,
      Packing, Sending, EndToEnd (protocol.c).  Packing and splitting are
      inverse; what is pending is sent under consecutive numbers; a receiver
      hands up exactly the messages queued, for each sender in order, however
      the packets of senders alternate; agreed and stable delivery orders and
      the delivery at a change of membership.
    - The token: Ring (what the aru of the token says is stable), Arq (a token
      is accepted once), Retrans and Requests (answering and making requests),
      Window (the window of received packets through insertion and through
      giving up a membership).
    - Membership: MembForm and MembInstall (form tokens), Membership (states,
      messages, timeouts), ProtHandle, Daemon (turns of the event loop as a
      step relation), Frame, Control: each state has exactly its timeouts, each
      turn of a reachable daemon follows an edge of the abstract machine, and
      the alarms of the state machine are never raised.
    - Messages and sessions: Message, Names, SessState, SessTable, SessDir (the
      three kinds of links implement a finite map), SessWrite (the users'
      threshold and writing), SessStream, SessServe (what a client is sent,
      whatever its socket takes, and when the daemon comes back to it), SessDrain
      (a client that reads gets it all),
      SessDeliver and SessFanout (each member gets a message once), SessRead,
      SessHeader, SessParse (reading is parsing the stream), Acm, SessAuth,
      SessAccept (who is let in; the table stays consistent).
    - Groups: GroupState, Skl (ordered lists), SkipList, SkipLinks, SkipSteps
      and SkipListOk (a skip list is an ordered list, whatever memory there is),
      Groups, then GroupsOk (orders, invariant, view), GroupsHold (the state
      machine), GroupsVs (the membership message after a network change),
      GroupsBufs, GroupsMerge and GroupsSynced (the exchange of groups),
      GroupsTell, GroupsLocal, GroupsJoin, GroupsLeave (who is in which group
      and who is told).
    - Client library: Sp (sessions, sending), SpRecv (receiving), SpMemb
      (reading membership messages), SpConnect (connecting), with SpTable (the
      session table is a finite map), SpSend (what is sent is what the session
      layer parses), SpReceive (a message is received whole, or kept when the
      buffers are too small), SpMembOk (an application reads the membership the
      daemon wrote), SpHandshake (client and daemon agree on a connection).
    - Hash tables: HashTable (stdhash.c, with the hash code and the powers of two
      of stdutil.c), HashOk (probing, the invariant, rehashing, insertion), HashUse
      (a hash table is a multiset of pairs, whatever memory there is).
    - Circular arrays: CircArray (stdcarr.c), CircArrayOk (an array that wraps
      around its block is a sequence, whichever side is shifted).
    - Findings: runs and lemmas where the code does not do what its text says.

    ** Choices

    - Counters and sequence numbers of 32 bits that the code guards against
      rollover (MAX_WRAP_SEQUENCE_VALUE) are unbounded.  Bodies of packets and
      messages are values: allocation and reference counts are not modelled,
      and [malloc] succeeds, except in skip lists, hash tables and circular
      arrays, where the results of allocations are an input.  A packet queued in
      [Send_pack_queue] shares its header with the window; writes to it are
      written through ([write_through]).  [New_token] after a form handler is dead.
    - The host is little endian.  The core and the headers of the session layer
      and of the client library are proved for both byte orders where they
      flip; GROUPS messages are read, and membership messages read by a client
      ([flip_memb] is modelled, not proved), in the order of the host.
    - A pointer to a group is the group by value, written back under its name.
    - What the core asks of the session layer while the session layer calls it
      (blocking and releasing users) is replayed when the call returns
      ([core_call]).  The authentication modules NULL and IP run at once, others
      are recorded as calls.
    - Sockets are streams with the results of [recv] and [send] as inputs; a
      call that finds its input exhausted blocks.  Addresses of clients,
      accepting sockets ([auth_env], [accept_env]), name resolution and socket
      calls of a connecting client ([connect_env]) and the random numbers of
      name choice and skip lists are inputs too.  Other threads of a client
      appear where a mutex is taken again, as the sessions they have killed
      ([relock]).
    - The threshold of regular delivery is an output of the groups component
      and of the core; GroupsHold says on which edges each sets it.

    ** Fuel

    Loops without a structural bound carry fuel, with enough of it proved:
    [split_fragments] (data_len), [fill_packet] (FILL_FUEL; Packing),
    [Answer_retrans] (ANSWER_FUEL; Requests), [Flip_token_body] (the length of
    the requests), agreed and discard loops (the window), session lists
    (LIST_FUEL, MAX_SESSIONS + 1; SessDir), [read_body] (READ_FUEL), the
    reports of authentication (MAX_AUTH_METHODS; SessAuth), [parse_all] (the
    input), [groups_bufs] (daemons + 2; GroupsBufs), [read_groups] (the bytes),
    [merge_synced] (both lengths), skip list walks (nodes + 1; SkipListOk), probing
    (the positions; an odd stride reaches all; HashOk), the
    client's socket loops (results + 1) and table search (1024; SpTable).  The
    random choice of a private name may diverge, as in the code.

    ** Not modelled

    - configuration file: config_parse.y, config_gram.l and the generated
      y.tab.c and lex.yy.c (grammar and generated code), and of configuration.c
      the loader and printing; the group masks of protocol version 4.
    - data_link.c, socket set-up of network.c and session.c, [select], signals:
      system calls, which are inputs and outputs here.
    - memory.c, alarm.c, status.c, log.c, [G_print]: allocation, logging and
      reports.
    - the growable arrays and linked lists of stdutil, its threads and clock, which
      these paths do not use; fl.c and scatp.c, a second library on top of sp.c.
    - of sp.c: mutexes, fork handlers, socket options and the Windows variants.
    - monitor.c, spread.c, the example programs, the Java spring application
      and the course exercises: tools and programs around the toolkit. *)

From Stdlib Require Import ZArith Lia.
From stdpp Require Import base strings numbers option gmap list sorting.

Declare Scope spread_scope.
Delimit Scope spread_scope with spread.
Open Scope Z_scope.
Open Scope spread_scope.

(* --------------------------------------------------------------------- *)
(** ** C integers

    A C value of a w-bit type is a [Z]; the conversions a C assignment or
    argument passing performs are written out with the functions below. *)

Definition u16 (z : Z) : Z := z mod 2 ^ 16.
Definition u32 (z : Z) : Z := z mod 2 ^ 32.
Definition u64 (z : Z) : Z := z mod 2 ^ 64.
Definition s16 (z : Z) : Z := (z + 2 ^ 15) mod 2 ^ 16 - 2 ^ 15.
Definition s32 (z : Z) : Z := (z + 2 ^ 31) mod 2 ^ 32 - 2 ^ 31.

(** An integer used as a C condition. *)
Definition truth (z : Z) : bool := negb (z =? 0).

(** [b ? 1 : 0], the value of a C comparison. *)
Definition cbool (b : bool) : Z := if b then 1 else 0.

Section integers.
Lemma s16_range z : - 2 ^ 15 <= s16 z < 2 ^ 15.
Proof. unfold s16. pose proof (Z.mod_pos_bound (z + 2 ^ 15) (2 ^ 16)). lia. Qed.

Lemma s32_range z : - 2 ^ 31 <= s32 z < 2 ^ 31.
Proof. unfold s32. pose proof (Z.mod_pos_bound (z + 2 ^ 31) (2 ^ 32)). lia. Qed.

Lemma u16_range z : 0 <= u16 z < 2 ^ 16.
Proof. apply Z.mod_pos_bound. lia. Qed.

Lemma u32_range z : 0 <= u32 z < 2 ^ 32.
Proof. apply Z.mod_pos_bound. lia. Qed.

Lemma s16_id z : - 2 ^ 15 <= z < 2 ^ 15 -> s16 z = z.
Proof. intros H. unfold s16. rewrite Z.mod_small; lia. Qed.

Lemma s32_id z : - 2 ^ 31 <= z < 2 ^ 31 -> s32 z = z.
Proof. intros H. unfold s32. rewrite Z.mod_small; lia. Qed.

Lemma u16_id z : 0 <= z < 2 ^ 16 -> u16 z = z.
Proof. intros H. unfold u16. rewrite Z.mod_small; lia. Qed.

Lemma u32_id z : 0 <= z < 2 ^ 32 -> u32 z = z.
Proof. intros H. unfold u32. rewrite Z.mod_small; lia. Qed.

Lemma u32_s32 z : u32 (s32 z) = u32 z.
Proof.
  unfold u32, s32. rewrite Zminus_mod_idemp_l. f_equal. lia.
Qed.

Lemma s32_u32 z : s32 (u32 z) = s32 z.
Proof. unfold u32, s32. rewrite Zplus_mod_idemp_l. done. Qed.

Lemma u16_s16 z : u16 (s16 z) = u16 z.
Proof. unfold u16, s16. rewrite Zminus_mod_idemp_l. f_equal. lia. Qed.

Lemma truth_true z : truth z = true <-> z <> 0.
Proof. unfold truth. rewrite negb_true_iff, Z.eqb_neq. done. Qed.

Lemma truth_false z : truth z = false <-> z = 0.
Proof. unfold truth. rewrite negb_false_iff, Z.eqb_eq. done. Qed.
End integers.

Create Rewrite HintDb cint.
#[export] Hint Rewrite s16_id s32_id u16_id u32_id using lia : cint.
#[export] Hint Rewrite u32_s32 s32_u32 u16_s16 : cint.

(* --------------------------------------------------------------------- *)
(** ** Arrays

    A C array of fixed length is a [list]; [aget]/[aset] are an element read
    and write at an index inside the array.  Every use is guarded by the
    bounds the C code establishes, and where the code relies on data for an
    index the model tests it and fails with [Undefined]. *)

Definition aget {A} (d : A) (l : list A) (i : Z) : A :=
  if i <? 0 then d else default d (l !! Z.to_nat i).
Definition aset {A} (l : list A) (i : Z) (x : A) : list A :=
  if i <? 0 then l else <[Z.to_nat i := x]> l.

Section arrays.
Context {A : Type}.
Implicit Types l : list A.

Lemma aset_length l i x : length (aset l i x) = length l.
Proof. unfold aset. destruct (i <? 0); [done|]. apply length_insert. Qed.

Lemma aget_aset_eq d l i x :
  0 <= i < Z.of_nat (length l) -> aget d (aset l i x) i = x.
Proof.
  intros H. unfold aget, aset. destruct (Z.ltb_spec i 0); [lia|].
  rewrite list_lookup_insert_eq by lia. done.
Qed.

Lemma aget_aset_ne d l i j x : i <> j -> aget d (aset l i x) j = aget d l j.
Proof.
  intros H. unfold aget, aset.
  destruct (Z.ltb_spec j 0), (Z.ltb_spec i 0); try done.
  rewrite list_lookup_insert_ne by lia. done.
Qed.
End arrays.

(* --------------------------------------------------------------------- *)
(** ** Memory

    Where an allocation that fails matters, the results of the allocations to
    come are an input, all of them successful when it is used up. *)

Definition STDESUCCESS : Z := 0.
Definition STDENOMEM : Z := 12.
Definition STDEINVAL : Z := 22.

Definition memory : Type := list bool.
Definition malloc (m : memory) : bool * memory :=
  match m with [] => (true, []) | b :: m => (b, m) end.

(** No allocation to come fails. *)
Definition enough (m : memory) : Prop := Forall (fun b => b = true) m.

Lemma malloc_ok (m : memory) : exists b m', malloc m = (b, m') /\ (enough m -> b = true /\ enough m').
Proof. destruct m as [|b m]; cbn; [by exists true, []|]. exists b, m. split; [done|]. by inversion 1. Qed.

(** [a[i] = a[--n]]: the last element takes the place of the removed one. *)
Definition remove_swap {A} (l : list A) (i : nat) : list A :=
  match last l with
  | Some x => take (length l - 1) (<[i := x]> l)
  | None => l
  end.

Lemma lookup_split {A} (l : list A) i x :
  l !! i = Some x -> exists a b, l = a ++ x :: b /\ length a = i.
Proof.
  intros Hi. exists (take i l), (drop (S i) l). split; [by rewrite take_drop_middle|].
  apply length_take_le. apply lookup_lt_Some in Hi. lia.
Qed.

Lemma remove_swap_perm {A} (l : list A) i x : l !! i = Some x -> l ≡ₚ x :: remove_swap l i.
Proof.
  intros (a & b & -> & <-)%lookup_split. unfold remove_swap.
  destruct b as [|y b _] using rev_ind.
  - rewrite last_snoc, insert_app_r_alt, Nat.sub_diag by lia. cbn.
    replace (length (a ++ [x]) - 1)%nat with (length a) by (rewrite length_app; cbn; lia).
    rewrite take_app_length. by rewrite Permutation_app_comm.
  - rewrite app_comm_cons, app_assoc, last_snoc, <- app_assoc, insert_app_r_alt, Nat.sub_diag by lia.
    cbn. rewrite !length_app. cbn. rewrite length_app. cbn.
    replace (_ - 1)%nat with (length (a ++ y :: b)) by (rewrite length_app; cbn; lia).
    replace (a ++ y :: b ++ [y]) with ((a ++ y :: b) ++ [y]) by by rewrite <- app_assoc.
    rewrite take_app_length, <- !Permutation_middle. constructor.
    by rewrite app_assoc, Permutation_app_comm.
Qed.

Lemma Forall_impl_in {A} (P Q : A -> Prop) l :
  Forall P l -> (forall x, x ∈ l -> P x -> Q x) -> Forall Q l.
Proof. rewrite !Forall_forall. auto. Qed.

(** Selection sort with [remove_swap]: what has been selected, [out], and
    what is left, [rest], of [l]. *)
Definition selected {A} (le : A -> A -> Prop) (l out rest : list A) : Prop :=
  out ++ rest ≡ₚ l /\ StronglySorted le out /\ Forall (fun x => Forall (le x) rest) out.

Lemma selected_start {A} (le : A -> A -> Prop) l : selected le l [] l.
Proof. split_and!; [done|constructor|constructor]. Qed.

Lemma StronglySorted_snoc {A} (le : A -> A -> Prop) l x :
  StronglySorted le l -> Forall (fun y => le y x) l -> StronglySorted le (l ++ [x]).
Proof.
  induction 1 as [|y l Hs IH Hy]; intros Hx; cbn; [by repeat constructor|].
  inversion Hx as [|? ? Hyx Hx']; subst. constructor; [by apply IH|].
  apply Forall_app. split; [done|by constructor].
Qed.

Lemma selected_step {A} (le : A -> A -> Prop) l out rest i x :
  selected le l out rest -> rest !! i = Some x -> Forall (le x) rest ->
  selected le l (out ++ [x]) (remove_swap rest i).
Proof.
  intros (Hp & Hs & Hle) Hi Hx. apply remove_swap_perm in Hi as Hr.
  assert (Hsub : forall P, Forall P rest -> P x /\ Forall P (remove_swap rest i)).
  { intros P HP%(Permutation_Forall Hr). by inversion HP. }
  repeat split.
  - rewrite <- app_assoc, <- Hp. cbn. by rewrite <- Hr.
  - apply StronglySorted_snoc; [done|]. eapply Forall_impl; [exact Hle|].
    intros y Hy. by apply Hsub.
  - apply Forall_app. split; [|constructor; [by apply Hsub|done]].
    eapply Forall_impl; [exact Hle|]. intros y Hy. by apply Hsub.
Qed.

(* --------------------------------------------------------------------- *)
(** ** Executions

    A C function of the daemon is a state transformer: it ends in a state
    with a value, or the process stops.  [Fatal] is an [Alarmp] of priority
    [SPLOG_FATAL] or mask [EXIT] (the daemon aborts), [Undefined] an access
    the C standard leaves undefined, [Diverges] a loop that used up the fuel
    the model gave it. *)

Inductive err : Type :=
| Fatal (site : string)
| Undefined (site : string)
| Diverges (site : string).

Inductive outcome (S A : Type) : Type :=
| Done (a : A) (s : S)
| Failed (e : err).
Arguments Done {S A} a s.
Arguments Failed {S A} e.

Definition M (S A : Type) : Type := S -> outcome S A.

Section monad.
Context {S : Type}.

Definition ret {A} (a : A) : M S A := fun s => Done a s.
Definition bind {A B} (m : M S A) (k : A -> M S B) : M S B :=
  fun s => match m s with Done a s' => k a s' | Failed e => Failed e end.
Definition fail {A} (e : err) : M S A := fun _ => Failed e.
Definition get : M S S := fun s => Done s s.
Definition gets {A} (f : S -> A) : M S A := fun s => Done (f s) s.
Definition modify (f : S -> S) : M S unit := fun s => Done tt (f s).
Definition when (b : bool) (m : M S unit) : M S unit := if b then m else ret tt.

(** [for (x in l) body x], the loop over a sequence fixed beforehand. *)
Fixpoint mforeach {A} (body : A -> M S unit) (l : list A) : M S unit :=
  match l with
  | [] => ret tt
  | x :: l => bind (body x) (fun _ => mforeach body l)
  end.
End monad.

Declare Scope mon_scope.
Delimit Scope mon_scope with mon.
Notation "'let*' x := m 'in' k" := (bind m (fun x => k))
  (at level 10, x name, m at level 200, k at level 200) : mon_scope.
Notation "'let*' ' p := m 'in' k" := (bind m (fun p => k))
  (at level 10, p strict pattern, m at level 200, k at level 200) : mon_scope.
Notation "m ;; k" := (bind m (fun _ => k)) (at level 100, right associativity) : mon_scope.
Open Scope mon_scope.

(** A computation that does not touch the state: a value, or the error the
    process stops with. *)
Definition res (A : Type) : Type := (err + A)%type.
Definition rbind {A B} (r : res A) (k : A -> res B) : res B :=
  match r with inl e => inl e | inr a => k a end.
Notation "'let?' x := m 'in' k" := (rbind m (fun x => k))
  (at level 10, x name, m at level 200, k at level 200) : mon_scope.
Notation "'let?' ' p := m 'in' k" := (rbind m (fun p => k))
  (at level 10, p strict pattern, m at level 200, k at level 200) : mon_scope.
Definition lift {S A} (r : res A) : M S A :=
  fun s => match r with inl e => Failed e | inr a => Done a s end.
(** [None] of a lookup that is the error [e]. *)
Definition or_err {A} (e : err) (o : option A) : res A :=
  match o with Some a => inr a | None => inl e end.
Definition assert_that (e : err) (b : bool) : res unit := if b then inr tt else inl e.

(** The result of one iteration of a C loop body. *)
Inductive ctl : Type := Continue | Break.

(** [for (; cond(i); i++) body(i)], the condition read again before every
    iteration; the result is the final value of [i]. *)
Fixpoint mfor {S} (site : string) (fuel : nat) (cond : Z -> S -> bool)
    (body : Z -> M S ctl) (i : Z) : M S Z :=
  fun s =>
    if cond i s then
      match fuel with
      | O => Failed (Diverges site)
      | Datatypes.S fuel =>
          (let* c := body i in
           match c with
           | Continue => mfor site fuel cond body (i + 1)
           | Break => ret i
           end) s
      end
    else Done i s.

(* --------------------------------------------------------------------- *)
(** ** Weakest preconditions

    [wp m Q E s]: run from [s], [m] ends with a value and a state in [Q], or
    fails with an error in [E].  [E := never] is total correctness, [E :=
    anyerr] partial correctness. *)

Definition wp {S A} (m : M S A) (Q : A -> S -> Prop) (E : err -> Prop) (s : S) : Prop :=
  match m s with Done a s' => Q a s' | Failed e => E e end.

Definition never (e : err) : Prop := False.
Definition anyerr (e : err) : Prop := True.
Definition nofuel (e : err) : Prop := forall m, e <> Diverges m.

Section wp.
Context {S : Type}.

Lemma wp_ret {A} (a : A) (Q : A -> S -> Prop) E s : Q a s -> wp (ret a) Q E s.
Proof. done. Qed.

Lemma wp_bind {A B} (m : M S A) (k : A -> M S B) Q E s :
  wp m (fun a => wp (k a) Q E) E s -> wp (bind m k) Q E s.
Proof. unfold wp, bind. by destruct (m s). Qed.

Lemma wp_fail {A} (e : err) (Q : A -> S -> Prop) (E : err -> Prop) s : E e -> wp (fail e) Q E s.
Proof. done. Qed.

Lemma wp_get (Q : S -> S -> Prop) E s : Q s s -> wp get Q E s.
Proof. done. Qed.

Lemma wp_gets {A} (f : S -> A) (Q : A -> S -> Prop) E s : Q (f s) s -> wp (gets f) Q E s.
Proof. done. Qed.

Lemma wp_modify (f : S -> S) (Q : unit -> S -> Prop) E s : Q tt (f s) -> wp (modify f) Q E s.
Proof. done. Qed.

Lemma wp_when (b : bool) (m : M S unit) Q E s :
  (b = true -> wp m Q E s) -> (b = false -> Q tt s) -> wp (when b m) Q E s.
Proof. destruct b; simpl; intros H1 H2; [by apply H1 | by apply H2]. Qed.

Lemma wp_if {A} (b : bool) (m1 m2 : M S A) Q E s :
  (b = true -> wp m1 Q E s) -> (b = false -> wp m2 Q E s) ->
  wp (if b then m1 else m2) Q E s.
Proof. destruct b; intros H1 H2; [by apply H1 | by apply H2]. Qed.

Lemma wp_mono {A} (m : M S A) (Q Q' : A -> S -> Prop) (E E' : err -> Prop) s :
  wp m Q E s -> (forall a s', Q a s' -> Q' a s') -> (forall e, E e -> E' e) ->
  wp m Q' E' s.
Proof. unfold wp. destruct (m s); auto. Qed.

Lemma wp_and {A} (m : M S A) (Q Q' : A -> S -> Prop) (E : err -> Prop) s :
  wp m Q E s -> wp m Q' E s -> wp m (fun a s' => Q a s' /\ Q' a s') E s.
Proof. unfold wp. destruct (m s); auto. Qed.

Lemma wp_and_any {A} (m : M S A) (Q Q' : A -> S -> Prop) (E : err -> Prop) s :
  wp m Q E s -> wp m Q' (fun _ => True) s -> wp m (fun a s' => Q a s' /\ Q' a s') E s.
Proof. unfold wp. destruct (m s); auto. Qed.

Lemma wp_done {A} (m : M S A) Q E s a s' : m s = Done a s' -> wp m Q E s -> Q a s'.
Proof. unfold wp. intros ->. done. Qed.

Lemma wp_mforeach {A} (I : list A -> S -> Prop) (body : A -> M S unit) E l s :
  I l s ->
  (forall x l' s', I (x :: l') s' -> wp (body x) (fun _ => I l') E s') ->
  wp (mforeach body l) (fun _ => I []) E s.
Proof.
  intros HI Hb. revert s HI. induction l as [|x l IH]; intros s HI; simpl.
  - by apply wp_ret.
  - apply wp_bind. eapply wp_mono; [by apply Hb| |done]. intros ? ? ?. by apply IH.
Qed.

Lemma wp_mfor_end site fuel cond body i (Q : Z -> S -> Prop) E s :
  cond i s = false -> Q i s -> wp (mfor site fuel cond body i) Q E s.
Proof. intros Hc HQ. unfold wp. by destruct fuel; cbn; rewrite Hc. Qed.

Lemma wp_mfor_next site fuel cond body i (Q : Z -> S -> Prop) E s :
  cond i s = true ->
  wp (bind (body i) (fun c => match c with
    | Continue => mfor site fuel cond body (i + 1) | Break => ret i end)) Q E s ->
  wp (mfor site (Datatypes.S fuel) cond body i) Q E s.
Proof. intros Hc Hb. unfold wp. cbn. by rewrite Hc. Qed.

(** An ascending loop bounded by [hi] ends before its fuel does. *)
Lemma wp_mfor (I : Z -> S -> Prop) (hi : Z) site fuel cond body i0 (Q : Z -> S -> Prop) E s0 :
  I i0 s0 -> hi - i0 <= Z.of_nat fuel ->
  (forall i s, i0 <= i -> I i s -> cond i s = true ->
     i < hi /\
     wp (body i) (fun c s' => match c with Continue => I (i + 1) s' | Break => Q i s' end) E s) ->
  (forall i s, i0 <= i -> I i s -> cond i s = false -> Q i s) ->
  wp (mfor site fuel cond body i0) Q E s0.
Proof.
  revert i0 s0. induction fuel as [|fuel IH]; intros i0 s0 HI Hf Hstep Hend; unfold wp; simpl.
  - destruct (cond i0 s0) eqn:Hc; [|apply Hend; auto; lia].
    destruct (Hstep i0 s0) as [Hlt _]; auto; lia.
  - destruct (cond i0 s0) eqn:Hc; [|apply Hend; auto; lia].
    destruct (Hstep i0 s0) as [Hlt Hb]; auto; [lia|].
    unfold bind. unfold wp in Hb.
    destruct (body i0 s0) as [c s1|e] eqn:Hbody; [|done]. destruct c; [|done].
    apply (IH (i0 + 1) s1); auto; [lia| |].
    + intros i s Hi. apply Hstep. lia.
    + intros i s Hi. apply Hend. lia.
Qed.
End wp.

Create HintDb wpdb.
#[export] Hint Resolve wp_ret wp_get wp_gets wp_modify : wpdb.

(** One step of symbolic execution through the monad. *)
Ltac wp_step :=
  lazymatch goal with
  | |- wp (bind _ _) _ _ _ => apply wp_bind
  | |- wp (ret _) _ _ _ => apply wp_ret
  | |- wp (get) _ _ _ => apply wp_get
  | |- wp (gets _) _ _ _ => apply wp_gets
  | |- wp (modify _) _ _ _ => apply wp_modify
  | |- wp (fail _) _ _ _ => apply wp_fail
  | |- wp (when _ _) _ _ _ => apply wp_when; [intros ?|intros ?]
  | |- wp (if ?b then _ else _) _ _ _ => apply wp_if; [intros ?|intros ?]
  end.
Ltac wp_steps := repeat wp_step.

(* --------------------------------------------------------------------- *)
(** ** Frames

    [keeps R E m]: whatever [m] does, the state it ends in is [R]-related to
    the one it started in, and its errors are in [E].  For a preorder [R]
    this is closed under the constructs of the monad, so that a frame
    property of a long function is found by walking through its text. *)

Section keeps.
Context {S : Type} (R : S -> S -> Prop) `{!PreOrder R} (E : err -> Prop).

Definition keeps {A} (m : M S A) : Prop := forall s, wp m (fun _ => R s) E s.

Lemma keeps_ret {A} (a : A) : keeps (ret a).
Proof. intros s. by apply wp_ret. Qed.

Lemma keeps_get : keeps get.
Proof. intros s. by apply wp_get. Qed.

Lemma keeps_gets {A} (f : S -> A) : keeps (gets f).
Proof. intros s. by apply wp_gets. Qed.

Lemma keeps_fail {A} e : E e -> keeps (A := A) (fail e).
Proof. intros He s. by apply wp_fail. Qed.

Lemma keeps_modify f : (forall s, R s (f s)) -> keeps (modify f).
Proof. intros Hf s. apply wp_modify. apply Hf. Qed.

Lemma keeps_bind {A B} (m : M S A) (k : A -> M S B) :
  keeps m -> (forall a, keeps (k a)) -> keeps (bind m k).
Proof.
  intros Hm Hk s. apply wp_bind. eapply wp_mono; [apply Hm| |done].
  intros a s1 H1. eapply wp_mono; [apply Hk| |done]. intros b s2 H2. etransitivity; [apply H1|apply H2].
Qed.

(** A state read by [get] is the current one: the continuation is only run
    from it. *)
Lemma keeps_with_get {A} (k : S -> M S A) :
  (forall s, wp (k s) (fun _ => R s) E s) -> keeps (bind get k).
Proof. intros Hk s. apply wp_bind, wp_get, Hk. Qed.

Lemma keeps_when b m : (b = true -> keeps m) -> keeps (when b m).
Proof. destruct b; intros Hm; [by apply Hm | apply keeps_ret]. Qed.

Lemma keeps_if {A} (b : bool) (m1 m2 : M S A) :
  (b = true -> keeps m1) -> (b = false -> keeps m2) -> keeps (if b then m1 else m2).
Proof. destruct b; auto. Qed.

Lemma keeps_lift {A} (r : res A) : (forall e, r = inl e -> E e) -> keeps (lift r).
Proof. intros Hr s. unfold wp, lift. destruct r; [by apply Hr | done]. Qed.

Lemma keeps_mforeach {A} (body : A -> M S unit) l :
  (forall x, keeps (body x)) -> keeps (mforeach body l).
Proof.
  intros Hb. induction l as [|x l IH]; [apply keeps_ret|]. cbn. by apply keeps_bind.
Qed.

Lemma keeps_mfor site fuel cond (body : Z -> M S ctl) i :
  E (Diverges site) -> (forall i, keeps (body i)) -> keeps (mfor site fuel cond body i).
Proof.
  intros He Hb. revert i. induction fuel as [|fuel IH]; intros i s; unfold wp; cbn.
  - by destruct (cond i s).
  - destruct (cond i s); [|done].
    assert (Hk : keeps (bind (body i) (fun c => match c with
                   | Continue => mfor site fuel cond body (i + 1) | Break => ret i end))).
    { apply keeps_bind; [apply Hb|]. intros []; [apply IH | apply keeps_ret]. }
    apply Hk.
Qed.

Lemma keeps_done {A} (m : M S A) s a s' : keeps m -> m s = Done a s' -> R s s'.
Proof. intros Hm Hs. specialize (Hm s). unfold wp in Hm. by rewrite Hs in Hm. Qed.
End keeps.

Create HintDb keeps.

(** Case analysis on the integer comparisons of the goal, innermost first. *)
Ltac no_if t := lazymatch t with context [if _ then _ else _] => fail | _ => idtac end.
Ltac zcase_one :=
  match goal with
  | |- context [?a <? ?b] => no_if a; no_if b; destruct (Z.ltb_spec a b)
  | |- context [?a <=? ?b] => no_if a; no_if b; destruct (Z.leb_spec a b)
  | |- context [?a =? ?b] => no_if a; no_if b; destruct (Z.eqb_spec a b)
  end.
Ltac zcases := repeat (zcase_one; cbn [negb orb andb]).
