(* ===== verification/Wire.v ===== *)
(** * Wire formats and type words

    [net_types.h], [arch.h] (endianness) and [spread_params.h]: the packet
    and token headers, the bit fields of their [type] word, byte-order
    flipping, and the byte buffers that carry token bodies and packet
    bodies.  The host is the one [daemon/config.h] was generated for: little
    endian ([WORDS_BIGENDIAN] undefined), 4-byte [int], 8-byte [size_t]. *)

From Stdlib Require Import ZArith Lia.
From stdpp Require Import base strings numbers option gmap list.
From S2P Require Import Prelude.

(* --------------------------------------------------------------------- *)
(** ** Parameters of the daemon ([spread_params.h], [spu_data_link.h]) *)

Definition MAX_PROCS_RING : Z := 128.
Definition MAX_REPS : Z := 25.
Definition MAX_FORM_REPS : Z := 20.
Definition MAX_PACKETS_IN_STRUCT : Z := 8192.
Definition PACKET_MASK : Z := 0x1fff.
Definition MAX_SEQ_GAP : Z := 1600.
Definition MAX_EVS_ROUNDS : Z := 500.
Definition WATER_MARK : Z := 500.
Definition MAX_SCATTER_ELEMENTS : Z := 100.
Definition MAX_WRAP_SEQUENCE_VALUE : Z := 2 ^ 30.
Definition MAX_PACKET_SIZE : Z := 1472.
Definition INT32_MAX : Z := 2 ^ 31 - 1.

(** [Packets[seq & PACKET_MASK]]: the window slot of a sequence number. *)
Definition slot (seq : Z) : Z := Z.land seq PACKET_MASK.

(* --------------------------------------------------------------------- *)
(** ** The [type] word ([net_types.h]) *)

Definition UNRELIABLE_TYPE : Z := 0x00000001.
Definition RELIABLE_TYPE : Z := 0x00000002.
Definition FIFO_TYPE : Z := 0x00000004.
Definition AGREED_TYPE : Z := 0x00000008.
Definition SAFE_TYPE : Z := 0x00000010.
Definition REGULAR_TYPE : Z := 0x0000001f.
Definition BLOCK_REGULAR_DELIVERY : Z := REGULAR_TYPE + 1.
Definition ROUTED_TYPE : Z := 0x00000020.
Definition HURRY_TYPE : Z := 0x00000040.
Definition ALIVE_TYPE : Z := 0x00000100.
Definition JOIN_TYPE : Z := 0x00000200.
Definition REFER_TYPE : Z := 0x00000400.
Definition MEMBERSHIP_TYPE : Z := 0x00000700.
Definition FORM1_TYPE : Z := 0x00001000.
Definition FORM2_TYPE : Z := 0x00002000.
Definition FORM_TYPE : Z := 0x00003000.
Definition ARQ_TYPE : Z := 0x000f0000.
Definition RETRANS_TYPE : Z := 0x00f00000.
Definition STATUS_TYPE : Z := 0x01000000.
Definition PARTITION_TYPE : Z := 0x02000000.
Definition FC_TYPE : Z := 0x04000000.
Definition RELOAD_TYPE : Z := 0x08000000.
Definition CONTROL_TYPE : Z := 0x0f000000.

Definition Is_reliable (t : Z) : Z := Z.land t RELIABLE_TYPE.
Definition Is_fifo (t : Z) : Z := Z.land t FIFO_TYPE.
Definition Is_agreed (t : Z) : Z := Z.land t AGREED_TYPE.
Definition Is_safe (t : Z) : Z := Z.land t SAFE_TYPE.
Definition Is_regular (t : Z) : Z := Z.land t REGULAR_TYPE.
Definition Is_routed (t : Z) : Z := Z.land t ROUTED_TYPE.
Definition Set_routed (t : Z) : Z := Z.lor t ROUTED_TYPE.
Definition Clear_routed (t : Z) : Z := Z.land t (Z.lnot ROUTED_TYPE).
Definition Is_hurry (t : Z) : Z := Z.land t HURRY_TYPE.
Definition Is_alive (t : Z) : Z := Z.land t ALIVE_TYPE.
Definition Is_join (t : Z) : Z := Z.land t JOIN_TYPE.
Definition Is_refer (t : Z) : Z := Z.land t REFER_TYPE.
Definition Is_membership (t : Z) : Z := Z.land t MEMBERSHIP_TYPE.
Definition Is_form (t : Z) : Z := Z.land t FORM_TYPE.
Definition Is_form1 (t : Z) : Z := Z.land t FORM1_TYPE.
Definition Is_form2 (t : Z) : Z := Z.land t FORM2_TYPE.
Definition Get_arq (t : Z) : Z := Z.shiftr (Z.land t ARQ_TYPE) 16.
Definition Set_arq (t val : Z) : Z :=
  Z.lor (Z.land t (Z.lnot ARQ_TYPE)) (Z.land (Z.shiftl val 16) ARQ_TYPE).
Definition Get_retrans (t : Z) : Z := Z.shiftr (Z.land t RETRANS_TYPE) 20.
Definition Set_retrans (t val : Z) : Z :=
  Z.lor (Z.land t (Z.lnot RETRANS_TYPE)) (Z.land (Z.shiftl val 20) RETRANS_TYPE).
Definition Is_status (t : Z) : Z := Z.land t STATUS_TYPE.
Definition Is_partition (t : Z) : Z := Z.land t PARTITION_TYPE.
Definition Is_fc (t : Z) : Z := Z.land t FC_TYPE.
Definition Is_conf_reload (t : Z) : Z := Z.land t RELOAD_TYPE.
Definition Is_control (t : Z) : Z := Z.land t CONTROL_TYPE.

(* --------------------------------------------------------------------- *)
(** ** Endianness ([arch.h]) *)

Definition ENDIAN_TYPE : Z := 0x80000080.
Definition ARCH_ENDIAN : Z := 0x80000080.
(** The result of [Set_endian] is an [unsigned], stored in an [int32]. *)
Definition Set_endian (t : Z) : Z :=
  s32 (Z.lor (Z.land (u32 t) (Z.lnot ENDIAN_TYPE)) ARCH_ENDIAN).
Definition Same_endian (t : Z) : bool := Z.land (u32 t) ENDIAN_TYPE =? ARCH_ENDIAN.

Definition Flip_int16 (t : Z) : Z :=
  Z.lor (Z.land (Z.shiftr t 8) 0x00ff) (Z.land (Z.shiftl t 8) 0xff00).
Definition Flip_int32 (t : Z) : Z :=
  Z.lor (Z.lor (Z.land (Z.shiftr t 24) 0x000000ff) (Z.land (Z.shiftr t 8) 0x0000ff00))
        (Z.lor (Z.land (Z.shiftl t 8) 0x00ff0000) (Z.land (Z.shiftl t 24) 0xff000000)).

(* --------------------------------------------------------------------- *)
(** ** Headers *)

Record membership_id : Type := mkMembId {
  mi_proc_id : Z;  (* int32 *)
  mi_time : Z;  (* int32 *)
}.

Definition memb_id_eqb (m1 m2 : membership_id) : bool :=
  (mi_proc_id m1 =? mi_proc_id m2) && (mi_time m1 =? mi_time m2).

(** [packet_header] with its embedded [fragment_header]. *)
Record packet_header : Type := mkPacketHeader {
  ph_type : Z;  (* int32 *)
  ph_transmiter_id : Z;  (* int32 *)
  ph_proc_id : Z;  (* int32 *)
  ph_memb_id : membership_id;
  ph_seq : Z;  (* int32 *)
  ph_token_round : Z;  (* int32 *)
  ph_conf_hash : Z;  (* int32 *)
  ph_data_len : Z;  (* int16u *)
  ph_padding : Z;  (* int16 *)
  ph_fragment_index : Z;  (* int16 *)
  ph_fragment_len : Z;  (* int16 *)
}.

Definition set_ph_type (x : Z) (r : packet_header) : packet_header :=
  mkPacketHeader x (ph_transmiter_id r) (ph_proc_id r) (ph_memb_id r) (ph_seq r)
    (ph_token_round r) (ph_conf_hash r) (ph_data_len r) (ph_padding r) (ph_fragment_index
    r) (ph_fragment_len r).
Definition set_ph_transmiter_id (x : Z) (r : packet_header) : packet_header :=
  mkPacketHeader (ph_type r) x (ph_proc_id r) (ph_memb_id r) (ph_seq r) (ph_token_round r)
    (ph_conf_hash r) (ph_data_len r) (ph_padding r) (ph_fragment_index r) (ph_fragment_len
    r).
Definition set_ph_proc_id (x : Z) (r : packet_header) : packet_header :=
  mkPacketHeader (ph_type r) (ph_transmiter_id r) x (ph_memb_id r) (ph_seq r)
    (ph_token_round r) (ph_conf_hash r) (ph_data_len r) (ph_padding r) (ph_fragment_index
    r) (ph_fragment_len r).
Definition set_ph_memb_id (x : membership_id) (r : packet_header) : packet_header :=
  mkPacketHeader (ph_type r) (ph_transmiter_id r) (ph_proc_id r) x (ph_seq r)
    (ph_token_round r) (ph_conf_hash r) (ph_data_len r) (ph_padding r) (ph_fragment_index
    r) (ph_fragment_len r).
Definition set_ph_seq (x : Z) (r : packet_header) : packet_header :=
  mkPacketHeader (ph_type r) (ph_transmiter_id r) (ph_proc_id r) (ph_memb_id r) x
    (ph_token_round r) (ph_conf_hash r) (ph_data_len r) (ph_padding r) (ph_fragment_index
    r) (ph_fragment_len r).
Definition set_ph_token_round (x : Z) (r : packet_header) : packet_header :=
  mkPacketHeader (ph_type r) (ph_transmiter_id r) (ph_proc_id r) (ph_memb_id r) (ph_seq r)
    x (ph_conf_hash r) (ph_data_len r) (ph_padding r) (ph_fragment_index r)
    (ph_fragment_len r).
Definition set_ph_conf_hash (x : Z) (r : packet_header) : packet_header :=
  mkPacketHeader (ph_type r) (ph_transmiter_id r) (ph_proc_id r) (ph_memb_id r) (ph_seq r)
    (ph_token_round r) x (ph_data_len r) (ph_padding r) (ph_fragment_index r)
    (ph_fragment_len r).
Definition set_ph_data_len (x : Z) (r : packet_header) : packet_header :=
  mkPacketHeader (ph_type r) (ph_transmiter_id r) (ph_proc_id r) (ph_memb_id r) (ph_seq r)
    (ph_token_round r) (ph_conf_hash r) x (ph_padding r) (ph_fragment_index r)
    (ph_fragment_len r).
Definition set_ph_padding (x : Z) (r : packet_header) : packet_header :=
  mkPacketHeader (ph_type r) (ph_transmiter_id r) (ph_proc_id r) (ph_memb_id r) (ph_seq r)
    (ph_token_round r) (ph_conf_hash r) (ph_data_len r) x (ph_fragment_index r)
    (ph_fragment_len r).
Definition set_ph_fragment_index (x : Z) (r : packet_header) : packet_header :=
  mkPacketHeader (ph_type r) (ph_transmiter_id r) (ph_proc_id r) (ph_memb_id r) (ph_seq r)
    (ph_token_round r) (ph_conf_hash r) (ph_data_len r) (ph_padding r) x (ph_fragment_len
    r).
Definition set_ph_fragment_len (x : Z) (r : packet_header) : packet_header :=
  mkPacketHeader (ph_type r) (ph_transmiter_id r) (ph_proc_id r) (ph_memb_id r) (ph_seq r)
    (ph_token_round r) (ph_conf_hash r) (ph_data_len r) (ph_padding r) (ph_fragment_index
    r) x.

Record token_header : Type := mkTokenHeader {
  th_type : Z;  (* int32 *)
  th_transmiter_id : Z;  (* int32 *)
  th_proc_id : Z;  (* int32 *)
  th_memb_id : membership_id;
  th_seq : Z;  (* int32 *)
  th_aru : Z;  (* int32 *)
  th_aru_last_id : Z;  (* int32 *)
  th_flow_control : Z;  (* int16 *)
  th_rtr_len : Z;  (* int16u *)
  th_conf_hash : Z;  (* int32 *)
}.

Definition set_th_type (x : Z) (r : token_header) : token_header :=
  mkTokenHeader x (th_transmiter_id r) (th_proc_id r) (th_memb_id r) (th_seq r) (th_aru r)
    (th_aru_last_id r) (th_flow_control r) (th_rtr_len r) (th_conf_hash r).
Definition set_th_transmiter_id (x : Z) (r : token_header) : token_header :=
  mkTokenHeader (th_type r) x (th_proc_id r) (th_memb_id r) (th_seq r) (th_aru r)
    (th_aru_last_id r) (th_flow_control r) (th_rtr_len r) (th_conf_hash r).
Definition set_th_proc_id (x : Z) (r : token_header) : token_header :=
  mkTokenHeader (th_type r) (th_transmiter_id r) x (th_memb_id r) (th_seq r) (th_aru r)
    (th_aru_last_id r) (th_flow_control r) (th_rtr_len r) (th_conf_hash r).
Definition set_th_memb_id (x : membership_id) (r : token_header) : token_header :=
  mkTokenHeader (th_type r) (th_transmiter_id r) (th_proc_id r) x (th_seq r) (th_aru r)
    (th_aru_last_id r) (th_flow_control r) (th_rtr_len r) (th_conf_hash r).
Definition set_th_seq (x : Z) (r : token_header) : token_header :=
  mkTokenHeader (th_type r) (th_transmiter_id r) (th_proc_id r) (th_memb_id r) x (th_aru
    r) (th_aru_last_id r) (th_flow_control r) (th_rtr_len r) (th_conf_hash r).
Definition set_th_aru (x : Z) (r : token_header) : token_header :=
  mkTokenHeader (th_type r) (th_transmiter_id r) (th_proc_id r) (th_memb_id r) (th_seq r)
    x (th_aru_last_id r) (th_flow_control r) (th_rtr_len r) (th_conf_hash r).
Definition set_th_aru_last_id (x : Z) (r : token_header) : token_header :=
  mkTokenHeader (th_type r) (th_transmiter_id r) (th_proc_id r) (th_memb_id r) (th_seq r)
    (th_aru r) x (th_flow_control r) (th_rtr_len r) (th_conf_hash r).
Definition set_th_flow_control (x : Z) (r : token_header) : token_header :=
  mkTokenHeader (th_type r) (th_transmiter_id r) (th_proc_id r) (th_memb_id r) (th_seq r)
    (th_aru r) (th_aru_last_id r) x (th_rtr_len r) (th_conf_hash r).
Definition set_th_rtr_len (x : Z) (r : token_header) : token_header :=
  mkTokenHeader (th_type r) (th_transmiter_id r) (th_proc_id r) (th_memb_id r) (th_seq r)
    (th_aru r) (th_aru_last_id r) (th_flow_control r) x (th_conf_hash r).
Definition set_th_conf_hash (x : Z) (r : token_header) : token_header :=
  mkTokenHeader (th_type r) (th_transmiter_id r) (th_proc_id r) (th_memb_id r) (th_seq r)
    (th_aru r) (th_aru_last_id r) (th_flow_control r) (th_rtr_len r) x.

Definition zero_memb_id : membership_id := mkMembId 0 0.
Definition zero_packet_header : packet_header := mkPacketHeader 0 0 0 zero_memb_id 0 0 0 0 0 0 0.
Definition zero_token_header : token_header := mkTokenHeader 0 0 0 zero_memb_id 0 0 0 0 0 0.

Definition sizeof_packet_header : Z := 40.
Definition sizeof_packet_body : Z := MAX_PACKET_SIZE - sizeof_packet_header.
Definition sizeof_fragment_header : Z := 4.
Definition sizeof_token_header : Z := 40.
Definition sizeof_token_body : Z := (2 ^ 16 - 1) - 20 - 8 - sizeof_token_header.
Definition sizeof_ring_rtr : Z := 16.
Definition sizeof_int32 : Z := 4.
Definition sizeof_int16 : Z := 2.
Definition sizeof_membership_id : Z := 8.

(** [network.c] [Flip_pack]: every field but the fragment header, which
    [Prot_handle_bcast] flips with the other fragment headers. *)
Definition Flip_pack (h : packet_header) : packet_header :=
  mkPacketHeader
    (s32 (Flip_int32 (ph_type h)))
    (s32 (Flip_int32 (ph_transmiter_id h)))
    (s32 (Flip_int32 (ph_proc_id h)))
    (mkMembId (s32 (Flip_int32 (mi_proc_id (ph_memb_id h)))) (s32 (Flip_int32 (mi_time (ph_memb_id h)))))
    (s32 (Flip_int32 (ph_seq h)))
    (s32 (Flip_int32 (ph_token_round h)))
    (s32 (Flip_int32 (ph_conf_hash h)))
    (u16 (Flip_int16 (ph_data_len h)))
    (ph_padding h) (ph_fragment_index h) (ph_fragment_len h).

(** [network.c] [Flip_token]. *)
Definition Flip_token (h : token_header) : token_header :=
  mkTokenHeader
    (s32 (Flip_int32 (th_type h)))
    (s32 (Flip_int32 (th_transmiter_id h)))
    (s32 (Flip_int32 (th_proc_id h)))
    (mkMembId (s32 (Flip_int32 (mi_proc_id (th_memb_id h)))) (s32 (Flip_int32 (mi_time (th_memb_id h)))))
    (s32 (Flip_int32 (th_seq h)))
    (s32 (Flip_int32 (th_aru h)))
    (s32 (Flip_int32 (th_aru_last_id h)))
    (s16 (Flip_int16 (th_flow_control h)))
    (u16 (Flip_int16 (th_rtr_len h)))
    (s32 (Flip_int32 (th_conf_hash h))).

(* --------------------------------------------------------------------- *)
(** ** Byte buffers

    A buffer is the list of its bytes (each in [0, 256)); reading past the
    bytes the model knows gives 0, writing past them extends the list. *)

Definition buf : Type := list Z.

Definition get_byte (b : buf) (o : Z) : Z := aget 0 b o.
Definition get_u16 (b : buf) (o : Z) : Z := get_byte b o + 256 * get_byte b (o + 1).
Definition get_s16 (b : buf) (o : Z) : Z := s16 (get_u16 b o).
Definition get_u32 (b : buf) (o : Z) : Z := get_u16 b o + 2 ^ 16 * get_u16 b (o + 2).
Definition get_s32 (b : buf) (o : Z) : Z := s32 (get_u32 b o).

(** [get_bytes b o n], the bytes [b[o .. o+n)]. *)
Definition get_bytes (b : buf) (o n : Z) : list Z :=
  resize (Z.to_nat n) 0 (drop (Z.to_nat o) b).
Definition put_bytes (b : buf) (o : Z) (bs : list Z) : buf :=
  resize (Z.to_nat o) 0 b ++ bs ++ drop (Z.to_nat o + length bs) b.

Definition enc16 (z : Z) : list Z := [z mod 256; (z / 256) mod 256].
Definition enc32 (z : Z) : list Z := enc16 z ++ enc16 (z / 2 ^ 16).

(** A fragment header inside a packet body, [(fragment_header * ) &body[o]]. *)
Definition get_frag (b : buf) (o : Z) : Z * Z := (get_s16 b o, get_s16 b (o + 2)).
Definition enc_frag (index len : Z) : list Z := enc16 index ++ enc16 len.

(** The padding up to the next multiple of 4, the fall-through [switch] of
    [Prot_handle_bcast], [Send_new_packets] and [Deliver_packet].  The
    operand is an [int]: C's remainder has the sign of the dividend, and a
    negative one matches no case. *)
Definition padding_for (n : Z) : Z :=
  match Z.rem n 4 with 1 => 3 | 2 => 2 | 3 => 1 | _ => 0 end.

(* --------------------------------------------------------------------- *)
(** ** Bits and bytes *)

Definition int32_ok (z : Z) : Prop := - 2 ^ 31 <= z < 2 ^ 31.
Definition int16_ok (z : Z) : Prop := - 2 ^ 15 <= z < 2 ^ 15.
Definition int16u_ok (z : Z) : Prop := 0 <= z < 2 ^ 16.

(** A bit of a literal mask, by evaluation. *)
Ltac bits_spec := rewrite ?Z.lor_spec, ?Z.land_spec, ?Z.shiftl_spec, ?Z.shiftr_spec by lia.
(** Split [n], known to be below a literal, into its values. *)
Ltac each_below n hi :=
  lazymatch hi with
  | 0 => exfalso; lia
  | _ => let hi' := eval vm_compute in (hi - 1) in
      destruct (decide (n = hi')) as [->|?]; [|each_below n hi']
  end.

Section bits.
Lemma testbit_above m n k : 0 <= m < 2 ^ k -> 0 <= k <= n -> Z.testbit m n = false.
Proof.
  intros Hm Hk. destruct (decide (m = 0)) as [->|]; [apply Z.bits_0|].
  apply Z.bits_above_log2; [lia|]. apply Z.log2_lt_pow2; [lia|].
  pose proof (Z.pow_le_mono_r 2 k n). lia.
Qed.

Lemma u32_testbit z n : 0 <= n < 32 -> Z.testbit (u32 z) n = Z.testbit z n.
Proof. intros Hn. apply Z.mod_pow2_bits_low. lia. Qed.
Lemma u16_testbit z n : 0 <= n < 16 -> Z.testbit (u16 z) n = Z.testbit z n.
Proof. intros Hn. apply Z.mod_pow2_bits_low. lia. Qed.

(** Two words are equal when their bits are. *)
Lemma u32_ext a b : (forall n, 0 <= n < 32 -> Z.testbit a n = Z.testbit b n) -> u32 a = u32 b.
Proof.
  intros Hb. apply Z.bits_inj'. intros n Hn. destruct (Z.ltb_spec n 32).
  - rewrite !u32_testbit by lia. apply Hb. lia.
  - unfold u32. by rewrite !Z.mod_pow2_bits_high by lia.
Qed.
Lemma u16_ext a b : (forall n, 0 <= n < 16 -> Z.testbit a n = Z.testbit b n) -> u16 a = u16 b.
Proof.
  intros Hb. apply Z.bits_inj'. intros n Hn. destruct (Z.ltb_spec n 16).
  - rewrite !u16_testbit by lia. apply Hb. lia.
  - unfold u16. by rewrite !Z.mod_pow2_bits_high by lia.
Qed.

(** Flipping exchanges the bytes: bit [n] of byte [k] comes from byte [3 - k]. *)
Lemma Flip_int32_testbit z n :
  0 <= n < 32 -> Z.testbit (Flip_int32 z) n = Z.testbit z (n mod 8 + 8 * (3 - n / 8)).
Proof.
  intros Hn. unfold Flip_int32. bits_spec.
  each_below n 32; cbn; rewrite ?andb_true_r, ?andb_false_r, ?orb_false_r; reflexivity.
Qed.
Lemma Flip_int16_testbit z n :
  0 <= n < 16 -> Z.testbit (Flip_int16 z) n = Z.testbit z (n mod 8 + 8 * (1 - n / 8)).
Proof.
  intros Hn. unfold Flip_int16. bits_spec.
  each_below n 16; cbn; rewrite ?andb_true_r, ?andb_false_r, ?orb_false_r; reflexivity.
Qed.

Lemma u32_Flip_int32 a b : u32 a = u32 b -> u32 (Flip_int32 a) = u32 (Flip_int32 b).
Proof.
  intros Hab. apply u32_ext. intros n Hn. rewrite !Flip_int32_testbit by done.
  pose proof (Z.mod_pos_bound n 8). pose proof (Z.div_lt_upper_bound n 8 4).
  pose proof (Z.div_pos n 8). rewrite <- (u32_testbit a), <- (u32_testbit b) by lia. by rewrite Hab.
Qed.
Lemma u16_Flip_int16 a b : u16 a = u16 b -> u16 (Flip_int16 a) = u16 (Flip_int16 b).
Proof.
  intros Hab. apply u16_ext. intros n Hn. rewrite !Flip_int16_testbit by done.
  pose proof (Z.mod_pos_bound n 8). pose proof (Z.div_lt_upper_bound n 8 2).
  pose proof (Z.div_pos n 8). rewrite <- (u16_testbit a), <- (u16_testbit b) by lia. by rewrite Hab.
Qed.

Lemma flip32_twice z : u32 (Flip_int32 (Flip_int32 z)) = u32 z.
Proof.
  apply u32_ext. intros n Hn. rewrite Flip_int32_testbit by done.
  each_below n 32; rewrite Flip_int32_testbit by (vm_compute; split; [discriminate|reflexivity]); reflexivity.
Qed.
Lemma flip16_twice z : u16 (Flip_int16 (Flip_int16 z)) = u16 z.
Proof.
  apply u16_ext. intros n Hn. rewrite Flip_int16_testbit by done.
  each_below n 16; rewrite Flip_int16_testbit by (vm_compute; split; [discriminate|reflexivity]); reflexivity.
Qed.

Lemma s32_flip_flip z : int32_ok z -> s32 (Flip_int32 (s32 (Flip_int32 z))) = z.
Proof.
  intros Hz. rewrite <- s32_u32. rewrite (u32_Flip_int32 _ (Flip_int32 z)) by apply u32_s32.
  rewrite flip32_twice, s32_u32. by apply s32_id.
Qed.
Lemma s16_u16 z : s16 (u16 z) = s16 z.
Proof. unfold u16, s16. by rewrite Zplus_mod_idemp_l. Qed.
Lemma s16_flip_flip z : int16_ok z -> s16 (Flip_int16 (s16 (Flip_int16 z))) = z.
Proof.
  intros Hz. rewrite <- s16_u16. rewrite (u16_Flip_int16 _ (Flip_int16 z)) by apply u16_s16.
  rewrite flip16_twice, s16_u16. by apply s16_id.
Qed.
Lemma u16_flip_flip z : int16u_ok z -> u16 (Flip_int16 (u16 (Flip_int16 z))) = z.
Proof.
  intros Hz. rewrite (u16_Flip_int16 _ (Flip_int16 z)) by (unfold u16; by rewrite Z.mod_mod).
  rewrite flip16_twice. by apply u16_id.
Qed.

(** The fields packed in the type word. *)
Lemma field_get_set mask k t v :
  (forall n, 0 <= n < 4 -> Z.testbit mask (n + k) = true) ->
  (forall n, 0 <= n -> n < k \/ k + 4 <= n -> Z.testbit mask n = false) -> 0 <= k ->
  Z.shiftr (Z.land (Z.lor (Z.land t (Z.lnot mask)) (Z.land (Z.shiftl v k) mask)) mask) k = v mod 16 /\
  Z.land (Z.lor (Z.land t (Z.lnot mask)) (Z.land (Z.shiftl v k) mask)) (Z.lnot mask) = Z.land t (Z.lnot mask).
Proof.
  intros Hin Hout Hk. split; apply Z.bits_inj'; intros n Hn.
  - rewrite Z.shiftr_spec, Z.land_spec, Z.lor_spec, !Z.land_spec, Z.lnot_spec, Z.shiftl_spec by lia.
    change 16 with (2 ^ 4). replace (n + k - k) with n by lia. destruct (Z.ltb_spec n 4).
    + rewrite Hin by lia. rewrite (Z.mod_pow2_bits_low v 4 n) by lia.
      by rewrite andb_false_r, !andb_true_r.
    + rewrite Hout by lia. rewrite (Z.mod_pow2_bits_high v 4 n) by lia. by rewrite !andb_false_r.
  - rewrite Z.land_spec, Z.lor_spec, !Z.land_spec, Z.lnot_spec by lia.
    destruct (Z.testbit mask n); cbn; by rewrite ?andb_false_r, ?andb_true_r, ?orb_false_r.
Qed.
End bits.

(** The values the fields of a header can hold. *)
Definition memb_id_ok (m : membership_id) : Prop := int32_ok (mi_proc_id m) /\ int32_ok (mi_time m).
Definition packet_header_ok (h : packet_header) : Prop :=
  int32_ok (ph_type h) /\ int32_ok (ph_transmiter_id h) /\ int32_ok (ph_proc_id h) /\
  memb_id_ok (ph_memb_id h) /\ int32_ok (ph_seq h) /\ int32_ok (ph_token_round h) /\
  int32_ok (ph_conf_hash h) /\ int16u_ok (ph_data_len h).
Definition token_header_ok (h : token_header) : Prop :=
  int32_ok (th_type h) /\ int32_ok (th_transmiter_id h) /\ int32_ok (th_proc_id h) /\
  memb_id_ok (th_memb_id h) /\ int32_ok (th_seq h) /\ int32_ok (th_aru h) /\
  int32_ok (th_aru_last_id h) /\ int16_ok (th_flow_control h) /\ int16u_ok (th_rtr_len h) /\
  int32_ok (th_conf_hash h).

(** A header that crosses between machines of different byte order is
    read back as it was: [Flip_pack] and [Flip_token] undo themselves on every
    header the C structures can hold. *)
Theorem Flip_headers_involutive (p : packet_header) (t : token_header) :
  packet_header_ok p -> token_header_ok t ->
  Flip_pack (Flip_pack p) = p /\ Flip_token (Flip_token t) = t.
Proof.
  destruct p as [? ? ? [] ? ? ? ? ? ? ?], t as [? ? ? [] ? ? ? ? ? ?].
  unfold packet_header_ok, token_header_ok, memb_id_ok, Flip_pack, Flip_token. cbn -[Flip_int32 Flip_int16 s32 s16 u16].
  intros (?&?&?&[]&?&?&?&?) (?&?&?&[]&?&?&?&?&?&?).
  by rewrite !s32_flip_flip, !s16_flip_flip, !u16_flip_flip by done.
Qed.

Lemma Flip_headers_involutive_witness :
  let p := mkPacketHeader 8 11 12 (mkMembId 11 1700000000) (-5) 3 77 1400 0 1 1396 in
  let t := mkTokenHeader (-2147483520) 11 12 (mkMembId 11 1700000000) 40 30 12 (-7) 32 77 in
  Flip_pack p <> p /\ Flip_pack (Flip_pack p) = p.
Proof.
  intros p t. split; [vm_compute; discriminate|].
  refine (proj1 (Flip_headers_involutive p t _ _)).
  - repeat split; vm_compute; discriminate.
  - repeat split; vm_compute; discriminate.
Defined.

Lemma arq_field t v :
  Get_arq (Set_arq t v) = v mod 16 /\
  Z.land (Set_arq t v) (Z.lnot ARQ_TYPE) = Z.land t (Z.lnot ARQ_TYPE).
Proof.
  unfold Get_arq, Set_arq. apply field_get_set; [|intros n Hn Hc|lia].
  - intros n Hn. each_below n 4; reflexivity.
  - destruct (Z.ltb_spec n 32); [|apply (testbit_above _ _ 32); [vm_compute; split; [discriminate|reflexivity]|lia]].
    each_below n 32; (reflexivity || (exfalso; lia)).
Qed.
Lemma retrans_field t v :
  Get_retrans (Set_retrans t v) = v mod 16 /\
  Z.land (Set_retrans t v) (Z.lnot RETRANS_TYPE) = Z.land t (Z.lnot RETRANS_TYPE).
Proof.
  unfold Get_retrans, Set_retrans. apply field_get_set; [|intros n Hn Hc|lia].
  - intros n Hn. each_below n 4; reflexivity.
  - destruct (Z.ltb_spec n 32); [|apply (testbit_above _ _ 32); [vm_compute; split; [discriminate|reflexivity]|lia]].
    each_below n 32; (reflexivity || (exfalso; lia)).
Qed.

(** The acknowledgement and retransmission counters packed in the type
    word: a counter is read back modulo 16, the other bits of the word are
    untouched, and marking a word with this machine's byte order is
    recognised. *)
Theorem type_fields (t v : Z) :
  Get_arq (Set_arq t v) = v mod 16 /\
  Z.land (Set_arq t v) (Z.lnot ARQ_TYPE) = Z.land t (Z.lnot ARQ_TYPE) /\
  Get_retrans (Set_retrans t v) = v mod 16 /\
  Z.land (Set_retrans t v) (Z.lnot RETRANS_TYPE) = Z.land t (Z.lnot RETRANS_TYPE) /\
  Same_endian (Set_endian t) = true.
Proof.
  destruct (arq_field t v), (retrans_field t v). split_and!; try done.
  unfold Same_endian, Set_endian. rewrite u32_s32. apply Z.eqb_eq.
  apply Z.bits_inj'. intros n Hn. destruct (Z.ltb_spec n 32) as [Hlt|Hge].
  - rewrite Z.land_spec, u32_testbit, Z.lor_spec, Z.land_spec, Z.lnot_spec by lia.
    change ARCH_ENDIAN with ENDIAN_TYPE. destruct (Z.testbit ENDIAN_TYPE n); [|by rewrite andb_false_r].
    by rewrite orb_true_r.
  - rewrite Z.land_spec. rewrite (testbit_above ENDIAN_TYPE n 32), (testbit_above ARCH_ENDIAN n 32) by
      (unfold ENDIAN_TYPE, ARCH_ENDIAN; lia). apply andb_false_r.
Qed.
