(* ===== verification/Bytes.v ===== *)
(** * Byte buffers

    A buffer is known by its bytes: reading and writing at an offset, the
    fields the C code reads through a cast pointer, and that writing a field
    and reading it back gives the value at the width of the field. *)

From Stdlib Require Import ZArith Lia.
From stdpp Require Import base strings numbers option gmap list.
From S2P Require Import Prelude Wire.

Section bytes.
Implicit Types (b bs : buf) (o n i z : Z).

Lemma get_byte_resize b n i : 0 <= i < n -> aget 0 (resize (Z.to_nat n) 0 b) i = get_byte b i.
Proof.
  intros Hi. unfold get_byte, aget. destruct (Z.ltb_spec i 0); [lia|].
  destruct (decide (Z.to_nat i < length b)%nat) as [Hl|Hl].
  - rewrite lookup_resize by lia. done.
  - rewrite lookup_resize_new by lia. rewrite lookup_ge_None_2 by lia. done.
Qed.

Lemma get_byte_app_l b bs i : i < Z.of_nat (length b) -> get_byte (b ++ bs) i = get_byte b i.
Proof.
  intros Hi. unfold get_byte, aget. destruct (Z.ltb_spec i 0); [done|]. by rewrite lookup_app_l by lia.
Qed.

Lemma get_byte_app_r b bs i :
  Z.of_nat (length b) <= i -> get_byte (b ++ bs) i = get_byte bs (i - Z.of_nat (length b)).
Proof.
  intros Hi. unfold get_byte, aget. destruct (Z.ltb_spec i 0), (Z.ltb_spec (i - Z.of_nat (length b)) 0); try lia.
  rewrite lookup_app_r by lia. by replace (Z.to_nat i - length b)%nat with (Z.to_nat (i - Z.of_nat (length b))) by lia.
Qed.

Lemma get_byte_drop b o i : 0 <= o -> 0 <= i -> get_byte (drop (Z.to_nat o) b) i = get_byte b (o + i).
Proof.
  intros Ho Hi. unfold get_byte, aget. destruct (Z.ltb_spec i 0), (Z.ltb_spec (o + i) 0); try lia.
  rewrite lookup_drop. by replace (Z.to_nat o + Z.to_nat i)%nat with (Z.to_nat (o + i)) by lia.
Qed.

Lemma get_byte_put b o bs i :
  0 <= o ->
  get_byte (put_bytes b o bs) i
  = if (o <=? i) && (i <? o + Z.of_nat (length bs)) then get_byte bs (i - o) else get_byte b i.
Proof.
  intros Ho. unfold put_bytes.
  assert (Hr : Z.of_nat (length (resize (Z.to_nat o) 0 b)) = o) by (rewrite length_resize; lia).
  destruct (Z.leb_spec o i) as [H1|H1]; cbn [andb].
  - rewrite get_byte_app_r, Hr by lia. destruct (Z.ltb_spec i (o + Z.of_nat (length bs))) as [H2|H2].
    + rewrite get_byte_app_l by lia. done.
    + rewrite get_byte_app_r by lia.
      replace (Z.to_nat o + length bs)%nat with (Z.to_nat (o + Z.of_nat (length bs))) by lia.
      rewrite get_byte_drop by lia. f_equal. lia.
  - rewrite get_byte_app_l by lia. destruct (decide (0 <= i)); [by apply get_byte_resize; lia|].
    unfold get_byte, aget. by rewrite (proj2 (Z.ltb_lt i 0)) by lia.
Qed.

Lemma get_byte_put_out b o bs i :
  0 <= o -> i < o \/ o + Z.of_nat (length bs) <= i -> get_byte (put_bytes b o bs) i = get_byte b i.
Proof.
  intros Ho Hi. rewrite get_byte_put by done.
  destruct (Z.leb_spec o i), (Z.ltb_spec i (o + Z.of_nat (length bs))); (done || lia).
Qed.

Lemma get_byte_put_in b o bs i :
  0 <= o -> 0 <= i < Z.of_nat (length bs) -> get_byte (put_bytes b o bs) (o + i) = get_byte bs i.
Proof.
  intros Ho Hi. rewrite get_byte_put by done.
  destruct (Z.leb_spec o (o + i)), (Z.ltb_spec (o + i) (o + Z.of_nat (length bs))); try lia. f_equal. lia.
Qed.

(** [get_bytes] is the bytes one by one. *)
Lemma get_bytes_length b o n : length (get_bytes b o n) = Z.to_nat n.
Proof. apply length_resize. Qed.

Lemma get_bytes_seq b o n : 0 <= o -> get_bytes b o n = (fun i => get_byte b (o + i)) <$> seqZ 0 n.
Proof.
  intros Ho. apply list_eq. intros i. rewrite list_lookup_fmap.
  destruct (decide (i < Z.to_nat n)%nat) as [Hi|Hi].
  - rewrite lookup_seqZ_lt by lia. cbn.
    assert (Hl : is_Some (get_bytes b o n !! i)) by (apply lookup_lt_is_Some; rewrite get_bytes_length; lia).
    destruct Hl as [x Hx]. rewrite Hx. f_equal.
    rewrite <- get_byte_drop, <- (get_byte_resize _ n) by lia. unfold aget.
    destruct (Z.ltb_spec (0 + Z.of_nat i) 0); [lia|].
    replace (Z.to_nat (0 + Z.of_nat i)) with i by lia. unfold get_bytes in Hx. by rewrite Hx.
  - rewrite lookup_ge_None_2 by (rewrite get_bytes_length; lia).
    by rewrite lookup_ge_None_2 by (rewrite length_seqZ; lia).
Qed.

Lemma get_bytes_ext b b' o o' n :
  0 <= o -> 0 <= o' -> (forall i, 0 <= i < n -> get_byte b (o + i) = get_byte b' (o' + i)) ->
  get_bytes b o n = get_bytes b' o' n.
Proof.
  intros Ho Ho' H. rewrite !get_bytes_seq by done. apply list_fmap_ext. intros k i Hi.
  apply lookup_seqZ in Hi. apply H. lia.
Qed.

Lemma get_bytes_put_out b o bs o' n :
  0 <= o -> 0 <= o' -> o' + n <= o \/ o + Z.of_nat (length bs) <= o' ->
  get_bytes (put_bytes b o bs) o' n = get_bytes b o' n.
Proof. intros Ho Ho' Hd. apply get_bytes_ext; [done..|]. intros i Hi. apply get_byte_put_out; lia. Qed.

Lemma get_bytes_whole bs : get_bytes bs 0 (Z.of_nat (length bs)) = bs.
Proof. unfold get_bytes. rewrite Nat2Z.id. cbn. apply resize_all_alt; lia. Qed.

Lemma get_bytes_put_in b o bs :
  0 <= o -> get_bytes (put_bytes b o bs) o (Z.of_nat (length bs)) = bs.
Proof.
  intros Ho. rewrite <- (get_bytes_whole bs) at 3. apply get_bytes_ext; [done..|].
  intros i Hi. rewrite get_byte_put_in by lia. done.
Qed.

Lemma get_bytes_split b o n m :
  0 <= o -> 0 <= n -> 0 <= m -> get_bytes b o (n + m) = get_bytes b o n ++ get_bytes b (o + n) m.
Proof.
  intros Ho Hn Hm. rewrite !get_bytes_seq by lia.
  rewrite seqZ_app, fmap_app by lia. f_equal. apply list_eq. intros i. rewrite !list_lookup_fmap.
  destruct (decide (i < Z.to_nat m)%nat) as [Hi|Hi].
  - rewrite !lookup_seqZ_lt by lia. cbn. do 2 f_equal. lia.
  - by rewrite !lookup_ge_None_2 by (rewrite length_seqZ; lia).
Qed.

Lemma get_bytes_again b o n : get_bytes (get_bytes b o n) 0 n = get_bytes b o n.
Proof. unfold get_bytes at 1. rewrite drop_0. apply resize_all_alt. symmetry. apply get_bytes_length. Qed.

Lemma get_bytes_nil b o : get_bytes b o 0 = [].
Proof. unfold get_bytes. change (Z.to_nat 0) with 0%nat. by rewrite resize_0. Qed.

Lemma get_bytes_drop b o n : 0 <= o -> get_bytes (drop (Z.to_nat o) b) 0 n = get_bytes b o n.
Proof. intros Ho. unfold get_bytes. by rewrite drop_0. Qed.

(** ** Fields *)

Lemma padding_for_bound n : 0 <= padding_for n <= 3.
Proof. unfold padding_for. by repeat case_match. Qed.


Lemma get_u16_enc bs z b o : (forall i, 0 <= i < 2 -> get_byte b (o + i) = get_byte (enc16 z) i) -> get_u16 b o = u16 z.
Proof.
  intros H. pose proof (H 0 ltac:(lia)) as H0. pose proof (H 1 ltac:(lia)) as H1.
  rewrite Z.add_0_r in H0. unfold get_u16. rewrite H0, H1. cbn. unfold u16.
  replace (2 ^ 16) with (256 * 256) by done. rewrite Z.rem_mul_r by lia. done.
Qed.

Lemma get_s16_ext b b' o o' :
  (forall i, 0 <= i < 2 -> get_byte b (o + i) = get_byte b' (o' + i)) -> get_s16 b o = get_s16 b' o'.
Proof.
  intros H. pose proof (H 0 ltac:(lia)) as H0. pose proof (H 1 ltac:(lia)) as H1.
  rewrite !Z.add_0_r in H0. unfold get_s16, get_u16. by rewrite H0, H1.
Qed.
Lemma get_s32_ext b b' o o' :
  (forall i, 0 <= i < 4 -> get_byte b (o + i) = get_byte b' (o' + i)) -> get_s32 b o = get_s32 b' o'.
Proof.
  intros H. pose proof (H 0 ltac:(lia)) as H0. pose proof (H 1 ltac:(lia)) as H1.
  pose proof (H 2 ltac:(lia)) as H2. pose proof (H 3 ltac:(lia)) as H3.
  rewrite !Z.add_0_r in H0. unfold get_s32, get_u32, get_u16.
  replace (o + 2 + 1) with (o + 3) by lia. replace (o' + 2 + 1) with (o' + 3) by lia.
  by rewrite H0, H1, H2, H3.
Qed.
Lemma get_s16_enc16 z bs : get_s16 (enc16 z ++ bs) 0 = s16 z.
Proof.
  unfold get_s16. rewrite (get_u16_enc [] z) by (intros i Hi; by rewrite get_byte_app_l by (cbn; lia)).
  unfold s16, u16. by rewrite Zplus_mod_idemp_l.
Qed.
Lemma get_s32_enc32 z bs : get_s32 (enc32 z ++ bs) 0 = s32 z.
Proof.
  assert (H1 : get_u16 (enc32 z ++ bs) 0 = u16 z).
  { apply (get_u16_enc []). intros i Hi. unfold enc32. rewrite <- app_assoc. by rewrite get_byte_app_l by (cbn; lia). }
  assert (H2 : get_u16 (enc32 z ++ bs) 2 = u16 (z / 2 ^ 16)).
  { apply (get_u16_enc []). intros i Hi. unfold enc32.
    rewrite <- app_assoc, get_byte_app_r, get_byte_app_l by (cbn; lia). f_equal. cbn. lia. }
  unfold get_s32, get_u32. change (0 + 2) with 2. rewrite H1, H2. unfold u16, s32.
  rewrite <- (Z.rem_mul_r z (2 ^ 16) (2 ^ 16)) by lia. by rewrite Zplus_mod_idemp_l.
Qed.
End bytes.

(* --------------------------------------------------------------------- *)
(** ** Fields of the type word

    Setting or clearing bits outside a field leaves the field. *)

Section fields.
Implicit Types (t m k : Z).

Lemma land_lor_out t m k : Z.land m k = 0 -> Z.land (Z.lor t m) k = Z.land t k.
Proof. intros Hm. by rewrite Z.land_lor_distr_l, Hm, Z.lor_0_r. Qed.

Lemma land_clear_out t m k : Z.land m k = 0 -> Z.land (Z.land t (Z.lnot m)) k = Z.land t k.
Proof.
  intros Hm. apply Z.bits_inj'. intros n Hn. rewrite !Z.land_spec, Z.lnot_spec by done.
  pose proof (f_equal (fun x => Z.testbit x n) Hm) as Hb. cbn in Hb. rewrite Z.land_spec, Z.bits_0 in Hb.
  by destruct (Z.testbit t n), (Z.testbit m n), (Z.testbit k n).
Qed.

Lemma land_u32 t k : 0 <= k < 2 ^ 32 -> Z.land (u32 t) k = Z.land t k.
Proof.
  intros Hk. unfold u32. apply Z.bits_inj'. intros n Hn. rewrite !Z.land_spec.
  destruct (Z.lt_ge_cases n 32); [by rewrite Z.mod_pow2_bits_low|].
  rewrite (testbit_above k n 32) by lia. by rewrite !andb_false_r.
Qed.
Lemma land_s32 t k : 0 <= k < 2 ^ 32 -> Z.land (s32 t) k = Z.land t k.
Proof. intros Hk. rewrite <- (land_u32 (s32 t)), <- (land_u32 t) by done. by rewrite u32_s32. Qed.

(** The byte order marks are outside the fields of the type. *)
Lemma land_endian t k : 0 <= k < 2 ^ 32 -> Z.land ENDIAN_TYPE k = 0 -> Z.land (Set_endian t) k = Z.land t k.
Proof.
  intros Hk He. unfold Set_endian. rewrite land_s32, land_lor_out, land_clear_out by done. by apply land_u32.
Qed.
End fields.
