(* ===== verification/Config.v ===== *)
(** * The configuration component ([daemon/configuration.c], [spu_addr.c])

    Processes, segments and configurations, the lookups over them, the ring
    order the protocol derives from a membership (leader, last, previous) and
    the run-time parameters with the guards of their setters.  A segment holds
    its processes by value: the C code holds pointers into
    [Config->allprocs], whose entries do not change between two loads of the
    configuration file. *)

From Stdlib Require Import ZArith Lia.
From stdpp Require Import base strings numbers option gmap list sorting.
From S2P Require Import Prelude Wire.

(* --------------------------------------------------------------------- *)
(** ** Network addresses ([spu_addr.c]) *)

(** The address bytes are the big-endian number they spell, so [memcmp] on
    them is the order of the numbers; the port is in host order. *)
Inductive spu_addr : Type :=
| Inet (addr port : Z)
| Inet6 (addr port scope_id : Z)
| OtherFamily (family : Z).

Definition cmpZ (a b : Z) : Z := if a <? b then -1 else if a =? b then 0 else 1.

(** [None]: the function aborts the daemon on any other family. *)
Definition spu_addr_ip_cmp (l r : spu_addr) (include_port : bool) : option Z :=
  match l, r with
  | Inet a p, Inet a' p' =>
      Some (let ret := cmpZ a a' in
            if (ret =? 0) && include_port then cmpZ p p' else ret)
  | Inet6 a p _, Inet6 a' p' _ =>
      Some (let ret := cmpZ a a' in
            if (ret =? 0) && include_port then cmpZ p p' else ret)
  | Inet _ _, Inet6 _ _ _ => Some (-1)
  | Inet6 _ _ _, Inet _ _ => Some 1
  | _, _ => None
  end.

Definition spu_addr_ip_get_port (a : spu_addr) : option Z :=
  match a with Inet _ p | Inet6 _ p _ => Some p | OtherFamily _ => None end.

Definition spu_addr_ip_set_port (a : spu_addr) (port : Z) : option spu_addr :=
  match a with
  | Inet x _ => Some (Inet x (u16 port))
  | Inet6 x _ sc => Some (Inet6 x (u16 port) sc)
  | OtherFamily _ => None
  end.

(* --------------------------------------------------------------------- *)
(** ** Processes, segments, configurations ([configuration.h]) *)

Record proc : Type := mkProc {
  p_name : string;  (* char[MAX_PROC_NAME] *)
  p_addr : spu_addr;  (* proc_addr *)
  p_id : Z;  (* int32u *)
  p_ifc : list (Z * spu_addr);  (* ifc[0 .. num_if) *)
  p_seg_index : Z;  (* int16 *)
  p_index_in_seg : Z;  (* int16 *)
}.

Record segment : Type := mkSegment {
  seg_addrs : list spu_addr;  (* seg_addrs[0 .. num_seg_addrs) *)
  seg_procs : list proc;  (* *procs[0 .. num_procs) *)
}.

Record configuration : Type := mkConfiguration {
  conf_hash_code : Z;  (* int32u *)
  conf_allprocs : list proc;  (* allprocs[0 .. num_total_procs) *)
  conf_segments : list segment;  (* segments[0 .. num_segments) *)
}.

Definition no_addr : spu_addr := OtherFamily 0.
Definition no_proc : proc := mkProc "" no_addr 0 [] 0 0.
Definition no_segment : segment := mkSegment [] [].
Definition no_configuration : configuration := mkConfiguration 0 [] [].

Definition num_procs (s : segment) : Z := Z.of_nat (length (seg_procs s)).
Definition Conf_num_segments (c : configuration) : Z := Z.of_nat (length (conf_segments c)).
(** [config->segments[i]]. *)
Definition conf_segment (c : configuration) (i : Z) : segment := aget no_segment (conf_segments c) i.

(** The index of the first element of [l] that satisfies [P], counting from
    [i], and -1 when there is none: the search loops of the component. *)
Fixpoint first_index {A} (P : A -> bool) (l : list A) (i : Z) : Z :=
  match l with
  | [] => -1
  | x :: l => if P x then i else first_index P l (i + 1)
  end.

Definition Conf_proc_ref_by_id_in_conf (c : configuration) (id : Z) : Z :=
  first_index (fun p => p_id p =? id) (conf_allprocs c) 0.
(** The index, and the process written to [*p] when it is not negative. *)
Definition Conf_proc_by_id_in_conf (c : configuration) (id : Z) : Z * option proc :=
  let ret := Conf_proc_ref_by_id_in_conf c id in
  (ret, if 0 <=? ret then Some (aget no_proc (conf_allprocs c) ret) else None).
Definition Conf_proc_ref_by_name_in_conf (c : configuration) (name : string) : Z :=
  first_index (fun p => bool_decide (p_name p = name)) (conf_allprocs c) 0.
Definition Conf_proc_by_name_in_conf (c : configuration) (name : string) : Z * option proc :=
  let ret := Conf_proc_ref_by_name_in_conf c name in
  (ret, if 0 <=? ret then Some (aget no_proc (conf_allprocs c) ret) else None).

Definition Conf_id_in_seg (s : segment) (id : Z) : Z :=
  first_index (fun p => p_id p =? id) (seg_procs s) 0.
Definition Conf_id_in_conf (c : configuration) (id : Z) : Z :=
  first_index (fun s => 0 <=? Conf_id_in_seg s id) (conf_segments c) 0.

Definition Conf_num_procs (c : configuration) : Z :=
  fold_left (fun acc s => acc + num_procs s) (conf_segments c) 0.
Definition Conf_num_procs_in_seg (c : configuration) (i : Z) : Z := num_procs (conf_segment c i).

(** [None] is the FATAL alarm of an empty configuration. *)
Definition Conf_leader (c : configuration) : option Z :=
  let fix go l :=
    match l with
    | [] => None
    | s :: l => match seg_procs s with p :: _ => Some (p_id p) | [] => go l end
    end in
  go (conf_segments c).

(** [procs[num_procs - 1]->id] of the last non-empty segment of [l]. *)
Definition last_of_segments (l : list segment) : option Z :=
  let fix go l :=
    match l with
    | [] => None
    | s :: l => match last (seg_procs s) with Some p => Some (p_id p) | None => go l end
    end in
  go (rev l).
Definition Conf_last (c : configuration) : option Z := last_of_segments (conf_segments c).

(** [my] is [configuration.c]'s [My]: the previous process of the segment,
    else the last of the nearest non-empty segment before mine, else the last
    of the last non-empty segment from mine on. *)
Definition Conf_previous (my : proc) (c : configuration) : option Z :=
  let index_in_seg := Conf_id_in_seg (conf_segment c (p_seg_index my)) (p_id my) in
  if 0 <? index_in_seg then
    Some (p_id (aget no_proc (seg_procs (conf_segment c (p_seg_index my))) (index_in_seg - 1)))
  else
    match last_of_segments (take (Z.to_nat (p_seg_index my)) (conf_segments c)) with
    | Some id => Some id
    | None => last_of_segments (drop (Z.to_nat (p_seg_index my)) (conf_segments c))
    end.

Definition Conf_seg_leader (c : configuration) (i : Z) : option Z :=
  match seg_procs (conf_segment c i) with p :: _ => Some (p_id p) | [] => None end.
Definition Conf_seg_last (c : configuration) (i : Z) : option Z :=
  match last (seg_procs (conf_segment c i)) with Some p => Some (p_id p) | None => None end.

(** [Conf_append_id_to_seg(&c->segments[i], id)]: the process is looked up in
    the current configuration [config]; [None] is the return value -1. *)
Definition seg_append (s : segment) (p : proc) : segment :=
  mkSegment (seg_addrs s) (seg_procs s ++ [p]).
Definition Conf_append_id_to_seg (config : configuration) (s : segment) (id : Z) : option segment :=
  match (Conf_proc_by_id_in_conf config id).2 with
  | Some p => Some (seg_append s p)
  | None => None
  end.

(** [c->segments[i] = s] and [c->segments[i].num_procs = 0]. *)
Definition conf_set_segment (c : configuration) (i : Z) (s : segment) : configuration :=
  mkConfiguration (conf_hash_code c) (conf_allprocs c) (aset (conf_segments c) i s).
Definition seg_clear (s : segment) : segment := mkSegment (seg_addrs s) [].
(** The loop [for i: c->segments[i].num_procs = 0]. *)
Definition conf_clear (c : configuration) : configuration :=
  mkConfiguration (conf_hash_code c) (conf_allprocs c) (seg_clear <$> conf_segments c).

(* --------------------------------------------------------------------- *)
(** ** Run-time parameters and their setters *)

Record conf_state : Type := mkConfState {
  cf_Config : configuration;  (* *Config *)
  cf_My : proc;  (* My *)
  cf_EnableDangerousMonitor : bool;
  cf_MaxSessionMessages : Z;  (* int *)
  cf_Window : Z;  (* int *)
  cf_PersonalWindow : Z;  (* int *)
  cf_AcceleratedRingFlag : bool;
  cf_AcceleratedRing : bool;
  cf_AcceleratedWindow : Z;  (* int *)
  cf_TimeoutMask : Z;  (* int *)
  cf_TokenTimeout : Z;  (* int, milliseconds *)
  cf_HurryTimeout : Z;  (* int, milliseconds *)
  cf_AliveTimeout : Z;  (* int, milliseconds *)
  cf_JoinTimeout : Z;  (* int, milliseconds *)
  cf_RepTimeout : Z;  (* int, milliseconds *)
  cf_SegTimeout : Z;  (* int, milliseconds *)
  cf_GatherTimeout : Z;  (* int, milliseconds *)
  cf_FormTimeout : Z;  (* int, milliseconds *)
  cf_LookupTimeout : Z;  (* int, milliseconds *)
  cf_WideAreaNetworkFlag : bool;
  cf_WideAreaNetwork : bool;
  cf_Conf_Reload_State : bool;
  cf_Conf_Reload_Singleton_State : bool;
}.

Definition set_cf_Config (x : configuration) (r : conf_state) : conf_state :=
  mkConfState x (cf_My r) (cf_EnableDangerousMonitor r) (cf_MaxSessionMessages r)
    (cf_Window r) (cf_PersonalWindow r) (cf_AcceleratedRingFlag r) (cf_AcceleratedRing r)
    (cf_AcceleratedWindow r) (cf_TimeoutMask r) (cf_TokenTimeout r) (cf_HurryTimeout r)
    (cf_AliveTimeout r) (cf_JoinTimeout r) (cf_RepTimeout r) (cf_SegTimeout r)
    (cf_GatherTimeout r) (cf_FormTimeout r) (cf_LookupTimeout r) (cf_WideAreaNetworkFlag
    r) (cf_WideAreaNetwork r) (cf_Conf_Reload_State r) (cf_Conf_Reload_Singleton_State r).
Definition set_cf_My (x : proc) (r : conf_state) : conf_state :=
  mkConfState (cf_Config r) x (cf_EnableDangerousMonitor r) (cf_MaxSessionMessages r)
    (cf_Window r) (cf_PersonalWindow r) (cf_AcceleratedRingFlag r) (cf_AcceleratedRing r)
    (cf_AcceleratedWindow r) (cf_TimeoutMask r) (cf_TokenTimeout r) (cf_HurryTimeout r)
    (cf_AliveTimeout r) (cf_JoinTimeout r) (cf_RepTimeout r) (cf_SegTimeout r)
    (cf_GatherTimeout r) (cf_FormTimeout r) (cf_LookupTimeout r) (cf_WideAreaNetworkFlag
    r) (cf_WideAreaNetwork r) (cf_Conf_Reload_State r) (cf_Conf_Reload_Singleton_State r).
Definition set_cf_EnableDangerousMonitor (x : bool) (r : conf_state) : conf_state :=
  mkConfState (cf_Config r) (cf_My r) x (cf_MaxSessionMessages r) (cf_Window r)
    (cf_PersonalWindow r) (cf_AcceleratedRingFlag r) (cf_AcceleratedRing r)
    (cf_AcceleratedWindow r) (cf_TimeoutMask r) (cf_TokenTimeout r) (cf_HurryTimeout r)
    (cf_AliveTimeout r) (cf_JoinTimeout r) (cf_RepTimeout r) (cf_SegTimeout r)
    (cf_GatherTimeout r) (cf_FormTimeout r) (cf_LookupTimeout r) (cf_WideAreaNetworkFlag
    r) (cf_WideAreaNetwork r) (cf_Conf_Reload_State r) (cf_Conf_Reload_Singleton_State r).
Definition set_cf_MaxSessionMessages (x : Z) (r : conf_state) : conf_state :=
  mkConfState (cf_Config r) (cf_My r) (cf_EnableDangerousMonitor r) x (cf_Window r)
    (cf_PersonalWindow r) (cf_AcceleratedRingFlag r) (cf_AcceleratedRing r)
    (cf_AcceleratedWindow r) (cf_TimeoutMask r) (cf_TokenTimeout r) (cf_HurryTimeout r)
    (cf_AliveTimeout r) (cf_JoinTimeout r) (cf_RepTimeout r) (cf_SegTimeout r)
    (cf_GatherTimeout r) (cf_FormTimeout r) (cf_LookupTimeout r) (cf_WideAreaNetworkFlag
    r) (cf_WideAreaNetwork r) (cf_Conf_Reload_State r) (cf_Conf_Reload_Singleton_State r).
Definition set_cf_Window (x : Z) (r : conf_state) : conf_state :=
  mkConfState (cf_Config r) (cf_My r) (cf_EnableDangerousMonitor r) (cf_MaxSessionMessages
    r) x (cf_PersonalWindow r) (cf_AcceleratedRingFlag r) (cf_AcceleratedRing r)
    (cf_AcceleratedWindow r) (cf_TimeoutMask r) (cf_TokenTimeout r) (cf_HurryTimeout r)
    (cf_AliveTimeout r) (cf_JoinTimeout r) (cf_RepTimeout r) (cf_SegTimeout r)
    (cf_GatherTimeout r) (cf_FormTimeout r) (cf_LookupTimeout r) (cf_WideAreaNetworkFlag
    r) (cf_WideAreaNetwork r) (cf_Conf_Reload_State r) (cf_Conf_Reload_Singleton_State r).
Definition set_cf_PersonalWindow (x : Z) (r : conf_state) : conf_state :=
  mkConfState (cf_Config r) (cf_My r) (cf_EnableDangerousMonitor r) (cf_MaxSessionMessages
    r) (cf_Window r) x (cf_AcceleratedRingFlag r) (cf_AcceleratedRing r)
    (cf_AcceleratedWindow r) (cf_TimeoutMask r) (cf_TokenTimeout r) (cf_HurryTimeout r)
    (cf_AliveTimeout r) (cf_JoinTimeout r) (cf_RepTimeout r) (cf_SegTimeout r)
    (cf_GatherTimeout r) (cf_FormTimeout r) (cf_LookupTimeout r) (cf_WideAreaNetworkFlag
    r) (cf_WideAreaNetwork r) (cf_Conf_Reload_State r) (cf_Conf_Reload_Singleton_State r).
Definition set_cf_AcceleratedRingFlag (x : bool) (r : conf_state) : conf_state :=
  mkConfState (cf_Config r) (cf_My r) (cf_EnableDangerousMonitor r) (cf_MaxSessionMessages
    r) (cf_Window r) (cf_PersonalWindow r) x (cf_AcceleratedRing r) (cf_AcceleratedWindow
    r) (cf_TimeoutMask r) (cf_TokenTimeout r) (cf_HurryTimeout r) (cf_AliveTimeout r)
    (cf_JoinTimeout r) (cf_RepTimeout r) (cf_SegTimeout r) (cf_GatherTimeout r)
    (cf_FormTimeout r) (cf_LookupTimeout r) (cf_WideAreaNetworkFlag r) (cf_WideAreaNetwork
    r) (cf_Conf_Reload_State r) (cf_Conf_Reload_Singleton_State r).
Definition set_cf_AcceleratedRing (x : bool) (r : conf_state) : conf_state :=
  mkConfState (cf_Config r) (cf_My r) (cf_EnableDangerousMonitor r) (cf_MaxSessionMessages
    r) (cf_Window r) (cf_PersonalWindow r) (cf_AcceleratedRingFlag r) x
    (cf_AcceleratedWindow r) (cf_TimeoutMask r) (cf_TokenTimeout r) (cf_HurryTimeout r)
    (cf_AliveTimeout r) (cf_JoinTimeout r) (cf_RepTimeout r) (cf_SegTimeout r)
    (cf_GatherTimeout r) (cf_FormTimeout r) (cf_LookupTimeout r) (cf_WideAreaNetworkFlag
    r) (cf_WideAreaNetwork r) (cf_Conf_Reload_State r) (cf_Conf_Reload_Singleton_State r).
Definition set_cf_AcceleratedWindow (x : Z) (r : conf_state) : conf_state :=
  mkConfState (cf_Config r) (cf_My r) (cf_EnableDangerousMonitor r) (cf_MaxSessionMessages
    r) (cf_Window r) (cf_PersonalWindow r) (cf_AcceleratedRingFlag r) (cf_AcceleratedRing
    r) x (cf_TimeoutMask r) (cf_TokenTimeout r) (cf_HurryTimeout r) (cf_AliveTimeout r)
    (cf_JoinTimeout r) (cf_RepTimeout r) (cf_SegTimeout r) (cf_GatherTimeout r)
    (cf_FormTimeout r) (cf_LookupTimeout r) (cf_WideAreaNetworkFlag r) (cf_WideAreaNetwork
    r) (cf_Conf_Reload_State r) (cf_Conf_Reload_Singleton_State r).
Definition set_cf_TimeoutMask (x : Z) (r : conf_state) : conf_state :=
  mkConfState (cf_Config r) (cf_My r) (cf_EnableDangerousMonitor r) (cf_MaxSessionMessages
    r) (cf_Window r) (cf_PersonalWindow r) (cf_AcceleratedRingFlag r) (cf_AcceleratedRing
    r) (cf_AcceleratedWindow r) x (cf_TokenTimeout r) (cf_HurryTimeout r) (cf_AliveTimeout
    r) (cf_JoinTimeout r) (cf_RepTimeout r) (cf_SegTimeout r) (cf_GatherTimeout r)
    (cf_FormTimeout r) (cf_LookupTimeout r) (cf_WideAreaNetworkFlag r) (cf_WideAreaNetwork
    r) (cf_Conf_Reload_State r) (cf_Conf_Reload_Singleton_State r).
Definition set_cf_TokenTimeout (x : Z) (r : conf_state) : conf_state :=
  mkConfState (cf_Config r) (cf_My r) (cf_EnableDangerousMonitor r) (cf_MaxSessionMessages
    r) (cf_Window r) (cf_PersonalWindow r) (cf_AcceleratedRingFlag r) (cf_AcceleratedRing
    r) (cf_AcceleratedWindow r) (cf_TimeoutMask r) x (cf_HurryTimeout r) (cf_AliveTimeout
    r) (cf_JoinTimeout r) (cf_RepTimeout r) (cf_SegTimeout r) (cf_GatherTimeout r)
    (cf_FormTimeout r) (cf_LookupTimeout r) (cf_WideAreaNetworkFlag r) (cf_WideAreaNetwork
    r) (cf_Conf_Reload_State r) (cf_Conf_Reload_Singleton_State r).
Definition set_cf_HurryTimeout (x : Z) (r : conf_state) : conf_state :=
  mkConfState (cf_Config r) (cf_My r) (cf_EnableDangerousMonitor r) (cf_MaxSessionMessages
    r) (cf_Window r) (cf_PersonalWindow r) (cf_AcceleratedRingFlag r) (cf_AcceleratedRing
    r) (cf_AcceleratedWindow r) (cf_TimeoutMask r) (cf_TokenTimeout r) x (cf_AliveTimeout
    r) (cf_JoinTimeout r) (cf_RepTimeout r) (cf_SegTimeout r) (cf_GatherTimeout r)
    (cf_FormTimeout r) (cf_LookupTimeout r) (cf_WideAreaNetworkFlag r) (cf_WideAreaNetwork
    r) (cf_Conf_Reload_State r) (cf_Conf_Reload_Singleton_State r).
Definition set_cf_AliveTimeout (x : Z) (r : conf_state) : conf_state :=
  mkConfState (cf_Config r) (cf_My r) (cf_EnableDangerousMonitor r) (cf_MaxSessionMessages
    r) (cf_Window r) (cf_PersonalWindow r) (cf_AcceleratedRingFlag r) (cf_AcceleratedRing
    r) (cf_AcceleratedWindow r) (cf_TimeoutMask r) (cf_TokenTimeout r) (cf_HurryTimeout r)
    x (cf_JoinTimeout r) (cf_RepTimeout r) (cf_SegTimeout r) (cf_GatherTimeout r)
    (cf_FormTimeout r) (cf_LookupTimeout r) (cf_WideAreaNetworkFlag r) (cf_WideAreaNetwork
    r) (cf_Conf_Reload_State r) (cf_Conf_Reload_Singleton_State r).
Definition set_cf_JoinTimeout (x : Z) (r : conf_state) : conf_state :=
  mkConfState (cf_Config r) (cf_My r) (cf_EnableDangerousMonitor r) (cf_MaxSessionMessages
    r) (cf_Window r) (cf_PersonalWindow r) (cf_AcceleratedRingFlag r) (cf_AcceleratedRing
    r) (cf_AcceleratedWindow r) (cf_TimeoutMask r) (cf_TokenTimeout r) (cf_HurryTimeout r)
    (cf_AliveTimeout r) x (cf_RepTimeout r) (cf_SegTimeout r) (cf_GatherTimeout r)
    (cf_FormTimeout r) (cf_LookupTimeout r) (cf_WideAreaNetworkFlag r) (cf_WideAreaNetwork
    r) (cf_Conf_Reload_State r) (cf_Conf_Reload_Singleton_State r).
Definition set_cf_RepTimeout (x : Z) (r : conf_state) : conf_state :=
  mkConfState (cf_Config r) (cf_My r) (cf_EnableDangerousMonitor r) (cf_MaxSessionMessages
    r) (cf_Window r) (cf_PersonalWindow r) (cf_AcceleratedRingFlag r) (cf_AcceleratedRing
    r) (cf_AcceleratedWindow r) (cf_TimeoutMask r) (cf_TokenTimeout r) (cf_HurryTimeout r)
    (cf_AliveTimeout r) (cf_JoinTimeout r) x (cf_SegTimeout r) (cf_GatherTimeout r)
    (cf_FormTimeout r) (cf_LookupTimeout r) (cf_WideAreaNetworkFlag r) (cf_WideAreaNetwork
    r) (cf_Conf_Reload_State r) (cf_Conf_Reload_Singleton_State r).
Definition set_cf_SegTimeout (x : Z) (r : conf_state) : conf_state :=
  mkConfState (cf_Config r) (cf_My r) (cf_EnableDangerousMonitor r) (cf_MaxSessionMessages
    r) (cf_Window r) (cf_PersonalWindow r) (cf_AcceleratedRingFlag r) (cf_AcceleratedRing
    r) (cf_AcceleratedWindow r) (cf_TimeoutMask r) (cf_TokenTimeout r) (cf_HurryTimeout r)
    (cf_AliveTimeout r) (cf_JoinTimeout r) (cf_RepTimeout r) x (cf_GatherTimeout r)
    (cf_FormTimeout r) (cf_LookupTimeout r) (cf_WideAreaNetworkFlag r) (cf_WideAreaNetwork
    r) (cf_Conf_Reload_State r) (cf_Conf_Reload_Singleton_State r).
Definition set_cf_GatherTimeout (x : Z) (r : conf_state) : conf_state :=
  mkConfState (cf_Config r) (cf_My r) (cf_EnableDangerousMonitor r) (cf_MaxSessionMessages
    r) (cf_Window r) (cf_PersonalWindow r) (cf_AcceleratedRingFlag r) (cf_AcceleratedRing
    r) (cf_AcceleratedWindow r) (cf_TimeoutMask r) (cf_TokenTimeout r) (cf_HurryTimeout r)
    (cf_AliveTimeout r) (cf_JoinTimeout r) (cf_RepTimeout r) (cf_SegTimeout r) x
    (cf_FormTimeout r) (cf_LookupTimeout r) (cf_WideAreaNetworkFlag r) (cf_WideAreaNetwork
    r) (cf_Conf_Reload_State r) (cf_Conf_Reload_Singleton_State r).
Definition set_cf_FormTimeout (x : Z) (r : conf_state) : conf_state :=
  mkConfState (cf_Config r) (cf_My r) (cf_EnableDangerousMonitor r) (cf_MaxSessionMessages
    r) (cf_Window r) (cf_PersonalWindow r) (cf_AcceleratedRingFlag r) (cf_AcceleratedRing
    r) (cf_AcceleratedWindow r) (cf_TimeoutMask r) (cf_TokenTimeout r) (cf_HurryTimeout r)
    (cf_AliveTimeout r) (cf_JoinTimeout r) (cf_RepTimeout r) (cf_SegTimeout r)
    (cf_GatherTimeout r) x (cf_LookupTimeout r) (cf_WideAreaNetworkFlag r)
    (cf_WideAreaNetwork r) (cf_Conf_Reload_State r) (cf_Conf_Reload_Singleton_State r).
Definition set_cf_LookupTimeout (x : Z) (r : conf_state) : conf_state :=
  mkConfState (cf_Config r) (cf_My r) (cf_EnableDangerousMonitor r) (cf_MaxSessionMessages
    r) (cf_Window r) (cf_PersonalWindow r) (cf_AcceleratedRingFlag r) (cf_AcceleratedRing
    r) (cf_AcceleratedWindow r) (cf_TimeoutMask r) (cf_TokenTimeout r) (cf_HurryTimeout r)
    (cf_AliveTimeout r) (cf_JoinTimeout r) (cf_RepTimeout r) (cf_SegTimeout r)
    (cf_GatherTimeout r) (cf_FormTimeout r) x (cf_WideAreaNetworkFlag r)
    (cf_WideAreaNetwork r) (cf_Conf_Reload_State r) (cf_Conf_Reload_Singleton_State r).
Definition set_cf_WideAreaNetworkFlag (x : bool) (r : conf_state) : conf_state :=
  mkConfState (cf_Config r) (cf_My r) (cf_EnableDangerousMonitor r) (cf_MaxSessionMessages
    r) (cf_Window r) (cf_PersonalWindow r) (cf_AcceleratedRingFlag r) (cf_AcceleratedRing
    r) (cf_AcceleratedWindow r) (cf_TimeoutMask r) (cf_TokenTimeout r) (cf_HurryTimeout r)
    (cf_AliveTimeout r) (cf_JoinTimeout r) (cf_RepTimeout r) (cf_SegTimeout r)
    (cf_GatherTimeout r) (cf_FormTimeout r) (cf_LookupTimeout r) x (cf_WideAreaNetwork r)
    (cf_Conf_Reload_State r) (cf_Conf_Reload_Singleton_State r).
Definition set_cf_WideAreaNetwork (x : bool) (r : conf_state) : conf_state :=
  mkConfState (cf_Config r) (cf_My r) (cf_EnableDangerousMonitor r) (cf_MaxSessionMessages
    r) (cf_Window r) (cf_PersonalWindow r) (cf_AcceleratedRingFlag r) (cf_AcceleratedRing
    r) (cf_AcceleratedWindow r) (cf_TimeoutMask r) (cf_TokenTimeout r) (cf_HurryTimeout r)
    (cf_AliveTimeout r) (cf_JoinTimeout r) (cf_RepTimeout r) (cf_SegTimeout r)
    (cf_GatherTimeout r) (cf_FormTimeout r) (cf_LookupTimeout r) (cf_WideAreaNetworkFlag
    r) x (cf_Conf_Reload_State r) (cf_Conf_Reload_Singleton_State r).
Definition set_cf_Conf_Reload_State (x : bool) (r : conf_state) : conf_state :=
  mkConfState (cf_Config r) (cf_My r) (cf_EnableDangerousMonitor r) (cf_MaxSessionMessages
    r) (cf_Window r) (cf_PersonalWindow r) (cf_AcceleratedRingFlag r) (cf_AcceleratedRing
    r) (cf_AcceleratedWindow r) (cf_TimeoutMask r) (cf_TokenTimeout r) (cf_HurryTimeout r)
    (cf_AliveTimeout r) (cf_JoinTimeout r) (cf_RepTimeout r) (cf_SegTimeout r)
    (cf_GatherTimeout r) (cf_FormTimeout r) (cf_LookupTimeout r) (cf_WideAreaNetworkFlag
    r) (cf_WideAreaNetwork r) x (cf_Conf_Reload_Singleton_State r).
Definition set_cf_Conf_Reload_Singleton_State (x : bool) (r : conf_state) : conf_state :=
  mkConfState (cf_Config r) (cf_My r) (cf_EnableDangerousMonitor r) (cf_MaxSessionMessages
    r) (cf_Window r) (cf_PersonalWindow r) (cf_AcceleratedRingFlag r) (cf_AcceleratedRing
    r) (cf_AcceleratedWindow r) (cf_TimeoutMask r) (cf_TokenTimeout r) (cf_HurryTimeout r)
    (cf_AliveTimeout r) (cf_JoinTimeout r) (cf_RepTimeout r) (cf_SegTimeout r)
    (cf_GatherTimeout r) (cf_FormTimeout r) (cf_LookupTimeout r) (cf_WideAreaNetworkFlag
    r) (cf_WideAreaNetwork r) (cf_Conf_Reload_State r) x.

(** The values the static initialisers give, for a loaded [config] in which
    this daemon is [my]. *)
Definition conf_initial (config : configuration) (my : proc) : conf_state :=
  mkConfState config my false 1000 160 20 false false 15 0 0 0 0 0 0 0 0 0 0 false false false false.

Definition DEFAULT_MAX_SESSION_MESSAGES : Z := 1000.
Definition ALL_TIMEOUT_CONF : Z := 0x1FF.

Definition Conf_set_max_session_messages (max_messages : Z) : M conf_state unit :=
  modify (set_cf_MaxSessionMessages
            (if max_messages <? 0 then DEFAULT_MAX_SESSION_MESSAGES else max_messages)).

Definition Conf_set_window (window : Z) : M conf_state unit :=
  if window <=? 0 then fail (Fatal "Conf_set_window") else modify (set_cf_Window window).
Definition Conf_set_personal_window (pwindow : Z) : M conf_state unit :=
  if pwindow <=? 0 then fail (Fatal "Conf_set_personal_window")
  else modify (set_cf_PersonalWindow pwindow).
Definition Conf_set_accelerated_window (pwindow : Z) : M conf_state unit :=
  if pwindow <? 0 then fail (Fatal "Conf_set_accelerated_window")
  else modify (set_cf_AcceleratedWindow pwindow).
Definition Conf_set_accelerated_ring (b : bool) : M conf_state unit :=
  modify (set_cf_AcceleratedRing b).
Definition Conf_set_accelerated_ring_flag (b : bool) : M conf_state unit :=
  modify (set_cf_AcceleratedRingFlag b).
Definition Conf_set_wide_area_network (b : bool) : M conf_state unit :=
  modify (set_cf_WideAreaNetwork b).
Definition Conf_set_wide_area_network_flag (b : bool) : M conf_state unit :=
  modify (set_cf_WideAreaNetworkFlag b).
Definition Conf_set_dangerous_monitor_state (b : bool) : M conf_state unit :=
  modify (set_cf_EnableDangerousMonitor b).
Definition Conf_reload_singleton_state_begin : M conf_state unit :=
  modify (set_cf_Conf_Reload_Singleton_State true).
Definition Conf_reload_singleton_state_end : M conf_state unit :=
  modify (set_cf_Conf_Reload_Singleton_State false).

Definition Conf_memb_timeouts_set (cf : conf_state) : bool := negb (cf_TimeoutMask cf =? 0).
Definition Conf_all_memb_timeouts_set (cf : conf_state) : bool := cf_TimeoutMask cf =? ALL_TIMEOUT_CONF.

(** The nine timeout setters: a non-positive value is fatal, any other sets
    its bit of [TimeoutMask] and the value. *)
Definition set_timeout (site : string) (bit : Z) (store : Z -> conf_state -> conf_state)
    (timeout : Z) : M conf_state unit :=
  if timeout <=? 0 then fail (Fatal site)
  else modify (fun cf => store timeout (set_cf_TimeoutMask (Z.lor (cf_TimeoutMask cf) bit) cf)).

Definition Conf_set_token_timeout : Z -> M conf_state unit :=
  set_timeout "Conf_set_token_timeout" (Z.shiftl 1 0) set_cf_TokenTimeout.
Definition Conf_set_hurry_timeout : Z -> M conf_state unit :=
  set_timeout "Conf_set_hurry_timeout" (Z.shiftl 1 1) set_cf_HurryTimeout.
Definition Conf_set_alive_timeout : Z -> M conf_state unit :=
  set_timeout "Conf_set_alive_timeout" (Z.shiftl 1 2) set_cf_AliveTimeout.
Definition Conf_set_join_timeout : Z -> M conf_state unit :=
  set_timeout "Conf_set_join_timeout" (Z.shiftl 1 3) set_cf_JoinTimeout.
Definition Conf_set_rep_timeout : Z -> M conf_state unit :=
  set_timeout "Conf_set_rep_timeout" (Z.shiftl 1 4) set_cf_RepTimeout.
Definition Conf_set_seg_timeout : Z -> M conf_state unit :=
  set_timeout "Conf_set_seg_timeout" (Z.shiftl 1 5) set_cf_SegTimeout.
Definition Conf_set_gather_timeout : Z -> M conf_state unit :=
  set_timeout "Conf_set_gather_timeout" (Z.shiftl 1 6) set_cf_GatherTimeout.
Definition Conf_set_form_timeout : Z -> M conf_state unit :=
  set_timeout "Conf_set_form_timeout" (Z.shiftl 1 7) set_cf_FormTimeout.
Definition Conf_set_lookup_timeout : Z -> M conf_state unit :=
  set_timeout "Conf_set_lookup_timeout" (Z.shiftl 1 8) set_cf_LookupTimeout.

(* --------------------------------------------------------------------- *)
(** ** The ring *)

(** The processes of a configuration in ring order, and the position of a
    process in it. *)
Definition flat_procs (l : list segment) : list proc := l ≫= seg_procs.
Definition conf_ring (c : configuration) : list proc := flat_procs (conf_segments c).
Definition index_in_seg (my : proc) (c : configuration) : Z :=
  Conf_id_in_seg (conf_segment c (p_seg_index my)) (p_id my).
Definition ring_position (my : proc) (c : configuration) : nat :=
  length (flat_procs (take (Z.to_nat (p_seg_index my)) (conf_segments c))) + Z.to_nat (index_in_seg my c).
(** [my] is one of the processes of [c]. *)
Definition in_ring (my : proc) (c : configuration) : Prop :=
  0 <= p_seg_index my < Conf_num_segments c /\ 0 <= index_in_seg my c.

Definition cyclic_prev {A} (l : list A) (k : nat) : option A :=
  match k with O => last l | S k => l !! k end.
Definition cyclic_next {A} (l : list A) (k : nat) : option A :=
  if decide (S k < length l)%nat then l !! S k else head l.

Section ring.
Implicit Types c : configuration.

Lemma flat_procs_app l l' : flat_procs (l ++ l') = flat_procs l ++ flat_procs l'.
Proof. apply bind_app. Qed.

Lemma first_index_found {A} (P : A -> bool) l i :
  first_index P l i = -1 \/
  (i <= first_index P l i /\ exists x, l !! Z.to_nat (first_index P l i - i) = Some x /\ P x = true).
Proof.
  revert i. induction l as [|x l IH]; intros i; cbn [first_index]; [by left|].
  destruct (P x) eqn:Hp.
  - right. split; [lia|]. exists x. by rewrite Z.sub_diag.
  - destruct (IH (i + 1)) as [->|(Hle & y & Hy & Hpy)]; [by left|right]. split; [lia|].
    exists y. split; [|done].
    replace (Z.to_nat (first_index P l (i + 1) - i)) with (S (Z.to_nat (first_index P l (i + 1) - (i + 1)))) by lia.
    done.
Qed.

Lemma first_index_nonneg {A} (f : A -> bool) l x : x ∈ l -> f x = true -> forall i, 0 <= i -> 0 <= first_index f l i.
Proof.
  induction l as [|y l IH]; [by intros ?%not_elem_of_nil|].
  intros [->|Hx]%elem_of_cons Hf i Hi; cbn; [by rewrite Hf|]. destruct (f y); [done|]. apply IH; (done || lia).
Qed.

Lemma in_ring_index my c :
  in_ring my c -> exists p, seg_procs (conf_segment c (p_seg_index my)) !! Z.to_nat (index_in_seg my c) = Some p
    /\ p_id p = p_id my.
Proof.
  intros [_ Hi]. unfold index_in_seg, Conf_id_in_seg in *. set (P := fun p => p_id p =? p_id my) in *.
  destruct (first_index_found P (seg_procs (conf_segment c (p_seg_index my))) 0)
    as [Hn|(_ & p & Hp & Hid%Z.eqb_eq)]; [lia|].
  rewrite Z.sub_0_r in Hp. by exists p.
Qed.

(** The ring around the segment of [my]. *)
Lemma conf_ring_split my c :
  in_ring my c ->
  conf_ring c = flat_procs (take (Z.to_nat (p_seg_index my)) (conf_segments c))
    ++ seg_procs (conf_segment c (p_seg_index my))
    ++ flat_procs (drop (S (Z.to_nat (p_seg_index my))) (conf_segments c)).
Proof.
  intros [Hs _]. unfold Conf_num_segments, conf_segment, aget, conf_ring in *.
  destruct (Z.ltb_spec (p_seg_index my) 0); [lia|].
  destruct (lookup_lt_is_Some_2 (conf_segments c) (Z.to_nat (p_seg_index my))) as [s Hl]; [lia|].
  rewrite Hl. cbn. rewrite <- (take_drop_middle _ _ _ Hl) at 1. by rewrite flat_procs_app.
Qed.

Lemma ring_lookup_seg my c k :
  in_ring my c -> (k < length (seg_procs (conf_segment c (p_seg_index my))))%nat ->
  conf_ring c !! (length (flat_procs (take (Z.to_nat (p_seg_index my)) (conf_segments c))) + k)%nat
  = seg_procs (conf_segment c (p_seg_index my)) !! k.
Proof.
  intros Hr Hk. rewrite (conf_ring_split my c Hr), lookup_app_r by lia.
  rewrite lookup_app_l by lia. f_equal. lia.
Qed.

Lemma last_app_or {A} (l l' : list A) :
  last (l ++ l') = match last l' with Some x => Some x | None => last l end.
Proof. by rewrite last_app. Qed.

Lemma last_of_segments_spec l : last_of_segments l = p_id <$> last (flat_procs l).
Proof.
  unfold last_of_segments. induction l as [|s l IH] using rev_ind; [done|].
  rewrite rev_app_distr, flat_procs_app. cbn [rev app]. unfold flat_procs at 2. cbn [mbind list_bind].
  rewrite app_nil_r, last_app_or. destruct (last (seg_procs s)); [done|]. exact IH.
Qed.

Lemma Conf_leader_spec c : Conf_leader c = p_id <$> head (conf_ring c).
Proof.
  unfold Conf_leader, conf_ring, flat_procs. induction (conf_segments c) as [|s l IH]; [done|]. cbn.
  destruct (seg_procs s); [exact IH|done].
Qed.
End ring.

(** The ring the protocol derives from a configuration.  The leader is
    its first process, the last its last, and the previous process of a
    member is its predecessor around the ring of all processes, whatever
    segments are empty. *)
Theorem ring_neighbours (my : proc) (c : configuration) :
  in_ring my c ->
  Conf_leader c = p_id <$> head (conf_ring c) /\
  Conf_last c = p_id <$> last (conf_ring c) /\
  Conf_previous my c = p_id <$> cyclic_prev (conf_ring c) (ring_position my c) /\
  p_id <$> conf_ring c !! ring_position my c = Some (p_id my).
Proof.
  intros Hr. destruct (in_ring_index my c Hr) as (p & Hp & Hid). pose proof (lookup_lt_Some _ _ _ Hp) as Hlt.
  split_and!; [apply Conf_leader_spec|apply last_of_segments_spec| |].
  - unfold Conf_previous, ring_position. fold (index_in_seg my c). pose proof Hr as [Hs Hi].
    destruct (Z.ltb_spec 0 (index_in_seg my c)) as [Hpos|Hz].
    + destruct (Z.to_nat (index_in_seg my c)) as [|k] eqn:Hk; [lia|].
      rewrite Nat.add_succ_r. cbn [cyclic_prev]. rewrite ring_lookup_seg by (done || lia).
      unfold aget. destruct (Z.ltb_spec (index_in_seg my c - 1) 0); [lia|].
      replace (Z.to_nat (index_in_seg my c - 1)) with k by lia.
      destruct (lookup_lt_is_Some_2 (seg_procs (conf_segment c (p_seg_index my))) k) as [q ->]; [lia|done].
    + replace (index_in_seg my c) with 0 by lia. rewrite Nat.add_0_r, !last_of_segments_spec.
      set (before := take _ _). destruct (flat_procs before) as [|q l] eqn:Hb using rev_ind.
      * cbn. unfold conf_ring. rewrite <- (take_drop (Z.to_nat (p_seg_index my)) (conf_segments c)) at 2.
        fold before. by rewrite flat_procs_app, Hb.
      * rewrite last_snoc, length_app, Nat.add_1_r. cbn. rewrite (conf_ring_split my c Hr). fold before.
        rewrite Hb, <- app_assoc. cbn [app]. by rewrite list_lookup_middle.
  - unfold ring_position. rewrite ring_lookup_seg by done. rewrite Hp. cbn. by rewrite Hid.
Qed.

Lemma ring_neighbours_witness :
  let p id s i := mkProc "" (Inet id 4803) id [] s i in
  let c := mkConfiguration 0 [] [mkSegment [] [p 11 0 0; p 12 0 1]; mkSegment [] []; mkSegment [] [p 31 2 0]] in
  Conf_previous (p 31 2 0) c = Some 12 /\ Conf_previous (p 11 0 0) c = Some 31.
Proof.
  intros p c.
  assert (H1 : in_ring (p 31 2 0) c) by (vm_compute; repeat split; discriminate).
  assert (H2 : in_ring (p 11 0 0) c) by (vm_compute; repeat split; discriminate).
  split.
  - exact (proj1 (proj2 (proj2 (ring_neighbours _ _ H1)))).
  - exact (proj1 (proj2 (proj2 (ring_neighbours _ _ H2)))).
Defined.
