(* ===== verification/Events.v ===== *)
(** * The event system ([libspread-util/src/events.c])

    Time arithmetic, the ordered queue of time events with its
    replace-if-similar insertion, and the table of file-descriptor events per
    priority.  The dispatch loop [E_handle_events] itself is the step relation
    of the daemon and lives with it. *)

From Stdlib Require Import ZArith Lia.
From stdpp Require Import base strings numbers option gmap list sorting.
From S2P Require Import Prelude.

(* --------------------------------------------------------------------- *)
(** ** Time *)

Record sp_time : Type := mkTime { sec : Z; usec : Z }.

Definition E_neg_time (t : sp_time) : sp_time := mkTime (- sec t) (- usec t).

Definition E_add_time (t delta_t : sp_time) : sp_time :=
  let s := sec t + sec delta_t in
  let u := usec t + usec delta_t in
  (* force usec back into (-1000000, 1000000) *)
  let '(s, u) :=
    if 1000000 <=? u then (s + 1, u - 1000000)
    else if u <=? -1000000 then (s - 1, u + 1000000)
    else (s, u) in
  (* sec and usec have the same sign *)
  let '(s, u) :=
    if 0 <? s then (if u <? 0 then (s - 1, u + 1000000) else (s, u))
    else if s <? 0 then (if 0 <? u then (s + 1, u - 1000000) else (s, u))
    else (s, u) in
  mkTime s u.

Definition E_sub_time (t delta_t : sp_time) : sp_time := E_add_time t (E_neg_time delta_t).

Definition E_compare_time (t1 t2 : sp_time) : Z :=
  if sec t2 <? sec t1 then 1
  else if sec t1 <? sec t2 then -1
  else if usec t2 <? usec t1 then 1
  else if usec t1 <? usec t2 then -1
  else 0.

(* --------------------------------------------------------------------- *)
(** ** Time events *)

(** The functions the daemon core queues; [Other_event n] stands for the
    callbacks of the components that are not modelled. *)
Inductive ev_func : Type :=
| Memb_token_loss_event
| Prot_token_hurry_event
| Scast_alive_event
| Send_join_event
| Form_or_fail_event
| Gather_or_represented_event
| Shift_to_seg_event
| Memb_lookup_new_members_event
| Deliver_all_reliable_packets_event
| Deliver_agreed_packets_event
| Prot_initiate_conf_reload_event
| Clear_partition_cb
| Other_event (n : Z).

#[export] Instance ev_func_eq_dec : EqDecision ev_func.
Proof. solve_decision. Defined.

(** What [E_queue] and [E_dequeue] compare: function, code and data pointer. *)
Record ev_key : Type := mkKey { ev_f : ev_func; ev_code : Z; ev_data : Z }.

#[export] Instance ev_key_eq_dec : EqDecision ev_key.
Proof. solve_decision. Defined.

Record time_event : Type := mkTimeEvent { ev_t : sp_time; ev_k : ev_key }.

Definition similar (k : ev_key) (e : time_event) : bool := bool_decide (ev_k e = k).

(** The [while] loop of [E_queue] over the tail [post] of the queue, with its
    flags [inserted] and [deleted]; the append after the loop is the empty
    case. *)
Fixpoint E_queue_walk (t_e : time_event) (post : list time_event) (inserted deleted : bool)
    : list time_event :=
  if inserted && deleted then post
  else
    match post with
    | [] => if inserted then [] else [t_e]
    | t_post :: post =>
        if similar (ev_k t_e) t_post then E_queue_walk t_e post inserted true
        else if negb inserted && (E_compare_time (ev_t t_e) (ev_t t_post) <? 0)
        then t_e :: t_post :: E_queue_walk t_e post true deleted
        else t_post :: E_queue_walk t_e post inserted deleted
    end.

(** [E_queue(func, code, data, delta)] at time [now], with [k] the key. *)
Definition E_queue_at (now : sp_time) (k : ev_key) (delta : sp_time) (q : list time_event)
    : list time_event :=
  let t_e := mkTimeEvent (E_add_time now delta) k in
  let '(q, deleted) :=
    match q with
    | first :: tl => if similar k first then (tl, true) else (q, false)
    | [] => ([], false)
    end in
  match q with
  | [] => [t_e]
  | first :: tl =>
      if E_compare_time (ev_t t_e) (ev_t first) <? 0
      then t_e :: E_queue_walk t_e q true deleted
      else first :: E_queue_walk t_e tl false deleted
  end.

Fixpoint E_dequeue_key (k : ev_key) (q : list time_event) : list time_event :=
  match q with
  | [] => []
  | e :: q => if similar k e then q else e :: E_dequeue_key k q
  end.

Definition E_in_queue (k : ev_key) (q : list time_event) : bool := existsb (similar k) q.

(* --------------------------------------------------------------------- *)
(** ** File-descriptor events *)

Definition LOW_PRIORITY : Z := 0.
Definition MEDIUM_PRIORITY : Z := 1.
Definition HIGH_PRIORITY : Z := 2.
Definition NUM_PRIORITY : Z := 3.
Definition READ_FD : Z := 0.
Definition NUM_FDTYPES : Z := 3.
Definition MAX_FD_EVENTS : Z := 2000.
(** The system constant of the host. *)
Definition FD_SETSIZE : Z := 1024.

Inductive fd_func : Type := Prot_handle_bcast_fd | Prot_handle_token_fd | Other_fd (n : Z).

Record fd_event : Type := mkFdEvent {
  fe_fd : Z; fe_type : Z; fe_func : fd_func; fe_code : Z; fe_data : Z; fe_active : bool
}.

Record fd_queue : Type := mkFdQueue {
  fq_events : list fd_event;   (* events[0 .. num_fds) *)
  fq_num_active : Z            (* num_active_fds *)
}.

Definition empty_fd_queue : fd_queue := mkFdQueue [] 0.

Definition fd_matches (fd fd_type : Z) (e : fd_event) : bool :=
  (fe_fd e =? fd) && (fe_type e =? fd_type).

Fixpoint find_fd (fd fd_type : Z) (l : list fd_event) (j : nat) : option nat :=
  match l with
  | [] => None
  | e :: l => if fd_matches fd fd_type e then Some j else find_fd fd fd_type l (S j)
  end.

Record ev_state : Type := mkEvState {
  ev_Time_queue : list time_event;
  ev_Fd_queue : list fd_queue;  (* Fd_queue[NUM_PRIORITY] *)
  ev_Fd_mask : list (gset Z);  (* Fd_mask[NUM_FDTYPES] *)
  ev_Active_priority : Z;
}.

Definition set_ev_Time_queue (x : list time_event) (r : ev_state) : ev_state :=
  mkEvState x (ev_Fd_queue r) (ev_Fd_mask r) (ev_Active_priority r).
Definition set_ev_Fd_queue (x : list fd_queue) (r : ev_state) : ev_state :=
  mkEvState (ev_Time_queue r) x (ev_Fd_mask r) (ev_Active_priority r).
Definition set_ev_Fd_mask (x : list (gset Z)) (r : ev_state) : ev_state :=
  mkEvState (ev_Time_queue r) (ev_Fd_queue r) x (ev_Active_priority r).
Definition set_ev_Active_priority (x : Z) (r : ev_state) : ev_state :=
  mkEvState (ev_Time_queue r) (ev_Fd_queue r) (ev_Fd_mask r) x.

Definition ev_initial : ev_state :=
  mkEvState [] [empty_fd_queue; empty_fd_queue; empty_fd_queue] [∅; ∅; ∅] LOW_PRIORITY.

Definition fd_queue_at (e : ev_state) (priority : Z) : fd_queue :=
  aget empty_fd_queue (ev_Fd_queue e) priority.
Definition set_fd_queue_at (priority : Z) (q : fd_queue) (e : ev_state) : ev_state :=
  set_ev_Fd_queue (aset (ev_Fd_queue e) priority q) e.
Definition fd_set (fd fd_type : Z) (e : ev_state) : ev_state :=
  set_ev_Fd_mask (aset (ev_Fd_mask e) fd_type ({[fd]} ∪ aget ∅ (ev_Fd_mask e) fd_type)) e.
Definition fd_clr (fd fd_type : Z) (e : ev_state) : ev_state :=
  set_ev_Fd_mask (aset (ev_Fd_mask e) fd_type (aget ∅ (ev_Fd_mask e) fd_type ∖ {[fd]})) e.

Definition E_attach_fd (fd fd_type : Z) (func : fd_func) (code data priority : Z)
    : M ev_state Z :=
  if (priority <? 0) || (NUM_PRIORITY <=? priority) then ret (-1)
  else if (fd_type <? 0) || (NUM_FDTYPES <=? fd_type) then ret (-1)
  else if (fd <? 0) || (FD_SETSIZE <? fd) then ret (-1)
  else
    let* e := get in
    let q := fd_queue_at e priority in
    match find_fd fd fd_type (fq_events q) 0 with
    | Some j =>
        let old := default (mkFdEvent fd fd_type func code data true) (fq_events q !! j) in
        modify (set_fd_queue_at priority
          (mkFdQueue (<[j := mkFdEvent fd fd_type func code data true]> (fq_events q))
                     (if fe_active old then fq_num_active q else fq_num_active q + 1))) ;;
        ret 1
    | None =>
        if Z.of_nat (length (fq_events q)) =? MAX_FD_EVENTS then ret (-1)
        else
          modify (set_fd_queue_at priority
            (mkFdQueue (fq_events q ++ [mkFdEvent fd fd_type func code data true])
                       (fq_num_active q + 1))) ;;
          modify (fun e => if ev_Active_priority e <=? priority then fd_set fd fd_type e else e) ;;
          ret 0
    end.

Definition E_detach_fd_priority (fd fd_type priority : Z) : M ev_state Z :=
  if (fd_type <? 0) || (NUM_FDTYPES <=? fd_type) then ret (-1)
  else
    let* e := get in
    let q := fd_queue_at e priority in
    match find_fd fd fd_type (fq_events q) 0 with
    | None => ret (-1)
    | Some i =>
        let active := match fq_events q !! i with Some ev => fe_active ev | None => false end in
        modify (set_fd_queue_at priority
          (mkFdQueue (remove_swap (fq_events q) i)
                     (if active then fq_num_active q - 1 else fq_num_active q))) ;;
        modify (fd_clr fd fd_type) ;;
        ret 0
    end.

(* --------------------------------------------------------------------- *)
(** ** The order of the time queue *)

Definition keys (q : list time_event) : list ev_key := ev_k <$> q.
Definition sp_time_le (t1 t2 : sp_time) : Prop := E_compare_time t1 t2 <= 0.
Definition event_le (a b : time_event) : Prop := sp_time_le (ev_t a) (ev_t b).

(** What [E_queue] means: drop the events with the key, then insert the new
    one before the first that is strictly later. *)
Fixpoint insert_event (t_e : time_event) (q : list time_event) : list time_event :=
  match q with
  | [] => [t_e]
  | x :: q =>
      if E_compare_time (ev_t t_e) (ev_t x) <? 0 then t_e :: x :: q else x :: insert_event t_e q
  end.
Definition E_queue_ref (now : sp_time) (k : ev_key) (delta : sp_time) (q : list time_event)
    : list time_event :=
  insert_event (mkTimeEvent (E_add_time now delta) k) (filter (fun e => ev_k e <> k) q).

(** The invariant of the time queue: by time, one event per key. *)
Definition queue_ok (q : list time_event) : Prop := Sorted event_le q /\ NoDup (keys q).

Section time_order.
#[export] Instance sp_time_le_dec a b : Decision (sp_time_le a b).
Proof. unfold sp_time_le. apply _. Defined.

Lemma E_compare_time_neg a b : (E_compare_time a b <? 0) = true <-> ~ sp_time_le b a.
Proof. unfold sp_time_le, E_compare_time. zcases; split; lia. Qed.

Lemma sp_time_le_total a b : sp_time_le a b \/ sp_time_le b a.
Proof. unfold sp_time_le, E_compare_time. zcases; lia. Qed.

Lemma sp_time_le_trans a b c : sp_time_le a b -> sp_time_le b c -> sp_time_le a c.
Proof. unfold sp_time_le, E_compare_time. zcases; lia. Qed.

#[export] Instance event_le_trans : Transitive event_le.
Proof. intros a b c. apply sp_time_le_trans. Qed.
End time_order.

Section queue.
Implicit Types q : list time_event.

Lemma similar_spec k e : similar k e = true <-> ev_k e = k.
Proof. unfold similar. apply bool_decide_eq_true. Qed.

Lemma keys_cons e q : keys (e :: q) = ev_k e :: keys q.
Proof. done. Qed.

Lemma filter_keys_id k q : k ∉ keys q -> filter (fun e => ev_k e <> k) q = q.
Proof.
  induction q as [|e q IH]; [done|]. rewrite keys_cons. intros [Hk Hq]%not_elem_of_cons.
  rewrite filter_cons_True by congruence. f_equal. by apply IH.
Qed.

(** The loop, once the new event is placed and once its old copy is gone. *)
Lemma walk_inserted t_e q deleted :
  NoDup (keys q) -> (deleted = true -> ev_k t_e ∉ keys q) ->
  E_queue_walk t_e q true deleted = filter (fun e => ev_k e <> ev_k t_e) q.
Proof.
  revert deleted. induction q as [|x q IH]; intros deleted Hn Hd; [by destruct deleted|].
  rewrite keys_cons in Hn, Hd. apply NoDup_cons in Hn as [Hx Hn]. cbn [E_queue_walk].
  destruct deleted; cbn [andb negb].
  - by rewrite (filter_keys_id _ (x :: q)) by auto.
  - destruct (similar (ev_k t_e) x) eqn:Hs.
    + apply similar_spec in Hs. rewrite filter_cons_False by auto.
      apply IH; [done|]. by rewrite <- Hs.
    + rewrite filter_cons_True by (intros ?%similar_spec; congruence). f_equal. by apply IH.
Qed.

Lemma walk_spec t_e q deleted :
  NoDup (keys q) -> (deleted = true -> ev_k t_e ∉ keys q) ->
  E_queue_walk t_e q false deleted = insert_event t_e (filter (fun e => ev_k e <> ev_k t_e) q).
Proof.
  revert deleted. induction q as [|x q IH]; intros deleted Hn Hd; [by destruct deleted|].
  rewrite keys_cons in Hn, Hd. apply NoDup_cons in Hn as [Hx Hn]. cbn [E_queue_walk andb negb].
  destruct (similar (ev_k t_e) x) eqn:Hs.
  - apply similar_spec in Hs. rewrite filter_cons_False by auto.
    apply IH; [done|]. by rewrite <- Hs.
  - rewrite filter_cons_True by (intros ?%similar_spec; congruence). cbn [insert_event].
    destruct (_ <? 0).
    + do 2 f_equal. apply walk_inserted; [done|]. intros ->.
      apply not_elem_of_cons in Hd as []; auto.
    + f_equal. apply IH; [done|]. intros ->. apply not_elem_of_cons in Hd as []; auto.
Qed.

Lemma E_queue_at_ref now k delta q :
  NoDup (keys q) -> E_queue_at now k delta q = E_queue_ref now k delta q.
Proof.
  intros Hn. unfold E_queue_at, E_queue_ref.
  set (t_e := mkTimeEvent _ k).
  assert (Hk : forall q d, NoDup (keys q) -> (d = true -> k ∉ keys q) ->
    match q with [] => [t_e] | first :: tl =>
      if E_compare_time (ev_t t_e) (ev_t first) <? 0
      then t_e :: E_queue_walk t_e q true d else first :: E_queue_walk t_e tl false d end
    = insert_event t_e (filter (fun e => ev_k e <> k) q) \/
    (exists x tl, q = x :: tl /\ ev_k x = k)).
  { intros [|x tl] d Hnd Hd; [by left|].
    destruct (decide (ev_k x = k)) as [|Hx]; [right; eauto|left].
    apply NoDup_cons in Hnd as Hnd'. destruct Hnd' as [Hx' Hnd'].
    rewrite filter_cons_True by done. cbn [insert_event].
    destruct (_ <? 0).
    - f_equal. rewrite walk_inserted by done. by rewrite filter_cons_True by done.
    - f_equal. apply walk_spec; [done|]. intros Ht. apply Hd in Ht. cbn in Ht.
      by apply not_elem_of_cons in Ht as []. }
  destruct q as [|x tl]; [done|]. destruct (similar k x) eqn:Hs; cbn zeta.
  - apply similar_spec in Hs. cbn in Hn. apply NoDup_cons in Hn as [Hx Hn].
    rewrite Hs in Hx. rewrite filter_cons_False by auto.
    destruct (Hk tl true) as [E|(y & tl' & -> & Hy)]; [done|done| |].
    + destruct tl; exact E.
    + exfalso. apply Hx. rewrite fmap_cons, Hy. left.
  - destruct (Hk (x :: tl) false) as [E|(y & tl' & [= -> ->] & Hy)]; [done|done|exact E|].
    apply similar_spec in Hy. congruence.
Qed.

Lemma insert_event_perm t_e q : insert_event t_e q ≡ₚ t_e :: q.
Proof.
  induction q as [|x q IH]; [done|]. cbn. destruct (_ <? 0); [done|].
  rewrite IH. apply Permutation_swap.
Qed.

Lemma insert_event_hd x t_e q :
  event_le x t_e -> HdRel event_le x q -> HdRel event_le x (insert_event t_e q).
Proof. intros Hx Hq. destruct q as [|y q]; cbn; [by constructor|]. destruct (_ <? 0); constructor; by inversion Hq. Qed.

Lemma insert_event_sorted t_e q : Sorted event_le q -> Sorted event_le (insert_event t_e q).
Proof.
  induction 1 as [|x q Hs IH Hx]; cbn; [by repeat constructor|].
  destruct (_ <? 0) eqn:Hc.
  - apply E_compare_time_neg in Hc. repeat constructor; try done.
    destruct (sp_time_le_total (ev_t t_e) (ev_t x)) as [|]; [done|]. by contradict Hc.
  - constructor; [done|]. apply insert_event_hd; [|done].
    destruct (decide (sp_time_le (ev_t x) (ev_t t_e))) as [|Hn]; [done|].
    apply E_compare_time_neg in Hn. congruence.
Qed.

Lemma keys_filter k q : keys (filter (fun e => ev_k e <> k) q) = filter (.≠ k) (keys q).
Proof.
  induction q as [|e q IH]; [done|]. rewrite keys_cons, !filter_cons.
  destruct (decide (ev_k e <> k)); rewrite ?keys_cons; by rewrite <- ?IH.
Qed.

Lemma sorted_filter k q :
  Sorted event_le q -> Sorted event_le (filter (fun e => ev_k e <> k) q).
Proof.
  intros Hs. apply StronglySorted_Sorted. apply Sorted_StronglySorted in Hs; [|apply _].
  induction Hs as [|x q Hs IH Hx]; [constructor|]. rewrite filter_cons.
  destruct (decide _); [|done]. constructor; [done|].
  rewrite Forall_forall in Hx |- *. intros y [_ Hy]%list_elem_of_filter. by apply Hx.
Qed.

Lemma keys_E_queue now k delta q :
  NoDup (keys q) -> keys (E_queue_at now k delta q) ≡ₚ k :: filter (.≠ k) (keys q).
Proof.
  intros Hn. rewrite E_queue_at_ref by done. unfold E_queue_ref, keys.
  rewrite insert_event_perm. cbn. by rewrite <- keys_filter.
Qed.

Lemma queue_ok_E_queue now k delta q : queue_ok q -> queue_ok (E_queue_at now k delta q).
Proof.
  intros [Hs Hn]. split.
  - rewrite E_queue_at_ref by done. by apply insert_event_sorted, sorted_filter.
  - rewrite keys_E_queue by done. constructor; [|by apply NoDup_filter].
    intros [? _]%list_elem_of_filter. done.
Qed.

Lemma E_dequeue_ref k q : NoDup (keys q) -> E_dequeue_key k q = filter (fun e => ev_k e <> k) q.
Proof.
  induction q as [|x q IH]; [done|]. rewrite keys_cons. intros [Hx Hn]%NoDup_cons. cbn [E_dequeue_key].
  destruct (similar k x) eqn:Hs.
  - apply similar_spec in Hs. subst k. rewrite filter_cons_False by auto. by rewrite filter_keys_id.
  - rewrite filter_cons_True by (intros ?%similar_spec; congruence). f_equal. by apply IH.
Qed.

Lemma queue_ok_E_dequeue k q : queue_ok q -> queue_ok (E_dequeue_key k q).
Proof.
  intros [Hs Hn]. rewrite E_dequeue_ref by done. split; [by apply sorted_filter|].
  rewrite keys_filter. by apply NoDup_filter.
Qed.

Lemma queue_ok_tail e q : queue_ok (e :: q) -> queue_ok q.
Proof. intros [Hs Hn]. split; [by inversion Hs|by inversion Hn]. Qed.

Lemma in_queue_keys k q : E_in_queue k q = bool_decide (k ∈ keys q).
Proof.
  unfold E_in_queue. induction q as [|e q IH]; [done|]. cbn [existsb]. rewrite IH.
  unfold similar. apply eq_true_iff_eq.
  rewrite orb_true_iff, !bool_decide_eq_true. cbn. rewrite elem_of_cons. intuition congruence.
Qed.

Lemma in_queue_E_queue now k delta q k' :
  queue_ok q -> E_in_queue k' (E_queue_at now k delta q) = bool_decide (k' = k) || E_in_queue k' q.
Proof.
  intros [_ Hn]. rewrite !in_queue_keys. apply eq_true_iff_eq.
  rewrite orb_true_iff, !bool_decide_eq_true, keys_E_queue by done.
  rewrite elem_of_cons, list_elem_of_filter. destruct (decide (k' = k)); intuition congruence.
Qed.

Lemma in_queue_E_dequeue k q k' :
  queue_ok q -> E_in_queue k' (E_dequeue_key k q) = negb (bool_decide (k' = k)) && E_in_queue k' q.
Proof.
  intros [_ Hn]. rewrite !in_queue_keys, E_dequeue_ref, keys_filter by done. apply eq_true_iff_eq.
  rewrite andb_true_iff, negb_true_iff, bool_decide_eq_false, !bool_decide_eq_true.
  by rewrite list_elem_of_filter.
Qed.
End queue.

(* --------------------------------------------------------------------- *)
(** ** Descriptor tables *)

Definition fd_key (e : fd_event) : Z * Z := (fe_fd e, fe_type e).
Definition active_events (l : list fd_event) : list fd_event := filter (fun e => fe_active e = true) l.

(** A table holds each descriptor and type once, and counts its active
    entries. *)
Definition fd_queue_ok (q : fd_queue) : Prop :=
  NoDup (fd_key <$> fq_events q) /\ fq_num_active q = Z.of_nat (length (active_events (fq_events q))).
Definition fd_tables_ok (e : ev_state) : Prop :=
  length (ev_Fd_queue e) = 3%nat /\ Forall fd_queue_ok (ev_Fd_queue e).

Section fd_tables.
Lemma fd_matches_spec fd t e : fd_matches fd t e = true <-> fd_key e = (fd, t).
Proof. unfold fd_matches, fd_key. rewrite andb_true_iff, !Z.eqb_eq. split; [intros [-> ->]|intros [= -> ->]]; done. Qed.

Lemma find_fd_some fd t l j i :
  find_fd fd t l j = Some i -> (j <= i)%nat /\ exists e, l !! (i - j)%nat = Some e /\ fd_key e = (fd, t).
Proof.
  revert j. induction l as [|e l IH]; intros j; [done|]. cbn [find_fd].
  destruct (fd_matches fd t e) eqn:Hm.
  - intros [= ->]. split; [lia|]. exists e. rewrite Nat.sub_diag. split; [done|]. by apply fd_matches_spec.
  - intros (Hle & e' & He' & Hk)%IH. split; [lia|]. exists e'. split; [|done].
    replace (i - j)%nat with (S (i - S j)) by lia. done.
Qed.

Lemma find_fd_none fd t l j : find_fd fd t l j = None <-> (fd, t) ∉ (fd_key <$> l).
Proof.
  revert j. induction l as [|e l IH]; intros j; cbn [find_fd].
  - split; [intros _; apply not_elem_of_nil|done].
  - rewrite fmap_cons, not_elem_of_cons. destruct (fd_matches fd t e) eqn:Hm.
    + apply fd_matches_spec in Hm. rewrite Hm. split; [done|]. by intros [].
    + rewrite IH. split; [|by intros []]. intros Hn. split; [|done]. intros Hk.
      symmetry in Hk. apply fd_matches_spec in Hk. congruence.
Qed.

Lemma active_events_app l l' : active_events (l ++ l') = active_events l ++ active_events l'.
Proof. apply filter_app. Qed.

Lemma fd_queue_ok_set_at p q e :
  fd_tables_ok e -> fd_queue_ok q -> fd_tables_ok (set_fd_queue_at p q e).
Proof.
  intros [Hl Hf] Hq. unfold set_fd_queue_at, aset. split; cbn.
  - destruct (p <? 0); [done|]. by rewrite length_insert.
  - destruct (p <? 0); [done|]. by apply Forall_insert.
Qed.

Lemma fd_queue_ok_at p e : fd_tables_ok e -> fd_queue_ok (fd_queue_at e p).
Proof.
  intros [_ Hf]. unfold fd_queue_at, aget. destruct (p <? 0); [by split; [constructor|]|].
  destruct (_ !! _) eqn:Hp; [|by split; [constructor|]]. by eapply Forall_lookup_1 in Hf.
Qed.

Lemma fd_queue_ok_app q x :
  fd_queue_ok q -> fe_active x = true -> fd_key x ∉ (fd_key <$> fq_events q) ->
  fd_queue_ok (mkFdQueue (fq_events q ++ [x]) (fq_num_active q + 1)).
Proof.
  intros [Hn Ha] Hx Hf. split; cbn.
  - rewrite fmap_app, NoDup_app. split_and!; [done| |apply NoDup_singleton].
    intros k Hk ->%list_elem_of_singleton. done.
  - rewrite active_events_app, length_app. unfold active_events at 2.
    rewrite filter_cons_True by done. cbn. lia.
Qed.

Lemma fd_queue_ok_replace q i x old :
  fd_queue_ok q -> fq_events q !! i = Some old -> fd_key old = fd_key x -> fe_active x = true ->
  fd_queue_ok (mkFdQueue (<[i := x]> (fq_events q))
    (if fe_active old then fq_num_active q else fq_num_active q + 1)).
Proof.
  intros [Hn Ha] Hi Hk Hx. apply lookup_split in Hi as (a & b & Hq & <-). unfold fd_queue_ok in *. cbn.
  rewrite Hq in *. rewrite insert_app_r_alt, Nat.sub_diag by lia. cbn.
  rewrite fmap_app, fmap_cons in *. rewrite Hk in Hn. split; [done|].
  rewrite Ha. rewrite !active_events_app, !length_app. unfold active_events.
  rewrite (filter_cons_True _ x) by done. rewrite filter_cons.
  destruct (decide _) as [->|Hno]; cbn; [done|]. rewrite (not_true_is_false _ Hno). lia.
Qed.

Lemma fd_queue_ok_remove q i old :
  fd_queue_ok q -> fq_events q !! i = Some old ->
  fd_queue_ok (mkFdQueue (remove_swap (fq_events q) i)
    (if fe_active old then fq_num_active q - 1 else fq_num_active q)).
Proof.
  intros [Hn Ha] Hi. apply remove_swap_perm in Hi as Hp. unfold fd_queue_ok. cbn.
  rewrite Hp, fmap_cons in Hn. apply NoDup_cons in Hn as [_ Hn]. split; [done|].
  rewrite Ha. unfold active_events.
  assert (Hl : length (filter (fun e => fe_active e = true) (fq_events q)) =
    length (filter (fun e => fe_active e = true) (old :: remove_swap (fq_events q) i))) by by rewrite <- Hp.
  rewrite Hl, filter_cons.
  destruct (decide _) as [->|Hno]; cbn; [lia|]. by rewrite (not_true_is_false _ Hno).
Qed.

Lemma E_attach_fd_ok fd t f c d p e :
  fd_tables_ok e -> wp (E_attach_fd fd t f c d p) (fun _ => fd_tables_ok) never e.
Proof.
  intros He. unfold E_attach_fd. wp_steps; try done. cbv zeta.
  pose proof (fd_queue_ok_at p e He) as Hq.
  destruct (find_fd _ _ _ _) as [j|] eqn:Hj.
  - wp_steps. apply find_fd_some in Hj as (_ & old & Hold & Hk). rewrite Nat.sub_0_r in Hold.
    rewrite Hold. apply fd_queue_ok_set_at; [done|]. by apply fd_queue_ok_replace.
  - wp_steps; [done|]. apply find_fd_none in Hj.
    assert (Hs := fd_queue_ok_set_at p _ e He (fd_queue_ok_app _ (mkFdEvent fd t f c d true) Hq eq_refl Hj)).
    case_match; apply Hs.
Qed.

Lemma E_detach_fd_ok fd t p e :
  fd_tables_ok e -> wp (E_detach_fd_priority fd t p) (fun _ => fd_tables_ok) never e.
Proof.
  intros He. unfold E_detach_fd_priority. wp_steps; try done. cbv zeta.
  destruct (find_fd _ _ _ _) as [j|] eqn:Hj; wp_steps; [|done].
  apply find_fd_some in Hj as (_ & old & Hold & Hk). rewrite Nat.sub_0_r in Hold. rewrite Hold.
  apply (fd_queue_ok_set_at p (mkFdQueue _ _)); [done|].
  apply fd_queue_ok_remove; [by apply fd_queue_ok_at|done].
Qed.
End fd_tables.

(* --------------------------------------------------------------------- *)
(** ** Properties *)

(** The value of a time in microseconds, and the form the code keeps times
    in: less than a second of microseconds, of the sign of the seconds. *)
Definition usecs (t : sp_time) : Z := sec t * 1000000 + usec t.
Definition time_ok (t : sp_time) : Prop :=
  -1000000 < usec t < 1000000 /\ (0 < sec t -> 0 <= usec t) /\ (sec t < 0 -> usec t <= 0).

(** The sum of two times is exact and in normal form, and so is their
    difference, whatever the signs; comparing two times in normal form is
    comparing their values. *)
Theorem time_arithmetic (a b : sp_time) :
  time_ok a -> time_ok b ->
  time_ok (E_add_time a b) /\ usecs (E_add_time a b) = usecs a + usecs b /\
  time_ok (E_sub_time a b) /\ usecs (E_sub_time a b) = usecs a - usecs b /\
  E_compare_time a b = Z.sgn (usecs a - usecs b).
Proof.
  assert (Hadd : forall a b, time_ok a -> time_ok b ->
    time_ok (E_add_time a b) /\ usecs (E_add_time a b) = usecs a + usecs b).
  { intros x y Hx Hy. unfold time_ok, usecs, E_add_time in *. zcases; cbn; lia. }
  intros Ha Hb. assert (Hn : time_ok (E_neg_time b)) by (unfold time_ok in *; cbn; lia).
  destruct (Hadd a b Ha Hb) as [H1 H2], (Hadd a _ Ha Hn) as [H3 H4]. split_and!; try done.
  - unfold E_sub_time. rewrite H4. unfold usecs. cbn. lia.
  - clear H1 H2 H3 H4. unfold time_ok, usecs, E_compare_time in *. zcases; lia.
Qed.

Lemma time_arithmetic_witness :
  usecs (E_add_time (mkTime 1 900000) (mkTime 0 200000)) = 2100000.
Proof.
  assert (H1 : time_ok (mkTime 1 900000)) by (unfold time_ok; cbn; lia).
  assert (H2 : time_ok (mkTime 0 200000)) by (unfold time_ok; cbn; lia).
  exact (proj1 (proj2 (time_arithmetic _ _ H1 H2))).
Defined.

(** C39: the single pass of [E_queue], with its flags for what is already
    inserted and deleted, implements the specification: the queue with every
    similar event removed and the new one placed before the first strictly
    later event, so that events of equal time fire in the order they were
    queued.  The queue stays in order with one event per key. *)
Theorem E_queue_refines (now delta : sp_time) (k : ev_key) (q : list time_event) :
  queue_ok q ->
  E_queue_at now k delta q = E_queue_ref now k delta q /\ queue_ok (E_queue_at now k delta q) /\
  keys (E_queue_at now k delta q) ≡ₚ k :: filter (.≠ k) (keys q).
Proof.
  intros Hq. pose proof Hq as [_ Hn].
  split_and!; [by apply E_queue_at_ref|by apply queue_ok_E_queue|by apply keys_E_queue].
Qed.

Lemma E_queue_refines_witness :
  let e t f := mkTimeEvent (mkTime t 0) (mkKey f 0 0) in
  E_queue_at (mkTime 3 0) (mkKey Send_join_event 0 0) (mkTime 2 0)
    [e 1 Form_or_fail_event; e 4 Send_join_event; e 7 Scast_alive_event] =
  [e 1 Form_or_fail_event; e 5 Send_join_event; e 7 Scast_alive_event].
Proof.
  intros e. refine (eq_trans (proj1 (E_queue_refines _ _ _ _ _)) _); [|vm_compute; reflexivity].
  split.
  - repeat constructor; vm_compute; discriminate.
  - apply (bool_decide_unpack _). vm_compute. exact I.
Defined.

(** [E_dequeue] removes the event with the key and nothing else. *)
Theorem E_dequeue_removes (k k' : ev_key) (q : list time_event) :
  queue_ok q ->
  queue_ok (E_dequeue_key k q) /\
  E_in_queue k' (E_dequeue_key k q) = negb (bool_decide (k' = k)) && E_in_queue k' q /\
  E_dequeue_key k q = filter (fun e => ev_k e <> k) q.
Proof.
  intros Hq. split_and!; [by apply queue_ok_E_dequeue|by apply in_queue_E_dequeue|].
  apply E_dequeue_ref, Hq.
Qed.

Lemma E_dequeue_removes_witness :
  let e t f := mkTimeEvent (mkTime t 0) (mkKey f 0 0) in
  E_in_queue (mkKey Send_join_event 0 0)
    (E_dequeue_key (mkKey Send_join_event 0 0) [e 1 Form_or_fail_event; e 4 Send_join_event]) = false.
Proof.
  intros e. refine (eq_trans (proj1 (proj2 (E_dequeue_removes _ _ _ _))) _); [|vm_compute; reflexivity].
  split.
  - repeat constructor; vm_compute; discriminate.
  - apply (bool_decide_unpack _). vm_compute. exact I.
Defined.

(** The descriptor tables keep one entry per descriptor and type, and the
    number of active entries they claim, through any attachment and
    detachment, whether it succeeds or is refused; neither fails. *)
Theorem fd_tables_invariant (e : ev_state) (fd fd_type code data priority : Z) (f : fd_func) :
  fd_tables_ok e ->
  wp (E_attach_fd fd fd_type f code data priority) (fun _ => fd_tables_ok) never e /\
  wp (E_detach_fd_priority fd fd_type priority) (fun _ => fd_tables_ok) never e.
Proof. intros He. split; [by apply E_attach_fd_ok|by apply E_detach_fd_ok]. Qed.

Lemma fd_tables_invariant_witness :
  fd_tables_ok ev_initial /\
  wp (E_attach_fd 5 READ_FD Prot_handle_bcast_fd 0 0 HIGH_PRIORITY) (fun _ => fd_tables_ok) never ev_initial.
Proof.
  assert (He : fd_tables_ok ev_initial) by (split; [done|repeat constructor]).
  split; [exact He|]. exact (proj1 (fd_tables_invariant _ 5 READ_FD 0 0 HIGH_PRIORITY _ He)).
Defined.
