(* ===== verification/State.v ===== *)
(** * The state of the daemon core

    The C code keeps its state in file-scope variables.  The world is the
    record of all of them, one sub-record per component: configuration,
    events, network, flow control, the message window, the token, the rest of
    the protocol, the membership, its timeouts and the status counters, with
    the input and output of the process.  The upcalls into the session layer
    are a type class. *)

From Stdlib Require Import ZArith Lia.
From stdpp Require Import base strings numbers option gmap list.
From S2P Require Import Prelude Wire Config Events.

(* --------------------------------------------------------------------- *)
(** ** Messages and queues ([scatter.h], [prot_body.h], [protocol.h]) *)

(** One element of a [scatter]: the buffer and its [len]. *)
Record scat_elem : Type := mkElem { se_buf : buf; se_len : Z }.
(** [elements[0 .. num_elements)]. *)
Definition scatter : Type := list scat_elem.

(** [packet_info]; [exist] is 0 (empty), 1 (received), 2 (delivered, kept for
    retransmission), 3 (a hole agreed on during a membership change). *)
Record packet_info : Type := mkPacketInfo {
  pi_head : packet_header; pi_body : buf; pi_exist : Z; pi_proc_index : Z
}.
Definition no_packet : packet_info := mkPacketInfo zero_packet_header [] 0 0.

Record up_queue : Type := mkUpQueue { uq_exist : bool; uq_mess : scatter }.
Definition no_up_queue : up_queue := mkUpQueue false [].

Record down_link : Type := mkDownLink { dl_type : Z; dl_mess : scatter }.
(** [first]..[last] is the list; [num_mess] is the counter the code keeps. *)
Record down_queue : Type := mkDownQueue {
  dq_num_mess : Z; dq_cur_element : Z; dq_links : list down_link
}.

(** A [sys_scatter] of two elements: packet header and body of length [sp_len]. *)
Record sys_pack : Type := mkSysPack { sp_head : packet_header; sp_buf : buf; sp_len : Z }.
Record packet_queue : Type := mkPacketQueue { pq_num_packets : Z; pq_links : list sys_pack }.

(** Membership structures ([membership.c]): fixed arrays with the count in use. *)
Record members_info : Type := mkMembersInfo {
  num_members : Z; num_pending : Z; members : list Z
}.
Record rep_info : Type := mkRep { rep_proc_id : Z; rep_type : Z; rep_seg_index : Z }.
Record reps_info : Type := mkRepsInfo { num_reps : Z; rep_index : Z; reps : list rep_info }.
Definition no_rep : rep_info := mkRep 0 0 0.
Definition no_members : members_info := mkMembersInfo 0 0 (replicate 128 0).
Definition no_reps : reps_info := mkRepsInfo 0 0 (replicate 25 no_rep).

Inductive memb_state : Type := OP | SEG | REPRESENTED | GATHER | FORM | EVS.
#[export] Instance memb_state_eq_dec : EqDecision memb_state.
Proof. solve_decision. Defined.
Definition memb_state_num (s : memb_state) : Z :=
  match s with OP => 1 | SEG => 2 | REPRESENTED => 3 | GATHER => 4 | FORM => 5 | EVS => 6 end.
Definition is_state (s t : memb_state) : bool := bool_decide (s = t).

(* --------------------------------------------------------------------- *)
(** ** Input and output *)

(** What [DL_sendto_gen] is given: a header and the other scatter elements. *)
Inductive datagram : Type :=
| PackGram (h : packet_header) (elems : scatter)
| TokenGram (h : token_header) (elems : scatter).

Inductive output : Type :=
| Out_sendto (dst : spu_addr) (d : datagram)
| Out_deliver_message (m : scatter)
| Out_trans_memb (c : configuration) (id : membership_id)
| Out_reg_memb (c : configuration) (id : membership_id)
| Out_block_users
| Out_unblock_users
| Out_status_reply (h : packet_header)
| Out_log_membership
| Out_signal_session
| Out_session (n : Z).

(** The outputs so far, the clock readings to come and the return values of
    [sendto]: the environment is a stream indexed by the number of uses. *)
Record io_state : Type := mkIo {
  io_out : list output;  (* oldest first *)
  io_clock : nat -> sp_time;
  io_clock_i : nat;
  io_sendto_ret : nat -> Z;
  io_sendto_i : nat;
}.

Definition set_io_out (x : list output) (r : io_state) : io_state :=
  mkIo x (io_clock r) (io_clock_i r) (io_sendto_ret r) (io_sendto_i r).
Definition set_io_clock (x : nat -> sp_time) (r : io_state) : io_state :=
  mkIo (io_out r) x (io_clock_i r) (io_sendto_ret r) (io_sendto_i r).
Definition set_io_clock_i (x : nat) (r : io_state) : io_state :=
  mkIo (io_out r) (io_clock r) x (io_sendto_ret r) (io_sendto_i r).
Definition set_io_sendto_ret (x : nat -> Z) (r : io_state) : io_state :=
  mkIo (io_out r) (io_clock r) (io_clock_i r) x (io_sendto_i r).
Definition set_io_sendto_i (x : nat) (r : io_state) : io_state :=
  mkIo (io_out r) (io_clock r) (io_clock_i r) (io_sendto_ret r) x.

(* --------------------------------------------------------------------- *)
(** ** The components' variables *)

(** [network.c]. *)
Record net_state : Type := mkNet {
  Bcast_needed : Z;  (* int, -1 before the first configuration *)
  Bcast_addrs : list spu_addr;  (* Bcast_addrs[0 .. Bcast_addrs_num) *)
  Send_addrs : list spu_addr;  (* Send_addrs[0 .. Num_send_needed) *)
  Token_addr : spu_addr;
  Net_membership : configuration;
  Segment_leader : bool;
  net_My : proc;
  Partition : list Z;  (* Partition[MAX_PROCS_RING] *)
  Partition_my_index : Z;
  Bcast_channel : list Z;  (* Bcast_channel[0 .. Num_bcast_channels) *)
  Token_channel : list Z;  (* Token_channel[0 .. Num_token_channels) *)
}.

Definition set_Bcast_needed (x : Z) (r : net_state) : net_state :=
  mkNet x (Bcast_addrs r) (Send_addrs r) (Token_addr r) (Net_membership r) (Segment_leader
    r) (net_My r) (Partition r) (Partition_my_index r) (Bcast_channel r) (Token_channel
    r).
Definition set_Bcast_addrs (x : list spu_addr) (r : net_state) : net_state :=
  mkNet (Bcast_needed r) x (Send_addrs r) (Token_addr r) (Net_membership r)
    (Segment_leader r) (net_My r) (Partition r) (Partition_my_index r) (Bcast_channel r)
    (Token_channel r).
Definition set_Send_addrs (x : list spu_addr) (r : net_state) : net_state :=
  mkNet (Bcast_needed r) (Bcast_addrs r) x (Token_addr r) (Net_membership r)
    (Segment_leader r) (net_My r) (Partition r) (Partition_my_index r) (Bcast_channel r)
    (Token_channel r).
Definition set_Token_addr (x : spu_addr) (r : net_state) : net_state :=
  mkNet (Bcast_needed r) (Bcast_addrs r) (Send_addrs r) x (Net_membership r)
    (Segment_leader r) (net_My r) (Partition r) (Partition_my_index r) (Bcast_channel r)
    (Token_channel r).
Definition set_Net_membership (x : configuration) (r : net_state) : net_state :=
  mkNet (Bcast_needed r) (Bcast_addrs r) (Send_addrs r) (Token_addr r) x (Segment_leader
    r) (net_My r) (Partition r) (Partition_my_index r) (Bcast_channel r) (Token_channel
    r).
Definition set_Segment_leader (x : bool) (r : net_state) : net_state :=
  mkNet (Bcast_needed r) (Bcast_addrs r) (Send_addrs r) (Token_addr r) (Net_membership r)
    x (net_My r) (Partition r) (Partition_my_index r) (Bcast_channel r) (Token_channel r).
Definition set_net_My (x : proc) (r : net_state) : net_state :=
  mkNet (Bcast_needed r) (Bcast_addrs r) (Send_addrs r) (Token_addr r) (Net_membership r)
    (Segment_leader r) x (Partition r) (Partition_my_index r) (Bcast_channel r)
    (Token_channel r).
Definition set_Partition (x : list Z) (r : net_state) : net_state :=
  mkNet (Bcast_needed r) (Bcast_addrs r) (Send_addrs r) (Token_addr r) (Net_membership r)
    (Segment_leader r) (net_My r) x (Partition_my_index r) (Bcast_channel r)
    (Token_channel r).
Definition set_Partition_my_index (x : Z) (r : net_state) : net_state :=
  mkNet (Bcast_needed r) (Bcast_addrs r) (Send_addrs r) (Token_addr r) (Net_membership r)
    (Segment_leader r) (net_My r) (Partition r) x (Bcast_channel r) (Token_channel r).
Definition set_Bcast_channel (x : list Z) (r : net_state) : net_state :=
  mkNet (Bcast_needed r) (Bcast_addrs r) (Send_addrs r) (Token_addr r) (Net_membership r)
    (Segment_leader r) (net_My r) (Partition r) (Partition_my_index r) x (Token_channel
    r).
Definition set_Token_channel (x : list Z) (r : net_state) : net_state :=
  mkNet (Bcast_needed r) (Bcast_addrs r) (Send_addrs r) (Token_addr r) (Net_membership r)
    (Segment_leader r) (net_My r) (Partition r) (Partition_my_index r) (Bcast_channel r)
    x.

(** [flow_control.c]: four [int16]s. *)
Record fc_state : Type := mkFc {
  fc_Window : Z;  (* int16 *)
  fc_Personal_window : Z;  (* int16 *)
  fc_Accelerated_window : Z;  (* int16 *)
  fc_Accelerated_ring : bool;
}.

Definition set_fc_Window (x : Z) (r : fc_state) : fc_state :=
  mkFc x (fc_Personal_window r) (fc_Accelerated_window r) (fc_Accelerated_ring r).
Definition set_fc_Personal_window (x : Z) (r : fc_state) : fc_state :=
  mkFc (fc_Window r) x (fc_Accelerated_window r) (fc_Accelerated_ring r).
Definition set_fc_Accelerated_window (x : Z) (r : fc_state) : fc_state :=
  mkFc (fc_Window r) (fc_Personal_window r) x (fc_Accelerated_ring r).
Definition set_fc_Accelerated_ring (x : bool) (r : fc_state) : fc_state :=
  mkFc (fc_Window r) (fc_Personal_window r) (fc_Accelerated_window r) x.

(** The message window of [prot_body.h]. *)
Record win_state : Type := mkWin {
  Packets : gmap Z packet_info;  (* Packets[MAX_PACKETS_IN_STRUCT], no entry: exist = 0 *)
  Up_queue : gmap Z up_queue;  (* Up_queue[MAX_PROCS_RING + 1] *)
  Aru : Z;
  My_aru : Z;
  Highest_seq : Z;
  Highest_fifo_seq : Z;
  Last_discarded : Z;
  Last_delivered : Z;
  Last_seq : Z;
}.

Definition set_Packets (x : gmap Z packet_info) (r : win_state) : win_state :=
  mkWin x (Up_queue r) (Aru r) (My_aru r) (Highest_seq r) (Highest_fifo_seq r)
    (Last_discarded r) (Last_delivered r) (Last_seq r).
Definition set_Up_queue (x : gmap Z up_queue) (r : win_state) : win_state :=
  mkWin (Packets r) x (Aru r) (My_aru r) (Highest_seq r) (Highest_fifo_seq r)
    (Last_discarded r) (Last_delivered r) (Last_seq r).
Definition set_Aru (x : Z) (r : win_state) : win_state :=
  mkWin (Packets r) (Up_queue r) x (My_aru r) (Highest_seq r) (Highest_fifo_seq r)
    (Last_discarded r) (Last_delivered r) (Last_seq r).
Definition set_My_aru (x : Z) (r : win_state) : win_state :=
  mkWin (Packets r) (Up_queue r) (Aru r) x (Highest_seq r) (Highest_fifo_seq r)
    (Last_discarded r) (Last_delivered r) (Last_seq r).
Definition set_Highest_seq (x : Z) (r : win_state) : win_state :=
  mkWin (Packets r) (Up_queue r) (Aru r) (My_aru r) x (Highest_fifo_seq r) (Last_discarded
    r) (Last_delivered r) (Last_seq r).
Definition set_Highest_fifo_seq (x : Z) (r : win_state) : win_state :=
  mkWin (Packets r) (Up_queue r) (Aru r) (My_aru r) (Highest_seq r) x (Last_discarded r)
    (Last_delivered r) (Last_seq r).
Definition set_Last_discarded (x : Z) (r : win_state) : win_state :=
  mkWin (Packets r) (Up_queue r) (Aru r) (My_aru r) (Highest_seq r) (Highest_fifo_seq r) x
    (Last_delivered r) (Last_seq r).
Definition set_Last_delivered (x : Z) (r : win_state) : win_state :=
  mkWin (Packets r) (Up_queue r) (Aru r) (My_aru r) (Highest_seq r) (Highest_fifo_seq r)
    (Last_discarded r) x (Last_seq r).
Definition set_Last_seq (x : Z) (r : win_state) : win_state :=
  mkWin (Packets r) (Up_queue r) (Aru r) (My_aru r) (Highest_seq r) (Highest_fifo_seq r)
    (Last_discarded r) (Last_delivered r) x.

(** The token of [protocol.c] and [prot_body.h]. *)
Record tok_state : Type := mkTok {
  Token : token_header;  (* *Token = New_token.elements[0] *)
  New_token_buf : buf;  (* New_token.elements[1].buf *)
  New_token_len : Z;  (* New_token.elements[1].len *)
  Last_token : token_header;  (* *Last_token *)
  Token_rounds : Z;
  Received_token_rounds : Z;
  Token_has_priority : bool;
  Token_counter : Z;
  Last_num_retrans : Z;
  Last_num_sent : Z;
  Send_pack_queue : packet_queue;
}.

Definition set_Token (x : token_header) (r : tok_state) : tok_state :=
  mkTok x (New_token_buf r) (New_token_len r) (Last_token r) (Token_rounds r)
    (Received_token_rounds r) (Token_has_priority r) (Token_counter r) (Last_num_retrans
    r) (Last_num_sent r) (Send_pack_queue r).
Definition set_New_token_buf (x : buf) (r : tok_state) : tok_state :=
  mkTok (Token r) x (New_token_len r) (Last_token r) (Token_rounds r)
    (Received_token_rounds r) (Token_has_priority r) (Token_counter r) (Last_num_retrans
    r) (Last_num_sent r) (Send_pack_queue r).
Definition set_New_token_len (x : Z) (r : tok_state) : tok_state :=
  mkTok (Token r) (New_token_buf r) x (Last_token r) (Token_rounds r)
    (Received_token_rounds r) (Token_has_priority r) (Token_counter r) (Last_num_retrans
    r) (Last_num_sent r) (Send_pack_queue r).
Definition set_Last_token (x : token_header) (r : tok_state) : tok_state :=
  mkTok (Token r) (New_token_buf r) (New_token_len r) x (Token_rounds r)
    (Received_token_rounds r) (Token_has_priority r) (Token_counter r) (Last_num_retrans
    r) (Last_num_sent r) (Send_pack_queue r).
Definition set_Token_rounds (x : Z) (r : tok_state) : tok_state :=
  mkTok (Token r) (New_token_buf r) (New_token_len r) (Last_token r) x
    (Received_token_rounds r) (Token_has_priority r) (Token_counter r) (Last_num_retrans
    r) (Last_num_sent r) (Send_pack_queue r).
Definition set_Received_token_rounds (x : Z) (r : tok_state) : tok_state :=
  mkTok (Token r) (New_token_buf r) (New_token_len r) (Last_token r) (Token_rounds r) x
    (Token_has_priority r) (Token_counter r) (Last_num_retrans r) (Last_num_sent r)
    (Send_pack_queue r).
Definition set_Token_has_priority (x : bool) (r : tok_state) : tok_state :=
  mkTok (Token r) (New_token_buf r) (New_token_len r) (Last_token r) (Token_rounds r)
    (Received_token_rounds r) x (Token_counter r) (Last_num_retrans r) (Last_num_sent r)
    (Send_pack_queue r).
Definition set_Token_counter (x : Z) (r : tok_state) : tok_state :=
  mkTok (Token r) (New_token_buf r) (New_token_len r) (Last_token r) (Token_rounds r)
    (Received_token_rounds r) (Token_has_priority r) x (Last_num_retrans r) (Last_num_sent
    r) (Send_pack_queue r).
Definition set_Last_num_retrans (x : Z) (r : tok_state) : tok_state :=
  mkTok (Token r) (New_token_buf r) (New_token_len r) (Last_token r) (Token_rounds r)
    (Received_token_rounds r) (Token_has_priority r) (Token_counter r) x (Last_num_sent r)
    (Send_pack_queue r).
Definition set_Last_num_sent (x : Z) (r : tok_state) : tok_state :=
  mkTok (Token r) (New_token_buf r) (New_token_len r) (Last_token r) (Token_rounds r)
    (Received_token_rounds r) (Token_has_priority r) (Token_counter r) (Last_num_retrans
    r) x (Send_pack_queue r).
Definition set_Send_pack_queue (x : packet_queue) (r : tok_state) : tok_state :=
  mkTok (Token r) (New_token_buf r) (New_token_len r) (Last_token r) (Token_rounds r)
    (Received_token_rounds r) (Token_has_priority r) (Token_counter r) (Last_num_retrans
    r) (Last_num_sent r) x.

(** The other variables of [protocol.c]. *)
Record prot_state : Type := mkProt {
  prot_My : proc;
  My_index : Z;
  Prev_proc_id : Z;  (* int32 *)
  Prot_Need_Conf_Reload : bool;
  Prot_delivery_threshold : Z;
  Hurry_head : packet_header;
  Down_queue_ptr : Z;  (* index into Protocol_down_queue *)
  Protocol_down_queue : list down_queue;  (* Protocol_down_queue[2] *)
}.

Definition set_prot_My (x : proc) (r : prot_state) : prot_state :=
  mkProt x (My_index r) (Prev_proc_id r) (Prot_Need_Conf_Reload r)
    (Prot_delivery_threshold r) (Hurry_head r) (Down_queue_ptr r) (Protocol_down_queue r).
Definition set_My_index (x : Z) (r : prot_state) : prot_state :=
  mkProt (prot_My r) x (Prev_proc_id r) (Prot_Need_Conf_Reload r) (Prot_delivery_threshold
    r) (Hurry_head r) (Down_queue_ptr r) (Protocol_down_queue r).
Definition set_Prev_proc_id (x : Z) (r : prot_state) : prot_state :=
  mkProt (prot_My r) (My_index r) x (Prot_Need_Conf_Reload r) (Prot_delivery_threshold r)
    (Hurry_head r) (Down_queue_ptr r) (Protocol_down_queue r).
Definition set_Prot_Need_Conf_Reload (x : bool) (r : prot_state) : prot_state :=
  mkProt (prot_My r) (My_index r) (Prev_proc_id r) x (Prot_delivery_threshold r)
    (Hurry_head r) (Down_queue_ptr r) (Protocol_down_queue r).
Definition set_Prot_delivery_threshold (x : Z) (r : prot_state) : prot_state :=
  mkProt (prot_My r) (My_index r) (Prev_proc_id r) (Prot_Need_Conf_Reload r) x (Hurry_head
    r) (Down_queue_ptr r) (Protocol_down_queue r).
Definition set_Hurry_head (x : packet_header) (r : prot_state) : prot_state :=
  mkProt (prot_My r) (My_index r) (Prev_proc_id r) (Prot_Need_Conf_Reload r)
    (Prot_delivery_threshold r) x (Down_queue_ptr r) (Protocol_down_queue r).
Definition set_Down_queue_ptr (x : Z) (r : prot_state) : prot_state :=
  mkProt (prot_My r) (My_index r) (Prev_proc_id r) (Prot_Need_Conf_Reload r)
    (Prot_delivery_threshold r) (Hurry_head r) x (Protocol_down_queue r).
Definition set_Protocol_down_queue (x : list down_queue) (r : prot_state) : prot_state :=
  mkProt (prot_My r) (My_index r) (Prev_proc_id r) (Prot_Need_Conf_Reload r)
    (Prot_delivery_threshold r) (Hurry_head r) (Down_queue_ptr r) x.

(** [membership.c] and the membership variables of [prot_body.h]. *)
Record memb_vars : Type := mkMemb {
  Memb_Just_Installed : bool;
  Membership : configuration;
  Membership_id : membership_id;
  Future_membership : configuration;
  Future_membership_id : membership_id;
  Form1_memb_id : membership_id;
  Trans_memb_id : membership_id;
  F_trans_memb_time : Z;
  Last_time_used : Z;
  State : memb_state;
  Token_alive : bool;
  memb_My : proc;
  My_seg_rep : Z;
  Foreign_found : bool;
  F_members : members_info;
  F_reps : reps_info;
  Potential_reps : reps_info;
  Commit_set : members_info;
  Future_commit_set : members_info;
  Send_pack_head : packet_header;  (* *Send_pack.elements[0] *)
  Transitional : Z;
  Trans_membership : configuration;
  Commit_membership : configuration;
  Reg_membership : configuration;
}.

Definition set_Memb_Just_Installed (x : bool) (r : memb_vars) : memb_vars :=
  mkMemb x (Membership r) (Membership_id r) (Future_membership r) (Future_membership_id r)
    (Form1_memb_id r) (Trans_memb_id r) (F_trans_memb_time r) (Last_time_used r) (State r)
    (Token_alive r) (memb_My r) (My_seg_rep r) (Foreign_found r) (F_members r) (F_reps r)
    (Potential_reps r) (Commit_set r) (Future_commit_set r) (Send_pack_head r)
    (Transitional r) (Trans_membership r) (Commit_membership r) (Reg_membership r).
Definition set_Membership (x : configuration) (r : memb_vars) : memb_vars :=
  mkMemb (Memb_Just_Installed r) x (Membership_id r) (Future_membership r)
    (Future_membership_id r) (Form1_memb_id r) (Trans_memb_id r) (F_trans_memb_time r)
    (Last_time_used r) (State r) (Token_alive r) (memb_My r) (My_seg_rep r) (Foreign_found
    r) (F_members r) (F_reps r) (Potential_reps r) (Commit_set r) (Future_commit_set r)
    (Send_pack_head r) (Transitional r) (Trans_membership r) (Commit_membership r)
    (Reg_membership r).
Definition set_Membership_id (x : membership_id) (r : memb_vars) : memb_vars :=
  mkMemb (Memb_Just_Installed r) (Membership r) x (Future_membership r)
    (Future_membership_id r) (Form1_memb_id r) (Trans_memb_id r) (F_trans_memb_time r)
    (Last_time_used r) (State r) (Token_alive r) (memb_My r) (My_seg_rep r) (Foreign_found
    r) (F_members r) (F_reps r) (Potential_reps r) (Commit_set r) (Future_commit_set r)
    (Send_pack_head r) (Transitional r) (Trans_membership r) (Commit_membership r)
    (Reg_membership r).
Definition set_Future_membership (x : configuration) (r : memb_vars) : memb_vars :=
  mkMemb (Memb_Just_Installed r) (Membership r) (Membership_id r) x (Future_membership_id
    r) (Form1_memb_id r) (Trans_memb_id r) (F_trans_memb_time r) (Last_time_used r) (State
    r) (Token_alive r) (memb_My r) (My_seg_rep r) (Foreign_found r) (F_members r) (F_reps
    r) (Potential_reps r) (Commit_set r) (Future_commit_set r) (Send_pack_head r)
    (Transitional r) (Trans_membership r) (Commit_membership r) (Reg_membership r).
Definition set_Future_membership_id (x : membership_id) (r : memb_vars) : memb_vars :=
  mkMemb (Memb_Just_Installed r) (Membership r) (Membership_id r) (Future_membership r) x
    (Form1_memb_id r) (Trans_memb_id r) (F_trans_memb_time r) (Last_time_used r) (State r)
    (Token_alive r) (memb_My r) (My_seg_rep r) (Foreign_found r) (F_members r) (F_reps r)
    (Potential_reps r) (Commit_set r) (Future_commit_set r) (Send_pack_head r)
    (Transitional r) (Trans_membership r) (Commit_membership r) (Reg_membership r).
Definition set_Form1_memb_id (x : membership_id) (r : memb_vars) : memb_vars :=
  mkMemb (Memb_Just_Installed r) (Membership r) (Membership_id r) (Future_membership r)
    (Future_membership_id r) x (Trans_memb_id r) (F_trans_memb_time r) (Last_time_used r)
    (State r) (Token_alive r) (memb_My r) (My_seg_rep r) (Foreign_found r) (F_members r)
    (F_reps r) (Potential_reps r) (Commit_set r) (Future_commit_set r) (Send_pack_head r)
    (Transitional r) (Trans_membership r) (Commit_membership r) (Reg_membership r).
Definition set_Trans_memb_id (x : membership_id) (r : memb_vars) : memb_vars :=
  mkMemb (Memb_Just_Installed r) (Membership r) (Membership_id r) (Future_membership r)
    (Future_membership_id r) (Form1_memb_id r) x (F_trans_memb_time r) (Last_time_used r)
    (State r) (Token_alive r) (memb_My r) (My_seg_rep r) (Foreign_found r) (F_members r)
    (F_reps r) (Potential_reps r) (Commit_set r) (Future_commit_set r) (Send_pack_head r)
    (Transitional r) (Trans_membership r) (Commit_membership r) (Reg_membership r).
Definition set_F_trans_memb_time (x : Z) (r : memb_vars) : memb_vars :=
  mkMemb (Memb_Just_Installed r) (Membership r) (Membership_id r) (Future_membership r)
    (Future_membership_id r) (Form1_memb_id r) (Trans_memb_id r) x (Last_time_used r)
    (State r) (Token_alive r) (memb_My r) (My_seg_rep r) (Foreign_found r) (F_members r)
    (F_reps r) (Potential_reps r) (Commit_set r) (Future_commit_set r) (Send_pack_head r)
    (Transitional r) (Trans_membership r) (Commit_membership r) (Reg_membership r).
Definition set_Last_time_used (x : Z) (r : memb_vars) : memb_vars :=
  mkMemb (Memb_Just_Installed r) (Membership r) (Membership_id r) (Future_membership r)
    (Future_membership_id r) (Form1_memb_id r) (Trans_memb_id r) (F_trans_memb_time r) x
    (State r) (Token_alive r) (memb_My r) (My_seg_rep r) (Foreign_found r) (F_members r)
    (F_reps r) (Potential_reps r) (Commit_set r) (Future_commit_set r) (Send_pack_head r)
    (Transitional r) (Trans_membership r) (Commit_membership r) (Reg_membership r).
Definition set_State (x : memb_state) (r : memb_vars) : memb_vars :=
  mkMemb (Memb_Just_Installed r) (Membership r) (Membership_id r) (Future_membership r)
    (Future_membership_id r) (Form1_memb_id r) (Trans_memb_id r) (F_trans_memb_time r)
    (Last_time_used r) x (Token_alive r) (memb_My r) (My_seg_rep r) (Foreign_found r)
    (F_members r) (F_reps r) (Potential_reps r) (Commit_set r) (Future_commit_set r)
    (Send_pack_head r) (Transitional r) (Trans_membership r) (Commit_membership r)
    (Reg_membership r).
Definition set_Token_alive (x : bool) (r : memb_vars) : memb_vars :=
  mkMemb (Memb_Just_Installed r) (Membership r) (Membership_id r) (Future_membership r)
    (Future_membership_id r) (Form1_memb_id r) (Trans_memb_id r) (F_trans_memb_time r)
    (Last_time_used r) (State r) x (memb_My r) (My_seg_rep r) (Foreign_found r) (F_members
    r) (F_reps r) (Potential_reps r) (Commit_set r) (Future_commit_set r) (Send_pack_head
    r) (Transitional r) (Trans_membership r) (Commit_membership r) (Reg_membership r).
Definition set_memb_My (x : proc) (r : memb_vars) : memb_vars :=
  mkMemb (Memb_Just_Installed r) (Membership r) (Membership_id r) (Future_membership r)
    (Future_membership_id r) (Form1_memb_id r) (Trans_memb_id r) (F_trans_memb_time r)
    (Last_time_used r) (State r) (Token_alive r) x (My_seg_rep r) (Foreign_found r)
    (F_members r) (F_reps r) (Potential_reps r) (Commit_set r) (Future_commit_set r)
    (Send_pack_head r) (Transitional r) (Trans_membership r) (Commit_membership r)
    (Reg_membership r).
Definition set_My_seg_rep (x : Z) (r : memb_vars) : memb_vars :=
  mkMemb (Memb_Just_Installed r) (Membership r) (Membership_id r) (Future_membership r)
    (Future_membership_id r) (Form1_memb_id r) (Trans_memb_id r) (F_trans_memb_time r)
    (Last_time_used r) (State r) (Token_alive r) (memb_My r) x (Foreign_found r)
    (F_members r) (F_reps r) (Potential_reps r) (Commit_set r) (Future_commit_set r)
    (Send_pack_head r) (Transitional r) (Trans_membership r) (Commit_membership r)
    (Reg_membership r).
Definition set_Foreign_found (x : bool) (r : memb_vars) : memb_vars :=
  mkMemb (Memb_Just_Installed r) (Membership r) (Membership_id r) (Future_membership r)
    (Future_membership_id r) (Form1_memb_id r) (Trans_memb_id r) (F_trans_memb_time r)
    (Last_time_used r) (State r) (Token_alive r) (memb_My r) (My_seg_rep r) x (F_members
    r) (F_reps r) (Potential_reps r) (Commit_set r) (Future_commit_set r) (Send_pack_head
    r) (Transitional r) (Trans_membership r) (Commit_membership r) (Reg_membership r).
Definition set_F_members (x : members_info) (r : memb_vars) : memb_vars :=
  mkMemb (Memb_Just_Installed r) (Membership r) (Membership_id r) (Future_membership r)
    (Future_membership_id r) (Form1_memb_id r) (Trans_memb_id r) (F_trans_memb_time r)
    (Last_time_used r) (State r) (Token_alive r) (memb_My r) (My_seg_rep r) (Foreign_found
    r) x (F_reps r) (Potential_reps r) (Commit_set r) (Future_commit_set r)
    (Send_pack_head r) (Transitional r) (Trans_membership r) (Commit_membership r)
    (Reg_membership r).
Definition set_F_reps (x : reps_info) (r : memb_vars) : memb_vars :=
  mkMemb (Memb_Just_Installed r) (Membership r) (Membership_id r) (Future_membership r)
    (Future_membership_id r) (Form1_memb_id r) (Trans_memb_id r) (F_trans_memb_time r)
    (Last_time_used r) (State r) (Token_alive r) (memb_My r) (My_seg_rep r) (Foreign_found
    r) (F_members r) x (Potential_reps r) (Commit_set r) (Future_commit_set r)
    (Send_pack_head r) (Transitional r) (Trans_membership r) (Commit_membership r)
    (Reg_membership r).
Definition set_Potential_reps (x : reps_info) (r : memb_vars) : memb_vars :=
  mkMemb (Memb_Just_Installed r) (Membership r) (Membership_id r) (Future_membership r)
    (Future_membership_id r) (Form1_memb_id r) (Trans_memb_id r) (F_trans_memb_time r)
    (Last_time_used r) (State r) (Token_alive r) (memb_My r) (My_seg_rep r) (Foreign_found
    r) (F_members r) (F_reps r) x (Commit_set r) (Future_commit_set r) (Send_pack_head r)
    (Transitional r) (Trans_membership r) (Commit_membership r) (Reg_membership r).
Definition set_Commit_set (x : members_info) (r : memb_vars) : memb_vars :=
  mkMemb (Memb_Just_Installed r) (Membership r) (Membership_id r) (Future_membership r)
    (Future_membership_id r) (Form1_memb_id r) (Trans_memb_id r) (F_trans_memb_time r)
    (Last_time_used r) (State r) (Token_alive r) (memb_My r) (My_seg_rep r) (Foreign_found
    r) (F_members r) (F_reps r) (Potential_reps r) x (Future_commit_set r) (Send_pack_head
    r) (Transitional r) (Trans_membership r) (Commit_membership r) (Reg_membership r).
Definition set_Future_commit_set (x : members_info) (r : memb_vars) : memb_vars :=
  mkMemb (Memb_Just_Installed r) (Membership r) (Membership_id r) (Future_membership r)
    (Future_membership_id r) (Form1_memb_id r) (Trans_memb_id r) (F_trans_memb_time r)
    (Last_time_used r) (State r) (Token_alive r) (memb_My r) (My_seg_rep r) (Foreign_found
    r) (F_members r) (F_reps r) (Potential_reps r) (Commit_set r) x (Send_pack_head r)
    (Transitional r) (Trans_membership r) (Commit_membership r) (Reg_membership r).
Definition set_Send_pack_head (x : packet_header) (r : memb_vars) : memb_vars :=
  mkMemb (Memb_Just_Installed r) (Membership r) (Membership_id r) (Future_membership r)
    (Future_membership_id r) (Form1_memb_id r) (Trans_memb_id r) (F_trans_memb_time r)
    (Last_time_used r) (State r) (Token_alive r) (memb_My r) (My_seg_rep r) (Foreign_found
    r) (F_members r) (F_reps r) (Potential_reps r) (Commit_set r) (Future_commit_set r) x
    (Transitional r) (Trans_membership r) (Commit_membership r) (Reg_membership r).
Definition set_Transitional (x : Z) (r : memb_vars) : memb_vars :=
  mkMemb (Memb_Just_Installed r) (Membership r) (Membership_id r) (Future_membership r)
    (Future_membership_id r) (Form1_memb_id r) (Trans_memb_id r) (F_trans_memb_time r)
    (Last_time_used r) (State r) (Token_alive r) (memb_My r) (My_seg_rep r) (Foreign_found
    r) (F_members r) (F_reps r) (Potential_reps r) (Commit_set r) (Future_commit_set r)
    (Send_pack_head r) x (Trans_membership r) (Commit_membership r) (Reg_membership r).
Definition set_Trans_membership (x : configuration) (r : memb_vars) : memb_vars :=
  mkMemb (Memb_Just_Installed r) (Membership r) (Membership_id r) (Future_membership r)
    (Future_membership_id r) (Form1_memb_id r) (Trans_memb_id r) (F_trans_memb_time r)
    (Last_time_used r) (State r) (Token_alive r) (memb_My r) (My_seg_rep r) (Foreign_found
    r) (F_members r) (F_reps r) (Potential_reps r) (Commit_set r) (Future_commit_set r)
    (Send_pack_head r) (Transitional r) x (Commit_membership r) (Reg_membership r).
Definition set_Commit_membership (x : configuration) (r : memb_vars) : memb_vars :=
  mkMemb (Memb_Just_Installed r) (Membership r) (Membership_id r) (Future_membership r)
    (Future_membership_id r) (Form1_memb_id r) (Trans_memb_id r) (F_trans_memb_time r)
    (Last_time_used r) (State r) (Token_alive r) (memb_My r) (My_seg_rep r) (Foreign_found
    r) (F_members r) (F_reps r) (Potential_reps r) (Commit_set r) (Future_commit_set r)
    (Send_pack_head r) (Transitional r) (Trans_membership r) x (Reg_membership r).
Definition set_Reg_membership (x : configuration) (r : memb_vars) : memb_vars :=
  mkMemb (Memb_Just_Installed r) (Membership r) (Membership_id r) (Future_membership r)
    (Future_membership_id r) (Form1_memb_id r) (Trans_memb_id r) (F_trans_memb_time r)
    (Last_time_used r) (State r) (Token_alive r) (memb_My r) (My_seg_rep r) (Foreign_found
    r) (F_members r) (F_reps r) (Potential_reps r) (Commit_set r) (Future_commit_set r)
    (Send_pack_head r) (Transitional r) (Trans_membership r) (Commit_membership r) x.

(** The timeouts of [prot_body.h] and [Wide_network]. *)
Record timeouts : Type := mkTimeouts {
  Token_timeout : sp_time;
  Hurry_timeout : sp_time;
  Alive_timeout : sp_time;
  Join_timeout : sp_time;
  Rep_timeout : sp_time;
  Seg_timeout : sp_time;
  Gather_timeout : sp_time;
  Form_timeout : sp_time;
  Lookup_timeout : sp_time;
  Wide_network : bool;
}.

Definition set_Token_timeout (x : sp_time) (r : timeouts) : timeouts :=
  mkTimeouts x (Hurry_timeout r) (Alive_timeout r) (Join_timeout r) (Rep_timeout r)
    (Seg_timeout r) (Gather_timeout r) (Form_timeout r) (Lookup_timeout r) (Wide_network
    r).
Definition set_Hurry_timeout (x : sp_time) (r : timeouts) : timeouts :=
  mkTimeouts (Token_timeout r) x (Alive_timeout r) (Join_timeout r) (Rep_timeout r)
    (Seg_timeout r) (Gather_timeout r) (Form_timeout r) (Lookup_timeout r) (Wide_network
    r).
Definition set_Alive_timeout (x : sp_time) (r : timeouts) : timeouts :=
  mkTimeouts (Token_timeout r) (Hurry_timeout r) x (Join_timeout r) (Rep_timeout r)
    (Seg_timeout r) (Gather_timeout r) (Form_timeout r) (Lookup_timeout r) (Wide_network
    r).
Definition set_Join_timeout (x : sp_time) (r : timeouts) : timeouts :=
  mkTimeouts (Token_timeout r) (Hurry_timeout r) (Alive_timeout r) x (Rep_timeout r)
    (Seg_timeout r) (Gather_timeout r) (Form_timeout r) (Lookup_timeout r) (Wide_network
    r).
Definition set_Rep_timeout (x : sp_time) (r : timeouts) : timeouts :=
  mkTimeouts (Token_timeout r) (Hurry_timeout r) (Alive_timeout r) (Join_timeout r) x
    (Seg_timeout r) (Gather_timeout r) (Form_timeout r) (Lookup_timeout r) (Wide_network
    r).
Definition set_Seg_timeout (x : sp_time) (r : timeouts) : timeouts :=
  mkTimeouts (Token_timeout r) (Hurry_timeout r) (Alive_timeout r) (Join_timeout r)
    (Rep_timeout r) x (Gather_timeout r) (Form_timeout r) (Lookup_timeout r) (Wide_network
    r).
Definition set_Gather_timeout (x : sp_time) (r : timeouts) : timeouts :=
  mkTimeouts (Token_timeout r) (Hurry_timeout r) (Alive_timeout r) (Join_timeout r)
    (Rep_timeout r) (Seg_timeout r) x (Form_timeout r) (Lookup_timeout r) (Wide_network
    r).
Definition set_Form_timeout (x : sp_time) (r : timeouts) : timeouts :=
  mkTimeouts (Token_timeout r) (Hurry_timeout r) (Alive_timeout r) (Join_timeout r)
    (Rep_timeout r) (Seg_timeout r) (Gather_timeout r) x (Lookup_timeout r) (Wide_network
    r).
Definition set_Lookup_timeout (x : sp_time) (r : timeouts) : timeouts :=
  mkTimeouts (Token_timeout r) (Hurry_timeout r) (Alive_timeout r) (Join_timeout r)
    (Rep_timeout r) (Seg_timeout r) (Gather_timeout r) (Form_timeout r) x (Wide_network
    r).
Definition set_Wide_network (x : bool) (r : timeouts) : timeouts :=
  mkTimeouts (Token_timeout r) (Hurry_timeout r) (Alive_timeout r) (Join_timeout r)
    (Rep_timeout r) (Seg_timeout r) (Gather_timeout r) (Form_timeout r) (Lookup_timeout r)
    x.

(** [GlobalStatus], the counters the core writes. *)
Record status : Type := mkStatus {
  st_state : Z;
  st_gstate : Z;
  st_packet_sent : Z;
  st_packet_recv : Z;
  st_packet_delivered : Z;
  st_retrans : Z;
  st_u_retrans : Z;
  st_s_retrans : Z;
  st_b_retrans : Z;
  st_aru : Z;
  st_my_aru : Z;
  st_highest_seq : Z;
  st_token_hurry : Z;
  st_token_rounds : Z;
  st_leader_id : Z;
  st_membership_changes : Z;
  st_num_procs : Z;
  st_num_segments : Z;
  st_window : Z;
  st_personal_window : Z;
  st_accelerated_ring : Z;
  st_accelerated_window : Z;
}.

Definition set_st_state (x : Z) (r : status) : status :=
  mkStatus x (st_gstate r) (st_packet_sent r) (st_packet_recv r) (st_packet_delivered r)
    (st_retrans r) (st_u_retrans r) (st_s_retrans r) (st_b_retrans r) (st_aru r)
    (st_my_aru r) (st_highest_seq r) (st_token_hurry r) (st_token_rounds r) (st_leader_id
    r) (st_membership_changes r) (st_num_procs r) (st_num_segments r) (st_window r)
    (st_personal_window r) (st_accelerated_ring r) (st_accelerated_window r).
Definition set_st_gstate (x : Z) (r : status) : status :=
  mkStatus (st_state r) x (st_packet_sent r) (st_packet_recv r) (st_packet_delivered r)
    (st_retrans r) (st_u_retrans r) (st_s_retrans r) (st_b_retrans r) (st_aru r)
    (st_my_aru r) (st_highest_seq r) (st_token_hurry r) (st_token_rounds r) (st_leader_id
    r) (st_membership_changes r) (st_num_procs r) (st_num_segments r) (st_window r)
    (st_personal_window r) (st_accelerated_ring r) (st_accelerated_window r).
Definition set_st_packet_sent (x : Z) (r : status) : status :=
  mkStatus (st_state r) (st_gstate r) x (st_packet_recv r) (st_packet_delivered r)
    (st_retrans r) (st_u_retrans r) (st_s_retrans r) (st_b_retrans r) (st_aru r)
    (st_my_aru r) (st_highest_seq r) (st_token_hurry r) (st_token_rounds r) (st_leader_id
    r) (st_membership_changes r) (st_num_procs r) (st_num_segments r) (st_window r)
    (st_personal_window r) (st_accelerated_ring r) (st_accelerated_window r).
Definition set_st_packet_recv (x : Z) (r : status) : status :=
  mkStatus (st_state r) (st_gstate r) (st_packet_sent r) x (st_packet_delivered r)
    (st_retrans r) (st_u_retrans r) (st_s_retrans r) (st_b_retrans r) (st_aru r)
    (st_my_aru r) (st_highest_seq r) (st_token_hurry r) (st_token_rounds r) (st_leader_id
    r) (st_membership_changes r) (st_num_procs r) (st_num_segments r) (st_window r)
    (st_personal_window r) (st_accelerated_ring r) (st_accelerated_window r).
Definition set_st_packet_delivered (x : Z) (r : status) : status :=
  mkStatus (st_state r) (st_gstate r) (st_packet_sent r) (st_packet_recv r) x (st_retrans
    r) (st_u_retrans r) (st_s_retrans r) (st_b_retrans r) (st_aru r) (st_my_aru r)
    (st_highest_seq r) (st_token_hurry r) (st_token_rounds r) (st_leader_id r)
    (st_membership_changes r) (st_num_procs r) (st_num_segments r) (st_window r)
    (st_personal_window r) (st_accelerated_ring r) (st_accelerated_window r).
Definition set_st_retrans (x : Z) (r : status) : status :=
  mkStatus (st_state r) (st_gstate r) (st_packet_sent r) (st_packet_recv r)
    (st_packet_delivered r) x (st_u_retrans r) (st_s_retrans r) (st_b_retrans r) (st_aru
    r) (st_my_aru r) (st_highest_seq r) (st_token_hurry r) (st_token_rounds r)
    (st_leader_id r) (st_membership_changes r) (st_num_procs r) (st_num_segments r)
    (st_window r) (st_personal_window r) (st_accelerated_ring r) (st_accelerated_window
    r).
Definition set_st_u_retrans (x : Z) (r : status) : status :=
  mkStatus (st_state r) (st_gstate r) (st_packet_sent r) (st_packet_recv r)
    (st_packet_delivered r) (st_retrans r) x (st_s_retrans r) (st_b_retrans r) (st_aru r)
    (st_my_aru r) (st_highest_seq r) (st_token_hurry r) (st_token_rounds r) (st_leader_id
    r) (st_membership_changes r) (st_num_procs r) (st_num_segments r) (st_window r)
    (st_personal_window r) (st_accelerated_ring r) (st_accelerated_window r).
Definition set_st_s_retrans (x : Z) (r : status) : status :=
  mkStatus (st_state r) (st_gstate r) (st_packet_sent r) (st_packet_recv r)
    (st_packet_delivered r) (st_retrans r) (st_u_retrans r) x (st_b_retrans r) (st_aru r)
    (st_my_aru r) (st_highest_seq r) (st_token_hurry r) (st_token_rounds r) (st_leader_id
    r) (st_membership_changes r) (st_num_procs r) (st_num_segments r) (st_window r)
    (st_personal_window r) (st_accelerated_ring r) (st_accelerated_window r).
Definition set_st_b_retrans (x : Z) (r : status) : status :=
  mkStatus (st_state r) (st_gstate r) (st_packet_sent r) (st_packet_recv r)
    (st_packet_delivered r) (st_retrans r) (st_u_retrans r) (st_s_retrans r) x (st_aru r)
    (st_my_aru r) (st_highest_seq r) (st_token_hurry r) (st_token_rounds r) (st_leader_id
    r) (st_membership_changes r) (st_num_procs r) (st_num_segments r) (st_window r)
    (st_personal_window r) (st_accelerated_ring r) (st_accelerated_window r).
Definition set_st_aru (x : Z) (r : status) : status :=
  mkStatus (st_state r) (st_gstate r) (st_packet_sent r) (st_packet_recv r)
    (st_packet_delivered r) (st_retrans r) (st_u_retrans r) (st_s_retrans r) (st_b_retrans
    r) x (st_my_aru r) (st_highest_seq r) (st_token_hurry r) (st_token_rounds r)
    (st_leader_id r) (st_membership_changes r) (st_num_procs r) (st_num_segments r)
    (st_window r) (st_personal_window r) (st_accelerated_ring r) (st_accelerated_window
    r).
Definition set_st_my_aru (x : Z) (r : status) : status :=
  mkStatus (st_state r) (st_gstate r) (st_packet_sent r) (st_packet_recv r)
    (st_packet_delivered r) (st_retrans r) (st_u_retrans r) (st_s_retrans r) (st_b_retrans
    r) (st_aru r) x (st_highest_seq r) (st_token_hurry r) (st_token_rounds r)
    (st_leader_id r) (st_membership_changes r) (st_num_procs r) (st_num_segments r)
    (st_window r) (st_personal_window r) (st_accelerated_ring r) (st_accelerated_window
    r).
Definition set_st_highest_seq (x : Z) (r : status) : status :=
  mkStatus (st_state r) (st_gstate r) (st_packet_sent r) (st_packet_recv r)
    (st_packet_delivered r) (st_retrans r) (st_u_retrans r) (st_s_retrans r) (st_b_retrans
    r) (st_aru r) (st_my_aru r) x (st_token_hurry r) (st_token_rounds r) (st_leader_id r)
    (st_membership_changes r) (st_num_procs r) (st_num_segments r) (st_window r)
    (st_personal_window r) (st_accelerated_ring r) (st_accelerated_window r).
Definition set_st_token_hurry (x : Z) (r : status) : status :=
  mkStatus (st_state r) (st_gstate r) (st_packet_sent r) (st_packet_recv r)
    (st_packet_delivered r) (st_retrans r) (st_u_retrans r) (st_s_retrans r) (st_b_retrans
    r) (st_aru r) (st_my_aru r) (st_highest_seq r) x (st_token_rounds r) (st_leader_id r)
    (st_membership_changes r) (st_num_procs r) (st_num_segments r) (st_window r)
    (st_personal_window r) (st_accelerated_ring r) (st_accelerated_window r).
Definition set_st_token_rounds (x : Z) (r : status) : status :=
  mkStatus (st_state r) (st_gstate r) (st_packet_sent r) (st_packet_recv r)
    (st_packet_delivered r) (st_retrans r) (st_u_retrans r) (st_s_retrans r) (st_b_retrans
    r) (st_aru r) (st_my_aru r) (st_highest_seq r) (st_token_hurry r) x (st_leader_id r)
    (st_membership_changes r) (st_num_procs r) (st_num_segments r) (st_window r)
    (st_personal_window r) (st_accelerated_ring r) (st_accelerated_window r).
Definition set_st_leader_id (x : Z) (r : status) : status :=
  mkStatus (st_state r) (st_gstate r) (st_packet_sent r) (st_packet_recv r)
    (st_packet_delivered r) (st_retrans r) (st_u_retrans r) (st_s_retrans r) (st_b_retrans
    r) (st_aru r) (st_my_aru r) (st_highest_seq r) (st_token_hurry r) (st_token_rounds r)
    x (st_membership_changes r) (st_num_procs r) (st_num_segments r) (st_window r)
    (st_personal_window r) (st_accelerated_ring r) (st_accelerated_window r).
Definition set_st_membership_changes (x : Z) (r : status) : status :=
  mkStatus (st_state r) (st_gstate r) (st_packet_sent r) (st_packet_recv r)
    (st_packet_delivered r) (st_retrans r) (st_u_retrans r) (st_s_retrans r) (st_b_retrans
    r) (st_aru r) (st_my_aru r) (st_highest_seq r) (st_token_hurry r) (st_token_rounds r)
    (st_leader_id r) x (st_num_procs r) (st_num_segments r) (st_window r)
    (st_personal_window r) (st_accelerated_ring r) (st_accelerated_window r).
Definition set_st_num_procs (x : Z) (r : status) : status :=
  mkStatus (st_state r) (st_gstate r) (st_packet_sent r) (st_packet_recv r)
    (st_packet_delivered r) (st_retrans r) (st_u_retrans r) (st_s_retrans r) (st_b_retrans
    r) (st_aru r) (st_my_aru r) (st_highest_seq r) (st_token_hurry r) (st_token_rounds r)
    (st_leader_id r) (st_membership_changes r) x (st_num_segments r) (st_window r)
    (st_personal_window r) (st_accelerated_ring r) (st_accelerated_window r).
Definition set_st_num_segments (x : Z) (r : status) : status :=
  mkStatus (st_state r) (st_gstate r) (st_packet_sent r) (st_packet_recv r)
    (st_packet_delivered r) (st_retrans r) (st_u_retrans r) (st_s_retrans r) (st_b_retrans
    r) (st_aru r) (st_my_aru r) (st_highest_seq r) (st_token_hurry r) (st_token_rounds r)
    (st_leader_id r) (st_membership_changes r) (st_num_procs r) x (st_window r)
    (st_personal_window r) (st_accelerated_ring r) (st_accelerated_window r).
Definition set_st_window (x : Z) (r : status) : status :=
  mkStatus (st_state r) (st_gstate r) (st_packet_sent r) (st_packet_recv r)
    (st_packet_delivered r) (st_retrans r) (st_u_retrans r) (st_s_retrans r) (st_b_retrans
    r) (st_aru r) (st_my_aru r) (st_highest_seq r) (st_token_hurry r) (st_token_rounds r)
    (st_leader_id r) (st_membership_changes r) (st_num_procs r) (st_num_segments r) x
    (st_personal_window r) (st_accelerated_ring r) (st_accelerated_window r).
Definition set_st_personal_window (x : Z) (r : status) : status :=
  mkStatus (st_state r) (st_gstate r) (st_packet_sent r) (st_packet_recv r)
    (st_packet_delivered r) (st_retrans r) (st_u_retrans r) (st_s_retrans r) (st_b_retrans
    r) (st_aru r) (st_my_aru r) (st_highest_seq r) (st_token_hurry r) (st_token_rounds r)
    (st_leader_id r) (st_membership_changes r) (st_num_procs r) (st_num_segments r)
    (st_window r) x (st_accelerated_ring r) (st_accelerated_window r).
Definition set_st_accelerated_ring (x : Z) (r : status) : status :=
  mkStatus (st_state r) (st_gstate r) (st_packet_sent r) (st_packet_recv r)
    (st_packet_delivered r) (st_retrans r) (st_u_retrans r) (st_s_retrans r) (st_b_retrans
    r) (st_aru r) (st_my_aru r) (st_highest_seq r) (st_token_hurry r) (st_token_rounds r)
    (st_leader_id r) (st_membership_changes r) (st_num_procs r) (st_num_segments r)
    (st_window r) (st_personal_window r) x (st_accelerated_window r).
Definition set_st_accelerated_window (x : Z) (r : status) : status :=
  mkStatus (st_state r) (st_gstate r) (st_packet_sent r) (st_packet_recv r)
    (st_packet_delivered r) (st_retrans r) (st_u_retrans r) (st_s_retrans r) (st_b_retrans
    r) (st_aru r) (st_my_aru r) (st_highest_seq r) (st_token_hurry r) (st_token_rounds r)
    (st_leader_id r) (st_membership_changes r) (st_num_procs r) (st_num_segments r)
    (st_window r) (st_personal_window r) (st_accelerated_ring r) x.

Record world : Type := mkWorld {
  cf : conf_state;
  ev : ev_state;
  io : io_state;
  net : net_state;
  fc : fc_state;
  win : win_state;
  tok : tok_state;
  prt : prot_state;
  mem : memb_vars;
  tmo : timeouts;
  stat : status;
}.

Definition on_cf (f : conf_state -> conf_state) (w : world) : world :=
  mkWorld (f (cf w)) (ev w) (io w) (net w) (fc w) (win w) (tok w) (prt w) (mem w) (tmo w) (stat w).
Definition on_ev (f : ev_state -> ev_state) (w : world) : world :=
  mkWorld (cf w) (f (ev w)) (io w) (net w) (fc w) (win w) (tok w) (prt w) (mem w) (tmo w) (stat w).
Definition on_io (f : io_state -> io_state) (w : world) : world :=
  mkWorld (cf w) (ev w) (f (io w)) (net w) (fc w) (win w) (tok w) (prt w) (mem w) (tmo w) (stat w).
Definition on_net (f : net_state -> net_state) (w : world) : world :=
  mkWorld (cf w) (ev w) (io w) (f (net w)) (fc w) (win w) (tok w) (prt w) (mem w) (tmo w) (stat w).
Definition on_fc (f : fc_state -> fc_state) (w : world) : world :=
  mkWorld (cf w) (ev w) (io w) (net w) (f (fc w)) (win w) (tok w) (prt w) (mem w) (tmo w) (stat w).
Definition on_win (f : win_state -> win_state) (w : world) : world :=
  mkWorld (cf w) (ev w) (io w) (net w) (fc w) (f (win w)) (tok w) (prt w) (mem w) (tmo w) (stat w).
Definition on_tok (f : tok_state -> tok_state) (w : world) : world :=
  mkWorld (cf w) (ev w) (io w) (net w) (fc w) (win w) (f (tok w)) (prt w) (mem w) (tmo w) (stat w).
Definition on_prt (f : prot_state -> prot_state) (w : world) : world :=
  mkWorld (cf w) (ev w) (io w) (net w) (fc w) (win w) (tok w) (f (prt w)) (mem w) (tmo w) (stat w).
Definition on_mem (f : memb_vars -> memb_vars) (w : world) : world :=
  mkWorld (cf w) (ev w) (io w) (net w) (fc w) (win w) (tok w) (prt w) (f (mem w)) (tmo w) (stat w).
Definition on_tmo (f : timeouts -> timeouts) (w : world) : world :=
  mkWorld (cf w) (ev w) (io w) (net w) (fc w) (win w) (tok w) (prt w) (mem w) (f (tmo w)) (stat w).
Definition on_stat (f : status -> status) (w : world) : world :=
  mkWorld (cf w) (ev w) (io w) (net w) (fc w) (win w) (tok w) (prt w) (mem w) (tmo w) (f (stat w)).

Definition cf_do (f : conf_state -> conf_state) : M world unit := modify (on_cf f).
Definition ev_do (f : ev_state -> ev_state) : M world unit := modify (on_ev f).
Definition io_do (f : io_state -> io_state) : M world unit := modify (on_io f).
Definition net_do (f : net_state -> net_state) : M world unit := modify (on_net f).
Definition fc_do (f : fc_state -> fc_state) : M world unit := modify (on_fc f).
Definition win_do (f : win_state -> win_state) : M world unit := modify (on_win f).
Definition tok_do (f : tok_state -> tok_state) : M world unit := modify (on_tok f).
Definition prt_do (f : prot_state -> prot_state) : M world unit := modify (on_prt f).
Definition mem_do (f : memb_vars -> memb_vars) : M world unit := modify (on_mem f).
Definition tmo_do (f : timeouts -> timeouts) : M world unit := modify (on_tmo f).
Definition stat_do (f : status -> status) : M world unit := modify (on_stat f).

(** Run an operation of one component on its part of the world. *)
Definition in_cf {A} (m : M conf_state A) : M world A := fun w =>
  match m (cf w) with Done a c => Done a (on_cf (fun _ => c) w) | Failed e => Failed e end.
Definition in_ev {A} (m : M ev_state A) : M world A := fun w =>
  match m (ev w) with Done a e => Done a (on_ev (fun _ => e) w) | Failed e => Failed e end.

(** [None] of a lookup that ends in a FATAL alarm. *)
Definition or_fatal {A} (site : string) (o : option A) : M world A :=
  match o with Some a => ret a | None => fail (Fatal site) end.

Definition emit (x : output) : M world unit :=
  io_do (fun i => set_io_out (io_out i ++ [x]) i).

(** A reading of the system clock ([E_get_time], [E_get_time_monotonic]). *)
Definition read_clock : M world sp_time :=
  let* w := get in
  io_do (fun i => set_io_clock_i (S (io_clock_i i)) i) ;;
  ret (io_clock (io w) (io_clock_i (io w))).

(** [DL_sendto_gen(Send_channel, scat, dst)]: the datagram leaves, the system
    gives a return value. *)
Definition DL_sendto_gen (dst : spu_addr) (d : datagram) : M world Z :=
  let* w := get in
  emit (Out_sendto dst d) ;;
  io_do (fun i => set_io_sendto_i (S (io_sendto_i i)) i) ;;
  ret (io_sendto_ret (io w) (io_sendto_i (io w))).

(** [E_queue] and [E_dequeue] with a NULL data pointer. *)
Definition E_queue (f : ev_func) (code : Z) (delta : sp_time) : M world unit :=
  let* now := read_clock in
  ev_do (fun e => set_ev_Time_queue (E_queue_at now (mkKey f code 0) delta (ev_Time_queue e)) e).
Definition E_dequeue (f : ev_func) (code : Z) : M world unit :=
  ev_do (fun e => set_ev_Time_queue (E_dequeue_key (mkKey f code 0) (ev_Time_queue e)) e).
Definition Zero_timeout : sp_time := mkTime 0 0.

(* --------------------------------------------------------------------- *)
(** ** The session layer

    What the core calls in [session.c], [groups.c], [status.c] and [log.c].
    Each call is recorded in the output before it runs. *)

Class Session : Type := {
  sess_deliver_message : scatter -> M world unit;
  sess_deliver_trans_memb : configuration -> membership_id -> M world unit;
  sess_deliver_reg_memb : configuration -> membership_id -> M world unit;
  sess_block_users_level : M world unit;
  sess_unblock_users_level : M world unit;
  sess_signal_conf_reload : M world unit;
  log_membership : M world unit;
  stat_handle_message : packet_header -> M world unit
}.

Section upcalls.
Context `{Session}.
Definition Sess_deliver_message (m : scatter) : M world unit :=
  emit (Out_deliver_message m) ;; sess_deliver_message m.
Definition Sess_deliver_trans_memb (c : configuration) (id : membership_id) : M world unit :=
  emit (Out_trans_memb c id) ;; sess_deliver_trans_memb c id.
Definition Sess_deliver_reg_memb (c : configuration) (id : membership_id) : M world unit :=
  emit (Out_reg_memb c id) ;; sess_deliver_reg_memb c id.
Definition Sess_block_users_level : M world unit :=
  emit Out_block_users ;; sess_block_users_level.
Definition Sess_unblock_users_level : M world unit :=
  emit Out_unblock_users ;; sess_unblock_users_level.
Definition Sess_signal_conf_reload : M world unit :=
  emit Out_signal_session ;; sess_signal_conf_reload.
Definition Log_membership : M world unit :=
  emit Out_log_membership ;; log_membership.
Definition Stat_handle_message (h : packet_header) : M world unit :=
  emit (Out_status_reply h) ;; stat_handle_message h.
End upcalls.
