(* ===== verification/Sample.v ===== *)
(** * A sample daemon

    A concrete instance of what the core is parametric in, for evaluating the
    model: a session layer that accepts every call and does nothing, a
    configuration of three daemons in two segments, and the state of the
    daemon [11] before [Prot_init], every variable as its static initialiser
    leaves it. *)

From Stdlib Require Import ZArith Lia.
From stdpp Require Import base strings numbers option gmap list.
From S2P Require Import Prelude Wire Config Events State.

#[export] Instance null_session : Session := {|
  sess_deliver_message _ := ret tt;
  sess_deliver_trans_memb _ _ := ret tt;
  sess_deliver_reg_memb _ _ := ret tt;
  sess_block_users_level := ret tt;
  sess_unblock_users_level := ret tt;
  sess_signal_conf_reload := ret tt;
  log_membership := ret tt;
  stat_handle_message _ := ret tt
|}.

Definition sample_proc (name : string) (id seg index : Z) : proc :=
  mkProc name (Inet id 4803) id [(0, Inet id 4803)] seg index.
Definition sample_conf : configuration :=
  let a := sample_proc "a" 11 0 0 in
  let b := sample_proc "b" 12 0 1 in
  let c := sample_proc "c" 21 1 0 in
  mkConfiguration 7 [a; b; c]
    [mkSegment [Inet 1 4803] [a; b]; mkSegment [Inet 2 4803] [c]].

Definition sample_world : world :=
  mkWorld (conf_initial sample_conf (sample_proc "a" 11 0 0)) ev_initial
    (mkIo [] (fun n => mkTime (Z.of_nat n) 0) 0 (fun _ => 1) 0)
    (mkNet (-1) [] [] no_addr no_configuration false no_proc (replicate 128 0) 0 [5] [6])
    (mkFc 0 0 0 false)
    (mkWin ∅ ∅ 0 0 0 0 0 0 0)
    (mkTok zero_token_header [] 0 zero_token_header 0 0 false 0 0 0 (mkPacketQueue 0 []))
    (mkProt no_proc 0 0 false 1 zero_packet_header 0 (replicate 2 (mkDownQueue 0 0 [])))
    (mkMemb false no_configuration zero_memb_id no_configuration zero_memb_id zero_memb_id
       zero_memb_id 0 0 OP false no_proc 0 false no_members no_reps no_reps no_members no_members
       zero_packet_header 0 no_configuration no_configuration no_configuration)
    (let z := mkTime 0 0 in mkTimeouts z z z z z z z z z false)
    (mkStatus 0 0 0 0 0 0 0 0 0 0 0 0 0 0 0 0 0 0 0 0 0 0).

(** The world a successful computation ends in. *)
Definition run_to {A} (m : M world A) (w : world) : world :=
  match m w with Done _ w' => w' | Failed _ => w end.

(** A received packet of process [11] with one fragment, and a window of four
    packets: a message in two fragments, a whole one, and a SAFE one. *)
Definition sample_packet (type index : Z) (body : buf) : packet_info :=
  mkPacketInfo
    (mkPacketHeader type 11 11 zero_memb_id 0 0 0 (Z.of_nat (length body)) 0 index (Z.of_nat (length body)))
    body 1 0.
Definition sample_packets : gmap Z packet_info :=
  <[1 := sample_packet AGREED_TYPE 1 [10; 11; 12; 13]]>
  (<[2 := sample_packet AGREED_TYPE (-2) [20; 21]]>
  (<[3 := sample_packet AGREED_TYPE (-1) [30; 31; 32; 33]]>
  (<[4 := sample_packet SAFE_TYPE (-1) [40; 41; 42; 43]]> ∅))).
Definition sample_received : world :=
  on_win (fun r => set_Packets sample_packets (set_My_aru 4 (set_Highest_seq 4 r))) sample_world.
Definition sample_messages : list scatter :=
  [[mkElem [10; 11; 12; 13] 4; mkElem [20; 21] 2]; [mkElem [30; 31; 32; 33] 4]; [mkElem [40; 41; 42; 43] 4]].

(** A membership change at its end: daemons [11] and [12] go on, [21] is gone;
    packet 2 is a hole, packet 3 came from [21], packet 4 from [12]. *)
Definition sample_future : configuration :=
  mkConfiguration 7 (conf_allprocs sample_conf)
    [mkSegment [] [sample_proc "a" 11 0 0; sample_proc "b" 12 0 1]; mkSegment [] []].
Definition from_proc (id : Z) (p : packet_info) : packet_info :=
  mkPacketInfo (set_ph_proc_id id (pi_head p)) (pi_body p) (pi_exist p) (pi_proc_index p).
Definition sample_hole : packet_info := mkPacketInfo zero_packet_header [] 3 0.
Definition sample_evs : world :=
  on_win (fun r => mkWin
      (<[1 := sample_packet AGREED_TYPE (-1) [10; 11; 12; 13]]>
       (<[2 := sample_hole]>
       (<[3 := from_proc 21 (sample_packet AGREED_TYPE (-1) [30; 31; 32; 33])]>
       (<[4 := from_proc 12 (sample_packet SAFE_TYPE (-1) [40; 41; 42; 43])]> ∅))))
      ∅ 4 4 4 4 0 0 4)
    (on_mem (fun m => set_State EVS (set_Token_alive true
       (set_Commit_set (mkMembersInfo 2 2 ([11; 12] ++ replicate 126 0))
       (set_Future_membership sample_future (set_Future_membership_id (mkMembId 11 9)
       (set_F_trans_memb_time 8 m)))))) sample_world).
