(* ===== verification/Network.v ===== *)
(** * The network layer ([daemon/network.c])

    Routing of packets and tokens according to the membership, the monitor
    partition, and the admission checks on what is received.  Socket calls are
    outputs ([DL_sendto_gen]) and inputs ([received]). *)

From Stdlib Require Import ZArith Lia.
From stdpp Require Import base strings numbers option gmap list sorting.
From S2P Require Import Prelude Wire Config Events State Sample.

Definition MAX_ADDRS_SEGMENT : Z := 5.
Definition MAX_INTERFACES_PROC : Z := 10.

(** [send_bcast]: the minimum return value over all segment addresses. *)
Definition send_bcast (d : datagram) : M world Z :=
  let* w := get in
  let n := Z.of_nat (length (Bcast_addrs (net w))) in
  if (n <? 1) || (MAX_ADDRS_SEGMENT <? n) then fail (Fatal "send_bcast: illegal Bcast_addrs_num")
  else
    match Bcast_addrs (net w) with
    | [] => fail (Fatal "send_bcast: illegal Bcast_addrs_num")
    | a0 :: rest =>
        let* r := DL_sendto_gen a0 d in
        (fix go (l : list spu_addr) (r : Z) : M world Z :=
           match l with
           | [] => ret r
           | a :: l => let* tmp := DL_sendto_gen a d in go l (if tmp <? r then tmp else r)
           end) rest r
    end.

(** The header fields every send writes. *)
Definition stamp_pack (w : world) (h : packet_header) : packet_header :=
  set_ph_transmiter_id (s32 (p_id (net_My (net w))))
    (set_ph_conf_hash (s32 (conf_hash_code (cf_Config (cf w))))
       (set_ph_type (Set_endian (ph_type h)) h)).
Definition stamp_token (w : world) (h : token_header) : token_header :=
  set_th_transmiter_id (s32 (p_id (net_My (net w))))
    (set_th_conf_hash (s32 (conf_hash_code (cf_Config (cf w))))
       (set_th_type (Set_endian (th_type h)) h)).

Definition send_all (d : datagram) : list spu_addr -> Z -> M world Z :=
  fix go (l : list spu_addr) (r : Z) : M world Z :=
    match l with
    | [] => ret r
    | a :: l => let* r := DL_sendto_gen a d in go l r
    end.

(** The result of a send: its return value and the header it leaves. *)
Definition Net_bcast (h : packet_header) (elems : scatter) : M world (Z * packet_header) :=
  let* w := get in
  let h := stamp_pack w (set_ph_type (Set_routed (ph_type h)) h) in
  let* r := send_all (PackGram h elems) (Send_addrs (net w)) 0 in
  let h := set_ph_type (Clear_routed (ph_type h)) h in
  if truth (Bcast_needed (net w)) then
    let* r := send_bcast (PackGram h elems) in ret (r, h)
  else if Z.of_nat (length (Send_addrs (net w))) =? 0 then ret (1, h)
  else ret (r, h).

Definition Net_scast (seg_index : Z) (h : packet_header) (elems : scatter)
    : M world (Z * packet_header) :=
  let* w := get in
  let h := stamp_pack w h in
  if seg_index =? p_seg_index (net_My (net w)) then
    if truth (Bcast_needed (net w)) then
      let* r := send_bcast (PackGram h elems) in ret (r, h)
    else ret (1, h)
  else
    match seg_procs (conf_segment (Net_membership (net w)) seg_index) with
    | p :: _ =>
        let h := set_ph_type (Set_routed (ph_type h)) h in
        let* r := DL_sendto_gen (p_addr p) (PackGram h elems) in
        ret (r, set_ph_type (Clear_routed (ph_type h)) h)
    | [] => ret (1, h)
    end.

Definition Net_ucast (proc_id : Z) (h : packet_header) (elems : scatter)
    : M world (Z * packet_header) :=
  let* w := get in
  let h := stamp_pack w h in
  match (Conf_proc_by_id_in_conf (cf_Config (cf w)) (u32 proc_id)).2 with
  | None => ret (-1, h)
  | Some p => let* r := DL_sendto_gen (p_addr p) (PackGram h elems) in ret (r, h)
  end.

(** The total length of the elements after the header. *)
Definition elems_len (elems : scatter) : Z := fold_right (fun e acc => se_len e + acc) 0 elems.

(** The length checks shared by [Net_send_token] and [Net_ucast_token]. *)
Definition check_token_len (site : string) (h : token_header) (elems : scatter) : M world unit :=
  let send_len := sizeof_token_header + elems_len elems in
  if negb (send_len =? sizeof_token_header + th_rtr_len h) then fail (Fatal site)
  else if sizeof_token_header + sizeof_token_body <? send_len then fail (Fatal site)
  else ret tt.

Definition Net_send_token (h : token_header) (elems : scatter) : M world (Z * token_header) :=
  check_token_len "Net_send_token" h elems ;;
  let* w := get in
  let h := stamp_token w h in
  let* r := DL_sendto_gen (Token_addr (net w)) (TokenGram h elems) in
  ret (r, h).

Definition Net_ucast_token (proc_id : Z) (h : token_header) (elems : scatter)
    : M world (Z * token_header) :=
  check_token_len "Net_ucast_token" h elems ;;
  let* w := get in
  let h := stamp_token w h in
  match (Conf_proc_by_id_in_conf (cf_Config (cf w)) (u32 proc_id)).2 with
  | None => ret (-1, h)
  | Some p =>
      let* port := or_fatal "spu_addr_ip_get_port" (spu_addr_ip_get_port (p_addr p)) in
      let* a := or_fatal "spu_addr_ip_set_port" (spu_addr_ip_set_port (p_addr p) (port + 1)) in
      let* r := DL_sendto_gen a (TokenGram h elems) in
      ret (r, h)
  end.

(* --------------------------------------------------------------------- *)
(** ** Membership and routes *)

(** The loop of [Net_set_membership] over the segments [i], [i+1], ...: the
    first process of every other non-empty segment is a send address, and the
    number of addresses found when my segment is reached is my_next_index. *)
Fixpoint scan_routes (my_seg : Z) (l : list segment) (i : Z) (addrs : list spu_addr) (next : Z)
    : list spu_addr * Z :=
  match l with
  | [] => (addrs, next)
  | s :: l =>
      if i =? my_seg then scan_routes my_seg l (i + 1) addrs (Z.of_nat (length addrs))
      else match seg_procs s with
           | p :: _ => scan_routes my_seg l (i + 1) (addrs ++ [p_addr p]) next
           | [] => scan_routes my_seg l (i + 1) addrs next
           end
  end.

(** The address of the next process of the ring, before the token port. *)
Definition next_addr (my_seg : segment) (my_index_in_seg : Z) (addrs : list spu_addr)
    (my_next_index : Z) : spu_addr :=
  let n := Z.of_nat (length addrs) in
  if my_index_in_seg <? num_procs my_seg - 1 then
    p_addr (aget no_proc (seg_procs my_seg) (my_index_in_seg + 1))
  else if n =? 0 then p_addr (aget no_proc (seg_procs my_seg) 0)
  else if n =? my_next_index then aget no_addr addrs 0
  else aget no_addr addrs my_next_index.

Definition Net_set_membership (memb : configuration) : M world unit :=
  net_do (set_Net_membership memb) ;;
  let* w := get in
  let my := net_My (net w) in
  let my_seg := conf_segment memb (p_seg_index my) in
  let my_index_in_seg := Conf_id_in_seg my_seg (p_id my) in
  if my_index_in_seg <? 0 then fail (Fatal "Net_set_membership: I am not in membership")
  else
    net_do (set_Segment_leader (my_index_in_seg =? 0)) ;;
    let '(addrs, my_next_index) :=
      scan_routes (p_seg_index my)
        (take (Z.to_nat (Conf_num_segments (cf_Config (cf w)))) (conf_segments memb)) 0 [] (-1) in
    net_do (set_Send_addrs addrs) ;;
    if my_next_index =? -1 then fail (Fatal "Net_set_membership: assert")
    else
      let a := next_addr my_seg my_index_in_seg addrs my_next_index in
      let* port := or_fatal "spu_addr_ip_get_port" (spu_addr_ip_get_port a) in
      let* a := or_fatal "spu_addr_ip_set_port" (spu_addr_ip_set_port a (port + 1)) in
      net_do (set_Token_addr a).

(* --------------------------------------------------------------------- *)
(** ** The monitor partition *)

Definition Net_set_partition (new_partition : Z -> Z) : M world unit :=
  let* w := get in
  if cf_Conf_Reload_Singleton_State (cf w) then ret tt
  else
    mforeach (fun i => net_do (fun n => set_Partition (aset (Partition n) i (new_partition i)) n))
      (seqZ 0 (Conf_num_procs (cf_Config (cf w)))).

Definition Net_clear_partition : M world unit :=
  let* w := get in
  mforeach (fun i => net_do (fun n => set_Partition (aset (Partition n) i 0) n))
    (seqZ 0 (Conf_num_procs (cf_Config (cf w)))).

Definition In_my_component (w : world) (proc_id : Z) : bool :=
  let proc_index := (Conf_proc_by_id_in_conf (cf_Config (cf w)) (u32 proc_id)).1 in
  if proc_index <? 0 then false
  else aget 0 (Partition (net w)) (Partition_my_index (net w)) =? aget 0 (Partition (net w)) proc_index.

Definition Partition_timeout : sp_time := mkTime 60 0.

(** [Net_handle_monitor]: the number of bytes to hand up, 0 when the message
    ends here. *)
Definition Net_handle_monitor (h : packet_header) (body : buf) : M world Z :=
  let recvd_bytes := sizeof_packet_header + ph_data_len h in
  if negb (truth (Is_partition (ph_type h))) then ret recvd_bytes
  else
    let* w := get in
    let n := Conf_num_procs (cf_Config (cf w)) in
    if negb (cf_EnableDangerousMonitor (cf w)) then ret 0
    else if (recvd_bytes <? sizeof_packet_header + n * sizeof_int16)
            || (sizeof_packet_body <? n * sizeof_int16) then ret 0
    else
      let cur_partition i :=
        let v := get_s16 body (2 * i) in
        if Same_endian (ph_type h) then v else s16 (Flip_int16 v) in
      Net_set_partition cur_partition ;;
      E_queue Clear_partition_cb 0 Partition_timeout ;;
      let* w := get in
      if aget 0 (Partition (net w)) (Partition_my_index (net w)) =? -1
      then fail (Fatal "Net_handle_monitor: Instructed to exit by monitor")
      else ret 0.

Definition Net_signal_conf_reload : M world unit :=
  let* w := get in
  let old_bcast_needed := Bcast_needed (net w) in
  let my := cf_My (cf w) in
  net_do (set_net_My my) ;;
  net_do (set_Partition_my_index (Conf_proc_by_id_in_conf (cf_Config (cf w)) (p_id my)).1) ;;
  Net_clear_partition ;;
  let seg := conf_segment (cf_Config (cf w)) (p_seg_index my) in
  if MAX_INTERFACES_PROC <? Z.of_nat (length (p_ifc my))
  then fail (Fatal "Net_signal_conf_reload: too many interfaces")
  else if MAX_ADDRS_SEGMENT <? Z.of_nat (length (seg_addrs seg))
  then fail (Fatal "Net_signal_conf_reload: too many segment addresses")
  else
    net_do (set_Bcast_addrs (seg_addrs seg)) ;;
    net_do (set_Bcast_needed (cbool (1 <? num_procs seg))) ;;
    if negb (old_bcast_needed =? -1) && (1 <? num_procs seg) && negb (truth old_bcast_needed)
    then fail (Fatal "Net_signal_conf_reload: Bcast now needed")
    else ret tt.

(* --------------------------------------------------------------------- *)
(** ** Receiving *)

(** What [DL_recvfrom_gen] gives: its return value, the header and the
    contents of the body buffer after the call, and the source address. *)
Record received (H : Type) : Type := mkReceived {
  rx_ret : Z; rx_head : H; rx_body : buf; rx_src : spu_addr
}.
Arguments mkReceived {H}. Arguments rx_ret {H}. Arguments rx_head {H}.
Arguments rx_body {H}. Arguments rx_src {H}.

(** Forward a routed packet to my segment: the header goes out in the form it
    arrived in, so it is flipped back when its sender's byte order differs. *)
Definition forward_routed (w : world) (h : packet_header) (body : buf) : M world packet_header :=
  let h := set_ph_transmiter_id (s32 (p_id (net_My (net w))))
             (set_ph_type (Clear_routed (ph_type h)) h) in
  let h := if Same_endian (ph_type h) then h else Flip_pack h in
  let len := if Same_endian (ph_type h) then ph_data_len h else u16 (Flip_int16 (ph_data_len h)) in
  send_bcast (PackGram h (if len =? 0 then [] else [mkElem body len])) ;;
  ret (if Same_endian (ph_type h) then h else Flip_pack h).

(** [Net_recv] into [New_pack]: 0 drops the packet, otherwise the header to
    hand up. *)
Definition Net_recv (fd : Z) (rx : received packet_header) : M world (Z * packet_header) :=
  let* w := get in
  let h := rx_head rx in
  if negb (existsb (Z.eqb fd) (Bcast_channel (net w))) then fail (Fatal "Net_recv: non-bcast channel")
  else if rx_ret rx <? 0 then ret (rx_ret rx, h)
  else if rx_ret rx <? sizeof_packet_header then ret (0, h)
  else
    let h := if Same_endian (ph_type h) then h else Flip_pack h in
    if negb (rx_ret rx =? sizeof_packet_header + ph_data_len h) then ret (0, h)
    else if negb (u32 (ph_conf_hash h) =? conf_hash_code (cf_Config (cf w))) then ret (0, h)
    else
      match (Conf_proc_by_id_in_conf (cf_Config (cf w)) (u32 (ph_transmiter_id h))).2 with
      | None => ret (0, h)
      | Some pp =>
          let* c := or_fatal "spu_addr_ip_cmp" (spu_addr_ip_cmp (rx_src rx) (p_addr pp) false) in
          if truth c then ret (0, h)
          else if truth (Is_control (ph_type h)) then
            let* r := Net_handle_monitor h (rx_body rx) in ret (r, h)
          else if u32 (ph_transmiter_id h) =? p_id (net_My (net w)) then ret (0, h)
          else if negb (In_my_component w (ph_transmiter_id h)) then ret (0, h)
          else
            let* h := (if truth (Is_routed (ph_type h)) && truth (Bcast_needed (net w))
                       then forward_routed w h (rx_body rx) else ret h) in
            ret (rx_ret rx, set_ph_type (Clear_routed (ph_type h)) h)
      end.

Definition Net_recv_token (fd : Z) (rx : received token_header) : M world (Z * token_header) :=
  let* w := get in
  let h := rx_head rx in
  if negb (existsb (Z.eqb fd) (Token_channel (net w)))
  then fail (Fatal "Net_recv_token: non-token channel")
  else if rx_ret rx <? 0 then ret (rx_ret rx, h)
  else if rx_ret rx <? sizeof_token_header then ret (0, h)
  else
    let h := if Same_endian (th_type h) then h else Flip_token h in
    if negb (u32 (th_conf_hash h) =? conf_hash_code (cf_Config (cf w))) then ret (0, h)
    else
      match (Conf_proc_by_id_in_conf (cf_Config (cf w)) (u32 (th_transmiter_id h))).2 with
      | None => ret (0, h)
      | Some pp =>
          let* c := or_fatal "spu_addr_ip_cmp" (spu_addr_ip_cmp (rx_src rx) (p_addr pp) false) in
          if truth c then ret (0, h)
          else if negb (In_my_component w (th_transmiter_id h)) then ret (0, h)
          else ret (rx_ret rx, h)
      end.

(* --------------------------------------------------------------------- *)
(** ** Routes *)

(** The first processes of the non-empty segments of [l]. *)
Definition heads (l : list segment) : list proc := omap (fun s => head (seg_procs s)) l.

Section routes.
Lemma head_flat_procs l : head (flat_procs l) = head (heads l).
Proof.
  induction l as [|s l IH]; [done|]. unfold flat_procs, heads in *. cbn.
  destruct (seg_procs s); [exact IH|done].
Qed.

Lemma scan_routes_from my_seg l i addrs next :
  my_seg < i \/ i + Z.of_nat (length l) <= my_seg ->
  scan_routes my_seg l i addrs next = (addrs ++ (p_addr <$> heads l), next).
Proof.
  revert i addrs. induction l as [|s l IH]; intros i addrs Hi; cbn [scan_routes].
  - by rewrite app_nil_r.
  - cbn [length] in Hi. destruct (Z.eqb_spec i my_seg); [lia|]. unfold heads. cbn.
    destruct (seg_procs s) as [|p ps]; rewrite IH by lia; [done|]. by rewrite <- app_assoc.
Qed.

Lemma scan_routes_spec my_seg l :
  0 <= my_seg < Z.of_nat (length l) ->
  scan_routes my_seg l 0 [] (-1) =
    (p_addr <$> (heads (take (Z.to_nat my_seg) l) ++ heads (drop (S (Z.to_nat my_seg)) l)),
     Z.of_nat (length (heads (take (Z.to_nat my_seg) l)))).
Proof.
  intros Hs. assert (Hgen : forall k i l addrs, i + Z.of_nat k = my_seg -> (k < length l)%nat ->
    scan_routes my_seg l i addrs (-1) =
      (addrs ++ (p_addr <$> (heads (take k l) ++ heads (drop (S k) l))),
       Z.of_nat (length addrs + length (heads (take k l))))).
  { induction k as [|k IH]; intros i l' addrs Hk Hl; destruct l' as [|s l']; cbn in Hl; try lia;
      cbn [scan_routes].
    - replace (i =? my_seg) with true by (symmetry; apply Z.eqb_eq; lia).
      rewrite scan_routes_from by lia. cbn. by rewrite Nat.add_0_r.
    - destruct (Z.eqb_spec i my_seg); [lia|]. unfold heads. cbn.
      destruct (seg_procs s) as [|p ps]; rewrite (IH (i + 1)) by lia; [done|].
      rewrite length_app, <- app_assoc. cbn. f_equal. f_equal. unfold heads. lia. }
  rewrite (Hgen (Z.to_nat my_seg)) by lia. done.
Qed.

Lemma head_nil {A} (l : list A) : head l = None -> l = [].
Proof. by destruct l. Qed.

Lemma flat_procs_heads_nil l : heads l = [] -> flat_procs l = [].
Proof. intros Hh. apply head_nil. by rewrite head_flat_procs, Hh. Qed.

Lemma aget_addr (l : list proc) i p :
  l !! Z.to_nat i = Some p -> 0 <= i -> aget no_addr (p_addr <$> l) i = p_addr p.
Proof. intros Hl Hi. unfold aget. destruct (Z.ltb_spec i 0); [lia|]. by rewrite list_lookup_fmap, Hl. Qed.

(** The next address is that of the next process around the ring. *)
Lemma next_addr_spec my memb :
  in_ring my memb ->
  let before := take (Z.to_nat (p_seg_index my)) (conf_segments memb) in
  let after := drop (S (Z.to_nat (p_seg_index my))) (conf_segments memb) in
  exists p, cyclic_next (conf_ring memb) (ring_position my memb) = Some p /\
    next_addr (conf_segment memb (p_seg_index my)) (index_in_seg my memb)
      (p_addr <$> (heads before ++ heads after)) (Z.of_nat (length (heads before))) = p_addr p.
Proof.
  intros Hr before after. destruct (in_ring_index my memb Hr) as (me & Hme & _).
  pose proof (lookup_lt_Some _ _ _ Hme) as Hlt. pose proof Hr as [_ Hi].
  pose proof (conf_ring_split my memb Hr) as Hring. fold before after in Hring.
  unfold cyclic_next, ring_position, next_addr. fold before.
  set (mine := seg_procs (conf_segment memb (p_seg_index my))) in *. unfold num_procs. fold mine.
  rewrite length_fmap, length_app. rewrite Hring, !length_app.
  destruct (Z.ltb_spec (index_in_seg my memb) (Z.of_nat (length mine) - 1)) as [Hin|Hlast].
  { destruct (lookup_lt_is_Some_2 mine (S (Z.to_nat (index_in_seg my memb)))) as [p Hp]; [lia|].
    exists p. rewrite decide_True by lia. split.
    - rewrite lookup_app_r, lookup_app_l by lia. rewrite <- Hp. f_equal. lia.
    - unfold aget. destruct (Z.ltb_spec (index_in_seg my memb + 1) 0); [lia|].
      replace (Z.to_nat (index_in_seg my memb + 1)) with (S (Z.to_nat (index_in_seg my memb))) by lia.
      by rewrite Hp. }
  pose proof (head_flat_procs after) as Ha. pose proof (head_flat_procs before) as Hb.
  destruct (heads after) as [|pa la] eqn:Hpost.
  - rewrite (flat_procs_heads_nil _ Hpost), decide_False by (cbn; lia). rewrite !app_nil_r.
    destruct (heads before) as [|pb lb] eqn:Hpre.
    + rewrite (flat_procs_heads_nil _ Hpre). cbn [app length]. destruct mine as [|p l] eqn:Hm; [done|].
      exists p. split; [done|]. by cbn.
    + exists pb. cbn [length]. rewrite Nat.add_0_r, Z.eqb_refl.
      destruct (Z.eqb_spec (Z.of_nat (S (length lb))) 0); [lia|]. split; [|done].
      cbn in Hb. destruct (flat_procs before); [done|]. by cbn in *.
  - cbn in Ha. destruct (flat_procs after) as [|p' l'] eqn:Hfa; [done|]. injection Ha as ->.
    exists pa. cbn [length]. rewrite decide_True by lia. split.
    + rewrite app_assoc, lookup_app_r by (rewrite length_app; lia). rewrite length_app.
      replace (_ - _)%nat with 0%nat by lia. done.
    + destruct (Z.eqb_spec (Z.of_nat (length (heads before) + S (length la))) 0); [lia|].
      destruct (Z.eqb_spec (Z.of_nat (length (heads before) + S (length la))) (Z.of_nat (length (heads before)))); [lia|].
      apply aget_addr; [|lia]. rewrite Nat2Z.id. by apply list_lookup_middle.
Qed.
End routes.

(** A new membership routes the token around its ring: it goes to the
    port after that of the next process of the ring, the last process back to
    the first; packets for the other segments go to the first process of each
    non-empty one, and a process knows it leads its segment exactly when it is
    the first there.  Nothing else of the daemon changes. *)
Theorem Net_set_membership_routes (w : world) (memb : configuration) :
  let my := net_My (net w) in
  let seg := Z.to_nat (p_seg_index my) in
  in_ring my memb -> Conf_num_segments memb <= Conf_num_segments (cf_Config (cf w)) ->
  Forall (fun p => is_Some (spu_addr_ip_get_port (p_addr p))) (conf_ring memb) ->
  exists next port addr,
    cyclic_next (conf_ring memb) (ring_position my memb) = Some next /\
    spu_addr_ip_get_port (p_addr next) = Some port /\
    spu_addr_ip_set_port (p_addr next) (port + 1) = Some addr /\
    Net_set_membership memb w = Done tt
      (on_net (fun n => set_Token_addr addr
         (set_Send_addrs (p_addr <$> (heads (take seg (conf_segments memb)) ++
                                      heads (drop (S seg) (conf_segments memb))))
         (set_Segment_leader (index_in_seg my memb =? 0) (set_Net_membership memb n)))) w).
Proof.
  intros my seg Hr Hn Hports. destruct (next_addr_spec my memb Hr) as (p & Hp & Haddr).
  assert (Hin : p ∈ conf_ring memb).
  { unfold cyclic_next in Hp. destruct (decide _); [by eapply list_elem_of_lookup_2|].
    destruct (conf_ring memb); [done|]. injection Hp as ->. left. }
  rewrite Forall_forall in Hports. destruct (Hports p Hin) as [port Hport].
  destruct (spu_addr_ip_set_port (p_addr p) (port + 1)) as [addr|] eqn:Hset;
    [|by destruct (p_addr p)].
  exists p, port, addr. split_and!; try done.
  pose proof Hr as [Hs Hi]. unfold Net_set_membership, bind, net_do, modify, get.
  cbn [net on_net set_Net_membership net_My cf]. fold my. fold (index_in_seg my memb).
  destruct (Z.ltb_spec (index_in_seg my memb) 0); [lia|].
  rewrite firstn_all2 by (unfold Conf_num_segments in *; lia).
  rewrite scan_routes_spec by (unfold Conf_num_segments in Hs; lia).
  fold seg in Haddr |- *. cbv beta zeta in Haddr.
  destruct (Z.eqb_spec (Z.of_nat (length (heads (take seg (conf_segments memb))))) (-1)); [lia|].
  cbv zeta. rewrite Haddr. unfold or_fatal, ret. rewrite Hport. cbv beta iota. by rewrite Hset.
Qed.

Lemma Net_set_membership_routes_witness :
  let w := on_net (set_net_My (sample_proc "b" 12 0 1)) sample_world in
  exists w', Net_set_membership sample_conf w = Done tt w' /\ Token_addr (net w') = Inet 21 4804.
Proof.
  intros w.
  assert (Hr : in_ring (net_My (net w)) sample_conf) by (vm_compute; repeat split; discriminate).
  assert (Hn : Conf_num_segments sample_conf <= Conf_num_segments (cf_Config (cf w))) by (vm_compute; discriminate).
  assert (Hp : Forall (fun p => is_Some (spu_addr_ip_get_port (p_addr p))) (conf_ring sample_conf))
    by (repeat constructor; eexists; reflexivity).
  destruct (Net_set_membership_routes w sample_conf Hr Hn Hp) as (nx & port & addr & Hnx & Hport & Haddr & Hrun).
  eexists. split; [exact Hrun|]. cbn.
  vm_compute in Hnx. injection Hnx as <-. injection Hport as <-. vm_compute in Haddr. by injection Haddr as <-.
Defined.
