(* ===== verification/FlowControl.v ===== *)
(** * Flow control ([daemon/flow_control.c])

    How many new packets a token visit may send, from the window parameters
    and the [flow_control] count the token carries. *)

From Stdlib Require Import ZArith Lia.
From stdpp Require Import base strings numbers option gmap list.
From S2P Require Import Prelude Wire Config Events State Sample Network.

(* --------------------------------------------------------------------- *)
(** ** Operations *)

(** [Memb_state()]. *)
Definition Memb_state (w : world) : memb_state := State (mem w).

(** The four variables are [int16]: the configured [int]s are truncated. *)
Definition FC_init : M world unit :=
  let* w := get in
  fc_do (set_fc_Window (s16 (cf_Window (cf w)))) ;;
  fc_do (set_fc_Personal_window (s16 (cf_PersonalWindow (cf w)))) ;;
  fc_do (set_fc_Accelerated_ring (cf_AcceleratedRing (cf w))) ;;
  fc_do (set_fc_Accelerated_window (s16 (cf_AcceleratedWindow (cf w)))) ;;
  let* w := get in
  stat_do (set_st_window (fc_Window (fc w))) ;;
  stat_do (set_st_personal_window (fc_Personal_window (fc w))) ;;
  stat_do (set_st_accelerated_ring (cbool (fc_Accelerated_ring (fc w)))) ;;
  stat_do (set_st_accelerated_window (fc_Accelerated_window (fc w))).

Definition FC_signal_conf_reload : M world unit := FC_init.

Definition FC_new_configuration : M world unit :=
  tok_do (set_Last_num_retrans 0) ;;
  tok_do (set_Last_num_sent 0).

Definition FC_allowed (w : world) (flow_control num_retrans : Z) : Z :=
  if is_state (Memb_state w) EVS then 0
  else if Aru (win w) + MAX_SEQ_GAP <? Highest_seq (win w) then 0
  else
    let allowed := fc_Window (fc w) + fc_Personal_window (fc w) - flow_control in
    let allowed := if allowed <? 0 then 0 else allowed in
    let allowed := if fc_Window (fc w) <? allowed then fc_Window (fc w) else allowed in
    let allowed :=
      if fc_Personal_window (fc w) <? allowed then fc_Personal_window (fc w) else allowed in
    allowed.

Definition FC_accelerated_ring (w : world) : bool := fc_Accelerated_ring (fc w).
Definition FC_accelerated_window (w : world) : Z := fc_Accelerated_window (fc w).

(** The monitor message carries [int16 buf[num_procs + 1][2]]: row
    [num_procs] holds the window, row [my_index] my two other parameters;
    -1 leaves a parameter as it is. *)
Definition FC_handle_message (h : packet_header) (body : buf) : M world unit :=
  let* w := get in
  let Cn := cf_Config (cf w) in
  if negb (cf_EnableDangerousMonitor (cf w)) then ret tt
  else if Conf_id_in_conf Cn (u32 (ph_proc_id h)) <? 0 then ret tt
  else
    let my_index := (Conf_proc_by_id_in_conf Cn (p_id (cf_My (cf w)))).1 in
    if my_index <? 0 then fail (Undefined "FC_handle_message: cur_fc_buf[-1]")
    else
      let cell i j :=
        let v := get_s16 body (4 * i + 2 * j) in
        if Same_endian (ph_type h) then v else s16 (Flip_int16 v) in
      let temp_window := cell (Conf_num_procs Cn) 0 in
      let temp_personal_window := cell my_index 0 in
      let temp_accelerated_window := cell my_index 1 in
      when (negb (temp_window =? -1)) (fc_do (set_fc_Window temp_window)) ;;
      when (negb (temp_personal_window =? -1))
        (fc_do (set_fc_Personal_window temp_personal_window)) ;;
      when (negb (temp_accelerated_window =? -1))
        (fc_do (set_fc_Accelerated_window temp_accelerated_window)) ;;
      let* w := get in
      stat_do (set_st_window (fc_Window (fc w))) ;;
      stat_do (set_st_personal_window (fc_Personal_window (fc w))) ;;
      stat_do (set_st_accelerated_window (fc_Accelerated_window (fc w))).

(* --------------------------------------------------------------------- *)
(** ** Properties *)

Section flow_control.
Implicit Types w : world.

(** The reference: clamp what is left of the two windows. *)
Lemma FC_allowed_spec w f n :
  0 <= fc_Window (fc w) -> 0 <= fc_Personal_window (fc w) ->
  FC_allowed w f n =
    if is_state (State (mem w)) EVS || (Aru (win w) + MAX_SEQ_GAP <? Highest_seq (win w)) then 0
    else Z.max 0 (Z.min (fc_Window (fc w) + fc_Personal_window (fc w) - f)
                        (Z.min (fc_Window (fc w)) (fc_Personal_window (fc w)))).
Proof.
  intros HW HP. unfold FC_allowed, Memb_state.
  destruct (is_state _ _); [done|]. simpl. zcases; lia.
Qed.
End flow_control.

(** The allowance of a token visit is what is left of the two windows,
    between zero and the personal window, nothing while a membership is being
    installed or while the gap of unstable packets is full; taking it keeps
    the packets of a round within the window plus the personal window. *)
Theorem FC_allowed_window (w : world) (flow_control num_retrans : Z) :
  0 <= fc_Window (fc w) -> 0 <= fc_Personal_window (fc w) ->
  let a := FC_allowed w flow_control num_retrans in
  0 <= a <= Z.min (fc_Window (fc w)) (fc_Personal_window (fc w)) /\
  (State (mem w) = EVS -> a = 0) /\
  (Aru (win w) + MAX_SEQ_GAP < Highest_seq (win w) -> a = 0) /\
  (flow_control <= fc_Window (fc w) + fc_Personal_window (fc w) ->
   flow_control + a <= fc_Window (fc w) + fc_Personal_window (fc w)) /\
  (State (mem w) <> EVS -> Highest_seq (win w) <= Aru (win w) + MAX_SEQ_GAP ->
   flow_control <= fc_Window (fc w) ->
   a = Z.min (fc_Window (fc w)) (fc_Personal_window (fc w)) \/
   flow_control + a = fc_Window (fc w) + fc_Personal_window (fc w)).
Proof.
  intros HW HP. cbv zeta. rewrite FC_allowed_spec by done. unfold is_state.
  destruct (decide (State (mem w) = EVS)) as [->|He].
  - rewrite bool_decide_true by done. cbn. split_and!; try done; lia.
  - rewrite (bool_decide_false (State _ = _)) by done. cbn. zcases; split_and!; try done; lia.
Qed.

Lemma FC_allowed_window_witness :
  let w := on_fc (fun _ => mkFc 60 15 10 true) sample_world in
  FC_allowed w 70 0 = 5 /\ 70 + FC_allowed w 70 0 <= 75.
Proof.
  intros w. split; [vm_compute; reflexivity|].
  refine (proj1 (proj2 (proj2 (proj2 (FC_allowed_window w 70 0 _ _)))) _); cbn; lia.
Defined.
