(* ===== verification/MembSets.v ===== *)
(** * Member and representative sets ([daemon/membership.c])

    The fixed-size sets the membership algorithm gathers ([members_info],
    [reps_info]), their insertion, minimum and sorting, and their wire form
    with the byte-order flips.  [cfg] is the daemon's [*Cn], the configuration
    [Conf_proc_by_id] looks processes up in. *)

From Stdlib Require Import ZArith Lia.
From stdpp Require Import base strings numbers option gmap list sorting.
From S2P Require Import Prelude Wire Config Events State Sample.

Definition POTENTIAL_REP : Z := 0.
Definition SEG_REP : Z := 1.
Definition RING_REP : Z := 2.

Definition sizeof_members_info : Z := 516.
Definition sizeof_rep_info : Z := 8.
Definition sizeof_reps_info : Z := 204.
Definition sizeof_ring_info : Z := 28.

Definition set_num_members (x : Z) (m : members_info) : members_info :=
  mkMembersInfo x (num_pending m) (members m).
Definition set_num_pending (x : Z) (m : members_info) : members_info :=
  mkMembersInfo (num_members m) x (members m).
Definition set_members (x : list Z) (m : members_info) : members_info :=
  mkMembersInfo (num_members m) (num_pending m) x.
Definition set_member (i x : Z) (m : members_info) : members_info :=
  set_members (aset (members m) i x) m.
Definition member (m : members_info) (i : Z) : Z := aget 0 (members m) i.
Definition set_num_reps (x : Z) (r : reps_info) : reps_info :=
  mkRepsInfo x (rep_index r) (reps r).
Definition set_rep_index (x : Z) (r : reps_info) : reps_info :=
  mkRepsInfo (num_reps r) x (reps r).
Definition set_rep (i : Z) (x : rep_info) (r : reps_info) : reps_info :=
  mkRepsInfo (num_reps r) (rep_index r) (aset (reps r) i x).
Definition rep (r : reps_info) (i : Z) : rep_info := aget no_rep (reps r) i.
Definition set_rep_type (x : Z) (r : rep_info) : rep_info :=
  mkRep (rep_proc_id r) x (rep_seg_index r).

(** The elements in use. *)
Definition members_list (m : members_info) : list Z := take (Z.to_nat (num_members m)) (members m).
Definition reps_list (r : reps_info) : list rep_info := take (Z.to_nat (num_reps r)) (reps r).

(** [Conf_proc_by_id(id, &p)]. *)
Definition Conf_proc_by_id (cfg : configuration) (id : Z) : option proc :=
  (Conf_proc_by_id_in_conf cfg (u32 id)).2.

(* --------------------------------------------------------------------- *)
(** ** Insertion *)

Definition Insert_member (m : members_info) (proc_id : Z) : members_info * Z :=
  if existsb (Z.eqb proc_id) (members_list m) then (m, 0)
  else if num_members m =? MAX_PROCS_RING then (m, 0)
  else (set_num_members (num_members m + 1) (set_member (num_members m) proc_id m), 1).

(** The three search loops of [Insert_rep]: for the element [x] a loop looks
    at, [Some (y, ret)] when it stops there, leaving [y] in its place and
    returning [ret]. *)
Definition Insert_rep_at (p : proc) (rtype : Z) (x : rep_info) : option (rep_info * Z) :=
  if negb (rep_seg_index x =? p_seg_index p) then None
  else if rtype =? POTENTIAL_REP then Some (x, 0)
  else if rtype =? SEG_REP then
    if rep_type x =? POTENTIAL_REP then Some (mkRep (s32 (p_id p)) SEG_REP (rep_seg_index x), 1)
    else if rep_type x =? SEG_REP then
      if u32 (rep_proc_id x) =? p_id p then Some (x, 0) else None
    else if (rep_type x =? RING_REP) && (u32 (rep_proc_id x) =? p_id p)
      then Some (set_rep_type SEG_REP x, 1) else None
  else
    if rep_type x =? POTENTIAL_REP then Some (mkRep (s32 (p_id p)) RING_REP (rep_seg_index x), 1)
    else if rep_type x =? SEG_REP then
      if u32 (rep_proc_id x) =? p_id p then Some (set_rep_type RING_REP x, 1) else None
    else if (rep_type x =? RING_REP) && (u32 (rep_proc_id x) =? p_id p)
      then Some (x, 0) else None.

Fixpoint rep_search (f : rep_info -> option (rep_info * Z)) (l : list rep_info) (i : Z)
    : option (Z * rep_info * Z) :=
  match l with
  | [] => None
  | x :: l => match f x with Some (y, r) => Some (i, y, r) | None => rep_search f l (i + 1) end
  end.

Definition Insert_rep (cfg : configuration) (r : reps_info) (new : rep_info) : res (reps_info * Z) :=
  let? p := or_err (Fatal "Insert_rep: proc not exist") (Conf_proc_by_id cfg (rep_proc_id new)) in
  if negb ((rep_type new =? POTENTIAL_REP) || (rep_type new =? SEG_REP) || (rep_type new =? RING_REP))
  then inl (Fatal "Insert_rep: unknown rep.type")
  else
    match rep_search (Insert_rep_at p (rep_type new)) (reps_list r) 0 with
    | Some (i, y, ret) => inr (set_rep i y r, ret)
    | None =>
        if num_reps r =? MAX_REPS then inr (r, 0)
        else inr (set_num_reps (num_reps r + 1) (set_rep (num_reps r) new r), 1)
    end.

(* --------------------------------------------------------------------- *)
(** ** The smallest element and sorting *)

(** The order of the processes of the configuration. *)
Definition proc_lt (p q : proc) : bool :=
  (p_seg_index p <? p_seg_index q)
  || ((p_seg_index p =? p_seg_index q) && (p_index_in_seg p <? p_index_in_seg q)).

(** The loop of [Smallest_member] from index [i] on, with [current] and
    [curr_proc]. *)
Fixpoint smallest_member_from (cfg : configuration) (l : list Z) (i current : Z) (curr_proc : proc)
    : res Z :=
  match l with
  | [] => inr current
  | x :: l =>
      let? i_proc := or_err (Fatal "Smallest_member: Bug!") (Conf_proc_by_id cfg x) in
      if proc_lt i_proc curr_proc then smallest_member_from cfg l (i + 1) i i_proc
      else smallest_member_from cfg l (i + 1) current curr_proc
  end.

(** The smallest member and its index. *)
Definition Smallest_member (cfg : configuration) (m : members_info) : res (Z * Z) :=
  let? curr_proc := or_err (Fatal "Smallest_member: unknown proc_id") (Conf_proc_by_id cfg (member m 0)) in
  let? index := smallest_member_from cfg (tail (members_list m)) 1 0 curr_proc in
  inr (member m index, index).

(** One comparison of [Smallest_rep]: does [x] replace the current [c]?  Where
    the code compares two processes it did not find, it reads uninitialised
    variables. *)
Definition rep_replaces (cfg : configuration) (c x : rep_info) : res bool :=
  if rep_type c =? SEG_REP then
    inr ((rep_type x =? SEG_REP) && (rep_seg_index x <? rep_seg_index c))
  else if rep_type c =? RING_REP then
    if rep_type x =? RING_REP then
      if rep_seg_index x <? rep_seg_index c then inr true
      else if rep_seg_index x =? rep_seg_index c then
        let? curr_p := or_err (Undefined "Smallest_rep: curr_p") (Conf_proc_by_id cfg (rep_proc_id c)) in
        let? i_p := or_err (Undefined "Smallest_rep: i_p") (Conf_proc_by_id cfg (rep_proc_id x)) in
        inr (p_index_in_seg i_p <? p_index_in_seg curr_p)
      else inr false
    else inr (rep_type x =? SEG_REP)
  else inl (Fatal "Smallest_rep: bug!").

Fixpoint smallest_rep_from (cfg : configuration) (l : list rep_info) (i current : Z) (c : rep_info)
    : res Z :=
  match l with
  | [] => inr current
  | x :: l =>
      let? b := rep_replaces cfg c x in
      if b then smallest_rep_from cfg l (i + 1) i x
      else smallest_rep_from cfg l (i + 1) current c
  end.

Definition Smallest_rep (cfg : configuration) (r : reps_info) : res (Z * Z) :=
  let? index := smallest_rep_from cfg (tail (reps_list r)) 1 0 (rep r 0) in
  inr (rep_proc_id (rep r index), index).

(** The loop of [Sort_members] with [n] elements left to place at [i]: [m] is
    the result, [temp] the copy it empties. *)
Fixpoint sort_members_from (cfg : configuration) (n : nat) (i : Z) (temp m : members_info)
    : res members_info :=
  match n with
  | O => inr m
  | S n =>
      let? '(_, index) := Smallest_member cfg temp in
      let m := set_member i (member temp index) m in
      let temp := set_num_members (num_members temp - 1) temp in
      let temp := set_member index (member temp (num_members temp)) temp in
      sort_members_from cfg n (i + 1) temp m
  end.
Definition Sort_members (cfg : configuration) (m : members_info) : res members_info :=
  sort_members_from cfg (Z.to_nat (num_members m)) 0 m m.

Fixpoint sort_reps_from (cfg : configuration) (n : nat) (i : Z) (temp r : reps_info)
    : res reps_info :=
  match n with
  | O => inr r
  | S n =>
      let? '(_, index) := Smallest_rep cfg temp in
      let r := set_rep i (rep temp index) r in
      let temp := set_num_reps (num_reps temp - 1) temp in
      let temp := set_rep index (rep temp (num_reps temp)) temp in
      sort_reps_from cfg n (i + 1) temp r
  end.
Definition Sort_reps (cfg : configuration) (r : reps_info) : res reps_info :=
  sort_reps_from cfg (Z.to_nat (num_reps r)) 0 r r.

(* --------------------------------------------------------------------- *)
(** ** Wire form

    The structures as they lie in a packet or token body, at offset [o]. *)

Definition enc_members (m : members_info) : list Z :=
  enc16 (num_members m) ++ enc16 (num_pending m) ++ (members m ≫= enc32).
Definition enc_rep (r : rep_info) : list Z :=
  enc32 (rep_proc_id r) ++ enc16 (rep_type r) ++ enc16 (rep_seg_index r).
Definition enc_reps (r : reps_info) : list Z :=
  enc16 (num_reps r) ++ enc16 (rep_index r) ++ (reps r ≫= enc_rep).

Definition dec_rep (b : buf) (o : Z) : rep_info :=
  mkRep (get_s32 b o) (get_s16 b (o + 4)) (get_s16 b (o + 6)).
Definition dec_members (b : buf) (o : Z) : members_info :=
  mkMembersInfo (get_s16 b o) (get_s16 b (o + 2))
    ((fun i => get_s32 b (o + 4 + 4 * i)) <$> seqZ 0 MAX_PROCS_RING).
Definition dec_reps (b : buf) (o : Z) : reps_info :=
  mkRepsInfo (get_s16 b o) (get_s16 b (o + 2))
    ((fun i => dec_rep b (o + 4 + 8 * i)) <$> seqZ 0 MAX_REPS).

(** [ring_info] without the holes and processes that follow it. *)
Record ring_info : Type := mkRingInfo {
  ri_memb_id : membership_id;
  ri_trans_time : Z;  (* int32 *)
  ri_aru : Z;         (* int32 *)
  ri_highest_seq : Z; (* int32 *)
  ri_num_holes : Z;   (* int32 *)
  ri_num_commit : Z;  (* int16 *)
  ri_num_trans : Z    (* int16 *)
}.
Definition enc_memb_id (m : membership_id) : list Z := enc32 (mi_proc_id m) ++ enc32 (mi_time m).
Definition dec_memb_id (b : buf) (o : Z) : membership_id := mkMembId (get_s32 b o) (get_s32 b (o + 4)).
Definition enc_ring_info (r : ring_info) : list Z :=
  enc_memb_id (ri_memb_id r) ++ enc32 (ri_trans_time r) ++ enc32 (ri_aru r)
  ++ enc32 (ri_highest_seq r) ++ enc32 (ri_num_holes r)
  ++ enc16 (ri_num_commit r) ++ enc16 (ri_num_trans r).
Definition dec_ring_info (b : buf) (o : Z) : ring_info :=
  mkRingInfo (dec_memb_id b o) (get_s32 b (o + 8)) (get_s32 b (o + 12)) (get_s32 b (o + 16))
    (get_s32 b (o + 20)) (get_s16 b (o + 24)) (get_s16 b (o + 26)).

(** [*p = Flip_int32( *p)] and its 16-bit form at offset [o] of a buffer. *)
Definition flip32_at (o : Z) (b : buf) : buf := put_bytes b o (enc32 (Flip_int32 (get_s32 b o))).
Definition flip16_at (o : Z) (b : buf) : buf := put_bytes b o (enc16 (Flip_int16 (get_s16 b o))).

(** [for (i = 0; i < n; i++) flip of the int32 at o + 4*i], inside a buffer
    of [size] bytes. *)
Definition flip32_array (site : string) (size o n : Z) (b : buf) : res buf :=
  if size <? o + 4 * n then inl (Undefined site)
  else inr (fold_left (fun b i => flip32_at (o + 4 * i) b) (seqZ 0 n) b).

Definition Flip_members (size o : Z) (b : buf) : res buf :=
  let b := flip16_at (o + 2) (flip16_at o b) in
  flip32_array "Flip_members" size (o + 4) (get_s16 b o + get_s16 b (o + 2)) b.

Definition flip_rep_at (o : Z) (b : buf) : buf :=
  flip16_at (o + 6) (flip16_at (o + 4) (flip32_at o b)).
Definition Flip_reps (size o : Z) (b : buf) : res buf :=
  let b := flip16_at (o + 2) (flip16_at o b) in
  let n := get_s16 b o in
  if size <? o + 4 + 8 * n then inl (Undefined "Flip_reps")
  else inr (fold_left (fun b i => flip_rep_at (o + 4 + 8 * i) b) (seqZ 0 n) b).

Definition flip_ring_info_at (o : Z) (b : buf) : buf :=
  let b := flip32_at o b in
  let b := flip32_at (o + 4) b in
  let b := flip32_at (o + 8) b in
  let b := flip32_at (o + 12) b in
  let b := flip32_at (o + 16) b in
  let b := flip32_at (o + 20) b in
  let b := flip16_at (o + 24) b in
  flip16_at (o + 26) b.

(** The outer loop of [Flip_rings]: [n] rings left, the next one at [ptr]. *)
Fixpoint flip_rings_from (size : Z) (n : nat) (ptr : Z) (b : buf) : res buf :=
  match n with
  | O => inr b
  | S n =>
      if size <? ptr + sizeof_ring_info then inl (Undefined "Flip_rings")
      else
        let b := flip_ring_info_at ptr b in
        let r := dec_ring_info b ptr in
        let cnt := ri_num_holes r + ri_num_commit r in
        let ptr := ptr + sizeof_ring_info in
        let? b := flip32_array "Flip_rings" size ptr cnt b in
        flip_rings_from size n (ptr + 4 * Z.max 0 cnt) b
  end.
Definition Flip_rings (size o : Z) (b : buf) : res buf :=
  let b := flip32_at o b in
  flip_rings_from size (Z.to_nat (get_s32 b o)) (o + sizeof_int32) b.

(* --------------------------------------------------------------------- *)
(** ** Members: insertion, the smallest, sorting *)

(** The array of a [members_info] and the count of its elements in use. *)
Definition members_ok (m : members_info) : Prop :=
  Z.of_nat (length (members m)) = MAX_PROCS_RING /\ 0 <= num_members m <= MAX_PROCS_RING.
(** Every member in use is a process of the configuration. *)
Definition all_known (cfg : configuration) (l : list Z) : Prop :=
  Forall (fun x => is_Some (Conf_proc_by_id cfg x)) l.
(** The order of the configuration on process ids. *)
Definition member_proc (cfg : configuration) (x : Z) : proc := default no_proc (Conf_proc_by_id cfg x).
Definition member_le (cfg : configuration) (x y : Z) : Prop :=
  proc_lt (member_proc cfg y) (member_proc cfg x) = false.

Section members.
Implicit Types m : members_info.

Lemma members_list_length m : members_ok m -> Z.of_nat (length (members_list m)) = num_members m.
Proof. unfold members_ok, members_list. rewrite length_take. lia. Qed.

Lemma member_lookup m i :
  members_ok m -> 0 <= i < num_members m -> members_list m !! Z.to_nat i = Some (member m i).
Proof.
  intros [Hl Hn] Hi. unfold members_list, member, aget. rewrite lookup_take_lt by lia.
  destruct (Z.ltb_spec i 0); [lia|]. destruct (lookup_lt_is_Some_2 (members m) (Z.to_nat i)) as [x ->]; [lia|done].
Qed.

Lemma set_member_ok i x m : members_ok m -> members_ok (set_member i x m).
Proof. intros Hm. unfold members_ok, set_member. cbn. by rewrite aset_length. Qed.

(** Taking one element out by copying the last one over it. *)
Lemma members_list_remove m i :
  members_ok m -> 0 <= i < num_members m ->
  let m' := set_num_members (num_members m - 1) m in
  let m' := set_member i (member m' (num_members m')) m' in
  members_ok m' /\ members_list m' = remove_swap (members_list m) (Z.to_nat i).
Proof.
  intros Hm Hi m1 m2. pose proof Hm as [Hl Hn]. split.
  { apply set_member_ok. split; cbn; [done|lia]. }
  assert (Hla : last (members_list m) = Some (member m (num_members m - 1))).
  { rewrite last_lookup, <- (member_lookup m) by (done || lia). f_equal.
    rewrite <- (members_list_length m Hm). lia. }
  unfold remove_swap. rewrite Hla. unfold m2, m1, members_list, set_member, aset. cbn.
  destruct (Z.ltb_spec i 0); [lia|]. apply list_eq. intros k.
  rewrite length_take. destruct (decide (k < Z.to_nat (num_members m - 1))%nat) as [Hk|Hk].
  - rewrite !lookup_take_lt by lia. destruct (decide (k = Z.to_nat i)) as [->|Hne].
    + rewrite !list_lookup_insert_eq; [done| |]; rewrite ?length_take; lia.
    + rewrite !list_lookup_insert_ne by done. by rewrite lookup_take_lt by lia.
  - rewrite !lookup_take_ge by lia. done.
Qed.

Lemma members_list_snoc m i x :
  members_ok m -> 0 <= i < MAX_PROCS_RING ->
  take (Z.to_nat (i + 1)) (members (set_member i x m)) = take (Z.to_nat i) (members m) ++ [x].
Proof.
  intros [Hl _] Hi. unfold set_member, aset. cbn. destruct (Z.ltb_spec i 0); [lia|].
  replace (Z.to_nat (i + 1)) with (S (Z.to_nat i)) by lia.
  rewrite (take_S_r _ _ x) by (rewrite list_lookup_insert_eq; [done|lia]).
  by rewrite take_insert_ge by lia.
Qed.
End members.

Section member_order.
Context (cfg : configuration).
Local Abbreviation P := (member_proc cfg).

Lemma member_proc_known x p : Conf_proc_by_id cfg x = Some p -> P x = p.
Proof. unfold member_proc. by intros ->. Qed.

Lemma member_le_trans x y z : member_le cfg x y -> member_le cfg y z -> member_le cfg x z.
Proof. unfold member_le, proc_lt. zcases; lia || done. Qed.

Lemma member_le_refl x : member_le cfg x x.
Proof. unfold member_le, proc_lt. zcases; lia || done. Qed.

Lemma proc_lt_le x y : proc_lt (P x) (P y) = true -> member_le cfg x y.
Proof. unfold member_le, proc_lt. zcases; lia || done. Qed.

Lemma smallest_member_from_spec l : forall pre current c,
  all_known cfg l -> pre !! Z.to_nat current = Some c -> 0 <= current -> Forall (member_le cfg c) pre ->
  exists k x, smallest_member_from cfg l (Z.of_nat (length pre)) current (P c) = inr k /\
    0 <= k /\ (pre ++ l) !! Z.to_nat k = Some x /\ Forall (member_le cfg x) (pre ++ l).
Proof.
  induction l as [|x l IH]; intros pre current c Hk Hc Hpos Hmin; cbn [smallest_member_from].
  - exists current, c. by rewrite app_nil_r.
  - inversion Hk as [|? ? [p Hp] Hk']; subst. rewrite Hp. cbn [or_err rbind].
    rewrite <- (member_proc_known _ _ Hp). 
    assert (Hcur : (pre ++ [x]) !! Z.to_nat current = Some c).
    { rewrite lookup_app_l; [done|]. by apply lookup_lt_Some in Hc. }
    assert (Hlast : (pre ++ [x]) !! Z.to_nat (Z.of_nat (length pre)) = Some x).
    { rewrite Nat2Z.id. by apply list_lookup_middle. }
    replace (Z.of_nat (length pre) + 1) with (Z.of_nat (length (pre ++ [x]))) by (rewrite length_app; cbn; lia).
    replace (pre ++ x :: l) with ((pre ++ [x]) ++ l) by by rewrite <- app_assoc.
    destruct (proc_lt (P x) (P c)) eqn:Hlt.
    + apply IH; [done|done|lia|]. apply proc_lt_le in Hlt. apply Forall_app. split.
      * eapply Forall_impl; [exact Hmin|]. intros y. by apply member_le_trans.
      * constructor; [apply member_le_refl|done].
    + apply IH; [done|done|done|]. apply Forall_app. split; [done|]. by constructor.
Qed.

Lemma Smallest_member_spec m :
  members_ok m -> 0 < num_members m -> all_known cfg (members_list m) ->
  exists i, Smallest_member cfg m = inr (member m i, i) /\ 0 <= i < num_members m /\
    Forall (member_le cfg (member m i)) (members_list m).
Proof.
  intros Hm Hn Hk. pose proof (member_lookup m 0 Hm ltac:(lia)) as H0.
  pose proof (members_list_length m Hm) as Hlen. unfold Smallest_member.
  remember (members_list m) as l eqn:Hl.
  destruct l as [|x l]; [done|]. injection H0 as H0. rewrite <- H0.
  inversion Hk as [|? ? [p Hp] Hk']; subst. rewrite Hp. cbn [or_err rbind tail].
  rewrite <- (member_proc_known _ _ Hp).
  destruct (smallest_member_from_spec l [member m 0] 0 (member m 0)) as (k & y & Hs & Hk0 & Hy & Hmin);
    [done|done|done|constructor; [apply member_le_refl|done]|].
  change (Z.of_nat (length [member m 0])) with 1 in Hs. cbn [app] in Hy, Hmin. rewrite Hs.
  assert (Hkn : 0 <= k < num_members m).
  { split; [done|]. apply lookup_lt_Some in Hy. rewrite <- Hlen. lia. }
  rewrite Hl, member_lookup in Hy by done. injection Hy as <-.
  exists k. split_and!; [done|lia..|done].
Qed.

Lemma all_known_perm l l' : l ≡ₚ l' -> all_known cfg l -> all_known cfg l'.
Proof. apply Permutation_Forall. Qed.

Lemma sort_members_from_spec l n : forall i temp m,
  all_known cfg l -> members_ok temp -> members_ok m -> num_members temp = Z.of_nat n ->
  0 <= i -> i + Z.of_nat n = num_members m ->
  selected (member_le cfg) l (take (Z.to_nat i) (members m)) (members_list temp) ->
  exists m', sort_members_from cfg n i temp m = inr m' /\ members_ok m' /\
    num_members m' = num_members m /\ num_pending m' = num_pending m /\
    selected (member_le cfg) l (members_list m') [].
Proof.
  induction n as [|n IH]; intros i temp m Hk Ht Hm Hn Hi Him Hsel; cbn [sort_members_from].
  - exists m. split_and!; try done. unfold members_list at 1. replace (num_members m) with i by lia.
    by replace (members_list temp) with (@nil Z) in Hsel by (unfold members_list; by rewrite Hn).
  - destruct (Smallest_member_spec temp Ht) as (k & -> & Hkn & Hmin); [lia| |].
    { destruct Hsel as [Hp _]. apply (all_known_perm _ _ (symmetry Hp)), Forall_app in Hk. apply Hk. }
    cbn [rbind]. destruct (members_list_remove temp k Ht Hkn) as [Ht' Hl'].
    pose proof Hm as [_ Hmn].
    apply (IH (i + 1) _ (set_member i (member temp k) m)); try done.
    + by apply set_member_ok.
    + cbn. lia.
    + lia.
    + cbn. lia.
    + rewrite members_list_snoc by (done || lia). rewrite Hl'.
      apply selected_step; [done|by apply member_lookup|done].
Qed.
End member_order.

(** Sorting the members of a form token leaves exactly the same members,
    in the order of the configuration, whatever order they arrived in, and
    it always succeeds when they are all configured. *)
Theorem Sort_members_sorts (cfg : configuration) (m : members_info) :
  members_ok m -> all_known cfg (members_list m) ->
  exists m', Sort_members cfg m = inr m' /\ members_ok m' /\
    num_members m' = num_members m /\ num_pending m' = num_pending m /\
    members_list m' ≡ₚ members_list m /\ StronglySorted (member_le cfg) (members_list m').
Proof.
  intros Hm Hk. pose proof Hm as [_ Hn].
  destruct (sort_members_from_spec cfg (members_list m) (Z.to_nat (num_members m)) 0 m m)
    as (m' & Hs & Hm' & Hn' & Hp' & Hperm & Hsorted & _); try done; try lia.
  { apply selected_start. }
  exists m'. rewrite app_nil_r in Hperm. by split_and!.
Qed.

Lemma Sort_members_sorts_witness :
  let m := mkMembersInfo 3 0 ([21; 12; 11] ++ replicate 125 0) in
  exists m', Sort_members sample_conf m = inr m' /\ members_list m' = [11; 12; 21].
Proof.
  intros m.
  assert (Hm : members_ok m) by (split; [vm_compute; reflexivity|vm_compute; split; discriminate]).
  assert (Hk : all_known sample_conf (members_list m)) by (repeat constructor; vm_compute; eexists; reflexivity).
  destruct (Sort_members_sorts sample_conf m Hm Hk) as (m' & Hs & _).
  exists m'. split; [exact Hs|]. revert Hs. vm_compute. intros [= <-]. reflexivity.
Defined.

(** [Insert_member] is the insertion in a bounded set: a member already
    there, or one too many, changes nothing and returns 0; a new one is
    appended and returns 1. *)
Theorem Insert_member_set (m : members_info) (id : Z) :
  members_ok m -> NoDup (members_list m) ->
  let '(m', ret) := Insert_member m id in
  members_ok m' /\ NoDup (members_list m') /\
  (ret = 1 /\ (id ∉ members_list m) /\ members_list m' = members_list m ++ [id] \/
   ret = 0 /\ m' = m /\ (id ∈ members_list m \/ num_members m = MAX_PROCS_RING)).
Proof.
  intros Hm Hd. pose proof Hm as [Hl Hn]. unfold Insert_member.
  destruct (existsb _ _) eqn:He.
  - apply existsb_exists in He as (x & Hx & ->%Z.eqb_eq). split_and!; try done.
    right. split_and!; try done. left. by apply list_elem_of_In.
  - assert (Hni : id ∉ members_list m).
    { intros Hin%list_elem_of_In. apply not_true_iff_false in He. apply He, existsb_exists.
      exists id. by rewrite Z.eqb_refl. }
    destruct (Z.eqb_spec (num_members m) MAX_PROCS_RING) as [Hf|Hf].
    { split_and!; try done. right. split_and!; try done. by right. }
    assert (Hnew : members_list (set_num_members (num_members m + 1) (set_member (num_members m) id m))
                   = members_list m ++ [id]).
    { unfold members_list. cbn [num_members members set_num_members].
      apply members_list_snoc; [done|lia]. }
    rewrite Hnew. split_and!.
    + split; cbn; [by rewrite aset_length|lia].
    + apply NoDup_app. split_and!; [done| |apply NoDup_singleton].
      intros x Hx ->%list_elem_of_singleton. done.
    + by left.
Qed.

Lemma Insert_member_set_witness :
  let m := mkMembersInfo 2 0 ([21; 12] ++ replicate 126 0) in
  members_list (Insert_member m 11).1 = [21; 12; 11] /\ NoDup (members_list (Insert_member m 11).1).
Proof.
  intros m. split; [vm_compute; reflexivity|].
  assert (Hm : members_ok m) by (split; [vm_compute; reflexivity|vm_compute; split; discriminate]).
  assert (Hd : NoDup (members_list m)) by (apply (bool_decide_unpack _); vm_compute; exact I).
  exact (proj1 (proj2 (Insert_member_set m 11 Hm Hd))).
Defined.

(* --------------------------------------------------------------------- *)
(** ** Representatives *)

Definition rep_pid (x : rep_info) : Z := u32 (rep_proc_id x).
(** A representative names a process of the configuration and its segment. *)
Definition rep_valid (cfg : configuration) (x : rep_info) : Prop :=
  (exists p, Conf_proc_by_id cfg (rep_proc_id x) = Some p /\ rep_seg_index x = p_seg_index p) /\
  (rep_type x = POTENTIAL_REP \/ rep_type x = SEG_REP \/ rep_type x = RING_REP).
(** Two representatives are different processes, and a potential one stands
    only in a segment without any other. *)
Definition rep_apart (x y : rep_info) : Prop :=
  rep_pid x <> rep_pid y /\
  (rep_seg_index x = rep_seg_index y -> rep_type x <> POTENTIAL_REP /\ rep_type y <> POTENTIAL_REP).
Definition reps_wf (cfg : configuration) (l : list rep_info) : Prop :=
  Forall (rep_valid cfg) l /\
  (forall i j x y, l !! i = Some x -> l !! j = Some y -> i <> j -> rep_apart x y).
Definition reps_ok (cfg : configuration) (r : reps_info) : Prop :=
  Z.of_nat (length (reps r)) = MAX_REPS /\ 0 <= num_reps r <= MAX_REPS /\ reps_wf cfg (reps_list r).

Section reps.
Context (cfg : configuration).

Lemma Conf_proc_by_id_pid id p : Conf_proc_by_id cfg id = Some p -> p_id p = u32 id.
Proof.
  unfold Conf_proc_by_id, Conf_proc_by_id_in_conf, Conf_proc_ref_by_id_in_conf. cbn.
  pose proof (first_index_found (fun q => p_id q =? u32 id) (conf_allprocs cfg) 0) as Hs. revert Hs.
  generalize (first_index (fun q => p_id q =? u32 id) (conf_allprocs cfg) 0) as k. intros k.
  destruct (Z.leb_spec 0 k) as [Hk|]; [|done]. intros [Hn|(_ & x & Hx & He%Z.eqb_eq)] [= <-]; [lia|].
  unfold aget. destruct (Z.ltb_spec k 0); [lia|]. rewrite Z.sub_0_r in Hx. by rewrite Hx.
Qed.

Lemma Conf_proc_by_id_u32 a b : u32 a = u32 b -> Conf_proc_by_id cfg a = Conf_proc_by_id cfg b.
Proof. unfold Conf_proc_by_id. by intros ->. Qed.

Lemma Conf_proc_by_own_id id p :
  Conf_proc_by_id cfg id = Some p -> Conf_proc_by_id cfg (s32 (p_id p)) = Some p.
Proof.
  intros Hp. rewrite <- Hp. apply Conf_proc_by_id_u32.
  rewrite u32_s32, (Conf_proc_by_id_pid _ _ Hp). unfold u32. by rewrite Z.mod_mod.
Qed.

Lemma rep_apart_sym x y : rep_apart x y -> rep_apart y x.
Proof. intros [H1 H2]. split; [done|]. intros H. symmetry in H. by destruct (H2 H). Qed.

(** Representatives of the same process stand in the same segment. *)
Lemma rep_same_seg x y : rep_valid cfg x -> rep_valid cfg y -> rep_pid x = rep_pid y ->
  rep_seg_index x = rep_seg_index y.
Proof.
  intros [(p & Hp & ->) _] [(q & Hq & ->) _] Hid.
  rewrite (Conf_proc_by_id_u32 _ _ Hid) in Hp. congruence.
Qed.

Lemma rep_search_some f l i0 i y r :
  rep_search f l i0 = Some (i, y, r) ->
  i0 <= i /\ exists x, l !! Z.to_nat (i - i0) = Some x /\ f x = Some (y, r).
Proof.
  revert i0. induction l as [|x l IH]; intros i0; cbn [rep_search]; [done|].
  destruct (f x) as [[y' r']|] eqn:Hf.
  - intros [= -> -> ->]. split; [lia|]. exists x. by rewrite Z.sub_diag.
  - intros (Hle & z & Hz & Hfz)%IH. split; [lia|]. exists z. split; [|done].
    by replace (Z.to_nat (i - i0)) with (S (Z.to_nat (i - (i0 + 1)))) by lia.
Qed.

Lemma rep_search_none f l i0 : rep_search f l i0 = None -> Forall (fun x => f x = None) l.
Proof.
  revert i0. induction l as [|x l IH]; intros i0; cbn [rep_search]; [done|].
  destruct (f x) as [[y' r']|] eqn:Hf; [done|]. intros H%IH. by constructor.
Qed.

Lemma reps_wf_snoc l x :
  reps_wf cfg l -> rep_valid cfg x -> Forall (rep_apart x) l -> reps_wf cfg (l ++ [x]).
Proof.
  intros [Hv Hd] Hx Hf. split; [by apply Forall_app; split; [|constructor]|].
  rewrite Forall_forall in Hf. intros i j y z Hy Hz Hij.
  rewrite lookup_snoc_Some in Hy, Hz.
  destruct Hy as [[_ Hy]|[-> <-]], Hz as [[_ Hz]|[-> <-]]; try done.
  - by eapply Hd.
  - apply rep_apart_sym, Hf. by eapply list_elem_of_lookup_2.
  - apply Hf. by eapply list_elem_of_lookup_2.
Qed.

Lemma reps_wf_update l i x y :
  reps_wf cfg l -> l !! i = Some x -> rep_valid cfg y ->
  (forall j z, l !! j = Some z -> j <> i -> rep_apart y z) -> reps_wf cfg (<[i:=y]> l).
Proof.
  intros [Hv Hd] Hi Hy Hf. split; [by apply Forall_insert|].
  intros j k a b Hj Hk Hjk. rewrite list_lookup_insert_Some in Hj, Hk.
  destruct Hj as [(<- & -> & _)|[Hij Hj]], Hk as [(<- & -> & _)|[Hik Hk]]; try done.
  - by eapply Hf.
  - apply rep_apart_sym. by eapply Hf.
  - by eapply Hd.
Qed.

(** What a search loop leaves in the place of an element. *)
Lemma Insert_rep_at_spec p rtype x y r :
  rtype = POTENTIAL_REP \/ rtype = SEG_REP \/ rtype = RING_REP ->
  Insert_rep_at p rtype x = Some (y, r) ->
  rep_seg_index x = p_seg_index p /\
  (r = 0 /\ y = x \/
   r = 1 /\ rep_seg_index y = rep_seg_index x /\ rep_type y = rtype /\ rtype <> POTENTIAL_REP /\
   (rep_type x = POTENTIAL_REP /\ rep_proc_id y = s32 (p_id p) \/
    rep_type x <> POTENTIAL_REP /\ rep_proc_id y = rep_proc_id x)).
Proof.
  unfold Insert_rep_at, POTENTIAL_REP, SEG_REP, RING_REP.
  intros [-> | [-> | ->]]; cbn [Z.eqb negb]; zcases; cbn; intros H1; simplify_eq; cbn; split_and?; auto;
    right; split_and!; auto; try lia; (left + right); split; auto; lia.
Qed.

Lemma Insert_rep_at_none p rtype x :
  rep_valid cfg x -> rtype = POTENTIAL_REP \/ rtype = SEG_REP \/ rtype = RING_REP ->
  Insert_rep_at p rtype x = None ->
  rep_seg_index x <> p_seg_index p \/
  (rep_type x <> POTENTIAL_REP /\ rtype <> POTENTIAL_REP /\ rep_pid x <> p_id p).
Proof.
  unfold Insert_rep_at, rep_pid, POTENTIAL_REP, SEG_REP, RING_REP. intros [_ Hx].
  unfold POTENTIAL_REP, SEG_REP, RING_REP in Hx.
  intros [-> | [-> | ->]]; cbn [Z.eqb negb]; zcases; cbn; intros H1; simplify_eq; auto; right; split_and!; lia.
Qed.
End reps.

Section insert_rep.
Context (cfg : configuration) (r : reps_info).

Lemma reps_list_lookup i x :
  reps_list r !! i = Some x -> reps r !! i = Some x /\ (i < Z.to_nat (num_reps r))%nat.
Proof. unfold reps_list. rewrite lookup_take_Some. tauto. Qed.

Lemma reps_list_set i y :
  (i < Z.to_nat (num_reps r))%nat -> reps_list (set_rep (Z.of_nat i) y r) = <[i := y]> (reps_list r).
Proof.
  intros Hi. unfold reps_list, set_rep, aset. cbn. destruct (Z.ltb_spec (Z.of_nat i) 0); [lia|].
  rewrite Nat2Z.id. by apply take_insert_lt.
Qed.

Lemma reps_list_append y :
  reps_ok cfg r -> num_reps r <> MAX_REPS ->
  reps_list (set_num_reps (num_reps r + 1) (set_rep (num_reps r) y r)) = reps_list r ++ [y].
Proof.
  intros (Hl & Hn & _) Hf. unfold reps_list, set_num_reps, set_rep, aset. cbn.
  destruct (Z.ltb_spec (num_reps r) 0); [lia|].
  replace (Z.to_nat (num_reps r + 1)) with (S (Z.to_nat (num_reps r))) by lia.
  rewrite (take_S_r _ _ y) by (rewrite list_lookup_insert_eq; [done|lia]). by rewrite take_insert_ge by lia.
Qed.

(** The element a search loop replaces keeps the set well formed. *)
Lemma reps_wf_replace new p i x y :
  reps_wf cfg (reps_list r) -> rep_valid cfg new -> Conf_proc_by_id cfg (rep_proc_id new) = Some p ->
  reps_list r !! i = Some x -> Insert_rep_at p (rep_type new) x = Some (y, 1) ->
  reps_wf cfg (<[i := y]> (reps_list r)) /\ rep_seg_index y = p_seg_index p.
Proof.
  intros Hwf Hnew Hp Hi Hat. pose proof Hwf as [Hv Hd].
  assert (Hx : rep_valid cfg x) by by eapply Forall_lookup_1 in Hv.
  apply Insert_rep_at_spec in Hat as [Hseg [[? _]|(_ & Hys & Hyt & Hnp & Hcase)]]; [done| |by apply Hnew].
  split; [|congruence].
  assert (Hy : rep_valid cfg y).
  { split; [|rewrite Hyt; apply Hnew]. destruct Hcase as [[_ ->]|[_ ->]].
    - exists p. split; [by eapply Conf_proc_by_own_id|congruence].
    - destruct Hx as [(q & Hq & Hqs) _]. exists q. split; [done|congruence]. }
  eapply reps_wf_update; [done..|]. intros j z Hz Hji.
  destruct (Hd i j x z Hi Hz) as [Hid Hpot]; [done|]. split.
  - destruct Hcase as [[Hxp _]|[_ Hyp]]; [|unfold rep_pid in *; by rewrite Hyp].
    intros Heq. destruct Hpot as [? _]; [|done]. rewrite <- Hys.
    eapply rep_same_seg; [done| |done]. by eapply Forall_lookup_1 in Hv.
  - rewrite Hys, Hyt. intros Hs. by destruct (Hpot Hs).
Qed.

Lemma rep_apart_new new p z :
  rep_valid cfg new -> Conf_proc_by_id cfg (rep_proc_id new) = Some p ->
  rep_valid cfg z -> Insert_rep_at p (rep_type new) z = None -> rep_apart new z.
Proof.
  intros Hnew Hp Hz Hat. pose proof (Conf_proc_by_id_pid _ _ _ Hp) as Hid.
  assert (Hs : rep_seg_index new = p_seg_index p).
  { destruct Hnew as [(q & Hq & ->) _]. congruence. }
  apply (Insert_rep_at_none cfg) in Hat; [|done|apply Hnew]. unfold rep_apart, rep_pid in *. split.
  - intros Heq. assert (rep_seg_index new = rep_seg_index z) by by eapply rep_same_seg.
    destruct Hat as [?|(_ & _ & ?)]; congruence.
  - intros Heq. destruct Hat as [?|(? & ? & _)]; [congruence|done].
Qed.
End insert_rep.

(** [Insert_rep] keeps the set of representatives well formed: distinct
    configured processes in their own segments, and a potential
    representative only where its segment has no other.  It always succeeds,
    and when it returns its segment is represented unless the set is full. *)
Theorem Insert_rep_keeps (cfg : configuration) (r : reps_info) (new : rep_info) :
  reps_ok cfg r -> rep_valid cfg new ->
  exists r' ret, Insert_rep cfg r new = inr (r', ret) /\ reps_ok cfg r' /\
    (ret = 0 /\ reps_list r' = reps_list r \/ ret = 1) /\
    (num_reps r = MAX_REPS \/ Exists (fun x => rep_seg_index x = rep_seg_index new) (reps_list r')).
Proof.
  intros Hr Hnew. pose proof Hr as (Hl & Hn & Hwf). pose proof Hnew as [(p & Hp & Hseg) Hty].
  unfold Insert_rep. rewrite Hp. cbn [or_err rbind].
  replace (negb _) with false by (symmetry; rewrite negb_false_iff, !orb_true_iff, !Z.eqb_eq; tauto).
  destruct (rep_search _ _ _) as [[[i y] ret]|] eqn:Hs.
  - apply rep_search_some in Hs as (Hi0 & x & Hx & Hat). rewrite Z.sub_0_r in Hx.
    apply reps_list_lookup in Hx as Hlt. destruct Hlt as [_ Hlt].
    exists (set_rep i y r), ret. rewrite <- (Z2Nat.id i) by done.
    pose proof (reps_list_set r _ y Hlt) as Hlist.
    destruct (Insert_rep_at_spec _ _ _ _ _ Hty Hat) as [Hxs [[-> ->]|[-> _]]].
    + rewrite list_insert_id in Hlist by done. split_and!; [done| |by left|].
      { split_and!; cbn; [by rewrite aset_length|lia..|by rewrite Hlist]. }
      right. rewrite Hlist, Exists_exists. exists x. split; [by eapply list_elem_of_lookup_2|congruence].
    + destruct (reps_wf_replace cfg r new p _ x y Hwf Hnew Hp Hx Hat) as [Hwf' Hys].
      split_and!; [done| |by right|].
      { split_and!; cbn; [by rewrite aset_length|lia..|by rewrite Hlist]. }
      right. rewrite Hlist, Exists_exists. exists y. split; [|congruence].
      eapply list_elem_of_lookup_2, list_lookup_insert_eq. by apply lookup_lt_Some in Hx.
  - apply rep_search_none in Hs. destruct (Z.eqb_spec (num_reps r) MAX_REPS) as [Hf|Hf].
    { exists r, 0. split_and!; auto. }
    exists (set_num_reps (num_reps r + 1) (set_rep (num_reps r) new r)), 1.
    pose proof (reps_list_append cfg r new Hr Hf) as Hlist. split_and!; [done| |by right|].
    + split_and!; cbn; [by rewrite aset_length|lia..|]. rewrite Hlist.
      apply reps_wf_snoc; [done|done|]. destruct Hwf as [Hv _].
      rewrite Forall_forall in Hs, Hv |- *. intros z Hz. eapply rep_apart_new; eauto.
    + right. rewrite Hlist, Exists_app. right. by constructor.
Qed.

Lemma Insert_rep_keeps_witness :
  let r := mkRepsInfo 1 0 (mkRep 11 POTENTIAL_REP 0 :: replicate 24 no_rep) in
  exists r', Insert_rep sample_conf r (mkRep 12 SEG_REP 0) = inr (r', 1) /\ reps_ok sample_conf r' /\
    reps_list r' = [mkRep 12 SEG_REP 0].
Proof.
  intros r.
  assert (Hv : forall id t s, In (id, t, s) [(11, POTENTIAL_REP, 0); (12, SEG_REP, 0)] ->
    rep_valid sample_conf (mkRep id t s)).
  { intros id t s [[= <- <- <-]|[[= <- <- <-]|[]]]; (split; [eexists; split; vm_compute; reflexivity|]);
      [left|right; left]; reflexivity. }
  assert (Hr : reps_ok sample_conf r).
  { split; [reflexivity|]. split; [vm_compute; split; discriminate|]. split.
    - constructor; [apply Hv; left; reflexivity|constructor].
    - intros [|i] [|j] x y; cbn; try discriminate; try (intros; congruence). }
  destruct (Insert_rep_keeps sample_conf r (mkRep 12 SEG_REP 0) Hr (Hv _ _ _ (or_intror (or_introl eq_refl))))
    as (r' & ret & Hi & Hok & _).
  pose (r2 := mkRepsInfo 1 0 (mkRep 12 SEG_REP 0 :: replicate 24 no_rep)).
  assert (He : Insert_rep sample_conf r (mkRep 12 SEG_REP 0) = inr (r2, 1)) by (vm_compute; reflexivity).
  exists r2. split; [exact He|]. split; [|reflexivity].
  rewrite He in Hi. injection Hi as Hr2 _. rewrite Hr2. exact Hok.
Defined.
