(* ===== verification/MembCore.v ===== *)
(** * The membership the protocol runs in

    The part of [daemon/membership.c] that [protocol.c] calls while it
    delivers: which ring is active, the transitional and the regular
    membership of an installation, the commit set, the shift to the OP state;
    and the protocol's delivery threshold and window accessors. *)

From Stdlib Require Import ZArith Lia.
From stdpp Require Import base strings numbers option gmap list.
From S2P Require Import Prelude Wire Config Events State Network FlowControl MembSets.

(* --------------------------------------------------------------------- *)
(** ** Getters *)

Definition Memb_active_ptr (w : world) : configuration :=
  if is_state (State (mem w)) EVS then Future_membership (mem w) else Membership (mem w).
Definition Memb_active_id (w : world) : membership_id :=
  if is_state (State (mem w)) EVS then Future_membership_id (mem w) else Membership_id (mem w).
Definition Memb_id (w : world) : membership_id := Membership_id (mem w).
Definition Memb_trans_id (w : world) : membership_id := Trans_memb_id (mem w).
Definition Memb_is_equal (m1 m2 : membership_id) : bool := memb_id_eqb m1 m2.
Definition Memb_token_alive (w : world) : bool := Token_alive (mem w).

(** [Conf_leader(c) == id], with the FATAL alarm of an empty configuration. *)
Definition leader_is (c : configuration) (id : Z) : M world bool :=
  let* l := or_fatal "Conf_leader: Empty configuration" (Conf_leader c) in
  ret (l =? id).

(** [Packets[e]]. *)
Definition pkt (w : world) (e : Z) : packet_info := default no_packet (Packets (win w) !! e).
Definition put_pkt (e : Z) (p : packet_info) : M world unit :=
  win_do (fun r => set_Packets (<[e := p]> (Packets r)) r).
Definition set_pi_exist (x : Z) (p : packet_info) : packet_info :=
  mkPacketInfo (pi_head p) (pi_body p) x (pi_proc_index p).
Definition set_pi_head (x : packet_header) (p : packet_info) : packet_info :=
  mkPacketInfo x (pi_body p) (pi_exist p) (pi_proc_index p).
Definition set_pi_body (x : buf) (p : packet_info) : packet_info :=
  mkPacketInfo (pi_head p) x (pi_exist p) (pi_proc_index p).
Definition set_pi_proc_index (x : Z) (p : packet_info) : packet_info :=
  mkPacketInfo (pi_head p) (pi_body p) (pi_exist p) x.
Definition set_exist (e x : Z) : M world unit :=
  let* w := get in put_pkt e (set_pi_exist x (pkt w e)).
(** [! Packets[i & PACKET_MASK].exist]. *)
Definition missing (w : world) (seq : Z) : bool := pi_exist (pkt w (slot seq)) =? 0.

(* --------------------------------------------------------------------- *)
(** ** Memberships *)

(** [n] members of [s] from the start, as the C loops read them. *)
Definition first_members (s : members_info) (n : Z) : list Z := take (Z.to_nat n) (members s).

(** The members of segment [seg] of the configuration whose id is in [ids],
    appended to the emptied segment [dst]. *)
Fixpoint seg_subset (site : string) (cfg : configuration) (ids : list Z) (procs : list proc)
    (dst : segment) : res segment :=
  match procs with
  | [] => inr dst
  | p :: procs =>
      if existsb (fun m => u32 m =? p_id p) ids then
        let? dst := or_err (Fatal site) (Conf_append_id_to_seg cfg dst (p_id p)) in
        seg_subset site cfg ids procs dst
      else seg_subset site cfg ids procs dst
  end.

Fixpoint segs_subset (site : string) (cfg old : configuration) (ids : list Z) (segs : list segment)
    (i : Z) : res (list segment) :=
  match segs with
  | [] => inr []
  | s :: segs =>
      let? s' := seg_subset site cfg ids (seg_procs s) (seg_clear (conf_segment old i)) in
      let? rest := segs_subset site cfg old ids segs (i + 1) in
      inr (s' :: rest)
  end.

(** The loops of [Memb_transitional] that fill [old] with the processes of
    the configuration that are in [ids]. *)
Definition memb_subset (site : string) (cfg old : configuration) (ids : list Z) : res configuration :=
  let? segs := segs_subset site cfg old ids (conf_segments cfg) 0 in
  inr (mkConfiguration (conf_hash_code old) (conf_allprocs old) segs).

Definition Memb_commit : M world unit :=
  let* w := get in mem_do (set_Commit_set (Future_commit_set (mem w))).

Definition Memb_transitional : M world unit :=
  let* w := get in
  let Cn := cf_Config (cf w) in
  let set := Commit_set (mem w) in
  mem_do (set_Transitional 1) ;;
  let* trans := lift (memb_subset "Memb_transitional: trans" Cn (Trans_membership (mem w))
                        (first_members set (num_pending set))) in
  mem_do (set_Trans_membership trans) ;;
  let* l := or_fatal "Conf_leader: Empty configuration" (Conf_leader trans) in
  mem_do (set_Trans_memb_id (mkMembId (s32 l) (F_trans_memb_time (mem w)))) ;;
  let* commit := lift (memb_subset "Memb_transitional: commit" Cn (Commit_membership (mem w))
                         (first_members set (num_members set))) in
  mem_do (set_Commit_membership commit).

Definition Shift_to_op : M world unit :=
  mem_do (set_State OP) ;;
  stat_do (set_st_state (memb_state_num OP)) ;;
  let* w := get in
  when (Prot_Need_Conf_Reload (prt w))
    (E_queue Prot_initiate_conf_reload_event 0 Zero_timeout).

(** The singleton [Commit_set] of a fresh membership. *)
Definition commit_self (w : world) : members_info :=
  set_member 0 (s32 (p_id (memb_My (mem w))))
    (set_num_members 1 (set_num_pending 1 (Commit_set (mem w)))).

Definition count_segments (c : configuration) : Z :=
  Z.of_nat (length (filter (fun s => seg_procs s <> []) (conf_segments c))).

Definition Memb_regular : M world unit :=
  let* w := get in
  mem_do (set_Transitional 0) ;;
  mem_do (set_Memb_Just_Installed true) ;;
  stat_do (fun s => set_st_membership_changes (s16 (st_membership_changes s + 1)) s) ;;
  let memb := Future_membership (mem w) in
  let id := Future_membership_id (mem w) in
  mem_do (set_Membership memb) ;;
  mem_do (set_Membership_id id) ;;
  mem_do (set_Reg_membership memb) ;;
  mem_do (set_Commit_set (commit_self w)) ;;
  stat_do (set_st_num_procs (s16 (Conf_num_procs memb))) ;;
  stat_do (set_st_num_segments (s16 (count_segments memb))) ;;
  stat_do (set_st_leader_id (mi_proc_id id)) ;;
  mem_do (set_Foreign_found false) ;;
  let* leader := leader_is memb (p_id (memb_My (mem w))) in
  when leader (E_queue Memb_lookup_new_members_event 0 (Lookup_timeout (tmo w))) ;;
  Shift_to_op.

(* --------------------------------------------------------------------- *)
(** ** Delivery threshold ([protocol.c]) *)

Definition legal_threshold (t : Z) : bool :=
  existsb (Z.eqb t)
    [UNRELIABLE_TYPE; RELIABLE_TYPE; FIFO_TYPE; AGREED_TYPE; SAFE_TYPE; BLOCK_REGULAR_DELIVERY].

Definition Prot_get_delivery_threshold (w : world) : Z := Prot_delivery_threshold (prt w).

Definition Prot_set_delivery_threshold (new_thresh : Z) : M world unit :=
  let* w := get in
  let old_thresh := Prot_delivery_threshold (prt w) in
  if negb (legal_threshold new_thresh)
  then fail (Fatal "Prot_set_delivery_threshold: illegal service")
  else
    prt_do (set_Prot_delivery_threshold new_thresh) ;;
    if new_thresh <? old_thresh then
      when (new_thresh <=? RELIABLE_TYPE)
        (E_queue Deliver_all_reliable_packets_event 0 Zero_timeout) ;;
      when (new_thresh <=? AGREED_TYPE)
        (E_queue Deliver_agreed_packets_event 0 Zero_timeout)
    else if old_thresh <? new_thresh then
      when (SAFE_TYPE <=? new_thresh) (E_dequeue Deliver_agreed_packets_event 0) ;;
      when (FIFO_TYPE <=? new_thresh) (E_dequeue Deliver_all_reliable_packets_event 0)
    else ret tt.

(** The next process of the ring sends its token to me. *)
Definition Prot_set_prev_proc (memb : configuration) : M world unit :=
  let* w := get in
  let* id := or_fatal "Conf_previous" (Conf_previous (cf_My (cf w)) memb) in
  prt_do (set_Prev_proc_id (s32 id)).
