(* ===== verification/Deliver.v ===== *)
(** * Delivery ([daemon/protocol.c])

    From the window of received packets to the session layer: splitting a
    packet into the message fragments it carries, reassembly in the up
    queues, the reliable, agreed and safe delivery orders, and the whole
    delivery sequence of a membership change ([Discard_packets] in EVS). *)

From Stdlib Require Import ZArith Lia.
From stdpp Require Import base strings numbers option gmap list.
From S2P Require Import Prelude Wire Config Events State Network FlowControl MembSets MembCore.

Section deliver.
Context `{Session}.

(** ** One packet *)

(** The loop of [Deliver_packet] over the fragments after the first: the
    messages they are.  [processed] bytes of the body are done. *)
Fixpoint split_fragments (fuel : nat) (body : buf) (data_len processed : Z) : res (list scatter) :=
  if processed <? data_len then
    if processed <? 0 then inl (Undefined "Deliver_packet: negative offset")
    else
      match fuel with
      | O => inl (Diverges "Deliver_packet")
      | S fuel =>
          let processed := processed + padding_for processed in
          let '(_, fragment_len) := get_frag body processed in
          let processed := processed + sizeof_fragment_header in
          if data_len <? processed + fragment_len then inr []
          else if fragment_len <? 0 then inl (Undefined "Deliver_packet: memcpy of a negative length")
          else
            let? rest := split_fragments fuel body data_len (processed + fragment_len) in
            inr ([mkElem (get_bytes body processed fragment_len) fragment_len] :: rest)
      end
  else inr [].

(** The up queue a packet goes to. *)
Definition up_index (p : packet_info) : Z :=
  if truth (Is_reliable (ph_type (pi_head p))) && (ph_fragment_index (pi_head p) =? -1)
  then MAX_PROCS_RING else pi_proc_index p.

Definition up_at (w : world) (i : Z) : up_queue := default no_up_queue (Up_queue (win w) !! i).
Definition put_up (i : Z) (u : up_queue) : M world unit :=
  win_do (fun r => set_Up_queue (<[i := u]> (Up_queue r)) r).

(** Chain the packet to its up queue ([Deliver_packet], the validity check
    and what follows); the result is the queue's message so far. *)
Definition chain_packet (pack_entry : Z) : M world scatter :=
  let* w := get in
  let p := pkt w pack_entry in
  let u := up_at w (up_index p) in
  let mess := if uq_exist u then uq_mess u else [] in
  let index := Z.abs (ph_fragment_index (pi_head p)) in
  if negb (Z.of_nat (length mess) + 1 =? index) then fail (Fatal "Deliver_packet: sequence error")
  else if MAX_SCATTER_ELEMENTS <? index then fail (Undefined "Deliver_packet: elements[index-1]")
  else
    let mess := mess ++ [mkElem (pi_body p) (ph_fragment_len (pi_head p))] in
    put_up (up_index p) (mkUpQueue true mess) ;;
    ret mess.

Definition Deliver_packet (pack_entry : Z) (to_copy : bool) : M world unit :=
  let* w := get in
  let p := pkt w pack_entry in
  let h := pi_head p in
  let* mess_queue := lift (split_fragments (Z.to_nat (ph_data_len h)) (pi_body p) (ph_data_len h)
                             (ph_fragment_len h)) in
  let* mess := chain_packet pack_entry in
  let body := if to_copy then get_bytes (pi_body p) 0 (ph_data_len h) else pi_body p in
  put_pkt pack_entry (set_pi_exist 2 (set_pi_body body p)) ;;
  stat_do (fun s => set_st_packet_delivered (st_packet_delivered s + 1) s) ;;
  when (ph_fragment_index h <? 0)
    (put_up (up_index p) (mkUpQueue false mess) ;;
     Sess_deliver_message mess) ;;
  mforeach Sess_deliver_message mess_queue.

(** ** Reliable and agreed delivery *)

Definition Deliver_reliable_packets (start_seq num_packets : Z) : M world unit :=
  let* w := get in
  if is_state (State (mem w)) EVS then ret tt
  else if RELIABLE_TYPE <? Prot_delivery_threshold (prt w) then ret tt
  else
    let end_seq := start_seq + num_packets - 1 in
    let start_seq :=
      if start_seq <=? Last_delivered (win w) then Last_delivered (win w) + 1 else start_seq in
    mforeach (fun i =>
        let* w := get in
        let p := pkt w (slot i) in
        when ((pi_exist p =? 1) && truth (Is_reliable (ph_type (pi_head p)))
              && (ph_fragment_index (pi_head p) =? -1))
          (Deliver_packet (slot i) true))
      (seqZ start_seq (end_seq - start_seq + 1)).

Definition Deliver_all_reliable_packets : M world unit :=
  let* w := get in Deliver_reliable_packets 1 (Highest_seq (win w)).

(** One iteration of [Deliver_agreed_packets]. *)
Definition deliver_agreed_step (i : Z) : M world ctl :=
  let* w := get in
  let p := pkt w (slot i) in
  if pi_exist p =? 1 then
    if truth (Is_safe (ph_type (pi_head p))) then ret Break
    else
      Deliver_packet (slot i) true ;;
      win_do (fun r => set_Last_delivered (Last_delivered r + 1) r) ;;
      ret Continue
  else if pi_exist p =? 2 then
    if AGREED_TYPE <=? Is_regular (ph_type (pi_head p))
    then fail (Fatal "Deliver_agreed_packets: already delivered but had wrong type")
    else
      win_do (fun r => set_Last_delivered (Last_delivered r + 1) r) ;;
      ret Continue
  else fail (Fatal "Deliver_agreed_packets: Error").

Definition Deliver_agreed_packets : M world unit :=
  let* w := get in
  if My_aru (win w) <=? Last_delivered (win w) then ret tt
  else if is_state (State (mem w)) EVS then ret tt
  else if AGREED_TYPE <? Prot_delivery_threshold (prt w) then ret tt
  else
    mfor "Deliver_agreed_packets" (Z.to_nat (My_aru (win w) - Last_delivered (win w)))
      (fun i w => i <=? My_aru (win w)) deliver_agreed_step (Last_delivered (win w) + 1) ;;
    ret tt.

(** ** Discarding *)

(** A packet that is due: delivered unless it was already, and dropped. *)
Definition deliver_and_drop (i : Z) : M world unit :=
  let* w := get in
  when (pi_exist (pkt w (slot i)) =? 1) (Deliver_packet (slot i) false) ;;
  set_exist (slot i) 0.

(** In EVS, before the transitional signal: up to the first hole or the
    first SAFE message. *)
Definition discard_before_step (i : Z) : M world ctl :=
  let* w := get in
  let p := pkt w (slot i) in
  if pi_exist p =? 0 then fail (Fatal "Discard_packets: (EVS before transitional) not exist")
  else if pi_exist p =? 3 then ret Break
  else if truth (Is_safe (ph_type (pi_head p))) then ret Break
  else
    deliver_and_drop i ;;
    win_do (set_Last_discarded i) ;;
    ret Continue.

Definition discard_before_transitional : M world unit :=
  let* w := get in
  mfor "Discard_packets" (Z.to_nat (Highest_seq (win w) - Last_discarded (win w)))
    (fun i w => i <=? Highest_seq (win w)) discard_before_step (Last_discarded (win w) + 1) ;;
  ret tt.

(** In EVS, after it: everything, but from the first hole on only the
    packets of the processes that commit with me. *)
Fixpoint discard_after (l : list Z) (found_hole : bool) : M world unit :=
  match l with
  | [] => ret tt
  | i :: l =>
      let* w := get in
      let p := pkt w (slot i) in
      if pi_exist p =? 0 then fail (Fatal "Discard_packets: (EVS after transitional) not exist")
      else if pi_exist p =? 3 then set_exist (slot i) 0 ;; discard_after l true
      else
        (if negb found_hole
            || negb (Conf_id_in_conf (Commit_membership (mem w)) (u32 (ph_proc_id (pi_head p))) =? -1)
         then deliver_and_drop i
         else set_exist (slot i) 0) ;;
        discard_after l found_hole
  end.

Definition discard_after_transitional : M world unit :=
  let* w := get in
  discard_after (seqZ (Last_discarded (win w) + 1) (Highest_seq (win w) - Last_discarded (win w))) false.

Definition window_empty (w : world) : bool :=
  forallb (fun i => pi_exist (pkt w i) =? 0) (seqZ 0 MAX_PACKETS_IN_STRUCT).

(** The unfinished messages of the old ring are dropped; mine are sent
    again from their first fragment. *)
Definition discard_queues : M world unit :=
  prt_do (fun r =>
    let q := aget (mkDownQueue 0 0 []) (Protocol_down_queue r) (Down_queue_ptr r) in
    if 0 <? dq_num_mess q
    then set_Protocol_down_queue
           (aset (Protocol_down_queue r) (Down_queue_ptr r)
              (mkDownQueue (dq_num_mess q) 0 (dq_links q))) r
    else r) ;;
  mforeach (fun i =>
      let* w := get in
      when (uq_exist (up_at w i)) (put_up i (mkUpQueue false (uq_mess (up_at w i)))))
    (seqZ 0 MAX_PROCS_RING).

(** The regular membership, and the end of a configuration reload. *)
Definition discard_install : M world unit :=
  Memb_regular ;;
  Log_membership ;;
  let* w := get in
  Sess_deliver_reg_memb (Reg_membership (mem w)) (Memb_id w) ;;
  let* w := get in
  when (cf_Conf_Reload_Singleton_State (cf w))
    ((if negb (st_gstate (stat w) =? 1) || negb (Conf_num_procs (Reg_membership (mem w)) =? 1)
      then fail (Fatal "Discard_packets: Failed to reload configuration") else ret tt) ;;
     Net_clear_partition ;;
     E_queue Memb_lookup_new_members_event 0 Zero_timeout ;;
     in_cf Conf_reload_singleton_state_end).

(** The variables of the next membership. *)
Definition reset_window : M world unit :=
  win_do (set_Highest_seq 0) ;;
  win_do (set_Highest_fifo_seq 0) ;;
  win_do (set_My_aru 0) ;;
  win_do (set_Aru 0) ;;
  win_do (set_Last_discarded 0) ;;
  win_do (set_Last_delivered 0) ;;
  stat_do (set_st_my_aru 0) ;;
  tok_do (set_Token_counter 0).

Definition discard_evs : M world unit :=
  discard_before_transitional ;;
  Memb_transitional ;;
  let* w := get in
  Sess_deliver_trans_memb (Trans_membership (mem w)) (Memb_trans_id w) ;;
  discard_after_transitional ;;
  let* w := get in
  (if window_empty w then ret tt
   else fail (Fatal "Discard_packets: Just delivered all packets, but some still exist")) ;;
  discard_queues ;;
  discard_install ;;
  reset_window.

(** Outside EVS: everything every process has received is stable. *)
Definition discard_stable_step (i : Z) : M world unit :=
  let* w := get in
  if pi_exist (pkt w (slot i)) =? 0 then fail (Fatal "Discard_packets: (NOT EVS) not exist")
  else deliver_and_drop i.

Definition discard_stable : M world unit :=
  let* w := get in
  mforeach discard_stable_step
    (seqZ (Last_discarded (win w) + 1) (Aru (win w) - Last_discarded (win w))) ;;
  win_do (set_Last_discarded (Aru (win w))) ;;
  win_do (fun r =>
    if Last_delivered r <? Last_discarded r then set_Last_delivered (Last_discarded r) r else r).

Definition Discard_packets : M world unit :=
  let* w := get in
  if Aru (win w) <=? Last_discarded (win w) then ret tt
  else if is_state (State (mem w)) EVS then
    if negb (Aru (win w) =? Last_seq (win w)) then ret tt else discard_evs
  else discard_stable.
End deliver.
