(* ===== verification/Delivery.v ===== *)
(** * What delivery promises

    Reassembly as a function of the packets alone ([deliver_all]), and the
    theorems that the delivery loops hand up exactly the messages it gives,
    in the order of the sequence numbers.  The session layer is only known
    by its law: its upcalls neither fail nor touch the window, the
    membership or the configuration, and hand nothing up themselves. *)

From Stdlib Require Import ZArith Lia.
From stdpp Require Import base strings numbers option gmap list sorting.
From S2P Require Import Prelude Wire Config Events State Sample Network MembSets MembCore Deliver.

(* --------------------------------------------------------------------- *)
(** ** What the session layer sees *)

Definition visible (x : output) : bool :=
  match x with
  | Out_deliver_message _ | Out_trans_memb _ _ | Out_reg_memb _ _ => true
  | _ => false
  end.
(** The upcalls so far, oldest first. *)
Definition trace (w : world) : list output := filter (fun x => visible x = true) (io_out (io w)).

(** What an upcall leaves alone. *)
Definition upcall_rel (w w' : world) : Prop :=
  win w' = win w /\ mem w' = mem w /\ cf w' = cf w /\ trace w' = trace w.

#[export] Instance upcall_rel_preorder : PreOrder upcall_rel.
Proof.
  split; [by intros w|]. intros w1 w2 w3 (?&?&?&?) (?&?&?&?).
  unfold upcall_rel. split_and!; congruence.
Qed.

Class SessionFrame `{Session} : Prop := {
  sess_deliver_message_frame m : keeps upcall_rel never (sess_deliver_message m);
  sess_deliver_trans_memb_frame c id : keeps upcall_rel never (sess_deliver_trans_memb c id);
  sess_deliver_reg_memb_frame c id : keeps upcall_rel never (sess_deliver_reg_memb c id);
  log_membership_frame : keeps upcall_rel never log_membership
}.
#[export] Instance null_session_frame : SessionFrame.
Proof. split; intros; apply keeps_ret, _. Defined.

(* --------------------------------------------------------------------- *)
(** ** Reassembly *)

(** One packet against the up queues: the message its first fragment
    completes, if it is the last fragment of one, and the messages that
    follow in the same packet. *)
Definition deliver_one (up : gmap Z up_queue) (p : packet_info) : res (gmap Z up_queue * list scatter) :=
  let h := pi_head p in
  let? rest := split_fragments (Z.to_nat (ph_data_len h)) (pi_body p) (ph_data_len h) (ph_fragment_len h) in
  let u := default no_up_queue (up !! up_index p) in
  let mess := if uq_exist u then uq_mess u else [] in
  let index := Z.abs (ph_fragment_index h) in
  if negb (Z.of_nat (length mess) + 1 =? index) then inl (Fatal "Deliver_packet: sequence error")
  else if MAX_SCATTER_ELEMENTS <? index then inl (Undefined "Deliver_packet: elements[index-1]")
  else
    let mess := mess ++ [mkElem (pi_body p) (ph_fragment_len h)] in
    let last := ph_fragment_index h <? 0 in
    inr (<[up_index p := mkUpQueue (negb last) mess]> up, (if last then [mess] else []) ++ rest).

(** A sequence of packets, in order. *)
Fixpoint deliver_all (up : gmap Z up_queue) (ps : list packet_info) : res (gmap Z up_queue * list scatter) :=
  match ps with
  | [] => inr (up, [])
  | p :: ps =>
      let? '(up, ms) := deliver_one up p in
      let? '(up, ms') := deliver_all up ps in
      inr (up, ms ++ ms')
  end.

(** The state after a delivery step: the window [v], everything else an
    upcall leaves alone, and the messages [ms] handed up. *)
Definition handed_up (w w' : world) (v : win_state) (ms : list scatter) : Prop :=
  win w' = v /\ mem w' = mem w /\ cf w' = cf w /\ trace w' = trace w ++ (Out_deliver_message <$> ms).

Section deliver_packet.
Context `{SessionFrame}.

Lemma trace_emit x w :
  trace (on_io (fun i => set_io_out (io_out i ++ [x]) i) w) = trace w ++ (if visible x then [x] else []).
Proof. unfold trace. cbn. rewrite filter_app. f_equal. cbn. by destruct (visible x). Qed.

Lemma deliver_message_up m w :
  wp (Sess_deliver_message m) (fun _ w' => handed_up w w' (win w) [m]) never w.
Proof.
  unfold Sess_deliver_message, emit. apply wp_bind, wp_modify.
  eapply wp_mono; [apply sess_deliver_message_frame| |done]. intros _ w' (Hw & Hm & Hc & Ht).
  split_and!; [done..|]. by rewrite Ht, trace_emit.
Qed.

Lemma handed_up_trans w w' w'' v v' ms ms' :
  handed_up w w' v ms -> handed_up w' w'' v' ms' -> handed_up w w'' v' (ms ++ ms').
Proof.
  intros (? & Hm & Hc & Ht) (? & Hm' & Hc' & Ht'). split_and!; [done|congruence|congruence|].
  by rewrite Ht', Ht, fmap_app, app_assoc.
Qed.

Lemma deliver_messages_up ms w :
  wp (mforeach Sess_deliver_message ms) (fun _ w' => handed_up w w' (win w) ms) never w.
Proof.
  revert w. induction ms as [|m ms IH]; intros w; cbn [mforeach].
  - apply wp_ret. split_and!; [done..|]. by rewrite app_nil_r.
  - apply wp_bind. eapply wp_mono; [apply deliver_message_up| |done]. intros ? w1 H1.
    eapply wp_mono; [apply IH| |done]. intros ? w2 H2. destruct H1 as (Hw1 & H1). rewrite Hw1 in H2.
    by apply (handed_up_trans w w1 w2 (win w) (win w) [m] ms).
Qed.

(** The window after the packet of entry [e] is delivered. *)
Definition delivered_win (e : Z) (b : bool) (up : gmap Z up_queue) (w : world) : win_state :=
  let p := pkt w e in
  let body := if b then get_bytes (pi_body p) 0 (ph_data_len (pi_head p)) else pi_body p in
  set_Up_queue up (set_Packets (<[e := set_pi_exist 2 (set_pi_body body p)]> (Packets (win w))) (win w)).

Lemma Deliver_packet_up e b up ms w :
  deliver_one (Up_queue (win w)) (pkt w e) = inr (up, ms) ->
  wp (Deliver_packet e b) (fun _ w' => handed_up w w' (delivered_win e b up w) ms) never w.
Proof.
  unfold deliver_one, Deliver_packet. set (p := pkt w e). set (h := pi_head p).
  destruct (split_fragments _ _ _ _) as [?|rest] eqn:Hs; [done|]. cbn [rbind]. cbv zeta.
  set (u := default no_up_queue _). set (mess := if uq_exist u then uq_mess u else []).
  destruct (negb _) eqn:Hi; [done|]. destruct (MAX_SCATTER_ELEMENTS <? _) eqn:Hx; [done|].
  intros [= <- <-].
  apply wp_bind, wp_get. cbv zeta. fold p. fold h. apply wp_bind. unfold lift at 1, wp at 1. rewrite Hs.
  apply wp_bind. unfold chain_packet. apply wp_bind, wp_get. cbv zeta. fold p. fold h.
  unfold up_at. fold u. fold mess. rewrite Hi, Hx.
  apply wp_bind, wp_modify, wp_ret.
  apply wp_bind, wp_modify. apply wp_bind, wp_modify. apply wp_bind.
  destruct (ph_fragment_index h <? 0); cbn [when negb app].
  - apply wp_bind, wp_modify.
    match goal with |- wp _ _ _ ?s => set (w1 := s) end.
    eapply wp_mono; [apply deliver_message_up| |done]. intros ? w2 H1.
    eapply wp_mono; [apply deliver_messages_up| |done]. intros ? w3 H2.
    pose proof H1 as (Hw1 & Hm1 & Hc1 & Ht1). destruct H2 as (Hw2 & Hm2 & Hc2 & Ht2).
    split_and!.
    + rewrite Hw2, Hw1. unfold w1, delivered_win. cbn. fold p. rewrite insert_insert. case_decide; [done|done].
    + by rewrite Hm2, Hm1.
    + by rewrite Hc2, Hc1.
    + rewrite Ht2, Ht1, <- app_assoc. done.
  - apply wp_ret. match goal with |- wp _ _ _ ?s => set (w1 := s) end.
    eapply wp_mono; [apply deliver_messages_up| |done]. intros _ w3 (Hw & Hm & Hc & Ht). done.
Qed.
End deliver_packet.

(* --------------------------------------------------------------------- *)
(** ** Sequences of packets *)

(** The elements of [l] before the first that satisfies [P]. *)
Fixpoint until {A} (P : A -> bool) (l : list A) : list A :=
  match l with
  | [] => []
  | x :: l => if P x then [] else x :: until P l
  end.

Definition at_seq (pk : gmap Z packet_info) (i : Z) : packet_info := default no_packet (pk !! slot i).
Definition unsafe_yet (pk : gmap Z packet_info) (i : Z) : bool :=
  (pi_exist (at_seq pk i) =? 1) && truth (Is_safe (ph_type (pi_head (at_seq pk i)))).
(** The packets of [l] that are received and not yet delivered. *)
Definition fresh (pk : gmap Z packet_info) (l : list Z) : list packet_info :=
  at_seq pk <$> filter (fun i => pi_exist (at_seq pk i) = 1) l.

(** The packets of [l] are delivered, the other entries are as they were. *)
Definition marked (pk pk' : gmap Z packet_info) (l : list Z) : Prop :=
  Forall (fun i => pi_exist (at_seq pk' i) = 2 /\ pi_head (at_seq pk' i) = pi_head (at_seq pk i)) l /\
  (forall e, Forall (fun i => slot i <> e) l -> pk' !! e = pk !! e).

Section sequences.
Lemma slot_mod i : slot i = i mod MAX_PACKETS_IN_STRUCT.
Proof. unfold slot. change PACKET_MASK with (Z.ones 13). by rewrite Z.land_ones. Qed.

(** Within the size of the window a slot belongs to one sequence number. *)
Lemma slot_inj i j : Z.abs (i - j) < MAX_PACKETS_IN_STRUCT -> slot i = slot j -> i = j.
Proof.
  rewrite !slot_mod. unfold MAX_PACKETS_IN_STRUCT. intros Hd He.
  pose proof (Z.div_mod i 8192). pose proof (Z.div_mod j 8192). lia.
Qed.

Lemma until_sub {A} (P : A -> bool) l x : x ∈ until P l -> x ∈ l.
Proof.
  induction l as [|y l IH]; cbn; [done|]. destruct (P y); [by intros ?%elem_of_nil|].
  intros [->|Hx]%elem_of_cons; [by left|right; by apply IH].
Qed.

(** [pk] and [pk'] agree on the packets of [l]. *)
Definition same_on (pk pk' : gmap Z packet_info) (l : list Z) : Prop :=
  Forall (fun i => at_seq pk' i = at_seq pk i) l.

Lemma until_same pk pk' l : same_on pk pk' l -> until (unsafe_yet pk') l = until (unsafe_yet pk) l.
Proof.
  induction 1 as [|i l Hi Hl IH]; [done|]. cbn. unfold unsafe_yet at 1 3. by rewrite Hi, IH.
Qed.

Lemma fresh_cons pk i l :
  fresh pk (i :: l) = (if decide (pi_exist (at_seq pk i) = 1) then [at_seq pk i] else []) ++ fresh pk l.
Proof. unfold fresh. rewrite filter_cons. by destruct (decide _). Qed.

Lemma fresh_cons_app pk i l : fresh pk (i :: l) = fresh pk [i] ++ fresh pk l.
Proof. by rewrite !fresh_cons, app_nil_r. Qed.

Lemma fresh_same pk pk' l : same_on pk pk' l -> fresh pk' l = fresh pk l.
Proof.
  induction 1 as [|i l Hi Hl IH]; [done|]. by rewrite !fresh_cons, Hi, IH.
Qed.

Lemma same_on_sub pk pk' l l' : (forall i, i ∈ l' -> i ∈ l) -> same_on pk pk' l -> same_on pk pk' l'.
Proof. unfold same_on. rewrite !Forall_forall. auto. Qed.

(** Writing one slot leaves the later sequence numbers alone. *)
Lemma same_on_insert pk i p n :
  n < MAX_PACKETS_IN_STRUCT -> same_on pk (<[slot i := p]> pk) (seqZ (i + 1) n).
Proof.
  intros Hn. apply Forall_forall. intros j Hj%elem_of_seqZ. unfold at_seq.
  rewrite lookup_insert_ne; [done|]. intros He%slot_inj; [lia|].
  unfold MAX_PACKETS_IN_STRUCT in *. lia.
Qed.

Lemma seqZ_S i n : 0 < n -> seqZ i n = i :: seqZ (i + 1) (n - 1).
Proof. intros Hn. rewrite seqZ_cons by done. by rewrite <- Z.add_1_r, <- Z.sub_1_r. Qed.

Lemma marked_cons pk pk1 pk' i l :
  pi_exist (at_seq pk1 i) = 2 -> pi_head (at_seq pk1 i) = pi_head (at_seq pk i) ->
  (forall e, e <> slot i -> pk1 !! e = pk !! e) -> Forall (fun j => slot j <> slot i) l ->
  marked pk1 pk' l -> marked pk pk' (i :: l).
Proof.
  intros Hx Hh Hne Hsl [Hm Hrest]. split.
  - assert (Hi : at_seq pk' i = at_seq pk1 i) by (unfold at_seq; by rewrite Hrest).
    constructor; [by rewrite Hi|]. rewrite !Forall_forall in *. intros j Hj.
    destruct (Hm j Hj) as [-> ->]. split; [done|]. unfold at_seq. rewrite Hne; [done|]. by apply Hsl.
  - intros e He. inversion He as [|? ? Hei Hel]; subst. rewrite Hrest by done. apply Hne. congruence.
Qed.
End sequences.

(* --------------------------------------------------------------------- *)
(** ** Agreed delivery *)

(** A packet the agreed loop steps over: received, or delivered early as a
    reliable one. *)
Definition agreed_steppable (pk : gmap Z packet_info) (i : Z) : Prop :=
  pi_exist (at_seq pk i) = 1 \/
  (pi_exist (at_seq pk i) = 2 /\ Is_regular (ph_type (pi_head (at_seq pk i))) < AGREED_TYPE).

Section agreed.
Context `{SessionFrame}.

Definition agreed_win (pk : gmap Z packet_info) (up : gmap Z up_queue) (n : nat) (r : win_state) : win_state :=
  set_Last_delivered (Last_delivered r + Z.of_nat n) (set_Up_queue up (set_Packets pk r)).

Lemma agreed_none w pk : pk = Packets (win w) ->
  handed_up w w (agreed_win pk (Up_queue (win w)) 0 (win w)) [] /\ marked pk pk [].
Proof.
  intros ->. split; [|by split; [constructor|]]. split_and!; [|done|done|by rewrite app_nil_r].
  unfold agreed_win. destruct (win w). cbn. by rewrite Z.add_0_r.
Qed.

Lemma agreed_win_add pk pk' up up' n r :
  agreed_win pk' up' n (agreed_win pk up 1 r) = agreed_win pk' up' (S n) r.
Proof.
  unfold agreed_win. cbn -[Z.of_nat Z.add].
  replace (Last_delivered r + Z.of_nat 1 + Z.of_nat n) with (Last_delivered r + Z.of_nat (S n)) by lia. done.
Qed.

Lemma agreed_win_shift pk up n r :
  agreed_win pk up n (set_Last_delivered (Last_delivered r + 1) r) = agreed_win pk up (S n) r.
Proof.
  unfold agreed_win. cbn -[Z.of_nat Z.add].
  replace (Last_delivered r + 1 + Z.of_nat n) with (Last_delivered r + Z.of_nat (S n)) by lia. done.
Qed.

Lemma agreed_loop n : forall i w up ms,
  let l := seqZ i (Z.of_nat n) in
  let pk := Packets (win w) in
  let p := until (unsafe_yet pk) l in
  My_aru (win w) = i + Z.of_nat n - 1 -> Z.of_nat n <= MAX_PACKETS_IN_STRUCT ->
  Forall (agreed_steppable pk) p ->
  deliver_all (Up_queue (win w)) (fresh pk p) = inr (up, ms) ->
  wp (mfor "Deliver_agreed_packets" n (fun i w => i <=? My_aru (win w)) deliver_agreed_step i)
     (fun _ w' => exists pk', handed_up w w' (agreed_win pk' up (length p) (win w)) ms /\ marked pk pk' p)
     never w.
Proof.
  induction n as [|n IH]; intros i w up ms l pk p Haru Hn Hst Hall.
  { cbn in Hall. injection Hall as <- <-. apply wp_mfor_end; [by apply Z.leb_gt; lia|].
    exists pk. by apply agreed_none. }
  apply wp_mfor_next; [by apply Z.leb_le; lia|]. apply wp_bind.
  subst l. subst p. rewrite (seqZ_S i) in * by lia. replace (Z.of_nat (S n) - 1) with (Z.of_nat n) in * by lia.
  set (l := seqZ (i + 1) (Z.of_nat n)) in *. cbn [until] in *.
  unfold deliver_agreed_step. apply wp_bind, wp_get.
  change (pkt w (slot i)) with (at_seq pk i). cbv zeta.
  destruct (unsafe_yet pk i) eqn:Hsafe.
  { cbn in Hall. injection Hall as <- <-. apply andb_true_iff in Hsafe as [-> ->].
    apply wp_ret, wp_ret. exists pk. by apply agreed_none. }
  inversion Hst as [|? ? Hi Hst']; subst. rewrite fresh_cons in Hall.
  assert (Hsl : Forall (fun j => slot j <> slot i) (until (unsafe_yet pk) l)).
  { apply Forall_forall. intros j Hj%until_sub%elem_of_seqZ Hs%slot_inj; lia. }
  destruct Hi as [He|[He Hreg]]; rewrite He in Hall |- *; cbn [Z.eqb Pos.eqb] in *.
  - rewrite decide_True in Hall by done. cbn [app deliver_all] in Hall.
    unfold unsafe_yet in Hsafe. rewrite He in Hsafe. cbn in Hsafe. rewrite Hsafe.
    destruct (deliver_one _ _) as [?|[up1 ms1]] eqn:H1; [done|]. cbn [rbind] in Hall.
    destruct (deliver_all up1 _) as [?|[up2 ms2]] eqn:H2; [done|]. injection Hall as <- <-.
    apply wp_bind. eapply wp_mono; [by apply Deliver_packet_up| |done]. intros [] w1 Hw1.
    apply wp_bind, wp_modify, wp_ret.
    set (w2 := on_win _ w1).
    set (pk1 := <[slot i := set_pi_exist 2 (set_pi_body (get_bytes (pi_body (pkt w (slot i))) 0
                 (ph_data_len (pi_head (pkt w (slot i))))) (pkt w (slot i)))]> pk).
    assert (Hv2 : win w2 = agreed_win pk1 up1 1 (win w)).
    { unfold w2. cbn. destruct Hw1 as (-> & _). done. }
    assert (Hsame : same_on pk pk1 l) by (apply same_on_insert; lia).
    assert (Hp1 : Packets (win w2) = pk1) by by rewrite Hv2.
    eapply wp_mono; [apply (IH (i + 1) w2 up2 ms2)| |done]; rewrite ?Hp1, ?(until_same pk pk1) by done.
    + rewrite Hv2. cbn. lia.
    + lia.
    + eapply Forall_impl_in; [exact Hst'|]. intros j Hj [Hx|Hx]; [left|right];
        rewrite (proj1 (Forall_forall _ _) Hsame) by (by apply until_sub in Hj); done.
    + rewrite (fresh_same pk pk1) by (eapply same_on_sub; [apply until_sub|done]). by rewrite Hv2.
    + intros _ w' (pk' & Hup & Hm). exists pk'. split.
      * rewrite Hv2, agreed_win_add in Hup.
        eapply (handed_up_trans w w2 w'); [|exact Hup]. destruct Hw1 as (? & ? & ? & ?). by split_and!.
      * eapply (marked_cons pk pk1 pk'); unfold pk1, at_seq; rewrite ?lookup_insert_eq; try done.
        intros e He'. by rewrite lookup_insert_ne.
  - rewrite decide_False in Hall by done. cbn [app] in Hall.
    destruct (Z.leb_spec AGREED_TYPE (Is_regular (ph_type (pi_head (at_seq pk i))))); [lia|].
    apply wp_bind, wp_modify, wp_ret. set (w2 := on_win _ w).
    eapply wp_mono; [apply (IH (i + 1) w2 up ms); try done; cbn; lia| |done].
    intros _ w' (pk' & Hup & Hm). exists pk'. split.
    + change (win w2) with (set_Last_delivered (Last_delivered (win w) + 1) (win w)) in Hup.
      destruct Hup as (Hv & Hup). split; [|exact Hup]. rewrite Hv.
      apply agreed_win_shift.
    + by eapply (marked_cons pk pk pk').
Qed.
End agreed.

(** C28: agreed delivery hands up exactly the messages of the packets above
    the last delivered one that were not delivered yet, in the order of their
    sequence numbers, up to the contiguous prefix the process has received or
    the first undelivered SAFE packet; it reassembles fragments across
    packets, marks what it stepped over as delivered, advances the counter by
    as much, and changes nothing else of the window. *)
Theorem agreed_delivery_order `{SessionFrame} (w : world) (up : gmap Z up_queue) (ms : list scatter) :
  let pk := Packets (win w) in
  let gap := My_aru (win w) - Last_delivered (win w) in
  let p := until (unsafe_yet pk) (seqZ (Last_delivered (win w) + 1) gap) in
  State (mem w) <> EVS -> Prot_delivery_threshold (prt w) <= AGREED_TYPE ->
  gap <= MAX_PACKETS_IN_STRUCT -> Forall (agreed_steppable pk) p ->
  deliver_all (Up_queue (win w)) (fresh pk p) = inr (up, ms) ->
  wp Deliver_agreed_packets
    (fun _ w' => exists pk', handed_up w w' (agreed_win pk' up (length p) (win w)) ms /\ marked pk pk' p)
    never w.
Proof.
  intros pk gap p Hst Hth Hgap Hsteps Hall. unfold Deliver_agreed_packets. apply wp_bind, wp_get.
  destruct (Z.leb_spec (My_aru (win w)) (Last_delivered (win w))) as [Hle|Hgt].
  { subst p. rewrite seqZ_nil in * by lia. cbn in Hall. injection Hall as <- <-. apply wp_ret.
    exists pk. cbn [until length]. by apply agreed_none. }
  unfold is_state. rewrite bool_decide_false by done.
  destruct (Z.ltb_spec AGREED_TYPE (Prot_delivery_threshold (prt w))); [lia|].
  apply wp_bind. fold gap.
  pose proof (agreed_loop (Z.to_nat gap) (Last_delivered (win w) + 1) w up ms) as Hloop. cbv zeta in Hloop.
  rewrite Z2Nat.id in Hloop by lia.
  eapply wp_mono; [apply Hloop; [lia|lia|done|done]| |done]. intros i w' Hw'. by apply wp_ret.
Qed.

(* --------------------------------------------------------------------- *)
(** ** Stable packets *)

(** The packets of [l] are gone, the other entries are as they were. *)
Definition dropped (pk pk' : gmap Z packet_info) (l : list Z) : Prop :=
  Forall (fun i => pi_exist (at_seq pk' i) = 0) l /\
  (forall e, Forall (fun i => slot i <> e) l -> pk' !! e = pk !! e).
Definition window_with (pk : gmap Z packet_info) (up : gmap Z up_queue) (r : win_state) : win_state :=
  set_Up_queue up (set_Packets pk r).

Section stable.
Context `{SessionFrame}.

Lemma window_with_id r : window_with (Packets r) (Up_queue r) r = r.
Proof. by destruct r. Qed.

Lemma dropped_cons pk pk1 pk' i l :
  pi_exist (at_seq pk1 i) = 0 -> (forall e, e <> slot i -> pk1 !! e = pk !! e) ->
  Forall (fun j => slot j <> slot i) l -> dropped pk1 pk' l -> dropped pk pk' (i :: l).
Proof.
  intros Hx Hne Hsl [Hm Hrest]. split.
  - constructor; [|done]. unfold at_seq in *. by rewrite Hrest.
  - intros e He. inversion He as [|? ? Hei Hel]; subst. rewrite Hrest by done. apply Hne. congruence.
Qed.

(** One packet that is due. *)
Lemma deliver_and_drop_up i up ms w :
  let pk := Packets (win w) in
  deliver_all (Up_queue (win w)) (fresh pk [i]) = inr (up, ms) ->
  wp (deliver_and_drop i)
    (fun _ w' => exists p, pi_exist p = 0 /\ handed_up w w' (window_with (<[slot i := p]> pk) up (win w)) ms)
    never w.
Proof.
  intros pk Hall. unfold deliver_and_drop. apply wp_bind, wp_get, wp_bind.
  change (pkt w (slot i)) with (at_seq pk i). rewrite fresh_cons in Hall.
  destruct (decide (pi_exist (at_seq pk i) = 1)) as [He|He].
  - rewrite He. cbn [Z.eqb Pos.eqb when]. cbn [app deliver_all fresh] in Hall.
    destruct (deliver_one _ _) as [?|[up1 ms1]] eqn:H1; [done|]. cbn in Hall. injection Hall as <- <-.
    rewrite app_nil_r.
    eapply wp_mono; [by apply Deliver_packet_up| |done]. intros [] w1 (Hw & Hm & Hc & Ht).
    unfold set_exist. apply wp_bind, wp_get, wp_modify.
    eexists. split; [|split_and!; [cbn; rewrite Hw; unfold delivered_win, window_with; cbn|done..]].
    2:{ rewrite insert_insert, decide_True by done. reflexivity. }
    done.
  - cbn in Hall. injection Hall as <- <-. rewrite (proj2 (Z.eqb_neq _ _) He). cbn [when].
    apply wp_ret. unfold set_exist. apply wp_bind, wp_get, wp_modify.
    eexists. split; [|split_and!; [cbn; unfold window_with; cbn; reflexivity|done|done|by rewrite app_nil_r]].
    done.
Qed.

Lemma deliver_all_app up ps ps' :
  deliver_all up (ps ++ ps') =
    (let? '(up, ms) := deliver_all up ps in let? '(up, ms') := deliver_all up ps' in inr (up, ms ++ ms')).
Proof.
  revert up. induction ps as [|p ps IH]; intros up; cbn.
  - by destruct (deliver_all up ps') as [|[]].
  - destruct (deliver_one up p) as [|[up1 ms1]]; [done|]. cbn. rewrite IH.
    destruct (deliver_all up1 ps) as [|[up2 ms2]]; [done|]. cbn.
    destruct (deliver_all up2 ps') as [|[up3 ms3]]; [done|]. cbn. by rewrite app_assoc.
Qed.

Lemma stable_loop n : forall i w up ms,
  let l := seqZ i (Z.of_nat n) in
  let pk := Packets (win w) in
  Z.of_nat n <= MAX_PACKETS_IN_STRUCT -> Forall (fun i => pi_exist (at_seq pk i) <> 0) l ->
  deliver_all (Up_queue (win w)) (fresh pk l) = inr (up, ms) ->
  wp (mforeach discard_stable_step l)
    (fun _ w' => exists pk', handed_up w w' (window_with pk' up (win w)) ms /\ dropped pk pk' l) never w.
Proof.
  induction n as [|n IH]; intros i w up ms l pk Hn Hex Hall.
  { cbn in Hall. injection Hall as <- <-. apply wp_ret. exists pk. split; [|by split; [constructor|]].
    split_and!; [exact (eq_sym (window_with_id _))|done|done|by rewrite app_nil_r]. }
  subst l. rewrite (seqZ_S i) in * by lia. replace (Z.of_nat (S n) - 1) with (Z.of_nat n) in * by lia.
  set (l := seqZ (i + 1) (Z.of_nat n)) in *. inversion Hex as [|? ? Hi Hex']; subst.
  rewrite fresh_cons_app, deliver_all_app in Hall.
  destruct (deliver_all _ (fresh pk [i])) as [?|[up1 ms1]] eqn:H1; [done|]. cbn [rbind] in Hall.
  destruct (deliver_all up1 (fresh pk l)) as [?|[up2 ms2]] eqn:H2; [done|]. injection Hall as <- <-.
  cbn [mforeach]. apply wp_bind. unfold discard_stable_step. apply wp_bind, wp_get.
  change (pkt w (slot i)) with (at_seq pk i). rewrite (proj2 (Z.eqb_neq _ _) Hi).
  eapply wp_mono; [by apply deliver_and_drop_up| |done]. intros [] w1 (p & Hp & Hup1).
  set (pk1 := <[slot i := p]> pk) in *. pose proof Hup1 as (Hw1 & _).
  assert (Hsame : same_on pk pk1 l) by (apply same_on_insert; lia).
  assert (Hp1 : Packets (win w1) = pk1) by by rewrite Hw1.
  eapply wp_mono; [apply (IH (i + 1) w1 up2 ms2)| |done]; rewrite ?Hp1; [lia| | |].
  - eapply Forall_impl_in; [exact Hex'|]. intros j Hj.
    by rewrite (proj1 (Forall_forall _ _) Hsame j Hj).
  - rewrite (fresh_same pk pk1) by done. by rewrite Hw1.
  - intros _ w' (pk' & Hup & Hd). exists pk'. split.
    + rewrite Hw1 in Hup. eapply (handed_up_trans w w1 w'); [exact Hup1|exact Hup].
    + eapply (dropped_cons pk pk1); [..|exact Hd].
      * unfold at_seq, pk1. by rewrite lookup_insert_eq.
      * intros e He. unfold pk1. by rewrite lookup_insert_ne.
      * apply Forall_forall. intros j Hj%elem_of_seqZ Hs%slot_inj; lia.
Qed.
End stable.

(** C35: outside a membership change, discarding hands up in order the
    messages of the packets every process has acknowledged and that were not
    delivered yet (the SAFE ones among them), empties exactly their entries of
    the window, and leaves the counters at the acknowledged sequence number,
    the delivered one never going back. *)
Theorem stable_discard_order `{SessionFrame} (w : world) (up : gmap Z up_queue) (ms : list scatter) :
  let pk := Packets (win w) in
  let n := Aru (win w) - Last_discarded (win w) in
  let l := seqZ (Last_discarded (win w) + 1) n in
  State (mem w) <> EVS -> 0 < n <= MAX_PACKETS_IN_STRUCT ->
  Forall (fun i => pi_exist (at_seq pk i) <> 0) l ->
  deliver_all (Up_queue (win w)) (fresh pk l) = inr (up, ms) ->
  wp Discard_packets
    (fun _ w' => exists pk', dropped pk pk' l /\
       handed_up w w' (set_Last_delivered (Z.max (Last_delivered (win w)) (Aru (win w)))
         (set_Last_discarded (Aru (win w)) (window_with pk' up (win w)))) ms)
    never w.
Proof.
  intros pk n l Hst Hn Hex Hall. unfold Discard_packets. apply wp_bind, wp_get.
  destruct (Z.leb_spec (Aru (win w)) (Last_discarded (win w))); [lia|].
  unfold is_state. rewrite bool_decide_false by done.
  unfold discard_stable. apply wp_bind, wp_get, wp_bind. fold n.
  pose proof (stable_loop (Z.to_nat n) (Last_discarded (win w) + 1) w up ms) as Hloop. cbv zeta in Hloop.
  rewrite Z2Nat.id in Hloop by lia.
  eapply wp_mono; [apply Hloop; [lia|done|done]| |done].
  intros [] w1 (pk' & (Hw & Hm & Hc & Ht) & Hd). apply wp_bind, wp_modify, wp_modify.
  exists pk'. split; [done|]. split_and!; [|done..]. cbn. rewrite Hw. cbn.
  unfold window_with. destruct (Z.ltb_spec (Last_delivered (win w)) (Aru (win w))).
  - by rewrite Z.max_r by lia.
  - by rewrite Z.max_l by lia.
Qed.

Lemma agreed_delivery_order_witness :
  wp Deliver_agreed_packets
    (fun _ w' => Last_delivered (win w') = 3 /\ trace w' = Out_deliver_message <$> take 2 sample_messages)
    never sample_received.
Proof.
  assert (Hp : until (unsafe_yet sample_packets) (seqZ 1 4) = [1; 2; 3]) by (vm_compute; reflexivity).
  assert (Hd : exists up, deliver_all ∅ (fresh sample_packets [1; 2; 3]) = inr (up, take 2 sample_messages))
    by (eexists; vm_compute; reflexivity).
  destruct Hd as [up Hd].
  pose proof (agreed_delivery_order sample_received up (take 2 sample_messages)) as Hthm.
  cbv zeta in Hthm.
  change (Packets (win sample_received)) with sample_packets in Hthm.
  change (Last_delivered (win sample_received) + 1) with 1 in Hthm.
  change (My_aru (win sample_received) - Last_delivered (win sample_received)) with 4 in Hthm.
  rewrite Hp in Hthm.
  eapply wp_mono; [apply Hthm; clear Hthm| |exact (fun e He => He)].
  - vm_compute. discriminate.
  - vm_compute. discriminate.
  - vm_compute. discriminate.
  - repeat constructor.
  - exact Hd.
  - intros _ w' (pk' & (Hw & _ & _ & Ht) & _). split; [rewrite Hw; reflexivity|rewrite Ht; reflexivity].
Defined.

Lemma stable_discard_order_witness :
  let w := on_win (set_Aru 4) sample_received in
  wp Discard_packets
    (fun _ w' => Last_discarded (win w') = 4 /\ trace w' = Out_deliver_message <$> sample_messages)
    never w.
Proof.
  intros w.
  assert (Hd : exists up, deliver_all ∅ (fresh sample_packets [1; 2; 3; 4]) = inr (up, sample_messages))
    by (eexists; vm_compute; reflexivity).
  destruct Hd as [up Hd].
  pose proof (stable_discard_order w up sample_messages) as Hthm. cbv zeta in Hthm.
  change (Packets (win w)) with sample_packets in Hthm.
  change (seqZ (Last_discarded (win w) + 1) (Aru (win w) - Last_discarded (win w))) with [1; 2; 3; 4] in Hthm.
  eapply wp_mono; [apply Hthm; clear Hthm| |exact (fun e He => He)].
  - vm_compute. discriminate.
  - vm_compute. split; [reflexivity|discriminate].
  - repeat constructor; vm_compute; discriminate.
  - exact Hd.
  - intros _ w' (pk' & _ & Hw & _ & _ & Ht). split; [rewrite Hw; reflexivity|rewrite Ht; reflexivity].
Defined.
