(* ===== verification/DeliveryEvs.v ===== *)
(** * Delivery across a membership change

    What [Discard_packets] hands up while a membership is being installed:
    the rest of the old regular configuration, the transitional signal, the
    rest of the transitional configuration, and the new regular
    configuration. *)

From Stdlib Require Import ZArith Lia.
From stdpp Require Import base strings numbers option gmap list sorting.
From S2P Require Import Prelude Wire Config Events State Sample Network MembSets MembCore Deliver Delivery.

(** Where the old regular configuration ends: the first hole or the first
    SAFE packet. *)
Definition regular_stop (pk : gmap Z packet_info) (i : Z) : bool :=
  (pi_exist (at_seq pk i) =? 3) || truth (Is_safe (ph_type (pi_head (at_seq pk i)))).

(** Does the sender of a packet commit with me? *)
Definition committed (commit : configuration) (p : packet_info) : bool :=
  negb (Conf_id_in_conf commit (u32 (ph_proc_id (pi_head p))) =? -1).

(** The packets of the transitional configuration: all of them up to the
    first hole, from there on those of the committed processes. *)
Fixpoint transitional_due (commit : configuration) (pk : gmap Z packet_info) (l : list Z) (hole : bool)
    : list Z :=
  match l with
  | [] => []
  | i :: l =>
      if pi_exist (at_seq pk i) =? 3 then transitional_due commit pk l true
      else if negb hole || committed commit (at_seq pk i)
      then i :: transitional_due commit pk l hole
      else transitional_due commit pk l hole
  end.

Section loops.
Context `{SessionFrame}.

Lemma transitional_due_same commit pk pk' l hole :
  same_on pk pk' l -> transitional_due commit pk' l hole = transitional_due commit pk l hole.
Proof. intros Hs. revert hole. induction Hs as [|i l Hi Hl IH]; intros hole; [done|]. cbn. by rewrite Hi, !IH. Qed.

Lemma transitional_due_sub commit pk l hole i : i ∈ transitional_due commit pk l hole -> i ∈ l.
Proof.
  revert hole. induction l as [|j l IH]; intros hole; cbn; [done|].
  destruct (_ =? 3); [intros Hi; right; by eapply IH|]. destruct (_ || _).
  - intros [->|Hi]%elem_of_cons; [by left|right; by eapply IH].
  - intros Hi. right. by eapply IH.
Qed.

Lemma until_stop_same pk pk' l : same_on pk pk' l -> until (regular_stop pk') l = until (regular_stop pk) l.
Proof. induction 1 as [|i l Hi Hl IH]; [done|]. cbn. unfold regular_stop at 1 3. by rewrite Hi, IH. Qed.

Lemma slots_ahead i n :
  n < MAX_PACKETS_IN_STRUCT -> Forall (fun j => slot j <> slot i) (seqZ (i + 1) n).
Proof.
  intros Hn. apply Forall_forall. intros j Hj%elem_of_seqZ Hs%slot_inj; [lia|].
  unfold MAX_PACKETS_IN_STRUCT in *. lia.
Qed.

Lemma nonzero_same pk pk' l :
  same_on pk pk' l -> Forall (fun i => pi_exist (at_seq pk i) <> 0) l ->
  Forall (fun i => pi_exist (at_seq pk' i) <> 0) l.
Proof.
  intros Hs Hex. eapply Forall_impl_in; [exact Hex|]. intros j Hj.
  by rewrite (proj1 (Forall_forall _ _) Hs j Hj).
Qed.

Definition discarded_win (pk : gmap Z packet_info) (up : gmap Z up_queue) (n : nat) (r : win_state) : win_state :=
  set_Last_discarded (Last_discarded r + Z.of_nat n) (window_with pk up r).

Lemma discarded_none w : handed_up w w (discarded_win (Packets (win w)) (Up_queue (win w)) 0 (win w)) [].
Proof.
  split_and!; [|done|done|by rewrite app_nil_r]. unfold discarded_win. rewrite window_with_id.
  destruct (win w). cbn. by rewrite Z.add_0_r.
Qed.

Lemma discarded_win_add pk pk' up up' n r :
  discarded_win pk' up' n (discarded_win pk up 1 r) = discarded_win pk' up' (S n) r.
Proof.
  unfold discarded_win. cbn -[Z.of_nat Z.add].
  replace (Last_discarded r + Z.of_nat 1 + Z.of_nat n) with (Last_discarded r + Z.of_nat (S n)) by lia. done.
Qed.

Lemma before_loop n : forall i w up ms,
  let l := seqZ i (Z.of_nat n) in
  let pk := Packets (win w) in
  let p := until (regular_stop pk) l in
  Highest_seq (win w) = i + Z.of_nat n - 1 -> Last_discarded (win w) = i - 1 ->
  Z.of_nat n <= MAX_PACKETS_IN_STRUCT ->
  Forall (fun i => pi_exist (at_seq pk i) <> 0) l ->
  deliver_all (Up_queue (win w)) (fresh pk p) = inr (up, ms) ->
  wp (mfor "Discard_packets" n (fun i w => i <=? Highest_seq (win w)) discard_before_step i)
     (fun _ w' => exists pk', handed_up w w' (discarded_win pk' up (length p) (win w)) ms /\ dropped pk pk' p)
     never w.
Proof.
  induction n as [|n IH]; intros i w up ms l pk p Hhi Hld Hn Hex Hall.
  { cbn in Hall. injection Hall as <- <-. apply wp_mfor_end; [by apply Z.leb_gt; lia|].
    exists pk. split; [by apply discarded_none|by split; [constructor|]]. }
  apply wp_mfor_next; [by apply Z.leb_le; lia|]. apply wp_bind.
  subst l. subst p. rewrite (seqZ_S i) in * by lia. replace (Z.of_nat (S n) - 1) with (Z.of_nat n) in * by lia.
  set (l := seqZ (i + 1) (Z.of_nat n)) in *. cbn [until] in *.
  inversion Hex as [|? ? Hi Hex']; subst.
  unfold discard_before_step. apply wp_bind, wp_get.
  change (pkt w (slot i)) with (at_seq pk i). cbv zeta. rewrite (proj2 (Z.eqb_neq _ _) Hi).
  destruct (regular_stop pk i) eqn:Hstop.
  { cbn in Hall. injection Hall as <- <-.
    assert (Hend : exists pk', handed_up w w (discarded_win pk' (Up_queue (win w)) 0 (win w)) [] /\ dropped pk pk' []).
    { exists pk. split; [by apply discarded_none|by split; [constructor|]]. }
    apply orb_true_iff in Hstop as [-> | ->]; [|destruct (_ =? 3)]; by apply wp_ret, wp_ret. }
  apply orb_false_iff in Hstop as [-> ->].
  rewrite fresh_cons_app, deliver_all_app in Hall.
  destruct (deliver_all _ (fresh pk [i])) as [?|[up1 ms1]] eqn:H1; [done|]. cbn [rbind] in Hall.
  destruct (deliver_all up1 _) as [?|[up2 ms2]] eqn:H2; [done|]. injection Hall as <- <-.
  apply wp_bind. eapply wp_mono; [by apply deliver_and_drop_up| |done]. intros [] w1 (p & Hp & Hup1).
  apply wp_bind, wp_modify, wp_ret. set (w2 := on_win _ w1).
  set (pk1 := <[slot i := p]> (Packets (win w))) in *.
  assert (Hv2 : win w2 = discarded_win pk1 up1 1 (win w)).
  { unfold w2. cbn. destruct Hup1 as (-> & _). unfold discarded_win.
    replace (Last_discarded (win w) + Z.of_nat 1) with i by lia. done. }
  assert (Hsame : same_on pk pk1 l) by (apply same_on_insert; lia).
  assert (Hp1 : Packets (win w2) = pk1) by by rewrite Hv2.
  eapply wp_mono; [apply (IH (i + 1) w2 up2 ms2)| |done]; rewrite ?Hp1, ?(until_stop_same pk pk1) by done.
  - rewrite Hv2. cbn. lia.
  - rewrite Hv2. cbn. lia.
  - lia.
  - by eapply nonzero_same.
  - rewrite (fresh_same pk pk1) by (eapply same_on_sub; [apply until_sub|done]). by rewrite Hv2.
  - intros _ w' (pk' & Hup & Hd). exists pk'. split.
    + rewrite Hv2, discarded_win_add in Hup.
      eapply (handed_up_trans w w2 w'); [|exact Hup]. destruct Hup1 as (? & ? & ? & ?). by split_and!.
    + eapply (dropped_cons pk pk1); [..|exact Hd].
      * unfold at_seq, pk1. by rewrite lookup_insert_eq.
      * intros e He. unfold pk1. by rewrite lookup_insert_ne.
      * apply Forall_forall. intros j Hj%until_sub.
        pose proof (slots_ahead i (Z.of_nat n) ltac:(lia)) as Hs. rewrite Forall_forall in Hs. by apply Hs.
Qed.

Lemma set_exist_up i w :
  wp (set_exist (slot i) 0)
    (fun _ w' => exists p, pi_exist p = 0 /\
       handed_up w w' (window_with (<[slot i := p]> (Packets (win w))) (Up_queue (win w)) (win w)) [])
    never w.
Proof.
  unfold set_exist. apply wp_bind, wp_get, wp_modify.
  eexists. split; [|split_and!; [cbn; unfold window_with; cbn; reflexivity|done|done|by rewrite app_nil_r]].
  done.
Qed.

(** The loop continues on the packets ahead after the entry of [i] is emptied. *)
Lemma after_step i n w w1 p up1 ms1 :
  Z.of_nat n < MAX_PACKETS_IN_STRUCT -> pi_exist p = 0 ->
  handed_up w w1 (window_with (<[slot i := p]> (Packets (win w))) up1 (win w)) ms1 ->
  let l := seqZ (i + 1) (Z.of_nat n) in
  same_on (Packets (win w)) (Packets (win w1)) l /\ Up_queue (win w1) = up1 /\
  mem w1 = mem w /\
  (forall w' up pk' ms, handed_up w1 w' (window_with pk' up (win w1)) ms ->
     dropped (Packets (win w1)) pk' l ->
     handed_up w w' (window_with pk' up (win w)) (ms1 ++ ms) /\ dropped (Packets (win w)) pk' (i :: l)).
Proof.
  intros Hn Hp Hup l. pose proof Hup as (Hw & Hm & _). rewrite Hw. cbn.
  split_and!; [apply same_on_insert; lia|done|done|]. intros w' up pk' ms Hup' Hd. split.
  - eapply handed_up_trans; [exact Hup|]. exact Hup'.
  - eapply dropped_cons; [..|exact Hd].
    + unfold at_seq. by rewrite lookup_insert_eq.
    + intros e He. by rewrite lookup_insert_ne.
    + apply slots_ahead. lia.
Qed.

Lemma after_loop n : forall i w hole up ms,
  let l := seqZ i (Z.of_nat n) in
  let pk := Packets (win w) in
  Z.of_nat n <= MAX_PACKETS_IN_STRUCT ->
  Forall (fun i => pi_exist (at_seq pk i) <> 0) l ->
  deliver_all (Up_queue (win w)) (fresh pk (transitional_due (Commit_membership (mem w)) pk l hole)) = inr (up, ms) ->
  wp (discard_after l hole)
     (fun _ w' => exists pk', handed_up w w' (window_with pk' up (win w)) ms /\ dropped pk pk' l) never w.
Proof.
  induction n as [|n IH]; intros i w hole up ms l pk Hn Hex Hall.
  { cbn in Hall. injection Hall as <- <-. apply wp_ret. exists pk. split; [|by split; [constructor|]].
    split_and!; [exact (eq_sym (window_with_id _))|done|done|by rewrite app_nil_r]. }
  subst l. rewrite (seqZ_S i) in * by lia. replace (Z.of_nat (S n) - 1) with (Z.of_nat n) in * by lia.
  set (l := seqZ (i + 1) (Z.of_nat n)) in *. inversion Hex as [|? ? Hi Hex']; subst.
  cbn [discard_after]. apply wp_bind, wp_get. change (pkt w (slot i)) with (at_seq pk i). cbv zeta.
  rewrite (proj2 (Z.eqb_neq _ _) Hi). cbn [transitional_due] in Hall.
  fold (committed (Commit_membership (mem w)) (at_seq pk i)).
  assert (Hgo : forall (m : M world unit) h up1 ms1 up2 ms2,
    wp m (fun _ w1 => exists p, pi_exist p = 0 /\
       handed_up w w1 (window_with (<[slot i := p]> (Packets (win w))) up1 (win w)) ms1) never w ->
    deliver_all up1 (fresh pk (transitional_due (Commit_membership (mem w)) pk l h)) = inr (up2, ms2) ->
    wp (m ;; discard_after l h)
      (fun _ w' => exists pk', handed_up w w' (window_with pk' up2 (win w)) (ms1 ++ ms2) /\ dropped pk pk' (i :: l))
      never w).
  { intros m h up1 ms1 up2 ms2 Hm Hrest. apply wp_bind. eapply wp_mono; [exact Hm| |done].
    intros [] w1 (p & Hp & Hup). destruct (after_step i n w w1 p up1 ms1) as (Hsame & Hq & Hmem & Hk); [lia|done..|].
    eapply wp_mono; [apply (IH (i + 1) w1 h up2 ms2)| |done].
    - lia.
    - by eapply nonzero_same.
    - rewrite Hmem, (transitional_due_same _ pk), (fresh_same pk), Hq; [done| |done].
      eapply same_on_sub; [intros j; apply transitional_due_sub|done].
    - intros _ w' (pk' & Hup' & Hd). exists pk'. by apply Hk. }
  destruct (_ =? 3) eqn:H3.
  { apply (Hgo _ true (Up_queue (win w)) [] up ms); [apply set_exist_up|done]. }
  destruct (_ || _) eqn:Hdue.
  - rewrite fresh_cons_app, deliver_all_app in Hall.
    destruct (deliver_all _ (fresh pk [i])) as [?|[up1 ms1]] eqn:H1; [done|]. cbn [rbind] in Hall.
    destruct (deliver_all up1 _) as [?|[up2 ms2]] eqn:H2; [done|]. injection Hall as <- <-.
    apply (Hgo _ hole up1 ms1); [by apply deliver_and_drop_up|done].
  - apply (Hgo _ hole (Up_queue (win w)) [] up ms); [apply set_exist_up|done].
Qed.
End loops.

(* --------------------------------------------------------------------- *)
(** ** Installing the regular membership *)

Section install.
Context `{SessionFrame}.

Lemma upcall_rel_refl w : upcall_rel w w.
Proof. by split_and!. Qed.

Lemma read_clock_frame : keeps upcall_rel never read_clock.
Proof. intros w. unfold read_clock. by wp_steps. Qed.

Lemma E_queue_frame f c d : keeps upcall_rel never (E_queue f c d).
Proof.
  unfold E_queue. apply keeps_bind; [apply _|apply read_clock_frame|]. intros now.
  apply keeps_modify. by intros w.
Qed.

(** A step that an upcall's frame covers, in the middle of a run. *)
Lemma wp_frame {A B} (m : M world A) (k : A -> M world B) Q w :
  keeps upcall_rel never m -> (forall a w', upcall_rel w w' -> wp (k a) Q never w') ->
  wp (bind m k) Q never w.
Proof. intros Hm Hk. apply wp_bind. eapply wp_mono; [apply Hm|exact Hk|done]. Qed.

Lemma trans_memb_up c id w :
  wp (Sess_deliver_trans_memb c id)
    (fun _ w' => win w' = win w /\ mem w' = mem w /\ cf w' = cf w /\ trace w' = trace w ++ [Out_trans_memb c id])
    never w.
Proof.
  unfold Sess_deliver_trans_memb, emit. apply wp_bind, wp_modify.
  eapply wp_mono; [apply sess_deliver_trans_memb_frame| |done]. intros _ w' (? & ? & ? & Ht).
  split_and!; [done..|]. by rewrite Ht, trace_emit.
Qed.

Lemma reg_memb_up c id w :
  wp (Sess_deliver_reg_memb c id)
    (fun _ w' => win w' = win w /\ mem w' = mem w /\ cf w' = cf w /\ trace w' = trace w ++ [Out_reg_memb c id])
    never w.
Proof.
  unfold Sess_deliver_reg_memb, emit. apply wp_bind, wp_modify.
  eapply wp_mono; [apply sess_deliver_reg_memb_frame| |done]. intros _ w' (? & ? & ? & Ht).
  split_and!; [done..|]. by rewrite Ht, trace_emit.
Qed.

Lemma discard_queues_up w :
  wp discard_queues
    (fun _ w' => mem w' = mem w /\ cf w' = cf w /\ trace w' = trace w /\ Packets (win w') = Packets (win w) /\
       forall i, 0 <= i < MAX_PROCS_RING -> uq_exist (up_at w' i) = false) never w.
Proof.
  unfold discard_queues. apply wp_bind, wp_modify.
  match goal with |- wp _ _ _ ?s => set (w0 := s) end.
  eapply wp_mono; [apply (wp_mforeach (fun l w' =>
    (mem w' = mem w /\ cf w' = cf w /\ trace w' = trace w /\ Packets (win w') = Packets (win w)) /\
    forall i, 0 <= i < MAX_PROCS_RING -> i ∉ l -> uq_exist (up_at w' i) = false))| |done].
  - split; [done|]. intros i Hi []. apply elem_of_seqZ. lia.
  - intros x l w1 [Hf Hi]. apply wp_bind, wp_get. apply wp_when; intros Hx.
    + apply wp_modify. split; [exact Hf|]. intros i Hr Hni. unfold up_at. cbn.
      destruct (decide (i = x)) as [->|Hne]; [by rewrite lookup_insert_eq|].
      rewrite lookup_insert_ne by done. apply Hi; [done|]. by apply not_elem_of_cons.
    + split; [exact Hf|]. intros i Hr Hni.
      destruct (decide (i = x)) as [->|Hne]; [done|]. apply Hi; [done|]. by apply not_elem_of_cons.
  - intros _ w1 [Hf Hi]. split_and!; try apply Hf. intros i Hr. apply Hi; [done|]. apply not_elem_of_nil.
Qed.

Lemma Shift_to_op_up w :
  wp Shift_to_op
    (fun _ w' => win w' = win w /\ cf w' = cf w /\ trace w' = trace w /\ mem w' = set_State OP (mem w)) never w.
Proof.
  unfold Shift_to_op. apply wp_bind, wp_modify, wp_bind, wp_modify, wp_bind, wp_get.
  apply wp_when; intros _; [|done].
  eapply wp_mono; [apply E_queue_frame| |done]. intros _ w' (? & ? & ? & ?). by split_and!.
Qed.

Lemma Memb_regular_up w :
  is_Some (Conf_leader (Future_membership (mem w))) ->
  wp Memb_regular
    (fun _ w' => win w' = win w /\ cf w' = cf w /\ trace w' = trace w /\ State (mem w') = OP /\
       Membership (mem w') = Future_membership (mem w) /\
       Membership_id (mem w') = Future_membership_id (mem w) /\
       Reg_membership (mem w') = Future_membership (mem w)) never w.
Proof.
  intros [l Hl]. unfold Memb_regular. apply wp_bind, wp_get.
  repeat first [apply wp_bind, wp_modify]. cbv zeta.
  unfold leader_is, or_fatal. rewrite Hl. apply wp_bind, wp_bind, wp_ret, wp_ret.
  match goal with |- wp _ _ _ ?s => set (w0 := s) end. apply wp_bind.
  eapply (wp_mono _ (fun _ w1 => upcall_rel w0 w1) _ never).
  - apply wp_when; intros _; [apply E_queue_frame|apply upcall_rel_refl].
  - intros [] w1 (Hw & Hm & Hc & Ht). eapply wp_mono; [apply Shift_to_op_up| |done].
    intros _ w2 (Hw2 & Hc2 & Ht2 & Hm2). rewrite Hm2, Hm, Hw2, Hw, Hc2, Hc, Ht2, Ht. by split_and!.
  - done.
Qed.

Lemma discard_install_up w :
  is_Some (Conf_leader (Future_membership (mem w))) -> cf_Conf_Reload_Singleton_State (cf w) = false ->
  wp discard_install
    (fun _ w' => win w' = win w /\ cf w' = cf w /\ State (mem w') = OP /\
       Membership (mem w') = Future_membership (mem w) /\
       Membership_id (mem w') = Future_membership_id (mem w) /\
       trace w' = trace w ++ [Out_reg_memb (Future_membership (mem w)) (Future_membership_id (mem w))]) never w.
Proof.
  intros Hl Hr. unfold discard_install. apply wp_bind.
  eapply wp_mono; [by apply Memb_regular_up| |done]. intros [] w1 (Hw1 & Hc1 & Ht1 & Hs1 & Hm1 & Hi1 & Hr1).
  apply wp_bind. unfold Log_membership, emit. apply wp_bind, wp_modify.
  match goal with |- wp _ _ _ ?s => set (w2 := s) end.
  eapply wp_mono; [apply log_membership_frame| |done]. intros [] w3 (Hw3 & Hm3 & Hc3 & Ht3).
  assert (Ht2 : trace w2 = trace w1) by (unfold w2; rewrite trace_emit; cbn; by rewrite app_nil_r).
  apply wp_bind, wp_get, wp_bind. unfold Memb_id.
  eapply wp_mono; [apply reg_memb_up| |done]. intros [] w4 (Hw4 & Hm4 & Hc4 & Ht4).
  assert (Hm : mem w4 = mem w1) by by rewrite Hm4, Hm3.
  assert (Hc : cf w4 = cf w) by by rewrite Hc4, Hc3, <- Hc1.
  apply wp_bind, wp_get. rewrite Hc, Hr. apply wp_ret. rewrite Hm.
  split_and!; try done; [by rewrite Hw4, Hw3, <- Hw1|].
  rewrite Ht4, Ht3, Ht2, Ht1, Hm3. cbn. by rewrite Hr1, Hi1.
Qed.

Lemma Memb_transitional_up w trans commit l :
  let set := Commit_set (mem w) in
  memb_subset "Memb_transitional: trans" (cf_Config (cf w)) (Trans_membership (mem w))
    (first_members set (num_pending set)) = inr trans ->
  Conf_leader trans = Some l ->
  memb_subset "Memb_transitional: commit" (cf_Config (cf w)) (Commit_membership (mem w))
    (first_members set (num_members set)) = inr commit ->
  wp Memb_transitional
    (fun _ w' => win w' = win w /\ cf w' = cf w /\ trace w' = trace w /\
       mem w' = set_Commit_membership commit (set_Trans_memb_id (mkMembId (s32 l) (F_trans_memb_time (mem w)))
                  (set_Trans_membership trans (set_Transitional 1 (mem w))))) never w.
Proof.
  intros set Ht Hl Hc. unfold Memb_transitional. apply wp_bind, wp_get. cbv zeta. fold set.
  apply wp_bind, wp_modify, wp_bind. unfold lift, wp at 1. rewrite Ht.
  apply wp_bind, wp_modify, wp_bind. unfold or_fatal. rewrite Hl. apply wp_ret.
  apply wp_bind, wp_modify, wp_bind. unfold wp at 1. rewrite Hc. by apply wp_modify.
Qed.
End install.

(** Every entry of the window is empty. *)
Definition all_empty (pk : gmap Z packet_info) : Prop := forall e, pi_exist (default no_packet (pk !! e)) = 0.

Lemma window_empty_all w : all_empty (Packets (win w)) -> window_empty w = true.
Proof. intros He. apply forallb_forall. intros e _. apply Z.eqb_eq, He. Qed.

Lemma dropped_empty pk pk1 pk2 l p :
  (forall e, Forall (fun i => slot i <> e) (p ++ l) -> pi_exist (default no_packet (pk !! e)) = 0) ->
  dropped pk pk1 p -> dropped pk1 pk2 l -> all_empty pk2.
Proof.
  intros Hout [Hp1 Ho1] [Hp2 Ho2] e.
  assert (Hdec : forall q : list Z, Forall (fun i => slot i <> e) q \/ Exists (fun i => slot i = e) q).
  { intros q. destruct (decide (Forall (fun i => slot i <> e) q)) as [|Hn]; [by left|right].
    apply not_Forall_Exists in Hn; [|intros ?; apply _]. eapply Exists_impl; [exact Hn|]. cbn. intros i Hi.
    destruct (decide (slot i = e)) as [|Hne]; [done|]. exfalso. by apply Hi. }
  destruct (Hdec l) as [Hl|Hl].
  - rewrite Ho2 by done. destruct (Hdec p) as [Hpp|Hpp].
    + rewrite Ho1 by done. apply Hout, Forall_app. by split.
    + apply Exists_exists in Hpp as (i & Hi & <-). rewrite Forall_forall in Hp1. by apply Hp1.
  - apply Exists_exists in Hl as (i & Hi & <-). rewrite Forall_forall in Hp2. by apply Hp2.
Qed.

Lemma until_app_drop {A} (P : A -> bool) l : l = until P l ++ drop (length (until P l)) l.
Proof. induction l as [|x l IH]; [done|]. cbn. destruct (P x); [done|]. cbn. by rewrite <- IH. Qed.

Lemma drop_seqZ_le i n k : Z.of_nat k <= n -> drop k (seqZ i n) = seqZ (i + Z.of_nat k) (n - Z.of_nat k).
Proof.
  intros Hk. replace n with (Z.of_nat k + (n - Z.of_nat k)) at 1 by lia.
  rewrite seqZ_app by lia. apply drop_app_length'. rewrite length_seqZ. lia.
Qed.

Lemma slots_NoDup i n : n <= MAX_PACKETS_IN_STRUCT -> NoDup (slot <$> seqZ i n).
Proof.
  intros Hn. apply NoDup_fmap_2_strong; [|apply NoDup_seqZ].
  intros a b Ha%elem_of_seqZ Hb%elem_of_seqZ. apply slot_inj. lia.
Qed.

Lemma dropped_same pk pk' p l : NoDup (slot <$> p ++ l) -> dropped pk pk' p -> same_on pk pk' l.
Proof.
  rewrite fmap_app. intros (_ & Hd & _)%NoDup_app [_ Ho]. apply Forall_forall. intros j Hj.
  unfold at_seq. rewrite Ho; [done|]. apply Forall_forall. intros i Hi He.
  apply (Hd (slot i)); [by apply list_elem_of_fmap_2|]. rewrite He. by apply list_elem_of_fmap_2.
Qed.

(** The state a membership change is completed in: everything of the old ring
    accounted for, the processes that go on with me known. *)
Record evs_ready (w : world) (trans commit : configuration) (leader : Z) : Prop := {
  er_state : State (mem w) = EVS;
  er_aru : Last_discarded (win w) < Aru (win w);
  er_last : Aru (win w) = Last_seq (win w);
  er_size : 0 <= Highest_seq (win w) - Last_discarded (win w) <= MAX_PACKETS_IN_STRUCT;
  er_packets : Forall (fun i => pi_exist (at_seq (Packets (win w)) i) <> 0)
    (seqZ (Last_discarded (win w) + 1) (Highest_seq (win w) - Last_discarded (win w)));
  er_others : forall e, Forall (fun i => slot i <> e)
      (seqZ (Last_discarded (win w) + 1) (Highest_seq (win w) - Last_discarded (win w))) ->
    pi_exist (default no_packet (Packets (win w) !! e)) = 0;
  er_trans : memb_subset "Memb_transitional: trans" (cf_Config (cf w)) (Trans_membership (mem w))
    (first_members (Commit_set (mem w)) (num_pending (Commit_set (mem w)))) = inr trans;
  er_leader : Conf_leader trans = Some leader;
  er_commit : memb_subset "Memb_transitional: commit" (cf_Config (cf w)) (Commit_membership (mem w))
    (first_members (Commit_set (mem w)) (num_members (Commit_set (mem w)))) = inr commit;
  er_future : is_Some (Conf_leader (Future_membership (mem w)));
  er_reload : cf_Conf_Reload_Singleton_State (cf w) = false
}.

(** The sequence numbers still in the window, and where the old regular
    configuration ends among them. *)
Definition evs_window (w : world) : list Z :=
  seqZ (Last_discarded (win w) + 1) (Highest_seq (win w) - Last_discarded (win w)).
Definition evs_regular (w : world) : list Z := until (regular_stop (Packets (win w))) (evs_window w).
Definition evs_rest (w : world) : list Z := drop (length (evs_regular w)) (evs_window w).

Section stages.
Context `{SessionFrame} (w : world).
Let pk := Packets (win w).
Hypothesis size : 0 <= Highest_seq (win w) - Last_discarded (win w) <= MAX_PACKETS_IN_STRUCT.
Hypothesis packets : Forall (fun i => pi_exist (at_seq pk i) <> 0) (evs_window w).

Lemma evs_window_split : evs_window w = evs_regular w ++ evs_rest w.
Proof. apply until_app_drop. Qed.

Lemma regular_stage up ms :
  deliver_all (Up_queue (win w)) (fresh pk (evs_regular w)) = inr (up, ms) ->
  wp discard_before_transitional
    (fun _ w' => exists pk', handed_up w w' (discarded_win pk' up (length (evs_regular w)) (win w)) ms /\
       dropped pk pk' (evs_regular w)) never w.
Proof.
  intros Hd. unfold discard_before_transitional. apply wp_bind, wp_get, wp_bind.
  pose proof (before_loop (Z.to_nat (Highest_seq (win w) - Last_discarded (win w)))
    (Last_discarded (win w) + 1) w up ms) as Hb. cbv zeta in Hb. rewrite Z2Nat.id in Hb by lia.
  eapply wp_mono; [apply Hb; [lia|lia|lia|done|done]| |done]. intros ? w1 Hw1. by apply wp_ret.
Qed.

(** The window of a state in which the regular part is gone. *)
Lemma rest_of_window pk1 up w1 :
  win w1 = discarded_win pk1 up (length (evs_regular w)) (win w) -> evs_window w1 = evs_rest w.
Proof.
  intros Hw. unfold evs_window, evs_rest. rewrite Hw. cbn -[Z.of_nat].
  pose proof (f_equal length evs_window_split) as Hlen. rewrite length_app in Hlen.
  unfold evs_window in *. rewrite length_seqZ in Hlen.
  rewrite drop_seqZ_le by lia. f_equal; lia.
Qed.

Lemma transitional_stage pk1 up1 w1 up ms :
  win w1 = discarded_win pk1 up1 (length (evs_regular w)) (win w) -> dropped pk pk1 (evs_regular w) ->
  deliver_all up1 (fresh pk (transitional_due (Commit_membership (mem w1)) pk (evs_rest w) false)) = inr (up, ms) ->
  wp discard_after_transitional
    (fun _ w' => exists pk', handed_up w1 w' (window_with pk' up (win w1)) ms /\
       dropped pk1 pk' (evs_rest w)) never w1.
Proof.
  intros Hw1 Hdr Hd. unfold discard_after_transitional. apply wp_bind, wp_get.
  pose proof (rest_of_window _ _ _ Hw1) as Hrest. pose proof evs_window_split as Hsplit.
  assert (Hsame : same_on pk pk1 (evs_rest w)).
  { apply (dropped_same pk pk1 (evs_regular w)); [|done]. rewrite <- Hsplit. apply slots_NoDup. lia. }
  assert (Hp1 : Packets (win w1) = pk1) by by rewrite Hw1.
  assert (Hn : 0 <= Highest_seq (win w1) - Last_discarded (win w1) <= MAX_PACKETS_IN_STRUCT).
  { rewrite Hw1. cbn -[Z.of_nat]. apply (f_equal length) in Hsplit. rewrite length_app in Hsplit.
    unfold evs_window in Hsplit. rewrite length_seqZ in Hsplit. lia. }
  pose proof (after_loop (Z.to_nat (Highest_seq (win w1) - Last_discarded (win w1)))
    (Last_discarded (win w1) + 1) w1 false up ms) as Ha. cbv zeta in Ha. rewrite Z2Nat.id, Hp1 in Ha by lia.
  unfold evs_window in Hrest at 1. rewrite Hrest in Ha |- *. apply Ha; [lia| |].
  - eapply nonzero_same; [exact Hsame|]. rewrite Hsplit in packets. by apply Forall_app in packets as [_ ?].
  - rewrite (transitional_due_same _ pk pk1), (fresh_same pk pk1), Hw1 by done || (eapply same_on_sub;
      [intros j; apply transitional_due_sub|done]). done.
Qed.
End stages.

(** C2: extended virtual synchrony.  When the old ring is recovered, the
    session layer is handed, in this order: the messages of the old regular
    configuration up to the first hole or SAFE packet; the transitional
    configuration of the processes that come along; the remaining messages in
    sequence order, from the first hole on only those of processes that
    committed together; and the new regular configuration.  The daemon is then
    in OP with the new membership, an empty window, no half reassembled
    message and its counters at zero. *)
Theorem membership_change_delivery `{SessionFrame}
    (w : world) (trans commit : configuration) (leader : Z) (up1 up2 : gmap Z up_queue) (ms1 ms2 : list scatter) :
  let pk := Packets (win w) in
  evs_ready w trans commit leader ->
  deliver_all (Up_queue (win w)) (fresh pk (evs_regular w)) = inr (up1, ms1) ->
  deliver_all up1 (fresh pk (transitional_due commit pk (evs_rest w) false)) = inr (up2, ms2) ->
  wp Discard_packets
    (fun _ w' =>
       trace w' = trace w ++ (Out_deliver_message <$> ms1)
         ++ [Out_trans_memb trans (mkMembId (s32 leader) (F_trans_memb_time (mem w)))]
         ++ (Out_deliver_message <$> ms2)
         ++ [Out_reg_memb (Future_membership (mem w)) (Future_membership_id (mem w))] /\
       State (mem w') = OP /\ Membership (mem w') = Future_membership (mem w) /\
       Membership_id (mem w') = Future_membership_id (mem w) /\
       all_empty (Packets (win w')) /\
       (forall i, 0 <= i < MAX_PROCS_RING -> uq_exist (up_at w' i) = false) /\
       Highest_seq (win w') = 0 /\ My_aru (win w') = 0 /\ Aru (win w') = 0 /\
       Last_discarded (win w') = 0 /\ Last_delivered (win w') = 0)
    never w.
Proof.
  intros pk [Hst Haru Hlast Hsize Hex Hout Htr Hld Hco Hfu Hre] Hd1 Hd2.
  unfold Discard_packets. apply wp_bind, wp_get.
  destruct (Z.leb_spec (Aru (win w)) (Last_discarded (win w))); [lia|].
  unfold is_state. rewrite bool_decide_true by done. rewrite (proj2 (Z.eqb_eq _ _) Hlast). cbn [negb].
  unfold discard_evs. apply wp_bind. eapply wp_mono; [by apply (regular_stage w Hsize Hex up1 ms1)| |done].
  intros _ w1 (pk1 & (Hw1 & Hm1 & Hc1 & Ht1) & Hdr1). apply wp_bind.
  pose proof (Memb_transitional_up w1 trans commit leader) as Hmt. cbv zeta in Hmt. rewrite Hm1, Hc1 in Hmt.
  eapply wp_mono; [exact (Hmt Htr Hld Hco)| |done].
  intros _ w2 (Hw2 & Hc2 & Ht2 & Hm2). apply wp_bind, wp_get, wp_bind.
  eapply wp_mono; [apply trans_memb_up| |done]. intros _ w3 (Hw3 & Hm3 & Hc3 & Ht3). apply wp_bind.
  assert (Hw31 : win w3 = discarded_win pk1 up1 (length (evs_regular w)) (win w)) by by rewrite Hw3, Hw2.
  eapply wp_mono; [apply (transitional_stage w Hsize Hex pk1 up1 w3 up2 ms2 Hw31 Hdr1)| |done].
  { by rewrite Hm3, Hm2. }
  intros _ w4 (pk2 & (Hw4 & Hm4 & Hc4 & Ht4) & Hdr2).
  assert (Hempty : all_empty (Packets (win w4))).
  { rewrite Hw4. apply (dropped_empty pk pk1 pk2 (evs_rest w) (evs_regular w)); [|done|done].
    by rewrite <- evs_window_split. }
  apply wp_bind, wp_get, wp_bind. rewrite (window_empty_all w4 Hempty). apply wp_ret, wp_bind.
  eapply wp_mono; [apply discard_queues_up| |done]. intros _ w5 (Hm5 & Hc5 & Ht5 & Hp5 & Hu5).
  assert (Hm : mem w5 = mem w3) by by rewrite Hm5, Hm4.
  apply wp_bind. eapply wp_mono; [apply discard_install_up| |done].
  { by rewrite Hm, Hm3, Hm2. }
  { by rewrite Hc5, Hc4, Hc3, Hc2. }
  intros _ w6 (Hw6 & Hc6 & Hs6 & Hmm6 & Hid6 & Ht6). unfold reset_window.
  repeat first [apply wp_bind, wp_modify|apply wp_modify].
  split_and!; try done; cbn -[trace].
  - unfold Memb_trans_id in Ht3. etransitivity; [exact Ht6|].
    rewrite Ht5, Ht4, Ht3, Ht2, Ht1, Hm, Hm3, Hm2. cbn. rewrite <- !app_assoc. reflexivity.
  - by rewrite Hmm6, Hm, Hm3, Hm2.
  - by rewrite Hid6, Hm, Hm3, Hm2.
  - intros e. rewrite Hw6, Hp5. apply Hempty.
  - intros i Hi. unfold up_at. cbn. rewrite Hw6. by apply Hu5.
Qed.

Lemma membership_change_delivery_witness :
  wp Discard_packets
    (fun _ w' => exists trans, trace w' =
       [Out_deliver_message [mkElem [10; 11; 12; 13] 4]; Out_trans_memb trans (mkMembId 11 8);
        Out_deliver_message [mkElem [40; 41; 42; 43] 4]; Out_reg_memb sample_future (mkMembId 11 9)] /\
       State (mem w') = OP)
    never sample_evs.
Proof.
  pose (c := mkConfiguration 0 []
    [mkSegment [] [sample_proc "a" 11 0 0; sample_proc "b" 12 0 1]; mkSegment [] []]).
  assert (Hdue : transitional_due c (Packets (win sample_evs)) (evs_rest sample_evs) false = [4])
    by (vm_compute; reflexivity).
  assert (H1 : exists up, deliver_all ∅ (fresh (Packets (win sample_evs)) (evs_regular sample_evs))
    = inr (up, [[mkElem [10; 11; 12; 13] 4]]) /\ exists up2,
    deliver_all up (fresh (Packets (win sample_evs)) [4]) = inr (up2, [[mkElem [40; 41; 42; 43] 4]]))
    by (eexists; split; [vm_compute; reflexivity|eexists; vm_compute; reflexivity]).
  destruct H1 as (up & H1 & up2 & H2). rewrite <- Hdue in H2.
  eapply wp_mono; [apply (membership_change_delivery sample_evs c c 11 up up2
    [[mkElem [10; 11; 12; 13] 4]] [[mkElem [40; 41; 42; 43] 4]])| |exact (fun e He => He)].
  - constructor.
    1-2,4: vm_compute; repeat split; discriminate.
    + reflexivity.
    + repeat constructor; vm_compute; discriminate.
    + intros e He. 
      assert (Hs : forall i, 1 <= i < 5 -> slot i = i) by (intros i Hi; assert (i = 1 \/ i = 2 \/ i = 3 \/ i = 4)
        as [->|[->|[->| ->]]] by lia; reflexivity).
      change (seqZ _ _) with [1; 2; 3; 4] in He. rewrite !Forall_cons in He. rewrite !Hs in He by lia.
      change (Packets (win sample_evs)) with
        (<[1 := sample_packet AGREED_TYPE (-1) [10; 11; 12; 13]]>
       (<[2 := sample_hole]>
       (<[3 := from_proc 21 (sample_packet AGREED_TYPE (-1) [30; 31; 32; 33])]>
       (<[4 := from_proc 12 (sample_packet SAFE_TYPE (-1) [40; 41; 42; 43])]> (∅ : gmap Z packet_info))))).
      rewrite !lookup_insert_ne by tauto. by rewrite lookup_empty.
    + vm_compute. reflexivity.
    + reflexivity.
    + vm_compute. reflexivity.
    + eexists. vm_compute. reflexivity.
    + reflexivity.
  - exact H1.
  - exact H2.
  - intros _ w' (Ht & Hst & _). exists c. split; [|exact Hst]. rewrite Ht. reflexivity.
Defined.
