(* ===== verification/ProtSend.v ===== *)
(** * Sending ([daemon/protocol.c])

    Holding and hurrying the token, taking messages from the session layer,
    packing them into packets ([Send_new_packets]) and the send queue of the
    accelerated ring.

    A packet in [Send_pack_queue] shares its header with the entry of the
    window it was inserted in, so what a send writes into the header is
    written through to that entry. *)

From Stdlib Require Import ZArith Lia.
From stdpp Require Import base strings numbers option gmap list.
From S2P Require Import Prelude Wire Config Events State Network FlowControl MembSets MembCore.

Section send.
Context `{Session}.

(** ** Token hold and hurry *)

Definition Is_token_hold (w : world) : bool :=
  (is_state (Memb_state w) OP || (is_state (Memb_state w) GATHER && Memb_token_alive w))
  && (Get_retrans (th_type (Last_token (tok w))) <=? 1)
  && (Aru (win w) =? Highest_seq (win w)) && (1 <? Token_counter (tok w)).
Definition To_hold_token (w : world) : bool :=
  (is_state (Memb_state w) OP || (is_state (Memb_state w) GATHER && Memb_token_alive w))
  && (Get_retrans (th_type (Last_token (tok w))) <=? 1)
  && (Aru (win w) =? Highest_seq (win w)) && (1 <? Token_counter (tok w)).

(** [Net_send_token(&retrans_token)]: the send stamps [*Last_token]. *)
Definition send_last_token : M world unit :=
  let* w := get in
  let* ' (_, h) := Net_send_token (Last_token (tok w)) [] in
  tok_do (set_Last_token h).

Definition Prot_token_hurry : M world unit :=
  tok_do (fun t => set_Last_token (set_th_rtr_len 0 (Last_token t)) t) ;;
  let* w := get in
  let* leader := leader_is (Memb_active_ptr w) (p_id (prot_My (prt w))) in
  when leader
    (let val := Get_retrans (th_type (Last_token (tok w))) + 1 in
     tok_do (fun t => set_Last_token
       (set_th_type (Set_retrans (th_type (Last_token t)) val) (Last_token t)) t) ;;
     E_queue Prot_token_hurry_event 0 (Hurry_timeout (tmo w)) ;;
     stat_do (fun s => set_st_token_hurry (st_token_hurry s + 1) s)) ;;
  send_last_token ;;
  when (Wide_network (tmo w))
    (let* l := or_fatal "Conf_seg_last"
                 (Conf_seg_last (Memb_active_ptr w) (p_seg_index (prot_My (prt w)))) in
     when (l =? p_id (prot_My (prt w))) send_last_token) ;;
  let* w := get in
  when (1 <? Get_retrans (th_type (Last_token (tok w)))) (send_last_token ;; send_last_token).

Definition Handle_hurry (proc_id : Z) : M world unit :=
  let* w := get in
  let* leader := leader_is (Memb_active_ptr w) (p_id (prot_My (prt w))) in
  when (leader && Is_token_hold w
        && negb (Conf_id_in_conf (Memb_active_ptr w) (u32 proc_id) =? -1))
    (tok_do (set_Token_counter 0) ;;
     Prot_token_hurry).

(** ** The down queue *)

Definition no_down_queue : down_queue := mkDownQueue 0 0 [].
(** [*Down_queue_ptr]. *)
Definition down (w : world) : down_queue :=
  aget no_down_queue (Protocol_down_queue (prt w)) (Down_queue_ptr (prt w)).
Definition set_down (q : down_queue) : M world unit :=
  prt_do (fun r => set_Protocol_down_queue
                     (aset (Protocol_down_queue r) (Down_queue_ptr r) q) r).

Definition NORMAL_DOWNQUEUE : Z := 0.
Definition GROUPS_DOWNQUEUE : Z := 1.
Definition Prot_set_down_queue (queue_type : Z) : M world unit :=
  if (queue_type =? NORMAL_DOWNQUEUE) || (queue_type =? GROUPS_DOWNQUEUE)
  then prt_do (set_Down_queue_ptr queue_type)
  else fail (Fatal "Prot_set_down_queue: Illegal queue_type").

Definition Prot_init_down_queues : M world unit :=
  prt_do (set_Protocol_down_queue [no_down_queue; no_down_queue]).

Definition Prot_new_message (link : down_link) : M world unit :=
  let* w := get in
  let q := down w in
  (if dq_num_mess q <? 0 then fail (Fatal "fast_spread_new_message: num_mess")
   else if 0 <? dq_num_mess q then
     set_down (mkDownQueue (dq_num_mess q + 1) (dq_cur_element q) (dq_links q ++ [link]))
   else set_down (mkDownQueue (dq_num_mess q + 1) (dq_cur_element q) [link])) ;;
  when (WATER_MARK <=? dq_num_mess q + 1) Sess_block_users_level ;;
  let* w := get in
  when ((dq_num_mess (down w) =? 1) && Is_token_hold w)
    (let* leader_id := or_fatal "Conf_leader: Empty configuration"
                         (Conf_leader (Memb_active_ptr w)) in
     if leader_id =? p_id (prot_My (prt w)) then
       Handle_hurry (ph_proc_id (Hurry_head (prt w)))
     else
       let* ' (_, h) := Net_ucast (s32 leader_id) (Hurry_head (prt w)) [] in
       prt_do (set_Hurry_head h)).

(** ** The send queue *)

(** Send one packet with the current token round; its header afterwards. *)
Definition bcast_pack (p : sys_pack) : M world packet_header :=
  let* w := get in
  let h := set_ph_token_round (Token_rounds (tok w)) (sp_head p) in
  let* ' (_, h) := Net_bcast h [mkElem (sp_buf p) (sp_len p)] in
  ret h.

(** What a send left in the header of a packet of the window: the entry of
    the packet, found by its sequence number, holds the same header. *)
Definition write_through (h : packet_header) : M world unit :=
  let* w := get in
  match Packets (win w) !! slot (ph_seq h) with
  | Some p =>
      when (ph_seq (pi_head p) =? ph_seq h) (put_pkt (slot (ph_seq h)) (set_pi_head h p))
  | None => ret tt
  end.

(** Send the first [n] packets of the queue. *)
Fixpoint send_queued (n : nat) : M world unit :=
  match n with
  | O => ret tt
  | S n =>
      let* w := get in
      let q := Send_pack_queue (tok w) in
      match pq_links q with
      | [] => fail (Undefined "pack_queue->first")
      | p :: rest =>
          tok_do (set_Send_pack_queue (mkPacketQueue (pq_num_packets q - 1) rest)) ;;
          let* h := bcast_pack p in
          write_through h ;;
          send_queued n
      end
  end.

(** How many packets must leave before a new one is queued. *)
Definition num_pack_to_send (w : world) : Z :=
  let num_packets := pq_num_packets (Send_pack_queue (tok w)) in
  if negb (FC_accelerated_ring w) || is_state (Memb_state w) EVS then num_packets
  else
    let n := num_packets - FC_accelerated_window w + 1 in
    let n := if n <? 0 then 0 else n in
    if num_packets <? n then num_packets else n.

(** The number of packets sent and the new packet's header afterwards. *)
Definition Prot_queue_bcast (p : sys_pack) : M world (Z * packet_header) :=
  let* w := get in
  let n := num_pack_to_send w in
  send_queued (Z.to_nat n) ;;
  let* w := get in
  if negb (FC_accelerated_ring w) || (FC_accelerated_window w =? 0) || is_state (Memb_state w) EVS then
    let* h := bcast_pack p in
    ret (n + 1, h)
  else
    let q := Send_pack_queue (tok w) in
    tok_do (set_Send_pack_queue
      (mkPacketQueue (pq_num_packets q + 1)
         ((if pq_num_packets q =? 0 then [] else pq_links q) ++ [p]))) ;;
    ret (n, sp_head p).

Definition Prot_flush_bcast : M world Z :=
  let* w := get in
  let n := pq_num_packets (Send_pack_queue (tok w)) in
  send_queued (Z.to_nat n) ;;
  ret n.

(** ** Packing *)

(** The packet being filled: its header, its body and where the header of
    its last fragment is ([None]: in the packet header). *)
Record filling : Type := mkFilling { fl_head : packet_header; fl_body : buf; fl_frag : option Z }.

Definition set_fragment_index (idx : Z) (f : filling) : filling :=
  match fl_frag f with
  | None => mkFilling (set_ph_fragment_index (s16 idx) (fl_head f)) (fl_body f) None
  | Some o => mkFilling (fl_head f) (put_bytes (fl_body f) o (enc16 idx)) (Some o)
  end.

Definition fifo_or_agreed (t : Z) : bool := truth (Is_fifo t) || truth (Is_agreed t).

(** May a fragment of a message of type [t] join a packet of type [pt]? *)
Definition types_compatible (pt t : Z) : bool :=
  (pt =? t) || (fifo_or_agreed pt && fifo_or_agreed t).

(** Advance the down queue past the fragment just added; its index. *)
Definition advance_down (mess : scatter) : M world Z :=
  let* w := get in
  let q := down w in
  let n := Z.of_nat (length mess) in
  let cur := dq_cur_element q + 1 in
  if cur <? n then
    set_down (mkDownQueue (dq_num_mess q) cur (dq_links q)) ;;
    ret cur
  else if cur =? n then
    set_down (mkDownQueue (dq_num_mess q - 1) 0 (tail (dq_links q))) ;;
    when (dq_num_mess q - 1 <? WATER_MARK) Sess_unblock_users_level ;;
    ret (- s16 n)
  else fail (Fatal "Send_new_packets: error in packet index").

Definition no_elem : scat_elem := mkElem [] 0.
(** [elements[i]] of a message. *)
Definition element (mess : scatter) (i : Z) : scat_elem := aget no_elem mess i.

(** Append the fragment [e] to the packet. *)
Definition add_fragment (e : scat_elem) (f : filling) : filling :=
  let h := fl_head f in
  let padding_bytes := padding_for (ph_data_len h) in
  let o := ph_data_len h + padding_bytes in
  let fragment_len := s16 (se_len e) in
  let body := put_bytes (fl_body f) (o + 2) (enc16 fragment_len) in
  let data_len := u16 (o + sizeof_fragment_header) in
  let body := put_bytes body data_len (get_bytes (se_buf e) 0 fragment_len) in
  mkFilling (set_ph_data_len (u16 (data_len + fragment_len)) h) body (Some o).

(** The [for(;;)] loop that fills a packet; [mess] is the message whose
    fragment was added last.  Every turn but the last adds a fragment
    header to a body of 1432 bytes, so 400 turns are enough. *)
Fixpoint fill_packet (fuel : nat) (mess : scatter) (f : filling) : M world filling :=
  match fuel with
  | O => fail (Diverges "Send_new_packets")
  | S fuel =>
      let* idx := advance_down mess in
      let f := set_fragment_index idx f in
      let* w := get in
      let q := down w in
      if dq_num_mess q =? 0 then ret f
      else
        match dq_links q with
        | [] => fail (Undefined "Down_queue_ptr->first")
        | link :: _ =>
            let h := fl_head f in
            let available_bytes :=
              sizeof_packet_body - ph_data_len h - padding_for (ph_data_len h)
              - sizeof_fragment_header in
            let e := element (dl_mess link) (dq_cur_element q) in
            if available_bytes <? s32 (se_len e) then ret f
            else if negb (types_compatible (ph_type h) (dl_type link)) then ret f
            else if s16 (se_len e) <? 0 then fail (Undefined "Send_new_packets: memcpy")
            else fill_packet fuel (dl_mess link) (add_fragment e f)
        end
  end.

Definition FILL_FUEL : nat := 400.

(** The header of a new packet that starts with the element [e]. *)
Definition new_header (w : world) (t : Z) (e : scat_elem) : packet_header :=
  mkPacketHeader t 0 (s32 (p_id (prot_My (prt w)))) (Memb_id w) (Highest_seq (win w) + 1) 0 0
    (u16 (se_len e)) 0 0 (s16 (se_len e)).

(** One turn of the [while] loop: build a packet, queue it, insert it. *)
Definition send_one_packet : M world ctl :=
  let* w := get in
  let q := down w in
  if dq_num_mess q =? 0 then ret Break
  else
    match dq_links q with
    | [] => fail (Undefined "Down_queue_ptr->first")
    | link :: _ =>
        let e := element (dl_mess link) (dq_cur_element q) in
        win_do (fun r => set_Highest_seq (Highest_seq r + 1) r) ;;
        win_do (fun r => set_Highest_fifo_seq (Highest_fifo_seq r + 1) r) ;;
        let* f := fill_packet FILL_FUEL (dl_mess link)
                    (mkFilling (new_header w (dl_type link) e) (se_buf e) None) in
        let* ' (_, h) := Prot_queue_bcast
                           (mkSysPack (fl_head f) (fl_body f) (ph_data_len (fl_head f))) in
        let* w := get in
        let pack_entry := slot (ph_seq h) in
        if negb (pi_exist (pkt w pack_entry) =? 0)
        then fail (Fatal "Send_new_packets: created packet already exist")
        else
          put_pkt pack_entry (mkPacketInfo h (fl_body f) 1 (My_index (prt w))) ;;
          ret Continue
    end.

Definition Send_new_packets (num_allowed : Z) : M world Z :=
  mfor "Send_new_packets" (Z.to_nat num_allowed) (fun num_sent _ => num_sent <? num_allowed)
    (fun _ => send_one_packet) 0.
End send.
