(* ===== verification/Retrans.v ===== *)
(** * Retransmission requests ([daemon/protocol.c])

    The body of a regular token is a sequence of [ring_rtr] blocks, each the
    identity of a ring, where its requests come from and the sequence numbers
    requested.  [Flip_token_body] changes its byte order, [Answer_retrans]
    sends what my ring asks for and compacts the other rings' blocks to the
    front, and the token handler appends my own requests. *)

From Stdlib Require Import ZArith Lia.
From stdpp Require Import base strings numbers option gmap list.
From S2P Require Import Prelude Wire Config Events State Network FlowControl MembSets MembCore.

(** [ring_rtr] ([net_types.h]). *)
Record ring_rtr : Type := mkRtr {
  rr_memb_id : membership_id;
  rr_proc_id : Z;    (* int32 *)
  rr_seg_index : Z;  (* int16 *)
  rr_num_seq : Z     (* int16 *)
}.
Definition dec_rtr (b : buf) (o : Z) : ring_rtr :=
  mkRtr (dec_memb_id b o) (get_s32 b (o + 8)) (get_s16 b (o + 12)) (get_s16 b (o + 14)).
Definition enc_rtr (r : ring_rtr) : list Z :=
  enc_memb_id (rr_memb_id r) ++ enc32 (rr_proc_id r) ++ enc16 (rr_seg_index r) ++ enc16 (rr_num_seq r).

(* --------------------------------------------------------------------- *)
(** ** Byte order *)

Definition flip_rtr_at (o : Z) (b : buf) : buf :=
  flip16_at (o + 14) (flip16_at (o + 12) (flip32_at (o + 8) (flip32_at (o + 4) (flip32_at o b)))).

Fixpoint flip_token_from (fuel : nat) (rtr_len ptr : Z) (b : buf) : res buf :=
  if ptr <? rtr_len then
    match fuel with
    | O => inl (Diverges "Flip_token_body")
    | S fuel =>
        if sizeof_token_body <? ptr + sizeof_ring_rtr then inl (Undefined "Flip_token_body")
        else
          let b := flip_rtr_at ptr b in
          let n := rr_num_seq (dec_rtr b ptr) in
          let ptr := ptr + sizeof_ring_rtr in
          let? b := flip32_array "Flip_token_body" sizeof_token_body ptr n b in
          flip_token_from fuel rtr_len (ptr + 4 * Z.max 0 n) b
    end
  else inr b.

(** Every turn advances by at least a header: [rtr_len] turns are enough. *)
Definition Flip_token_body (b : buf) (rtr_len : Z) : res buf :=
  flip_token_from (Z.to_nat rtr_len) rtr_len 0 b.

(* --------------------------------------------------------------------- *)
(** ** Answering *)

(** The locals of [Answer_retrans] and the token body it rewrites. *)
Record answer : Type := mkAnswer {
  an_num_retrans : Z; an_new_ptr : Z; an_proc_id : Z; an_seg_index : Z; an_rtr : buf
}.

Section answer.
Context `{Session}.

(** Retransmit the packet at [pack_entry] to whom the request names. *)
Definition retransmit (r : ring_rtr) (pack_entry : Z) : M world unit :=
  let* w := get in
  let p := pkt w pack_entry in
  let elems := [mkElem (pi_body p) (ph_data_len (pi_head p))] in
  let* h :=
    (if negb (rr_proc_id r =? -1) then
       let* ' (_, h) := Net_ucast (rr_proc_id r) (pi_head p) elems in
       stat_do (fun s => set_st_u_retrans (st_u_retrans s + 1) s) ;; ret h
     else if negb (rr_seg_index r =? -1) then
       let* ' (_, h) := Net_scast (rr_seg_index r) (pi_head p) elems in
       stat_do (fun s => set_st_s_retrans (st_s_retrans s + 1) s) ;; ret h
     else
       let* ' (_, h) := Net_bcast (pi_head p) elems in
       stat_do (fun s => set_st_b_retrans (st_b_retrans s + 1) s) ;; ret h) in
  put_pkt pack_entry (set_pi_head h p).

(** One requested sequence number of my ring. *)
Definition answer_one (r : ring_rtr) (req_seq : Z) (a : answer) : M world answer :=
  let* w := get in
  if req_seq <? Aru (win w) then fail (Fatal "Answer_retrans: retrans requested while Aru")
  else if negb (pi_exist (pkt w (slot req_seq)) =? 0) then
    retransmit r (slot req_seq) ;;
    ret (mkAnswer (an_num_retrans a + 1) (an_new_ptr a) (an_proc_id a) (an_seg_index a) (an_rtr a))
  else
    ret (mkAnswer (an_num_retrans a) (an_new_ptr a) (-1)
           (if rr_seg_index r =? p_seg_index (prot_My (prt w)) then an_seg_index a else -1)
           (an_rtr a)).

(** The [for] loop over the [n] requests from [old_ptr] on. *)
Fixpoint answer_requests (n : nat) (r : ring_rtr) (old_ptr : Z) (a : answer) : M world answer :=
  match n with
  | O => ret a
  | S n =>
      if sizeof_token_body <? old_ptr + sizeof_int32 then fail (Undefined "Answer_retrans")
      else
        let* a := answer_one r (get_s32 (an_rtr a) old_ptr) a in
        answer_requests n r (old_ptr + sizeof_int32) a
  end.

(** The [while] loop; foreign blocks move down to [new_ptr]. *)
Fixpoint answer_from (fuel : nat) (rtr_len old_ptr : Z) (a : answer) : M world answer :=
  if old_ptr <? rtr_len then
    match fuel with
    | O => fail (Diverges "Answer_retrans")
    | S fuel =>
        if (old_ptr <? 0) || (sizeof_token_body <? old_ptr + sizeof_ring_rtr)
        then fail (Undefined "Answer_retrans")
        else
          let r := dec_rtr (an_rtr a) old_ptr in
          let* w := get in
          if Memb_is_equal (rr_memb_id r) (Memb_id w) then
            let* a := answer_requests (Z.to_nat (rr_num_seq r)) r (old_ptr + sizeof_ring_rtr) a in
            answer_from fuel rtr_len
              (old_ptr + sizeof_ring_rtr + 4 * Z.max 0 (rr_num_seq r)) a
          else
            let bytes_to_copy := sizeof_ring_rtr + rr_num_seq r * sizeof_int32 in
            if negb (an_new_ptr a =? old_ptr)
               && ((bytes_to_copy <? 0) || (sizeof_token_body <? old_ptr + bytes_to_copy))
            then fail (Undefined "Answer_retrans: memmove")
            else
              let rtr :=
                if an_new_ptr a =? old_ptr then an_rtr a
                else put_bytes (an_rtr a) (an_new_ptr a) (get_bytes (an_rtr a) old_ptr bytes_to_copy) in
              answer_from fuel rtr_len (old_ptr + bytes_to_copy)
                (mkAnswer (an_num_retrans a) (an_new_ptr a + bytes_to_copy) (an_proc_id a)
                   (an_seg_index a) rtr)
    end
  else ret a.

Definition ANSWER_FUEL : nat := Z.to_nat (2 * 2 ^ 16).

(** The result holds the number of retransmissions, the length of what is
    left of the body and where my own requests should be answered. *)
Definition Answer_retrans : M world answer :=
  let* w := get in
  let my := prot_My (prt w) in
  let* a := answer_from ANSWER_FUEL (th_rtr_len (Token (tok w))) 0
              (mkAnswer 0 0 (s32 (p_id my)) (p_seg_index my) (New_token_buf (tok w))) in
  tok_do (set_New_token_buf (an_rtr a)) ;;
  ret a.
End answer.

(* --------------------------------------------------------------------- *)
(** ** My requests *)

(** The sequence numbers from [i] on, [n] of them looked at, that are missing
    from the window, at most [allowed] of them. *)
Fixpoint collect_requests (w : world) (n : nat) (i allowed : Z) : list Z :=
  match n with
  | O => []
  | S n =>
      if allowed <=? 0 then []
      else if missing w i then i :: collect_requests w n (i + 1) (allowed - 1)
      else collect_requests w n (i + 1) allowed
  end.

(** [( sizeof( token_body ) - new_ptr - sizeof( ring_rtr ) ) / sizeof( int32 )]
    in [size_t], stored in an [int]. *)
Definition retrans_allowed (new_ptr : Z) : Z :=
  s32 (u64 (sizeof_token_body - new_ptr - sizeof_ring_rtr) / sizeof_int32).

(** Append my block to the body at [new_ptr]; the new length of the body. *)
Definition prepare_requests (new_ptr proc_id seg_index max_rtr_seq : Z) : M world Z :=
  let* w := get in
  let allowed := retrans_allowed new_ptr in
  if (My_aru (win w) <? max_rtr_seq) && (1 <? allowed) then
    let reqs := collect_requests w (Z.to_nat (max_rtr_seq - My_aru (win w)))
                  (My_aru (win w) + 1) allowed in
    let block := enc_rtr (mkRtr (Memb_id w) proc_id seg_index (s16 (Z.of_nat (length reqs))))
                 ++ (reqs ≫= enc32) in
    tok_do (fun t => set_New_token_buf (put_bytes (New_token_buf t) new_ptr block) t) ;;
    ret (new_ptr + sizeof_ring_rtr + 4 * Z.of_nat (length reqs))
  else ret new_ptr.
