(* ===== verification/MembForm.v ===== *)
(** * The form tokens ([daemon/membership.c])

    Once a representative has gathered, a FORM1 token visits the members and
    collects what each knows of its old ring ([Create_form1], [Fill_form1]);
    the FORM2 token it becomes, which visits them in ring order and installs
    the future membership, is in [MembInstall].

    The tokens are handled in their wire form.  An access outside the arrays
    of the structures a token carries, or outside the token buffer, is
    [Undefined]; the handlers test no such bound on a FORM1 token.  The
    contents of [New_token] after the handler are dead: the next receive
    overwrites them. *)

From Stdlib Require Import ZArith Lia.
From stdpp Require Import base strings numbers option gmap list.
From S2P Require Import Prelude Wire Config Events State Network FlowControl MembSets MembCore Deliver.

Definition SEQ_JUMP : Z := 3333.

Section form.
Context `{Session}.

(** [Cn] and [My.id] as an [int32]. *)
Definition Cn (w : world) : configuration := cf_Config (cf w).
Definition my_id (w : world) : Z := p_id (memb_My (mem w)).
Definition my_id32 (w : world) : Z := s32 (my_id w).

(** ** What FORM1 and FORM2 share *)

Definition members_of (c : configuration) : list Z :=
  conf_segments c ≫= (fun s => (fun p => s32 (p_id p)) <$> seg_procs s).

(** Write [l] over the start of the array. *)
Definition overlay (l arr : list Z) : list Z := l ++ drop (length l) arr.

(** [id] is the process of one of [l], and not mine. *)
Definition other_rep (w : world) (l : list rep_info) (id : Z) : bool :=
  existsb (fun r => id =? rep_proc_id r) l && negb (u32 id =? my_id w).

(** The loop that makes the representatives of other segments potential. *)
Fixpoint potential_from (cfg : configuration) (my_seg : Z) (l : list rep_info) (acc : reps_info)
    : res reps_info :=
  match l with
  | [] => inr acc
  | r :: l =>
      if rep_seg_index r =? my_seg then potential_from cfg my_seg l acc
      else
        let? '(acc, _) := Insert_rep cfg acc (set_rep_type POTENTIAL_REP r) in
        potential_from cfg my_seg l acc
  end.
Definition update_potential (l : list rep_info) : M world unit :=
  let* w := get in
  let* r := lift (potential_from (Cn w) (p_seg_index (memb_My (mem w))) l
                    (set_num_reps 0 (Potential_reps (mem w)))) in
  mem_do (set_Potential_reps r).

(** The missing sequence numbers of [lo .. hi]. *)
Definition holes_between (w : world) (lo hi : Z) : list Z :=
  filter (fun i => missing w i = true) (seqZ lo (hi - lo + 1)).

(** Myself, then the rest of my commit set. *)
Definition commit_ids (w : world) : list Z :=
  my_id32 w :: filter (fun m => u32 m <> my_id w) (members_list (Commit_set (mem w))).

(** A ring's entry: header, holes, commit set (the transitional members
    first). *)
Definition enc_ring (r : ring_info) (holes procs : list Z) : list Z :=
  enc_ring_info r ++ (holes ≫= enc32) ++ (procs ≫= enc32).

(** The end of a FORM1 visit: wait for the FORM2 token. *)
Definition enter_form : M world unit :=
  let* w := get in
  E_queue Memb_token_loss_event 0 (Form_timeout (tmo w)) ;;
  E_dequeue Prot_token_hurry_event 0 ;;
  mem_do (set_Token_alive false) ;;
  Prot_set_delivery_threshold BLOCK_REGULAR_DELIVERY ;;
  mem_do (set_State FORM) ;;
  stat_do (set_st_state (memb_state_num FORM)).

(** Send a token twice to one process, as every form token is. *)
Definition ucast_token_twice (proc_id : Z) (h : token_header) (elems : scatter) : M world unit :=
  let* ' (_, h) := Net_ucast_token proc_id h elems in
  Net_ucast_token proc_id h elems ;;
  ret tt.

Definition elem (b : list Z) : scat_elem := mkElem b (Z.of_nat (length b)).
Definition with_rtr_len (elems : scatter) (h : token_header) : token_header :=
  set_th_rtr_len (u16 (elems_len elems)) h.

(** ** Create_form1 *)

(** The clock's seconds, moved past [Last_time_used]. *)
Definition next_time : M world Z :=
  let* now := read_clock in
  let* w := get in
  let t := s32 (sec now) in
  let t := if t <=? Last_time_used (mem w) then Last_time_used (mem w) + 1 else t in
  mem_do (set_Last_time_used t) ;;
  ret t.

(** The members the token starts with: the leader's ring or the segment's
    processes, without those that represent themselves; I am the first and
    the others are pending. *)
Definition create_members (w : world) : members_info :=
  let m := F_members (mem w) in
  let m :=
    if rep_type (rep (F_reps (mem w)) 0) =? RING_REP then
      let ids := members_of (Membership (mem w)) in
      mkMembersInfo (Z.of_nat (length ids)) (num_pending m) (overlay ids (members m))
    else m in
  let valid :=
    filter (fun id => other_rep w (reps_list (F_reps (mem w))) id = false) (members_list m) in
  mkMembersInfo 1 (Z.of_nat (length valid) - 1) (overlay valid (members m)).

(** My ring's entry on the token I create. *)
Definition create_rings (w : world) : list Z :=
  let holes := holes_between w (My_aru (win w) + 1) (Highest_seq (win w)) in
  let procs := commit_ids w in
  enc32 1 ++
  enc_ring (mkRingInfo (Membership_id (mem w)) 0 (Aru (win w)) (Highest_seq (win w))
              (Z.of_nat (length holes)) (Z.of_nat (length procs)) 1) holes procs.

(** Whom the token goes to first. *)
Definition create_send (h : token_header) (rg_info_buf : list Z) : M world unit :=
  let* w := get in
  let m := F_members (mem w) in
  let r := F_reps (mem w) in
  let elems := [elem (enc_members m); elem (enc_reps r); elem rg_info_buf] in
  if 0 <? num_pending m then
    ucast_token_twice (member m (num_members m)) (with_rtr_len elems h) elems
  else if rep_index r <? num_reps r then
    ucast_token_twice (rep_proc_id (rep r (rep_index r))) (with_rtr_len elems h) elems
  else
    let m := set_num_members 0 (set_num_pending 1 m) in
    mem_do (set_F_members m) ;;
    let elems := [elem (enc_members m); elem (take (Z.to_nat sizeof_membership_id) (enc_reps r));
                  elem rg_info_buf] in
    ucast_token_twice (my_id32 w) (with_rtr_len elems (set_th_type FORM2_TYPE h)) elems.

Definition Create_form1 : M world unit :=
  let* w := get in
  let* t := next_time in
  let id := mkMembId (my_id32 w) t in
  let h := mkTokenHeader FORM1_TYPE 0 (my_id32 w) id (Highest_seq (win w) + SEQ_JUMP) 0 0 0 0 0 in
  mem_do (set_Form1_memb_id id) ;;
  mem_do (fun m => set_F_members (create_members w) m) ;;
  let* r := lift (Sort_reps (Cn w) (F_reps (mem w))) in
  mem_do (set_F_reps (set_rep_index 1 r)) ;;
  update_potential (reps_list r) ;;
  let* w := get in
  let rg_info_buf := create_rings w in
  (if sizeof_token_body <? Z.of_nat (length rg_info_buf)
   then fail (Fatal "Create_form1: token too big") else ret tt) ;;
  create_send h rg_info_buf ;;
  E_dequeue Send_join_event 0 ;;
  enter_form.

(** ** Fill_form1 *)

(** The offsets of the parts of a FORM1 body. *)
Definition form1_reps : Z := sizeof_members_info.
Definition form1_rings : Z := sizeof_members_info + sizeof_reps_info.

Definition flip_form1 (type : Z) (b : buf) : res buf :=
  if Same_endian type then inr b
  else
    let? b := Flip_members sizeof_token_body 0 b in
    let? b := Flip_reps sizeof_token_body form1_reps b in
    Flip_rings sizeof_token_body form1_rings b.

Definition member_ok (i : Z) : bool := (0 <=? i) && (i <? MAX_PROCS_RING).
Definition rep_ok (i : Z) : bool := (0 <=? i) && (i <? MAX_REPS).

(** Put [ids] in the token's members from [num_members] on: the first of
    them is done, the others are pending. *)
Definition fill_ids (ids : list Z) (m : members_info) : res members_info :=
  let n := Z.of_nat (length ids) in
  if (num_members m <? 0) || (MAX_PROCS_RING <? num_members m + n)
  then inl (Undefined "Fill_form1: members[i]")
  else
    let k := Z.to_nat (num_members m) in
    inr (mkMembersInfo (num_members m + 1) (n - 1)
           (take k (members m) ++ ids ++ drop (k + length ids) (members m))).

(** Members of mine that are neither on the token nor representatives. *)
Definition valid_members (w : world) (m : members_info) (r : reps_info) : list Z :=
  filter (fun id => existsb (Z.eqb id) (members_list m)
                    || other_rep w (reps_list r) id
                    || other_rep w (reps_list (F_reps (mem w))) id = false)
    (members_list (F_members (mem w))).

(** The update of members and representatives in the state OP or
    REPRESENTED, and in GATHER; [None] drops the token. *)
Definition fill_as_member (m : members_info) (r : reps_info)
    : M world (option (members_info * reps_info)) :=
  let* w := get in
  if negb (member_ok (num_members m)) then fail (Undefined "Fill_form1: members[num_members]")
  else if negb (u32 (member m (num_members m)) =? my_id w) || (num_pending m <=? 0) then ret None
  else ret (Some (set_num_pending (num_pending m - 1) (set_num_members (num_members m + 1) m), r)).

Definition fill_as_rep (m : members_info) (r : reps_info)
    : M world (option (members_info * reps_info)) :=
  let* w := get in
  if negb (rep_ok (rep_index r)) then fail (Undefined "Fill_form1: reps[rep_index]")
  else
    let me := rep r (rep_index r) in
    if negb (u32 (rep_proc_id me) =? my_id w)
       || (Token_alive (mem w) && (rep_type me =? SEG_REP))
       || (negb (Token_alive (mem w)) && (rep_type me =? RING_REP))
       || negb (num_pending m =? 0) then ret None
    else if (MAX_PROCS_RING <? num_members m) || (MAX_REPS <? num_reps r)
    then fail (Undefined "Fill_form1: array bounds")
    else
      let valid := valid_members w m r in
      mem_do (fun v => set_F_members
        (mkMembersInfo (Z.of_nat (length valid)) (num_pending (F_members v))
           (overlay valid (members (F_members v)))) v) ;;
      let* ids :=
        (if rep_type me =? SEG_REP then ret valid
         else if rep_type me =? RING_REP then ret (members_of (Membership (mem w)))
         else fail (Fatal "Fill_form1: invalid rep type")) in
      let* m := lift (fill_ids ids m) in
      ret (Some (m, set_rep_index (rep_index r + 1) r)).

Definition fill_members (m : members_info) (r : reps_info)
    : M world (option (members_info * reps_info)) :=
  let* w := get in
  match State (mem w) with
  | OP | REPRESENTED => fill_as_member m r
  | GATHER => fill_as_rep m r
  | _ => fail (Fatal "Fill_form1: invalid State")
  end.

(** The rings on the token: those of others are copied, mine is kept aside
    with the offset of its holes.  [out] holds the copied entries. *)
Fixpoint scan_rings (w : world) (n : nat) (b : buf) (ptr : Z) (mine : option (ring_info * Z))
    (count : Z) (out : list Z) : res (option (ring_info * Z) * Z * list Z) :=
  match n with
  | O => inr (mine, count, out)
  | S n =>
      if (ptr <? 0) || (sizeof_token_body <? ptr + sizeof_ring_info)
      then inl (Undefined "Fill_form1: old_rg_info")
      else
        let r := dec_ring_info b ptr in
        let bytes := s32 (sizeof_ring_info + (ri_num_holes r + ri_num_commit r) * sizeof_int32) in
        if Memb_is_equal (ri_memb_id r) (Membership_id (mem w)) then
          scan_rings w n b (ptr + bytes) (Some (r, ptr + sizeof_ring_info)) count out
        else if sizeof_token_body <? sizeof_int32 + Z.of_nat (length out) + bytes
        then inl (Fatal "Fill_form1: token too big")
        else if (bytes <? 0) || (sizeof_token_body <? ptr + bytes)
        then inl (Undefined "Fill_form1: memmove")
        else scan_rings w n b (ptr + bytes) mine (count + 1) (out ++ get_bytes b ptr bytes)
  end.

(** [n] int32s from offset [o]. *)
Definition read_ids (site : string) (b : buf) (o n : Z) : res (list Z) :=
  if (0 <? n) && (sizeof_token_body <? o + 4 * n) then inl (Undefined site)
  else inr ((fun i => get_s32 b (o + 4 * i)) <$> seqZ 0 n).

Definition insert_all (m : members_info) (l : list Z) : members_info :=
  fold_left (fun m id => (Insert_member m id).1) l m.

(** The entry of my ring when the token has none. *)
Definition first_ring_entry (w : world) : list Z :=
  let holes := holes_between w (Last_discarded (win w) + 1) (Highest_seq (win w)) in
  let procs := commit_ids w in
  enc_ring (mkRingInfo (Membership_id (mem w)) 0 (Aru (win w)) (Highest_seq (win w))
              (Z.of_nat (length holes)) (Z.of_nat (length procs)) 1) holes procs.

(** The entry of my ring from the one on the token: the greatest [aru] and
    [highest_seq], the holes nobody so far fills, me added to the
    transitional members and my commit set added to the others. *)
Definition merged_ring_entry (w : world) (b : buf) (r : ring_info) (o : Z) : res (list Z) :=
  let? token_holes := read_ids "Fill_form1: holes" b o (ri_num_holes r) in
  let holes := filter (fun i => missing w i = true) token_holes
               ++ holes_between w (ri_highest_seq r + 1) (Highest_seq (win w)) in
  let o := o + 4 * Z.max 0 (ri_num_holes r) in
  let? trans := read_ids "Fill_form1: trans" b o (ri_num_trans r) in
  let o := o + 4 * Z.max 0 (ri_num_trans r) in
  let? commit := read_ids "Fill_form1: commit" b o (ri_num_commit r - ri_num_trans r) in
  let set := insert_all no_members (trans ++ [my_id32 w]) in
  if negb (num_members set =? ri_num_trans r + 1) then inl (Fatal "Fill_form1: incorrect trans set")
  else
    let set := insert_all set (commit ++ members_list (Commit_set (mem w))) in
    let procs := members_list set in
    inr (enc_ring
           (mkRingInfo (Membership_id (mem w)) 0 (Z.max (ri_aru r) (Aru (win w)))
              (Z.max (ri_highest_seq r) (Highest_seq (win w)))
              (Z.of_nat (length holes)) (num_members set) (ri_num_trans r + 1))
           holes procs).

(** Remove myself from the members done. *)
Definition remove_self (w : world) (m : members_info) : res members_info :=
  match list_find (fun id => u32 id = my_id w) (members_list m) with
  | Some (i, _) =>
      let last := num_members m + num_pending m in
      if (last - Z.of_nat i - 1 <? 0) || (MAX_PROCS_RING <? last)
      then inl (Undefined "Fill_form1: memmove")
      else
        let last := Z.to_nat last in
        inr (mkMembersInfo (num_members m - 1) (num_pending m)
               (take i (members m) ++ take (last - i - 1) (drop (S i) (members m))
                ++ drop (last - 1) (members m)))
  | None => inr (set_num_members (num_members m - 1) m)
  end.

(** The members and the rings part of the token I pass on. *)
Definition fill_rings (w : world) (b : buf) (m : members_info) : res (members_info * list Z) :=
  let? '(mine, count, out) :=
    scan_rings w (Z.to_nat (get_s32 b form1_rings)) b (form1_rings + sizeof_int32) None 0 [] in
  let count := count + 1 in
  if sizeof_token_body <? sizeof_int32 + Z.of_nat (length out) + sizeof_ring_info
  then inl (Fatal "Fill_form1: token too big")
  else
    let? '(m, count, entry) :=
      match mine with
      | None =>
          if MAX_FORM_REPS <? count then let? m := remove_self w m in inr (m, count - 1, [])
          else inr (m, count, first_ring_entry w)
      | Some (r, o) =>
          let? e := merged_ring_entry w b r o in inr (m, count, e)
      end in
    let rings := enc32 count ++ out ++ entry in
    if sizeof_token_body <? Z.of_nat (length rings) then inl (Fatal "Fill_form1: token too big")
    else inr (m, rings).

(** Pass the token to the next member, to the next representative, or, as
    a FORM2 token, to the first member of the ring. *)
Definition fill_send (h : token_header) (m : members_info) (r : reps_info) (rings : list Z)
    : M world unit :=
  let* w := get in
  let elems := [elem (enc_members m); elem (enc_reps r); elem rings] in
  if 0 <? num_pending m then
    if negb (member_ok (num_members m)) then fail (Undefined "Fill_form1: members[num_members]")
    else ucast_token_twice (member m (num_members m)) (with_rtr_len elems h) elems
  else if rep_index r <? num_reps r then
    if negb (rep_ok (rep_index r)) then fail (Undefined "Fill_form1: reps[rep_index]")
    else ucast_token_twice (rep_proc_id (rep r (rep_index r))) (with_rtr_len elems h) elems
  else
    if MAX_PROCS_RING <? num_members m then fail (Undefined "Sort_members")
    else
      let* m := lift (Sort_members (Cn w) m) in
      let m := set_num_members 0 (set_num_pending (num_members m) m) in
      let elems := [elem (enc_members m); elem (take (Z.to_nat sizeof_membership_id) (enc_reps r));
                    elem rings] in
      ucast_token_twice (member m 0) (with_rtr_len elems (set_th_type FORM2_TYPE h)) elems.

Definition Fill_form1 (h : token_header) (b : buf) : M world unit :=
  let* w := get in
  let* b := lift (flip_form1 (th_type h) b) in
  let h := set_th_proc_id (my_id32 w) h in
  let h := if th_seq h <? Highest_seq (win w) + SEQ_JUMP
           then set_th_seq (Highest_seq (win w) + SEQ_JUMP) h else h in
  let* o := fill_members (dec_members b 0) (dec_reps b form1_reps) in
  match o with
  | None => ret tt
  | Some (m, r) =>
      mem_do (set_Form1_memb_id (th_memb_id h)) ;;
      (if MAX_REPS <? num_reps r then fail (Undefined "Fill_form1: reps[i]") else ret tt) ;;
      update_potential (reps_list r) ;;
      let* w := get in
      let* ' (m, rings) := lift (fill_rings w b m) in
      fill_send h m r rings ;;
      E_dequeue Send_join_event 0 ;;
      E_dequeue Form_or_fail_event 0 ;;
      E_dequeue Shift_to_seg_event 0 ;;
      enter_form
  end.
End form.
