(* ===== verification/MembInstall.v ===== *)
(** * Installing a membership ([daemon/membership.c])

    [Read_form2], which turns the FORM2 token into the future membership and
    enters EVS, and [Backoff_membership], which undoes it. *)

From Stdlib Require Import ZArith Lia.
From stdpp Require Import base strings numbers option gmap list.
From S2P Require Import Prelude Wire Config Events State Network FlowControl MembSets MembCore Deliver MembForm.

Section install.
Context `{Session}.

(** ** Backoff_membership *)

(** The holes agreed on are holes again. *)
Definition clear_dummies (lo hi : Z) : M world unit :=
  mforeach (fun i =>
      let* w := get in
      when (pi_exist (pkt w (slot i)) =? 3) (set_exist (slot i) 0))
    (seqZ lo (hi - lo + 1)).

(** The last of the packets that follow [aru] without a gap, among the next
    [n]: the loops that advance [My_aru]. *)
Fixpoint advance_aru (w : world) (n : nat) (aru : Z) : Z :=
  match n with
  | O => aru
  | S n => if missing w (aru + 1) then aru else advance_aru w n (aru + 1)
  end.

Definition Backoff_membership : M world unit :=
  let* w := get in
  clear_dummies (Last_discarded (win w) + 1) (Highest_seq (win w)) ;;
  win_do (fun r => set_Aru (Last_discarded r) r) ;;
  let* w := get in
  win_do (fun r => set_My_aru
    (advance_aru w (Z.to_nat (Highest_seq r - Last_discarded r)) (Last_discarded r)) r).

(** ** Reading the FORM2 token *)

(** The offsets of the parts of a FORM2 body. *)
Definition form2_id : Z := sizeof_members_info.
Definition form2_rings : Z := sizeof_members_info + sizeof_membership_id.

Definition flip_form2 (type : Z) (b : buf) : res buf :=
  if Same_endian type then inr b
  else
    let? b := Flip_members sizeof_token_body 0 b in
    let b := flip32_at (form2_id + 4) (flip32_at form2_id b) in
    Flip_rings sizeof_token_body form2_rings b.

Definition ring_ok (r : ring_info) : bool :=
  negb ((ri_num_trans r <? 1) || (ri_num_commit r <? ri_num_trans r)
        || (MAX_PROCS_RING <? ri_num_commit r)
        || (ri_num_holes r <? 0) || (MAX_SEQ_GAP <? ri_num_holes r)).

(** My ring's entry with its offset, and the length of the token; [None]
    drops a malformed token. *)
Fixpoint find_my_ring (w : world) (n : nat) (b : buf) (tot_len ptr : Z)
    (mine : option (ring_info * Z)) : res (option (ring_info * Z * Z)) :=
  match n with
  | O => inr (match mine with Some (r, o) => Some (r, o, ptr) | None => None end)
  | S n =>
      if sizeof_token_body <? ptr + sizeof_ring_info then inl (Undefined "Read_form2: rg_info")
      else
        let r := dec_ring_info b ptr in
        if negb (ring_ok r) then inr None
        else
          let bytes := sizeof_ring_info + (ri_num_holes r + ri_num_commit r) * sizeof_int32 in
          let mine :=
            if Memb_is_equal (ri_memb_id r) (Membership_id (mem w)) then Some (r, ptr) else mine in
          if tot_len <? ptr + bytes then inr None
          else find_my_ring w n b tot_len (ptr + bytes) mine
  end.

Definition form2_valid (w : world) (h : token_header) (m : members_info) : bool :=
  Memb_is_equal (th_memb_id h) (Form1_memb_id (mem w))
  && negb ((num_members m <? 0) || (num_pending m <=? 0)
           || (MAX_PROCS_RING <=? num_members m + num_pending m)
           || negb (u32 (member m (num_members m)) =? my_id w)).

(** ** The future membership *)

Fixpoint append_members (cfg : configuration) (ids : list Z) (c : configuration)
    : res configuration :=
  match ids with
  | [] => inr c
  | id :: ids =>
      let? p := or_err (Fatal "Read_form2: no such id") (Conf_proc_by_id cfg id) in
      let? s := or_err (Fatal "Read_form2: BUG2 no such id")
                  (Conf_append_id_to_seg cfg (conf_segment c (p_seg_index p)) (p_id p)) in
      append_members cfg ids (conf_set_segment c (p_seg_index p) s)
  end.
Definition build_membership (cfg : configuration) (ids : list Z) : res configuration :=
  append_members cfg ids (conf_clear cfg).

(** The time of the transitional membership (0: not chosen here) and the
    identity of the future one, chosen by the first process of the ring. *)
Definition choose_ids (m : members_info) (token_id : membership_id) : M world (Z * membership_id) :=
  if num_members m =? 1 then
    let* memb_time := next_time in
    mem_do (fun v => set_Last_time_used (Last_time_used v + 1) v) ;;
    let* w := get in
    ret (memb_time, mkMembId (my_id32 w) (Last_time_used (mem w)))
  else ret (0, token_id).

Definition set_future (m : members_info) (id : membership_id) : M world unit :=
  let* w := get in
  mem_do (set_Future_membership_id id) ;;
  let* c := lift (build_membership (Cn w)
                    (take (Z.to_nat (num_members m + num_pending m)) (members m))) in
  mem_do (set_Future_membership c) ;;
  Net_set_membership c ;;
  Prot_set_prev_proc c ;;
  FC_new_configuration.

(** ** Agreeing on the old ring *)

(** The checks on a packet that is about to be forgotten.  The last one
    looks the sender up with [Conf_proc_by_id_in_conf], which searches all
    the processes of the configuration and not only the members. *)
Definition forget_checks (w : world) (seq : Z) : res unit :=
  let p := pkt w (slot seq) in
  let? _ := assert_that (Fatal "Read_form2: exist != 1") (pi_exist p =? 1) in
  let? _ := assert_that (Fatal "Read_form2: memb_id is wrong")
              (Memb_is_equal (ph_memb_id (pi_head p)) (Membership_id (mem w))) in
  let? _ := assert_that (Fatal "Read_form2: seq is wrong") (ph_seq (pi_head p) =? seq) in
  assert_that (Fatal "Read_form2: sender is on the token")
    ((Conf_proc_by_id_in_conf (Future_membership (mem w)) (u32 (ph_proc_id (pi_head p)))).1 =? -1).

(** Packets above the token's [highest_seq] are forgotten. *)
Fixpoint forget_above (n : nat) : M world unit :=
  match n with
  | O => ret tt
  | S n =>
      let* w := get in
      let seq := Highest_seq (win w) in
      (if missing w seq then ret tt
       else lift (forget_checks w seq) ;; set_exist (slot seq) 0) ;;
      win_do (fun r => set_Highest_seq (Highest_seq r - 1) r) ;;
      forget_above n
  end.

(** The window is cut to what the token says of my old ring. *)
Definition cut_window (r : ring_info) : M world unit :=
  let* w := get in
  forget_above (Z.to_nat (Highest_seq (win w) - ri_highest_seq r)) ;;
  win_do (fun v => if ri_highest_seq r <? My_aru v then set_My_aru (ri_highest_seq r) v else v) ;;
  win_do (set_Highest_seq (ri_highest_seq r)) ;;
  win_do (set_Aru (ri_aru r)) ;;
  Discard_packets.

(** The agreed holes become dummy packets. *)
Definition make_hole (seq : Z) : M world unit :=
  let* w := get in
  (if missing w seq then ret tt else lift (forget_checks w seq)) ;;
  set_exist (slot seq) 3.

(** The two ways [Read_form2] recomputes [My_aru]. *)
Fixpoint recompute_aru (w : world) (l : list Z) (my_aru my_aru2 : Z) : res (Z * Z) :=
  match l with
  | [] => inr (my_aru, my_aru2)
  | i :: l =>
      let e := pi_exist (pkt w (slot i)) in
      if (e =? 1) || (e =? 2) then
        recompute_aru w l (if i =? my_aru + 1 then i else my_aru) my_aru2
      else if (e =? 0) || (e =? 3) then
        recompute_aru w l my_aru (if i <=? my_aru2 then i - 1 else my_aru2)
      else inl (Fatal "Read_form2: Unexpected .exist")
  end.

Definition reset_my_aru : M world unit :=
  let* w := get in
  let v := win w in
  let* ' (a1, a2) := lift (recompute_aru w
    (seqZ (Last_discarded v + 1) (Highest_seq v - Last_discarded v)) (Last_discarded v) (My_aru v)) in
  if negb (a1 =? a2) then fail (Fatal "Read_form2: unexpected My_aru")
  else win_do (set_My_aru a1).

(** The commit set of the installation. *)
Definition set_future_commit (r : ring_info) (procs : list Z) : M world unit :=
  mem_do (fun v => set_Future_commit_set
    (mkMembersInfo (ri_num_commit r) (ri_num_trans r)
       (overlay procs (members (Future_commit_set v)))) v).

(** The time of my transitional membership: on the token, or mine to
    choose. *)
Definition choose_trans_time (r : ring_info) (memb_time : Z) : M world Z :=
  if negb (ri_trans_time r =? 0) then ret (ri_trans_time r)
  else if negb (memb_time =? 0) then ret memb_time
  else next_time.

(** ** Passing it on *)

Definition send_token_twice (h : token_header) (elems : scatter) : M world unit :=
  let* ' (_, h) := Net_send_token h elems in
  Net_send_token h elems ;;
  ret tt.

(** The first regular token of the ring. *)
Definition first_token (id : membership_id) (h : token_header) : token_header :=
  mkTokenHeader 0 (th_transmiter_id h) (th_proc_id h) id 0 INT32_MAX (-1) 0 0 (th_conf_hash h).

Definition pass_form2 (h : token_header) (b : buf) (num_bytes : Z) : M world unit :=
  let* w := get in
  let* l := or_fatal "Conf_last" (Conf_last (Future_membership (mem w))) in
  if negb (l =? my_id w) then
    send_token_twice h [mkElem (get_bytes b 0 num_bytes) num_bytes] ;;
    tok_do (set_Token_rounds 0)
  else
    send_token_twice (first_token (Future_membership_id (mem w)) h) [] ;;
    tok_do (set_Token_rounds 1).

Definition clear_last_token (t : tok_state) : tok_state :=
  set_Last_token (set_th_type 0 (set_th_seq 0 (set_th_aru 0 (Last_token t)))) t.

Definition enter_evs : M world unit :=
  mem_do (set_Token_alive true) ;;
  let* w := get in
  E_queue Memb_token_loss_event 0 (Token_timeout (tmo w)) ;;
  tok_do (set_Received_token_rounds 0) ;;
  tok_do clear_last_token ;;
  win_do (set_Aru 0) ;;
  mem_do (set_State EVS) ;;
  stat_do (set_st_state (memb_state_num EVS)).

(** What [Read_form2] does with a valid token: [m] are its members, [r] my
    ring's entry at offset [o], [num_bytes] its length. *)
Definition install_form2 (h : token_header) (b : buf) (m : members_info) (r : ring_info)
    (o num_bytes : Z) : M world unit :=
  let* w := get in
  let h := set_th_proc_id (my_id32 w) h in
  let m := set_num_members (num_members m + 1) (set_num_pending (num_pending m - 1) m) in
  win_do (set_Last_seq (th_seq h)) ;;
  let* ' (memb_time, id) := choose_ids m (dec_memb_id b form2_id) in
  set_future m id ;;
  cut_window r ;;
  let* holes := lift (read_ids "Read_form2: holes" b (o + sizeof_ring_info) (ri_num_holes r)) in
  mforeach make_hole holes ;;
  reset_my_aru ;;
  let* procs := lift (read_ids "Read_form2: commit" b
                        (o + sizeof_ring_info + 4 * ri_num_holes r) (ri_num_commit r)) in
  set_future_commit r procs ;;
  let* t := choose_trans_time r memb_time in
  mem_do (set_F_trans_memb_time t) ;;
  let b := put_bytes b 0 (enc16 (num_members m) ++ enc16 (num_pending m)) in
  let b := put_bytes b form2_id (enc_memb_id id) in
  let b := put_bytes b (o + 8) (enc32 t) in
  pass_form2 h b num_bytes ;;
  enter_evs.

Definition Read_form2 (h : token_header) (b : buf) : M world unit :=
  let* w := get in
  let tot_len := New_token_len (tok w) in
  if tot_len <? form2_rings + sizeof_int32 then ret tt
  else
    let* b := lift (flip_form2 (th_type h) b) in
    let m := dec_members b 0 in
    if negb (form2_valid w h m) then ret tt
    else
      let* o := lift (find_my_ring w (Z.to_nat (get_s32 b form2_rings)) b tot_len
                        (form2_rings + sizeof_int32) None) in
      match o with
      | None => ret tt
      | Some (r, o, num_bytes) => install_form2 h b m r o num_bytes
      end.
End install.
