(* ===== verification/Membership.v ===== *)
(** * The membership algorithm ([daemon/membership.c])

    The state machine OP, SEG, REPRESENTED, GATHER, FORM, EVS: the handlers
    of its messages and tokens, the loss of the token, the shifts between
    states and the timed events. *)

From Stdlib Require Import ZArith Lia.
From stdpp Require Import base strings numbers option gmap list.
From S2P Require Import Prelude Wire Config Events State Network FlowControl MembSets MembCore Deliver.
From S2P Require Import MembForm MembInstall.

Section membership.
Context `{Session}.

(** ** Shifts *)

Definition singleton_members (w : world) (m : members_info) : members_info :=
  set_num_pending 0 (set_member 0 (my_id32 w) (set_num_members 1 m)).

Definition set_state (s : memb_state) : M world unit :=
  mem_do (set_State s) ;; stat_do (set_st_state (memb_state_num s)).

Definition Shift_to_seg : M world unit :=
  set_state SEG ;;
  let* w := get in
  mem_do (fun v => set_F_members (singleton_members w (F_members v)) v) ;;
  E_queue Scast_alive_event 0 Zero_timeout ;;
  E_queue Gather_or_represented_event 0 (Seg_timeout (tmo w)).

Definition Shift_to_gather : M world unit :=
  set_state GATHER ;;
  let* w := get in
  let me := mkRep (my_id32 w) (if Token_alive (mem w) then RING_REP else SEG_REP)
              (p_seg_index (memb_My (mem w))) in
  mem_do (fun v => set_F_reps (set_num_reps 1 (set_rep 0 me (F_reps v))) v) ;;
  E_dequeue Scast_alive_event 0 ;;
  E_dequeue Memb_lookup_new_members_event 0 ;;
  E_queue Send_join_event 0 Zero_timeout ;;
  E_queue Form_or_fail_event 0 (Gather_timeout (tmo w)).

Definition Shift_to_represented : M world unit :=
  set_state REPRESENTED ;;
  let* w := get in
  E_dequeue Scast_alive_event 0 ;;
  E_dequeue Gather_or_represented_event 0 ;;
  E_queue Shift_to_seg_event 0 (Rep_timeout (tmo w)).

Definition Gather_or_represented : M world unit :=
  mem_do (set_My_seg_rep (-1)) ;;
  let* w := get in
  let* ' (id, _) := lift (Smallest_member (Cn w) (F_members (mem w))) in
  if u32 id =? my_id w then Shift_to_gather else Shift_to_represented.

(** ** Loss of the token *)

(** One representative per segment of [c] other than mine: its first
    process in [c], or in the configuration when [c] has none there. *)
Fixpoint segment_reps (cfg c : configuration) (my_seg rtype : Z) (l : list Z) (acc : reps_info)
    : res reps_info :=
  match l with
  | [] => inr acc
  | i :: l =>
      if i =? my_seg then segment_reps cfg c my_seg rtype l acc
      else
        let? id :=
          (match seg_procs (conf_segment c i) with
           | p :: _ => inr (p_id p)
           | [] => or_err (Fatal "Conf_seg_leader") (Conf_seg_leader cfg i)
           end) in
        let? '(acc, _) := Insert_rep cfg acc (mkRep (s32 id) rtype i) in
        segment_reps cfg c my_seg rtype l acc
  end.

Fixpoint insert_reps (cfg : configuration) (l : list rep_info) (acc : reps_info) : res reps_info :=
  match l with
  | [] => inr acc
  | r :: l => let? '(acc, _) := Insert_rep cfg acc r in insert_reps cfg l acc
  end.

(** [Potential_reps] from the segments of [c]; [rtype] is the type
    [temp_rep] has when the loop starts. *)
Definition loss_reps (w : world) (c : configuration) (rtype : Z) (acc : reps_info) : res reps_info :=
  segment_reps (Cn w) c (p_seg_index (memb_My (mem w))) rtype
    (seqZ 0 (Conf_num_segments (Cn w))) acc.

(** In GATHER [temp_rep] is overwritten with each representative I
    gathered, its type included. *)
Definition last_type (l : list rep_info) : Z :=
  match last l with Some r => rep_type r | None => POTENTIAL_REP end.

Definition loss_update_potential : M world unit :=
  let* w := get in
  let none := set_num_reps 0 (Potential_reps (mem w)) in
  match State (mem w) with
  | OP =>
      let* r := lift (loss_reps w (Membership (mem w)) POTENTIAL_REP none) in
      mem_do (set_Potential_reps r)
  | SEG | REPRESENTED => fail (Fatal "Memb_token_loss: bug !!!")
  | GATHER =>
      if negb (Token_alive (mem w)) then fail (Fatal "Memb_token_loss: bug !!! but !Token_alive")
      else
        let gathered := tail (reps_list (F_reps (mem w))) in
        let* r := lift (insert_reps (Cn w) gathered none) in
        let* r := lift (loss_reps w (Membership (mem w)) (last_type gathered) r) in
        mem_do (set_Potential_reps r)
  | FORM => ret tt
  | EVS =>
      Backoff_membership ;;
      let* r := lift (loss_reps w (Future_membership (mem w)) POTENTIAL_REP none) in
      mem_do (set_Potential_reps r)
  end.

(** [segments[i].num_procs = 0] for the first [n] segments. *)
Definition conf_clear_first (n : Z) (c : configuration) : configuration :=
  mkConfiguration (conf_hash_code c) (conf_allprocs c)
    ((seg_clear <$> take (Z.to_nat n) (conf_segments c)) ++ drop (Z.to_nat n) (conf_segments c)).

(** The membership of me alone. *)
Definition alone (w : world) (c : configuration) : configuration :=
  let c := conf_clear_first (Conf_num_segments (Cn w)) c in
  let my_seg := p_seg_index (memb_My (mem w)) in
  match Conf_append_id_to_seg (Cn w) (conf_segment c my_seg) (my_id w) with
  | Some s => conf_set_segment c my_seg s
  | None => c
  end.

Definition Memb_token_loss : M world unit :=
  loss_update_potential ;;
  mem_do (set_Token_alive false) ;;
  Prot_set_delivery_threshold BLOCK_REGULAR_DELIVERY ;;
  mem_do (set_Memb_Just_Installed false) ;;
  E_dequeue Memb_token_loss_event 0 ;;
  E_dequeue Send_join_event 0 ;;
  E_dequeue Form_or_fail_event 0 ;;
  E_dequeue Prot_token_hurry_event 0 ;;
  E_dequeue Memb_lookup_new_members_event 0 ;;
  tok_do clear_last_token ;;
  let* w := get in
  mem_do (fun v => set_Membership (alone w (Membership v)) v) ;;
  Shift_to_seg.

(** ** Sending *)

Definition part (b : list Z) (n : Z) : scat_elem := mkElem (take (Z.to_nat n) b) n.
Definition members_len (m : members_info) : Z := 2 * sizeof_int16 + num_members m * sizeof_int32.
Definition reps_len (r : reps_info) : Z := 2 * sizeof_int16 + num_reps r * sizeof_rep_info.
Definition join_elems (w : world) : scatter :=
  [part (enc_members (F_members (mem w))) (members_len (F_members (mem w)));
   part (enc_reps (F_reps (mem w))) (reps_len (F_reps (mem w)))].

(** Send [Send_pack]; the header it leaves is the next one's. *)
Definition scast_send_pack (elems : scatter) : M world unit :=
  let* w := get in
  let* ' (_, h) := Net_scast (p_seg_index (memb_My (mem w))) (Send_pack_head (mem w)) elems in
  mem_do (set_Send_pack_head h).
Definition ucast_send_pack (elems : scatter) (proc_id : Z) : M world unit :=
  let* w := get in
  let* ' (_, h) := Net_ucast proc_id (Send_pack_head (mem w)) elems in
  mem_do (set_Send_pack_head h).
Definition prepare_send_pack (type len : Z) : M world unit :=
  mem_do (fun v => set_Send_pack_head
    (set_ph_data_len (u16 len) (set_ph_type type (Send_pack_head v))) v).

Definition Scast_alive (code : Z) : M world unit :=
  let* w := get in
  let len := members_len (F_members (mem w)) in
  prepare_send_pack ALIVE_TYPE len ;;
  scast_send_pack [part (enc_members (F_members (mem w))) (u16 len)] ;;
  when (code =? 0) (E_queue Scast_alive_event 0 (Alive_timeout (tmo w))).

Definition Send_join : M world unit :=
  let* w := get in
  let elems := join_elems w in
  prepare_send_pack JOIN_TYPE (elems_len elems) ;;
  when (negb (Token_alive (mem w))) (scast_send_pack elems) ;;
  mforeach (fun r => ucast_send_pack elems (rep_proc_id r)) (reps_list (Potential_reps (mem w))) ;;
  E_queue Send_join_event 0 (Join_timeout (tmo w)).

(** The processes of the configuration that are not in my membership. *)
Definition missing_procs (w : world) : list Z :=
  filter (fun id => Conf_id_in_conf (Reg_membership (mem w)) id = -1)
    (conf_segments (Cn w) ≫= (fun s => p_id <$> seg_procs s)).

Definition Memb_lookup_new_members : M world unit :=
  let* w := get in
  if negb (is_state (State (mem w)) OP) then ret tt
  else
    let me := mkRep (my_id32 w) RING_REP (p_seg_index (memb_My (mem w))) in
    mem_do (fun v => set_Potential_reps (set_num_reps 0 (Potential_reps v)) v) ;;
    mem_do (fun v => set_F_reps (set_num_reps 1 (set_rep 0 me (F_reps v))) v) ;;
    mem_do (fun v => set_F_members (set_num_members 0 (set_num_pending 0 (F_members v))) v) ;;
    let* w := get in
    let elems := join_elems w in
    prepare_send_pack JOIN_TYPE (elems_len elems) ;;
    if Conf_num_segments (Cn w) =? 1 then
      scast_send_pack elems ;; Shift_to_gather
    else
      mforeach (fun id => ucast_send_pack elems (s32 id)) (missing_procs w) ;;
      when (negb (Z.of_nat (length (missing_procs w)) =? 0)) Shift_to_gather.

(** ** The end of a gathering *)

Definition back_to_op : M world unit :=
  let* w := get in
  E_dequeue Send_join_event 0 ;;
  E_queue Memb_lookup_new_members_event 0 (Lookup_timeout (tmo w)) ;;
  Shift_to_op.

Definition gather_again : M world unit :=
  let* w := get in
  mem_do (fun v => set_F_members (singleton_members w (F_members v)) v) ;;
  let* r := lift (insert_reps (Cn w) (tail (reps_list (F_reps (mem w))))
                    (set_num_reps 0 (Potential_reps (mem w)))) in
  mem_do (set_Potential_reps r) ;;
  Shift_to_gather.

Definition Form_or_fail : M world unit :=
  let* w := get in
  let* ' (id, _) := lift (Smallest_rep (Cn w) (F_reps (mem w))) in
  if u32 id =? my_id w then
    if Token_alive (mem w) && (num_reps (F_reps (mem w)) =? 1) then back_to_op else Create_form1
  else if Token_alive (mem w) then back_to_op
  else gather_again.

(** ** Messages *)

Definition insert_f_member (proc_id : Z) : M world unit :=
  mem_do (fun v => set_F_members (Insert_member (F_members v) proc_id).1 v).

(** My token is lost: [proc_id] is in my ring and does not know it. *)
Definition loss_and_insert (proc_id : Z) : M world unit :=
  Memb_token_loss ;; insert_f_member proc_id.

Definition in_conf (c : configuration) (proc_id : Z) : bool :=
  negb (Conf_id_in_conf c (u32 proc_id) =? -1).

Definition Memb_handle_alive (h : packet_header) : M world unit :=
  let* w := get in
  let id := ph_proc_id h in
  match State (mem w) with
  | OP => when (in_conf (Membership (mem w)) id) (loss_and_insert id)
  | SEG => insert_f_member id
  | REPRESENTED => E_queue Shift_to_seg_event 0 (Rep_timeout (tmo w))
  | GATHER =>
      if negb (Token_alive (mem w)) then insert_f_member id
      else when (in_conf (Membership (mem w)) id) (loss_and_insert id)
  | FORM => ret tt
  | EVS => when (in_conf (Future_membership (mem w)) id) (loss_and_insert id)
  end.

(** The parts of a JOIN body: the members, then the representatives. *)
Definition join_reps_at (b : buf) : Z := members_len (dec_members b 0).
Definition flip_join (type : Z) (b : buf) : res buf :=
  if Same_endian type then inr b
  else
    let? b := Flip_members sizeof_packet_body 0 b in
    if (join_reps_at b <? 0) || (sizeof_packet_body <? join_reps_at b + 4)
    then inl (Undefined "Flip_reps") else Flip_reps sizeof_packet_body (join_reps_at b) b.
(** [reps_ptr->reps[j]]. *)
Definition join_rep (b : buf) (j : Z) : res rep_info :=
  let o := join_reps_at b + 4 + 8 * j in
  if (join_reps_at b <? 0) || (sizeof_packet_body <? o + sizeof_rep_info)
  then inl (Undefined "Memb_handle_join: reps") else inr (dec_rep b o).
Fixpoint join_reps (b : buf) (n : nat) (j : Z) : res (list rep_info) :=
  match n with
  | O => inr []
  | S n =>
      let? r := join_rep b j in
      let? l := join_reps b n (j + 1) in
      inr (r :: l)
  end.

(** Tell [proc_id] who represents my side. *)
Definition send_refer (proc_id rep_id type : Z) : M world unit :=
  let* w := get in
  Net_ucast proc_id
    (mkPacketHeader REFER_TYPE 0 (my_id32 w) (mkMembId (s32 rep_id) type) 0 0 0 0 0 0 0) [] ;;
  ret tt.

Definition join_in_op (h : packet_header) (b : buf) : M world unit :=
  let* w := get in
  let c := Membership (mem w) in
  if in_conf c (ph_proc_id h) then
    when (1 <? Conf_num_segments (Cn w)) Memb_token_loss
  else
    let* l := or_fatal "Conf_leader: Empty configuration" (Conf_leader c) in
    let* r0 := lift (join_rep b 0) in
    if l =? my_id w then
      mem_do (fun v => set_Potential_reps (set_num_reps 1 (set_rep 0 r0 (Potential_reps v))) v) ;;
      mem_do (fun v => set_F_members (set_num_members 0 (set_num_pending 0 (F_members v))) v) ;;
      Shift_to_gather
    else if negb (rep_seg_index r0 =? p_seg_index (memb_My (mem w))) then
      send_refer (ph_proc_id h) l RING_REP
    else
      let* sl := or_fatal "Conf_seg_leader" (Conf_seg_leader c (p_seg_index (memb_My (mem w)))) in
      when (sl =? my_id w) (send_refer (ph_proc_id h) l RING_REP).

(** Does the sender represent my segment? *)
Definition from_my_rep (h : packet_header) (b : buf) : M world bool :=
  let* w := get in
  let* p := lift (or_err (Undefined "Memb_handle_join: p") (Conf_proc_by_id (Cn w) (ph_proc_id h))) in
  if negb (p_seg_index (memb_My (mem w)) =? p_seg_index p) then ret false
  else let* r0 := lift (join_rep b 0) in ret (rep_type r0 =? SEG_REP).

Definition join_in_seg (h : packet_header) (b : buf) : M world unit :=
  let* mine := from_my_rep h b in
  when mine
    (mem_do (set_My_seg_rep (ph_proc_id h)) ;;
     Shift_to_represented ;;
     Scast_alive 1).

Definition join_in_represented (h : packet_header) (b : buf) : M world unit :=
  let* mine := from_my_rep h b in
  let* w := get in
  if mine then
    mem_do (set_My_seg_rep (ph_proc_id h)) ;;
    E_queue Shift_to_seg_event 0 (Rep_timeout (tmo w)) ;;
    Scast_alive 1
  else
    when (negb (My_seg_rep (mem w) =? -1))
      (send_refer (ph_proc_id h) (My_seg_rep (mem w)) SEG_REP).

Definition join_in_gather (h : packet_header) (b : buf) : M world unit :=
  let* w := get in
  let* r0 := lift (join_rep b 0) in
  let* ' (f, _) := lift (Insert_rep (Cn w) (F_reps (mem w)) r0) in
  mem_do (set_F_reps f) ;;
  let* l := lift (join_reps b (Z.to_nat (get_s16 b (join_reps_at b))) 0) in
  let* p := lift (insert_reps (Cn w) l (Potential_reps (mem w))) in
  mem_do (set_Potential_reps p) ;;
  let* ' (id, _) := lift (Smallest_rep (Cn w) f) in
  when (id =? rep_proc_id r0) (E_queue Form_or_fail_event 0 (Gather_timeout (tmo w))).

Definition Memb_handle_join (h : packet_header) (b : buf) : M world unit :=
  let* b := lift (flip_join (ph_type h) b) in
  let* w := get in
  match State (mem w) with
  | OP => join_in_op h b
  | SEG => join_in_seg h b
  | REPRESENTED => join_in_represented h b
  | GATHER => join_in_gather h b
  | FORM => ret tt
  | EVS => when (in_conf (Future_membership (mem w)) (ph_proc_id h)) (loss_and_insert (ph_proc_id h))
  end.

Definition Memb_handle_refer (h : packet_header) : M world unit :=
  let* w := get in
  match State (mem w) with
  | GATHER =>
      match Conf_proc_by_id (Cn w) (mi_proc_id (ph_memb_id h)) with
      | None => ret tt
      | Some p =>
          let* ' (r, _) := lift (Insert_rep (Cn w) (Potential_reps (mem w))
            (mkRep (s32 (p_id p)) (s16 (mi_time (ph_memb_id h))) (p_seg_index p))) in
          mem_do (set_Potential_reps r)
      end
  | _ => ret tt
  end.

Definition Memb_handle_foreign (h : packet_header) (b : buf) : M world unit :=
  let* w := get in
  match State (mem w) with
  | OP =>
      match Conf_proc_by_id (Cn w) (ph_proc_id h) with
      | None => ret tt
      | Some _ =>
          let c := Membership (mem w) in
          let* l := or_fatal "Conf_leader: Empty configuration" (Conf_leader c) in
          if l =? my_id w then Memb_lookup_new_members
          else
            let* sl := or_fatal "Conf_seg_leader"
                         (Conf_seg_leader c (p_seg_index (memb_My (mem w)))) in
            when ((sl =? my_id w) && negb (Foreign_found (mem w)))
              (mem_do (set_Foreign_found true) ;;
               let elems := [mkElem b (ph_data_len h)] in
               let* ' (_, h) := Net_ucast (s32 l) h elems in
               Net_ucast (s32 l) h elems ;;
               ret tt)
      end
  | _ => ret tt
  end.

Definition Memb_handle_message (h : packet_header) (b : buf) : M world unit :=
  if truth (Is_alive (ph_type h)) then Memb_handle_alive h
  else if truth (Is_join (ph_type h)) then Memb_handle_join h b
  else if truth (Is_refer (ph_type h)) then Memb_handle_refer h
  else if truth (Is_regular (ph_type h)) then Memb_handle_foreign h b
  else ret tt.

(** ** Tokens *)

Definition Memb_handle_form1 (h : token_header) (b : buf) : M world unit :=
  let* w := get in
  match State (mem w) with
  | OP =>
      let* leader := leader_is (Membership (mem w)) (my_id w) in
      if leader then ret tt else Fill_form1 h b
  | REPRESENTED | GATHER => Fill_form1 h b
  | SEG | FORM | EVS => ret tt
  end.

Definition Memb_handle_form2 (h : token_header) (b : buf) : M world unit :=
  let* w := get in
  match State (mem w) with
  | FORM => Read_form2 h b
  | OP | SEG | REPRESENTED | GATHER | EVS => ret tt
  end.

Definition Memb_handle_token (h : token_header) (b : buf) : M world unit :=
  if truth (Is_form1 (th_type h)) then Memb_handle_form1 h b
  else if truth (Is_form2 (th_type h)) then Memb_handle_form2 h b
  else ret tt.

(** ** Initialisation *)

(** [ms / 1000] and [ms % 1000 * 1000]. *)
Definition of_ms (ms : Z) : sp_time := mkTime (Z.quot ms 1000) (Z.rem ms 1000 * 1000).

Definition wide_timeouts (wide : bool) : timeouts :=
  mkTimeouts (mkTime 5 0) (mkTime 1 500000) (mkTime 0 250000) (mkTime 0 250000)
    (mkTime 1 250000) (mkTime 0 500000) (mkTime 2 500000) (mkTime 2 500000) (mkTime 45 0) wide.
Definition local_timeouts (wide : bool) : timeouts :=
  mkTimeouts (mkTime 1 250000) (mkTime 0 500000) (mkTime 0 250000) (mkTime 0 250000)
    (mkTime 0 625000) (mkTime 0 500000) (mkTime 1 250000) (mkTime 1 250000) (mkTime 30 0) wide.
Definition configured_timeouts (c : conf_state) (wide : bool) : timeouts :=
  mkTimeouts (of_ms (cf_TokenTimeout c)) (of_ms (cf_HurryTimeout c)) (of_ms (cf_AliveTimeout c))
    (of_ms (cf_JoinTimeout c)) (of_ms (cf_RepTimeout c)) (of_ms (cf_SegTimeout c))
    (of_ms (cf_GatherTimeout c)) (of_ms (cf_FormTimeout c)) (of_ms (cf_LookupTimeout c)) wide.

Definition init_timeouts : M world unit :=
  let* w := get in
  let c := cf w in
  let wide := if cf_WideAreaNetworkFlag c then cf_WideAreaNetwork c
              else 1 <? Conf_num_segments (cf_Config c) in
  when (negb (cf_AcceleratedRingFlag c)) (in_cf (Conf_set_accelerated_ring (negb wide))) ;;
  if negb (Conf_memb_timeouts_set c) then
    tmo_do (fun _ => if wide then wide_timeouts wide else local_timeouts wide)
  else if negb (Conf_all_memb_timeouts_set c)
  then fail (Fatal "Memb_init: Only some of the membership timeouts were specified!")
  else tmo_do (fun _ => configured_timeouts c wide).

Definition Memb_init : M world unit :=
  Shift_to_op ;;
  stat_do (set_st_membership_changes 0) ;;
  let* w := get in
  mem_do (set_memb_My (cf_My (cf w))) ;;
  init_timeouts ;;
  let* w := get in
  let c := alone w (Cn w) in
  mem_do (set_Membership c) ;;
  mem_do (set_Membership_id (mkMembId (my_id32 w) (-1))) ;;
  mem_do (set_Last_time_used (-1)) ;;
  mem_do (set_Transitional 0) ;;
  mem_do (set_Reg_membership c) ;;
  mem_do (set_Commit_set (commit_self w)) ;;
  mem_do (set_Send_pack_head (set_ph_proc_id (my_id32 w) zero_packet_header)) ;;
  Memb_token_loss.

Definition Memb_signal_conf_reload : M world unit :=
  let* w := get in mem_do (set_memb_My (cf_My (cf w))).
End membership.
