(* ===== verification/ProtHandle.v ===== *)
(** * The protocol's handlers ([daemon/protocol.c])

    What the event loop calls when a packet ([Prot_handle_bcast]) or a token
    ([Prot_handle_token]) can be received, the reload of the configuration and
    the initialisation.  The long C functions are cut into the phases they
    comment, in their order. *)

From Stdlib Require Import ZArith Lia.
From stdpp Require Import base strings numbers option gmap list.
From S2P Require Import Prelude Wire Config Events State Network FlowControl MembSets MembCore Deliver.
From S2P Require Import ProtSend Retrans MembForm MembInstall Membership.

(** What the core calls in components that are not modelled: the binding of
    the sockets in [Net_init], which fills the channel tables, the reload of the configuration file
    ([Conf_reload_initiate], true when a singleton partition is needed) and
    the timed events of the other components. *)
Class Platform : Type := {
  open_channels : M world unit;
  Conf_reload_initiate : M conf_state bool;
  other_event : Z -> M world unit
}.

Section handle.
Context `{Session} `{Platform}.

(** ** Configuration reload *)

Definition Prot_initiate_conf_reload : M world unit :=
  let* w := get in
  if negb (is_state (Memb_state w) OP) then ret tt
  else
    prt_do (set_Prot_Need_Conf_Reload false) ;;
    let* need_memb_partition := in_cf Conf_reload_initiate in
    Net_signal_conf_reload ;;
    Memb_signal_conf_reload ;;
    Sess_signal_conf_reload ;;
    FC_signal_conf_reload ;;
    let* w := get in
    prt_do (set_prot_My (cf_My (cf w))) ;;
    prt_do (set_My_index (Conf_proc_by_id_in_conf (cf_Config (cf w)) (p_id (cf_My (cf w)))).1) ;;
    when need_memb_partition
      (Net_set_partition (fun i => s16 i) ;;
       in_cf Conf_reload_singleton_state_begin) ;;
    E_queue Memb_token_loss_event 0 Zero_timeout.

Definition Prot_handle_conf_reload : M world unit :=
  let* w := get in
  if is_state (Memb_state w) OP then Prot_initiate_conf_reload
  else prt_do (set_Prot_Need_Conf_Reload true).

(** ** Priorities of the channels

    [E_detach_fd_priority] of a channel and [E_attach_fd] with its new
    priority.  Except for the broadcast channels in [Prot_handle_bcast] the
    code tests the result of the detach again after the attach, so
    [checked] is false and a failed attach goes unnoticed. *)
Definition move_channel (f : fd_func) (from to : Z) (checked : bool) (fd : Z) : M world unit :=
  let* r := in_ev (E_detach_fd_priority fd READ_FD from) in
  (if r <? 0 then fail (Fatal "channel being detached was not found") else ret tt) ;;
  let* r := in_ev (E_attach_fd fd READ_FD f 0 0 to) in
  if checked && (r <? 0) then fail (Fatal "channel could not be attached") else ret tt.

Definition give_token_priority : M world unit :=
  let* w := get in
  mforeach (move_channel Prot_handle_bcast_fd HIGH_PRIORITY MEDIUM_PRIORITY true)
    (Bcast_channel (net w)) ;;
  mforeach (move_channel Prot_handle_token_fd MEDIUM_PRIORITY HIGH_PRIORITY false)
    (Token_channel (net w)) ;;
  tok_do (set_Token_has_priority true).

Definition give_bcast_priority : M world unit :=
  let* w := get in
  when (Token_has_priority (tok w))
    (mforeach (move_channel Prot_handle_bcast_fd MEDIUM_PRIORITY HIGH_PRIORITY false)
       (Bcast_channel (net w)) ;;
     mforeach (move_channel Prot_handle_token_fd HIGH_PRIORITY MEDIUM_PRIORITY false)
       (Token_channel (net w)) ;;
     tok_do (set_Token_has_priority false)).

(** ** Packets *)

(** The loop that flips the fragment headers inside the body; a malformed
    packet is kept. *)
Fixpoint flip_frags (fuel : nat) (b : buf) (data_len processed : Z) : res buf :=
  if processed <? data_len then
    match fuel with
    | O => inl (Diverges "Prot_handle_bcast")
    | S fuel =>
        let processed := processed + padding_for processed in
        if data_len <? processed + sizeof_fragment_header then inr b
        else if processed <? 0 then inl (Undefined "Prot_handle_bcast: frag_ptr")
        else
          let b := flip16_at (processed + 2) (flip16_at processed b) in
          flip_frags fuel b data_len
            (processed + sizeof_fragment_header + get_s16 b (processed + 2))
    end
  else inr b.

Definition FLIP_FUEL : nat := Z.to_nat 65536.

Definition flip_packet (h : packet_header) (b : buf) : res (packet_header * buf) :=
  if Same_endian (ph_type h) then inr (h, b)
  else
    let h := set_ph_fragment_index (s16 (Flip_int16 (ph_fragment_index h)))
               (set_ph_fragment_len (s16 (Flip_int16 (ph_fragment_len h))) h) in
    let? b := flip_frags FLIP_FUEL b (ph_data_len h) (ph_fragment_len h) in
    inr (h, b).

Definition control_message (h : packet_header) (b : buf) : M world unit :=
  if truth (Is_status (ph_type h)) then Stat_handle_message h
  else if truth (Is_fc (ph_type h)) then FC_handle_message h b
  else if truth (Is_conf_reload (ph_type h)) then Prot_handle_conf_reload
  else ret tt.

(** The timers a packet of my ring restarts. *)
Definition restart_token_timers : M world unit :=
  let* w := get in
  when (Memb_token_alive w)
    (E_queue Memb_token_loss_event 0 (Token_timeout (tmo w)) ;;
     let* leader := leader_is (Memb_active_ptr w) (p_id (prot_My (prt w))) in
     when leader (E_queue Prot_token_hurry_event 0 (Hurry_timeout (tmo w)))).

Definition accelerate (h : packet_header) : M world unit :=
  let* w := get in
  when (FC_accelerated_ring w && negb (Token_has_priority (tok w))
        && (Received_token_rounds (tok w) <? ph_token_round h)
        && (ph_transmiter_id h =? Prev_proc_id (prt w)))
    give_token_priority.

(** The counters after the packet [seq] is in the window, and what it
    lets deliver. *)
Definition update_after_insert (seq : Z) : M world unit :=
  win_do (fun r => if Highest_seq r <? seq then set_Highest_seq seq r else r) ;;
  let* w := get in
  let v := win w in
  if seq =? My_aru v + 1 then
    win_do (set_My_aru (advance_aru w (Z.to_nat (Highest_seq v - My_aru v)) (My_aru v))) ;;
    Deliver_agreed_packets
  else Deliver_reliable_packets seq 1.

Definition count_received : M world unit :=
  stat_do (fun s => set_st_packet_recv (st_packet_recv s + 1) s) ;;
  let* w := get in
  stat_do (set_st_my_aru (My_aru (win w))) ;;
  stat_do (set_st_highest_seq (Highest_seq (win w))).

(** A regular packet of my ring. *)
Definition insert_packet (h : packet_header) (b : buf) : M world unit :=
  let* w := get in
  let seq := ph_seq h in
  let pack_entry := slot seq in
  if seq <=? Last_discarded (win w) then ret tt
  else if negb (pi_exist (pkt w pack_entry) =? 0) then ret tt
  else
    let proc_index := (Conf_proc_by_id_in_conf (cf_Config (cf w)) (u32 (ph_proc_id h))).1 in
    put_pkt pack_entry (set_pi_proc_index proc_index (pkt w pack_entry)) ;;
    if proc_index <? 0 then ret tt
    else
      let* ' (h, b) := lift (flip_packet h b) in
      put_pkt pack_entry (mkPacketInfo h b 1 proc_index) ;;
      accelerate h ;;
      update_after_insert seq ;;
      count_received.

Definition Prot_handle_bcast (fd : Z) (rx : received packet_header) : M world unit :=
  let* ' (received_bytes, h) := Net_recv fd rx in
  let b := rx_body rx in
  if received_bytes <=? 0 then ret tt
  else if truth (Is_control (ph_type h)) then control_message h b
  else if truth (Is_membership (ph_type h)) then Memb_handle_message h b
  else if truth (Is_hurry (ph_type h)) then Handle_hurry (ph_proc_id h)
  else if negb (truth (Is_regular (ph_type h))) then ret tt
  else
    let* w := get in
    if negb (Memb_is_equal (Memb_id w) (ph_memb_id h)) then Memb_handle_message h b
    else
      restart_token_timers ;;
      insert_packet h b.

(** ** Tokens *)

(** The tests a regular token must pass before its ARQ value is looked at;
    the body is flipped on the way. *)
Definition token_admissible (received : Z) : M world bool :=
  let* w := get in
  let t := Token (tok w) in
  if negb (Memb_token_alive w) then ret false
  else if negb (Memb_is_equal (th_memb_id t) (Memb_active_id w)) then ret false
  else
    let* prev := or_fatal "Conf_previous" (Conf_previous (cf_My (cf w)) (Memb_active_ptr w)) in
    if negb (th_transmiter_id t =? s32 prev) then ret false
    else if negb (received =? sizeof_token_header + th_rtr_len t) then ret false
    else
      (if Same_endian (th_type t) then ret tt
       else
         let* b := lift (Flip_token_body (New_token_buf (tok w)) (th_rtr_len t)) in
         tok_do (set_New_token_buf b)) ;;
      ret (is_state (Memb_state w) EVS || negb (MAX_WRAP_SEQUENCE_VALUE <? th_seq t)).

Definition wipe_last_aru : M world unit :=
  let* w := get in
  when (Memb_Just_Installed (mem w))
    (mem_do (set_Memb_Just_Installed false) ;;
     tok_do (fun t => set_Last_token (set_th_aru 0 (Last_token t)) t)).

(** Is the token the next one?  A repeated token is swallowed, or answered
    by sending mine again when it asks for it. *)
Definition token_is_next : M world bool :=
  let* w := get in
  let t := th_type (Token (tok w)) in
  let lt := th_type (Last_token (tok w)) in
  let* leader := leader_is (Memb_active_ptr w) (p_id (prot_My (prt w))) in
  if leader then
    if negb (Get_arq t =? Get_arq lt) then ret false
    else wipe_last_aru ;; ret true
  else
    if Get_arq t =? Get_arq lt then
      when (Get_retrans lt <? Get_retrans t)
        (tok_do (fun k => set_Last_token
           (set_th_type (Set_retrans (th_type (Last_token k)) (Get_retrans t)) (Last_token k)) k) ;;
         Prot_token_hurry) ;;
      ret false
    else if negb (Get_arq t =? (Get_arq lt + 1) mod 0x10) then ret false
    else
      wipe_last_aru ;;
      when (0 <? Get_retrans t)
        (stat_do (fun s => set_st_token_hurry (st_token_hurry s + 1) s)) ;;
      ret true.

(** Retransmissions, new packets and the flow control of the token; the
    result is the answer and the number of packets sent. *)
Definition token_send : M world (answer * Z) :=
  let* a := Answer_retrans in
  stat_do (fun s => set_st_retrans (st_retrans s + an_num_retrans a) s) ;;
  let* w := get in
  let num_allowed := FC_allowed w (th_flow_control (Token (tok w))) (an_num_retrans a) in
  let* num_sent := Send_new_packets num_allowed in
  stat_do (fun s => set_st_packet_sent (st_packet_sent s + num_sent) s) ;;
  tok_do (fun t => set_Token (set_th_flow_control
    (s16 (th_flow_control (Token t) - Last_num_retrans t - Last_num_sent t
          + an_num_retrans a + num_sent)) (Token t)) t) ;;
  tok_do (set_Last_num_retrans (an_num_retrans a)) ;;
  tok_do (set_Last_num_sent num_sent) ;;
  ret (a, num_sent).

(** My requests for what I miss; the new length of the body. *)
Definition token_requests (a : answer) : M world Z :=
  let* w := get in
  let v := win w in
  win_do (set_My_aru (advance_aru w (Z.to_nat (Highest_seq v - My_aru v)) (My_aru v))) ;;
  let* w := get in
  stat_do (set_st_my_aru (My_aru (win w))) ;;
  let max_rtr_seq :=
    if FC_accelerated_ring w && negb (is_state (Memb_state w) EVS)
    then th_seq (Last_token (tok w)) else Highest_seq (win w) in
  prepare_requests (an_new_ptr a) (an_proc_id a) (an_seg_index a) max_rtr_seq.

(** In EVS, when I have every packet of the old ring, I commit. *)
Definition token_commit : M world unit :=
  let* w := get in
  when (is_state (Memb_state w) EVS && (My_aru (win w) =? Highest_seq (win w)))
    (win_do (fun r => set_My_aru (Last_seq r) r) ;;
     Memb_commit).

(** The [aru] of the token, [evs] telling that its [seq] means nothing. *)
Definition token_aru (evs : bool) (my_id my_aru : Z) (t : token_header) : token_header :=
  if (my_aru <? th_aru t) || (u32 (th_aru_last_id t) =? my_id)
     || ((th_aru t =? th_seq t) && negb evs)
  then set_th_aru my_aru (set_th_aru_last_id (s32 my_id) t) else t.

Definition token_update (new_ptr : Z) : M world unit :=
  tok_do (fun t => set_Token (set_th_rtr_len (u16 new_ptr) (Token t)) t) ;;
  tok_do (set_New_token_len new_ptr) ;;
  let* w := get in
  let evs := is_state (Memb_state w) EVS in
  let my_id := p_id (prot_My (prt w)) in
  let t := token_aru evs my_id (My_aru (win w)) (Token (tok w)) in
  let t := set_th_proc_id (s32 my_id) t in
  let t := if evs then t else set_th_seq (Highest_seq (win w)) t in
  let* leader := leader_is (Memb_active_ptr w) my_id in
  let t :=
    if leader then
      set_th_type (Set_retrans (Set_arq (th_type t) ((Get_arq (th_type t) + 1) mod 0x10)) 0) t
    else t in
  tok_do (set_Token t).

Definition send_token : M world unit :=
  let* w := get in
  let t := tok w in
  let len := New_token_len t in
  let* ' (_, h) := Net_send_token (Token t) [mkElem (get_bytes (New_token_buf t) 0 len) len] in
  tok_do (set_Token h).

(** Send the token on, unless I am the leader and hold it. *)
Definition token_forward : M world unit :=
  let* w := get in
  let* leader := leader_is (Memb_active_ptr w) (p_id (prot_My (prt w))) in
  when (negb (leader && To_hold_token w))
    (send_token ;;
     let* w := get in
     when (1 <? Get_retrans (th_type (Token (tok w)))) (send_token ;; send_token)) ;;
  tok_do (fun t => set_Token_rounds (Token_rounds t + 1) t) ;;
  when leader (E_queue Prot_token_hurry_event 0 (Hurry_timeout (tmo w))) ;;
  E_queue Memb_token_loss_event 0 (Token_timeout (tmo w)) ;;
  Prot_flush_bcast ;;
  ret tt.

(** [Aru]: what this token and the one before agree on. *)
Definition token_stable : M world unit :=
  let* w := get in
  let new_aru := Z.min (th_aru (Token (tok w))) (th_aru (Last_token (tok w))) in
  (if new_aru <? Aru (win w) then fail (Fatal "Prot_handle_token: illegally lowering Aru")
   else win_do (set_Aru new_aru)) ;;
  let* w := get in
  tok_do (fun t => set_Token_counter
    (if Highest_seq (win w) =? Aru (win w) then Token_counter t + 1 else 0) t) ;;
  tok_do (fun t => set_Last_token (Token t) t) ;;
  tok_do (set_Token zero_token_header) ;;
  tok_do (set_New_token_len sizeof_token_body).

(** Deliver, discard, and give up an EVS that takes too long. *)
Definition token_deliver (num_sent : Z) : M world unit :=
  Discard_packets ;;
  Deliver_agreed_packets ;;
  let* w := get in
  Deliver_reliable_packets (Highest_seq (win w) - num_sent + 1) num_sent ;;
  let* w := get in
  when (is_state (Memb_state w) EVS && (MAX_EVS_ROUNDS <? Token_rounds (tok w))) Memb_token_loss ;;
  let* w := get in
  stat_do (set_st_highest_seq (Highest_seq (win w))) ;;
  stat_do (set_st_aru (Aru (win w))) ;;
  stat_do (set_st_token_rounds (Token_rounds (tok w))).

(** What the next token of the ring does. *)
Definition token_visit : M world unit :=
  let* w := get in
  when (Highest_seq (win w) <? th_seq (Token (tok w)))
    (win_do (set_Highest_seq (th_seq (Token (tok w))))) ;;
  tok_do (fun t => set_Received_token_rounds (Received_token_rounds t + 1) t) ;;
  give_bcast_priority ;;
  let* ' (a, num_sent) := token_send in
  let* new_ptr := token_requests a in
  token_commit ;;
  token_update new_ptr ;;
  token_forward ;;
  token_stable ;;
  token_deliver num_sent.

Definition Prot_handle_token (fd : Z) (rx : received token_header) : M world unit :=
  let* ' (received, h) := Net_recv_token fd rx in
  tok_do (set_Token h) ;;
  tok_do (set_New_token_buf (rx_body rx)) ;;
  if received <=? 0 then ret tt
  else if truth (Is_form (th_type h)) then Memb_handle_token h (rx_body rx)
  else
    let* ok := token_admissible received in
    if negb ok then ret tt
    else
      let* next := token_is_next in
      if next then token_visit else ret tt.

(** ** Initialisation *)

(** The checks of [Net_init]; the sockets are the platform's. *)
Definition Net_init : M world unit :=
  Net_signal_conf_reload ;;
  let* w := get in
  let my := net_My (net w) in
  let* if_port := or_fatal "spu_addr_ip_get_port" (spu_addr_ip_get_port (p_addr my)) in
  if Z.of_nat (length (p_ifc my)) <? 1 then fail (Fatal "Net_init: no interfaces")
  else
    mforeach (fun a =>
        let* port := or_fatal "spu_addr_ip_get_port" (spu_addr_ip_get_port a) in
        if if_port =? port then ret tt else fail (Fatal "Net_init: port mismatch"))
      (Bcast_addrs (net w)) ;;
    open_channels.

Definition attach_channels : M world unit :=
  let* w := get in
  mforeach (fun fd => let* _ := in_ev (E_attach_fd fd READ_FD Prot_handle_bcast_fd 0 0 HIGH_PRIORITY) in ret tt)
    (Bcast_channel (net w)) ;;
  mforeach (fun fd => let* _ := in_ev (E_attach_fd fd READ_FD Prot_handle_token_fd 0 0 MEDIUM_PRIORITY) in ret tt)
    (Token_channel (net w)).

Definition Prot_init : M world unit :=
  let* w := get in
  let my := cf_My (cf w) in
  prt_do (set_prot_My my) ;;
  prt_do (set_My_index (Conf_proc_by_id_in_conf (cf_Config (cf w)) (p_id my)).1) ;;
  stat_do (set_st_packet_delivered 0) ;;
  prt_do (set_Prev_proc_id 0) ;;
  win_do (fun r => mkWin ∅ ∅ 0 0 0 0 0 0 (Last_seq r)) ;;
  tok_do (set_Send_pack_queue (mkPacketQueue 0 [])) ;;
  tok_do (set_New_token_len sizeof_token_body) ;;
  tok_do (set_Last_token zero_token_header) ;;
  prt_do (set_Hurry_head (set_ph_type HURRY_TYPE (set_ph_proc_id (s32 (p_id my)) zero_packet_header))) ;;
  Net_init ;;
  attach_channels ;;
  tok_do (set_Token_has_priority false) ;;
  FC_init ;;
  Memb_init ;;
  let* w := get in
  Net_set_membership (Reg_membership (mem w)).
End handle.
