(* ===== verification/Frame.v ===== *)
(** * What the operations leave alone

    The control state of the membership (its state, whether its token is
    alive, which of its timeouts are armed) changes in a few places of
    [membership.c] only.  [core_rel] relates two worlds with the same control
    state; every operation of the network, of delivery, of sending and of
    retransmission keeps it, provided the session layer does, which is the
    promise [SessionOk] states.  At the end, the platform of the sample daemon,
    the laws of its session layer and of its platform, and the daemon once
    [Prot_init] is done. *)

From Stdlib Require Import ZArith Lia.
From stdpp Require Import base strings numbers option gmap list sorting.
From S2P Require Import Prelude Wire Config Events State Sample Network FlowControl MembSets MembCore Deliver ProtSend Retrans MembForm MembInstall Membership ProtHandle.

(* --------------------------------------------------------------------- *)
(** ** The control state *)

Definition time_queue (w : world) : list time_event := ev_Time_queue (ev w).
(** Is the event queued, as the core queues it? *)
Definition armed (f : ev_func) (w : world) : bool := E_in_queue (mkKey f 0 0) (time_queue w).

(** The timeouts that drive the membership from state to state. *)
Definition timeout_of (f : ev_func) : bool :=
  match f with
  | Memb_token_loss_event | Gather_or_represented_event | Shift_to_seg_event | Form_or_fail_event => true
  | _ => false
  end.

Definition same_control (w w' : world) : Prop :=
  State (mem w') = State (mem w) /\ Token_alive (mem w') = Token_alive (mem w) /\
  (forall f, timeout_of f = true -> armed f w' = armed f w).

(** The queue is in order and holds the core's timeouts only as the core
    queues them. *)
Definition core_key (k : ev_key) : Prop := timeout_of (ev_f k) = true -> k = mkKey (ev_f k) 0 0.
Definition tq_ok (q : list time_event) : Prop := queue_ok q /\ Forall core_key (keys q).

Definition core_rel (w w' : world) : Prop :=
  tq_ok (time_queue w) -> tq_ok (time_queue w') /\ same_control w w'.

#[export] Instance core_rel_preorder : PreOrder core_rel.
Proof.
  split.
  - intros w Hq. repeat split; try done; apply Hq.
  - intros w1 w2 w3 H1 H2 Hq. destruct (H1 Hq) as (Hq2 & Hs1 & Ha1 & Hf1).
    destruct (H2 Hq2) as (Hq3 & Hs2 & Ha2 & Hf2).
    repeat split; try congruence; try apply Hq3. intros f Hf. by rewrite Hf2, Hf1.
Qed.

(** The alarms the code itself calls a bug in its state machine. *)
Definition state_bugs : list err :=
  [Fatal "Memb_token_loss: bug !!!"; Fatal "Memb_token_loss: bug !!! but !Token_alive";
   Fatal "Fill_form1: invalid State"].
Definition no_bug (e : err) : Prop := e ∉ state_bugs.

Lemma no_bug_undefined s : no_bug (Undefined s).
Proof. intros H. repeat (apply elem_of_cons in H as [H|H]; [done|]). by inversion H. Qed.
Lemma no_bug_diverges s : no_bug (Diverges s).
Proof. intros H. repeat (apply elem_of_cons in H as [H|H]; [done|]). by inversion H. Qed.

(** The promise of the session layer and of the platform: their operations
    do not touch the membership. *)
Abbreviation quiet := (keeps core_rel no_bug).
Class SessionOk `{Session} : Prop := {
  sess_deliver_message_ok m : quiet (sess_deliver_message m);
  sess_deliver_trans_memb_ok c id : quiet (sess_deliver_trans_memb c id);
  sess_deliver_reg_memb_ok c id : quiet (sess_deliver_reg_memb c id);
  sess_block_users_level_ok : quiet sess_block_users_level;
  sess_unblock_users_level_ok : quiet sess_unblock_users_level;
  sess_signal_conf_reload_ok : quiet sess_signal_conf_reload;
  log_membership_ok : quiet log_membership;
  stat_handle_message_ok h : quiet (stat_handle_message h)
}.
Class PlatformOk `{Platform} : Prop := {
  open_channels_ok : quiet open_channels;
  Conf_reload_initiate_ok : quiet (in_cf Conf_reload_initiate);
  other_event_ok n : quiet (other_event n)
}.
#[export] Hint Resolve sess_deliver_message_ok sess_deliver_trans_memb_ok sess_deliver_reg_memb_ok
  sess_block_users_level_ok sess_unblock_users_level_ok sess_signal_conf_reload_ok
  log_membership_ok stat_handle_message_ok open_channels_ok Conf_reload_initiate_ok other_event_ok : keeps.

(** The errors at hand are not state bugs. *)
Ltac nobug :=
  first [ apply no_bug_undefined | apply no_bug_diverges
        | let H := fresh in intros H; repeat (apply elem_of_cons in H as [H|H]; [done|]); by inversion H ].

(** Walk through the text of a function. *)
Ltac keeps_step :=
  lazymatch goal with
  | |- keeps _ _ (bind _ _) => apply (keeps_bind _ _); [|intros ?]
  | |- keeps _ _ (ret _) => apply (keeps_ret _ _)
  | |- keeps _ _ get => apply (keeps_get _ _)
  | |- keeps _ _ (gets _) => apply (keeps_gets _ _)
  | |- keeps _ _ (fail _) => apply keeps_fail; nobug
  | |- keeps _ _ (when _ _) => apply (keeps_when _ _); intros ?
  | |- keeps _ _ (mforeach _ _) => apply (keeps_mforeach _ _); intros ?
  | |- keeps _ _ (mfor _ _ _ _ _) => apply (keeps_mfor _ _); [nobug|intros ?]
  | |- keeps _ _ (let _ := _ in _) => cbv zeta
  | |- keeps _ _ (match ?x with _ => _ end) => destruct x
  | |- forall _, _ => intros ?
  end.
Ltac keeps_auto := repeat first [ solve [auto with keeps] | keeps_step ].

Section basic.
Lemma quiet_world f : (forall w, mem (f w) = mem w) -> (forall w, ev (f w) = ev w) -> quiet (modify f).
Proof.
  intros Hm He. apply keeps_modify. intros w Hq. unfold same_control, armed, time_queue.
  rewrite Hm, He. done.
Qed.
Lemma quiet_cf f : quiet (cf_do f). Proof. by apply quiet_world. Qed.
Lemma quiet_io f : quiet (io_do f). Proof. by apply quiet_world. Qed.
Lemma quiet_net f : quiet (net_do f). Proof. by apply quiet_world. Qed.
Lemma quiet_fc f : quiet (fc_do f). Proof. by apply quiet_world. Qed.
Lemma quiet_win f : quiet (win_do f). Proof. by apply quiet_world. Qed.
Lemma quiet_tok f : quiet (tok_do f). Proof. by apply quiet_world. Qed.
Lemma quiet_prt f : quiet (prt_do f). Proof. by apply quiet_world. Qed.
Lemma quiet_tmo f : quiet (tmo_do f). Proof. by apply quiet_world. Qed.
Lemma quiet_stat f : quiet (stat_do f). Proof. by apply quiet_world. Qed.

Lemma quiet_mem f :
  (forall v, State (f v) = State v) -> (forall v, Token_alive (f v) = Token_alive v) ->
  quiet (mem_do f).
Proof.
  intros Hs Ha. apply keeps_modify. intros w Hq. split; [done|]. repeat split; cbn; auto.
Qed.

Lemma quiet_in_cf {A} (m : M conf_state A) :
  (forall c e, m c = Failed e -> no_bug e) -> quiet (in_cf m).
Proof.
  intros Hm w. unfold wp, in_cf. destruct (m (cf w)) as [a c|e] eqn:He; [|by eapply Hm].
  intros Hq. split; [done|]. by repeat split.
Qed.

Lemma quiet_lift {A} (r : res A) : (forall e, r = inl e -> no_bug e) -> quiet (lift r).
Proof. apply keeps_lift, _. Qed.

Lemma quiet_or_fatal {A} site (o : option A) : no_bug (Fatal site) -> quiet (or_fatal site o).
Proof. intros Hs. destruct o; [apply keeps_ret, _|by apply keeps_fail]. Qed.
End basic.
#[export] Hint Resolve quiet_cf quiet_io quiet_net quiet_fc quiet_win quiet_tok quiet_prt quiet_tmo quiet_stat : keeps.
#[export] Hint Extern 1 (quiet (mem_do _)) => apply quiet_mem; intros ?; reflexivity : keeps.
#[export] Hint Extern 1 (quiet (or_fatal _ _)) => apply quiet_or_fatal; nobug : keeps.

Section events.
Lemma tq_ok_E_queue now f code delta q :
  (timeout_of f = true -> code = 0) -> tq_ok q -> tq_ok (E_queue_at now (mkKey f code 0) delta q).
Proof.
  intros Hf [Hq Hk]. split; [by apply queue_ok_E_queue|].
  rewrite keys_E_queue by apply Hq. constructor.
  - intros Ht. cbn in *. by rewrite Hf.
  - rewrite Forall_forall in Hk |- *. intros k [_ Hin]%list_elem_of_filter. by apply Hk.
Qed.

Lemma tq_ok_E_dequeue k q : tq_ok q -> tq_ok (E_dequeue_key k q).
Proof.
  intros [Hq Hk]. split; [by apply queue_ok_E_dequeue|].
  rewrite E_dequeue_ref, keys_filter by apply Hq.
  rewrite Forall_forall in Hk |- *. intros k' [_ Hin]%list_elem_of_filter. by apply Hk.
Qed.

Lemma tq_ok_tail e q : tq_ok (e :: q) -> tq_ok q.
Proof. intros [Hq Hk]. split; [by eapply queue_ok_tail|]. by inversion Hk. Qed.

Lemma armed_E_queue now f f' code delta w :
  tq_ok (time_queue w) -> f <> f' ->
  E_in_queue (mkKey f 0 0) (E_queue_at now (mkKey f' code 0) delta (time_queue w)) = armed f w.
Proof. intros [Hq _] Hf. rewrite in_queue_E_queue by done. rewrite bool_decide_false; [done|]. congruence. Qed.

Lemma armed_E_dequeue f f' code w :
  tq_ok (time_queue w) -> f <> f' ->
  E_in_queue (mkKey f 0 0) (E_dequeue_key (mkKey f' code 0) (time_queue w)) = armed f w.
Proof. intros [Hq _] Hf. rewrite in_queue_E_dequeue by done. rewrite bool_decide_false; [done|]. congruence. Qed.

Lemma quiet_read_clock : quiet read_clock.
Proof. unfold read_clock. keeps_auto. Qed.
Hint Resolve quiet_read_clock : keeps.

Lemma quiet_ev g :
  (forall w, core_rel w (on_ev g w)) -> quiet (ev_do g).
Proof. intros Hg. by apply keeps_modify. Qed.

Lemma quiet_E_queue f code delta : timeout_of f = false -> quiet (E_queue f code delta).
Proof.
  intros Hf. unfold E_queue. keeps_auto. apply quiet_ev. intros w Hq.
  split; [apply tq_ok_E_queue; [congruence|done]|]. repeat split. intros f' Hf'. unfold armed at 1. cbn.
  apply armed_E_queue; [done|]. congruence.
Qed.

Lemma quiet_E_dequeue f code : timeout_of f = false -> quiet (E_dequeue f code).
Proof.
  intros Hf. apply quiet_ev. intros w Hq.
  split; [by apply tq_ok_E_dequeue|]. repeat split. intros f' Hf'. unfold armed at 1. cbn.
  apply armed_E_dequeue; [done|]. congruence.
Qed.

Lemma quiet_in_ev {A} (m : M ev_state A) :
  (forall e, wp m (fun _ e' => ev_Time_queue e' = ev_Time_queue e) no_bug e) -> quiet (in_ev m).
Proof.
  intros Hm w. specialize (Hm (ev w)). unfold wp, in_ev in *.
  destruct (m (ev w)) as [a e|e]; [|done].
  intros Hq. unfold same_control, armed, time_queue in *. cbn. by rewrite Hm.
Qed.

Lemma quiet_E_attach_fd fd t f c d p : quiet (in_ev (E_attach_fd fd t f c d p)).
Proof.
  apply quiet_in_ev. intros e. unfold E_attach_fd. wp_steps; try done. cbv zeta.
  destruct (find_fd _ _ _ _); wp_steps; try done. case_match; reflexivity.
Qed.

Lemma quiet_E_detach_fd_priority fd t p : quiet (in_ev (E_detach_fd_priority fd t p)).
Proof.
  apply quiet_in_ev. intros e. unfold E_detach_fd_priority. wp_steps; try done. cbv zeta.
  destruct (find_fd _ _ _ _); wp_steps; done.
Qed.
End events.
#[export] Hint Resolve quiet_read_clock quiet_E_attach_fd quiet_E_detach_fd_priority : keeps.
#[export] Hint Extern 1 (quiet (E_queue _ _ _)) => apply quiet_E_queue; reflexivity : keeps.
#[export] Hint Extern 1 (quiet (E_dequeue _ _)) => apply quiet_E_dequeue; reflexivity : keeps.

(* --------------------------------------------------------------------- *)
(** ** The network and flow control *)

Section network.
Lemma quiet_sendto dst d : quiet (DL_sendto_gen dst d).
Proof. unfold DL_sendto_gen, emit. keeps_auto. Qed.
Hint Resolve quiet_sendto : keeps.

Lemma quiet_send_all d l r : quiet (send_all d l r).
Proof. revert r. induction l as [|a l IH]; intros r; cbn; keeps_auto. Qed.
Hint Resolve quiet_send_all : keeps.

Lemma quiet_send_bcast d : quiet (send_bcast d).
Proof.
  unfold send_bcast. keeps_auto. generalize dependent a0.
  induction l as [|x l IH]; intros; keeps_auto.
Qed.
Hint Resolve quiet_send_bcast : keeps.

Lemma quiet_Net_bcast h l : quiet (Net_bcast h l).
Proof. unfold Net_bcast. keeps_auto. Qed.
Lemma quiet_Net_scast i h l : quiet (Net_scast i h l).
Proof. unfold Net_scast. keeps_auto. Qed.
Lemma quiet_Net_ucast i h l : quiet (Net_ucast i h l).
Proof. unfold Net_ucast. keeps_auto. Qed.
Lemma quiet_Net_send_token h l : quiet (Net_send_token h l).
Proof. unfold Net_send_token, check_token_len. keeps_auto. Qed.
Lemma quiet_Net_ucast_token i h l : quiet (Net_ucast_token i h l).
Proof. unfold Net_ucast_token, check_token_len. keeps_auto. Qed.
Lemma quiet_Net_set_membership c : quiet (Net_set_membership c).
Proof. unfold Net_set_membership. keeps_auto. Qed.
Lemma quiet_Net_set_partition f : quiet (Net_set_partition f).
Proof. unfold Net_set_partition. keeps_auto. Qed.
Lemma quiet_Net_clear_partition : quiet Net_clear_partition.
Proof. unfold Net_clear_partition. keeps_auto. Qed.
Hint Resolve quiet_Net_set_partition quiet_Net_clear_partition : keeps.
Lemma quiet_Net_handle_monitor h b : quiet (Net_handle_monitor h b).
Proof. unfold Net_handle_monitor. keeps_auto. Qed.
Lemma quiet_Net_signal_conf_reload : quiet Net_signal_conf_reload.
Proof. unfold Net_signal_conf_reload. keeps_auto. Qed.
Lemma quiet_forward_routed w h b : quiet (forward_routed w h b).
Proof. unfold forward_routed. keeps_auto. Qed.
Hint Resolve quiet_Net_handle_monitor quiet_forward_routed : keeps.
Lemma quiet_Net_recv fd rx : quiet (Net_recv fd rx).
Proof. unfold Net_recv. keeps_auto. Qed.
Lemma quiet_Net_recv_token fd rx : quiet (Net_recv_token fd rx).
Proof. unfold Net_recv_token. keeps_auto. Qed.
Lemma quiet_FC_init : quiet FC_init.
Proof. unfold FC_init. keeps_auto. Qed.
Lemma quiet_FC_new_configuration : quiet FC_new_configuration.
Proof. unfold FC_new_configuration. keeps_auto. Qed.
Lemma quiet_FC_handle_message h b : quiet (FC_handle_message h b).
Proof. unfold FC_handle_message. keeps_auto. Qed.
End network.
#[export] Hint Resolve quiet_sendto quiet_send_bcast quiet_Net_bcast quiet_Net_scast quiet_Net_ucast
  quiet_Net_send_token quiet_Net_ucast_token quiet_Net_set_membership quiet_Net_set_partition
  quiet_Net_clear_partition quiet_Net_signal_conf_reload quiet_Net_recv quiet_Net_recv_token
  quiet_FC_init quiet_FC_new_configuration quiet_FC_handle_message : keeps.

(* --------------------------------------------------------------------- *)
(** ** Computations without state *)

Definition res_ok {A} (r : res A) : Prop := forall e, r = inl e -> no_bug e.

Section res.
Lemma res_ok_inr {A} (a : A) : res_ok (inr a).
Proof. done. Qed.
Lemma res_ok_inl {A} e : no_bug e -> res_ok (A := A) (inl e).
Proof. intros He e' [= <-]. done. Qed.
Lemma res_ok_rbind {A B} (r : res A) (k : A -> res B) :
  res_ok r -> (forall a, res_ok (k a)) -> res_ok (rbind r k).
Proof. intros Hr Hk. destruct r; [by apply res_ok_inl, Hr | apply Hk]. Qed.
Lemma res_ok_or_err {A} e (o : option A) : no_bug e -> res_ok (or_err e o).
Proof. intros He. destruct o; [done | by apply res_ok_inl]. Qed.
Lemma res_ok_assert e b : no_bug e -> res_ok (assert_that e b).
Proof. intros He. destruct b; [done | by apply res_ok_inl]. Qed.
Lemma quiet_lift_ok {A} (r : res A) : res_ok r -> quiet (lift r).
Proof. apply quiet_lift. Qed.
End res.
Create HintDb resdb.
Ltac res_step :=
  lazymatch goal with
  | |- res_ok (rbind _ _) => apply res_ok_rbind; [|intros ?]
  | |- res_ok (inr _) => apply res_ok_inr
  | |- res_ok (inl _) => apply res_ok_inl; nobug
  | |- res_ok (or_err _ _) => apply res_ok_or_err; nobug
  | |- res_ok (assert_that _ _) => apply res_ok_assert; nobug
  | |- res_ok (let _ := _ in _) => cbv zeta
  | |- res_ok (match ?x with _ => _ end) => destruct x
  end.
Ltac res_auto := repeat first [ solve [auto with resdb] | res_step ].
#[export] Hint Extern 2 (quiet (lift _)) => apply quiet_lift_ok; solve [res_auto] : keeps.

Section res_functions.
Lemma ok_Insert_rep cfg r x : res_ok (Insert_rep cfg r x).
Proof. unfold Insert_rep. res_auto. Qed.
Lemma ok_smallest_member_from cfg l i c p : res_ok (smallest_member_from cfg l i c p).
Proof. revert i c p. induction l; intros; cbn; res_auto. Qed.
Hint Resolve ok_smallest_member_from : resdb.
Lemma ok_Smallest_member cfg m : res_ok (Smallest_member cfg m).
Proof. unfold Smallest_member. res_auto. Qed.
Hint Resolve ok_Smallest_member : resdb.
Lemma ok_smallest_rep_from cfg l i c x : res_ok (smallest_rep_from cfg l i c x).
Proof. revert i c x. induction l; intros; cbn; unfold rep_replaces; res_auto. Qed.
Hint Resolve ok_smallest_rep_from : resdb.
Lemma ok_Smallest_rep cfg m : res_ok (Smallest_rep cfg m).
Proof. unfold Smallest_rep. res_auto. Qed.
Hint Resolve ok_Smallest_rep : resdb.
Lemma ok_sort_members_from cfg n i t m : res_ok (sort_members_from cfg n i t m).
Proof. revert i t m. induction n; intros; cbn; res_auto. Qed.
Lemma ok_Sort_members cfg m : res_ok (Sort_members cfg m).
Proof. apply ok_sort_members_from. Qed.
Lemma ok_sort_reps_from cfg n i t r : res_ok (sort_reps_from cfg n i t r).
Proof. revert i t r. induction n; intros; cbn; res_auto. Qed.
Lemma ok_Sort_reps cfg r : res_ok (Sort_reps cfg r).
Proof. apply ok_sort_reps_from. Qed.
Lemma ok_flip32_array s size o n b : no_bug (Undefined s) -> res_ok (flip32_array s size o n b).
Proof. intros. unfold flip32_array. res_auto. Qed.
Lemma ok_Flip_members size o b : res_ok (Flip_members size o b).
Proof. unfold Flip_members. cbv zeta. apply ok_flip32_array. nobug. Qed.
Lemma ok_Flip_reps size o b : res_ok (Flip_reps size o b).
Proof. unfold Flip_reps. res_auto. Qed.
Lemma ok_flip_rings_from size n p b : res_ok (flip_rings_from size n p b).
Proof.
  revert p b. induction n; intros; cbn -[flip_ring_info_at flip32_array dec_ring_info]; res_auto.
  apply ok_flip32_array; nobug.
Qed.
Lemma ok_Flip_rings size o b : res_ok (Flip_rings size o b).
Proof. apply ok_flip_rings_from. Qed.
Lemma ok_seg_subset s cfg ids procs dst :
  no_bug (Fatal s) -> res_ok (seg_subset s cfg ids procs dst).
Proof.
  intros Hs. revert dst. induction procs; intros; cbn; res_auto.
Qed.
Lemma ok_memb_subset s cfg old ids : no_bug (Fatal s) -> res_ok (memb_subset s cfg old ids).
Proof.
  intros Hs. unfold memb_subset. apply res_ok_rbind; [|done]. generalize 0.
  induction (conf_segments cfg); intros; cbn; res_auto. by apply ok_seg_subset.
Qed.
Lemma ok_split_fragments fuel b n p : res_ok (split_fragments fuel b n p).
Proof. revert p. induction fuel; intros; cbn -[get_frag]; res_auto. Qed.
Lemma ok_flip_frags fuel b n p : res_ok (flip_frags fuel b n p).
Proof. revert b p. induction fuel; intros; cbn -[flip16_at]; res_auto. Qed.
Lemma ok_Flip_token_body b n : res_ok (Flip_token_body b n).
Proof.
  unfold Flip_token_body. generalize 0. generalize (Z.to_nat n). intros fuel p.
  revert p b. induction fuel; intros; cbn -[flip_rtr_at flip32_array]; res_auto.
  apply ok_flip32_array; nobug.
Qed.
Lemma ok_potential_from cfg s l acc : res_ok (potential_from cfg s l acc).
Proof. revert acc. induction l; intros; cbn; res_auto. apply ok_Insert_rep. Qed.
Lemma ok_read_ids s b o n : no_bug (Undefined s) -> res_ok (read_ids s b o n).
Proof. intros. unfold read_ids. res_auto. Qed.
Lemma ok_scan_rings w n b p m c o : res_ok (scan_rings w n b p m c o).
Proof. revert p m c o. induction n; intros; cbn -[dec_ring_info]; res_auto. Qed.
Lemma ok_append_members cfg ids c : res_ok (append_members cfg ids c).
Proof. revert c. induction ids; intros; cbn; res_auto. Qed.
Lemma ok_find_my_ring w n b t p m : res_ok (find_my_ring w n b t p m).
Proof. revert p m. induction n; intros; cbn -[dec_ring_info]; res_auto. Qed.
Lemma ok_recompute_aru w l a b : res_ok (recompute_aru w l a b).
Proof. revert a b. induction l; intros; cbn; res_auto. Qed.
Lemma ok_insert_reps cfg l acc : res_ok (insert_reps cfg l acc).
Proof. revert acc. induction l; intros; cbn; res_auto. apply ok_Insert_rep. Qed.
Lemma ok_segment_reps cfg c s t l acc : res_ok (segment_reps cfg c s t l acc).
Proof. revert acc. induction l; intros; cbn; res_auto. apply ok_Insert_rep. Qed.
Lemma ok_join_reps b n j : res_ok (join_reps b n j).
Proof. revert j. induction n; intros; cbn; unfold join_rep; res_auto. Qed.
End res_functions.
#[export] Hint Resolve ok_Insert_rep ok_Smallest_member ok_Smallest_rep ok_Sort_members ok_Sort_reps
  ok_Flip_members ok_Flip_reps ok_Flip_rings ok_split_fragments ok_flip_frags ok_Flip_token_body
  ok_potential_from ok_scan_rings ok_append_members ok_find_my_ring ok_recompute_aru ok_insert_reps
  ok_segment_reps ok_join_reps : resdb.
#[export] Hint Extern 1 (res_ok (read_ids _ _ _ _)) => apply ok_read_ids; nobug : resdb.
#[export] Hint Extern 1 (res_ok (memb_subset _ _ _ _)) => apply ok_memb_subset; nobug : resdb.

Section res_membership.
Lemma ok_loss_reps w c t acc : res_ok (loss_reps w c t acc).
Proof. apply ok_segment_reps. Qed.
Lemma ok_build_membership cfg ids : res_ok (build_membership cfg ids).
Proof. apply ok_append_members. Qed.
Lemma ok_flip_form1 t b : res_ok (flip_form1 t b).
Proof. unfold flip_form1. res_auto. Qed.
Lemma ok_flip_form2 t b : res_ok (flip_form2 t b).
Proof. unfold flip_form2. res_auto. Qed.
Lemma ok_join_rep b j : res_ok (join_rep b j).
Proof. unfold join_rep. res_auto. Qed.
Lemma ok_flip_join t b : res_ok (flip_join t b).
Proof. unfold flip_join. res_auto. Qed.
Lemma ok_flip_packet h b : res_ok (flip_packet h b).
Proof. unfold flip_packet. res_auto. Qed.
Lemma ok_fill_ids ids m : res_ok (fill_ids ids m).
Proof. unfold fill_ids. res_auto. Qed.
Lemma ok_merged_ring_entry w b r o : res_ok (merged_ring_entry w b r o).
Proof. unfold merged_ring_entry. res_auto. Qed.
Lemma ok_remove_self w m : res_ok (remove_self w m).
Proof. unfold remove_self. res_auto. Qed.
Hint Resolve ok_merged_ring_entry ok_remove_self : resdb.
Lemma ok_fill_rings w b m : res_ok (fill_rings w b m).
Proof. unfold fill_rings. res_auto. Qed.
Lemma ok_forget_checks w i : res_ok (forget_checks w i).
Proof. unfold forget_checks. res_auto. Qed.
End res_membership.
#[export] Hint Resolve ok_loss_reps ok_build_membership ok_flip_form1 ok_flip_form2 ok_join_rep
  ok_flip_join ok_flip_packet ok_fill_ids ok_fill_rings ok_forget_checks : resdb.

(* --------------------------------------------------------------------- *)
(** ** The protocol *)

Section protocol.
Context `{SessionOk}.

Lemma quiet_put_pkt e p : quiet (put_pkt e p).
Proof. unfold put_pkt. keeps_auto. Qed.
Hint Resolve quiet_put_pkt : keeps.
Lemma quiet_set_exist e x : quiet (set_exist e x).
Proof. unfold set_exist. keeps_auto. Qed.
Hint Resolve quiet_set_exist : keeps.
Lemma quiet_leader_is c i : quiet (leader_is c i).
Proof. unfold leader_is. keeps_auto. Qed.
Hint Resolve quiet_leader_is : keeps.
Lemma quiet_Memb_commit : quiet Memb_commit.
Proof. unfold Memb_commit. keeps_auto. Qed.
Lemma quiet_Memb_transitional : quiet Memb_transitional.
Proof. unfold Memb_transitional. keeps_auto. Qed.
Lemma quiet_Prot_set_delivery_threshold t : quiet (Prot_set_delivery_threshold t).
Proof. unfold Prot_set_delivery_threshold. keeps_auto. Qed.
Lemma quiet_Prot_set_prev_proc c : quiet (Prot_set_prev_proc c).
Proof. unfold Prot_set_prev_proc. keeps_auto. Qed.
Hint Resolve quiet_Memb_commit quiet_Memb_transitional quiet_Prot_set_delivery_threshold
  quiet_Prot_set_prev_proc : keeps.

Lemma quiet_Sess_deliver_message m : quiet (Sess_deliver_message m).
Proof. unfold Sess_deliver_message, emit. keeps_auto. Qed.
Lemma quiet_Sess_deliver_trans_memb c i : quiet (Sess_deliver_trans_memb c i).
Proof. unfold Sess_deliver_trans_memb, emit. keeps_auto. Qed.
Lemma quiet_Sess_deliver_reg_memb c i : quiet (Sess_deliver_reg_memb c i).
Proof. unfold Sess_deliver_reg_memb, emit. keeps_auto. Qed.
Lemma quiet_Sess_block_users_level : quiet Sess_block_users_level.
Proof. unfold Sess_block_users_level, emit. keeps_auto. Qed.
Lemma quiet_Sess_unblock_users_level : quiet Sess_unblock_users_level.
Proof. unfold Sess_unblock_users_level, emit. keeps_auto. Qed.
Lemma quiet_Sess_signal_conf_reload : quiet Sess_signal_conf_reload.
Proof. unfold Sess_signal_conf_reload, emit. keeps_auto. Qed.
Lemma quiet_Log_membership : quiet Log_membership.
Proof. unfold Log_membership, emit. keeps_auto. Qed.
Lemma quiet_Stat_handle_message h : quiet (Stat_handle_message h).
Proof. unfold Stat_handle_message, emit. keeps_auto. Qed.
Hint Resolve quiet_Sess_deliver_message quiet_Sess_deliver_trans_memb quiet_Sess_deliver_reg_memb
  quiet_Sess_block_users_level quiet_Sess_unblock_users_level quiet_Sess_signal_conf_reload
  quiet_Log_membership quiet_Stat_handle_message : keeps.

Lemma quiet_Deliver_packet e b : quiet (Deliver_packet e b).
Proof. unfold Deliver_packet, chain_packet, put_up. keeps_auto. Qed.
Hint Resolve quiet_Deliver_packet : keeps.
Lemma quiet_Deliver_reliable_packets a n : quiet (Deliver_reliable_packets a n).
Proof. unfold Deliver_reliable_packets. keeps_auto. Qed.
Hint Resolve quiet_Deliver_reliable_packets : keeps.
Lemma quiet_Deliver_all_reliable_packets : quiet Deliver_all_reliable_packets.
Proof. unfold Deliver_all_reliable_packets. keeps_auto. Qed.
Lemma quiet_Deliver_agreed_packets : quiet Deliver_agreed_packets.
Proof. unfold Deliver_agreed_packets, deliver_agreed_step. keeps_auto. Qed.
Lemma quiet_discard_stable : quiet discard_stable.
Proof. unfold discard_stable, discard_stable_step, deliver_and_drop. keeps_auto. Qed.
Lemma quiet_discard_after l b : quiet (discard_after l b).
Proof. revert b. induction l; intros b; cbn; unfold deliver_and_drop; keeps_auto. Qed.
Lemma quiet_discard_before : quiet discard_before_transitional.
Proof. unfold discard_before_transitional, discard_before_step, deliver_and_drop. keeps_auto. Qed.
Lemma quiet_discard_queues : quiet discard_queues.
Proof. unfold discard_queues, put_up. keeps_auto. Qed.
Lemma quiet_reset_window : quiet reset_window.
Proof. unfold reset_window. keeps_auto. Qed.

Lemma quiet_send_last_token : quiet send_last_token.
Proof. unfold send_last_token. keeps_auto. Qed.
Hint Resolve quiet_send_last_token : keeps.
Lemma quiet_Prot_token_hurry : quiet Prot_token_hurry.
Proof. unfold Prot_token_hurry. keeps_auto. Qed.
Hint Resolve quiet_Prot_token_hurry : keeps.
Lemma quiet_Handle_hurry i : quiet (Handle_hurry i).
Proof. unfold Handle_hurry. keeps_auto. Qed.
Hint Resolve quiet_Handle_hurry : keeps.
Lemma quiet_Prot_new_message l : quiet (Prot_new_message l).
Proof. unfold Prot_new_message, set_down. keeps_auto. Qed.
Lemma quiet_Prot_set_down_queue t : quiet (Prot_set_down_queue t).
Proof. unfold Prot_set_down_queue. keeps_auto. Qed.
Lemma quiet_bcast_pack p : quiet (bcast_pack p).
Proof. unfold bcast_pack. keeps_auto. Qed.
Hint Resolve quiet_bcast_pack : keeps.
Lemma quiet_send_queued n : quiet (send_queued n).
Proof. induction n; cbn; unfold write_through; keeps_auto. Qed.
Hint Resolve quiet_send_queued : keeps.
Lemma quiet_Prot_flush_bcast : quiet Prot_flush_bcast.
Proof. unfold Prot_flush_bcast. keeps_auto. Qed.
Lemma quiet_Prot_queue_bcast p : quiet (Prot_queue_bcast p).
Proof. unfold Prot_queue_bcast. keeps_auto. Qed.
Hint Resolve quiet_Prot_queue_bcast : keeps.
Lemma quiet_fill_packet n m f : quiet (fill_packet n m f).
Proof. revert m f. induction n; intros; cbn; unfold advance_down, set_down; keeps_auto. Qed.
Hint Resolve quiet_fill_packet : keeps.
Lemma quiet_Send_new_packets n : quiet (Send_new_packets n).
Proof. unfold Send_new_packets, send_one_packet. keeps_auto. Qed.

Lemma quiet_answer_requests n r o a : quiet (answer_requests n r o a).
Proof.
  revert o a. induction n; intros; cbn -[get_s32]; unfold answer_one, retransmit; keeps_auto.
Qed.
Hint Resolve quiet_answer_requests : keeps.
Lemma quiet_answer_from n l o a : quiet (answer_from n l o a).
Proof. revert o a. induction n; intros; cbn -[dec_rtr get_bytes put_bytes]; keeps_auto. Qed.
Lemma quiet_Answer_retrans : quiet Answer_retrans.
Proof. unfold Answer_retrans. keeps_auto. apply quiet_answer_from. Qed.
Lemma quiet_prepare_requests n p s m : quiet (prepare_requests n p s m).
Proof. unfold prepare_requests. keeps_auto. Qed.
End protocol.
#[export] Hint Resolve quiet_put_pkt quiet_set_exist quiet_leader_is quiet_Memb_commit quiet_Memb_transitional
  quiet_Prot_set_delivery_threshold quiet_Prot_set_prev_proc quiet_Sess_deliver_message
  quiet_Sess_deliver_trans_memb quiet_Sess_deliver_reg_memb quiet_Sess_signal_conf_reload
  quiet_Log_membership quiet_Stat_handle_message quiet_Deliver_packet quiet_Deliver_reliable_packets
  quiet_Deliver_all_reliable_packets quiet_Deliver_agreed_packets quiet_discard_stable quiet_discard_after quiet_discard_before
  quiet_discard_queues quiet_reset_window quiet_Prot_token_hurry quiet_Handle_hurry
  quiet_Prot_new_message quiet_Prot_set_down_queue quiet_Prot_flush_bcast quiet_Send_new_packets
  quiet_Answer_retrans quiet_prepare_requests : keeps.

#[export] Instance null_platform : Platform := {|
  open_channels := ret tt; Conf_reload_initiate := ret false; other_event _ := ret tt
|}.
#[export] Instance null_session_ok : SessionOk.
Proof. split; intros; apply keeps_ret, _. Defined.
#[export] Instance null_platform_ok : PlatformOk.
Proof. split; intros; try apply keeps_ret, _. apply quiet_in_cf. done. Defined.

Definition sample_started : world := run_to Prot_init sample_world.
