(* ===== verification/Ring.v ===== *)
(** * The token around the ring

    Why a packet below [Aru] is stable: the [aru] a process writes into the
    token never exceeds what it has itself, and within one round the field
    can only be raised by the process that lowered it.  The visits of the
    token to the processes of a ring are a sequence; [visit_token] is what
    [token_update] does to the fields [aru], [aru_last_id] and [seq]. *)

From Stdlib Require Import ZArith Lia.
From stdpp Require Import base strings numbers option gmap list sorting.
From S2P Require Import Prelude Wire Config Events State Sample Network FlowControl MembSets MembCore Deliver.
From S2P Require Import ProtSend Retrans MembForm MembInstall Membership ProtHandle.

(** A visit in OP: the process, its [My_aru], and its [Highest_seq] once it
    has sent. *)
Record visit : Type := mkVisit { v_id : Z; v_aru : Z; v_seq : Z }.

Definition visit_token (v : visit) (t : token_header) : token_header :=
  set_th_seq (v_seq v) (set_th_proc_id (s32 (v_id v)) (token_aru false (v_id v) (v_aru v) t)).

(** The token before visit [k] of the sequence [vs]. *)
Fixpoint token_at (vs : nat -> visit) (t0 : token_header) (k : nat) : token_header :=
  match k with
  | O => t0
  | S k => visit_token (vs k) (token_at vs t0 k)
  end.

(** The visits of a ring of [n] processes: the ids repeat with period [n] and
    are distinct within it, a process that has a packet knows its number, and
    the sequence numbers grow. *)
Record ring_run (n : nat) (vs : nat -> visit) : Prop := {
  rr_ids : forall k, 0 <= v_id (vs k) < 2 ^ 32;
  rr_distinct : forall i j, (i < j < i + n)%nat -> v_id (vs i) <> v_id (vs j);
  rr_seq : forall k, v_aru (vs k) <= v_seq (vs k);
  rr_grows : forall k, v_seq (vs k) <= v_seq (vs (S k))
}.

Section aru.
Context (n : nat) (vs : nat -> visit) (t0 : token_header).
Hypothesis run : ring_run n vs.
Local Abbreviation T := (token_at vs t0).

(** Does visit [k] write the field? *)
Definition writes (k : nat) : bool :=
  (v_aru (vs k) <? th_aru (T k)) || (u32 (th_aru_last_id (T k)) =? v_id (vs k))
  || (th_aru (T k) =? th_seq (T k)).

Lemma visit_writes k :
  writes k = true -> th_aru (T (S k)) = v_aru (vs k) /\ u32 (th_aru_last_id (T (S k))) = v_id (vs k).
Proof.
  unfold writes. cbn [token_at]. unfold visit_token, token_aru. rewrite andb_true_r. intros ->. cbn.
  split; [done|]. rewrite u32_s32. apply u32_id, (rr_ids _ _ run).
Qed.

Lemma visit_leaves k :
  writes k = false -> th_aru (T (S k)) = th_aru (T k) /\ th_aru_last_id (T (S k)) = th_aru_last_id (T k).
Proof.
  unfold writes. cbn [token_at]. unfold visit_token, token_aru. rewrite andb_true_r. by intros ->.
Qed.

(** No process lets the token claim more than it has itself. *)
Lemma aru_bounded k : th_aru (T (S k)) <= v_aru (vs k).
Proof.
  destruct (writes k) eqn:Hw; [by rewrite (proj1 (visit_writes _ Hw))|].
  rewrite (proj1 (visit_leaves _ Hw)). unfold writes in Hw.
  apply orb_false_iff in Hw as [[Hw%Z.ltb_ge _]%orb_false_iff _]. lia.
Qed.

Lemma seq_grows i j : (i <= j)%nat -> v_seq (vs i) <= v_seq (vs j).
Proof. induction 1 as [|j Hj IH]; [done|]. pose proof (rr_grows _ _ run j). lia. Qed.

(** Fields that no visit from [i] on writes before [j]. *)
Lemma unwritten i j :
  (i <= j)%nat -> (forall l, (i <= l < j)%nat -> writes l = false) ->
  th_aru (T j) = th_aru (T i) /\ th_aru_last_id (T j) = th_aru_last_id (T i).
Proof.
  induction 1 as [|j Hj IH]; intros Hw; [done|].
  destruct (visit_leaves j) as [-> ->]; [apply Hw; lia|]. apply IH. intros l Hl. apply Hw. lia.
Qed.

Lemma last_write (f : nat -> bool) i j :
  (forall l, (i <= l < j)%nat -> f l = false) \/
  (exists l, (i <= l < j)%nat /\ f l = true /\ forall m, (l < m < j)%nat -> f m = false).
Proof.
  induction j as [|j [IH|(l & Hl & Hw & Hm)]].
  - left. lia.
  - destruct (decide (i <= j)%nat); [|left; lia]. destruct (f j) eqn:Hj.
    + right. exists j. split_and!; [lia|lia|done|lia].
    + left. intros x Hx. destruct (decide (x = j)) as [->|]; [done|]. apply IH. lia.
  - destruct (f j) eqn:Hj.
    + right. exists j. split_and!; [lia|lia|done|lia].
    + right. exists l. split_and!; [lia|lia|done|]. intros m Hlt.
      destruct (decide (m = j)) as [->|]; [done|]. apply Hm. lia.
Qed.

(** A visit that raises the field either takes the token's sequence number as
    its own, or is the one that wrote the field a round ago: nobody did in
    between. *)
Lemma raise_reason j :
  th_aru (T j) < th_aru (T (S j)) ->
  th_aru (T j) = th_seq (T j) \/ (forall l, (l < j)%nat -> (j < l + n)%nat -> writes l = false).
Proof.
  intros Hr. destruct (writes j) eqn:Hw; [|rewrite (proj1 (visit_leaves _ Hw)) in Hr; lia].
  rewrite (proj1 (visit_writes _ Hw)) in Hr. unfold writes in Hw.
  apply orb_true_iff in Hw as [[Hw%Z.ltb_lt|Hw%Z.eqb_eq]%orb_true_iff|Hw%Z.eqb_eq]; [lia| |by left].
  right. intros l Hl Hn. destruct (last_write writes l j) as [Hno|(m & Hm & Hwm & Hafter)]; [apply Hno; lia|].
  destruct (unwritten (S m) j) as [_ Hid]; [lia|intros; apply Hafter; lia|].
  rewrite Hid, (proj2 (visit_writes _ Hwm)) in Hw.
  exfalso. apply (rr_distinct _ _ run m j); [lia|done].
Qed.

(** A field that is not raised does not grow. *)
Lemma not_raised i j :
  (i <= j)%nat -> (forall l, (i <= l < j)%nat -> th_aru (T (S l)) <= th_aru (T l)) ->
  th_aru (T j) <= th_aru (T i).
Proof.
  induction 1 as [|j Hj IH]; intros Hl; [lia|]. pose proof (Hl j). assert (th_aru (T j) <= th_aru (T i)); [|lia].
  apply IH. intros l Hlt. apply Hl. lia.
Qed.

Lemma first_raise i j :
  (i <= j)%nat -> th_aru (T i) < th_aru (T j) ->
  exists l, (i <= l < j)%nat /\ th_aru (T l) < th_aru (T (S l)) /\ th_aru (T l) <= th_aru (T i).
Proof.
  induction 1 as [|j Hj IH]; intros Hlt; [lia|].
  destruct (Z.ltb_spec (th_aru (T i)) (th_aru (T j))) as [H|H].
  - destruct (IH H) as (l & Hl & Hr). exists l. split; [lia|done].
  - exists j. split_and!; [lia|lia|lia|done].
Qed.

Lemma round_stable k i : (k <= i <= k + n)%nat ->
  th_aru (T (S i)) <= v_aru (vs i) /\ Z.min (th_aru (T (S k))) (th_aru (T (S (k + n)))) <= v_aru (vs i).
Proof.
  intros Hi. pose proof (aru_bounded i) as Hb. split; [done|].
  apply Z.nlt_ge. intros Hlt. set (a := Z.min _ _) in Hlt.
  destruct (first_raise (S i) (S (k + n))) as (j & Hj & Hr & Hle); [lia|lia|].
  destruct (raise_reason j Hr) as [Hseq|Hno].
  - destruct j as [|j]; [lia|]. assert (Hv : th_seq (T (S j)) = v_seq (vs j)) by done.
    pose proof (seq_grows k j ltac:(lia)). pose proof (rr_seq _ _ run k). pose proof (aru_bounded k). lia.
  - destruct (unwritten (S k) j) as [Heq _]; [lia|intros l Hl; apply Hno; lia|]. lia.
Qed.
End aru.


(** ** The daemons of the ring *)

(** The three fields of a token the acknowledgement lives in. *)
Definition acks (t : token_header) : Z * Z * Z := (th_aru t, u32 (th_aru_last_id t), th_seq t).

(** What the daemon in [w] contributes to a visit. *)
Definition visit_of (w : world) : visit :=
  mkVisit (p_id (prot_My (prt w))) (My_aru (win w)) (Highest_seq (win w)).

Lemma acks_visit v t t' :
  0 <= v_id v < 2 ^ 32 -> acks t = acks t' -> acks (visit_token v t) = acks (visit_token v t').
Proof.
  intros Hv [= Ha Hl Hs]. unfold acks, visit_token, token_aru. rewrite Ha, Hl, Hs.
  by destruct (_ || _); cbn; rewrite ?Ha, ?Hl.
Qed.

(** Outside EVS, [token_update] is a visit. *)
Lemma token_update_visit ptr w w' :
  is_state (Memb_state w) EVS = false -> token_update ptr w = Done tt w' ->
  acks (Token (tok w')) = acks (visit_token (visit_of w) (Token (tok w))).
Proof.
  intros He Hu.
  refine (wp_done _ (fun _ w' => acks (Token (tok w')) = acks (visit_token (visit_of w) (Token (tok w))))
            anyerr _ _ _ Hu _).
  unfold token_update, tok_do. wp_steps. cbn [mem on_tok Memb_state] in *. cbv zeta.
  change (Memb_state (on_tok _ (on_tok _ w))) with (Memb_state w). rewrite He.
  unfold leader_is, or_fatal. cbn. destruct (Conf_leader _) as [l|]; [|done].
  apply wp_bind, wp_ret, wp_ret, wp_modify. cbn. destruct (l =? _).
  all: unfold acks, visit_token; cbn; unfold token_aru; cbn; rewrite !andb_true_r; by destruct (_ || _).
Qed.

(** The token going round a ring of [n] daemons: visit [k] is the
    [token_update] of a daemon in [ws k], which ends in [ws' k]; the ids
    repeat with period [n] and are distinct within it, what a daemon has is
    bounded by what it knows of, which grows from visit to visit; and the
    daemon that receives the token finds in it the fields the last one
    wrote. *)
Record rotation (n : nat) (ptr : nat -> Z) (ws ws' : nat -> world) : Prop := {
  ro_update : forall k, token_update (ptr k) (ws k) = Done tt (ws' k);
  ro_state : forall k, is_state (Memb_state (ws k)) EVS = false;
  ro_run : ring_run n (fun k => visit_of (ws k));
  ro_token : forall k, acks (Token (tok (ws (S k)))) = acks (Token (tok (ws' k)))
}.

Lemma rotation_token n ptr ws ws' k :
  rotation n ptr ws ws' ->
  acks (Token (tok (ws' k)))
  = acks (token_at (fun k => visit_of (ws k)) (Token (tok (ws 0%nat))) (S k)).
Proof.
  intros Hr. induction k as [|k IH]; rewrite (token_update_visit _ _ _ (ro_state _ _ _ _ Hr _) (ro_update _ _ _ _ Hr _)).
  - done.
  - cbn [token_at]. apply acks_visit; [apply (rr_ids _ _ (ro_run _ _ _ _ Hr))|]. by rewrite (ro_token _ _ _ _ Hr), IH.
Qed.

(** C18: the acknowledgement the token carries is sound.  After a visit the
    field [aru] never exceeds what the visited daemon has received in order;
    and when the token comes back to a daemon, every daemon it visited in the
    round has received all packets up to the smaller of the two values the
    daemon saw, which is what [token_stable] makes its [Aru]: a packet
    delivered as SAFE, or discarded, is one that everybody has. *)
Theorem aru_is_stable (n : nat) (ptr : nat -> Z) (ws ws' : nat -> world) (k i : nat) :
  rotation n ptr ws ws' -> (k <= i <= k + n)%nat ->
  th_aru (Token (tok (ws' i))) <= My_aru (win (ws i)) /\
  Z.min (th_aru (Token (tok (ws' k)))) (th_aru (Token (tok (ws' (k + n)%nat)))) <= My_aru (win (ws i)).
Proof.
  intros Hr Hi. pose proof (round_stable n _ (Token (tok (ws 0%nat))) (ro_run _ _ _ _ Hr) k i Hi) as Hs.
  assert (Ha : forall k, th_aru (Token (tok (ws' k)))
    = th_aru (token_at (fun k => visit_of (ws k)) (Token (tok (ws 0%nat))) (S k))).
  { intros m. by injection (rotation_token n ptr ws ws' m Hr). }
  by rewrite !Ha.
Qed.

(** Three daemons that pass the token; [12] misses packet 4. *)
Definition ring_world (k : nat) : world :=
  let id := match (k mod 3)%nat with 0%nat => 11 | 1%nat => 12 | _ => 21 end in
  let aru := match (k mod 3)%nat with 1%nat => 3 | _ => 4 end in
  on_prt (set_prot_My (sample_proc "p" id 0 0))
  (on_win (fun r => set_My_aru aru (set_Highest_seq 4 r))
  (on_mem (fun m => set_Membership sample_conf m)
  (on_tok (fun t => set_Token (set_th_seq 4 (set_th_aru 3 (set_th_aru_last_id 12 zero_token_header))) t)
   sample_world))).

Lemma aru_is_stable_witness :
  rotation 3 (fun _ => 0) ring_world (fun k => run_to (token_update 0) (ring_world k)) /\
  th_aru (Token (tok (run_to (token_update 0) (ring_world 1)))) = 3 /\
  Z.min (th_aru (Token (tok (run_to (token_update 0) (ring_world 0)))))
        (th_aru (Token (tok (run_to (token_update 0) (ring_world 3))))) <= 3.
Proof.
  assert (Hr : rotation 3 (fun _ => 0) ring_world (fun k => run_to (token_update 0) (ring_world k))).
  { assert (Hid : forall k, v_id (visit_of (ring_world k))
      = match (k mod 3)%nat with 0%nat => 11 | 1%nat => 12 | _ => 21 end) by done.
    assert (Hb : forall k, (k mod 3 < 3)%nat) by (intros k; apply Nat.mod_upper_bound; lia).
    split; [intros k|intros k; reflexivity|split; [intros k|intros k j|intros k|intros k]|intros k].
    - unfold ring_world. destruct (k mod 3)%nat as [|[|?]]; vm_compute; reflexivity.
    - rewrite Hid. by destruct (k mod 3)%nat as [|[|?]].
    - intros Hj. rewrite !Hid. pose proof (Nat.div_mod_eq k 3). pose proof (Nat.div_mod_eq j 3).
      pose proof (Hb k). pose proof (Hb j).
      destruct (k mod 3)%nat as [|[|[|?]]], (j mod 3)%nat as [|[|[|?]]]; lia.
    - unfold visit_of, ring_world. by destruct (k mod 3)%nat as [|[|?]].
    - apply Z.le_refl.
    - unfold ring_world at 2. transitivity (3, 12, 4); [by destruct (S k mod 3)%nat as [|[|?]]|].
      destruct (k mod 3)%nat as [|[|?]]; vm_compute; reflexivity. }
  split; [exact Hr|]. split; [vm_compute; reflexivity|].
  apply (aru_is_stable 3 (fun _ => 0) ring_world _ 0 1 Hr). lia.
Defined.
