(* ===== verification/Daemon.v ===== *)
(** * The daemon as a transition system

    One turn of the event loop ([E_handle_events]) runs the handler of the
    first time event that is due, or of a channel with a datagram; between
    turns the session layer hands messages down.  The steps below are those
    turns. *)

From Stdlib Require Import ZArith Lia.
From stdpp Require Import base strings numbers option gmap list.
From S2P Require Import Prelude Wire Config Events State Network FlowControl MembSets MembCore Deliver.
From S2P Require Import ProtSend Retrans MembForm MembInstall Membership ProtHandle.

Section daemon.
Context `{Session} `{Platform}.

(** The event functions. *)
Definition dispatch (f : ev_func) (code : Z) : M world unit :=
  match f with
  | Memb_token_loss_event => Memb_token_loss
  | Prot_token_hurry_event => Prot_token_hurry
  | Scast_alive_event => Scast_alive code
  | Send_join_event => Send_join
  | Form_or_fail_event => Form_or_fail
  | Gather_or_represented_event => Gather_or_represented
  | Shift_to_seg_event => Shift_to_seg
  | Memb_lookup_new_members_event => Memb_lookup_new_members
  | Deliver_all_reliable_packets_event => Deliver_all_reliable_packets
  | Deliver_agreed_packets_event => Deliver_agreed_packets
  | Prot_initiate_conf_reload_event => Prot_initiate_conf_reload
  | Clear_partition_cb => Net_clear_partition
  | Other_event n => other_event n
  end.

(** The time events of [E_handle_events]: the first one, when it is due,
    leaves the queue and its function runs; false when none is due. *)
Definition fire_time_event : M world bool :=
  let* now := read_clock in
  let* w := get in
  match ev_Time_queue (ev w) with
  | [] => ret false
  | e :: q =>
      if 0 <=? E_compare_time now (ev_t e) then
        ev_do (set_ev_Time_queue q) ;;
        dispatch (ev_f (ev_k e)) (ev_code (ev_k e)) ;;
        ret true
      else ret false
  end.

(** The channels of a priority level, in the order of the table, with the
    datagram each has, if any. *)
Definition run_fd (f : fd_func) (fd : Z) (pack : received packet_header)
    (token : received token_header) : M world unit :=
  match f with
  | Prot_handle_bcast_fd => Prot_handle_bcast fd pack
  | Prot_handle_token_fd => Prot_handle_token fd token
  | Other_fd _ => ret tt
  end.

Inductive step : world -> world -> Prop :=
| step_timer w w' :
    fire_time_event w = Done true w' -> step w w'
| step_bcast fd rx w w' :
    Prot_handle_bcast fd rx w = Done tt w' -> step w w'
| step_token fd rx w w' :
    Prot_handle_token fd rx w = Done tt w' -> step w w'
| step_new_message link w w' :
    Prot_new_message link w = Done tt w' -> step w w'
| step_threshold t w w' :
    Prot_set_delivery_threshold t w = Done tt w' -> step w w'
| step_down_queue t w w' :
    Prot_set_down_queue t w = Done tt w' -> step w w'.

(** A turn that stops the daemon. *)
Inductive step_fails : world -> err -> Prop :=
| fails_timer w e : fire_time_event w = Failed e -> step_fails w e
| fails_bcast fd rx w e : Prot_handle_bcast fd rx w = Failed e -> step_fails w e
| fails_token fd rx w e : Prot_handle_token fd rx w = Failed e -> step_fails w e
| fails_new_message link w e : Prot_new_message link w = Failed e -> step_fails w e
| fails_threshold t w e : Prot_set_delivery_threshold t w = Failed e -> step_fails w e
| fails_down_queue t w e : Prot_set_down_queue t w = Failed e -> step_fails w e.

(** The states the daemon goes through once [Prot_init] is done. *)
Inductive reachable : world -> Prop :=
| reach_init w w' : ev_Time_queue (ev w) = [] -> Prot_init w = Done tt w' -> reachable w'
| reach_step w w' : reachable w -> step w w' -> reachable w'.
End daemon.
