(* ===== verification/Requests.v ===== *)
(** * Retransmission requests on the token

    The body of a token as a sequence of blocks.  [Answer_retrans] takes my
    ring's blocks out and keeps the others in order; [prepare_requests] adds
    a block with the first packets that are missing, within the body. *)

From Stdlib Require Import ZArith Lia.
From stdpp Require Import base strings numbers option gmap list sorting.
From S2P Require Import Prelude Wire Bytes Config Events State Sample Network FlowControl MembSets MembCore Retrans.

(* --------------------------------------------------------------------- *)
(** ** Blocks *)

(** A request block: its header and the sequence numbers after it. *)
Definition block : Type := ring_rtr * list Z.
Definition enc_block (k : block) : list Z := enc_rtr k.1 ++ (k.2 ≫= enc32).
Definition enc_body (ks : list block) : list Z := ks ≫= enc_block.

Definition rtr_ok (r : ring_rtr) : Prop :=
  memb_id_ok (rr_memb_id r) /\ int32_ok (rr_proc_id r) /\ int16_ok (rr_seg_index r) /\ int16_ok (rr_num_seq r).
Definition block_ok (k : block) : Prop :=
  rtr_ok k.1 /\ rr_num_seq k.1 = Z.of_nat (length k.2) /\ Forall int32_ok k.2.

Definition block_len (k : block) : Z := sizeof_ring_rtr + sizeof_int32 * Z.of_nat (length k.2).

(** [bs] is in [b] at [o]. *)
Definition at_offset (b : buf) (o : Z) (bs : list Z) : Prop :=
  forall i, 0 <= i < Z.of_nat (length bs) -> get_byte b (o + i) = get_byte bs i.

Section blocks.
Implicit Types (b : buf) (o : Z) (bs : list Z) (k : block) (ks : list block).

Lemma length_enc32s (l : list Z) : length (l ≫= enc32) = (4 * length l)%nat.
Proof. induction l as [|z l IH]; [done|]. cbn. rewrite IH. lia. Qed.
Lemma length_enc_block k : Z.of_nat (length (enc_block k)) = block_len k.
Proof.
  unfold enc_block, block_len. rewrite length_app, length_enc32s. unfold sizeof_ring_rtr, sizeof_int32. cbn. lia.
Qed.

Lemma at_offset_app b o bs bs' :
  at_offset b o (bs ++ bs') <-> at_offset b o bs /\ at_offset b (o + Z.of_nat (length bs)) bs'.
Proof.
  unfold at_offset. rewrite length_app. split.
  - intros H. split; intros i Hi.
    + rewrite H, get_byte_app_l by lia. done.
    + rewrite <- Z.add_assoc, H, get_byte_app_r by lia. f_equal. lia.
  - intros [H1 H2] i Hi. destruct (decide (i < Z.of_nat (length bs))).
    + rewrite get_byte_app_l by lia. apply H1. lia.
    + rewrite get_byte_app_r by lia. rewrite <- H2 by lia. f_equal. lia.
Qed.

Lemma at_offset_get b o bs : 0 <= o -> at_offset b o bs -> get_bytes b o (Z.of_nat (length bs)) = bs.
Proof.
  intros Ho H. rewrite <- (get_bytes_whole bs) at 2. apply get_bytes_ext; [done..|]. intros i Hi. by rewrite H.
Qed.

Lemma get_at_offset b o bs : 0 <= o -> get_bytes b o (Z.of_nat (length bs)) = bs -> at_offset b o bs.
Proof.
  intros Ho H i Hi. rewrite <- H at 1. rewrite get_bytes_seq by done. unfold get_byte at 2. unfold aget.
  destruct (Z.ltb_spec i 0); [lia|]. rewrite list_lookup_fmap, lookup_seqZ_lt by lia. cbn. f_equal. lia.
Qed.

Lemma at_offset_put b o bs : 0 <= o -> at_offset (put_bytes b o bs) o bs.
Proof. intros Ho i Hi. by apply get_byte_put_in. Qed.

Lemma at_offset_put_out b o bs o' bs' :
  0 <= o -> o' + Z.of_nat (length bs') <= o \/ o + Z.of_nat (length bs) <= o' ->
  at_offset b o' bs' -> at_offset (put_bytes b o bs) o' bs'.
Proof. intros Ho Hd H i Hi. rewrite get_byte_put_out by lia. by apply H. Qed.

Lemma at_s16 b o z bs : int16_ok z -> at_offset b o (enc16 z ++ bs) -> get_s16 b o = z.
Proof.
  intros Hz H. rewrite (get_s16_ext b (enc16 z ++ bs) o 0), get_s16_enc16, s16_id by
    (done || (intros i Hi; rewrite H; [done|rewrite length_app; cbn; lia])). done.
Qed.
Lemma at_s32 b o z bs : int32_ok z -> at_offset b o (enc32 z ++ bs) -> get_s32 b o = z.
Proof.
  intros Hz H. rewrite (get_s32_ext b (enc32 z ++ bs) o 0), get_s32_enc32, s32_id by
    (done || (intros i Hi; rewrite H; [done|rewrite length_app; cbn; lia])). done.
Qed.

Lemma dec_rtr_at b o r bs : rtr_ok r -> at_offset b o (enc_rtr r ++ bs) -> dec_rtr b o = r.
Proof.
  intros ([Hm1 Hm2] & Hp & Hs & Hn). unfold enc_rtr, enc_memb_id. rewrite <- !app_assoc. intros H.
  pose proof H as H0. apply at_offset_app in H as [_ H4]. pose proof H4 as H4'. apply at_offset_app in H4 as [_ H8].
  pose proof H8 as H8'. apply at_offset_app in H8 as [_ H12]. pose proof H12 as H12'. apply at_offset_app in H12 as [_ H14].
  apply at_s32 in H0, H4', H8'; try done. apply at_s16 in H12', H14; try done.
  cbn [length enc32 enc16 app] in *. change (Z.of_nat 4) with 4 in *. change (Z.of_nat 2) with 2 in *.
  replace (o + 4 + 4) with (o + 8) in * by lia. replace (o + 8 + 4) with (o + 12) in * by lia.
  replace (o + 12 + 2) with (o + 14) in * by lia.
  unfold dec_rtr, dec_memb_id. rewrite H0, H4', H8', H12', H14. by destruct r as [[] ? ? ?].
Qed.
End blocks.

(* --------------------------------------------------------------------- *)
(** ** My requests *)

Section requests.
Implicit Types (w : world).

(** The missing packets among the [n] from [i] on. *)
Definition missing_from w (i n : Z) : list Z := filter (fun s => missing w s = true) (seqZ i n).

Lemma seqZ_succ i (n : nat) : seqZ i (Z.of_nat (S n)) = i :: seqZ (i + 1) (Z.of_nat n).
Proof.
  rewrite Nat2Z.inj_succ, seqZ_cons by lia. by rewrite Z.pred_succ.
Qed.

Lemma collect_requests_take w n : forall i allowed,
  0 <= allowed ->
  collect_requests w n i allowed = take (Z.to_nat allowed) (missing_from w i (Z.of_nat n)).
Proof.
  induction n as [|n IH]; intros i allowed Ha; [by destruct (Z.to_nat allowed)|].
  unfold missing_from. rewrite seqZ_succ. cbn [collect_requests].
  destruct (Z.leb_spec allowed 0) as [H0|H0]; [by replace (Z.to_nat allowed) with 0%nat by lia|].
  destruct (missing w i) eqn:Hm.
  - rewrite filter_cons_True by done.
    replace (Z.to_nat allowed) with (S (Z.to_nat (allowed - 1))) by lia. cbn. f_equal. apply IH. lia.
  - rewrite filter_cons_False by (by rewrite Hm). apply IH. lia.
Qed.

(** The [size_t] subtraction wraps when there is no room; the [int] it is
    stored in is then negative. *)
Lemma retrans_allowed_bound new_ptr :
  0 <= new_ptr <= sizeof_token_body -> 1 < retrans_allowed new_ptr ->
  retrans_allowed new_ptr < 2 ^ 15 /\
  new_ptr + sizeof_ring_rtr + sizeof_int32 * retrans_allowed new_ptr <= sizeof_token_body.
Proof.
  unfold retrans_allowed. change sizeof_token_body with 65467. change sizeof_ring_rtr with 16. change sizeof_int32 with 4.
  intros Hp. set (x := 65467 - new_ptr - 16).
  destruct (Z.le_gt_cases 0 x) as [Hx|Hx].
  - unfold u64. rewrite Z.mod_small by (unfold x in *; lia).
    pose proof (Z.div_pos x 4 Hx ltac:(lia)). pose proof (Z.mul_div_le x 4 ltac:(lia)).
    rewrite s32_id by (unfold x in *; lia). unfold x in *. lia.
  - assert (Hu : u64 x = x + 2 ^ 64).
    { unfold u64. rewrite <- (Z.mod_add x 1) by lia. apply Z.mod_small. unfold x in *. lia. }
    rewrite Hu. change (x + 2 ^ 64) with (x + 2 ^ 62 * 4). rewrite Z.div_add by lia.
    assert (Hs : s32 (x / 4 + 2 ^ 62) = x / 4).
    { unfold s32. replace (x / 4 + 2 ^ 62 + 2 ^ 31) with (x / 4 + 2 ^ 31 + 2 ^ 30 * 2 ^ 32) by lia.
      rewrite Z.mod_add by lia. rewrite Z.mod_small; [lia|].
      pose proof (Z.div_lt_upper_bound x 4 0 ltac:(lia) ltac:(lia)).
      pose proof (Z.div_le_lower_bound x 4 (-5) ltac:(lia) ltac:(unfold x; lia)). lia. }
    rewrite Hs. pose proof (Z.div_lt_upper_bound x 4 0 ltac:(lia) ltac:(lia)). lia.
Qed.
End requests.

(** C40: the requests a daemon puts on the token.  It never fails and never
    writes past the body, whatever the length so far; what other daemons
    wrote stays; and the block it adds, when there is one, decodes to its
    ring, the addressee and the first packets that are missing between its
    [My_aru] and the limit, in order: all of them, or as many as fit. *)
Theorem prepare_requests_block (w : world) (new_ptr proc_id seg_index max : Z) :
  let miss := missing_from w (My_aru (win w) + 1) (max - My_aru (win w)) in
  let allowed := retrans_allowed new_ptr in
  0 <= new_ptr <= sizeof_token_body -> memb_id_ok (Memb_id w) -> int32_ok proc_id -> int16_ok seg_index ->
  0 <= My_aru (win w) -> int32_ok max ->
  exists len b', prepare_requests new_ptr proc_id seg_index max w
      = Done len (on_tok (set_New_token_buf b') w) /\
    new_ptr <= len <= sizeof_token_body /\
    (forall i, i < new_ptr -> get_byte b' i = get_byte (New_token_buf (tok w)) i) /\
    if (My_aru (win w) <? max) && (1 <? allowed) then
      let reqs := take (Z.to_nat allowed) miss in
      let k := (mkRtr (Memb_id w) proc_id seg_index (Z.of_nat (length reqs)), reqs) in
      block_ok k /\ at_offset b' new_ptr (enc_block k) /\ len = new_ptr + block_len k
    else len = new_ptr.
Proof.
  intros miss allowed Hp Hid Hproc Hseg Haru Hmax. unfold prepare_requests, bind, get. cbv zeta. fold allowed.
  destruct ((My_aru (win w) <? max) && (1 <? allowed)) eqn:Hc.
  - apply andb_true_iff in Hc as [Hlt%Z.ltb_lt Hal%Z.ltb_lt].
    destruct (retrans_allowed_bound new_ptr Hp Hal) as [Hal1 Hal2]. fold allowed in Hal1, Hal2.
    rewrite collect_requests_take, Z2Nat.id by lia. fold miss.
    set (reqs := take (Z.to_nat allowed) miss).
    assert (Hlen : Z.of_nat (length reqs) <= allowed) by (unfold reqs; rewrite length_take; lia).
    set (k := (mkRtr (Memb_id w) proc_id seg_index (Z.of_nat (length reqs)), reqs)).
    rewrite s16_id by lia. change (enc_rtr _ ++ (reqs ≫= enc32)) with (enc_block k).
    eexists _, _. split; [reflexivity|].
    assert (Hk : new_ptr + sizeof_ring_rtr + 4 * Z.of_nat (length reqs) = new_ptr + block_len k).
    { unfold block_len, k, sizeof_int32. cbn. lia. }
    unfold sizeof_int32, sizeof_ring_rtr in *. split; [lia|]. split; [|split; [|split; [|exact Hk]]].
    + intros i Hi. apply get_byte_put_out; lia.
    + split; [|split; [done|]]; [unfold rtr_ok, int16_ok in *; cbn; split_and!; (done || apply Hid || lia)|].
      apply Forall_take. apply Forall_forall. intros s [_ Hs%elem_of_seqZ]%list_elem_of_filter.
      unfold int32_ok in *. lia.
    + apply at_offset_put. lia.
  - eexists new_ptr, (New_token_buf (tok w)). split; [by destruct w as [? ? ? ? ? ? [] ? ? ? ?]|].
    split_and!; (done || lia).
Qed.

(** A window that misses packets 2 and 4. *)
Definition sample_gaps : world :=
  on_win (fun r => set_Packets (<[1 := sample_packet AGREED_TYPE (-1) []]>
    (<[3 := sample_packet AGREED_TYPE (-1) []]> ∅)) (set_My_aru 1 (set_Highest_seq 4 r))) sample_world.

Lemma prepare_requests_block_witness :
  exists len b', prepare_requests 0 11 0 4 sample_gaps = Done len (on_tok (set_New_token_buf b') sample_gaps) /\
    at_offset b' 0 (enc_block (mkRtr zero_memb_id 11 0 2, [2; 4])) /\ len = 24.
Proof.
  destruct (prepare_requests_block sample_gaps 0 11 0 4) as (len & b' & He & _ & _ & H);
    try (unfold memb_id_ok, int32_ok, int16_ok; cbn; unfold sizeof_token_body, sizeof_token_header; lia).
  assert (Hm : missing_from sample_gaps (My_aru (win sample_gaps) + 1) (4 - My_aru (win sample_gaps)) = [2; 4])
    by (vm_compute; reflexivity).
  rewrite Hm in H. exists len, b'. split; [exact He|]. destruct H as (_ & Ha & Hl). split; [exact Ha|exact Hl].
Defined.

(* --------------------------------------------------------------------- *)
(** ** Answering *)

(** What a send leaves alone. *)
Definition io_only (w w' : world) : Prop :=
  win w' = win w /\ mem w' = mem w /\ prt w' = prt w /\ tok w' = tok w /\ fc w' = fc w.
#[export] Instance io_only_preorder : PreOrder io_only.
Proof.
  split; [by intros w|]. intros w1 w2 w3 (?&?&?&?&?) (?&?&?&?&?). unfold io_only. split_and!; congruence.
Qed.
(** The only alarm of a send: no segment address, or too many. *)
Definition send_alarm (e : err) : Prop := e = Fatal "send_bcast: illegal Bcast_addrs_num".
Abbreviation sends := (keeps io_only send_alarm).

Lemma sends_sendto a d : sends (DL_sendto_gen a d).
Proof. intros w. unfold DL_sendto_gen, io_do. wp_steps. done. Qed.

Lemma sends_all d l r : sends (send_all d l r).
Proof.
  revert r. induction l as [|a l IH]; intros r; cbn; [apply (keeps_ret _ _)|].
  apply (keeps_bind _ _); [apply sends_sendto|done].
Qed.

Lemma sends_bcast d : sends (send_bcast d).
Proof.
  unfold send_bcast. apply (keeps_bind _ _); [apply (keeps_get _ _)|intros w]. cbv zeta.
  apply (keeps_if _ _); intros _; [by apply keeps_fail|].
  destruct (Bcast_addrs (net w)) as [|a l]; [by apply keeps_fail|].
  apply (keeps_bind _ _); [apply sends_sendto|]. induction l as [|x l IH]; intros r; [apply (keeps_ret _ _)|].
  apply (keeps_bind _ _); [apply sends_sendto|intros; apply IH].
Qed.

Ltac sends_step :=
  lazymatch goal with
  | |- keeps _ _ (bind _ _) => apply (keeps_bind _ _); [|intros ?]
  | |- keeps _ _ (ret _) => apply (keeps_ret _ _)
  | |- keeps _ _ get => apply (keeps_get _ _)
  | |- keeps _ _ (DL_sendto_gen _ _) => apply sends_sendto
  | |- keeps _ _ (send_all _ _ _) => apply sends_all
  | |- keeps _ _ (send_bcast _) => apply sends_bcast
  | |- keeps _ _ (let _ := _ in _) => cbv zeta
  | |- keeps _ _ (match ?x with _ => _ end) => destruct x
  end.

Lemma sends_Net_bcast h l : sends (Net_bcast h l).
Proof. unfold Net_bcast. repeat sends_step. Qed.
Lemma sends_Net_scast i h l : sends (Net_scast i h l).
Proof. unfold Net_scast. repeat sends_step. Qed.
Lemma sends_Net_ucast i h l : sends (Net_ucast i h l).
Proof. unfold Net_ucast. repeat sends_step. Qed.

(** *** What goes out *)

(** What a header says of the packet's contents. *)
Definition load (h : packet_header) : Z * Z * Z * Z * Z * Z * membership_id :=
  (ph_seq h, ph_proc_id h, ph_data_len h, ph_fragment_index h, ph_fragment_len h, Is_regular (ph_type h), ph_memb_id h).

Lemma load_seq h h' : load h = load h' -> ph_seq h = ph_seq h'.
Proof. by intros [= -> _ _ _ _ _ _]. Qed.

Lemma load_stamp w h : load (stamp_pack w h) = load h.
Proof. unfold load, stamp_pack. cbn -[Is_regular]. unfold Is_regular. by rewrite land_endian. Qed.
Lemma load_routed h : load (set_ph_type (Set_routed (ph_type h)) h) = load h.
Proof. unfold load. cbn -[Is_regular]. unfold Is_regular, Set_routed. by rewrite land_lor_out. Qed.
Lemma load_clear h : load (set_ph_type (Clear_routed (ph_type h)) h) = load h.
Proof. unfold load. cbn -[Is_regular]. unfold Is_regular, Clear_routed. by rewrite land_clear_out. Qed.

(** The datagrams among the outputs. *)
Definition is_datagram (x : output) : bool := match x with Out_sendto _ _ => true | _ => false end.
Definition datagrams (w : world) : list output := filter (fun x => is_datagram x = true) (io_out (io w)).

(** [out] is one packet sent to the addresses [dsts]: a datagram for each,
    with what the header says of the contents and the very elements. *)
Definition transmits (h : packet_header) (elems : scatter) (dsts : list spu_addr) (out : list output) : Prop :=
  Forall2 (fun a x => exists h', x = Out_sendto a (PackGram h' elems) /\ load h' = load h) dsts out.

Lemma transmits_same h h0 elems dsts d :
  load h0 = load h -> d = PackGram h0 elems -> transmits h elems dsts ((fun a => Out_sendto a d) <$> dsts).
Proof. intros Hl ->. induction dsts as [|a l IH]; constructor; [by exists h0|done]. Qed.
Lemma transmits_load h h' elems dsts out : load h' = load h -> transmits h' elems dsts out -> transmits h elems dsts out.
Proof. intros Hl H. eapply Forall2_impl; [exact H|]. intros a x (h0 & -> & H0). exists h0. by rewrite H0. Qed.

(** Whom a packet goes to: the other segments, and my segment when it has to
    be told apart; a segment; a process. *)
Definition my_segment (w : world) : list spu_addr := if truth (Bcast_needed (net w)) then Bcast_addrs (net w) else [].
Definition everybody (w : world) : list spu_addr := Send_addrs (net w) ++ my_segment w.
Definition segment_of (w : world) (i : Z) : list spu_addr :=
  if i =? p_seg_index (net_My (net w)) then my_segment w
  else match seg_procs (conf_segment (Net_membership (net w)) i) with p :: _ => [p_addr p] | [] => [] end.
Definition process_of (w : world) (id : Z) : list spu_addr :=
  match (Conf_proc_by_id_in_conf (cf_Config (cf w)) (u32 id)).2 with Some p => [p_addr p] | None => [] end.

(** The network and the configuration stay as well. *)
Definition sends_only (w w' : world) : Prop := io_only w w' /\ net w' = net w /\ cf w' = cf w.
#[export] Instance sends_only_preorder : PreOrder sends_only.
Proof.
  split; [by intros w|]. intros w1 w2 w3 (?&?&?) (?&?&?). split; [by etransitivity|]. split; congruence.
Qed.

(** Only the datagrams [out] left. *)
Definition put_out (out : list output) (w w' : world) : Prop := sends_only w w' /\ datagrams w' = datagrams w ++ out.
Lemma put_out_nil w : put_out [] w w.
Proof. split; [done|by rewrite app_nil_r]. Qed.
Lemma put_out_trans l1 l2 w w1 w2 : put_out l1 w w1 -> put_out l2 w1 w2 -> put_out (l1 ++ l2) w w2.
Proof. intros [H1 Hd1] [H2 Hd2]. split; [by etransitivity|]. by rewrite Hd2, Hd1, app_assoc. Qed.

Lemma DL_sendto_gen_out a d w : wp (DL_sendto_gen a d) (fun _ => put_out [Out_sendto a d] w) never w.
Proof.
  unfold DL_sendto_gen, emit, io_do. wp_steps. split; [done|]. unfold datagrams. cbn. by rewrite filter_app.
Qed.
Lemma sendto_then {A} a d (f : Z -> M world A) (Q : A -> world -> Prop) E w :
  (forall r w1, put_out [Out_sendto a d] w w1 -> wp (f r) Q E w1) -> wp (let* r := DL_sendto_gen a d in f r) Q E w.
Proof. intros Hf. apply wp_bind. eapply wp_mono; [apply DL_sendto_gen_out|apply Hf|done]. Qed.

Lemma send_all_out d l : forall r w, wp (send_all d l r) (fun _ => put_out ((fun a => Out_sendto a d) <$> l) w) never w.
Proof.
  induction l as [|a l IH]; intros r w; cbn [send_all]; [apply wp_ret, put_out_nil|].
  apply sendto_then. intros r1 w1 H1. eapply wp_mono; [apply IH| |done]. intros ? w2 H2. exact (put_out_trans _ _ _ _ _ H1 H2).
Qed.
Lemma send_bcast_out d w :
  wp (send_bcast d) (fun _ => put_out ((fun a => Out_sendto a d) <$> Bcast_addrs (net w)) w) send_alarm w.
Proof.
  unfold send_bcast. apply wp_bind, wp_get. cbv zeta. apply wp_if; intros _; [by apply wp_fail|].
  destruct (Bcast_addrs (net w)) as [|a0 l]; [by apply wp_fail|]. apply sendto_then. intros r w1 H1.
  enough (Hgo : forall w2 r, wp ((fix go (l : list spu_addr) (r : Z) : M world Z :=
      match l with [] => ret r | a :: l => let* tmp := DL_sendto_gen a d in go l (if tmp <? r then tmp else r) end) l r)
    (fun _ => put_out ((fun a => Out_sendto a d) <$> l) w2) send_alarm w2).
  { eapply wp_mono; [apply Hgo| |done]. intros ? w3 H3. exact (put_out_trans _ _ _ _ _ H1 H3). }
  clear r H1. induction l as [|a l IH]; intros w2 r; [apply wp_ret, put_out_nil|].
  apply sendto_then. intros r1 w3 H3. eapply wp_mono; [apply IH| |done]. intros ? w4 H4. exact (put_out_trans _ _ _ _ _ H3 H4).
Qed.

(** A packet that went to [dsts], and the header that is left. *)
Definition sent_to (h : packet_header) (elems : scatter) (dsts : list spu_addr) (w : world) (r : Z * packet_header) (w' : world) : Prop :=
  load r.2 = load h /\ exists out, put_out out w w' /\ transmits h elems dsts out.

Lemma sent_to_nobody h h' elems w k : load h' = load h -> sent_to h elems [] w (k, h') w.
Proof. intros Hh. split; [done|]. exists []. split; [apply put_out_nil|constructor]. Qed.
Lemma sent_to_all h h0 h1 elems dsts w k w' :
  load h0 = load h -> load h1 = load h -> put_out ((fun a => Out_sendto a (PackGram h0 elems)) <$> dsts) w w' ->
  sent_to h elems dsts w (k, h1) w'.
Proof. intros H0 H1 Hp. split; [done|]. eexists. split; [exact Hp|]. by apply (transmits_same h h0). Qed.

Lemma Net_bcast_out h elems w : wp (Net_bcast h elems) (sent_to h elems (everybody w) w) send_alarm w.
Proof.
  unfold Net_bcast. apply wp_bind, wp_get. cbv zeta. set (h1 := stamp_pack _ _).
  assert (H1 : load h1 = load h) by (unfold h1; by rewrite load_stamp, load_routed). apply wp_bind.
  eapply wp_mono; [apply send_all_out| |done]. intros r w1 Hw1. pose proof (proj1 Hw1) as (_ & Hnet & _).
  set (h2 := set_ph_type _ h1). assert (H2 : load h2 = load h) by (unfold h2; by rewrite load_clear).
  assert (Hfew : forall k, my_segment w = [] -> sent_to h elems (everybody w) w (k, h2) w1).
  { intros k Hm. unfold everybody. rewrite Hm, app_nil_r. by apply (sent_to_all h h1). }
  apply wp_if; intros Hb.
  - apply wp_bind. eapply wp_mono; [apply send_bcast_out| |done]. intros r' w2 Hw2. apply wp_ret. split; [done|].
    eexists. split; [exact (put_out_trans _ _ _ _ _ Hw1 Hw2)|]. rewrite Hnet. unfold everybody, my_segment. rewrite Hb.
    apply Forall2_app; [by apply (transmits_same h h1)|by apply (transmits_same h h2)].
  - apply wp_if; intros _; apply wp_ret, Hfew; unfold my_segment; by rewrite Hb.
Qed.
Lemma Net_scast_out i h elems w : wp (Net_scast i h elems) (sent_to h elems (segment_of w i) w) send_alarm w.
Proof.
  unfold Net_scast, segment_of, my_segment. apply wp_bind, wp_get. cbv zeta. pose proof (load_stamp w h) as Hh.
  destruct (i =? _); [apply wp_if; intros Hb; rewrite Hb|].
  - apply wp_bind. eapply wp_mono; [apply send_bcast_out| |done]. intros r' w2 Hw2. by apply wp_ret, (sent_to_all h (stamp_pack w h)).
  - by apply wp_ret, sent_to_nobody.
  - destruct (seg_procs _) as [|p l]; [by apply wp_ret, sent_to_nobody|].
    apply sendto_then. intros r w1 H1. apply wp_ret. by eapply (sent_to_all h); [| |exact H1]; rewrite ?load_clear, ?load_routed.
Qed.
Lemma Net_ucast_out id h elems w : wp (Net_ucast id h elems) (sent_to h elems (process_of w id) w) send_alarm w.
Proof.
  unfold Net_ucast, process_of. apply wp_bind, wp_get. cbv zeta. pose proof (load_stamp w h) as Hh.
  destruct (snd _) as [p|]; [|by apply wp_ret, sent_to_nobody].
  apply sendto_then. intros r w1 H1. apply wp_ret. by apply (sent_to_all h (stamp_pack w h)).
Qed.

(** *** What answering changes *)

(** A send only marks the header of the packet. *)
Definition resent (p p' : packet_info) : Prop :=
  load (pi_head p') = load (pi_head p) /\ pi_body p' = pi_body p /\ pi_exist p' = pi_exist p /\ pi_proc_index p' = pi_proc_index p.
Definition answer_rel (w w' : world) : Prop :=
  Aru (win w') = Aru (win w) /\ mem w' = mem w /\ prt w' = prt w /\ tok w' = tok w /\ net w' = net w /\ cf w' = cf w /\
  (forall e, resent (pkt w e) (pkt w' e)).
#[export] Instance answer_rel_preorder : PreOrder answer_rel.
Proof.
  split; [by intros w; split_and!|]. intros w1 w2 w3 (?&?&?&?&?&?&Hm1) (?&?&?&?&?&?&Hm2).
  unfold answer_rel. split_and!; [congruence..|]. intros e. destruct (Hm1 e) as (?&?&?&?), (Hm2 e) as (?&?&?&?).
  split_and!; congruence.
Qed.
Lemma answer_missing w w' s : answer_rel w w' -> missing w' s = missing w s.
Proof. intros (_ & _ & _ & _ & _ & _ & Hm). unfold missing. by destruct (Hm (slot s)) as (_ & _ & -> & _). Qed.

(** Whom a request names: one process, one segment or everybody. *)
Definition addressees (w : world) (r : ring_rtr) : list spu_addr :=
  if negb (rr_proc_id r =? -1) then process_of w (rr_proc_id r)
  else if negb (rr_seg_index r =? -1) then segment_of w (rr_seg_index r)
  else everybody w.

(** [out] is what answers the request [q]: the packet that was asked for. *)
Definition answers (w : world) (q : ring_rtr * Z) (out : list output) : Prop :=
  let p := pkt w (slot q.2) in
  transmits (pi_head p) [mkElem (pi_body p) (ph_data_len (pi_head p))] (addressees w q.1) out.
(** Nothing went out but the answers to those of [qs] that are here, in order. *)
Definition answered (qs : list (ring_rtr * Z)) (w w' : world) : Prop :=
  exists outs, datagrams w' = datagrams w ++ concat outs /\
    Forall2 (answers w) (filter (fun q => missing w q.2 = false) qs) outs.

Lemma answered_nil w w' : datagrams w' = datagrams w -> answered [] w w'.
Proof. intros H. exists []. cbn. by rewrite app_nil_r. Qed.
Lemma answers_same w w' q out : answer_rel w w' -> answers w' q out -> answers w q out.
Proof.
  intros (_ & _ & _ & _ & Hn & Hc & Hp). destruct (Hp (slot q.2)) as (Hl & Hb & _). unfold answers.
  assert (Hd : ph_data_len (pi_head (pkt w' (slot q.2))) = ph_data_len (pi_head (pkt w (slot q.2)))) by by injection Hl.
  assert (Ha : addressees w' q.1 = addressees w q.1).
  { unfold addressees, process_of, segment_of, everybody, my_segment. by rewrite Hn, Hc. }
  rewrite Ha, Hb, Hd. by apply transmits_load.
Qed.
Lemma answered_app qs qs' w w1 w2 : answer_rel w w1 -> answered qs w w1 -> answered qs' w1 w2 -> answered (qs ++ qs') w w2.
Proof.
  intros Hw (o1 & Hd1 & Ho1) (o2 & Hd2 & Ho2). exists (o1 ++ o2). rewrite Hd2, Hd1, concat_app, app_assoc. split; [done|].
  rewrite filter_app. apply Forall2_app; [done|].
  assert (Hf : filter (fun q => missing w1 q.2 = false) qs' = filter (fun q => missing w q.2 = false) qs').
  { apply list_filter_iff. intros q. by rewrite (answer_missing w w1). }
  rewrite Hf in Ho2. eapply Forall2_impl; [exact Ho2|]. intros q out. by apply answers_same.
Qed.

(** A block of another ring; the requests of mine, with their blocks. *)
Definition foreign (w : world) (k : block) : bool := negb (Memb_is_equal (rr_memb_id k.1) (Memb_id w)).
Definition others (w : world) (ks : list block) : list block := filter (fun k => foreign w k = true) ks.
Definition asked (w : world) (ks : list block) : list (ring_rtr * Z) :=
  ks ≫= (fun k => if foreign w k then [] else pair k.1 <$> k.2).

(** The counters of the answer: packets sent, and where my own requests
    should be answered, [-1] being everywhere. *)
Definition counts (a : answer) : Z * Z * Z := (an_num_retrans a, an_proc_id a, an_seg_index a).
Definition ask (w : world) (c : Z * Z * Z) (q : ring_rtr * Z) : Z * Z * Z :=
  let '(n, p, s) := c in
  if missing w q.2
  then (n, -1, if rr_seg_index q.1 =? p_seg_index (prot_My (prt w)) then s else -1)
  else (n + 1, p, s).

Lemma ask_same w w' c q : answer_rel w w' -> ask w' c q = ask w c q.
Proof. intros Hw. pose proof Hw as (_ & _ & Hp & _). unfold ask. by rewrite Hp, (answer_missing w w'). Qed.

(** What the counters add up to. *)
Lemma ask_all w l n p s :
  fold_left (ask w) l (n, p, s) =
  (n + Z.of_nat (length (filter (fun q => missing w q.2 = false) l)),
   if existsb (fun q => missing w q.2) l then -1 else p,
   if existsb (fun q => missing w q.2 && negb (rr_seg_index q.1 =? p_seg_index (prot_My (prt w)))) l then -1 else s).
Proof.
  revert n p s. induction l as [|q l IH]; intros n p s; cbn [fold_left existsb]; [cbn; by rewrite Z.add_0_r|].
  unfold ask at 2. destruct (missing w q.2) eqn:Hm; rewrite IH; cbn [orb andb].
  - rewrite filter_cons_False by (by rewrite Hm). f_equal; [f_equal; by destruct (existsb _ l)|].
    destruct (rr_seg_index q.1 =? p_seg_index (prot_My (prt w))); cbn; [done|].
    by match goal with |- context [existsb ?f l] => destruct (existsb f l) end.
  - rewrite filter_cons_True by done. cbn [length]. f_equal. f_equal. lia.
Qed.

Section answer.
Lemma retransmit_rel r s w :
  wp (retransmit r (slot s)) (fun _ w' => answer_rel w w' /\ exists out, datagrams w' = datagrams w ++ out /\ answers w (r, s) out) send_alarm w.
Proof.
  unfold retransmit. apply wp_bind, wp_get. cbv zeta. set (p := pkt w (slot s)). set (elems := [_]). apply wp_bind.
  apply (wp_mono _ (fun h w1 => load h = load (pi_head p) /\ sends_only w w1 /\ exists out, datagrams w1 = datagrams w ++ out /\
    transmits (pi_head p) elems (addressees w r) out) _ send_alarm); [| |done].
  { assert (Hdone : forall (m : M world (Z * packet_header)) (f : status -> status) dsts,
      wp m (sent_to (pi_head p) elems dsts w) send_alarm w ->
      wp (let* ' (_, h) := m in stat_do f ;; ret h)
        (fun h w1 => load h = load (pi_head p) /\ sends_only w w1 /\ exists out, datagrams w1 = datagrams w ++ out /\
           transmits (pi_head p) elems dsts out) send_alarm w).
    { intros m f dsts Hm. apply wp_bind. eapply wp_mono; [exact Hm| |done]. intros [k h] w1 [Hl (out & [Hio Hd] & Ht)].
      apply wp_bind, wp_modify, wp_ret. split; [done|]. split; [exact Hio|]. by exists out. }
    unfold addressees. apply wp_if; intros Hc; rewrite Hc; [apply Hdone, Net_ucast_out|].
    apply wp_if; intros Hc2; rewrite Hc2; [apply Hdone, Net_scast_out|apply Hdone, Net_bcast_out]. }
  intros h w1 (Hl & ((Hw & Hm & Hp & Ht & _) & Hn & Hc) & out & Hd & Htr). apply wp_modify. split; [|by exists out].
  split_and!; try done; [by cbn; rewrite Hw|]. intros e. unfold pkt at 2. cbn. rewrite Hw.
  destruct (decide (e = slot s)) as [->|Hne]; [by rewrite lookup_insert_eq|by rewrite lookup_insert_ne].
Qed.

Lemma answer_one_spec r s a w :
  Aru (win w) <= s ->
  wp (answer_one r s a) (fun a' w' => answer_rel w w' /\ answered [(r, s)] w w' /\ counts a' = ask w (counts a) (r, s) /\
    an_new_ptr a' = an_new_ptr a /\ an_rtr a' = an_rtr a) send_alarm w.
Proof.
  intros Hs. unfold answer_one. apply wp_bind, wp_get. apply wp_if; [intros ?%Z.ltb_lt; lia|intros _].
  unfold ask, counts, answered. cbn [fst snd]. change (pi_exist (pkt w (slot s)) =? 0) with (missing w s).
  destruct (missing w s) eqn:Hm; cbn [negb].
  - apply wp_ret. split; [done|]. split; [|done]. exists []. rewrite filter_cons_False by (cbn; by rewrite Hm). cbn. by rewrite app_nil_r.
  - apply wp_bind. eapply wp_mono; [apply retransmit_rel| |done]. intros ? w' (Hw & out & Hd & Ho). apply wp_ret.
    split; [done|]. split; [|done]. exists [out]. rewrite filter_cons_True by done. cbn. rewrite app_nil_r. split; [done|].
    by repeat constructor.
Qed.

Lemma answer_requests_spec r l : forall o a w,
  Forall int32_ok l -> Forall (fun s => Aru (win w) <= s) l ->
  0 <= o -> o + sizeof_int32 * Z.of_nat (length l) <= sizeof_token_body -> at_offset (an_rtr a) o (l ≫= enc32) ->
  wp (answer_requests (length l) r o a) (fun a' w' => answer_rel w w' /\ answered (pair r <$> l) w w' /\
    counts a' = fold_left (ask w) (pair r <$> l) (counts a) /\
    an_new_ptr a' = an_new_ptr a /\ an_rtr a' = an_rtr a) send_alarm w.
Proof.
  unfold sizeof_int32. induction l as [|s l IH]; intros o a w Hl Haru Ho Hlen Hat; cbn [answer_requests length] in *; [apply wp_ret; split; [done|]; by split; [apply answered_nil|]|].
  inversion Hl as [|? ? Hs Hl']; inversion Haru as [|? ? Hs' Haru']; subst. unfold sizeof_int32.
  apply wp_if; [intros ?%Z.ltb_lt; lia|intros _]. cbn [mbind list_bind] in Hat. apply wp_bind.
  rewrite (at_s32 _ _ s (l ≫= enc32)) by done. apply at_offset_app in Hat as [_ Hat].
  eapply wp_mono; [by apply answer_one_spec| |done]. intros a1 w1 (Hw1 & Ho1 & Hc1 & Hn1 & Hb1).
  eapply wp_mono; [apply IH; rewrite ?Hb1; try done; try lia| |done].
  - destruct Hw1 as (-> & _). done.
  - intros a2 w2 (Hw2 & Ho2 & Hc2 & Hn2 & Hb2). split; [by etransitivity|]. split; [exact (answered_app [(r, s)] _ _ _ _ Hw1 Ho1 Ho2)|].
    split_and!; [|congruence..].
    rewrite Hc2, Hc1. cbn [fmap list_fmap fold_left].
    generalize (ask w (counts a) (r, s)) as c. clear - Hw1. induction l as [|x l IH]; intros c; [done|].
    cbn. rewrite <- IH. f_equal. by apply ask_same.
Qed.

Lemma others_same w w' ks : answer_rel w w' -> others w' ks = others w ks.
Proof. intros (_ & Hm & _). unfold others, foreign, Memb_id. by rewrite Hm. Qed.
Lemma asked_same w w' ks : answer_rel w w' -> asked w' ks = asked w ks.
Proof. intros (_ & Hm & _). unfold asked, foreign, Memb_id. by rewrite Hm. Qed.
Lemma asks_same w w' l c : answer_rel w w' -> fold_left (ask w') l c = fold_left (ask w) l c.
Proof.
  intros Hw. revert c. induction l as [|x l IH]; intros c; [done|]. cbn. rewrite IH. f_equal. by apply ask_same.
Qed.

Lemma asked_cons w k ks : asked w (k :: ks) = (if foreign w k then [] else pair k.1 <$> k.2) ++ asked w ks.
Proof. done. Qed.
Lemma others_cons w k ks : others w (k :: ks) = (if foreign w k then [k] else []) ++ others w ks.
Proof. unfold others. rewrite filter_cons. by destruct (foreign w k). Qed.

(** The loop over the blocks [ks] that are left, at [o]; what is kept goes
    to the length so far. *)
Lemma answer_from_spec ks : forall fuel o a w rtr_len,
  Forall block_ok ks -> Forall (fun q => Aru (win w) <= q.2) (asked w ks) ->
  0 <= an_new_ptr a <= o -> o + Z.of_nat (length (enc_body ks)) = rtr_len -> rtr_len <= sizeof_token_body ->
  at_offset (an_rtr a) o (enc_body ks) -> (length ks <= fuel)%nat ->
  wp (answer_from fuel rtr_len o a) (fun a' w' => answer_rel w w' /\ answered (asked w ks) w w' /\
    an_new_ptr a' = an_new_ptr a + Z.of_nat (length (enc_body (others w ks))) /\
    at_offset (an_rtr a') (an_new_ptr a) (enc_body (others w ks)) /\
    (forall i, i < an_new_ptr a -> get_byte (an_rtr a') i = get_byte (an_rtr a) i) /\
    counts a' = fold_left (ask w) (asked w ks) (counts a)) send_alarm w.
Proof.
  induction ks as [|k ks IH]; intros fuel o a w rtr_len Hok Haru Hp Hlen Hmax Hat Hfuel.
  { cbn in Hlen. destruct fuel; cbn; rewrite (proj2 (Z.ltb_ge o rtr_len)) by lia; apply wp_ret.
    all: split; [done|]; split; [by apply answered_nil|]; split_and!; try done; cbn; [lia|]; intros i Hi; cbn in Hi; lia. }
  inversion Hok as [|? ? Hk Hok']; subst.
  change (enc_body (k :: ks)) with (enc_block k ++ enc_body ks) in *. rewrite length_app, Nat2Z.inj_add in *.
  apply at_offset_app in Hat as [Hatk Hat]. rewrite length_enc_block in *.
  assert (Hbl : block_len k = 16 + 4 * Z.of_nat (length k.2)) by done.
  destruct fuel as [|fuel]; [cbn in Hfuel; lia|]. cbn [answer_from].
  rewrite (proj2 (Z.ltb_lt o _)) by lia.
  rewrite (proj2 (Z.ltb_ge o 0)), (proj2 (Z.ltb_ge sizeof_token_body _)) by (unfold sizeof_ring_rtr; lia). cbn [orb].
  destruct Hk as (Hr & Hn & Hs). rewrite (dec_rtr_at _ o k.1 (k.2 ≫= enc32) Hr Hatk). cbv zeta.
  apply wp_bind, wp_get. rewrite asked_cons in *. rewrite others_cons.
  apply wp_if; intros Hf; [assert (Hfr : foreign w k = false) by (unfold foreign; by rewrite Hf)
                          |assert (Hfr : foreign w k = true) by (unfold foreign; by rewrite Hf)].
  - rewrite Hfr in *. cbn [app]. apply Forall_app in Haru as [Ha1 Ha2].
    apply at_offset_app in Hatk as [_ Hatk]. change (Z.of_nat (length (enc_rtr k.1))) with sizeof_ring_rtr in Hatk.
    apply wp_bind. rewrite Hn, Nat2Z.id. eapply wp_mono; [apply answer_requests_spec; try done| |done].
    { rewrite Forall_fmap in Ha1. exact Ha1. }
    { unfold sizeof_ring_rtr; lia. }
    { unfold sizeof_ring_rtr, sizeof_int32. lia. }
    intros a1 w1 (Hw1 & Ho1 & Hc1 & Hn1 & Hb1).
    replace (o + sizeof_ring_rtr + 4 * Z.max 0 (Z.of_nat (length k.2))) with (o + block_len k) by (unfold sizeof_ring_rtr; lia).
    eapply wp_mono; [apply IH; rewrite ?Hb1, ?Hn1; try done; try lia| |done].
    + rewrite (asked_same _ _ _ Hw1). by destruct Hw1 as (-> & _).
    + cbn in Hfuel. lia.
    + intros a2 w2 (Hw2 & Ho2 & Hn2 & Hat2 & Hlow2 & Hc2). rewrite (others_same _ _ _ Hw1) in *. rewrite ?Hn1, ?Hb1 in *.
      split; [by etransitivity|]. rewrite (asked_same _ _ _ Hw1) in Ho2.
      split; [by eapply answered_app|]. split_and!; [done|done|done|].
      rewrite Hc2, Hc1, (asks_same _ _ _ _ Hw1), (asked_same _ _ _ Hw1), fold_left_app. done.
  - rewrite Hfr in *. cbn [app] in *.
    change (enc_body (k :: others w ks)) with (enc_block k ++ enc_body (others w ks)). rewrite length_app, Nat2Z.inj_add, length_enc_block.
    rewrite Hn. unfold sizeof_ring_rtr, sizeof_int32. replace (16 + Z.of_nat (length k.2) * 4) with (block_len k) by lia.
    rewrite (proj2 (Z.ltb_ge (block_len k) 0)), (proj2 (Z.ltb_ge sizeof_token_body (o + _))), andb_false_r by lia.
    match goal with |- context [mkAnswer _ _ _ _ ?r] => set (rtr := r) end.
    assert (Hin : at_offset rtr (an_new_ptr a) (enc_block k)).
    { unfold rtr. destruct (Z.eqb_spec (an_new_ptr a) o) as [->|_]; [done|].
      rewrite <- length_enc_block, at_offset_get by (done || lia). apply at_offset_put. lia. }
    assert (Hrest : at_offset rtr (o + block_len k) (enc_body ks)).
    { unfold rtr. destruct (Z.eqb_spec (an_new_ptr a) o); [done|]. apply at_offset_put_out; [lia| |done].
      rewrite get_bytes_length. lia. }
    assert (Hlow : forall i, i < an_new_ptr a -> get_byte rtr i = get_byte (an_rtr a) i).
    { intros i Hi. unfold rtr. destruct (an_new_ptr a =? o); [done|]. apply get_byte_put_out; lia. }
    clearbody rtr.
    eapply wp_mono; [apply IH; cbn [an_new_ptr an_rtr]; try done; try lia| |done]; [cbn in Hfuel; lia|].
    cbn [an_new_ptr an_rtr].
    intros a2 w2 (Hw2 & Ho2 & Hn2 & Hat2 & Hlow2 & Hc2). split; [done|]. split; [done|]. split_and!; [lia| | |done].
    + apply at_offset_app. rewrite length_enc_block. split; [|done].
      intros i Hi. rewrite length_enc_block in Hi. rewrite Hlow2 by lia. apply Hin. rewrite length_enc_block. lia.
    + intros i Hi. rewrite Hlow2, Hlow by lia. done.
Qed.
End answer.

(** C32: answering the requests of a token.  When the body is a sequence of
    well-formed blocks that asks my ring only for packets above [Aru], the
    body that is left is exactly the blocks of the other rings, in order;
    every packet of mine that was asked for and is here is sent, once for each
    request and counted: the datagrams that leave are exactly those of these
    packets, in the order of the requests, to the process, the segment or the
    ring the request names, each with the body of the packet and the numbers,
    the sender and the service of its header; and my own requests are directed at everybody as soon as one
    that was asked for is missing here too.  The loop ends, the only possible
    alarm is that of a send without a segment address, and sending leaves the
    membership and the packets of the window alone. *)
Theorem Answer_retrans_compacts (w : world) (ks : list block) :
  Forall block_ok ks -> at_offset (New_token_buf (tok w)) 0 (enc_body ks) ->
  th_rtr_len (Token (tok w)) = Z.of_nat (length (enc_body ks)) -> th_rtr_len (Token (tok w)) <= sizeof_token_body ->
  Forall (fun q => Aru (win w) <= q.2) (asked w ks) ->
  let here := fun q => missing w q.2 = false in
  wp Answer_retrans (fun a w' =>
    at_offset (New_token_buf (tok w')) 0 (enc_body (others w ks)) /\
    an_new_ptr a = Z.of_nat (length (enc_body (others w ks))) /\
    an_num_retrans a = Z.of_nat (length (filter here (asked w ks))) /\
    an_proc_id a = (if existsb (fun q => missing w q.2) (asked w ks) then -1 else s32 (p_id (prot_My (prt w)))) /\
    answered (asked w ks) w w' /\
    Aru (win w') = Aru (win w) /\ mem w' = mem w /\ (forall e, resent (pkt w e) (pkt w' e))) send_alarm w.
Proof.
  intros Hok Hat Hlen Hmax Haru here. unfold Answer_retrans. apply wp_bind, wp_get. cbv zeta. apply wp_bind.
  assert (Hks : 16 * Z.of_nat (length ks) <= Z.of_nat (length (enc_body ks))).
  { clear. induction ks as [|k ks IH]; [done|]. change (enc_body (k :: ks)) with (enc_block k ++ enc_body ks).
    rewrite length_app, Nat2Z.inj_add, length_enc_block. unfold block_len, sizeof_ring_rtr, sizeof_int32. cbn [length]. lia. }
  assert (Hb : sizeof_token_body = 65467) by done.
  eapply wp_mono; [apply (answer_from_spec ks ANSWER_FUEL 0 _ w (th_rtr_len (Token (tok w)))); cbn [an_new_ptr an_rtr]; try done| |done].
  { unfold ANSWER_FUEL. lia. }
  intros a w' (Hw & Ho & Hn & Hb' & _ & Hc). apply wp_bind, wp_modify, wp_ret.
  unfold counts in Hc. rewrite ask_all in Hc. injection Hc as Hc1 Hc2 Hc3.
  destruct Hw as (Ha & Hm & _ & _ & _ & _ & Hmiss). split_and!; done.
Qed.

(** A token that asks ring [7] for packet 9, and mine for packets 3 and 4. *)
Definition sample_asked : list block :=
  [(mkRtr zero_memb_id 12 0 1, [3]); (mkRtr (mkMembId 7 7) 21 1 1, [9]); (mkRtr zero_memb_id 12 0 1, [4])].
Definition sample_token : world :=
  on_tok (fun t => set_Token (set_th_rtr_len 60 (Token t)) (set_New_token_buf (enc_body sample_asked) t)) sample_gaps.

Lemma Answer_retrans_compacts_witness :
  wp Answer_retrans (fun a w' => an_new_ptr a = 20 /\ an_num_retrans a = 1 /\ an_proc_id a = -1 /\
    at_offset (New_token_buf (tok w')) 0 (enc_block (mkRtr (mkMembId 7 7) 21 1 1, [9])) /\
    exists out, datagrams w' = out /\ Forall2 (fun a x => exists h, x = Out_sendto a (PackGram h [mkElem [] 0])) [Inet 12 4803] out)
    send_alarm sample_token.
Proof.
  assert (Hok : Forall block_ok sample_asked).
  { repeat constructor; cbn; unfold int32_ok, int16_ok; lia. }
  assert (Hat : at_offset (New_token_buf (tok sample_token)) 0 (enc_body sample_asked)) by done.
  assert (Hlen : th_rtr_len (Token (tok sample_token)) = Z.of_nat (length (enc_body sample_asked))) by (vm_compute; reflexivity).
  assert (Hmax : th_rtr_len (Token (tok sample_token)) <= sizeof_token_body) by (vm_compute; congruence).
  assert (Hq : asked sample_token sample_asked = [((mkRtr zero_memb_id 12 0 1), 3); ((mkRtr zero_memb_id 12 0 1), 4)]) by (vm_compute; reflexivity).
  assert (Haru : Forall (fun q => Aru (win sample_token) <= q.2) (asked sample_token sample_asked)).
  { rewrite Hq. repeat constructor; cbn; lia. }
  pose proof (Answer_retrans_compacts sample_token sample_asked Hok Hat Hlen Hmax Haru) as Ht. cbv zeta in Ht.
  refine (wp_mono _ _ _ _ _ _ Ht _ _); [|done].
  intros a w' (Hb & Hn & Hc & Hp & (outs & Hd & Hout) & _).
  assert (Ho : others sample_token sample_asked = [(mkRtr (mkMembId 7 7) 21 1 1, [9])]) by (vm_compute; reflexivity).
  rewrite Ho in *. rewrite Hq in *. split; [exact Hn|]. split; [exact Hc|]. split; [exact Hp|]. split; [exact Hb|].
  exists (concat outs). split; [exact Hd|].
  change (filter _ _) with [((mkRtr zero_memb_id 12 0 1), 3)] in Hout. inversion Hout as [|q out qs outs' Hq1 Hq2]; subst. inversion Hq2; subst.
  cbn [concat]. rewrite app_nil_r. eapply Forall2_impl; [exact Hq1|]. intros x y (h & -> & _). by exists h.
Defined.
