(* ===== verification/Packing.v ===== *)
(** * Packing and unpacking

    The sender fills a packet with the elements at the head of its down
    queue; the receiver splits it again.  [fill_packet] ends within its fuel,
    takes a prefix of what is pending in order, never overfills the body, and
    [split_fragments] gives back exactly the elements it put in. *)

From Stdlib Require Import ZArith Lia.
From stdpp Require Import base strings numbers option gmap list sorting.
From S2P Require Import Prelude Wire Bytes Config Events State Sample Network FlowControl MembSets MembCore.
From S2P Require Import Deliver ProtSend Retrans Requests.

(* --------------------------------------------------------------------- *)
(** ** Fragments in a body *)

(** The bytes of an element, and the one-fragment message they become. *)
Definition elem_bytes (e : scat_elem) : list Z := get_bytes (se_buf e) 0 (se_len e).
Definition single (e : scat_elem) : scatter := [mkElem (elem_bytes e) (se_len e)].
Definition elem_ok (e : scat_elem) : Prop := 0 <= se_len e <= sizeof_packet_body.

(** A fragment with the element [e] at [o]. *)
Definition frag_at (b : buf) (o : Z) (e : scat_elem) : Prop :=
  get_s16 b (o + 2) = se_len e /\ get_bytes b (o + sizeof_fragment_header) (se_len e) = elem_bytes e.

(** The fragments [es] fill [b] from [p] to [n]. *)
Fixpoint frags (b : buf) (p n : Z) (es : list scat_elem) : Prop :=
  match es with
  | [] => p = n
  | e :: es =>
      let o := p + padding_for p in
      frag_at b o e /\ frags b (o + sizeof_fragment_header + se_len e) n es
  end.

Section frags.
Implicit Types (b : buf) (p n o : Z) (es : list scat_elem).

Lemma frags_le b p n es : 0 <= p -> Forall elem_ok es -> frags b p n es -> p <= n.
Proof.
  revert p. induction es as [|e es IH]; cbn; intros p Hp Hes; [lia|].
  inversion Hes as [|? ? [He _] Hes']; subst. intros [_ Hf]. pose proof (padding_for_bound p).
  apply IH in Hf; unfold sizeof_fragment_header in *; (done || lia).
Qed.

Lemma frag_at_ext b b' o e :
  0 <= o -> 0 <= se_len e ->
  (forall i, o + 2 <= i < o + sizeof_fragment_header + se_len e -> get_byte b' i = get_byte b i) ->
  frag_at b o e -> frag_at b' o e.
Proof.
  unfold frag_at, sizeof_fragment_header. intros Ho Hl H [Hs Hb]. split.
  - rewrite <- Hs. apply get_s16_ext. intros i Hi. apply H. lia.
  - rewrite <- Hb. apply get_bytes_ext; [lia..|]. intros i Hi. apply H. lia.
Qed.

Lemma frags_ext b b' p n es :
  0 <= p -> Forall elem_ok es -> (forall i, p <= i < n -> get_byte b' i = get_byte b i) ->
  frags b p n es -> frags b' p n es.
Proof.
  revert p. induction es as [|e es IH]; cbn; intros p Hp Hes H; [done|].
  inversion Hes as [|? ? [He _] Hes']; subst. intros [Ha Hf]. pose proof (padding_for_bound p).
  pose proof (frags_le b (p + padding_for p + sizeof_fragment_header + se_len e) n es
    ltac:(unfold sizeof_fragment_header; lia) Hes' Hf).
  unfold sizeof_fragment_header in *. split.
  - eapply frag_at_ext; [lia|lia| |exact Ha]. unfold sizeof_fragment_header. intros i Hi. apply H. lia.
  - apply IH; [lia|done| |done]. intros i Hi. apply H. lia.
Qed.

Lemma frags_snoc b p n es e :
  frags b p n es -> frag_at b (n + padding_for n) e ->
  frags b p (n + padding_for n + sizeof_fragment_header + se_len e) (es ++ [e]).
Proof. revert p. induction es as [|e' es IH]; cbn; intros p; [by intros ->|]. intros [Ha Hf] Hl. auto. Qed.

Lemma frags_room b p n es :
  0 <= p -> Forall elem_ok es -> frags b p n es ->
  Forall (fun e => p + sizeof_fragment_header + se_len e <= n) es.
Proof.
  revert p. induction es as [|e es IH]; intros p Hp Hes Hf; [constructor|].
  inversion Hes as [|? ? [He _] Hes']; subst. destruct Hf as [_ Hf]. pose proof (padding_for_bound p).
  assert (Hh : sizeof_fragment_header = 4) by done.
  pose proof (frags_le b (p + padding_for p + sizeof_fragment_header + se_len e) n es ltac:(lia) Hes' Hf).
  constructor; [lia|]. apply IH in Hf; [|lia|done]. eapply Forall_impl; [exact Hf|]. cbn. intros x Hx. lia.
Qed.

(** The receiver finds the fragments. *)
Lemma split_frags fuel : forall b p n es,
  0 <= p -> Forall elem_ok es -> frags b p n es -> n - p <= Z.of_nat fuel ->
  split_fragments fuel b n p = inr (single <$> es).
Proof.
  induction fuel as [|fuel IH]; intros b p n es Hp Hes Hf Hn;
    (destruct es as [|e es]; [cbn in Hf; subst; cbn; by rewrite Z.ltb_irrefl|]).
  all: inversion Hes as [|? ? [He _] Hes']; subst; cbn [frags] in Hf; destruct Hf as [[Hl Hb] Hf].
  all: pose proof (padding_for_bound p).
  all: pose proof (frags_le b (p + padding_for p + sizeof_fragment_header + se_len e) n es
    ltac:(unfold sizeof_fragment_header; lia) Hes' Hf) as Hle; unfold sizeof_fragment_header in Hle.
  { lia. }
  cbn -[padding_for]. rewrite (proj2 (Z.ltb_lt p n)) by lia. rewrite (proj2 (Z.ltb_ge p 0)) by lia.
  unfold get_frag. rewrite Hl, (proj2 (Z.ltb_ge n _)), (proj2 (Z.ltb_ge (se_len e) 0)) by (unfold sizeof_fragment_header; lia).
  rewrite (IH b (p + padding_for p + sizeof_fragment_header + se_len e) n es); [|unfold sizeof_fragment_header; lia|done|done|unfold sizeof_fragment_header; lia].
  cbn. unfold single at 1. by rewrite Hb.
Qed.
End frags.

(* --------------------------------------------------------------------- *)
(** ** What is pending *)

Definition mess_ok (m : scatter) : Prop :=
  1 <= Z.of_nat (length m) <= MAX_SCATTER_ELEMENTS /\ Forall elem_ok m.

(** The number of a fragment: counted from 1, negative for the last one. *)
Definition index_of (m : scatter) (cur : Z) : Z :=
  if cur + 1 <? Z.of_nat (length m) then cur + 1 else - Z.of_nat (length m).

(** An element with its number and the type of its message. *)
Record piece : Type := mkPiece { pc_type : Z; pc_index : Z; pc_elem : scat_elem }.
Definition piece_at (l : down_link) (i : Z) : piece :=
  mkPiece (dl_type l) (index_of (dl_mess l) i) (element (dl_mess l) i).
Definition pieces (l : down_link) : list piece :=
  piece_at l <$> seqZ 0 (Z.of_nat (length (dl_mess l))).

(** The pieces of a down queue that are still to be sent, in order. *)
Definition pending (q : down_queue) : list piece :=
  match dq_links q with
  | [] => []
  | l :: ls => drop (Z.to_nat (dq_cur_element q)) (pieces l) ++ (ls ≫= pieces)
  end.

Definition down_queue_ok (q : down_queue) : Prop :=
  dq_num_mess q = Z.of_nat (length (dq_links q)) /\ Forall (fun l => mess_ok (dl_mess l)) (dq_links q) /\
  0 <= dq_cur_element q /\
  match dq_links q with [] => True | l :: _ => dq_cur_element q < Z.of_nat (length (dl_mess l)) end.

(** The current down queue exists and is in shape. *)
Definition down_ok (w : world) : Prop :=
  0 <= Down_queue_ptr (prt w) < Z.of_nat (length (Protocol_down_queue (prt w))) /\ down_queue_ok (down w).

(** The promise of the session layer: unblocking the clients does not touch
    the protocol. *)
Class SessionQueue `{Session} : Prop := {
  sess_unblock_users_level_queue : keeps io_only never sess_unblock_users_level
}.
#[export] Instance null_session_queue : SessionQueue.
Proof. split. apply keeps_ret, _. Defined.

Section pending.
Context `{SessionQueue}.

(** What [set_down] leaves. *)
Lemma down_set q w :
  0 <= Down_queue_ptr (prt w) < Z.of_nat (length (Protocol_down_queue (prt w))) -> down_queue_ok q ->
  let w' := on_prt (fun r => set_Protocol_down_queue
                      (aset (Protocol_down_queue r) (Down_queue_ptr r) q) r) w in
  down w' = q /\ down_ok w'.
Proof.
  intros Hp Hq w'. assert (Hd : down w' = q) by by apply aget_aset_eq.
  split; [done|]. split; [cbn; by rewrite aset_length|by rewrite Hd].
Qed.

Lemma unblock_io w : wp Sess_unblock_users_level (fun _ => io_only w) never w.
Proof.
  unfold Sess_unblock_users_level, emit. apply wp_bind, wp_modify.
  eapply wp_mono; [apply sess_unblock_users_level_queue| |done]. intros ? w' Hw. exact Hw.
Qed.

(** One step past the fragment that was just packed. *)
Lemma advance_down_spec w link ls :
  down_ok w -> dq_links (down w) = link :: ls ->
  let m := dl_mess link in
  let cur := dq_cur_element (down w) in
  wp (advance_down m)
    (fun idx w' => down_ok w' /\ pending (down w) = piece_at link cur :: pending (down w') /\
       idx = index_of m cur) never w.
Proof.
  intros [Hptr (Hn & Hl & Hc & Hcur)] Hlinks m cur. rewrite Hlinks in Hn, Hl, Hcur.
  inversion Hl as [|? ? [Hm Hes] Hls]; subst. fold m cur in Hm, Hes, Hcur, Hc.
  assert (Hd : drop (Z.to_nat cur) (pieces link) = piece_at link cur :: drop (Z.to_nat (cur + 1)) (pieces link)).
  { replace (Z.to_nat (cur + 1)) with (S (Z.to_nat cur)) by lia. apply drop_S. unfold pieces.
    rewrite list_lookup_fmap, lookup_seqZ_lt by (fold m; lia). cbn. do 2 f_equal; lia. }
  assert (Hlen : length (pieces link) = length m) by (unfold pieces; rewrite length_fmap, length_seqZ; fold m; lia).
  unfold advance_down. apply wp_bind, wp_get. cbv zeta. fold cur. unfold index_of.
  destruct (Z.ltb_spec (cur + 1) (Z.of_nat (length m))) as [Hlt|Hge].
  - apply wp_bind, wp_modify, wp_ret. set (q := mkDownQueue _ _ _).
    assert (Hq : down_queue_ok q).
    { unfold q, down_queue_ok. cbn. rewrite Hlinks. split_and!; [exact Hn|exact Hl|lia|exact Hlt]. }
    destruct (down_set q w Hptr Hq) as [Hs Hok]. split; [done|]. split; [|done].
    rewrite Hs. unfold pending, q. cbn. rewrite Hlinks. fold cur m. by rewrite Hd.
  - rewrite (proj2 (Z.eqb_eq _ _)) by lia. apply wp_bind, wp_modify. set (q := mkDownQueue _ _ _).
    assert (Hq : down_queue_ok q).
    { unfold q, down_queue_ok. rewrite Hlinks. split_and!; cbn in *; [lia|done|lia|].
      destruct ls as [|l ls]; [done|]. inversion Hls as [|? ? [? _] _]; cbn; lia. }
    assert (Hpend : pending (down w) = piece_at link cur :: pending q).
    { unfold pending, q. cbn. rewrite Hlinks. fold m cur. cbn. rewrite Hd, drop_ge by lia. by destruct ls. }
    destruct (down_set q w Hptr Hq) as [Hs Hok]. set (w1 := on_prt _ w) in *. apply wp_bind.
    apply (wp_mono _ (fun _ => io_only w1) _ never); [apply wp_when; [intros _; apply unblock_io|done]| |done].
    intros ? w2 (_ & _ & Hw2 & _). apply wp_ret. unfold down_ok, down in *. rewrite Hw2, Hs, s16_id by (unfold MAX_SCATTER_ELEMENTS in Hm; lia).
    rewrite Hs in Hok. done.
Qed.
End pending.

(* --------------------------------------------------------------------- *)
(** ** Filling *)

(** The packet [f] starts with the element [e0] and has the fragments [es]
    after it; the header of the last one is where [fl_frag] says. *)
Definition filled (f : filling) (e0 : scat_elem) (es : list scat_elem) : Prop :=
  let h := fl_head f in
  ph_fragment_len h = se_len e0 /\ get_bytes (fl_body f) 0 (se_len e0) = elem_bytes e0 /\
  ph_data_len h <= sizeof_packet_body /\ Forall elem_ok (e0 :: es) /\
  match fl_frag f with
  | None => es = [] /\ ph_data_len h = se_len e0
  | Some o => exists es' e m, es = es' ++ [e] /\ frags (fl_body f) (se_len e0) m es' /\
      o = m + padding_for m /\ frag_at (fl_body f) o e /\
      ph_data_len h = o + sizeof_fragment_header + se_len e
  end.

Section filled.
Implicit Types (f : filling) (e : scat_elem) (es : list scat_elem).

Lemma filled_frags f e0 es : filled f e0 es -> frags (fl_body f) (se_len e0) (ph_data_len (fl_head f)) es.
Proof.
  intros (Hl & Hb & Hd & He & Hf). destruct (fl_frag f) as [o|].
  - destruct Hf as (es' & e & m & -> & Hm & -> & Ha & ->). by apply frags_snoc.
  - by destruct Hf as [-> ->].
Qed.

Lemma filled_len f e0 es : filled f e0 es -> 0 <= se_len e0 <= ph_data_len (fl_head f).
Proof.
  intros Hf. pose proof (filled_frags _ _ _ Hf) as Hfr. destruct Hf as (_ & _ & _ & He & _).
  inversion He as [|? ? [? _] ?]; subst. split; [done|]. by eapply frags_le.
Qed.

(** Numbering the last fragment. *)
Lemma filled_index idx f e0 es :
  filled f e0 es ->
  let f' := set_fragment_index idx f in
  filled f' e0 es /\ ph_data_len (fl_head f') = ph_data_len (fl_head f) /\
  ph_type (fl_head f') = ph_type (fl_head f) /\ ph_seq (fl_head f') = ph_seq (fl_head f) /\
  (ph_fragment_index (fl_head f') =
     match fl_frag f with None => s16 idx | Some _ => ph_fragment_index (fl_head f) end) /\
  (fl_frag f' = None <-> fl_frag f = None).
Proof.
  intros Hf. unfold set_fragment_index. pose proof (filled_len _ _ _ Hf) as Hlen.
  destruct Hf as (Hl & Hb & Hd & He & Hf). destruct (fl_frag f) as [o|] eqn:Hfr.
  - cbn [fl_head fl_frag]. split; [|done].
    destruct Hf as (es' & e & m & -> & Hm & -> & Ha & Hn).
    inversion He as [|? ? [He0 _] Hes]; subst. apply Forall_app in Hes as [Hes' He']. inversion He' as [|? ? [He1 _] _]; subst.
    pose proof (frags_le _ _ _ _ He0 Hes' Hm). pose proof (padding_for_bound m).
    unfold filled. cbn [fl_head fl_body fl_frag]. split_and!; try done.
    { rewrite <- Hb. apply get_bytes_put_out; [lia|lia|]. lia. }
    exists es', e, m. split_and!; try done.
    + eapply frags_ext; [done|done| |done]. intros i Hi. apply get_byte_put_out; [lia|]. lia.
    + eapply frag_at_ext; [lia|done| |done]. intros i Hi. apply get_byte_put_out; [lia|]. cbn. lia.
  - cbn. split; [|done]. unfold filled. cbn. by rewrite Hl.
Qed.

(** Adding a fragment. *)
Lemma filled_add e f e0 es :
  filled f e0 es -> elem_ok e ->
  let o := ph_data_len (fl_head f) + padding_for (ph_data_len (fl_head f)) in
  o + sizeof_fragment_header + se_len e <= sizeof_packet_body ->
  let f' := add_fragment e f in
  filled f' e0 (es ++ [e]) /\ ph_data_len (fl_head f') = o + sizeof_fragment_header + se_len e /\
  ph_type (fl_head f') = ph_type (fl_head f) /\ ph_seq (fl_head f') = ph_seq (fl_head f) /\
  ph_fragment_index (fl_head f') = ph_fragment_index (fl_head f) /\ is_Some (fl_frag f').
Proof.
  intros Hf [He0 He1] o Ho. pose proof (filled_len _ _ _ Hf) as Hlen. pose proof (filled_frags _ _ _ Hf) as Hfr.
  destruct Hf as (Hl & Hb & Hd & He & _). pose proof (padding_for_bound (ph_data_len (fl_head f))).
  assert (Hs : sizeof_packet_body = 1432) by done. assert (Hh : sizeof_fragment_header = 4) by done.
  inversion He as [|? ? [He00 _] Hes]; subst.
  unfold add_fragment. fold o. rewrite (s16_id (se_len e)), (u16_id (o + _)) by lia.
  rewrite (u16_id (_ + se_len e)) by lia. cbn [fl_head fl_body fl_frag].
  assert (Hgl : length (get_bytes (se_buf e) 0 (se_len e)) = Z.to_nat (se_len e)) by apply get_bytes_length.
  assert (Hlow : forall i, i < ph_data_len (fl_head f) ->
    get_byte (put_bytes (put_bytes (fl_body f) (o + 2) (enc16 (se_len e))) (o + sizeof_fragment_header)
      (get_bytes (se_buf e) 0 (se_len e))) i = get_byte (fl_body f) i).
  { intros i Hi. rewrite !get_byte_put_out by lia. done. }
  split; [|done]. unfold filled. cbn [fl_head fl_body fl_frag].
  split_and!; try done.
  - rewrite <- Hb. apply get_bytes_ext; [lia..|]. intros i Hi. apply Hlow. lia.
  - rewrite app_comm_cons. apply Forall_app. split; [done|]. by repeat constructor.
  - exists es, e, (ph_data_len (fl_head f)). split_and!; try done.
    + eapply frags_ext; [done|done| |done]. intros i Hi. apply Hlow. lia.
    + split.
      * transitivity (get_s16 (enc16 (se_len e) ++ []) 0); [|rewrite get_s16_enc16, s16_id by lia; done].
        apply get_s16_ext. intros i Hi. rewrite get_byte_put_out by lia.
        rewrite get_byte_put_in by (cbn; lia). by rewrite app_nil_r.
      * unfold elem_bytes. rewrite <- (get_bytes_put_in (put_bytes (fl_body f) (o + 2) (enc16 (se_len e)))
          (o + sizeof_fragment_header) (get_bytes (se_buf e) 0 (se_len e))) at 2 by lia.
        by rewrite Hgl, Z2Nat.id by lia.
Qed.

(** The packet that is started. *)
Lemma new_filled w t e : elem_ok e -> filled (mkFilling (new_header w t e) (se_buf e) None) e [].
Proof.
  intros [He0 He1]. assert (Hb : sizeof_packet_body = 1432) by done.
  unfold filled, new_header. cbn -[sizeof_packet_body]. rewrite s16_id, u16_id by lia.
  split_and!; try done. by repeat constructor.
Qed.
End filled.

(** What filling keeps of the header: the index of the first fragment is only
    written while it is the last. *)
Definition head_kept (f f' : filling) (idx : Z) : Prop :=
  ph_type (fl_head f') = ph_type (fl_head f) /\ ph_seq (fl_head f') = ph_seq (fl_head f) /\
  ph_fragment_index (fl_head f') =
    match fl_frag f with None => s16 idx | Some _ => ph_fragment_index (fl_head f) end.

Section fill.
Context `{SessionQueue}.

Lemma element_ok w link ls :
  down_ok w -> dq_links (down w) = link :: ls -> elem_ok (element (dl_mess link) (dq_cur_element (down w))).
Proof.
  intros [_ (_ & Hl & Hc & Hcur)] Hlinks. rewrite Hlinks in Hl, Hcur.
  inversion Hl as [|? ? [_ Hes] _]; subst. unfold element, aget. rewrite (proj2 (Z.ltb_ge _ 0)) by lia.
  destruct (lookup_lt_is_Some_2 (dl_mess link) (Z.to_nat (dq_cur_element (down w)))) as [x Hx]; [lia|].
  rewrite Hx. by eapply Forall_lookup_1.
Qed.

Lemma index_s16 w link ls :
  down_ok w -> dq_links (down w) = link :: ls ->
  s16 (index_of (dl_mess link) (dq_cur_element (down w))) = index_of (dl_mess link) (dq_cur_element (down w)).
Proof.
  intros [_ (_ & Hm & Hc & Hcur)] Hl. rewrite Hl in Hm, Hcur.
  inversion Hm as [|? ? [Hlen _] _]; subst. unfold MAX_SCATTER_ELEMENTS in Hlen.
  apply s16_id. unfold index_of. zcases; lia.
Qed.

Lemma fill_packet_spec fuel : forall f w link ls e0 es,
  filled f e0 es -> down_ok w -> dq_links (down w) = link :: ls ->
  sizeof_packet_body - ph_data_len (fl_head f) < 4 * Z.of_nat fuel ->
  let m := dl_mess link in
  let cur := dq_cur_element (down w) in
  wp (fill_packet fuel m f)
    (fun f' w' => exists xs, filled f' e0 (es ++ (pc_elem <$> xs)) /\
       pending (down w) = piece_at link cur :: xs ++ pending (down w') /\ down_ok w' /\
       head_kept f f' (index_of m cur) /\
       Forall (fun x => types_compatible (ph_type (fl_head f)) (pc_type x) = true) xs) never w.
Proof.
  induction fuel as [|fuel IH]; intros f w link ls e0 es Hf Hw Hlinks Hfuel m cur.
  { destruct Hf as (_ & _ & Hd & _). lia. }
  cbn [fill_packet]. apply wp_bind. eapply wp_mono; [by apply (advance_down_spec w link ls)| |done].
  intros idx w1 (Hw1 & Hpend & ->). fold m cur. cbv zeta.
  destruct (filled_index (index_of m cur) f e0 es Hf) as (Hf1 & Hn1 & Ht1 & Hs1 & Hi1 & Hfr1).
  fold m cur in Hpend. set (f1 := set_fragment_index (index_of m cur) f) in *. apply wp_bind, wp_get.
  assert (Hstop : exists xs, filled f1 e0 (es ++ (pc_elem <$> xs)) /\
       pending (down w) = piece_at link cur :: xs ++ pending (down w1) /\ down_ok w1 /\
       head_kept f f1 (index_of m cur) /\
       Forall (fun x => types_compatible (ph_type (fl_head f)) (pc_type x) = true) xs).
  { exists []. cbn [fmap list_fmap]. rewrite app_nil_r. done. }
  apply wp_if; [intros _; by apply wp_ret|intros Hne%Z.eqb_neq].
  destruct (dq_links (down w1)) as [|link1 ls1] eqn:Hl1.
  { destruct Hw1 as [_ (Hn & _)]. rewrite Hl1 in Hn. by destruct Hne. }
  cbv zeta. set (e := element (dl_mess link1) (dq_cur_element (down w1))).
  assert (He : elem_ok e) by by apply (element_ok w1 link1 ls1).
  assert (Hb : sizeof_packet_body = 1432) by done. pose proof He as [He0 He1].
  rewrite s32_id, s16_id by lia.
  apply wp_if; [intros _; by apply wp_ret|intros Hav%Z.ltb_ge].
  apply wp_if; [intros _; by apply wp_ret|intros Hty%negb_false_iff].
  apply wp_if; [intros ?%Z.ltb_lt; lia|intros _].
  destruct (filled_add e f1 e0 es Hf1 He ltac:(lia)) as (Hf2 & Hn2 & Ht2 & Hs2 & Hi2 & Hfr2).
  pose proof (padding_for_bound (ph_data_len (fl_head f1))).
  eapply wp_mono; [apply (IH (add_fragment e f1) w1 link1 ls1 e0 (es ++ [e])); try done| |done].
  { rewrite Hn2, Hn1. unfold sizeof_fragment_header. rewrite Hn1 in *. lia. }
  intros f' w' (xs & Hf' & Hpend' & Hw' & (Ht' & Hs' & Hi') & Hc').
  exists (piece_at link1 (dq_cur_element (down w1)) :: xs). cbn [fmap list_fmap]. fold e.
  rewrite <- app_assoc in Hf'. split; [exact Hf'|]. split; [rewrite Hpend, Hpend'; done|]. split; [done|].
  destruct Hfr2 as [o Ho]. rewrite Ho in Hi'. split; [|constructor].
  - split_and!; [congruence|congruence|]. rewrite Hi', Hi2. exact Hi1.
  - by rewrite <- Ht1.
  - eapply Forall_impl; [exact Hc'|]. intros x. by rewrite Ht2, Ht1.
Qed.
End fill.

(** C31: packing and unpacking.  Filling a packet ends, without an alarm, with
    a packet that fits in its body and holds a prefix, in order, of the
    elements that were pending: the first one in front, numbered by its place
    in its message, and the others as fragments, of messages whose service the
    packet's type allows; what is left stays pending.
    The receiver's split of the body gives exactly the elements the sender
    put in. *)
Theorem packing_round_trip `{SessionQueue} (w : world) (link : down_link) (ls : list down_link) :
  let e := element (dl_mess link) (dq_cur_element (down w)) in
  down_ok w -> dq_links (down w) = link :: ls ->
  wp (fill_packet FILL_FUEL (dl_mess link) (mkFilling (new_header w (dl_type link) e) (se_buf e) None))
    (fun f w' => exists xs, let h := fl_head f in
       pending (down w) = piece_at link (dq_cur_element (down w)) :: xs ++ pending (down w') /\ down_ok w' /\
       Forall (fun x => types_compatible (dl_type link) (pc_type x) = true) xs /\
       ph_type h = dl_type link /\ ph_seq h = Highest_seq (win w) + 1 /\
       ph_fragment_index h = index_of (dl_mess link) (dq_cur_element (down w)) /\
       ph_fragment_len h = se_len e /\ ph_data_len h <= sizeof_packet_body /\
       get_bytes (fl_body f) 0 (ph_fragment_len h) = elem_bytes e /\
       split_fragments (Z.to_nat (ph_data_len h)) (fl_body f) (ph_data_len h) (ph_fragment_len h)
         = inr (single <$> (pc_elem <$> xs))) never w.
Proof.
  intros e Hw Hl. pose proof (element_ok w link ls Hw Hl) as [He0 He1].
  assert (Hb : sizeof_packet_body = 1432) by done.
  assert (Hf : filled (mkFilling (new_header w (dl_type link) e) (se_buf e) None) e []) by by apply new_filled.
  pose proof (index_s16 w link ls Hw Hl) as Hidx.
  eapply wp_mono; [apply (fill_packet_spec FILL_FUEL _ w link ls e []); try done| |done].
  { destruct Hf as (_ & _ & _ & _ & _ & ->). unfold FILL_FUEL. fold e in He0. lia. }
  intros f w' (xs & Hf' & Hpend & Hw' & (Ht & Hs & Hi) & Hc). exists xs. cbv zeta. cbn [app] in Hf'.
  pose proof (filled_frags _ _ _ Hf') as Hfr. pose proof (filled_len _ _ _ Hf').
  destruct Hf' as (Hfl & Hfb & Hfd & Hfe & _). rewrite Hfl. split_and!; try done.
  - cbn in Hi. by rewrite Hi, Hidx.
  - apply split_frags; [done|by inversion Hfe|done|lia].
Qed.

(** Two messages of the session layer, of three and of five bytes. *)
Definition sample_sending : world :=
  on_prt (set_Protocol_down_queue
    [mkDownQueue 2 0 [mkDownLink AGREED_TYPE [mkElem [1; 2; 3] 3]; mkDownLink FIFO_TYPE [mkElem [4; 5; 6; 7; 8] 5]];
     no_down_queue]) sample_world.

Lemma packing_round_trip_witness :
  let e := mkElem [1; 2; 3] 3 in
  let f0 := mkFilling (new_header sample_sending AGREED_TYPE e) [1; 2; 3] None in
  wp (fill_packet FILL_FUEL [e] f0)
    (fun f w' => exists xs, let h := fl_head f in
       [e; mkElem [4; 5; 6; 7; 8] 5] = e :: (pc_elem <$> xs ++ pending (down w')) /\
       split_fragments (Z.to_nat (ph_data_len h)) (fl_body f) (ph_data_len h) (ph_fragment_len h)
         = inr (single <$> (pc_elem <$> xs))) never sample_sending /\
  pending (down (run_to (fill_packet FILL_FUEL [e] f0) sample_sending)) = [].
Proof.
  assert (Hw : down_ok sample_sending).
  { split; [vm_compute; split; congruence|].
    change (down sample_sending) with (mkDownQueue 2 0 [mkDownLink AGREED_TYPE [mkElem [1; 2; 3] 3];
      mkDownLink FIFO_TYPE [mkElem [4; 5; 6; 7; 8] 5]]).
    split_and!; cbn; try lia.
    repeat constructor; cbn; unfold sizeof_packet_body, MAX_PACKET_SIZE, sizeof_packet_header; try lia; done. }
  split; [|vm_compute; reflexivity].
  eapply wp_mono; [exact (packing_round_trip sample_sending
    (mkDownLink AGREED_TYPE [mkElem [1; 2; 3] 3]) [mkDownLink FIFO_TYPE [mkElem [4; 5; 6; 7; 8] 5]] Hw eq_refl)| |done].
  intros f w' (xs & Hp & _ & _ & _ & _ & _ & _ & _ & _ & Hs). exists xs. split; [|exact Hs].
  exact (f_equal (fmap (M:=list) pc_elem) Hp).
Defined.
