(* ===== verification/Sending.v ===== *)
(** * From the down queue to the window

    [Send_new_packets] turns what is pending into packets with consecutive
    sequence numbers, each of which is sent and put in the window.  Sending
    stamps the header of a packet, but what the packet carries, its [load],
    stays. *)

From Stdlib Require Import ZArith Lia.
From stdpp Require Import base strings numbers option gmap list sorting.
From S2P Require Import Prelude Wire Bytes Config Events State Sample Network FlowControl MembSets MembCore.
From S2P Require Import Deliver Delivery ProtSend Retrans Requests Packing.

(* --------------------------------------------------------------------- *)
(** ** One packet *)

(** What is sent of a packet of the queue. *)
Definition broadcast (w : world) (p : sys_pack) (out : list output) : Prop :=
  transmits (sp_head p) [mkElem (sp_buf p) (sp_len p)] (everybody w) out.

Lemma bcast_pack_load p w :
  wp (bcast_pack p) (fun h w' => sends_only w w' /\ load h = load (sp_head p) /\
    exists out, datagrams w' = datagrams w ++ out /\ broadcast w p out) send_alarm w.
Proof.
  unfold bcast_pack. apply wp_bind, wp_get. cbv zeta. apply wp_bind.
  eapply wp_mono; [apply Net_bcast_out| |by intros e ->]. intros [r h] w' [Hh (out & [Hio Hd] & Ht)]. apply wp_ret.
  split; [done|]. split; [done|]. exists out. split; [done|]. by eapply transmits_load; [|exact Ht].
Qed.

(* --------------------------------------------------------------------- *)
(** ** The send queue *)

(** A packet that is in the window keeps its contents. *)
Definition packet_same (p p' : packet_info) : Prop :=
  pi_exist p' = pi_exist p /\
  (pi_exist p <> 0 -> pi_body p' = pi_body p /\ load (pi_head p') = load (pi_head p)).
#[export] Instance packet_same_preorder : PreOrder packet_same.
Proof.
  split; [by intros p|]. intros p1 p2 p3 [H1 H1'] [H2 H2']. split; [congruence|].
  intros He. destruct (H1' He) as [? ?], H2' as [? ?]; [congruence|]. split; congruence.
Qed.

(** From [w] to [w'] the packets [ps] joined the send queue and its first
    packets left it, each as datagrams to everybody, and nothing else was sent:
    every packet either went out, in the order of the queue, or is still in
    it. *)
Definition goes_out (ps : list sys_pack) (w w' : world) : Prop :=
  net w' = net w /\ exists sent outs,
    pq_links (Send_pack_queue (tok w)) ++ ps = sent ++ pq_links (Send_pack_queue (tok w')) /\
    datagrams w' = datagrams w ++ concat outs /\ Forall2 (broadcast w) sent outs.

Lemma goes_out_nothing w w' : net w' = net w -> tok w' = tok w -> datagrams w' = datagrams w -> goes_out [] w w'.
Proof. intros Hn Ht Hd. split; [done|]. exists [], []. rewrite Ht, Hd, !app_nil_r. split_and!; [done..|constructor]. Qed.
Lemma broadcast_same w w' p out : net w' = net w -> broadcast w' p out -> broadcast w p out.
Proof. intros Hn. unfold broadcast, everybody, my_segment. by rewrite Hn. Qed.
Lemma goes_out_trans ps qs w w1 w2 : goes_out ps w w1 -> goes_out qs w1 w2 -> goes_out (ps ++ qs) w w2.
Proof.
  intros (Hn1 & s1 & o1 & Hq1 & Hd1 & Ho1) (Hn2 & s2 & o2 & Hq2 & Hd2 & Ho2). split; [congruence|]. exists (s1 ++ s2), (o1 ++ o2).
  rewrite app_assoc, Hq1, <- !app_assoc, Hq2. split; [done|]. rewrite Hd2, Hd1, concat_app, app_assoc. split; [done|].
  apply Forall2_app; [done|]. eapply Forall2_impl; [exact Ho2|]. intros p out. by apply broadcast_same.
Qed.
(** Steps that send nothing around one that does. *)
Lemma goes_out_around ps w w1 w2 w3 :
  goes_out [] w w1 -> goes_out ps w1 w2 -> goes_out [] w2 w3 -> goes_out ps w w3.
Proof. intros H1 H2 H3. rewrite <- (app_nil_r ps), <- (app_nil_l ps). eapply goes_out_trans; [by eapply goes_out_trans|done]. Qed.

(** What sending leaves alone. *)
Definition sent_rel (w w' : world) : Prop :=
  (forall e, packet_same (pkt w e) (pkt w' e)) /\ Highest_seq (win w') = Highest_seq (win w) /\
  Last_discarded (win w') = Last_discarded (win w) /\ prt w' = prt w /\ mem w' = mem w /\ fc w' = fc w.
#[export] Instance sent_rel_preorder : PreOrder sent_rel.
Proof.
  split; [intros w; split; [intros e; reflexivity|done]|]. intros w1 w2 w3 (Hp1 & ? & ? & ? & ? & ?) (Hp2 & ? & ? & ? & ? & ?).
  split; [intros e; etransitivity; [apply Hp1|apply Hp2]|]. split_and!; congruence.
Qed.

(** A packet of the queue and its entry in the window carry the same. *)
Definition entry_ok (w : world) (p : sys_pack) : Prop :=
  let x := pkt w (slot (ph_seq (sp_head p))) in
  ph_seq (sp_head p) <= Highest_seq (win w) /\
  (pi_exist x <> 0 -> ph_seq (pi_head x) = ph_seq (sp_head p) -> load (pi_head x) = load (sp_head p)).
Definition send_queue_ok (w : world) : Prop :=
  let q := Send_pack_queue (tok w) in
  pq_num_packets q = Z.of_nat (length (pq_links q)) /\ Forall (entry_ok w) (pq_links q).

Lemma entry_ok_same w w' p : sent_rel w w' -> entry_ok w p -> entry_ok w' p.
Proof.
  intros (Hp & Hh & _) [Hle He]. unfold entry_ok. split; [lia|]. destruct (Hp (slot (ph_seq (sp_head p)))) as [Hx Hl].
  rewrite Hx. intros Hne Hs. destruct (Hl Hne) as [_ Hld]. rewrite Hld. apply He; [done|].
  etransitivity; [|exact Hs]. symmetry. by apply load_seq.
Qed.

Lemma write_through_rel h p w :
  entry_ok w p -> load h = load (sp_head p) ->
  wp (write_through h) (fun _ w' => sent_rel w w' /\ tok w' = tok w /\ net w' = net w /\ io w' = io w) never w.
Proof.
  intros [_ He] Hh. assert (Hs : ph_seq h = ph_seq (sp_head p)) by by by apply load_seq.
  unfold write_through. apply wp_bind, wp_get. destruct (Packets (win w) !! slot (ph_seq h)) as [x|] eqn:Hx; [|by apply wp_ret].
  apply wp_when; [intros Hseq%Z.eqb_eq|done]. apply wp_modify. split; [|done]. split; [|done].
  assert (Hpx : pkt w (slot (ph_seq h)) = x) by (unfold pkt; by rewrite Hx).
  intros e. unfold pkt at 2. cbn [win on_win Packets set_Packets].
  destruct (decide (e = slot (ph_seq h))) as [->|Hn]; [|by rewrite lookup_insert_ne].
  rewrite lookup_insert_eq, Hpx. split; [done|]. intros Hne. split; [done|].
  change (load h = load (pi_head x)).
  rewrite Hh. symmetry. rewrite <- Hs, Hpx in He. by apply He.
Qed.

Lemma io_sent w w' : io_only w w' -> sent_rel w w'.
Proof. intros (Hw & Hm & Hp & Ht & Hf). unfold sent_rel, pkt. by rewrite Hw, Hm, Hp. Qed.

(** Sending the first [n] packets of the queue. *)
Lemma send_queued_rel n : forall w,
  send_queue_ok w -> (n <= length (pq_links (Send_pack_queue (tok w))))%nat ->
  wp (send_queued n) (fun _ w' => sent_rel w w' /\ send_queue_ok w' /\
    pq_links (Send_pack_queue (tok w')) = drop n (pq_links (Send_pack_queue (tok w))) /\ goes_out [] w w') send_alarm w.
Proof.
  induction n as [|n IH]; intros w [Hn Hq] Hle; cbn [send_queued]; [by apply wp_ret; split_and!; try done; apply goes_out_nothing|].
  apply wp_bind, wp_get. cbv zeta. destruct (pq_links (Send_pack_queue (tok w))) as [|p rest] eqn:Hl; [cbn in Hle; lia|].
  inversion Hq as [|? ? Hp Hrest]; subst. apply wp_bind, wp_modify, wp_bind.
  set (w1 := on_tok _ w). eapply wp_mono; [apply bcast_pack_load| |done]. intros h w2 ((Hio & Hnet & _) & Hh & out & Hd & Hout).
  assert (H12 : sent_rel w1 w2) by by apply io_sent.
  assert (H2 : sent_rel w w2) by (etransitivity; [|exact H12]; done).
  apply wp_bind. eapply wp_mono; [apply (write_through_rel h p); [by apply (entry_ok_same w)|done]| |done].
  intros ? w3 (H3 & Ht3 & Hnet3 & Hio3). assert (Hw3 : sent_rel w w3) by (etransitivity; [exact H2|exact H3]).
  assert (Hq3 : Send_pack_queue (tok w3) = mkPacketQueue (pq_num_packets (Send_pack_queue (tok w)) - 1) rest).
  { rewrite Ht3. by destruct Hio as (_ & _ & _ & -> & _). }
  assert (Hgo : goes_out [] w w3).
  { split; [by rewrite Hnet3, Hnet|]. exists [p], [out]. rewrite app_nil_r, Hl, Hq3. split; [done|]. cbn [concat]. rewrite app_nil_r.
    split; [unfold datagrams in *; by rewrite Hio3, Hd|]. by constructor; [|constructor]. }
  eapply wp_mono; [apply IH| |done].
  - unfold send_queue_ok. rewrite Hq3. cbn in *. split; [lia|].
    eapply Forall_impl; [exact Hrest|]. intros x. by apply entry_ok_same.
  - rewrite Hq3. cbn in *. lia.
  - intros ? w4 (H4 & Hq4 & Hl4 & Hg4). split; [by etransitivity|]. split; [done|]. split; [by rewrite Hl4, Hq3|].
    exact (goes_out_trans _ _ _ _ _ Hgo Hg4).
Qed.

Lemma num_pack_to_send_bound w :
  send_queue_ok w -> 0 <= num_pack_to_send w <= Z.of_nat (length (pq_links (Send_pack_queue (tok w)))).
Proof.
  intros [Hn _]. unfold num_pack_to_send. rewrite Hn. cbv zeta. destruct (_ || _); [lia|]. zcases; lia.
Qed.

(** A packet goes out at once only when nothing is left in the queue. *)
Lemma sends_all_first w w1 :
  send_queue_ok w -> sent_rel w w1 ->
  negb (FC_accelerated_ring w1) || (FC_accelerated_window w1 =? 0) || is_state (Memb_state w1) EVS = true ->
  Z.of_nat (length (pq_links (Send_pack_queue (tok w)))) <= num_pack_to_send w.
Proof.
  intros [Hn _] (_ & _ & _ & _ & Hm & Hf). unfold FC_accelerated_ring, FC_accelerated_window, Memb_state, num_pack_to_send.
  rewrite Hm, Hf, Hn. unfold FC_accelerated_ring, FC_accelerated_window, Memb_state. cbv zeta.
  destruct (negb _); cbn [orb]; [done|]. destruct (is_state _ _); [done|]. rewrite orb_false_r. intros ->%Z.eqb_eq. zcases; lia.
Qed.

(** Queueing a packet for an empty entry: its header keeps its contents. *)
Lemma Prot_queue_bcast_rel p w :
  send_queue_ok w -> ph_seq (sp_head p) <= Highest_seq (win w) -> pi_exist (pkt w (slot (ph_seq (sp_head p)))) = 0 ->
  wp (Prot_queue_bcast p) (fun r w' => sent_rel w w' /\ send_queue_ok w' /\ load r.2 = load (sp_head p) /\
    Forall (fun x => x ∈ pq_links (Send_pack_queue (tok w)) \/ x = p) (pq_links (Send_pack_queue (tok w'))) /\
    goes_out [p] w w') send_alarm w.
Proof.
  intros Hq Hle He. unfold Prot_queue_bcast. apply wp_bind, wp_get. cbv zeta. apply wp_bind.
  pose proof (num_pack_to_send_bound w Hq).
  eapply wp_mono; [apply send_queued_rel; [done|lia]| |done]. intros ? w1 (H1 & Hq1 & Hl1 & Hg1).
  assert (Hin : Forall (fun x => x ∈ pq_links (Send_pack_queue (tok w)) \/ x = p) (pq_links (Send_pack_queue (tok w1)))).
  { rewrite Hl1. apply Forall_forall. intros x Hx. left.
    rewrite <- (take_drop (Z.to_nat (num_pack_to_send w))). apply elem_of_app. by right. }
  apply wp_bind, wp_get. apply wp_if; intros Hnow.
  - apply wp_bind. eapply wp_mono; [apply bcast_pack_load| |done]. intros h w2 ((Hio & Hnet & _) & Hh & out & Hd & Hout). apply wp_ret.
    assert (H2 : sent_rel w1 w2) by by apply io_sent.
    assert (Hnil : pq_links (Send_pack_queue (tok w1)) = []).
    { rewrite Hl1. apply drop_ge. rewrite <- (Nat2Z.id (length _)). apply Z2Nat.inj_le; [lia..|].
      by apply (sends_all_first w w1). }
    split; [by etransitivity|]. destruct Hio as (_ & _ & _ & Ht & _). split; [|split; [done|]; split; [by rewrite Ht|]].
    + unfold send_queue_ok in *. rewrite Ht. split; [apply Hq1|].
      eapply Forall_impl; [apply Hq1|]. intros x. by apply entry_ok_same.
    + apply (goes_out_trans [] [p] _ _ _ Hg1). split; [done|]. exists [p], [out]. rewrite Ht, Hnil. cbn [concat]. rewrite !app_nil_r.
      split; [done|]. split; [done|]. by constructor; [|constructor].
  - cbv zeta. apply wp_bind, wp_modify, wp_ret. split; [done|]. cbn [tok on_tok Send_pack_queue set_Send_pack_queue pq_links].
    match goal with |- context [?l ++ [p]] => set (l1 := l) end.
    assert (Hl1' : l1 = pq_links (Send_pack_queue (tok w1))).
    { unfold l1. destruct Hq1 as [Hn1 _]. destruct (pq_links (Send_pack_queue (tok w1))) as [|x l]; rewrite Hn1; [done|].
      by rewrite (proj2 (Z.eqb_neq (Z.of_nat (length (x :: l))) 0)) by (cbn [length]; lia). }
    rewrite Hl1'. split; [|split; [done|]; split].
    + unfold send_queue_ok. cbn. destruct Hq1 as [Hn1 Hf1]. rewrite length_app, Hn1. cbn. split; [lia|].
      apply Forall_app. split; [exact Hf1|]. constructor; [|done].
      unfold entry_ok. cbn. destruct H1 as (Hp1 & Hh1 & _). split; [lia|]. destruct (Hp1 (slot (ph_seq (sp_head p)))) as [Hx _].
      change (pkt _ (slot (ph_seq (sp_head p)))) with (pkt w1 (slot (ph_seq (sp_head p)))). congruence.
    + apply Forall_app. split; [done|]. constructor; [by right|done].
    + apply (goes_out_trans [] [p] _ _ _ Hg1). split; [done|]. exists [], []. cbn. by rewrite app_nil_r.
Qed.

(* --------------------------------------------------------------------- *)
(** ** Building a packet *)

(** Unblocking the clients neither changes the routes nor sends a packet. *)
Definition silent (w w' : world) : Prop := net w' = net w /\ datagrams w' = datagrams w.
#[export] Instance silent_preorder : PreOrder silent.
Proof. split; [done|]. intros w1 w2 w3 (?&?) (?&?). split; congruence. Qed.
Definition unblock_silent `{Session} : Prop := keeps silent never sess_unblock_users_level.

(** What filling a packet leaves alone: it only takes from the down queue. *)
Definition fill_rel `{Session} (w w' : world) : Prop :=
  win w' = win w /\ tok w' = tok w /\ mem w' = mem w /\ fc w' = fc w /\
  (unblock_silent -> net w' = net w /\ datagrams w' = datagrams w).
#[export] Instance fill_rel_preorder `{Session} : PreOrder fill_rel.
Proof.
  split; [done|]. intros w1 w2 w3 (?&?&?&?&Hs1) (?&?&?&?&Hs2). unfold fill_rel. split_and!; [congruence..|].
  intros Hs. destruct (Hs1 Hs), (Hs2 Hs). split; congruence.
Qed.

(** The packet [p] is number [s] and carries the pieces [g]: the first in
    front, with its number and its service, the others as fragments the
    receiver's split finds, of a service the packet allows. *)
Definition carries (p : packet_info) (s : Z) (g : list piece) : Prop :=
  exists x xs, g = x :: xs /\ pi_exist p = 1 /\ ph_seq (pi_head p) = s /\
    Is_regular (ph_type (pi_head p)) = Is_regular (pc_type x) /\
    ph_fragment_index (pi_head p) = pc_index x /\ ph_fragment_len (pi_head p) = se_len (pc_elem x) /\
    get_bytes (pi_body p) 0 (se_len (pc_elem x)) = elem_bytes (pc_elem x) /\
    split_fragments (Z.to_nat (ph_data_len (pi_head p))) (pi_body p) (ph_data_len (pi_head p))
      (ph_fragment_len (pi_head p)) = inr (single <$> (pc_elem <$> xs)) /\
    Forall (fun y => types_compatible (pc_type x) (pc_type y) = true /\
      se_len (pc_elem x) + sizeof_fragment_header + se_len (pc_elem y) <= sizeof_packet_body) xs.

Lemma carries_same p p' s g : packet_same p p' -> carries p s g -> carries p' s g.
Proof.
  intros [Hx Hs] (x & xs & -> & He & Hseq & Hty & Hi & Hl & Hb & Hf & Hc). destruct Hs as [Hbody Hload]; [by rewrite He|].
  exists x, xs. unfold load in Hload. injection Hload as H1 H2 H3 H4 H5 H6 _.
  rewrite Hx, Hbody, H1, H3, H4, H5, H6. done.
Qed.

Section build.
Context `{SessionQueue}.

Lemma unblock_fill w : wp Sess_unblock_users_level (fun _ => fill_rel w) never w.
Proof.
  unfold Sess_unblock_users_level, emit. apply wp_bind, wp_modify. set (w1 := on_io _ w).
  assert (Hd : datagrams w1 = datagrams w) by (unfold datagrams; cbn; by rewrite filter_app, app_nil_r).
  pose proof (sess_unblock_users_level_queue w1) as Hq. unfold wp in *.
  destruct (sess_unblock_users_level w1) as [[] w2|e] eqn:He; [|done]. destruct Hq as (Hw & Hm & _ & Ht & Hf).
  split; [exact Hw|]. split; [exact Ht|]. split; [exact Hm|]. split; [exact Hf|]. intros Hs.
  specialize (Hs w1). unfold wp in Hs. rewrite He in Hs. destruct Hs as [Hn Hd2]. split; [exact Hn|]. by rewrite Hd2.
Qed.

Lemma advance_down_fill m : keeps fill_rel anyerr (advance_down m).
Proof.
  intros w. unfold advance_down. apply wp_bind, wp_get. cbv zeta.
  destruct (_ <? _); [apply wp_bind, wp_modify, wp_ret; done|].
  destruct (_ =? _); [|done]. apply wp_bind, wp_modify, wp_bind.
  set (w1 := on_prt _ w).
  apply (wp_mono _ (fun _ => fill_rel w1) _ never); [apply wp_when; [intros _; apply unblock_fill|done]| |done].
  intros ? w2 Hw. apply wp_ret. by etransitivity.
Qed.

Lemma fill_packet_fill fuel : forall m f, keeps fill_rel anyerr (fill_packet fuel m f).
Proof.
  induction fuel as [|fuel IH]; intros m f; cbn [fill_packet]; [by apply keeps_fail|].
  apply (keeps_bind _ _); [apply advance_down_fill|intros idx]. cbv zeta.
  apply (keeps_bind _ _); [apply (keeps_get _ _)|intros w].
  destruct (_ =? _); [apply (keeps_ret _ _)|]. destruct (dq_links _); [by apply keeps_fail|].
  repeat (destruct (_ : bool); [first [apply (keeps_ret _ _)|by apply keeps_fail]|]). apply IH.
Qed.

(** The window holds, under the number [s], the packet [p] of the queue. *)
Definition in_window (w : world) (s : Z) (p : sys_pack) : Prop :=
  let x := pkt w (slot s) in
  pi_exist x = 1 /\ ph_seq (sp_head p) = s /\ load (pi_head x) = load (sp_head p) /\ pi_body x = sp_buf p /\
  sp_len p = ph_data_len (sp_head p).
Lemma in_window_same w w' s p : packet_same (pkt w (slot s)) (pkt w' (slot s)) -> in_window w s p -> in_window w' s p.
Proof.
  intros [Hx Hs] (He & Hn & Hl & Hb & Hlen). destruct Hs as [Hb' Hl']; [by rewrite He|]. unfold in_window. by rewrite Hx, Hb', Hl'.
Qed.

(** A packet that was filled and queued is put in the window. *)
Lemma put_sent w w2 w3 f y ys h i :
  let n := Highest_seq (win w) + 1 in
  let x := mkSysPack (fl_head f) (fl_body f) (ph_data_len (fl_head f)) in
  let w4 := on_win (fun r => set_Packets (<[slot n := mkPacketInfo h (fl_body f) 1 i]> (Packets r)) r) w3 in
  filled f (pc_elem y) (pc_elem <$> ys) -> ph_seq (fl_head f) = n -> load h = load (fl_head f) ->
  ph_type (fl_head f) = pc_type y -> ph_fragment_index (fl_head f) = pc_index y ->
  Forall (fun z => types_compatible (pc_type y) (pc_type z) = true) ys ->
  send_queue_ok w -> pq_links (Send_pack_queue (tok w2)) = pq_links (Send_pack_queue (tok w)) ->
  Packets (win w2) = Packets (win w) -> sent_rel w2 w3 -> send_queue_ok w3 ->
  Forall (fun y => y ∈ pq_links (Send_pack_queue (tok w2)) \/ y = x) (pq_links (Send_pack_queue (tok w3))) ->
  send_queue_ok w4 /\ carries (pkt w4 (slot n)) n (y :: ys) /\
  (forall e, e <> slot n -> packet_same (pkt w e) (pkt w4 e)).
Proof.
  intros n x w4 Hf Hs Hload Hty Hidx Hcomp [_ Hqf] Hlinks Hpk (Hp & Hh & _) [Hn3 Hq3] Hin.
  pose proof (filled_frags _ _ _ Hf) as Hfr. pose proof (filled_len _ _ _ Hf) as Hlen.
  destruct Hf as (Hfl & Hfb & Hfd & Hfe & _). pose proof (load_seq _ _ Hload) as Hseq.
  assert (Hnew : pkt w4 (slot n) = mkPacketInfo h (fl_body f) 1 i) by (unfold pkt, w4; cbn; by rewrite lookup_insert_eq).
  assert (Hold : forall e, e <> slot n -> pkt w4 e = pkt w3 e) by (intros e He; unfold pkt, w4; cbn; by rewrite lookup_insert_ne).
  split_and!.
  - split; [exact Hn3|]. rewrite Forall_forall in Hq3, Hin, Hqf. apply Forall_forall. intros q Hy.
    change (tok w4) with (tok w3) in Hy. destruct (Hq3 q Hy) as [Hyh Hye]. split; [exact Hyh|].
    destruct (decide (slot (ph_seq (sp_head q)) = slot n)) as [He|He]; [|by rewrite (Hold _ He)].
    rewrite He, Hnew. cbn [pi_head]. intros _ Hyn. destruct (Hin q Hy) as [Hold'| ->]; [|done].
    rewrite Hlinks in Hold'. destruct (Hqf q Hold') as [Hle _]. unfold n in Hs. lia.
  - rewrite Hnew. exists y, ys. cbn [pi_head pi_body pi_exist]. unfold load in Hload. injection Hload as _ _ H3 H4 H5 H6 _.
    rewrite H3, H4, H5, H6, Hfl, Hty. inversion Hfe as [|? ? ? Hfe']; subst.
    split_and!; try done; [congruence|apply split_frags; (done || lia)|].
    pose proof (frags_room _ _ _ _ (proj1 Hlen) Hfe' Hfr) as Hroom. rewrite Forall_fmap in Hroom.
    apply Forall_and. split; [done|]. eapply Forall_impl; [exact Hroom|]. cbn. intros z Hz. lia.
  - intros e He. rewrite (Hold e He). assert (Hpe : pkt w e = pkt w2 e) by (unfold pkt; by rewrite Hpk).
    rewrite Hpe. apply Hp.
Qed.

Lemma send_one_packet_spec w :
  down_ok w -> send_queue_ok w -> missing w (Highest_seq (win w) + 1) = true ->
  wp send_one_packet (fun c w' =>
    match c with
    | Break => w' = w /\ pending (down w) = []
    | Continue => exists g, pending (down w) = g ++ pending (down w') /\ down_ok w' /\ send_queue_ok w' /\
        Highest_seq (win w') = Highest_seq (win w) + 1 /\ Last_discarded (win w') = Last_discarded (win w) /\
        carries (pkt w' (slot (Highest_seq (win w) + 1))) (Highest_seq (win w) + 1) g /\
        (exists p, in_window w' (Highest_seq (win w) + 1) p /\ (unblock_silent -> goes_out [p] w w')) /\
        (forall e, e <> slot (Highest_seq (win w) + 1) -> packet_same (pkt w e) (pkt w' e))
    end) send_alarm w.
Proof.
  intros Hd Hq Hm. unfold send_one_packet. apply wp_bind, wp_get. cbv zeta.
  pose proof Hd as [_ (Hn & _)].
  apply wp_if; intros Hne%Z.eqb_eq || intros Hne%Z.eqb_neq.
  { apply wp_ret. split; [done|]. unfold pending. by destruct (dq_links (down w)); [|cbn in Hn; lia]. }
  destruct (dq_links (down w)) as [|link ls] eqn:Hl; [by destruct Hne|].
  apply wp_bind, wp_modify, wp_bind, wp_modify, wp_bind. set (w1 := on_win _ (on_win _ w)).
  set (e0 := element (dl_mess link) (dq_cur_element (down w))).
  assert (He0 : elem_ok e0) by by apply (element_ok w link ls).
  pose proof (index_s16 w link ls Hd Hl) as Hidx.
  pose proof (new_filled w (dl_type link) e0 He0) as Hf. pose proof He0 as [He00 He01].
  eapply wp_mono; [apply wp_and_any; [apply (fill_packet_spec FILL_FUEL _ w1 link ls e0 [] Hf); try done|apply fill_packet_fill]| |done].
  { destruct Hf as (_ & _ & _ & _ & _ & ->). unfold FILL_FUEL. assert (sizeof_packet_body = 1432) by done. lia. }
  intros f w2 [(xs & Hf' & Hpend & Hd2 & (Ht & Hs & Hi) & Hcomp) (Hw2 & Htok2 & Hmem2 & Hfc2 & Hsil2)].
  change (down w1) with (down w) in *. cbn in Hs. change (s16 (index_of (dl_mess link) (dq_cur_element (down w))))
    with (s16 (index_of (dl_mess link) (dq_cur_element (down w)))) in Hi. cbn [fl_frag] in Hi. rewrite Hidx in Hi.
  pose proof (filled_frags _ _ _ Hf') as Hfr. pose proof (filled_len _ _ _ Hf') as Hlen.
  assert (Hq2 : send_queue_ok w2).
  { destruct Hq as [Hqn Hqf]. unfold send_queue_ok. rewrite Htok2. split; [exact Hqn|].
    eapply Forall_impl; [exact Hqf|]. intros x [Hx1 Hx2]. unfold entry_ok, pkt in *. rewrite Hw2. split; [|exact Hx2].
    cbn. lia. }
  apply wp_bind. eapply wp_mono; [apply Prot_queue_bcast_rel; [done| |]| |done].
  { cbn [sp_head]. rewrite Hs, Hw2. cbn. lia. }
  { cbn [sp_head]. rewrite Hs. unfold pkt. rewrite Hw2. by apply Z.eqb_eq. }
  intros [k h] w3 (H3 & Hq3 & Hload & Hin & Hgo). cbn [snd sp_head] in *. apply wp_bind, wp_get. cbv zeta.
  pose proof (load_seq _ _ Hload) as Hseq. rewrite Hs in Hseq. rewrite Hseq. pose proof H3 as (Hp3 & Hh3 & Hl3 & Hprt3 & _).
  assert (He3 : pi_exist (pkt w3 (slot (Highest_seq (win w) + 1))) = 0).
  { destruct (Hp3 (slot (Highest_seq (win w) + 1))) as [-> _]. unfold pkt. rewrite Hw2. by apply Z.eqb_eq. }
  rewrite He3. cbn [Z.eqb negb]. apply wp_bind, wp_modify, wp_ret. generalize (My_index (prt w3)). intros i.
  destruct (put_sent w w2 w3 f (piece_at link (dq_cur_element (down w))) xs h i) as (Hq4 & Hc4 & Hs4); try done; [by rewrite Htok2|by rewrite Hw2|].
  exists (piece_at link (dq_cur_element (down w)) :: xs). unfold down_ok, down in *. cbn [prt on_win]. rewrite Hprt3.
  split; [exact Hpend|]. split; [exact Hd2|]. split; [exact Hq4|]. split; [by cbn; rewrite Hh3, Hw2|].
  split; [by cbn; rewrite Hl3, Hw2|]. split; [done|]. split; [|done].
  eexists. split; [|intros Hs2; destruct (Hsil2 Hs2); by eapply (goes_out_around _ w w2 w3); [by apply goes_out_nothing|exact Hgo|by apply goes_out_nothing]].
  unfold in_window, pkt. cbn. rewrite lookup_insert_eq. cbn. done.
Qed.
End build.

(** The packets sent so far carry the groups [gs], from number [n] on. *)
Definition sent_groups (w : world) (n : Z) (gs : list (list piece)) : Prop :=
  forall j g, gs !! j = Some g -> carries (pkt w (slot (n + Z.of_nat j))) (n + Z.of_nat j) g.

(** The [i] packets that were made, as the window holds them: those that are
    not in the send queue any more went out, after what was queued before. *)
Definition made `{Session} (w : world) (i : Z) (w' : world) : Prop :=
  exists ps, Z.of_nat (length ps) = i /\ (unblock_silent -> goes_out ps w w') /\
    (forall j p, ps !! j = Some p -> in_window w' (Highest_seq (win w) + 1 + Z.of_nat j) p).

(** After [i] packets, in a window that is free above [Highest_seq]. *)
Definition sending_at (w : world) (i : Z) (w' : world) : Prop :=
  exists gs, Z.of_nat (length gs) = i /\ pending (down w) = concat gs ++ pending (down w') /\
    down_ok w' /\ send_queue_ok w' /\ Highest_seq (win w') = Highest_seq (win w) + i /\
    Last_discarded (win w') = Last_discarded (win w) /\ sent_groups w' (Highest_seq (win w) + 1) gs /\
    (forall s, Last_discarded (win w) < s <= Last_discarded (win w) + MAX_PACKETS_IN_STRUCT ->
       s <= Highest_seq (win w) \/ Highest_seq (win w) + i < s -> packet_same (pkt w (slot s)) (pkt w' (slot s))).

Section send_new.
Context `{SessionQueue}.

Lemma sending_next w i w1 :
  Last_discarded (win w) <= Highest_seq (win w) -> 0 <= i ->
  Highest_seq (win w) + i < Last_discarded (win w) + MAX_PACKETS_IN_STRUCT ->
  (forall s, Highest_seq (win w) < s <= Last_discarded (win w) + MAX_PACKETS_IN_STRUCT -> missing w s = true) ->
  sending_at w i w1 -> made w i w1 ->
  wp send_one_packet (fun c w' =>
    match c with
    | Continue => sending_at w (i + 1) w' /\ made w (i + 1) w'
    | Break => sending_at w i w' /\ made w i w' /\ pending (down w') = []
    end) send_alarm w1.
Proof.
  intros Hlow Hi Hmax Hfree (gs & Hlen & Hpend & Hd & Hq & Hh & Hl & Hg & Hs) (ps & Hps & Hgo & Hin).
  set (n := Highest_seq (win w) + 1 + i).
  assert (Hn : Highest_seq (win w1) + 1 = n) by (unfold n; lia).
  assert (Hm : missing w1 (Highest_seq (win w1) + 1) = true).
  { rewrite Hn. unfold missing. destruct (Hs n) as [-> _]; [unfold n; lia|right; unfold n; lia|].
    apply (Hfree n). unfold n. lia. }
  eapply wp_mono; [by apply send_one_packet_spec| |done]. rewrite Hn.
  intros [|] w2; [|intros [-> Hnone]; split; [by exists gs|]; split; [by exists ps|done]].
  intros (g & Hpend2 & Hd2 & Hq2 & Hh2 & Hl2 & Hc2 & (p & Hp2 & Hgo2) & Hs2).
  assert (Hne : forall s, Last_discarded (win w) < s <= Last_discarded (win w) + MAX_PACKETS_IN_STRUCT ->
    s <> n -> slot s <> slot n).
  { intros s Hsr Hsn He. apply Hsn, slot_inj; [unfold n; lia|done]. }
  split.
  2:{ exists (ps ++ [p]). rewrite length_app. cbn [length]. split; [lia|].
      split; [intros Hsil; eapply goes_out_trans; [by apply Hgo|by apply Hgo2]|]. intros j x [Hj|[Hj Hx]]%lookup_app_Some.
      - pose proof (lookup_lt_Some _ _ _ Hj). eapply in_window_same; [apply Hs2, Hne; unfold n; lia|by apply Hin].
      - destruct (j - length ps)%nat as [|k] eqn:Hk; [|by destruct k]. injection Hx as <-.
        replace (Highest_seq (win w) + 1 + Z.of_nat j) with n by (unfold n; lia). exact Hp2. }
  exists (gs ++ [g]). rewrite length_app, Nat2Z.inj_add, concat_app, <- app_assoc. cbn. rewrite app_nil_r.
  split_and!; [lia|by rewrite Hpend, Hpend2|done|done|lia|congruence| |].
  - intros j x [Hj|[Hj Hx]]%lookup_app_Some.
    + pose proof (lookup_lt_Some _ _ _ Hj). eapply carries_same; [apply Hs2, Hne; unfold n; lia|by apply Hg].
    + destruct (j - length gs)%nat as [|k] eqn:Hk; [|by destruct k]. injection Hx as <-.
      replace (Highest_seq (win w) + 1 + Z.of_nat j) with n by (unfold n; lia). exact Hc2.
  - intros s Hsr Hso. etransitivity; [apply Hs; [done|lia]|]. apply Hs2, Hne; [done|unfold n; lia].
Qed.
(** The loop keeps [sending_at]. *)
Lemma Send_new_packets_sends (w : world) (num_allowed : Z) :
  down_ok w -> send_queue_ok w ->
  Last_discarded (win w) <= Highest_seq (win w) -> 0 <= num_allowed ->
  Highest_seq (win w) + num_allowed <= Last_discarded (win w) + MAX_PACKETS_IN_STRUCT ->
  (forall s, Highest_seq (win w) < s <= Last_discarded (win w) + MAX_PACKETS_IN_STRUCT -> missing w s = true) ->
  wp (Send_new_packets num_allowed) (fun n w' => 0 <= n <= num_allowed /\ sending_at w n w' /\
    (n < num_allowed -> pending (down w') = []) /\ made w n w') send_alarm w.
Proof.
  intros Hd Hq Hlow Hn Hmax Hfree. unfold Send_new_packets.
  apply (wp_mfor (fun i w' => i <= num_allowed /\ sending_at w i w' /\ made w i w') num_allowed); [|lia| |].
  - split; [lia|]. split; [exists []; split_and!; try done; lia|]. exists []. split; [done|]. split; [|done].
    intros _. by apply goes_out_nothing.
  - intros i w1 Hi (_ & Hw1 & Hm1) Hlt%Z.ltb_lt. split; [done|].
    eapply wp_mono; [apply (sending_next w i w1); (done || lia)| |done].
    intros [|] w2; [intros [Hw2 Hm2]; split; [lia|done]|]. intros (Hw2 & Hm2 & Hnone). split_and!; [lia|lia|done|done|done].
  - intros i w1 Hi (Hle & Hw1 & Hm1) Hge%Z.ltb_ge. split_and!; [lia|done|done|lia|done].
Qed.
End send_new.

(** C29: sending.  With room for [num_allowed] packets in the window,
    [Send_new_packets] makes at most that many; their sequence numbers are
    the next ones, and the packets in the window under those numbers carry,
    in order, exactly what was taken from the front of what is pending; it
    makes fewer only when nothing is left.  Each of them leaves as datagrams,
    one to every address of the ring, with the header's contents and the body
    the window holds, or waits in the send queue of an accelerated ring: what
    was queued before and then the new packets, in order, is what went out,
    in this order and as the only datagrams, followed by what is still queued.
    No other packet of the window changes, the loop ends, and no packet is
    ever created over another.  (Unblocking the clients is assumed not to
    send packets itself.) *)
Theorem sends_what_is_pending `{SessionQueue} (w : world) (num_allowed : Z) :
  unblock_silent ->
  down_ok w -> send_queue_ok w ->
  Last_discarded (win w) <= Highest_seq (win w) -> 0 <= num_allowed ->
  Highest_seq (win w) + num_allowed <= Last_discarded (win w) + MAX_PACKETS_IN_STRUCT ->
  (forall s, Highest_seq (win w) < s <= Last_discarded (win w) + MAX_PACKETS_IN_STRUCT -> missing w s = true) ->
  wp (Send_new_packets num_allowed) (fun n w' => 0 <= n <= num_allowed /\ sending_at w n w' /\
    (n < num_allowed -> pending (down w') = []) /\
    exists ps, Z.of_nat (length ps) = n /\
      (forall j p, ps !! j = Some p -> in_window w' (Highest_seq (win w) + 1 + Z.of_nat j) p) /\
      goes_out ps w w') send_alarm w.
Proof.
  intros Hsil ? ? ? ? ? ?. eapply wp_mono; [by apply Send_new_packets_sends| |done].
  intros n w' (Hn & Hs & Hp & ps & Hl & Hgo & Hin). do 3 (split; [done|]). exists ps. split; [done|]. split; [done|by apply Hgo].
Qed.

(** The same daemon on a segment with one address. *)
Definition sample_linked : world :=
  on_net (fun v => set_Bcast_needed 1 (set_Bcast_addrs [Inet 1 4803] v)) sample_sending.

Lemma sample_linked_down : down_ok sample_linked.
Proof.
  split; [vm_compute; split; congruence|].
  change (down sample_linked) with (mkDownQueue 2 0 [mkDownLink AGREED_TYPE [mkElem [1; 2; 3] 3];
    mkDownLink FIFO_TYPE [mkElem [4; 5; 6; 7; 8] 5]]).
  split_and!; cbn; try lia.
  repeat constructor; cbn; unfold sizeof_packet_body, MAX_PACKET_SIZE, sizeof_packet_header; try lia; done.
Qed.

Lemma sends_what_is_pending_witness :
  wp (Send_new_packets 5) (fun n w' => 0 <= n <= 5 /\ sending_at sample_linked n w' /\
    (n < 5 -> pending (down w') = []) /\
    exists ps, Z.of_nat (length ps) = n /\ goes_out ps sample_linked w') send_alarm sample_linked /\
  (let w' := run_to (Send_new_packets 5) sample_linked in
   Highest_seq (win w') = 1 /\ length (datagrams w') = 1%nat /\ pq_links (Send_pack_queue (tok w')) = []).
Proof.
  pose proof sample_linked_down as Hd.
  assert (Hq : send_queue_ok sample_linked) by by split.
  split; [|vm_compute; repeat split; reflexivity].
  eapply wp_mono; [apply (sends_what_is_pending sample_linked 5); [|exact Hd|exact Hq|..]; cbn; try lia; try done|
    |intros e He; exact He].
  intros n w' (Hn & Hs & Hp & ps & Hl & _ & Hgo). split; [exact Hn|]. split; [exact Hs|]. split; [exact Hp|].
  exists ps. split; [exact Hl|exact Hgo].
Defined.
