(* ===== verification/EndToEnd.v ===== *)
(** * From one daemon's down queue to another's session layer

    The composition of sending and delivery.  [assemble] says, of the pieces
    a sender takes from its down queue, which messages they are; the theorem
    is that a receiver that goes through the packets in the order of their
    sequence numbers, those of the senders interleaved in any way, hands up
    for each sender exactly the messages that were queued, in their order. *)

From Stdlib Require Import ZArith Lia.
From stdpp Require Import base strings numbers option gmap list sorting.
From S2P Require Import Prelude Wire Bytes Config Events State Sample Network FlowControl MembSets MembCore.
From S2P Require Import Deliver Delivery ProtSend Retrans Requests Packing Sending.

(* --------------------------------------------------------------------- *)
(** ** Messages as byte strings *)

(** What a message says: the bytes of its elements. *)
Definition content (m : scatter) : list (list Z) := elem_bytes <$> m.

(** The messages that the pieces [xs] complete, the first one continuing
    [part], and what they leave unfinished. *)
Fixpoint assemble (part : list (list Z)) (xs : list piece) : list (list (list Z)) * list (list Z) :=
  match xs with
  | [] => ([], part)
  | x :: xs =>
      let part := part ++ [elem_bytes (pc_elem x)] in
      if pc_index x <? 0 then let '(ms, r) := assemble [] xs in (part :: ms, r)
      else assemble part xs
  end.

(** A message in the shape the session layer gives it: all elements but the
    last fill their buffers ([Message_Buffer_to_Message_Fragments]). *)
Definition chunked (m : scatter) : Prop :=
  Forall (fun e => se_len e = sizeof_packet_body) (take (length m - 1) m).

(** The pieces [xs], after [k] pieces of the message the first belongs to,
    are numbered as [Send_new_packets] does, and only the last one of a
    message leaves room in its packet. *)
Fixpoint numbered (k : Z) (xs : list piece) : Prop :=
  match xs with
  | [] => True
  | x :: xs =>
      0 <= se_len (pc_elem x) /\ k + 1 <= MAX_SCATTER_ELEMENTS /\
      ((pc_index x = k + 1 /\ se_len (pc_elem x) = sizeof_packet_body /\ numbered (k + 1) xs) \/
       (pc_index x = - (k + 1) /\ numbered 0 xs))
  end.

Section assemble.
Implicit Types (xs ys : list piece) (part : list (list Z)).

Lemma assemble_app part xs ys :
  assemble part (xs ++ ys) =
    let '(ms, r) := assemble part xs in let '(ms', r') := assemble r ys in (ms ++ ms', r').
Proof.
  revert part. induction xs as [|x xs IH]; intros part; cbn; [by destruct (assemble part ys)|].
  destruct (pc_index x <? 0); rewrite IH; [|done].
  destruct (assemble [] xs) as [ms r]. by destruct (assemble r ys).
Qed.

(** Pieces of one-element messages. *)
Lemma assemble_singles xs :
  Forall (fun y => pc_index y = -1) xs ->
  assemble [] xs = ((fun y => [elem_bytes (pc_elem y)]) <$> xs, []).
Proof. induction 1 as [|y xs Hy Hxs IH]; [done|]. cbn. by rewrite Hy, IH. Qed.

(** The pieces of one message, from the [k]-th on. *)
Lemma pieces_drop l k :
  (k < length (dl_mess l))%nat ->
  drop k (pieces l) = piece_at l (Z.of_nat k) :: drop (S k) (pieces l).
Proof.
  intros Hk. apply drop_S. unfold pieces. rewrite list_lookup_fmap, lookup_seqZ_lt by lia.
  cbn. do 2 f_equal; lia.
Qed.

Lemma pieces_length l : length (pieces l) = length (dl_mess l).
Proof. unfold pieces. rewrite length_fmap, length_seqZ. lia. Qed.

Lemma element_lookup m (k : nat) e : m !! k = Some e -> element m (Z.of_nat k) = e.
Proof. intros Hk. unfold element, aget. rewrite (proj2 (Z.ltb_ge (Z.of_nat k) 0)) by lia. rewrite Nat2Z.id. by setoid_rewrite Hk. Qed.

Lemma numbered_pieces l ys k :
  mess_ok (dl_mess l) -> chunked (dl_mess l) -> numbered 0 ys -> (k < length (dl_mess l))%nat ->
  numbered (Z.of_nat k) (drop k (pieces l) ++ ys).
Proof.
  intros [Hlen Hok] Hc Hys. remember (length (dl_mess l) - k)%nat as n eqn:Hn.
  revert k Hn. induction n as [|n IH]; intros k Hn Hk; [lia|].
  rewrite pieces_drop by done. destruct (lookup_lt_is_Some_2 (dl_mess l) k Hk) as [e He].
  pose proof (Forall_lookup_1 _ _ _ _ Hok He) as [He0 _].
  cbn [app numbered piece_at pc_elem pc_index]. rewrite (element_lookup _ _ _ He).
  split; [done|]. split; [lia|]. unfold index_of.
  destruct (Z.ltb_spec (Z.of_nat k + 1) (Z.of_nat (length (dl_mess l)))); [left|right].
  - split; [done|]. split.
    + apply (Forall_lookup_1 _ _ k _ Hc). rewrite lookup_take_lt by lia. done.
    + replace (Z.of_nat k + 1) with (Z.of_nat (S k)) by lia. apply IH; lia.
  - split; [lia|]. rewrite drop_ge by (rewrite pieces_length; lia). done.
Qed.

Lemma assemble_pieces l part k :
  mess_ok (dl_mess l) -> (k < length (dl_mess l))%nat ->
  assemble part (drop k (pieces l)) = ([part ++ content (drop k (dl_mess l))], []).
Proof.
  intros [Hlen _]. remember (length (dl_mess l) - k)%nat as n eqn:Hn.
  revert k part Hn. induction n as [|n IH]; intros k part Hn Hk; [lia|].
  rewrite pieces_drop by done. destruct (lookup_lt_is_Some_2 (dl_mess l) k Hk) as [e He].
  rewrite (drop_S _ _ _ He). cbn [assemble piece_at pc_elem pc_index].
  rewrite (element_lookup _ _ _ He). unfold index_of.
  destruct (Z.ltb_spec (Z.of_nat k + 1) (Z.of_nat (length (dl_mess l)))).
  - rewrite (proj2 (Z.ltb_ge _ 0)) by lia. rewrite IH by lia. cbn. by rewrite <- app_assoc.
  - rewrite (proj2 (Z.ltb_lt _ 0)) by lia. rewrite !drop_ge by (rewrite ?pieces_length; lia). done.
Qed.

(** The whole queue: its messages. *)
Lemma assemble_links ls :
  Forall (fun l => mess_ok (dl_mess l)) ls ->
  assemble [] (ls ≫= pieces) = ((fun l => content (dl_mess l)) <$> ls, []).
Proof.
  induction 1 as [|l ls Hl Hls IH]; [done|]. cbn. rewrite assemble_app.
  pose proof (assemble_pieces l [] 0 Hl) as Ha. rewrite !drop_0 in Ha. rewrite Ha by (destruct Hl; lia).
  by rewrite IH.
Qed.

Lemma numbered_links ls :
  Forall (fun l => mess_ok (dl_mess l) /\ chunked (dl_mess l)) ls -> numbered 0 (ls ≫= pieces).
Proof.
  induction 1 as [|l ls [Hl Hc] Hls IH]; [done|]. cbn.
  apply (numbered_pieces l (ls ≫= pieces) 0); [done..|destruct Hl; lia].
Qed.

(** One packet's pieces: one message's, and then whole messages. *)
Lemma numbered_group k x xs ys :
  numbered k (x :: xs ++ ys) ->
  Forall (fun y => se_len (pc_elem x) + sizeof_fragment_header + se_len (pc_elem y) <= sizeof_packet_body) xs ->
  Forall (fun y => pc_index y = -1) xs /\
  ((pc_index x = k + 1 /\ xs = [] /\ numbered (k + 1) ys) \/ (pc_index x = - (k + 1) /\ numbered 0 ys)).
Proof.
  intros (Hx0 & Hk & Hx) Hroom. assert (Hb : sizeof_packet_body = 1432) by done.
  assert (Hh : sizeof_fragment_header = 4) by done. destruct Hx as [(Hi & Hl & Hn)|(Hi & Hn)].
  - destruct xs as [|y xs]; [split; [done|left; done]|]. exfalso.
    inversion Hroom as [|? ? Hy _]; subst. destruct Hn as (Hy0 & _). lia.
  - enough (Hxs : Forall (fun y => pc_index y = -1) xs /\ numbered 0 ys) by (split; [apply Hxs|right; split; [done|apply Hxs]]).
    clear Hi. induction xs as [|y xs IH]; [done|]. inversion Hroom as [|? ? Hy Hroom']; subst.
    destruct Hn as (Hy0 & _ & [(_ & Hyl & _)|(Hyi & Hn)]); [lia|].
    destruct (IH Hn Hroom') as [Hall Hys]. split; [constructor; [lia|done]|done].
Qed.
End assemble.

(* --------------------------------------------------------------------- *)
(** ** The receiver *)

(** The message an up queue is assembling. *)
Definition partial (up : gmap Z up_queue) (i : Z) : scatter :=
  let u := default no_up_queue (up !! i) in if uq_exist u then uq_mess u else [].

(** The up queues hold the unfinished messages [parts] of the senders; the
    queue of the reliable messages is never left unfinished. *)
Definition up_ok (up : gmap Z up_queue) (parts : Z -> list (list Z)) : Prop :=
  (forall i, 0 <= i < MAX_PROCS_RING -> content (partial up i) = parts i) /\ partial up MAX_PROCS_RING = [].

(** A received packet, with the index of its sender and the pieces in it. *)
Definition received (p : packet_info) (i : Z) (g : list piece) : Prop :=
  pi_proc_index p = i /\ 0 <= i < MAX_PROCS_RING /\ exists s, carries p s g.

(** The messages completed by the packets [igs], each with its sender. *)
Fixpoint assemble_from (parts : Z -> list (list Z)) (igs : list (Z * list piece)) : list (Z * list (list Z)) :=
  match igs with
  | [] => []
  | (i, g) :: igs =>
      let '(ms, r) := assemble (parts i) g in
      (pair i <$> ms) ++ assemble_from (fun j => if decide (j = i) then r else parts j) igs
  end.

(** The unfinished messages afterwards. *)
Fixpoint left_from (parts : Z -> list (list Z)) (igs : list (Z * list piece)) : Z -> list (list Z) :=
  match igs with
  | [] => parts
  | (i, g) :: igs => left_from (fun j => if decide (j = i) then (assemble (parts i) g).2 else parts j) igs
  end.

(** What the packets of sender [i] carry. *)
Definition stream_of (i : Z) (igs : list (Z * list piece)) : list piece :=
  concat (snd <$> filter (fun x => x.1 = i) igs).

Section receiver.
Implicit Types (up : gmap Z up_queue) (parts : Z -> list (list Z)) (igs : list (Z * list piece)).

Lemma content_partial_length up i : length (content (partial up i)) = length (partial up i).
Proof. apply length_fmap. Qed.

Lemma content_singles (xs : list piece) :
  content <$> (single <$> (pc_elem <$> xs)) = (fun y => [elem_bytes (pc_elem y)]) <$> xs.
Proof.
  rewrite <- !list_fmap_compose. apply list_fmap_ext. intros j y Hy. cbn. unfold content, single. cbn.
  unfold elem_bytes. cbn. by rewrite get_bytes_again.
Qed.

Lemma partial_insert up i j u :
  partial (<[i := u]> up) j = if decide (j = i) then if uq_exist u then uq_mess u else [] else partial up j.
Proof.
  unfold partial. destruct (decide (j = i)) as [->|Hj]; [by rewrite lookup_insert_eq|by rewrite lookup_insert_ne].
Qed.

(** One packet. *)
Lemma deliver_one_group up parts p i x xs :
  up_ok up parts -> received p i (x :: xs) -> Forall (fun y => pc_index y = -1) xs ->
  Z.abs (pc_index x) = Z.of_nat (length (parts i)) + 1 -> Z.abs (pc_index x) <= MAX_SCATTER_ELEMENTS ->
  (xs = [] \/ pc_index x < 0) ->
  exists up' ms, deliver_one up p = inr (up', ms) /\ content <$> ms = (assemble (parts i) (x :: xs)).1 /\
    up_ok up' (fun j => if decide (j = i) then (assemble (parts i) (x :: xs)).2 else parts j).
Proof.
  intros [Hup Hring] (Hpi & Hi & s & (x' & xs' & [= <- <-] & He & Hs & Hty & Hidx & Hfl & Hb & Hf & Hc)) Hall Hn Hmax Hlast.
  assert (Hq : exists q, up_index p = q /\ content (partial up q) = parts i /\
    (q = i \/ (q = MAX_PROCS_RING /\ pc_index x < 0 /\ parts i = []))).
  { unfold up_index. rewrite Hidx, Hpi. destruct (truth _); [destruct (Z.eqb_spec (pc_index x) (-1)) as [Hx|]|].
    1: assert (Hnil : parts i = []) by (apply length_zero_iff_nil; lia).
    1: exists MAX_PROCS_RING; split; [done|]; split; [by rewrite Hring|right; split_and!; [done|lia|done]].
    all: exists i; split; [done|]; split; [by apply Hup|by left]. }
  destruct Hq as (q & Hui & Hpart & Hq). unfold deliver_one. cbv zeta. rewrite Hf. cbn [rbind].
  rewrite Hidx, Hfl, Hui. fold (partial up q).
  rewrite <- content_partial_length, Hpart, <- Hn, Z.eqb_refl, (proj2 (Z.ltb_ge _ _) Hmax). cbn [negb].
  set (e := mkElem (pi_body p) (se_len (pc_elem x))).
  assert (He' : content (partial up q ++ [e]) = parts i ++ [elem_bytes (pc_elem x)]).
  { unfold content in *. rewrite fmap_app, Hpart. cbn. unfold elem_bytes at 1, e. cbn. by rewrite Hb. }
  do 2 eexists. split; [reflexivity|]. cbn [assemble]. rewrite (assemble_singles xs Hall).
  destruct (Z.ltb_spec (pc_index x) 0) as [Hneg|Hpos].
  - split; [cbn; by rewrite content_singles, He'|]. split.
    + intros j Hj. rewrite partial_insert. cbn [uq_exist negb snd]. destruct (decide (j = i)) as [->|Hji].
      * destruct Hq as [-> |(-> & _ & Hnil)]; [by rewrite decide_True|].
        rewrite decide_False by lia. rewrite Hup by done. done.
      * destruct Hq as [-> |(-> & _)]; rewrite decide_False by lia; by apply Hup.
    + rewrite partial_insert. by destruct (decide _).
  - destruct Hlast as [->|?]; [|lia]. split; [done|]. destruct Hq as [-> |(_ & ? & _)]; [|lia]. split.
    + intros j Hj. rewrite partial_insert. cbn [uq_exist uq_mess negb]. destruct (decide (j = i)); [done|by apply Hup].
    + rewrite partial_insert, decide_False by lia. done.
Qed.

Lemma stream_of_cons i j g igs :
  stream_of i ((j, g) :: igs) = (if decide (j = i) then g else []) ++ stream_of i igs.
Proof. unfold stream_of. rewrite filter_cons. cbn [fst]. by destruct (decide (j = i)). Qed.

(** Any interleaving of the senders' packets. *)
Lemma deliver_all_groups ps igs : forall up parts rest,
  up_ok up parts -> Forall2 (fun p ig => received p ig.1 ig.2) ps igs ->
  (forall i, numbered (Z.of_nat (length (parts i))) (stream_of i igs ++ rest i)) ->
  exists up' ms, deliver_all up ps = inr (up', ms) /\
    content <$> ms = snd <$> assemble_from parts igs /\ up_ok up' (left_from parts igs).
Proof.
  revert igs. induction ps as [|p ps IH]; intros igs up parts rest Hup Hps Hnum; inversion Hps as [|? [i g] ? igs' Hp Hps']; subst.
  { by exists up, []. }
  cbn [fst snd] in Hp. pose proof Hp as (_ & _ & s & x & xs & -> & _ & _ & _ & _ & _ & _ & _ & Hc).
  pose proof (Hnum i) as Hi. rewrite stream_of_cons, decide_True in Hi by done. cbn [app] in Hi. rewrite <- app_assoc in Hi.
  assert (Hroom : Forall (fun y => se_len (pc_elem x) + sizeof_fragment_header + se_len (pc_elem y) <= sizeof_packet_body) xs)
    by (eapply Forall_impl; [exact Hc|]; intros y Hy; apply Hy).
  pose proof Hi as (_ & Hmax & _). destruct (numbered_group _ _ _ _ Hi Hroom) as [Hall Hrest].
  destruct (deliver_one_group up parts p i x xs) as (up1 & ms1 & Hd & Hms1 & Hup1); try done.
  1,2: destruct Hrest as [(-> & _)|(-> & _)]; lia.
  { destruct Hrest as [(_ & -> & _)|(-> & _)]; [by left|right; lia]. }
  set (parts1 := fun j => if decide (j = i) then (assemble (parts i) (x :: xs)).2 else parts j) in *.
  destruct (IH igs' up1 parts1 rest Hup1 Hps') as (up2 & ms2 & Hd2 & Hms2 & Hup2).
  { intros j. specialize (Hnum j). rewrite stream_of_cons in Hnum. unfold parts1.
    destruct (decide (j = i)) as [->|Hji]; [|by rewrite decide_False in Hnum by done].
    cbn [assemble]. rewrite (assemble_singles xs Hall).
    destruct Hrest as [(Hx & -> & Hn)|(Hx & Hn)]; rewrite Hx.
    - rewrite (proj2 (Z.ltb_ge _ 0)) by lia. cbn [assemble snd]. rewrite length_app.
      replace (Z.of_nat _) with (Z.of_nat (length (parts i)) + 1) by (cbn; lia). exact Hn.
    - rewrite (proj2 (Z.ltb_lt _ 0)) by lia. exact Hn. }
  cbn [deliver_all]. rewrite Hd. cbn [rbind]. rewrite Hd2. cbn [rbind]. do 2 eexists. split; [reflexivity|].
  cbn [assemble_from left_from]. unfold parts1 in *. destruct (assemble (parts i) (x :: xs)) as [m1 r1]. cbn [fst snd] in *.
  split; [|done]. rewrite !fmap_app, Hms1, Hms2. f_equal. rewrite <- list_fmap_compose. symmetry. apply list_fmap_id.
Qed.

(** Each sender's messages are those of its own stream. *)
Lemma assemble_from_sender i igs : forall parts,
  snd <$> filter (fun x => x.1 = i) (assemble_from parts igs) = (assemble (parts i) (stream_of i igs)).1.
Proof.
  induction igs as [|[j g] igs IH]; intros parts; [done|]. rewrite stream_of_cons. cbn [assemble_from].
  destruct (decide (j = i)) as [->|Hj].
  - rewrite assemble_app. destruct (assemble (parts i) g) as [ms r] eqn:Hg.
    rewrite filter_app, fmap_app, IH, decide_True by done.
    destruct (assemble r (stream_of i igs)) as [ms' r']. cbn [fst]. f_equal. clear.
    induction ms as [|m ms IHm]; [done|]. rewrite fmap_cons, filter_cons_True, fmap_cons by done. by f_equal.
  - cbn [app]. destruct (assemble (parts j) g) as [ms r]. rewrite filter_app, fmap_app, IH, decide_False by done.
    assert (Hnil : filter (fun x : Z * list (list Z) => x.1 = i) (pair j <$> ms) = []); [|by rewrite Hnil].
    clear -Hj. induction ms as [|m ms IHm]; [done|]. by rewrite fmap_cons, filter_cons_False.
Qed.

Lemma left_from_sender i igs : forall parts,
  left_from parts igs i = (assemble (parts i) (stream_of i igs)).2.
Proof.
  induction igs as [|[j g] igs IH]; intros parts; [done|]. rewrite stream_of_cons. cbn [left_from]. rewrite IH.
  destruct (decide (j = i)) as [->|Hj]; [|by rewrite decide_False].
  rewrite decide_True, assemble_app by done. destruct (assemble (parts i) g) as [m1 r1]. cbn.
  by destruct (assemble r1 _).
Qed.

(** A single sender. *)
Lemma stream_of_one i j gs : stream_of j (pair i <$> gs) = if decide (j = i) then concat gs else [].
Proof.
  induction gs as [|g gs IH]; [by case_decide|]. rewrite fmap_cons, stream_of_cons, IH.
  destruct (decide (i = j)) as [->|Hij]; [by rewrite !decide_True by done|by rewrite !decide_False by congruence].
Qed.

Lemma assemble_from_all i igs : forall parts,
  Forall (fun ig => ig.1 = i) igs ->
  filter (fun x => x.1 = i) (assemble_from parts igs) = assemble_from parts igs.
Proof.
  induction igs as [|[j g] igs IH]; intros parts Hall; [done|]. apply Forall_cons in Hall as [Hj Hall'].
  cbn in Hj. subst. cbn [assemble_from]. destruct (assemble (parts i) g) as [ms r].
  rewrite filter_app, IH by done. f_equal. clear. induction ms as [|m ms IHm]; [done|].
  rewrite fmap_cons, filter_cons_True by done. by f_equal.
Qed.

Lemma numbered_rest part xs ys : 
  numbered (Z.of_nat (length part)) (xs ++ ys) -> numbered (Z.of_nat (length (assemble part xs).2)) ys.
Proof.
  revert part. induction xs as [|x xs IH]; intros part; [done|]. cbn [app numbered assemble].
  intros (_ & _ & [(Hi & _ & Hn)|(Hi & Hn)]); rewrite Hi.
  - rewrite (proj2 (Z.ltb_ge _ 0)) by lia. apply IH. rewrite length_app. cbn.
    replace (Z.of_nat (length part + 1)) with (Z.of_nat (length part) + 1) by lia. done.
  - rewrite (proj2 (Z.ltb_lt _ 0)) by lia. apply (IH []) in Hn. by destruct (assemble [] xs).
Qed.
End receiver.

(** C34: reassembly under interleaving.  A receiver goes through the packets
    of all senders in the order of their sequence numbers, in which the
    senders alternate in any way and messages span packets.  It never meets a
    sequence error; the messages it hands up are, for each sender, exactly
    those that the sender's own packets carry, in the order the sender sent
    them; what is unfinished waits in the sender's own up queue. *)
Theorem senders_interleaved (ps : list packet_info) (igs : list (Z * list piece))
    (up : gmap Z up_queue) (parts : Z -> list (list Z)) (later : Z -> list piece) :
  up_ok up parts -> Forall2 (fun p ig => received p ig.1 ig.2) ps igs ->
  (forall i, numbered (Z.of_nat (length (parts i))) (stream_of i igs ++ later i)) ->
  exists up' ms tagged, deliver_all up ps = inr (up', ms) /\ content <$> ms = snd <$> tagged /\
    (forall i, snd <$> filter (fun x => x.1 = i) tagged = (assemble (parts i) (stream_of i igs)).1) /\
    up_ok up' (fun i => (assemble (parts i) (stream_of i igs)).2).
Proof.
  intros Hup Hps Hnum. destruct (deliver_all_groups ps igs up parts later Hup Hps Hnum) as (up' & ms & Hd & Hms & Hup').
  exists up', ms, (assemble_from parts igs). split_and!; [done|done|intros i; apply assemble_from_sender|].
  destruct Hup' as [Hq Hr]. split; [|done]. intros i Hi. rewrite Hq by done. apply left_from_sender.
Qed.

(* --------------------------------------------------------------------- *)
(** ** Sender and receiver *)

(** The messages that sender [i] still owes to a receiver with the up queues
    [up]: those its down queue completes. *)
Definition owed (up : gmap Z up_queue) (i : Z) (q : down_queue) : list (list (list Z)) :=
  (assemble (content (partial up i)) (pending q)).1.

(** The receiver has seen everything the sender has sent: what it is
    assembling is continued by what the sender has pending. *)
Definition in_step (up : gmap Z up_queue) (i : Z) (q : down_queue) : Prop :=
  0 <= i < MAX_PROCS_RING /\ partial up MAX_PROCS_RING = [] /\
  numbered (Z.of_nat (length (partial up i))) (pending q).

(** The packets [ps] are those of the window of [w] numbered from [n] on, as
    the process of index [i] sent them. *)
Definition arrived (w : world) (n : Z) (i : Z) (ps : list packet_info) : Prop :=
  forall (j : nat) p, ps !! j = Some p ->
    pi_proc_index p = i /\ packet_same (pkt w (slot (n + Z.of_nat j))) p.

(** A queue from its first message on. *)
Lemma owed_fresh up i q :
  0 <= i < MAX_PROCS_RING -> partial up MAX_PROCS_RING = [] -> partial up i = [] ->
  down_queue_ok q -> dq_cur_element q = 0 -> Forall (fun l => chunked (dl_mess l)) (dq_links q) ->
  in_step up i q /\ owed up i q = (fun l => content (dl_mess l)) <$> dq_links q.
Proof.
  intros Hi Hr Hp (_ & Hl & _) Hc Hch.
  assert (Hpend : pending q = dq_links q ≫= pieces) by (unfold pending; rewrite Hc; by destruct (dq_links q)).
  unfold in_step, owed. rewrite Hp, Hpend. split; [split; [done|]; split; [done|]|].
  - apply numbered_links. by apply Forall_and.
  - cbn [content fmap list_fmap]. by rewrite assemble_links.
Qed.

Lemma sent_arrives w w' n i up ps :
  in_step up i (down w) -> sending_at w n w' -> length ps = Z.to_nat n ->
  arrived w' (Highest_seq (win w) + 1) i ps ->
  exists up' ms, deliver_all up ps = inr (up', ms) /\
    owed up i (down w) = (content <$> ms) ++ owed up' i (down w') /\ in_step up' i (down w').
Proof.
  intros (Hi & Hring & Hnum) (gs & Hlen & Hpend & _ & _ & _ & _ & Hg & _) Hps Har.
  set (igs := pair i <$> gs). set (parts := fun j => content (partial up j)).
  assert (Hst : forall j, stream_of j igs = if decide (j = i) then concat gs else []) by (intros j; apply stream_of_one).
  destruct (deliver_all_groups ps igs up parts (fun j => if decide (j = i) then pending (down w') else []))
    as (up' & ms & Hd & Hms & Hup').
  { done. }
  { apply Forall2_same_length_lookup. unfold igs. rewrite length_fmap. split; [lia|].
    intros j p [i' g] Hp Hj. rewrite list_lookup_fmap in Hj. destruct (gs !! j) as [g'|] eqn:Hgj; [|done].
    injection Hj as <- <-. destruct (Har j p Hp) as [Hpi Hsame]. split; [done|]. split; [done|].
    eexists. eapply carries_same; [exact Hsame|by apply Hg]. }
  { intros j. rewrite Hst. unfold parts. rewrite content_partial_length. case_decide; [|done]. subst. by rewrite <- Hpend. }
  exists up', ms. split; [done|]. destruct Hup' as [Hq Hr].
  pose proof (Hq i Hi) as Hqi. rewrite left_from_sender, Hst, decide_True in Hqi by done.
  assert (Hmine : content <$> ms = (assemble (parts i) (concat gs)).1).
  { rewrite Hms. rewrite <- (decide_True (P:=i = i) (concat gs) []), <- Hst, <- assemble_from_sender by done.
    f_equal. symmetry. apply assemble_from_all. unfold igs. by apply Forall_fmap, Forall_true. }
  unfold owed, in_step. rewrite Hqi, Hmine, Hpend, assemble_app.
  change (parts i) with (content (partial up i)) in *.
  destruct (assemble (content (partial up i)) (concat gs)) as [m1 r1] eqn:Ha. cbn [snd] in Hqi.
  split; [cbn; by destruct (assemble r1 _)|]. split; [done|]. split; [done|].
  rewrite <- content_partial_length, Hqi. rewrite Hpend, <- content_partial_length in Hnum.
  apply numbered_rest in Hnum. by rewrite Ha in Hnum.
Qed.

(** C5: what is queued arrives.  A daemon on its visit of the token sends [n]
    packets from its down queue.  Any receiver that is in step with it, once
    it has those packets as they are in the sender's window, goes through
    them without an error; the messages it hands up are exactly the next ones
    the sender owed it, byte for byte and in order; and afterwards the two are
    in step again, so that the visits compose.  From an idle sender, what is
    owed is every message queued. *)
Theorem queued_messages_arrive `{SessionQueue} (w : world) (num_allowed : Z) :
  down_ok w -> send_queue_ok w ->
  Last_discarded (win w) <= Highest_seq (win w) -> 0 <= num_allowed ->
  Highest_seq (win w) + num_allowed <= Last_discarded (win w) + MAX_PACKETS_IN_STRUCT ->
  (forall s, Highest_seq (win w) < s <= Last_discarded (win w) + MAX_PACKETS_IN_STRUCT -> missing w s = true) ->
  wp (Send_new_packets num_allowed) (fun n w' => 0 <= n <= num_allowed /\
    forall i up ps, in_step up i (down w) -> length ps = Z.to_nat n ->
      arrived w' (Highest_seq (win w) + 1) i ps ->
      exists up' ms, deliver_all up ps = inr (up', ms) /\
        owed up i (down w) = (content <$> ms) ++ owed up' i (down w') /\ in_step up' i (down w') /\
        (n < num_allowed -> owed up' i (down w') = [])) send_alarm w.
Proof.
  intros Hd Hq Hl Hn Hmax Hfree. eapply wp_mono; [by apply Send_new_packets_sends| |done].
  intros n w' (Hn' & Hsent & Hnone & _). split; [done|]. intros i up ps Hin Hps Har.
  destruct (sent_arrives w w' n i up ps Hin Hsent Hps Har) as (up' & ms & Hd' & Ho & Hin').
  exists up', ms. split_and!; [done|done|apply Hin'..|]. intros Hlt. unfold owed. by rewrite (Hnone Hlt).
Qed.

(** A message of two elements from the process 0, with one of one element
    from the process 1 between them. *)
Definition sample_chunk : list Z := resize 1432 7 [].
Definition sample_piece (idx : Z) (b : list Z) : piece :=
  mkPiece AGREED_TYPE idx (mkElem b (Z.of_nat (length b))).
Definition sample_from (i : Z) (idx : Z) (b : list Z) : packet_info := set_pi_proc_index i (sample_packet AGREED_TYPE idx b).

Lemma sample_from_received i idx b :
  0 <= i < MAX_PROCS_RING -> received (sample_from i idx b) i [sample_piece idx b].
Proof.
  intros Hi. split; [done|]. split; [done|]. exists 0, (sample_piece idx b), [].
  split_and!; try done. cbn [sample_from sample_packet pi_head pi_body set_pi_proc_index ph_data_len ph_fragment_len].
  destruct (Z.to_nat _); cbn [split_fragments]; by rewrite Z.ltb_irrefl.
Qed.

Lemma senders_interleaved_witness :
  exists up' ms, deliver_all ∅ [sample_from 0 1 sample_chunk; sample_from 1 (-1) [5]; sample_from 0 (-2) [9]] = inr (up', ms) /\
    content <$> ms = [[[5]]; [sample_chunk; [9]]].
Proof.
  destruct (senders_interleaved
    [sample_from 0 1 sample_chunk; sample_from 1 (-1) [5]; sample_from 0 (-2) [9]]
    [(0, [sample_piece 1 sample_chunk]); (1, [sample_piece (-1) [5]]); (0, [sample_piece (-2) [9]])]
    ∅ (fun _ => []) (fun _ => [])) as (up' & ms & tagged & Hd & _).
  - by split; [intros i Hi|].
  - repeat (apply Forall2_cons_2; [by apply sample_from_received|]). apply Forall2_nil_2.
  - assert (Hc : se_len (pc_elem (sample_piece 1 sample_chunk)) = sizeof_packet_body) by (vm_compute; reflexivity).
    intros i. rewrite app_nil_r, !stream_of_cons. unfold stream_of at 1. cbn [filter list_filter fmap list_fmap concat].
    destruct (decide (0 = i)), (decide (1 = i)); try lia; cbn -[sample_chunk Z.of_nat sizeof_packet_body].
    + split; [lia|]. split; [done|]. left. split; [done|]. split; [exact Hc|]. split; [lia|]. split; [done|]. by right.
    + split; [lia|]. split; [done|]. by right.
    + done.
  - exists up', ms. split; [exact Hd|]. revert Hd. vm_compute. by intros [= _ <-].
Defined.

Lemma queued_messages_arrive_witness :
  wp (Send_new_packets 5) (fun n w' => forall ps, n < 5 -> length ps = Z.to_nat n -> arrived w' 1 3 ps ->
      exists up' ms, deliver_all ∅ ps = inr (up', ms) /\ content <$> ms = [[[1; 2; 3]]; [[4; 5; 6; 7; 8]]])
    send_alarm sample_linked /\
  (let w' := run_to (Send_new_packets 5) sample_linked in Highest_seq (win w') = 1 /\ arrived w' 1 3 [set_pi_proc_index 3 (pkt w' 1)]).
Proof.
  assert (Hq : send_queue_ok sample_linked) by by split.
  split.
  2:{ cbv zeta. split; [vm_compute; reflexivity|]. generalize (run_to (Send_new_packets 5) sample_linked).
      intros w' [|j] p Hp; [injection Hp as <-|done]. split; [done|by split]. }
  pose proof (queued_messages_arrive sample_linked 5 sample_linked_down Hq) as Ht.
  assert (Hin : in_step ∅ 3 (down sample_linked)).
  { split; [done|]. split; [done|]. vm_compute. split_and!; try done. right. split; [done|]. split_and!; try done. by right. }
  assert (Hl : Last_discarded (win sample_linked) = 0) by done.
  assert (Hh : Highest_seq (win sample_linked) = 0) by done. rewrite Hl, Hh in Ht.
  specialize (Ht ltac:(lia) ltac:(lia) ltac:(unfold MAX_PACKETS_IN_STRUCT; lia)).
  assert (Hfree : forall s, 0 < s <= 0 + MAX_PACKETS_IN_STRUCT -> missing sample_linked s = true) by done.
  eapply wp_mono; [exact (Ht Hfree)| |intros e He; exact He].
  intros n w' [Hn Hr] ps Hlt Hps Har. destruct (Hr 3 ∅ ps Hin Hps Har) as (up' & ms & Hd & Ho & _ & Hnone).
  exists up', ms. split; [exact Hd|]. rewrite (Hnone Hlt), app_nil_r in Ho. by rewrite <- Ho.
Defined.
