(* ===== verification/Message.v ===== *)
(** * Message buffers ([daemon/message.c])

    A message of the session layer is a scatter of packet bodies; its first
    element starts with the [message_header] that the client library wrote.
    A [message_obj] is the list of its [num_elements] elements: the buffers
    past them hold no data of the message.  Allocation is by value, so
    [Message_dispose_message] and the reference counts have no effect. *)

From Stdlib Require Import ZArith Lia.
From stdpp Require Import base strings numbers option gmap list.
From S2P Require Import Prelude Wire Bytes Config Events State Network FlowControl MembSets MembCore ProtSend Retrans Requests Packing Deliver Delivery Sending EndToEnd.

(* --------------------------------------------------------------------- *)
(** ** Sizes and type bits ([daemon/spread_params.h], [daemon/sess_types.h]) *)

Definition MAX_PROC_NAME : Z := 20.
Definition MAX_PRIVATE_NAME : Z := 10.
Definition MAX_GROUP_NAME : Z := 1 + MAX_PRIVATE_NAME + 1 + MAX_PROC_NAME.
Definition MAX_GROUPS_PER_MESSAGE : Z := 100.
Definition MAX_MESSAGE_BODY_LEN : Z := MAX_SCATTER_ELEMENTS * (MAX_PACKET_SIZE - 32).
Definition sizeof_message_header : Z := 4 + MAX_GROUP_NAME + 4 + 4 + 4.
Definition sizeof_Temp_buf : Z := 100000.

Definition UNRELIABLE_MESS : Z := 0x1.
Definition RELIABLE_MESS : Z := 0x2.
Definition FIFO_MESS : Z := 0x4.
Definition CAUSAL_MESS : Z := 0x8.
Definition AGREED_MESS : Z := 0x10.
Definition SAFE_MESS : Z := 0x20.
Definition REGULAR_MESS : Z := 0x3f.
Definition NOT_REGULAR_MESS : Z := 0x00ffff00.
Definition SELF_DISCARD : Z := 0x40.
Definition CAUSED_BY_JOIN : Z := 0x100.
Definition CAUSED_BY_LEAVE : Z := 0x200.
Definition JOIN_MESS : Z := 0x10000.
Definition LEAVE_MESS : Z := 0x20000.
Definition KILL_MESS : Z := 0x40000.
Definition GROUPS_MESS : Z := 0x80000.
Definition REJECT_MESS : Z := 0x400000.

(** [Is_..._mess( type )]: the bits of [k]. *)
Definition is_mess (k t : Z) : bool := truth (Z.land t k).
Definition Is_only_regular_mess (t : Z) : bool := is_mess REGULAR_MESS t && negb (is_mess NOT_REGULAR_MESS t).

(* --------------------------------------------------------------------- *)
(** ** The header *)

Record message_header : Type := mkMessageHeader {
  mh_type : Z;  (* int32u *)
  mh_private_group_name : list Z;  (* MAX_GROUP_NAME chars *)
  mh_num_groups : Z;  (* int32 *)
  mh_hint : Z;  (* int32 *)
  mh_data_len : Z;  (* int32 *)
}.

(** The header as the first bytes of a buffer. *)
Definition get_header (b : buf) : message_header :=
  mkMessageHeader (get_u32 b 0) (get_bytes b 4 MAX_GROUP_NAME) (get_s32 b 36) (get_s32 b 40) (get_s32 b 44).
Definition enc_header (h : message_header) : list Z :=
  enc32 (mh_type h) ++ mh_private_group_name h ++ enc32 (mh_num_groups h) ++ enc32 (mh_hint h) ++ enc32 (mh_data_len h).
Definition put_header (h : message_header) (b : buf) : buf := put_bytes b 0 (enc_header h).

Definition set_mh_type (x : Z) (h : message_header) : message_header :=
  mkMessageHeader (u32 x) (mh_private_group_name h) (mh_num_groups h) (mh_hint h) (mh_data_len h).

Definition Flip_mess (h : message_header) : message_header :=
  mkMessageHeader (u32 (Flip_int32 (mh_type h))) (mh_private_group_name h) (s32 (Flip_int32 (mh_num_groups h)))
    (mh_hint h) (s32 (Flip_int32 (mh_data_len h))).

(* --------------------------------------------------------------------- *)
(** ** Operations *)

Definition message_obj : Type := scatter.

(** A fresh packet body of [n] bytes to be filled: what was not written yet
    reads as nothing. *)
Definition fresh_elem (n : Z) : scat_elem := mkElem [] n.

Definition Message_get_message_header (msg : message_obj) : message_header := get_header (se_buf (element msg 0)).
(** Writing through [head_ptr]. *)
Definition with_message_header (f : message_header -> message_header) (msg : message_obj) : message_obj :=
  let e := element msg 0 in
  aset msg 0 (mkElem (put_header (f (get_header (se_buf e))) (se_buf e)) (se_len e)).

Definition Message_populate_with_buffers : message_obj :=
  replicate (Z.to_nat MAX_SCATTER_ELEMENTS) (fresh_elem sizeof_packet_body).

(** The service a message is sent with. *)
Definition Message_get_packet_type (mess_type : Z) : Z :=
  if is_mess UNRELIABLE_MESS mess_type then RELIABLE_TYPE
  else if is_mess RELIABLE_MESS mess_type then RELIABLE_TYPE
  else if is_mess FIFO_MESS mess_type then FIFO_TYPE
  else if is_mess CAUSAL_MESS mess_type || is_mess AGREED_MESS mess_type then AGREED_TYPE
  else if is_mess SAFE_MESS mess_type then SAFE_TYPE
  else if is_mess JOIN_MESS mess_type then AGREED_TYPE
  else if is_mess LEAVE_MESS mess_type then AGREED_TYPE
  else if is_mess KILL_MESS mess_type then AGREED_TYPE
  else -1.

(** Pointers into a message: the element and the offset in its buffer. *)
Definition Message_get_first_data_ptr (msg : message_obj) : Z * Z :=
  if is_mess REJECT_MESS (mh_type (Message_get_message_header msg)) then (1, 0) else (0, sizeof_message_header).
Definition Message_get_first_data_len (msg : message_obj) : Z :=
  if is_mess REJECT_MESS (mh_type (Message_get_message_header msg)) then 0
  else s32 (se_len (element msg 0) - sizeof_message_header).
Definition Message_get_first_group (msg : message_obj) : Z * Z :=
  if is_mess REJECT_MESS (mh_type (Message_get_message_header msg)) then (1, 4) else (0, sizeof_message_header).
(** The bytes from a pointer on. *)
Definition bytes_from (msg : message_obj) (p : Z * Z) : buf := drop (Z.to_nat p.2) (se_buf (element msg p.1)).

(** The copy of the first [need] bytes of the elements [l]
    ([Message_get_groups_array], the loop into [Temp_buf]). *)
Fixpoint gather (l : scatter) (need : Z) : list Z :=
  match l with
  | [] => []
  | e :: l =>
      if 0 <? need then
        let copy_bytes := if need <? s32 (se_len e) then need else s32 (se_len e) in
        get_bytes (se_buf e) 0 copy_bytes ++ gather l (need - copy_bytes)
      else []
  end.

(** The bytes at the pointer that is returned: [Temp_buf] when the names do
    not fit in the first element. *)
Definition Message_get_groups_array (msg : message_obj) : res buf :=
  let h := Message_get_message_header msg in
  let '(groups_start_location, first_scat_index) :=
    if is_mess REJECT_MESS (mh_type h) then (4, 1) else (sizeof_message_header, 0) in
  let groups_bytes := s32 (groups_start_location + s32 (mh_num_groups h * MAX_GROUP_NAME)) in
  let e := element msg first_scat_index in
  if s32 (se_len e) <? groups_bytes then
    let copied := gather (drop (Z.to_nat first_scat_index) msg) groups_bytes in
    if sizeof_Temp_buf <? Z.of_nat (length copied) then inl (Undefined "Message_get_groups_array: Temp_buf")
    else if negb (Z.of_nat (length copied) =? groups_bytes) then inl (Fatal "Message_get_groups_array: assert")
    else inr copied
  else inr (bytes_from msg (first_scat_index, groups_start_location)).

(** The names [groups[0..num)] of an array of group names. *)
Fixpoint group_names (b : buf) (n : nat) : list (list Z) :=
  match n with
  | O => []
  | S n => get_bytes b 0 MAX_GROUP_NAME :: group_names (drop (Z.to_nat MAX_GROUP_NAME) b) n
  end.

(** Move the data of a message that is rejected to a new second element, with
    the old type in front and the sender among the groups. *)
Definition Message_add_oldtype_to_reject (old_type : Z) (msg : message_obj) : res message_obj :=
  let h := Message_get_message_header msg in
  let e0 := element msg 0 in
  let groups := mh_num_groups h * MAX_GROUP_NAME in
  let old_byte_location := sizeof_message_header + groups in
  if MAX_SCATTER_ELEMENTS <=? Z.of_nat (length msg) then inl (Undefined "Message_add_oldtype_to_reject: elements[i]")
  else if groups <? 0 then inl (Undefined "Message_add_oldtype_to_reject: memcpy of a negative length")
  else if se_len e0 <? old_byte_location
       then inl (Undefined "Message_add_oldtype_to_reject: memcpy of a negative length")
  else
    let full := MAX_GROUPS_PER_MESSAGE <=? mh_num_groups h in
    let sender_location := 4 + (if full then (mh_num_groups h - 1) * MAX_GROUP_NAME else groups) in
    let rest := get_bytes (se_buf e0) old_byte_location (se_len e0 - old_byte_location) in
    let b := put_bytes (enc32 old_type ++ get_bytes (se_buf e0) sizeof_message_header groups) sender_location
               (mh_private_group_name h ++ rest) in
    let new_byte_location := sender_location + MAX_GROUP_NAME + Z.of_nat (length rest) in
    if sizeof_packet_body <? new_byte_location then inl (Undefined "Message_add_oldtype_to_reject: elements[1].buf")
    else
      let h' := mkMessageHeader (mh_type h) (mh_private_group_name h)
                  (if full then mh_num_groups h else mh_num_groups h + 1) (mh_hint h) (mh_data_len h) in
      inr (mkElem (put_header h' (se_buf e0)) sizeof_message_header :: mkElem b new_byte_location :: tail msg).

(** The first [len] bytes as a message of their own; their buffers are
    replaced in [msg]. *)
Fixpoint Message_dup_and_reset_old_message (msg : message_obj) (len : Z) : res (message_obj * message_obj) :=
  if 0 <? len then
    match msg with
    | [] => inl (Undefined "Message_dup_and_reset_old_message: elements[i].buf")
    | e :: msg =>
        let? '(dup, msg) := Message_dup_and_reset_old_message msg (len - sizeof_packet_body) in
        inr (mkElem (se_buf e) (if sizeof_packet_body <? len then sizeof_packet_body else len) :: dup,
             fresh_elem sizeof_packet_body :: msg)
    end
  else inr ([], msg).

Definition Message_copy_message (msg : message_obj) : message_obj :=
  (fun e => mkElem (get_bytes (se_buf e) 0 (se_len e)) (se_len e)) <$> msg.

(** The elements after the first: [n] of them, from [buf[copied_bytes]] on. *)
Fixpoint fragments_after (n : nat) (b : buf) (copied_bytes num_bytes : Z) : scatter :=
  match n with
  | O => []
  | S n =>
      let left := num_bytes - copied_bytes in
      let bytes_to_copy := if sizeof_packet_body <? left then sizeof_packet_body else left in
      mkElem (get_bytes b copied_bytes bytes_to_copy) bytes_to_copy
        :: fragments_after n b (copied_bytes + bytes_to_copy) num_bytes
  end.

(** The sizes are compared as [size_t]: [num_bytes] is not negative. *)
Definition Message_Buffer_to_Message_Fragments (msg : message_obj) (b : buf) (num_bytes : Z) : res message_obj :=
  let head_size := sizeof_message_header in
  let num_elements := u64 (num_bytes + head_size - 1) / sizeof_packet_body + 1 in
  if MAX_SCATTER_ELEMENTS <? num_elements then inl (Fatal "Message_Buffer_to_Message_Fragments")
  else
    let bytes_to_copy :=
      if sizeof_packet_body - head_size <? num_bytes then sizeof_packet_body - head_size else num_bytes in
    let e := element msg 0 in
    inr (mkElem (put_bytes (se_buf e) head_size (get_bytes b 0 bytes_to_copy)) (se_len e + bytes_to_copy)
           :: fragments_after (Z.to_nat (num_elements - 1)) b bytes_to_copy num_bytes).

Definition set_len (n : Z) (e : scat_elem) : scat_elem := mkElem (se_buf e) n.
Definition elem_at_len (i n : Z) (msg : message_obj) : message_obj := aset msg i (set_len n (element msg i)).

(** The lengths of a message that was read from a client. *)
Definition Message_element_len_fixup (msg : message_obj) : res message_obj :=
  let h := Message_get_message_header msg in
  let total_size := s32 (mh_data_len h + MAX_GROUP_NAME * mh_num_groups h + sizeof_message_header) in
  let sum_size := sizeof_packet_body * (Z.of_nat (length msg) - 1) in
  let last := u64 total_size / sizeof_packet_body in
  if u64 total_size <? sizeof_packet_body then inr (elem_at_len last total_size msg)
  else if MAX_SCATTER_ELEMENTS <=? last then inl (Undefined "Message_element_len_fixup: elements[last]")
  else inr (elem_at_len last (u64 (total_size - sum_size)) (elem_at_len 0 sizeof_packet_body msg)).

Definition Message_kill_mess_fixup (msg : message_obj) (orig_len mbox : Z) : Z := orig_len.

(** Where the reading or writing of a message is. *)
Record partial_message_info : Type := mkPartial {
  cur_element : Z; cur_byte : Z; total_bytes : Z; in_mess_head : Z }.
Definition Message_reset_current_location : partial_message_info := mkPartial 0 0 0 0.
Definition Message_set_location_begin_body (p : partial_message_info) : partial_message_info :=
  mkPartial (cur_element p) (cur_byte p) (total_bytes p) 0.

Definition Message_add_scat_element (msg : message_obj) : res message_obj :=
  if Z.of_nat (length msg) <? MAX_SCATTER_ELEMENTS then inr (msg ++ [fresh_elem sizeof_packet_body])
  else inl (Fatal "Message_add_scat_element: assert").
Definition Message_remove_scat_element (msg : message_obj) : res message_obj :=
  if 0 <? Z.of_nat (length msg) then inr (take (length msg - 1) msg)
  else inl (Fatal "Message_remove_scat_element: assert").

(** The element and the byte after the first [len] bytes. *)
Fixpoint location_from (msg : message_obj) (i len : Z) : Z * Z :=
  match msg with
  | [] => (i, len)
  | e :: msg => if len <? s32 (se_len e) then (i, len) else location_from msg (i + 1) (len - se_len e)
  end.
Definition Message_calculate_current_location (msg : message_obj) (len_sent : Z) (p : partial_message_info)
    : partial_message_info :=
  let '(i, len) := location_from msg 0 len_sent in mkPartial i len (total_bytes p) 0.

Definition Message_new_message : message_obj := [fresh_elem sizeof_message_header].

(** The characters of a C string: those before the first nul. *)
Fixpoint cstr (b : list Z) : list Z :=
  match b with
  | [] => []
  | c :: b => if c =? 0 then [] else c :: cstr b
  end.
(** [strncpy] of a string into a field of [n] characters. *)
Definition strncpy (b : list Z) (n : Z) : list Z := resize (Z.to_nat n) 0 (cstr b).

Definition Message_create_message (mess_type : Z) (sender_name : list Z) : message_obj :=
  with_message_header (fun _ =>
    mkMessageHeader (u32 (Set_endian mess_type)) (strncpy sender_name MAX_GROUP_NAME) 0 (Set_endian 0) 0)
    Message_new_message.

Definition Message_endian_correct_message_header (msg : message_obj) : message_obj :=
  if Same_endian (mh_type (Message_get_message_header msg)) then msg else with_message_header Flip_mess msg.

(* --------------------------------------------------------------------- *)
(** ** Headers and buffers *)

(** A header the C structure can hold. *)
Definition header_ok (h : message_header) : Prop :=
  0 <= mh_type h < 2 ^ 32 /\ Z.of_nat (length (mh_private_group_name h)) = MAX_GROUP_NAME /\
  (- 2 ^ 31 <= mh_num_groups h < 2 ^ 31) /\ (- 2 ^ 31 <= mh_hint h < 2 ^ 31) /\ (- 2 ^ 31 <= mh_data_len h < 2 ^ 31).

Section headers.
Implicit Types (h : message_header) (b : buf) (msg : message_obj).

Lemma enc_header_length h :
  Z.of_nat (length (mh_private_group_name h)) = MAX_GROUP_NAME ->
  Z.of_nat (length (enc_header h)) = sizeof_message_header.
Proof. intros Hn. unfold enc_header. rewrite !length_app, !Nat2Z.inj_add, Hn. done. Qed.

Lemma get_u32_enc32 z b o : (forall i, 0 <= i < 4 -> get_byte b (o + i) = get_byte (enc32 z) i) -> get_u32 b o = u32 z.
Proof.
  intros H. unfold get_u32.
  rewrite (get_u16_enc [] z), (get_u16_enc [] (z / 2 ^ 16)).
  - unfold u16, u32. rewrite <- (Z.rem_mul_r z (2 ^ 16) (2 ^ 16)) by lia. done.
  - intros i Hi. replace (o + 2 + i) with (o + (2 + i)) by lia. rewrite H by lia. unfold enc32.
    rewrite get_byte_app_r by (cbn; lia). f_equal. cbn. lia.
  - intros i Hi. rewrite H by lia. unfold enc32. by rewrite get_byte_app_l by (cbn; lia).
Qed.
Lemma get_s32_enc z b o : (forall i, 0 <= i < 4 -> get_byte b (o + i) = get_byte (enc32 z) i) -> get_s32 b o = s32 z.
Proof. intros H. unfold get_s32. rewrite (get_u32_enc32 z) by done. apply s32_u32. Qed.

(** A byte of a list between two others. *)
Lemma get_byte_mid (l1 l2 l3 : list Z) o i :
  Z.of_nat (length l1) = o -> 0 <= i < Z.of_nat (length l2) -> get_byte (l1 ++ l2 ++ l3) (o + i) = get_byte l2 i.
Proof.
  intros Ho Hi. rewrite get_byte_app_r, get_byte_app_l by lia. f_equal. lia.
Qed.

Lemma get_header_put h b : header_ok h -> get_header (put_header h b) = h.
Proof.
  intros (Ht & Hn & Hg & Hh & Hd). pose proof (enc_header_length h Hn) as Hl.
  assert (Hb : forall o i, 0 <= o + i < sizeof_message_header ->
    get_byte (put_header h b) (o + i) = get_byte (enc_header h) (o + i)).
  { intros o i Hi. unfold put_header. rewrite get_byte_put by lia.
    rewrite (proj2 (Z.leb_le _ _)), (proj2 (Z.ltb_lt _ _)) by lia. cbn [andb]. f_equal. lia. }
  assert (Hs : sizeof_message_header = 48) by done. assert (Hm : MAX_GROUP_NAME = 32) by done.
  destruct h as [t n g hi d]. cbn in Ht, Hn, Hg, Hh, Hd. unfold get_header. f_equal.
  - rewrite (get_u32_enc32 t), u32_id by lia || (intros i Hi; rewrite Hb by lia; unfold enc_header;
      rewrite get_byte_app_l by (cbn; lia); done). done.
  - rewrite <- (get_bytes_whole n) at 2. rewrite Hn. apply get_bytes_ext; [done..|]. intros i Hi.
    rewrite Hb by lia. apply get_byte_mid; [done|lia].
  - rewrite (get_s32_enc g), s32_id by lia || (intros i Hi; rewrite Hb by lia; unfold enc_header;
      rewrite (app_assoc (enc32 _)); apply get_byte_mid; [rewrite length_app; cbn in *; lia|cbn; lia]). done.
  - rewrite (get_s32_enc hi), s32_id by lia || (intros i Hi; rewrite Hb by lia; unfold enc_header;
      rewrite (app_assoc (enc32 _)), (app_assoc (_ ++ _));
      apply get_byte_mid; [rewrite !length_app; cbn in *; lia|cbn; lia]). done.
  - rewrite (get_s32_enc d), s32_id by lia || (intros i Hi; rewrite Hb by lia; unfold enc_header;
      rewrite (app_assoc (enc32 _)), (app_assoc (_ ++ _)), (app_assoc (_ ++ _)), <- (app_nil_r (enc32 (mh_data_len _)));
      apply get_byte_mid; [rewrite !length_app; cbn in *; lia|cbn; lia]). done.
Qed.

Lemma get_header_ext b b' :
  (forall i, 0 <= i < sizeof_message_header -> get_byte b i = get_byte b' i) -> get_header b = get_header b'.
Proof.
  intros H. assert (Hs : sizeof_message_header = 48) by done. unfold get_header. f_equal.
  - unfold get_u32, get_u16. rewrite !H by lia. done.
  - apply get_bytes_ext; [done..|]. intros i Hi. apply H. unfold MAX_GROUP_NAME, MAX_PRIVATE_NAME, MAX_PROC_NAME in Hi. lia.
  - apply get_s32_ext. intros i Hi. apply H. lia.
  - apply get_s32_ext. intros i Hi. apply H. lia.
  - apply get_s32_ext. intros i Hi. apply H. lia.
Qed.

(** A buffer of bytes. *)
Definition bytes_ok (b : buf) : Prop := Forall (fun z => 0 <= z < 256) b.

Lemma get_byte_range b i : bytes_ok b -> 0 <= get_byte b i < 256.
Proof.
  intros Hb. unfold get_byte, aget. destruct (i <? 0); [lia|].
  destruct (b !! Z.to_nat i) as [z|] eqn:Hz; setoid_rewrite Hz; [|cbn; lia]. exact (Forall_lookup_1 _ _ _ _ Hb Hz).
Qed.

Lemma get_header_ok b : bytes_ok b -> header_ok (get_header b).
Proof.
  intros Hb. unfold header_ok, get_header. cbn [mh_type mh_private_group_name mh_num_groups mh_hint mh_data_len].
  rewrite get_bytes_length. unfold get_s32.
  split; [|split; [done|]; split; [|split]; apply s32_range].
  unfold get_u32, get_u16. pose proof (get_byte_range b) as Hr.
  pose proof (Hr 0 Hb). pose proof (Hr (0 + 1) Hb). pose proof (Hr (0 + 2) Hb). pose proof (Hr (0 + 2 + 1) Hb). lia.
Qed.
End headers.

(* --------------------------------------------------------------------- *)
(** ** Fragments *)

(** The bytes of a message. *)
Definition mess_bytes (m : scatter) : list Z := concat (content m).
Definition mess_len (m : scatter) : Z := foldr (fun e n => se_len e + n) 0 m.

Section fragments.
Implicit Types (b : buf) (m : scatter) (e : scat_elem).

Lemma header_cons e m : Message_get_message_header (e :: m) = get_header (se_buf e).
Proof. done. Qed.
Lemma mess_bytes_cons e m : mess_bytes (e :: m) = elem_bytes e ++ mess_bytes m.
Proof. done. Qed.
Lemma mess_bytes_app m m' : mess_bytes (m ++ m') = mess_bytes m ++ mess_bytes m'.
Proof. unfold mess_bytes, content. by rewrite fmap_app, concat_app. Qed.
Lemma mess_len_cons e m : mess_len (e :: m) = se_len e + mess_len m.
Proof. done. Qed.
Lemma elem_bytes_length e : length (elem_bytes e) = Z.to_nat (se_len e).
Proof. apply get_bytes_length. Qed.
Lemma mess_bytes_length m : Forall elem_ok m -> Z.of_nat (length (mess_bytes m)) = mess_len m.
Proof.
  induction 1 as [|e m [He _] Hm IH]; [done|]. rewrite mess_bytes_cons, length_app, elem_bytes_length.
  rewrite mess_len_cons. lia.
Qed.

Lemma chunked_cons e m : (m <> [] -> se_len e = sizeof_packet_body) -> chunked m -> chunked (e :: m).
Proof.
  unfold chunked. destruct m as [|e' m]; [constructor|]. intros He Hm.
  replace (length (e :: e' :: m) - 1)%nat with (S (length (e' :: m) - 1)) by (cbn; lia).
  constructor; [by apply He|exact Hm].
Qed.

Lemma fragments_after_spec n : forall b copied num,
  0 <= copied ->
  (if decide (n = 0%nat) then copied = num
   else (Z.of_nat n - 1) * sizeof_packet_body < num - copied <= Z.of_nat n * sizeof_packet_body) ->
  let m := fragments_after n b copied num in
  mess_bytes m = get_bytes b copied (num - copied) /\ chunked m /\ Forall elem_ok m /\ length m = n.
Proof.
  assert (Hb : sizeof_packet_body = 1432) by done.
  induction n as [|n IH]; intros b copied num Hc Hn m.
  { rewrite decide_True in Hn by done. subst. unfold m. rewrite Z.sub_diag, get_bytes_nil. split_and!; [done|constructor..|done]. }
  rewrite decide_False in Hn by done. unfold m. cbn [fragments_after]. cbv zeta. clear m.
  set (k := if sizeof_packet_body <? num - copied then sizeof_packet_body else num - copied).
  assert (Hk : 0 < k <= num - copied /\ k <= sizeof_packet_body /\ (n <> 0%nat -> k = sizeof_packet_body) /\ (n = 0%nat -> k = num - copied)).
  { unfold k. destruct (Z.ltb_spec sizeof_packet_body (num - copied)); split_and!; intros; try lia. }
  destruct (IH b (copied + k) num) as (H1 & H2 & H3 & H4); [lia| |].
  { destruct (decide (n = 0%nat)); lia. }
  rewrite mess_bytes_cons, H1. split_and!.
  - unfold elem_bytes. cbn [se_buf se_len]. rewrite get_bytes_again.
    replace (num - copied) with (k + (num - (copied + k))) by lia. by rewrite get_bytes_split by lia.
  - apply chunked_cons; [|done]. intros Hne. cbn. apply Hk. intros ->. by destruct (fragments_after _ _ _ _).
  - constructor; [split; cbn; lia|done].
  - cbn. by rewrite H4.
Qed.
End fragments.

Lemma fragments_of_buffer (e0 : scat_elem) (b : buf) (num_bytes : Z) :
  se_len e0 = sizeof_message_header -> 0 <= num_bytes < 2 ^ 31 ->
  match Message_Buffer_to_Message_Fragments [e0] b num_bytes with
  | inr m => mess_ok m /\ chunked m /\ mess_bytes m = elem_bytes e0 ++ get_bytes b 0 num_bytes /\
      Message_get_message_header m = Message_get_message_header [e0] /\
      sizeof_message_header + num_bytes <= MAX_SCATTER_ELEMENTS * sizeof_packet_body
  | inl e => e = Fatal "Message_Buffer_to_Message_Fragments" /\
      MAX_SCATTER_ELEMENTS * sizeof_packet_body < sizeof_message_header + num_bytes
  end.
Proof.
  intros He Hn. assert (Hb : sizeof_packet_body = 1432) by done. assert (Hs : sizeof_message_header = 48) by done.
  assert (Hm : MAX_SCATTER_ELEMENTS = 100) by done. unfold Message_Buffer_to_Message_Fragments.
  unfold u64. rewrite Z.mod_small by lia.
  set (k := (num_bytes + sizeof_message_header - 1) / sizeof_packet_body).
  assert (Hk : k * 1432 < num_bytes + 48 <= (k + 1) * 1432).
  { pose proof (Z.div_mod (num_bytes + 47) 1432). pose proof (Z.mod_pos_bound (num_bytes + 47) 1432).
    unfold k. rewrite Hb, Hs. replace (num_bytes + 48 - 1) with (num_bytes + 47) by lia. lia. }
  destruct (Z.ltb_spec MAX_SCATTER_ELEMENTS (k + 1)); [split; [done|lia]|].
  set (c := if sizeof_packet_body - sizeof_message_header <? num_bytes then _ else num_bytes).
  assert (Hc : 0 <= c <= num_bytes /\ c <= 1384 /\ (0 < k -> c = 1384) /\ (k = 0 -> c = num_bytes)).
  { unfold c. destruct (Z.ltb_spec (sizeof_packet_body - sizeof_message_header) num_bytes); lia. }
  replace (k + 1 - 1) with k by lia.
  destruct (fragments_after_spec (Z.to_nat k) b c num_bytes) as (H1 & H2 & H3 & H4); [lia| |].
  { destruct (decide (Z.to_nat k = 0%nat)); lia. }
  change (element [e0] 0) with e0. set (b0 := put_bytes _ _ _).
  assert (Hhead : get_bytes b0 0 48 = get_bytes (se_buf e0) 0 48).
  { apply get_bytes_put_out; [lia..|]. rewrite Hs. lia. }
  split_and!.
  - split; [cbn [length]; rewrite H4; lia|]. constructor; [split; cbn; lia|done].
  - apply chunked_cons; [|done]. intros Hne. cbn. assert (0 < k); [|lia].
    destruct (Z.to_nat k) eqn:E; [cbn in Hne; done|lia].
  - rewrite mess_bytes_cons, H1. unfold elem_bytes. cbn [se_buf se_len]. rewrite He, Hs.
    rewrite (get_bytes_split _ 0 48 c), Hhead, <- app_assoc by lia. f_equal. unfold b0. rewrite Hs.
    clearbody c. replace num_bytes with (c + (num_bytes - c)) at 2 by lia.
    rewrite (get_bytes_split b 0 c) by lia. f_equal. change (0 + 48) with 48.
    rewrite <- (get_bytes_put_in (se_buf e0) 48 (get_bytes b 0 c)) at 2 by lia.
    by rewrite get_bytes_length, Z2Nat.id by lia.
  - rewrite !header_cons. apply get_header_ext. intros i Hi. unfold b0. apply get_byte_put_out; [lia|]. cbn [se_buf]. lia.
  - lia.
Qed.

(** From a buffer to a message.  What the daemon copies into a message
    after its header is cut into elements that are all full but the last, at
    most [MAX_SCATTER_ELEMENTS] of them; the message says the header and then
    exactly the buffer; a buffer that does not fit is a fatal error. *)
Theorem buffer_round_trip (e0 : scat_elem) (b : buf) (num_bytes : Z) :
  se_len e0 = sizeof_message_header -> 0 <= num_bytes < 2 ^ 31 ->
  match Message_Buffer_to_Message_Fragments [e0] b num_bytes with
  | inr m => mess_ok m /\ chunked m /\ mess_bytes m = elem_bytes e0 ++ get_bytes b 0 num_bytes /\
      Message_get_message_header m = Message_get_message_header [e0] /\
      sizeof_message_header + num_bytes <= MAX_SCATTER_ELEMENTS * sizeof_packet_body
  | inl e => e = Fatal "Message_Buffer_to_Message_Fragments" /\
      MAX_SCATTER_ELEMENTS * sizeof_packet_body < sizeof_message_header + num_bytes
  end.
Proof. exact (fragments_of_buffer e0 b num_bytes). Qed.

Lemma buffer_round_trip_witness :
  let b := resize 1500 9 [] in
  match Message_Buffer_to_Message_Fragments Message_new_message b 1500 with
  | inr m => mess_ok m /\ chunked m /\ mess_bytes m = replicate 48 0 ++ b /\ length m = 2%nat
  | inl _ => False
  end.
Proof.
  intros b. pose proof (buffer_round_trip (fresh_elem sizeof_message_header) b 1500 eq_refl ltac:(lia)) as Ht.
  change [fresh_elem sizeof_message_header] with Message_new_message in Ht.
  destruct (Message_Buffer_to_Message_Fragments _ _ _) as [e|m] eqn:E.
  - vm_compute in E. discriminate.
  - destruct Ht as (Hok & Hc & Hm & _). split; [exact Hok|]. split; [exact Hc|]. rewrite Hm. split; [vm_compute; reflexivity|].
    vm_compute in E. by injection E as <-.
Defined.

(* --------------------------------------------------------------------- *)
(** ** The groups of a message *)

Section groups.
Implicit Types (b : buf) (m : scatter) (e : scat_elem).

Lemma get_bytes_take b (k : Z) n : 0 <= k <= n -> get_bytes b 0 k = take (Z.to_nat k) (get_bytes b 0 n).
Proof.
  intros Hk. replace n with (k + (n - k)) by lia. rewrite get_bytes_split by lia.
  rewrite take_app_le by (rewrite get_bytes_length; lia). by rewrite take_ge by (rewrite get_bytes_length; lia).
Qed.

Lemma gather_take m need : Forall elem_ok m -> gather m need = take (Z.to_nat need) (mess_bytes m).
Proof.
  intros Hm. revert need. induction Hm as [|e m [He0 He1] Hm IH]; intros need; [by destruct (Z.to_nat need)|].
  assert (Hb : sizeof_packet_body = 1432) by done. cbn [gather]. rewrite mess_bytes_cons, s32_id by lia.
  destruct (Z.ltb_spec 0 need) as [Hn|Hn]; [|by destruct need].
  cbv zeta. rewrite IH. pose proof (elem_bytes_length e) as Hl. destruct (Z.ltb_spec need (se_len e)).
  - rewrite Z.sub_diag, take_0, app_nil_r, take_app_le by lia. apply get_bytes_take; lia.
  - rewrite take_app_ge by lia. f_equal. f_equal. lia.
Qed.

(** The names only depend on the bytes they are made of. *)
Lemma group_names_ext n : forall b b',
  get_bytes b 0 (Z.of_nat n * MAX_GROUP_NAME) = get_bytes b' 0 (Z.of_nat n * MAX_GROUP_NAME) ->
  group_names b n = group_names b' n.
Proof.
  induction n as [|n IH]; intros b b' Hb; [done|]. assert (Hm : MAX_GROUP_NAME = 32) by done.
  replace (Z.of_nat (S n) * MAX_GROUP_NAME) with (MAX_GROUP_NAME + Z.of_nat n * MAX_GROUP_NAME) in Hb by lia.
  rewrite !get_bytes_split in Hb by lia. apply app_inj_1 in Hb as [H1 H2]; [|by rewrite !get_bytes_length].
  cbn [group_names]. rewrite H1. f_equal. apply IH. by rewrite !get_bytes_drop by lia.
Qed.

Lemma get_bytes_of_drop b o k n :
  0 <= o -> 0 <= k -> o + k <= n -> get_bytes (drop (Z.to_nat o) (get_bytes b 0 n)) 0 k = get_bytes b o k.
Proof.
  intros Ho Hk Hn. rewrite get_bytes_drop by done. apply get_bytes_ext; [lia..|]. intros i Hi.
  rewrite <- (get_byte_resize b n (o + i)) by lia. unfold get_bytes. rewrite drop_0. done.
Qed.

Lemma get_bytes_app_l b bs o n : 0 <= o -> o + n <= Z.of_nat (length b) -> get_bytes (b ++ bs) o n = get_bytes b o n.
Proof. intros Ho Hn. apply get_bytes_ext; [lia..|]. intros i Hi. apply get_byte_app_l. lia. Qed.
End groups.

(** The groups of a message.  As long as the names fit in the first
    element (43 groups), what [Message_get_groups_array] returns are the names
    that follow the header.  With more, the copy is complete and within
    [Temp_buf], but it starts with the header itself: the first name the
    caller reads is not the first group. *)
Theorem groups_array_names (e : scat_elem) (m : scatter) :
  let msg := e :: m in
  let h := Message_get_message_header msg in
  let n := Z.to_nat (mh_num_groups h) in
  Forall elem_ok msg -> is_mess REJECT_MESS (mh_type h) = false -> 0 <= mh_num_groups h <= MAX_GROUPS_PER_MESSAGE ->
  sizeof_message_header + mh_num_groups h * MAX_GROUP_NAME <= mess_len msg ->
  exists b, Message_get_groups_array msg = inr b /\
    (if sizeof_message_header + mh_num_groups h * MAX_GROUP_NAME <=? se_len e
     then group_names b n = group_names (drop (Z.to_nat sizeof_message_header) (mess_bytes msg)) n
     else b = take (Z.to_nat (sizeof_message_header + mh_num_groups h * MAX_GROUP_NAME)) (mess_bytes msg)).
Proof.
  intros msg h n Hok Hr Hn Hlen. assert (Hs : sizeof_message_header = 48) by done.
  assert (Hg : MAX_GROUP_NAME = 32) by done. assert (Hb : sizeof_packet_body = 1432) by done.
  assert (Hx : MAX_GROUPS_PER_MESSAGE = 100) by done. pose proof Hok as Hok'. apply Forall_cons in Hok' as [[He0 He1] Hm].
  unfold Message_get_groups_array. fold h. rewrite Hr. cbv zeta. change (element msg 0) with e.
  rewrite (s32_id (mh_num_groups h * _)), (s32_id (sizeof_message_header + _)), (s32_id (se_len e)) by lia.
  set (g := sizeof_message_header + mh_num_groups h * MAX_GROUP_NAME) in *.
  destruct (Z.ltb_spec (se_len e) g) as [Hlt|Hge].
  - rewrite (proj2 (Z.leb_gt _ _)) by lia. rewrite gather_take by done. change (drop (Z.to_nat 0) msg) with msg.
    assert (Hl : Z.of_nat (length (take (Z.to_nat g) (mess_bytes msg))) = g).
    { rewrite length_take. pose proof (mess_bytes_length msg Hok). lia. }
    rewrite Hl, (proj2 (Z.ltb_ge _ _)), Z.eqb_refl by (unfold sizeof_Temp_buf; lia). eexists. split; [done|done].
  - rewrite (proj2 (Z.leb_le _ _)) by lia. eexists. split; [done|]. apply group_names_ext.
    unfold bytes_from. cbn [fst snd]. change (element msg 0) with e. unfold msg. rewrite mess_bytes_cons.
    rewrite get_bytes_drop, get_bytes_drop by lia. unfold n. rewrite Z2Nat.id by lia.
    rewrite get_bytes_app_l; [|lia|rewrite elem_bytes_length; lia].
    unfold elem_bytes. rewrite <- (get_bytes_of_drop (se_buf e) _ _ (se_len e)) by lia. by rewrite get_bytes_drop by lia.
Qed.

(** A message for 44 groups: the 44th name is in the second element. *)
Definition sample_groups (n : Z) : list Z := 35 :: resize (Z.to_nat (32 * n - 1)) 103 [].
Definition sample_message (n : Z) : scatter :=
  let b := enc_header (mkMessageHeader AGREED_MESS (strncpy [35; 97] 32) n 0 0) ++ sample_groups n in
  let total := sizeof_message_header + n * MAX_GROUP_NAME in
  mkElem b (Z.min total sizeof_packet_body) ::
    (if sizeof_packet_body <? total
     then [mkElem (drop (Z.to_nat sizeof_packet_body) b) (total - sizeof_packet_body)] else []).

Lemma groups_array_names_witness :
  exists b, Message_get_groups_array (sample_message 2) = inr b /\
    group_names b 2 = group_names (drop (Z.to_nat sizeof_message_header) (mess_bytes (sample_message 2))) 2.
Proof.
  destruct (groups_array_names (mkElem (enc_header (mkMessageHeader AGREED_MESS (strncpy [35; 97] 32) 2 0 0) ++ sample_groups 2) 112) [])
    as (b & Hb & Hn).
  - constructor; [|constructor]. split; vm_compute; discriminate.
  - vm_compute. reflexivity.
  - vm_compute. split; discriminate.
  - vm_compute. discriminate.
  - exists b. split; [exact Hb|]. exact Hn.
Defined.

(* --------------------------------------------------------------------- *)
(** ** The lengths of a message that was read *)

Section fixup.
Implicit Types (m : scatter) (e : scat_elem).

Lemma mess_len_app m m' : mess_len (m ++ m') = mess_len m + mess_len m'.
Proof. induction m as [|e m IH]; [done|]. cbn [app]. rewrite !mess_len_cons, IH. lia. Qed.

Lemma mess_len_full m : Forall (fun e => se_len e = sizeof_packet_body) m ->
  mess_len m = sizeof_packet_body * Z.of_nat (length m).
Proof. induction 1 as [|e m He Hm IH]; [done|]. rewrite mess_len_cons, IH, He. cbn [length]. lia. Qed.

(** The message with the length of its last element changed. *)
Lemma elem_at_len_last m e k :
  elem_at_len (Z.of_nat (length m)) k (m ++ [e]) = m ++ [set_len k e].
Proof.
  unfold elem_at_len, element, aget, aset. rewrite (proj2 (Z.ltb_ge (Z.of_nat (length m)) 0)) by lia. rewrite Nat2Z.id.
  assert (Hl : (m ++ [e]) !! length m = Some e) by by apply list_lookup_middle.
  setoid_rewrite Hl. replace (length m) with (length m + 0)%nat by lia. by rewrite insert_app_r.
Qed.
Lemma elem_at_len_beyond m k i : Z.of_nat (length m) <= i -> elem_at_len i k m = m.
Proof.
  intros Hi. unfold elem_at_len, aset. destruct (Z.ltb_spec i 0); [done|]. apply list_insert_ge. lia.
Qed.
End fixup.

(** The lengths after reading: a message of [n] elements whose header
    announces [total] bytes, read into buffers of which all but the first
    have the full length, gets lengths that add up to [total], all elements
    but the last full, unless it fills all the elements there can be: then
    the length of an element past the end of the scatter is written. *)
Lemma fixup_lengths (e : scat_elem) (m : scatter) :
  let msg := e :: m in
  let h := Message_get_message_header msg in
  let total := mh_data_len h + MAX_GROUP_NAME * mh_num_groups h + sizeof_message_header in
  let n := Z.of_nat (length msg) in
  Forall (fun e => se_len e = sizeof_packet_body) m -> n <= MAX_SCATTER_ELEMENTS ->
  (n - 1) * sizeof_packet_body < total <= n * sizeof_packet_body ->
  match Message_element_len_fixup msg with
  | inr msg' => mess_len msg' = total /\ chunked msg' /\ Forall elem_ok msg' /\
      se_buf <$> msg' = se_buf <$> msg /\ total < MAX_SCATTER_ELEMENTS * sizeof_packet_body
  | inl e => e = Undefined "Message_element_len_fixup: elements[last]" /\
      total = MAX_SCATTER_ELEMENTS * sizeof_packet_body
  end.
Proof.
  intros msg h total n Hm Hmax Ht. assert (Hb : sizeof_packet_body = 1432) by done.
  assert (Hx : MAX_SCATTER_ELEMENTS = 100) by done.
  assert (Hn : n = Z.of_nat (length m) + 1) by (unfold n, msg; cbn; lia).
  unfold Message_element_len_fixup. fold h total. fold n.
  rewrite s32_id by lia. assert (Hu : u64 total = total) by (unfold u64; rewrite Z.mod_small; lia). rewrite !Hu.
  destruct (Z.ltb_spec total sizeof_packet_body) as [Hlt|Hge].
  { assert (m = []) as -> by (apply length_zero_iff_nil; lia). rewrite Z.div_small by lia.
    change (elem_at_len 0 total msg) with [set_len total e]. cbn [mess_len foldr set_len se_len].
    split_and!; [lia|constructor|repeat constructor; cbn; lia|done|lia]. }
  set (last := total / sizeof_packet_body).
  assert (Hlast : last * 1432 <= total < (last + 1) * 1432).
  { pose proof (Z.div_mod total 1432). pose proof (Z.mod_pos_bound total 1432). unfold last. rewrite Hb. lia. }
  clearbody last.
  destruct (Z.leb_spec MAX_SCATTER_ELEMENTS last); [split; [done|lia]|].
  change (elem_at_len 0 sizeof_packet_body msg) with (set_len sizeof_packet_body e :: m).
  set (msg1 := set_len sizeof_packet_body e :: m).
  assert (Hfull : Forall (fun e => se_len e = sizeof_packet_body) msg1) by (by constructor).
  assert (Hl1 : Z.of_nat (length msg1) = n) by (unfold msg1; cbn [length]; lia).
  assert (Hok : forall l, Forall (fun e => se_len e = sizeof_packet_body) l -> Forall elem_ok l).
  { intros l Hl. eapply Forall_impl; [exact Hl|]. intros x Hx'. cbn in Hx'. split; lia. }
  destruct (Z.eq_dec last n) as [Heq|Hne].
  - rewrite elem_at_len_beyond by lia. split_and!; [|by apply Forall_take|by apply Hok|done|lia].
    rewrite mess_len_full by done. lia.
  - assert (last = n - 1) as -> by lia.
    destruct (exists_last (l:=msg1) ltac:(done)) as (m1 & x & Hmx). rewrite Hmx in *.
    rewrite length_app in Hl1. cbn in Hl1. replace (n - 1) with (Z.of_nat (length m1)) by lia.
    rewrite elem_at_len_last. apply Forall_app in Hfull as [Hf1 Hfx].
    unfold u64. rewrite Z.mod_small by lia. split_and!.
    + rewrite mess_len_app, mess_len_full by done. cbn. lia.
    + unfold chunked. rewrite length_app. cbn [length]. rewrite Nat.add_sub, take_app_length. done.
    + apply Forall_app. split; [by apply Hok|]. repeat constructor; cbn; lia.
    + replace (se_buf <$> msg) with (se_buf <$> msg1) by done. rewrite Hmx, !fmap_app. done.
    + lia.
Qed.
