(* ===== verification/EventsFd.v ===== *)
(** * The masks of the event loop ([libspread-util/src/events.c])

    What [select] is asked to watch: detaching, activating and deactivating a
    descriptor at all priorities, and the threshold under which descriptors
    are not watched, by which the lower layers hold back the clients. *)

From Stdlib Require Import ZArith Lia.
From stdpp Require Import base strings numbers option gmap list.
From S2P Require Import Prelude Wire Config Events.

Definition WRITE_FD : Z := 1.
Definition EXCEPT_FD : Z := 2.

(** The loops over all priorities: 0 when the descriptor was found at one of
    them, otherwise -1. *)
Definition at_each_priority (m : Z -> M ev_state bool) : M ev_state Z :=
  let* f0 := m 0 in let* f1 := m 1 in let* f2 := m 2 in
  ret (if f0 || f1 || f2 then 0 else -1).

Definition E_detach_fd (fd fd_type : Z) : M ev_state Z :=
  if (fd_type <? 0) || (NUM_FDTYPES <=? fd_type) then ret (-1)
  else at_each_priority (fun i => let* r := E_detach_fd_priority fd fd_type i in ret (r =? 0)).

(** Set the [active] field of the entry of [fd] and [fd_type] in queue [i]. *)
Definition set_active (fd fd_type : Z) (on : bool) (i : Z) : M ev_state bool :=
  let* e := get in
  let q := fd_queue_at e i in
  match find_fd fd fd_type (fq_events q) 0 with
  | None => ret false
  | Some j =>
      match fq_events q !! j with
      | None => ret false
      | Some x =>
          let n := fq_num_active q in
          modify (set_fd_queue_at i
            (mkFdQueue (<[j := mkFdEvent (fe_fd x) (fe_type x) (fe_func x) (fe_code x) (fe_data x) on]> (fq_events q))
               (if on then if fe_active x then n else n + 1 else if fe_active x then n - 1 else n))) ;;
          modify (fun e =>
            if on then if ev_Active_priority e <=? i then fd_set fd fd_type e else e else fd_clr fd fd_type e) ;;
          ret true
      end
  end.

Definition E_deactivate_fd (fd fd_type : Z) : M ev_state Z :=
  if (fd_type <? 0) || (NUM_FDTYPES <=? fd_type) then ret (-1)
  else at_each_priority (set_active fd fd_type false).
Definition E_activate_fd (fd fd_type : Z) : M ev_state Z :=
  if (fd_type <? 0) || (NUM_FDTYPES <=? fd_type) then ret (-1)
  else at_each_priority (set_active fd fd_type true).

(** The active entries of the queues from [priority] up, set in the masks. *)
Definition set_masks (priority : Z) : M ev_state unit :=
  mforeach (fun i =>
      let* e := get in
      mforeach (fun x => when (fe_active x) (modify (fd_set (fe_fd x) (fe_type x)))) (fq_events (fd_queue_at e i)))
    (seqZ priority (NUM_PRIORITY - priority)).

Definition E_set_active_threshold (priority : Z) : M ev_state Z :=
  if (priority <? 0) || (NUM_PRIORITY <=? priority) then ret (-1)
  else
    let* e := get in
    if priority =? ev_Active_priority e then ret priority
    else
      modify (set_ev_Active_priority priority) ;;
      modify (set_ev_Fd_mask (replicate (Z.to_nat NUM_FDTYPES) ∅)) ;;
      set_masks priority ;;
      ret priority.

Definition E_num_active (priority : Z) : M ev_state Z :=
  if (priority <? 0) || (NUM_PRIORITY <=? priority) then ret (-1)
  else let* e := get in ret (fq_num_active (fd_queue_at e priority)).

(* --------------------------------------------------------------------- *)
(** ** What is watched *)

Definition watched (e : ev_state) (fd t : Z) : Prop := fd ∈ aget ∅ (ev_Fd_mask e) t.

(** An active entry of [fd] and [t] in the list [l]. *)
Definition active_in (l : list fd_event) (fd t : Z) : Prop :=
  exists x, x ∈ l /\ fe_fd x = fd /\ fe_type x = t /\ fe_active x = true.
(** At a priority in [l]. *)
Definition armed_at (e : ev_state) (l : list Z) (fd t : Z) : Prop :=
  exists i, i ∈ l /\ active_in (fq_events (fd_queue_at e i)) fd t.
(** At a priority that is served. *)
Definition armed_fd (e : ev_state) (fd t : Z) : Prop :=
  armed_at e (seqZ (ev_Active_priority e) (NUM_PRIORITY - ev_Active_priority e)) fd t.

(** Entries have a descriptor type there is a mask for. *)
Definition types_ok (e : ev_state) : Prop :=
  length (ev_Fd_mask e) = Z.to_nat NUM_FDTYPES /\
  forall i x, x ∈ fq_events (fd_queue_at e i) -> 0 <= fe_type x < NUM_FDTYPES.

(** Only the masks differ. *)
Definition masks_only (e e' : ev_state) : Prop :=
  ev_Fd_queue e' = ev_Fd_queue e /\ ev_Active_priority e' = ev_Active_priority e /\
  ev_Time_queue e' = ev_Time_queue e /\ length (ev_Fd_mask e') = length (ev_Fd_mask e).

Section masks.
Implicit Types (e : ev_state) (l : list fd_event).

Lemma watched_fd_set e fd t fd' t' :
  0 <= t < Z.of_nat (length (ev_Fd_mask e)) ->
  (watched (fd_set fd t e) fd' t' <-> (fd' = fd /\ t' = t) \/ watched e fd' t').
Proof.
  intros Ht. unfold watched, fd_set. cbn [ev_Fd_mask set_ev_Fd_mask].
  destruct (decide (t' = t)) as [->|Hne].
  - rewrite aget_aset_eq by lia. set_solver.
  - rewrite aget_aset_ne by done. set_solver.
Qed.

Lemma set_mask_list l : forall e,
  Forall (fun x => 0 <= fe_type x < Z.of_nat (length (ev_Fd_mask e))) l ->
  wp (mforeach (fun x => when (fe_active x) (modify (fd_set (fe_fd x) (fe_type x)))) l)
    (fun _ e' => masks_only e e' /\ forall fd t, watched e' fd t <-> watched e fd t \/ active_in l fd t) never e.
Proof.
  induction l as [|x l IH]; intros e Hl; cbn [mforeach].
  { apply wp_ret. split; [done|]. intros fd t. split; [by left|]. intros [?|(x & Hx & _)]; [done|by apply elem_of_nil in Hx]. }
  apply Forall_cons in Hl as [Hx Hl]. apply wp_bind.
  apply (wp_mono _ (fun _ e' => masks_only e e' /\ forall fd t, watched e' fd t <->
    watched e fd t \/ (fe_active x = true /\ fd = fe_fd x /\ t = fe_type x)) _ never); [| |done].
  { apply wp_when.
    - intros Ha. apply wp_modify. split; [split_and!; try done; cbn; by rewrite aset_length|].
      intros fd t. rewrite watched_fd_set by done. tauto.
    - intros Ha. split; [done|]. intros fd t. rewrite Ha. intuition congruence. }
  intros _ e1 [(Hq & Hp & Ht & Hm) Hw]. eapply wp_mono; [apply IH; by rewrite Hm| |done].
  intros _ e2 [(Hq2 & Hp2 & Ht2 & Hm2) Hw2]. split; [split_and!; congruence|]. intros fd t. rewrite Hw2, Hw. split.
  - intros [[?|(? & -> & ->)]|(y & Hy & ?)]; [by left|right; exists x; split_and!; [by left|done..]|right; exists y; split; [by right|done]].
  - intros [?|(y & [->|Hy]%elem_of_cons & <- & <- & Ha)]; [by left; left|left; by right|right; by exists y].
Qed.

Lemma set_masks_list ps : forall e,
  types_ok e ->
  wp (mforeach (fun i =>
        let* e := get in
        mforeach (fun x => when (fe_active x) (modify (fd_set (fe_fd x) (fe_type x)))) (fq_events (fd_queue_at e i))) ps)
    (fun _ e' => masks_only e e' /\ forall fd t, watched e' fd t <-> watched e fd t \/ armed_at e ps fd t) never e.
Proof.
  induction ps as [|i ps IH]; intros e [Hlen He]; cbn [mforeach].
  { apply wp_ret. split; [done|]. intros fd t. split; [by left|]. intros [?|(i & Hi & _)]; [done|by apply elem_of_nil in Hi]. }
  apply wp_bind, wp_bind, wp_get. eapply wp_mono; [apply set_mask_list| |done].
  { apply Forall_forall. intros x Hx. rewrite Hlen. apply He in Hx. unfold NUM_FDTYPES in *. lia. }
  intros _ e1 [Hm1 Hw1]. pose proof Hm1 as (Hq1 & Hp1 & Ht1 & Hl1).
  assert (Hat : forall i, fd_queue_at e1 i = fd_queue_at e i) by (intros j; unfold fd_queue_at; by rewrite Hq1).
  eapply wp_mono; [apply IH; split; [congruence|intros j x; rewrite Hat; apply He]| |done].
  intros _ e2 [(Hq2 & Hp2 & Ht2 & Hl2) Hw2]. split; [split_and!; congruence|]. intros fd t. rewrite Hw2, Hw1.
  unfold armed_at. split.
  - intros [[?|?]|(j & Hj & Ha)]; [by left|right; exists i; split; [by left|done]|right; exists j; split; [by right|by rewrite <- Hat]].
  - intros [?|(j & [->|Hj]%elem_of_cons & Ha)]; [by left; left|left; by right|right; exists j; split; [done|by rewrite Hat]].
Qed.
End masks.

(** Holding back the clients: after the threshold is moved, [select] is
    asked to watch exactly the descriptors that are attached and active at a
    priority at or above it, so that nothing below it is read; the queues and
    the timers are as they were. *)
Lemma set_threshold_masks (e : ev_state) (priority : Z) :
  types_ok e -> 0 <= priority < NUM_PRIORITY -> priority <> ev_Active_priority e ->
  wp (E_set_active_threshold priority)
    (fun r e' => r = priority /\ ev_Active_priority e' = priority /\ ev_Fd_queue e' = ev_Fd_queue e /\
       ev_Time_queue e' = ev_Time_queue e /\ types_ok e' /\ forall fd t, watched e' fd t <-> armed_fd e' fd t) never e.
Proof.
  intros [Hlen Hty] Hp Hne. unfold E_set_active_threshold.
  rewrite (proj2 (Z.ltb_ge priority 0)), (proj2 (Z.leb_gt NUM_PRIORITY priority)) by lia. cbn [orb].
  apply wp_bind, wp_get. rewrite (proj2 (Z.eqb_neq _ _) Hne). apply wp_bind, wp_modify, wp_bind, wp_modify, wp_bind.
  set (e1 := set_ev_Fd_mask _ _). unfold set_masks. eapply wp_mono; [apply set_masks_list; split; [done|exact Hty]| |done].
  intros _ e2 [(Hq & Hpr & Ht & Hl) Hw]. apply wp_ret.
  assert (Hat : forall i, fd_queue_at e2 i = fd_queue_at e1 i) by (intros i; unfold fd_queue_at; by rewrite Hq).
  assert (Hpr' : ev_Active_priority e2 = priority) by exact Hpr.
  split_and!; try done.
  - split; [by rewrite Hl|]. intros i x. rewrite Hat. apply Hty.
  - intros fd t. rewrite Hw. unfold armed_fd. rewrite Hpr'. split.
    + intros [Hn|(i & Hi & Ha)]; [|exists i; split; [done|by rewrite Hat]]. exfalso. revert Hn.
      unfold watched. cbn [ev_Fd_mask e1 set_ev_Fd_mask]. unfold aget. destruct (t <? 0); [set_solver|].
      destruct (_ !! _) eqn:Hx; [|set_solver]. apply lookup_replicate_1 in Hx as [-> _]. set_solver.
    + intros (i & Hi & Ha). right. exists i. split; [done|by rewrite <- Hat].
Qed.

(* --------------------------------------------------------------------- *)
(** ** One descriptor *)

Definition is_for (fd t : Z) (x : fd_event) : Prop := fe_fd x = fd /\ fe_type x = t.
#[export] Instance is_for_dec fd t x : Decision (is_for fd t x).
Proof. unfold is_for. apply _. Defined.

(** The entries of [fd] and [t] at priority [p], and the others. *)
Definition entries_of (fd t : Z) (e : ev_state) (p : Z) : list fd_event :=
  filter (is_for fd t) (fq_events (fd_queue_at e p)).
Definition entries_but (fd t : Z) (e : ev_state) (p : Z) : list fd_event :=
  filter (fun x => ~ is_for fd t x) (fq_events (fd_queue_at e p)).

(** [fd] and [t] are attached at [p] with the function [f], once and active,
    and watched if [p] is served; when [b] is false, they are not attached at
    any priority. *)
Record attached (fd t : Z) (f : fd_func) (p : Z) (b : bool) (e : ev_state) : Prop := mkAttached {
  at_tables : fd_tables_ok e;
  at_masks : length (ev_Fd_mask e) = Z.to_nat NUM_FDTYPES;
  at_entries : forall q, 0 <= q < NUM_PRIORITY ->
    entries_of fd t e q = if b && (q =? p) then [mkFdEvent fd t f 0 0 true] else [];
  at_watched : watched e fd t <-> b = true /\ ev_Active_priority e <= p;
  at_room : Z.of_nat (length (entries_but fd t e p)) < MAX_FD_EVENTS;
}.

(** Nothing differs but what concerns [fd] and [t]. *)
Definition other_fds (fd t : Z) (e e' : ev_state) : Prop :=
  ev_Active_priority e' = ev_Active_priority e /\ (forall p, entries_but fd t e' p ≡ₚ entries_but fd t e p) /\
  forall fd' t', (fd', t') <> (fd, t) -> (watched e' fd' t' <-> watched e fd' t').

#[export] Instance other_fds_preorder fd t : PreOrder (other_fds fd t).
Proof.
  split; [done|]. intros e1 e2 e3 (A1 & B1 & C1) (A2 & B2 & C2). split; [congruence|]. split; [intros p; by rewrite B2|].
  intros fd' t' Hne. by rewrite C2, C1.
Qed.

Section one_descriptor.
Implicit Types (fd t p q : Z) (e : ev_state) (f : fd_func) (b : bool).

Lemma entries_length fd t e p :
  length (fq_events (fd_queue_at e p)) = (length (entries_of fd t e p) + length (entries_but fd t e p))%nat.
Proof.
  unfold entries_of, entries_but. induction (fq_events _) as [|x l IH]; [done|]. rewrite !filter_cons.
  destruct (decide (is_for fd t x)), (decide (~ is_for fd t x)); cbn; tauto || lia.
Qed.
Lemma queue_at_set p q x e :
  0 <= p < Z.of_nat (length (ev_Fd_queue e)) -> fd_queue_at (set_fd_queue_at p x e) q = if q =? p then x else fd_queue_at e q.
Proof.
  intros Hp. unfold fd_queue_at, set_fd_queue_at. cbn [ev_Fd_queue set_ev_Fd_queue].
  destruct (Z.eqb_spec q p) as [->|Hne]; [by apply aget_aset_eq|by apply aget_aset_ne].
Qed.
Lemma queue_at_mask q x e : fd_queue_at (set_ev_Fd_mask x e) q = fd_queue_at e q.
Proof. done. Qed.
Lemma watched_fd_clr fd t fd' t' e :
  0 <= t < Z.of_nat (length (ev_Fd_mask e)) ->
  (watched (fd_clr fd t e) fd' t' <-> (fd', t') <> (fd, t) /\ watched e fd' t').
Proof.
  intros Ht. unfold watched, fd_clr. cbn [ev_Fd_mask set_ev_Fd_mask].
  destruct (decide (t' = t)) as [->|Hne].
  - rewrite aget_aset_eq by lia. rewrite elem_of_difference, elem_of_singleton. intuition congruence.
  - rewrite aget_aset_ne by done. intuition congruence.
Qed.

(** The table with another list at [p]. *)
Lemma entries_set fd t p q x e :
  0 <= p < NUM_PRIORITY -> fd_tables_ok e ->
  entries_of fd t (set_fd_queue_at p x e) q = (if q =? p then filter (is_for fd t) (fq_events x) else entries_of fd t e q) /\
  entries_but fd t (set_fd_queue_at p x e) q = (if q =? p then filter (fun x => ~ is_for fd t x) (fq_events x) else entries_but fd t e q).
Proof.
  intros Hp [Hl _]. unfold entries_of, entries_but. rewrite queue_at_set; [by destruct (q =? p)|].
  rewrite Hl. unfold NUM_PRIORITY in *. lia.
Qed.

(** Attaching: whatever was attached before, now it is [f], at [p]. *)
Lemma attach_spec fd t f p b e :
  0 <= fd <= FD_SETSIZE -> 0 <= t < NUM_FDTYPES -> 0 <= p < NUM_PRIORITY -> attached fd t f p b e ->
  wp (E_attach_fd fd t f 0 0 p) (fun _ e' => attached fd t f p true e' /\ other_fds fd t e e') never e.
Proof.
  intros Hfd Ht Hp Ha. pose proof Ha as [Htab Hmask Hent Hw Hroom].
  eapply (wp_mono _ (fun _ e' => fd_tables_ok e' /\ (fd_tables_ok e' -> attached fd t f p true e' /\ other_fds fd t e e')));
    [apply wp_and; [by apply E_attach_fd_ok|]|by intros _ e' [H1 H2]; apply H2|done].
  unfold E_attach_fd. unfold NUM_PRIORITY, NUM_FDTYPES in *. zcases; try lia. cbn [orb]. apply wp_bind, wp_get.
  pose proof (Hent p Hp) as Hentp. rewrite Z.eqb_refl, andb_true_r in Hentp.
  assert (Hset : forall x, filter (is_for fd t) (fq_events x) = [mkFdEvent fd t f 0 0 true] ->
    filter (fun x => ~ is_for fd t x) (fq_events x) = entries_but fd t e p ->
    (forall q, 0 <= q < 3 -> entries_of fd t (set_fd_queue_at p x e) q = if (q =? p) then [mkFdEvent fd t f 0 0 true] else []) /\
    (forall q, entries_but fd t (set_fd_queue_at p x e) q = entries_but fd t e q)).
  { intros x Hx1 Hx2. split; intros q; [intros Hq|]; destruct (entries_set fd t p q x e Hp Htab) as [E1 E2]; rewrite ?E1, ?E2; clear E1 E2;
      destruct (Z.eqb_spec q p) as [->|Hne]; try done. rewrite Hent by done. by rewrite (proj2 (Z.eqb_neq q p) Hne), andb_false_r. }
  destruct (find_fd _ _ _ _) as [j|] eqn:Hj.
  - apply find_fd_some in Hj as (_ & old & Hold & Hk). rewrite Nat.sub_0_r in Hold. rewrite Hold. cbn [default].
    apply lookup_split in Hold as (l1 & l2 & Hl & <-). assert (Hfor : is_for fd t old) by (by injection Hk).
    assert (Hmid : <[length l1 := mkFdEvent fd t f 0 0 true]> (fq_events (fd_queue_at e p)) = l1 ++ mkFdEvent fd t f 0 0 true :: l2).
    { rewrite Hl, insert_app_r_alt, Nat.sub_diag by lia. done. }
    assert (filter (is_for fd t) l1 = [] /\ filter (is_for fd t) l2 = [] /\ b = true) as (K1 & K2 & Hb).
    { unfold entries_of in Hentp. rewrite Hl, filter_app, filter_cons_True in Hentp by done.
      destruct b; [|by apply app_nil in Hentp as []]. destruct (filter _ l1) as [|y [|z r]]; try done.
      by injection Hentp. }
    apply wp_bind, wp_modify, wp_ret. intros Htab'. set (x := mkFdQueue _ _) in *.
    destruct (Hset x) as [He1 He2].
    { cbn [fq_events x]. rewrite Hmid, filter_app, filter_cons_True by done. by rewrite K1, K2. }
    { cbn [fq_events x]. rewrite Hmid. unfold entries_but. rewrite Hl, !filter_app, !filter_cons_False; [done|by intros Hn; apply Hn..]. }
    split; [|by split; [|split; [intros q; by rewrite He2|]]]. constructor; [done|done|intros q Hq; by rewrite He1| |by rewrite He2].
    change (watched (set_fd_queue_at p x e)) with (watched e). rewrite Hw, Hb. done.
  - apply find_fd_none in Hj. assert (Hb : entries_of fd t e p = []).
    { unfold entries_of. destruct (filter _ _) as [|y r] eqn:E; [done|]. exfalso. apply Hj. assert (Hy : y ∈ y :: r) by left.
      rewrite <- E in Hy. apply list_elem_of_filter in Hy as [[<- <-] Hy]. apply list_elem_of_fmap. by exists y. }
    rewrite (entries_length fd t e p), Hb. cbn [length Nat.add]. rewrite (proj2 (Z.eqb_neq _ _)) by lia.
    apply wp_bind, wp_modify, wp_bind, wp_modify, wp_ret. intros Htab'. set (x := mkFdQueue _ _) in *.
    destruct (Hset x) as [He1 He2].
    { cbn [fq_events x]. rewrite filter_app, filter_cons_True by done. fold (entries_of fd t e p). by rewrite Hb. }
    { cbn [fq_events x]. rewrite filter_app, filter_cons_False by (intros Hn; by apply Hn). fold (entries_but fd t e p). by rewrite app_nil_r. }
    set (e1 := set_fd_queue_at p x e) in *. change (ev_Active_priority e) with (ev_Active_priority e1) in *.
    assert (Hm1 : length (ev_Fd_mask e1) = 3%nat) by exact Hmask.
    split; [constructor|split; [|split]].
    + done.
    + destruct (_ <=? _); cbn; by rewrite ?aset_length.
    + intros q Hq. destruct (_ <=? _); exact (He1 q Hq).
    + destruct (Z.leb_spec (ev_Active_priority e1) p).
      * rewrite watched_fd_set by (rewrite Hm1; lia). cbn. tauto.
      * change (watched e1) with (watched e). rewrite Hw. cbn in *. lia.
    + assert (Hr : Z.of_nat (length (entries_but fd t e1 p)) < MAX_FD_EVENTS) by by rewrite He2.
      destruct (_ <=? _); exact Hr.
    + by destruct (_ <=? _).
    + intros q. rewrite <- He2. by destruct (_ <=? _).
    + intros fd' t' Hne. destruct (_ <=? _); [|done]. rewrite watched_fd_set by (rewrite Hm1; lia).
      change (watched e1) with (watched e). intuition congruence.
Qed.

(** Detaching at one priority. *)
Lemma detach_one fd t f p q b e :
  0 <= t < NUM_FDTYPES -> 0 <= q < NUM_PRIORITY -> attached fd t f p b e ->
  wp (E_detach_fd_priority fd t q) (fun _ e' => attached fd t f p (b && negb (q =? p)) e' /\ other_fds fd t e e') never e.
Proof.
  intros Ht Hq Ha. pose proof Ha as [Htab Hmask Hent Hw Hroom].
  eapply (wp_mono _ (fun _ e' => fd_tables_ok e' /\ (fd_tables_ok e' -> attached fd t f p (b && negb (q =? p)) e' /\ other_fds fd t e e')));
    [apply wp_and; [by apply E_detach_fd_ok|]|by intros _ e' [H1 H2]; apply H2|done].
  unfold E_detach_fd_priority. rewrite (proj2 (Z.ltb_ge t 0)), (proj2 (Z.leb_gt NUM_FDTYPES t)) by lia. cbn [orb].
  apply wp_bind, wp_get. unfold NUM_PRIORITY, NUM_FDTYPES in *. pose proof (Hent q Hq) as Hentq.
  destruct (find_fd _ _ _ _) as [j|] eqn:Hj.
  - apply find_fd_some in Hj as (_ & old & Hold & Hk). rewrite Nat.sub_0_r in Hold. rewrite Hold.
    assert (Hfor : is_for fd t old) by (by injection Hk). apply remove_swap_perm in Hold as Hperm.
    set (l' := remove_swap _ _) in *. clearbody l'.
    assert (filter (is_for fd t) l' = [] /\ b && (q =? p) = true) as [Hl' Hb].
    { assert (Hp : entries_of fd t e q ≡ₚ filter (is_for fd t) (old :: l')) by (unfold entries_of; by rewrite Hperm).
      rewrite Hentq, filter_cons_True in Hp by done. destruct (b && (q =? p)); [|by apply Permutation_nil in Hp].
      apply Permutation_length in Hp. cbn in Hp. split; [|done]. apply length_zero_iff_nil. lia. }
    apply andb_true_iff in Hb as [-> ->%Z.eqb_eq]. rewrite Z.eqb_refl. cbn [negb andb].
    assert (Hbut : filter (fun x => ~ is_for fd t x) l' ≡ₚ entries_but fd t e p).
    { unfold entries_but. rewrite Hperm, filter_cons_False; [done|]. intros Hn. by apply Hn. }
    apply wp_bind, wp_modify, wp_bind, wp_modify, wp_ret. intros Htab'. set (x := mkFdQueue _ _) in *.
    set (e1 := set_fd_queue_at p x e) in *. assert (Hm1 : length (ev_Fd_mask e1) = 3%nat) by exact Hmask.
    assert (He : forall k, entries_of fd t (fd_clr fd t e1) k = (if k =? p then [] else entries_of fd t e k) /\
                           entries_but fd t (fd_clr fd t e1) k ≡ₚ entries_but fd t e k).
    { intros k. destruct (entries_set fd t p k x e Hq Htab) as [E1 E2].
      change (entries_of fd t (fd_clr fd t e1) k) with (entries_of fd t e1 k).
      change (entries_but fd t (fd_clr fd t e1) k) with (entries_but fd t e1 k). unfold e1. rewrite E1, E2. cbn [fq_events x].
      rewrite Hl'. clear E1 E2. destruct (Z.eqb_spec k p) as [Hkp|]; [rewrite Hkp|]; done. }
    split; [constructor|split; [done|split]].
    + done.
    + cbn. by rewrite aset_length.
    + intros k Hk'. destruct (He k) as [-> _]. cbn [andb]. destruct (Z.eqb_spec k p) as [->|Hne]; [done|].
      rewrite Hent by done. cbn [andb]. by rewrite (proj2 (Z.eqb_neq k p) Hne).
    + rewrite watched_fd_clr by (rewrite Hm1; lia). intuition congruence.
    + by rewrite (proj2 (He p)).
    + intros k. apply He.
    + intros fd' t' Hne. rewrite watched_fd_clr by (rewrite Hm1; lia). change (watched e1) with (watched e). tauto.
  - apply find_fd_none in Hj. apply wp_ret. intros _. split; [|done].
    assert (Hb : b && (q =? p) = false).
    { destruct (b && (q =? p)); [|done]. exfalso. apply Hj. assert (Hy : mkFdEvent fd t f 0 0 true ∈ entries_of fd t e q) by (rewrite Hentq; left).
      apply list_elem_of_filter in Hy as [_ Hy]. apply list_elem_of_fmap. eexists. split; [|exact Hy]. done. }
    replace (b && negb (q =? p)) with b; [done|]. destruct b, (q =? p); done.
Qed.

(** Detaching. *)
Lemma detach_spec fd t f p b e :
  0 <= t < NUM_FDTYPES -> 0 <= p < NUM_PRIORITY -> attached fd t f p b e ->
  wp (E_detach_fd fd t) (fun _ e' => attached fd t f p false e' /\ other_fds fd t e e') never e.
Proof.
  intros Ht Hp Ha. unfold E_detach_fd, at_each_priority.
  rewrite (proj2 (Z.ltb_ge t 0)), (proj2 (Z.leb_gt NUM_FDTYPES t)) by lia. cbn [orb]. unfold NUM_PRIORITY in *.
  assert (Hone : forall q b e0, 0 <= q < 3 -> attached fd t f p b e0 ->
    wp (let* r := E_detach_fd_priority fd t q in ret (r =? 0))
      (fun _ e' => attached fd t f p (b && negb (q =? p)) e' /\ other_fds fd t e0 e') never e0).
  { intros q b0 e0 Hq H0. apply wp_bind. eapply wp_mono; [by apply (detach_one fd t f p)| |done]. intros r e1 H1. by apply wp_ret. }
  apply wp_bind. eapply wp_mono; [by apply (Hone 0)| |done]. intros r0 e0 [H0 O0].
  apply wp_bind. eapply wp_mono; [by apply (Hone 1)| |done]. intros r1 e1 [H1 O1].
  apply wp_bind. eapply wp_mono; [by apply (Hone 2)| |done]. intros r2 e2 [H2 O2].
  apply wp_ret. split; [|by do 2 (etransitivity; [|eassumption])].
  replace false with (b && negb (0 =? p) && negb (1 =? p) && negb (2 =? p)); [done|].
  destruct b; zcases; done || lia.
Qed.
End one_descriptor.

Definition sample_fds : ev_state :=
  set_fd_queue_at HIGH_PRIORITY (mkFdQueue [mkFdEvent 4 READ_FD Prot_handle_bcast_fd 0 0 true] 1)
    (set_fd_queue_at LOW_PRIORITY (mkFdQueue [mkFdEvent 7 READ_FD (Other_fd 1) 0 0 true] 1)
      (set_ev_Fd_mask [{[4; 7]}; ∅; ∅] ev_initial)).
