(* ===== verification/Names.v ===== *)
(** * Names of sessions and groups

    C strings as the bytes before their nul, their comparison, and the private
    group of a client, ["#private#proc"], formatted by [snprintf] when it
    connects ([session.c]) and taken apart by [G_private_to_names]
    ([groups.c]). *)

From Stdlib Require Import ZArith Lia Ascii String.
From stdpp Require Import base strings numbers option gmap list.
From S2P Require Import Prelude Wire Bytes Config Events State Network FlowControl MembSets MembCore ProtSend.
From S2P Require Import Retrans Requests Packing Deliver Delivery Sending EndToEnd Message.

(** The bytes of a configured name. *)
Definition str_bytes (s : string) : list Z := (fun c => Z.of_N (N_of_ascii c)) <$> list_ascii_of_string s.

(** [strcmp]: negative, zero or positive as the first string is before, equal
    to or after the second. *)
Fixpoint strcmp (a b : list Z) : Z :=
  match a, b with
  | [], [] => 0
  | [], _ :: _ => -1
  | _ :: _, [] => 1
  | x :: a, y :: b => if x <? y then -1 else if y <? x then 1 else strcmp a b
  end.
(** [strncmp( a, b, n )] on strings. *)
Definition strncmp (a b : list Z) (n : Z) : Z := strcmp (take (Z.to_nat n) a) (take (Z.to_nat n) b).

Definition HASH : Z := 35.
Definition TILDE : Z := 126.
(** The characters allowed in names: [c > '#' && c <= '~']. *)
Definition legal_char (c : Z) : bool := (HASH <? c) && (c <=? TILDE).

(** [strchr( s, '#' )] in an array that holds a C string: the characters
    before it and what follows it, or the string when there is none.  [None]
    when the array has no nul in front of it. *)
Fixpoint strchr_hash (s : list Z) : option (list Z * option (list Z)) :=
  match s with
  | [] => None
  | c :: s =>
      if c =? HASH then Some ([], Some s)
      else if c =? 0 then Some ([], None)
      else match strchr_hash s with
           | Some (k, r) => Some (c :: k, r)
           | None => None
           end
  end.
Definition has_nul (s : list Z) : bool := existsb (fun c => c =? 0) s.

(** The private and the process name; [None] is [ILLEGAL_GROUP]. *)
Definition G_private_to_names (private_group_name : list Z) : res (option (list Z * list Z)) :=
  match private_group_name with
  | [] => inl (Undefined "G_private_to_names: name")
  | c0 :: name =>
      match strchr_hash name with
      | None => inl (Undefined "G_private_to_names: strchr")
      | Some (prvn, None) => inr None
      | Some (prvn, Some pn) =>
          if negb (has_nul pn) then inl (Undefined "G_private_to_names: strlen")
          else
            let pn := cstr pn in
            let priv_name_len := Z.of_nat (length prvn) in
            let proc_name_len := Z.of_nat (length pn) in
            if negb (c0 =? HASH) || (MAX_PRIVATE_NAME <? priv_name_len) || (priv_name_len <? 1)
               || (MAX_PROC_NAME <=? proc_name_len) || (proc_name_len <? 1) then inr None
            else if negb (forallb legal_char prvn && forallb legal_char pn) then inr None
            else inr (Some (prvn, pn))
      end
  end.

(** [snprintf( s, MAX_GROUP_NAME, "#%s#%s", ...)]. *)
Definition private_group (name proc_name : list Z) : list Z :=
  take (Z.to_nat (MAX_GROUP_NAME - 1)) (HASH :: name ++ HASH :: proc_name).

(* --------------------------------------------------------------------- *)
(** ** Strings *)

Section strings.
Implicit Types (a b s : list Z).

Lemma strcmp_refl a : strcmp a a = 0.
Proof. induction a as [|x a IH]; [done|]. cbn. by rewrite Z.ltb_irrefl. Qed.

Lemma strcmp_eq a b : strcmp a b = 0 <-> a = b.
Proof.
  split; [|intros ->; apply strcmp_refl]. revert b. induction a as [|x a IH]; intros [|y b]; cbn; try done.
  destruct (Z.ltb_spec x y), (Z.ltb_spec y x); try done. intros H1%IH. subst. f_equal. lia.
Qed.

Lemma strcmp_values a b : strcmp a b = -1 \/ strcmp a b = 0 \/ strcmp a b = 1.
Proof.
  revert b. induction a as [|x a IH]; intros [|y b]; cbn; auto.
  destruct (x <? y); [auto|]. destruct (y <? x); [auto|]. apply IH.
Qed.

Lemma strcmp_anti a b : strcmp b a = - strcmp a b.
Proof.
  revert b. induction a as [|x a IH]; intros [|y b]; cbn; try done.
  destruct (Z.ltb_spec x y), (Z.ltb_spec y x); try lia. apply IH.
Qed.

(** The order of the names. *)
Definition str_lt (a b : list Z) : Prop := strcmp a b < 0.

Lemma str_lt_trans a b (c : list Z) : str_lt a b -> str_lt b c -> str_lt a c.
Proof.
  unfold str_lt. revert b c. induction a as [|x a IH]; intros [|y b] [|z c]; cbn; try lia.
  destruct (Z.ltb_spec x y), (Z.ltb_spec y x), (Z.ltb_spec y z), (Z.ltb_spec z y), (Z.ltb_spec x z), (Z.ltb_spec z x); try lia.
  apply IH.
Qed.
#[export] Instance str_lt_transitive : Transitive str_lt.
Proof. intros a b c. apply str_lt_trans. Qed.

Lemma str_lt_irrefl a : ~ str_lt a a.
Proof. unfold str_lt. rewrite strcmp_refl. lia. Qed.

Lemma cstr_no_nul s : Forall (fun c => c <> 0) (cstr s).
Proof.
  induction s as [|c s IH]; [done|]. cbn. destruct (Z.eqb_spec c 0); [done|]. by constructor.
Qed.

Lemma cstr_app s b : Forall (fun c => c <> 0) s -> cstr (s ++ 0 :: b) = s.
Proof.
  induction 1 as [|c s Hc Hs IH]; [done|]. cbn. rewrite (proj2 (Z.eqb_neq _ _) Hc). by rewrite IH.
Qed.

Lemma legal_char_spec c : legal_char c = true <-> HASH < c <= TILDE.
Proof. unfold legal_char. rewrite andb_true_iff, Z.ltb_lt, Z.leb_le. done. Qed.

End strings.

(** A name of at most [n] legal characters. *)
Definition legal_name (n : Z) (s : list Z) : Prop :=
  0 < Z.of_nat (length s) <= n /\ forallb legal_char s = true.

Section names.
Implicit Types (s r : list Z).

Lemma legal_name_chars n s : legal_name n s -> Forall (fun c => HASH < c <= TILDE) s.
Proof.
  intros [_ Hs]. induction s as [|c s IH]; [constructor|]. cbn in Hs.
  apply andb_true_iff in Hs as [Hc%legal_char_spec Hs]. constructor; [done|by apply IH].
Qed.
Lemma legal_name_no_nul n s : legal_name n s -> Forall (fun c => c <> 0) s.
Proof. intros Hs%legal_name_chars. eapply Forall_impl; [exact Hs|]. cbn. unfold HASH. lia. Qed.

Lemma strchr_hash_app n s r : legal_name n s -> strchr_hash (s ++ HASH :: r) = Some (s, Some r).
Proof.
  intros Hs%legal_name_chars. induction Hs as [|c s Hc Hs IH]; [done|]. cbn in Hc |- *.
  unfold HASH in *. rewrite !(proj2 (Z.eqb_neq _ _)) by lia. by rewrite IH.
Qed.

Lemma has_nul_app s r : has_nul (s ++ 0 :: r) = true.
Proof. unfold has_nul. induction s as [|c s IH]; [done|]. cbn. rewrite IH. apply orb_true_r. Qed.

Lemma private_group_short name proc_name :
  legal_name MAX_PRIVATE_NAME name -> legal_name (MAX_PROC_NAME - 1) proc_name ->
  private_group name proc_name = HASH :: name ++ HASH :: proc_name.
Proof.
  intros [Hn _] [Hp _]. unfold private_group. apply take_ge. cbn [length]. rewrite length_app. cbn [length].
  unfold MAX_GROUP_NAME, MAX_PRIVATE_NAME, MAX_PROC_NAME in *. lia.
Qed.
End names.

(** The private group of a client.  From the name of a session and of a
    process, the field of [MAX_GROUP_NAME] characters the daemon and the
    client library put in a header names exactly these two again. *)
Theorem private_group_round_trip (name proc_name : list Z) :
  legal_name MAX_PRIVATE_NAME name -> legal_name (MAX_PROC_NAME - 1) proc_name ->
  let field := strncpy (private_group name proc_name) MAX_GROUP_NAME in
  Z.of_nat (length field) = MAX_GROUP_NAME /\ G_private_to_names field = inr (Some (name, proc_name)).
Proof.
  intros Hn Hp field. assert (Hg : MAX_GROUP_NAME = 32) by done.
  assert (Hnl : MAX_PRIVATE_NAME = 10) by done. assert (Hpl : MAX_PROC_NAME = 20) by done.
  unfold field, strncpy. rewrite length_resize, Z2Nat.id by lia. split; [done|].
  rewrite private_group_short by done. set (full := HASH :: name ++ HASH :: proc_name).
  pose proof Hn as [Hn1 Hn2]. pose proof Hp as [Hp1 Hp2].
  assert (Hnul : Forall (fun c => c <> 0) full).
  { constructor; [done|]. apply Forall_app. split; [by eapply legal_name_no_nul|].
    constructor; [done|by eapply legal_name_no_nul]. }
  assert (Hc : cstr full = full).
  { clear -Hnul. induction Hnul as [|c s Hc Hs IH]; [done|]. cbn. rewrite (proj2 (Z.eqb_neq _ _) Hc). by rewrite IH. }
  rewrite Hc. assert (Hlen : (length full < 32)%nat) by (unfold full; cbn [length]; rewrite length_app; cbn [length]; lia).
  rewrite Hg. change (Z.to_nat 32) with 32%nat. rewrite resize_ge by lia.
  destruct (32 - length full)%nat as [|k] eqn:Hk; [lia|]. cbn [replicate]. unfold full.
  replace ((HASH :: name ++ HASH :: proc_name) ++ 0 :: replicate k 0)
    with (HASH :: name ++ HASH :: proc_name ++ 0 :: replicate k 0) by (cbn; by rewrite <- app_assoc).
  cbn [G_private_to_names]. rewrite (strchr_hash_app MAX_PRIVATE_NAME) by done.
  rewrite has_nul_app. cbn [negb]. rewrite cstr_app by by eapply legal_name_no_nul.
  rewrite Z.eqb_refl. cbn [negb orb]. rewrite Hn2, Hp2, Hnl, Hpl.
  rewrite !(proj2 (Z.ltb_ge _ _)), (proj2 (Z.leb_gt _ _)) by lia. done.
Qed.

Lemma private_group_round_trip_witness :
  let field := strncpy (private_group [97; 98; 99] [109; 49]) MAX_GROUP_NAME in
  Z.of_nat (length field) = MAX_GROUP_NAME /\ G_private_to_names field = inr (Some ([97; 98; 99], [109; 49])).
Proof.
  apply (private_group_round_trip [97; 98; 99] [109; 49]); (split; [vm_compute; split; congruence|reflexivity]).
Defined.
