(* ===== verification/GroupState.v ===== *)
(** * The state of the groups component ([daemon/groups.c], [daemon/sess_body.h])

    What a daemon knows of the process groups: for every group the daemons
    that have members of it, for every such daemon the private group names of
    these members, and the mailboxes of the local ones.  The skip lists of
    the code are lists here, in the order of their keys; what holds of them is
    in [Skl].  A pointer to a group is the group itself, which is written back
    under its name. *)

From Stdlib Require Import ZArith Lia.
From stdpp Require Import base strings numbers option gmap list.
From S2P Require Import Prelude Wire Bytes Config Events State Message.

(** [arch.h]. *)
Record group_id : Type := mkGroupId { gi_memb_id : membership_id; gi_index : Z }.

(** A private group name: [MAX_GROUP_NAME] characters. *)
Definition member : Type := list Z.

Record daemon_members : Type := mkDaemonMembers {
  dm_proc_id : Z;  (* int32 *)
  dm_memb_id : membership_id;
  dm_MembersList : list member;
}.
Definition set_dm_memb_id (x : membership_id) (r : daemon_members) : daemon_members :=
  mkDaemonMembers (dm_proc_id r) x (dm_MembersList r).
Definition set_dm_MembersList (x : list member) (r : daemon_members) : daemon_members :=
  mkDaemonMembers (dm_proc_id r) (dm_memb_id r) x.

Record group : Type := mkGroup {
  gr_name : list Z;  (* char[MAX_GROUP_NAME] *)
  gr_grp_id : group_id;
  gr_changed : bool;
  gr_num_members : Z;
  gr_DaemonsList : list daemon_members;
  gr_mboxes : list Z;  (* local clients *)
}.

Definition set_gr_name (x : list Z) (r : group) : group :=
  mkGroup x (gr_grp_id r) (gr_changed r) (gr_num_members r) (gr_DaemonsList r) (gr_mboxes
    r).
Definition set_gr_grp_id (x : group_id) (r : group) : group :=
  mkGroup (gr_name r) x (gr_changed r) (gr_num_members r) (gr_DaemonsList r) (gr_mboxes
    r).
Definition set_gr_changed (x : bool) (r : group) : group :=
  mkGroup (gr_name r) (gr_grp_id r) x (gr_num_members r) (gr_DaemonsList r) (gr_mboxes r).
Definition set_gr_num_members (x : Z) (r : group) : group :=
  mkGroup (gr_name r) (gr_grp_id r) (gr_changed r) x (gr_DaemonsList r) (gr_mboxes r).
Definition set_gr_DaemonsList (x : list daemon_members) (r : group) : group :=
  mkGroup (gr_name r) (gr_grp_id r) (gr_changed r) (gr_num_members r) x (gr_mboxes r).
Definition set_gr_mboxes (x : list Z) (r : group) : group :=
  mkGroup (gr_name r) (gr_grp_id r) (gr_changed r) (gr_num_members r) (gr_DaemonsList r)
    x.

(** The state of the component: regular, after a transitional membership,
    gathering the state of the others, and gathering while another
    transitional membership has come. *)
Inductive gstate : Type := GOP | GTRANS | GGATHER | GGT.
#[export] Instance gstate_eq_dec : EqDecision gstate.
Proof. solve_decision. Defined.
Definition gstate_code (g : gstate) : Z :=
  match g with GOP => 1 | GTRANS => 2 | GGATHER => 3 | GGT => 4 end.

(** The groups messages of one synced set, the last that came first. *)
Record groups_message_link : Type := mkGroupsMessageLink {
  gl_rep_proc_id : Z;  (* int32 *)
  gl_complete : bool;
  gl_messages : list message_obj;
}.

Record groups_state : Type := mkGroupsState {
  Cn_active : configuration;
  Gstate : gstate;
  G_Trans_memb : configuration;
  G_Trans_memb_id : membership_id;
  G_Reg_memb : configuration;
  G_Reg_memb_id : membership_id;
  Groups_bufs : list buf;  (* the first [bytes] of each, the last built first *)
  Groups_bufs_fresh : bool;
  Num_mess_gathered : Z;
  Num_daemons_gathered : Z;
  Gathered_complete : bool;
  Gathered : list groups_message_link;  (* Gathered.next ... *)
  GroupsList : list group;
  MySyncedSet : list Z;  (* proc_ids[0 .. size) *)
  Num_groups : Z;
  g_My_id : Z;  (* My.id *)
}.

Definition set_Cn_active (x : configuration) (r : groups_state) : groups_state :=
  mkGroupsState x (Gstate r) (G_Trans_memb r) (G_Trans_memb_id r) (G_Reg_memb r)
    (G_Reg_memb_id r) (Groups_bufs r) (Groups_bufs_fresh r) (Num_mess_gathered r)
    (Num_daemons_gathered r) (Gathered_complete r) (Gathered r) (GroupsList r)
    (MySyncedSet r) (Num_groups r) (g_My_id r).
Definition set_Gstate (x : gstate) (r : groups_state) : groups_state :=
  mkGroupsState (Cn_active r) x (G_Trans_memb r) (G_Trans_memb_id r) (G_Reg_memb r)
    (G_Reg_memb_id r) (Groups_bufs r) (Groups_bufs_fresh r) (Num_mess_gathered r)
    (Num_daemons_gathered r) (Gathered_complete r) (Gathered r) (GroupsList r)
    (MySyncedSet r) (Num_groups r) (g_My_id r).
Definition set_G_Trans_memb (x : configuration) (r : groups_state) : groups_state :=
  mkGroupsState (Cn_active r) (Gstate r) x (G_Trans_memb_id r) (G_Reg_memb r)
    (G_Reg_memb_id r) (Groups_bufs r) (Groups_bufs_fresh r) (Num_mess_gathered r)
    (Num_daemons_gathered r) (Gathered_complete r) (Gathered r) (GroupsList r)
    (MySyncedSet r) (Num_groups r) (g_My_id r).
Definition set_G_Trans_memb_id (x : membership_id) (r : groups_state) : groups_state :=
  mkGroupsState (Cn_active r) (Gstate r) (G_Trans_memb r) x (G_Reg_memb r) (G_Reg_memb_id
    r) (Groups_bufs r) (Groups_bufs_fresh r) (Num_mess_gathered r) (Num_daemons_gathered
    r) (Gathered_complete r) (Gathered r) (GroupsList r) (MySyncedSet r) (Num_groups r)
    (g_My_id r).
Definition set_G_Reg_memb (x : configuration) (r : groups_state) : groups_state :=
  mkGroupsState (Cn_active r) (Gstate r) (G_Trans_memb r) (G_Trans_memb_id r) x
    (G_Reg_memb_id r) (Groups_bufs r) (Groups_bufs_fresh r) (Num_mess_gathered r)
    (Num_daemons_gathered r) (Gathered_complete r) (Gathered r) (GroupsList r)
    (MySyncedSet r) (Num_groups r) (g_My_id r).
Definition set_G_Reg_memb_id (x : membership_id) (r : groups_state) : groups_state :=
  mkGroupsState (Cn_active r) (Gstate r) (G_Trans_memb r) (G_Trans_memb_id r) (G_Reg_memb
    r) x (Groups_bufs r) (Groups_bufs_fresh r) (Num_mess_gathered r) (Num_daemons_gathered
    r) (Gathered_complete r) (Gathered r) (GroupsList r) (MySyncedSet r) (Num_groups r)
    (g_My_id r).
Definition set_Groups_bufs (x : list buf) (r : groups_state) : groups_state :=
  mkGroupsState (Cn_active r) (Gstate r) (G_Trans_memb r) (G_Trans_memb_id r) (G_Reg_memb
    r) (G_Reg_memb_id r) x (Groups_bufs_fresh r) (Num_mess_gathered r)
    (Num_daemons_gathered r) (Gathered_complete r) (Gathered r) (GroupsList r)
    (MySyncedSet r) (Num_groups r) (g_My_id r).
Definition set_Groups_bufs_fresh (x : bool) (r : groups_state) : groups_state :=
  mkGroupsState (Cn_active r) (Gstate r) (G_Trans_memb r) (G_Trans_memb_id r) (G_Reg_memb
    r) (G_Reg_memb_id r) (Groups_bufs r) x (Num_mess_gathered r) (Num_daemons_gathered r)
    (Gathered_complete r) (Gathered r) (GroupsList r) (MySyncedSet r) (Num_groups r)
    (g_My_id r).
Definition set_Num_mess_gathered (x : Z) (r : groups_state) : groups_state :=
  mkGroupsState (Cn_active r) (Gstate r) (G_Trans_memb r) (G_Trans_memb_id r) (G_Reg_memb
    r) (G_Reg_memb_id r) (Groups_bufs r) (Groups_bufs_fresh r) x (Num_daemons_gathered r)
    (Gathered_complete r) (Gathered r) (GroupsList r) (MySyncedSet r) (Num_groups r)
    (g_My_id r).
Definition set_Num_daemons_gathered (x : Z) (r : groups_state) : groups_state :=
  mkGroupsState (Cn_active r) (Gstate r) (G_Trans_memb r) (G_Trans_memb_id r) (G_Reg_memb
    r) (G_Reg_memb_id r) (Groups_bufs r) (Groups_bufs_fresh r) (Num_mess_gathered r) x
    (Gathered_complete r) (Gathered r) (GroupsList r) (MySyncedSet r) (Num_groups r)
    (g_My_id r).
Definition set_Gathered_complete (x : bool) (r : groups_state) : groups_state :=
  mkGroupsState (Cn_active r) (Gstate r) (G_Trans_memb r) (G_Trans_memb_id r) (G_Reg_memb
    r) (G_Reg_memb_id r) (Groups_bufs r) (Groups_bufs_fresh r) (Num_mess_gathered r)
    (Num_daemons_gathered r) x (Gathered r) (GroupsList r) (MySyncedSet r) (Num_groups r)
    (g_My_id r).
Definition set_Gathered (x : list groups_message_link) (r : groups_state) : groups_state :=
  mkGroupsState (Cn_active r) (Gstate r) (G_Trans_memb r) (G_Trans_memb_id r) (G_Reg_memb
    r) (G_Reg_memb_id r) (Groups_bufs r) (Groups_bufs_fresh r) (Num_mess_gathered r)
    (Num_daemons_gathered r) (Gathered_complete r) x (GroupsList r) (MySyncedSet r)
    (Num_groups r) (g_My_id r).
Definition set_GroupsList (x : list group) (r : groups_state) : groups_state :=
  mkGroupsState (Cn_active r) (Gstate r) (G_Trans_memb r) (G_Trans_memb_id r) (G_Reg_memb
    r) (G_Reg_memb_id r) (Groups_bufs r) (Groups_bufs_fresh r) (Num_mess_gathered r)
    (Num_daemons_gathered r) (Gathered_complete r) (Gathered r) x (MySyncedSet r)
    (Num_groups r) (g_My_id r).
Definition set_MySyncedSet (x : list Z) (r : groups_state) : groups_state :=
  mkGroupsState (Cn_active r) (Gstate r) (G_Trans_memb r) (G_Trans_memb_id r) (G_Reg_memb
    r) (G_Reg_memb_id r) (Groups_bufs r) (Groups_bufs_fresh r) (Num_mess_gathered r)
    (Num_daemons_gathered r) (Gathered_complete r) (Gathered r) (GroupsList r) x
    (Num_groups r) (g_My_id r).
Definition set_Num_groups (x : Z) (r : groups_state) : groups_state :=
  mkGroupsState (Cn_active r) (Gstate r) (G_Trans_memb r) (G_Trans_memb_id r) (G_Reg_memb
    r) (G_Reg_memb_id r) (Groups_bufs r) (Groups_bufs_fresh r) (Num_mess_gathered r)
    (Num_daemons_gathered r) (Gathered_complete r) (Gathered r) (GroupsList r)
    (MySyncedSet r) x (g_My_id r).
Definition set_g_My_id (x : Z) (r : groups_state) : groups_state :=
  mkGroupsState (Cn_active r) (Gstate r) (G_Trans_memb r) (G_Trans_memb_id r) (G_Reg_memb
    r) (G_Reg_memb_id r) (Groups_bufs r) (Groups_bufs_fresh r) (Num_mess_gathered r)
    (Num_daemons_gathered r) (Gathered_complete r) (Gathered r) (GroupsList r)
    (MySyncedSet r) (Num_groups r) x.

(** [unknown_memb_id]: a daemon that is partitioned from this one. *)
Definition unknown_memb_id : membership_id := mkMembId (-1) (-1).
Definition no_config : configuration := mkConfiguration 0 [] [].
(** The variables before [G_init]. *)
Definition no_groups : groups_state :=
  mkGroupsState no_config GOP no_config (mkMembId 0 0) no_config (mkMembId 0 0) [] false 0 0 false [] [] [] 0 0.
