(* ===== verification/SessState.v ===== *)
(** * The state of the session layer ([daemon/session.c], [daemon/sess_body.h])

    Sessions in a fixed array, linked by index in three ways: the list sorted
    by private name, the hash chains by mailbox and the free list.  The state
    of a computation of the session layer is this state beside the [world] of
    the core, whose functions it calls; sockets are streams of bytes with the
    results of [recv] and [send] as inputs of the model. *)

From Stdlib Require Import ZArith Lia.
From stdpp Require Import base strings numbers option gmap list.
From S2P Require Import Prelude Wire Bytes Config Events EventsFd State Network FlowControl MembSets MembCore ProtSend.
From S2P Require Import Retrans Requests Packing Deliver Delivery Sending EndToEnd Message Names GroupState.

Definition MAX_SESSIONS : Z := (MAX_FD_EVENTS - 5) / 2.

(** Status bits ([sess_body.h]). *)
Definition MEMB_SESSION : Z := 0x1.
Definition OP_SESSION : Z := 0x10.
Definition PRE_AUTH_SESSION : Z := 0x100.
Definition Is_session (k status : Z) : bool := truth (Z.land status k).
Definition Set_session (k status : Z) : Z := Z.lor status k.
Definition Clear_session (k status : Z) : Z := Z.land status (Z.lnot k).

(** Responses to a client that connects ([sess_types.h]). *)
Definition ACCEPT_SESSION : Z := 1.
Definition REJECT_QUOTA : Z := -3.
Definition REJECT_ILLEGAL_NAME : Z := -5.
Definition REJECT_NOT_UNIQUE : Z := -6.
Definition REJECT_VERSION : Z := -7.
Definition REJECT_AUTH : Z := -9.

(** Pointers to sessions: indices in [Sessions], [None] for [NULL]. *)
Record session : Type := mkSession {
  s_name : list Z;  (* the characters before the nul *)
  s_lib_version : Z * Z * Z;
  s_status : Z;
  s_priority : Z;
  s_mbox : Z;
  s_read : partial_message_info;
  s_read_mess : option message_obj;
  s_num_mess : Z;
  s_write : partial_message_info;
  s_queue : list message_obj;  (* first ... last *)
  s_sort_prev : option Z;
  s_sort_next : option Z;
  s_hash_next : option Z;
}.

Definition no_session : session :=
  mkSession [] (0, 0, 0) 0 0 (-1) Message_reset_current_location None 0 Message_reset_current_location [] None None None.

Definition set_s_name (x : list Z) (r : session) : session :=
  mkSession x (s_lib_version r) (s_status r) (s_priority r) (s_mbox r) (s_read r) (s_read_mess r) (s_num_mess r) (s_write r) (s_queue r) (s_sort_prev r) (s_sort_next r) (s_hash_next r).
Definition set_s_lib_version (x : Z * Z * Z) (r : session) : session :=
  mkSession (s_name r) x (s_status r) (s_priority r) (s_mbox r) (s_read r) (s_read_mess r) (s_num_mess r) (s_write r) (s_queue r) (s_sort_prev r) (s_sort_next r) (s_hash_next r).
Definition set_s_status (x : Z) (r : session) : session :=
  mkSession (s_name r) (s_lib_version r) x (s_priority r) (s_mbox r) (s_read r) (s_read_mess r) (s_num_mess r) (s_write r) (s_queue r) (s_sort_prev r) (s_sort_next r) (s_hash_next r).
Definition set_s_priority (x : Z) (r : session) : session :=
  mkSession (s_name r) (s_lib_version r) (s_status r) x (s_mbox r) (s_read r) (s_read_mess r) (s_num_mess r) (s_write r) (s_queue r) (s_sort_prev r) (s_sort_next r) (s_hash_next r).
Definition set_s_mbox (x : Z) (r : session) : session :=
  mkSession (s_name r) (s_lib_version r) (s_status r) (s_priority r) x (s_read r) (s_read_mess r) (s_num_mess r) (s_write r) (s_queue r) (s_sort_prev r) (s_sort_next r) (s_hash_next r).
Definition set_s_read (x : partial_message_info) (r : session) : session :=
  mkSession (s_name r) (s_lib_version r) (s_status r) (s_priority r) (s_mbox r) x (s_read_mess r) (s_num_mess r) (s_write r) (s_queue r) (s_sort_prev r) (s_sort_next r) (s_hash_next r).
Definition set_s_read_mess (x : option message_obj) (r : session) : session :=
  mkSession (s_name r) (s_lib_version r) (s_status r) (s_priority r) (s_mbox r) (s_read r) x (s_num_mess r) (s_write r) (s_queue r) (s_sort_prev r) (s_sort_next r) (s_hash_next r).
Definition set_s_num_mess (x : Z) (r : session) : session :=
  mkSession (s_name r) (s_lib_version r) (s_status r) (s_priority r) (s_mbox r) (s_read r) (s_read_mess r) x (s_write r) (s_queue r) (s_sort_prev r) (s_sort_next r) (s_hash_next r).
Definition set_s_write (x : partial_message_info) (r : session) : session :=
  mkSession (s_name r) (s_lib_version r) (s_status r) (s_priority r) (s_mbox r) (s_read r) (s_read_mess r) (s_num_mess r) x (s_queue r) (s_sort_prev r) (s_sort_next r) (s_hash_next r).
Definition set_s_queue (x : list message_obj) (r : session) : session :=
  mkSession (s_name r) (s_lib_version r) (s_status r) (s_priority r) (s_mbox r) (s_read r) (s_read_mess r) (s_num_mess r) (s_write r) x (s_sort_prev r) (s_sort_next r) (s_hash_next r).
Definition set_s_sort_prev (x : option Z) (r : session) : session :=
  mkSession (s_name r) (s_lib_version r) (s_status r) (s_priority r) (s_mbox r) (s_read r) (s_read_mess r) (s_num_mess r) (s_write r) (s_queue r) x (s_sort_next r) (s_hash_next r).
Definition set_s_sort_next (x : option Z) (r : session) : session :=
  mkSession (s_name r) (s_lib_version r) (s_status r) (s_priority r) (s_mbox r) (s_read r) (s_read_mess r) (s_num_mess r) (s_write r) (s_queue r) (s_sort_prev r) x (s_hash_next r).
Definition set_s_hash_next (x : option Z) (r : session) : session :=
  mkSession (s_name r) (s_lib_version r) (s_status r) (s_priority r) (s_mbox r) (s_read r) (s_read_mess r) (s_num_mess r) (s_write r) (s_queue r) (s_sort_prev r) (s_sort_next r) x.

(** Calls to the groups and authentication components. *)
Inductive sess_call : Type :=
| Call_G_handle_join (private_group_name group_name : list Z)
| Call_G_handle_leave (private_group_name group_name : list Z)
| Call_G_handle_kill (private_group_name : list Z)
| Call_G_handle_groups (m : message_obj)
| Call_auth_open (auth_id : Z) (mbox : Z).

(** The variables of [session.c], and the sockets: for each mailbox the bytes
    its client will have sent and those it was sent; the results to come of
    [recv] and [send], at most as many bytes, 0 at the end of the stream, -1
    when the call would block and less on an error; the closed mailboxes. *)
Record sess_state : Type := mkSessState {
  Sessions : gmap Z session;
  Sessions_hash_head : gmap Z Z;
  Sessions_head : option Z;
  Sessions_tail : option Z;
  Sessions_free : option Z;
  Num_sessions : Z;
  Session_threshold : Z;
  Protocol_threshold : Z;
  sx_My_name : list Z;
  so_in : gmap Z (list Z);
  so_recv : list Z;
  so_send : list Z;
  so_out : gmap Z (list Z);
  so_closed : list Z;
  sess_calls : list sess_call;
  Message_delivered : Z;  (* GlobalStatus.message_delivered *)
}.

Definition set_Sessions (x : gmap Z session) (r : sess_state) : sess_state :=
  mkSessState x (Sessions_hash_head r) (Sessions_head r) (Sessions_tail r) (Sessions_free r) (Num_sessions r) (Session_threshold r) (Protocol_threshold r) (sx_My_name r) (so_in r) (so_recv r) (so_send r) (so_out r) (so_closed r) (sess_calls r) (Message_delivered r).
Definition set_Sessions_hash_head (x : gmap Z Z) (r : sess_state) : sess_state :=
  mkSessState (Sessions r) x (Sessions_head r) (Sessions_tail r) (Sessions_free r) (Num_sessions r) (Session_threshold r) (Protocol_threshold r) (sx_My_name r) (so_in r) (so_recv r) (so_send r) (so_out r) (so_closed r) (sess_calls r) (Message_delivered r).
Definition set_Sessions_head (x : option Z) (r : sess_state) : sess_state :=
  mkSessState (Sessions r) (Sessions_hash_head r) x (Sessions_tail r) (Sessions_free r) (Num_sessions r) (Session_threshold r) (Protocol_threshold r) (sx_My_name r) (so_in r) (so_recv r) (so_send r) (so_out r) (so_closed r) (sess_calls r) (Message_delivered r).
Definition set_Sessions_tail (x : option Z) (r : sess_state) : sess_state :=
  mkSessState (Sessions r) (Sessions_hash_head r) (Sessions_head r) x (Sessions_free r) (Num_sessions r) (Session_threshold r) (Protocol_threshold r) (sx_My_name r) (so_in r) (so_recv r) (so_send r) (so_out r) (so_closed r) (sess_calls r) (Message_delivered r).
Definition set_Sessions_free (x : option Z) (r : sess_state) : sess_state :=
  mkSessState (Sessions r) (Sessions_hash_head r) (Sessions_head r) (Sessions_tail r) x (Num_sessions r) (Session_threshold r) (Protocol_threshold r) (sx_My_name r) (so_in r) (so_recv r) (so_send r) (so_out r) (so_closed r) (sess_calls r) (Message_delivered r).
Definition set_Num_sessions (x : Z) (r : sess_state) : sess_state :=
  mkSessState (Sessions r) (Sessions_hash_head r) (Sessions_head r) (Sessions_tail r) (Sessions_free r) x (Session_threshold r) (Protocol_threshold r) (sx_My_name r) (so_in r) (so_recv r) (so_send r) (so_out r) (so_closed r) (sess_calls r) (Message_delivered r).
Definition set_Session_threshold (x : Z) (r : sess_state) : sess_state :=
  mkSessState (Sessions r) (Sessions_hash_head r) (Sessions_head r) (Sessions_tail r) (Sessions_free r) (Num_sessions r) x (Protocol_threshold r) (sx_My_name r) (so_in r) (so_recv r) (so_send r) (so_out r) (so_closed r) (sess_calls r) (Message_delivered r).
Definition set_Protocol_threshold (x : Z) (r : sess_state) : sess_state :=
  mkSessState (Sessions r) (Sessions_hash_head r) (Sessions_head r) (Sessions_tail r) (Sessions_free r) (Num_sessions r) (Session_threshold r) x (sx_My_name r) (so_in r) (so_recv r) (so_send r) (so_out r) (so_closed r) (sess_calls r) (Message_delivered r).
Definition set_sx_My_name (x : list Z) (r : sess_state) : sess_state :=
  mkSessState (Sessions r) (Sessions_hash_head r) (Sessions_head r) (Sessions_tail r) (Sessions_free r) (Num_sessions r) (Session_threshold r) (Protocol_threshold r) x (so_in r) (so_recv r) (so_send r) (so_out r) (so_closed r) (sess_calls r) (Message_delivered r).
Definition set_so_in (x : gmap Z (list Z)) (r : sess_state) : sess_state :=
  mkSessState (Sessions r) (Sessions_hash_head r) (Sessions_head r) (Sessions_tail r) (Sessions_free r) (Num_sessions r) (Session_threshold r) (Protocol_threshold r) (sx_My_name r) x (so_recv r) (so_send r) (so_out r) (so_closed r) (sess_calls r) (Message_delivered r).
Definition set_so_recv (x : list Z) (r : sess_state) : sess_state :=
  mkSessState (Sessions r) (Sessions_hash_head r) (Sessions_head r) (Sessions_tail r) (Sessions_free r) (Num_sessions r) (Session_threshold r) (Protocol_threshold r) (sx_My_name r) (so_in r) x (so_send r) (so_out r) (so_closed r) (sess_calls r) (Message_delivered r).
Definition set_so_send (x : list Z) (r : sess_state) : sess_state :=
  mkSessState (Sessions r) (Sessions_hash_head r) (Sessions_head r) (Sessions_tail r) (Sessions_free r) (Num_sessions r) (Session_threshold r) (Protocol_threshold r) (sx_My_name r) (so_in r) (so_recv r) x (so_out r) (so_closed r) (sess_calls r) (Message_delivered r).
Definition set_so_out (x : gmap Z (list Z)) (r : sess_state) : sess_state :=
  mkSessState (Sessions r) (Sessions_hash_head r) (Sessions_head r) (Sessions_tail r) (Sessions_free r) (Num_sessions r) (Session_threshold r) (Protocol_threshold r) (sx_My_name r) (so_in r) (so_recv r) (so_send r) x (so_closed r) (sess_calls r) (Message_delivered r).
Definition set_so_closed (x : list Z) (r : sess_state) : sess_state :=
  mkSessState (Sessions r) (Sessions_hash_head r) (Sessions_head r) (Sessions_tail r) (Sessions_free r) (Num_sessions r) (Session_threshold r) (Protocol_threshold r) (sx_My_name r) (so_in r) (so_recv r) (so_send r) (so_out r) x (sess_calls r) (Message_delivered r).
Definition set_sess_calls (x : list sess_call) (r : sess_state) : sess_state :=
  mkSessState (Sessions r) (Sessions_hash_head r) (Sessions_head r) (Sessions_tail r) (Sessions_free r) (Num_sessions r) (Session_threshold r) (Protocol_threshold r) (sx_My_name r) (so_in r) (so_recv r) (so_send r) (so_out r) (so_closed r) x (Message_delivered r).

Definition set_Message_delivered (x : Z) (r : sess_state) : sess_state :=
  mkSessState (Sessions r) (Sessions_hash_head r) (Sessions_head r) (Sessions_tail r) (Sessions_free r) (Num_sessions r) (Session_threshold r) (Protocol_threshold r) (sx_My_name r) (so_in r) (so_recv r) (so_send r) (so_out r) (so_closed r) (sess_calls r) x.

(** The session layer, the core under it and the groups above it. *)
Record sess_world : Type := mkSessWorld { ss : sess_state; core : world; gs : groups_state }.

Abbreviation MS := (M sess_world).

Definition s_do (f : sess_state -> sess_state) : MS unit := modify (fun w => mkSessWorld (f (ss w)) (core w) (gs w)).
(** A function of the core. *)
Definition on_core {A} (m : M world A) : MS A := fun w =>
  match m (core w) with
  | Done a c => Done a (mkSessWorld (ss w) c (gs w))
  | Failed e => Failed e
  end.

Definition g_do (f : groups_state -> groups_state) : MS unit := modify (fun w => mkSessWorld (ss w) (core w) (f (gs w))).

Definition ses (s : sess_state) (i : Z) : session := default no_session (Sessions s !! i).
(** Update the session [i]. *)
Definition upd (i : Z) (f : session -> session) (s : sess_state) : sess_state :=
  set_Sessions (<[i := f (ses s i)]> (Sessions s)) s.
Definition ses_do (i : Z) (f : session -> session) : MS unit := s_do (upd i f).

Definition Sess_call (c : sess_call) : MS unit := s_do (fun s => set_sess_calls (sess_calls s ++ [c]) s).

(** ** Sockets *)

Definition in_bytes (s : sess_state) (mbox : Z) : list Z := default [] (so_in s !! mbox).
Definition out_bytes (s : sess_state) (mbox : Z) : list Z := default [] (so_out s !! mbox).

(** What the next call to [recv] or [send] gives; an exhausted input blocks. *)
Definition next_result (l : list Z) : Z := default (-1) (head l).

(** [recv( mbox, buf, n, 0 )]: the return value and the bytes. *)
Definition recv (mbox n : Z) : MS (Z * list Z) :=
  let* w := get in
  let k := next_result (so_recv (ss w)) in
  s_do (fun s => set_so_recv (tail (so_recv s)) s) ;;
  if k <=? 0 then ret (k, [])
  else
    let bs := take (Z.to_nat (Z.min k n)) (in_bytes (ss w) mbox) in
    if Z.of_nat (length bs) =? 0 then ret (-1, [])
    else
      s_do (fun s => set_so_in (<[mbox := drop (length bs) (in_bytes s mbox)]> (so_in s)) s) ;;
      ret (Z.of_nat (length bs), bs).
(** [ret == -1] with [EINTR], [EAGAIN] or [EWOULDBLOCK]. *)
Definition would_block (ret : Z) : bool := ret =? -1.

(** [send( mbox, buf, n, 0 )]. *)
Definition send (mbox : Z) (bs : list Z) : MS Z :=
  let* w := get in
  let k := next_result (so_send (ss w)) in
  s_do (fun s => set_so_send (tail (so_send s)) s) ;;
  if k <? 0 then ret (-1)
  else
    let bs := take (Z.to_nat k) bs in
    s_do (fun s => set_so_out (<[mbox := out_bytes s mbox ++ bs]> (so_out s)) s) ;;
    ret (Z.of_nat (length bs)).

Definition close (mbox : Z) : MS unit := s_do (fun s => set_so_closed (so_closed s ++ [mbox]) s).

(** ** Events of the session layer *)

Definition Sess_badger_TO : ev_func := Other_event 1.
Definition Sess_accept_continue2 : ev_func := Other_event 2.
Definition Sess_read_fd : fd_func := Other_fd 1.
Definition Sess_badger_FD : fd_func := Other_fd 2.
Definition Sess_accept_fd : fd_func := Other_fd 3.
Definition Sess_accept_continue_fd : fd_func := Other_fd 4.
Definition Sess_recv_client_auth_fd : fd_func := Other_fd 5.
Definition Badger_timeout : sp_time := mkTime 0 100000.

Definition attach_fd (fd fd_type : Z) (func : fd_func) : MS unit :=
  on_core (in_ev (E_attach_fd fd fd_type func 0 0 LOW_PRIORITY)) ;; ret tt.
Definition detach_fd (fd fd_type : Z) : MS unit := on_core (in_ev (E_detach_fd fd fd_type)) ;; ret tt.
