(* ===== verification/SessTable.v ===== *)
(** * The table of sessions ([daemon/session.c])

    The sessions are linked by index through three kinds of lists; the
    operations below are the pointer manipulations of the code.  They
    implement a table sorted by private name in which a session is found by
    its name or by its mailbox. *)

From Stdlib Require Import ZArith Lia.
From stdpp Require Import base strings numbers option gmap list sorting.
From S2P Require Import Prelude Wire Bytes Config Events State Network FlowControl MembSets MembCore ProtSend.
From S2P Require Import Retrans Requests Packing Deliver Delivery Sending EndToEnd Message Names SessState.

(** What a loop along a list may need: every session once. *)
Definition LIST_FUEL : nat := S (Z.to_nat MAX_SESSIONS).

Definition Sess_free_session (i : Z) (s : sess_state) : sess_state :=
  set_Sessions_free (Some i) (upd i (set_s_sort_next (Sessions_free s)) s).

Definition Sess_init_sessions (s : sess_state) : sess_state :=
  foldl (fun s i => Sess_free_session i s)
    (set_Sessions_free None (set_Sessions_head None (set_Sessions_tail None (set_Sessions_hash_head ∅ s))))
    (seqZ 0 MAX_SESSIONS).

(** The xor of the bytes of the mailbox. *)
Definition fd_hash (mbox : Z) : Z :=
  let m := u32 mbox in
  Z.lxor (Z.lxor (Z.lxor (Z.land m 0xff) (Z.land (Z.shiftr m 8) 0xff)) (Z.land (Z.shiftr m 16) 0xff))
    (Z.land (Z.shiftr m 24) 0xff).

Definition set_hash_head (b : Z) (p : option Z) (s : sess_state) : sess_state :=
  set_Sessions_hash_head (partial_alter (fun _ => p) b (Sessions_hash_head s)) s.

Definition Sess_hash_session (i : Z) (s : sess_state) : sess_state :=
  let b := fd_hash (s_mbox (ses s i)) in
  set_hash_head b (Some i) (upd i (set_s_hash_next (Sessions_hash_head s !! b)) s).

(** [for (; tmp->hash_next != ses; tmp = tmp->hash_next);] *)
Fixpoint hash_before (fuel : nat) (s : sess_state) (tmp : option Z) (i : Z) : res Z :=
  match fuel, tmp with
  | _, None => inl (Undefined "Sess_unhash_session: NULL")
  | O, _ => inl (Diverges "Sess_unhash_session")
  | S fuel, Some t =>
      if decide (s_hash_next (ses s t) = Some i) then inr t else hash_before fuel s (s_hash_next (ses s t)) i
  end.

Definition Sess_unhash_session (i : Z) (s : sess_state) : res sess_state :=
  let b := fd_hash (s_mbox (ses s i)) in
  let tmp := Sessions_hash_head s !! b in
  if decide (tmp = Some i) then inr (upd i (set_s_hash_next None) (set_hash_head b (s_hash_next (ses s i)) s))
  else
    let? t := hash_before LIST_FUEL s tmp i in
    inr (upd i (set_s_hash_next None) (upd t (set_s_hash_next (s_hash_next (ses s i))) s)).

Definition Sess_get_free_session (s : sess_state) : res (Z * sess_state) :=
  match Sessions_free s with
  | None => inl (Undefined "Sess_get_free_session: NULL")
  | Some i => inr (i, set_Sessions_free (s_sort_next (ses s i)) s)
  end.

(** A copy of [template], just before [where] in the list, or at its end. *)
Definition Sess_insert_new_session (where_ : option Z) (template : session) (s : sess_state) : res (Z * sess_state) :=
  let? '(new_ses, s) := Sess_get_free_session s in
  let s := upd new_ses (fun _ => template) s in
  let s :=
    match where_ with
    | None =>
        let s := upd new_ses (set_s_sort_next None) s in
        match Sessions_tail s with
        | None => set_Sessions_head (Some new_ses) (set_Sessions_tail (Some new_ses) (upd new_ses (set_s_sort_prev None) s))
        | Some t =>
            set_Sessions_tail (Some new_ses)
              (upd t (set_s_sort_next (Some new_ses)) (upd new_ses (set_s_sort_prev (Some t)) s))
        end
    | Some w =>
        let s := upd new_ses (set_s_sort_next (Some w)) s in
        let prev := s_sort_prev (ses s w) in
        let s := upd w (set_s_sort_prev (Some new_ses)) (upd new_ses (set_s_sort_prev prev) s) in
        match prev with
        | None => set_Sessions_head (Some new_ses) s
        | Some p => upd p (set_s_sort_next (Some new_ses)) s
        end
    end in
  inr (new_ses, s).

Definition Sess_remove_session (i : Z) (s : sess_state) : sess_state :=
  let s1 :=
    match s_sort_prev (ses s i), s_sort_next (ses s i) with
    | None, None => set_Sessions_tail None (set_Sessions_head None s)
    | None, Some n => upd n (set_s_sort_prev None) (set_Sessions_head (Some n) s)
    | Some p, None => upd p (set_s_sort_next None) (set_Sessions_tail (Some p) s)
    | Some p, Some n => upd p (set_s_sort_next (Some n)) (upd n (set_s_sort_prev (Some p)) s)
    end in
  let s2 := upd i (set_s_sort_next None) (upd i (set_s_sort_prev None) s1) in
  let s3 := set_so_closed (so_closed s2 ++ [s_mbox (ses s i)]) s2 in
  Sess_free_session i (upd i (set_s_mbox (-1)) s3).

(** Loops along a list: the first session that satisfies [P]. *)
Fixpoint walk (fuel : nat) (next : Z -> option Z) (P : Z -> bool) (p : option Z) : res (option Z) :=
  match p with
  | None => inr None
  | Some i =>
      match fuel with
      | O => inl (Diverges "session list")
      | S fuel => if P i then inr (Some i) else walk fuel next P (next i)
      end
  end.

Definition Sess_get_session_index (mbox : Z) (s : sess_state) : res Z :=
  let? r := walk LIST_FUEL (fun i => s_hash_next (ses s i)) (fun i => s_mbox (ses s i) =? mbox)
              (Sessions_hash_head s !! fd_hash mbox) in
  inr (default (-1) r).

(** The loop stops at the first name that is not before [name]. *)
Definition first_not_before (name : list Z) (s : sess_state) : res (option Z) :=
  walk LIST_FUEL (fun i => s_sort_next (ses s i)) (fun i => 0 <=? strcmp (s_name (ses s i)) name) (Sessions_head s).

Definition Sess_get_session (name : list Z) (s : sess_state) : res Z :=
  let? r := first_not_before name s in
  inr (match r with
       | Some i => if strcmp (s_name (ses s i)) name =? 0 then i else -1
       | None => -1
       end).

(** The check for a unique name ([Sess_accept_continue]): whether it is, and
    where it goes. *)
Definition unique_private_name (name : list Z) (s : sess_state) : res (bool * option Z) :=
  let? r := walk LIST_FUEL (fun i => s_sort_next (ses s i)) (fun i => strcmp name (s_name (ses s i)) <=? 0)
              (Sessions_head s) in
  inr (match r with
       | Some i => negb (strcmp name (s_name (ses s i)) =? 0)
       | None => true
       end, r).

(* --------------------------------------------------------------------- *)
(** ** Linked lists

    The sorted list with its head and tail is a ring through [None]. *)

Definition lnext (s : sess_state) (a : option Z) : option Z :=
  match a with None => Sessions_head s | Some i => s_sort_next (ses s i) end.
Definition lprev (s : sess_state) (a : option Z) : option Z :=
  match a with None => Sessions_tail s | Some i => s_sort_prev (ses s i) end.
Definition sources (l : list Z) : list (option Z) := None :: (Some <$> l).
Definition targets (l : list Z) : list (option Z) := (Some <$> l) ++ [None].
Definition linked (s : sess_state) (l : list Z) : Prop :=
  lnext s <$> sources l = targets l /\ lprev s <$> targets l = sources l.
(** A list with a forward link only. *)
Definition slinked (next : Z -> option Z) (p : option Z) (l : list Z) : Prop := p :: (next <$> l) = targets l.

Section lists.
Implicit Types (l : list Z) (a b : option Z) (P : Z -> bool).

Lemma walk_find next P p l fuel :
  slinked next p l -> (length l <= fuel)%nat ->
  walk fuel next P p = inr (snd <$> list_find (fun i => P i = true) l).
Proof.
  unfold slinked, targets. revert p fuel. induction l as [|i l IH]; intros p fuel Hs Hf.
  { injection Hs as ->. by destruct fuel. }
  cbn in Hs. injection Hs as -> Hs. destruct fuel as [|fuel]; [cbn in Hf; lia|]. cbn [walk list_find].
  destruct (P i) eqn:HP; [by rewrite decide_True|]. rewrite decide_False by congruence.
  rewrite (IH (next i)) by (done || cbn in Hf; lia). f_equal.
  by destruct (list_find _ l) as [[]|].
Qed.

Lemma linked_slinked s l : linked s l -> slinked (fun i => s_sort_next (ses s i)) (Sessions_head s) l.
Proof.
  intros [Hn _]. unfold slinked. unfold sources in Hn. rewrite fmap_cons in Hn. cbn [lnext] in Hn.
  rewrite <- Hn. f_equal. rewrite <- list_fmap_compose. done.
Qed.

(** The first element that satisfies [P], and what is around it. *)
Lemma list_find_split P l i k :
  list_find (fun i => P i = true) l = Some (k, i) ->
  exists l1 l2, l = l1 ++ i :: l2 /\ Forall (fun j => P j = false) l1 /\ P i = true.
Proof.
  intros (Hk & HP & Hbefore)%list_find_Some. exists (take k l), (drop (S k) l).
  split; [by rewrite take_drop_middle|]. split; [|done].
  apply Forall_lookup. intros j x [Hx Hj]%lookup_take_Some. apply not_true_iff_false. intros HPx. by apply (Hbefore j x).
Qed.

(** The ring around the end of [l1] and the start of [l2]. *)
Definition ring (l1 l2 : list Z) (A : list (option Z)) (a b : option Z) (B : list (option Z)) : Prop :=
  sources l1 = A ++ [a] /\ targets l2 = b :: B.

Lemma ring_split l1 l2 : exists A a b B, ring l1 l2 A a b B.
Proof.
  destruct (exists_last (l:=sources l1) ltac:(done)) as (A & a & HA).
  destruct (targets l2) as [|b B] eqn:HB; [by destruct l2|]. by exists A, a, b, B.
Qed.

Lemma ring_sources l1 l2 A a b B : ring l1 l2 A a b B -> sources (l1 ++ l2) = A ++ a :: (Some <$> l2).
Proof. intros [HA _]. unfold sources in *. by rewrite fmap_app, app_comm_cons, HA, <- app_assoc. Qed.
Lemma ring_targets l1 l2 A a b B : ring l1 l2 A a b B -> targets (l1 ++ l2) = (Some <$> l1) ++ b :: B.
Proof. intros [_ HB]. unfold targets in *. by rewrite fmap_app, <- app_assoc, HB. Qed.
Lemma ring_length l1 l2 A a b B : ring l1 l2 A a b B -> length A = length l1.
Proof. intros [HA _]. apply (f_equal length) in HA. rewrite length_app in HA. cbn in HA. rewrite length_fmap in HA. lia. Qed.

Lemma sources_NoDup l : NoDup l -> NoDup (sources l).
Proof.
  intros Hl. apply NoDup_cons. split; [|by apply NoDup_fmap_2; [intros ?? [=]|]].
  intros (i & Hi & _)%list_elem_of_fmap. done.
Qed.
Lemma targets_NoDup l : NoDup l -> NoDup (targets l).
Proof.
  intros Hl. apply NoDup_app. split; [by apply NoDup_fmap_2; [intros ?? [=]|]|]. split; [|apply NoDup_singleton].
  intros a (i & -> & _)%list_elem_of_fmap Hn. by apply list_elem_of_singleton in Hn.
Qed.

(** With [i] between them. *)
Lemma ring_mid l1 l2 A a b B i :
  ring l1 l2 A a b B ->
  sources (l1 ++ i :: l2) = A ++ a :: Some i :: (Some <$> l2) /\
  targets (l1 ++ i :: l2) = (Some <$> l1) ++ Some i :: b :: B.
Proof.
  intros [HA HB]. unfold sources, targets in *. rewrite !fmap_app, app_comm_cons, HA, <- !app_assoc. cbn. by rewrite HB.
Qed.

Lemma ring_fresh l1 l2 A a b B i :
  ring l1 l2 A a b B -> NoDup (l1 ++ i :: l2) ->
  NoDup (A ++ a :: Some i :: (Some <$> l2)) /\ NoDup ((Some <$> l1) ++ Some i :: b :: B).
Proof.
  intros Hr Hn. destruct (ring_mid _ _ _ _ _ _ i Hr) as [<- <-]. split; [by apply sources_NoDup|by apply targets_NoDup].
Qed.
End lists.

(** Write the link of a node of the ring. *)
Definition set_lnext (a p : option Z) (s : sess_state) : sess_state :=
  match a with None => set_Sessions_head p s | Some i => upd i (set_s_sort_next p) s end.
Definition set_lprev (a p : option Z) (s : sess_state) : sess_state :=
  match a with None => set_Sessions_tail p s | Some i => upd i (set_s_sort_prev p) s end.

Section links.
Implicit Types (s : sess_state) (a b p : option Z) (i j : Z).

Lemma ses_upd s i f j : ses (upd i f s) j = if decide (j = i) then f (ses s i) else ses s j.
Proof.
  unfold ses, upd. cbn [Sessions set_Sessions]. destruct (decide (j = i)) as [->|Hj].
  - by rewrite lookup_insert_eq.
  - by rewrite lookup_insert_ne.
Qed.
Lemma lnext_set s a p b : lnext (set_lnext a p s) b = if decide (b = a) then p else lnext s b.
Proof.
  destruct a as [i|], b as [j|]; cbn [set_lnext lnext]; try done; try (by rewrite decide_False).
  rewrite ses_upd. destruct (decide (j = i)) as [->|Hj]; [by rewrite decide_True|by rewrite decide_False by congruence].
Qed.
Lemma lprev_set s a p b : lprev (set_lprev a p s) b = if decide (b = a) then p else lprev s b.
Proof.
  destruct a as [i|], b as [j|]; cbn [set_lprev lprev]; try done; try (by rewrite decide_False).
  rewrite ses_upd. destruct (decide (j = i)) as [->|Hj]; [by rewrite decide_True|by rewrite decide_False by congruence].
Qed.
Lemma lnext_set_prev s a p b : lnext (set_lprev a p s) b = lnext s b.
Proof. destruct a as [i|], b as [j|]; try done. cbn. rewrite ses_upd. by case_decide; subst. Qed.
Lemma lprev_set_next s a p b : lprev (set_lnext a p s) b = lprev s b.
Proof. destruct a as [i|], b as [j|]; try done. cbn. rewrite ses_upd. by case_decide; subst. Qed.

Lemma fmap_ext_on {A B} (f g : A -> B) (l : list A) : (forall x, x ∈ l -> f x = g x) -> f <$> l = g <$> l.
Proof. intros H. apply list_fmap_ext. intros k x Hx. apply H. by eapply list_elem_of_lookup_2. Qed.

(** Put [i] between the neighbours [a] and [b]. *)
Definition link_in (a b : option Z) (i : Z) (s s' : sess_state) : Prop :=
  (forall c, lnext s' c = if decide (c = a) then Some i else if decide (c = Some i) then b else lnext s c) /\
  (forall c, lprev s' c = if decide (c = b) then Some i else if decide (c = Some i) then a else lprev s c).
(** Take out what is between [a] and [b]. *)
Definition link_out (a b : option Z) (i : Z) (s s' : sess_state) : Prop :=
  (forall c, c <> Some i -> lnext s' c = if decide (c = a) then b else lnext s c) /\
  (forall c, c <> Some i -> lprev s' c = if decide (c = b) then a else lprev s c).

(** An element that is not in a list is not one of its first ones. *)
Local Ltac absent H :=
  let E := fresh in intros E; apply H; rewrite E; first [by left|right; by left|right; right; by left].

(** The links of a ring, piece by piece. *)
Lemma linked_parts s l1 l2 A a b B :
  ring l1 l2 A a b B ->
  linked s (l1 ++ l2) <->
  (lnext s <$> A = (Some <$> l1) /\ lnext s a = b /\ lnext s <$> (Some <$> l2) = B) /\
  (lprev s <$> (Some <$> l1) = A /\ lprev s b = a /\ lprev s <$> B = (Some <$> l2)).
Proof.
  intros Hr. unfold linked. rewrite (ring_sources _ _ _ _ _ _ Hr), (ring_targets _ _ _ _ _ _ Hr), !fmap_app, !fmap_cons.
  pose proof (ring_length _ _ _ _ _ _ Hr) as Hl. split.
  - intros [Hn Hp]. apply app_inj_1 in Hn as [H1 [= H2 H3]]; [|by rewrite !length_fmap].
    apply app_inj_1 in Hp as [H4 [= H5 H6]]; [|by rewrite !length_fmap]. done.
  - intros [(-> & -> & ->) (-> & -> & ->)]. done.
Qed.
Lemma linked_mid s l1 l2 A a b B i :
  ring l1 l2 A a b B ->
  linked s (l1 ++ i :: l2) <->
  (lnext s <$> A = (Some <$> l1) /\ lnext s a = Some i /\ lnext s (Some i) = b /\ lnext s <$> (Some <$> l2) = B) /\
  (lprev s <$> (Some <$> l1) = A /\ lprev s (Some i) = a /\ lprev s b = Some i /\ lprev s <$> B = (Some <$> l2)).
Proof.
  intros Hr. unfold linked. destruct (ring_mid _ _ _ _ _ _ i Hr) as [-> ->]. rewrite !fmap_app, !fmap_cons.
  pose proof (ring_length _ _ _ _ _ _ Hr) as Hl. split.
  - intros [Hn Hp]. apply app_inj_1 in Hn as [H1 [= H2 H3 H4]]; [|by rewrite !length_fmap].
    apply app_inj_1 in Hp as [H5 [= H6 H7 H8]]; [|by rewrite !length_fmap]. done.
  - intros [(-> & -> & -> & ->) (-> & -> & -> & ->)]. done.
Qed.

Lemma linked_in s s' l1 l2 A a b B i :
  ring l1 l2 A a b B -> linked s (l1 ++ l2) -> NoDup (l1 ++ i :: l2) -> link_in a b i s s' ->
  linked s' (l1 ++ i :: l2).
Proof.
  intros Hr Hl Hnd [Hn Hp]. apply (linked_parts s _ _ _ _ _ _ Hr) in Hl as [(Hn1 & Hn2 & Hn3) (Hp1 & Hp2 & Hp3)].
  destruct (ring_fresh _ _ _ _ _ _ _ Hr Hnd) as [Hs Ht].
  apply NoDup_app in Hs as (_ & HsA & ([Hsa Hsl]%not_elem_of_cons & (Hsi & _)%NoDup_cons)%NoDup_cons).
  apply NoDup_app in Ht as (_ & HtA & ([Htb Hti]%not_elem_of_cons & (Htl & _)%NoDup_cons)%NoDup_cons).
  apply (linked_mid s' _ _ _ _ _ _ _ Hr). split; split_and!.
  - rewrite <- Hn1. apply fmap_ext_on. intros c Hc. specialize (HsA c Hc). rewrite Hn, !decide_False; [done|absent HsA..].
  - by rewrite Hn, decide_True.
  - by rewrite Hn, decide_False, decide_True by congruence.
  - rewrite <- Hn3. apply fmap_ext_on. intros c Hc. rewrite Hn, !decide_False; [done|congruence..].
  - rewrite <- Hp1. apply fmap_ext_on. intros c Hc. specialize (HtA c Hc). rewrite Hp, !decide_False; [done|absent HtA..].
  - by rewrite Hp, decide_False, decide_True by congruence.
  - by rewrite Hp, decide_True.
  - rewrite <- Hp3. apply fmap_ext_on. intros c Hc. rewrite Hp, !decide_False; [done|congruence..].
Qed.

Lemma linked_out s s' l1 l2 A a b B i :
  ring l1 l2 A a b B -> linked s (l1 ++ i :: l2) -> NoDup (l1 ++ i :: l2) -> link_out a b i s s' ->
  linked s' (l1 ++ l2).
Proof.
  intros Hr Hl Hnd [Hn Hp]. apply (linked_mid s _ _ _ _ _ _ _ Hr) in Hl as [(Hn1 & Hn2 & _ & Hn3) (Hp1 & _ & Hp2 & Hp3)].
  destruct (ring_fresh _ _ _ _ _ _ _ Hr Hnd) as [Hs Ht].
  apply NoDup_app in Hs as (_ & HsA & ([Hsa Hsl]%not_elem_of_cons & (Hsi & _)%NoDup_cons)%NoDup_cons).
  apply NoDup_app in Ht as (_ & HtA & ([Htb Hti]%not_elem_of_cons & (Htl & _)%NoDup_cons)%NoDup_cons).
  apply (linked_parts s' _ _ _ _ _ _ Hr). split; split_and!.
  - rewrite <- Hn1. apply fmap_ext_on. intros c Hc. specialize (HsA c Hc). rewrite Hn, decide_False; [done|absent HsA..].
  - by rewrite Hn, decide_True by congruence.
  - rewrite <- Hn3. apply fmap_ext_on. intros c Hc. rewrite Hn, decide_False; [done|congruence..].
  - rewrite <- Hp1. apply fmap_ext_on. intros c Hc. specialize (HtA c Hc). rewrite Hp, decide_False; [done|absent HtA..].
  - by rewrite Hp, decide_True by congruence.
  - rewrite <- Hp3. apply fmap_ext_on. intros c Hc. rewrite Hp, decide_False; [done|congruence..].
Qed.

(** ** Operations as link changes *)

(** A session without its place in the list, and the table without the list. *)
Definition data (r : session) : session := set_s_sort_prev None (set_s_sort_next None r).
Definition rest (s : sess_state) : sess_state :=
  set_Sessions ∅ (set_Sessions_head None (set_Sessions_tail None (set_Sessions_free None s))).

Lemma ses_set_head x s j : ses (set_Sessions_head x s) j = ses s j. Proof. done. Qed.
Lemma ses_set_tail x s j : ses (set_Sessions_tail x s) j = ses s j. Proof. done. Qed.
Lemma ses_set_free x s j : ses (set_Sessions_free x s) j = ses s j. Proof. done. Qed.
Lemma ses_set_hash (n : Z) x s j : ses (set_hash_head n x s) j = ses s j. Proof. done. Qed.
Lemma ses_set_closed x s j : ses (set_so_closed x s) j = ses s j. Proof. done. Qed.

Local Ltac ses_simpl :=
  repeat first [rewrite ses_upd | rewrite ses_set_head | rewrite ses_set_tail | rewrite ses_set_free
               | rewrite ses_set_hash | rewrite ses_set_closed].
Local Ltac ses_cases :=
  ses_simpl; repeat case_decide; simplify_eq/=; try done; try congruence.

Lemma insert_links w t s i :
  Sessions_free s = Some i -> w <> Some i -> lprev s w <> Some i ->
  exists s', Sess_insert_new_session w t s = inr (i, s') /\ link_in (lprev s w) w i s s' /\
    (forall j, data (ses s' j) = data (if decide (j = i) then t else ses s j)) /\
    rest s' = rest s /\ Sessions_free s' = s_sort_next (ses s i).
Proof.
  intros Hf Hw Ha. unfold Sess_insert_new_session, Sess_get_free_session. rewrite Hf. cbn [rbind].
  eexists. split; [reflexivity|].
  destruct w as [w|]; cbn [lprev] in Ha |- *; cbv zeta.
  - rewrite !ses_upd, decide_False, decide_False, ses_set_free by congruence.
    destruct (s_sort_prev (ses s w)) as [p|] eqn:Hp.
    + split; [|split; [intros j|split; [done|done]]]; [split; intros [c|]; cbn [lnext lprev]|]; ses_cases.
    + split; [|split; [intros j|split; [done|done]]]; [split; intros [c|]; cbn [lnext lprev]|]; ses_cases.
  - cbn [Sessions_tail upd set_Sessions set_Sessions_free].
    destruct (Sessions_tail s) as [p|] eqn:Hp;
      (split; [|split; [intros j|split; [done|done]]]; [split; intros [c|]; cbn [lnext lprev]|]; ses_cases).
Qed.

Lemma remove_links s i :
  lprev s (Some i) <> Some i -> lnext s (Some i) <> Some i ->
  let s' := Sess_remove_session i s in
  link_out (lprev s (Some i)) (lnext s (Some i)) i s s' /\
  (forall j, data (ses s' j) = if decide (j = i) then set_s_mbox (-1) (data (ses s i)) else data (ses s j)) /\
  Sessions_free s' = Some i /\ s_sort_next (ses s' i) = Sessions_free s /\
  rest s' = set_so_closed (so_closed s ++ [s_mbox (ses s i)]) (rest s).
Proof.
  intros Hp Hn s'. unfold s', Sess_remove_session. cbn [lprev lnext] in Hp, Hn |- *. cbv zeta.
  destruct (s_sort_prev (ses s i)) as [p|] eqn:Ep; destruct (s_sort_next (ses s i)) as [n|] eqn:En;
    unfold Sess_free_session; cbn [Sessions_free set_so_closed upd set_Sessions set_Sessions_free set_Sessions_head set_Sessions_tail].
  all: split; [split; intros [c|] Hc; cbn [lnext lprev]; ses_cases|].
  all: split; [intros j; ses_cases|].
  all: split; [done|].
  all: split; [ses_cases|].
  all: done.
Qed.

(** ** Chains *)

Lemma slinked_nil next p : slinked next p [] <-> p = None.
Proof. unfold slinked. cbn. split; [by intros [= ->]|by intros ->]. Qed.
Lemma slinked_cons next p j l : slinked next p (j :: l) <-> p = Some j /\ slinked next (next j) l.
Proof. unfold slinked. cbn. split; [by intros [= -> ->]|by intros [-> ->]]. Qed.
Lemma slinked_ext next next' p l :
  (forall j, j ∈ l -> next' j = next j) -> slinked next p l -> slinked next' p l.
Proof. unfold slinked. intros H <-. f_equal. by apply fmap_ext_on. Qed.

(** The chain of bucket [b]. *)
Definition hashed s (n : Z) (c : list Z) : Prop :=
  slinked (fun j => s_hash_next (ses s j)) (Sessions_hash_head s !! n) c.

Lemma hash_head_set (n m : Z) p s :
  Sessions_hash_head (set_hash_head n p s) !! m = if decide (m = n) then p else Sessions_hash_head s !! m.
Proof.
  cbn. destruct (decide (m = n)) as [->|Hm]; [by rewrite lookup_partial_alter_eq|by rewrite lookup_partial_alter_ne].
Qed.

Lemma hash_in s i (n : Z) c :
  hashed s n c -> i ∉ c ->
  hashed (Sess_hash_session i s) n (if decide (n = fd_hash (s_mbox (ses s i))) then i :: c else c).
Proof.
  unfold hashed, Sess_hash_session. intros Hc Hi. rewrite hash_head_set.
  change (Sessions_hash_head (upd i ?f s)) with (Sessions_hash_head s).
  assert (Hc' : slinked (fun j => s_hash_next (ses (set_hash_head (fd_hash (s_mbox (ses s i))) (Some i)
    (upd i (set_s_hash_next (Sessions_hash_head s !! fd_hash (s_mbox (ses s i)))) s)) j)) (Sessions_hash_head s !! n) c).
  { eapply slinked_ext; [|exact Hc]. intros j Hj. ses_cases. }
  destruct (decide (n = _)) as [->|Hn]; [|done].
  apply slinked_cons. split; [done|]. rewrite ses_set_hash, ses_upd, decide_True by done. exact Hc'.
Qed.

Lemma hash_before_spec s i c1 : forall fuel tmp j c2,
  slinked (fun j => s_hash_next (ses s j)) tmp (c1 ++ j :: i :: c2) -> NoDup (c1 ++ j :: i :: c2) ->
  (length c1 < fuel)%nat -> hash_before fuel s tmp i = inr j.
Proof.
  induction c1 as [|k c1 IH]; intros fuel tmp j c2 Hs Hnd Hf; (destruct fuel as [|fuel]; [cbn in Hf; lia|]);
    cbn [app] in Hs, Hnd; apply slinked_cons in Hs as [-> Hs]; cbn [hash_before].
  - apply slinked_cons in Hs as [-> _]. by rewrite decide_True.
  - rewrite decide_False; [|intros Hk].
    + apply (IH _ _ _ c2); [done|by apply NoDup_cons in Hnd as [_ ?]|cbn in Hf; lia].
    + apply NoDup_cons in Hnd as [_ Hnd]. rewrite Hk in Hs. destruct c1 as [|k' c1]; cbn in Hs; apply slinked_cons in Hs as [[= ->] _].
      * apply NoDup_cons in Hnd as [Hnd _]. apply Hnd. by left.
      * apply NoDup_cons in Hnd as [Hnd _]. apply Hnd, elem_of_app. right. right. by left.
Qed.

(** Cutting [i] out behind [k]. *)
Lemma slinked_cut next' next p c1 k i c2 :
  slinked next p (c1 ++ k :: i :: c2) -> (forall j, j ∈ c1 ++ c2 -> next' j = next j) -> next' k = next i ->
  slinked next' p (c1 ++ k :: c2).
Proof.
  revert p. induction c1 as [|j c1 IH]; intros p Hs Hn Hk; cbn [app] in *; apply slinked_cons in Hs as [-> Hs]; apply slinked_cons; (split; [done|]).
  - apply slinked_cons in Hs as [_ Hs]. rewrite Hk. by eapply slinked_ext.
  - rewrite Hn by by left. apply IH; [done| |done]. intros x Hx. apply Hn. by right.
Qed.

(** What the chains are after [i] was taken out. *)
Lemma hash_out s i c1 c2 :
  let n := fd_hash (s_mbox (ses s i)) in
  hashed s n (c1 ++ i :: c2) -> NoDup (c1 ++ i :: c2) -> (length (c1 ++ i :: c2) <= LIST_FUEL)%nat ->
  exists s', Sess_unhash_session i s = inr s' /\ hashed s' n (c1 ++ c2) /\
    (forall m c, m <> n -> hashed s m c -> Forall (fun j => j ∉ c1 ++ i :: c2) c -> hashed s' m c) /\
    (forall j, set_s_hash_next None (ses s' j) = set_s_hash_next None (ses s j)) /\
    set_Sessions ∅ (set_Sessions_hash_head ∅ s') = set_Sessions ∅ (set_Sessions_hash_head ∅ s).
Proof.
  intros n Hc Hnd Hf. unfold Sess_unhash_session. cbv zeta. fold n.
  assert (Hother : forall m c s0, hashed s m c -> Forall (fun j => j ∉ c1 ++ i :: c2) c ->
    Sessions_hash_head s0 !! m = Sessions_hash_head s !! m ->
    (forall j, j ∉ c1 ++ i :: c2 -> s_hash_next (ses s0 j) = s_hash_next (ses s j)) -> hashed s0 m c).
  { intros m c s0 Hm Hall Hh Hn. unfold hashed. rewrite Hh. eapply slinked_ext; [|exact Hm].
    intros j Hj. apply Hn. by eapply Forall_forall in Hall. }
  destruct c1 as [|k c1] using rev_ind; [|clear IHc1].
  - cbn [app] in *. pose proof Hc as [Hh Hc2]%slinked_cons. rewrite decide_True by done.
    apply NoDup_cons in Hnd as [Hi _].
    eexists. split; [reflexivity|]. split; [|split; [|split]]; try done.
    + unfold hashed. change (Sessions_hash_head (upd i ?f ?s)) with (Sessions_hash_head s). rewrite hash_head_set, decide_True by done.
      eapply slinked_ext; [|exact Hc2]. intros j Hj. ses_cases.
    + intros m c Hm Hhm Hall. apply (Hother m c); [done..| |].
      * change (Sessions_hash_head (upd i ?f ?s)) with (Sessions_hash_head s). by rewrite hash_head_set, decide_False.
      * intros j [Hj _]%not_elem_of_cons. ses_cases.
    + intros j. ses_cases.
  - assert (Happ : (c1 ++ [k]) ++ i :: c2 = c1 ++ k :: i :: c2) by by rewrite <- app_assoc.
    assert (Happ' : (c1 ++ [k]) ++ c2 = c1 ++ k :: c2) by by rewrite <- app_assoc. rewrite Happ, ?Happ' in *.
    assert (Hki : k <> i) by (intros ->; apply NoDup_app in Hnd as (_ & _ & [Hn _]%NoDup_cons); apply Hn; by left).
    assert (Hhead : Sessions_hash_head s !! n <> Some i).
    { intros Hh. destruct c1 as [|x c1]; apply slinked_cons in Hc as [Hx _]; [congruence|].
      apply NoDup_cons in Hnd as [Hnd _]. apply Hnd. replace x with i by congruence.
      apply elem_of_app. right. right. by left. }
    clear Happ Happ'. rewrite decide_False by done.
    rewrite (hash_before_spec s i c1 LIST_FUEL _ k c2) by (done || (rewrite length_app in Hf; cbn in Hf; lia)).
    cbn [rbind]. eexists. split; [reflexivity|].
    apply NoDup_app in Hnd as (_ & Hd & [Hk Hnd']%NoDup_cons). apply NoDup_cons in Hnd' as [Hi _].
    split; [|split; [|split]]; try done.
    + unfold hashed. cbn [Sessions_hash_head upd set_Sessions].
      apply (slinked_cut _ (fun j => s_hash_next (ses s j))) with (i := i); [done| |ses_cases].
      intros j Hj. assert (j <> k /\ j <> i) as [? ?]; [|ses_cases]. split; intros ->.
        -- apply elem_of_app in Hj as [Hj|Hj]; [apply (Hd k Hj); by left|apply Hk; by right].
        -- apply elem_of_app in Hj as [Hj|Hj]; [apply (Hd i Hj); right; by left|done].
    + intros m c Hm Hhm Hall. apply (Hother m c); [done..|].
      intros j Hj. assert (j <> k /\ j <> i) as [? ?]; [|ses_cases]. split; intros ->; apply Hj, elem_of_app; right; [by left|right; by left].
    + intros j. ses_cases.
Qed.
End links.
