(* ===== verification/SessDir.v ===== *)
(** * The directory of sessions

    What the three kinds of links of [SessTable] stand for together: a list
    of sessions sorted by private name, in which the code finds a session by
    its mailbox or by its name, adds one and drops one.  The theorem at the
    end is the refinement of that directory by the pointer code. *)

From Stdlib Require Import ZArith Lia.
From stdpp Require Import base strings numbers option gmap list sorting.
From S2P Require Import Prelude Wire Bytes Config Events State Network FlowControl MembSets MembCore ProtSend.
From S2P Require Import Retrans Requests Packing Deliver Delivery Sending EndToEnd Message Names SessState SessTable.

(** A new session in the table ([Sess_accept_continue], after the name was
    found to be unique), and a session leaving it ([Sess_session_denied]). *)
Definition preauth (r : session) : session := set_s_status (Set_session PRE_AUTH_SESSION (s_status r)) r.
Definition accept_insert (tmp_ses : option Z) (template : session) (s : sess_state) : res (Z * sess_state) :=
  let? '(sess_location, s) := Sess_insert_new_session tmp_ses template s in
  let s := set_Num_sessions (Num_sessions s + 1) s in
  let s := upd sess_location preauth s in
  inr (sess_location, Sess_hash_session sess_location s).

Definition drop_session (i : Z) (s : sess_state) : res sess_state :=
  let? s := Sess_unhash_session i s in
  let s := Sess_remove_session i s in
  inr (set_Num_sessions (Num_sessions s - 1) s).

(* --------------------------------------------------------------------- *)
(** ** The invariant *)

Definition names (s : sess_state) (l : list Z) : list (list Z) := (fun i => s_name (ses s i)) <$> l.
Definition mboxes (s : sess_state) (l : list Z) : list Z := (fun i => s_mbox (ses s i)) <$> l.
Definition free_list (s : sess_state) (l : list Z) : Prop :=
  exists f, slinked (fun i => s_sort_next (ses s i)) (Sessions_free s) f /\ l ++ f ≡ₚ seqZ 0 MAX_SESSIONS.
(** Every bucket holds the sessions whose mailbox hashes to it. *)
Definition buckets (s : sess_state) (l : list Z) : Prop :=
  exists ch : Z -> list Z, forall n,
    hashed s n (ch n) /\ NoDup (ch n) /\ forall i, i ∈ ch n <-> i ∈ l /\ fd_hash (s_mbox (ses s i)) = n.

(** The table holds the sessions [l]. *)
Record table_ok (s : sess_state) (l : list Z) : Prop := mkTableOk {
  tb_linked : linked s l;
  tb_free : free_list s l;
  tb_buckets : buckets s l;
  tb_sorted : StronglySorted str_lt (names s l);
  tb_mboxes : NoDup (mboxes s l);
  tb_num : Num_sessions s = Z.of_nat (length l);
}.

(** A session without its links. *)
Definition entry (r : session) : session := set_s_hash_next None (data r).

#[local] Opaque seqZ.

Section directory.
Implicit Types (s : sess_state) (l f : list Z) (i j mbox : Z) (t : session) (name : list Z) (a b w : option Z).

Lemma entry_name (r r' : session) : entry r = entry r' -> s_name r = s_name r'.
Proof. intros H. by injection H. Qed.
Lemma entry_mbox (r r' : session) : entry r = entry r' -> s_mbox r = s_mbox r'.
Proof. intros H. by injection H. Qed.
Lemma data_entry (r r' : session) : data r = data r' -> entry r = entry r'.
Proof. intros H. unfold entry. by rewrite H. Qed.
Lemma entry_preauth (r r' : session) : data r = data r' -> entry (preauth r) = entry (preauth r').
Proof. change (entry (preauth ?r)) with (set_s_hash_next None (preauth (data r))). by intros ->. Qed.
Lemma data_hash (r r' : session) : data r = data r' -> s_hash_next r = s_hash_next r'.
Proof. intros H. by injection H. Qed.

Lemma linked_ext s s' l :
  (forall c, lnext s' c = lnext s c) -> (forall c, lprev s' c = lprev s c) -> linked s l -> linked s' l.
Proof. intros Hn Hp [H1 H2]. split; [rewrite <- H1|rewrite <- H2]; apply fmap_ext_on; intros c _; done. Qed.

Lemma names_ext s s' l : (forall i, i ∈ l -> s_name (ses s' i) = s_name (ses s i)) -> names s' l = names s l.
Proof. intros H. by apply fmap_ext_on. Qed.
Lemma mboxes_ext s s' l : (forall i, i ∈ l -> s_mbox (ses s' i) = s_mbox (ses s i)) -> mboxes s' l = mboxes s l.
Proof. intros H. by apply fmap_ext_on. Qed.

(** ** Bounds *)

Lemma seqZ_max : length (seqZ 0 MAX_SESSIONS) = Z.to_nat MAX_SESSIONS.
Proof. apply length_seqZ. Qed.

Lemma table_room s l : table_ok s l -> (length l <= Z.to_nat MAX_SESSIONS)%nat /\ NoDup l.
Proof.
  intros [_ (f & _ & Hp) _ _ _ _]. split.
  - apply Permutation_length in Hp. rewrite length_app, seqZ_max in Hp. lia.
  - assert (NoDup (l ++ f)) as (? & _)%NoDup_app; [rewrite Hp; apply NoDup_seqZ|done].
Qed.

Lemma table_range s l i : table_ok s l -> i ∈ l -> 0 <= i < MAX_SESSIONS.
Proof.
  intros [_ (f & _ & Hp) _ _ _ _] Hi. assert (i ∈ seqZ 0 MAX_SESSIONS) as ?%elem_of_seqZ; [|lia].
  rewrite <- Hp. apply elem_of_app. by left.
Qed.

Lemma chain_short s l c : table_ok s l -> NoDup c -> c ⊆ l -> (length c <= LIST_FUEL)%nat.
Proof.
  intros Ht Hc Hl. destruct (table_room s l Ht) as [Hr _].
  pose proof (submseteq_length _ _ (NoDup_submseteq _ _ Hc (fun x => Hl x))). unfold LIST_FUEL. lia.
Qed.

(** ** Look-ups *)

Lemma lookup_mbox s l mbox :
  table_ok s l ->
  (exists i, i ∈ l /\ s_mbox (ses s i) = mbox /\ Sess_get_session_index mbox s = inr i) \/
  (mbox ∉ mboxes s l /\ Sess_get_session_index mbox s = inr (-1)).
Proof.
  intros Ht. pose proof Ht as [_ _ (ch & Hch) _ _ _]. destruct (Hch (fd_hash mbox)) as (Hh & Hnd & Hin).
  unfold Sess_get_session_index. rewrite (walk_find _ _ _ (ch (fd_hash mbox))); [cbn [rbind]|exact Hh|].
  2: { apply (chain_short s l); [done|done|]. intros i [? _]%Hin. done. }
  destruct (list_find _ _) as [[k i]|] eqn:Hf; cbn.
  - left. apply list_find_Some in Hf as (Hk & Hm%Z.eqb_eq & _). apply list_elem_of_lookup_2, Hin in Hk as [Hk _].
    by exists i.
  - right. split; [|done]. intros (i & -> & Hi)%list_elem_of_fmap. apply list_find_None in Hf.
    assert (Hic : i ∈ ch (fd_hash (s_mbox (ses s i)))) by by apply Hin.
    eapply Forall_forall in Hf; [|exact Hic]. by rewrite Z.eqb_refl in Hf.
Qed.

Lemma sorted_walk s l (P : Z -> bool) :
  table_ok s l ->
  walk LIST_FUEL (fun i => s_sort_next (ses s i)) P (Sessions_head s) = inr (snd <$> list_find (fun i => P i = true) l).
Proof.
  intros Ht. apply walk_find; [by apply linked_slinked, (tb_linked s l)|].
  destruct (table_room s l Ht). unfold LIST_FUEL. lia.
Qed.

Lemma in_names s l i : i ∈ l -> s_name (ses s i) ∈ names s l.
Proof. apply (list_elem_of_fmap_2 (fun i => s_name (ses s i))). Qed.
Lemma in_mboxes s l i : i ∈ l -> s_mbox (ses s i) ∈ mboxes s l.
Proof. apply (list_elem_of_fmap_2 (fun i => s_mbox (ses s i))). Qed.

(** What is around a session in the sorted list. *)
Lemma sorted_around s l1 i l2 :
  StronglySorted str_lt (names s (l1 ++ i :: l2)) ->
  Forall (fun j => str_lt (s_name (ses s j)) (s_name (ses s i))) l1 /\
  Forall (fun j => str_lt (s_name (ses s i)) (s_name (ses s j))) l2.
Proof.
  unfold names. rewrite fmap_app. intros (H12 & H1 & H2)%StronglySorted_app. split; apply Forall_forall; intros j Hj.
  - apply H12; [by apply in_names|by left].
  - apply StronglySorted_inv in H2 as [_ H2]. eapply Forall_forall in H2; [exact H2|by apply in_names].
Qed.

Lemma lookup_name s l name :
  table_ok s l ->
  (exists i, i ∈ l /\ s_name (ses s i) = name /\ Sess_get_session name s = inr i) \/
  (name ∉ names s l /\ Sess_get_session name s = inr (-1)).
Proof.
  intros Ht. unfold Sess_get_session, first_not_before. rewrite (sorted_walk s l) by done. cbn [rbind].
  destruct (list_find _ l) as [[k i]|] eqn:Hf; cbn.
  - pose proof (tb_sorted s l Ht) as Hs. apply list_find_split in Hf as (l1 & l2 & -> & Hl1 & Hi%Z.leb_le).
    destruct (sorted_around _ _ _ _ Hs) as [_ Hafter].
    destruct (Z.eqb_spec (strcmp (s_name (ses s i)) name) 0) as [He|Hne].
    + left. exists i. split; [apply elem_of_app; right; by left|]. by apply strcmp_eq in He.
    + right. split; [|done]. unfold names. rewrite fmap_app, fmap_cons, not_elem_of_app, not_elem_of_cons. split_and!.
      * intros (j & -> & Hj)%list_elem_of_fmap. eapply Forall_forall in Hl1; [|exact Hj]. cbn in Hl1. by rewrite strcmp_refl in Hl1.
      * intros ->. by rewrite strcmp_refl in Hne.
      * intros (j & -> & Hj)%list_elem_of_fmap. eapply Forall_forall in Hafter; [|exact Hj]. cbn in Hafter.
        unfold str_lt in Hafter. lia.
  - right. split; [|done]. intros (j & -> & Hj)%list_elem_of_fmap. apply list_find_None in Hf.
    eapply Forall_forall in Hf; [|exact Hj]. cbn in Hf. by rewrite strcmp_refl in Hf.
Qed.

(** ** Adding a session *)

(** Where a new name goes: after the smaller ones. *)
Lemma unique_split s l name :
  table_ok s l ->
  exists u w l1 l2, unique_private_name name s = inr (u, w) /\ l = l1 ++ l2 /\ w = mjoin (head (targets l2)) /\
    (u = true <-> name ∉ names s l) /\
    (u = true -> Forall (fun j => str_lt (s_name (ses s j)) name) l1 /\ Forall (fun j => str_lt name (s_name (ses s j))) l2).
Proof.
  intros Ht. unfold unique_private_name. rewrite (sorted_walk s l) by done. cbn [rbind].
  assert (Hbefore : forall l1, Forall (fun j => (strcmp name (s_name (ses s j)) <=? 0) = false) l1 ->
    Forall (fun j => str_lt (s_name (ses s j)) name) l1).
  { intros l1 Hl1. eapply Forall_impl; [exact Hl1|]. cbn. intros j Hj%Z.leb_gt. unfold str_lt. rewrite strcmp_anti. lia. }
  assert (Hnot : forall l1, Forall (fun j => str_lt (s_name (ses s j)) name) l1 -> name ∉ names s l1).
  { intros l1 Hl1 (j & -> & Hj)%list_elem_of_fmap. eapply Forall_forall in Hl1; [|exact Hj]. by eapply str_lt_irrefl. }
  destruct (list_find _ l) as [[k i]|] eqn:Hf; cbn [fmap option_fmap option_map snd].
  - apply list_find_split in Hf as (l1 & l2 & -> & Hl1%Hbefore & Hi%Z.leb_le).
    destruct (sorted_around _ _ _ _ (tb_sorted _ _ Ht)) as [_ Hafter].
    do 2 eexists. exists l1, (i :: l2). split; [reflexivity|]. split; [done|]. split; [done|].
    rewrite negb_true_iff, Z.eqb_neq. split; [split|].
    + intros Hne. unfold names. rewrite fmap_app, fmap_cons, not_elem_of_app, not_elem_of_cons. split_and!; [by apply Hnot| |].
      * intros ->. by rewrite strcmp_refl in Hne.
      * intros (j & Hn & Hj)%list_elem_of_fmap. eapply Forall_forall in Hafter; [|exact Hj]. cbn in Hafter.
        rewrite <- Hn in Hafter. unfold str_lt in Hafter. rewrite strcmp_anti in Hafter. lia.
    + intros Hn He%strcmp_eq. apply Hn. rewrite He. apply in_names, elem_of_app. right. by left.
    + intros Hne. split; [done|]. apply Forall_cons. split; [unfold str_lt; lia|].
      eapply Forall_impl; [exact Hafter|]. intros j Hj. cbn in Hj. eapply (str_lt_trans _ (s_name (ses s i))); [unfold str_lt; lia|done].
  - apply list_find_None in Hf. assert (Hl : Forall (fun j => str_lt (s_name (ses s j)) name) l).
    { apply Hbefore. eapply Forall_impl; [exact Hf|]. cbn. intros j Hj. by apply not_true_is_false. }
    do 2 eexists. exists l, []. split; [reflexivity|]. rewrite app_nil_r. split; [done|]. split; [done|]. split; [|by intros _].
    split; [|done]. intros _. by apply Hnot.
Qed.

Lemma free_head s l :
  free_list s l -> Z.of_nat (length l) < MAX_SESSIONS ->
  exists i f, Sessions_free s = Some i /\ slinked (fun j => s_sort_next (ses s j)) (s_sort_next (ses s i)) f /\
    (i :: l) ++ f ≡ₚ seqZ 0 MAX_SESSIONS.
Proof.
  intros ([|i f] & Hf & Hp) Hl.
  - apply Permutation_length in Hp. rewrite app_nil_r, seqZ_max in Hp. lia.
  - apply slinked_cons in Hf as [Hi Hf]. exists i, f. split_and!; [done..|].
    rewrite <- Hp. by rewrite <- Permutation_middle.
Qed.

(** A link of the ring is one of its sessions or [None]. *)
Lemma ring_ends l1 l2 A a b B i : ring l1 l2 A a b B -> i ∉ l1 ++ l2 -> a <> Some i /\ b <> Some i.
Proof.
  intros [HA HB] [H1 H2]%not_elem_of_app. split; intros ->.
  - assert (Hin : Some i ∈ sources l1) by (rewrite HA; apply elem_of_app; right; by left).
    apply elem_of_cons in Hin as [|(j & [= ->] & Hj)%list_elem_of_fmap]; done.
  - assert (Hin : Some i ∈ targets l2) by (rewrite HB; by left).
    apply elem_of_app in Hin as [(j & [= ->] & Hj)%list_elem_of_fmap|?%list_elem_of_singleton]; done.
Qed.

(** The links, the free list and the buckets after the insertion. *)
Lemma insert_table s l1 l2 t :
  table_ok s (l1 ++ l2) -> Num_sessions s < MAX_SESSIONS ->
  exists i s', Sess_insert_new_session (mjoin (head (targets l2))) t s = inr (i, s') /\ i ∉ l1 ++ l2 /\
    linked s' (l1 ++ i :: l2) /\ free_list s' (l1 ++ i :: l2) /\
    (forall j, data (ses s' j) = data (if decide (j = i) then t else ses s j)) /\ rest s' = rest s.
Proof.
  intros Ht Hn. rewrite (tb_num _ _ Ht) in Hn. destruct (free_head s _ (tb_free _ _ Ht) Hn) as (i & f & Hf & Hsf & Hp).
  assert (NoDup ((i :: l1 ++ l2) ++ f)) as Hnd by (rewrite Hp; apply NoDup_seqZ).
  apply NoDup_app in Hnd as ((Hi & Hl)%NoDup_cons & Hlf & Hff).
  destruct (ring_split l1 l2) as (A & a & b & B & Hr). destruct (ring_ends _ _ _ _ _ _ i Hr Hi) as [Ha Hb].
  pose proof Hr as [_ HB]. rewrite HB. cbn [head mjoin option_join].
  pose proof (proj1 (linked_parts s _ _ _ _ _ _ Hr) (tb_linked _ _ Ht)) as (_ & _ & Hp2 & _).
  destruct (insert_links b t s i Hf Hb) as (s' & Hs' & Hin & Hdata & Hrest & Hfree); [by rewrite Hp2|]. rewrite Hp2 in Hin.
  exists i, s'. split; [done|]. split; [done|]. split; [|split; [|done]].
  - eapply linked_in; [done|by apply (tb_linked _ _ Ht)| |done]. by rewrite <- Permutation_middle; constructor.
  - exists f. split; [|by rewrite <- Permutation_middle]. rewrite Hfree. eapply slinked_ext; [|exact Hsf].
    intros j Hj. destruct Hin as [Hin _]. specialize (Hin (Some j)). cbn [lnext] in Hin.
    assert (j ∉ i :: l1 ++ l2) as [Hji Hjl]%not_elem_of_cons by (intros Hjl; by eapply Hlf).
    destruct (ring_ends _ _ _ _ _ _ j Hr Hjl). by rewrite Hin, !decide_False by congruence.
Qed.

Lemma hashed_ext s s' n c :
  Sessions_hash_head s' = Sessions_hash_head s -> (forall j, j ∈ c -> s_hash_next (ses s' j) = s_hash_next (ses s j)) ->
  hashed s n c -> hashed s' n c.
Proof. intros Hh Hn Hc. unfold hashed. rewrite Hh. exact (slinked_ext _ _ _ _ Hn Hc). Qed.

(** Hashing a session changes nothing but the buckets. *)
Lemma hash_frame i s :
  (forall j, set_s_hash_next None (ses (Sess_hash_session i s) j) = set_s_hash_next None (ses s j)) /\
  set_Sessions ∅ (set_Sessions_hash_head ∅ (Sess_hash_session i s)) = set_Sessions ∅ (set_Sessions_hash_head ∅ s).
Proof.
  split; [|done]. intros j. unfold Sess_hash_session. rewrite ses_set_hash, ses_upd. by case_decide; subst.
Qed.

(** Links of the sorted list do not depend on the buckets. *)
Lemma same_links s s' :
  (forall j, set_s_hash_next None (ses s' j) = set_s_hash_next None (ses s j)) ->
  set_Sessions ∅ (set_Sessions_hash_head ∅ s') = set_Sessions ∅ (set_Sessions_hash_head ∅ s) ->
  (forall c, lnext s' c = lnext s c) /\ (forall c, lprev s' c = lprev s c) /\ Sessions_free s' = Sessions_free s /\
  Num_sessions s' = Num_sessions s /\ (forall j, entry (ses s' j) = entry (ses s j)).
Proof.
  intros Hj Hs. injection Hs as Hhead Htail Hfree Hnum _ _ _ _ _ _ _ _ _ _.
  split; [|split; [|split; [done|split; [done|]]]].
  - intros [j|]; [|done]. cbn [lnext]. specialize (Hj j). by injection Hj.
  - intros [j|]; [|done]. cbn [lprev]. specialize (Hj j). by injection Hj.
  - intros j. change (entry ?r) with (data (set_s_hash_next None r)). by rewrite Hj.
Qed.

(** The sorted list and the free list depend on the links alone. *)
Lemma links_ext s s' l :
  (forall c, lnext s' c = lnext s c) -> (forall c, lprev s' c = lprev s c) -> Sessions_free s' = Sessions_free s ->
  linked s l -> free_list s l -> linked s' l /\ free_list s' l.
Proof.
  intros Hn Hp Hf Hl (f & Hsf & Hperm). split; [by eapply linked_ext|].
  exists f. split; [|done]. rewrite Hf. eapply slinked_ext; [|exact Hsf]. intros j _. apply (Hn (Some j)).
Qed.

Lemma not_in_mid i j l1 l2 : i ∉ l1 ++ l2 -> j ∈ l1 ++ l2 -> j <> i.
Proof. by intros Hi Hj ->. Qed.
Lemma elem_of_mid i j l1 l2 : j ∈ l1 ++ i :: l2 <-> j = i \/ j ∈ l1 ++ l2.
Proof. rewrite !elem_of_app, elem_of_cons. tauto. Qed.

(** The buckets after hashing a new session. *)
Lemma buckets_insert s s2 i l1 l2 :
  buckets s (l1 ++ l2) -> i ∉ l1 ++ l2 -> Sessions_hash_head s2 = Sessions_hash_head s ->
  (forall j, j <> i -> s_hash_next (ses s2 j) = s_hash_next (ses s j) /\ s_mbox (ses s2 j) = s_mbox (ses s j)) ->
  buckets (Sess_hash_session i s2) (l1 ++ i :: l2).
Proof.
  intros (ch & Hch) Hi Hh Hj. destruct (hash_frame i s2) as [Hf _].
  assert (Hm : forall j, s_mbox (ses (Sess_hash_session i s2) j) = s_mbox (ses s2 j)) by (intros j; by injection (Hf j)).
  exists (fun n => if decide (n = fd_hash (s_mbox (ses s2 i))) then i :: ch n else ch n). intros n.
  destruct (Hch n) as (Hn & Hnd & Hin). assert (Hic : i ∉ ch n) by (by intros [? _]%Hin).
  split; [|split].
  - apply hash_in; [|done]. eapply hashed_ext; [done| |done].
    intros j Hjc. apply Hj. by intros ->.
  - case_decide; [by constructor|done].
  - intros j. rewrite elem_of_mid, Hm. case_decide as Hd.
    + rewrite elem_of_cons, Hin. destruct (decide (j = i)) as [->|Hne]; [|rewrite (proj2 (Hj j Hne)); tauto].
      split; [intros _; split; [by left|by symmetry]|intros _; by left].
    + rewrite Hin. destruct (decide (j = i)) as [->|Hne]; [|rewrite (proj2 (Hj j Hne)); tauto].
      split; [tauto|intros [_ Hm']; congruence].
Qed.

Lemma sorted_insert s l1 i l2 :
  StronglySorted str_lt (names s (l1 ++ l2)) ->
  Forall (fun j => str_lt (s_name (ses s j)) (s_name (ses s i))) l1 ->
  Forall (fun j => str_lt (s_name (ses s i)) (s_name (ses s j))) l2 ->
  StronglySorted str_lt (names s (l1 ++ i :: l2)).
Proof.
  unfold names. rewrite !fmap_app, fmap_cons. intros (H12 & H1 & H2)%StronglySorted_app Hl1 Hl2. apply StronglySorted_app.
  split; [|split; [done|]].
  - intros x y (j & -> & Hj)%list_elem_of_fmap Hy. eapply Forall_forall in Hl1; [|exact Hj]. cbn in Hl1.
    apply elem_of_cons in Hy as [->|Hy]; [done|]. apply H12; [by apply (in_names s)|done].
  - constructor; [done|]. by apply Forall_fmap.
Qed.
Lemma sorted_delete s l1 i l2 :
  StronglySorted str_lt (names s (l1 ++ i :: l2)) -> StronglySorted str_lt (names s (l1 ++ l2)).
Proof.
  unfold names. rewrite !fmap_app, fmap_cons. intros (H12 & H1 & H2)%StronglySorted_app. apply StronglySorted_app.
  split; [|split; [done|by apply StronglySorted_inv in H2 as [? _]]]. intros x y Hx Hy. apply H12; [done|by right].
Qed.

(** The order and the mailboxes with a new session. *)
Lemma insert_fields s s' l1 l2 i t :
  table_ok s (l1 ++ l2) -> (forall j, j ∈ l1 ++ l2 -> entry (ses s' j) = entry (ses s j)) ->
  s_name (ses s' i) = s_name t -> s_mbox (ses s' i) = s_mbox t -> s_mbox t ∉ mboxes s (l1 ++ l2) ->
  Forall (fun j => str_lt (s_name (ses s j)) (s_name t)) l1 -> Forall (fun j => str_lt (s_name t) (s_name (ses s j))) l2 ->
  StronglySorted str_lt (names s' (l1 ++ i :: l2)) /\ NoDup (mboxes s' (l1 ++ i :: l2)).
Proof.
  intros Ht He Hn Hm Hnew Hl1 Hl2. rewrite Forall_forall in Hl1. rewrite Forall_forall in Hl2. split.
  - apply sorted_insert.
    + rewrite (names_ext s); [by apply (tb_sorted _ _ Ht)|]. intros j Hj. by apply entry_name, He.
    + rewrite Hn. apply Forall_forall. intros j Hj. assert (Hj' : j ∈ l1 ++ l2) by (apply elem_of_app; by left).
      rewrite (entry_name _ _ (He j Hj')). by apply Hl1.
    + rewrite Hn. apply Forall_forall. intros j Hj. assert (Hj' : j ∈ l1 ++ l2) by (apply elem_of_app; by right).
      rewrite (entry_name _ _ (He j Hj')). by apply Hl2.
  - unfold mboxes. rewrite <- Permutation_middle, fmap_cons, Hm. apply NoDup_cons.
    change (s_mbox t ∉ mboxes s' (l1 ++ l2) /\ NoDup (mboxes s' (l1 ++ l2))).
    rewrite (mboxes_ext s s'); [split; [done|by apply (tb_mboxes _ _ Ht)]|]. intros j Hj. by apply entry_mbox, He.
Qed.

Lemma insert_ok s l1 l2 t :
  table_ok s (l1 ++ l2) -> Num_sessions s < MAX_SESSIONS -> s_mbox t ∉ mboxes s (l1 ++ l2) ->
  Forall (fun j => str_lt (s_name (ses s j)) (s_name t)) l1 -> Forall (fun j => str_lt (s_name t) (s_name (ses s j))) l2 ->
  exists i s', accept_insert (mjoin (head (targets l2))) t s = inr (i, s') /\ i ∉ l1 ++ l2 /\ table_ok s' (l1 ++ i :: l2) /\
    (forall j, entry (ses s' j) = entry (if decide (j = i) then preauth t else ses s j)).
Proof.
  intros Ht Hn Hm Hl1 Hl2. destruct (insert_table s l1 l2 t Ht Hn) as (i & s1 & Hs1 & Hi & Hl & Hf & Hd & Hr).
  unfold accept_insert. rewrite Hs1. cbn [rbind]. do 2 eexists. split; [reflexivity|]. split; [done|].
  set (s2 := upd i _ (set_Num_sessions _ s1)).
  assert (He2 : forall j, entry (ses s2 j) = entry (if decide (j = i) then preauth t else ses s j)).
  { intros j. unfold s2. rewrite ses_upd. change (ses (set_Num_sessions _ s1)) with (ses s1). revert Hd. intros Hd'. specialize (Hd' j).
    revert Hd'. destruct (decide (j = i)) as [->|Hj]; intros Hd'; [|by apply data_entry]. exact (entry_preauth _ _ Hd'). }
  destruct (hash_frame i s2) as [Hh1 Hh2]. destruct (same_links s2 _ Hh1 Hh2) as (Hn3 & Hp3 & Hf3 & Hnum3 & He3).
  assert (Hn2 : forall c, lnext s2 c = lnext s1 c) by (intros [j|]; [cbn [lnext]; unfold s2; rewrite ses_upd; case_decide; by subst|done]).
  assert (Hp2 : forall c, lprev s2 c = lprev s1 c) by (intros [j|]; [cbn [lprev]; unfold s2; rewrite ses_upd; case_decide; by subst|done]).
  set (s3 := Sess_hash_session i s2) in *.
  assert (He : forall j, entry (ses s3 j) = entry (if decide (j = i) then preauth t else ses s j)) by (intros j; by rewrite He3).
  split; [|done].
  assert (Hold : forall j, j ∈ l1 ++ l2 -> entry (ses s3 j) = entry (ses s j)).
  { intros j Hj. rewrite He, decide_False; [done|]. by intros ->. }
  specialize (He i). rewrite decide_True in He by done.
  destruct (links_ext s1 s3 (l1 ++ i :: l2)) as [Hl' Hf'];
    [intros c; by rewrite Hn3|intros c; by rewrite Hp3|by rewrite Hf3|done|done|].
  destruct (insert_fields s s3 l1 l2 i t) as [Hsort Hmb]; try done; [by apply entry_name in He|by apply entry_mbox in He|].
  constructor; [done|done| |done|done|].
  - eapply buckets_insert; [by apply (tb_buckets _ _ Ht)|done|by injection Hr|].
    intros j Hj. unfold s2. rewrite ses_upd, decide_False by done. specialize (Hd j). rewrite decide_False in Hd by done.
    split; [by apply data_hash|by apply entry_mbox, data_entry].
  - rewrite Hnum3. unfold s2. cbn [Num_sessions upd set_Sessions set_Num_sessions].
    assert (Hnum : Num_sessions s1 = Num_sessions s) by (by injection Hr). rewrite Hnum, (tb_num _ _ Ht), !length_app. cbn [length]. lia.
Qed.

(** ** Operations that leave the table alone *)

Lemma buckets_ext s s' l :
  Sessions_hash_head s' = Sessions_hash_head s ->
  (forall j, j ∈ l -> s_hash_next (ses s' j) = s_hash_next (ses s j) /\ s_mbox (ses s' j) = s_mbox (ses s j)) ->
  buckets s l -> buckets s' l.
Proof.
  intros Hh Hj (ch & Hch). exists ch. intros n. destruct (Hch n) as (Hn & Hnd & Hin). split; [|split; [done|]].
  - eapply hashed_ext; [done| |done]. intros j [Hl _]%Hin. by apply Hj.
  - intros j. rewrite Hin. split; intros [Hl Hm]; (split; [done|]); by rewrite ?(proj2 (Hj j Hl)), <- ?(proj2 (Hj j Hl)) in *.
Qed.

(** A field that tells the sessions apart. *)
Lemma key_unique {A} (key : session -> A) s l i j :
  NoDup ((fun i => key (ses s i)) <$> l) -> i ∈ l -> j ∈ l -> key (ses s i) = key (ses s j) -> i = j.
Proof.
  intros Hnd (k & Hk)%list_elem_of_lookup (k' & Hk')%list_elem_of_lookup He.
  assert (k = k') as ->; [|congruence].
  apply (NoDup_lookup _ _ _ (key (ses s i)) Hnd); rewrite list_lookup_fmap; [by rewrite Hk|by rewrite Hk', He].
Qed.

(** What the table depends on. *)
Definition link_fields (r : session) : list Z * Z * option Z * option Z * option Z :=
  (s_name r, s_mbox r, s_sort_prev r, s_sort_next r, s_hash_next r).
Definition table_vars (s : sess_state) : gmap Z Z * option Z * option Z * option Z * Z :=
  (Sessions_hash_head s, Sessions_head s, Sessions_tail s, Sessions_free s, Num_sessions s).

Lemma table_same s s' l :
  (forall j, link_fields (ses s' j) = link_fields (ses s j)) -> table_vars s' = table_vars s -> table_ok s l -> table_ok s' l.
Proof.
  intros Hj Hv [Hl Hf Hb Hs Hm Hn]. injection Hv as Hhh Hh Ht Hfr Hnum.
  assert (Hn' : forall c, lnext s' c = lnext s c) by (intros [j|]; [by injection (Hj j)|done]).
  assert (Hp' : forall c, lprev s' c = lprev s c) by (intros [j|]; [by injection (Hj j)|done]).
  destruct (links_ext s s' l Hn' Hp' Hfr Hl Hf) as [Hl' Hf']. constructor; [done|done| | | |by rewrite Hnum].
  - eapply buckets_ext; [done| |done]. intros j _. by injection (Hj j).
  - rewrite (names_ext s); [done|]. intros j _. by injection (Hj j).
  - rewrite (mboxes_ext s); [done|]. intros j _. by injection (Hj j).
Qed.

Lemma index_known s l i : table_ok s l -> i ∈ l -> Sess_get_session_index (s_mbox (ses s i)) s = inr i.
Proof.
  intros Ht Hi. destruct (lookup_mbox s l (s_mbox (ses s i)) Ht) as [(j & Hj & Hm & ->)|[Hno _]].
  - f_equal. by eapply (key_unique s_mbox s l); [apply (tb_mboxes _ _ Ht)| | |].
  - destruct Hno. by apply in_mboxes.
Qed.

(** ** Dropping a session *)

(** The buckets after taking a session out of its own. *)
Lemma buckets_delete s i l1 l2 :
  table_ok s (l1 ++ i :: l2) ->
  exists s', Sess_unhash_session i s = inr s' /\ buckets s' (l1 ++ l2) /\
    (forall j, set_s_hash_next None (ses s' j) = set_s_hash_next None (ses s j)) /\
    set_Sessions ∅ (set_Sessions_hash_head ∅ s') = set_Sessions ∅ (set_Sessions_hash_head ∅ s).
Proof.
  intros Ht. destruct (table_room _ _ Ht) as [_ Hnd]. rewrite <- Permutation_middle in Hnd. apply NoDup_cons in Hnd as [Hi Hnd].
  pose proof (tb_buckets _ _ Ht) as (ch & Hch). set (b := fd_hash (s_mbox (ses s i))).
  destruct (Hch b) as (Hb & Hbn & Hbin). assert (Hib : i ∈ ch b) by (apply Hbin; split; [apply elem_of_mid; by left|done]).
  apply list_elem_of_split in Hib as (c1 & c2 & Hc).
  assert (Hshort : (length (ch b) <= LIST_FUEL)%nat) by (apply (chain_short s (l1 ++ i :: l2)); [done|done|by intros j [? _]%Hbin]).
  rewrite Hc in Hb, Hbn, Hbin, Hshort. destruct (hash_out s i c1 c2 Hb Hbn Hshort) as (s' & Hs' & Hb' & Hother & Hj & Hs).
  exists s'. split; [done|]. split; [|done].
  assert (Hm : forall j, s_mbox (ses s' j) = s_mbox (ses s j)) by (intros j; by injection (Hj j)).
  rewrite <- Permutation_middle in Hbn. apply NoDup_cons in Hbn as [Hic Hbn].
  exists (fun n => if decide (n = b) then c1 ++ c2 else ch n). intros n. destruct (Hch n) as (Hn & Hnn & Hnin).
  case_decide as Hd.
  - subst n. split; [done|]. split; [done|]. intros j. rewrite Hm. specialize (Hbin j). rewrite !elem_of_mid in Hbin.
    split; [intros Hjc|intros [Hjl Hjb]].
    + assert (j <> i) by (by intros ->). destruct Hbin as [Hbin _]. destruct Hbin as [[?|?] ?]; [by right|done|done].
    + destruct Hbin as [_ Hbin]. destruct Hbin as [->|?]; [split; [by right|done]|done|done].
  - split; [|split; [done|]].
    + apply Hother; [done|done|]. apply Forall_forall. intros j [_ Hjn]%Hnin Hjb. apply Hbin in Hjb as [_ Hjb]. congruence.
    + intros j. rewrite Hm, Hnin, elem_of_mid. split; [|tauto]. intros [[->|?] Hjn]; [|done]. by rewrite <- Hjn in Hd.
Qed.

(** The links and the free list after the removal. *)
Lemma remove_table s l1 i l2 :
  linked s (l1 ++ i :: l2) -> free_list s (l1 ++ i :: l2) ->
  forall s', s' = Sess_remove_session i s ->
  linked s' (l1 ++ l2) /\ free_list s' (l1 ++ l2) /\
  (forall j, data (ses s' j) = if decide (j = i) then set_s_mbox (-1) (data (ses s i)) else data (ses s j)) /\
  rest s' = set_so_closed (so_closed s ++ [s_mbox (ses s i)]) (rest s).
Proof.
  intros Hl (f & Hf & Hp) s' Hs'. assert (NoDup ((l1 ++ i :: l2) ++ f)) as Hnd by (rewrite Hp; apply NoDup_seqZ).
  apply NoDup_app in Hnd as (Hnl & Hlf & Hnf). pose proof Hnl as Hnl'.
  rewrite <- Permutation_middle in Hnl'. apply NoDup_cons in Hnl' as [Hi _].
  destruct (ring_split l1 l2) as (A & a & b & B & Hr). destruct (ring_ends _ _ _ _ _ _ i Hr Hi) as [Ha Hb].
  pose proof (proj1 (linked_mid s _ _ _ _ _ _ i Hr) Hl) as ((_ & _ & Hni & _) & (_ & Hpi & _)).
  destruct (remove_links s i) as (Hout & Hdata & Hfree & Hnext & Hrest); [by rewrite Hpi|by rewrite Hni|].
  rewrite <- Hs' in Hout, Hdata, Hfree, Hnext, Hrest. clear Hs'.
  rewrite Hpi, Hni in Hout. split; [by eapply linked_out|]. split; [|exact (conj Hdata Hrest)].
  exists (i :: f). split; [|by rewrite <- Hp, <- !Permutation_middle]. apply slinked_cons. split; [done|]. rewrite Hnext.
  eapply slinked_ext; [|exact Hf]. intros j Hj. assert (Hjl : j ∉ l1 ++ i :: l2) by (intros ?; by eapply Hlf).
  rewrite elem_of_mid in Hjl. destruct (ring_ends _ _ _ _ _ _ j Hr) as [Hja Hjb]; [tauto|].
  destruct Hout as [Hout _]. specialize (Hout (Some j)). cbn [lnext] in Hout. rewrite Hout, decide_False; [done|by intros [=]|].
  intros [= ->]. tauto.
Qed.

Lemma drop_ok s l1 i l2 :
  table_ok s (l1 ++ i :: l2) ->
  exists s', drop_session i s = inr s' /\ table_ok s' (l1 ++ l2) /\
    (forall j, j ∈ l1 ++ l2 -> entry (ses s' j) = entry (ses s j)) /\ so_closed s' = so_closed s ++ [s_mbox (ses s i)].
Proof.
  intros Ht. destruct (buckets_delete s i l1 l2 Ht) as (s1 & Hs1 & Hb & Hj1 & Hr1).
  destruct (same_links s s1 Hj1 Hr1) as (Hn1 & Hp1 & Hf1 & Hnum1 & He1).
  destruct (links_ext s s1 _ Hn1 Hp1 Hf1 (tb_linked _ _ Ht) (tb_free _ _ Ht)) as [Hl1 Hfree1].
  destruct (remove_table s1 l1 i l2 Hl1 Hfree1 _ eq_refl) as (Hl & Hf & Hd & Hrest).
  destruct (table_room _ _ Ht) as [_ Hnd]. rewrite <- Permutation_middle in Hnd. apply NoDup_cons in Hnd as [Hi Hnd].
  unfold drop_session. rewrite Hs1. cbn [rbind]. eexists. split; [reflexivity|].
  set (s2 := Sess_remove_session i s1) in *. set (s3 := set_Num_sessions _ s2).
  assert (Hd' : forall j, j ∈ l1 ++ l2 -> data (ses s2 j) = data (ses s1 j)) by (intros j Hj; rewrite Hd, decide_False; [done|by intros ->]).
  assert (He : forall j, j ∈ l1 ++ l2 -> entry (ses s3 j) = entry (ses s j)) by (intros j Hj; rewrite <- He1; by apply data_entry, Hd').
  split; [|split; [done|]].
  - constructor; [done|done| | | |].
    + eapply buckets_ext; [| |exact Hb]; [by injection Hrest|]. intros j Hj%Hd'. split; [by apply data_hash|by apply entry_mbox, data_entry].
    + rewrite (names_ext s); [by apply (sorted_delete _ _ i), (tb_sorted _ _ Ht)|]. intros j Hj. by apply entry_name, He.
    + rewrite (mboxes_ext s); [|intros j Hj; by apply entry_mbox, He]. pose proof (tb_mboxes _ _ Ht) as Hm. unfold mboxes in Hm.
      rewrite <- Permutation_middle, fmap_cons in Hm. by apply NoDup_cons in Hm as [_ Hm].
    + assert (Hnum : Num_sessions s2 = Num_sessions s1) by (by injection Hrest).
      change (Num_sessions s3) with (Num_sessions s2 - 1). rewrite Hnum, Hnum1, (tb_num _ _ Ht), !length_app. cbn [length]. lia.
  - assert (Hc : so_closed s2 = so_closed s1 ++ [s_mbox (ses s1 i)]) by (by injection Hrest).
    change (so_closed s3) with (so_closed s2). rewrite Hc. rewrite (entry_mbox _ _ (He1 i)). assert (so_closed s1 = so_closed s) as -> by (by injection Hr1). done.
Qed.

(** ** The empty table *)

Lemma free_all s l f :
  NoDup (l ++ f) -> slinked (fun i => s_sort_next (ses s i)) (Sessions_free s) f ->
  let s' := foldl (fun s i => Sess_free_session i s) s l in
  slinked (fun i => s_sort_next (ses s' i)) (Sessions_free s') (rev l ++ f) /\
  Sessions_head s' = Sessions_head s /\ Sessions_tail s' = Sessions_tail s /\
  Sessions_hash_head s' = Sessions_hash_head s /\ Num_sessions s' = Num_sessions s.
Proof.
  revert s f. induction l as [|i l IH]; intros s f Hnd Hf; [done|]. cbn [foldl rev]. rewrite <- app_assoc. cbn [app].
  apply (IH (Sess_free_session i s) (i :: f)).
  - by rewrite <- Permutation_middle.
  - apply slinked_cons. split; [done|]. unfold Sess_free_session. rewrite ses_set_free, ses_upd, decide_True by done.
    apply NoDup_cons in Hnd as [Hi _]. rewrite elem_of_app in Hi.
    eapply slinked_ext; [|exact Hf]. intros j Hj. rewrite ses_set_free, ses_upd, decide_False; [done|]. intros ->. tauto.
Qed.

Lemma init_table s : Num_sessions s = 0 -> table_ok (Sess_init_sessions s) [].
Proof.
  intros Hn. unfold Sess_init_sessions. set (s0 := set_Sessions_free _ _).
  destruct (free_all s0 (seqZ 0 MAX_SESSIONS) []) as (Hf & Hh & Ht & Hb & Hnum).
  { rewrite app_nil_r. apply NoDup_seqZ. }
  { by apply slinked_nil. }
  set (s' := foldl _ _ _) in *. clearbody s'. constructor; [| | |constructor|constructor|by rewrite Hnum].
  - split; cbn; by rewrite ?Hh, ?Ht.
  - exists (rev (seqZ 0 MAX_SESSIONS)). rewrite app_nil_r in Hf. split; [done|]. symmetry. apply Permutation_rev.
  - exists (fun _ => []). intros n. split; [|split; [constructor|]].
    + unfold hashed. apply slinked_nil. by rewrite Hb.
    + intros i. split; [intros []%elem_of_nil|intros [[]%elem_of_nil _]].
Qed.
End directory.

(* --------------------------------------------------------------------- *)
(** ** The directory *)

(** The sessions of the table, without their links. *)
Definition directory (s : sess_state) (l : list Z) : gmap Z session :=
  list_to_map ((fun i => (i, entry (ses s i))) <$> l).
Definition represents (s : sess_state) (D : gmap Z session) : Prop := exists l, table_ok s l /\ D = directory s l.

(** The result of a search: the one session that satisfies [P], or -1. *)
Definition found (P : session -> Prop) (D : gmap Z session) (r : res Z) : Prop :=
  (exists i e, r = inr i /\ D !! i = Some e /\ P e /\ forall j e', D !! j = Some e' -> P e' -> j = i) \/
  (r = inr (-1) /\ forall i e, D !! i = Some e -> ~ P e).

Section refinement.
Implicit Types (s : sess_state) (l : list Z) (i j : Z) (D : gmap Z session).

Lemma directory_lookup s l i : NoDup l -> directory s l !! i = if decide (i ∈ l) then Some (entry (ses s i)) else None.
Proof.
  intros Hl. unfold directory. case_decide as Hi.
  - apply elem_of_list_to_map.
    + rewrite <- list_fmap_compose. unfold compose. cbn. by rewrite list_fmap_id.
    + by apply (list_elem_of_fmap_2 (fun i => (i, entry (ses s i)))).
  - apply not_elem_of_list_to_map. rewrite <- list_fmap_compose. unfold compose. cbn. by rewrite list_fmap_id.
Qed.

Lemma directory_Some s l i e : NoDup l -> directory s l !! i = Some e <-> i ∈ l /\ e = entry (ses s i).
Proof. intros Hl. rewrite directory_lookup by done. case_decide; naive_solver. Qed.

Lemma found_by {A} (key : session -> A) s l k r :
  (forall e, key (entry e) = key e) -> NoDup l -> NoDup ((fun i => key (ses s i)) <$> l) ->
  (exists i, i ∈ l /\ key (ses s i) = k /\ r = inr i) \/ (k ∉ (fun i => key (ses s i)) <$> l /\ r = inr (-1)) ->
  found (fun e => key e = k) (directory s l) r.
Proof.
  intros Hkey Hnd Hk [(i & Hi & <- & ->)|[Hno ->]]; [left|right].
  - exists i, (entry (ses s i)). split; [done|]. split; [by apply directory_Some|]. split; [by rewrite Hkey|].
    intros j e' [Hj ->]%directory_Some He; [|done]. rewrite Hkey in He. by eapply key_unique.
  - split; [done|]. intros i e [Hi ->]%directory_Some He; [|done]. rewrite Hkey in He. apply Hno. rewrite <- He.
    by apply (list_elem_of_fmap_2 (fun i => key (ses s i))).
Qed.

Lemma sorted_NoDup s l : StronglySorted str_lt (names s l) -> NoDup (names s l).
Proof.
  induction 1 as [|x xs Hs IH Hx]; [constructor|]. constructor; [|done]. intros Hin.
  eapply Forall_forall in Hx; [|exact Hin]. by eapply str_lt_irrefl.
Qed.

Lemma directory_insert s s' l1 i l2 e :
  NoDup (l1 ++ i :: l2) -> entry (ses s' i) = e -> (forall j, j ∈ l1 ++ l2 -> entry (ses s' j) = entry (ses s j)) ->
  directory s' (l1 ++ i :: l2) = <[i := e]> (directory s (l1 ++ l2)).
Proof.
  intros Hnd He Hj. pose proof Hnd as Hnd'. rewrite <- Permutation_middle in Hnd'. apply NoDup_cons in Hnd' as [Hi Hnd'].
  apply map_eq. intros j. rewrite directory_lookup by done. destruct (decide (i = j)) as [->|Hne].
  - rewrite lookup_insert_eq, decide_True, He; [done|]. apply elem_of_mid. by left.
  - rewrite lookup_insert_ne, directory_lookup by done. case_decide as H1; rewrite elem_of_mid in H1.
    + rewrite decide_True by naive_solver. f_equal. apply Hj. naive_solver.
    + rewrite decide_False by naive_solver. done.
Qed.

Lemma directory_delete s s' l1 i l2 :
  NoDup (l1 ++ i :: l2) -> (forall j, j ∈ l1 ++ l2 -> entry (ses s' j) = entry (ses s j)) ->
  directory s' (l1 ++ l2) = delete i (directory s (l1 ++ i :: l2)).
Proof.
  intros Hnd Hj. pose proof Hnd as Hnd'. rewrite <- Permutation_middle in Hnd'. apply NoDup_cons in Hnd' as [Hi Hnd'].
  apply map_eq. intros j. rewrite directory_lookup by done. destruct (decide (i = j)) as [->|Hne].
  - by rewrite lookup_delete_eq, decide_False.
  - rewrite lookup_delete_ne, directory_lookup by done. case_decide as H1.
    + rewrite decide_True by (rewrite elem_of_mid; tauto). f_equal. by apply Hj.
    + rewrite decide_False; [done|]. rewrite elem_of_mid. naive_solver.
Qed.

Lemma no_key {A} (key : session -> A) s l k :
  (forall e, key (entry e) = key e) -> NoDup l ->
  map_Forall (fun _ e => key e <> k) (directory s l) <-> k ∉ (fun i => key (ses s i)) <$> l.
Proof.
  intros Hkey Hnd. split.
  - intros Hall (i & -> & Hi)%list_elem_of_fmap. apply (Hall i (entry (ses s i))); [by apply directory_Some|by rewrite Hkey].
  - intros Hno i e [Hi ->]%directory_Some He; [|done]. apply Hno. rewrite Hkey in He. rewrite <- He.
    by apply (list_elem_of_fmap_2 (fun i => key (ses s i))).
Qed.

Lemma directory_size s l : NoDup l -> size (directory s l) = length l.
Proof.
  induction 1 as [|i l Hi Hnd IH]; [done|]. cbn [length]. rewrite <- IH. unfold directory at 1. cbn [fmap list_fmap list_to_map foldr].
  apply map_size_insert_None. change (directory s l !! i = None). by rewrite directory_lookup, decide_False.
Qed.

(** C20: the table of sessions.  The sorted list, the hash chains and the free
    list implement a finite map from session numbers to sessions: a search by
    mailbox or by private name gives the one session that has it, or -1 when
    there is none; a name is found unique exactly when no session has it, and
    then a session with that name is added, before authorisation, under a
    number that was free, as long as there is one; dropping a session closes
    its mailbox and takes it out.  No other session changes. *)
Theorem session_directory s D :
  represents s D ->
  (forall mbox, found (fun e => s_mbox e = mbox) D (Sess_get_session_index mbox s)) /\
  (forall name, found (fun e => s_name e = name) D (Sess_get_session name s)) /\
  Num_sessions s = Z.of_nat (size D) /\
  (forall t, Num_sessions s < MAX_SESSIONS -> map_Forall (fun _ e => s_mbox e <> s_mbox t) D ->
   exists u w, unique_private_name (s_name t) s = inr (u, w) /\ (u = true <-> map_Forall (fun _ e => s_name e <> s_name t) D) /\
     (u = true -> exists i s', accept_insert w t s = inr (i, s') /\ 0 <= i < MAX_SESSIONS /\ D !! i = None /\
        represents s' (<[i := entry (preauth t)]> D))) /\
  (forall i e, D !! i = Some e ->
   exists s', drop_session i s = inr s' /\ so_closed s' = so_closed s ++ [s_mbox e] /\ represents s' (delete i D)).
Proof.
  intros (l & Ht & ->). destruct (table_room s l Ht) as [Hroom Hnd].
  pose proof (sorted_NoDup _ _ (tb_sorted _ _ Ht)) as Hnames.
  split_and!.
  - intros mbox. apply (found_by s_mbox); [done|done|by apply (tb_mboxes _ _ Ht)|by apply lookup_mbox].
  - intros name. apply (found_by s_name); [done|done|done|by apply lookup_name].
  - by rewrite directory_size, (tb_num _ _ Ht).
  - intros t Hn Hm%(no_key s_mbox); [|done..].
    destruct (unique_split s l (s_name t) Ht) as (u & w & l1 & l2 & Hu & -> & -> & Hun & Hl). do 2 eexists. split; [exact Hu|].
    split; [by rewrite (no_key s_name)|]. intros [Hl1 Hl2]%Hl.
    destruct (insert_ok s l1 l2 t) as (i & s' & Hs' & Hi & Ht' & He); [done..|].
    exists i, s'. split; [done|]. split; [apply (table_range _ _ _ Ht'), elem_of_mid; by left|].
    split; [by rewrite directory_lookup, decide_False|]. exists (l1 ++ i :: l2). split; [done|]. symmetry.
    apply directory_insert; [by apply (table_room s')|by rewrite He, decide_True|].
    intros j Hj. rewrite He, decide_False; [done|]. by intros ->.
  - intros i e [Hi ->]%directory_Some; [|done]. apply list_elem_of_split in Hi as (l1 & l2 & ->).
    destruct (drop_ok s l1 i l2 Ht) as (s' & Hs' & Ht' & He & Hc). exists s'. split; [done|]. split; [done|].
    exists (l1 ++ l2). split; [done|]. symmetry. by apply directory_delete.
Qed.
End refinement.

(** A table with one session. *)
Definition no_table : sess_state := mkSessState ∅ ∅ None None None 0 0 0 (str_bytes "host1") ∅ [] [] ∅ [] [] 0.
Definition ana : session := set_s_name (str_bytes "ana") (set_s_mbox 7 no_session).

Lemma one_session :
  exists s i, represents s {[i := entry (preauth ana)]} /\ Sess_get_session_index 7 s = inr i.
Proof.
  pose proof (init_table no_table eq_refl) as Ht.
  destruct (insert_ok (Sess_init_sessions no_table) [] [] ana) as (i & s & _ & _ & Hs & He);
    [exact Ht|by rewrite (tb_num _ _ Ht)|by intros ?%elem_of_nil|constructor|constructor|].
  exists s, i. assert (HD : directory s [i] = {[i := entry (preauth ana)]}).
  { unfold directory. cbn [fmap list_fmap list_to_map foldr]. by rewrite He, decide_True. }
  split; [by exists [i]|]. pose proof (entry_mbox _ _ (He i)) as Hm. rewrite decide_True in Hm by done.
  destruct (lookup_mbox s [i] 7 Hs) as [(j & ->%list_elem_of_singleton & _ & Hj)|[Hno _]]; [done|].
  destruct Hno. apply list_elem_of_singleton. by rewrite Hm.
Qed.

Lemma session_directory_witness :
  exists s i, represents s {[i := entry (preauth ana)]} /\ Sess_get_session (str_bytes "ana") s = inr i /\
    (exists s', drop_session i s = inr s' /\ represents s' ∅) /\ exists w, unique_private_name (str_bytes "ana") s = inr (false, w).
Proof.
  destruct one_session as (s & i & Hs & Hi). exists s, i. split; [done|].
  destruct (session_directory s _ Hs) as (_ & Hname & Hnum & Hadd & Hdrop). split; [|split].
  - destruct (Hname (str_bytes "ana")) as [(j & e & -> & [-> _]%lookup_singleton_Some & _)|[_ Hno]]; [done|].
    destruct (Hno i _ (lookup_singleton_eq _ _)). done.
  - destruct (Hdrop i _ (lookup_singleton_eq _ _)) as (s' & Hs' & _ & Hr). exists s'. by rewrite delete_singleton_eq in Hr.
  - destruct (Hadd (set_s_mbox 8 ana)) as (u & w & Hu & Hun & _).
    + rewrite Hnum, map_size_singleton. done.
    + by apply map_Forall_singleton.
    + exists w. destruct u; [|done]. destruct Hun as [Hun _]. specialize (Hun eq_refl). by apply map_Forall_singleton in Hun.
Defined.
