(* ===== verification/SessWrite.v ===== *)
(** * Holding back the clients and sending to them ([daemon/session.c])

    First the threshold that holds back the clients, and calls from the session
    layer into the core: what the core asked of the session layer during a
    call is in its output, and is done when the call returns.  Then writing:
    messages for a client go straight to its socket; what the socket does not
    take is queued and sent later, by the write event or the timer that
    "badger" the client.  A client that does not read is killed. *)

From Stdlib Require Import ZArith Lia.
From stdpp Require Import base strings numbers option gmap list.
From S2P Require Import Prelude Wire Bytes Config Events State Sample Network FlowControl MembSets MembCore Deliver Delivery ProtSend Retrans Requests Packing Sending EndToEnd Message EventsFd Names.
From S2P Require Import GroupState SessState SessTable SessDir.

(** ** The threshold *)

Definition Sess_set_active_threshold : MS unit :=
  let* w := get in
  on_core (in_ev (E_set_active_threshold
    (if Session_threshold (ss w) <? Protocol_threshold (ss w) then Protocol_threshold (ss w)
     else Session_threshold (ss w)))) ;;
  ret tt.

Definition Sess_block_users_level : MS unit :=
  let* w := get in
  when (Protocol_threshold (ss w) <? MEDIUM_PRIORITY)
    (s_do (set_Protocol_threshold MEDIUM_PRIORITY) ;; Sess_set_active_threshold).
Definition Sess_unblock_users_level : MS unit :=
  let* w := get in
  when (LOW_PRIORITY <? Protocol_threshold (ss w))
    (s_do (set_Protocol_threshold LOW_PRIORITY) ;; Sess_set_active_threshold).

(** ** Calls into the core *)

(** What the core asked for of the session layer. *)
Definition level_change (o : output) : MS unit :=
  match o with
  | Out_block_users => Sess_block_users_level
  | Out_unblock_users => Sess_unblock_users_level
  | _ => ret tt
  end.
Definition outputs (w : sess_world) : list output := io_out (io (core w)).
Definition core_call {A} (m : M world A) : MS A :=
  let* w := get in
  let* a := on_core m in
  let* w' := get in
  mforeach level_change (drop (length (outputs w)) (outputs w')) ;;
  ret a.

(* --------------------------------------------------------------------- *)
(** ** What is watched *)

Section levels.
Implicit Types (w : sess_world) (fd t : Z).

(** The state between two changes of the level: the masks are those of the
    threshold, which is the one the session layer wants. *)
Record level_ok w : Prop := mkLevelOk {
  lv_types : types_ok (ev (core w));
  lv_session : Session_threshold (ss w) = LOW_PRIORITY;
  lv_values : Protocol_threshold (ss w) = LOW_PRIORITY \/ Protocol_threshold (ss w) = MEDIUM_PRIORITY;
  lv_active : ev_Active_priority (ev (core w)) = Protocol_threshold (ss w);
  lv_masks : forall fd t, watched (ev (core w)) fd t <-> armed_fd (ev (core w)) fd t;
}.

(** Everything but the level and the masks. *)
Definition same_below w w' : Prop :=
  set_Protocol_threshold 0 (ss w') = set_Protocol_threshold 0 (ss w) /\
  ev_Fd_queue (ev (core w')) = ev_Fd_queue (ev (core w)) /\ ev_Time_queue (ev (core w')) = ev_Time_queue (ev (core w)) /\
  on_ev (fun _ => ev (core w)) (core w') = core w.

Lemma set_level w (p : Z) :
  level_ok w -> p = LOW_PRIORITY \/ p = MEDIUM_PRIORITY -> Protocol_threshold (ss w) <> p ->
  wp (s_do (set_Protocol_threshold p) ;; Sess_set_active_threshold)
    (fun _ w' => level_ok w' /\ Protocol_threshold (ss w') = p /\ same_below w w') never w.
Proof.
  intros [Ht Hs Hv Ha Hm] Hp Hne. apply wp_bind, wp_modify. unfold Sess_set_active_threshold. apply wp_bind, wp_get.
  cbn [ss core Session_threshold Protocol_threshold set_Protocol_threshold]. rewrite Hs.
  replace (if LOW_PRIORITY <? p then p else LOW_PRIORITY) with p by (by destruct Hp as [-> | ->]).
  apply wp_bind. unfold wp, on_core, in_ev. cbn [core ss].
  pose proof (set_threshold_masks (ev (core w)) p Ht) as Hwp. rewrite Ha in Hwp.
  specialize (Hwp ltac:(destruct Hp as [-> | ->]; done) (not_eq_sym Hne)). unfold wp in Hwp.
  destruct (E_set_active_threshold p (ev (core w))) as [r e'|]; [|done].
  destruct Hwp as (_ & Hap & Hq & Htq & Ht' & Hm'). unfold wp, ret. cbn [ss core].
  split; [by constructor|].
  split; [done|]. split_and!; try done. by destruct (core w).
Qed.

Lemma same_below_refl w : same_below w w.
Proof. split_and!; try done. by destruct w as [s []]. Qed.

Lemma watched_level w w' fd t :
  level_ok w' -> same_below w w' ->
  watched (ev (core w')) fd t <->
    exists i, Protocol_threshold (ss w') <= i < NUM_PRIORITY /\ active_in (fq_events (fd_queue_at (ev (core w)) i)) fd t.
Proof.
  intros Hw' (_ & Hq & _). rewrite (lv_masks _ Hw'). unfold armed_fd, armed_at. rewrite (lv_active _ Hw').
  unfold fd_queue_at. rewrite Hq. split; intros (i & Hi & Ha); exists i; (split; [|done]).
  - apply elem_of_seqZ in Hi. lia.
  - apply elem_of_seqZ. lia.
Qed.

Lemma level_summary w w' (p : Z) :
  level_ok w' -> Protocol_threshold (ss w') = p -> same_below w w' ->
  level_ok w' /\ Protocol_threshold (ss w') = p /\ same_below w w' /\
  (forall fd t, watched (ev (core w')) fd t <->
     exists i, p <= i < NUM_PRIORITY /\ active_in (fq_events (fd_queue_at (ev (core w)) i)) fd t).
Proof. intros Hw' <- Hs. split; [done|]. split; [done|]. split; [done|]. intros fd t. by apply watched_level. Qed.

(** Flow control of the clients.  When the protocol asks to hold back the
    users, the daemon goes on watching the active descriptors at or above
    medium priority and nothing else, so that no client is read; when it lets
    them go, everything active is watched again; asking twice changes
    nothing, and nothing but the threshold and the masks changes. *)
Theorem users_level w :
  level_ok w ->
  wp Sess_block_users_level
    (fun _ w' => level_ok w' /\ Protocol_threshold (ss w') = MEDIUM_PRIORITY /\ same_below w w' /\
       (forall fd t, watched (ev (core w')) fd t <->
          exists i, MEDIUM_PRIORITY <= i < NUM_PRIORITY /\ active_in (fq_events (fd_queue_at (ev (core w)) i)) fd t)) never w /\
  wp Sess_unblock_users_level
    (fun _ w' => level_ok w' /\ Protocol_threshold (ss w') = LOW_PRIORITY /\ same_below w w' /\
       (forall fd t, watched (ev (core w')) fd t <->
          exists i, LOW_PRIORITY <= i < NUM_PRIORITY /\ active_in (fq_events (fd_queue_at (ev (core w)) i)) fd t)) never w.
Proof.
  intros Hw. pose proof (lv_values _ Hw) as Hv. split.
  - unfold Sess_block_users_level. apply wp_bind, wp_get, wp_when; intros Hlt.
    + eapply wp_mono; [apply set_level; [done|by right|intros E; by rewrite E in Hlt]| |done].
      intros _ w' (Hw' & Hp & Hs). by apply level_summary.
    + assert (Hp : Protocol_threshold (ss w) = MEDIUM_PRIORITY) by (by destruct Hv as [E|]; [rewrite E in Hlt|]).
      apply level_summary; [done|done|apply same_below_refl].
  - unfold Sess_unblock_users_level. apply wp_bind, wp_get, wp_when; intros Hlt.
    + eapply wp_mono; [apply set_level; [done|by left|intros E; by rewrite E in Hlt]| |done].
      intros _ w' (Hw' & Hp & Hs). by apply level_summary.
    + assert (Hp : Protocol_threshold (ss w) = LOW_PRIORITY) by (by destruct Hv as [|E]; [|rewrite E in Hlt]).
      apply level_summary; [done|done|apply same_below_refl].
Qed.

(** A daemon with a channel at high priority and a client at low priority. *)
Definition sample_fds (priority : Z) (masks : list (gset Z)) : ev_state :=
  set_ev_Active_priority priority
    (set_fd_queue_at HIGH_PRIORITY (mkFdQueue [mkFdEvent 4 READ_FD Prot_handle_bcast_fd 0 0 true] 1)
      (set_fd_queue_at LOW_PRIORITY (mkFdQueue [mkFdEvent 7 READ_FD (Other_fd 1) 0 0 true] 1)
        (set_ev_Fd_mask masks ev_initial))).
Definition sample_level : sess_world :=
  mkSessWorld no_table (on_ev (fun _ => sample_fds LOW_PRIORITY [{[4; 7]}; ∅; ∅]) sample_world) no_groups.

Lemma sample_types p m : length m = Z.to_nat NUM_FDTYPES -> types_ok (sample_fds p m).
Proof.
  intros Hm. split; [done|]. intros i x. unfold fd_queue_at, aget. destruct (i <? 0); [by intros ?%elem_of_nil|].
  destruct (Z.to_nat i) as [|[|[|k]]]; cbn; intros Hx;
    repeat (apply elem_of_cons in Hx as [->|Hx]; [done|]); by apply elem_of_nil in Hx.
Qed.

Lemma users_level_witness :
  level_ok sample_level /\
  match Sess_block_users_level sample_level with
  | Done _ w => ev_Fd_mask (ev (core w)) = [{[4]}; ∅; ∅] /\
      match Sess_unblock_users_level w with
      | Done _ w => ev_Fd_mask (ev (core w)) = [{[4; 7]}; ∅; ∅]
      | Failed _ => False
      end
  | Failed _ => False
  end /\
  wp Sess_block_users_level (fun _ w' => level_ok w' /\ Protocol_threshold (ss w') = MEDIUM_PRIORITY) never sample_level.
Proof.
  assert (H : level_ok sample_level).
  { constructor; try done; [|by left|].
    - by apply sample_types.
    - pose proof (set_threshold_masks (sample_fds MEDIUM_PRIORITY [{[4]}; ∅; ∅]) LOW_PRIORITY) as Hwp.
      specialize (Hwp ltac:(by apply sample_types) ltac:(done) ltac:(done)). unfold wp in Hwp.
      replace (E_set_active_threshold _ _) with (Done LOW_PRIORITY (sample_fds LOW_PRIORITY [{[4; 7]}; ∅; ∅])) in Hwp
        by (vm_compute; reflexivity).
      apply Hwp. }
  split; [done|]. split; [vm_compute; split; reflexivity|].
  eapply wp_mono; [apply (proj1 (users_level sample_level H))| |done]. intros _ w' (H1 & H2 & _). done.
Defined.
End levels.

Definition set_cur_byte (x : Z) (p : partial_message_info) : partial_message_info :=
  mkPartial (cur_element p) x (total_bytes p) (in_mess_head p).
Definition set_cur_element (x : Z) (p : partial_message_info) : partial_message_info :=
  mkPartial x (cur_byte p) (total_bytes p) (in_mess_head p).
Definition set_total_bytes (x : Z) (p : partial_message_info) : partial_message_info :=
  mkPartial (cur_element p) (cur_byte p) x (in_mess_head p).
Definition set_in_mess_head (x : Z) (p : partial_message_info) : partial_message_info :=
  mkPartial (cur_element p) (cur_byte p) (total_bytes p) x.
Definition on_read (f : partial_message_info -> partial_message_info) (r : session) : session := set_s_read (f (s_read r)) r.
Definition on_write (f : partial_message_info -> partial_message_info) (r : session) : session := set_s_write (f (s_write r)) r.

Definition the_session (i : Z) : MS session := gets (fun w => ses (ss w) i).
(** [Sess_get_session_index( mbox )]. *)
Definition index_of (mbox : Z) : MS Z := fun w => lift (Sess_get_session_index mbox (ss w)) w.
Definition legal_index (i : Z) : bool := (0 <=? i) && (i <? MAX_SESSIONS).

(** ** Badgering *)

(** The timer and the write event of a client that has something to be sent. *)
Definition badger_later (mbox : Z) : MS unit :=
  on_core (E_queue Sess_badger_TO mbox Badger_timeout) ;; attach_fd mbox WRITE_FD Sess_badger_FD.
Definition badger_no_more (mbox : Z) : MS unit :=
  on_core (E_dequeue Sess_badger_TO mbox) ;; detach_fd mbox WRITE_FD.

(** [send] of [n] bytes of a buffer from [from] on. *)
Definition send_part (mbox : Z) (b : buf) (from n : Z) : MS Z :=
  if n <? 0 then fail (Undefined "send: negative length") else send mbox (get_bytes b from n).

(** The header of the message, if it was not sent; [able_to_write]. *)
Definition badger_head (i mbox : Z) (msg : message_obj) : MS bool :=
  let* r := the_session i in
  if in_mess_head (s_write r) =? 1 then
    let from := cur_byte (s_write r) in
    let bytes_to_send := sizeof_message_header - from in
    let* k := send_part mbox (se_buf (element msg 0)) from bytes_to_send in
    if k =? bytes_to_send then ses_do i (on_write Message_set_location_begin_body) ;; ret true
    else when (0 <? k) (ses_do i (on_write (set_cur_byte (from + k)))) ;; ret false
  else ret true.

(** The elements [scat->elements[cur_element ..]], the first one from [from]. *)
Fixpoint badger_body (i mbox : Z) (l : scatter) (from : Z) : MS bool :=
  match l with
  | [] => ret true
  | e :: l =>
      let bytes_to_send := se_len e - from in
      let* k := send_part mbox (se_buf e) from bytes_to_send in
      if k =? bytes_to_send then
        ses_do i (on_write (fun p => set_cur_element (cur_element p + 1) (set_cur_byte 0 p))) ;;
        badger_body i mbox l 0
      else
        when (0 <? k) (ses_do i (on_write (fun p => set_cur_byte (cur_byte p + k) p))) ;; ret false
  end.

(** The queue of the session is [q]. *)
Fixpoint badger_loop (i mbox : Z) (q : list message_obj) : MS unit :=
  let* r := the_session i in
  if 0 <? s_num_mess r then
    match q with
    | [] => fail (Undefined "Sess_badger: first")
    | msg :: q =>
        let* able_to_write := badger_head i mbox msg in
        let* r := the_session i in
        let* able_to_write :=
          (if able_to_write then
             badger_body i mbox (drop (Z.to_nat (cur_element (s_write r))) msg) (cur_byte (s_write r))
           else ret false) in
        when able_to_write
          (ses_do i (fun r => set_s_write Message_reset_current_location (set_s_num_mess (s_num_mess r - 1) (set_s_queue q r))) ;;
           badger_loop i mbox q)
    end
  else ret tt.

Definition Sess_badger (mbox : Z) : MS unit :=
  let* i := index_of mbox in
  let* r := the_session i in
  if negb (legal_index i) || negb (Is_session OP_SESSION (s_status r)) || (s_num_mess r <=? 0)
  then badger_no_more mbox
  else
    badger_loop i mbox (s_queue r) ;;
    let* r := the_session i in
    if 0 <? s_num_mess r then badger_later mbox else badger_no_more mbox.

(** ** The end of a session *)

Definition Sess_clear_session (i : Z) : MS unit :=
  let* r := the_session i in
  (if Z.of_nat (length (s_queue r)) <? s_num_mess r then fail (Undefined "Sess_clear_session: first") else ret tt) ;;
  ses_do i (fun r => set_s_queue [] (set_s_num_mess (Z.min 0 (s_num_mess r)) r)) ;;
  ses_do i (set_s_read_mess None) ;;
  ses_do i (fun r => set_s_write Message_reset_current_location
                       (set_s_read (set_in_mess_head 1 Message_reset_current_location) r)) ;;
  ses_do i (fun r => set_s_status (Clear_session OP_SESSION (s_status r)) r) ;;
  on_core (E_dequeue Sess_badger_TO (s_mbox r)) ;;
  detach_fd (s_mbox r) READ_FD ;;
  detach_fd (s_mbox r) EXCEPT_FD ;;
  detach_fd (s_mbox r) WRITE_FD.

(** [Prot_Create_Down_Link( msg, type, mbox, 0 )]: [None] is [NULL]. *)
Definition Prot_Create_Down_Link (msg : message_obj) (type : Z) : option down_link :=
  if type =? -1 then None else Some (mkDownLink type msg).

Section sending.
Context `{Session}.

Definition Sess_kill (mbox : Z) : MS unit :=
  let* i := index_of mbox in
  if negb (legal_index i) then ret tt
  else
    let* w := get in
    let r := ses (ss w) i in
    when (negb (Is_session OP_SESSION (s_status r)) && Is_session PRE_AUTH_SESSION (s_status r))
      (fail (Fatal "Sess_kill: killed before authentication")) ;;
    let kill_mess := Message_create_message (Z.lor KILL_MESS SAFE_MESS) (private_group (s_name r) (sx_My_name (ss w))) in
    match Prot_Create_Down_Link kill_mess (Message_get_packet_type (mh_type (Message_get_message_header kill_mess))) with
    | None => fail (Undefined "Sess_kill: down_ptr")
    | Some down_ptr =>
        core_call (Prot_new_message down_ptr) ;;
        Sess_clear_session i
    end.

(** ** Writing a message *)

(** The elements after the first: the bytes that were sent, added to
    [len_sent]. *)
Fixpoint send_rest (mbox : Z) (l : scatter) (len_sent : Z) : MS Z :=
  match l with
  | [] => ret len_sent
  | e :: l =>
      let* k := send_part mbox (se_buf e) 0 (se_len e) in
      let len_sent := if 0 <? k then len_sent + k else len_sent in
      if k =? se_len e then send_rest mbox l len_sent else ret len_sent
  end.

(** The message, to a client with nothing queued; the value is [len_sent]. *)
Definition write_now (mbox : Z) (msg : message_obj) : MS Z :=
  let* k := send_part mbox (se_buf (element msg 0)) 0 sizeof_message_header in
  let len_sent := if 0 <? k then k else 0 in
  if negb (k =? sizeof_message_header) then ret len_sent
  else
    let first_data_ptr := Message_get_first_data_ptr msg in
    let first_data_len := Message_get_first_data_len msg in
    let* k := send_part mbox (se_buf (element msg first_data_ptr.1)) first_data_ptr.2 first_data_len in
    let len_sent := if 0 <? k then len_sent + k else len_sent in
    if negb (k =? first_data_len) then ret len_sent
    else send_rest mbox (tail msg) len_sent.

(** The value is the new [*needed]: how many sessions hold the message. *)
Definition Sess_write (i : Z) (msg : message_obj) (needed : Z) : MS Z :=
  if negb ((0 <=? i) && (i <=? MAX_SESSIONS)) then fail (Undefined "Sess_write: Sessions[ses]")
  else
    let* w := get in
    let r := ses (ss w) i in
    if negb (Is_session OP_SESSION (s_status r)) then ret needed
    else if cf_MaxSessionMessages (cf (core w)) <=? s_num_mess r then Sess_kill (s_mbox r) ;; ret needed
    else
      when (0 <? s_num_mess r) (Sess_badger (s_mbox r)) ;;
      let* r := the_session i in
      let total_to_send := mess_len msg in
      let* len_sent := (if s_num_mess r =? 0 then write_now (s_mbox r) msg else ret 0) in
      if len_sent <? total_to_send then
        (* a copy when another session holds the message itself *)
        let mess := if truth needed then Message_copy_message msg else msg in
        (if s_num_mess r =? 0 then
           ses_do i (fun r => set_s_queue [mess] r) ;;
           ses_do i (on_write (Message_calculate_current_location mess len_sent)) ;;
           badger_later (s_mbox r)
         else ses_do i (fun r => set_s_queue (s_queue r ++ [mess]) r)) ;;
        ses_do i (fun r => set_s_num_mess (s_num_mess r + 1) r) ;;
        ret (needed + 1)
      else ret needed.
End sending.
