(* ===== verification/SessStream.v ===== *)
(** * What a client is sent

    Whatever the socket takes of each [send], the bytes a client was sent and
    those that are queued for it are together the messages that were written
    to it, in order. *)

From Stdlib Require Import ZArith Lia.
From stdpp Require Import base strings numbers option gmap list.
From S2P Require Import Prelude Wire Bytes Config Events EventsFd State Network FlowControl MembSets MembCore ProtSend.
From S2P Require Import Sample Retrans Requests Packing Deliver Delivery Sending EndToEnd Message Names GroupState SessState SessTable SessDir SessWrite.

(** ** The stream of a session *)

(** What is left of a message at a position. *)
Definition unsent (msg : message_obj) (p : partial_message_info) : list Z :=
  drop (Z.to_nat (cur_byte p)) (mess_bytes (drop (Z.to_nat (cur_element p)) msg)).
Definition pending (r : session) : list Z :=
  match s_queue r with
  | [] => []
  | msg :: q => unsent msg (s_write r) ++ concat (mess_bytes <$> q)
  end.

(** A position inside a message. *)
Definition located (msg : message_obj) (p : partial_message_info) : Prop :=
  in_mess_head p = 0 /\ 0 <= cur_element p /\ 0 <= cur_byte p /\
  match drop (Z.to_nat (cur_element p)) msg with
  | e :: _ => cur_byte p <= se_len e
  | [] => cur_byte p = 0
  end.
Definition writing_ok (r : session) : Prop :=
  s_num_mess r = Z.of_nat (length (s_queue r)) /\ Forall (Forall elem_ok) (s_queue r) /\
  match s_queue r with msg :: _ => located msg (s_write r) | [] => True end.

(** A session without what writing changes. *)
Definition still (r : session) : session :=
  set_s_queue [] (set_s_num_mess 0 (set_s_write Message_reset_current_location r)).
Definition calm (s : sess_state) : sess_state := set_Sessions ∅ (set_so_send [] (set_so_out ∅ s)).

(** Only what is written to the session [i] with mailbox [mbox] changes. *)
Definition only_writes (i mbox : Z) (s s' : sess_state) : Prop :=
  (forall j, j <> i -> ses s' j = ses s j) /\ still (ses s' i) = still (ses s i) /\ calm s' = calm s /\
  (forall m, m <> mbox -> out_bytes s' m = out_bytes s m).
#[export] Instance only_writes_preorder i mbox : PreOrder (only_writes i mbox).
Proof.
  split; [by intros s|]. intros s1 s2 s3 (H1 & H2 & H3 & H4) (H1' & H2' & H3' & H4').
  split; [intros j Hj; by rewrite H1', H1|]. split; [congruence|]. split; [congruence|].
  intros m Hm. by rewrite H4', H4.
Qed.

Section stream.
Context (i mbox : Z).
Implicit Types (w : sess_world) (msg : message_obj) (r : session) (b : buf).

Lemma only_upd f s : (forall r, still (f r) = still r) -> only_writes i mbox s (upd i f s).
Proof.
  intros Hf. split; [intros j Hj; by rewrite ses_upd, decide_False|]. by rewrite ses_upd, decide_True.
Qed.

(** What one [send] does. *)
Lemma send_part_spec b from n w :
  0 <= n ->
  wp (send_part mbox b from n)
    (fun k w' => core w' = core w /\ only_writes i mbox (ss w) (ss w') /\ ses (ss w') i = ses (ss w) i /\
       k <= n /\ out_bytes (ss w') mbox = out_bytes (ss w) mbox ++ take (Z.to_nat k) (get_bytes b from n)) never w.
Proof.
  intros Hn. unfold send_part. rewrite (proj2 (Z.ltb_ge n 0)) by done. unfold send.
  apply wp_bind, wp_get, wp_bind, wp_modify, wp_if; intros Hk.
  - apply wp_ret. cbn. split; [done|]. split; [done|]. split; [done|]. split; [lia|]. by rewrite app_nil_r.
  - apply Z.ltb_ge in Hk. apply wp_bind, wp_modify, wp_ret. cbn [core ss]. set (k := next_result _) in *.
    split; [done|]. split; [|split; [done|]].
    + split; [done|]. split; [done|]. split; [done|]. intros m Hm. unfold out_bytes. cbn. by rewrite lookup_insert_ne.
    + rewrite length_take, get_bytes_length. split; [lia|].
      unfold out_bytes at 1. cbn. rewrite lookup_insert_eq. cbn. f_equal.
      destruct (decide (Z.to_nat k <= Z.to_nat n)%nat) as [Hle|Hgt].
      * rewrite Nat.min_l by done. rewrite Z2Nat.id by done. done.
      * rewrite Nat.min_r by lia. rewrite !take_ge; [done|rewrite get_bytes_length; lia..].
Qed.

(** The body of a message from its position on. *)
Definition sent_body msg w (able : bool) w' : Prop :=
  core w' = core w /\ only_writes i mbox (ss w) (ss w') /\ s_queue (ses (ss w') i) = s_queue (ses (ss w) i) /\
  s_num_mess (ses (ss w') i) = s_num_mess (ses (ss w) i) /\ located msg (s_write (ses (ss w') i)) /\
  out_bytes (ss w') mbox ++ unsent msg (s_write (ses (ss w') i)) =
    out_bytes (ss w) mbox ++ unsent msg (s_write (ses (ss w) i)) /\
  (able = true -> unsent msg (s_write (ses (ss w') i)) = []).

Lemma drop_elem_bytes e m (from : Z) : 0 <= from <= se_len e ->
  drop (Z.to_nat from) (mess_bytes (e :: m)) = get_bytes (se_buf e) from (se_len e - from) ++ mess_bytes m.
Proof.
  intros Hf. rewrite mess_bytes_cons, drop_app_le by (rewrite elem_bytes_length; lia). f_equal.
  unfold elem_bytes. replace (se_len e) with (from + (se_len e - from)) at 1 by lia.
  rewrite get_bytes_split by lia. rewrite drop_app_ge by (rewrite get_bytes_length; lia).
  by rewrite get_bytes_length, Nat.sub_diag, drop_0.
Qed.

Lemma sent_body_trans msg w w1 able w' :
  sent_body msg w false w1 -> sent_body msg w1 able w' -> sent_body msg w able w'.
Proof.
  intros (H1 & H2 & H3 & H4 & H5 & H6 & _) (K1 & K2 & K3 & K4 & K5 & K6 & K7).
  split; [congruence|]. split; [by etransitivity|]. split_and!; try congruence; done.
Qed.

(** The position moves by what was sent. *)
Lemma sent_move msg w w1 (f : partial_message_info -> partial_message_info) sent :
  core w1 = core w -> only_writes i mbox (ss w) (ss w1) -> ses (ss w1) i = ses (ss w) i ->
  out_bytes (ss w1) mbox = out_bytes (ss w) mbox ++ sent ->
  located msg (f (s_write (ses (ss w) i))) ->
  unsent msg (s_write (ses (ss w) i)) = sent ++ unsent msg (f (s_write (ses (ss w) i))) ->
  sent_body msg w false (mkSessWorld (upd i (on_write f) (ss w1)) (core w1) (gs w1)).
Proof.
  intros Hc Ho Hs Hout Hl Hu. unfold sent_body. cbn [ss core]. rewrite ses_upd, decide_True by done. rewrite Hs.
  split; [done|]. split; [etransitivity; [exact Ho|by apply only_upd]|]. split; [done|]. split; [done|]. split; [done|].
  split; [|done]. rewrite Hu, app_assoc, <- Hout. done.
Qed.

Lemma badger_body_spec msg l : forall w,
  Forall elem_ok msg -> located msg (s_write (ses (ss w) i)) ->
  l = drop (Z.to_nat (cur_element (s_write (ses (ss w) i)))) msg ->
  wp (badger_body i mbox l (cur_byte (s_write (ses (ss w) i)))) (sent_body msg w) never w.
Proof.
  induction l as [|e l IH]; intros w Hok Hloc Hl; cbn [badger_body].
  { apply wp_ret. split_and!; try done. intros _. unfold unsent. rewrite <- Hl. apply drop_nil. }
  pose proof Hloc as (Hh & Hce & Hcb & Hlen). rewrite <- Hl in Hlen.
  set (p := s_write (ses (ss w) i)) in *.
  assert (Hdrop : drop (Z.to_nat (cur_element p + 1)) msg = l).
  { rewrite Z2Nat.inj_add by lia. rewrite <- drop_drop, <- Hl. done. }
  assert (Hel : Forall elem_ok (e :: l)) by (rewrite Hl; by apply Forall_drop).
  assert (Hun : unsent msg p = get_bytes (se_buf e) (cur_byte p) (se_len e - cur_byte p) ++ mess_bytes l).
  { unfold unsent. rewrite <- Hl. by apply drop_elem_bytes. }
  apply wp_bind. eapply wp_mono; [apply send_part_spec; lia| |done].
  intros k w1 (Hc & Ho & Hs & Hk & Hout). apply wp_if; intros Hkn.
  - apply Z.eqb_eq in Hkn. apply wp_bind, wp_modify. set (w2 := mkSessWorld _ _ _).
    assert (Hw2 : sent_body msg w false w2).
    { eapply sent_move; try done; fold p; cbn [cur_element cur_byte set_cur_element set_cur_byte].
      - split_and!; [done|cbn; lia|done|]. cbn [cur_element set_cur_element set_cur_byte cur_byte]. rewrite Hdrop.
        destruct l as [|e' l]; [done|]. by apply Forall_cons in Hel as [_ [[? _] _]%Forall_cons].
      - rewrite Hun, Hkn, take_ge by (rewrite get_bytes_length; done). f_equal.
        unfold unsent. cbn [cur_element cur_byte set_cur_element set_cur_byte]. by rewrite Hdrop. }
    assert (Hp2 : s_write (ses (ss w2) i) = set_cur_element (cur_element p + 1) (set_cur_byte 0 p)).
    { cbn [ss w2]. rewrite ses_upd, decide_True by done. cbn. by rewrite Hs. }
    specialize (IH w2 Hok). rewrite Hp2 in IH. cbn [cur_byte cur_element set_cur_element set_cur_byte] in IH.
    eapply wp_mono; [apply IH| |done].
    + destruct Hw2 as (_ & _ & _ & _ & Hl2 & _). by rewrite Hp2 in Hl2.
    + by rewrite Hdrop.
    + intros able w' Hw'. by eapply sent_body_trans.
  - apply Z.eqb_neq in Hkn. apply wp_bind, wp_when; intros Hk0.
    + apply Z.ltb_lt in Hk0. apply wp_modify, wp_ret. eapply sent_move; try done; fold p.
      * split_and!; [done|done|cbn; lia|]. cbn [cur_element set_cur_byte cur_byte]. rewrite <- Hl. lia.
      * rewrite Hun. unfold unsent at 1. cbn [cur_element set_cur_byte cur_byte]. rewrite <- Hl, drop_elem_bytes by lia.
        rewrite app_assoc. f_equal. replace (se_len e - cur_byte p) with (k + (se_len e - cur_byte p - k)) by lia.
        rewrite get_bytes_split by lia. rewrite take_app_length' by (rewrite get_bytes_length; lia). f_equal. f_equal; lia.
    + apply Z.ltb_ge in Hk0. apply wp_ret.
      replace (Z.to_nat k) with 0%nat in Hout by lia. rewrite take_0, app_nil_r in Hout.
      split_and!; rewrite ?Hs, ?Hout; done.
Qed.

(** The message at the head is done. *)
Lemma pop_spec msg q w :
  writing_ok (ses (ss w) i) -> s_queue (ses (ss w) i) = msg :: q -> unsent msg (s_write (ses (ss w) i)) = [] ->
  let w' := mkSessWorld (upd i (fun r => set_s_write Message_reset_current_location
                                  (set_s_num_mess (s_num_mess r - 1) (set_s_queue q r))) (ss w)) (core w) (gs w) in
  only_writes i mbox (ss w) (ss w') /\ writing_ok (ses (ss w') i) /\ s_queue (ses (ss w') i) = q /\
  s_num_mess (ses (ss w') i) = s_num_mess (ses (ss w) i) - 1 /\
  pending (ses (ss w') i) = pending (ses (ss w) i).
Proof.
  intros (Hn & Hok & _) Hq Hu w'. cbn [ss w']. split; [by apply only_upd|]. rewrite ses_upd, decide_True by done.
  rewrite Hq in Hn, Hok. apply Forall_cons in Hok as [_ Hok].
  split; [|split; [done|split; [done|]]].
  - split; [cbn in *; lia|]. split; [done|]. cbn [s_queue set_s_write set_s_num_mess set_s_queue s_write]. destruct q as [|m q]; [done|].
    apply Forall_cons in Hok as [Hm _]. split_and!; [done..|]. cbn. destruct m as [|e m]; [done|]. by apply Forall_cons in Hm as [[? _] _].
  - unfold pending. rewrite Hq, Hu. cbn [s_queue set_s_write set_s_num_mess set_s_queue s_write]. destruct q as [|m q]; [done|].
    unfold unsent. cbn. by rewrite !drop_0.
Qed.

Definition badgered w w' : Prop :=
  only_writes i mbox (ss w) (ss w') /\ writing_ok (ses (ss w') i) /\
  s_num_mess (ses (ss w') i) <= s_num_mess (ses (ss w) i) /\
  out_bytes (ss w') mbox ++ pending (ses (ss w') i) = out_bytes (ss w) mbox ++ pending (ses (ss w) i).

Lemma badger_loop_spec q : forall w,
  writing_ok (ses (ss w) i) -> s_queue (ses (ss w) i) = q ->
  wp (badger_loop i mbox q) (fun _ w' => core w' = core w /\ badgered w w') never w.
Proof.
  induction q as [|msg q IH]; intros w Hw Hq; cbn [badger_loop]; pose proof Hw as (Hn & Hok & Hloc); rewrite Hq in Hn, Hok, Hloc.
  { apply wp_bind, wp_gets. rewrite Hn. cbn. apply wp_ret. done. }
  apply Forall_cons in Hok as [Hmsg Hok].
  apply wp_bind, wp_gets. rewrite Hn. rewrite (proj2 (Z.ltb_lt 0 _)) by (cbn; lia). apply wp_bind.
  assert (Hhead : badger_head i mbox msg w = Done true w).
  { unfold badger_head, the_session, bind, gets. destruct Hloc as [Hh _]. by rewrite Hh. }
  unfold wp at 1. rewrite Hhead. apply wp_bind, wp_gets, wp_bind.
  eapply wp_mono; [by apply badger_body_spec| |done]. intros able w1 (Hc & Ho & Hq1 & Hn1 & Hl1 & Hs1 & Hab).
  rewrite Hq in Hq1.
  assert (Hw1 : writing_ok (ses (ss w1) i)).
  { split; [by rewrite Hq1, Hn1|]. rewrite Hq1. split; [by constructor|done]. }
  assert (Hs1' : out_bytes (ss w1) mbox ++ pending (ses (ss w1) i) = out_bytes (ss w) mbox ++ pending (ses (ss w) i)).
  { unfold pending. rewrite Hq, Hq1, !app_assoc. by rewrite Hs1. }
  apply wp_when; intros ->; [|split; [done|]; split_and!; try done; lia]. apply wp_bind, wp_modify.
  destruct (pop_spec msg q w1 Hw1 Hq1 (Hab eq_refl)) as (Ho2 & Hw2 & Hq2 & Hn2 & Hp2).
  eapply wp_mono; [by apply IH| |done]. intros _ w3 (Hc3 & Ho3 & Hw3 & Hn3 & Hs3). cbn [core] in Hc3.
  split; [congruence|]. split; [by etransitivity; [etransitivity|]|]. split; [done|]. split; [lia|]. rewrite Hs3. cbn [ss] in Hp2 |- *. rewrite Hp2. exact Hs1'.
Qed.
End stream.

(* --------------------------------------------------------------------- *)
(** ** Sending at once *)

(** A message as the session layer sends it: at least a header, the body of a
    rejected one in the elements after the first. *)
Definition sendable (msg : message_obj) : Prop :=
  exists e m, msg = e :: m /\ Forall elem_ok msg /\ sizeof_message_header <= se_len e /\
    (is_mess REJECT_MESS (mh_type (get_header (se_buf e))) = true -> se_len e = sizeof_message_header).

Section messages.
Implicit Types (msg m : message_obj) (e : scat_elem).

Lemma copy_bytes msg : mess_bytes (Message_copy_message msg) = mess_bytes msg.
Proof.
  induction msg as [|e m IH]; [done|].
  change (Message_copy_message (e :: m)) with (mkElem (get_bytes (se_buf e) 0 (se_len e)) (se_len e) :: Message_copy_message m).
  rewrite !mess_bytes_cons, IH. f_equal. unfold elem_bytes. cbn [se_buf se_len]. apply get_bytes_again.
Qed.
Lemma copy_ok msg : Forall elem_ok msg -> Forall elem_ok (Message_copy_message msg).
Proof. intros H. apply Forall_fmap. eapply Forall_impl; [exact H|]. done. Qed.
Lemma copy_len msg : mess_len (Message_copy_message msg) = mess_len msg.
Proof. induction msg as [|e m IH]; [done|]. rewrite mess_len_cons, <- IH. done. Qed.

Lemma small_len e : elem_ok e -> s32 (se_len e) = se_len e.
Proof. intros [? Hb]. change sizeof_packet_body with 1432 in Hb. apply s32_id. lia. Qed.

(** Where the reading or writing of a message goes on after [n] bytes. *)
Lemma location_spec msg : forall j n,
  Forall elem_ok msg -> 0 <= n < mess_len msg ->
  exists k e m c, location_from msg j n = (j + Z.of_nat k, c) /\ drop k msg = e :: m /\ 0 <= c <= se_len e /\
    drop (Z.to_nat c) (mess_bytes (e :: m)) = drop (Z.to_nat n) (mess_bytes msg).
Proof.
  induction msg as [|e msg IH]; intros j n Hok Hn; [cbn in Hn; lia|]. apply Forall_cons in Hok as [He Hok].
  cbn [location_from]. rewrite small_len by done. rewrite mess_len_cons in Hn. destruct (Z.ltb_spec n (se_len e)) as [Hlt|Hge].
  - exists 0%nat, e, msg, n. rewrite Z.add_0_r. split_and!; [done|done|lia|lia|done].
  - destruct (IH (j + 1) (n - se_len e) Hok) as (k & e' & m & c & Hl & Hd & Hc & Hb); [lia|].
    exists (S k), e', m, c. split; [rewrite Hl; f_equal; lia|]. split; [done|]. split; [done|]. rewrite Hb, (mess_bytes_cons e msg).
    destruct He as [He _]. rewrite drop_app_ge by (rewrite elem_bytes_length; lia). f_equal. rewrite elem_bytes_length. lia.
Qed.

Lemma calculate_spec msg n p :
  Forall elem_ok msg -> 0 <= n < mess_len msg ->
  located msg (Message_calculate_current_location msg n p) /\
  unsent msg (Message_calculate_current_location msg n p) = drop (Z.to_nat n) (mess_bytes msg).
Proof.
  intros Hok Hn. destruct (location_spec msg 0 n Hok Hn) as (k & e & m & c & Hl & Hd & Hc & Hb).
  unfold Message_calculate_current_location. rewrite Hl. unfold located, unsent. cbn [in_mess_head cur_element cur_byte].
  rewrite Z.add_0_l, Nat2Z.id, Hd. split; [|done]. split_and!; try done; lia.
Qed.
End messages.

Section write.
Context (i mbox : Z).
Implicit Types (w : sess_world) (msg m : message_obj).

(** Only [out] and the results of [send] change. *)
Definition only_sends (bs : list Z) w w' : Prop :=
  core w' = core w /\ only_writes i mbox (ss w) (ss w') /\ ses (ss w') i = ses (ss w) i /\
  out_bytes (ss w') mbox = out_bytes (ss w) mbox ++ bs.

Lemma only_sends_trans b1 b2 w w1 w2 : only_sends b1 w w1 -> only_sends b2 w1 w2 -> only_sends (b1 ++ b2) w w2.
Proof.
  intros (H1 & H2 & H3 & H4) (K1 & K2 & K3 & K4). split; [congruence|]. split; [by etransitivity|]. split; [congruence|].
  by rewrite K4, H4, app_assoc.
Qed.

(** The first bytes of [bs] were sent, [n] of them. *)
Definition sent_some (bs : list Z) w (n : Z) w' : Prop :=
  0 <= n <= Z.of_nat (length bs) /\ only_sends (take (Z.to_nat n) bs) w w'.

Lemma sent_more bs cs w w1 w2 (n : Z) :
  only_sends bs w w1 -> sent_some cs w1 n w2 -> sent_some (bs ++ cs) w (Z.of_nat (length bs) + n) w2.
Proof.
  intros H1 (Hn & H2). split; [rewrite length_app; lia|].
  rewrite take_app_ge by lia. replace (Z.to_nat _ - length bs)%nat with (Z.to_nat n) by lia. by eapply only_sends_trans.
Qed.

(** One [send], as the code counts it. *)
Lemma send_counted b from n w :
  0 <= n ->
  wp (send_part mbox b from n)
    (fun k w' => sent_some (get_bytes b from n) w (if 0 <? k then k else 0) w' /\
       (k = n -> only_sends (get_bytes b from n) w w')) never w.
Proof.
  intros Hn. eapply wp_mono; [by apply (send_part_spec i mbox)| |done]. intros k w' (Hc & Ho & Hs & Hk & Hout).
  assert (Hlen : length (get_bytes b from n) = Z.to_nat n) by apply get_bytes_length. split.
  - destruct (Z.ltb_spec 0 k); (split; [lia|]); split_and!; try done.
    replace (Z.to_nat k) with 0%nat in Hout by lia. done.
  - intros ->. split_and!; try done. by rewrite Hout, take_ge by lia.
Qed.

Lemma send_rest_spec m : forall w (len : Z),
  Forall elem_ok m ->
  wp (send_rest mbox m len) (fun n w' => sent_some (mess_bytes m) w (n - len) w') never w.
Proof.
  induction m as [|e m IH]; intros w len Hok; cbn [send_rest].
  { apply wp_ret. rewrite Z.sub_diag. split; [done|]. split_and!; try done. by rewrite app_nil_r. }
  apply Forall_cons in Hok as [[He Hb] Hok]. apply wp_bind. eapply wp_mono; [by apply send_counted| |done].
  intros k w1 [Hsome Hall]. change (get_bytes (se_buf e) 0 (se_len e)) with (elem_bytes e) in Hsome, Hall. apply wp_if; intros Hk.
  - apply Z.eqb_eq in Hk. subst k. specialize (Hall eq_refl). eapply wp_mono; [by apply IH| |done]. intros n w2 H2.
    rewrite mess_bytes_cons. replace (n - len) with (Z.of_nat (length (elem_bytes e)) + (n - (if 0 <? se_len e then len + se_len e else len)))
      by (rewrite elem_bytes_length; destruct (Z.ltb_spec 0 (se_len e)); lia).
    by eapply sent_more.
  - apply wp_ret. rewrite mess_bytes_cons. replace ((if 0 <? k then len + k else len) - len) with (if 0 <? k then k else 0) by (destruct (0 <? k); lia).
    destruct Hsome as [Hn Hs]. split; [rewrite length_app; lia|]. rewrite take_app_le by lia. done.
Qed.

Lemma header_split e m :
  Forall elem_ok (e :: m) -> sizeof_message_header <= se_len e ->
  mess_bytes (e :: m) = get_bytes (se_buf e) 0 sizeof_message_header ++
    get_bytes (se_buf e) sizeof_message_header (se_len e - sizeof_message_header) ++ mess_bytes m.
Proof.
  intros Hok He. rewrite mess_bytes_cons, app_assoc. f_equal. unfold elem_bytes.
  replace (se_len e) with (sizeof_message_header + (se_len e - sizeof_message_header)) at 1 by lia.
  by rewrite get_bytes_split by (done || lia).
Qed.

(** The rest of a message from a point on, sent in two steps. *)
Lemma sent_prefix bs cs w w1 (n : Z) : sent_some bs w n w1 -> sent_some (bs ++ cs) w n w1.
Proof. intros [Hn Hs]. split; [rewrite length_app; lia|]. by rewrite take_app_le by lia. Qed.

(** The first data of a message, after its header. *)
Lemma first_data e m :
  Forall elem_ok (e :: m) -> sizeof_message_header <= se_len e ->
  (is_mess REJECT_MESS (mh_type (get_header (se_buf e))) = true -> se_len e = sizeof_message_header) ->
  let p := Message_get_first_data_ptr (e :: m) in
  Message_get_first_data_len (e :: m) = se_len e - sizeof_message_header /\
  get_bytes (se_buf (element (e :: m) p.1)) p.2 (se_len e - sizeof_message_header) =
    get_bytes (se_buf e) sizeof_message_header (se_len e - sizeof_message_header).
Proof.
  intros [[He Hb] _]%Forall_cons Hlen Hr p. unfold p, Message_get_first_data_len, Message_get_first_data_ptr.
  rewrite header_cons. change sizeof_packet_body with 1432 in Hb. destruct (is_mess _ _) eqn:Hm.
  - rewrite Hr by done. rewrite Z.sub_diag, !get_bytes_nil. done.
  - split; [|done]. change (element (e :: m) 0) with e. apply s32_id. change sizeof_message_header with 48. lia.
Qed.

Lemma write_now_spec msg w :
  sendable msg ->
  wp (write_now mbox msg) (fun n w' => sent_some (mess_bytes msg) w n w') never w.
Proof.
  intros (e & m & -> & Hok & He & Hr). unfold write_now. change (element (e :: m) 0) with e.
  rewrite (header_split _ _ Hok He). set (A := get_bytes (se_buf e) 0 sizeof_message_header). set (B := get_bytes _ _ _).
  destruct (first_data e m Hok He Hr) as [Hl Hp]. cbv zeta in Hp.
  assert (HA : Z.of_nat (length A) = sizeof_message_header) by (unfold A; by rewrite get_bytes_length).
  assert (HB : Z.of_nat (length B) = se_len e - sizeof_message_header) by (unfold B; rewrite get_bytes_length; lia).
  apply wp_bind. eapply wp_mono; [by apply send_counted| |done]. intros k w1 [Hsome Hall].
  apply wp_if; intros Hk; [apply wp_ret; by apply sent_prefix|].
  apply negb_false_iff, Z.eqb_eq in Hk. subst k. specialize (Hall eq_refl). fold A in Hall, Hsome.
  apply wp_bind. rewrite Hl. eapply wp_mono; [apply send_counted; lia| |done]. rewrite Hp. fold B. intros k w2 [Hsome2 Hall2].
  change (0 <? sizeof_message_header) with true. cbn [negb]. apply wp_if; intros Hk.
  - apply wp_ret. replace (if 0 <? k then sizeof_message_header + k else sizeof_message_header) with (Z.of_nat (length A) + (if 0 <? k then k else 0))
      by (destruct (0 <? k); lia). eapply sent_more; [exact Hall|]. by apply sent_prefix.
  - apply negb_false_iff, Z.eqb_eq in Hk. subst k. specialize (Hall2 eq_refl).
    eapply wp_mono; [apply send_rest_spec; by apply Forall_cons in Hok as [_ ?]| |done]. intros n w3 H3. cbn [tail] in H3.
    replace n with (Z.of_nat (length A) + (Z.of_nat (length B) +
      (n - (if 0 <? se_len e - sizeof_message_header then sizeof_message_header + (se_len e - sizeof_message_header) else sizeof_message_header))))
      by (rewrite HA, HB; destruct (Z.ltb_spec 0 (se_len e - sizeof_message_header)); lia).
    eapply sent_more; [exact Hall|]. by eapply sent_more.
Qed.
End write.
