(* ===== verification/SessServe.v ===== *)
(** * Serving a client ([Sess_badger], [Sess_write])

    The whole functions, with the timer and the write event that bring the
    daemon back to a client: nothing of a message that is written is lost, sent
    twice or out of order, and the daemon comes back exactly to the clients
    that still have something to get. *)

From Stdlib Require Import ZArith Lia.
From stdpp Require Import base strings numbers option gmap list.
From S2P Require Import Prelude Wire Bytes Config Events EventsFd State Network FlowControl MembSets MembCore ProtSend.
From S2P Require Import Sample Retrans Requests Packing Deliver Delivery Sending EndToEnd Message Names GroupState SessState SessTable SessDir SessWrite SessStream.

(** ** Timers and descriptors *)

Definition badger_key (mbox : Z) : ev_key := mkKey Sess_badger_TO mbox 0.
Definition timers (w : sess_world) : list time_event := ev_Time_queue (ev (core w)).
Definition badgering (mbox : Z) (w : sess_world) : bool := E_in_queue (badger_key mbox) (timers w).

(** Only events of the core differ, and nothing was sent to the network. *)
Definition only_events (w w' : sess_world) : Prop :=
  on_ev (fun _ => ev (core w)) (on_io (fun _ => io (core w)) (core w')) = core w /\ outputs w' = outputs w.
(** The timers differ at [mbox] at most. *)
Definition other_timers (mbox : Z) (w w' : sess_world) : Prop :=
  queue_ok (timers w') /\ forall k, k <> badger_key mbox -> E_in_queue k (timers w') = E_in_queue k (timers w).

(** The write event of a mailbox: [b] when the daemon is called as soon as the
    socket takes something; otherwise the socket is not watched for it. *)
Definition writable (mbox : Z) (b : bool) (w : sess_world) : Prop :=
  0 <= mbox <= FD_SETSIZE /\ attached mbox WRITE_FD Sess_badger_FD LOW_PRIORITY b (ev (core w)).
(** No other descriptor or kind of event differs. *)
Definition other_writes (mbox : Z) (w w' : sess_world) : Prop := other_fds mbox WRITE_FD (ev (core w)) (ev (core w')).
(** The write event of [mbox], and no other, was made [b]. *)
Definition rearmed (mbox : Z) (b : bool) (w w' : sess_world) : Prop :=
  forall b0, writable mbox b0 w -> writable mbox b w' /\ other_writes mbox w w'.

#[export] Instance only_events_preorder : PreOrder only_events.
Proof.
  split; [by intros [s []]|]. intros w1 w2 w3 [H1 O1] [H2 O2]. split; [|congruence].
  unfold on_ev, on_io in *. destruct (core w1), (core w2), (core w3). cbn in *. congruence.
Qed.

Section events.
Implicit Types (e : ev_state) (w : sess_world) (mbox : Z).

Lemma attach_time fd t f c d p e :
  wp (E_attach_fd fd t f c d p) (fun _ e' => ev_Time_queue e' = ev_Time_queue e) never e.
Proof.
  unfold E_attach_fd. wp_steps; try done. cbv zeta. destruct (find_fd _ _ _ _); wp_steps; try done.
  by case_match.
Qed.
Lemma detach_priority_time fd t p e :
  wp (E_detach_fd_priority fd t p) (fun _ e' => ev_Time_queue e' = ev_Time_queue e) never e.
Proof. unfold E_detach_fd_priority. wp_steps; try done. cbv zeta. destruct (find_fd _ _ _ _); wp_steps; done. Qed.
Lemma detach_time fd t e : wp (E_detach_fd fd t) (fun _ e' => ev_Time_queue e' = ev_Time_queue e) never e.
Proof.
  unfold E_detach_fd, at_each_priority. wp_steps; try done.
  eapply wp_mono; [apply detach_priority_time| |done]. intros r1 e1 H1. wp_steps.
  eapply wp_mono; [apply detach_priority_time| |done]. intros r2 e2 H2. wp_steps.
  eapply wp_mono; [apply detach_priority_time| |done]. intros r3 e3 H3. wp_steps. congruence.
Qed.

(** A call to the descriptor tables from the session layer. *)
Lemma fd_call {A} (m : M ev_state A) w (E : err -> Prop) :
  wp m (fun _ e' => ev_Time_queue e' = ev_Time_queue (ev (core w))) never (ev (core w)) ->
  wp (on_core (in_ev m)) (fun _ w' => ss w' = ss w /\ only_events w w' /\ timers w' = timers w) E w.
Proof.
  unfold wp, on_core, in_ev. destruct (m (ev (core w))) as [a e'|]; [|done]. intros H. cbn. split; [done|].
  split; [|done]. split; [|done]. by destruct (core w).
Qed.

(** The timers are not the descriptors. *)
Lemma attached_timers fd t f p b q e : attached fd t f p b e -> attached fd t f p b (set_ev_Time_queue q e).
Proof. intros [[H1 H1'] H2 H3 H4 H5]. by constructor. Qed.

(** A call to the timers. *)
Lemma queue_call f code delta w :
  wp (on_core (E_queue f code delta))
    (fun _ w' => ss w' = ss w /\ only_events w w' /\ exists now, timers w' = E_queue_at now (mkKey f code 0) delta (timers w) /\
       ev (core w') = set_ev_Time_queue (timers w') (ev (core w))) never w.
Proof.
  unfold wp, on_core, E_queue, read_clock, bind, get, io_do, ev_do, modify, ret. cbn [core ss].
  split; [done|]. split; [|by eexists; split]. split; [|done]. by destruct (core w) as [? ? []].
Qed.
Lemma dequeue_call f code w :
  wp (on_core (E_dequeue f code))
    (fun _ w' => ss w' = ss w /\ only_events w w' /\ timers w' = E_dequeue_key (mkKey f code 0) (timers w) /\
       ev (core w') = set_ev_Time_queue (timers w') (ev (core w))) never w.
Proof.
  unfold wp, on_core, E_dequeue, ev_do, modify. cbn. split; [done|]. split; [|done]. split; [|done]. by destruct (core w).
Qed.

(** A call that attaches or detaches. *)
Lemma ev_rearms {A} (m : M ev_state A) mbox b w :
  wp m (fun _ e' => ev_Time_queue e' = ev_Time_queue (ev (core w))) never (ev (core w)) ->
  (forall b0, 0 <= mbox <= FD_SETSIZE -> attached mbox WRITE_FD Sess_badger_FD LOW_PRIORITY b0 (ev (core w)) ->
     wp m (fun _ e' => attached mbox WRITE_FD Sess_badger_FD LOW_PRIORITY b e' /\ other_fds mbox WRITE_FD (ev (core w)) e') never (ev (core w))) ->
  wp (on_core (in_ev m)) (fun _ w' => rearmed mbox b w w') never w.
Proof.
  unfold wp, on_core, in_ev. destruct (m (ev (core w))) as [a e'|]; [|done]. intros _ Hm b0 [Hr Ha].
  destruct (Hm b0 Hr Ha) as [H1 H2]. done.
Qed.
Lemma rearmed_timers mbox b q w w1 w2 :
  ev (core w1) = set_ev_Time_queue q (ev (core w)) -> rearmed mbox b w1 w2 -> rearmed mbox b w w2.
Proof.
  intros Hev H b0 [Hr Ha]. destruct (H b0) as [H1 H2]; [split; [done|]; rewrite Hev; by apply attached_timers|].
  split; [done|]. unfold other_writes in *. by rewrite Hev in H2.
Qed.

Lemma badger_later_spec mbox w :
  queue_ok (timers w) ->
  wp (badger_later mbox)
    (fun _ w' => ss w' = ss w /\ only_events w w' /\ other_timers mbox w w' /\ badgering mbox w' = true /\ rearmed mbox true w w') never w.
Proof.
  intros Hq. unfold badger_later, attach_fd. apply wp_bind.
  eapply wp_mono; [apply queue_call| |done]. intros _ w1 (Hs1 & Ho1 & now & Ht1 & Hev1). apply wp_bind.
  eapply wp_mono; [apply wp_and; [apply fd_call, attach_time|apply ev_rearms; [apply attach_time|intros b0 Hm Ha; by apply (attach_spec _ _ _ _ b0)]]| |done].
  intros r w2 [(Hs2 & Ho2 & Ht2) Hr]. apply wp_ret.
  split; [congruence|]. split; [by etransitivity|]. unfold other_timers, badgering. rewrite Ht2, Ht1.
  split; [split|split; [|by eapply rearmed_timers; [exact Hev1|]]].
  - by apply queue_ok_E_queue.
  - intros k Hk. by rewrite in_queue_E_queue, bool_decide_false.
  - by rewrite in_queue_E_queue, bool_decide_true.
Qed.

Lemma badger_no_more_spec mbox w :
  queue_ok (timers w) ->
  wp (badger_no_more mbox)
    (fun _ w' => ss w' = ss w /\ only_events w w' /\ other_timers mbox w w' /\ badgering mbox w' = false /\ rearmed mbox false w w') never w.
Proof.
  intros Hq. unfold badger_no_more, detach_fd. apply wp_bind.
  eapply wp_mono; [apply dequeue_call| |done]. intros _ w1 (Hs1 & Ho1 & Ht1 & Hev1). apply wp_bind.
  eapply wp_mono; [apply wp_and; [apply fd_call, detach_time|apply ev_rearms; [apply detach_time|intros b0 Hm Ha; by apply (detach_spec _ _ _ _ b0)]]| |done].
  intros r w2 [(Hs2 & Ho2 & Ht2) Hr]. apply wp_ret.
  split; [congruence|]. split; [by etransitivity|]. unfold other_timers, badgering. rewrite Ht2, Ht1.
  split; [split|split; [|by eapply rearmed_timers; [exact Hev1|]]].
  - by apply queue_ok_E_dequeue.
  - intros k Hk. by rewrite in_queue_E_dequeue, bool_decide_false.
  - by rewrite in_queue_E_dequeue, bool_decide_true.
Qed.
End events.

(* --------------------------------------------------------------------- *)
(** ** A client of the table *)

Section client.
Context (i : Z) (l : list Z).
Implicit Types (w : sess_world) (msg : message_obj) (mbox : Z).

Definition mbox_of w : Z := s_mbox (ses (ss w) i).
(** What the client was sent and what is queued for it. *)
Definition stream w : list Z := out_bytes (ss w) (mbox_of w) ++ pending (ses (ss w) i).

(** An open session between two calls: its queue makes sense, and the daemon
    comes back to it exactly when there is something in it. *)
Record serving w : Prop := mkServing {
  sv_table : table_ok (ss w) l;
  sv_open : Is_session OP_SESSION (s_status (ses (ss w) i)) = true;
  sv_queue : writing_ok (ses (ss w) i);
  sv_timers : queue_ok (timers w);
  sv_badger : badgering (mbox_of w) w = (0 <? s_num_mess (ses (ss w) i));
}.

Definition queued w : Z := s_num_mess (ses (ss w) i).

(** The write event of its mailbox is there exactly when something is queued. *)
Definition write_ok w : Prop := writable (mbox_of w) (0 <? queued w) w.

(** What serving the client leaves alone: the other sessions and the table,
    the daemon but for its events, the other timers, and every descriptor and
    kind of event but the write event of the client. *)
Definition served w w' : Prop :=
  only_writes i (mbox_of w) (ss w) (ss w') /\ only_events w w' /\ other_timers (mbox_of w) w w' /\
  (write_ok w -> write_ok w' /\ other_writes (mbox_of w) w w').

Lemma writes_table mbox s s' : only_writes i mbox s s' -> table_ok s l -> table_ok s' l.
Proof.
  intros (Hj & Hs & Hc & _). apply table_same; [|unfold table_vars; injection Hc; congruence].
  intros j. destruct (decide (j = i)) as [->|Hne]; [|by rewrite Hj]. injection Hs. unfold link_fields. congruence.
Qed.
Lemma writes_still mbox s s' :
  only_writes i mbox s s' -> s_mbox (ses s' i) = s_mbox (ses s i) /\ s_status (ses s' i) = s_status (ses s i).
Proof. intros (_ & Hs & _). by injection Hs. Qed.

(** The daemon comes back when something is left. *)
Lemma later_or_not w w1 (Q : unit -> sess_world -> Prop) :
  queue_ok (timers w1) ->
  (forall w', ss w' = ss w1 -> only_events w1 w' -> other_timers (mbox_of w) w1 w' ->
     badgering (mbox_of w) w' = (0 <? s_num_mess (ses (ss w1) i)) ->
     rearmed (mbox_of w) (0 <? s_num_mess (ses (ss w1) i)) w1 w' -> Q tt w') ->
  wp (if 0 <? s_num_mess (ses (ss w1) i) then badger_later (mbox_of w) else badger_no_more (mbox_of w)) Q never w1.
Proof.
  intros Hq HQ. destruct (0 <? _).
  - eapply wp_mono; [by apply badger_later_spec| |done]. intros [] w' (H1 & H2 & H3 & H4 & H5). by apply HQ.
  - eapply wp_mono; [by apply badger_no_more_spec| |done]. intros [] w' (H1 & H2 & H3 & H4 & H5). by apply HQ.
Qed.

Lemma badger_spec w :
  i ∈ l -> table_ok (ss w) l -> Is_session OP_SESSION (s_status (ses (ss w) i)) = true -> writing_ok (ses (ss w) i) ->
  queue_ok (timers w) -> 0 < s_num_mess (ses (ss w) i) ->
  wp (Sess_badger (mbox_of w)) (fun _ w' => serving w' /\ served w w' /\ queued w' <= queued w /\ stream w' = stream w) never w.
Proof.
  intros Hi Ht Hop Hw Hq Hn. unfold Sess_badger. apply wp_bind. unfold wp at 1, index_of, lift.
  unfold mbox_of at 1. rewrite (index_known _ l) by done. apply wp_bind, wp_gets.
  destruct (table_range _ _ _ Ht Hi) as [Hi0 Hi1]. unfold legal_index.
  rewrite (proj2 (Z.leb_le 0 i)), (proj2 (Z.ltb_lt i _)), Hop, (proj2 (Z.leb_gt _ 0)) by lia. cbn [negb orb andb].
  apply wp_bind. eapply wp_mono; [by apply badger_loop_spec| |done]. intros _ w1 (Hc & Ho & Hw1 & Hn1 & Hs1).
  apply wp_bind, wp_gets. destruct (writes_still _ _ _ Ho) as [Hm Hst].
  assert (Htq : timers w1 = timers w) by (unfold timers; by rewrite Hc).
  apply later_or_not; [by rewrite Htq|]. intros w' Hs' He Hot Hb Hre.
  assert (Hm' : mbox_of w' = mbox_of w) by (unfold mbox_of; by rewrite Hs', Hm).
  assert (He1 : only_events w w1) by (split; [rewrite Hc; by destruct (core w)|unfold outputs; by rewrite Hc]).
  split; [|split].
  - constructor; rewrite ?Hs', ?Hm', ?Hst; try done; [by eapply writes_table|by apply Hot].
  - split; [by rewrite Hs'|]. split; [by etransitivity|]. split; [by split; [apply Hot|intros k Hne; rewrite <- Htq; by apply Hot]|].
    intros Hwr. destruct (Hre (0 <? queued w)) as [H1 H2]; [by unfold writable; rewrite Hc|].
    unfold write_ok, queued. rewrite Hm', Hs'. split; [done|]. unfold other_writes in *. by rewrite Hc in H2.
  - unfold stream, queued. rewrite Hm', Hs'. by split.
Qed.

Lemma served_mbox w w' : served w w' -> mbox_of w' = mbox_of w.
Proof. intros [Ho _]. by apply writes_still in Ho as [? _]. Qed.
Lemma served_trans w w1 w2 : served w w1 -> served w1 w2 -> served w w2.
Proof.
  intros H1 H2. pose proof (served_mbox _ _ H1) as Hm. destruct H1 as (A1 & B1 & [C1 D1] & E1), H2 as (A2 & B2 & [C2 D2] & E2).
  rewrite Hm in A2, D2, E2. split; [by etransitivity|]. split; [by etransitivity|]. split; [split; [done|]|].
  - intros k Hk. by rewrite D2, D1.
  - intros H. destruct (E1 H) as [F1 G1], (E2 F1) as [F2 G2]. split; [done|]. unfold other_writes in *. by etransitivity.
Qed.
(** Only the session layer did something. *)
Lemma served_ss w w' :
  queue_ok (timers w) -> core w' = core w -> (0 <? queued w') = (0 <? queued w) -> only_writes i (mbox_of w) (ss w) (ss w') -> served w w'.
Proof.
  intros Hq Hc Hn Ho. split; [done|]. split; [split; [rewrite Hc; by destruct (core w)|unfold outputs; by rewrite Hc]|].
  split; [unfold other_timers, timers; by rewrite Hc|]. apply writes_still in Ho as [Hm _].
  unfold write_ok, writable, other_writes, mbox_of. rewrite Hn, Hm, Hc. done.
Qed.

Lemma badger_idle w :
  i ∈ l -> serving w -> s_num_mess (ses (ss w) i) = 0 ->
  wp (Sess_badger (mbox_of w)) (fun _ w' => serving w' /\ served w w' /\ queued w' <= queued w /\ stream w' = stream w) never w.
Proof.
  intros Hi Hs Hn. unfold Sess_badger. apply wp_bind. unfold wp at 1, index_of, lift. unfold mbox_of at 1.
  rewrite (index_known _ l) by (done || apply Hs). apply wp_bind, wp_gets. rewrite Hn, orb_true_r.
  eapply wp_mono; [apply badger_no_more_spec, Hs| |done]. intros _ w' (Hs' & He & Ho & Hb & Hre).
  assert (Hm' : mbox_of w' = mbox_of w) by (unfold mbox_of; by rewrite Hs').
  split; [|split; [|unfold stream, queued; by rewrite Hm', Hs']].
  - destruct Hs. constructor; rewrite ?Hm', ?Hs'; try done; [apply Ho|by rewrite Hb, Hn].
  - split; [by rewrite Hs'|]. split; [done|]. split; [done|]. intros Hwr. unfold write_ok, queued. rewrite Hm', Hs', Hn. by apply (Hre (0 <? queued w)).
Qed.

(** What is left when a message was partly sent to a client with an empty
    queue: the message is its queue. *)
Lemma link_first msg mess (n v : Z) w w2 :
  serving w -> s_num_mess (ses (ss w) i) = 0 -> Forall elem_ok mess -> mess_bytes mess = mess_bytes msg ->
  sent_some i (mbox_of w) (mess_bytes msg) w n w2 -> n < mess_len mess ->
  wp ((ses_do i (fun r => set_s_queue [mess] r) ;;
       ses_do i (on_write (Message_calculate_current_location mess n)) ;;
       badger_later (mbox_of w)) ;;
      ses_do i (fun r => set_s_num_mess (s_num_mess r + 1) r) ;; ret v)
    (fun k w' => k = v /\ serving w' /\ served w w' /\ queued w' <= queued w + 1 /\ stream w' = stream w ++ mess_bytes msg) never w2.
Proof.
  intros Hs Hn Hok Hb ([Hn0 _] & Hc & Ho & Hses & Hout) Hlt.
  destruct (calculate_spec mess n (s_write (ses (ss w) i)) Hok) as [Hloc Hun]; [lia|].
  assert (Hq : s_queue (ses (ss w) i) = []).
  { pose proof (sv_queue _ Hs) as (Hl & _). rewrite Hn in Hl. by destruct (s_queue _). }
  apply wp_bind, wp_bind, wp_modify, wp_bind, wp_modify. set (w3 := mkSessWorld _ (core _) _).
  assert (Ht2 : timers w3 = timers w) by (unfold timers; cbn; by rewrite Hc).
  eapply wp_mono; [apply badger_later_spec; rewrite Ht2; apply Hs| |done]. intros _ w4 (Hs4 & He & Hot & Hbad & Hre).
  apply wp_bind, wp_modify, wp_ret. split; [done|]. set (w5 := mkSessWorld _ _ _).
  assert (Hr5 : ses (ss w5) i = set_s_num_mess 1 (set_s_write (Message_calculate_current_location mess n (s_write (ses (ss w) i)))
                                  (set_s_queue [mess] (ses (ss w) i)))).
  { cbn [ss w5]. rewrite ses_upd, Hs4, decide_True by done. cbn [ss w3]. rewrite !ses_upd, !decide_True by done. rewrite Hses. cbn. by rewrite Hn. }
  assert (Ho5 : only_writes i (mbox_of w) (ss w) (ss w5)).
  { etransitivity; [exact Ho|]. cbn [ss w5]. etransitivity; [|by apply only_upd]. rewrite Hs4. etransitivity; by apply only_upd. }
  assert (Hsv : served w w5).
  { split; [done|]. split; [|split].
    - etransitivity; [|exact He]. split; [cbn; rewrite Hc; by destruct (core w)|unfold outputs; cbn; by rewrite Hc].
    - destruct Hot as [H1 H2]. split; [done|]. intros k Hk. rewrite <- Ht2. by apply H2.
    - intros Hwr. destruct (Hre (0 <? queued w)) as [H1 H2]; [by unfold writable; cbn [core w3]; rewrite Hc|].
      destruct (writes_still _ _ _ Ho5) as [Hm5 _]. unfold write_ok, queued. change (mbox_of w5) with (s_mbox (ses (ss w5) i)). rewrite Hm5, Hr5.
      split; [exact H1|]. unfold other_writes in *. cbn [core w3] in H2. rewrite Hc in H2. exact H2. }
  pose proof (served_mbox _ _ Hsv) as Hm5. split; [|split; [done|split; [unfold queued; rewrite Hr5, Hn; cbn; lia|]]].
  - constructor; [by eapply writes_table, Hs| | |by apply Hot|]; rewrite ?Hm5, Hr5.
    + by apply Hs.
    + split; [done|]. split; [by constructor|done].
    + exact Hbad.
  - unfold stream. rewrite Hm5, Hr5. unfold pending. cbn [s_queue set_s_num_mess set_s_write set_s_queue s_write fmap list_fmap concat].
    rewrite Hq, Hun, !app_nil_r, Hb. change (out_bytes (ss w5) (mbox_of w)) with (out_bytes (ss w4) (mbox_of w)).
    rewrite Hs4. change (out_bytes (ss w3) (mbox_of w)) with (out_bytes (ss w2) (mbox_of w)). rewrite Hout, <- app_assoc. f_equal. apply take_drop.
Qed.

(** The message goes behind what is queued. *)
Lemma link_more mess (v : Z) w :
  serving w -> 0 < s_num_mess (ses (ss w) i) -> Forall elem_ok mess ->
  wp (ses_do i (fun r => set_s_queue (s_queue r ++ [mess]) r) ;; ses_do i (fun r => set_s_num_mess (s_num_mess r + 1) r) ;; ret v)
    (fun k w' => k = v /\ serving w' /\ served w w' /\ queued w' <= queued w + 1 /\ stream w' = stream w ++ mess_bytes mess) never w.
Proof.
  intros Hs Hn Hok. apply wp_bind, wp_modify, wp_bind, wp_modify, wp_ret. split; [done|]. set (w' := mkSessWorld _ _ _).
  assert (Hr : ses (ss w') i = set_s_num_mess (s_num_mess (ses (ss w) i) + 1) (set_s_queue (s_queue (ses (ss w) i) ++ [mess]) (ses (ss w) i))).
  { cbn [ss w']. by rewrite !ses_upd, !decide_True. }
  assert (Ho : only_writes i (mbox_of w) (ss w) (ss w')) by (etransitivity; by apply only_upd).
  assert (Hsv : served w w').
  { apply served_ss; [apply Hs|done| |done]. unfold queued. rewrite Hr. cbn [s_num_mess set_s_num_mess]. by rewrite !(proj2 (Z.ltb_lt _ _)) by lia. }
  pose proof (served_mbox _ _ Hsv) as Hm.
  pose proof (sv_queue _ Hs) as (Hl & Hall & Hloc). split; [|split; [done|split; [unfold queued; rewrite Hr; cbn; lia|]]].
  - constructor; [by eapply writes_table, Hs| | |apply Hs|]; rewrite ?Hm, Hr.
    + by apply Hs.
    + cbn [s_num_mess s_queue s_write set_s_num_mess set_s_queue]. split; [|split].
      * cbn [s_num_mess s_queue set_s_num_mess set_s_queue]. rewrite Hl, length_app. cbn. lia.
      * apply Forall_app. split; [done|by constructor].
      * cbn [s_queue set_s_num_mess set_s_queue]. by destruct (s_queue (ses (ss w) i)); [rewrite Hl in Hn|].
    + cbn [s_num_mess set_s_num_mess]. change (badgering (mbox_of w) w') with (badgering (mbox_of w) w). rewrite (sv_badger _ Hs).
      rewrite !(proj2 (Z.ltb_lt _ _)); [done|lia..].
  - unfold stream. rewrite Hm, Hr. unfold pending. cbn [s_queue set_s_num_mess set_s_queue s_write].
    change (out_bytes (ss w') (mbox_of w)) with (out_bytes (ss w) (mbox_of w)).
    destruct (s_queue (ses (ss w) i)) as [|m q]; [by rewrite Hl in Hn|]. cbn [app].
    rewrite fmap_app, concat_app, <- !app_assoc. cbn. by rewrite app_nil_r.
Qed.

(** Everything was taken by the socket. *)
Lemma all_sent msg (n : Z) w w2 :
  serving w -> s_num_mess (ses (ss w) i) = 0 -> sent_some i (mbox_of w) (mess_bytes msg) w n w2 ->
  Z.of_nat (length (mess_bytes msg)) <= n ->
  serving w2 /\ served w w2 /\ queued w2 <= queued w + 1 /\ stream w2 = stream w ++ mess_bytes msg.
Proof.
  intros Hs Hn ([Hn0 _] & Hc & Ho & Hses & Hout) Hlt. assert (Hsv : served w w2) by (apply served_ss; [apply Hs|done|unfold queued; by rewrite Hses|done]).
  pose proof (served_mbox _ _ Hsv) as Hm. split; [|split; [done|split; [unfold queued; rewrite Hses; lia|]]].
  - destruct Hs as [H1 H2 H3 H4 H5]. constructor; rewrite ?Hm, ?Hses; [by eapply writes_table|done|done| |].
    + unfold timers. by rewrite Hc.
    + unfold badgering, timers in *. by rewrite Hc.
  - unfold stream. rewrite Hm, Hses, Hout, take_ge by lia.
    assert (Hq : s_queue (ses (ss w) i) = []).
    { pose proof (sv_queue _ Hs) as (Hl & _). rewrite Hn in Hl. by destruct (s_queue _). }
    unfold pending. by rewrite Hq, !app_nil_r.
Qed.

(** Before a message is written: the client is served first. *)
Lemma serve_first w :
  i ∈ l -> serving w ->
  wp (when (0 <? s_num_mess (ses (ss w) i)) (Sess_badger (mbox_of w)))
    (fun _ w' => serving w' /\ served w w' /\ queued w' <= queued w /\ stream w' = stream w) never w.
Proof.
  intros Hi Hs. apply wp_when; intros Hn.
  - apply Z.ltb_lt in Hn. apply badger_spec; by try apply Hs.
  - split; [done|]. split; [|done]. by apply served_ss; [apply Hs| | |].
Qed.

Context `{Session}.

Lemma write_spec msg (needed : Z) w :
  i ∈ l -> serving w -> sendable msg -> s_num_mess (ses (ss w) i) < cf_MaxSessionMessages (cf (core w)) ->
  wp (Sess_write i msg needed)
    (fun needed' w' => (needed' = needed \/ needed' = needed + 1) /\ serving w' /\ served w w' /\ queued w' <= queued w + 1 /\
       stream w' = stream w ++ mess_bytes msg) never w.
Proof.
  intros Hi Hs Hmsg Hmax. pose proof Hmsg as (e & m & Hem & Hok & Hlen & _).
  destruct (table_range _ _ _ (sv_table _ Hs) Hi) as [Hi0 Hi1]. unfold Sess_write.
  rewrite (proj2 (Z.leb_le 0 i)), (proj2 (Z.leb_le i _)) by lia. cbn [andb negb]. apply wp_bind, wp_get.
  rewrite (sv_open _ Hs). cbn [negb]. rewrite (proj2 (Z.leb_gt _ _)) by done. change (s_mbox (ses (ss w) i)) with (mbox_of w).
  apply wp_bind. eapply wp_mono; [by apply serve_first| |done]. intros _ w1 (Hs1 & Hsv1 & Hq1 & Hst1).
  apply wp_bind, wp_gets. change (s_mbox (ses (ss w1) i)) with (mbox_of w1). apply wp_bind.
  assert (Hml : Z.of_nat (length (mess_bytes msg)) = mess_len msg) by by apply mess_bytes_length.
  assert (Hpos : 0 < mess_len msg).
  { rewrite <- Hml, Hem, mess_bytes_cons, length_app, elem_bytes_length. change sizeof_message_header with 48 in Hlen. lia. }
  set (mess := if truth needed then Message_copy_message msg else msg).
  assert (Hb : mess_bytes mess = mess_bytes msg) by (unfold mess; destruct (truth needed); [apply copy_bytes|done]).
  assert (Hmok : Forall elem_ok mess) by (unfold mess; destruct (truth needed); [by apply copy_ok|done]).
  assert (Hmlen : mess_len mess = mess_len msg) by (unfold mess; destruct (truth needed); [apply copy_len|done]).
  assert (Hfin : forall v w', v = needed \/ v = needed + 1 -> serving w' /\ served w1 w' /\ queued w' <= queued w1 + 1 /\ stream w' = stream w1 ++ mess_bytes msg ->
    (v = needed \/ v = needed + 1) /\ serving w' /\ served w w' /\ queued w' <= queued w + 1 /\ stream w' = stream w ++ mess_bytes msg).
  { intros v w' Hv (H1 & H2 & H3 & H4). split; [done|]. split; [done|]. split; [by eapply served_trans|]. split; [lia|by rewrite H4, Hst1]. }
  destruct (Z.eqb_spec (s_num_mess (ses (ss w1) i)) 0) as [Hz|Hnz].
  - eapply wp_mono; [by apply (write_now_spec i (mbox_of w1))| |done]. intros n w2 Hsent. apply wp_if; intros Hn.
    + apply Z.ltb_lt in Hn. rewrite <- Hmlen in Hn. eapply wp_mono; [by eapply link_first| |done].
      intros v w3 (-> & H3). apply Hfin; [by right|done].
    + apply Z.ltb_ge in Hn. apply wp_ret, Hfin; [by left|]. eapply all_sent; [done..|lia].
  - apply wp_ret. rewrite (proj2 (Z.ltb_lt 0 _)) by done.
    assert (Hn : 0 < s_num_mess (ses (ss w1) i)) by (pose proof (sv_queue _ Hs1) as (Hl & _); lia).
    eapply wp_mono; [by apply link_more| |done]. intros v w3 (-> & H3). rewrite Hb in H3. apply Hfin; [by right|done].
Qed.

(** The daemon writes to the client, or comes back to it. *)
Inductive client_op : Type := Write (msg : message_obj) | Badger.
Definition do_op (op : client_op) : MS unit :=
  match op with
  | Write msg => let* _ := Sess_write i msg 0 in ret tt
  | Badger => let* r := the_session i in Sess_badger (s_mbox r)
  end.
Definition written (ops : list client_op) : list message_obj :=
  omap (fun op => match op with Write msg => Some msg | Badger => None end) ops.

Lemma served_cf w w' : served w w' -> cf (core w') = cf (core w).
Proof. intros (_ & [He _] & _). by rewrite <- He. Qed.
Lemma wp_runs {S A} (m : M S A) (Q : A -> S -> Prop) (x : S) : wp m Q never x -> exists a y, m x = Done a y /\ Q a y.
Proof. unfold wp. destruct (m x) as [a y|e]; [|done]. intros HQ. by exists a, y. Qed.

(** One of them, when the client is not at its limit. *)
Lemma op_spec op w :
  i ∈ l -> serving w -> Forall sendable (written [op]) -> written [op] = [] \/ queued w < cf_MaxSessionMessages (cf (core w)) ->
  exists w', do_op op w = Done tt w' /\ serving w' /\ served w w' /\ queued w' <= queued w + Z.of_nat (length (written [op])) /\
    stream w' = stream w ++ concat (mess_bytes <$> written [op]).
Proof.
  intros Hi Hs Hall Hmax.
  destruct (wp_runs (do_op op) (fun _ w' => serving w' /\ served w w' /\ queued w' <= queued w + Z.of_nat (length (written [op])) /\
    stream w' = stream w ++ concat (mess_bytes <$> written [op])) w) as ([] & w' & Hdo & H'); [|by exists w'].
  destruct op as [msg|]; cbn [do_op].
  - change (written [Write msg]) with [msg] in *. apply Forall_cons in Hall as [Hmsg _]. destruct Hmax as [?|Hmax]; [done|].
    apply wp_bind. eapply wp_mono; [by apply write_spec| |done]. intros k w1 (_ & Hs1 & Hsv1 & Hq1 & Hst1). apply wp_ret.
    cbn [fmap list_fmap concat length]. rewrite app_nil_r. split; [done|]. split; [done|]. split; [lia|done].
  - change (written [Badger]) with (@nil message_obj). cbn [fmap list_fmap concat length]. rewrite app_nil_r, Z.add_0_r.
    apply wp_bind, wp_gets. change (s_mbox (ses (ss w) i)) with (mbox_of w).
    destruct (Z.eqb_spec (queued w) 0) as [Hz|Hnz]; [by apply badger_idle|].
    apply badger_spec; try apply Hs; try done. pose proof (sv_queue _ Hs) as (Hl & _). unfold queued in Hnz. lia.
Qed.

(** A message for a client at its limit. *)
Lemma write_full msg w :
  i ∈ l -> serving w -> cf_MaxSessionMessages (cf (core w)) <= queued w -> do_op (Write msg) w = Sess_kill (mbox_of w) w.
Proof.
  intros Hi Hs Hq. destruct (table_range _ _ _ (sv_table _ Hs) Hi) as [Hi0 Hi1]. cbn [do_op]. unfold Sess_write.
  rewrite (proj2 (Z.leb_le 0 i)), (proj2 (Z.leb_le i _)) by lia. cbn [andb negb]. unfold bind, get.
  rewrite (sv_open _ Hs). cbn [negb]. unfold queued in Hq. rewrite (proj2 (Z.leb_le _ _) Hq).
  change (s_mbox (ses (ss w) i)) with (mbox_of w). unfold bind. by destruct (Sess_kill (mbox_of w) w) as [[]|].
Qed.
Lemma written_app (ops ops' : list client_op) : written (ops ++ ops') = written ops ++ written ops'.
Proof. apply omap_app. Qed.
Lemma length_written (ops : list client_op) : (length (written ops) <= length ops)%nat.
Proof.
  induction ops as [|[msg|] ops IH]; [done| |].
  - change (written (Write msg :: ops)) with (msg :: written ops). cbn [length]. lia.
  - change (written (Badger :: ops)) with (written ops). cbn [length]. lia.
Qed.

(** C3: what a client gets.  Take an open session, with the write event of its
    socket armed exactly when something is queued for it, and any sequence of
    messages written to it and of visits by the timer or the write event.
    Whatever the socket takes of each [send], all of the sequence is done,
    however long it is, or there is a first message that finds
    [MaxSessionMessages] messages queued, and writing that one kills the
    session.  Up to there the bytes the client was sent, followed by what is
    still queued for it, are those before followed by the messages in the order
    they were written: nothing is lost, sent twice, reordered or mixed.  The
    timer and the write event are armed exactly when something is queued.  The
    other sessions, the table and the daemon are as they were, and so are the
    other timers, the other descriptors and the read event of this one. *)
Theorem client_stream (ops : list client_op) w :
  i ∈ l -> serving w -> write_ok w -> Forall sendable (written ops) ->
  exists before after w', ops = before ++ after /\ mforeach do_op before w = Done tt w' /\
    serving w' /\ write_ok w' /\ served w w' /\ other_writes (mbox_of w) w w' /\
    queued w' <= queued w + Z.of_nat (length (written before)) /\
    out_bytes (ss w') (mbox_of w) ++ pending (ses (ss w') i) =
      out_bytes (ss w) (mbox_of w) ++ pending (ses (ss w) i) ++ concat (mess_bytes <$> written before) /\
    (after = [] \/
     exists msg rest, after = Write msg :: rest /\ cf_MaxSessionMessages (cf (core w)) <= queued w' /\
       do_op (Write msg) w' = Sess_kill (mbox_of w) w').
Proof.
  intros Hi Hs Hw Hall.
  cut (exists before after w', ops = before ++ after /\ mforeach do_op before w = Done tt w' /\ serving w' /\ served w w' /\
    queued w' <= queued w + Z.of_nat (length (written before)) /\ stream w' = stream w ++ concat (mess_bytes <$> written before) /\
    (after = [] \/ exists msg rest, after = Write msg :: rest /\ cf_MaxSessionMessages (cf (core w')) <= queued w')).
  { intros (before & after & w' & Hops & Hdo & Hs' & Hsv & Hq & Hst & Hend). pose proof Hsv as (_ & _ & _ & Hwr).
    destruct (Hwr Hw) as [Hw' Ho]. pose proof (served_mbox _ _ Hsv) as Hm. unfold stream in Hst. rewrite Hm, <- app_assoc in Hst.
    exists before, after, w'. repeat (split; [done|]). destruct Hend as [?|(msg & rest & -> & Hmax)]; [by left|right].
    exists msg, rest. split; [done|]. split; [by rewrite <- (served_cf _ _ Hsv)|]. rewrite <- Hm. by apply write_full. }
  clear Hw. revert w Hs. induction ops as [|op ops IH]; intros w Hs.
  { exists [], [], w. repeat (split; [done|]). split; [by apply served_ss; [apply Hs| | |]|]. split; [cbn; lia|]. split; [by rewrite app_nil_r|by left]. }
  destruct (decide (written [op] = [] \/ queued w < cf_MaxSessionMessages (cf (core w)))) as [Hok|Hfull].
  2: { destruct op as [msg|]; [|by destruct Hfull; left]. exists [], (Write msg :: ops), w. repeat (split; [done|]).
       split; [by apply served_ss; [apply Hs| | |]|]. split; [cbn; lia|]. split; [by rewrite app_nil_r|]. right. exists msg, ops. split; [done|]. lia. }
  change (op :: ops) with ([op] ++ ops) in Hall. rewrite written_app in Hall. apply Forall_app in Hall as [Hop Hall].
  destruct (op_spec op w Hi Hs Hop Hok) as (w1 & Hdo1 & Hs1 & Hsv1 & Hq1 & Hst1).
  destruct (IH Hall w1 Hs1) as (before & after & w' & -> & Hdo & Hs' & Hsv & Hq & Hst & Hend).
  exists (op :: before), after, w'. split; [done|]. split; [cbn [mforeach]; unfold bind; by rewrite Hdo1|]. split; [done|].
  split; [by eapply served_trans|]. change (op :: before) with ([op] ++ before). rewrite written_app, length_app, fmap_app, concat_app.
  split; [lia|]. split; [|done]. by rewrite Hst, Hst1, <- app_assoc.
Qed.
End client.

(* --------------------------------------------------------------------- *)
(** ** A client that reads slowly *)

Definition slow_message (c : Z) : message_obj :=
  [mkElem (enc_header (mkMessageHeader (u32 (Set_endian AGREED_MESS)) (strncpy (str_bytes "#ana#host1") 32) 0 0 6) ++ replicate 6 c) 54].
(** The session [ana], open, whose socket takes 48, 2, 0, 3 and 100 bytes. *)
Definition slow_table : sess_state :=
  match accept_insert None ana (Sess_init_sessions no_table) with
  | inr (i, s) => set_so_send [48; 2; -1; 3; 100; 100; 100] (upd i (set_s_status OP_SESSION) s)
  | inl _ => no_table
  end.
Definition slow_client : sess_world := mkSessWorld slow_table sample_world no_groups.

Lemma slow_serving : serving 996 [996] slow_client.
Proof.
  pose proof (init_table no_table eq_refl) as Ht.
  destruct (insert_ok (Sess_init_sessions no_table) [] [] ana) as (i & s & Hs & _ & Hok & He);
    [exact Ht|by rewrite (tb_num _ _ Ht)|by intros ?%elem_of_nil|constructor|constructor|].
  assert (i = 996) as ->.
  { change (mjoin (head (targets []))) with (@None Z) in Hs. revert Hs. clear. intros Hs.
    assert (Hv : match accept_insert None ana (Sess_init_sessions no_table) with inr (i, _) => i | inl _ => 0 end = 996)
      by (vm_compute; reflexivity).
    by rewrite Hs in Hv. }
  specialize (He 996). rewrite decide_True in He by done.
  assert (Hw : slow_client = mkSessWorld (set_so_send [48; 2; -1; 3; 100; 100; 100] (upd 996 (set_s_status OP_SESSION) s)) sample_world no_groups).
  { unfold slow_client, slow_table. change (mjoin (head (targets []))) with (@None Z) in Hs. by rewrite Hs. }
  rewrite Hw. clear Hw Hs Ht.
  assert (Hr : ses (set_so_send [48; 2; -1; 3; 100; 100; 100] (upd 996 (set_s_status OP_SESSION) s)) 996 = set_s_status OP_SESSION (ses s 996)).
  { change (ses (set_so_send ?x ?s)) with (ses s). by rewrite ses_upd, decide_True. }
  constructor; unfold mbox_of; cbn [ss core]; rewrite ?Hr.
  - eapply table_same; [| |exact Hok]; [|done]. intros j. change (ses (set_so_send ?x ?s)) with (ses s). rewrite ses_upd. by case_decide; subst.
  - done.
  - assert (s_queue (ses s 996) = [] /\ s_num_mess (ses s 996) = 0) as [Hq Hn] by (by injection He).
    split; [|split]; cbn [s_num_mess s_queue set_s_status]; by rewrite Hq.
  - split; constructor.
  - assert (s_num_mess (ses s 996) = 0) as Hn by (by injection He). cbn [s_num_mess set_s_status]. by rewrite Hn.
Qed.

Lemma slow_write_ok : write_ok 996 slow_client.
Proof.
  assert (Hm : mbox_of 996 slow_client = 7) by (vm_compute; reflexivity).
  assert (Hz : queued 996 slow_client = 0) by (vm_compute; reflexivity).
  assert (He : ev (core slow_client) = ev sample_world) by reflexivity.
  unfold write_ok, writable. rewrite Hm, Hz, He. clear. split; [unfold FD_SETSIZE; lia|]. set (e := ev sample_world). vm_compute in e. subst e. constructor; try done.
  - split; [done|]. repeat constructor.
  - intros q Hq. assert (q = 0 \/ q = 1 \/ q = 2) as [-> | [-> | ->]] by (unfold NUM_PRIORITY in Hq; lia); reflexivity.
  - split; [|by intros []]. unfold watched. vm_compute. done.
Qed.

Lemma client_stream_witness :
  let ops := [Write (slow_message 7); Badger; Write (slow_message 8); Badger; Badger] in
  (exists w', mforeach (do_op 996) ops slow_client = Done tt w' /\ serving 996 [996] w' /\ write_ok 996 w' /\
     other_writes 7 slow_client w' /\
     out_bytes (ss w') 7 ++ pending (ses (ss w') 996) = mess_bytes (slow_message 7) ++ mess_bytes (slow_message 8)) /\
  match mforeach (do_op 996) (take 3 ops) slow_client with
  | Done _ w' => out_bytes (ss w') 7 = take 53 (mess_bytes (slow_message 7)) /\ queued 996 w' = 2 /\ badgering 7 w' = true
  | Failed _ => False
  end /\
  match mforeach (do_op 996) ops slow_client with
  | Done _ w' => out_bytes (ss w') 7 = mess_bytes (slow_message 7) ++ mess_bytes (slow_message 8) /\ badgering 7 w' = false
  | Failed _ => False
  end.
Proof.
  intros ops. split; [|vm_compute; repeat split; reflexivity].
  assert (Hsend : forall c, sendable (slow_message c)).
  { intros c. eexists _, []. split; [reflexivity|]. split; [by repeat constructor|]. by split. }
  assert (Hm : mbox_of 996 slow_client = 7) by (vm_compute; reflexivity).
  destruct (client_stream 996 [996] ops slow_client) as (before & after & w' & Hops & Hdo & Hs & Hw & Hsv & Ho & Hq & Hst & Hend).
  - by apply list_elem_of_singleton.
  - exact slow_serving.
  - exact slow_write_ok.
  - by repeat constructor.
  - assert (after = []) as ->.
    { destruct Hend as [?|(msg & rest & -> & Hmax & _)]; [done|exfalso]. apply (f_equal length) in Hops.
      rewrite length_app in Hops. cbn [length ops] in Hops. pose proof (length_written before) as Hl. clear -Hmax Hq Hops Hl.
      assert (Hc : cf_MaxSessionMessages (cf (core slow_client)) = 1000) by (vm_compute; reflexivity).
      assert (Hz : queued 996 slow_client = 0) by (vm_compute; reflexivity). lia. }
    rewrite app_nil_r in Hops. subst before. exists w'. rewrite Hm in Hst, Ho.
    split; [exact Hdo|]. split; [exact Hs|]. split; [exact Hw|]. split; [exact Ho|]. rewrite Hst. vm_compute. reflexivity.
Defined.
