(* ===== verification/SessDrain.v ===== *)
(** * A client that reads is served to the end ([Sess_badger])

    As long as the socket of a client takes bytes often enough, whatever it
    does in between, the visits of the timer and of the write event empty its
    queue, and then they stop. *)

From Stdlib Require Import ZArith Lia.
From stdpp Require Import base strings numbers option gmap list.
From S2P Require Import Prelude Wire Bytes Config Events EventsFd State Network FlowControl MembSets MembCore ProtSend.
From S2P Require Import Sample Retrans Requests Packing Deliver Delivery Sending EndToEnd Message Names GroupState SessState SessTable SessDir SessWrite SessStream SessServe.

(** ** What is left to do *)

(** The bytes and the calls to [send] a message needs from a position on, and
    those the queue of a session needs: a send of an empty element is a call
    as well. *)
Definition message_work (msg : message_obj) (p : partial_message_info) : nat :=
  (length (unsent msg p) + length (drop (Z.to_nat (cur_element p)) msg))%nat.
Definition whole_work (msg : message_obj) : nat := (length (mess_bytes msg) + length msg)%nat.
Definition work (r : session) : nat :=
  match s_queue r with [] => 0 | msg :: q => message_work msg (s_write r) + sum_list (whole_work <$> q) end%nat.

(** How many of the sends to come take something. *)
Definition takes (l : list Z) : nat := length (filter (fun k => 0 < k) l).
Definition sends (w : sess_world) : list Z := so_send (ss w).

(** Some sends were made: [d] units of work were done, at least one for each
    send that took something. *)
Definition used (w w' : sess_world) (d : nat) : Prop :=
  exists l, sends w = l ++ sends w' /\ (takes l <= d)%nat.

Lemma takes_app l1 l2 : takes (l1 ++ l2) = (takes l1 + takes l2)%nat.
Proof. unfold takes. by rewrite filter_app, length_app. Qed.
Lemma used_trans w w1 w2 d1 d2 : used w w1 d1 -> used w1 w2 d2 -> used w w2 (d1 + d2).
Proof.
  intros (l1 & H1 & L1) (l2 & H2 & L2). exists (l1 ++ l2). rewrite takes_app. split; [by rewrite H1, H2, app_assoc|lia].
Qed.
Lemma used_none w : used w w 0.
Proof. by exists []. Qed.

Section drain.
Context (i mbox : Z).
Implicit Types (w : sess_world) (msg : message_obj).

(** A send takes a result, if there is one. *)
Lemma send_part_used b from n w : 0 <= n ->
  wp (send_part mbox b from n) (fun k w' => ses (ss w') i = ses (ss w) i /\ k <= n /\
    used w w' (if k =? n then S (Z.to_nat n) else Z.to_nat k) /\
    (k <> n -> sends w = [] \/ (length (sends w') < length (sends w))%nat)) never w.
Proof.
  intros Hn. unfold send_part. rewrite (proj2 (Z.ltb_ge n 0)) by done. unfold send. apply wp_bind, wp_get, wp_bind, wp_modify.
  change (so_send (ss w)) with (sends w).
  assert (Hgo : forall k w', sends w' = tail (sends w) -> k = (if next_result (sends w) <? 0 then -1 else Z.min (next_result (sends w)) n) ->
    used w w' (if k =? n then S (Z.to_nat n) else Z.to_nat k) /\ (k <> n -> sends w = [] \/ (length (sends w') < length (sends w))%nat)).
  { intros k w' Hs Hk. split.
    - exists (take 1 (sends w)). rewrite Hs. destruct (sends w) as [|r rs]; [by split; [|cbn; lia]|]. split; [done|].
      change (take 1 (r :: rs)) with [r]. cbn [next_result head from_option id] in Hk |- *. unfold takes. rewrite filter_cons. change (filter (fun k => 0 < k) (@nil Z)) with (@nil Z).
      destruct (decide (0 < r)) as [Hr|Hr]; cbn [length]; [|lia].
      rewrite (proj2 (Z.ltb_ge r 0)) in Hk by lia. destruct (Z.eqb_spec k n); lia.
    - intros _. rewrite Hs. destruct (sends w); [by left|right; cbn; lia]. }
  apply wp_if; intros Hk.
  - apply wp_ret. split; [done|]. split; [lia|]. apply Hgo; [done|by rewrite Hk].
  - apply wp_bind, wp_modify, wp_ret. split; [done|]. rewrite length_take, get_bytes_length. apply Z.ltb_ge in Hk.
    split; [lia|]. apply Hgo; [done|]. rewrite (proj2 (Z.ltb_ge _ 0)) by done. lia.
Qed.

(** A message was worked on: it is done, or a send was not complete. *)
Definition worked msg w (able : bool) w' : Prop :=
  exists d, used w w' d /\ (message_work msg (s_write (ses (ss w') i)) + d <= message_work msg (s_write (ses (ss w) i)))%nat /\
    (if able then drop (Z.to_nat (cur_element (s_write (ses (ss w') i)))) msg = []
     else (length (sends w') < length (sends w))%nat \/ (sends w' = [] /\ (0 < message_work msg (s_write (ses (ss w') i)))%nat)).

Lemma used_length w w' d : used w w' d -> (length (sends w') <= length (sends w))%nat.
Proof. intros (l & Hl & _). rewrite Hl, length_app. lia. Qed.

Lemma worked_trans msg w w1 able w' d :
  used w w1 d -> (message_work msg (s_write (ses (ss w1) i)) + d <= message_work msg (s_write (ses (ss w) i)))%nat ->
  worked msg w1 able w' -> worked msg w able w'.
Proof.
  intros H1 Hw (d' & H2 & Hw' & Hend). exists (d + d')%nat. split; [by eapply used_trans|]. split; [lia|].
  pose proof (used_length _ _ _ H1). destruct able; [done|]. destruct Hend as [?|?]; [left; lia|by right].
Qed.

(** The work of a message on an element and the rest. *)
Lemma message_work_cons msg p e l : located msg p -> drop (Z.to_nat (cur_element p)) msg = e :: l ->
  message_work msg p = (Z.to_nat (se_len e - cur_byte p) + whole_work l + 1)%nat.
Proof.
  intros (_ & _ & Hcb & Hlen) Hd. rewrite Hd in Hlen. unfold message_work, unsent, whole_work. rewrite Hd, drop_elem_bytes by lia.
  rewrite length_app, get_bytes_length. cbn [length]. lia.
Qed.

Lemma body_worked msg l : forall w, Forall elem_ok msg -> located msg (s_write (ses (ss w) i)) ->
  l = drop (Z.to_nat (cur_element (s_write (ses (ss w) i)))) msg ->
  wp (badger_body i mbox l (cur_byte (s_write (ses (ss w) i)))) (worked msg w) never w.
Proof.
  induction l as [|e l IH]; intros w Hok Hloc Hl; cbn [badger_body].
  { apply wp_ret. exists 0%nat. split; [apply used_none|]. split; [lia|done]. }
  pose proof Hloc as (Hh & Hce & Hcb & Hlen). rewrite <- Hl in Hlen.
  pose proof (message_work_cons msg _ e l Hloc (eq_sym Hl)) as Hwork. set (p := s_write (ses (ss w) i)) in *.
  assert (Hdrop : drop (Z.to_nat (cur_element p + 1)) msg = l).
  { rewrite Z2Nat.inj_add by lia. rewrite <- drop_drop, <- Hl. done. }
  assert (Hel : Forall elem_ok (e :: l)) by (rewrite Hl; by apply Forall_drop).
  apply wp_bind. eapply wp_mono; [apply send_part_used; lia| |done]. intros k w1 (Hs & Hkn & Hu & Hpart). apply wp_if; intros Hk.
  - rewrite Hk in Hu. apply Z.eqb_eq in Hk. apply wp_bind, wp_modify. set (w2 := mkSessWorld _ _ _).
    assert (Hp2 : s_write (ses (ss w2) i) = set_cur_element (cur_element p + 1) (set_cur_byte 0 p)).
    { cbn [ss w2]. rewrite ses_upd, decide_True by done. cbn. by rewrite Hs. }
    assert (Hl2 : located msg (s_write (ses (ss w2) i))).
    { rewrite Hp2. split_and!; [done|cbn; lia|done|]. cbn [cur_element set_cur_element set_cur_byte cur_byte]. rewrite Hdrop.
      destruct l as [|e' l]; [done|]. by apply Forall_cons in Hel as [_ [[? _] _]%Forall_cons]. }
    specialize (IH w2 Hok Hl2). rewrite Hp2 in IH. cbn [cur_byte cur_element set_cur_element set_cur_byte] in IH.
    eapply wp_mono; [apply IH; by rewrite Hdrop| |done]. intros able w'. apply (worked_trans msg w w2 able w' _ Hu).
    fold p. rewrite Hwork, Hp2. unfold message_work, unsent. cbn [cur_byte cur_element set_cur_element set_cur_byte]. rewrite Hdrop, drop_0.
    unfold whole_work. lia.
  - rewrite Hk in Hu. apply Z.eqb_neq in Hk. specialize (Hpart Hk). apply wp_bind, wp_when; intros Hk0.
    + apply Z.ltb_lt in Hk0. apply wp_modify, wp_ret. set (w2 := mkSessWorld _ _ _).
      assert (Hp2 : s_write (ses (ss w2) i) = set_cur_byte (cur_byte p + k) p).
      { cbn [ss w2]. rewrite ses_upd, decide_True by done. cbn. by rewrite Hs. }
      assert (Hl2 : located msg (s_write (ses (ss w2) i))).
      { rewrite Hp2. split_and!; [done|done|cbn; lia|]. cbn [cur_element set_cur_byte cur_byte]. rewrite <- Hl. lia. }
      assert (Hwork2 : message_work msg (s_write (ses (ss w2) i)) = (Z.to_nat (se_len e - (cur_byte p + k)) + whole_work l + 1)%nat).
      { rewrite (message_work_cons msg _ e l Hl2); rewrite Hp2; [done|]. cbn [cur_element set_cur_byte]. done. }
      exists (Z.to_nat k). split; [exact Hu|]. rewrite Hwork2. fold p. rewrite Hwork. split; [lia|].
      destruct Hpart as [He|?]; [|by left]. right. split; [|lia]. destruct Hu as (ls & Hls & _). rewrite He in Hls. symmetry in Hls. by apply app_nil in Hls as [_ Hls].
    + apply Z.ltb_ge in Hk0. apply wp_ret. exists 0%nat. replace (Z.to_nat k) with 0%nat in Hu by lia. split; [done|]. rewrite Hs. split; [lia|].
      fold p. rewrite Hwork. destruct Hpart as [He|?]; [|by left]. right. split; [|lia]. destruct Hu as (ls & Hls & _). rewrite He in Hls. symmetry in Hls.
      by apply app_nil in Hls as [_ Hls].
Qed.

(** The queue was worked on: it is empty, or a send was not complete. *)
Definition loop_worked w w' : Prop :=
  exists d, used w w' d /\ (work (ses (ss w') i) + d <= work (ses (ss w) i))%nat /\
    (s_queue (ses (ss w') i) = [] \/ (length (sends w') < length (sends w))%nat \/ sends w' = [] /\ (0 < work (ses (ss w') i))%nat).

Lemma loop_worked_trans w w1 w' d :
  used w w1 d -> (work (ses (ss w1) i) + d <= work (ses (ss w) i))%nat -> loop_worked w1 w' -> loop_worked w w'.
Proof.
  intros H1 Hw (d' & H2 & Hw' & Hend). exists (d + d')%nat. split; [by eapply used_trans|]. split; [lia|].
  pose proof (used_length _ _ _ H1). destruct Hend as [?|[?|?]]; [by left|right; left; lia|by right; right].
Qed.

Lemma loop_drains q : forall w, writing_ok (ses (ss w) i) -> s_queue (ses (ss w) i) = q ->
  wp (badger_loop i mbox q) (fun _ w' => loop_worked w w') never w.
Proof.
  induction q as [|msg q IH]; intros w Hw Hq; cbn [badger_loop]; pose proof Hw as (Hn & Hok & Hloc); rewrite Hq in Hn, Hok, Hloc.
  { apply wp_bind, wp_gets. rewrite Hn. cbn. apply wp_ret. exists 0%nat. split; [apply used_none|]. split; [lia|by left]. }
  apply Forall_cons in Hok as [Hmsg Hok].
  apply wp_bind, wp_gets. rewrite Hn. rewrite (proj2 (Z.ltb_lt 0 _)) by (cbn; lia). apply wp_bind.
  assert (Hhead : badger_head i mbox msg w = Done true w).
  { unfold badger_head, the_session, bind, gets. destruct Hloc as [Hh _]. by rewrite Hh. }
  unfold wp at 1. rewrite Hhead. apply wp_bind, wp_gets, wp_bind.
  eapply wp_mono; [apply wp_and; [by apply (badger_body_spec i mbox msg)|by apply body_worked]| |done].
  intros able w1 [(Hc & Ho & Hq1 & Hn1 & Hl1 & Hs1 & Hab) (d & Hu & Hd & Hend)]. rewrite Hq in Hq1.
  assert (Hw1 : writing_ok (ses (ss w1) i)).
  { split; [by rewrite Hq1, Hn1|]. rewrite Hq1. split; [by constructor|done]. }
  assert (Hwork1 : work (ses (ss w1) i) = (message_work msg (s_write (ses (ss w1) i)) + sum_list (whole_work <$> q))%nat) by (unfold work; by rewrite Hq1).
  assert (Hwork : (work (ses (ss w1) i) + d <= work (ses (ss w) i))%nat) by (rewrite Hwork1; unfold work; rewrite Hq; lia).
  apply wp_when; intros Hable; rewrite Hable in Hend, Hab; [clear able Hable|].
  2: { exists d. split; [done|]. split; [done|]. right. destruct Hend as [?|[? ?]]; [by left|right]. split; [done|lia]. }
  apply wp_bind, wp_modify. destruct (pop_spec i mbox msg q w1 Hw1 Hq1 (Hab eq_refl)) as (_ & Hw2 & Hq2 & _). set (w2 := mkSessWorld _ _ _) in *.
  eapply wp_mono; [by apply IH| |done]. intros [] w3. apply (loop_worked_trans w w2 w3 d); [done|].
  assert (Hwork2 : (work (ses (ss w2) i) <= work (ses (ss w1) i))%nat); [|lia].
  rewrite Hwork1. unfold work. rewrite Hq2. destruct q as [|m q']; [lia|].
  assert (Hp2 : s_write (ses (ss w2) i) = Message_reset_current_location) by (cbn [ss w2]; by rewrite ses_upd, decide_True).
  change (sum_list (whole_work <$> m :: q')) with (whole_work m + sum_list (whole_work <$> q'))%nat. rewrite Hp2.
  assert (message_work m Message_reset_current_location = whole_work m) as ->; [|lia].
  unfold message_work, whole_work, unsent. change (Z.to_nat (cur_byte Message_reset_current_location)) with 0%nat.
  change (Z.to_nat (cur_element Message_reset_current_location)) with 0%nat. by rewrite !drop_0.
Qed.
End drain.

(* --------------------------------------------------------------------- *)
(** ** The visits *)

Section visits.
Context (i : Z) (l : list Z).
Implicit Types (w : sess_world).

Lemma badger_drains w : i ∈ l -> serving i l w ->
  wp (Sess_badger (mbox_of i w)) (fun _ w' => loop_worked i w w') never w.
Proof.
  intros Hi Hs. unfold Sess_badger. apply wp_bind. unfold wp at 1, index_of, lift. unfold mbox_of at 1.
  rewrite (index_known _ l) by (done || apply Hs). apply wp_bind, wp_gets.
  destruct (table_range _ _ _ (sv_table _ _ _ Hs) Hi) as [Hi0 Hi1]. unfold legal_index.
  rewrite (proj2 (Z.leb_le 0 i)), (proj2 (Z.ltb_lt i _)), (sv_open _ _ _ Hs) by lia. cbn [negb orb andb].
  assert (Hss : forall w1 w', ss w' = ss w1 -> loop_worked i w w1 -> loop_worked i w w').
  { intros w1 w' He. unfold loop_worked, used, sends. by rewrite He. }
  pose proof (sv_queue _ _ _ Hs) as (Hn & _). apply wp_if; intros Hq.
  - apply Z.leb_le in Hq. eapply wp_mono; [apply badger_no_more_spec, Hs| |done]. intros [] w' (He & _). apply (Hss w w' He).
    exists 0%nat. split; [apply used_none|]. split; [lia|]. left. destruct (s_queue _); [done|cbn in Hn; lia].
  - apply Z.leb_gt in Hq. apply wp_bind.
    eapply wp_mono; [apply wp_and; [apply (badger_loop_spec i (mbox_of i w) _ w (sv_queue _ _ _ Hs) eq_refl)|by apply loop_drains; [apply Hs|]]| |done].
    intros _ w1 [(Hc & _) Hw1]. apply wp_bind, wp_gets.
    assert (Ht : queue_ok (timers w1)) by (unfold timers; rewrite Hc; apply Hs).
    destruct (0 <? s_num_mess (ses (ss w1) i)).
    + eapply wp_mono; [by apply badger_later_spec| |done]. intros [] w' (He & _). by apply (Hss w1).
    + eapply wp_mono; [by apply badger_no_more_spec| |done]. intros [] w' (He & _). by apply (Hss w1).
Qed.

(** A visit to a client that has something to get, or nothing. *)
Lemma visit_spec w : i ∈ l -> serving i l w ->
  wp (do_op i Badger) (fun _ w' => serving i l w' /\ served i w w' /\ queued i w' <= queued i w /\ stream i w' = stream i w /\ loop_worked i w w') never w.
Proof.
  intros Hi Hs. cbn [do_op]. apply wp_bind, wp_gets. change (s_mbox (ses (ss w) i)) with (mbox_of i w).
  eapply wp_mono; [apply wp_and; [|by apply badger_drains]| |done].
  - destruct (Z.eqb_spec (queued i w) 0) as [Hz|Hnz]; [by apply (badger_idle i l)|].
    apply (badger_spec i l); try apply Hs; try done. pose proof (sv_queue _ _ _ Hs) as (Hl & _). unfold queued in Hnz. lia.
  - intros _ w' [(H1 & H2 & H3 & H4) H5]. done.
Qed.

(** C4: a client that reads is served to the end.  If, of the calls to send
    to come, as many take something as the queue of an open session has
    bytes and elements to send, whatever the other calls do and however much
    each takes, then enough visits of the timer or the write event empty the
    queue: everything that was queued is sent after what was sent before, the
    timer is no longer armed, and the rest of the daemon is as it was. *)
Theorem client_drained (n : nat) w :
  i ∈ l -> serving i l w -> (work (ses (ss w) i) <= takes (sends w))%nat -> (length (sends w) < n)%nat ->
  wp (mforeach (do_op i) (replicate n Badger))
    (fun _ w' => serving i l w' /\ served i w w' /\ s_queue (ses (ss w') i) = [] /\ badgering (mbox_of i w) w' = false /\
       out_bytes (ss w') (mbox_of i w) = out_bytes (ss w) (mbox_of i w) ++ pending (ses (ss w) i)) never w.
Proof.
  intros Hi Hs Hw Hn.
  eapply (wp_mono _ (fun _ w' => (serving i l w' /\ served i w w' /\ stream i w' = stream i w) /\ s_queue (ses (ss w') i) = [])); [| |done].
  2: { intros _ w' ((Hs' & Hsv & Hst) & Hq). pose proof (served_mbox _ _ _ Hsv) as Hm. split; [done|]. split; [done|]. split; [done|].
    pose proof (sv_queue _ _ _ Hs') as (Hnum & _). rewrite Hq in Hnum. split.
    - rewrite <- Hm, (sv_badger _ _ _ Hs'), Hnum. done.
    - unfold stream in Hst. rewrite Hm in Hst. unfold pending in Hst at 1. by rewrite Hq, app_nil_r in Hst. }
  assert (Hmain : forall n w, serving i l w -> (work (ses (ss w) i) <= takes (sends w))%nat ->
    (length (sends w) < n)%nat \/ s_queue (ses (ss w) i) = [] ->
    wp (mforeach (do_op i) (replicate n Badger))
      (fun _ w' => (serving i l w' /\ served i w w' /\ stream i w' = stream i w) /\ s_queue (ses (ss w') i) = []) never w); [|by apply Hmain; [..|left]].
  clear n w Hs Hw Hn. induction n as [|n IH]; intros w Hs Hw Hn; cbn [replicate mforeach].
  { apply wp_ret. split; [split; [done|split; [by apply served_ss; [apply Hs|done|done|]|done]]|]. destruct Hn as [Hn|Hn]; [lia|done]. }
  apply wp_bind. eapply wp_mono; [by apply visit_spec| |done]. intros _ w1 (Hs1 & Hsv1 & Hq1 & Hst1 & d & (ls & Hls & Ht) & Hd & Hend).
  assert (Hw1 : (work (ses (ss w1) i) <= takes (sends w1))%nat) by (rewrite Hls, takes_app in Hw; lia).
  eapply wp_mono; [apply IH; [done|done|]| |done].
  - destruct Hend as [Hq|[Hlen|[Hnil Hpos]]]; [by right| |rewrite Hnil in Hw1; cbn in Hw1; lia].
    destruct Hn as [Hn|Hn]; [left; lia|].
    right. pose proof (sv_queue _ _ _ Hs) as (Hnum & _). pose proof (sv_queue _ _ _ Hs1) as (Hnum1 & _). rewrite Hn in Hnum.
    unfold queued in Hq1. destruct (s_queue (ses (ss w1) i)); [done|]. cbn in Hnum, Hnum1. lia.
  - intros _ w2 ((Hs2 & Hsv2 & Hst2) & Hq2). split; [|done]. split; [done|]. split; [by eapply served_trans|congruence].
Qed.
End visits.

(* --------------------------------------------------------------------- *)
(** ** A slow client that goes on reading *)

Definition slow_reader : sess_world :=
  mkSessWorld (set_so_send [48; 2; -1; 1; 0; -1; 1; 1; 0; 7; 9; 1] (ss slow_client)) (core slow_client) (gs slow_client).
Lemma serving_sends i l ks w : serving i l w -> serving i l (mkSessWorld (set_so_send ks (ss w)) (core w) (gs w)).
Proof. intros [H1 H2 H3 H4 H5]. constructor; [|done..]. by apply (table_same (ss w)). Qed.
(** A message is partly sent to it. *)
Definition half_sent : sess_world :=
  match Sess_write 996 (slow_message 7) 0 slow_reader with Done _ w => w | Failed _ => slow_reader end.

Lemma after_done {S A} (m : M S A) (P : S -> Prop) (w w0 : S) :
  wp m (fun _ w' => P w') never w -> P (match m w with Done _ w' => w' | Failed _ => w0 end).
Proof. unfold wp. by destruct (m w). Qed.

Lemma half_sent_serving : serving 996 [996] half_sent.
Proof.
  assert (Hs : serving 996 [996] slow_reader) by (unfold slow_reader; apply serving_sends, slow_serving).
  assert (Hw : wp (Sess_write 996 (slow_message 7) 0) (fun _ w' => serving 996 [996] w') never slow_reader).
  { eapply wp_mono; [apply (write_spec 996 [996] (slow_message 7) 0 slow_reader)| |done]; [by left|exact Hs| |vm_compute; reflexivity|].
    - eexists _, []. split; [reflexivity|]. split; [constructor; [vm_compute; split; discriminate|constructor]|].
      split; [vm_compute; discriminate|]. intros H. vm_compute in H. discriminate H.
    - intros n w' (_ & H & _). exact H. }
  exact (after_done _ _ _ slow_reader Hw).
Qed.

Lemma client_drained_witness :
  wp (mforeach (do_op 996) (replicate 11 Badger))
    (fun _ w' => serving 996 [996] w' /\ s_queue (ses (ss w') 996) = [] /\ badgering 7 w' = false /\
       out_bytes (ss w') 7 = mess_bytes (slow_message 7)) never half_sent /\
  (work (ses (ss half_sent) 996), takes (sends half_sent), queued 996 half_sent, badgering 7 half_sent) = (5%nat, 6%nat, 1, true).
Proof.
  split; [|vm_compute; reflexivity].
  assert (Hm : mbox_of 996 half_sent = 7) by (vm_compute; reflexivity).
  assert (Hb : out_bytes (ss half_sent) 7 ++ pending (ses (ss half_sent) 996) = mess_bytes (slow_message 7)) by (vm_compute; reflexivity).
  pose proof (client_drained 996 [996] 11 half_sent) as Hd. rewrite Hm in Hd.
  eapply wp_mono; [apply Hd; [by left|exact half_sent_serving|vm_compute; lia|vm_compute; lia]| |done].
  intros _ w' (H1 & _ & H2 & H3 & H4). rewrite H4, Hb. split; [exact H1|]. split; [exact H2|]. split; [exact H3|reflexivity].
Defined.
