(* ===== verification/SessDeliver.v ===== *)
(** * From the core to the clients ([Sess_deliver_message])

    Messages for clients go to the sessions the groups component finds for
    their groups, joins, leaves, disconnections and group state to the groups
    component itself, through the interface [Groups]. *)

From Stdlib Require Import ZArith Lia.
From stdpp Require Import base strings numbers option gmap list.
From S2P Require Import Prelude Wire Bytes Config Events EventsFd State Network FlowControl MembSets MembCore ProtSend.
From S2P Require Import Sample Retrans Requests Packing Deliver Delivery Sending EndToEnd Message Names GroupState SessState SessTable SessDir SessWrite SessStream SessServe.

(** What [groups.c] gives the session layer: the mailboxes of the local
    members of a group ([G_get_group], [None] for [NULL]) and its handlers. *)
Class Groups : Type := {
  G_mboxes : sess_world -> list Z -> option (list Z);
  G_is_ready : sess_world -> bool;  (* Gstate is GOP or GTRANS *)
  G_handle_join : list Z -> list Z -> MS unit;
  G_handle_leave : list Z -> list Z -> MS unit;
  G_handle_kill : list Z -> MS unit;
  G_handle_groups : message_obj -> MS unit
}.

Section groups.
Context `{Groups}.

(** The mailboxes of one target, [None] when the loop goes on without any. *)
Definition target_mboxes (w : sess_world) (target : list Z) : res (option (list Z)) :=
  if negb (get_byte target 0 =? HASH) then
    match G_mboxes w target with
    | None => inr None
    | Some mboxes =>
        if G_is_ready w then inr (Some mboxes) else inl (Fatal "G_analize_groups: Gstate")
    end
  else
    let? names := G_private_to_names target in
    match names with
    | None => inr None
    | Some (private_name, proc_name) =>
        if negb (strcmp (sx_My_name (ss w)) proc_name =? 0) then inr None
        else
          let? ses_ := Sess_get_session private_name (ss w) in
          if ses_ <? 0 then inr None else inr (Some [s_mbox (ses (ss w) ses_)])
    end.

(** The new ones of [litbox] behind [mboxes], which is adopted when empty. *)
Definition add_mboxes (mboxes litbox : list Z) : list Z :=
  match mboxes with
  | [] => litbox
  | _ => mboxes ++ filter (fun m => m ∉ mboxes) litbox
  end.
Fixpoint collect_mboxes (w : sess_world) (targets : list (list Z)) (mboxes : list Z) : res (list Z) :=
  match targets with
  | [] => inr mboxes
  | t :: targets =>
      let? litbox := target_mboxes w t in
      collect_mboxes w targets (match litbox with Some litbox => add_mboxes mboxes litbox | None => mboxes end)
  end.
Fixpoint mboxes_to_sessions (s : sess_state) (mboxes : list Z) : res (list Z) :=
  match mboxes with
  | [] => inr []
  | m :: mboxes =>
      let? i := Sess_get_session_index m s in
      let? l := mboxes_to_sessions s mboxes in
      inr (i :: l)
  end.

(** With one target its mailboxes are used as they are. *)
Definition G_analize_groups (targets : list (list Z)) (w : sess_world) : res (list Z) :=
  let? mboxes :=
    (match targets with
     | [t] => let? litbox := target_mboxes w t in inr (default [] litbox)
     | _ => collect_mboxes w targets []
     end) in
  mboxes_to_sessions (ss w) mboxes.

Definition G_get_num_local (group_name : list Z) (w : sess_world) : Z :=
  match G_mboxes w group_name with None => 0 | Some mboxes => Z.of_nat (length mboxes) end.

(** ** Control messages *)

Definition first_group (msg : message_obj) : list Z := bytes_from msg (Message_get_first_group msg).

Definition Sess_handle_join (msg : message_obj) : MS unit :=
  G_handle_join (mh_private_group_name (Message_get_message_header msg)) (first_group msg).
Definition Sess_handle_leave (msg : message_obj) : MS unit :=
  G_handle_leave (mh_private_group_name (Message_get_message_header msg)) (first_group msg).

(** The client of [private_name] is gone at every daemon; here its session
    ends. *)
Definition Sess_handle_kill (msg : message_obj) : MS unit :=
  let private_group_name := mh_private_group_name (Message_get_message_header msg) in
  let* names := lift (G_private_to_names private_group_name) in
  match names with
  | None => fail (Fatal "Sess_handle_kill: Illegal private name to kill")
  | Some (private_name, proc_name) =>
      G_handle_kill private_group_name ;;
      let* w := get in
      when (strcmp (sx_My_name (ss w)) proc_name =? 0)
        (let* i := lift (Sess_get_session private_name (ss w)) in
         when (0 <=? i)
           (if Is_session OP_SESSION (s_status (ses (ss w) i))
            then fail (Fatal "Sess_handle_kill: killing unkilled session bug!")
            else
              let* s := lift (drop_session i (ss w)) in
              s_do (fun _ => s)))
  end.

(** ** Messages *)

Section deliver.
Context `{Session}.

(** The loop over the sessions; [source_ses] is left out. *)
Fixpoint write_all (source_ses : Z) (target_sessions : list Z) (msg : message_obj) (needed : Z) : MS Z :=
  match target_sessions with
  | [] => ret needed
  | t :: target_sessions =>
      let* needed := (if source_ses =? t then ret needed else Sess_write t msg needed) in
      write_all source_ses target_sessions msg needed
  end.

(** The private and the process name of the sender; what the code does with
    names it could not read is not defined. *)
Definition sender_names (msg : message_obj) : MS (list Z * list Z) :=
  let* names := lift (G_private_to_names (mh_private_group_name (Message_get_message_header msg))) in
  match names with
  | None => fail (Undefined "Sess_deliver_message: private_name")
  | Some n => ret n
  end.

Definition target_sessions_of (msg : message_obj) : MS (list Z) :=
  let h := Message_get_message_header msg in
  if is_mess REJECT_MESS (mh_type h) then
    let* ' (private_name, _) := sender_names msg in
    let* w := get in
    let* t := lift (Sess_get_session private_name (ss w)) in
    ret [t]
  else
    let* b := lift (Message_get_groups_array msg) in
    let* w := get in
    lift (G_analize_groups (group_names b (Z.to_nat (mh_num_groups h))) w).

(** The session of the sender, when it does not want its message back. *)
Definition source_session (msg : message_obj) (target_sessions : list Z) : MS Z :=
  if (0 <? Z.of_nat (length target_sessions)) && is_mess SELF_DISCARD (mh_type (Message_get_message_header msg)) then
    let* ' (private_name, proc_name) := sender_names msg in
    let* w := get in
    if strcmp (sx_My_name (ss w)) proc_name =? 0 then lift (Sess_get_session private_name (ss w)) else ret (-1)
  else ret (-1).

Definition deliver_regular (msg : message_obj) : MS unit :=
  s_do (fun s => set_Message_delivered (Message_delivered s + 1) s) ;;
  let msg := with_message_header (fun h => set_mh_type (Set_endian (mh_type h)) h) msg in
  let* target_sessions := target_sessions_of msg in
  let* source_ses := source_session msg target_sessions in
  write_all source_ses target_sessions msg 0 ;;
  ret tt.

Definition Sess_deliver_message (msg : message_obj) : MS unit :=
  let msg := Message_endian_correct_message_header msg in
  let t := mh_type (Message_get_message_header msg) in
  if is_mess JOIN_MESS t then Sess_handle_join msg
  else if is_mess LEAVE_MESS t then Sess_handle_leave msg
  else if is_mess KILL_MESS t then Sess_handle_kill msg
  else if is_mess GROUPS_MESS t then G_handle_groups msg
  else deliver_regular msg.

(** ** Rejects *)

Definition Sess_create_reject_message (msg : message_obj) : res message_obj :=
  let old_type := mh_type (Message_get_message_header msg) in
  let type := Set_endian REJECT_MESS in
  let type := if is_mess SELF_DISCARD old_type then Z.lor type SELF_DISCARD else type in
  Message_add_oldtype_to_reject old_type (with_message_header (set_mh_type type) msg).
Definition Sess_deliver_reject (msg : message_obj) : MS unit := Sess_deliver_message msg.
End deliver.
End groups.
