(* ===== verification/SessRead.v ===== *)
(** * Reading from the clients ([Sess_read])

    A message comes from the socket of a client in as many pieces as it
    likes: first its header, which is checked, then its groups and data into
    the elements of a scatter.  A complete message is checked against the
    access control policy and put in the down queue of the protocol. *)

From Stdlib Require Import ZArith Lia.
From stdpp Require Import base strings numbers option gmap list.
From S2P Require Import Prelude Wire Bytes Config Events EventsFd State Network FlowControl MembSets MembCore ProtSend.
From S2P Require Import Sample Retrans Requests Packing Deliver Delivery Sending EndToEnd Message Names GroupState SessState SessTable SessDir SessWrite SessStream SessServe SessDeliver.

(** ** The header *)

(** [count_bits_set]: the bits of [field] from [first_index] to below
    [last_index]; the mask is an [int32u]. *)
Definition count_bits_set (field first_index last_index : Z) : Z :=
  foldr (fun i count => if truth (Z.land field (u32 (Z.shiftl 1 i))) then count + 1 else count) 0
    (seqZ first_index (last_index - first_index)).

Definition set_mh_private_group_name (x : list Z) (h : message_header) : message_header :=
  mkMessageHeader (mh_type h) x (mh_num_groups h) (mh_hint h) (mh_data_len h).

(** The tests after the name, all of them passed. *)
Definition sizes_ok (head_size : Z) (h : message_header) : bool :=
  negb ((mh_num_groups h <? 0) || (MAX_GROUPS_PER_MESSAGE <? mh_num_groups h))
  && negb (truth (Z.land (u32 (mh_hint h)) (u32 (Z.lnot (Z.lor 0x80000080 0x00ffff00)))))
  && negb ((mh_data_len h <? 0) || (MAX_MESSAGE_BODY_LEN <? mh_data_len h))
  && negb (MAX_MESSAGE_BODY_LEN - head_size <? mh_data_len h + MAX_GROUP_NAME * mh_num_groups h).

(** The type has one service or one control bit. *)
Definition type_ok (type : Z) : bool :=
  let type_bits := count_bits_set type 0 6 in
  let memb_bits := count_bits_set type 16 19 in
  negb ((1 <? type_bits) || (1 <? memb_bits) || negb (type_bits + memb_bits =? 1)).

(** 0 or -1, and the header with the name terminated. *)
Definition Sess_validate_read_header (i head_size : Z) (h : message_header) (s : sess_state) : res (Z * message_header) :=
  if negb (type_ok (mh_type h)) then inr (-1, h)
  else
    let h := set_mh_private_group_name (aset (mh_private_group_name h) (MAX_GROUP_NAME - 1) 0) h in
    let? names := G_private_to_names (mh_private_group_name h) in
    match names with
    | None => inr (-1, h)
    | Some (private_name, proc_name) =>
        if negb (strncmp proc_name (sx_My_name s) MAX_PROC_NAME =? 0) then inr (-1, h)
        else if negb (strncmp private_name (s_name (ses s i)) MAX_PRIVATE_NAME =? 0) then inr (-1, h)
        else if sizes_ok head_size h then inr (0, h) else inr (-1, h)
    end.

(** ** The pieces *)

(** The message that is being read, a new one when there is none. *)
Definition reading_mess (i : Z) : MS message_obj :=
  let* r := the_session i in
  match s_read_mess r with
  | Some msg => ret msg
  | None => ses_do i (set_s_read_mess (Some Message_new_message)) ;; ret Message_new_message
  end.
(** The bytes [bs] at [b] in the element [e] of the message. *)
Definition store (e b : Z) (bs : list Z) (msg : message_obj) : message_obj :=
  aset msg e (mkElem (put_bytes (se_buf (element msg e)) b bs) (se_len (element msg e))).

(** What reading a piece leads to. *)
Inductive read_result : Type := Got | Waiting | Broken.

(** The rest of the header, as far as [recv] gives it. *)
Definition read_header (i mbox : Z) (msg : message_obj) : MS (read_result * message_obj) :=
  let* r := the_session i in
  let len := cur_byte (s_read r) in
  let remain := sizeof_message_header - len in
  let* ' (k, bs) := recv mbox remain in
  let msg := store 0 len bs msg in
  ses_do i (set_s_read_mess (Some msg)) ;;
  if k =? remain then
    ses_do i (on_read (fun p => Message_set_location_begin_body (set_cur_byte (cur_byte p + k) p))) ;; ret (Got, msg)
  else if 0 <? k then
    ses_do i (on_read (fun p => set_cur_byte (cur_byte p + k) p)) ;; ret (Waiting, msg)
  else if would_block k then ret (Waiting, msg)
  else ret (Broken, msg).

(** The loop over the elements; [remain] bytes are still to come. *)
Fixpoint read_body (fuel : nat) (i mbox remain : Z) (msg : message_obj) : MS (read_result * message_obj) :=
  if remain <=? 0 then ret (Got, msg)
  else
    match fuel with
    | O => fail (Diverges "Sess_read")
    | S fuel =>
        let* r := the_session i in
        let packet_index := cur_element (s_read r) in
        let byte_index := cur_byte (s_read r) in
        let* msg :=
          (if Z.of_nat (length msg) <=? packet_index then
             (* a new fragment *)
             if byte_index =? 0 then lift (Message_add_scat_element msg) else fail (Fatal "Sess_read: assert")
           else ret msg) in
        let to_read := sizeof_packet_body - byte_index in
        let to_read := if remain <? to_read then remain else to_read in
        let* ' (k, bs) := recv mbox to_read in
        let msg := store packet_index byte_index bs msg in
        ses_do i (set_s_read_mess (Some msg)) ;;
        if k =? to_read then
          ses_do i (on_read (fun p => set_total_bytes (total_bytes p + k) (set_cur_element (cur_element p + 1) (set_cur_byte 0 p)))) ;;
          read_body fuel i mbox (remain - k) msg
        else if 0 <? k then
          ses_do i (on_read (fun p => set_total_bytes (total_bytes p + k) (set_cur_byte (cur_byte p + k) p))) ;; ret (Waiting, msg)
        else if would_block k then ret (Waiting, msg)
        else ret (Broken, msg)
    end.
(** Every full element or the end of the message ends a round. *)
Definition READ_FUEL : nat := S (Z.to_nat MAX_SCATTER_ELEMENTS).

(** The header when it is complete: in the byte order of the daemon, marked
    with it. *)
Definition header_in (h : message_header) : message_header :=
  let h := if Same_endian (mh_type h) then h else Flip_mess h in
  set_mh_type (Set_endian (mh_type h)) h.

(** The header, and its check when it is complete. *)
Definition read_checked (i mbox : Z) (msg : message_obj) : MS (read_result * message_obj) :=
  let* ' (res, msg) := read_header i mbox msg in
  match res with
  | Got =>
      let* w := get in
      let* ' (k, h) := lift (Sess_validate_read_header i sizeof_message_header
                               (header_in (Message_get_message_header msg)) (ss w)) in
      let msg := with_message_header (fun _ => h) msg in
      ses_do i (set_s_read_mess (Some msg)) ;;
      ret (if k <? 0 then Broken else Got, msg)
  | _ => ret (res, msg)
  end.

(** A call of [Sess_read] up to the complete message. *)
Definition read_piece (i mbox : Z) : MS (read_result * message_obj) :=
  let* msg := reading_mess i in
  let* r := the_session i in
  let* ' (res, msg) := (if in_mess_head (s_read r) =? 1 then read_checked i mbox msg else ret (Got, msg)) in
  match res with
  | Got =>
      let* r := the_session i in
      let h := Message_get_message_header msg in
      read_body READ_FUEL i mbox (mh_data_len h + MAX_GROUP_NAME * mh_num_groups h - total_bytes (s_read r)) msg
  | _ => ret (res, msg)
  end.

(** The complete message; the next one starts afresh. *)
Definition read_message (i mbox : Z) : MS (read_result * message_obj) :=
  let* ' (res, msg) := read_piece i mbox in
  match res with
  | Got =>
      ses_do i (on_read (fun _ => set_in_mess_head 1 Message_reset_current_location)) ;;
      ses_do i (set_s_read_mess None) ;;
      let* msg := lift (Message_element_len_fixup msg) in
      ret (Got, msg)
  | _ => ret (res, msg)
  end.

(* --------------------------------------------------------------------- *)
(** ** Access control *)

(** The access control policy of the sessions ([struct acp_ops]): whether
    something is allowed. *)
Class AccessPolicy : Type := {
  acp_open_connection : list Z -> bool;
  acp_join_group : list Z -> list Z -> bool;
  acp_leave_group : list Z -> list Z -> bool;
  acp_p2p_send : list Z -> list (list Z) -> Z -> Z -> bool;
  acp_mcast_send : list Z -> list (list Z) -> Z -> Z -> bool
}.
(** [acp-permit.c]. *)
Definition permit : AccessPolicy := {|
  acp_open_connection _ := true;
  acp_join_group _ _ := true;
  acp_leave_group _ _ := true;
  acp_p2p_send _ _ _ _ := true;
  acp_mcast_send _ _ _ _ := true
|}.
#[export] Existing Instance permit.

(** The targets that are private groups. *)
Definition Sess_get_p2p_dests (groups : list (list Z)) : list (list Z) :=
  filter (fun g => get_byte g 0 = HASH) groups.

Definition GROUPS_BUF_SIZE : Z := 100000.
Definition MAX_LOCAL_GROUP_MEMBERS : Z := (GROUPS_BUF_SIZE - (8 + 1) - (MAX_GROUP_NAME + 12 + 2 + 2) - (4 + 8 + 2)) / MAX_GROUP_NAME.

Section reading.
Context `{Groups} `{Session} `{AccessPolicy}.

(** The type a rejected join or leave is sent back with. *)
Definition caused (bit cause type : Z) : Z := u32 (Z.lor (Z.land type (Z.lnot bit)) cause).

(** [None]: allowed; otherwise the message that is rejected. *)
Definition denied (msg : message_obj) (w : sess_world) : res (option message_obj) :=
  let h := Message_get_message_header msg in
  let t := mh_type h in
  let name := mh_private_group_name h in
  if is_mess LEAVE_MESS t && negb (acp_leave_group name (first_group msg)) then
    inr (Some (with_message_header (set_mh_type (caused LEAVE_MESS CAUSED_BY_LEAVE t)) msg))
  else if is_mess JOIN_MESS t
          && ((G_get_num_local (take (Z.to_nat MAX_GROUP_NAME) (first_group msg)) w =? MAX_LOCAL_GROUP_MEMBERS)
              || negb (acp_join_group name (first_group msg))) then
    inr (Some (with_message_header (set_mh_type (caused JOIN_MESS CAUSED_BY_JOIN t)) msg))
  else if Is_only_regular_mess t then
    let? b := Message_get_groups_array msg in
    let groups := group_names b (Z.to_nat (mh_num_groups h)) in
    let p2p := Sess_get_p2p_dests groups in
    let mess_type := s16 (Z.land (Z.shiftr (mh_hint h) 8) 0xffff) in
    if (0 <? Z.of_nat (length p2p)) && negb (acp_p2p_send name p2p t mess_type) then inr (Some msg)
    else if (Z.of_nat (length p2p) <? mh_num_groups h) && negb (acp_mcast_send name groups t mess_type) then inr (Some msg)
    else inr None
  else inr None.

(** A complete message of the session [i]. *)
Definition handle_message (i mbox : Z) (msg : message_obj) : MS unit :=
  let* w := get in
  let* reject := lift (denied msg w) in
  match reject with
  | Some msg =>
      let* msg := lift (Sess_create_reject_message msg) in
      Sess_deliver_reject msg
  | None =>
      let t := mh_type (Message_get_message_header msg) in
      match Prot_Create_Down_Link msg (Message_get_packet_type t) with
      | None => Sess_kill mbox
      | Some down_ptr =>
          (* the length [Message_kill_mess_fixup] returns is not used *)
          when (is_mess KILL_MESS t) (Sess_clear_session i) ;;
          core_call (Prot_new_message down_ptr)
      end
  end.

Definition Sess_read (mbox : Z) : MS unit :=
  let* i := index_of mbox in
  if negb (legal_index i) then ret tt
  else
    let* ' (res, msg) := read_message i mbox in
    match res with
    | Waiting => ret tt
    | Broken => Sess_kill mbox
    | Got => handle_message i mbox msg
    end.
End reading.
