(* ===== verification/SessHeader.v ===== *)
(** * Which headers a client may send ([Sess_validate_read_header])

    The header of a message is accepted exactly when it asks for one kind of
    message, names the session that sent it, and announces sizes within the
    limits; what is accepted has a service in the protocol. *)

From Stdlib Require Import ZArith Lia Bool List.
From stdpp Require Import base strings numbers option gmap list.
From S2P Require Import Prelude Wire Bytes Config Events EventsFd State Network FlowControl MembSets MembCore ProtSend.
From S2P Require Import Sample Retrans Requests Packing Deliver Delivery Sending EndToEnd Message Names GroupState SessState SessTable SessDir SessWrite SessStream SessServe SessDeliver SessRead.

(** ** The kind of a message *)

(** The bits of the services and of the calls a client makes. *)
Definition kind_bits : list Z := [0; 1; 2; 3; 4; 5; 16; 17; 18].
(** The bits of the type among them. *)
Definition kinds (t : Z) : list Z := filter (fun k => Z.testbit t k = true) kind_bits.
(** The service of the protocol for the kind. *)
Definition kind_service (k : Z) : Z :=
  if k <=? 1 then RELIABLE_TYPE else if k =? 2 then FIFO_TYPE else if k =? 5 then SAFE_TYPE else AGREED_TYPE.

Section kinds.
Implicit Types (t k : Z).

Lemma bit_mask t k : 0 <= k < 32 -> truth (Z.land t (u32 (Z.shiftl 1 k))) = Z.testbit t k.
Proof.
  intros Hk. assert (Hp : 0 < 2 ^ k < 2 ^ 32) by (split; [lia|apply Z.pow_lt_mono_r; lia]).
  rewrite Z.shiftl_1_l, u32_id by lia. destruct (Z.testbit t k) eqn:Ht.
  - apply truth_true. intros H. apply (f_equal (fun x => Z.testbit x k)) in H.
    rewrite Z.land_spec, Ht, Z.pow2_bits_true, Z.bits_0 in H by lia. done.
  - apply truth_false, Z.bits_inj'. intros n Hn. rewrite Z.land_spec, Z.bits_0.
    destruct (decide (n = k)) as [->|Hne]; [by rewrite Ht|]. rewrite Z.pow2_bits_false by done. by rewrite andb_false_r.
Qed.

Lemma count_bits_filter t a b : 0 <= a -> b <= 32 ->
  count_bits_set t a b = Z.of_nat (length (filter (fun k => Z.testbit t k = true) (seqZ a (b - a)))).
Proof.
  intros Ha Hb. unfold count_bits_set.
  assert (Hr : Forall (fun k => 0 <= k < 32) (seqZ a (b - a))).
  { apply Forall_forall. intros k Hk%elem_of_seqZ. lia. }
  induction Hr as [|k l Hk Hl IH]; [done|]. cbn [foldr]. rewrite IH, bit_mask by done. rewrite filter_cons.
  destruct (Z.testbit t k); [rewrite decide_True by done|rewrite decide_False by done]; cbn [length]; lia.
Qed.

Lemma type_ok_kinds t : type_ok t = true <-> length (kinds t) = 1%nat.
Proof.
  unfold type_ok, kinds. rewrite !count_bits_filter by lia. change kind_bits with (seqZ 0 (6 - 0) ++ seqZ 16 (19 - 16)).
  rewrite filter_app, length_app. set (x := length _). set (y := length (filter _ (seqZ 16 _))).
  rewrite negb_true_iff, !orb_false_iff, negb_false_iff, !Z.ltb_ge, Z.eqb_eq. lia.
Qed.

Lemma is_mess_bit k t : 0 <= k < 32 -> is_mess (2 ^ k) t = Z.testbit t k.
Proof.
  intros Hk. rewrite <- bit_mask by done. unfold is_mess. rewrite Z.shiftl_1_l, u32_id; [done|].
  split; [lia|]. apply Z.pow_lt_mono_r; lia.
Qed.

Lemma kinds_service t k : kinds t = [k] -> Message_get_packet_type t = kind_service k.
Proof.
  intros H. assert (Hb : forall j, j ∈ kind_bits -> Z.testbit t j = bool_decide (j = k)).
  { intros j Hj. destruct (Z.testbit t j) eqn:Ht; symmetry.
    - apply bool_decide_eq_true. apply list_elem_of_singleton. rewrite <- H. by apply list_elem_of_filter.
    - apply bool_decide_eq_false. intros ->. assert (Hk : k ∈ kinds t) by (rewrite H; by apply list_elem_of_singleton).
      apply list_elem_of_filter in Hk as [Hk _]. congruence. }
  assert (Hk : k ∈ kind_bits).
  { assert (Hk : k ∈ kinds t) by (rewrite H; by apply list_elem_of_singleton). by apply list_elem_of_filter in Hk as [_ ?]. }
  assert (Hm : forall j, j ∈ kind_bits -> is_mess (2 ^ j) t = bool_decide (j = k)).
  { intros j Hj. rewrite is_mess_bit; [by apply Hb|]. unfold kind_bits in Hj. rewrite !elem_of_cons, elem_of_nil in Hj. lia. }
  unfold Message_get_packet_type.
  change UNRELIABLE_MESS with (2 ^ 0). change RELIABLE_MESS with (2 ^ 1). change FIFO_MESS with (2 ^ 2).
  change CAUSAL_MESS with (2 ^ 3). change AGREED_MESS with (2 ^ 4). change SAFE_MESS with (2 ^ 5).
  change JOIN_MESS with (2 ^ 16). change LEAVE_MESS with (2 ^ 17). change KILL_MESS with (2 ^ 18).
  rewrite !Hm by (unfold kind_bits; rewrite !elem_of_cons; tauto). clear -Hk.
  unfold kind_bits in Hk. rewrite !elem_of_cons, elem_of_nil in Hk.
  repeat (destruct Hk as [->|Hk]; [reflexivity|]). done.
Qed.
End kinds.

(* --------------------------------------------------------------------- *)
(** ** The name in the header *)

Section names.
Implicit Types (s x a b r : list Z).

Lemma has_nul_split s : has_nul s = true -> exists r, s = cstr s ++ 0 :: r.
Proof.
  induction s as [|c s IH]; [done|]. cbn. destruct (Z.eqb_spec c 0) as [->|Hc]; [by exists s|].
  cbn. intros [r Hr]%IH. exists r. cbn. by rewrite <- Hr.
Qed.

Lemma strchr_hash_total s : has_nul s = true ->
  exists k o, strchr_hash s = Some (k, o) /\ forall t, o = Some t -> s = k ++ HASH :: t.
Proof.
  induction s as [|c s IH]; [done|]. unfold has_nul. cbn. destruct (Z.eqb_spec c HASH) as [->|Hh].
  - intros _. exists [], (Some s). split; [done|]. intros t [= ->]. done.
  - destruct (Z.eqb_spec c 0) as [->|Hc]; cbn; [intros _; by exists [], None|].
    intros (k & o & -> & Ho)%IH. exists (c :: k), o. split; [done|]. intros t Ht. cbn. by rewrite <- (Ho t Ht).
Qed.

(** A field whose last byte is the nul. *)
Definition terminated x : Prop := exists y, x = y ++ [0].

Lemma terminated_nul y : has_nul (y ++ [0]) = true.
Proof. apply (has_nul_app y []). Qed.
Lemma terminated_tail k c t y : k ++ c :: t = y ++ [0] -> c <> 0 -> exists z, t = z ++ [0].
Proof.
  intros H Hc. destruct t as [|d t _] using rev_ind.
  - apply app_inj_tail in H as [_ ->]. done.
  - rewrite app_comm_cons, app_assoc in H. apply app_inj_tail in H as [_ ->]. by exists t.
Qed.

Lemma names_split n s r k t : legal_name n s -> strchr_hash r = Some (k, Some t) -> r = s ++ HASH :: t -> k = s.
Proof. intros Hs Hr ->. rewrite (strchr_hash_app n) in Hr by done. congruence. Qed.

(** The private and the process name that are found. *)
Definition names_in x a b : Prop :=
  legal_name MAX_PRIVATE_NAME a /\ legal_name (MAX_PROC_NAME - 1) b /\ cstr x = HASH :: a ++ HASH :: b.

Lemma names_found x :
  terminated x -> (1 < length x)%nat ->
  exists o, G_private_to_names x = inr o /\ forall a b, o = Some (a, b) <-> names_in x a b.
Proof.
  intros [y ->] Hlen. destruct y as [|c0 y]; [cbn in Hlen; lia|]. clear Hlen. cbn [app G_private_to_names].
  destruct (strchr_hash_total (y ++ [0])) as (k & o & Hs & Ho); [apply terminated_nul|]. rewrite Hs.
  assert (Hno : forall a b, names_in (c0 :: y ++ [0]) a b ->
    c0 = HASH /\ k = a /\ exists t, o = Some t /\ cstr t = b).
  { intros a b (Ha & Hb & Hc). destruct (has_nul_split (c0 :: y ++ [0])) as [r Hr]; [apply (terminated_nul (c0 :: y))|].
    rewrite Hc in Hr. injection Hr as -> Hr. rewrite <- app_assoc in Hr. cbn [app] in Hr.
    rewrite Hr, (strchr_hash_app MAX_PRIVATE_NAME) in Hs by done. injection Hs as <- <-.
    split; [done|]. split; [done|]. eexists. split; [done|]. apply cstr_app. by eapply legal_name_no_nul. }
  destruct o as [t|]; [|exists None; split; [done|]; intros a b; split; [done|]; intros (_ & _ & ? & [=] & _)%Hno].
  specialize (Ho t eq_refl). destruct (terminated_tail k HASH t y) as [z ->]; [congruence|done|].
  rewrite terminated_nul. cbn [negb]. set (b := cstr (z ++ [0])) in *.
  destruct (_ || _) eqn:Hsz.
  { exists None. split; [done|]. intros a b'. split; [done|]. intros Hin. exfalso. pose proof Hin as (Ha & Hb & _).
    apply Hno in Hin as (-> & <- & ? & [= <-] & <-). destruct Ha as [Ha _], Hb as [Hb _]. fold b in Hb.
    unfold MAX_PRIVATE_NAME, MAX_PROC_NAME in *.
    rewrite Z.eqb_refl, !(proj2 (Z.ltb_ge _ _)), (proj2 (Z.leb_gt _ _)) in Hsz by lia. done. }
  rewrite !orb_false_iff, negb_false_iff, Z.eqb_eq, !Z.ltb_ge, Z.leb_gt in Hsz. destruct Hsz as ((((-> & Hs1) & Hs2) & Hs3) & Hs4).
  destruct (forallb legal_char k && forallb legal_char b) eqn:Hch; cbn [negb].
  - apply andb_true_iff in Hch as [Hk Hb]. eexists. split; [done|]. intros a b'. split.
    + intros [= <- <-]. unfold names_in, legal_name. split; [split; [lia|done]|]. split; [split; [lia|done]|].
      cbn [cstr]. change (HASH =? 0) with false. cbn [cstr]. f_equal. rewrite Ho.
      destruct (has_nul_split (z ++ [0])) as [r Hr]; [apply terminated_nul|]. fold b in Hr. rewrite Hr.
      replace (k ++ HASH :: b ++ 0 :: r) with ((k ++ HASH :: b) ++ 0 :: r) by by rewrite <- app_assoc.
      apply cstr_app, Forall_app. split; [eapply legal_name_no_nul; split; [|exact Hk]; split; [lia|exact Hs1]|].
      constructor; [done|apply cstr_no_nul].
    + intros (_ & <- & ? & [= <-] & <-)%Hno. done.
  - exists None. split; [done|]. intros a b'. split; [done|]. intros Hin. pose proof Hin as ([_ Ha] & [_ Hb] & _).
    apply Hno in Hin as (_ & <- & ? & [= <-] & <-). fold b in Hb. by rewrite Ha, Hb in Hch.
Qed.

Lemma strncmp_all a b n : Z.of_nat (length a) <= n -> Z.of_nat (length b) <= n -> strncmp a b n = 0 <-> a = b.
Proof. intros Ha Hb. unfold strncmp. rewrite !take_ge by lia. apply strcmp_eq. Qed.
End names.

(* --------------------------------------------------------------------- *)
(** ** The check *)

(** The field with the nul in its last byte. *)
Definition closed_name (x : list Z) : list Z := aset x (MAX_GROUP_NAME - 1) 0.

(** What a header has to be. *)
Record acceptable (name proc_name : list Z) (h : message_header) : Prop := mkAcceptable {
  ac_kind : length (kinds (mh_type h)) = 1%nat;
  ac_name : cstr (closed_name (mh_private_group_name h)) = HASH :: name ++ HASH :: proc_name;
  ac_groups : 0 <= mh_num_groups h <= MAX_GROUPS_PER_MESSAGE;
  ac_hint : forall k, 0 <= k < 32 -> Z.testbit (mh_hint h) k = true -> k = 7 \/ k = 31 \/ 8 <= k < 24;
  ac_data : 0 <= mh_data_len h;
  ac_total : mh_data_len h + MAX_GROUP_NAME * mh_num_groups h <= MAX_MESSAGE_BODY_LEN - sizeof_message_header;
}.

Section check.
Implicit Types (h : message_header).

Lemma closed_terminated x : Z.of_nat (length x) = MAX_GROUP_NAME -> terminated (closed_name x) /\ length (closed_name x) = 32%nat.
Proof.
  change MAX_GROUP_NAME with 32. intros Hx. split; [|unfold closed_name; rewrite aset_length; lia].
  destruct (exists_last (l:=x) ltac:(by intros ->)) as (y & c & ->). rewrite length_app in Hx. cbn in Hx.
  exists y. unfold closed_name, aset. change (MAX_GROUP_NAME - 1 <? 0) with false. cbn iota.
  change (Z.to_nat (MAX_GROUP_NAME - 1)) with 31%nat. replace 31%nat with (length y + 0)%nat by lia. by rewrite insert_app_r.
Qed.

Lemma hint_bits z :
  truth (Z.land (u32 z) (u32 (Z.lnot (Z.lor 0x80000080 0x00ffff00)))) = false <->
  forall k, 0 <= k < 32 -> Z.testbit z k = true -> k = 7 \/ k = 31 \/ 8 <= k < 24.
Proof.
  rewrite truth_false. set (m := u32 (Z.lnot _)).
  assert (Hm : forall k, 0 <= k < 32 -> Z.testbit m k = false <-> (k = 7 \/ k = 31 \/ 8 <= k < 24)).
  { intros k Hk.
    assert (Hall : forallb (fun k => eqb (Z.testbit m k) (negb ((k =? 7) || (k =? 31) || ((8 <=? k) && (k <? 24))))) (seqZ 0 32) = true)
      by (vm_compute; reflexivity).
    rewrite forallb_forall in Hall. specialize (Hall k). rewrite <- list_elem_of_In, elem_of_seqZ, eqb_true_iff in Hall.
    rewrite Hall, negb_false_iff, !orb_true_iff, andb_true_iff, !Z.eqb_eq, Z.leb_le, Z.ltb_lt by lia. tauto. }
  split.
  - intros H k Hk Hz. apply Hm; [done|]. apply (f_equal (fun x => Z.testbit x k)) in H.
    rewrite Z.land_spec, Z.bits_0 in H. unfold u32 in H at 1. rewrite Z.mod_pow2_bits_low, Hz in H by lia. done.
  - intros H. apply Z.bits_inj'. intros k Hk. rewrite Z.land_spec, Z.bits_0.
    destruct (Z.lt_ge_cases k 32).
    + unfold u32. rewrite Z.mod_pow2_bits_low by lia. destruct (Z.testbit z k) eqn:Hz; [|done]. apply Hm; [lia|]. apply H; [lia|done].
    + unfold u32. by rewrite Z.mod_pow2_bits_high by lia.
Qed.

Lemma sizes_ok_spec h :
  sizes_ok sizeof_message_header h = true <->
  (0 <= mh_num_groups h <= MAX_GROUPS_PER_MESSAGE) /\
  (forall k, 0 <= k < 32 -> Z.testbit (mh_hint h) k = true -> k = 7 \/ k = 31 \/ 8 <= k < 24) /\
  0 <= mh_data_len h /\ mh_data_len h + MAX_GROUP_NAME * mh_num_groups h <= MAX_MESSAGE_BODY_LEN - sizeof_message_header.
Proof.
  unfold sizes_ok. rewrite !andb_true_iff, !negb_true_iff, !orb_false_iff, !Z.ltb_ge, hint_bits.
  change MAX_MESSAGE_BODY_LEN with 144000. change MAX_GROUP_NAME with 32. change sizeof_message_header with 48. split.
  - intros (((? & ?) & ?) & ?). split_and!; try done; lia.
  - intros (? & ? & ? & ?). split_and!; try done; lia.
Qed.

(** The header the check leaves: a wrong type is refused before the header is
    touched, after that the name has its nul. *)
Definition left_header h : message_header :=
  if decide (length (kinds (mh_type h)) = 1%nat) then set_mh_private_group_name (closed_name (mh_private_group_name h)) h else h.

Lemma left_header_type h : mh_type (left_header h) = mh_type h.
Proof. unfold left_header. by destruct (decide _). Qed.

(** The value of the check and the header it leaves. *)
Lemma validate_spec i h (s : sess_state) :
  Z.of_nat (length (mh_private_group_name h)) = MAX_GROUP_NAME ->
  legal_name MAX_PRIVATE_NAME (s_name (ses s i)) -> legal_name (MAX_PROC_NAME - 1) (sx_My_name s) ->
  exists k h', Sess_validate_read_header i sizeof_message_header h s = inr (k, h') /\ (k = 0 \/ k = -1) /\
    (k = 0 <-> acceptable (s_name (ses s i)) (sx_My_name s) h) /\
    h' = left_header h.
Proof.
  intros Hx Hn Hp. unfold Sess_validate_read_header.
  assert (Hno : forall h', ~ acceptable (s_name (ses s i)) (sx_My_name s) h -> h' = left_header h ->
    exists k h'', @inr err _ (-1, h') = inr (k, h'') /\ (k = 0 \/ k = -1) /\
      (k = 0 <-> acceptable (s_name (ses s i)) (sx_My_name s) h) /\ h'' = left_header h).
  { intros h' Hnot Hh. exists (-1), h'. split; [done|]. split; [by right|]. split; [|done]. by split. }
  destruct (type_ok (mh_type h)) eqn:Ht; cbn [negb].
  2:{ assert (Hl : length (kinds (mh_type h)) <> 1%nat) by (intros Hk%type_ok_kinds; congruence).
      apply (Hno h); [intros Ha; by apply Hl, (ac_kind _ _ _ Ha)|]. unfold left_header. by rewrite decide_False. }
  assert (Hleft : left_header h = set_mh_private_group_name (closed_name (mh_private_group_name h)) h)
    by (unfold left_header; rewrite decide_True by (by apply type_ok_kinds); done).
  destruct (closed_terminated _ Hx) as [Hct Hcl]. cbn [mh_private_group_name set_mh_private_group_name].
  change (aset (mh_private_group_name h) (MAX_GROUP_NAME - 1) 0) with (closed_name (mh_private_group_name h)).
  destruct (names_found (closed_name (mh_private_group_name h)) Hct) as (o & Ho & Hin); [lia|]. rewrite Ho. cbn [rbind].
  set (h' := set_mh_private_group_name _ h).
  assert (Hacc : acceptable (s_name (ses s i)) (sx_My_name s) h -> o = Some (s_name (ses s i), sx_My_name s)).
  { intros Ha. apply Hin. split; [done|]. split; [done|]. apply Ha. }
  destruct o as [[a b]|]; [|apply (Hno h'); [|done]; intros Ha%Hacc; done].
  destruct (proj1 (Hin a b) eq_refl) as ((Ha & _) & (Hb & _) & Hc). pose proof Hn as [Hn1 _]. pose proof Hp as [Hp1 _].
  assert (Hb' : strncmp b (sx_My_name s) MAX_PROC_NAME = 0 <-> b = sx_My_name s) by (apply strncmp_all; lia).
  assert (Ha' : strncmp a (s_name (ses s i)) MAX_PRIVATE_NAME = 0 <-> a = s_name (ses s i)) by (apply strncmp_all; lia).
  destruct (Z.eqb_spec (strncmp b (sx_My_name s) MAX_PROC_NAME) 0) as [He%Hb'|He]; cbn [negb];
    [|apply (Hno h'); [|done]; intros [= -> ->]%Hacc; by apply He, Hb'].
  destruct (Z.eqb_spec (strncmp a (s_name (ses s i)) MAX_PRIVATE_NAME) 0) as [He'%Ha'|He']; cbn [negb];
    [|apply (Hno h'); [|done]; intros [= -> ->]%Hacc; by apply He', Ha'].
  change (sizes_ok sizeof_message_header h') with (sizes_ok sizeof_message_header h).
  destruct (sizes_ok sizeof_message_header h) eqn:Hsz.
  - exists 0, h'. split; [done|]. split; [by left|]. split; [|done]. split; [intros _|done].
    apply sizes_ok_spec in Hsz as (? & ? & ? & ?). constructor; try done; [by apply type_ok_kinds|]. by subst a b.
  - apply (Hno h'); [|done]. intros Hacc'. enough (sizes_ok sizeof_message_header h = true) by congruence.
    apply sizes_ok_spec. destruct Hacc'. done.
Qed.
End check.

(** C38: which headers are accepted.  For a session and a daemon with legal
    names, the check of a complete header never fails: it accepts the header
    exactly when one service or one of join, leave and kill is asked for, the
    name in it, cut at 31 characters, is the private group of the very session
    that sent it, the groups are at most 100, no reserved bit of the hint is
    set and the announced length, together with the header, is within the
    limit.  The header comes back as it was when the type is refused, and with
    nothing changed but the nul in the last byte of its name otherwise,
    accepted or not.  What is accepted becomes a message of the protocol with the
    service of its kind: a session is never killed later for an illegal
    type. *)
Theorem header_check (i : Z) (h : message_header) (s : sess_state) (msg : message_obj) :
  header_ok h -> legal_name MAX_PRIVATE_NAME (s_name (ses s i)) -> legal_name (MAX_PROC_NAME - 1) (sx_My_name s) ->
  exists k h', Sess_validate_read_header i sizeof_message_header h s = inr (k, h') /\
    (k = 0 <-> acceptable (s_name (ses s i)) (sx_My_name s) h) /\ (k <> 0 -> k = -1) /\
    (length (kinds (mh_type h)) <> 1%nat -> h' = h) /\
    (length (kinds (mh_type h)) = 1%nat ->
       h' = set_mh_private_group_name (<[31%nat := 0]> (mh_private_group_name h)) h) /\
    (k = 0 -> exists kind, kinds (mh_type h) = [kind] /\
       Prot_Create_Down_Link msg (Message_get_packet_type (mh_type h')) = Some (mkDownLink (kind_service kind) msg)).
Proof.
  intros (_ & Hx & _) Hn Hp. destruct (validate_spec i h s Hx Hn Hp) as (k & h' & Hv & Hk & Hacc & Hh).
  exists k, h'. split; [done|]. split; [done|]. split; [tauto|]. subst h'.
  split; [intros Hl; unfold left_header; by rewrite decide_False|].
  split; [intros Hl; unfold left_header; by rewrite decide_True|]. intros Hz. rewrite left_header_type.
  pose proof (ac_kind _ _ _ (proj1 Hacc Hz)) as Hl. destruct (kinds (mh_type h)) as [|kind [|]] eqn:Hkd; try done.
  exists kind. split; [done|]. rewrite (kinds_service _ kind) by done.
  unfold Prot_Create_Down_Link. case_match eqn:He; [|done]. apply Z.eqb_eq in He. unfold kind_service in He.
  by repeat case_match.
Qed.

(** A header of the session [ana] on [host1]. *)
Definition ana_header (type num_groups data_len : Z) : message_header :=
  mkMessageHeader (u32 (Set_endian type)) (strncpy (str_bytes "#ana#host1") 32) num_groups 0 data_len.
Definition ana_table : sess_state := upd 996 (set_s_name (str_bytes "ana")) (set_sx_My_name (str_bytes "host1") no_table).

Lemma header_check_witness :
  (exists k h', Sess_validate_read_header 996 sizeof_message_header (ana_header AGREED_MESS 1 10) ana_table = inr (k, h') /\
    (k = 0 <-> acceptable (str_bytes "ana") (str_bytes "host1") (ana_header AGREED_MESS 1 10))) /\
  kinds (mh_type (ana_header AGREED_MESS 1 10)) = [4] /\
  (let v h := match Sess_validate_read_header 996 sizeof_message_header h ana_table with inr (k, _) => k | inl _ => 1 end in
   (v (ana_header AGREED_MESS 1 10), v (ana_header (Z.lor AGREED_MESS SAFE_MESS) 1 10), v (ana_header JOIN_MESS 1 0),
    v (ana_header AGREED_MESS 101 10), v (ana_header AGREED_MESS 1 144000)) = (0, -1, 0, -1, -1)).
Proof.
  split; [|split; vm_compute; reflexivity].
  destruct (header_check 996 (ana_header AGREED_MESS 1 10) ana_table []) as (k & h' & Hv & Hk & _).
  - unfold header_ok. vm_compute. repeat split; discriminate || reflexivity.
  - vm_compute. repeat split; discriminate || reflexivity.
  - vm_compute. repeat split; discriminate || reflexivity.
  - exists k, h'. split; [exact Hv|exact Hk].
Defined.
