(* ===== verification/SessFanout.v ===== *)
(** * Who gets a message

    A message goes exactly once to every local client that is in one of its
    groups or named by its private group, and to nobody else. *)

From Stdlib Require Import ZArith Lia.
From stdpp Require Import base strings numbers option gmap list.
From S2P Require Import Prelude Wire Bytes Config Events EventsFd State Network FlowControl MembSets MembCore ProtSend.
From S2P Require Import Sample Retrans Requests Packing Deliver Delivery Sending EndToEnd Message Names GroupState SessState SessTable SessDir SessWrite SessStream SessServe SessDeliver SessRead SessHeader.

Section fanout.
Context (l : list Z).
Implicit Types (w : sess_world) (msg : message_obj) (i j : Z).

(** Serving one client leaves the others as they were. *)
Lemma other_serving w w' i j :
  i ∈ l -> j ∈ l -> j <> i -> table_ok (ss w) l -> served i w w' ->
  (serving j l w -> serving j l w') /\ stream j w' = stream j w /\ queued j w' = queued j w /\ mbox_of j w' = mbox_of j w.
Proof.
  intros Hi Hj Hne Ht (Ho & He & [Hq Hk] & _). pose proof Ho as (Hses & _ & _ & Hout). specialize (Hses j Hne).
  assert (Hm : mbox_of j w' = mbox_of j w) by (unfold mbox_of; by rewrite Hses).
  assert (Hmb : mbox_of j w <> mbox_of i w).
  { intros E. apply Hne. by eapply (key_unique s_mbox (ss w) l); [apply (tb_mboxes _ _ Ht)| | |]. }
  split; [|split; [|split; [by unfold queued; rewrite Hses|done]]].
  - intros [H1 H2 H3 H4 H5]. constructor; rewrite ?Hm, ?Hses; [by eapply writes_table|done|done|done|].
    unfold badgering in *. rewrite Hk; [done|]. intros [= E]. done.
  - unfold stream. by rewrite Hm, Hses, Hout.
Qed.

(** The clients [T] are open and below the limit. *)
Definition ready (T : list Z) w : Prop :=
  Forall (fun i => i ∈ l /\ serving i l w /\ queued i w < cf_MaxSessionMessages (cf (core w))) T.

Context `{Session}.

Lemma write_all_spec src T : forall msg (needed : Z) w,
  NoDup T -> ready T w -> sendable msg -> table_ok (ss w) l ->
  wp (write_all src T msg needed)
    (fun _ w' => table_ok (ss w') l /\ only_events w w' /\
       (forall i, i ∈ l -> (serving i l w -> serving i l w') /\ mbox_of i w' = mbox_of i w /\
          stream i w' = stream i w ++ if bool_decide (i ∈ T /\ i <> src) then mess_bytes msg else [])) never w.
Proof.
  induction T as [|t T IH]; intros msg needed w Hnd Hr Hmsg Ht; cbn [write_all].
  { apply wp_ret. split; [done|]. split; [done|]. intros i Hi. split; [done|]. split; [done|].
    rewrite bool_decide_false by (intros [[]%elem_of_nil _]). by rewrite app_nil_r. }
  apply NoDup_cons in Hnd as [HtT Hnd]. apply Forall_cons in Hr as [(Htl & Hts & Htq) Hr].
  apply wp_bind, wp_if; intros Hsrc.
  - apply Z.eqb_eq in Hsrc. subst t. apply wp_ret. eapply wp_mono; [by apply IH| |done].
    intros _ w' (H1 & H2 & H3). split; [done|]. split; [done|]. intros i Hi. destruct (H3 i Hi) as (H4 & H5 & H6).
    split; [done|]. split; [done|]. rewrite H6. erewrite (bool_decide_ext (i ∈ T /\ i <> src)); [done|]. rewrite elem_of_cons. intuition congruence.
  - apply Z.eqb_neq in Hsrc. eapply wp_mono; [apply (write_spec t l msg needed w Htl Hts Hmsg Htq)| |done].
    intros k w1 (_ & Hs1 & Hsv1 & _ & Hst1). pose proof (sv_table _ _ _ Hs1) as Ht1.
    assert (Hmax : cf (core w1) = cf (core w)) by (destruct Hsv1 as (_ & [He _] & _); by rewrite <- He).
    assert (Hoth : forall j, j ∈ l -> j <> t -> (serving j l w -> serving j l w1) /\ stream j w1 = stream j w /\ queued j w1 = queued j w /\ mbox_of j w1 = mbox_of j w).
    { intros j Hj Hne. by apply (other_serving w w1 t j). }
    eapply wp_mono; [apply IH; [done| |done|done]| |done].
    + apply Forall_forall. intros j Hj. eapply Forall_forall in Hr; [|exact Hj]. destruct Hr as (Hjl & Hjs & Hjq).
      destruct (Hoth j Hjl) as (H1 & _ & H2 & _); [by intros ->|]. rewrite H2, Hmax. auto.
    + intros _ w2 (H1 & H2 & H3). split; [done|]. split; [by etransitivity; [apply Hsv1|]|]. intros i Hi. destruct (H3 i Hi) as (H4 & H5 & H6).
      destruct (decide (i = t)) as [->|Hne].
      * split; [auto|]. split; [by rewrite H5; eapply served_mbox|]. rewrite H6, Hst1, bool_decide_false by tauto.
        rewrite bool_decide_true by (split; [by left|done]). by rewrite app_nil_r.
      * destruct (Hoth i Hi Hne) as (K1 & K2 & _ & K4). split; [auto|]. split; [congruence|]. rewrite H6, K2.
        erewrite (bool_decide_ext (i ∈ T /\ i <> src)); [done|]. rewrite elem_of_cons. intuition congruence.
Qed.
End fanout.

(** ** The targets *)

Section targets.
Context `{Groups}.
Implicit Types (w : sess_world) (m : Z) (targets : list (list Z)).

(** A mailbox one of the targets stands for. *)
Definition wanted w targets m : Prop :=
  exists t litbox, t ∈ targets /\ target_mboxes w t = inr (Some litbox) /\ m ∈ litbox.

(** The groups are up to date: no target ends in an alarm, and its mailboxes
    are distinct ones of open sessions. *)
Definition groups_ok w (l : list Z) targets : Prop :=
  Forall (fun t => exists r, target_mboxes w t = inr r /\
    match r with Some litbox => NoDup litbox /\ litbox ⊆ mboxes (ss w) l | None => True end) targets.

Lemma add_mboxes_spec ms litbox : NoDup ms -> NoDup litbox ->
  NoDup (add_mboxes ms litbox) /\ forall m, m ∈ add_mboxes ms litbox <-> m ∈ ms \/ m ∈ litbox.
Proof.
  intros Hms Hl. destruct ms as [|m0 ms]; [by split; [|intros m; rewrite elem_of_nil; tauto]|]. cbn [add_mboxes]. set (ms' := m0 :: ms) in *.
  split.
  - apply NoDup_app. split; [done|]. split; [by intros m Hm [? _]%list_elem_of_filter|by apply NoDup_filter].
  - intros m. rewrite elem_of_app, list_elem_of_filter. destruct (decide (m ∈ ms')); tauto.
Qed.

Lemma collect_spec w l targets : forall ms,
  groups_ok w l targets -> NoDup ms ->
  exists ms', collect_mboxes w targets ms = inr ms' /\ NoDup ms' /\ forall m, m ∈ ms' <-> m ∈ ms \/ wanted w targets m.
Proof.
  induction targets as [|t targets IH]; intros ms Hg Hms; cbn [collect_mboxes].
  { exists ms. split; [done|]. split; [done|]. intros m. split; [by left|]. intros [?|(t & ? & []%elem_of_nil & _)]. done. }
  apply Forall_cons in Hg as [(r & Hr & Hl) Hg]. rewrite Hr. cbn [rbind].
  assert (Hw : forall m, wanted w (t :: targets) m <-> (exists litbox, r = Some litbox /\ m ∈ litbox) \/ wanted w targets m).
  { intros m. split.
    - intros (t' & litbox & [->|Ht']%elem_of_cons & Hlb & Hm); [left|right; by exists t', litbox].
      exists litbox. split; [congruence|done].
    - intros [(litbox & -> & Hm)|(t' & litbox & Ht' & Hlb & Hm)]; [exists t, litbox|exists t', litbox]; (split; [|done]); [by left|by right]. }
  destruct r as [litbox|].
  - destruct Hl as [Hnd _]. destruct (add_mboxes_spec ms litbox Hms Hnd) as [Hnd' Hin].
    destruct (IH _ Hg Hnd') as (ms' & Hc & Hn' & Hm). exists ms'. split; [done|]. split; [done|].
    intros m. rewrite Hm, Hin, Hw. naive_solver.
  - destruct (IH _ Hg Hms) as (ms' & Hc & Hn' & Hm). exists ms'. split; [done|]. split; [done|].
    intros m. rewrite Hm, Hw. naive_solver.
Qed.

(** The sessions of distinct mailboxes of the table. *)
Lemma sessions_spec s l ms :
  table_ok s l -> NoDup ms -> ms ⊆ mboxes s l ->
  exists T, mboxes_to_sessions s ms = inr T /\ NoDup T /\ forall i, i ∈ T <-> i ∈ l /\ s_mbox (ses s i) ∈ ms.
Proof.
  intros Ht. induction ms as [|m ms IH]; intros Hnd Hsub; cbn [mboxes_to_sessions].
  { exists []. split; [done|]. split; [constructor|]. intros i. split; [by intros []%elem_of_nil|by intros [_ []%elem_of_nil]]. }
  apply NoDup_cons in Hnd as [Hm Hnd]. assert (Hmin : m ∈ mboxes s l) by (apply Hsub; by left).
  apply list_elem_of_fmap in Hmin as (i0 & -> & Hi0). rewrite (index_known s l i0) by done. cbn [rbind].
  destruct IH as (T & -> & HT & Hin); [done|by intros x Hx; apply Hsub; right|]. cbn [rbind]. exists (i0 :: T).
  split; [done|]. split.
  - constructor; [|done]. by intros [_ Hi]%Hin.
  - intros i. rewrite !elem_of_cons, Hin. split; [|intros [Hi [He|?]]; [left|by right]].
    + intros [->|[? ?]]; [by split; [|left]|by split; [|right]].
    + by eapply (key_unique s_mbox s l); [apply (tb_mboxes _ _ Ht)| | |].
Qed.

Lemma analize_spec w l targets :
  table_ok (ss w) l -> groups_ok w l targets ->
  exists T, G_analize_groups targets w = inr T /\ NoDup T /\
    forall i, i ∈ T <-> i ∈ l /\ wanted w targets (s_mbox (ses (ss w) i)).
Proof.
  intros Ht Hg. unfold G_analize_groups.
  assert (Hms : exists ms, match targets with
     | [t] => let? litbox := target_mboxes w t in inr (default [] litbox)
     | _ => collect_mboxes w targets [] end = inr ms /\ NoDup ms /\ forall m, m ∈ ms <-> wanted w targets m).
  { destruct (collect_spec w l targets [] Hg) as (ms & Hc & Hn & Hin); [constructor|].
    assert (Hin' : forall m, m ∈ ms <-> wanted w targets m) by (intros m; rewrite Hin, elem_of_nil; tauto).
    destruct targets as [|t [|t2 targets]]; [by exists ms| |by exists ms]. exists ms. split; [|done].
    cbn [collect_mboxes] in Hc. destruct (target_mboxes w t) as [|[litbox|]]; done. }
  destruct Hms as (ms & -> & Hnd & Hin). cbn [rbind].
  destruct (sessions_spec (ss w) l ms Ht Hnd) as (T & HT & HnT & HinT).
  - intros m Hm. apply Hin in Hm as (t & litbox & Htt & Hlb & Hm). eapply Forall_forall in Hg; [|exact Htt].
    destruct Hg as (r & Hr & Hl). rewrite Hlb in Hr. injection Hr as <-. by apply Hl.
  - exists T. split; [done|]. split; [done|]. intros i. by rewrite HinT, Hin.
Qed.
End targets.

(* --------------------------------------------------------------------- *)
(** ** A regular message *)

(** The header as it is delivered: marked with the byte order of the daemon. *)
Definition stamped (msg : message_obj) : message_obj :=
  with_message_header (fun h => set_mh_type (Set_endian (mh_type h)) h) msg.
Definition counted (w : sess_world) : sess_world :=
  mkSessWorld (set_Message_delivered (Message_delivered (ss w) + 1) (ss w)) (core w) (gs w).
(** A message for clients, in the byte order of the daemon. *)
Definition for_clients (msg : message_obj) : Prop :=
  let t := mh_type (Message_get_message_header msg) in
  Same_endian t = true /\ is_mess JOIN_MESS t = false /\ is_mess LEAVE_MESS t = false /\ is_mess KILL_MESS t = false /\
  is_mess GROUPS_MESS t = false /\ is_mess REJECT_MESS (mh_type (Message_get_message_header (stamped msg))) = false.
(** *** Whom a message is for *)

(** The names of the groups of a message: the 32 bytes each that follow its
    header. *)
Definition targets_of (msg : message_obj) : list (list Z) :=
  (fun k => get_bytes (mess_bytes msg) (sizeof_message_header + MAX_GROUP_NAME * k) MAX_GROUP_NAME)
    <$> seqZ 0 (mh_num_groups (Message_get_message_header msg)).

Definition hashed (t : list Z) : Prop := exists u, t = HASH :: u.
(** The private group of a session of this daemon. *)
Definition private_name (w : sess_world) (i : Z) : list Z := HASH :: s_name (ses (ss w) i) ++ HASH :: sx_My_name (ss w).
(** The session [i] is meant by the name [t]: it is its private group, or the
    client is a member of the group. *)
Definition meant `{Groups} (w : sess_world) (i : Z) (t : list Z) : Prop :=
  (hashed t /\ cstr t = private_name w i) \/
  (~ hashed t /\ exists mboxes, G_mboxes w t = Some mboxes /\ s_mbox (ses (ss w) i) ∈ mboxes).
Definition addressed `{Groups} (w : sess_world) (msg : message_obj) (i : Z) : Prop :=
  exists t, t ∈ targets_of msg /\ meant w i t.

(** A name that is read well: a private group has its nul, and the members of
    a group are open sessions while the groups are settled. *)
Definition target_ok `{Groups} (w : sess_world) (l : list Z) (t : list Z) : Prop :=
  (hashed t -> terminated t) /\
  (~ hashed t -> forall mboxes', G_mboxes w t = Some mboxes' -> G_is_ready w = true /\ NoDup mboxes' /\ mboxes' ⊆ mboxes (ss w) l).

(** The names in the table are legal. *)
Definition legal_names (w : sess_world) (l : list Z) : Prop :=
  legal_name (MAX_PROC_NAME - 1) (sx_My_name (ss w)) /\ Forall (fun i => legal_name MAX_PRIVATE_NAME (s_name (ses (ss w) i))) l.

(** The sender does not want its own message back, and [i] is the sender. *)
Definition own_message (w : sess_world) (msg : message_obj) (i : Z) : Prop :=
  let h := Message_get_message_header msg in
  is_mess SELF_DISCARD (mh_type h) = true /\ cstr (mh_private_group_name h) = private_name w i.
(** The sender's name in the message, a private group of some daemon. *)
Definition sender_ok (msg : message_obj) : Prop :=
  let x := mh_private_group_name (Message_get_message_header msg) in
  terminated x /\ exists name proc_name, names_in x name proc_name.

Section meaning.
Context `{Groups}.
Implicit Types (w : sess_world) (msg : message_obj).

Lemma get_bytes_of_next b o o' n : 0 <= o -> 0 <= o' -> get_bytes (drop (Z.to_nat o) b) o' n = get_bytes b (o + o') n.
Proof. intros Ho Ho'. unfold get_bytes. by rewrite drop_drop, Z2Nat.inj_add. Qed.

Lemma group_names_seq b n : group_names b n = (fun k => get_bytes b (MAX_GROUP_NAME * k) MAX_GROUP_NAME) <$> seqZ 0 (Z.of_nat n).
Proof.
  revert b. induction n as [|n IH]; intros b; [done|]. cbn [group_names]. rewrite IH, seqZ_succ. cbn [fmap list_fmap].
  rewrite Z.mul_0_r. f_equal. change (0 + 1) with (1 + 0). rewrite <- (fmap_add_seqZ 1 0 (Z.of_nat n)), <- list_fmap_compose.
  apply list_fmap_ext. intros i k [-> _]%lookup_seqZ. cbn -[Z.mul Z.of_nat].
  change MAX_GROUP_NAME with 32. rewrite get_bytes_of_next by lia. f_equal. lia.
Qed.

(** The names the code reads, as long as they fit the first element. *)
Lemma read_targets e m :
  let msg := e :: m in
  let h := Message_get_message_header msg in
  Forall elem_ok msg -> is_mess REJECT_MESS (mh_type h) = false -> 0 <= mh_num_groups h <= MAX_GROUPS_PER_MESSAGE ->
  sizeof_message_header + MAX_GROUP_NAME * mh_num_groups h <= se_len e ->
  exists b, Message_get_groups_array msg = inr b /\ group_names b (Z.to_nat (mh_num_groups h)) = targets_of msg.
Proof.
  intros msg h Hok Hr Hn Hfit. rewrite Z.mul_comm in Hfit.
  assert (Hle : se_len e <= mess_len msg).
  { unfold msg. rewrite mess_len_cons. apply Forall_cons in Hok as [_ Hok]. clear -Hok. induction Hok as [|x l [Hx _] _ IH]; [cbn; lia|]. rewrite mess_len_cons. lia. }
  destruct (groups_array_names e m Hok Hr Hn) as (b & Hb & Hnames); [fold msg h; lia|]. exists b. split; [exact Hb|].
  fold msg h in Hnames. rewrite (proj2 (Z.leb_le _ _) Hfit) in Hnames. rewrite Hnames, group_names_seq, Z2Nat.id by lia.
  unfold targets_of. fold h. apply list_fmap_ext. intros i k [-> _]%lookup_seqZ. apply get_bytes_of_next; [done|]. change MAX_GROUP_NAME with 32. lia.
Qed.

Lemma hashed_byte t : (get_byte t 0 =? HASH) = true <-> hashed t.
Proof.
  split; [|by intros [u ->]]. destruct t as [|c u]; [done|]. intros E%Z.eqb_eq. exists u. f_equal. exact E.
Qed.

Lemma session_meant w l i j name :
  table_ok (ss w) l -> i ∈ l -> j ∈ l -> s_name (ses (ss w) j) = name ->
  s_mbox (ses (ss w) i) ∈ [s_mbox (ses (ss w) j)] <-> s_name (ses (ss w) i) = name.
Proof.
  intros Ht Hi Hj <-. rewrite list_elem_of_singleton. split; intros He.
  - f_equal. f_equal. eapply (key_unique s_mbox (ss w) l); [apply (tb_mboxes _ _ Ht)|done..].
  - f_equal. f_equal. eapply (key_unique s_name (ss w) l); [apply sorted_NoDup, (tb_sorted _ _ Ht)|done..].
Qed.

(** What the code makes of a name. *)
Lemma target_spec w l t :
  table_ok (ss w) l -> target_ok w l t -> legal_names w l -> length t = 32%nat ->
  exists r, target_mboxes w t = inr r /\
    match r with Some litbox => NoDup litbox /\ litbox ⊆ mboxes (ss w) l | None => True end /\
    forall i, i ∈ l -> (exists litbox, r = Some litbox /\ s_mbox (ses (ss w) i) ∈ litbox) <-> meant w i t.
Proof.
  intros Ht [Hterm Hgr] [Hmy Hnames] Hlen. unfold target_mboxes, meant. destruct (get_byte t 0 =? HASH) eqn:Hh; cbn [negb].
  - apply hashed_byte in Hh. destruct (names_found t (Hterm Hh)) as (o & -> & Ho); [lia|]. cbn [rbind].
    assert (Hmine : forall i, i ∈ l -> (hashed t /\ cstr t = private_name w i \/ ~ hashed t /\ (exists mboxes', G_mboxes w t = Some mboxes' /\ s_mbox (ses (ss w) i) ∈ mboxes')) <->
      o = Some (s_name (ses (ss w) i), sx_My_name (ss w))).
    { intros i Hi. rewrite Ho. unfold names_in, private_name. rewrite Forall_forall in Hnames. specialize (Hnames i Hi). tauto. }
    assert (Hnone : (forall i, i ∈ l -> o <> Some (s_name (ses (ss w) i), sx_My_name (ss w))) ->
      exists r, @inr err (option (list Z)) None = inr r /\ match r with Some litbox => NoDup litbox /\ litbox ⊆ mboxes (ss w) l | None => True end /\
        forall i, i ∈ l -> (exists litbox, r = Some litbox /\ s_mbox (ses (ss w) i) ∈ litbox) <->
          (hashed t /\ cstr t = private_name w i \/ ~ hashed t /\ (exists mboxes', G_mboxes w t = Some mboxes' /\ s_mbox (ses (ss w) i) ∈ mboxes'))).
    { intros Hno. exists None. split; [done|]. split; [done|]. intros i Hi. rewrite Hmine by done. split; [by intros (? & ? & _)|]. intros E. by destruct (Hno i Hi). }
    destruct o as [[a b]|]; [|by apply Hnone].
    destruct (Z.eqb_spec (strcmp (sx_My_name (ss w)) b) 0) as [He|Hne]; cbn [negb].
    2: { apply Hnone. intros i Hi [= _ Hb]. by apply Hne, strcmp_eq. }
    apply strcmp_eq in He as <-. destruct (lookup_name (ss w) l a Ht) as [(j & Hj & Hjn & ->)|[Hno ->]]; cbn [rbind].
    + destruct (table_range _ _ _ Ht Hj) as [Hj0 _]. rewrite (proj2 (Z.ltb_ge j 0)) by lia.
      eexists. split; [done|]. split; [split; [apply NoDup_singleton|intros m ->%list_elem_of_singleton; by apply in_mboxes]|].
      intros i Hi. rewrite Hmine by done. pose proof (session_meant w l i j a Ht Hi Hj Hjn) as Hm. split.
      * intros (? & [= <-] & Hin). by rewrite (proj1 Hm Hin).
      * intros [= He]. eexists. split; [done|]. by apply Hm.
    + change (-1 <? 0) with true. apply Hnone. intros i Hi [= Ha]. apply Hno. rewrite Ha. by apply in_names.
  - assert (Hnh : ~ hashed t) by (intros Hx%hashed_byte; congruence).
    assert (Hm : forall i, (hashed t /\ cstr t = private_name w i \/ ~ hashed t /\ (exists mboxes', G_mboxes w t = Some mboxes' /\ s_mbox (ses (ss w) i) ∈ mboxes')) <->
      exists mboxes', G_mboxes w t = Some mboxes' /\ s_mbox (ses (ss w) i) ∈ mboxes') by (intros i; tauto).
    destruct (G_mboxes w t) as [mb|].
    + destruct (Hgr Hnh mb eq_refl) as (-> & Hnd & Hsub). exists (Some mb). split; [done|]. split; [done|]. intros i Hi. by rewrite Hm.
    + exists None. split; [done|]. split; [done|]. intros i Hi. by rewrite Hm.
Qed.

(** All the names. *)
Lemma targets_ok w l targets :
  table_ok (ss w) l -> legal_names w l -> Forall (fun t => length t = 32%nat /\ target_ok w l t) targets ->
  groups_ok w l targets /\
  forall i, i ∈ l -> wanted w targets (s_mbox (ses (ss w) i)) <-> exists t, t ∈ targets /\ meant w i t.
Proof.
  intros Ht Hn Hall. rewrite Forall_forall in Hall. split.
  - apply Forall_forall. intros t Hin. destruct (Hall t Hin) as [Hl Ho]. destruct (target_spec w l t Ht Ho Hn Hl) as (r & ? & ? & _). by exists r.
  - intros i Hi. split.
    + intros (t & litbox & Hin & Hr & Hm). destruct (Hall t Hin) as [Hl Ho]. destruct (target_spec w l t Ht Ho Hn Hl) as (r & Hr' & _ & Hmeant).
      exists t. split; [done|]. apply Hmeant; [done|]. exists litbox. split; [congruence|done].
    + intros (t & Hin & Hm). destruct (Hall t Hin) as [Hl Ho]. destruct (target_spec w l t Ht Ho Hn Hl) as (r & Hr & _ & Hmeant).
      apply Hmeant in Hm as (litbox & -> & Hm); [|done]. by exists t, litbox.
Qed.
End meaning.

Section delivery.
Context `{Groups} `{Session}.
Implicit Types (w : sess_world) (msg : message_obj) (T : list Z).

(** The source session is the one whose own message it is. *)
Lemma source_spec w l msg T :
  table_ok (ss w) l -> legal_names w l -> Z.of_nat (length (mh_private_group_name (Message_get_message_header msg))) = MAX_GROUP_NAME ->
  (is_mess SELF_DISCARD (mh_type (Message_get_message_header msg)) = true -> sender_ok msg) ->
  exists src, source_session msg T w = Done src w /\ (T <> [] -> forall i, i ∈ l -> own_message w msg i <-> i = src).
Proof.
  intros Ht [Hmy Hnames] Hlen Hn. unfold source_session, own_message. set (h := Message_get_message_header msg) in *.
  rewrite Forall_forall in Hnames.
  destruct (is_mess SELF_DISCARD (mh_type h)) eqn:Hd.
  2: { rewrite andb_false_r. exists (-1). split; [done|]. intros _ i Hi. split; [by intros [? _]|].
       intros ->. destruct (table_range _ _ _ Ht Hi). lia. }
  destruct Hn as (Hterm & name & proc_name & Hin); [done|]. fold h in Hterm, Hin.
  destruct (names_found _ Hterm) as (o & Hp & Ho); [change MAX_GROUP_NAME with 32 in Hlen; lia|].
  pose proof (proj2 (Ho name proc_name) Hin) as ->. rewrite andb_true_r.
  assert (Hown : forall i, i ∈ l -> cstr (mh_private_group_name h) = private_name w i <-> name = s_name (ses (ss w) i) /\ proc_name = sx_My_name (ss w)).
  { intros i Hi. transitivity (Some (name, proc_name) = Some (s_name (ses (ss w) i), sx_My_name (ss w))).
    - rewrite Ho. unfold names_in, private_name. specialize (Hnames i Hi). tauto.
    - split; [by intros [= -> ->]|by intros [-> ->]]. }
  destruct T as [|t T]; [by exists (-1)|]. cbn [length]. rewrite (proj2 (Z.ltb_lt 0 _)) by lia.
  unfold sender_names, bind, lift. fold h. rewrite Hp. cbn. unfold get.
  destruct (Z.eqb_spec (strcmp (sx_My_name (ss w)) proc_name) 0) as [He|Hne].
  - apply strcmp_eq in He as <-. destruct (lookup_name (ss w) l name Ht) as [(j & Hj & Hjn & Hs)|[Hno Hs]]; rewrite Hs.
    + exists j. split; [done|]. intros _ i Hi. split; [|by intros ->; split; [|apply Hown]].
      intros (_ & Hc). apply Hown in Hc as [Hc _]; [|done]. eapply (key_unique s_name (ss w) l); [|done|done|congruence].
      apply sorted_NoDup, (tb_sorted _ _ Ht).
    + exists (-1). split; [done|]. intros _ i Hi. split; [|intros ->; destruct (table_range _ _ _ Ht Hi); lia].
      intros (_ & Hc). apply Hown in Hc as [Hc _]; [|done]. destruct Hno. rewrite Hc. by apply in_names.
  - exists (-1). split; [done|]. intros _ i Hi. split; [|intros ->; destruct (table_range _ _ _ Ht Hi); lia].
    intros (_ & Hc). apply Hown in Hc as [_ Hc]; [|done]. destruct Hne. rewrite Hc. apply strcmp_refl.
Qed.

Lemma sender_length msg : sendable msg -> Z.of_nat (length (mh_private_group_name (Message_get_message_header msg))) = MAX_GROUP_NAME.
Proof. intros (e & m & -> & _). rewrite header_cons. unfold get_header. cbn [mh_private_group_name]. by rewrite get_bytes_length. Qed.

Lemma counted_mboxes w (l : list Z) : mboxes (ss (counted w)) l = mboxes (ss w) l.
Proof. done. Qed.
Lemma counted_table l w : table_ok (ss w) l -> table_ok (ss (counted w)) l.
Proof. by apply table_same. Qed.
Lemma counted_serving i l w : serving i l w -> serving i l (counted w).
Proof. intros [H1 H2 H3 H4 H5]. constructor; try done. exact (counted_table l w H1). Qed.

End delivery.

(** The client [ana] is the only local member of the group [chat]. *)
Definition chat : list Z := resize 32 0 (str_bytes "chat").
#[export] Instance chat_groups : Groups := {|
  G_mboxes _ name := if decide (name = chat) then Some [7] else None;
  G_is_ready _ := true;
  G_handle_join p g := Sess_call (Call_G_handle_join p g);
  G_handle_leave p g := Sess_call (Call_G_handle_leave p g);
  G_handle_kill p := Sess_call (Call_G_handle_kill p);
  G_handle_groups m := Sess_call (Call_G_handle_groups m)
|}.
(** A message from [bob] to the group and to [ana] herself. *)
Definition chat_message : message_obj :=
  [mkElem (enc_header (mkMessageHeader (u32 (Set_endian AGREED_MESS)) (strncpy (str_bytes "#bob#host2") 32) 2 0 3)
           ++ chat ++ strncpy (str_bytes "#ana#host1") 32 ++ [65; 66; 67]) 115].

