(* ===== verification/SessParse.v ===== *)
(** * What is read from a client ([Sess_read])

    The bytes a client sends are cut into messages by their headers alone: in
    whatever pieces [recv] gives them, the messages that are put together are
    those of a parser that sees all the bytes at once. *)

From Stdlib Require Import ZArith Lia.
From stdpp Require Import base strings numbers option gmap list.
From S2P Require Import Prelude Wire Bytes Config Events EventsFd State Network FlowControl MembSets MembCore ProtSend.
From S2P Require Import Sample Retrans Requests Packing Deliver Delivery Sending EndToEnd Message Names GroupState SessState SessTable SessDir SessWrite SessStream SessServe SessDeliver SessRead SessHeader.

(** ** The parser *)

(** The bytes a header announces. *)
Definition body_len (h : message_header) : Z := mh_data_len h + MAX_GROUP_NAME * mh_num_groups h.

Inductive parsed : Type :=
| Incomplete
| Invalid
| Complete (message rest : list Z).

(** The first message of [bs]: its header in the form of the daemon, and the
    bytes it announces. *)
Definition parse_one (i : Z) (s : sess_state) (bs : list Z) : parsed :=
  if Z.of_nat (length bs) <? sizeof_message_header then Incomplete
  else
    match Sess_validate_read_header i sizeof_message_header (header_in (get_header bs)) s with
    | inl _ => Invalid
    | inr (k, h) =>
        if k <? 0 then Invalid
        else if Z.of_nat (length bs) <? sizeof_message_header + body_len h then Incomplete
        else Complete (enc_header h ++ get_bytes bs sizeof_message_header (body_len h))
               (drop (Z.to_nat (sizeof_message_header + body_len h)) bs)
    end.

(** The messages of [bs], and what is left of it: [None] after an invalid
    header.  Every message has a header, so [length bs] is enough fuel. *)
Fixpoint parse_from (fuel : nat) (i : Z) (s : sess_state) (bs : list Z) : list (list Z) * option (list Z) :=
  match parse_one i s bs, fuel with
  | Incomplete, _ => ([], Some bs)
  | Invalid, _ => ([], None)
  | Complete m rest, S fuel => let '(l, o) := parse_from fuel i s rest in (m :: l, o)
  | Complete m rest, O => ([], Some bs)
  end.
Definition parse_all (i : Z) (s : sess_state) (bs : list Z) : list (list Z) * option (list Z) :=
  parse_from (length bs) i s bs.

(** [n] calls for the mailbox, until one fails: the messages, and whether the
    session is to be killed. *)
Fixpoint reads (n : nat) (i mbox : Z) : MS (list message_obj * bool) :=
  match n with
  | O => ret ([], false)
  | S n =>
      let* ' (res, msg) := read_message i mbox in
      match res with
      | Got => let* ' (l, broken) := reads n i mbox in ret (msg :: l, broken)
      | Waiting => reads n i mbox
      | Broken => ret ([], true)
      end
  end.

(* --------------------------------------------------------------------- *)
(** ** The bytes of the elements *)

(** The byte [j] of a message whose elements are full. *)
Definition byte_at (msg : message_obj) (j : Z) : Z :=
  get_byte (se_buf (element msg (j / sizeof_packet_body))) (j mod sizeof_packet_body).
(** The first bytes of the message are [bs]. *)
Definition filled (msg : message_obj) (bs : list Z) : Prop :=
  forall j, 0 <= j < Z.of_nat (length bs) -> byte_at msg j = get_byte bs j.

Section bytes.
Implicit Types (msg m : message_obj) (bs xs : list Z).

Lemma elem_size : sizeof_packet_body = 1432. Proof. done. Qed.

Lemma div_at e b : 0 <= b < 1432 -> (1432 * e + b) / 1432 = e /\ (1432 * e + b) mod 1432 = b.
Proof.
  intros Hb. replace (1432 * e + b) with (b + e * 1432) by lia.
  rewrite Z.div_add, Z.mod_add, Z.div_small, Z.mod_small by lia. lia.
Qed.
Lemma elem_byte j : j = 1432 * (j / 1432) + j mod 1432 /\ 0 <= j mod 1432 < 1432.
Proof. split; [apply Z.div_mod; lia|apply Z.mod_pos_bound; lia]. Qed.

Lemma element_store (e b : Z) xs msg j : 0 <= e < Z.of_nat (length msg) ->
  se_buf (element (store e b xs msg) j) =
    if decide (j = e) then put_bytes (se_buf (element msg e)) b xs else se_buf (element msg j).
Proof.
  intros He. unfold element at 1, store. case_decide as Hj.
  - subst j. by rewrite aget_aset_eq.
  - by rewrite aget_aset_ne by congruence.
Qed.

Lemma filled_store (e b : Z) xs msg bs :
  0 <= e < Z.of_nat (length msg) -> 0 <= b -> b + Z.of_nat (length xs) <= sizeof_packet_body ->
  Z.of_nat (length bs) = sizeof_packet_body * e + b -> filled msg bs -> filled (store e b xs msg) (bs ++ xs).
Proof.
  rewrite elem_size. intros He Hb Hx Hbs Hf j Hj. unfold byte_at. rewrite elem_size. rewrite element_store by done.
  destruct (elem_byte j) as [Hd Hm]. destruct (decide (j < Z.of_nat (length bs))) as [Hlt|Hge].
  - rewrite get_byte_app_l by done. rewrite <- Hf by lia. unfold byte_at. rewrite elem_size.
    destruct (decide (j / 1432 = e)) as [<-|Hne]; [|done]. apply get_byte_put_out; lia.
  - rewrite length_app, Nat2Z.inj_add in Hj.
    destruct (div_at e (b + (j - Z.of_nat (length bs)))) as [H1 H2]; [lia|].
    replace (1432 * e + (b + (j - Z.of_nat (length bs)))) with j in * by lia.
    rewrite H1, H2, decide_True by done. rewrite get_byte_put_in by lia. rewrite get_byte_app_r by lia. done.
Qed.

Lemma store_length (e b : Z) xs msg : length (store e b xs msg) = length msg.
Proof. apply aset_length. Qed.
Lemma store_lens (e b : Z) xs msg : se_len <$> store e b xs msg = se_len <$> msg.
Proof.
  unfold store, aset, element, aget. destruct (Z.ltb_spec e 0); [done|]. rewrite list_fmap_insert. cbn [se_len].
  destruct (decide (Z.to_nat e < length msg)%nat) as [Hlt|Hge].
  - apply list_insert_id. rewrite list_lookup_fmap. by destruct (lookup_lt_is_Some_2 _ _ Hlt) as [x ->].
  - apply list_insert_ge. rewrite length_fmap. lia.
Qed.

Lemma element_app_l msg m j : 0 <= j < Z.of_nat (length msg) -> element (msg ++ m) j = element msg j.
Proof. intros Hj. unfold element, aget. destruct (Z.ltb_spec j 0); [lia|]. by rewrite lookup_app_l by lia. Qed.

Lemma element_buf (l : list scat_elem) j : se_buf (element l j) = aget [] (se_buf <$> l) j.
Proof.
  unfold element, aget. destruct (j <? 0); [done|]. rewrite list_lookup_fmap.
  change (@lookup nat scat_elem scatter _) with (@lookup nat scat_elem (list scat_elem) _). by destruct (l !! Z.to_nat j).
Qed.

Lemma filled_app msg m bs :
  Z.of_nat (length bs) <= sizeof_packet_body * Z.of_nat (length msg) -> filled msg bs -> filled (msg ++ m) bs.
Proof.
  rewrite elem_size. intros Hl Hf j Hj. rewrite <- Hf by done. unfold byte_at. rewrite elem_size.
  destruct (elem_byte j) as [Hd Hm]. by rewrite element_app_l by lia.
Qed.

(** The bytes of a message in full elements, all but the last. *)
Lemma mess_byte msg : forall j, Forall elem_ok msg -> chunked msg -> 0 <= j < mess_len msg ->
  get_byte (mess_bytes msg) j = byte_at msg j.
Proof.
  induction msg as [|e m IH]; intros j Hok Hch Hj; [cbn in Hj; lia|]. apply Forall_cons in Hok as [[He1 He2] Hok].
  rewrite mess_len_cons in Hj. rewrite mess_bytes_cons. unfold byte_at. rewrite elem_size in *. destruct (elem_byte j) as [Hd Hm].
  destruct (decide (j < se_len e)) as [Hlt|Hge].
  - rewrite get_byte_app_l by (rewrite elem_bytes_length; lia). unfold elem_bytes. assert (j / 1432 = 0) as Hz by lia.
    rewrite Hz in *. change (element (e :: m) 0) with e. replace (j mod 1432) with j by lia.
    unfold get_bytes. rewrite <- (get_byte_resize (se_buf e) (se_len e)) by lia. done.
  - assert (Hfull : se_len e = 1432).
    { destruct m as [|e' m]; [cbn in Hj; lia|]. unfold chunked in Hch. cbn [length] in Hch. rewrite Nat.sub_succ, Nat.sub_0_r in Hch.
      cbn [take] in Hch. apply Forall_cons in Hch as [Hch _]. done. }
    assert (Hch' : chunked m).
    { unfold chunked in *. cbn [length] in Hch. rewrite Nat.sub_succ, Nat.sub_0_r in Hch. destruct m as [|e' m]; [constructor|].
      cbn [length take] in Hch. apply Forall_cons in Hch as [_ Hch]. cbn [length]. by rewrite Nat.sub_succ, Nat.sub_0_r. }
    rewrite get_byte_app_r by (rewrite elem_bytes_length; lia). rewrite elem_bytes_length, Z2Nat.id by lia.
    rewrite IH by (done || lia). unfold byte_at. rewrite elem_size.
    destruct (div_at (j / 1432 - 1) (j mod 1432)) as [H1 H2]; [done|].
    replace (1432 * (j / 1432 - 1) + j mod 1432) with (j - se_len e) in * by lia. rewrite H1, H2. f_equal. f_equal.
    unfold element, aget. destruct (Z.ltb_spec (j / 1432 - 1) 0), (Z.ltb_spec (j / 1432) 0); try lia.
    replace (Z.to_nat (j / 1432)) with (S (Z.to_nat (j / 1432 - 1))) by lia. done.
Qed.

Lemma list_eq_bytes bs xs :
  length bs = length xs -> (forall j, 0 <= j < Z.of_nat (length bs) -> get_byte bs j = get_byte xs j) -> bs = xs.
Proof.
  intros Hl H. apply list_eq_same_length with (length xs); [done|done|]. intros k x y Hk Hx Hy.
  specialize (H (Z.of_nat k)). unfold get_byte, aget in H. rewrite (proj2 (Z.ltb_ge _ _)), Nat2Z.id, Hx, Hy in H by lia.
  apply H. lia.
Qed.

Lemma filled_bytes msg bs : Forall elem_ok msg -> chunked msg -> mess_len msg = Z.of_nat (length bs) -> filled msg bs ->
  mess_bytes msg = bs.
Proof.
  intros Hok Hch Hl Hf. pose proof (mess_bytes_length msg Hok) as Hml. apply list_eq_bytes; [lia|].
  intros j Hj. rewrite mess_byte by (done || lia). apply Hf. lia.
Qed.

(** The header of a filled message. *)
Lemma filled_header e m (h : message_header) bs :
  header_ok h -> filled (e :: m) (enc_header h ++ bs) -> Message_get_message_header (e :: m) = h.
Proof.
  intros Hh Hf. rewrite header_cons. rewrite <- (get_header_put h []) by done. apply get_header_ext. intros j Hj.
  assert (Hl : Z.of_nat (length (enc_header h)) = sizeof_message_header) by apply enc_header_length, Hh.
  assert (Hs : sizeof_message_header = 48) by done. unfold put_header. replace j with (0 + j) at 2 by lia.
  rewrite get_byte_put_in by lia. specialize (Hf j). rewrite length_app, get_byte_app_l in Hf by lia. rewrite <- Hf by lia.
  unfold byte_at. rewrite elem_size, Z.div_small, Z.mod_small by lia. done.
Qed.
End bytes.

(* --------------------------------------------------------------------- *)
(** ** What a call takes from the socket *)

(** A session without what reading changes. *)
Definition idle (r : session) : session := set_s_read_mess None (set_s_read Message_reset_current_location r).
Definition unread (s : sess_state) : sess_state := set_Sessions ∅ (set_so_recv [] (set_so_in ∅ s)).

(** The value of a [recv] on a socket that was closed by the client or that
    failed: what is left of the values after [-1] for "would block". *)
Definition hangs (k : Z) : bool := (k <=? 0) && negb (would_block k).
(** The calls of [recv] between [w] and [w'], and whether one of them found
    the socket closed or failed. *)
Definition results (hung : bool) (w w' : sess_world) : Prop :=
  exists ks, so_recv (ss w) = ks ++ so_recv (ss w') /\ existsb hangs ks = hung.

(** The bytes [xs] were taken from the socket [mbox] of the session [i], and
    nothing else changed but how far its reading is. *)
Record took (i mbox : Z) (hung : bool) (xs : list Z) (w w' : sess_world) : Prop := mkTook {
  tk_core : core w' = core w;
  tk_others : forall j, j <> i -> ses (ss w') j = ses (ss w) j;
  tk_session : idle (ses (ss w') i) = idle (ses (ss w) i);
  tk_table : unread (ss w') = unread (ss w);
  tk_in : in_bytes (ss w) mbox = xs ++ in_bytes (ss w') mbox;
  tk_sockets : forall m, m <> mbox -> in_bytes (ss w') m = in_bytes (ss w) m;
  tk_results : results hung w w';
}.

Section took.
Context (i mbox : Z).
Implicit Types (w : sess_world) (xs : list Z) (hung : bool).

Lemma results_refl w w' : so_recv (ss w') = so_recv (ss w) -> results false w w'.
Proof. intros H. exists []. by rewrite H. Qed.
Lemma took_refl w : took i mbox false [] w w.
Proof. constructor; try done. by apply results_refl. Qed.
Lemma took_trans b c xs ys w w1 w2 : took i mbox b xs w w1 -> took i mbox c ys w1 w2 -> took i mbox (b || c) (xs ++ ys) w w2.
Proof.
  intros [] []. constructor; try congruence.
  - intros j Hj. by rewrite tk_others1, tk_others0.
  - by rewrite <- app_assoc, <- tk_in1.
  - intros m Hm. by rewrite tk_sockets1, tk_sockets0.
  - destruct tk_results0 as (ks & Hks & <-), tk_results1 as (ls & Hls & <-). exists (ks ++ ls).
    by rewrite Hks, Hls, <- app_assoc, existsb_app.
Qed.
(** Nothing is hung up in the first part. *)
Lemma took_after c xs ys w w1 w2 : took i mbox false xs w w1 -> took i mbox c ys w1 w2 -> took i mbox c (xs ++ ys) w w2.
Proof. apply (took_trans false c). Qed.
Lemma took_upd f w : (forall r, idle (f r) = idle r) -> took i mbox false [] w (mkSessWorld (upd i f (ss w)) (core w) (gs w)).
Proof.
  intros Hf. constructor; try done; cbn [ss]; [| |by apply results_refl].
  - intros j Hj. by rewrite ses_upd, decide_False.
  - rewrite ses_upd, decide_True by done. apply Hf.
Qed.
Lemma took_then_upd b xs f w w1 : (forall r, idle (f r) = idle r) -> took i mbox b xs w w1 ->
  took i mbox b xs w (mkSessWorld (upd i f (ss w1)) (core w1) (gs w1)).
Proof.
  intros Hf Ht. rewrite <- (orb_false_r b), <- (app_nil_r xs). eapply took_trans; [exact Ht|by apply took_upd].
Qed.
Lemma took_ok b xs w w1 : took i mbox b xs w w1 -> bytes_ok (in_bytes (ss w) mbox) -> bytes_ok xs /\ bytes_ok (in_bytes (ss w1) mbox).
Proof. intros [] H. rewrite tk_in0 in H. by apply Forall_app in H. Qed.

Lemma take_drop_length {A} (n : nat) (l : list A) : take n l ++ drop (length (take n l)) l = l.
Proof.
  rewrite length_take. destruct (decide (n <= length l)%nat); [rewrite Nat.min_l by done; apply take_drop|].
  by rewrite Nat.min_r, drop_ge, take_ge, app_nil_r by lia.
Qed.

(** [recv]: as many bytes as its value says. *)
Lemma recv_spec n w :
  0 < n ->
  wp (recv mbox n) (fun '(k, xs) w' => took i mbox (hangs k) xs w w' /\ ses (ss w') i = ses (ss w) i /\
    (0 < k -> k = Z.of_nat (length xs)) /\ (k <= 0 -> xs = []) /\ Z.of_nat (length xs) <= n) never w.
Proof.
  intros Hn. unfold recv. apply wp_bind, wp_get. set (k := next_result _). apply wp_bind, wp_modify.
  set (w1 := mkSessWorld _ _ _).
  assert (H1 : took i mbox (hangs k) [] w w1).
  { constructor; try done. unfold results, k, next_result. cbn [ss w1 so_recv set_so_recv].
    destruct (so_recv (ss w)) as [|x l]; [by exists []|]. exists [x]. split; [done|apply orb_false_r]. }
  apply wp_if; intros Hk.
  - apply Z.leb_le in Hk. apply wp_ret. split_and!; [done|done|lia|done|cbn; lia].
  - apply Z.leb_gt in Hk. assert (Hh : forall j, 0 < j -> hangs j = false) by (intros j Hj; unfold hangs; by rewrite (proj2 (Z.leb_gt _ _))).
    rewrite (Hh k Hk) in H1. set (xs := take _ _). apply wp_if; intros Hx.
    + apply wp_ret. split_and!; [done|done|lia|done|cbn; lia].
    + apply Z.eqb_neq in Hx. apply wp_bind, wp_modify, wp_ret. split.
      * rewrite Hh by lia. change xs with ([] ++ xs). eapply took_after; [exact H1|]. constructor; try done; unfold in_bytes; cbn.
        -- rewrite lookup_insert_eq. cbn. symmetry. apply take_drop_length.
        -- intros m Hm. by rewrite lookup_insert_ne.
        -- by apply results_refl.
      * split; [done|]. split; [lia|]. split; [lia|]. unfold xs. rewrite length_take. lia.
Qed.
End took.

(* --------------------------------------------------------------------- *)
(** ** A message that is being read *)

(** The header of [bs], checked. *)
Definition checked_header (i : Z) (s : sess_state) (bs : list Z) (h : message_header) : Prop :=
  sizeof_message_header <= Z.of_nat (length bs) /\
  Sess_validate_read_header i sizeof_message_header (header_in (get_header bs)) s = inr (0, h).
(** What is stored of [bs]: the header in the form of the daemon. *)
Definition image (h : message_header) (bs : list Z) : list Z :=
  enc_header h ++ drop (Z.to_nat sizeof_message_header) bs.

(** The message in the elements: [bs] of it came, the next byte goes to the
    position. *)
Record body_read (msg : message_obj) (p : partial_message_info) (h : message_header) (bs : list Z) : Prop := mkBodyRead {
  br_elem : exists e m, msg = e :: m /\ Forall (fun e => se_len e = sizeof_packet_body) m;
  br_max : Z.of_nat (length msg) <= MAX_SCATTER_ELEMENTS;
  br_position : Z.of_nat (length bs) = sizeof_packet_body * cur_element p + cur_byte p;
  br_byte : 0 <= cur_byte p < sizeof_packet_body;
  br_elements : cur_element p <= Z.of_nat (length msg) <= cur_element p + 1;
  br_within : 0 < cur_byte p -> Z.of_nat (length msg) = cur_element p + 1;
  br_total : total_bytes p = Z.of_nat (length bs) - sizeof_message_header;
  br_filled : filled msg (image h bs);
}.

(** The reading of a session in which the bytes [bs] of a message came. *)
Definition reading (i : Z) (s : sess_state) (bs : list Z) : Prop :=
  let p := s_read (ses s i) in
  match s_read_mess (ses s i) with
  | None => bs = [] /\ p = set_in_mess_head 1 Message_reset_current_location
  | Some msg =>
      if in_mess_head p =? 1
      then (exists e, msg = [e]) /\ cur_element p = 0 /\ total_bytes p = 0 /\ cur_byte p = Z.of_nat (length bs) /\
           Z.of_nat (length bs) < sizeof_message_header /\ filled msg bs
      else in_mess_head p = 0 /\ exists h, checked_header i s bs h /\ body_read msg p h bs /\
             Z.of_nat (length bs) < sizeof_message_header + body_len h
  end.

(** A message of which everything came. *)
Record body_done (msg : message_obj) (h : message_header) (bs : list Z) : Prop := mkBodyDone {
  bd_elem : exists e m, msg = e :: m /\ Forall (fun e => se_len e = sizeof_packet_body) m;
  bd_max : Z.of_nat (length msg) <= MAX_SCATTER_ELEMENTS;
  bd_elements : (Z.of_nat (length msg) - 1) * sizeof_packet_body < Z.of_nat (length bs) <= Z.of_nat (length msg) * sizeof_packet_body;
  bd_filled : filled msg (image h bs);
}.

Section body.
Implicit Types (msg m : message_obj) (p : partial_message_info) (h : message_header) (bs xs : list Z) (w : sess_world).

Lemma image_length h bs : header_ok h -> sizeof_message_header <= Z.of_nat (length bs) -> length (image h bs) = length bs.
Proof.
  intros (_ & Hn & _) Hb. pose proof (enc_header_length h Hn) as Hl. unfold image. change sizeof_message_header with 48 in *.
  rewrite length_app, length_drop. lia.
Qed.
Lemma image_app h bs xs : sizeof_message_header <= Z.of_nat (length bs) -> image h (bs ++ xs) = image h bs ++ xs.
Proof. intros Hb. unfold image. change sizeof_message_header with 48 in *. rewrite drop_app_le by lia. by rewrite app_assoc. Qed.

Lemma full_tail msg : (exists e m, msg = e :: m /\ Forall (fun e => se_len e = sizeof_packet_body) m) <->
  msg <> [] /\ Forall (fun n => n = sizeof_packet_body) (tail (se_len <$> msg)).
Proof.
  split.
  - intros (e & m & -> & Hm). split; [done|]. cbn. by apply Forall_fmap.
  - intros [Hne Hm]. destruct msg as [|e m]; [done|]. exists e, m. split; [done|]. cbn in Hm. by apply Forall_fmap in Hm.
Qed.
Lemma full_store (e b : Z) xs msg :
  (exists e m, msg = e :: m /\ Forall (fun e => se_len e = sizeof_packet_body) m) ->
  exists e' m, store e b xs msg = e' :: m /\ Forall (fun e => se_len e = sizeof_packet_body) m.
Proof.
  rewrite !full_tail, store_lens. intros [Hne H]. split; [|done]. intros Hnil. apply Hne, length_zero_iff_nil.
  by rewrite <- (store_length e b xs msg), Hnil.
Qed.

(** The element at the position, allocated when it is not there. *)
Lemma body_grow msg p h bs w :
  body_read msg p h bs -> header_ok h -> sizeof_message_header <= Z.of_nat (length bs) ->
  wp (if Z.of_nat (length msg) <=? cur_element p then
        if cur_byte p =? 0 then lift (Message_add_scat_element msg) else fail (Fatal "Sess_read: assert")
      else ret msg)
    (fun msg1 w' => w' = w /\ body_read msg1 p h bs /\ Z.of_nat (length msg1) = cur_element p + 1)
    (fun e => e = Fatal "Message_add_scat_element: assert" /\ Z.of_nat (length bs) = MAX_SCATTER_ELEMENTS * sizeof_packet_body) w.
Proof.
  intros Hb Hh Hbs. pose proof Hb as []. apply wp_if; intros Hl; [|apply Z.leb_gt in Hl; apply wp_ret; split_and!; [done..|lia]].
  apply Z.leb_le in Hl. destruct (Z.eqb_spec (cur_byte p) 0) as [Hz|Hnz]; [|exfalso; specialize (br_within0 ltac:(lia)); lia]. unfold wp, lift, Message_add_scat_element.
  destruct (Z.ltb_spec (Z.of_nat (length msg)) MAX_SCATTER_ELEMENTS).
  - split; [done|]. assert (Hlen : Z.of_nat (length (msg ++ [fresh_elem sizeof_packet_body])) = cur_element p + 1) by (rewrite length_app; cbn; lia).
    split; [|done]. constructor; try done; try lia.
    + destruct br_elem0 as (e & m & -> & Hm). exists e, (m ++ [fresh_elem sizeof_packet_body]). split; [done|].
      apply Forall_app. split; [done|]. by constructor.
    + apply filled_app; [|done]. rewrite image_length by done. rewrite elem_size in *. lia.
  - split; [done|]. rewrite elem_size in *. change MAX_SCATTER_ELEMENTS with 100 in *. lia.
Qed.

Lemma body_store msg p h bs xs :
  body_read msg p h bs -> header_ok h -> sizeof_message_header <= Z.of_nat (length bs) ->
  Z.of_nat (length msg) = cur_element p + 1 -> cur_byte p + Z.of_nat (length xs) <= sizeof_packet_body ->
  let msg' := store (cur_element p) (cur_byte p) xs msg in
  (exists e m, msg' = e :: m /\ Forall (fun e => se_len e = sizeof_packet_body) m) /\
  Z.of_nat (length msg') = cur_element p + 1 /\ filled msg' (image h (bs ++ xs)).
Proof.
  intros [] Hh Hbs Hl Hx msg'. split; [by apply full_store|]. unfold msg'. rewrite store_length. split; [done|].
  rewrite image_app by done. assert (Hne : (length msg <> 0)%nat) by (destruct br_elem0 as (e & m & -> & _); done).
  apply filled_store; [lia|lia|done| |done]. by rewrite image_length.
Qed.
End body.

(* --------------------------------------------------------------------- *)
(** ** The calls *)

(** The daemon stops in the middle of a message that is too long for a
    scatter. *)
Definition too_long (i : Z) (bs0 : list Z) (mbox : Z) (w : sess_world) (e : err) : Prop :=
  (e = Fatal "Message_add_scat_element: assert" \/ e = Undefined "Message_element_len_fixup: elements[last]") /\
  exists xs bs h, xs `prefix_of` in_bytes (ss w) mbox /\ bs `suffix_of` (bs0 ++ xs) /\ checked_header i (ss w) bs h /\
    MAX_SCATTER_ELEMENTS * sizeof_packet_body <= Z.of_nat (length bs) <= sizeof_message_header + body_len h.

Section calls.
Context (i mbox : Z).
Implicit Types (msg : message_obj) (p : partial_message_info) (h : message_header) (bs xs : list Z) (w : sess_world).

Lemma took_names b xs w w' : took i mbox b xs w w' ->
  s_name (ses (ss w') i) = s_name (ses (ss w) i) /\ sx_My_name (ss w') = sx_My_name (ss w).
Proof. intros []. split; [by injection tk_session0|by injection tk_table0]. Qed.
Lemma took_validate b xs w w' h : took i mbox b xs w w' ->
  Sess_validate_read_header i sizeof_message_header h (ss w') = Sess_validate_read_header i sizeof_message_header h (ss w).
Proof. intros [Hn Hm]%took_names. unfold Sess_validate_read_header. by rewrite Hn, Hm. Qed.
Lemma took_parse b xs w w' bs : took i mbox b xs w w' -> parse_one i (ss w') bs = parse_one i (ss w) bs.
Proof. intros Ht. unfold parse_one. by rewrite (took_validate _ _ _ _ _ Ht). Qed.
(** Less than the header announces. *)
Lemma parse_short s bs h : checked_header i s bs h -> Z.of_nat (length bs) < sizeof_message_header + body_len h -> parse_one i s bs = Incomplete.
Proof.
  intros [Hl Hv] Hlt. unfold parse_one. rewrite (proj2 (Z.ltb_ge _ _)) by done. rewrite Hv. cbn.
  by rewrite (proj2 (Z.ltb_lt _ _)).
Qed.
Lemma took_checked b xs w w' bs h : took i mbox b xs w w' -> checked_header i (ss w') bs h <-> checked_header i (ss w) bs h.
Proof. intros Ht. unfold checked_header. by rewrite (took_validate _ _ _ _ _ Ht). Qed.
Lemma checked_more s bs xs h : checked_header i s bs h -> checked_header i s (bs ++ xs) h.
Proof.
  intros [Hl Hv]. split; [rewrite length_app; lia|]. rewrite <- Hv. do 2 f_equal. apply get_header_ext. intros j Hj.
  apply get_byte_app_l. lia.
Qed.
Lemma took_reading b xs w w' bs : took i mbox b xs w w' -> ses (ss w') i = ses (ss w) i -> reading i (ss w) bs -> reading i (ss w') bs.
Proof.
  intros Ht Hs. unfold reading. rewrite Hs. case_match; [|done]. case_match; [done|]. intros (H1 & h & Hc & H2).
  split; [done|]. exists h. split; [|done]. by apply (took_checked _ _ _ _ _ _ Ht).
Qed.

Lemma too_long_later b xs bs0 w w1 e : took i mbox b xs w w1 -> too_long i (bs0 ++ xs) mbox w1 e -> too_long i bs0 mbox w e.
Proof.
  intros Ht [He (ys & bs & h & [zs Hy] & Hs & Hc & Hl)]. split; [done|]. exists (xs ++ ys), bs, h.
  split; [exists zs; rewrite (tk_in _ _ _ _ _ _ Ht), Hy; by rewrite <- app_assoc|]. split; [by rewrite app_assoc|].
  split; [|done]. by apply (took_checked _ _ _ _ _ _ Ht).
Qed.

(** What a call leads to, when [bs] came before. *)
Definition read_post (w : sess_world) (bs : list Z) (done : message_obj -> list Z -> Prop) : read_result * message_obj -> sess_world -> Prop :=
  fun '(res, msg) w' => exists hung xs, took i mbox hung xs w w' /\
    match res with
    | Got => hung = false /\ done msg (bs ++ xs)
    | Waiting => hung = false /\ reading i (ss w') (bs ++ xs)
    | Broken => parse_one i (ss w) (bs ++ xs) = if hung then Incomplete else Invalid
    end.

Lemma read_post_later w w1 xs bs done a w' : took i mbox false xs w w1 -> read_post w1 (bs ++ xs) done a w' -> read_post w bs done a w'.
Proof.
  intros Ht. destruct a as [res msg]. intros (hung & ys & Hy & Hr). exists hung, (xs ++ ys). split; [by eapply took_after|].
  rewrite app_assoc. destruct res; [done..|]. by rewrite (took_parse _ _ _ _ _ Ht) in Hr.
Qed.

Lemma read_body_spec h : header_ok h -> forall fuel w bs msg,
  let p := s_read (ses (ss w) i) in
  body_read msg p h bs -> in_mess_head p = 0 -> checked_header i (ss w) bs h -> s_read_mess (ses (ss w) i) = Some msg ->
  Z.of_nat (length bs) <= sizeof_message_header + body_len h ->
  (Z.of_nat (length bs) = sizeof_message_header + body_len h -> (Z.of_nat (length msg) - 1) * sizeof_packet_body < Z.of_nat (length bs)) ->
  MAX_SCATTER_ELEMENTS < Z.of_nat fuel + cur_element p ->
  wp (read_body fuel i mbox (sizeof_message_header + body_len h - Z.of_nat (length bs)) msg)
    (read_post w bs (fun msg bs => Z.of_nat (length bs) = sizeof_message_header + body_len h /\ body_done msg h bs))
    (too_long i bs mbox w) w.
Proof.
  intros Hh fuel. induction fuel as [|fuel IH]; intros w bs msg p Hb Hhead Hc Hm Hle Hdone Hfuel; cbn [read_body].
  { pose proof Hb as []. change MAX_SCATTER_ELEMENTS with 100 in *. lia. }
  pose proof Hc as [Hbs _]. apply wp_if; intros Hrem.
  { apply Z.leb_le in Hrem. apply wp_ret. exists false, []. rewrite app_nil_r. split; [apply took_refl|]. split; [done|]. split; [lia|].
    specialize (Hdone ltac:(lia)). pose proof Hb as []. constructor; try done. rewrite elem_size in *. split; [done|lia]. }
  apply Z.leb_gt in Hrem. apply wp_bind, wp_gets, wp_bind. fold p.
  eapply wp_mono; [by apply body_grow| |].
  2:{ intros e [-> Hfull]. split; [by left|]. exists [], bs, h. rewrite app_nil_r. split_and!; try done; [apply prefix_nil|lia..]. }
  intros msg1 w' (-> & Hb1 & Hl1). set (to_read := if _ <? _ then _ else _).
  assert (Hto : 0 < to_read <= sizeof_packet_body - cur_byte p /\ to_read <= sizeof_message_header + body_len h - Z.of_nat (length bs) /\
    (to_read = sizeof_message_header + body_len h - Z.of_nat (length bs) \/ to_read = sizeof_packet_body - cur_byte p)).
  { pose proof (br_byte _ _ _ _ Hb). unfold to_read. destruct (Z.ltb_spec (sizeof_message_header + body_len h - Z.of_nat (length bs)) (sizeof_packet_body - cur_byte p)); lia. }
  clearbody to_read. apply wp_bind. eapply wp_mono; [apply (recv_spec i); lia| |done].
  intros [k xs] w1 (Ht1 & Hs1 & Hpos & Hneg & Hxs). cbv iota beta.
  destruct (body_store msg1 p h bs xs Hb1 Hh Hbs Hl1) as (Hel & Hlen & Hfill); [lia|].
  set (msg2 := store _ _ _ _) in *. apply wp_bind, wp_modify.
  set (w2 := mkSessWorld _ _ _). assert (Ht2 : took i mbox (hangs k) xs w w2) by by apply took_then_upd.
  assert (Hcalm : 0 < k -> hangs k = false) by (intros Hk; unfold hangs; by rewrite (proj2 (Z.leb_gt _ _))).
  assert (Hs2 : ses (ss w2) i = set_s_read_mess (Some msg2) (ses (ss w) i)).
  { cbn [ss w2]. by rewrite ses_upd, decide_True, Hs1. }
  pose proof Hb1 as [_ Hmax1 Hpos1 Hbyte1 _ _ Htot1 _]. rewrite elem_size in *.
  assert (Hread : forall q, cur_element q = cur_element p -> cur_byte q = cur_byte p + Z.of_nat (length xs) -> cur_byte q < 1432 ->
    total_bytes q = total_bytes p + Z.of_nat (length xs) -> body_read msg2 q h (bs ++ xs)).
  { intros q H1 H2 H3 H4. assert (Hlq : Z.of_nat (length (bs ++ xs)) = Z.of_nat (length bs) + Z.of_nat (length xs)) by (rewrite length_app; lia).
    constructor; rewrite ?elem_size; try done; lia. }
  apply wp_if; intros Hk.
  - apply Z.eqb_eq in Hk. assert (Hlx : Z.of_nat (length xs) = to_read) by lia. apply wp_bind, wp_modify. set (w3 := mkSessWorld _ _ _).
    assert (Ht3 : took i mbox false xs w w3) by (rewrite <- Hcalm by lia; by apply took_then_upd).
    assert (Hs3 : ses (ss w3) i = set_s_read (set_total_bytes (total_bytes p + k) (set_cur_element (cur_element p + 1) (set_cur_byte 0 p)))
      (set_s_read_mess (Some msg2) (ses (ss w) i))).
    { cbn [ss w3]. by rewrite ses_upd, decide_True, Hs2. }
    assert (Hlq : Z.of_nat (length (bs ++ xs)) = Z.of_nat (length bs) + to_read) by (rewrite length_app; lia).
    replace (_ - k) with (sizeof_message_header + body_len h - Z.of_nat (length (bs ++ xs))) by lia.
    destruct (decide (Z.of_nat (length (bs ++ xs)) = sizeof_message_header + body_len h)) as [Hend|Hend].
    + assert (Hz : read_body fuel i mbox (sizeof_message_header + body_len h - Z.of_nat (length (bs ++ xs))) msg2 = ret (Got, msg2)).
      { rewrite Hend, Z.sub_diag. by destruct fuel. }
      rewrite Hz. apply wp_ret. exists false, xs. split; [done|]. split; [done|]. split; [done|]. constructor; rewrite ?elem_size; try done; lia.
    + eapply wp_mono; [apply (IH w3 (bs ++ xs) msg2)| |].
      * rewrite Hs3. constructor; rewrite ?elem_size; cbn [s_read set_s_read cur_element cur_byte total_bytes set_total_bytes set_cur_element set_cur_byte]; try done; lia.
      * by rewrite Hs3.
      * apply (took_checked _ _ _ _ _ _ Ht3). by apply checked_more.
      * by rewrite Hs3.
      * lia.
      * lia.
      * rewrite Hs3. cbn [s_read set_s_read cur_element set_total_bytes set_cur_element]. lia.
      * intros a w4 Ha. by eapply read_post_later.
      * intros e He. by eapply too_long_later.
  - apply Z.eqb_neq in Hk. apply wp_if; intros Hk0.
    + apply Z.ltb_lt in Hk0. apply wp_bind, wp_modify, wp_ret. set (w3 := mkSessWorld _ _ _).
      assert (Ht3 : took i mbox false xs w w3) by (rewrite <- Hcalm by lia; by apply took_then_upd).
      exists false, xs. split; [done|]. split; [done|]. apply (checked_more _ _ xs) in Hc as Hc3. apply (took_checked _ _ _ _ _ _ Ht3) in Hc3.
      unfold reading. cbn [ss w3]. rewrite ses_upd, decide_True, Hs2 by done.
      cbn [s_read_mess on_read set_s_read set_s_read_mess s_read in_mess_head set_total_bytes set_cur_byte]. fold p. rewrite Hhead. cbn.
      split; [done|]. exists h. split; [done|]. split; [apply Hread; cbn; lia|]. rewrite length_app. lia.
    + apply Z.ltb_ge in Hk0. rewrite (Hneg Hk0) in *. assert (Hh2 : hangs k = negb (would_block k)) by (unfold hangs; by rewrite (proj2 (Z.leb_le _ _))).
      rewrite Hh2 in Ht2. apply wp_if; intros Hwb; rewrite Hwb in Ht2; apply wp_ret; eexists _, []; (split; [exact Ht2|]); rewrite app_nil_r in *;
        [|apply (parse_short _ _ h); [exact Hc|lia]].
      split; [done|].
      unfold reading. rewrite Hs2. cbn [s_read_mess set_s_read_mess s_read]. fold p. rewrite Hhead. cbn.
      split; [done|]. exists h. split; [by apply (took_checked _ _ _ _ _ _ Ht2)|]. split; [apply Hread; cbn; lia|lia].
Qed.

(** A session and a daemon with legal names. *)
Definition named (s : sess_state) : Prop :=
  legal_name MAX_PRIVATE_NAME (s_name (ses s i)) /\ legal_name (MAX_PROC_NAME - 1) (sx_My_name s).
Lemma took_named b xs w w' : took i mbox b xs w w' -> named (ss w) -> named (ss w').
Proof. intros [Hn Hm]%took_names. unfold named. by rewrite Hn, Hm. Qed.

Lemma header_in_ok h : header_ok h -> header_ok (header_in h).
Proof.
  intros (Ht & Hn & Hg & Hh & Hd). unfold header_in, header_ok, Flip_mess, set_mh_type.
  destruct (Same_endian _); cbn [mh_type mh_private_group_name mh_num_groups mh_hint mh_data_len];
    (split; [apply u32_range|]; split; [done|]); [done|]. split; [apply s32_range|]. split; [done|]. apply s32_range.
Qed.

(** The check on a header of bytes. *)
Lemma validate_bytes bs w : named (ss w) -> bytes_ok bs ->
  exists k h, Sess_validate_read_header i sizeof_message_header (header_in (get_header bs)) (ss w) = inr (k, h) /\
    (k = 0 \/ k = -1) /\ (k = 0 -> header_ok h /\ 0 <= body_len h <= MAX_MESSAGE_BODY_LEN - sizeof_message_header).
Proof.
  intros [Hn Hp] Hb. assert (Hh : header_ok (header_in (get_header bs))) by by apply header_in_ok, get_header_ok.
  pose proof Hh as (Ht & Hx & Hg & Hi & Hd). destruct (validate_spec i _ (ss w) Hx Hn Hp) as (k & h & Hv & Hk & Hacc & Heq).
  exists k, h. split; [done|]. split; [done|]. intros Hz. apply Hacc in Hz as []. rewrite Heq. unfold left_header.
  rewrite decide_True by done. split.
  - split; [done|]. split; [|done]. cbn [mh_private_group_name set_mh_private_group_name]. unfold closed_name. by rewrite aset_length.
  - unfold body_len. cbn [mh_data_len mh_num_groups set_mh_private_group_name]. change MAX_GROUP_NAME with 32 in *. lia.
Qed.

Lemma reading_incomplete w bs : reading i (ss w) bs -> parse_one i (ss w) bs = Incomplete.
Proof.
  unfold reading, parse_one. intros Hr. destruct (Z.ltb_spec (Z.of_nat (length bs)) sizeof_message_header) as [|Hge]; [done|].
  destruct (s_read_mess _); [|destruct Hr as [-> _]; done]. case_match.
  - destruct Hr as (_ & _ & _ & _ & Hlt & _). lia.
  - destruct Hr as (_ & h & [_ Hv] & _ & Hlt). rewrite Hv. cbn. rewrite (proj2 (Z.ltb_lt _ _)) by done. done.
Qed.

(** The bytes of a complete header in the first element. *)
Lemma header_stored e bs w k h :
  header_ok h -> Z.of_nat (length bs) = sizeof_message_header -> filled [e] bs ->
  Sess_validate_read_header i sizeof_message_header (header_in (Message_get_message_header [e])) (ss w) = inr (k, h) ->
  Sess_validate_read_header i sizeof_message_header (header_in (get_header bs)) (ss w) = inr (k, h) /\
  filled (with_message_header (fun _ => h) [e]) (image h bs).
Proof.
  intros Hh Hl Hf Hv. assert (Hlen : Z.of_nat (length (enc_header h)) = sizeof_message_header) by apply enc_header_length, Hh.
  change sizeof_message_header with 48 in *. split.
  - rewrite <- Hv. do 2 f_equal. rewrite header_cons. apply get_header_ext. intros j Hj. change sizeof_message_header with 48 in Hj.
    rewrite <- Hf by lia. unfold byte_at. rewrite elem_size, Z.div_small, Z.mod_small by lia. done.
  - unfold image. change sizeof_message_header with 48. rewrite drop_ge, app_nil_r by lia. intros j Hj. unfold byte_at.
    rewrite elem_size, Z.div_small, Z.mod_small by lia. change (with_message_header (fun _ => h) [e]) with [mkElem (put_header h (se_buf e)) (se_len e)].
    change (element [?x] 0) with x. cbn [se_buf]. unfold put_header. replace j with (0 + j) at 1 by lia. apply get_byte_put_in; lia.
Qed.

Lemma head_phase w bs msg :
  named (ss w) -> bytes_ok bs -> bytes_ok (in_bytes (ss w) mbox) -> reading i (ss w) bs ->
  s_read_mess (ses (ss w) i) = Some msg -> in_mess_head (s_read (ses (ss w) i)) = 1 ->
  wp (read_checked i mbox msg)
    (fun '(res, msg) w' => exists hung xs, took i mbox hung xs w w' /\
       match res with
       | Got => hung = false /\ let p := s_read (ses (ss w') i) in
           exists h, checked_header i (ss w) (bs ++ xs) h /\ header_ok h /\ 0 <= body_len h /\
             s_read_mess (ses (ss w') i) = Some msg /\ body_read msg p h (bs ++ xs) /\ in_mess_head p = 0 /\
             Z.of_nat (length (bs ++ xs)) = sizeof_message_header
       | Waiting => hung = false /\ reading i (ss w') (bs ++ xs)
       | Broken => parse_one i (ss w) (bs ++ xs) = if hung then Incomplete else Invalid
       end) never w.
Proof.
  intros Hnamed Hbs Hin Hr Hm Hhead. unfold reading in Hr. rewrite Hm, Hhead in Hr. cbn in Hr.
  destruct Hr as ((e & ->) & Hce & Htot & Hcb & Hlt & Hf). assert (Hsz : sizeof_message_header = 48) by done. rewrite Hsz in *.
  unfold read_checked, read_header. apply wp_bind, wp_bind, wp_gets, wp_bind. rewrite Hcb, Hsz.
  eapply wp_mono; [apply (recv_spec i); lia| |done]. intros [k xs] w1 (Ht1 & Hs1 & Hpos & Hneg & Hxs). cbv iota beta.
  destruct (took_ok _ _ _ _ _ _ Ht1 Hin) as [Hxok _].
  assert (Hf2 : filled (store 0 (Z.of_nat (length bs)) xs [e]) (bs ++ xs)).
  { apply filled_store; rewrite ?elem_size; try done; cbn; lia. }
  change (store 0 (Z.of_nat (length bs)) xs [e]) with [mkElem (put_bytes (se_buf e) (Z.of_nat (length bs)) xs) (se_len e)] in *.
  set (e2 := mkElem _ _) in *. apply wp_bind, wp_modify. set (w2 := mkSessWorld _ _ _).
  assert (Hcalm : 0 < k -> hangs k = false) by (intros Hk; unfold hangs; by rewrite (proj2 (Z.leb_gt _ _))).
  assert (Ht2 : took i mbox (hangs k) xs w w2) by by apply took_then_upd.
  assert (Hgo : forall f, (forall r, idle (f r) = idle r) -> took i mbox (hangs k) xs w (mkSessWorld (upd i f (ss w2)) (core w2) (gs w2)))
    by (intros f Hfi; by apply took_then_upd).
  assert (Hs2 : ses (ss w2) i = set_s_read_mess (Some [e2]) (ses (ss w) i)) by (cbn [ss w2]; by rewrite ses_upd, decide_True, Hs1).
  assert (Hlen : Z.of_nat (length (bs ++ xs)) = Z.of_nat (length bs) + Z.of_nat (length xs)) by (rewrite length_app; lia).
  apply wp_if; intros Hk.
  - apply Z.eqb_eq in Hk. apply wp_bind, wp_modify. set (w3 := mkSessWorld _ _ _). assert (Ht3 : took i mbox false xs w w3) by (rewrite <- Hcalm by lia; by apply Hgo).
    apply wp_ret. apply wp_bind, wp_get.
    destruct (validate_bytes (bs ++ xs) w3) as (v & h & Hv & Hvk & Hvh); [by eapply took_named|by apply Forall_app|].
    rewrite (took_validate _ _ _ _ _ Ht3) in Hv.
    assert (Hhd : get_header (bs ++ xs) = Message_get_message_header [e2]).
    { rewrite header_cons. apply get_header_ext. intros j Hj. rewrite Hsz in Hj. rewrite <- Hf2 by lia. unfold byte_at.
      rewrite elem_size, Z.div_small, Z.mod_small by lia. done. }
    apply wp_bind. rewrite (took_validate _ _ _ _ _ Ht3), <- Hhd. unfold wp at 1, lift. rewrite Hv.
    apply wp_bind, wp_modify, wp_ret. set (msg4 := with_message_header _ _). set (w4 := mkSessWorld _ _ _). exists false, xs.
    assert (Ht4 : took i mbox false xs w w4) by by apply took_then_upd.
    split; [done|]. destruct Hvk as [->| ->]; cbn [Z.ltb Z.compare].
    + destruct (Hvh eq_refl) as [Hh Hbl]. split; [done|]. exists h. rewrite Hhd in Hv.
      destruct (header_stored e2 (bs ++ xs) w 0 h Hh) as [Hv' Hst]; [lia|done|done|].
      split; [split; [lia|done]|]. split; [done|]. split; [lia|]. cbn [ss w4]. rewrite ses_upd, decide_True by done.
      split; [done|]. cbn [s_read set_s_read_mess]. cbn [ss w3]. rewrite ses_upd, decide_True, Hs2 by done.
      cbn [s_read on_read set_s_read set_s_read_mess Message_set_location_begin_body set_cur_byte cur_element cur_byte total_bytes in_mess_head].
      split; [|split; [done|lia]]. assert (Hm4 : exists e4, msg4 = [e4]) by by eexists. fold msg4 in Hst. destruct Hm4 as [e4 Hm4]. rewrite Hm4 in *.
      constructor; cbn [cur_element cur_byte total_bytes length Message_set_location_begin_body set_cur_byte]; rewrite ?elem_size, ?Hce, ?Htot, ?Hcb, ?Hsz; try done; try lia.
      by exists e4, [].
    + unfold parse_one. rewrite Hsz. rewrite (proj2 (Z.ltb_ge _ _)) by lia. rewrite Hsz in Hv. by rewrite Hv.
  - apply Z.eqb_neq in Hk. apply wp_if; intros Hk0.
    + apply Z.ltb_lt in Hk0. apply wp_bind, wp_modify, wp_ret, wp_ret. exists false, xs. split; [rewrite <- (Hcalm Hk0); by apply Hgo|]. split; [done|].
      unfold reading. cbn [ss]. rewrite ses_upd, decide_True, Hs2 by done.
      cbn [s_read_mess on_read set_s_read set_s_read_mess s_read in_mess_head set_cur_byte cur_element cur_byte total_bytes].
      rewrite Hhead, Hcb, Hce, Htot, Hsz. cbn. split_and!; try done; try lia. by eexists.
    + apply Z.ltb_ge in Hk0. rewrite (Hneg Hk0) in *. assert (Hh2 : hangs k = negb (would_block k)) by (unfold hangs; by rewrite (proj2 (Z.leb_le _ _))).
      rewrite Hh2 in Ht2. apply wp_if; intros Hwb; rewrite Hwb in Ht2; apply wp_ret, wp_ret; eexists _, []; (split; [exact Ht2|]); rewrite app_nil_r in *;
        [|unfold parse_one; by rewrite Hsz, (proj2 (Z.ltb_lt _ _))].
      split; [done|].
      unfold reading. rewrite Hs2. cbn [s_read_mess set_s_read_mess s_read]. rewrite Hhead. cbn. rewrite Hsz.
      split_and!; try done; try lia. by eexists.
Qed.

(** The body after the header. *)
Definition piece_post (w : sess_world) bs : read_result * message_obj -> sess_world -> Prop :=
  fun '(res, msg) w' => exists hung xs, took i mbox hung xs w w' /\
    match res with
    | Got => hung = false /\ exists h, checked_header i (ss w) (bs ++ xs) h /\ header_ok h /\ body_done msg h (bs ++ xs) /\
        Z.of_nat (length (bs ++ xs)) = sizeof_message_header + body_len h
    | Waiting => hung = false /\ reading i (ss w') (bs ++ xs)
    | Broken => parse_one i (ss w) (bs ++ xs) = if hung then Incomplete else Invalid
    end.

Lemma body_phase h w bs msg :
  let p := s_read (ses (ss w) i) in
  header_ok h -> checked_header i (ss w) bs h -> s_read_mess (ses (ss w) i) = Some msg ->
  body_read msg p h bs -> in_mess_head p = 0 -> Z.of_nat (length bs) <= sizeof_message_header + body_len h ->
  (Z.of_nat (length bs) = sizeof_message_header + body_len h -> Z.of_nat (length bs) = sizeof_message_header) ->
  wp (let* r := the_session i in
      let h := Message_get_message_header msg in
      read_body READ_FUEL i mbox (mh_data_len h + MAX_GROUP_NAME * mh_num_groups h - total_bytes (s_read r)) msg)
    (piece_post w bs) (too_long i bs mbox w) w.
Proof.
  intros p Hh Hc Hm Hb Hhead Hle Hend. pose proof Hb as []. pose proof (proj1 Hc) as Hbs.
  destruct br_elem0 as (e & m & -> & Hfull). apply wp_bind, wp_gets. cbv zeta. rewrite (filled_header e m h _ Hh br_filled0).
  fold p. rewrite br_total0. fold (body_len h).
  replace (_ - _) with (sizeof_message_header + body_len h - Z.of_nat (length bs)) by lia.
  rewrite elem_size in *. change sizeof_message_header with 48 in *. assert (Hce : 0 <= cur_element p) by lia.
  eapply wp_mono; [apply read_body_spec; try done| |done]; fold p; rewrite ?elem_size.
  - intros Heq%Hend. change sizeof_message_header with 48 in *. lia.
  - unfold READ_FUEL. change MAX_SCATTER_ELEMENTS with 100. lia.
  - intros [res msg'] w' (hung & xs & Ht & Hr). exists hung, xs. split; [done|]. destruct res; [|done..].
    destruct Hr as (-> & Hl & Hd). split; [done|]. exists h. split; [by apply checked_more|done].
Qed.

Lemma piece_later w w1 xs bs a w' : took i mbox false xs w w1 -> piece_post w1 (bs ++ xs) a w' -> piece_post w bs a w'.
Proof.
  intros Ht. destruct a as [res msg]. intros (hung & ys & Hy & Hr). exists hung, (xs ++ ys). split; [by eapply took_after|].
  rewrite app_assoc. destruct res; [|done|].
  - destruct Hr as (-> & h & Hc & H). split; [done|]. exists h. split; [by apply (took_checked _ _ _ _ _ _ Ht)|done].
  - by rewrite (took_parse _ _ _ _ _ Ht) in Hr.
Qed.

Lemma read_piece_spec w bs :
  named (ss w) -> bytes_ok bs -> bytes_ok (in_bytes (ss w) mbox) -> reading i (ss w) bs ->
  wp (read_piece i mbox) (piece_post w bs) (too_long i bs mbox w) w.
Proof.
  intros Hnamed Hbs Hin Hr. unfold read_piece. apply wp_bind.
  assert (Hstart : wp (reading_mess i) (fun msg w1 => took i mbox false [] w w1 /\ s_read_mess (ses (ss w1) i) = Some msg /\ reading i (ss w1) bs) never w).
  { unfold reading_mess. apply wp_bind, wp_gets. unfold reading in Hr. destruct (s_read_mess (ses (ss w) i)) as [msg|] eqn:Hm.
    - apply wp_ret. split; [apply took_refl|]. split; [done|]. unfold reading. by rewrite Hm.
    - destruct Hr as [-> Hp]. apply wp_bind, wp_modify, wp_ret. split; [by apply took_upd|]. unfold reading. cbn [ss].
      rewrite ses_upd, decide_True by done. split; [done|]. cbn [s_read_mess set_s_read_mess s_read]. rewrite Hp. cbn.
      split_and!; try done. { by eexists. } intros j Hj. cbn in Hj. lia. }
  eapply wp_mono; [exact Hstart| |done]. intros msg w1 (Ht1 & Hm1 & Hr1).
  assert (Hin1 : bytes_ok (in_bytes (ss w1) mbox)) by by eapply took_ok.
  apply (took_named _ _ _ _ Ht1) in Hnamed.
  eapply wp_mono; [|intros a w' Ha; eapply (piece_later _ _ []); [exact Ht1|rewrite app_nil_r; exact Ha]
                   |intros e He; eapply (too_long_later _ []); [exact Ht1|rewrite app_nil_r; exact He]].
  apply wp_bind, wp_gets, wp_bind, wp_if; intros Hhead.
  - apply Z.eqb_eq in Hhead. eapply wp_mono; [by apply (head_phase w1 bs)| |done]. intros [res msg2] w2 (hung & xs & Ht2 & Hres). destruct res.
    + destruct Hres as (-> & h & Hc & Hh & Hbl & Hm2 & Hb & Hh2 & Hl).
      eapply wp_mono; [apply (body_phase h w2 (bs ++ xs)); [exact Hh|by apply (took_checked _ _ _ _ _ _ Ht2)|exact Hm2|exact Hb|exact Hh2|lia|intros _; exact Hl]| |].
      * intros a w' Ha. by eapply piece_later.
      * intros e He. by eapply too_long_later.
    + apply wp_ret. by exists hung, xs.
    + apply wp_ret. by exists hung, xs.
  - apply wp_ret. unfold reading in Hr1. rewrite Hm1, Hhead in Hr1. destruct Hr1 as (Hh & h & Hc & Hb & Hlt).
    assert (Hhok : header_ok h).
    { destruct Hc as [_ Hv]. destruct (validate_bytes bs w1) as (k & h' & Hv' & _ & Hok); [done..|].
      rewrite Hv in Hv'. injection Hv' as <- <-. by apply Hok. }
    apply (body_phase h); [exact Hhok|exact Hc|exact Hm1|exact Hb|exact Hh|lia|lia].
Qed.

(** ** The parser *)

Lemma parse_done s bs h :
  checked_header i s bs h -> Z.of_nat (length bs) = sizeof_message_header + body_len h -> parse_one i s bs = Complete (image h bs) [].
Proof.
  intros [Hl Hv] Hlen. unfold parse_one. rewrite (proj2 (Z.ltb_ge _ _)) by done. rewrite Hv. cbn [Z.ltb Z.compare].
  rewrite (proj2 (Z.ltb_ge _ _)) by lia. change sizeof_message_header with 48 in *. rewrite drop_ge by lia. f_equal.
  unfold image. f_equal. unfold get_bytes. apply resize_all_alt. rewrite length_drop. change sizeof_message_header with 48. lia.
Qed.

(** What a complete message and what is left of the bytes are. *)
Lemma parse_complete w bs m rest :
  named (ss w) -> bytes_ok bs -> parse_one i (ss w) bs = Complete m rest ->
  (length rest < length bs)%nat /\ bytes_ok rest /\ forall ys, parse_one i (ss w) (bs ++ ys) = Complete m (rest ++ ys).
Proof.
  intros Hn Hb. unfold parse_one at 1. destruct (Z.ltb_spec (Z.of_nat (length bs)) sizeof_message_header); [done|].
  destruct (validate_bytes bs w Hn Hb) as (k & h & Hv & Hk01 & Hk). rewrite Hv. destruct (Z.ltb_spec k 0); [done|].
  destruct (Hk ltac:(lia)) as [_ Hbl]. change MAX_MESSAGE_BODY_LEN with 144000 in *.
  destruct (Z.ltb_spec (Z.of_nat (length bs)) (sizeof_message_header + body_len h)); [done|]. intros [= <- <-].
  assert (Hsz : sizeof_message_header = 48) by done. split; [rewrite length_drop; lia|]. split; [by apply Forall_drop|].
  intros ys. unfold parse_one. rewrite length_app, (proj2 (Z.ltb_ge _ sizeof_message_header)) by lia.
  assert (Hh : get_header (bs ++ ys) = get_header bs).
  { apply get_header_ext. intros j Hj. apply get_byte_app_l. lia. }
  rewrite Hh, Hv, (proj2 (Z.ltb_ge k 0)), (proj2 (Z.ltb_ge _ _)), drop_app_le, get_bytes_app_l by lia. done.
Qed.
Lemma parse_fuel w : named (ss w) -> forall f bs, bytes_ok bs -> (length bs <= f)%nat -> parse_from f i (ss w) bs = parse_all i (ss w) bs.
Proof.
  intros Hn. enough (H : forall f g bs, bytes_ok bs -> (length bs <= f)%nat -> (length bs <= g)%nat -> parse_from f i (ss w) bs = parse_from g i (ss w) bs)
    by (intros f bs Hb Hl; by apply H).
  induction f as [|f IH]; intros g bs Hb Hf Hg.
  - destruct bs; [|cbn in Hf; lia]. destruct g; done.
  - destruct (parse_one i (ss w) bs) as [| |m rest] eqn:Hp; [by destruct g; cbn; rewrite Hp..|].
    destruct (parse_complete w bs m rest Hn Hb Hp) as (Hlt & Hr & _). destruct g as [|g]; [lia|]. cbn. rewrite Hp.
    rewrite (IH g rest) by (done || lia). done.
Qed.

Lemma parse_step w bs m rest : named (ss w) -> bytes_ok bs -> parse_one i (ss w) bs = Complete m rest ->
  parse_all i (ss w) bs = (m :: (parse_all i (ss w) rest).1, (parse_all i (ss w) rest).2).
Proof.
  intros Hn Hb Hp. destruct (parse_complete w bs m rest Hn Hb Hp) as (Hlt & Hr & _). unfold parse_all at 1.
  destruct (length bs) as [|f] eqn:Hl; [lia|]. cbn [parse_from]. rewrite Hp, (parse_fuel w) by (done || lia).
  by destruct (parse_all i (ss w) rest).
Qed.
Lemma parse_stop s bs : parse_one i s bs = Incomplete -> parse_all i s bs = ([], Some bs).
Proof. intros Hp. unfold parse_all. destruct (length bs); cbn; by rewrite Hp. Qed.
Lemma parse_bad s bs : parse_one i s bs = Invalid -> parse_all i s bs = ([], None).
Proof. intros Hp. unfold parse_all. destruct (length bs); cbn; by rewrite Hp. Qed.
Lemma took_parse_all b xs w w' bs : took i mbox b xs w w' -> parse_all i (ss w') bs = parse_all i (ss w) bs.
Proof.
  intros Ht. unfold parse_all. generalize (length bs). intros f. revert bs. induction f as [|f IH]; intros bs; cbn;
    rewrite (took_parse _ _ _ _ _ Ht); [done|]. destruct (parse_one i (ss w) bs); try done. by rewrite IH.
Qed.

(** A message of the session layer: full elements, the last one aside. *)
Definition whole (msg : message_obj) : Prop := Forall elem_ok msg /\ chunked msg.

Lemma read_message_spec w bs :
  named (ss w) -> bytes_ok bs -> bytes_ok (in_bytes (ss w) mbox) -> reading i (ss w) bs ->
  wp (read_message i mbox)
    (fun '(res, msg) w' => exists hung xs, took i mbox hung xs w w' /\
       match res with
       | Got => hung = false /\ parse_one i (ss w) (bs ++ xs) = Complete (mess_bytes msg) [] /\ whole msg /\ reading i (ss w') []
       | Waiting => hung = false /\ reading i (ss w') (bs ++ xs)
       | Broken => parse_one i (ss w) (bs ++ xs) = if hung then Incomplete else Invalid
       end) (too_long i bs mbox w) w.
Proof.
  intros Hn Hb Hin Hr. unfold read_message. apply wp_bind. eapply wp_mono; [by apply (read_piece_spec w bs)| |done].
  intros [res msg] w1 (hung & xs & Ht & Hres). destruct res; [|apply wp_ret; by exists hung, xs..].
  destruct Hres as (-> & h & Hc & Hh & [(e & m & -> & Hfull) Hmax Hels Hfill] & Hlen).
  apply wp_bind, wp_modify, wp_bind, wp_modify, wp_bind. set (w2 := mkSessWorld _ _ _).
  assert (Ht2 : took i mbox false xs w w2) by (apply took_then_upd; [done|]; by apply took_then_upd).
  pose proof (fixup_lengths e m) as Hfix. cbv zeta in Hfix.
  rewrite (filled_header e m h _ Hh Hfill) in Hfix.
  replace (mh_data_len h + MAX_GROUP_NAME * mh_num_groups h + sizeof_message_header) with (Z.of_nat (length (bs ++ xs))) in Hfix
    by (unfold body_len in Hlen; lia).
  specialize (Hfix Hfull Hmax Hels). unfold wp at 1, lift. destruct (Message_element_len_fixup (e :: m)) as [err|msg'].
  - destruct Hfix as [-> Htot]. split; [by right|]. exists xs, (bs ++ xs), h. split; [by exists (in_bytes (ss w1) mbox); apply Ht|].
    split; [done|]. split; [done|]. lia.
  - destruct Hfix as (Hml & Hch & Hok & Hbuf & _). apply wp_ret. exists false, xs. split; [done|]. split; [done|].
    assert (Hil : length (image h (bs ++ xs)) = length (bs ++ xs)) by (apply image_length; [done|apply Hc]).
    split; [|split; [done|]].
    + rewrite (parse_done _ _ h) by done. f_equal. symmetry. apply filled_bytes; [done|done|lia|].
      intros j Hj. rewrite <- Hfill by done. unfold byte_at. by rewrite !element_buf, Hbuf.
    + unfold reading. cbn [ss w2]. rewrite !ses_upd, !decide_True by done. done.
Qed.
End calls.

(** C7: reading from a client.  After any number of calls for a session, with
    whatever [recv] gave each time, the messages that were put together are,
    byte for byte, those a parser finds in the bytes that came before and
    those taken from the socket: their headers cut the stream, nothing is
    lost, doubled or mixed, and what is left waits in the session.  A session
    is given up at the first invalid header and when a [recv] finds the socket
    closed or failed ([hung]), then and only then: as long as it is not given
    up, no [recv] has found that and what is left begins no invalid header.
    The daemon stops only in a message too long for a scatter, and nothing but
    the reading of this session changes. *)
Theorem reads_parse (i mbox : Z) (n : nat) (w : sess_world) (bs : list Z) :
  named i (ss w) -> bytes_ok bs -> bytes_ok (in_bytes (ss w) mbox) -> reading i (ss w) bs ->
  wp (reads n i mbox)
    (fun '(msgs, broken) w' => exists hung xs, took i mbox hung xs w w' /\
       let '(found, left_over) := parse_all i (ss w) (bs ++ xs) in
       mess_bytes <$> msgs = found /\ Forall whole msgs /\
       match left_over with
       | None => broken = true /\ hung = false
       | Some rest => broken = hung /\ (broken = false -> reading i (ss w') rest)
       end)
    (too_long i bs mbox w) w.
Proof.
  revert w bs. induction n as [|n IH]; intros w bs Hn Hb Hin Hr; cbn [reads].
  { apply wp_ret. exists false, []. split; [apply took_refl|]. rewrite app_nil_r, parse_stop by by apply (reading_incomplete i w).
    split_and!; [done|constructor|done|done]. }
  apply wp_bind. eapply wp_mono; [by apply (read_message_spec i mbox w bs)| |done]. intros [res msg] w1 (hung & xs & Ht & Hres).
  destruct (took_ok _ _ _ _ _ _ Ht Hin) as [Hx Hin1]. pose proof (took_named _ _ _ _ _ _ Ht Hn) as Hn1.
  assert (Hbx : bytes_ok (bs ++ xs)) by by apply Forall_app. destruct res.
  - destruct Hres as (-> & Hp & Hw & Hr1). apply wp_bind. eapply wp_mono; [apply (IH w1 []); try done; constructor| |].
    + intros [l broken] w2 (hung & ys & Ht2 & Hl). apply wp_ret. exists hung, (xs ++ ys). split; [by eapply took_after|].
      destruct (parse_complete i w _ _ _ Hn Hbx Hp) as (_ & _ & Hmore). destruct (took_ok _ _ _ _ _ _ Ht2 Hin1) as [Hy _].
      rewrite app_assoc, (parse_step i w _ _ _ Hn) by (try apply Hmore; by apply Forall_app).
      rewrite <- (took_parse_all _ _ _ _ _ _ _ Ht). cbn [app] in *. destruct (parse_all i (ss w1) ys) as [found left_over]. cbn.
      destruct Hl as (<- & Hall & Hend). split; [done|]. split; [by constructor|done].
    + intros e [He (ys & bs' & h & [zs Hy] & Hs & Hc & Hl)]. split; [done|]. exists (xs ++ ys), bs', h.
      split; [exists zs; rewrite (tk_in _ _ _ _ _ _ Ht), Hy; by rewrite <- app_assoc|].
      split; [rewrite app_assoc; etransitivity; [exact Hs|]; by exists (bs ++ xs)|].
      split; [by apply (took_checked _ _ _ _ _ _ _ _ Ht)|done].
  - destruct Hres as [-> Hr1]. eapply wp_mono; [by apply (IH w1 (bs ++ xs)); [|apply Forall_app| |]| |].
    + intros [l broken] w2 (hung & ys & Ht2 & Hl). exists hung, (xs ++ ys). split; [by eapply took_after|].
      by rewrite app_assoc, <- (took_parse_all _ _ _ _ _ _ _ Ht).
    + intros e He. by eapply too_long_later.
  - apply wp_ret. exists hung, xs. split; [done|]. destruct hung.
    + rewrite (parse_stop _ _ _ Hres). split; [done|]. split; [constructor|done].
    + rewrite (parse_bad _ _ _ Hres). split; [done|]. split; [constructor|done].
Qed.

(* --------------------------------------------------------------------- *)
(** ** A client that sends in pieces *)

(** A message to one group, a join, and a header with an illegal type. *)
Definition client_bytes : list Z :=
  enc_header (ana_header AGREED_MESS 1 6) ++ strncpy [103] 32 ++ replicate 6 5 ++
  enc_header (ana_header JOIN_MESS 1 0) ++ strncpy [103] 32 ++
  enc_header (ana_header 0 0 0).
Definition sending_client : sess_world :=
  mkSessWorld (set_so_recv [10; 100; 20; -1; 100; 7; 200; 200; 30; 18] (set_so_in {[7 := client_bytes]}
    (upd 996 (set_s_read (set_in_mess_head 1 Message_reset_current_location)) ana_table))) sample_world no_groups.

Lemma reads_parse_witness :
  wp (reads 4 996 7)
    (fun '(msgs, broken) w' => exists hung xs, took 996 7 hung xs sending_client w' /\
       let '(found, left_over) := parse_all 996 (ss sending_client) ([] ++ xs) in
       mess_bytes <$> msgs = found /\ Forall whole msgs /\
       match left_over with
       | None => broken = true /\ hung = false
       | Some rest => broken = hung /\ (broken = false -> reading 996 (ss w') rest)
       end)
    (too_long 996 [] 7 sending_client) sending_client /\
  parse_all 996 (ss sending_client) client_bytes = ([take 86 client_bytes; take 80 (drop 86 client_bytes)], None) /\
  match reads 4 996 7 sending_client with
  | Done (msgs, broken) w' => mess_bytes <$> msgs = [take 86 client_bytes] /\ broken = false /\
      in_bytes (ss w') 7 = drop 86 client_bytes
  | Failed _ => False
  end /\
  match reads 9 996 7 sending_client with
  | Done (msgs, broken) w' => mess_bytes <$> msgs = [take 86 client_bytes; take 80 (drop 86 client_bytes)] /\ broken = true
  | Failed _ => False
  end.
Proof.
  split; [|vm_compute; repeat split; reflexivity].
  apply (reads_parse 996 7 4 sending_client []).
  - split; (split; [vm_compute; split; congruence|vm_compute; reflexivity]).
  - constructor.
  - unfold bytes_ok. apply (bool_decide_unpack _). vm_compute. exact I.
  - split; vm_compute; reflexivity.
Defined.
