(* ===== verification/Acm.v ===== *)
(** * Access control modules ([daemon/acm.c], [daemon/auth-null.c],
    [daemon/auth-ip.c])

    The table of authentication methods: which are enabled, which every
    client must pass, and which of them a connection has to go through; the
    rules of the method that looks at the address of the client. *)

From Stdlib Require Import ZArith Lia.
From stdpp Require Import base strings numbers option gmap list.
From S2P Require Import Prelude Wire Bytes Config Events EventsFd State Network FlowControl MembSets MembCore ProtSend.
From S2P Require Import Sample Retrans Requests Packing Deliver Delivery Sending EndToEnd Message Names SessState SessTable SessDir SessWrite SessStream SessServe SessDeliver SessRead.

Definition MAX_AUTH_METHODS : Z := 3.
Definition MAX_AUTH_NAME : Z := 30.

(** The function a connection is given to: the module that always allows, the
    one that looks at the address, or another one, which reports later. *)
Inductive auth_client : Type := Null_auth | Ip_auth | Module_auth (id : Z).

Record auth_info : Type := mkAuthInfo {
  am_name : list Z;  (* the characters before the nul *)
  am_enabled : bool;
  am_required : bool;
  am_ops : option auth_client;  (* auth_client_connection, [None] for [NULL] *)
}.

(** The variables of [acm.c]: the first [Num_Auth_Methods] and
    [Num_ACP_Methods] entries of the tables, and the policy in force. *)
Record acm : Type := mkAcm {
  Auth_Methods : list auth_info;
  ACP_Methods : list (list Z * AccessPolicy);
  AccessControlPolicy : Z;
}.
Definition set_Auth_Methods (x : list auth_info) (a : acm) : acm := mkAcm x (ACP_Methods a) (AccessControlPolicy a).
Definition set_ACP_Methods (x : list (list Z * AccessPolicy)) (a : acm) : acm := mkAcm (Auth_Methods a) x (AccessControlPolicy a).
Definition set_AccessControlPolicy (x : Z) (a : acm) : acm := mkAcm (Auth_Methods a) (ACP_Methods a) x.

(** [strncmp( x, y, MAX_AUTH_NAME ) == 0]. *)
Definition same_name (x y : list Z) : bool := strncmp x y MAX_AUTH_NAME =? 0.

(** The first entry with the name, or -1. *)
Fixpoint name_to_type (l : list (list Z)) (name : list Z) (i : Z) : Z :=
  match l with
  | [] => -1
  | x :: l => if same_name x name then i else name_to_type l name (i + 1)
  end.
Definition acm_authname_to_type (a : acm) (auth_name : list Z) : Z := name_to_type (am_name <$> Auth_Methods a) auth_name 0.
Definition acm_acpname_to_type (a : acm) (acp_name : list Z) : Z := name_to_type (fst <$> ACP_Methods a) acp_name 0.

(** ** The table *)

Definition no_method : auth_info := mkAuthInfo [] false false None.
Definition method (a : acm) (i : Z) : auth_info := aget no_method (Auth_Methods a) i.
Definition set_method (i : Z) (f : auth_info -> auth_info) (a : acm) : acm :=
  set_Auth_Methods (aset (Auth_Methods a) i (f (method a i))) a.

Definition enable (b : bool) (m : auth_info) : auth_info := mkAuthInfo (am_name m) b (am_required m) (am_ops m).
Definition require (m : auth_info) : auth_info := mkAuthInfo (am_name m) (am_enabled m) true (am_ops m).

Definition Acm_auth_set_enabled (auth_name : list Z) (a : acm) : bool * acm :=
  let auth_type := acm_authname_to_type a auth_name in
  if auth_type =? -1 then (false, a) else (true, set_method auth_type (enable true) a).
Definition Acm_auth_set_disabled (auth_name : list Z) (a : acm) : bool * acm :=
  let auth_type := acm_authname_to_type a auth_name in
  if auth_type =? -1 then (false, a) else (true, set_method auth_type (enable false) a).
Definition Acm_auth_set_required (auth_name : list Z) (a : acm) : bool * acm :=
  let auth_type := acm_authname_to_type a auth_name in
  if auth_type =? -1 then (false, a) else (true, set_method auth_type require a).

Definition Acm_auth_add_method (name : list Z) (ops : option auth_client) (a : acm) : bool * acm :=
  if Z.of_nat (length (Auth_Methods a)) =? MAX_AUTH_METHODS then (false, a)
  else (true, set_Auth_Methods (Auth_Methods a ++ [mkAuthInfo name false false ops]) a).

Definition Acm_auth_query_allowed (a : acm) (auth_name : list Z) : bool :=
  let auth_type := acm_authname_to_type a auth_name in
  if auth_type =? -1 then false else am_enabled (method a auth_type).

(** Entries past [Num_Auth_Methods] are zero. *)
Definition Acm_auth_get_auth_client_connection (a : acm) (authid : Z) : res (option auth_client) :=
  if negb ((0 <=? authid) && (authid <? MAX_AUTH_METHODS)) then inl (Fatal "Acm_auth_get_auth_client_connection: assert")
  else inr (am_ops (method a authid)).
Definition Acm_auth_get_auth_client_connection_byname (a : acm) (auth_name : list Z) : res (option auth_client) :=
  let auth_type := acm_authname_to_type a auth_name in
  if auth_type =? -1 then inr None else Acm_auth_get_auth_client_connection a auth_type.

(** The names of the enabled methods, a space after each. *)
Definition Acm_auth_get_allowed_list (a : acm) : list Z :=
  concat ((fun m => am_name m ++ [32]) <$> filter (fun m => am_enabled m = true) (Auth_Methods a)).

(** ** The methods of a connection *)

Record session_auth_info : Type := mkSessionAuthInfo {
  sa_mbox : Z;
  sa_completed : Z;  (* completed_required_auths *)
  sa_methods : list Z;  (* required_auth_methods[0..num_required_auths) *)
  sa_results : list bool;  (* required_auth_results *)
}.

Definition str_IP : list Z := [73; 80].
Definition str_NULL : list Z := [78; 85; 76; 76].
Definition str_PERMIT : list Z := [80; 69; 82; 77; 73; 84].

Definition Acm_auth_create_sess_info_forIP (a : acm) (mbox : Z) : session_auth_info :=
  mkSessionAuthInfo mbox 0 [acm_authname_to_type a str_IP] [false; false; false].

(** [auth_name[i * MAX_AUTH_NAME]] is the nul: there are no more names.  The
    buffer has room for [MAX_AUTH_METHODS] of them. *)
Fixpoint requested (n : nat) (a : acm) (auth_name : list Z) (methods : list Z) : res (list Z) :=
  match n with
  | O => inl (Undefined "Acm_auth_create_sess_info: auth_name[]")
  | S n =>
      if get_byte auth_name 0 =? 0 then inr methods
      else
        let type := acm_authname_to_type a (cstr auth_name) in
        if type =? -1 then inl (Undefined "Acm_auth_create_sess_info: Auth_Methods[-1]")
        else requested n a (drop (Z.to_nat MAX_AUTH_NAME) auth_name)
               (if am_enabled (method a type) then methods ++ [type] else methods)
  end.

(** The required methods [i..] that were not listed. *)
Fixpoint add_required (l : list auth_info) (i : Z) (methods : list Z) : res (list Z) :=
  match l with
  | [] => inr methods
  | m :: l =>
      if am_required m && negb (bool_decide (i ∈ methods)) then
        if MAX_AUTH_METHODS <=? Z.of_nat (length methods) then inl (Undefined "Acm_auth_create_sess_info: required_auth_methods[]")
        else add_required l (i + 1) (methods ++ [i])
      else add_required l (i + 1) methods
  end.

(** [None] is [NULL]. *)
Definition Acm_auth_create_sess_info (a : acm) (mbox : Z) (auth_name : list Z) : res (option session_auth_info) :=
  let? methods := requested (Z.to_nat MAX_AUTH_METHODS) a auth_name [] in
  if Z.of_nat (length methods) =? 0 then inr None
  else
    let? methods := add_required (Auth_Methods a) 0 methods in
    inr (Some (mkSessionAuthInfo mbox 0 methods [false; false; false])).

(** ** Policies *)

Definition Acm_acp_add_method (name : list Z) (ops : AccessPolicy) (a : acm) : bool * acm :=
  if Z.of_nat (length (ACP_Methods a)) =? MAX_AUTH_METHODS then (false, a)
  else (true, set_ACP_Methods (ACP_Methods a ++ [(name, ops)]) a).
Definition Acm_acp_query_allowed (a : acm) (acp_name : list Z) : bool := negb (acm_acpname_to_type a acp_name =? -1).
Definition Acm_acp_set_policy (policy_name : list Z) (a : acm) : bool * acm :=
  if negb (Acm_acp_query_allowed a policy_name) then (false, a)
  else (true, set_AccessControlPolicy (acm_acpname_to_type a policy_name) a).
Definition Acm_acp_fill_ops_byname (a : acm) (acp_name : list Z) : option AccessPolicy :=
  let acp_type := acm_acpname_to_type a acp_name in
  if acp_type =? -1 then None else snd <$> ACP_Methods a !! Z.to_nat acp_type.
Definition Acm_acp_fill_ops (a : acm) : res AccessPolicy :=
  if negb ((0 <=? AccessControlPolicy a) && (AccessControlPolicy a <? Z.of_nat (length (ACP_Methods a))))
  then inl (Fatal "Acm_acp_fill_ops: assert")
  else or_err (Fatal "Acm_acp_fill_ops: assert") (snd <$> ACP_Methods a !! Z.to_nat (AccessControlPolicy a)).

(** The modules the daemon registers ([null_init], [ip_init], [permit_init])
    and the defaults. *)
Definition null_init (a : acm) : res acm :=
  let '(b, a) := Acm_auth_add_method str_NULL (Some Null_auth) a in
  if b then inr a else inl (Fatal "null_init").
Definition permit_init (a : acm) : res acm :=
  let '(b, a) := Acm_acp_add_method str_PERMIT permit a in
  if b then inr a else inl (Fatal "permit_init").
Definition Acm_init (a : acm) : res acm :=
  let a := snd (Acm_auth_set_enabled str_NULL a) in
  let '(b, a) := Acm_acp_set_policy str_PERMIT a in
  if b then inr a else inl (Fatal "Acm_init").

(* --------------------------------------------------------------------- *)
(** ** Addresses *)

(** The rules of [auth-ip.c], network and prefix length, and the file they
    come from. *)
Record ip_rules : Type := mkIpRules { IP_File_Loaded : bool; Allow_Rules : list (Z * Z) }.

Definition insert_ip_rule (net_address prefix : Z) (r : ip_rules) : ip_rules :=
  mkIpRules (IP_File_Loaded r) ((u32 net_address, prefix) :: Allow_Rules r).

(** [(~0x0) << (32 - prefix_length)], an [int]. *)
Definition net_mask (prefix : Z) : res Z :=
  let n := 32 - prefix in
  if negb ((0 <=? n) && (n <? 32)) then inl (Undefined "ip_auth_client_connection: shift")
  else inr (s32 (Z.shiftl (Z.lnot 0) n)).

Fixpoint search_rules (client_ip : Z) (l : list (Z * Z)) : res bool :=
  match l with
  | [] => inr false
  | (network_address, prefix_length) :: l =>
      let? mask := net_mask prefix_length in
      if network_address =? u32 (Z.land client_ip mask) then inr true else search_rules client_ip l
  end.

(** The address of the client, [None] when it is not an [AF_INET] one. *)
Definition ip_allowed (r : ip_rules) (addr : option Z) : res bool :=
  if negb (IP_File_Loaded r) then inr false
  else match addr with
       | Some client_ip => search_rules client_ip (Allow_Rules r)
       | None => inr false
       end.

(** ** What the searches find *)

Section acm.
Implicit Types (a : acm) (name : list Z) (l : list (list Z)).

Lemma same_name_spec x y : same_name x y = true <-> take 30 x = take 30 y.
Proof. unfold same_name. rewrite Z.eqb_eq. unfold strncmp. by rewrite strcmp_eq. Qed.

Lemma name_to_type_spec l name : forall i, 0 <= i ->
  (name_to_type l name i = -1 /\ Forall (fun x => same_name x name = false) l) \/
  (exists k x, name_to_type l name i = i + Z.of_nat k /\ l !! k = Some x /\ same_name x name = true).
Proof.
  induction l as [|x l IH]; intros i Hi; cbn; [by left|]. destruct (same_name x name) eqn:Hx.
  - right. exists 0%nat, x. split; [lia|done].
  - destruct (IH (i + 1)) as [[H1 H2]|(k & y & H1 & H2 & H3)]; [lia|left|right].
    + split; [done|by constructor].
    + exists (S k), y. split; [lia|done].
Qed.

Lemma authname_range a name : acm_authname_to_type a name <> -1 ->
  0 <= acm_authname_to_type a name < Z.of_nat (length (Auth_Methods a)).
Proof.
  unfold acm_authname_to_type. destruct (name_to_type_spec (am_name <$> Auth_Methods a) name 0) as [[-> _]|(k & x & -> & Hk & _)]; [lia|done|].
  intros _. apply lookup_lt_Some in Hk. rewrite length_fmap in Hk. lia.
Qed.

Lemma s32_bit z k : 0 <= k < 32 -> Z.testbit (s32 z) k = Z.testbit z k.
Proof.
  intros Hk. rewrite <- (Z.mod_pow2_bits_low (s32 z) 32 k) by lia. fold (u32 (s32 z)). rewrite u32_s32. unfold u32.
  by rewrite Z.mod_pow2_bits_low by lia.
Qed.

(** A rule lets in exactly the addresses that agree with it on the prefix. *)
Lemma net_mask_spec (ip net prefix mask : Z) :
  net_mask prefix = inr mask -> 0 <= ip < 2 ^ 32 ->
  net = u32 (Z.land ip mask) <-> 0 <= net < 2 ^ 32 /\ net mod 2 ^ (32 - prefix) = 0 /\ net / 2 ^ (32 - prefix) = ip / 2 ^ (32 - prefix).
Proof.
  unfold net_mask. set (n := 32 - prefix). destruct (Z.leb_spec 0 n), (Z.ltb_spec n 32); cbn; try done. intros [= <-] Hip.
  assert (Hm : u32 (Z.land ip (s32 (Z.shiftl (Z.lnot 0) n))) = Z.shiftl (Z.shiftr ip n) n).
  { apply Z.bits_inj'. intros k Hk. rewrite Z.shiftl_spec by done. unfold u32.
    destruct (Z.lt_ge_cases k 32) as [Hlt|Hge].
    - rewrite Z.mod_pow2_bits_low by done. rewrite Z.land_spec. destruct (Z.lt_ge_cases k n) as [Hkn|Hkn].
      + rewrite (Z.testbit_neg_r _ (k - n)) by lia.
        rewrite s32_bit, Z.shiftl_spec_low by lia. by rewrite andb_false_r.
      + rewrite Z.shiftr_spec by lia. replace (k - n + n) with k by lia.
        rewrite s32_bit, Z.shiftl_spec, Z.lnot_spec, Z.bits_0 by lia. by rewrite andb_true_r.
    - rewrite Z.mod_pow2_bits_high by lia. rewrite Z.shiftr_spec by lia. replace (k - n + n) with k by lia.
      symmetry. destruct (Z.eq_dec ip 0) as [->|]; [apply Z.bits_0|]. apply Z.bits_above_log2; [lia|].
      apply Z.log2_lt_pow2; [lia|]. apply Z.lt_le_trans with (2 ^ 32); [lia|]. apply Z.pow_le_mono_r; lia. }
  rewrite Hm, Z.shiftl_mul_pow2, Z.shiftr_div_pow2 by lia. clear Hm.
  assert (Hp : 0 < 2 ^ n) by lia. pose proof (Z.div_mod ip (2 ^ n) ltac:(lia)). pose proof (Z.mod_pos_bound ip (2 ^ n) Hp). pose proof (Z.div_pos ip (2 ^ n) ltac:(lia) Hp). split.
  - intros ->. rewrite Z.mod_mul, Z.div_mul by lia. split; [nia|done].
  - intros (? & Hz & Hd). pose proof (Z.div_mod net (2 ^ n) ltac:(lia)). nia.
Qed.
End acm.
