(* ===== verification/SessAuth.v ===== *)
(** * Authorising a session ([daemon/session.c])

    The methods of a connection are run one after the other; a session is
    opened when all of them and the policy allow it, and dropped when one of
    them does not. *)

From Stdlib Require Import ZArith Lia.
From stdpp Require Import base strings numbers option gmap list sorting.
From S2P Require Import Prelude Wire Bytes Config Events EventsFd State Network FlowControl MembSets MembCore ProtSend.
From S2P Require Import Sample Retrans Requests Packing Deliver Delivery Sending EndToEnd Message Names GroupState SessState SessTable SessDir SessWrite SessStream SessServe SessDeliver SessRead SessHeader SessParse Acm.

Definition SP_MAJOR_VERSION : Z := 5.
Definition SP_MINOR_VERSION : Z := 0.
Definition SP_PATCH_VERSION : Z := 1.

(** The access control of the daemon, and the IPv4 address of a client. *)
Record auth_env : Type := mkAuthEnv { ae_acm : acm; ae_ip : ip_rules; ae_addr : Z -> option Z }.

(** A [char] that is sent. *)
Definition u8 (z : Z) : Z := z mod 256.
Definition send_bytes (mbox : Z) (bs : list Z) : MS unit := let* _ := send mbox bs in ret tt.

(** [version * 10000 + ...] of the library of the client. *)
Definition version_number (v : Z * Z * Z) : Z := v.1.1 * 10000 + v.1.2 * 100 + v.2.

(** ** The decisions *)

Definition check_preauth (site : string) (i : Z) : MS unit :=
  let* r := the_session i in
  if negb (Is_session PRE_AUTH_SESSION (s_status r)) then fail (Fatal site) else ret tt.

Definition Sess_session_denied (i : Z) : MS unit :=
  check_preauth "Sess_session_denied" i ;;
  let* r := the_session i in
  send_bytes (s_mbox r) [u8 REJECT_AUTH] ;;
  let* w := get in
  let* s := lift (drop_session i (ss w)) in
  s_do (fun _ => s).

(** The answer to the client of the session [r]. *)
Definition accept_message (r : session) (proc_name : list Z) : MS unit :=
  let mbox := s_mbox r in
  send_bytes mbox [u8 ACCEPT_SESSION] ;;
  send_bytes mbox [u8 SP_MAJOR_VERSION] ;;
  send_bytes mbox [u8 SP_MINOR_VERSION] ;;
  when (31500 <=? version_number (s_lib_version r)) (send_bytes mbox [u8 SP_PATCH_VERSION]) ;;
  let private_group_name := private_group (s_name r) proc_name in
  send_bytes mbox [u8 (Z.of_nat (length private_group_name))] ;;
  send_bytes mbox private_group_name.

Definition Sess_session_authorized (i : Z) : MS unit :=
  check_preauth "Sess_session_authorized" i ;;
  ses_do i (set_s_num_mess 0) ;;
  let* w := get in
  let r := ses (ss w) i in
  accept_message r (sx_My_name (ss w)) ;;
  attach_fd (s_mbox r) READ_FD Sess_read_fd ;;
  attach_fd (s_mbox r) EXCEPT_FD Sess_read_fd ;;
  ses_do i (fun r => set_s_status (Clear_session PRE_AUTH_SESSION (Set_session OP_SESSION (s_status r))) r) ;;
  ses_do i (fun r => set_s_write Message_reset_current_location
                       (set_s_read (set_in_mess_head 1 Message_reset_current_location) r)).

Section auth.
Context (env : auth_env).

(** [auth_open( sess_auth_p )]; the modules call [report] at once, other ones
    later. *)
Definition auth_open (report : session_auth_info -> bool -> MS unit) (f : auth_client) (p : session_auth_info) : MS unit :=
  match f with
  | Null_auth => report p true
  | Ip_auth =>
      let* ses := (if IP_File_Loaded (ae_ip env) then index_of (sa_mbox p) else ret 0) in
      let* allowed := lift (ip_allowed (ae_ip env) (ae_addr env (sa_mbox p))) in
      report p allowed
  | Module_auth id => Sess_call (Call_auth_open id (sa_mbox p))
  end.

(** Every report finishes a method: [fuel] more of them at most. *)
Fixpoint report_auth_result (fuel : nat) (p : session_auth_info) (authenticated_p : bool) : MS unit :=
  let* i := index_of (sa_mbox p) in
  if negb (legal_index i) then ret tt
  else if negb ((0 <=? sa_completed p) && (sa_completed p <? MAX_AUTH_METHODS)) then
    fail (Undefined "Sess_session_report_auth_result: required_auth_results[]")
  else
    let num_auths := Z.of_nat (length (sa_methods p)) in
    let p := mkSessionAuthInfo (sa_mbox p) (sa_completed p + 1) (sa_methods p)
               (aset (sa_results p) (sa_completed p) authenticated_p) in
    if sa_completed p <? num_auths then
      let* f := lift (Acm_auth_get_auth_client_connection (ae_acm env) (aget (-1) (sa_methods p) (sa_completed p))) in
      match f, fuel with
      | None, _ => Sess_session_denied i
      | Some f, O => fail (Diverges "Sess_session_report_auth_result")
      | Some f, S fuel => auth_open (report_auth_result fuel) f p
      end
    else
      let permit_count := Z.of_nat (length (filter (fun b : bool => b = true) (take (length (sa_methods p)) (sa_results p)))) in
      if permit_count <? num_auths then Sess_session_denied i
      else
        let* ops := lift (Acm_acp_fill_ops (ae_acm env)) in
        let* r := the_session i in
        if acp_open_connection (AccessPolicy := ops) (s_name r) then Sess_session_authorized i
        else Sess_session_denied i.
Definition Sess_session_report_auth_result : session_auth_info -> bool -> MS unit :=
  report_auth_result (Z.to_nat MAX_AUTH_METHODS).

(** The names in [auth_name], up to the first that is not allowed. *)
Fixpoint all_allowed (n : nat) (auth_name : list Z) : res bool :=
  match n with
  | O => inl (Undefined "Sess_recv_client_auth: auth_name[]")
  | S n =>
      if get_byte auth_name 0 =? 0 then inr true
      else if negb (Acm_auth_query_allowed (ae_acm env) (cstr auth_name)) then inr false
      else all_allowed n (drop (Z.to_nat MAX_AUTH_NAME) auth_name)
  end.

Definition Sess_recv_client_auth (mbox : Z) : MS unit :=
  let* i := index_of mbox in
  if negb (legal_index i) then ret tt
  else
    check_preauth "Sess_recv_client_auth" i ;;
    detach_fd mbox READ_FD ;;
    detach_fd mbox EXCEPT_FD ;;
    let* ' (k, auth_name) := recv mbox (MAX_AUTH_NAME * MAX_AUTH_METHODS) in
    if k <? MAX_AUTH_NAME * MAX_AUTH_METHODS then Sess_session_denied i
    else
      let* allowed := lift (all_allowed (Z.to_nat MAX_AUTH_METHODS) auth_name) in
      if negb allowed then Sess_session_denied i
      else
        let* _ := lift (Acm_acp_fill_ops (ae_acm env)) in
        let* p := lift (Acm_auth_create_sess_info (ae_acm env) mbox auth_name) in
        match p with
        | None => Sess_session_denied i
        | Some p =>
            let* f := lift (Acm_auth_get_auth_client_connection (ae_acm env) (aget (-1) (sa_methods p) 0)) in
            match f with
            | None => Sess_session_denied i
            | Some f => auth_open Sess_session_report_auth_result f p
            end
        end.
End auth.

(* --------------------------------------------------------------------- *)
(** ** The decision *)

(** The names a client listed, at most as many as the buffer holds. *)
Fixpoint listed (n : nat) (auth_name : list Z) : list (list Z) :=
  match n with
  | O => []
  | S n => if get_byte auth_name 0 =? 0 then [] else cstr auth_name :: listed n (drop (Z.to_nat MAX_AUTH_NAME) auth_name)
  end.

Section decision.
Context (env : auth_env).
#[local] Abbreviation a := (ae_acm env).

(** What a module reports of the client [mbox]. *)
Definition passes (mbox : Z) (f : auth_client) : bool :=
  match f with
  | Null_auth => true
  | Ip_auth => match ip_allowed (ae_ip env) (ae_addr env mbox) with inr b => b | inl _ => false end
  | Module_auth _ => false
  end.
Definition type_passes (mbox type : Z) : bool :=
  match am_ops (method a type) with Some f => passes mbox f | None => false end.

(** The modules are those that report at once, the prefixes are lengths, and
    there is a policy. *)
Record env_ok : Prop := mkEnvOk {
  en_methods : Z.of_nat (length (Auth_Methods a)) <= MAX_AUTH_METHODS;
  en_ops : Forall (fun m => am_ops m = Some Null_auth \/ am_ops m = Some Ip_auth) (Auth_Methods a);
  en_rules : Forall (fun r => 1 <= r.2 <= 32) (Allow_Rules (ae_ip env));
  en_policy : exists ops, Acm_acp_fill_ops a = inr ops;
}.

Definition policy_opens (name : list Z) : bool :=
  match Acm_acp_fill_ops a with inr ops => acp_open_connection (AccessPolicy := ops) name | inl _ => false end.

(** Whether a client with these names in its answer is let in. *)
Definition admitted (mbox : Z) (name auth_name : list Z) : bool :=
  let ns := listed (Z.to_nat MAX_AUTH_METHODS) auth_name in
  negb (Z.of_nat (length ns) =? 0)
  && forallb (Acm_auth_query_allowed a) ns
  && forallb (fun n => type_passes mbox (acm_authname_to_type a n)) ns
  && forallb (fun i => negb (am_required (method a i)) || type_passes mbox i) (seqZ 0 (Z.of_nat (length (Auth_Methods a))))
  && policy_opens name.

Context (Henv : env_ok).
Implicit Types (w : sess_world) (p : session_auth_info).

Lemma method_known i : 0 <= i < Z.of_nat (length (Auth_Methods a)) ->
  exists f, am_ops (method a i) = Some f /\ (f = Null_auth \/ f = Ip_auth) /\
    Acm_auth_get_auth_client_connection a i = inr (Some f).
Proof.
  intros Hi. pose proof (en_methods Henv). destruct (lookup_lt_is_Some_2 (Auth_Methods a) (Z.to_nat i)) as [m Hm]; [lia|].
  assert (Hme : method a i = m) by (unfold method, aget; rewrite (proj2 (Z.ltb_ge _ _)), Hm by lia; done).
  pose proof (Forall_lookup_1 _ _ _ _ (en_ops Henv) Hm) as Hops. unfold Acm_auth_get_auth_client_connection.
  rewrite Hme, (proj2 (Z.leb_le 0 i)), (proj2 (Z.ltb_lt i _)) by lia. cbn.
  destruct Hops as [-> | ->]; eexists; (split; [done|]; split; [|done]); tauto.
Qed.

Lemma ip_allowed_ok addr : exists b, ip_allowed (ae_ip env) addr = inr b.
Proof.
  unfold ip_allowed. destruct (IP_File_Loaded _); cbn; [|by eexists]. destruct addr as [ip|]; [|by eexists].
  induction (en_rules Henv) as [|[net prefix] l Hr Hl IH]; cbn; [by eexists|]. cbn in Hr. unfold net_mask.
  rewrite (proj2 (Z.leb_le 0 _)), (proj2 (Z.ltb_lt _ 32)) by lia. cbn. case_match; [by eexists|done].
Qed.

Lemma required_filter l : forall i methods,
  NoDup methods -> Forall (fun t => 0 <= t < i + Z.of_nat (length l)) methods -> i + Z.of_nat (length l) <= MAX_AUTH_METHODS -> 0 <= i ->
  exists methods', add_required l i methods = inr methods' /\ NoDup methods' /\
    Forall (fun t => 0 <= t < i + Z.of_nat (length l)) methods' /\
    (exists ms, methods' = methods ++ ms) /\
    forall t, t ∈ methods' <-> t ∈ methods \/ exists m, i <= t /\ l !! Z.to_nat (t - i) = Some m /\ am_required m = true.
Proof.
  induction l as [|m l IH]; intros i methods Hnd Hall Hmax Hi; cbn [add_required].
  { exists methods. split; [done|]. split; [done|]. split; [done|]. split; [by exists []; rewrite app_nil_r|]. intros t.
    split; [by left|]. intros [?|(m & _ & [=] & _)]; done. }
  cbn [length] in *.
  assert (Hin : forall t, (exists m0, i <= t /\ (m :: l) !! Z.to_nat (t - i) = Some m0 /\ am_required m0 = true) <->
    (t = i /\ am_required m = true) \/ exists m0, i + 1 <= t /\ l !! Z.to_nat (t - (i + 1)) = Some m0 /\ am_required m0 = true).
  { intros t. destruct (decide (t = i)) as [->|Hne].
    - rewrite Z.sub_diag. cbn. split; [intros (m0 & _ & [= <-] & ?); by left|]. intros [[_ ?]|(m0 & ? & _)]; [by exists m|lia].
    - split.
      + intros (m0 & Ht & Hl & Hr). right. exists m0. replace (Z.to_nat (t - i)) with (S (Z.to_nat (t - (i + 1)))) in Hl by lia.
        split; [lia|done].
      + intros [[? _]|(m0 & Ht & Hl & Hr)]; [done|]. exists m0. replace (Z.to_nat (t - i)) with (S (Z.to_nat (t - (i + 1)))) by lia.
        split; [lia|done]. }
  case_match eqn:Hc.
  - apply andb_true_iff in Hc as [Hr Hni%negb_true_iff%bool_decide_eq_false].
    assert (Hshort : Z.of_nat (length methods) < MAX_AUTH_METHODS).
    { assert (Hsub : i :: methods ⊆ seqZ 0 (i + Z.of_nat (S (length l)))).
      { intros t [->|Ht]%elem_of_cons; apply elem_of_seqZ; [lia|]. rewrite Forall_forall in Hall. apply Hall in Ht. lia. }
      apply NoDup_submseteq, submseteq_length in Hsub; [|by constructor]. rewrite length_seqZ in Hsub. cbn [length] in Hsub. lia. }
    rewrite (proj2 (Z.leb_gt _ _)) by done.
    destruct (IH (i + 1) (methods ++ [i])) as (ms & -> & H1 & H2 & (ms' & ->) & H3); [|by replace (i + 1 + Z.of_nat (length l)) with (i + Z.of_nat (S (length l))) by lia; apply Forall_app; split; [done|constructor; [lia|done]]|lia|lia|].
    { apply NoDup_app. split; [done|]. split; [|apply NoDup_singleton]. by intros t Ht ->%list_elem_of_singleton. }
    eexists. split; [done|]. split; [done|]. replace (i + Z.of_nat (S (length l))) with (i + 1 + Z.of_nat (length l)) by lia.
    split; [done|]. split; [exists ([i] ++ ms'); by rewrite app_assoc|]. intros t. rewrite H3, Hin, elem_of_app, list_elem_of_singleton. tauto.
  - destruct (IH (i + 1) methods) as (ms & Hms & H1 & H2 & H4 & H3); [done|by replace (i + 1 + Z.of_nat (length l)) with (i + Z.of_nat (S (length l))) by lia|lia|lia|].
    exists ms. split; [done|]. split; [done|]. replace (i + Z.of_nat (S (length l))) with (i + 1 + Z.of_nat (length l)) by lia.
    split; [done|]. split; [done|]. intros t. rewrite H3, Hin. apply andb_false_iff in Hc. rewrite negb_false_iff, bool_decide_eq_true in Hc.
    destruct Hc as [Hc|Hc]; [rewrite Hc; intuition congruence|]. intuition congruence.
Qed.

(** The names, and the methods they stand for. *)
Lemma listed_types : forall n auth_name methods,
  (length (listed n auth_name) < n)%nat ->
  all_allowed env n auth_name = inr (forallb (Acm_auth_query_allowed a) (listed n auth_name)) /\
  (forallb (Acm_auth_query_allowed a) (listed n auth_name) = true ->
   requested n a auth_name methods = inr (methods ++ (acm_authname_to_type a <$> listed n auth_name)) /\
   Forall (fun t => 0 <= t < Z.of_nat (length (Auth_Methods a))) (acm_authname_to_type a <$> listed n auth_name)).
Proof.
  induction n as [|n IH]; intros auth_name methods Hl; [cbn in Hl; lia|]. cbn [all_allowed requested listed] in *.
  destruct (get_byte auth_name 0 =? 0); [by rewrite app_nil_r|]. cbn [length] in Hl.
  destruct (IH (drop (Z.to_nat MAX_AUTH_NAME) auth_name) (methods ++ [acm_authname_to_type a (cstr auth_name)])) as [H1 H2]; [lia|].
  cbn [forallb fmap list_fmap]. destruct (Acm_auth_query_allowed a (cstr auth_name)) eqn:Hq; cbn [negb andb]; [|by split].
  split; [done|]. intros Hall. destruct (H2 Hall) as [H3 H4]. unfold Acm_auth_query_allowed in Hq.
  pose proof (authname_range a (cstr auth_name)) as Hr. destruct (Z.eqb_spec (acm_authname_to_type a (cstr auth_name)) (-1)) as [|Hne]; [done|].
  rewrite Hq, H3, <- app_assoc. split; [done|]. constructor; [by apply Hr|done].
Qed.

Context (l1 l2 : list Z) (i : Z).

(** The methods that are left all pass. *)
Definition opens w (p : session_auth_info) (b : bool) : bool :=
  forallb (fun b : bool => b) (take (Z.to_nat (sa_completed p)) (sa_results p) ++ b ::
    (type_passes (sa_mbox p) <$> drop (S (Z.to_nat (sa_completed p))) (sa_methods p))) && policy_opens (s_name (ses (ss w) i)).

Lemma open_now w (report : session_auth_info -> bool -> MS unit) f p :
  table_ok (ss w) (l1 ++ i :: l2) -> sa_mbox p = s_mbox (ses (ss w) i) -> f = Null_auth \/ f = Ip_auth ->
  auth_open env report f p w = report p (passes (sa_mbox p) f) w.
Proof.
  intros Ht Hm [-> | ->]; [done|]. unfold auth_open, passes.
  assert (Hidx : index_of (sa_mbox p) w = Done i w).
  { unfold index_of, lift. rewrite Hm, (index_known _ _ _ Ht); [done|]. apply elem_of_mid. by left. }
  destruct (ip_allowed_ok (ae_addr env (sa_mbox p))) as [b Hb]. unfold bind, lift. rewrite Hb.
  destruct (IP_File_Loaded (ae_ip env)); [by rewrite Hidx|done].
Qed.

Lemma filter_true_length (l : list bool) :
  (Z.of_nat (length (filter (fun b : bool => b = true) l)) <? Z.of_nat (length l)) = negb (forallb (fun b : bool => b) l).
Proof.
  pose proof (length_filter (fun b : bool => b = true) l) as Hle. induction l as [|b l IH]; [done|]. rewrite filter_cons. cbn [forallb].
  pose proof (length_filter (fun b : bool => b = true) l) as Hle'. specialize (IH Hle').
  destruct b; cbn [andb negb].
  - rewrite decide_True by done. cbn [length]. rewrite <- IH. destruct (Z.ltb_spec (Z.of_nat (length (filter (λ b : bool, b = true) l))) (Z.of_nat (length l))), (Z.ltb_spec (Z.of_nat (S (length (filter (λ b : bool, b = true) l)))) (Z.of_nat (S (length l)))); lia || done.
  - rewrite decide_False by done. cbn [length]. by rewrite (proj2 (Z.ltb_lt _ _)) by lia.
Qed.

(** The results so far, with the one reported now. *)
Lemma results_so_far (rs : list bool) (c : Z) b :
  0 <= c < Z.of_nat (length rs) -> take (Z.to_nat (c + 1)) (aset rs c b) = take (Z.to_nat c) rs ++ [b].
Proof.
  intros Hc. unfold aset. rewrite (proj2 (Z.ltb_ge c 0)) by lia. replace (Z.to_nat (c + 1)) with (S (Z.to_nat c)) by lia.
  rewrite (take_S_r _ _ b) by (apply list_lookup_insert_eq; lia). by rewrite take_insert_ge by lia.
Qed.

(** A connection whose methods are known. *)
Record info_ok w (p : session_auth_info) : Prop := mkInfoOk {
  io_table : table_ok (ss w) (l1 ++ i :: l2);
  io_mbox : sa_mbox p = s_mbox (ses (ss w) i);
  io_results : length (sa_results p) = 3%nat;
  io_completed : 0 <= sa_completed p < Z.of_nat (length (sa_methods p));
  io_max : Z.of_nat (length (sa_methods p)) <= MAX_AUTH_METHODS;
  io_methods : Forall (fun t => 0 <= t < Z.of_nat (length (Auth_Methods a))) (sa_methods p);
}.

Lemma report_once fuel p b w :
  info_ok w p ->
  let c := sa_completed p + 1 in
  report_auth_result env fuel p b w =
    (if c <? Z.of_nat (length (sa_methods p)) then
       let* f := lift (Acm_auth_get_auth_client_connection a (aget (-1) (sa_methods p) c)) in
       match f, fuel with
       | None, _ => Sess_session_denied i
       | Some f, O => fail (Diverges "Sess_session_report_auth_result")
       | Some f, S fuel => auth_open env (report_auth_result env fuel) f
           (mkSessionAuthInfo (sa_mbox p) c (sa_methods p) (aset (sa_results p) (sa_completed p) b))
       end
     else if opens w p b then Sess_session_authorized i else Sess_session_denied i) w.
Proof.
  intros [Ht Hm Hres Hc Hmax Hall]. cbv zeta. change MAX_AUTH_METHODS with 3 in Hmax.
  assert (Hidx : index_of (sa_mbox p) w = Done i w).
  { unfold index_of, lift. rewrite Hm, (index_known _ _ _ Ht); [done|apply elem_of_mid; by left]. }
  destruct (table_range _ _ i Ht) as [Hi0 Hi1]; [apply elem_of_mid; by left|].
  destruct fuel; cbn [report_auth_result]; unfold bind at 1; rewrite Hidx; unfold legal_index;
    rewrite (proj2 (Z.leb_le 0 i)), (proj2 (Z.ltb_lt i _)), (proj2 (Z.leb_le 0 _)), (proj2 (Z.ltb_lt _ MAX_AUTH_METHODS))
      by (change MAX_AUTH_METHODS with 3; lia);
    cbn [andb negb sa_completed sa_methods sa_mbox sa_results];
    (destruct (Z.ltb_spec (sa_completed p + 1) (Z.of_nat (length (sa_methods p)))); [done|]).
  all: assert (Hlm : length (sa_methods p) = Z.to_nat (sa_completed p + 1)) by lia;
    rewrite Hlm, results_so_far by lia.
  all: replace (Z.to_nat (sa_completed p + 1)) with (length (take (Z.to_nat (sa_completed p)) (sa_results p) ++ [b]))
    by (rewrite length_app, length_take; cbn; lia).
  all: destruct (en_policy Henv) as [ops Hops]; rewrite filter_true_length; unfold opens; rewrite drop_ge by lia;
    cbn [fmap list_fmap]; destruct (forallb _ _); cbn [negb andb]; [|done]; unfold bind, lift, the_session, gets, policy_opens; by rewrite Hops.
Qed.

Lemma report_run : forall fuel p b w,
  info_ok w p -> Z.of_nat (length (sa_methods p)) <= Z.of_nat fuel + sa_completed p + 1 ->
  report_auth_result env fuel p b w = (if opens w p b then Sess_session_authorized i else Sess_session_denied i) w.
Proof.
  induction fuel as [|fuel IH]; intros p b w Hp Hfuel; rewrite report_once by done; pose proof Hp as [Ht Hm Hres Hc Hmax Hall];
    destruct (Z.ltb_spec (sa_completed p + 1) (Z.of_nat (length (sa_methods p)))) as [Hmore|Hend]; [lia|done| |done].
  set (c := sa_completed p) in *. set (rs := aset (sa_results p) c b).
  destruct (lookup_lt_is_Some_2 (sa_methods p) (Z.to_nat (c + 1))) as [t Ht']; [lia|].
  pose proof (Forall_lookup_1 _ _ _ _ Hall Ht') as Htr. destruct (method_known t Htr) as (f & Hf & Hff & Hget).
  unfold aget. rewrite (proj2 (Z.ltb_ge _ _)), Ht' by lia. cbn [default from_option id]. unfold bind, lift. rewrite Hget.
  rewrite open_now by done. cbn [sa_mbox]. rewrite IH; [|constructor; cbn [sa_mbox sa_results sa_completed sa_methods]; try done; [unfold rs; by rewrite aset_length|lia]|cbn [sa_completed sa_methods]; lia].
  assert (Ho : opens w (mkSessionAuthInfo (sa_mbox p) (c + 1) (sa_methods p) rs) (passes (sa_mbox p) f) = opens w p b); [|by rewrite Ho].
  unfold opens. cbn [sa_mbox sa_results sa_completed sa_methods]. fold c. change MAX_AUTH_METHODS with 3 in *. unfold rs.
  rewrite results_so_far, <- app_assoc by lia. cbn [app]. do 4 f_equal.
  replace (S (Z.to_nat c)) with (Z.to_nat (c + 1)) by lia. rewrite (drop_S _ t (Z.to_nat (c + 1))) by done. cbn [fmap list_fmap].
  f_equal. unfold type_passes. by rewrite Hf.
Qed.

(** ** What is sent and watched *)

(** Only what was sent and what is watched differ. *)
Definition same_but_out (w w' : sess_world) : Prop :=
  set_so_send [] (set_so_out ∅ (ss w')) = set_so_send [] (set_so_out ∅ (ss w)).
#[export] Instance same_but_out_preorder : PreOrder same_but_out.
Proof. split; [by intros w|]. unfold same_but_out. intros w1 w2 w3. congruence. Qed.

Lemma out_ses w w' j : same_but_out w w' -> ses (ss w') j = ses (ss w) j.
Proof. intros H. unfold ses. by injection H as ->. Qed.

Lemma send_out mbox bs : keeps same_but_out never (send_bytes mbox bs).
Proof.
  intros w. unfold send_bytes, send. apply wp_bind, wp_bind, wp_get, wp_bind, wp_modify, wp_if; intros _.
  - by apply wp_ret, wp_ret.
  - by apply wp_bind, wp_modify, wp_ret, wp_ret.
Qed.
Lemma accept_out r proc_name : keeps same_but_out never (accept_message r proc_name).
Proof.
  unfold accept_message. cbv zeta.
  repeat (apply keeps_bind; [apply _|first [apply send_out|apply keeps_when; [apply _|intros _; apply send_out]]|intros _]).
  apply send_out.
Qed.
Lemma attach_out mbox t f : keeps same_but_out never (attach_fd mbox t f).
Proof.
  intros w. unfold attach_fd. apply wp_bind. eapply wp_mono; [apply fd_call, attach_time| |done].
  intros r w1 (Hs & _). apply wp_ret. unfold same_but_out. by rewrite Hs.
Qed.
Lemma detach_out mbox t : keeps same_but_out never (detach_fd mbox t).
Proof.
  intros w. unfold detach_fd. apply wp_bind. eapply wp_mono; [apply fd_call, detach_time| |done].
  intros r w1 (Hs & _). apply wp_ret. unfold same_but_out. by rewrite Hs.
Qed.

(** A computation that begins with a step that only sends or watches. *)
Lemma out_then {A} (m : MS A) {B} (k : A -> MS B) Q E w :
  keeps same_but_out never m -> (forall v w1, same_but_out w w1 -> wp (k v) Q E w1) -> wp (bind m k) Q E w.
Proof. intros Hm Hk. apply wp_bind. eapply wp_mono; [apply Hm| |done]. intros v w1 H1. by apply Hk. Qed.

Lemma preauth_ok site w : Is_session PRE_AUTH_SESSION (s_status (ses (ss w) i)) = true -> check_preauth site i w = Done tt w.
Proof. intros H. unfold check_preauth, bind, the_session, gets. by rewrite H. Qed.

(** ** The two ends *)

(** The session is open and waits for a message. *)
Definition opened w w' : Prop :=
  table_ok (ss w') (l1 ++ i :: l2) /\ Is_session OP_SESSION (s_status (ses (ss w') i)) = true /\
  Is_session PRE_AUTH_SESSION (s_status (ses (ss w') i)) = false /\ reading i (ss w') [] /\
  s_mbox (ses (ss w') i) = s_mbox (ses (ss w) i) /\ s_name (ses (ss w') i) = s_name (ses (ss w) i) /\
  so_closed (ss w') = so_closed (ss w) /\ (forall j, j <> i -> ses (ss w') j = ses (ss w) j).
(** The session is gone, and its socket closed. *)
Definition dropped w w' : Prop :=
  table_ok (ss w') (l1 ++ l2) /\ so_closed (ss w') = so_closed (ss w) ++ [s_mbox (ses (ss w) i)] /\
  (forall j, j ∈ l1 ++ l2 -> entry (ses (ss w') j) = entry (ses (ss w) j)).

Lemma status_bits t : Is_session OP_SESSION (Clear_session PRE_AUTH_SESSION (Set_session OP_SESSION t)) = true /\
  Is_session PRE_AUTH_SESSION (Clear_session PRE_AUTH_SESSION (Set_session OP_SESSION t)) = false.
Proof.
  unfold Is_session, Clear_session, Set_session. rewrite land_clear_out by done.
  rewrite truth_true, truth_false. split.
  - intros H. apply (f_equal (fun x => Z.testbit x 4)) in H. rewrite Z.land_spec, Z.lor_spec, orb_true_r in H. done.
  - apply Z.bits_inj'. intros k Hk. rewrite !Z.land_spec, Z.lnot_spec, Z.bits_0 by done. destruct (Z.testbit PRE_AUTH_SESSION k); [|by rewrite andb_false_r].
    by rewrite andb_false_r.
Qed.

Lemma authorized_spec w :
  table_ok (ss w) (l1 ++ i :: l2) -> Is_session PRE_AUTH_SESSION (s_status (ses (ss w) i)) = true -> s_read_mess (ses (ss w) i) = None ->
  wp (Sess_session_authorized i) (fun _ => opened w) never w.
Proof.
  intros Ht Hpre Hrm. unfold Sess_session_authorized. apply wp_bind. unfold wp at 1. rewrite preauth_ok by done.
  apply wp_bind, wp_modify. set (w1 := mkSessWorld _ _ _). apply wp_bind, wp_get. cbv zeta.
  apply out_then; [apply accept_out|intros [] w2a H2]. apply out_then; [apply attach_out|intros [] w2b H3].
  apply out_then; [apply attach_out|intros [] w2 H4].
  assert (Ho : same_but_out w1 w2) by (etransitivity; [exact H2|]; by etransitivity).
  apply wp_bind, wp_modify, wp_modify. cbn [ss core].
  assert (Hj : forall j, ses (ss w2) j = if decide (j = i) then set_s_num_mess 0 (ses (ss w) i) else ses (ss w) j).
  { intros j. rewrite (out_ses _ _ j Ho). cbn [ss w1]. rewrite ses_upd. by case_decide; subst. }
  pose proof (Hj i) as Hi. rewrite decide_True in Hi by done. unfold opened. cbn [ss]. rewrite !ses_upd, !decide_True, Hi by done.
  split; [|split; [|split; [|split; [|split; [done|split; [done|split; [|]]]]]]].
  - eapply table_same; [| |exact Ht].
    + intros j. rewrite !ses_upd. destruct (decide (j = i)) as [->|Hne]; [by rewrite !decide_True, Hi|by rewrite !Hj, !decide_False].
    + unfold table_vars, upd. cbn [Sessions_hash_head Sessions_head Sessions_tail Sessions_free Num_sessions set_Sessions].
      injection Ho. cbn. congruence.
  - apply status_bits.
  - apply status_bits.
  - unfold reading. rewrite !ses_upd, !decide_True, Hi by done. cbn. by rewrite Hrm.
  - cbn. injection Ho. cbn. congruence.
  - intros j Hne. by rewrite !ses_upd, !decide_False, Hj, decide_False.
Qed.

Lemma denied_spec w :
  table_ok (ss w) (l1 ++ i :: l2) -> Is_session PRE_AUTH_SESSION (s_status (ses (ss w) i)) = true ->
  wp (Sess_session_denied i) (fun _ => dropped w) never w.
Proof.
  intros Ht Hpre. unfold Sess_session_denied. apply wp_bind. unfold wp at 1. rewrite preauth_ok by done. apply wp_bind, wp_gets.
  apply out_then; [apply send_out|intros [] w1 Ho]. apply wp_bind, wp_get, wp_bind.
  assert (Hse : forall j, ses (ss w1) j = ses (ss w) j) by (intros j; by apply out_ses).
  assert (Ht1 : table_ok (ss w1) (l1 ++ i :: l2)).
  { eapply table_same; [intros j; by rewrite Hse| |exact Ht]. injection Ho. unfold table_vars. congruence. }
  destruct (drop_ok _ _ _ _ Ht1) as (s' & Hs' & Hok & He & Hc). unfold wp at 1, lift. rewrite Hs'. apply wp_modify.
  split; [done|]. cbn [ss]. split; [rewrite Hc, Hse; injection Ho; congruence|]. intros j Hj. by rewrite He, Hse.
Qed.

(** All of the answer came at once. *)
Definition answered w : bool :=
  (MAX_AUTH_NAME * MAX_AUTH_METHODS <=? next_result (so_recv (ss w)))
  && (MAX_AUTH_NAME * MAX_AUTH_METHODS <=? Z.of_nat (length (in_bytes (ss w) (s_mbox (ses (ss w) i))))).
Definition auth_answer w : list Z :=
  take (Z.to_nat (MAX_AUTH_NAME * MAX_AUTH_METHODS)) (in_bytes (ss w) (s_mbox (ses (ss w) i))).

Lemma recv_answer w mbox :
  mbox = s_mbox (ses (ss w) i) ->
  wp (recv mbox (MAX_AUTH_NAME * MAX_AUTH_METHODS))
    (fun '(k, bs) _ => (k <? MAX_AUTH_NAME * MAX_AUTH_METHODS) = negb (answered w) /\ (answered w = true -> bs = auth_answer w)) never w.
Proof.
  intros ->. unfold recv, answered, auth_answer. change (MAX_AUTH_NAME * MAX_AUTH_METHODS) with 90. set (k := next_result _).
  set (l := in_bytes _ _). apply wp_bind, wp_get, wp_bind, wp_modify. fold k l. apply wp_if; intros Hk.
  - apply Z.leb_le in Hk. apply wp_ret. cbv beta iota. rewrite (proj2 (Z.leb_gt 90 k)), (proj2 (Z.ltb_lt k 90)) by lia. done.
  - apply Z.leb_gt in Hk. assert (Hlen : Z.of_nat (length (take (Z.to_nat (Z.min k 90)) l)) = Z.min (Z.min k 90) (Z.of_nat (length l))) by (rewrite length_take; lia).
    apply wp_if; intros Hz.
    + apply Z.eqb_eq in Hz. apply wp_ret. cbn. rewrite (proj2 (Z.leb_gt 90 (Z.of_nat (length l)))), andb_false_r by lia. done.
    + apply wp_bind, wp_modify, wp_ret. cbv beta iota. rewrite Hlen. split.
      * destruct (Z.leb_spec 90 k), (Z.leb_spec 90 (Z.of_nat (length l))), (Z.ltb_spec (Z.min (Z.min k 90) (Z.of_nat (length l))) 90); (done || lia).
      * intros [H1%Z.leb_le H2%Z.leb_le]%andb_true_iff. by replace (Z.min k 90) with 90 by lia.
Qed.

(** The decision is that of the specification. *)
Lemma admitted_run w w1 auth_name :
  let mbox := s_mbox (ses (ss w) i) in
  table_ok (ss w1) (l1 ++ i :: l2) -> s_mbox (ses (ss w1) i) = mbox -> s_name (ses (ss w1) i) = s_name (ses (ss w) i) ->
  (length (listed (Z.to_nat MAX_AUTH_METHODS) auth_name) < 3)%nat -> NoDup (acm_authname_to_type a <$> listed (Z.to_nat MAX_AUTH_METHODS) auth_name) ->
  (let* allowed := lift (all_allowed env (Z.to_nat MAX_AUTH_METHODS) auth_name) in
   if negb allowed then Sess_session_denied i
   else
     let* _ := lift (Acm_acp_fill_ops a) in
     let* p := lift (Acm_auth_create_sess_info a mbox auth_name) in
     match p with
     | None => Sess_session_denied i
     | Some p =>
         let* f := lift (Acm_auth_get_auth_client_connection a (aget (-1) (sa_methods p) 0)) in
         match f with
         | None => Sess_session_denied i
         | Some f => auth_open env (Sess_session_report_auth_result env) f p
         end
     end) w1
  = (if admitted mbox (s_name (ses (ss w) i)) auth_name then Sess_session_authorized i else Sess_session_denied i) w1.
Proof.
  intros mbox Ht Hm Hn Hlt Hnd. change (Z.to_nat MAX_AUTH_METHODS) with 3%nat in *.
  destruct (listed_types 3 auth_name [] Hlt) as [H1 H2]. unfold admitted. change (Z.to_nat MAX_AUTH_METHODS) with 3%nat.
  set (ns := listed 3 auth_name) in *. unfold bind at 1, lift at 1. rewrite H1.
  destruct (forallb (Acm_auth_query_allowed a) ns) eqn:Hq; cbn [negb]; [|by rewrite andb_false_r].
  destruct (en_policy Henv) as [ops Hops]. unfold bind at 1, lift at 1. rewrite Hops. destruct (H2 eq_refl) as [Hreq Hrange].
  unfold Acm_auth_create_sess_info. change (Z.to_nat MAX_AUTH_METHODS) with 3%nat. rewrite Hreq. cbn [rbind app]. rewrite length_fmap.
  unfold bind at 1, lift at 1. destruct (Z.eqb_spec (Z.of_nat (length ns)) 0) as [Hz|Hnz]; cbn [negb andb]; [done|].
  pose proof (en_methods Henv) as Hmax.
  destruct (required_filter (Auth_Methods a) 0 (acm_authname_to_type a <$> ns)) as (ms & Hms & Hmnd & Hmr & [ms' Hmp] & Hmin); [done|done|lia|lia|].
  rewrite Hms. cbn [rbind sa_methods].
  assert (Hlen : 0 < Z.of_nat (length ms) <= 3).
  { split; [rewrite Hmp, length_app, length_fmap; lia|]. change MAX_AUTH_METHODS with 3 in Hmax.
    assert (Hsub : ms ⊆ seqZ 0 (Z.of_nat (length (Auth_Methods a)))) by (intros t Ht'; apply elem_of_seqZ; rewrite Forall_forall in Hmr; apply Hmr in Ht'; lia).
    apply NoDup_submseteq, submseteq_length in Hsub; [|done]. rewrite length_seqZ in Hsub. lia. }
  destruct ms as [|t ms]; [cbn in Hlen; lia|]. pose proof Hmr as [Htr _]%Forall_cons. destruct (method_known t ltac:(lia)) as (f & Hf & Hff & Hget).
  change (aget (-1) (t :: ms) 0) with t. unfold bind, lift. rewrite Hget, (open_now w1) by done. cbn [sa_mbox].
  unfold Sess_session_report_auth_result. rewrite report_run; [|constructor; cbn [sa_mbox sa_results sa_completed sa_methods]; change MAX_AUTH_METHODS with 3; done || lia|cbn [sa_completed sa_methods]; change MAX_AUTH_METHODS with 3; lia].
  assert (Ho : opens w1 (mkSessionAuthInfo mbox 0 (t :: ms) [false; false; false]) (passes mbox f) = forallb (type_passes mbox) (t :: ms) && policy_opens (s_name (ses (ss w) i))).
  { unfold opens. cbn [sa_mbox sa_results sa_completed sa_methods Z.to_nat take app drop]. rewrite Hn. f_equal.
    assert (Hpt : passes mbox f = type_passes mbox t) by (unfold type_passes; by rewrite Hf). rewrite Hpt. clear.
    change (forallb (fun b : bool => b) (type_passes mbox <$> t :: ms) = forallb (type_passes mbox) (t :: ms)).
    generalize (t :: ms). intros l. induction l as [|t' l IH]; [done|]. cbn [fmap list_fmap forallb]. by rewrite <- IH. }
  rewrite Ho. clear Ho. enough (Heq : forallb (type_passes mbox) (t :: ms) =
    forallb (fun n => type_passes mbox (acm_authname_to_type a n)) ns
    && forallb (fun i => negb (am_required (method a i)) || type_passes mbox i) (seqZ 0 (Z.of_nat (length (Auth_Methods a)))))
    by by rewrite Heq.
  apply Bool.eq_iff_eq_true. rewrite andb_true_iff, !forallb_forall. setoid_rewrite <- list_elem_of_In. split.
  - intros H. split.
    + intros n Hin. apply H, Hmin. left. by apply (list_elem_of_fmap_2 (acm_authname_to_type a)).
    + intros j [Hj1 Hj2]%elem_of_seqZ. destruct (am_required (method a j)) eqn:Hr; [cbn|done]. apply H, Hmin. right.
      exists (method a j). split; [lia|]. split; [|done]. destruct (lookup_lt_is_Some_2 (Auth_Methods a) (Z.to_nat j)) as [m Hlk]; [lia|].
      rewrite Z.sub_0_r, Hlk. unfold method, aget. by rewrite (proj2 (Z.ltb_ge _ _)), Hlk by lia.
  - intros [Hl Hr] t' [(n & -> & Hin)%list_elem_of_fmap|(m & Ht0 & Hlk & Hreqd)]%Hmin; [by apply Hl|].
    rewrite Z.sub_0_r in Hlk. specialize (Hr t'). rewrite elem_of_seqZ in Hr.
    assert (Hme : method a t' = m) by (unfold method, aget; by rewrite (proj2 (Z.ltb_ge _ _)), Hlk by lia).
    apply lookup_lt_Some in Hlk. rewrite Hme, Hreqd in Hr. cbn in Hr. apply Hr. lia.
Qed.

(** C25: who is let in.  For a session of the table that was not authorised
    yet, whose client lists at most two different methods: the session is
    opened, and then waits for a message, exactly when the answer of the
    client came whole, names at least one method, only methods that are
    enabled, every one of them and every required one passes, and the policy
    allows it; otherwise the session is dropped and its socket closed.  The
    other sessions stay. *)
Theorem client_auth_decides w :
  let r := ses (ss w) i in
  let names := listed (Z.to_nat MAX_AUTH_METHODS) (auth_answer w) in
  table_ok (ss w) (l1 ++ i :: l2) -> Is_session PRE_AUTH_SESSION (s_status r) = true -> s_read_mess r = None ->
  (length names < 3)%nat -> NoDup (acm_authname_to_type a <$> names) ->
  wp (Sess_recv_client_auth env (s_mbox r))
    (fun _ => if answered w && admitted (s_mbox r) (s_name r) (auth_answer w) then opened w else dropped w) never w.
Proof.
  intros r names Ht Hpre Hrm Hlt Hnd. unfold Sess_recv_client_auth.
  assert (Hidx : index_of (s_mbox r) w = Done i w).
  { unfold index_of, lift, r. rewrite (index_known _ _ _ Ht); [done|apply elem_of_mid; by left]. }
  apply wp_bind. unfold wp at 1. rewrite Hidx.
  destruct (table_range _ _ i Ht) as [Hi0 Hi1]; [apply elem_of_mid; by left|]. unfold legal_index.
  rewrite (proj2 (Z.leb_le 0 i)), (proj2 (Z.ltb_lt i _)) by lia. cbn [andb negb]. apply wp_bind. unfold wp at 1. rewrite preauth_ok by done.
  apply out_then; [apply detach_out|intros [] w1 Ho1]. apply out_then; [apply detach_out|intros [] w2 Ho2].
  assert (Ho : same_but_out w w2) by (by etransitivity).
  assert (Hin2 : answered w2 = answered w /\ auth_answer w2 = auth_answer w /\ r = ses (ss w2) i).
  { unfold answered, auth_answer, in_bytes, r. rewrite (out_ses _ _ i Ho). injection Ho as ? ? ? ? ? ? ? ? ? Hsi Hsr. rewrite Hsi, Hsr. done. }
  destruct Hin2 as (<- & Ha & Hr2). rewrite <- Ha. unfold names in *. rewrite <- Ha in Hlt, Hnd. clear Ha names. apply wp_bind.
  eapply wp_mono; [eapply wp_and; [by apply (recv_answer w2); rewrite Hr2|by apply (recv_spec i)]| |done].
  intros [k bs] w3 [[Hk Hbs] (Htk & Hs3 & _)]. cbv beta iota. rewrite Hk.
  assert (Ht3 : table_ok (ss w3) (l1 ++ i :: l2)).
  { eapply table_same; [| |exact Ht].
    - intros j. destruct (decide (j = i)) as [->|Hne]; [by rewrite Hs3, (out_ses _ _ _ Ho)|by rewrite (tk_others _ _ _ _ _ _ Htk), (out_ses _ _ _ Ho)].
    - pose proof (tk_table _ _ _ _ _ _ Htk) as Htt. injection Htt. injection Ho. unfold table_vars. congruence. }
  assert (Hses : forall j, ses (ss w3) j = ses (ss w) j).
  { intros j. destruct (decide (j = i)) as [->|Hne]; [by rewrite Hs3, (out_ses _ _ _ Ho)|by rewrite (tk_others _ _ _ _ _ _ Htk), (out_ses _ _ _ Ho)]. }
  assert (Hcl : so_closed (ss w3) = so_closed (ss w)).
  { pose proof (tk_table _ _ _ _ _ _ Htk) as Htt. injection Htt. injection Ho. congruence. }
  assert (Hden : wp (Sess_session_denied i) (fun _ => dropped w) never w3).
  { eapply wp_mono; [apply denied_spec; [done|by rewrite Hses]| |done]. intros _ w' (H1 & H2 & H3). unfold dropped.
    split; [done|]. split; [by rewrite H2, Hcl, Hses|]. intros j Hj. by rewrite H3, Hses. }
  destruct (answered w2); cbn [negb andb]; [|done]. rewrite (Hbs eq_refl). unfold wp, r.
  rewrite (admitted_run w w3 (auth_answer w2)); [|done|by rewrite Hses|by rewrite Hses|done|done]. fold r.
  destruct (admitted (s_mbox r) (s_name r) (auth_answer w2)); [|exact Hden].
  apply (wp_mono _ (fun _ => opened w3) _ never never); [|intros _ w' (H1 & H2 & H3 & H4 & H5 & H6 & H7 & H8)|done].
  - apply authorized_spec; [done|by rewrite Hses|by rewrite Hses].
  - split; [done|]. split; [done|]. split; [done|]. split; [done|]. split; [by rewrite H5, Hses|]. split; [by rewrite H6, Hses|].
    split; [by rewrite H7|]. intros j Hj. by rewrite H8, Hses.
Qed.
End decision.

(* --------------------------------------------------------------------- *)
(** ** A client on the local host *)

(** [NULL] enabled, [IP] required, local addresses allowed. *)
Definition sample_acm : acm :=
  match null_init (mkAcm [] [] (-1)) with
  | inr a =>
      match permit_init (snd (Acm_auth_add_method str_IP (Some Ip_auth) a)) with
      | inr a => match Acm_init a with inr a => snd (Acm_auth_set_required str_IP a) | inl _ => a end
      | inl _ => a
      end
  | inl _ => mkAcm [] [] (-1)
  end.
Definition sample_env (client_ip : Z) : auth_env :=
  mkAuthEnv sample_acm (mkIpRules true [(127 * 2 ^ 24, 8)]) (fun _ => Some client_ip).
Definition null_answer : list Z := resize 90 0 str_NULL.
(** The session [ana] before it is authorised, with its answer. *)
Definition asked_client : sess_world :=
  mkSessWorld (match accept_insert None ana (Sess_init_sessions no_table) with
               | inr (_, s) => set_so_recv [90] (set_so_in {[7 := null_answer]} s)
               | inl _ => no_table
               end) sample_world no_groups.

Lemma asked_ok :
  table_ok (ss asked_client) ([] ++ [996]) /\ let r := ses (ss asked_client) 996 in
  s_mbox r = 7 /\ s_name r = str_bytes "ana" /\ s_status r = PRE_AUTH_SESSION /\ s_read_mess r = None.
Proof.
  pose proof (init_table no_table eq_refl) as Ht.
  destruct (insert_ok (Sess_init_sessions no_table) [] [] ana) as (i & s & Hs & _ & Hok & He);
    [exact Ht|by rewrite (tb_num _ _ Ht)|by intros ?%elem_of_nil|constructor|constructor|].
  change (mjoin (head (targets []))) with (@None Z) in Hs.
  assert (i = 996) as ->.
  { revert Hs. clear. intros Hs.
    assert (Hv : match accept_insert None ana (Sess_init_sessions no_table) with inr (i, _) => i | inl _ => 0 end = 996)
      by (vm_compute; reflexivity).
    by rewrite Hs in Hv. }
  assert (Hw : ss asked_client = set_so_recv [90] (set_so_in {[7 := null_answer]} s)) by (unfold asked_client; by rewrite Hs).
  rewrite Hw. specialize (He 996). rewrite decide_True in He by done. split.
  - eapply (table_same s); [done|done|exact Hok].
  - change (ses (set_so_recv [90] (set_so_in {[7 := null_answer]} s))) with (ses s). cbv zeta. clear -He.
    split; [exact (f_equal s_mbox He)|]. split; [exact (f_equal s_name He)|]. split; [exact (f_equal s_status He)|exact (f_equal s_read_mess He)].
Qed.

Lemma sample_env_ok ip : env_ok (sample_env ip).
Proof.
  constructor.
  - vm_compute. discriminate.
  - constructor; [by left|]. constructor; [by right|constructor].
  - constructor; [|constructor]. vm_compute. split; discriminate.
  - by eexists.
Qed.

Lemma client_auth_decides_witness :
  (forall ip, wp (Sess_recv_client_auth (sample_env ip) 7)
     (fun _ => if answered 996 asked_client && admitted (sample_env ip) 7 (str_bytes "ana") (auth_answer 996 asked_client)
               then opened [] [] 996 asked_client else dropped [] [] 996 asked_client) never asked_client) /\
  answered 996 asked_client = true /\
  (admitted (sample_env (127 * 2 ^ 24 + 1)) 7 (str_bytes "ana") (auth_answer 996 asked_client),
   admitted (sample_env (10 * 2 ^ 24 + 1)) 7 (str_bytes "ana") (auth_answer 996 asked_client)) = (true, false) /\
  match Sess_recv_client_auth (sample_env (127 * 2 ^ 24 + 1)) 7 asked_client with
  | Done _ w' => Is_session OP_SESSION (s_status (ses (ss w') 996)) = true /\ so_closed (ss w') = []
  | Failed _ => False
  end /\
  match Sess_recv_client_auth (sample_env (10 * 2 ^ 24 + 1)) 7 asked_client with
  | Done _ w' => Num_sessions (ss w') = 0 /\ so_closed (ss w') = [7]
  | Failed _ => False
  end.
Proof.
  split; [|vm_compute; repeat split; reflexivity]. intros ip. destruct asked_ok as (Hok & Hm & Hn & Hs & Hr).
  pose proof (client_auth_decides (sample_env ip) (sample_env_ok ip) [] [] 996 asked_client) as H. cbv zeta in H.
  rewrite Hm, Hn, Hs, Hr in H. apply H; [exact Hok|reflexivity|reflexivity|vm_compute; lia|].
  apply (bool_decide_unpack _). vm_compute. exact I.
Defined.
