(* ===== verification/SessAccept.v ===== *)
(** * Accepting a connection ([Sess_accept], [Sess_accept_continue])

    A new connection waits in the spare session past the table until its
    client says who it is; then it is refused with a reason, or put in the
    table under its name and asked how it authenticates. *)

From Stdlib Require Import ZArith Lia List.
From stdpp Require Import base strings numbers option gmap list sorting.
From S2P Require Import Prelude Wire Bytes Config Events EventsFd State Network FlowControl MembSets MembCore ProtSend.
From S2P Require Import Sample Retrans Requests Packing Deliver Delivery Sending EndToEnd Message Names GroupState SessState SessTable SessDir SessWrite SessStream SessServe SessDeliver SessRead SessHeader SessParse Acm SessAuth.

(** The session a connection waits in. *)
#[local] Abbreviation NEW := MAX_SESSIONS.

(** A [char]. *)
Definition s8 (z : Z) : Z := (z + 128) mod 256 - 128.

(** [%u] of [snprintf]. *)
Fixpoint decimal_digits (fuel : nat) (n : Z) (l : list Z) : list Z :=
  match fuel with
  | O => l
  | S fuel => let l := (48 + n mod 10) :: l in if n / 10 =? 0 then l else decimal_digits fuel (n / 10) l
  end.
(** An [unsigned int] has at most ten digits. *)
Definition decimal (n : Z) : list Z := decimal_digits 10 (u32 n) [].
(** [snprintf( newname, MAX_PRIVATE_NAME, "r%u-%u", rnum, mbox )]. *)
Definition random_name (rnum mbox : Z) : list Z :=
  take (Z.to_nat (MAX_PRIVATE_NAME - 1)) (114 :: decimal rnum ++ 45 :: decimal mbox).

(** What the daemon accepts connections on. *)
Record accept_env : Type := mkAcceptEnv { Accept_inet_mbox : list Z; Accept_unix_mbox : Z }.

Definition Sess_attach_accept (ae : accept_env) : MS unit :=
  mforeach (fun m => attach_fd m READ_FD Sess_accept_fd ;; attach_fd m EXCEPT_FD Sess_accept_fd) (Accept_inet_mbox ae) ;;
  on_core (in_ev (E_attach_fd (Accept_unix_mbox ae) READ_FD Sess_accept_fd 1 0 LOW_PRIORITY)) ;; ret tt.
Definition Sess_detach_accept (ae : accept_env) : MS unit :=
  mforeach (fun m => detach_fd m READ_FD ;; detach_fd m EXCEPT_FD) (Accept_inet_mbox ae) ;;
  detach_fd (Accept_unix_mbox ae) READ_FD.

(** [accept] gave the mailbox [fd], -1 for an invalid one.  The sizes of the
    buffers of the socket are not modelled. *)
Definition Sess_accept (ae : accept_env) (fd : Z) : MS unit :=
  ses_do NEW (set_s_mbox fd) ;;
  if fd =? -1 then ret tt
  else
    let* w := get in
    if MAX_SESSIONS <=? Num_sessions (ss w) then
      send_bytes fd [u8 REJECT_QUOTA] ;; close fd
    else
      let* i := index_of fd in
      when (negb (i =? -1) && (s_mbox (ses (ss w) i) =? fd) && Is_session OP_SESSION (s_status (ses (ss w) i)))
        (fail (Fatal "Sess_accept: mailbox in use")) ;;
      Sess_detach_accept ae ;;
      attach_fd fd READ_FD Sess_accept_continue_fd ;;
      attach_fd fd EXCEPT_FD Sess_accept_continue_fd ;;
      on_core (E_queue Sess_accept_continue2 1 (mkTime 1 0)).

(** Refuse the waiting connection. *)
Definition reject (mbox response : Z) : MS unit := send_bytes mbox [u8 response] ;; close mbox.

(** The versions of the library, or nothing when the connection is over. *)
Definition read_version (mbox : Z) : MS (option (Z * Z * Z)) :=
  let* ' (k, bs) := recv mbox 2 in
  if negb (k =? 2) then close mbox ;; ret None
  else
    let v0 := s8 (get_byte bs 0) in
    let v1 := s8 (get_byte bs 1) in
    if 31400 <? version_number (v0, v1, 0) then
      let* ' (k, bs) := recv mbox 1 in
      if negb (k =? 1) then close mbox ;; ret None
      else ret (Some (v0, v1, s8 (get_byte bs 0)))
    else ret (Some (v0, v1, 0)).

(** A name that no session has, and where it goes; [rnums] is what the random
    numbers give. *)
Fixpoint choose_name (rnums : list Z) (mbox : Z) : MS (option Z) :=
  match rnums with
  | [] => fail (Diverges "Sess_accept_continue: random name")
  | rnum :: rnums =>
      ses_do NEW (set_s_name (random_name rnum mbox)) ;;
      let* w := get in
      let* ' (unique, tmp_ses) := lift (unique_private_name (s_name (ses (ss w) NEW)) (ss w)) in
      if unique then ret tmp_ses else choose_name rnums mbox
  end.

(** The name the client asks for; [None] when it was refused. *)
Definition read_name (mbox name_len : Z) : MS (option (option Z)) :=
  let* ' (k, bs) := recv mbox MAX_PRIVATE_NAME in
  if k <? 0 then close mbox ;; ret None
  else if negb (k =? name_len) then reject mbox REJECT_ILLEGAL_NAME ;; ret None
  else
    ses_do NEW (set_s_name (cstr bs)) ;;
    if negb (forallb legal_char bs) then reject mbox REJECT_ILLEGAL_NAME ;; ret None
    else
      let* w := get in
      let* ' (unique, tmp_ses) := lift (unique_private_name (s_name (ses (ss w) NEW)) (ss w)) in
      if negb unique then reject mbox REJECT_NOT_UNIQUE ;; ret None
      else ret (Some tmp_ses).

(** What the client says of itself: where its session goes, and the version. *)
Definition read_connect (rnums : list Z) (mbox : Z) : MS (option (option Z * (Z * Z * Z))) :=
  let* v := read_version mbox in
  match v with
  | None => ret None
  | Some v =>
      if version_number v <? 30100 then reject mbox REJECT_VERSION ;; ret None
      else
        ses_do NEW (set_s_lib_version v) ;;
        let* ' (k, conn) := recv mbox 2 in
        if negb (k =? 2) then close mbox ;; ret None
        else
          let conn0 := s8 (get_byte conn 0) in
          ses_do NEW (fun r => set_s_status (if Z.rem conn0 2 =? 1 then Set_session MEMB_SESSION (s_status r)
                                             else Clear_session MEMB_SESSION (s_status r)) r) ;;
          ses_do NEW (set_s_priority (Z.quot conn0 16)) ;;
          let name_len := s8 (get_byte conn 1) in
          if (MAX_PRIVATE_NAME <? name_len) || (name_len <? 0) then reject mbox REJECT_ILLEGAL_NAME ;; ret None
          else
            ses_do NEW (set_s_name []) ;;
            let* tmp_ses := (if name_len =? 0 then let* t := choose_name rnums mbox in ret (Some t) else read_name mbox name_len) in
            ret (match tmp_ses with Some t => Some (t, v) | None => None end)
  end.

Section accept.
Context (ae : accept_env) (env : auth_env).

(** The session is in the table: how its client authenticates. *)
Definition start_auth (i : Z) (v : Z * Z * Z) : MS unit :=
  let* r := the_session i in
  if version_number v <? 31600 then
    let* _ := lift (Acm_acp_fill_ops (ae_acm env)) in
    if Acm_auth_query_allowed (ae_acm env) str_IP then
      let p := Acm_auth_create_sess_info_forIP (ae_acm env) (s_mbox r) in
      let* f := lift (Acm_auth_get_auth_client_connection_byname (ae_acm env) str_IP) in
      match f with
      | None => fail (Undefined "Sess_accept_continue: auth_open")
      | Some f => auth_open env (Sess_session_report_auth_result env) f p
      end
    else if Acm_auth_query_allowed (ae_acm env) str_NULL then Sess_session_authorized i
    else Sess_session_denied i
  else
    let allowed_auth_list := Acm_auth_get_allowed_list (ae_acm env) in
    let list_len := u8 (Z.of_nat (length allowed_auth_list)) in
    send_bytes (s_mbox r) [list_len] ;;
    send_bytes (s_mbox r) (take (Z.to_nat list_len) allowed_auth_list) ;;
    if list_len =? 0 then Sess_session_denied i
    else
      attach_fd (s_mbox r) READ_FD Sess_recv_client_auth_fd ;;
      attach_fd (s_mbox r) EXCEPT_FD Sess_recv_client_auth_fd.

Definition Sess_accept_continue (rnums : list Z) : MS unit :=
  let* t := the_session NEW in
  let mbox := s_mbox t in
  on_core (E_dequeue Sess_accept_continue2 1) ;;
  detach_fd mbox READ_FD ;;
  detach_fd mbox EXCEPT_FD ;;
  Sess_attach_accept ae ;;
  let* c := read_connect rnums mbox in
  match c with
  | None => ret tt
  | Some (tmp_ses, v) =>
      let* w := get in
      let* ' (i, s) := lift (accept_insert tmp_ses (ses (ss w) NEW) (ss w)) in
      s_do (fun _ => s) ;;
      start_auth i v
  end.
End accept.

(* --------------------------------------------------------------------- *)
(** ** While a connection waits *)

(** The table depends on its own sessions. *)
Lemma table_same_in s s' l :
  (forall j, j <> NEW -> link_fields (ses s' j) = link_fields (ses s j)) -> table_vars s' = table_vars s -> table_ok s l -> table_ok s' l.
Proof.
  intros Hj Hv Ht. pose proof Ht as [[Hl1 Hl2] (f & Hf & Hp) Hb Hs Hm Hn]. injection Hv as Hhh Hh Htl Hfr Hnum.
  assert (Hin : forall j, j ∈ l ++ f -> j <> NEW).
  { intros j Hj' ->. rewrite Hp in Hj'. apply elem_of_seqZ in Hj'. lia. }
  assert (Hlj : forall j, j ∈ l -> link_fields (ses s' j) = link_fields (ses s j)).
  { intros j Hjl. apply Hj, Hin, elem_of_app. by left. }
  constructor; [| | | | |by rewrite Hnum].
  - split; [rewrite <- Hl1|rewrite <- Hl2]; apply fmap_ext_on; intros [j|] Hc; try (cbn; congruence).
    + apply elem_of_cons in Hc as [|(k & [= ->] & Hk)%list_elem_of_fmap]; [done|]. by injection (Hlj k Hk).
    + apply elem_of_app in Hc as [(k & [= ->] & Hk)%list_elem_of_fmap|?%list_elem_of_singleton]; [by injection (Hlj k Hk)|done].
  - exists f. split; [|done]. rewrite Hfr. eapply slinked_ext; [|exact Hf]. intros j Hjf.
    assert (Hne : j <> NEW) by (apply Hin, elem_of_app; by right). by injection (Hj j Hne).
  - eapply buckets_ext; [done| |done]. intros j Hjl. by injection (Hlj j Hjl).
  - rewrite (names_ext s); [done|]. intros j Hjl. by injection (Hlj j Hjl).
  - rewrite (mboxes_ext s); [done|]. intros j Hjl. by injection (Hlj j Hjl).
Qed.

(** What a connection keeps while it waits. *)
Definition kept (r : session) : Z * option message_obj * bool * bool :=
  (s_mbox r, s_read_mess r, Is_session OP_SESSION (s_status r), Is_session PRE_AUTH_SESSION (s_status r)).

(** Nothing of the table changes; the mailboxes [ms] were closed. *)
Record waits (ms : list Z) (w w' : sess_world) : Prop := mkWaits {
  wt_table : forall j, j <> NEW -> ses (ss w') j = ses (ss w) j;
  wt_vars : table_vars (ss w') = table_vars (ss w);
  wt_new : kept (ses (ss w') NEW) = kept (ses (ss w) NEW);
  wt_closed : so_closed (ss w') = so_closed (ss w) ++ ms;
}.

Section waits.
Implicit Types (w : sess_world) (mbox : Z) (l : list Z).

Lemma waits_refl w : waits [] w w.
Proof. constructor; [done..|by rewrite app_nil_r]. Qed.
Lemma waits_trans xs ys w w1 w2 : waits xs w w1 -> waits ys w1 w2 -> waits (xs ++ ys) w w2.
Proof.
  intros [A1 B1 C1 D1] [A2 B2 C2 D2]. constructor; [intros j Hj; by rewrite A2, A1|congruence|congruence|].
  by rewrite D2, D1, app_assoc.
Qed.
Lemma waits_then xs w w1 w2 : waits [] w w1 -> waits xs w1 w2 -> waits xs w w2.
Proof. apply (waits_trans []). Qed.
Lemma waits_table ms w w' l : waits ms w w' -> table_ok (ss w) l -> table_ok (ss w') l.
Proof. intros [Hj Hv _ _]. apply table_same_in; [|done]. intros j Hne. by rewrite Hj. Qed.

Lemma waits_upd f w : (forall r, kept (f r) = kept r) -> waits [] w (mkSessWorld (upd NEW f (ss w)) (core w) (gs w)).
Proof.
  intros Hf. constructor; cbn [ss]; [|done| |by rewrite app_nil_r].
  - intros j Hj. by rewrite ses_upd, decide_False.
  - by rewrite ses_upd, decide_True.
Qed.
Lemma waits_out w w' : same_but_out w w' -> waits [] w w'.
Proof.
  intros H. constructor; [intros j _; by apply out_ses| |by rewrite (out_ses _ _ _ H)|].
  - injection H. unfold table_vars. congruence.
  - rewrite app_nil_r. injection H. congruence.
Qed.
Lemma waits_took b mbox xs w w' : took NEW mbox b xs w w' -> ses (ss w') NEW = ses (ss w) NEW -> waits [] w w'.
Proof.
  intros Ht Hs. constructor; [by apply Ht| |by rewrite Hs|]; pose proof (tk_table _ _ _ _ _ _ Ht) as Hu.
  - injection Hu. unfold table_vars. congruence.
  - rewrite app_nil_r. injection Hu. congruence.
Qed.

(** A step of a waiting connection. *)
Lemma waits_step {A} (m : MS A) w0 w (Q : A -> sess_world -> Prop) E :
  waits [] w0 w -> wp m (fun _ => waits [] w) never w -> (forall a w', waits [] w0 w' -> Q a w') -> wp m Q E w.
Proof. intros H0 Hm HQ. eapply wp_mono; [exact Hm| |done]. intros a w' H. by eapply HQ, waits_then. Qed.

Lemma recv_waits mbox n w : 0 < n -> wp (recv mbox n) (fun '(k, bs) w' => waits [] w w' /\ (0 < k -> k = Z.of_nat (length bs)) /\ (k <= 0 -> bs = [])) never w.
Proof.
  intros Hn. eapply wp_mono; [by apply (recv_spec NEW)| |done]. intros [k bs] w' (Ht & Hs & Hk & Hb & _).
  split; [by eapply waits_took|done].
Qed.
Lemma close_waits mbox w : wp (close mbox) (fun _ => waits [mbox] w) never w.
Proof. apply wp_modify. by constructor. Qed.
Lemma reject_waits mbox response w : wp (reject mbox response) (fun _ => waits [mbox] w) never w.
Proof.
  unfold reject. apply out_then; [apply send_out|]. intros [] w1 H1%waits_out.
  eapply wp_mono; [apply close_waits| |done]. intros [] w2 H2. by eapply waits_then.
Qed.

Lemma read_version_waits mbox w :
  wp (read_version mbox) (fun v w' => waits (match v with None => [mbox] | Some _ => [] end) w w') never w.
Proof.
  unfold read_version. apply wp_bind. eapply wp_mono; [by apply recv_waits| |done]. intros [k bs] w1 [H1 _].
  assert (Hclose : forall w2, waits [] w w2 ->
    wp (close mbox ;; ret (@None (Z * Z * Z))) (fun v w' => waits (match v with None => [mbox] | Some _ => [] end) w w') never w2).
  { intros w2 H2. apply wp_bind. eapply wp_mono; [apply close_waits| |done]. intros [] w3 H3. apply wp_ret. by eapply waits_then. }
  apply wp_if; intros _; [by apply Hclose|]. cbv zeta. apply wp_if; intros _; [|by apply wp_ret].
  apply wp_bind. eapply wp_mono; [by apply recv_waits| |done]. intros [k2 bs2] w2 [H2 _].
  assert (H12 : waits [] w w2) by by eapply waits_then. apply wp_if; intros _; [by apply Hclose|by apply wp_ret].
Qed.

(** A name that may be put in the table, at [t]. *)
Definition name_free w' (t : option Z) : Prop :=
  legal_name MAX_PRIVATE_NAME (s_name (ses (ss w') NEW)) /\ unique_private_name (s_name (ses (ss w') NEW)) (ss w') = inr (true, t).

Lemma decimal_legal fuel : forall n l, 0 <= n -> Forall (fun c => HASH < c <= TILDE) l -> Forall (fun c => HASH < c <= TILDE) (decimal_digits fuel n l).
Proof.
  induction fuel as [|fuel IH]; intros n l Hn Hl; [done|]. cbn [decimal_digits]. pose proof (Z.mod_pos_bound n 10).
  assert (Hc : Forall (fun c => HASH < c <= TILDE) ((48 + n mod 10) :: l)) by (constructor; [unfold HASH, TILDE; lia|done]).
  case_match; [done|]. apply IH; [apply Z.div_pos; lia|done].
Qed.
Lemma random_legal rnum mbox : legal_name MAX_PRIVATE_NAME (random_name rnum mbox).
Proof.
  split.
  - unfold random_name. rewrite length_take. cbn [length]. change MAX_PRIVATE_NAME with 10. lia.
  - assert (H : Forall (fun c => HASH < c <= TILDE) (random_name rnum mbox)).
    { unfold random_name. apply Forall_take. constructor; [unfold HASH, TILDE; lia|]. apply Forall_app. split.
      - apply decimal_legal; [apply u32_range|constructor].
      - constructor; [unfold HASH, TILDE; lia|]. apply decimal_legal; [apply u32_range|constructor]. }
    apply forallb_forall. intros c Hc%list_elem_of_In. rewrite Forall_forall in H. by apply legal_char_spec, H.
Qed.

Lemma choose_name_waits l mbox rnums : forall w, table_ok (ss w) l ->
  wp (choose_name rnums mbox) (fun t w' => waits [] w w' /\ name_free w' t) (fun e => e = Diverges "Sess_accept_continue: random name") w.
Proof.
  induction rnums as [|rnum rnums IH]; intros w Ht; cbn [choose_name]; [done|]. apply wp_bind, wp_modify. set (w1 := mkSessWorld _ _ _).
  assert (H1 : waits [] w w1) by by apply waits_upd. pose proof (waits_table _ _ _ _ H1 Ht) as Ht1. apply wp_bind, wp_get, wp_bind.
  destruct (unique_split (ss w1) l (s_name (ses (ss w1) NEW)) Ht1) as (u & t & l1 & l2 & Hu & _). unfold wp at 1, lift. rewrite Hu.
  destruct u.
  - apply wp_ret. split; [done|]. split; [|done]. cbn [ss w1]. rewrite ses_upd, decide_True by done. apply random_legal.
  - eapply wp_mono; [by apply IH| |done]. intros t' w2 [H2 Hf]. split; [by eapply waits_then|done].
Qed.

Lemma read_name_waits l mbox name_len w :
  table_ok (ss w) l -> 0 < name_len <= MAX_PRIVATE_NAME ->
  wp (read_name mbox name_len)
    (fun t w' => match t with None => waits [mbox] w w' | Some t => waits [] w w' /\ name_free w' t end) never w.
Proof.
  intros Ht Hlen. unfold read_name. apply wp_bind. eapply wp_mono; [by apply recv_waits| |done]. intros [k bs] w1 (H1 & Hk & _).
  assert (Hrej : forall w2 (m : MS unit), waits [] w w2 -> wp m (fun _ => waits [mbox] w2) never w2 ->
    wp (m ;; ret (@None (option Z))) (fun t w' => match t with None => waits [mbox] w w' | Some t => waits [] w w' /\ name_free w' t end) never w2).
  { intros w2 m H2 Hm. apply wp_bind. eapply wp_mono; [exact Hm| |done]. intros [] w3 H3. apply wp_ret. by eapply waits_then. }
  apply wp_if; intros Hneg; [by apply Hrej, close_waits|]. apply wp_if; intros Heq; [by apply Hrej, reject_waits|].
  apply negb_false_iff, Z.eqb_eq in Heq. subst k. specialize (Hk ltac:(lia)). apply wp_bind, wp_modify. set (w2 := mkSessWorld _ _ _).
  assert (H2 : waits [] w w2) by (eapply waits_then; [exact H1|by apply waits_upd]).
  apply wp_if; intros Hch; [by apply Hrej, reject_waits|]. apply negb_false_iff in Hch. apply wp_bind, wp_get, wp_bind.
  destruct (unique_split (ss w2) l (s_name (ses (ss w2) NEW)) (waits_table _ _ _ _ H2 Ht)) as (u & t & l1 & l2 & Hu & _).
  unfold wp at 1, lift. rewrite Hu. apply wp_if; intros Hun; [by apply Hrej, reject_waits|]. apply negb_false_iff in Hun. subst u.
  apply wp_ret. split; [done|]. split; [|done]. cbn [ss w2]. rewrite ses_upd, decide_True by done.
  assert (Hc : cstr bs = bs).
  { assert (Hl : legal_name MAX_PRIVATE_NAME bs) by (split; [lia|done]). apply legal_name_no_nul in Hl. clear -Hl.
    induction Hl as [|c s Hc Hs IH]; [done|]. cbn. rewrite (proj2 (Z.eqb_neq _ _) Hc). by rewrite IH. }
  cbn [s_name set_s_name]. rewrite Hc. split; [lia|done].
Qed.

Lemma memb_kept conn0 r :
  kept (set_s_status (if Z.rem conn0 2 =? 1 then Set_session MEMB_SESSION (s_status r) else Clear_session MEMB_SESSION (s_status r)) r) = kept r.
Proof.
  unfold kept, Is_session, Set_session, Clear_session. cbn [s_mbox s_read_mess s_status set_s_status].
  destruct (_ =? 1); [by rewrite !land_lor_out|by rewrite !land_clear_out].
Qed.

Lemma read_connect_waits l rnums mbox w :
  table_ok (ss w) l ->
  wp (read_connect rnums mbox)
    (fun c w' => match c with None => waits [mbox] w w' | Some (t, _) => waits [] w w' /\ name_free w' t end)
    (fun e => e = Diverges "Sess_accept_continue: random name") w.
Proof.
  intros Ht. unfold read_connect. apply wp_bind. eapply wp_mono; [apply read_version_waits| |done].
  intros [v|] w1 H1; [|by apply wp_ret].
  assert (Hrej : forall w2 (m : MS unit) E, waits [] w w2 -> wp m (fun _ => waits [mbox] w2) never w2 ->
    wp (m ;; ret (@None (option Z * (Z * Z * Z)))) (fun c w' => match c with None => waits [mbox] w w' | Some (t, _) => waits [] w w' /\ name_free w' t end) E w2).
  { intros w2 m E H2 Hm. apply wp_bind. eapply wp_mono; [exact Hm| |done]. intros [] w3 H3. apply wp_ret. by eapply waits_then. }
  apply wp_if; intros _; [by apply Hrej, reject_waits|]. apply wp_bind, wp_modify. set (w2 := mkSessWorld _ _ _).
  assert (H2 : waits [] w w2) by (eapply waits_then; [exact H1|by apply waits_upd]).
  apply wp_bind. eapply wp_mono; [by apply recv_waits| |done]. intros [k conn] w3 [H3 _].
  assert (H03 : waits [] w w3) by by eapply waits_then. apply wp_if; intros _; [by apply Hrej, close_waits|].
  cbv zeta. apply wp_bind, wp_modify. set (w4 := mkSessWorld _ _ _).
  assert (H4 : waits [] w w4) by (eapply waits_then; [exact H03|apply waits_upd; intros r; apply memb_kept]).
  apply wp_bind, wp_modify. set (w5 := mkSessWorld _ _ _). assert (H5 : waits [] w w5) by (eapply waits_then; [exact H4|by apply waits_upd]).
  apply wp_if; intros Hlen; [by apply Hrej, reject_waits|]. apply orb_false_iff in Hlen as [Hl1%Z.ltb_ge Hl2%Z.ltb_ge].
  apply wp_bind, wp_modify. set (w6 := mkSessWorld _ _ _). assert (H6 : waits [] w w6) by (eapply waits_then; [exact H5|by apply waits_upd]).
  pose proof (waits_table _ _ _ _ H6 Ht) as Ht6. apply wp_bind, wp_if; intros Hz.
  - apply wp_bind. eapply wp_mono; [by apply (choose_name_waits l)| |done]. intros t w7 [H7 Hf]. apply wp_ret, wp_ret.
    split; [by eapply waits_then|done].
  - apply Z.eqb_neq in Hz. eapply wp_mono; [apply (read_name_waits l); [done|lia]| |done].
    intros [t|] w7 H7; apply wp_ret; [|by eapply waits_then]. destruct H7 as [H7 Hf]. split; [by eapply waits_then|done].
Qed.
End waits.

(* --------------------------------------------------------------------- *)
(** ** The table after a connection *)

Section table.
Context (ae : accept_env) (env : auth_env) (Henv : env_ok env).
Implicit Types (w : sess_world) (l : list Z).

(** The client is asked how it authenticates. *)
Definition asked w w' : Prop := same_but_out w w'.

Lemma start_auth_spec l1 i l2 v w :
  table_ok (ss w) (l1 ++ i :: l2) -> Is_session PRE_AUTH_SESSION (s_status (ses (ss w) i)) = true -> s_read_mess (ses (ss w) i) = None ->
  wp (start_auth env i v) (fun _ w' => opened l1 l2 i w w' \/ dropped l1 l2 i w w' \/ asked w w') never w.
Proof.
  intros Ht Hpre Hrm. unfold start_auth. apply wp_bind, wp_gets.
  assert (Hden : forall w1, same_but_out w w1 -> wp (Sess_session_denied i) (fun _ w' => opened l1 l2 i w w' \/ dropped l1 l2 i w w' \/ asked w w') never w1).
  { intros w1 Ho. assert (Hs : forall j, ses (ss w1) j = ses (ss w) j) by (intros j; by apply out_ses).
    eapply wp_mono; [apply (denied_spec l1 l2 i w1)| |done].
    - eapply waits_table; [by apply waits_out|done].
    - by rewrite Hs.
    - intros [] w' (H1 & H2 & H3). right. left. split; [done|].
      split; [rewrite H2, Hs; injection Ho; congruence|]. intros j Hj. by rewrite H3, Hs. }
  assert (Hauth : wp (Sess_session_authorized i) (fun _ w' => opened l1 l2 i w w' \/ dropped l1 l2 i w w' \/ asked w w') never w).
  { eapply wp_mono; [by apply (authorized_spec l1 l2 i w)| |done]. intros [] w' H. by left. }
  apply wp_if; intros _.
  - destruct (en_policy env Henv) as [ops Hops]. apply wp_bind. unfold wp at 1, lift. rewrite Hops.
    apply wp_if; intros Hq; [|apply wp_if; intros _; [done|by apply Hden]].
    unfold Acm_auth_query_allowed in Hq. unfold Acm_auth_get_auth_client_connection_byname.
    pose proof (authname_range (ae_acm env) str_IP) as Hr.
    destruct (Z.eqb_spec (acm_authname_to_type (ae_acm env) str_IP) (-1)) as [|Hne]; [done|]. specialize (Hr Hne).
    destruct (method_known env Henv _ Hr) as (f & _ & Hff & Hget). apply wp_bind. unfold wp at 1, lift. rewrite Hget.
    unfold wp. rewrite (open_now env Henv l1 l2 i w) by done.
    unfold Sess_session_report_auth_result. rewrite (report_run env Henv l1 l2 i).
    + by destruct (opens env i w _ _); [apply Hauth|apply Hden].
    + constructor; cbn; try done. by constructor.
    + cbn. change MAX_AUTH_METHODS with 3. lia.
  - cbv zeta. apply out_then; [apply send_out|intros [] w1 H1]. apply out_then; [apply send_out|intros [] w2 H2].
    assert (Ho : same_but_out w w2) by by etransitivity. apply wp_if; intros _; [by apply Hden|].
    apply out_then; [apply attach_out|intros [] w3 H3]. eapply wp_mono; [apply attach_out| |done]. intros [] w4 H4. right. right.
    change (same_but_out w w4). etransitivity; [exact Ho|]. by etransitivity.
Qed.

Lemma attach_accept_out w : wp (Sess_attach_accept ae) (fun _ => same_but_out w) never w.
Proof.
  unfold Sess_attach_accept. apply out_then.
  - apply keeps_mforeach; [apply _|]. intros m. apply keeps_bind; [apply _|apply attach_out|intros _; apply attach_out].
  - intros [] w1 H1. apply wp_bind. eapply wp_mono; [apply fd_call, attach_time| |done]. intros r w2 (Hs & _). apply wp_ret.
    etransitivity; [exact H1|]. unfold same_but_out. by rewrite Hs.
Qed.

(** The connection was refused, or its session dropped at once. *)
Definition turned_away l w w' : Prop :=
  table_ok (ss w') l /\ so_closed (ss w') = so_closed (ss w) ++ [s_mbox (ses (ss w) NEW)] /\
  (forall j, j ∈ l -> entry (ses (ss w') j) = entry (ses (ss w) j)).
(** The connection has a session, open or still to be authorised. *)
Definition taken_in l w w' : Prop :=
  exists l1 i l2, l = l1 ++ l2 /\ table_ok (ss w') (l1 ++ i :: l2) /\
    s_mbox (ses (ss w') i) = s_mbox (ses (ss w) NEW) /\ legal_name MAX_PRIVATE_NAME (s_name (ses (ss w') i)) /\
    (s_name (ses (ss w') i) ∉ names (ss w) l) /\
    Is_session OP_SESSION (s_status (ses (ss w') i)) = negb (Is_session PRE_AUTH_SESSION (s_status (ses (ss w') i))) /\
    so_closed (ss w') = so_closed (ss w) /\ (forall j, j ∈ l -> entry (ses (ss w') j) = entry (ses (ss w) j)).

Lemma preauth_status t : Is_session OP_SESSION t = false ->
  Is_session OP_SESSION (Set_session PRE_AUTH_SESSION t) = false /\ Is_session PRE_AUTH_SESSION (Set_session PRE_AUTH_SESSION t) = true.
Proof.
  unfold Is_session, Set_session. rewrite (land_lor_out t PRE_AUTH_SESSION OP_SESSION) by done. intros ->. split; [done|]. apply truth_true.
  intros H. apply (f_equal (fun x => Z.testbit x 8)) in H. by rewrite Z.land_spec, Z.lor_spec, orb_true_r in H.
Qed.

(** A name that is free goes where the search stopped. *)
Lemma insert_free w l t :
  table_ok (ss w) l -> Num_sessions (ss w) < MAX_SESSIONS -> (s_mbox (ses (ss w) NEW) ∉ mboxes (ss w) l) -> name_free w t ->
  exists l1 i l2 s', l = l1 ++ l2 /\ accept_insert t (ses (ss w) NEW) (ss w) = inr (i, s') /\ (i ∉ l) /\ table_ok s' (l1 ++ i :: l2) /\
    (s_name (ses (ss w) NEW) ∉ names (ss w) l) /\
    (forall j, entry (ses s' j) = entry (if decide (j = i) then preauth (ses (ss w) NEW) else ses (ss w) j)).
Proof.
  intros Ht Hn Hm [Hlegal Hun]. destruct (unique_split _ _ (s_name (ses (ss w) NEW)) Ht) as (u & t' & l1 & l2 & Hu & -> & -> & Hfree & Hord).
  rewrite Hun in Hu. injection Hu as <- ->. destruct (Hord eq_refl) as [Hl1 Hl2].
  destruct (insert_ok (ss w) l1 l2 (ses (ss w) NEW) Ht Hn Hm Hl1 Hl2) as (i & s' & Hs' & Hi & Hok & He).
  exists l1, i, l2, s'. split_and!; try done. by apply Hfree.
Qed.

(** The insertion closes nothing. *)
Lemma insert_closed t r s i s' : accept_insert t r s = inr (i, s') -> so_closed s' = so_closed s.
Proof.
  unfold accept_insert, Sess_insert_new_session, Sess_get_free_session. destruct (Sessions_free s) as [f|]; [|done]. cbn [rbind].
  intros [= <- <-]. unfold Sess_hash_session, set_hash_head, upd. cbn.
  destruct t as [x|]; [by case_match|]. by case_match.
Qed.

(** The session of a connection that waited. *)
Lemma taken_spec l t v w w2 (E : err -> Prop) :
  let r := ses (ss w) NEW in
  table_ok (ss w) l -> Num_sessions (ss w) < MAX_SESSIONS -> s_mbox r ∉ mboxes (ss w) l ->
  Is_session OP_SESSION (s_status r) = false -> s_read_mess r = None -> waits [] w w2 -> name_free w2 t ->
  wp (lift (accept_insert t (ses (ss w2) NEW) (ss w2)))
    (fun '(i, s) => wp (s_do (fun _ => s) ;; start_auth env i v) (fun _ w' => turned_away l w w' \/ taken_in l w w') E) E w2.
Proof.
  intros r Ht Hnum Hmb Hop Hrm H2 Hf. pose proof (waits_table _ _ _ _ H2 Ht) as Ht2. pose proof H2 as [Hj Hv Hk Hc]. rewrite app_nil_r in Hc.
  injection Hk as Hk1 Hk2 Hk3 Hk4. injection Hv as _ _ _ _ Hvn. fold r in Hk1, Hk2, Hk3.
  assert (Hjl : forall j, j ∈ l -> ses (ss w2) j = ses (ss w) j).
  { intros j Hjl. apply Hj. intros ->. destruct (table_range _ _ _ Ht Hjl). lia. }
  assert (Hnames : names (ss w2) l = names (ss w) l) by (apply names_ext; intros j Hjl'; by rewrite Hjl).
  assert (Hmbs : mboxes (ss w2) l = mboxes (ss w) l) by (apply mboxes_ext; intros j Hjl'; by rewrite Hjl).
  destruct (insert_free w2 l t) as (l1 & i & l2 & s' & -> & Hs' & Hi & Hok & Hn & He); [done|lia|by rewrite Hk1, Hmbs|done|].
  pose proof (insert_closed _ _ _ _ _ Hs') as Hcl. rewrite Hc in Hcl. rewrite Hnames in Hn. destruct Hf as [Hlegal _].
  unfold wp at 1, lift. rewrite Hs'. apply wp_bind, wp_modify.
  set (w3 := mkSessWorld _ _ _). pose proof (He i) as Hei. rewrite decide_True in Hei by done.
  destruct (preauth_status (s_status (ses (ss w2) NEW))) as [Hso Hsp]; [by rewrite Hk3|].
  assert (Hst : s_status (ses s' i) = Set_session PRE_AUTH_SESSION (s_status (ses (ss w2) NEW))) by exact (f_equal s_status Hei).
  assert (Hmi : s_mbox (ses s' i) = s_mbox r) by (rewrite <- Hk1; exact (f_equal s_mbox Hei)).
  assert (Hni : s_name (ses s' i) = s_name (ses (ss w2) NEW)) by exact (f_equal s_name Hei).
  assert (Hri : s_read_mess (ses s' i) = None) by (rewrite <- Hrm, <- Hk2; exact (f_equal s_read_mess Hei)).
  assert (Hej : forall j, j ∈ l1 ++ l2 -> entry (ses s' j) = entry (ses (ss w) j)).
  { intros j Hjl'. rewrite He, decide_False by (by intros ->). by rewrite Hjl. }
  eapply wp_mono; [apply (start_auth_spec l1 i l2 v w3); cbn [ss w3]; [done|by rewrite Hst|done]| |done].
  intros [] w' [(H1 & Ho & Hp & _ & Hm & Hn' & Hc' & Hj')|[(H1 & Hc' & Hj')|Ha]]; cbn [ss w3] in *.
  - right. exists l1, i, l2. rewrite Hm, Hn', Hmi, Hni, Hc', Hcl, Ho, Hp. split_and!; try done.
    intros j Hjl'. rewrite Hj' by (by intros ->). by apply Hej.
  - left. split; [done|]. rewrite Hc', Hcl, Hmi. split; [done|]. intros j Hjl'. rewrite Hj' by done. by apply Hej.
  - right. exists l1, i, l2. assert (Hs3 : forall j, ses (ss w') j = ses s' j) by (intros j; by rewrite (out_ses _ _ _ Ha)).
    rewrite Hs3, Hmi, Hni, Hst, Hso, Hsp. split_and!; try done.
    + eapply (waits_table [] w3); [by apply waits_out|done].
    + rewrite <- Hcl. injection Ha. congruence.
    + intros j Hjl'. rewrite Hs3. by apply Hej.
Qed.

Lemma dequeue_out f code : keeps same_but_out never (on_core (E_dequeue f code)).
Proof. intros w. eapply wp_mono; [apply dequeue_call| |done]. intros [] w1 (Hs & _). unfold same_but_out. by rewrite Hs. Qed.

(** C27: connecting.  A connection that waits outside the table, whatever its
    client sends, whatever its socket gives and takes, is either turned away,
    and then it is closed and the sessions are those there were, or it has
    one new session, under a name of one to ten legal characters that no
    session had, and that session is open or waits to be authorised, never
    both.  The sessions that were there stay, and nothing but the choice of a
    random name can go on for ever. *)
Theorem accept_continue_table l rnums w :
  let r := ses (ss w) NEW in
  table_ok (ss w) l -> Num_sessions (ss w) < MAX_SESSIONS -> s_mbox r ∉ mboxes (ss w) l ->
  Is_session OP_SESSION (s_status r) = false -> s_read_mess r = None ->
  wp (Sess_accept_continue ae env rnums) (fun _ w' => turned_away l w w' \/ taken_in l w w')
    (fun e => e = Diverges "Sess_accept_continue: random name") w.
Proof.
  intros r Ht Hnum Hmb Hop Hrm. unfold Sess_accept_continue. apply wp_bind, wp_gets. cbv zeta. fold r.
  assert (Hrest : forall w1, same_but_out w w1 ->
    wp (let* c := read_connect rnums (s_mbox r) in
        match c with
        | None => ret tt
        | Some (tmp_ses, v) =>
            let* w := get in
            let* ' (i, s) := lift (accept_insert tmp_ses (ses (ss w) NEW) (ss w)) in s_do (fun _ => s) ;; start_auth env i v
        end) (fun _ w' => turned_away l w w' \/ taken_in l w w') (fun e => e = Diverges "Sess_accept_continue: random name") w1).
  { intros w1 H1. apply waits_out in H1. apply wp_bind.
    eapply wp_mono; [apply (read_connect_waits l); by eapply waits_table| |done]. intros [[t v]|] w2.
    - intros [H2 Hf]. assert (H02 : waits [] w w2) by by eapply waits_then. apply wp_bind, wp_get, wp_bind.
      eapply wp_mono; [by apply (taken_spec l t v w w2 (fun e => e = Diverges "Sess_accept_continue: random name"))| |done]. intros [i s] w3 H3. exact H3.
    - intros H2. assert (H02 : waits [s_mbox r] w w2) by by eapply waits_then. apply wp_ret. left.
      split; [by eapply waits_table|]. split; [apply H02|]. intros j Hj. f_equal. apply H02. intros ->.
      destruct (table_range _ _ _ Ht Hj). lia. }
  apply out_then; [apply dequeue_out|intros [] w1 H1]. apply out_then; [apply detach_out|intros [] w2 H2].
  apply out_then; [apply detach_out|intros [] w3 H3]. apply out_then; [intros w0; apply attach_accept_out|intros [] w4 H4].
  apply Hrest. etransitivity; [exact H1|]. etransitivity; [exact H2|]. by etransitivity.
Qed.
End table.

(* --------------------------------------------------------------------- *)
(** ** Two clients *)

Definition sample_accept : accept_env := mkAcceptEnv [3] 4.
(** A client of version 5.0.1 asks for a name on mailbox 9; [ana] is there. *)
Definition waiting (name : list Z) : sess_world :=
  mkSessWorld (set_so_recv [2; 1; 2; 10] (set_so_in {[9 := [5; 0; 1; 1; Z.of_nat (length name)] ++ name]}
    (upd NEW (set_s_mbox 9) (ss asked_client)))) sample_world no_groups.

Lemma waiting_ses x y s j : ses (set_so_recv x (set_so_in y (upd NEW (set_s_mbox 9) s))) j = if decide (j = NEW) then set_s_mbox 9 (ses s NEW) else ses s j.
Proof. change (ses (set_so_recv ?x ?s)) with (ses s). change (ses (set_so_in ?x ?s)) with (ses s). apply ses_upd. Qed.

Lemma accept_continue_table_witness :
  (forall name, wp (Sess_accept_continue sample_accept (sample_env 0) [])
     (fun _ w' => turned_away [996] (waiting name) w' \/ taken_in [996] (waiting name) w')
     (fun e => e = Diverges "Sess_accept_continue: random name") (waiting name)) /\
  match Sess_accept_continue sample_accept (sample_env 0) [] (waiting (str_bytes "bob")) with
  | Done _ w' => Num_sessions (ss w') = 2 /\ so_closed (ss w') = [] /\ Sess_get_session_index 9 (ss w') = inr 995
  | Failed _ => False
  end /\
  match Sess_accept_continue sample_accept (sample_env 0) [] (waiting (str_bytes "ana")) with
  | Done _ w' => Num_sessions (ss w') = 1 /\ so_closed (ss w') = [9]
  | Failed _ => False
  end.
Proof.
  split; [|vm_compute; repeat split; reflexivity]. intros name. destruct asked_ok as (Hok & Hm & _ & _ & _).
  assert (Hn1 : s_mbox (ses (ss (waiting name)) NEW) = 9) by (vm_compute; reflexivity).
  apply (accept_continue_table sample_accept (sample_env 0)).
  - exact (sample_env_ok 0).
  - unfold waiting. cbn [ss]. generalize dependent (ss asked_client). intros s Hok Hm. apply (table_same_in s); [|reflexivity|exact Hok]. intros j Hj.
    rewrite waiting_ses, decide_False by exact Hj. reflexivity.
  - vm_compute. reflexivity.
  - rewrite Hn1. cbn [mboxes fmap list_fmap]. unfold mboxes. cbn [fmap list_fmap]. unfold waiting. cbn [ss].
    rewrite waiting_ses, decide_False by discriminate. rewrite Hm. intros H9%list_elem_of_singleton. discriminate H9.
  - vm_compute. reflexivity.
  - vm_compute. reflexivity.
Defined.
