(* ===== verification/Skl.v ===== *)
(** * Ordered lists with unique keys

    What the groups component asks of a skip list ([stdutil/src/stdskl.c]):
    a list in the order of a comparison of keys, look-up, insertion that
    overwrites an entry with the same key, insertion with the end as a hint,
    and erasure.  The skip list itself, with its towers of links, is in
    [SkipList], shown to do what these functions do in [SkipListOk]. *)

From Stdlib Require Import ZArith Lia Sorting.Sorted.
From stdpp Require Import base strings numbers option gmap list sorting.
From S2P Require Import Prelude.

Lemma StronglySorted_impl_in {A} (R R' : A -> A -> Prop) l :
  (forall x y, x ∈ l -> y ∈ l -> R x y -> R' x y) -> StronglySorted R l -> StronglySorted R' l.
Proof.
  intros H Hs. induction Hs as [|x l Hs IH Hx]; constructor.
  - apply IH. intros y z Hy Hz. apply H; by right.
  - eapply Forall_impl_in; [exact Hx|]. intros y Hy. apply H; [by left|by right].
Qed.

Section skl.
Context {A K : Type} (key : A -> K) (cmp : K -> K -> Z).
Implicit Types (l : list A) (x y : A) (k : K).

(** [stdskl_find], [None] for the end. *)
Fixpoint skl_find k l : option A :=
  match l with
  | [] => None
  | x :: l =>
      if 0 <? cmp k (key x) then skl_find k l
      else if cmp k (key x) =? 0 then Some x
      else None
  end.

(** [stdskl_put] without a hint. *)
Fixpoint skl_put x l : list A :=
  match l with
  | [] => [x]
  | y :: l =>
      if 0 <? cmp (key x) (key y) then y :: skl_put x l
      else if cmp (key x) (key y) =? 0 then x :: l
      else x :: y :: l
  end.

(** [stdskl_put] with the end as the hint: right after the last entry unless
    it is greater. *)
Definition skl_put_end x l : list A :=
  match last l with
  | Some y => if cmp (key x) (key y) <? 0 then skl_put x l else l ++ [x]
  | None => [x]
  end.

(** [stdskl_find] followed by [stdskl_erase]; [None] when there is no such
    entry. *)
Fixpoint skl_erase k l : option (list A) :=
  match l with
  | [] => None
  | x :: l =>
      if 0 <? cmp k (key x) then
        match skl_erase k l with Some l => Some (x :: l) | None => None end
      else if cmp k (key x) =? 0 then Some l
      else None
  end.

(** [stdskl_put_seq_n] of all the entries of a list into an empty one. *)
Definition skl_put_seq l : list A := foldl (fun acc x => skl_put x acc) [] l.

(* --------------------------------------------------------------------- *)
(** ** Order *)

(** A comparison whose sign is an order on the keys. *)
Class KeyOrder : Prop := {
  cmp_anti : forall a b, cmp a b < 0 <-> 0 < cmp b a;
  cmp_lt_trans : forall a b c, cmp a b < 0 -> cmp b c < 0 -> cmp a c < 0;
  cmp_zero_lt : forall a b c, cmp a b = 0 -> cmp a c < 0 <-> cmp b c < 0;
}.

Definition key_lt x y : Prop := cmp (key x) (key y) < 0.
Definition skl_ok l : Prop := StronglySorted key_lt l.

Context {HKO : KeyOrder}.

Lemma cmp_refl a : cmp a a = 0.
Proof. pose proof (cmp_anti a a). lia. Qed.
Lemma cmp_sym a b : cmp a b = 0 -> cmp b a = 0.
Proof. intros H. pose proof (cmp_anti a b). pose proof (cmp_anti b a). lia. Qed.
Lemma cmp_zero_gt a b c : cmp a b = 0 -> 0 < cmp a c <-> 0 < cmp b c.
Proof.
  intros H. rewrite <- !cmp_anti. pose proof (cmp_zero_lt a b c H) as H1.
  destruct (Z.lt_trichotomy (cmp c a) 0) as [E|[E|E]], (Z.lt_trichotomy (cmp c b) 0) as [F|[F|F]]; try tauto; try lia.
  - pose proof (cmp_sym _ _ F) as F'. pose proof (cmp_zero_lt b c a F') as G. pose proof (cmp_sym _ _ H). pose proof (cmp_refl a).
    pose proof (cmp_anti c a). lia.
  - pose proof (proj1 (cmp_anti b c)). pose proof (proj2 (cmp_anti b c) F). pose proof (cmp_anti a c). lia.
  - pose proof (cmp_sym _ _ E) as E'. pose proof (cmp_zero_lt a c b E') as G. pose proof (cmp_refl b). pose proof (cmp_anti c b). lia.
  - pose proof (proj2 (cmp_anti a c) E). pose proof (cmp_anti b c). lia.
Qed.

Lemma skl_ok_cons x l : skl_ok (x :: l) <-> skl_ok l /\ Forall (key_lt x) l.
Proof. split; [apply StronglySorted_inv|intros [? ?]; by constructor]. Qed.

Lemma skl_find_Some k l x : skl_ok l -> skl_find k l = Some x <-> x ∈ l /\ cmp k (key x) = 0.
Proof.
  induction l as [|y l IH]; intros Hs; cbn.
  { split; [done|]. by intros [?%elem_of_nil _]. }
  apply skl_ok_cons in Hs as [Hs Hy]. rewrite elem_of_cons. destruct (Z.ltb_spec 0 (cmp k (key y))) as [H1|H1].
  { rewrite IH by done. split; [tauto|]. intros [[->|Hx] Hk]; [lia|done]. }
  assert (Hlt : forall z, z ∈ l -> cmp k (key z) < 0).
  { intros z Hz. rewrite Forall_forall in Hy. specialize (Hy z Hz). unfold key_lt in Hy.
    destruct (decide (cmp k (key y) = 0)) as [E|E]; [by apply (cmp_zero_lt _ _ _ E)|].
    apply (cmp_lt_trans _ (key y)); [lia|done]. }
  destruct (Z.eqb_spec (cmp k (key y)) 0) as [H2|H2].
  - split; [intros [= ->]; auto|]. intros [[->|Hx] Hk]; [done|]. specialize (Hlt x Hx). lia.
  - split; [done|]. intros [[->|Hx] Hk]; [lia|]. specialize (Hlt x Hx). lia.
Qed.

Lemma skl_find_None k l : skl_ok l -> skl_find k l = None <-> forall x, x ∈ l -> cmp k (key x) <> 0.
Proof.
  intros Hs. destruct (skl_find k l) as [y|] eqn:E; split; try done.
  - apply skl_find_Some in E as [Hy Hk]; [|done]. intros H. by destruct (H y Hy).
  - intros _ x Hx Hk. assert (Hf : skl_find k l = Some x) by by apply skl_find_Some. congruence.
Qed.

Lemma skl_unique l x y : skl_ok l -> x ∈ l -> y ∈ l -> cmp (key x) (key y) = 0 -> x = y.
Proof.
  intros Hs Hx Hy Hk. assert (H1 : skl_find (key x) l = Some x) by (apply skl_find_Some; [done|]; split; [done|apply cmp_refl]).
  assert (H2 : skl_find (key x) l = Some y) by by apply skl_find_Some. congruence.
Qed.

Lemma skl_put_In x y l : skl_ok l -> y ∈ skl_put x l <-> y = x \/ (y ∈ l /\ cmp (key x) (key y) <> 0).
Proof.
  induction l as [|z l IH]; intros Hs; cbn.
  { rewrite list_elem_of_singleton. split; [auto|]. intros [->|[?%elem_of_nil _]]; done. }
  apply skl_ok_cons in Hs as [Hs Hz]. assert (Hlt : cmp (key x) (key z) <= 0 -> forall y, y ∈ l -> cmp (key x) (key y) < 0).
  { intros Hle u Hu. rewrite Forall_forall in Hz. specialize (Hz u Hu). unfold key_lt in Hz.
    destruct (decide (cmp (key x) (key z) = 0)) as [E|E]; [by apply (cmp_zero_lt _ _ _ E)|].
    apply (cmp_lt_trans _ (key z)); [lia|done]. }
  destruct (Z.ltb_spec 0 (cmp (key x) (key z))) as [H1|H1].
  { rewrite !elem_of_cons, IH by done. split; [|tauto]. intros [->|[->|[? ?]]]; [|by left|tauto].
    right. split; [by left|lia]. }
  specialize (Hlt H1). destruct (Z.eqb_spec (cmp (key x) (key z)) 0) as [H2|H2]; rewrite !elem_of_cons.
  - split; [|intros [->|[[->|Hy] Hne]]; tauto]. intros [->|Hy]; [by left|]. right. split; [by right|]. specialize (Hlt y Hy). lia.
  - split; [|tauto]. intros [->|[->|Hy]]; [by left|right; split; [by left|done]|].
    right. split; [by right|]. specialize (Hlt y Hy). lia.
Qed.

Lemma skl_put_ok x l : skl_ok l -> skl_ok (skl_put x l).
Proof.
  induction l as [|z l IH]; intros Hs; cbn; [by repeat constructor|].
  apply skl_ok_cons in Hs as [Hs Hz]. destruct (Z.ltb_spec 0 (cmp (key x) (key z))) as [H1|H1].
  { apply skl_ok_cons. split; [by apply IH|]. apply Forall_forall. intros y Hy. apply skl_put_In in Hy; [|done].
    destruct Hy as [->|[Hy _]]; [by apply cmp_anti|]. rewrite Forall_forall in Hz. by apply Hz. }
  destruct (Z.eqb_spec (cmp (key x) (key z)) 0) as [H2|H2].
  - apply skl_ok_cons. split; [done|]. eapply Forall_impl; [exact Hz|]. intros y Hy. by apply (cmp_zero_lt _ _ _ H2).
  - apply skl_ok_cons. split; [by apply skl_ok_cons|]. constructor; [unfold key_lt; lia|].
    eapply Forall_impl; [exact Hz|]. intros y Hy. eapply cmp_lt_trans; [|exact Hy]. lia.
Qed.

(** A new key is inserted, nothing is lost. *)
Lemma skl_put_Permutation x l : skl_ok l -> skl_find (key x) l = None -> skl_put x l ≡ₚ x :: l.
Proof.
  induction l as [|z l IH]; intros Hs Hf; cbn in *; [done|].
  apply skl_ok_cons in Hs as [Hs Hz]. destruct (0 <? cmp (key x) (key z)).
  - rewrite (IH Hs Hf). constructor.
  - by destruct (cmp (key x) (key z) =? 0).
Qed.

(** An entry with the key is replaced. *)
Lemma skl_put_replace x y l :
  skl_ok l -> skl_find (key x) l = Some y -> exists rest, l ≡ₚ y :: rest /\ skl_put x l ≡ₚ x :: rest.
Proof.
  induction l as [|z l IH]; intros Hs Hf; cbn in *; [done|].
  apply skl_ok_cons in Hs as [Hs Hz]. destruct (0 <? cmp (key x) (key z)).
  - destruct (IH Hs Hf) as (rest & H1 & H2). exists (z :: rest). split; [by rewrite H1; constructor|by rewrite H2; constructor].
  - destruct (cmp (key x) (key z) =? 0); [|done]. injection Hf as ->. by exists l.
Qed.

Lemma skl_erase_Some k l x :
  skl_ok l -> skl_find k l = Some x -> exists l', skl_erase k l = Some l' /\ l ≡ₚ x :: l' /\ skl_ok l'.
Proof.
  induction l as [|z l IH]; intros Hs Hf; cbn in *; [done|].
  apply skl_ok_cons in Hs as [Hs Hz]. destruct (0 <? cmp k (key z)).
  - destruct (IH Hs Hf) as (l' & He & Hp & Hs'). rewrite He. exists (z :: l'). split; [done|].
    split; [rewrite Hp; constructor|]. apply skl_ok_cons. split; [done|]. apply Forall_forall. intros y Hy.
    rewrite Forall_forall in Hz. apply Hz. rewrite Hp. by right.
  - destruct (cmp k (key z) =? 0); [|done]. injection Hf as ->. by exists l.
Qed.
Lemma skl_erase_None k l : skl_find k l = None -> skl_erase k l = None.
Proof.
  induction l as [|z l IH]; intros Hf; cbn in *; [done|]. destruct (0 <? cmp k (key z)); [by rewrite IH|].
  by destruct (cmp k (key z) =? 0).
Qed.

(** The order and the entries make the list. *)
Lemma skl_ext l l' : skl_ok l -> skl_ok l' -> (forall x, x ∈ l <-> x ∈ l') -> l = l'.
Proof.
  revert l'. induction l as [|x l IH]; intros [|x' l'] Hs Hs' He.
  - done.
  - exfalso. apply (elem_of_nil x'), He. by left.
  - exfalso. apply (elem_of_nil x), He. by left.
  - apply skl_ok_cons in Hs as [Hs Hx], Hs' as [Hs' Hx']. rewrite Forall_forall in Hx, Hx'.
    assert (Hirr : forall y, ~ key_lt y y) by (intros y; unfold key_lt; rewrite cmp_refl; lia).
    assert (Heq : x = x').
    { assert (H1 : x ∈ x' :: l') by (apply He; by left). assert (H2 : x' ∈ x :: l) by (apply He; by left).
      apply elem_of_cons in H1 as [->|H1]; [done|]. apply elem_of_cons in H2 as [->|H2]; [done|].
      destruct (Hirr x). by apply (cmp_lt_trans _ (key x')); [apply Hx|apply Hx']. }
    subst x'. f_equal. apply IH; [done|done|]. intros y. specialize (He y). rewrite !elem_of_cons in He.
    split; intros Hy.
    + destruct (proj1 He) as [->|?]; [by right|by destruct (Hirr x); apply Hx|done].
    + destruct (proj2 He) as [->|?]; [by right|by destruct (Hirr x); apply Hx'|done].
Qed.

Lemma skl_ok_NoDup l : skl_ok l -> NoDup l.
Proof.
  induction l as [|x l IH]; intros Hs; [constructor|]. apply skl_ok_cons in Hs as [Hs Hx]. constructor; [|by apply IH].
  intros Hin. rewrite Forall_forall in Hx. specialize (Hx x Hin). unfold key_lt in Hx. rewrite cmp_refl in Hx. lia.
Qed.

Lemma skl_ok_app l l' : skl_ok (l ++ l') <-> skl_ok l /\ skl_ok l' /\ forall x y, x ∈ l -> y ∈ l' -> key_lt x y.
Proof.
  induction l as [|z l IH]; cbn.
  { split; [intros H; split_and!; [constructor|done|by intros x y ?%elem_of_nil]|by intros (_ & H & _)]. }
  rewrite !skl_ok_cons, IH, Forall_app, !Forall_forall. split.
  - intros ((H1 & H2 & H3) & H4 & H5). split_and!; [done|done|done|]. intros x y [->|Hx]%elem_of_cons Hy; [by apply H5|by apply H3].
  - intros ((H1 & H4) & H2 & H3). split; [|split; [done|]].
    + split_and!; [done|done|]. intros x y Hx Hy. apply H3; [by right|done].
    + intros y Hy. apply H3; [by left|done].
Qed.

(** A key past the last goes to the end, hinted or not. *)
Lemma skl_put_last x l : (forall y, y ∈ l -> key_lt y x) -> skl_put x l = l ++ [x].
Proof.
  induction l as [|z l IH]; intros Hl; cbn; [done|].
  assert (Hz : 0 < cmp (key x) (key z)) by (apply cmp_anti, Hl; by left). rewrite (proj2 (Z.ltb_lt _ _) Hz).
  f_equal. apply IH. intros y Hy. apply Hl. by right.
Qed.
Lemma skl_put_end_last x l : (forall y, y ∈ l -> key_lt y x) -> skl_put_end x l = l ++ [x].
Proof.
  intros Hl. unfold skl_put_end. destruct (last l) as [y|] eqn:E; [|by apply last_None in E; subst l].
  destruct (Z.ltb_spec (cmp (key x) (key y)) 0) as [H|H]; [|done]. apply last_Some in E as [l' ->].
  by apply skl_put_last.
Qed.

Lemma skl_put_seq_sorted l : skl_ok l -> skl_put_seq l = l.
Proof.
  unfold skl_put_seq. assert (H : forall acc, skl_ok (acc ++ l) -> foldl (fun acc x => skl_put x acc) acc l = acc ++ l).
  { induction l as [|x l IH]; intros acc Hs; cbn; [by rewrite app_nil_r|].
    apply skl_ok_app in Hs as (H1 & H2 & H3). rewrite skl_put_last by (intros y Hy; apply H3; [done|by left]).
    rewrite IH, <- app_assoc; [done|]. rewrite <- app_assoc. by apply skl_ok_app. }
  intros Hs. by apply (H []).
Qed.

Lemma skl_put_seq_spec l :
  (forall x y, x ∈ l -> y ∈ l -> cmp (key x) (key y) = 0 -> x = y) -> NoDup l -> skl_ok (skl_put_seq l) /\ skl_put_seq l ≡ₚ l.
Proof.
  unfold skl_put_seq. assert (H : forall acc, skl_ok acc -> NoDup l ->
    (forall x y, x ∈ acc ++ l -> y ∈ acc ++ l -> cmp (key x) (key y) = 0 -> x = y) -> (forall x, x ∈ acc -> x ∉ l) ->
    skl_ok (foldl (fun acc x => skl_put x acc) acc l) /\ foldl (fun acc x => skl_put x acc) acc l ≡ₚ acc ++ l).
  { induction l as [|x l IH]; intros acc Hs Hn Hu Hd; cbn; [by rewrite app_nil_r|].
    apply NoDup_cons in Hn as [Hxl Hn].
    assert (Hf : skl_find (key x) acc = None).
    { apply skl_find_None; [done|]. intros y Hy Hk. assert (x = y) as <-.
      { apply Hu; [apply elem_of_app; right; by left|apply elem_of_app; by left|done]. }
      apply (Hd x Hy). by left. }
    pose proof (skl_put_Permutation x acc Hs Hf) as Hp.
    destruct (IH (skl_put x acc)) as [H1 H2]; [by apply skl_put_ok|done| |..].
    - intros u v. rewrite Hp. intros Hu1 Hv1. apply Hu; rewrite <- Permutation_middle; done.
    - intros u. rewrite Hp. intros [->|Hua]%elem_of_cons; [done|]. intros Hul. apply (Hd u Hua). by right.
    - split; [done|]. rewrite H2, Hp, <- Permutation_middle. done. }
  intros Hu Hn. apply (H []); [constructor|done|done|]. by intros x ?%elem_of_nil.
Qed.

(** ** Looking up what was changed *)

Lemma skl_find_put k x l :
  skl_ok l -> skl_find k (skl_put x l) = if cmp k (key x) =? 0 then Some x else skl_find k l.
Proof.
  intros Hs. apply option_eq. intros y. rewrite skl_find_Some, skl_put_In by (done || by apply skl_put_ok).
  destruct (Z.eqb_spec (cmp k (key x)) 0) as [E|E].
  - split; [|by intros [= ->]; auto]. intros [[->|[_ Hne]] Hk]; [done|]. destruct Hne.
    pose proof (cmp_zero_lt k (key x) (key y) E). pose proof (cmp_zero_gt k (key x) (key y) E). lia.
  - rewrite skl_find_Some by done. split; [by intros [[->|[? _]] ?]|]. intros [Hy Hk]. split; [right; split; [done|]|done].
    intros E'. apply E. pose proof (cmp_zero_lt (key x) (key y) k E'). pose proof (cmp_zero_gt (key x) (key y) k E').
    pose proof (cmp_sym _ _ Hk). pose proof (cmp_anti k (key x)). pose proof (cmp_anti (key x) k). lia.
Qed.

Lemma skl_find_erase k k' x l l' :
  skl_ok l -> skl_find k l = Some x -> skl_erase k l = Some l' ->
  skl_find k' l' = if cmp k' k =? 0 then None else skl_find k' l.
Proof.
  intros Hs Hf He. destruct (skl_erase_Some k l x Hs Hf) as (l2 & He2 & Hp & Hs'). rewrite He in He2. injection He2 as <-.
  pose proof (skl_ok_NoDup l Hs) as Hn. apply skl_find_Some in Hf as [Hx Hk]; [|done]. apply option_eq. intros y.
  rewrite skl_find_Some by done. destruct (Z.eqb_spec (cmp k' k) 0) as [E|E].
  - split; [|done]. intros [Hy Hky]. exfalso. rewrite Hp in Hn. apply NoDup_cons in Hn as [Hxl _]. apply Hxl.
    replace x with y; [done|]. apply (skl_unique l); [done|rewrite Hp; by right|done|].
    pose proof (cmp_sym _ _ Hky) as Hyk. pose proof (cmp_sym _ _ Hk) as Hxk.
    pose proof (cmp_zero_lt _ _ (key x) Hyk). pose proof (cmp_zero_gt _ _ (key x) Hyk).
    pose proof (cmp_zero_lt _ _ (key x) E). pose proof (cmp_zero_gt _ _ (key x) E). lia.
  - rewrite skl_find_Some by done. split; intros [Hy Hky]; (split; [|done]); [rewrite Hp; by right|].
    rewrite Hp in Hy. apply elem_of_cons in Hy as [->|Hy]; [|done]. exfalso. apply E.
    pose proof (cmp_sym _ _ Hk) as Hxk. pose proof (cmp_zero_lt _ _ k' Hxk). pose proof (cmp_zero_gt _ _ k' Hxk).
    pose proof (cmp_sym _ _ Hky). pose proof (cmp_anti k' k). pose proof (cmp_anti k k'). lia.
Qed.

(** Entries that are changed in place, keys and all that compares with them. *)
Lemma skl_find_fmap (f : A -> A) k l :
  (forall x, x ∈ l -> cmp k (key (f x)) = cmp k (key x)) -> skl_find k (f <$> l) = f <$> skl_find k l.
Proof.
  induction l as [|x l IH]; intros Hf; [done|]. cbn [fmap list_fmap skl_find]. rewrite (Hf x) by by left.
  destruct (0 <? cmp k (key x)); [apply IH; intros y Hy; apply Hf; by right|]. by destruct (cmp k (key x) =? 0).
Qed.
(** Writing through a pointer to the entry with a key is putting it. *)
Lemma skl_put_write x y l :
  skl_ok l -> skl_find (key x) l = Some y ->
  skl_put x l = (fun z => if cmp (key z) (key x) =? 0 then x else z) <$> l.
Proof.
  induction l as [|z l IH]; intros Hs Hf; cbn in *; [done|]. apply skl_ok_cons in Hs as [Hs Hz]. pose proof (cmp_anti (key z) (key x)).
  pose proof (cmp_anti (key x) (key z)). destruct (Z.ltb_spec 0 (cmp (key x) (key z))).
  - rewrite (proj2 (Z.eqb_neq (cmp (key z) (key x)) 0)) by lia. f_equal. by apply IH.
  - destruct (Z.eqb_spec (cmp (key x) (key z)) 0) as [E|]; [|done]. rewrite (cmp_sym _ _ E), Z.eqb_refl. f_equal.
    symmetry. rewrite <- (list_fmap_id l) at 2. apply list_fmap_ext. intros i u Hu%list_elem_of_lookup_2. rewrite Forall_forall in Hz. specialize (Hz u Hu).
    unfold key_lt in Hz. cbn. pose proof (cmp_zero_lt (key x) (key z) (key u) E). pose proof (cmp_anti (key x) (key u)).
    by rewrite (proj2 (Z.eqb_neq _ 0)) by lia.
Qed.
(** Writing to an entry that was just put in. *)
Lemma skl_put_twice x y l :
  skl_ok l -> cmp (key x) (key y) = 0 -> skl_put x (skl_put y l) = skl_put x l.
Proof.
  intros Hs E. apply skl_ext; [by repeat apply skl_put_ok|by apply skl_put_ok|]. intros z.
  rewrite !skl_put_In by (done || by apply skl_put_ok). pose proof (cmp_zero_lt _ _ (key z) E). pose proof (cmp_zero_gt _ _ (key z) E).
  split; [|intros [->|[Hz Hne]]; [by left|right; split; [right; split; [done|lia]|done]]].
  intros [->|[[->|[Hz Hne]] Hne']]; [by left|done|by right].
Qed.

Lemma skl_ok_fmap (f : A -> A) l :
  (forall x y, x ∈ l -> y ∈ l -> key_lt x y -> key_lt (f x) (f y)) -> skl_ok l -> skl_ok (f <$> l).
Proof.
  intros Hf Hs. induction Hs as [|x l Hs IH Hx]; [constructor|]. cbn. apply skl_ok_cons. split.
  - apply IH. intros y z Hy Hz. apply Hf; by right.
  - apply Forall_fmap. eapply Forall_impl_in; [exact Hx|]. intros y Hy. cbn. apply Hf; [by left|by right].
Qed.
End skl.
Arguments KeyOrder {K} cmp.
