(* ===== verification/SkipList.v ===== *)
(** * Skip lists ([stdutil/src/stdskl.c], [stdrand32] of [stdutil.c])

    The towers of links: every node is in the rings of links of all levels up
    to its height, the end node in all of them; a search runs right on the
    upper levels and down, an insertion links a node of random height into its
    levels from the bottom up, and makes the end node taller when it has to.
    The nodes are a finite map; using one that was freed or a link it does not
    have is an error.  The results of [malloc] are an input. *)

From Stdlib Require Import ZArith Lia.
From stdpp Require Import base strings numbers option gmap list.
From S2P Require Import Prelude Skl.

(* --------------------------------------------------------------------- *)
(** ** Random numbers *)

Definition RAND48_SEED_0 : Z := 0x330e.
Definition RAND48_SEED_1 : Z := 0xabcd.
Definition RAND48_SEED_2 : Z := 0x1234.
Definition RAND48_MULT_0 : Z := 0xe66d.
Definition RAND48_MULT_1 : Z := 0xdeec.
Definition RAND48_MULT_2 : Z := 0x0005.
Definition RAND48_ADD : Z := 0x000b.

(** [x[3]], three 16-bit words. *)
Record seed : Type := mkSeed { x0 : Z; x1 : Z; x2 : Z }.

Definition stdrand32 (x : seed) : Z * seed :=
  let acc := u32 (RAND48_MULT_0 * x0 x + RAND48_ADD) in
  let t0 := u16 acc in
  let acc := Z.shiftr acc 16 in
  let acc := u32 (acc + u32 (u32 (RAND48_MULT_0 * x1 x) + u32 (RAND48_MULT_1 * x0 x))) in
  let t1 := u16 acc in
  let acc := Z.shiftr acc 16 in
  let acc := u32 (acc + u32 (u32 (u32 (RAND48_MULT_0 * x2 x) + u32 (RAND48_MULT_1 * x1 x)) + u32 (RAND48_MULT_2 * x0 x))) in
  let x := mkSeed t0 t1 (u16 acc) in
  (Z.lor (u32 (Z.shiftl (x2 x) 16)) (x1 x), x).
Definition stdrand32_dseed (s : Z) : seed :=
  let b := u16 (Z.lxor (Z.shiftr s 16) RAND48_SEED_0) in
  let a := u16 (Z.lxor (Z.land s 0xFFFF) RAND48_SEED_1) in
  mkSeed (u16 (Z.lxor (Z.lxor a b) RAND48_SEED_2)) a b.

(* --------------------------------------------------------------------- *)
(** ** Nodes *)

Definition STDSKL_MAX_HEIGHT : nat := 31.
Definition ptr : Type := positive.

Section skiplist.
Context {A K : Type} (key : A -> K) (cmp : K -> K -> Z).

(** [n_elem] is the key with its value; the end node has none. *)
Record node : Type := mkNode {
  n_height : nat;
  n_prevs : list ptr;  (* prevs[0 .. height] *)
  n_nexts : list ptr;  (* nexts[0 .. height] *)
  n_elem : option A;
}.
Record skl : Type := mkSkl {
  sk_nodes : gmap ptr node;  (* what is allocated *)
  sk_end : ptr;  (* end_node *)
  sk_size : Z;
  sk_seed : seed;
  sk_rand_bits : Z;
  sk_bits_left : Z;
}.
Definition set_nodes (m : gmap ptr node) (s : skl) : skl := mkSkl m (sk_end s) (sk_size s) (sk_seed s) (sk_rand_bits s) (sk_bits_left s).
Definition set_end (e : ptr) (s : skl) : skl := mkSkl (sk_nodes s) e (sk_size s) (sk_seed s) (sk_rand_bits s) (sk_bits_left s).
Definition set_size (z : Z) (s : skl) : skl := mkSkl (sk_nodes s) (sk_end s) z (sk_seed s) (sk_rand_bits s) (sk_bits_left s).
Definition set_random (x : seed) (bits left : Z) (s : skl) : skl := mkSkl (sk_nodes s) (sk_end s) (sk_size s) x bits left.

Definition height (s : skl) (p : ptr) : option nat := n_height <$> sk_nodes s !! p.
Definition nexts (s : skl) (p : ptr) (lvl : nat) : option ptr := n ← sk_nodes s !! p; n_nexts n !! lvl.
Definition prevs (s : skl) (p : ptr) (lvl : nat) : option ptr := n ← sk_nodes s !! p; n_prevs n !! lvl.
Definition elem (s : skl) (p : ptr) : option A := n ← sk_nodes s !! p; n_elem n.

Definition height_of (s : skl) (p : ptr) : res nat := or_err (Undefined "stdskl: node->height") (height s p).
Definition next_of (s : skl) (p : ptr) (lvl : nat) : res ptr := or_err (Undefined "stdskl: node->nexts[]") (nexts s p lvl).
Definition prev_of (s : skl) (p : ptr) (lvl : nat) : res ptr := or_err (Undefined "stdskl: node->prevs[]") (prevs s p lvl).
(** [STDSKL_NKEY( node )]. *)
Definition nkey (s : skl) (p : ptr) : res K := let? a := or_err (Undefined "stdskl: node->key") (elem s p) in inr (key a).

Definition with_next (p : ptr) (lvl : nat) (q : ptr) (s : skl) : skl :=
  set_nodes (alter (fun n => mkNode (n_height n) (n_prevs n) (<[lvl := q]> (n_nexts n)) (n_elem n)) p (sk_nodes s)) s.
Definition with_prev (p : ptr) (lvl : nat) (q : ptr) (s : skl) : skl :=
  set_nodes (alter (fun n => mkNode (n_height n) (<[lvl := q]> (n_prevs n)) (n_nexts n) (n_elem n)) p (sk_nodes s)) s.
(** [p->nexts[lvl] = q] and [p->prevs[lvl] = q]. *)
Definition set_next (p : ptr) (lvl : nat) (q : ptr) (s : skl) : res skl :=
  let? _ := next_of s p lvl in inr (with_next p lvl q s).
Definition set_prev (p : ptr) (lvl : nat) (q : ptr) (s : skl) : res skl :=
  let? _ := prev_of s p lvl in inr (with_prev p lvl q s).
Definition free (p : ptr) (s : skl) : res skl :=
  let? _ := height_of s p in inr (set_nodes (delete p (sk_nodes s)) s).

(** The loop over random bits, two bits a level, 32 at a time; [n] more levels
    are possible. *)
Fixpoint promote (n : nat) (keep_going : bool) (h : Z) (s : skl) : Z * skl :=
  match n with
  | O => (h, s)
  | S n =>
      if keep_going then
        let s := if sk_bits_left s =? 0 then let '(b, x) := stdrand32 (sk_seed s) in set_random x b 32 s else s in
        let keep_going := Z.land (sk_rand_bits s) 3 =? 3 in
        promote n keep_going (h + 1) (set_random (sk_seed s) (Z.shiftr (sk_rand_bits s) 2) (sk_bits_left s - 2) s)
      else (h, s)
  end.
Definition random_height (s : skl) : nat * skl :=
  let '(h, s) := promote (S STDSKL_MAX_HEIGHT) true (-1) s in (Z.to_nat h, s).

(** The block of a node; the links are those to the node itself until they are
    set. *)
Definition alloc_node (h : nat) (a : option A) (s : skl) : ptr * skl :=
  let p := fresh (dom (sk_nodes s)) in
  (p, set_nodes (<[p := mkNode h (replicate (S h) p) (replicate (S h) p) a]> (sk_nodes s)) s).
(** [stdskl_low_create_node] of a height: [None] is [NULL]. *)
Definition stdskl_low_create_node (h : nat) (a : option A) (s : skl) (m : memory) : option ptr * skl * memory :=
  let '(found, m) := malloc m in
  if negb found then (None, s, m)
  else let '(p, s) := alloc_node h a s in (Some p, s, m).

(* --------------------------------------------------------------------- *)
(** ** Searching *)

(** A walk along one level passes every node at most once. *)
Definition walk_fuel (s : skl) : nat := S (size (sk_nodes s)).

(** Run right on level [lvl] while [k] is greater than the key of [next]. *)
Fixpoint run_right (fuel : nat) (s : skl) (k : K) (lvl : nat) (curr next : ptr) (c : Z) : res (ptr * ptr * Z) :=
  match fuel with
  | O => inl (Diverges "stdskl_low_find_right")
  | S fuel =>
      if bool_decide (next = sk_end s) then inr (curr, next, c)
      else
        let? k' := nkey s next in
        let c := cmp k k' in
        if 0 <? c then
          let? next' := next_of s next lvl in
          run_right fuel s k lvl next next' c
        else inr (curr, next, c)
  end.
(** Run down the levels of [curr] while they lead to [next] too. *)
Fixpoint run_down (s : skl) (curr next : ptr) (lvl : nat) : res nat :=
  match lvl with
  | O => inr O
  | S l =>
      let? q := next_of s curr lvl in
      if bool_decide (q = next) then run_down s curr next l else inr lvl
  end.
(** The levels above 0: the match when any will do, or where to go on. *)
Fixpoint find_levels (fuel : nat) (s : skl) (k : K) (find_any : bool) (lvl : nat) (curr : ptr) (next : option ptr) (c : Z)
    : res (ptr + ptr * option ptr * Z) :=
  match lvl, fuel with
  | O, _ => inr (inr (curr, next, c))
  | _, O => inl (Diverges "stdskl_low_find_right")
  | S l, S fuel =>
      let? n := next_of s curr lvl in
      let? ' (curr, n, c) := run_right (walk_fuel s) s k lvl curr n c in
      if find_any && negb (bool_decide (n = sk_end s)) && (c =? 0) then inr (inl n)
      else
        let? lvl := run_down s curr n l in
        find_levels fuel s k find_any lvl curr (Some n) c
  end.
(** Whether [k] was found, and the position. *)
Definition stdskl_low_find_right (s : skl) (k : K) (find_any : bool) : res (bool * ptr) :=
  let? h := height_of s (sk_end s) in
  let? r := find_levels h s k find_any h (sk_end s) None (-1) in
  match r with
  | inl n => inr (true, n)
  | inr (curr, next, c) =>
      let? p := next_of s curr 0 in
      let? ' (_, p, c) := (if bool_decide (next = Some p) then inr (curr, p, c) else run_right (walk_fuel s) s k 0 curr p c) in
      inr (negb (bool_decide (p = sk_end s)) && (c =? 0), p)
  end.

(* --------------------------------------------------------------------- *)
(** ** Linking *)

(** From [prev] to the left, and from [next] to the right, on level [lvl] to a
    node that is taller. *)
Fixpoint climb_left (fuel : nat) (s : skl) (prev : ptr) (lvl : nat) : res ptr :=
  match fuel with
  | O => inl (Diverges "stdskl_low_link_left")
  | S fuel =>
      let? h := height_of s prev in
      if Nat.eqb lvl h then let? p := prev_of s prev lvl in climb_left fuel s p lvl else inr prev
  end.
Fixpoint climb_right (fuel : nat) (s : skl) (next : ptr) (lvl : nat) : res ptr :=
  match fuel with
  | O => inl (Diverges "stdskl_low_link_right")
  | S fuel =>
      let? h := height_of s next in
      if Nat.eqb lvl h then let? p := next_of s next lvl in climb_right fuel s p lvl else inr next
  end.

(** The levels above [lvl]: [n] of them. *)
Fixpoint link_left_above (n : nat) (lvl : nat) (prev p : ptr) (s : skl) : res skl :=
  match n with
  | O => inr s
  | S n =>
      let? prev := climb_left (walk_fuel s) s prev lvl in
      let? s := set_prev p (S lvl) prev s in
      let? s := set_next prev (S lvl) p s in
      link_left_above n (S lvl) prev p s
  end.
Definition stdskl_low_link_left (ins_pos p : ptr) (s : skl) : res skl :=
  let? prev := prev_of s ins_pos 0 in
  let? h := height_of s p in
  let? s := set_prev p 0 prev s in
  let? s := set_next prev 0 p s in
  link_left_above h 0 prev p s.

Fixpoint link_right_above (n : nat) (lvl : nat) (next p : ptr) (s : skl) : res skl :=
  match n with
  | O => inr s
  | S n =>
      let? next := climb_right (walk_fuel s) s next lvl in
      let? s := set_next p (S lvl) next s in
      let? s := set_prev next (S lvl) p s in
      link_right_above n (S lvl) next p s
  end.
Definition stdskl_low_link_right (ins_pos p : ptr) (s : skl) : res skl :=
  let? h := height_of s p in
  let? s := set_next p 0 ins_pos s in
  let? s := set_prev ins_pos 0 p s in
  link_right_above h 0 ins_pos p s.

(** The links of the end node are taken over by the new one, from level [lvl]
    up to the first that leads to itself; the level is what is left. *)
Fixpoint move_end (n : nat) (lvl : nat) (new_end : ptr) (s : skl) : res (nat * skl) :=
  match n with
  | O => inr (lvl, s)
  | S n =>
      let e := sk_end s in
      let? p := prev_of s e lvl in
      if bool_decide (p = e) then inr (lvl, s)
      else
        let? s := set_prev new_end lvl p s in
        let? s := set_next p lvl new_end s in
        let? q := next_of s e lvl in
        let? s := set_next new_end lvl q s in
        let? s := set_prev q lvl new_end s in
        move_end n (S lvl) new_end s
  end.
(** [n] levels from [lvl] on that lead to the node itself. *)
Fixpoint self_links (n : nat) (lvl : nat) (p : ptr) (s : skl) : res skl :=
  match n with
  | O => inr s
  | S n =>
      let? s := set_prev p lvl p s in
      let? s := set_next p lvl p s in
      self_links n (S lvl) p s
  end.
(** The end node is replaced by [new_end]; and so is the position [next], when
    it was the end node. *)
Definition replace_end (new_h : nat) (new_end next : ptr) (s : skl) : res (skl * ptr) :=
  let? eh := height_of s (sk_end s) in
  let? ' (lvl, s) := move_end (S eh) 0 new_end s in
  let? s := self_links (S new_h - lvl) lvl new_end s in
  let next := if bool_decide (next = sk_end s) then new_end else next in
  let? s := free (sk_end s) s in
  inr (set_end new_end s, next).
(** A taller end node for a node of height [h]. *)
Definition grow_end (h : nat) (next : ptr) (s : skl) (m : memory) : res (Z * skl * ptr * memory) :=
  let new_h := if Nat.ltb h STDSKL_MAX_HEIGHT then S h else h in
  let '(new_end, s, m) := stdskl_low_create_node new_h None s m in
  match new_end with
  | None => inr (STDENOMEM, s, next, m)
  | Some new_end =>
      let? ' (s, next) := replace_end new_h new_end next s in
      inr (STDESUCCESS, s, next, m)
  end.

(* --------------------------------------------------------------------- *)
(** ** Inserting *)

(** Whether [k] does not belong between [prev] and [next]; the last comparison
    with [next]. *)
Definition unfit (s : skl) (k : K) (prev next : ptr) : res (bool * Z) :=
  let? ' (gt, c) :=
    (if bool_decide (next = sk_end s) then inr (false, -1)
     else let? k' := nkey s next in inr (0 <? cmp k k', cmp k k')) in
  if gt then inr (true, c)
  else if bool_decide (prev = sk_end s) then inr (false, c)
  else let? k' := nkey s prev in inr (cmp k k' <? 0, c).
(** The position for [k], tried at the hint and behind it. *)
Definition insert_position (s : skl) (k : K) (hint : bool) (next : ptr) : res (ptr * Z) :=
  let? r :=
    (if hint then
       let? prev := prev_of s next 0 in
       let? ' (bad, c) := unfit s k prev next in
       if negb bad then inr (Some (next, c))
       else
         let? next' := next_of s next 0 in
         let? ' (bad, c) := unfit s k next next' in
         inr (if bad then None else Some (next', c))
     else inr None) in
  match r with
  | Some x => inr x
  | None =>
      let? ' (found, p) := stdskl_low_find_right s k true in
      inr (p, cbool (negb found))
  end.
(** A new node of random height in front of [next]: the node, [None] when there
    is none, and the position. *)
Definition insert_new (x : A) (next : ptr) (s : skl) (m : memory) : res (Z * skl * option ptr * ptr * memory) :=
  let '(h, s) := random_height s in
  let '(p, s, m) := stdskl_low_create_node h (Some x) s m in
  match p with
  | None => inr (STDENOMEM, s, None, next, m)
  | Some p =>
      (* ensure that the end node is at least as tall as the new node *)
      let? eh := height_of s (sk_end s) in
      let? ' (ret, s, next, m) := (if Nat.ltb eh h then grow_end h next s m else inr (STDESUCCESS, s, next, m)) in
      if negb (ret =? STDESUCCESS) then
        let? s := free p s in
        inr (ret, s, None, next, m)
      else
        let? s := stdskl_low_link_left next p s in
        let? s := stdskl_low_link_right next p s in
        inr (STDESUCCESS, set_size (sk_size s + 1) s, Some p, next, m)
  end.
Definition overwrite_node (x : A) (next : ptr) (s : skl) : res skl :=
  let? _ := height_of s next in
  inr (set_nodes (alter (fun n => mkNode (n_height n) (n_prevs n) (n_nexts n) (Some x)) next (sk_nodes s)) s).
(** One entry: the node, and the position behind it. *)
Definition insert_one (overwrite : bool) (x : A) (hint : bool) (next : ptr) (s : skl) (m : memory)
    : res (Z * skl * option ptr * ptr * memory) :=
  let? ' (next, c) := insert_position s (key x) hint next in
  if negb overwrite || bool_decide (next = sk_end s) || negb (c =? 0) then insert_new x next s m
  else let? s := overwrite_node x next s in inr (STDESUCCESS, s, Some next, next, m).
Fixpoint insert_entries (overwrite : bool) (src : list A) (hint : bool) (next : ptr) (first_ins : option ptr) (s : skl) (m : memory)
    : res (Z * skl * option ptr * memory) :=
  match src with
  | [] => inr (STDESUCCESS, s, first_ins, m)
  | x :: src =>
      let? ' (ret, s, p, next, m) := insert_one overwrite x hint next s m in
      if negb (ret =? STDESUCCESS) then inr (ret, s, first_ins, m)
      else insert_entries overwrite src true next (match first_ins with None => p | Some _ => first_ins end) s m
  end.
(** The list, and where the iterator points to: the first entry that was
    inserted or overwritten, or the end. *)
Definition stdskl_low_insert (s : skl) (it : option ptr) (src : list A) (hint overwrite : bool) (m : memory)
    : res (Z * skl * ptr * memory) :=
  let? ' (ret, s, first_ins, m) := insert_entries overwrite src hint (default (sk_end s) it) None s m in
  inr (ret, s, default (sk_end s) first_ins, m).

(** ** Erasing *)

(** Free the nodes from [next] up to [e], [num] at most; the highest of them. *)
Fixpoint erase_nodes (fuel : nat) (s : skl) (next : ptr) (e : option ptr) (erased num : Z) (max_lvl : nat) : res (skl * ptr * Z * nat) :=
  match fuel with
  | O => inl (Diverges "stdskl_low_erase")
  | S fuel =>
      if (erased =? num) || bool_decide (Some next = e) then inr (s, next, erased, max_lvl)
      else if bool_decide (next = sk_end s) then inl (Undefined "stdskl_low_erase: end")
      else
        let? h := height_of s next in
        let? q := next_of s next 0 in
        let? s := free next s in
        erase_nodes fuel s q e (erased + 1) num (Nat.max max_lvl h)
  end.
Fixpoint stitch (n : nat) (lvl : nat) (prev next : ptr) (s : skl) : res skl :=
  match n with
  | O => inr s
  | S n =>
      let? prev := climb_left (walk_fuel s) s prev lvl in
      let? next := climb_right (walk_fuel s) s next lvl in
      let? s := set_next prev (S lvl) next s in
      let? s := set_prev next (S lvl) prev s in
      stitch n (S lvl) prev next s
  end.
(** The list, how many were erased, and where that stopped. *)
Definition stdskl_low_erase (s : skl) (b : ptr) (e : option ptr) (num_erase : Z) : res (skl * Z * ptr) :=
  let? prev := prev_of s b 0 in
  let? ' (s, next, erased, max_lvl) := erase_nodes (walk_fuel s) s b e 0 num_erase 0 in
  let s := set_size (sk_size s - erased) s in
  let? s := set_next prev 0 next s in
  let? s := set_prev next 0 prev s in
  let? s := stitch max_lvl 0 prev next s in
  inr (s, erased, next).

(** ** The operations *)

(** The system clock gives the seed [x]; [None] is a list that is not legal. *)
Definition stdskl_construct (ksize : Z) (x : seed) (m : memory) : Z * option skl * memory :=
  if ksize =? 0 then (STDEINVAL, None, m)
  else
    let '(p, s, m) := stdskl_low_create_node 4 None (mkSkl ∅ 1%positive 0 x 0 0) m in
    match p with
    | None => (STDENOMEM, None, m)
    | Some p => (STDESUCCESS, Some (set_end p s), m)
    end.
Definition stdskl_begin (s : skl) : res ptr := next_of s (sk_end s) 0.
Definition stdskl_is_end (s : skl) (it : ptr) : bool := bool_decide (it = sk_end s).
Definition stdskl_it_next (s : skl) (it : ptr) : res ptr := next_of s it 0.
Definition stdskl_it_key (s : skl) (it : ptr) : res A := or_err (Undefined "stdskl: node->key") (elem s it).
Definition stdskl_size (s : skl) : Z := sk_size s.
Definition stdskl_empty (s : skl) : bool := sk_size s =? 0.
Definition stdskl_find_it (s : skl) (k : K) : res ptr :=
  let? ' (found, p) := stdskl_low_find_right s k true in
  inr (if found then p else sk_end s).
Definition stdskl_lowerb (s : skl) (k : K) : res ptr :=
  let? ' (_, p) := stdskl_low_find_right s k false in
  inr p.
Definition stdskl_contains (s : skl) (k : K) : res bool :=
  let? ' (found, _) := stdskl_low_find_right s k true in
  inr found.
Definition stdskl_put_seq_n (s : skl) (it : option ptr) (src : list A) (hint : bool) (m : memory) : res (Z * skl * ptr * memory) :=
  stdskl_low_insert s it src hint true m.
Definition stdskl_put (s : skl) (it : option ptr) (x : A) (hint : bool) (m : memory) : res (Z * skl * ptr * memory) :=
  stdskl_put_seq_n s it [x] hint m.
Definition stdskl_insert_seq (s : skl) (it : option ptr) (src : list A) (hint : bool) (m : memory) : res (Z * skl * ptr * memory) :=
  stdskl_low_insert s it src hint false m.
Definition stdskl_erase_n (s : skl) (it : ptr) (num_erase : Z) : res (skl * ptr) :=
  let? ' (s, _, it) := stdskl_low_erase s it None num_erase in
  inr (s, it).
Definition stdskl_erase (s : skl) (it : ptr) : res (skl * ptr) := stdskl_erase_n s it 1.
End skiplist.
