(* ===== verification/SkipLinks.v ===== *)
(** * The links of a skip list

    A skip list is seen as the list of its towers.  The one invariant of the
    links says what is on both sides of every gap between towers: on every
    level, the last node to the left that is high enough and the first one to
    the right lead to each other.  Linking a node, stitching after an erasure
    and replacing the end node keep it. *)

From Stdlib Require Import ZArith Lia.
From stdpp Require Import base strings numbers option gmap list.
From S2P Require Import Prelude Skl SkipList.

(* --------------------------------------------------------------------- *)
(** ** Towers *)

Section towers.
Context {A : Type}.
Record tower : Type := mkTower { t_ptr : ptr; t_height : nat; t_elem : A }.
Implicit Types (ts T U V : list tower) (t : tower) (e p : ptr) (l : list ptr).

(** The nodes on a level. *)
Definition lv (lvl : nat) ts : list ptr := t_ptr <$> filter (fun t => (lvl <= t_height t)%nat) ts.
Definition ptrs ts : list ptr := t_ptr <$> ts.
(** The first and the last of the nodes, or the end. *)
Definition hdp e l : ptr := default e (head l).
Definition lsp e l : ptr := default e (last l).

Lemma lv_app lvl T U : lv lvl (T ++ U) = lv lvl T ++ lv lvl U.
Proof. unfold lv. by rewrite filter_app, fmap_app. Qed.
Lemma lv_cons lvl t T : lv lvl (t :: T) = if decide (lvl <= t_height t)%nat then t_ptr t :: lv lvl T else lv lvl T.
Proof. unfold lv. rewrite filter_cons. by case_decide. Qed.
Lemma lv_zero T : lv 0 T = ptrs T.
Proof. induction T as [|t T IH]; [done|]. rewrite lv_cons, decide_True by lia. unfold ptrs in *. cbn. by rewrite IH. Qed.
Lemma lv_subset lvl T p : p ∈ lv lvl T -> p ∈ ptrs T.
Proof. unfold lv, ptrs. intros (t & -> & [_ Ht]%list_elem_of_filter)%list_elem_of_fmap. by apply list_elem_of_fmap_2. Qed.
Lemma lv_mono (i j : nat) T : (i <= j)%nat -> lv i T = [] -> lv j T = [].
Proof.
  intros Hij. induction T as [|t T IH]; [done|]. rewrite !lv_cons. destruct (decide (i <= t_height t)%nat); [done|].
  intros H. rewrite decide_False by lia. by apply IH.
Qed.
Lemma lv_high (lvl : nat) T : (forall t, t ∈ T -> t_height t < lvl)%nat -> lv lvl T = [].
Proof.
  induction T as [|t T IH]; intros H; [done|]. rewrite lv_cons, decide_False.
  - apply IH. intros u Hu. apply H. by right.
  - specialize (H t ltac:(by left)). lia.
Qed.

Lemma hdp_app e l l' : hdp e (l ++ l') = hdp (hdp e l') l.
Proof. by destruct l. Qed.
Lemma lsp_app e l l' : lsp e (l ++ l') = lsp (lsp e l) l'.
Proof. unfold lsp. rewrite last_app. by destruct (last l'). Qed.
Lemma lsp_snoc e l p : lsp e (l ++ [p]) = p.
Proof. by rewrite lsp_app. Qed.
Lemma hdp_in e l : l <> [] -> hdp e l ∈ l.
Proof. destruct l; [done|]. intros _. by left. Qed.
Lemma lsp_in e l : l <> [] -> lsp e l ∈ l.
Proof. intros H. destruct l as [|p l _] using rev_ind; [done|]. rewrite lsp_snoc. apply elem_of_app. right. by left. Qed.
Lemma hdp_default e e' l : l <> [] -> hdp e l = hdp e' l.
Proof. by destruct l. Qed.
Lemma lsp_default e e' l : l <> [] -> lsp e l = lsp e' l.
Proof. intros H. destruct l as [|p l _] using rev_ind; [done|]. by rewrite !lsp_snoc. Qed.
Lemma hdp_lv e lvl T : hdp e (lv lvl T) = e \/ hdp e (lv lvl T) ∈ ptrs T.
Proof. destruct (lv lvl T) as [|q l] eqn:E; [by left|]. right. apply (lv_subset lvl). rewrite E. by left. Qed.
Lemma lsp_lv e lvl T : lsp e (lv lvl T) = e \/ lsp e (lv lvl T) ∈ ptrs T.
Proof.
  destruct (decide (lv lvl T = [])) as [->|H]; [by left|]. right. apply (lv_subset lvl). by apply lsp_in.
Qed.
Lemma ptrs_app T U : ptrs (T ++ U) = ptrs T ++ ptrs U.
Proof. apply fmap_app. Qed.
End towers.
Arguments tower A : clear implicits.

(* --------------------------------------------------------------------- *)
(** ** What a write changes *)

Section writes.
Context {A : Type}.
Implicit Types (s : skl (A := A)) (p q x : ptr) (lvl i : nat).

(** Everything but the links. *)
Definition frame s : gmap ptr (nat * option A) * ptr * Z * seed * Z * Z :=
  ((fun n => (n_height n, n_elem n)) <$> sk_nodes s, sk_end s, sk_size s, sk_seed s, sk_rand_bits s, sk_bits_left s).

Lemma frame_height s s' p : frame s' = frame s -> height s' p = height s p.
Proof.
  intros H. unfold frame in H. assert (E : (((fun n => (n_height n, n_elem n)) <$> sk_nodes s') : gmap _ _) !! p = ((fun n => (n_height n, n_elem n)) <$> sk_nodes s) !! p) by congruence.
  rewrite !lookup_fmap in E. unfold height. destruct (sk_nodes s' !! p), (sk_nodes s !! p); cbn in *; congruence.
Qed.
Lemma frame_elem s s' p : frame s' = frame s -> elem s' p = elem s p.
Proof.
  intros H. unfold frame in H. assert (E : (((fun n => (n_height n, n_elem n)) <$> sk_nodes s') : gmap _ _) !! p = ((fun n => (n_height n, n_elem n)) <$> sk_nodes s) !! p) by congruence.
  rewrite !lookup_fmap in E. unfold elem. destruct (sk_nodes s' !! p), (sk_nodes s !! p); cbn in *; congruence.
Qed.
Lemma frame_end s s' : frame s' = frame s -> sk_end s' = sk_end s.
Proof. unfold frame. congruence. Qed.
Lemma frame_size s s' : frame s' = frame s -> sk_size s' = sk_size s.
Proof. unfold frame. congruence. Qed.
Lemma frame_fuel s s' : frame s' = frame s -> walk_fuel s' = walk_fuel s.
Proof.
  intros H. unfold frame in H. unfold walk_fuel. f_equal.
  rewrite <- (map_size_fmap (fun n => (n_height n, n_elem n)) (sk_nodes s')), <- (map_size_fmap (fun n => (n_height n, n_elem n)) (sk_nodes s)). congruence.
Qed.
Lemma frame_dom s s' p : frame s' = frame s -> p ∈ dom (sk_nodes s') <-> p ∈ dom (sk_nodes s).
Proof.
  intros H. rewrite !elem_of_dom. pose proof (frame_height s s' p H) as E. unfold height in E.
  destruct (sk_nodes s' !! p), (sk_nodes s !! p); cbn in E; split; intros [x Hx]; try done; by eexists.
Qed.

Lemma frame_alter f p s :
  (forall n, n_height (f n) = n_height n /\ n_elem (f n) = n_elem n) -> frame (set_nodes (alter f p (sk_nodes s)) s) = frame s.
Proof.
  intros Hf. unfold frame, set_nodes. cbn. match goal with |- (?m, _, _, _, _, _) = (?m', _, _, _, _, _) => assert (E : m = m'); [|by rewrite E] end.
  apply map_eq. intros x. rewrite !lookup_fmap.
  destruct (decide (p = x)) as [<-|Hne]; [|by rewrite lookup_alter_ne by done]. rewrite lookup_alter_eq.
  destruct (sk_nodes s !! p) as [n|]; [|done]. cbn. destruct (Hf n) as [-> ->]. done.
Qed.

Lemma set_next_spec p i q s :
  is_Some (nexts s p i) ->
  exists s', set_next p i q s = inr s' /\ frame s' = frame s /\ (forall x j, prevs s' x j = prevs s x j) /\
    forall x j, nexts s' x j = if decide (x = p /\ j = i) then Some q else nexts s x j.
Proof.
  intros [r Hr]. unfold set_next, next_of. rewrite Hr. cbn. eexists. split; [done|]. split; [by apply frame_alter|].
  unfold with_next, set_nodes, nexts, prevs in *. cbn. split; intros x j.
  - destruct (decide (p = x)) as [<-|Hne]; [|by rewrite lookup_alter_ne]. rewrite lookup_alter_eq. by destruct (sk_nodes s !! p).
  - destruct (decide (p = x)) as [<-|Hne]; [|by rewrite lookup_alter_ne, decide_False by (done || by intros [? _])].
    rewrite lookup_alter_eq. destruct (sk_nodes s !! p) as [n|] eqn:E; [|done]. cbn in *.
    destruct (decide (j = i)) as [->|Hj]; [rewrite decide_True by done|rewrite decide_False by tauto].
    + apply list_lookup_insert_eq. by apply lookup_lt_Some in Hr.
    + by apply list_lookup_insert_ne.
Qed.
Lemma set_prev_spec p i q s :
  is_Some (prevs s p i) ->
  exists s', set_prev p i q s = inr s' /\ frame s' = frame s /\ (forall x j, nexts s' x j = nexts s x j) /\
    forall x j, prevs s' x j = if decide (x = p /\ j = i) then Some q else prevs s x j.
Proof.
  intros [r Hr]. unfold set_prev, prev_of. rewrite Hr. cbn. eexists. split; [done|]. split; [by apply frame_alter|].
  unfold with_prev, set_nodes, nexts, prevs in *. cbn. split; intros x j.
  - destruct (decide (p = x)) as [<-|Hne]; [|by rewrite lookup_alter_ne]. rewrite lookup_alter_eq. by destruct (sk_nodes s !! p).
  - destruct (decide (p = x)) as [<-|Hne]; [|by rewrite lookup_alter_ne, decide_False by (done || by intros [? _])].
    rewrite lookup_alter_eq. destruct (sk_nodes s !! p) as [n|] eqn:E; [|done]. cbn in *.
    destruct (decide (j = i)) as [->|Hj]; [rewrite decide_True by done|rewrite decide_False by tauto].
    + apply list_lookup_insert_eq. by apply lookup_lt_Some in Hr.
    + by apply list_lookup_insert_ne.
Qed.
End writes.

(* --------------------------------------------------------------------- *)
(** ** The invariant *)

(** [H] is the height of the end node [e]; the nodes [X] are allocated, but not
    linked. *)
Record links_ok {A} (X : list ptr) (s : skl (A := A)) (H : nat) (ts : list (tower A)) : Prop := mkLinksOk {
  lk_nodup : NoDup (sk_end s :: ptrs ts ++ X);
  lk_dom : forall p, p ∈ dom (sk_nodes s) <-> p = sk_end s \/ p ∈ ptrs ts ++ X;
  lk_end : height s (sk_end s) = Some H;
  lk_tower : forall t, t ∈ ts -> height s (t_ptr t) = Some (t_height t) /\ elem s (t_ptr t) = Some (t_elem t) /\ (t_height t <= H)%nat;
  lk_gap : forall T1 T2 lvl, ts = T1 ++ T2 -> (lvl <= H)%nat ->
    nexts s (lsp (sk_end s) (lv lvl T1)) lvl = Some (hdp (sk_end s) (lv lvl T2)) /\
    prevs s (hdp (sk_end s) (lv lvl T2)) lvl = Some (lsp (sk_end s) (lv lvl T1));
}.

Section links.
Context {A : Type}.
Implicit Types (s : skl (A := A)) (ts T U V : list (tower A)) (t : tower A) (e p q x : ptr) (lvl i : nat).

Lemma walk_enough X s H ts : links_ok X s H ts -> (length ts < walk_fuel s)%nat.
Proof.
  intros Hok. unfold walk_fuel. rewrite <- size_dom. assert (Hs : size (list_to_set (ptrs ts) : gset ptr) = length ts).
  { rewrite size_list_to_set; [by unfold ptrs; rewrite length_fmap|]. pose proof (lk_nodup _ _ _ _ Hok) as Hn.
    apply NoDup_cons in Hn as [_ Hn]. by apply NoDup_app in Hn as [Hn _]. }
  rewrite <- Hs. apply Nat.lt_succ_r, subseteq_size. intros p Hp%elem_of_list_to_set. apply (lk_dom _ _ _ _ Hok). right. apply elem_of_app. by left.
Qed.

(** The nodes at the ends of a gap are no other nodes. *)
Lemma end_not_in X s H ts p : links_ok X s H ts -> p ∈ ptrs ts ++ X -> p <> sk_end s.
Proof. intros Hok Hp ->. pose proof (lk_nodup _ _ _ _ Hok) as Hn. by apply NoDup_cons in Hn as [? _]. Qed.
Lemma parts_disjoint X s H T U p : links_ok X s H (T ++ U) -> p ∈ ptrs T -> p ∈ ptrs U -> False.
Proof.
  intros Hok Hp Hq. pose proof (lk_nodup _ _ _ _ Hok) as Hn. apply NoDup_cons in Hn as [_ Hn]. apply NoDup_app in Hn as [Hn _].
  rewrite ptrs_app in Hn. apply NoDup_app in Hn as (_ & Hn & _). by apply (Hn p).
Qed.

(** [prevs] leads to the left all over [T], and [nexts] to the right. *)
Definition to_left s e T : Prop := forall U t V, T = U ++ t :: V ->
  height s (t_ptr t) = Some (t_height t) /\ forall lvl, (lvl <= t_height t)%nat -> prevs s (t_ptr t) lvl = Some (lsp e (lv lvl U)).
Definition to_right s e T : Prop := forall U t V, T = U ++ t :: V ->
  height s (t_ptr t) = Some (t_height t) /\ forall lvl, (lvl <= t_height t)%nat -> nexts s (t_ptr t) lvl = Some (hdp e (lv lvl V)).

Lemma links_to_left X s H T1 T2 : links_ok X s H (T1 ++ T2) -> to_left s (sk_end s) T1.
Proof.
  intros Hok U t V ->. destruct (lk_tower _ _ _ _ Hok t) as (Hh & _ & Hle); [apply elem_of_app; left; apply elem_of_app; right; by left|].
  split; [done|]. intros lvl Hl. destruct (lk_gap _ _ _ _ Hok U ((t :: V) ++ T2) lvl) as [_ Hp]; [by rewrite app_assoc|lia|].
  rewrite lv_app, lv_cons, decide_True in Hp by lia. exact Hp.
Qed.
Lemma links_to_right X s H T1 T2 : links_ok X s H (T1 ++ T2) -> to_right s (sk_end s) T2.
Proof.
  intros Hok U t V ->. destruct (lk_tower _ _ _ _ Hok t) as (Hh & _ & Hle); [apply elem_of_app; right; apply elem_of_app; right; by left|].
  split; [done|]. intros lvl Hl. destruct (lk_gap _ _ _ _ Hok (T1 ++ U ++ [t]) V lvl) as [Hp _]; [by rewrite <- !app_assoc|lia|].
  rewrite !lv_app, lv_cons, decide_True, app_assoc, lsp_snoc in Hp by lia. exact Hp.
Qed.
Lemma to_left_snoc s e T t : to_left s e (T ++ [t]) -> to_left s e T.
Proof. intros H U u V ->. apply (H U u (V ++ [t])). by rewrite <- app_assoc. Qed.
Lemma to_right_cons s e T t : to_right s e (t :: T) -> to_right s e T.
Proof. intros H U u V ->. by apply (H (t :: U) u V). Qed.

Lemma climb_left_spec s e T h lvl : forall fuel,
  (length T < fuel)%nat -> height s e = Some h -> (lvl < h)%nat -> to_left s e T ->
  climb_left fuel s (lsp e (lv lvl T)) lvl = inr (lsp e (lv (S lvl) T)).
Proof.
  induction T as [|t T IH] using rev_ind; intros [|fuel] Hf He Hl Ht; try (rewrite ?length_app in Hf; cbn in Hf; lia).
  - cbn [climb_left lv]. unfold height_of. change (lsp e (lv lvl [])) with e. rewrite He. cbn.
    by rewrite (proj2 (Nat.eqb_neq lvl h)) by lia.
  - rewrite length_app in Hf. cbn in Hf. pose proof (to_left_snoc _ _ _ _ Ht) as Ht'. destruct (Ht T t []) as [Hh Hp]; [done|].
    rewrite !lv_app, !lv_cons. change (lv lvl []) with (@nil ptr). change (lv (S lvl) []) with (@nil ptr).
    destruct (decide (lvl <= t_height t)%nat) as [Hle|Hgt].
    + rewrite lsp_snoc. cbn [climb_left]. unfold height_of. rewrite Hh. cbn [or_err rbind].
      destruct (Nat.eqb_spec lvl (t_height t)) as [E|E].
      * unfold prev_of. rewrite Hp by done. cbn [or_err rbind]. rewrite decide_False, app_nil_r by lia. apply IH; (done || lia).
      * rewrite decide_True, lsp_snoc by lia. done.
    + rewrite decide_False, !app_nil_r by lia. apply IH; (done || lia).
Qed.
Lemma climb_right_spec s e T h lvl : forall fuel,
  (length T < fuel)%nat -> height s e = Some h -> (lvl < h)%nat -> to_right s e T ->
  climb_right fuel s (hdp e (lv lvl T)) lvl = inr (hdp e (lv (S lvl) T)).
Proof.
  induction T as [|t T IH]; intros [|fuel] Hf He Hl Ht; try (cbn in Hf; lia).
  - cbn [climb_right lv]. unfold height_of. change (hdp e (lv lvl [])) with e. rewrite He. cbn.
    by rewrite (proj2 (Nat.eqb_neq lvl h)) by lia.
  - cbn in Hf. pose proof (to_right_cons _ _ _ _ Ht) as Ht'. destruct (Ht [] t T) as [Hh Hp]; [done|]. rewrite !lv_cons.
    destruct (decide (lvl <= t_height t)%nat) as [Hle|Hgt].
    + change (hdp e (t_ptr t :: lv lvl T)) with (t_ptr t). cbn [climb_right]. unfold height_of. rewrite Hh. cbn [or_err rbind].
      destruct (Nat.eqb_spec lvl (t_height t)) as [E|E].
      * unfold next_of. rewrite Hp by done. cbn [or_err rbind]. rewrite decide_False by lia. apply IH; (done || lia).
      * by rewrite decide_True by lia.
    + rewrite decide_False by lia. apply IH; (done || lia).
Qed.

(* --------------------------------------------------------------------- *)
(** ** Linking *)

(** The writes on the [n] levels from [lo] on: the nodes [left] lead to [a], and
    the nodes [right] back to [b]. *)
Record linked (lo n : nat) (left right a b : nat -> ptr) s s' : Prop := mkLinked {
  li_frame : frame s' = frame s;
  li_nexts : forall x i, nexts s' x i = if decide ((lo <= i < lo + n)%nat /\ x = left i) then Some (a i) else nexts s x i;
  li_prevs : forall x i, prevs s' x i = if decide ((lo <= i < lo + n)%nat /\ x = right i) then Some (b i) else prevs s x i;
}.

Section linked.
Variables (left right a b : nat -> ptr).
Lemma linked_none lo s : linked lo 0 left right a b s s.
Proof. constructor; [done| |]; intros x i; by rewrite decide_False by lia. Qed.
Lemma linked_trans lo n m s s1 s2 : linked lo n left right a b s s1 -> linked (lo + n) m left right a b s1 s2 -> linked lo (n + m) left right a b s s2.
Proof.
  intros [F1 N1 P1] [F2 N2 P2]. constructor; [congruence| |]; intros x i; rewrite ?N2, ?N1, ?P2, ?P1;
    repeat case_decide; (done || exfalso; intuition lia).
Qed.
Lemma linked_next_first lo s :
  is_Some (nexts s (left lo) lo) -> is_Some (prevs s (right lo) lo) ->
  exists s', (let? s := set_next (left lo) lo (a lo) s in set_prev (right lo) lo (b lo) s) = inr s' /\ linked lo 1 left right a b s s'.
Proof.
  intros H1 H2. destruct (set_next_spec (left lo) lo (a lo) s H1) as (s1 & -> & F1 & P1 & N1). cbn.
  destruct (set_prev_spec (right lo) lo (b lo) s1) as (s2 & -> & F2 & N2 & P2); [by rewrite P1|]. eexists. split; [done|].
  constructor; [congruence| |]; intros x i; rewrite ?N2, ?N1, ?P2, ?P1;
    destruct (decide (lo <= i < lo + 1)%nat) as [Hi|Hi]; [assert (i = lo) as -> by lia| |assert (i = lo) as -> by lia|];
    repeat case_decide; (done || intuition (congruence || lia)).
Qed.
Lemma linked_prev_first lo s :
  is_Some (nexts s (left lo) lo) -> is_Some (prevs s (right lo) lo) ->
  exists s', (let? s := set_prev (right lo) lo (b lo) s in set_next (left lo) lo (a lo) s) = inr s' /\ linked lo 1 left right a b s s'.
Proof.
  intros H1 H2. destruct (set_prev_spec (right lo) lo (b lo) s H2) as (s1 & -> & F1 & N1 & P1). cbn.
  destruct (set_next_spec (left lo) lo (a lo) s1) as (s2 & -> & F2 & P2 & N2); [by rewrite N1|]. eexists. split; [done|].
  constructor; [congruence| |]; intros x i; rewrite ?N2, ?N1, ?P2, ?P1;
    destruct (decide (lo <= i < lo + 1)%nat) as [Hi|Hi]; [assert (i = lo) as -> by lia| |assert (i = lo) as -> by lia|];
    repeat case_decide; (done || intuition (congruence || lia)).
Qed.
Lemma linked_some lo n s s' : linked lo n left right a b s s' ->
  (forall x i, is_Some (nexts s x i) -> is_Some (nexts s' x i)) /\ (forall x i, is_Some (prevs s x i) -> is_Some (prevs s' x i)).
Proof. intros [_ N P]. split; intros x i H; rewrite ?N, ?P; case_decide; (done || by eexists). Qed.
Lemma linked_to_left lo n s s' e T : linked lo n left right a b s s' -> (forall i, right i ∉ ptrs T) -> to_left s e T -> to_left s' e T.
Proof.
  intros [F _ P] Hn Ht U t V HT. destruct (Ht U t V HT) as [Hh Hp]. rewrite (frame_height s s') by done. split; [done|].
  intros lvl Hl. rewrite P, decide_False; [by apply Hp|]. intros [_ E]. apply (Hn lvl). rewrite <- E. subst T. apply list_elem_of_fmap_2, elem_of_app. right. by left.
Qed.
Lemma linked_to_right lo n s s' e T : linked lo n left right a b s s' -> (forall i, left i ∉ ptrs T) -> to_right s e T -> to_right s' e T.
Proof.
  intros [F N _] Hn Ht U t V HT. destruct (Ht U t V HT) as [Hh Hp]. rewrite (frame_height s s') by done. split; [done|].
  intros lvl Hl. rewrite N, decide_False; [by apply Hp|]. intros [_ E]. apply (Hn lvl). rewrite <- E. subst T. apply list_elem_of_fmap_2, elem_of_app. right. by left.
Qed.
End linked.

(** The ends of a gap. *)
Definition Lend e T i : ptr := lsp e (lv i T).
Definition Rend e T i : ptr := hdp e (lv i T).

Lemma link_left_above_spec e T p h : forall n lvl s,
  height s e = Some h -> (lvl + n <= h)%nat -> (length T < walk_fuel s)%nat -> to_left s e T -> p ∉ ptrs T ->
  (forall i, (i <= h)%nat -> is_Some (nexts s (Lend e T i) i)) -> (forall i, (i <= lvl + n)%nat -> is_Some (prevs s p i)) ->
  exists s', link_left_above n lvl (Lend e T lvl) p s = inr s' /\ linked (S lvl) n (Lend e T) (fun _ => p) (fun _ => p) (Lend e T) s s'.
Proof.
  induction n as [|n IH]; intros lvl s He Hle Hf Ht Hp Hn Hv; cbn [link_left_above]; [exists s; split; [done|apply linked_none]|].
  unfold Lend at 1. rewrite (climb_left_spec s e T h lvl) by (done || lia). cbn [rbind]. change (lsp e (lv (S lvl) T)) with (Lend e T (S lvl)).
  destruct (linked_prev_first (Lend e T) (fun _ => p) (fun _ => p) (Lend e T) (S lvl) s) as (s1 & E & H1); [apply Hn; lia|apply Hv; lia|].
  destruct (set_prev p (S lvl) _ s) as [|s0]; [done|]. cbn [rbind] in *. rewrite E. cbn [rbind].
  destruct (linked_some _ _ _ _ _ _ _ _ H1) as [S1 S2]. pose proof (li_frame _ _ _ _ _ _ _ _ H1) as F1.
  destruct (IH (S lvl) s1) as (s2 & -> & H2); [by rewrite (frame_height s)|lia|by rewrite (frame_fuel s)| |done|auto| |].
  - eapply linked_to_left; [exact H1|by intros ?|done].
  - intros i Hi. apply S2, Hv. lia.
  - exists s2. split; [done|]. eapply (linked_trans _ _ _ _ _ 1); [exact H1|]. by replace (S lvl + 1)%nat with (S (S lvl)) by lia.
Qed.
Lemma link_right_above_spec e T p h : forall n lvl s,
  height s e = Some h -> (lvl + n <= h)%nat -> (length T < walk_fuel s)%nat -> to_right s e T -> p ∉ ptrs T ->
  (forall i, (i <= h)%nat -> is_Some (prevs s (Rend e T i) i)) -> (forall i, (i <= lvl + n)%nat -> is_Some (nexts s p i)) ->
  exists s', link_right_above n lvl (Rend e T lvl) p s = inr s' /\ linked (S lvl) n (fun _ => p) (Rend e T) (Rend e T) (fun _ => p) s s'.
Proof.
  induction n as [|n IH]; intros lvl s He Hle Hf Ht Hp Hn Hv; cbn [link_right_above]; [exists s; split; [done|apply linked_none]|].
  unfold Rend at 1. rewrite (climb_right_spec s e T h lvl) by (done || lia). cbn [rbind]. change (hdp e (lv (S lvl) T)) with (Rend e T (S lvl)).
  destruct (linked_next_first (fun _ => p) (Rend e T) (Rend e T) (fun _ => p) (S lvl) s) as (s1 & E & H1); [apply Hv; lia|apply Hn; lia|].
  destruct (set_next p (S lvl) _ s) as [|s0]; [done|]. cbn [rbind] in *. rewrite E. cbn [rbind].
  destruct (linked_some _ _ _ _ _ _ _ _ H1) as [S1 S2]. pose proof (li_frame _ _ _ _ _ _ _ _ H1) as F1.
  destruct (IH (S lvl) s1) as (s2 & -> & H2); [by rewrite (frame_height s)|lia|by rewrite (frame_fuel s)| |done|auto| |].
  - eapply linked_to_right; [exact H1|by intros ?|done].
  - intros i Hi. apply S1, Hv. lia.
  - exists s2. split; [done|]. eapply (linked_trans _ _ _ _ _ 1); [exact H1|]. by replace (S lvl + 1)%nat with (S (S lvl)) by lia.
Qed.
Lemma stitch_spec e T1 T2 h : forall n lvl s,
  height s e = Some h -> (lvl + n <= h)%nat -> (length T1 < walk_fuel s)%nat -> (length T2 < walk_fuel s)%nat -> to_left s e T1 -> to_right s e T2 ->
  (forall i, Rend e T2 i ∉ ptrs T1) -> (forall i, Lend e T1 i ∉ ptrs T2) ->
  (forall i, (i <= h)%nat -> is_Some (nexts s (Lend e T1 i) i)) -> (forall i, (i <= h)%nat -> is_Some (prevs s (Rend e T2 i) i)) ->
  exists s', stitch n lvl (Lend e T1 lvl) (Rend e T2 lvl) s = inr s' /\ linked (S lvl) n (Lend e T1) (Rend e T2) (Rend e T2) (Lend e T1) s s'.
Proof.
  induction n as [|n IH]; intros lvl s He Hle Hf1 Hf2 Ht1 Ht2 Hp1 Hp2 Hn Hv; cbn [stitch]; [exists s; split; [done|apply linked_none]|].
  unfold Lend at 1, Rend at 1. rewrite (climb_left_spec s e T1 h lvl), (climb_right_spec s e T2 h lvl) by (done || lia). cbn [rbind].
  change (hdp e (lv (S lvl) T2)) with (Rend e T2 (S lvl)). change (lsp e (lv (S lvl) T1)) with (Lend e T1 (S lvl)).
  destruct (linked_next_first (Lend e T1) (Rend e T2) (Rend e T2) (Lend e T1) (S lvl) s) as (s1 & E & H1); [apply Hn; lia|apply Hv; lia|].
  destruct (set_next _ (S lvl) _ s) as [|s0]; [done|]. cbn [rbind] in *. rewrite E. cbn [rbind].
  destruct (linked_some _ _ _ _ _ _ _ _ H1) as [S1 S2]. pose proof (li_frame _ _ _ _ _ _ _ _ H1) as F1.
  destruct (IH (S lvl) s1) as (s2 & -> & H2); [by rewrite (frame_height s)|lia|by rewrite (frame_fuel s)|by rewrite (frame_fuel s)| | |done|done|auto|auto|].
  - eapply linked_to_left; [exact H1|done|done].
  - eapply linked_to_right; [exact H1|done|done].
  - exists s2. split; [done|]. eapply (linked_trans _ _ _ _ _ 1); [exact H1|]. by replace (S lvl + 1)%nat with (S (S lvl)) by lia.
Qed.

(** A gap of a list with a tower more is left or right of the tower. *)
Lemma split_around U V T1 t T2 :
  T1 ++ t :: T2 = U ++ V ->
  (exists V', T1 = U ++ V' /\ V = V' ++ t :: T2) \/ (exists U', U = T1 ++ t :: U' /\ T2 = U' ++ V).
Proof.
  revert U. induction T1 as [|u T1 IH]; intros [|v U] E; cbn in E.
  - left. exists []. by rewrite <- E.
  - injection E as <- ->. right. by exists U.
  - left. exists (u :: T1). by rewrite <- E.
  - injection E as <- E. destruct (IH U E) as [(V' & -> & ->)|(U' & -> & ->)]; [left; by exists V'|right; by exists U'].
Qed.

Section insertion.
Context (X : list ptr) (s : skl (A := A)) (H : nat) (T1 T2 : list (tower A)) (p : ptr) (h : nat) (a : A).
Hypothesis Hok : links_ok (p :: X) s H (T1 ++ T2).
Abbreviation e := (sk_end s).
Abbreviation L := (Lend e T1).
Abbreviation R := (Rend e T2).

Lemma new_apart : p <> e /\ (p ∉ ptrs T1) /\ (p ∉ ptrs T2) /\ (forall x, x ∈ ptrs T1 -> x <> e /\ (x ∉ ptrs T2)) /\ (forall x, x ∈ ptrs T2 -> x <> e).
Proof.
  pose proof (lk_nodup _ _ _ _ Hok) as Hn. apply NoDup_cons in Hn as [He Hn]. rewrite ptrs_app in *. rewrite <- app_assoc in *.
  apply NoDup_app in Hn as (N1 & D1 & Hn). apply NoDup_app in Hn as (N2 & D2 & N3).
  rewrite !elem_of_app, !elem_of_cons in He. split_and!.
  - intros E. apply He. auto.
  - intros Hp. apply (D1 p Hp). apply elem_of_app. right. by left.
  - intros Hp. apply (D2 p Hp). by left.
  - intros x Hx. split; [intros ->; tauto|]. intros Hx2. apply (D1 x Hx). apply elem_of_app. by left.
  - intros x Hx ->. tauto.
Qed.
Lemma L_apart i : L i <> p /\ (L i ∉ ptrs T2).
Proof.
  destruct new_apart as (H1 & H2 & H3 & H4 & H5). unfold Lend. destruct (lsp_lv e i T1) as [->|Hin].
  - split; [done|]. intros Hx. by destruct (H5 _ Hx).
  - split; [by intros E; rewrite E in Hin|]. by apply H4.
Qed.
Lemma R_apart i : R i <> p /\ (R i ∉ ptrs T1).
Proof.
  destruct new_apart as (H1 & H2 & H3 & H4 & H5). unfold Rend. destruct (hdp_lv e i T2) as [->|Hin].
  - split; [done|]. intros Hx. by destruct (H4 _ Hx).
  - split; [by intros E; rewrite E in Hin|]. intros Hx. by destruct (H4 _ Hx).
Qed.

(** What linking writes. *)
Lemma link_writes :
  height s p = Some h -> (h <= H)%nat -> (forall i, (i <= h)%nat -> is_Some (prevs s p i) /\ is_Some (nexts s p i)) ->
  exists s1 s2, stdskl_low_link_left (hdp e (ptrs T2)) p s = inr s1 /\ stdskl_low_link_right (hdp e (ptrs T2)) p s1 = inr s2 /\
    linked 0 (S h) L (fun _ => p) (fun _ => p) L s s1 /\ linked 0 (S h) (fun _ => p) R R (fun _ => p) s1 s2.
Proof.
  intros Hh Hle Hp. destruct new_apart as (P1 & P2 & P3 & P4 & P5). pose proof (walk_enough _ _ _ _ Hok) as Hf. rewrite length_app in Hf.
  assert (Hgap : forall i, (i <= H)%nat -> nexts s (L i) i = Some (R i) /\ prevs s (R i) i = Some (L i)) by (intros i; by apply (lk_gap _ _ _ _ Hok)).
  pose proof (lk_end _ _ _ _ Hok) as He. rewrite <- (lv_zero T2). change (hdp e (lv 0 T2)) with (R 0).
  destruct (Hgap 0%nat) as [G1 G2]; [lia|].
  destruct (linked_prev_first L (fun _ => p) (fun _ => p) L 0 s) as (sa & E & Ha); [by rewrite G1|apply Hp; lia|].
  unfold stdskl_low_link_left, height_of, prev_of. rewrite G2, Hh. cbn [or_err rbind].
  destruct (set_prev p 0 _ s) as [|s0]; [done|]. cbn [rbind] in *. rewrite E. cbn [rbind].
  destruct (linked_some _ _ _ _ _ _ _ _ Ha) as [S1 S2]. pose proof (li_frame _ _ _ _ _ _ _ _ Ha) as Fa.
  destruct (link_left_above_spec e T1 p H h 0 sa) as (s1 & -> & H1); [by rewrite (frame_height s)|done|rewrite (frame_fuel s) by done; lia| |done| |intros i Hi; apply S2, Hp; lia|].
  { eapply linked_to_left; [exact Ha|by intros ?|by eapply links_to_left]. }
  { intros i Hi. apply S1. destruct (Hgap i Hi) as [-> _]. done. }
  pose proof (linked_trans _ _ _ _ 0 1 _ _ _ _ Ha H1) as Hleft. cbn [Nat.add] in Hleft.
  destruct (linked_some _ _ _ _ _ _ _ _ Hleft) as [S3 S4]. pose proof (li_frame _ _ _ _ _ _ _ _ Hleft) as F1.
  destruct (linked_next_first (fun _ => p) R R (fun _ => p) 0 s1) as (sb & E2 & Hb); [apply S3, Hp; lia|apply S4; by rewrite G2|].
  exists s1. unfold stdskl_low_link_right, height_of. rewrite (frame_height s s1), Hh by done. cbn [or_err rbind].
  destruct (set_next p 0 _ s1) as [|s0']; [done|]. cbn [rbind] in *. rewrite E2. cbn [rbind].
  destruct (linked_some _ _ _ _ _ _ _ _ Hb) as [S5 S6]. pose proof (li_frame _ _ _ _ _ _ _ _ Hb) as Fb.
  destruct (link_right_above_spec e T2 p H h 0 sb) as (s2 & -> & H2); [by rewrite (frame_height s1 sb _ Fb), (frame_height s s1 _ F1)|done| | |done| |intros i Hi; apply S5, S3, Hp; lia|].
  { rewrite (frame_fuel s1 sb Fb), (frame_fuel s s1 F1). lia. }
  { eapply linked_to_right; [exact Hb|by intros ?|]. eapply linked_to_right; [exact Hleft| |by eapply links_to_right]. intros i. apply L_apart. }
  { intros i Hi. apply S6, S4. destruct (Hgap i Hi) as [_ ->]. done. }
  exists s2. split; [done|]. split; [done|]. split; [done|]. exact (linked_trans _ _ _ _ 0 1 _ _ _ _ Hb H2).
Qed.

Section linked_in.
Context (s1 s2 : skl (A := A)).
Hypothesis Hh : height s p = Some h.
Hypothesis Hle : (h <= H)%nat.
Hypothesis H1 : linked 0 (S h) L (fun _ => p) (fun _ => p) L s s1.
Hypothesis H2 : linked 0 (S h) (fun _ => p) R R (fun _ => p) s1 s2.
Abbreviation t := (mkTower p h a).

Lemma linked_frame : frame s2 = frame s.
Proof. destruct H1, H2. congruence. Qed.
Lemma linked_nexts x i : nexts s2 x i = if decide (i <= h)%nat then (if decide (x = p) then Some (R i) else if decide (x = L i) then Some p else nexts s x i) else nexts s x i.
Proof. rewrite (li_nexts _ _ _ _ _ _ _ _ H2), (li_nexts _ _ _ _ _ _ _ _ H1). repeat case_decide; (done || exfalso; intuition lia). Qed.
Lemma linked_prevs x i : prevs s2 x i = if decide (i <= h)%nat then (if decide (x = R i) then Some p else if decide (x = p) then Some (L i) else prevs s x i) else prevs s x i.
Proof. rewrite (li_prevs _ _ _ _ _ _ _ _ H2), (li_prevs _ _ _ _ _ _ _ _ H1). repeat case_decide; (done || exfalso; intuition lia). Qed.

(** The gaps to the left of the new tower. *)
Lemma gap_left U V i : T1 = U ++ V -> (i <= H)%nat ->
  nexts s2 (lsp e (lv i U)) i = Some (hdp e (lv i (V ++ t :: T2))) /\ prevs s2 (hdp e (lv i (V ++ t :: T2))) i = Some (lsp e (lv i U)).
Proof.
  intros HT Hi. destruct new_apart as (P1 & P2 & P3 & P4 & P5).
  destruct (lk_gap _ _ _ _ Hok U (V ++ T2) i) as [G1 G2]; [by rewrite HT, app_assoc|done|].
  assert (HU : lsp e (lv i U) = e \/ lsp e (lv i U) ∈ ptrs T1).
  { destruct (lsp_lv e i U) as [?|?]; [by left|right]. rewrite HT, ptrs_app. apply elem_of_app. by left. }
  assert (HUp : lsp e (lv i U) <> p) by (destruct HU as [-> |HU]; [done|by intros E; rewrite E in HU]).
  rewrite lv_app in G1, G2. rewrite lv_app, lv_cons. cbn [t_height t_ptr]. rewrite linked_nexts, linked_prevs. destruct (decide (i <= h)%nat) as [Hih|Hih]; [|done].
  rewrite hdp_app. change (hdp e (p :: lv i T2)) with p. rewrite (decide_False (P := lsp e (lv i U) = p)) by done. destruct (lv i V) as [|q l] eqn:E.
  - assert (HL : L i = lsp e (lv i U)) by (unfold Lend; by rewrite HT, lv_app, E, app_nil_r).
    change (hdp p []) with p. rewrite decide_True by done. split; [done|]. rewrite decide_False, decide_True by (done || by apply not_eq_sym, R_apart). by rewrite HL.
  - change (hdp p (q :: l)) with q in *. assert (Hq : q ∈ ptrs V) by (apply (lv_subset i); rewrite E; by left).
    assert (Hq1 : q ∈ ptrs T1) by (rewrite HT, ptrs_app; apply elem_of_app; by right).
    assert (HL : L i ∈ ptrs V). { unfold Lend. rewrite HT, lv_app, E, lsp_app. apply (lv_subset i). rewrite E. by apply lsp_in. }
    rewrite (decide_False (P := lsp e (lv i U) = L i)).
    + split; [exact G1|]. rewrite (decide_False (P := q = p)) by (intros ->; done).
      rewrite (decide_False (P := q = R i)) by (intros ->; by apply R_apart in Hq1). exact G2.
    + intros EL. destruct HU as [HU|HU]; [|].
      * rewrite <- EL, HU in HL. assert (Hin : e ∈ ptrs T1) by (rewrite HT, ptrs_app; apply elem_of_app; by right). by destruct (P4 _ Hin).
      * destruct (lsp_lv e i U) as [HU'|HU']; [rewrite HU' in HU; by destruct (P4 _ HU)|]. rewrite <- EL in HL.
        pose proof (lk_nodup _ _ _ _ Hok) as Hn. apply NoDup_cons in Hn as [_ Hn]. rewrite HT, <- app_assoc, ptrs_app in Hn. rewrite ptrs_app, <- !app_assoc in Hn.
        apply NoDup_app in Hn as (_ & Hd & _). apply (Hd _ HU'). apply elem_of_app. by left.
Qed.
(** The gaps to the right of it. *)
Lemma gap_right U V i : T2 = U ++ V -> (i <= H)%nat ->
  nexts s2 (lsp e (lv i (T1 ++ t :: U))) i = Some (hdp e (lv i V)) /\ prevs s2 (hdp e (lv i V)) i = Some (lsp e (lv i (T1 ++ t :: U))).
Proof.
  intros HT Hi. destruct new_apart as (P1 & P2 & P3 & P4 & P5).
  destruct (lk_gap _ _ _ _ Hok (T1 ++ U) V i) as [G1 G2]; [by rewrite HT, app_assoc|done|].
  assert (HV : hdp e (lv i V) = e \/ hdp e (lv i V) ∈ ptrs V) by apply hdp_lv.
  assert (HV2 : hdp e (lv i V) = e \/ hdp e (lv i V) ∈ ptrs T2).
  { destruct HV as [?|?]; [by left|right]. rewrite HT, ptrs_app. apply elem_of_app. by right. }
  assert (HVp : hdp e (lv i V) <> p) by (destruct HV2 as [-> |E1]; [done|by intros E; rewrite E in E1]).
  rewrite lv_app in G1, G2. rewrite lv_app, lv_cons. cbn [t_height t_ptr]. rewrite linked_nexts, linked_prevs. destruct (decide (i <= h)%nat) as [Hih|Hih]; [|done].
  replace (lsp e (lv i T1 ++ p :: lv i U)) with (lsp p (lv i U)) by (by rewrite (cons_middle p), app_assoc, lsp_app, lsp_snoc).
  rewrite (decide_False (P := hdp e (lv i V) = p)) by done. destruct (decide (lv i U = [])) as [E|E].
  - assert (HR : R i = hdp e (lv i V)) by (unfold Rend; by rewrite HT, lv_app, E).
    rewrite E in *. change (lsp p []) with p. rewrite decide_True by done. split; [by rewrite HR|]. by rewrite decide_True.
  - assert (Hq : lsp p (lv i U) ∈ ptrs U) by (apply (lv_subset i); by apply lsp_in).
    assert (Hq2 : lsp p (lv i U) ∈ ptrs T2) by (rewrite HT, ptrs_app; apply elem_of_app; by left).
    rewrite lsp_app, (lsp_default _ p _ E) in G1, G2.
    assert (HR : R i ∈ ptrs U). { unfold Rend. rewrite HT, lv_app, hdp_app. apply (lv_subset i). by apply hdp_in. }
    rewrite (decide_False (P := hdp e (lv i V) = R i)).
    + split; [|exact G2]. rewrite (decide_False (P := lsp p (lv i U) = p)) by (intros E'; by rewrite E' in Hq2).
      rewrite (decide_False (P := lsp p (lv i U) = L i)) by (intros E'; rewrite E' in Hq2; by apply L_apart in Hq2). exact G1.
    + intros ER. destruct HV as [HV|HV].
      * rewrite <- ER, HV in HR. assert (Hin : e ∈ ptrs T2) by (rewrite HT, ptrs_app; apply elem_of_app; by left). by destruct (P5 _ Hin).
      * rewrite <- ER in HR. pose proof (lk_nodup _ _ _ _ Hok) as Hn. apply NoDup_cons in Hn as [_ Hn]. apply NoDup_app in Hn as [Hn _].
        rewrite HT, !ptrs_app in Hn. apply NoDup_app in Hn as (_ & _ & Hn). apply NoDup_app in Hn as (_ & Hd & _). by apply (Hd _ HR).
Qed.

Lemma linked_ok : elem s p = Some a -> links_ok X s2 H (T1 ++ t :: T2).
Proof.
  intros Ha. pose proof linked_frame as F. pose proof (frame_end _ _ F) as Fe. constructor; rewrite ?Fe.
  - pose proof (lk_nodup _ _ _ _ Hok) as Hn. rewrite ptrs_app in *. change (ptrs (t :: T2)) with (p :: ptrs T2).
    assert (E : e :: (ptrs T1 ++ p :: ptrs T2) ++ X ≡ₚ e :: (ptrs T1 ++ ptrs T2) ++ p :: X) by solve_Permutation. by rewrite E.
  - intros x. rewrite (frame_dom s s2 x F), (lk_dom _ _ _ _ Hok x), !ptrs_app. change (ptrs (t :: T2)) with (p :: ptrs T2).
    rewrite !elem_of_app, !elem_of_cons. tauto.
  - rewrite (frame_height s s2 _ F). apply (lk_end _ _ _ _ Hok).
  - intros u Hu. rewrite (frame_height s s2 _ F), (frame_elem s s2 _ F). rewrite elem_of_app, elem_of_cons in Hu.
    destruct Hu as [Hu|[-> |Hu]]; [|done|]; apply (lk_tower _ _ _ _ Hok); apply elem_of_app; auto.
  - intros U V i HT Hi. destruct (split_around U V T1 t T2 HT) as [(V' & E & ->)|(U' & -> & E)]; [by apply gap_left|by apply gap_right].
Qed.
End linked_in.
End insertion.
End links.
