(* ===== verification/SkipSteps.v ===== *)
(** * Searching, growing and erasing a skip list

    Whatever the heights, a search stops at the first entry that is not before
    the key, finds it exactly when it has the key, and ends.  Allocating a
    node changes no link; a taller end node takes the place of the old one on
    every level where there is anybody, and leads to itself on the others.
    The nodes between two places are freed and the two sides stitched together
    on all levels the freed nodes were on. *)

From Stdlib Require Import ZArith Lia.
From stdpp Require Import base strings numbers option gmap list.
From S2P Require Import Prelude Skl SkipList SkipLinks.

(* --------------------------------------------------------------------- *)
(** ** Searching *)

Section find.
Context {A K : Type} (key : A -> K) (cmp : K -> K -> Z).
Context (X : list ptr) (s : skl (A := A)) (H : nat) (T1 T2 : list (tower A)) (k : K).
Hypothesis Hok : links_ok X s H (T1 ++ T2).
(** The entries before the key and the others, of which only the first can
    have it. *)
Hypothesis Hbefore : forall t, t ∈ T1 -> 0 < cmp k (key (t_elem t)).
Hypothesis Hafter : forall t, t ∈ T2 -> cmp k (key (t_elem t)) <= 0.
Hypothesis Hrest : forall t, t ∈ tail T2 -> cmp k (key (t_elem t)) < 0.
Abbreviation e := (sk_end s).
Implicit Types (U V : list (tower A)) (lvl i : nat) (c : Z).

Lemma node_at t : t ∈ T1 ++ T2 -> t_ptr t <> e /\ elem s (t_ptr t) = Some (t_elem t).
Proof.
  intros Ht. split; [|by apply (lk_tower _ _ _ _ Hok)]. apply (end_not_in X s H (T1 ++ T2)); [done|]. apply elem_of_app. left. by apply list_elem_of_fmap_2.
Qed.
(** [c] is the last comparison, with [n]. *)
Definition compared (n : ptr) c : Prop := n <> e -> exists x, elem s n = Some x /\ c = cmp k (key x).

Lemma run_right_spec lvl V : forall fuel U c,
  T1 = U ++ V -> (lvl <= H)%nat -> (length V < fuel)%nat ->
  exists c', run_right key cmp fuel s k lvl (lsp e (lv lvl U)) (hdp e (lv lvl (V ++ T2))) c = inr (lsp e (lv lvl T1), hdp e (lv lvl T2), c') /\
    compared (hdp e (lv lvl T2)) c'.
Proof.
  induction V as [|v V IH]; intros [|fuel] U c HT Hl Hf; cbn in Hf; try lia.
  - rewrite app_nil_r in HT. subst U. cbn [app run_right]. destruct (bool_decide_reflect (hdp e (lv lvl T2) = e)) as [E|E]; [exists c; split; [done|by intros ?]|].
    assert (Hin : exists t, t ∈ T2 /\ hdp e (lv lvl T2) = t_ptr t).
    { destruct (hdp_lv e lvl T2) as [?|(t & ? & ?)%list_elem_of_fmap]; [done|by exists t]. }
    destruct Hin as (t & Ht & ->). destruct (node_at t) as [_ Hel]; [apply elem_of_app; by right|]. unfold nkey. rewrite Hel. cbn [or_err rbind].
    pose proof (Hafter t Ht). rewrite (proj2 (Z.ltb_ge _ _)) by lia. exists (cmp k (key (t_elem t))). split; [done|]. intros _. by exists (t_elem t).
  - assert (HT' : T1 = (U ++ [v]) ++ V) by by rewrite <- app_assoc. cbn [app]. rewrite lv_cons. destruct (decide (lvl <= t_height v)%nat) as [Hv|Hv].
    + cbn [run_right]. change (hdp e (t_ptr v :: _)) with (t_ptr v).
      assert (Hin : v ∈ T1) by (rewrite HT; apply elem_of_app; right; by left).
      destruct (node_at v) as [Hne Hel]; [apply elem_of_app; by left|]. rewrite bool_decide_false by done. unfold nkey. rewrite Hel. cbn [or_err rbind].
      rewrite (proj2 (Z.ltb_lt _ _)) by by apply Hbefore. destruct (lk_gap _ _ _ _ Hok (U ++ [v]) (V ++ T2) lvl) as [Hn _]; [by rewrite HT', <- !app_assoc|done|].
      assert (Hlast : lsp e (lv lvl (U ++ [v])) = t_ptr v) by by rewrite lv_app, lv_cons, decide_True, lsp_snoc.
      rewrite Hlast in Hn. unfold next_of. rewrite Hn. cbn [or_err rbind]. rewrite <- Hlast. apply IH; [done|done|lia].
    + replace (lsp e (lv lvl U)) with (lsp e (lv lvl (U ++ [v]))) by by rewrite lv_app, lv_cons, decide_False, app_nil_r by lia.
      apply IH; [done|done|lia].
Qed.

(** [curr] is where the search is, on [lvl] and all levels below. *)
Definition reached (curr : ptr) lvl : Prop := exists U V, T1 = U ++ V /\ forall i, (i <= lvl)%nat -> curr = lsp e (lv i U).
Lemma reached_below curr (lvl i : nat) : (i <= lvl)%nat -> reached curr lvl -> reached curr i.
Proof. intros Hi (U & V & HT & Hc). exists U, V. split; [done|]. intros j Hj. apply Hc. lia. Qed.
Lemma reached_last lvl : reached (lsp e (lv lvl T1)) lvl.
Proof.
  unfold reached. clear Hok Hbefore. induction T1 as [|t T IH] using rev_ind.
  - exists [], []. split; [done|]. intros i _. done.
  - rewrite lv_app, lv_cons. destruct (decide (lvl <= t_height t)%nat) as [Hl|Hl].
    + exists (T ++ [t]), []. split; [by rewrite app_nil_r|]. intros i Hi. by rewrite lv_app, lv_cons, decide_True, !lsp_snoc by lia.
    + destruct IH as (U & V & -> & Hc). exists U, (V ++ [t]). split; [by rewrite app_assoc|]. by rewrite app_nil_r.
Qed.
Lemma reached_next curr lvl i : reached curr lvl -> (i <= lvl)%nat -> (i <= H)%nat -> is_Some (nexts s curr i).
Proof.
  intros (U & V & HT & Hc) Hi HiH. rewrite (Hc i Hi). destruct (lk_gap _ _ _ _ Hok U (V ++ T2) i) as [-> _]; [by rewrite HT, app_assoc|done|done].
Qed.

Lemma run_down_spec curr next l : (l <= H)%nat -> reached curr l -> exists l', run_down s curr next l = inr l' /\ (l' <= l)%nat.
Proof.
  induction l as [|l IH]; intros Hl Hr; cbn [run_down]; [by exists 0%nat|].
  destruct (reached_next curr (S l) (S l) Hr) as [q Hq]; [done|done|]. unfold next_of. rewrite Hq. cbn [or_err rbind].
  destruct (bool_decide (q = next)); [|by exists (S l)]. destruct IH as (l' & -> & Hl'); [lia|by eapply reached_below; [|exact Hr]; lia|]. exists l'. split; [done|lia].
Qed.

(** What the upper levels give. *)
Definition levels_done (r : ptr + ptr * option ptr * Z) : Prop :=
  match r with
  | inl n => exists t, t ∈ T2 /\ n = t_ptr t /\ cmp k (key (t_elem t)) = 0
  | inr (curr, next, c) => reached curr 0 /\ forall n, next = Some n -> compared n c /\ exists i, n = hdp e (lv i T2)
  end.
Lemma find_levels_spec any : forall fuel lvl curr next c,
  (lvl <= fuel)%nat -> (lvl <= H)%nat -> reached curr lvl -> levels_done (inr (curr, next, c)) ->
  exists r, find_levels key cmp fuel s k any lvl curr next c = inr r /\ levels_done r.
Proof.
  induction fuel as [|fuel IH]; intros [|l] curr next c Hf Hl Hr Hd; cbn [find_levels]; try (lia || by eexists).
  destruct Hr as (U & V & HT & Hc). destruct (lk_gap _ _ _ _ Hok U (V ++ T2) (S l)) as [Hn _]; [by rewrite HT, app_assoc|done|].
  rewrite <- (Hc (S l) (Nat.le_refl _)) in Hn. unfold next_of. rewrite Hn. cbn [or_err rbind]. rewrite (Hc (S l) (Nat.le_refl _)).
  pose proof (walk_enough _ _ _ _ Hok) as Hw. rewrite HT, !length_app in Hw.
  destruct (run_right_spec (S l) V (walk_fuel s) U c HT Hl) as (c' & -> & Hcmp); [lia|]. cbn [rbind].
  destruct (any && negb (bool_decide (hdp e (lv (S l) T2) = e)) && (c' =? 0)) eqn:Eany.
  - apply andb_true_iff in Eany as [[_ Ene%negb_true_iff%bool_decide_eq_false]%andb_true_iff Ec%Z.eqb_eq]. eexists. split; [done|]. cbn.
    destruct (hdp_lv e (S l) T2) as [?|(t & Et & Ht)%list_elem_of_fmap]; [done|]. exists t. split; [done|]. split; [done|].
    destruct (Hcmp Ene) as (x & Hx & ->). rewrite Et in Hx. destruct (node_at t) as [_ Hel]; [apply elem_of_app; by right|]. congruence.
  - pose proof (reached_last (S l)) as Hr. destruct (run_down_spec (lsp e (lv (S l) T1)) (hdp e (lv (S l) T2)) l) as (l' & -> & Hl'); [lia|by eapply reached_below; [|exact Hr]; lia|].
    cbn [rbind]. apply IH; [lia|lia|by eapply reached_below; [|exact Hr]; lia|]. split; [by eapply reached_below; [|exact Hr]; lia|].
    intros n [= <-]. split; [done|by eexists].
Qed.

(** The entry has the key. *)
Definition head_is : bool := match T2 with t :: _ => cmp k (key (t_elem t)) =? 0 | [] => false end.
Lemma head_compared c : compared (hdp e (ptrs T2)) c -> negb (bool_decide (hdp e (ptrs T2) = e)) && (c =? 0) = head_is.
Proof.
  pose proof node_at as Hat. unfold head_is, compared. destruct T2 as [|t T]; [by rewrite bool_decide_true|]. change (hdp e (ptrs (t :: T))) with (t_ptr t).
  destruct (Hat t) as [Hne Hel]; [apply elem_of_app; right; by left|]. rewrite bool_decide_false by done. intros Hc. destruct (Hc Hne) as (x & Hx & ->).
  cbn [negb andb]. congruence.
Qed.

Lemma find_right_spec any : stdskl_low_find_right key cmp s k any = inr (head_is, hdp e (ptrs T2)).
Proof.
  unfold stdskl_low_find_right, height_of. rewrite (lk_end _ _ _ _ Hok). cbn [or_err rbind].
  destruct (find_levels_spec any H H e None (-1)) as (r & -> & Hr); [done|done|by exists [], T1|split; [by exists [], T1|done]|]. cbn [rbind].
  destruct r as [n|[[curr next] c]].
  - destruct Hr as (t & Ht & -> & Hc). unfold head_is. destruct T2 as [|u T]; [by apply elem_of_nil in Ht|].
    apply elem_of_cons in Ht as [->|Ht]; [by rewrite Hc|]. specialize (Hrest t Ht). lia.
  - destruct Hr as [(U & V & HT & Hc) Hn]. destruct (lk_gap _ _ _ _ Hok U (V ++ T2) 0) as [Hg _]; [by rewrite HT, app_assoc|lia|].
    rewrite <- (Hc 0%nat (Nat.le_refl _)) in Hg. unfold next_of. rewrite Hg. cbn [or_err rbind]. rewrite lv_zero in *.
    destruct (bool_decide_reflect (next = Some (hdp e (ptrs (V ++ T2))))) as [E|E].
    + destruct (Hn _ E) as [Hcmp [i Hi]]. assert (HV : V = []).
      { destruct V as [|v V]; [done|exfalso]. cbn in Hi. assert (Hv : v ∈ T1) by (rewrite HT; apply elem_of_app; right; by left).
        destruct (hdp_lv e i T2) as [E2|E2].
        - destruct (node_at v) as [Hne _]; [apply elem_of_app; by left|]. rewrite E2 in Hi. by destruct Hne.
        - apply (parts_disjoint X s H T1 T2 (t_ptr v) Hok); [by apply list_elem_of_fmap_2|]. change (t_ptr v) with (hdp e (t_ptr v :: ptrs (V ++ T2))). by rewrite Hi. }
      subst V. cbn [app rbind] in *. by rewrite head_compared.
    + pose proof (walk_enough _ _ _ _ Hok) as Hw. rewrite HT, !length_app in Hw.
      destruct (run_right_spec 0 V (walk_fuel s) U c HT) as (c' & Hrun & Hcmp); [lia|lia|]. rewrite !lv_zero in *.
      rewrite (Hc 0%nat (Nat.le_refl _)). rewrite lv_zero, Hrun. cbn [rbind]. by rewrite head_compared.
Qed.
End find.

(* --------------------------------------------------------------------- *)
(** ** New nodes *)

Section grow.
Context {A : Type}.
Implicit Types (s : skl (A := A)) (ts U V : list (tower A)) (X : list ptr) (H h i lvl : nat) (p x : ptr).

(** The links are where they were when the linked nodes are. *)
Lemma links_ok_ext X X' s s' H ts :
  links_ok X s H ts -> sk_end s' = sk_end s ->
  (forall x, x = sk_end s \/ x ∈ ptrs ts -> sk_nodes s' !! x = sk_nodes s !! x) ->
  NoDup (sk_end s :: ptrs ts ++ X') -> (forall x, x ∈ dom (sk_nodes s') <-> x = sk_end s \/ x ∈ ptrs ts ++ X') ->
  links_ok X' s' H ts.
Proof.
  intros Hok He Hn Hd Hdom. constructor; rewrite ?He; [done|done| | |].
  - unfold height. rewrite Hn by auto. apply (lk_end _ _ _ _ Hok).
  - intros t Ht. unfold height, elem. rewrite Hn by (right; by apply list_elem_of_fmap_2). by apply (lk_tower _ _ _ _ Hok).
  - intros U V i -> Hi. destruct (lk_gap _ _ _ _ Hok U V i) as [G1 G2]; [done|done|]. unfold nexts, prevs. rewrite !Hn; [done| |].
    + destruct (hdp_lv (sk_end s) i V) as [?|?]; [by left|right]. rewrite ptrs_app. apply elem_of_app. by right.
    + destruct (lsp_lv (sk_end s) i U) as [?|?]; [by left|right]. rewrite ptrs_app. apply elem_of_app. by left.
Qed.

(** What a node holds after its creation. *)
Record created (p : ptr) h (a : option A) s s' : Prop := mkCreated {
  cr_new : p ∉ dom (sk_nodes s);
  cr_nodes : forall x, x <> p -> sk_nodes s' !! x = sk_nodes s !! x;
  cr_dom : forall x, x ∈ dom (sk_nodes s') <-> x = p \/ x ∈ dom (sk_nodes s);
  cr_height : height s' p = Some h;
  cr_elem : elem s' p = a;
  cr_links : forall i, (i <= h)%nat -> nexts s' p i = Some p /\ prevs s' p i = Some p;
  cr_rest : sk_end s' = sk_end s /\ sk_size s' = sk_size s;
}.
Lemma create_spec h a s : let '(p, s') := alloc_node h a s in created p h a s s'.
Proof.
  cbn. set (p := fresh (dom (sk_nodes s))). assert (Hp : p ∉ dom (sk_nodes s)) by apply is_fresh. constructor; cbn; [done| | | | | |done].
  - intros x Hx. by rewrite lookup_insert_ne.
  - intros x. rewrite dom_insert_L, elem_of_union, elem_of_singleton. done.
  - unfold height. cbn. by rewrite lookup_insert_eq.
  - unfold elem. cbn. by rewrite lookup_insert_eq.
  - intros i Hi. unfold nexts, prevs. cbn. rewrite lookup_insert_eq. cbn [mbind option_bind n_nexts n_prevs]. assert (Hl : (i < S h)%nat) by lia. split; exact (lookup_replicate_2 (S h) p i Hl).
Qed.
Lemma created_links X s s' H ts p h a : links_ok X s H ts -> created p h a s s' -> links_ok (p :: X) s' H ts.
Proof.
  intros Hok Hc. destruct (cr_rest _ _ _ _ _ Hc) as [He _]. pose proof (cr_new _ _ _ _ _ Hc) as Hp. rewrite (lk_dom _ _ _ _ Hok p) in Hp.
  apply (links_ok_ext X (p :: X) s s'); [done|done| | |].
  - intros x Hx. apply (cr_nodes _ _ _ _ _ Hc). intros ->. apply Hp. destruct Hx as [?|?]; [by left|right]. apply elem_of_app. by left.
  - pose proof (lk_nodup _ _ _ _ Hok) as Hn. assert (E : sk_end s :: ptrs ts ++ p :: X ≡ₚ p :: sk_end s :: ptrs ts ++ X) by solve_Permutation.
    rewrite E. constructor; [|done]. rewrite elem_of_cons. done.
  - intros x. rewrite (cr_dom _ _ _ _ _ Hc x), (lk_dom _ _ _ _ Hok x), !elem_of_app, elem_of_cons. tauto.
Qed.

Lemma self_links_spec (q : ptr) : forall n lvl s,
  (forall i, (lvl <= i < lvl + n)%nat -> is_Some (nexts s q i) /\ is_Some (prevs s q i)) ->
  exists s', self_links n lvl q s = inr s' /\ linked lvl n (fun _ => q) (fun _ => q) (fun _ => q) (fun _ => q) s s'.
Proof.
  induction n as [|n IH]; intros lvl s Hs; cbn [self_links]; [exists s; split; [done|apply linked_none]|].
  destruct (Hs lvl ltac:(lia)) as [S1 S2]. destruct (linked_prev_first (fun _ => q) (fun _ => q) (fun _ => q) (fun _ => q) lvl s) as (s1 & E & H1); [done|done|].
  destruct (set_prev q lvl q s) as [|s0']; [done|]. cbn [rbind] in *. rewrite E. cbn [rbind].
  destruct (linked_some _ _ _ _ _ _ _ _ H1) as [S3 S4]. destruct (IH (S lvl) s1) as (s2 & -> & H2).
  { intros i Hi. destruct (Hs i ltac:(lia)). auto. }
  exists s2. split; [done|]. eapply (linked_trans _ _ _ _ lvl 1); [exact H1|]. by replace (lvl + 1)%nat with (S lvl) by lia.
Qed.

(** *** The new end node *)
Section move.
Context (X : list ptr) (s0 : skl (A := A)) (H : nat) (ts : list (tower A)) (q : ptr) (h : nat).
Hypothesis Hok : links_ok (q :: X) s0 H ts.
Hypothesis Hlt : (H < h)%nat.
Hypothesis Hq : forall i, (i <= h)%nat -> nexts s0 q i = Some q /\ prevs s0 q i = Some q.
Abbreviation e := (sk_end s0).
Abbreviation L := (Lend e ts).
Abbreviation R := (Rend e ts).

(** The levels below [k] have been moved. *)
Record moved (k : nat) s : Prop := mkMoved {
  mv_frame : frame s = frame s0;
  mv_nexts : forall x i, nexts s x i = if decide (i < k)%nat then (if decide (x = q) then Some (R i) else if decide (x = L i) then Some q else nexts s0 x i) else nexts s0 x i;
  mv_prevs : forall x i, prevs s x i = if decide (i < k)%nat then (if decide (x = R i) then Some q else if decide (x = q) then Some (L i) else prevs s0 x i) else prevs s0 x i;
}.

Lemma ends_apart : q <> e /\ (q ∉ ptrs ts) /\ (e ∉ ptrs ts).
Proof.
  pose proof (lk_nodup _ _ _ _ Hok) as Hn. apply NoDup_cons in Hn as [He Hn]. apply NoDup_app in Hn as (_ & Hd & _).
  rewrite elem_of_app, elem_of_cons in He. split_and!; [intros ->; tauto| |tauto]. intros Hin. apply (Hd q Hin). by left.
Qed.
Lemma level_gap i : (i <= H)%nat -> nexts s0 e i = Some (R i) /\ prevs s0 e i = Some (L i) /\ nexts s0 (L i) i = Some e /\ prevs s0 (R i) i = Some e.
Proof.
  intros Hi. destruct (lk_gap _ _ _ _ Hok [] ts i) as [G1 G2]; [done|done|]. destruct (lk_gap _ _ _ _ Hok ts [] i) as [G3 G4]; [by rewrite app_nil_r|done|]. done.
Qed.
Lemma level_ends i : lv i ts <> [] -> L i ∈ ptrs ts /\ R i ∈ ptrs ts.
Proof. intros Hi. unfold Lend, Rend. split; apply (lv_subset i); [by apply lsp_in|by apply hdp_in]. Qed.

Lemma move_end_spec : forall n lvl s, (lvl + n = S H)%nat -> moved lvl s -> (forall i, (i < lvl)%nat -> lv i ts <> []) ->
  exists k s', move_end n lvl q s = inr (k, s') /\ moved k s' /\ (k <= S H)%nat /\ (forall i, (i < k)%nat -> lv i ts <> []) /\
    (forall i, (k <= i)%nat -> lv i ts = []).
Proof.
  assert (Hhigh : forall i, (S H <= i)%nat -> lv i ts = []).
  { intros i Hi. apply lv_high. intros t Ht. destruct (lk_tower _ _ _ _ Hok t Ht) as (_ & _ & ?). lia. }
  destruct ends_apart as (Q1 & Q2 & Q3).
  induction n as [|n IH]; intros lvl s Hn Hm Hne; cbn [move_end].
  { exists lvl, s. split; [done|]. split; [done|]. split; [lia|]. split; [done|]. intros i Hi. apply Hhigh. lia. }
  destruct (level_gap lvl ltac:(lia)) as (G1 & G2 & G3 & G4). destruct Hm as [F N P]. rewrite (frame_end _ _ F).
  assert (Hpe : forall x, prevs s x lvl = prevs s0 x lvl) by (intros x; rewrite P, decide_False by lia; done).
  assert (Hne' : forall x, nexts s x lvl = nexts s0 x lvl) by (intros x; rewrite N, decide_False by lia; done).
  unfold prev_of. rewrite Hpe, G2. cbn [or_err rbind]. destruct (decide (lv lvl ts = [])) as [E|E].
  { rewrite bool_decide_true by (unfold Lend; by rewrite E). exists lvl, s. split; [done|]. split; [done|]. split; [lia|]. split; [done|].
    intros i Hi. by eapply lv_mono. }
  destruct (level_ends lvl E) as [HL HR]. rewrite bool_decide_false by (intros E'; by rewrite E' in HL).
  destruct (Hq lvl ltac:(lia)) as [Qn Qp].
  destruct (set_prev_spec q lvl (L lvl) s) as (s1 & -> & F1 & N1 & P1); [by rewrite Hpe, Qp|]. cbn [rbind].
  destruct (set_next_spec (L lvl) lvl q s1) as (s2 & -> & F2 & P2 & N2); [by rewrite N1, Hne', G3|]. cbn [rbind].
  unfold next_of. rewrite N2, N1, Hne', decide_False by (intros [E' _]; by rewrite <- E' in HL). rewrite G1. cbn [or_err rbind].
  assert (HLq : L lvl <> q) by (intros E'; by rewrite E' in HL). assert (HRq : R lvl <> q) by (intros E'; by rewrite E' in HR).
  destruct (set_next_spec q lvl (R lvl) s2) as (s3 & -> & F3 & P3 & N3).
  { rewrite N2, N1, Hne', decide_False by (intros [E' _]; by destruct HLq). by rewrite Qn. } cbn [rbind].
  destruct (set_prev_spec (R lvl) lvl q s3) as (s4 & -> & F4 & N4 & P4).
  { rewrite P3, P2, P1, Hpe, decide_False by (by intros [E' _]). by rewrite G4. } cbn [rbind].
  apply IH; [lia| |intros i Hi; destruct (decide (i = lvl)) as [->|]; [done|apply Hne; lia]].
  constructor; [congruence| |]; intros x i.
  - rewrite N4, N3, N2, N1, N. destruct (decide (i = lvl)) as [->|Hi]; [rewrite (decide_False (P := (lvl < lvl)%nat)), (decide_True (P := (lvl < S lvl)%nat)) by lia|]; repeat case_decide; (done || intuition (congruence || lia)).
  - rewrite P4, P3, P2, P1, P. destruct (decide (i = lvl)) as [->|Hi]; [rewrite (decide_False (P := (lvl < lvl)%nat)), (decide_True (P := (lvl < S lvl)%nat)) by lia|]; repeat case_decide; (done || intuition (congruence || lia)).
Qed.

(** The gaps, on a level that was moved. *)
Lemma moved_gap U V i s' :
  ts = U ++ V -> lv i ts <> [] ->
  (forall x, x <> e -> nexts s' x i = if decide (x = q) then Some (R i) else if decide (x = L i) then Some q else nexts s0 x i) ->
  (forall x, x <> e -> prevs s' x i = if decide (x = R i) then Some q else if decide (x = q) then Some (L i) else prevs s0 x i) ->
  nexts s' (lsp q (lv i U)) i = Some (hdp q (lv i V)) /\ prevs s' (hdp q (lv i V)) i = Some (lsp q (lv i U)).
Proof.
  intros HT Hne Hnx Hpx. destruct ends_apart as (Q1 & Q2 & Q3). destruct (level_ends i Hne) as [HL HR].
  assert (Hi : (i <= H)%nat). { destruct (decide (i <= H)%nat) as [?|Hgt]; [done|]. destruct Hne. apply lv_high. intros t Ht. destruct (lk_tower _ _ _ _ Hok t Ht) as (_ & _ & ?). lia. }
  destruct (lk_gap _ _ _ _ Hok U V i HT Hi) as [G1 G2].
  assert (Hap : forall x, x ∈ ptrs ts -> x <> e /\ x <> q) by (intros x Hx; split; intros ->; tauto).
  assert (Hdis : forall x, x ∈ ptrs U -> x ∈ ptrs V -> False) by (intros x; rewrite HT in Hok; by apply (parts_disjoint (q :: X) s0 H)).
  assert (HU : forall x, x ∈ ptrs U -> x ∈ ptrs ts) by (intros x Hx; rewrite HT, ptrs_app; apply elem_of_app; by left).
  assert (HV : forall x, x ∈ ptrs V -> x ∈ ptrs ts) by (intros x Hx; rewrite HT, ptrs_app; apply elem_of_app; by right).
  assert (ELR : L i = lsp (lsp e (lv i U)) (lv i V) /\ R i = hdp (hdp e (lv i V)) (lv i U)) by (unfold Lend, Rend; by rewrite HT, lv_app, lsp_app, hdp_app).
  destruct ELR as [EL ER]. destruct (decide (lv i U = [])) as [EU|EU], (decide (lv i V = [])) as [EV|EV].
  - destruct Hne. by rewrite HT, lv_app, EU, EV.
  - rewrite EU in *. change (lsp q []) with q. rewrite (hdp_default q e) by done. rewrite Hnx, decide_True by done. change (hdp (hdp e (lv i V)) []) with (hdp e (lv i V)) in ER.
    split; [by rewrite ER|]. rewrite <- ER, Hpx by by apply Hap. by rewrite decide_True.
  - rewrite EV in *. change (hdp q []) with q. rewrite (lsp_default q e) by done. change (lsp (lsp e (lv i U)) []) with (lsp e (lv i U)) in EL.
    rewrite <- EL, Hnx by by apply Hap. rewrite decide_False, decide_True by (done || by apply Hap). split; [done|]. rewrite Hpx by done.
    rewrite decide_False, decide_True by (done || (intros E; apply Q2; by rewrite E)). done.
  - rewrite (lsp_default q e), (hdp_default q e) by done. pose proof (lv_subset _ _ _ (lsp_in e _ EU)) as IU. pose proof (lv_subset _ _ _ (hdp_in e _ EV)) as IV.
    rewrite Hnx, Hpx by (apply Hap; auto). rewrite (decide_False (P := lsp e (lv i U) = q)), (decide_False (P := hdp e (lv i V) = q)) by (apply Hap; auto).
    rewrite (decide_False (P := lsp e (lv i U) = L i)), (decide_False (P := hdp e (lv i V) = R i)); [done| |].
    + intros E. apply (Hdis (hdp e (lv i V))); [|done]. rewrite E, ER. apply (lv_subset i). by apply hdp_in.
    + intros E. apply (Hdis (lsp e (lv i U))); [done|]. rewrite E, EL. apply (lv_subset i). by apply lsp_in.
Qed.

(** All levels of the new end node [q], of height [h], are set: the old one
    can go. *)
Lemma moved_ok (k : nat) s1 s2 s' :
  height s0 q = Some h -> moved k s1 -> (k <= S H)%nat -> (forall i, (i < k)%nat -> lv i ts <> []) -> (forall i, (k <= i)%nat -> lv i ts = []) ->
  linked k (S h - k) (fun _ => q) (fun _ => q) (fun _ => q) (fun _ => q) s1 s2 ->
  s' = set_end q (set_nodes (delete e (sk_nodes s2)) s2) ->
  links_ok X s' h ts /\ (forall x, x ∈ X -> height s' x = height s0 x /\ elem s' x = elem s0 x /\
     forall i, nexts s' x i = nexts s0 x i /\ prevs s' x i = prevs s0 x i).
Proof.
  intros Hh [F1 N1 P1] Hk Hne Hno [F2 N2 P2] ->. destruct ends_apart as (Q1 & Q2 & Q3). assert (F : frame s2 = frame s0) by congruence.
  set (s' := set_end _ _). assert (Hx : forall x, x <> e -> sk_nodes s' !! x = sk_nodes s2 !! x) by (intros x Hx; by apply lookup_delete_ne).
  assert (Ho : forall x, x <> e -> height s' x = height s0 x /\ elem s' x = elem s0 x /\ (forall i, nexts s' x i = nexts s2 x i) /\ (forall i, prevs s' x i = prevs s2 x i)).
  { intros x Hxe. rewrite <- (frame_height _ _ x F), <- (frame_elem _ _ x F). unfold height, elem, nexts, prevs. by rewrite (Hx x Hxe). }
  pose proof (lk_nodup _ _ _ _ Hok) as Hn. assert (Hn' : NoDup (q :: ptrs ts ++ X)).
  { apply NoDup_cons in Hn as [_ Hn]. assert (E : q :: ptrs ts ++ X ≡ₚ ptrs ts ++ q :: X) by solve_Permutation. by rewrite E. }
  split.
  - constructor; change (sk_end s') with q.
    + exact Hn'.
    + intros x. assert (Hd : x ∈ dom (sk_nodes s') <-> x <> e /\ x ∈ dom (sk_nodes s0)).
      { change (sk_nodes s') with (delete e (sk_nodes s2)). rewrite dom_delete_L, elem_of_difference, elem_of_singleton, (frame_dom s0 s2 x F). tauto. }
      rewrite Hd, (lk_dom _ _ _ _ Hok x), !elem_of_app, elem_of_cons. apply NoDup_cons in Hn as [He _]. rewrite elem_of_app, elem_of_cons in He.
      split; [tauto|]. intros Hin. split; [intros ->; tauto|tauto].
    + destruct (Ho q Q1) as [-> _]. exact Hh.
    + intros t Ht. destruct (lk_tower _ _ _ _ Hok t Ht) as (T1 & T2 & T3). assert (Hte : t_ptr t <> e) by (intros E; apply Q3; rewrite <- E; by apply list_elem_of_fmap_2).
      destruct (Ho _ Hte) as (-> & -> & _). split; [done|]. split; [done|lia].
    + intros U V i HT Hi. destruct (decide (i < k)%nat) as [Hik|Hik].
      * assert (Hi2 : ~ (k <= i < k + (S h - k))%nat) by lia.
        assert (Hnx : forall x, x <> e -> nexts s' x i = if decide (x = q) then Some (R i) else if decide (x = L i) then Some q else nexts s0 x i).
        { intros x Hxe. destruct (Ho x Hxe) as (_ & _ & -> & _). rewrite N2, decide_False by tauto. by rewrite N1, decide_True. }
        assert (Hpx : forall x, x <> e -> prevs s' x i = if decide (x = R i) then Some q else if decide (x = q) then Some (L i) else prevs s0 x i).
        { intros x Hxe. destruct (Ho x Hxe) as (_ & _ & _ & ->). rewrite P2, decide_False by tauto. by rewrite P1, decide_True. }
        apply moved_gap; [exact HT|by apply Hne|exact Hnx|exact Hpx].
      * pose proof (Hno i ltac:(lia)) as E. rewrite HT, lv_app in E. apply app_eq_nil in E as [-> ->]. change (lsp q []) with q. change (hdp q []) with q.
        destruct (Ho q Q1) as (_ & _ & -> & ->). rewrite N2, P2, !decide_True by (split; [lia|done]). done.
  - intros x Hin. assert (Hxe : x <> e) by (intros ->; apply NoDup_cons in Hn as [He _]; apply He; apply elem_of_app; right; by right).
    destruct (Ho x Hxe) as (H1 & H2 & H3 & H4). split; [done|]. split; [done|]. intros i. rewrite H3, H4, N2, P2, N1, P1.
    apply NoDup_cons in Hn' as [Hqx Hn']. assert (Hxq : x <> q) by (intros ->; apply Hqx; apply elem_of_app; by right).
    apply NoDup_app in Hn' as (_ & Hd & _). rewrite !(decide_False (P := _ /\ x = q)) by tauto. rewrite !(decide_False (P := x = q)) by done.
    destruct (decide (i < k)%nat) as [Hik|Hik]; [|done]. destruct (level_ends i (Hne i Hik)) as [HL HR].
    rewrite !decide_False; [done| |]; intros ->; [by apply (Hd _ HR)|by apply (Hd _ HL)].
Qed.
End move.
End grow.

(* --------------------------------------------------------------------- *)
(** ** Erasing *)

Section erase.
Context {A : Type}.
Implicit Types (s : skl (A := A)) (U V W : list (tower A)) (i lvl : nat) (p x : ptr).

Lemma walk_count s (l : list ptr) : NoDup l -> (forall p, p ∈ l -> p ∈ dom (sk_nodes s)) -> (length l < walk_fuel s)%nat.
Proof.
  intros Hn Hl. unfold walk_fuel. rewrite <- size_dom, <- (size_list_to_set (C := gset ptr) l Hn). apply Nat.lt_succ_r, subseteq_size.
  intros p Hp%elem_of_list_to_set. by apply Hl.
Qed.

(** The nodes [l] are gone. *)
Definition freed (l : list ptr) s s' : Prop :=
  (forall x, sk_nodes s' !! x = if decide (x ∈ l) then None else sk_nodes s !! x) /\ sk_end s' = sk_end s.
Definition top U : nat := foldr (fun t m => Nat.max (t_height t) m) 0%nat U.

Lemma top_bound U n : (forall t, t ∈ U -> t_height t <= n)%nat -> (top U <= n)%nat.
Proof. induction U as [|t U IH]; intros Hu; [cbn; lia|]. change (top (t :: U)) with (Nat.max (t_height t) (top U)). apply Nat.max_lub; [apply Hu; by left|apply IH; intros u Hu'; apply Hu; by right]. Qed.
Lemma top_above U i : (top U < i)%nat -> lv i U = [].
Proof. induction U as [|t U IH]; intros Hi; [done|]. change (top (t :: U)) with (Nat.max (t_height t) (top U)) in Hi. rewrite lv_cons, decide_False by lia. apply IH. lia. Qed.

Lemma to_right_freed s s' e T l : to_right s e T -> freed l s s' -> (forall p, p ∈ ptrs T -> p ∉ l) -> to_right s' e T.
Proof.
  intros Ht (Hf & _) Hl U t V ->. destruct (Ht U t V eq_refl) as [H1 H2]. assert (E : sk_nodes s' !! t_ptr t = sk_nodes s !! t_ptr t).
  { rewrite Hf, decide_False; [done|]. apply Hl, list_elem_of_fmap_2, elem_of_app. right. by left. }
  unfold height, nexts in *. by rewrite E.
Qed.
Lemma to_left_freed s s' e T l : to_left s e T -> freed l s s' -> (forall p, p ∈ ptrs T -> p ∉ l) -> to_left s' e T.
Proof.
  intros Ht (Hf & _) Hl U t V ->. destruct (Ht U t V eq_refl) as [H1 H2]. assert (E : sk_nodes s' !! t_ptr t = sk_nodes s !! t_ptr t).
  { rewrite Hf, decide_False; [done|]. apply Hl, list_elem_of_fmap_2, elem_of_app. right. by left. }
  unfold height, prevs in *. by rewrite E.
Qed.

Lemma erase_nodes_spec V W : forall fuel s (er num : Z) (m : nat),
  (length W < fuel)%nat -> num = er + Z.of_nat (length W) -> to_right s (sk_end s) (W ++ V) -> NoDup (sk_end s :: ptrs (W ++ V)) ->
  exists s', erase_nodes fuel s (hdp (sk_end s) (ptrs (W ++ V))) None er num m = inr (s', hdp (sk_end s) (ptrs V), num, Nat.max m (top W)) /\
    freed (ptrs W) s s' /\ sk_size s' = sk_size s.
Proof.
  induction W as [|t W IH]; intros [|fuel] s er num m Hf Hnum Ht Hn; cbn in Hf; try lia; cbn [erase_nodes].
  - rewrite Hnum, Z.add_0_r, Z.eqb_refl. cbn [orb]. exists s. split; [|by split; [split; [intros x; rewrite decide_False by (by apply not_elem_of_nil)|]|]].
    cbn. do 2 f_equal. lia.
  - rewrite (proj2 (Z.eqb_neq er num)) by (cbn in Hnum; lia). rewrite bool_decide_false by done. cbn [orb].
    cbn [app] in *. change (hdp (sk_end s) (ptrs (t :: W ++ V))) with (t_ptr t). apply NoDup_cons in Hn as [He Hn]. change (ptrs (t :: W ++ V)) with (t_ptr t :: ptrs (W ++ V)) in *.
    rewrite elem_of_cons in He. rewrite bool_decide_false by (intros E; apply He; by left). destruct (Ht [] t (W ++ V) eq_refl) as [Hh Hx].
    specialize (Hx 0%nat ltac:(lia)). rewrite lv_zero in Hx. unfold height_of, next_of. rewrite Hh, Hx. cbn [or_err rbind]. unfold free, height_of. rewrite Hh. cbn [or_err rbind].
    set (s1 := set_nodes (delete (t_ptr t) (sk_nodes s)) s). apply NoDup_cons in Hn as [Hnt Hn].
    assert (F1 : freed [t_ptr t] s s1).
    { split; [|done]. intros x. unfold s1. cbn. destruct (decide (x = t_ptr t)) as [->|Hxt].
      - rewrite decide_True by by left. apply lookup_delete_eq.
      - rewrite decide_False by (intros E%list_elem_of_singleton; done). by apply lookup_delete_ne. }
    destruct (IH fuel s1 (er + 1) num (Nat.max m (t_height t))) as (s' & Hr & [F2 E2] & E3); [lia|cbn in Hnum; lia| | |].
    + change (sk_end s1) with (sk_end s). eapply to_right_freed; [by eapply to_right_cons|exact F1|]. intros p Hp ->%list_elem_of_singleton. done.
    + constructor; [|done]. change (sk_end s1) with (sk_end s). tauto.
    + exists s'. change (sk_end s1) with (sk_end s) in Hr. rewrite Hr. split; [change (top (t :: W)) with (Nat.max (t_height t) (top W)); do 2 f_equal; lia|]. split; [|done]. split; [|done]. intros x. rewrite F2, (proj1 F1). change (ptrs (t :: W)) with (t_ptr t :: ptrs W).
      repeat case_decide; try done; exfalso; (repeat match goal with Hx' : context [_ ∈ _ :: _] |- _ => rewrite elem_of_cons in Hx' end); rewrite ?elem_of_nil in *; tauto.
Qed.

Section erasing.
Context (s : skl (A := A)) (H : nat) (T1 E T2 : list (tower A)).
Hypothesis Hok : links_ok [] s H (T1 ++ E ++ T2).
Abbreviation e := (sk_end s).

Lemma parts : NoDup (e :: ptrs T1 ++ ptrs E ++ ptrs T2).
Proof. pose proof (lk_nodup _ _ _ _ Hok) as Hn. by rewrite app_nil_r, !ptrs_app in Hn. Qed.
Lemma kept_apart p : p = e \/ p ∈ ptrs T1 \/ p ∈ ptrs T2 -> p ∉ ptrs E.
Proof.
  pose proof parts as Hn. apply NoDup_cons in Hn as [He Hn]. apply NoDup_app in Hn as (_ & D1 & Hn). apply NoDup_app in Hn as (_ & D2 & _).
  rewrite !elem_of_app in He. intros [-> |[Hp|Hp]] Hin; [tauto| |by apply (D2 p)]. apply (D1 p Hp). apply elem_of_app. by left.
Qed.
Lemma Lend_kept i : Lend e T1 i = e \/ Lend e T1 i ∈ ptrs T1.
Proof. apply lsp_lv. Qed.
Lemma Rend_kept i : Rend e T2 i = e \/ Rend e T2 i ∈ ptrs T2.
Proof. apply hdp_lv. Qed.
Lemma sides_apart : (forall i, Rend e T2 i ∉ ptrs T1) /\ (forall i, Lend e T1 i ∉ ptrs T2).
Proof.
  pose proof parts as Hn. apply NoDup_cons in Hn as [He Hn]. apply NoDup_app in Hn as (_ & D1 & _). rewrite !elem_of_app in He. split; intros i Hin.
  - destruct (Rend_kept i) as [E0|E0]; [rewrite E0 in Hin; tauto|]. apply (D1 _ Hin). apply elem_of_app. by right.
  - destruct (Lend_kept i) as [E0|E0]; [rewrite E0 in Hin; tauto|]. apply (D1 _ E0). apply elem_of_app. by right.
Qed.

(** The gaps of what is left. *)
Lemma erased_gap s1 s2 U V i :
  freed (ptrs E) s s1 -> linked 0 (S (top E)) (Lend e T1) (Rend e T2) (Rend e T2) (Lend e T1) s1 s2 -> T1 ++ T2 = U ++ V -> (i <= H)%nat ->
  nexts s2 (lsp e (lv i U)) i = Some (hdp e (lv i V)) /\ prevs s2 (hdp e (lv i V)) i = Some (lsp e (lv i U)).
Proof.
  intros (F1 & Fe) [_ N P] HT Hi. destruct sides_apart as [D1 D2].
  assert (Hsame : forall x, x = e \/ x ∈ ptrs T1 \/ x ∈ ptrs T2 -> nexts s1 x i = nexts s x i /\ prevs s1 x i = prevs s x i).
  { intros x Hx. unfold nexts, prevs. rewrite F1, decide_False by by apply kept_apart. done. }
  assert (HUV : forall x, x ∈ ptrs U \/ x ∈ ptrs V -> x ∈ ptrs T1 \/ x ∈ ptrs T2).
  { intros x. rewrite <- !elem_of_app, <- !ptrs_app. by rewrite HT. }
  assert (HU : lsp e (lv i U) = e \/ lsp e (lv i U) ∈ ptrs T1 \/ lsp e (lv i U) ∈ ptrs T2) by (destruct (lsp_lv e i U); auto).
  assert (HV : hdp e (lv i V) = e \/ hdp e (lv i V) ∈ ptrs T1 \/ hdp e (lv i V) ∈ ptrs T2) by (destruct (hdp_lv e i V); auto).
  rewrite N, P. destruct (Hsame _ HU) as [-> _], (Hsame _ HV) as [_ ->]. pose proof parts as Hn. apply NoDup_cons in Hn as [_ Hn].
  apply app_eq_app in HT as (W & [[HT1 ->]|[-> HT2]]).
  - destruct (lk_gap _ _ _ _ Hok U (W ++ E ++ T2) i) as [G1 G2]; [by rewrite HT1, !app_assoc|done|]. rewrite !lv_app, hdp_app in *.
    destruct (decide (lv i W = [])) as [EW|EW].
    + rewrite EW in *. change (hdp (hdp e (lv i T2)) []) with (Rend e T2 i). assert (EL : lsp e (lv i U) = Lend e T1 i) by (unfold Lend; by rewrite HT1, lv_app, EW, app_nil_r).
      destruct (decide (i <= top E)%nat) as [Ht|Ht]; [rewrite !decide_True by (split; [lia|done]); by rewrite EL|]. rewrite !decide_False by lia.
      rewrite (top_above E i) in G1, G2 by lia. exact (conj G1 G2).
    + pose proof (lv_subset _ _ _ (hdp_in e _ EW)) as Iw. pose proof (lv_subset _ _ _ (lsp_in e _ EW)) as Iw2. rewrite (hdp_default (hdp e (lv i E ++ lv i T2)) e _ EW) in G1, G2. rewrite (hdp_default (hdp e (lv i T2)) e _ EW).
      rewrite HT1, ptrs_app, <- app_assoc in Hn. apply NoDup_app in Hn as (_ & Dn & _). rewrite !decide_False; [exact (conj G1 G2)| |].
      * intros [_ E0]. apply (D1 i). rewrite <- E0, HT1, ptrs_app. apply elem_of_app. by right.
      * intros [_ E0]. assert (EL : Lend e T1 i = lsp e (lv i W)) by (unfold Lend; rewrite HT1, lv_app, lsp_app; by apply lsp_default).
        rewrite EL in E0. destruct (lsp_lv e i U) as [E1|E1].
        -- rewrite <- E0, E1 in Iw2. pose proof parts as Hn. apply NoDup_cons in Hn as [He _]. apply He. rewrite HT1, ptrs_app, !elem_of_app. tauto.
        -- apply (Dn _ E1). rewrite E0. apply elem_of_app. by left.
  - destruct (lk_gap _ _ _ _ Hok (T1 ++ E ++ W) V i) as [G1 G2]; [by rewrite HT2, <- !app_assoc|done|]. rewrite !lv_app, !lsp_app in *.
    destruct (decide (lv i W = [])) as [EW|EW].
    + rewrite EW in *. change (lsp (lsp e (lv i T1)) []) with (Lend e T1 i). assert (ER : hdp e (lv i V) = Rend e T2 i) by (unfold Rend; by rewrite HT2, lv_app, EW).
      destruct (decide (i <= top E)%nat) as [Ht|Ht]; [rewrite !decide_True by (split; [lia|done]); by rewrite ER|]. rewrite !decide_False by lia.
      rewrite (top_above E i) in G1, G2 by lia. exact (conj G1 G2).
    + pose proof (lv_subset _ _ _ (lsp_in e _ EW)) as Iw. pose proof (lv_subset _ _ _ (hdp_in e _ EW)) as Iw2. rewrite (lsp_default (lsp (lsp e (lv i T1)) (lv i E)) e _ EW) in G1, G2. rewrite (lsp_default (lsp e (lv i T1)) e _ EW).
      rewrite HT2, ptrs_app in Hn. apply NoDup_app in Hn as (_ & _ & Hn). apply NoDup_app in Hn as (_ & _ & Hn). apply NoDup_app in Hn as (_ & Dn & _).
      rewrite !decide_False; [exact (conj G1 G2)| |].
      * intros [_ E0]. assert (ER : Rend e T2 i = hdp e (lv i W)) by (unfold Rend; rewrite HT2, lv_app, hdp_app; by apply hdp_default).
        rewrite ER in E0. destruct (hdp_lv e i V) as [E1|E1].
        -- rewrite <- E0, E1 in Iw2. pose proof parts as Hn2. apply NoDup_cons in Hn2 as [He _]. apply He. rewrite HT2, ptrs_app, !elem_of_app. tauto.
        -- apply (Dn _ Iw2). by rewrite <- E0.
      * intros [_ E0]. apply (D2 i). rewrite <- E0, HT2, ptrs_app. apply elem_of_app. by left.
Qed.

Lemma old_gap i : (i <= H)%nat ->
  prevs s (hdp e (lv i (E ++ T2))) i = Some (Lend e T1 i) /\ is_Some (nexts s (Lend e T1 i) i) /\ is_Some (prevs s (Rend e T2 i) i).
Proof.
  intros Hi. destruct (lk_gap _ _ _ _ Hok T1 (E ++ T2) i) as [G1 G2]; [done|done|].
  destruct (lk_gap _ _ _ _ Hok (T1 ++ E) T2 i) as [G3 G4]; [by rewrite app_assoc|done|]. unfold Lend, Rend. rewrite G1, G4. done.
Qed.

(** The two sides after the nodes are gone. *)
Lemma stitched s1 :
  freed (ptrs E) s s1 ->
  exists s3, (let? s := set_next (Lend e T1 0) 0 (Rend e T2 0) s1 in let? s := set_prev (Rend e T2 0) 0 (Lend e T1 0) s in
      stitch (top E) 0 (Lend e T1 0) (Rend e T2 0) s) = inr s3 /\
    linked 0 (S (top E)) (Lend e T1) (Rend e T2) (Rend e T2) (Lend e T1) s1 s3.
Proof.
  intros Hf. pose proof parts as Hn. destruct sides_apart as [D1 D2].
  assert (Hkeep : forall x, x = e \/ x ∈ ptrs T1 \/ x ∈ ptrs T2 -> sk_nodes s1 !! x = sk_nodes s !! x).
  { intros x Hx. rewrite (proj1 Hf), decide_False; [done|]. by apply kept_apart. }
  assert (HL : forall i, (i <= H)%nat -> is_Some (nexts s1 (Lend e T1 i) i)).
  { intros i Hi. unfold nexts. rewrite Hkeep by (destruct (Lend_kept i); auto). by apply old_gap. }
  assert (HR : forall i, (i <= H)%nat -> is_Some (prevs s1 (Rend e T2 i) i)).
  { intros i Hi. unfold prevs. rewrite Hkeep by (destruct (Rend_kept i); auto). by apply old_gap. }
  destruct (linked_next_first (Lend e T1) (Rend e T2) (Rend e T2) (Lend e T1) 0 s1) as (s2 & E2 & L0); [apply HL; lia|apply HR; lia|].
  destruct (set_next (Lend e T1 0) 0 _ s1) as [|s2']; [done|]. cbn [rbind] in *. rewrite E2. cbn [rbind].
  pose proof (li_frame _ _ _ _ _ _ _ _ L0) as F0. destruct (linked_some _ _ _ _ _ _ _ _ L0) as [S1 S2].
  assert (Htop : (top E <= H)%nat) by (apply top_bound; intros t Ht; apply (lk_tower _ _ _ _ Hok); rewrite !elem_of_app; tauto).
  assert (Hfuel : forall l, l = ptrs T1 \/ l = ptrs T2 -> (length l < walk_fuel s2)%nat).
  { intros l Hl. rewrite (frame_fuel _ _ F0). apply walk_count; [|intros p Hp; rewrite elem_of_dom, Hkeep by (destruct Hl; subst l; auto)].
    - apply NoDup_cons in Hn as [_ Hn]. apply NoDup_app in Hn as (N1 & _ & Hn). apply NoDup_app in Hn as (_ & _ & N2). by destruct Hl as [-> | ->].
    - apply elem_of_dom, (lk_dom _ _ _ _ Hok). right. rewrite app_nil_r, !ptrs_app, !elem_of_app. destruct Hl; subst l; auto. }
  destruct (stitch_spec e T1 T2 H (top E) 0 s2) as (s3 & E3 & L1); [| |by rewrite <- (length_fmap t_ptr); apply Hfuel; left|by rewrite <- (length_fmap t_ptr); apply Hfuel; right| | |done|done|auto|auto|].
  - rewrite (frame_height _ _ _ F0). unfold height. rewrite Hkeep by auto. apply (lk_end _ _ _ _ Hok).
  - lia.
  - eapply linked_to_left; [exact L0|done|]. eapply to_left_freed; [by apply (links_to_left [] s H T1 (E ++ T2))|exact Hf|]. intros p Hp. apply kept_apart. auto.
  - eapply linked_to_right; [exact L0|done|]. eapply to_right_freed; [apply (links_to_right [] s H (T1 ++ E) T2); by rewrite <- app_assoc|exact Hf|]. intros p Hp. apply kept_apart. auto.
  - exists s3. split; [done|]. exact (linked_trans _ _ _ _ 0 1 _ _ _ _ L0 L1).
Qed.

Lemma erase_ok :
  exists s', stdskl_low_erase s (hdp e (ptrs (E ++ T2))) None (Z.of_nat (length E)) = inr (s', Z.of_nat (length E), hdp e (ptrs T2)) /\
    links_ok [] s' H (T1 ++ T2) /\ sk_size s' = sk_size s - Z.of_nat (length E) /\ sk_end s' = e.
Proof.
  pose proof parts as Hn. pose proof (walk_enough _ _ _ _ Hok) as Hw. rewrite !length_app in Hw.
  destruct (old_gap 0 ltac:(lia)) as [G0 _]. unfold stdskl_low_erase, prev_of. rewrite <- (lv_zero (E ++ T2)), G0, lv_zero. cbn [or_err rbind].
  destruct (erase_nodes_spec T2 E (walk_fuel s) s 0 (Z.of_nat (length E)) 0) as (s1 & -> & [Hf Fe] & Hsz); [lia|lia|by apply (links_to_right [] s H T1)| |].
  { apply NoDup_cons in Hn as [He Hn]. constructor; [rewrite ptrs_app, !elem_of_app in *; tauto|]. rewrite ptrs_app. by apply NoDup_app in Hn as (_ & _ & ?). }
  cbn [rbind]. set (s1' := set_size _ s1). assert (Hf' : freed (ptrs E) s s1') by by split. change (Nat.max 0 (top E)) with (top E).
  replace (hdp e (ptrs T2)) with (Rend e T2 0) by (unfold Rend; by rewrite lv_zero). destruct (stitched s1' Hf') as (s3 & E3 & L).
  destruct (set_next _ 0 _ s1') as [|sa]; [done|]. cbn [rbind] in *. destruct (set_prev _ 0 _ sa) as [|sb]; [done|]. cbn [rbind] in *. rewrite E3. cbn [rbind].
  pose proof (li_frame _ _ _ _ _ _ _ _ L) as F. exists s3. split; [done|]. pose proof (frame_end _ _ F) as Ee. change (sk_end s1') with (sk_end s1) in Ee. rewrite Fe in Ee.
  split; [|split; [rewrite (frame_size _ _ F); cbn; by rewrite Hsz|done]].
  assert (Hkeep : forall x, x = e \/ x ∈ ptrs T1 \/ x ∈ ptrs T2 -> sk_nodes s1' !! x = sk_nodes s !! x) by (intros x Hx; rewrite (proj1 Hf'), decide_False; [done|by apply kept_apart]).
  constructor; rewrite ?Ee, ?app_nil_r, ?ptrs_app.
  - apply NoDup_cons in Hn as [He Hn]. rewrite !elem_of_app in He. constructor; [rewrite elem_of_app; tauto|]. apply NoDup_app in Hn as (N1 & D & Hn). apply NoDup_app in Hn as (_ & _ & N2).
    apply NoDup_app. split; [done|]. split; [|done]. intros p Hp Hp2. apply (D p Hp). apply elem_of_app. by right.
  - intros p. rewrite (frame_dom _ _ _ F), elem_of_dom, (proj1 Hf'). pose proof (lk_dom _ _ _ _ Hok p) as Hd. rewrite elem_of_dom, app_nil_r, !ptrs_app, !elem_of_app in Hd.
    pose proof (kept_apart p) as Hk. rewrite elem_of_app. case_decide; [|tauto]. split; [by intros [? ?]|tauto].
  - rewrite (frame_height _ _ _ F). unfold height. rewrite Hkeep by auto. apply (lk_end _ _ _ _ Hok).
  - intros t Ht. rewrite (frame_height _ _ _ F), (frame_elem _ _ _ F). unfold height, elem. rewrite elem_of_app in Ht.
    rewrite Hkeep by (right; destruct Ht; [left|right]; by apply list_elem_of_fmap_2). apply (lk_tower _ _ _ _ Hok). rewrite !elem_of_app. tauto.
  - intros U V i HT Hi. by eapply erased_gap.
Qed.
End erasing.
End erase.
