(* ===== verification/SkipListOk.v ===== *)
(** * Skip lists implement ordered lists

    The skip lists of [SkipList] do what the functions of [Skl] say, whatever
    heights are drawn: the operations end, use no node that is not there and
    no link that is not set, and keep the links. *)

From Stdlib Require Import ZArith Lia Sorting.Sorted.
From stdpp Require Import base strings numbers option gmap list.
From S2P Require Import Prelude Skl SkipList SkipLinks SkipSteps.

Section insert.
Context {A : Type}.
Implicit Types (s : skl (A := A)) (ts : list (tower A)) (X : list ptr) (H h i : nat) (p x : ptr).

(** The unlinked nodes stay as they are. *)
Definition same_unlinked X s s' : Prop :=
  forall x, x ∈ X -> height s' x = height s x /\ elem s' x = elem s x /\ forall i, nexts s' x i = nexts s x i /\ prevs s' x i = prevs s x i.

(** The taller end node takes over. *)
Lemma replace_end_ok X s s0 H ts q new_h next :
  links_ok X s H ts -> (H < new_h)%nat -> created q new_h None s s0 ->
  exists s', replace_end new_h q next s0 = inr (s', if decide (next = sk_end s) then sk_end s' else next) /\
    links_ok X s' new_h ts /\ sk_size s' = sk_size s /\ same_unlinked X s s'.
Proof.
  intros Hok Hnew Hc. unfold replace_end.
  pose proof (created_links X s s0 H ts q new_h None Hok Hc) as Hok0. destruct (cr_rest _ _ _ _ _ Hc) as [Ee Es].
  unfold height_of. rewrite (lk_end _ _ _ _ Hok0). cbn [or_err rbind].
  destruct (move_end_spec X s0 H ts q new_h Hok0) with (n := S H) (lvl := 0%nat) (s := s0) as (k & s1 & -> & Hm & Hk & Hne & Hno); [lia|apply (cr_links _ _ _ _ _ Hc)|lia| |intros i Hi; lia|].
  { constructor; [done| |]; intros x i; by rewrite decide_False by lia. }
  cbn [rbind]. destruct (self_links_spec q (S new_h - k) k s1) as (s2 & -> & Hl).
  { intros i Hi. destruct Hm as [F N P]. rewrite N, P, !decide_False by lia. destruct (cr_links _ _ _ _ _ Hc i) as [-> ->]; [lia|done]. }
  cbn [rbind]. pose proof (mv_frame _ _ _ _ _ Hm) as F1. pose proof (li_frame _ _ _ _ _ _ _ _ Hl) as F2. assert (F : frame s2 = frame s0) by congruence.
  rewrite (frame_end _ _ F), Ee. unfold free, height_of. rewrite (frame_height _ _ _ F), <- Ee, (lk_end _ _ _ _ Hok0). cbn [or_err rbind].
  destruct (moved_ok X s0 H ts q new_h Hok0) with (k := k) (s1 := s1) (s2 := s2) (s' := set_end q (set_nodes (delete (sk_end s0) (sk_nodes s2)) s2)) as [Hok' Hx];
    [lia|apply (cr_links _ _ _ _ _ Hc)|apply (cr_height _ _ _ _ _ Hc)|done|done|done|done|exact Hl|done|].
  eexists. split; [|split; [exact Hok'|split]].
  - rewrite Ee. cbn. destruct (decide (next = sk_end s)) as [E|E]; [by rewrite bool_decide_true|by rewrite bool_decide_false].
  - cbn. rewrite (frame_size _ _ F). exact Es.
  - intros x Hin. destruct (Hx x Hin) as (E1 & E2 & E3). assert (Hxq : x <> q).
    { intros ->. apply (cr_new _ _ _ _ _ Hc), (lk_dom _ _ _ _ Hok). right. apply elem_of_app. by right. }
    pose proof (cr_nodes _ _ _ _ _ Hc x Hxq) as En. rewrite E1, E2. unfold height, elem. rewrite En. split; [done|]. split; [done|].
    intros i. destruct (E3 i) as [-> ->]. unfold nexts, prevs. by rewrite En.
Qed.

(** Growing, when there is memory. *)
Lemma grow_end_ok X s H ts h next m :
  links_ok X s H ts -> (H < h <= STDSKL_MAX_HEIGHT)%nat ->
  exists ret s' next' m', grow_end h next s m = inr (ret, s', next', m') /\ (enough m -> ret = STDESUCCESS /\ enough m') /\
    (ret = STDENOMEM /\ s' = s \/
     ret = STDESUCCESS /\ next' = (if decide (next = sk_end s) then sk_end s' else next) /\ exists H',
       links_ok X s' H' ts /\ (h <= H' <= STDSKL_MAX_HEIGHT)%nat /\ sk_size s' = sk_size s /\ same_unlinked X s s').
Proof.
  intros Hok Hh. unfold grow_end, stdskl_low_create_node. set (new_h := if Nat.ltb h STDSKL_MAX_HEIGHT then S h else h).
  assert (Hnew : (h <= new_h <= STDSKL_MAX_HEIGHT)%nat) by (unfold new_h; destruct (Nat.ltb_spec h STDSKL_MAX_HEIGHT); lia).
  destruct (malloc_ok m) as (found & m' & -> & Hm). destruct found; cbn [negb].
  2: { eexists _, _, _, _. split; [done|]. split; [|by left]. intros He. by destruct (Hm He). }
  pose proof (create_spec new_h None s) as Hc. destruct (alloc_node new_h None s) as [q s0].
  destruct (replace_end_ok X s s0 H ts q new_h next Hok ltac:(lia) Hc) as (s' & -> & Hok' & Es & Hsame). cbn [rbind].
  eexists _, _, _, _. split; [done|]. split; [by intros He; destruct (Hm He)|]. right. split; [done|]. split; [done|]. by exists new_h.
Qed.

Lemma random_height_bound s : (fst (random_height s) <= STDSKL_MAX_HEIGHT)%nat /\
  sk_nodes (snd (random_height s)) = sk_nodes s /\ sk_end (snd (random_height s)) = sk_end s /\ sk_size (snd (random_height s)) = sk_size s.
Proof.
  assert (Hp : forall n b (h : Z) (t : skl (A := A)), let r := promote n b h t in h <= fst r <= h + Z.of_nat n /\ sk_nodes (snd r) = sk_nodes t /\ sk_end (snd r) = sk_end t /\ sk_size (snd r) = sk_size t).
  { induction n as [|n IH]; intros b h t; cbn [promote]; [cbn; split; [lia|done]|]. destruct b; [|cbn; split; [lia|done]].
    set (t1 := if sk_bits_left t =? 0 then _ else t). assert (H1 : sk_nodes t1 = sk_nodes t /\ sk_end t1 = sk_end t /\ sk_size t1 = sk_size t) by (unfold t1; by destruct (sk_bits_left t =? 0)).
    match goal with |- context [promote n ?b ?h ?t] => specialize (IH b h t) end. cbv zeta in *. destruct IH as (I1 & I2 & I3 & I4). rewrite I2, I3, I4. cbn in *. split; [lia|]. tauto. }
  unfold random_height. specialize (Hp (S STDSKL_MAX_HEIGHT) true (-1) s). cbv zeta in Hp. destruct (promote _ _ _ _) as [h t]. cbn [fst snd] in *.
  split; [|tauto]. unfold STDSKL_MAX_HEIGHT in *. lia.
Qed.

Lemma links_same s s' H ts :
  links_ok [] s H ts -> sk_nodes s' = sk_nodes s -> sk_end s' = sk_end s -> links_ok [] s' H ts.
Proof.
  intros Hok En Ee. apply (links_ok_ext [] [] s s'); [done|done|by intros ? _; rewrite En|apply (lk_nodup _ _ _ _ Hok)|intros y; rewrite En; apply (lk_dom _ _ _ _ Hok)].
Qed.
(** A node that was created and freed. *)
Lemma create_free p h (a : option A) s : let '(p, s1) := alloc_node h a s in exists s2, free p s1 = inr s2 /\ sk_nodes s2 = sk_nodes s /\ sk_end s2 = sk_end s /\ sk_size s2 = sk_size s.
Proof.
  cbn. unfold free, height_of, height. cbn. rewrite lookup_insert_eq. cbn. eexists. split; [done|]. split; [|done]. cbn.
  apply delete_insert_id, not_elem_of_dom, is_fresh.
Qed.

(** A new node in front of [T2], when there is memory. *)
Lemma insert_new_ok s H T1 T2 (x : A) m :
  links_ok [] s H (T1 ++ T2) -> (H <= STDSKL_MAX_HEIGHT)%nat ->
  exists ret s' node next m', insert_new x (hdp (sk_end s) (ptrs T2)) s m = inr (ret, s', node, next, m') /\ (enough m -> ret = STDESUCCESS /\ enough m') /\
    (ret = STDENOMEM /\ sk_nodes s' = sk_nodes s /\ sk_end s' = sk_end s /\ sk_size s' = sk_size s \/
     ret = STDESUCCESS /\ exists H' p h, node = Some p /\ next = hdp (sk_end s') (ptrs T2) /\
       links_ok [] s' H' (T1 ++ mkTower p h x :: T2) /\ (H' <= STDSKL_MAX_HEIGHT)%nat /\ sk_size s' = sk_size s + 1).
Proof.
  intros Hok HM. unfold insert_new, stdskl_low_create_node. pose proof (random_height_bound s) as Hr. destruct (random_height s) as [h s0]. cbn [fst snd] in Hr.
  destruct Hr as (Hh & En & Ee & Es). pose proof (links_same s s0 H _ Hok En Ee) as Hok0.
  destruct (malloc_ok m) as (found & m1 & -> & Hm). destruct found; cbn [negb].
  2: { eexists _, _, _, _, _. split; [done|]. split; [|by left]. intros He. by destruct (Hm He). }
  pose proof (create_spec h (Some x) s0) as Hc. pose proof (create_free 1%positive h (Some x) s0) as Hfree. destruct (alloc_node h (Some x) s0) as [p s1].
  pose proof (created_links [] s0 s1 H (T1 ++ T2) p h (Some x) Hok0 Hc) as Hok1. destruct (cr_rest _ _ _ _ _ Hc) as [Ee1 Es1].
  unfold height_of. rewrite (lk_end _ _ _ _ Hok1). cbn [or_err rbind].
  assert (Hg : exists ret s2 next m2, (if Nat.ltb H h then grow_end h (hdp (sk_end s) (ptrs T2)) s1 m1 else inr (STDESUCCESS, s1, hdp (sk_end s) (ptrs T2), m1)) = inr (ret, s2, next, m2) /\
     (enough m1 -> ret = STDESUCCESS /\ enough m2) /\
     (ret = STDENOMEM /\ s2 = s1 \/ ret = STDESUCCESS /\ next = hdp (sk_end s2) (ptrs T2) /\ exists H2,
       links_ok [p] s2 H2 (T1 ++ T2) /\ (h <= H2 <= STDSKL_MAX_HEIGHT)%nat /\ sk_size s2 = sk_size s1 /\ same_unlinked [p] s1 s2)).
  { rewrite <- Ee, <- Ee1. destruct (Nat.ltb_spec H h) as [Hlt|Hge].
    - destruct (grow_end_ok [p] s1 H (T1 ++ T2) h (hdp (sk_end s1) (ptrs T2)) m1 Hok1) as (ret & s2 & next & m2 & -> & G0 & G); [lia|].
      eexists _, _, _, _. split; [done|]. split; [done|]. destruct G as [G|(-> & -> & G)]; [by left|right]. split; [done|]. split; [|done].
      destruct T2 as [|t T]; [by rewrite decide_True|]. change (hdp (sk_end s1) (ptrs (t :: T))) with (t_ptr t). rewrite decide_False; [done|].
      apply (end_not_in [p] s1 H (T1 ++ t :: T) _ Hok1). apply elem_of_app. left. apply list_elem_of_fmap_2, elem_of_app. right. by left.
    - eexists _, _, _, _. split; [done|]. split; [done|]. right. split; [done|]. split; [done|]. exists H. split; [done|]. split; [lia|]. split; [done|]. by intros y _. }
  destruct Hg as (ret & s2 & next & m2 & -> & Hmem & [[-> ->]|(-> & -> & H2 & Hok2 & Hle & Es2 & Hsame)]); cbn [rbind].
  { destruct Hfree as (s3 & Hf & F1 & F2 & F3). cbn [Z.eqb negb STDENOMEM STDESUCCESS]. rewrite Hf. cbn [rbind].
    eexists _, _, _, _, _. split; [done|]. split; [intros He; destruct (Hm He) as [_ He1]; by destruct (Hmem He1)|]. left. split; [done|]. split; [congruence|]. split; congruence. }
  cbn [Z.eqb negb STDESUCCESS]. destruct (Hsame p ltac:(by left)) as (E1 & E2 & E3).
  rewrite (cr_height _ _ _ _ _ Hc) in E1. rewrite (cr_elem _ _ _ _ _ Hc) in E2.
  destruct (link_writes [] s2 H2 T1 T2 p h Hok2 E1) as (s3 & s4 & -> & E4 & L1 & L2); [lia| |].
  { intros i Hi. destruct (E3 i) as [-> ->]. by destruct (cr_links _ _ _ _ _ Hc i Hi) as [-> ->]. }
  cbn [rbind]. rewrite E4. cbn [rbind]. pose proof (linked_frame s2 T1 T2 p h s3 s4 L1 L2) as F.
  pose proof (linked_ok [] s2 H2 T1 T2 p h x Hok2 s3 s4 E1 ltac:(lia) L1 L2 E2) as Hok4.
  eexists _, (set_size (sk_size s4 + 1) s4), _, _, _. split; [done|]. split; [intros He; by apply Hmem, Hm|]. right. split; [done|].
  exists H2, p, h. split; [done|]. split; [cbn; by rewrite (frame_end _ _ F)|]. split; [by apply (links_same s4)|]. split; [lia|].
  cbn. rewrite (frame_size _ _ F). lia.
Qed.

Lemma overwrite_ok s H T1 t T2 (x : A) :
  links_ok [] s H (T1 ++ t :: T2) ->
  exists s', overwrite_node x (t_ptr t) s = inr s' /\ links_ok [] s' H (T1 ++ mkTower (t_ptr t) (t_height t) x :: T2) /\
    sk_size s' = sk_size s /\ sk_end s' = sk_end s.
Proof.
  intros Hok. destruct (lk_tower _ _ _ _ Hok t) as (Ht & _ & HtH); [apply elem_of_app; right; by left|].
  unfold overwrite_node, height_of. rewrite Ht. cbn [or_err rbind]. eexists. split; [done|]. split; [|done].
  set (s' := set_nodes _ _). set (t' := mkTower _ _ _).
  assert (Hlv : forall i, lv i (t' :: T2) = lv i (t :: T2)) by (intros i; by rewrite !lv_cons).
  assert (Hobs : forall y, height s' y = height s y /\ (forall i, nexts s' y i = nexts s y i /\ prevs s' y i = prevs s y i) /\ (y <> t_ptr t -> elem s' y = elem s y)).
  { intros y. unfold height, nexts, prevs, elem, s', set_nodes. cbn. destruct (decide (t_ptr t = y)) as [<-|Hy]; [|by rewrite lookup_alter_ne].
    rewrite lookup_alter_eq. destruct (sk_nodes s !! t_ptr t); cbn; split_and!; (done || by intros). }
  assert (Hptrs : ptrs (T1 ++ t' :: T2) = ptrs (T1 ++ t :: T2)) by by rewrite !ptrs_app.
  constructor; change (sk_end s') with (sk_end s); rewrite ?Hptrs.
  - apply (lk_nodup _ _ _ _ Hok).
  - intros y. rewrite <- (lk_dom _ _ _ _ Hok y), !elem_of_dom. destruct (Hobs y) as [Hy _]. unfold height in Hy.
    destruct (sk_nodes s' !! y), (sk_nodes s !! y); cbn in Hy; split; intros [z Hz]; try done; by eexists.
  - destruct (Hobs (sk_end s)) as [-> _]. apply (lk_end _ _ _ _ Hok).
  - intros u Hu. destruct (Hobs (t_ptr u)) as (-> & _ & He). apply elem_of_app in Hu. rewrite elem_of_cons in Hu.
    assert (Hother : u ∈ T1 \/ u ∈ T2 -> t_ptr u <> t_ptr t).
    { intros Hu2 E. pose proof (lk_nodup _ _ _ _ Hok) as Hn. apply NoDup_cons in Hn as [_ Hn]. apply NoDup_app in Hn as [Hn _]. rewrite ptrs_app in Hn.
      apply NoDup_app in Hn as (_ & Hd & Hn). apply NoDup_cons in Hn as [Hn _]. destruct Hu2 as [Hu2|Hu2].
      - apply (Hd (t_ptr t)); [rewrite <- E; by apply list_elem_of_fmap_2|by left].
      - apply Hn. change (t_ptr t ∈ ptrs T2). rewrite <- E. by apply list_elem_of_fmap_2. }
    destruct Hu as [Hu|[-> |Hu]].
    + rewrite He by auto. apply (lk_tower _ _ _ _ Hok), elem_of_app. by left.
    + split; [done|]. split; [|done]. unfold elem, s', set_nodes. cbn. rewrite lookup_alter_eq. unfold height in Ht. by destruct (sk_nodes s !! t_ptr t).
    + rewrite He by auto. apply (lk_tower _ _ _ _ Hok), elem_of_app. right. by right.
  - intros U V i HT Hi. destruct (Hobs (lsp (sk_end s) (lv i U))) as (_ & Hn & _), (Hobs (hdp (sk_end s) (lv i V))) as (_ & Hp & _).
    rewrite (proj1 (Hn i)), (proj2 (Hp i)). destruct (split_around U V T1 t' T2 HT) as [(V' & -> & ->)|(U' & -> & ->)].
    + rewrite lv_app, Hlv, <- lv_app. apply (lk_gap _ _ _ _ Hok); [by rewrite <- app_assoc|done].
    + replace (lv i (T1 ++ t' :: U')) with (lv i (T1 ++ t :: U')) by by rewrite !lv_app, !lv_cons.
      apply (lk_gap _ _ _ _ Hok); [by rewrite <- app_assoc|done].
Qed.
End insert.

(* --------------------------------------------------------------------- *)
(** ** Where a key belongs *)

Section cuts.
Context {A K : Type} (key : A -> K) (cmp : K -> K -> Z) {HKO : KeyOrder cmp}.
Implicit Types (l : list A) (x y : A) (k : K).

(** Everything in [l1] is before [k] and nothing in [l2] is; only its first
    entry can have the key. *)
Record cut k l1 l2 : Prop := mkCut {
  ct_before : forall x, x ∈ l1 -> 0 < cmp k (key x);
  ct_after : forall x, x ∈ l2 -> cmp k (key x) <= 0;
  ct_rest : forall x, x ∈ tail l2 -> cmp k (key x) < 0;
}.
Definition here k l : bool := match l with x :: _ => cmp k (key x) =? 0 | [] => false end.

Lemma cut_exists k l : skl_ok key cmp l -> exists l1 l2, l = l1 ++ l2 /\ cut k l1 l2.
Proof.
  induction l as [|x l IH]; intros Hs; [exists [], []; split; [done|]; split; by intros y ?%elem_of_nil|].
  apply skl_ok_cons in Hs as [Hs Hx]. destruct (Z.ltb_spec 0 (cmp k (key x))) as [Hk|Hk].
  - destruct (IH Hs) as (l1 & l2 & -> & [H1 H2 H3]). exists (x :: l1), l2. split; [done|]. split; [|done|done]. intros y [->|Hy]%elem_of_cons; auto.
  - rewrite Forall_forall in Hx. assert (Hlt : forall y, y ∈ l -> cmp k (key y) < 0).
    { intros y Hy. specialize (Hx y Hy). unfold key_lt in Hx. destruct (decide (cmp k (key x) = 0)) as [E|E]; [by apply (cmp_zero_lt cmp _ _ _ E)|].
      apply (cmp_lt_trans cmp _ (key x)); [lia|done]. }
    exists [], (x :: l). split; [done|]. split; [by intros y ?%elem_of_nil| |done]. intros y [->|Hy]%elem_of_cons; [done|]. specialize (Hlt y Hy). lia.
Qed.

Section at_cut.
Context (k : K) (l1 l2 : list A) (Hc : cut k l1 l2).
Lemma find_cut : skl_find key cmp k (l1 ++ l2) = if here k l2 then head l2 else None.
Proof.
  destruct Hc as [H1 H2 H3]. clear Hc. induction l1 as [|y l IH]; cbn.
  - destruct l2 as [|y l]; [done|]. cbn. rewrite (proj2 (Z.ltb_ge _ _)) by (apply H2; by left). by destruct (_ =? 0).
  - rewrite (proj2 (Z.ltb_lt _ _)) by (apply H1; by left). apply IH. intros x Hx. apply H1. by right.
Qed.
Lemma erase_cut : skl_erase key cmp k (l1 ++ l2) = if here k l2 then Some (l1 ++ tail l2) else None.
Proof.
  destruct Hc as [H1 H2 H3]. clear Hc. induction l1 as [|y l IH]; cbn.
  - destruct l2 as [|y l]; [done|]. cbn. rewrite (proj2 (Z.ltb_ge _ _)) by (apply H2; by left). by destruct (_ =? 0).
  - rewrite (proj2 (Z.ltb_lt _ _)) by (apply H1; by left). rewrite IH by (intros x Hx; apply H1; by right). by destruct (here k l2).
Qed.
End at_cut.
Lemma put_cut x l1 l2 : cut (key x) l1 l2 -> skl_put key cmp x (l1 ++ l2) = l1 ++ x :: (if here (key x) l2 then tail l2 else l2).
Proof.
  intros [H1 H2 H3]. induction l1 as [|y l IH]; cbn.
  - destruct l2 as [|y l]; [done|]. cbn. rewrite (proj2 (Z.ltb_ge _ _)) by (apply H2; by left). by destruct (_ =? 0).
  - rewrite (proj2 (Z.ltb_lt _ _)) by (apply H1; by left). f_equal. apply IH. intros z Hz. apply H1. by right.
Qed.

(** A place is tried: what follows is not before the key, and what precedes
    not after it. *)
Definition fits k l1 l2 : Prop := (forall y, head l2 = Some y -> cmp k (key y) <= 0) /\ (forall y, last l1 = Some y -> 0 <= cmp k (key y)).
Lemma fits_cut k l1 l2 u v : cut k l1 l2 -> here k l2 = false -> l1 ++ l2 = u ++ v -> fits k u v -> u = l1 /\ v = l2.
Proof.
  intros [H1 H2 H3] Hh E [F1 F2]. apply app_eq_app in E as (w & [[-> ->]|[-> ->]]).
  - destruct w as [|y w]; [by rewrite app_nil_r|]. specialize (F1 y eq_refl). specialize (H1 y ltac:(apply elem_of_app; right; by left)). lia.
  - destruct w as [|y w _] using rev_ind; [by rewrite app_nil_r|]. rewrite app_assoc in F2. specialize (F2 y ltac:(apply last_snoc)).
    assert (Hy : cmp k (key y) < 0); [|lia]. destruct w as [|z w].
    + specialize (H2 y ltac:(by left)). cbn in Hh. apply Z.eqb_neq in Hh. lia.
    + apply H3. cbn. apply elem_of_app. left. apply elem_of_app. right. by left.
Qed.
End cuts.

(* --------------------------------------------------------------------- *)
(** ** Lists and iterators *)

Section refine.
Context {A K : Type} (key : A -> K) (cmp : K -> K -> Z) {HKO : KeyOrder cmp}.
Implicit Types (s : skl (A := A)) (l : list A) (x y : A) (k : K) (p q : ptr).

(** The list is [l1 ++ l2] and the iterator [p] points to the first of [l2],
    or to the end. *)
Definition at_place s l1 l2 p : Prop :=
  exists T1 T2 H, links_ok [] s H (T1 ++ T2) /\ (H <= STDSKL_MAX_HEIGHT)%nat /\ sk_size s = Z.of_nat (length (T1 ++ T2)) /\
    t_elem <$> T1 = l1 /\ t_elem <$> T2 = l2 /\ p = hdp (sk_end s) (ptrs T2).
Definition represents s l : Prop := exists p, at_place s [] l p.

Lemma place_any s l1 l2 l1' l2' p : at_place s l1 l2 p -> l1 ++ l2 = l1' ++ l2' -> exists p', at_place s l1' l2' p'.
Proof.
  intros (T1 & T2 & H & H1 & H2 & H3 & <- & <- & _) E. rewrite <- fmap_app in E. apply fmap_app_inv in E as (U & V & -> & -> & E).
  rewrite E in *. exists (hdp (sk_end s) (ptrs V)), U, V, H. done.
Qed.
Lemma place_represents s l1 l2 p : at_place s l1 l2 p -> represents s (l1 ++ l2).
Proof. intros Hp. by apply (place_any s l1 l2 [] (l1 ++ l2) p). Qed.

(** *** Iterating *)
Lemma place_end s l1 p : at_place s l1 [] p -> p = sk_end s.
Proof. intros (T1 & T2 & H & _ & _ & _ & _ & E & ->). apply fmap_nil_inv in E as ->. done. Qed.
Lemma place_next s l1 x l2 p :
  at_place s l1 (x :: l2) p -> stdskl_is_end s p = false /\ stdskl_it_key s p = inr x /\
    exists q, stdskl_it_next s p = inr q /\ at_place s (l1 ++ [x]) l2 q.
Proof.
  intros (T1 & T2 & H & Hok & HM & Hsz & E1 & E2 & ->). destruct T2 as [|t T2]; [done|]. injection E2 as <- <-. change (hdp (sk_end s) (ptrs (t :: T2))) with (t_ptr t).
  assert (Ht : t ∈ T1 ++ t :: T2) by (apply elem_of_app; right; by left). destruct (lk_tower _ _ _ _ Hok t Ht) as (_ & He & _).
  unfold stdskl_is_end, stdskl_it_key, stdskl_it_next, next_of. rewrite He. split; [|split; [done|]].
  - apply bool_decide_eq_false, (end_not_in [] s H _ _ Hok), elem_of_app. left. by apply list_elem_of_fmap_2.
  - destruct (links_to_right [] s H T1 (t :: T2) Hok [] t T2 eq_refl) as [_ Hn]. rewrite (Hn 0%nat) by lia. eexists. split; [done|].
    exists (T1 ++ [t]), T2, H. rewrite fmap_app, E1, <- app_assoc, lv_zero. done.
Qed.
Lemma begin_place s l : represents s l -> exists p, stdskl_begin s = inr p /\ at_place s [] l p.
Proof.
  intros (p & T1 & T2 & H & Hok & HM & Hsz & E1 & E2 & ->). apply fmap_nil_inv in E1 as ->. unfold stdskl_begin, next_of.
  destruct (lk_gap _ _ _ _ Hok [] T2 0) as [G _]; [done|lia|]. rewrite !lv_zero in G. change (lsp (sk_end s) (ptrs [])) with (sk_end s) in G. rewrite G.
  eexists. split; [done|]. by exists [], T2, H.
Qed.
(** [for ( begin; !is_end; next )], the entries. *)
Fixpoint iterate (fuel : nat) s p : res (list A) :=
  match fuel with
  | O => inl (Diverges "stdskl: iteration")
  | S fuel =>
      if stdskl_is_end s p then inr []
      else
        let? x := stdskl_it_key s p in
        let? q := stdskl_it_next s p in
        let? l := iterate fuel s q in
        inr (x :: l)
  end.
Lemma iterate_spec s l2 : forall n l1 p, (length l2 < n)%nat -> at_place s l1 l2 p -> iterate n s p = inr l2.
Proof.
  induction l2 as [|x l2 IH]; intros [|n] l1 p Hn Hp; cbn in Hn; try lia; cbn [iterate].
  - apply place_end in Hp as ->. unfold stdskl_is_end. by rewrite bool_decide_true.
  - destruct (place_next s l1 x l2 p Hp) as (-> & -> & q & -> & Hq). cbn [rbind]. by rewrite (IH n (l1 ++ [x]) q) by (done || lia).
Qed.

(** *** Searching *)
Lemma find_place s l1 l2 k any :
  represents s (l1 ++ l2) -> cut key cmp k l1 l2 ->
  exists p, stdskl_low_find_right key cmp s k any = inr (here key cmp k l2, p) /\ at_place s l1 l2 p.
Proof.
  intros (p0 & Hp0) [C1 C2 C3]. destruct (place_any s [] (l1 ++ l2) l1 l2 p0 Hp0 eq_refl) as (p & T1 & T2 & H & Hok & HM & Hsz & <- & <- & ->).
  exists (hdp (sk_end s) (ptrs T2)). split; [|by exists T1, T2, H].
  rewrite (find_right_spec key cmp [] s H T1 T2 k Hok); [by destruct T2| | |].
  - intros t Ht. apply C1. by apply list_elem_of_fmap_2.
  - intros t Ht. apply C2. by apply list_elem_of_fmap_2.
  - intros t Ht. apply C3. destruct T2 as [|u T2]; [by apply elem_of_nil in Ht|]. cbn in *. by apply list_elem_of_fmap_2.
Qed.

(** *** Inserting *)
Lemma insert_new_place s l1 l2 p x m :
  at_place s l1 l2 p -> exists ret s' node p' m', insert_new x p s m = inr (ret, s', node, p', m') /\ (enough m -> ret = STDESUCCESS /\ enough m') /\
    (ret = STDENOMEM /\ represents s' (l1 ++ l2) \/
     ret = STDESUCCESS /\ exists q, node = Some q /\ at_place s' l1 (x :: l2) q /\ at_place s' (l1 ++ [x]) l2 p').
Proof.
  intros Hp0. pose proof Hp0 as (T1 & T2 & H & Hok & HM & Hsz & <- & <- & ->).
  destruct (insert_new_ok s H T1 T2 x m Hok HM) as (ret & s' & node & next & m' & -> & Hm & Hr). eexists _, _, _, _, _. split; [done|]. split; [done|].
  destruct Hr as [(-> & En & Ee & Es)|(-> & H' & q & h & -> & -> & Hok' & HM' & Hsz')]; [left|right]; (split; [done|]).
  - apply (place_represents s' _ _ (hdp (sk_end s') (ptrs T2))). exists T1, T2, H. split; [by apply (links_same s)|]. split; [done|]. split; [congruence|done].
  - exists q. split; [done|]. rewrite length_app in *. split.
    + exists T1, (mkTower q h x :: T2), H'. split; [done|]. split; [done|]. split; [|done]. rewrite length_app. cbn. lia.
    + exists (T1 ++ [mkTower q h x]), T2, H'. rewrite <- app_assoc, fmap_app. split; [done|]. split; [done|]. split; [|done]. rewrite length_app. cbn. lia.
Qed.
Lemma overwrite_place s l1 y l2 p x :
  at_place s l1 (y :: l2) p -> exists s', overwrite_node x p s = inr s' /\ at_place s' l1 (x :: l2) p.
Proof.
  intros (T1 & T2 & H & Hok & HM & Hsz & <- & E2 & ->). destruct T2 as [|t T2]; [done|]. injection E2 as <- <-. change (hdp (sk_end s) (ptrs (t :: T2))) with (t_ptr t).
  destruct (overwrite_ok s H T1 t T2 x Hok) as (s' & -> & Hok' & Hsz' & _). exists s'. split; [done|].
  exists T1, (mkTower (t_ptr t) (t_height t) x :: T2), H. split; [done|]. split; [done|]. split; [|done]. rewrite Hsz', Hsz, !length_app. done.
Qed.

Lemma unfit_towers s H T1 T2 k :
  links_ok [] s H (T1 ++ T2) ->
  exists bad c, unfit key cmp s k (lsp (sk_end s) (ptrs T1)) (hdp (sk_end s) (ptrs T2)) = inr (bad, c) /\
    (bad = false <-> fits key cmp k (t_elem <$> T1) (t_elem <$> T2)) /\
    (bad = false -> match t_elem <$> T2 with y :: _ => c = cmp k (key y) | [] => c = -1 end).
Proof.
  intros Hok.
  set (prev := lsp (sk_end s) (ptrs T1)) in *. set (p := hdp (sk_end s) (ptrs T2)) in *.
  set (c := match T2 with t :: _ => cmp k (key (t_elem t)) | [] => -1 end).
  set (gt := match T2 with t :: _ => 0 <? cmp k (key (t_elem t)) | [] => false end).
  assert (Hn : (if bool_decide (p = sk_end s) then inr (false, -1) else let? k' := nkey key s p in inr (0 <? cmp k k', cmp k k')) = inr (A := err) (gt, c)).
  { unfold p, gt, c, nkey. destruct T2 as [|t T2]; [by rewrite bool_decide_true|]. assert (Ht : t ∈ T1 ++ t :: T2) by (apply elem_of_app; right; by left).
    change (hdp (sk_end s) (ptrs (t :: T2))) with (t_ptr t). rewrite bool_decide_false by (apply (end_not_in [] s H _ _ Hok), elem_of_app; left; by apply list_elem_of_fmap_2).
    destruct (lk_tower _ _ _ _ Hok t Ht) as (_ & -> & _). done. }
  set (lt := match last T1 with Some u => cmp k (key (t_elem u)) <? 0 | None => false end).
  assert (Hp : (if bool_decide (prev = sk_end s) then inr (false, c) else let? k' := nkey key s prev in inr (cmp k k' <? 0, c)) = inr (A := err) (lt, c)).
  { unfold prev, lt, nkey. destruct T1 as [|u T1 _] using rev_ind; [by rewrite bool_decide_true|]. rewrite last_snoc, ptrs_app. change (ptrs [u]) with [t_ptr u]. rewrite lsp_snoc.
    assert (Hu : u ∈ (T1 ++ [u]) ++ T2) by (rewrite !elem_of_app; left; right; by left).
    rewrite bool_decide_false by (apply (end_not_in [] s H _ _ Hok), elem_of_app; left; by apply list_elem_of_fmap_2).
    destruct (lk_tower _ _ _ _ Hok u Hu) as (_ & -> & _). done. }
  exists (gt || lt), c. split; [unfold unfit; etransitivity; [apply (f_equal (fun r : res (bool * Z) => rbind r _)), Hn|]; cbn [rbind]; by destruct gt|].
  assert (Hh : forall y, head (t_elem <$> T2) = Some y -> gt = (0 <? cmp k (key y))) by (unfold gt; destruct T2; [done|]; by intros y [= <-]).
  assert (Hl : forall y, last (t_elem <$> T1) = Some y -> lt = (cmp k (key y) <? 0)).
  { unfold lt. rewrite fmap_last. destruct (last T1); [|done]. by intros y [= <-]. }
  split; [|by intros _; unfold c; destruct T2]. rewrite orb_false_iff. unfold fits. split.
  - intros [Hg Hlt]. split; intros y Hy; [rewrite (Hh y Hy) in Hg|rewrite (Hl y Hy) in Hlt]; lia.
  - intros [F1 F2]. unfold gt, lt. split.
    + destruct T2 as [|t T2]; [done|]. specialize (F1 _ eq_refl). cbn in F1. lia.
    + rewrite fmap_last in F2. destruct (last T1); [|done]. specialize (F2 _ eq_refl). lia.
Qed.

(** The two places that are tried with a hint: the place itself, and the one
    behind it, which is the first when the hint is the end. *)
Definition behind (l1 l2 : list A) : list A * list A :=
  match l2 with y :: l2 => (l1 ++ [y], l2) | [] => ([], l1) end.
Lemma hinted_position s l1 l2 p k :
  at_place s l1 l2 p ->
  (fits key cmp k l1 l2 /\ exists c, insert_position key cmp s k true p = inr (p, c) /\ (match l2 with y :: _ => c = cmp k (key y) | [] => c = -1 end)) \/
  ~ fits key cmp k l1 l2 /\
  ((fits key cmp k (behind l1 l2).1 (behind l1 l2).2 /\ exists q c, insert_position key cmp s k true p = inr (q, c) /\
      at_place s (behind l1 l2).1 (behind l1 l2).2 q /\ (match (behind l1 l2).2 with y :: _ => c = cmp k (key y) | [] => c = -1 end)) \/
   insert_position key cmp s k true p = insert_position key cmp s k false p).
Proof.
  intros (T1 & T2 & H & Hok & HM & Hsz & <- & <- & ->). destruct (lk_gap _ _ _ _ Hok T1 T2 0) as [_ G]; [done|lia|]. rewrite !lv_zero in G.
  destruct (unfit_towers s H T1 T2 k Hok) as (bad & c & Hu & Hb & Hc). unfold insert_position, prev_of. rewrite G. cbn [or_err rbind]. rewrite Hu. cbn [rbind].
  destruct bad; [right|left; split; [by apply Hb|]; exists c; split; [done|by apply Hc]]. split; [intros Hf%Hb; done|]. cbn [negb].
  assert (Hn : exists T1' T2', T1' ++ T2' = T1 ++ T2 /\ (t_elem <$> T1', t_elem <$> T2') = behind (t_elem <$> T1) (t_elem <$> T2) /\
     lsp (sk_end s) (ptrs T1') = hdp (sk_end s) (ptrs T2)).
  { destruct T2 as [|t T2]; [exists [], T1; by rewrite app_nil_r|]. exists (T1 ++ [t]), T2. rewrite <- app_assoc, fmap_app, ptrs_app. split; [done|]. split; [done|].
    change (ptrs [t]) with [t_ptr t]. by rewrite lsp_snoc. }
  destruct Hn as (T1' & T2' & E & Eb & Ep). rewrite <- Eb. rewrite <- E in Hok. cbn [fst snd].
  destruct (lk_gap _ _ _ _ Hok T1' T2' 0) as [G' _]; [done|lia|]. rewrite !lv_zero, Ep in G'. unfold next_of. rewrite G'. cbn [or_err rbind].
  destruct (unfit_towers s H T1' T2' k Hok) as (bad & c' & Hu' & Hb' & Hc'). rewrite Ep in Hu'. rewrite Hu'. cbn [rbind].
  destruct bad; [by right|left]. split; [by apply Hb'|]. eexists _, c'. split; [done|]. split; [|by apply Hc']. exists T1', T2', H. split; [exact Hok|]. split; [done|]. split; [by rewrite E|done].
Qed.
Lemma searched_position s l1 l2 k p :
  represents s (l1 ++ l2) -> cut key cmp k l1 l2 ->
  exists q, insert_position key cmp s k false p = inr (q, cbool (negb (here key cmp k l2))) /\ at_place s l1 l2 q.
Proof. intros Hr Hc. destruct (find_place s l1 l2 k true Hr Hc) as (q & Hf & Hq). exists q. unfold insert_position. cbn [rbind]. by rewrite Hf. Qed.

(** A place in front of [l2], and a comparison that says whether its first
    entry has the key. *)
Definition placed s l1 l2 k (r : res (ptr * Z)) : Prop :=
  exists q c, r = inr (q, c) /\ at_place s l1 l2 q /\ (l2 = [] \/ (c =? 0) = here key cmp k l2).
Lemma search_placed s l1 l2 k p : represents s (l1 ++ l2) -> cut key cmp k l1 l2 -> placed s l1 l2 k (insert_position key cmp s k false p).
Proof.
  intros Hr Hc. destruct (searched_position s l1 l2 k p Hr Hc) as (q & -> & Hq). eexists q, _. split; [done|]. split; [done|]. right. by destruct (here key cmp k l2).
Qed.

(** The list with [x] in its place. *)
Definition put_at l1 l2 x : list A := x :: (if here key cmp (key x) l2 then tail l2 else l2).
(** An entry that is written at its place; only a new one needs memory. *)
Lemma insert_placed s l1 l2 x hint p m :
  placed s l1 l2 (key x) (insert_position key cmp s (key x) hint p) ->
  exists ret s' node p' m', insert_one key cmp true x hint p s m = inr (ret, s', node, p', m') /\
    (enough m -> ret = STDESUCCESS /\ enough m') /\ (here key cmp (key x) l2 = true -> ret = STDESUCCESS) /\
    (ret = STDENOMEM /\ represents s' (l1 ++ l2) \/
     ret = STDESUCCESS /\ exists q u v, node = Some q /\ at_place s' l1 (put_at l1 l2 x) q /\ u ++ v = l1 ++ put_at l1 l2 x /\ at_place s' u v p').
Proof.
  intros (q & c & Hi & Hq & Hc). unfold insert_one, put_at. rewrite Hi. cbn [rbind]. change (negb true) with false. cbn [orb].
  destruct l2 as [|y l2].
  - rewrite (place_end _ _ _ Hq), bool_decide_true by done. cbn [orb]. rewrite <- (place_end _ _ _ Hq).
    destruct (insert_new_place s l1 [] q x m Hq) as (ret & s' & node & p' & m' & -> & Hm & Hr). eexists _, _, _, _, _. split; [done|]. split; [done|]. split; [done|].
    destruct Hr as [[-> Hr]|(-> & n & -> & Hn & Hp')]; [by left|right]. split; [done|]. exists n, (l1 ++ [x]), []. by rewrite app_nil_r.
  - destruct Hc as [?|Hc]; [done|]. destruct (place_next s l1 y l2 q Hq) as (Hne & _). unfold stdskl_is_end in Hne. rewrite Hne, Hc. cbn [orb negb].
    destruct (here key cmp (key x) (y :: l2)); cbn [negb tail].
    + destruct (overwrite_place s l1 y l2 q x Hq) as (s' & -> & Hp'). cbn [rbind]. eexists _, _, _, _, _. split; [done|]. split; [done|]. split; [done|]. right. split; [done|].
      by exists q, l1, (x :: l2).
    + destruct (insert_new_place s l1 (y :: l2) q x m Hq) as (ret & s' & node & p' & m' & -> & Hm & Hr). eexists _, _, _, _, _. split; [done|]. split; [done|]. split; [done|].
      destruct Hr as [[-> Hr]|(-> & n & -> & Hn & Hp')]; [by left|right]. split; [done|]. exists n, (l1 ++ [x]), (y :: l2). by rewrite <- app_assoc.
Qed.

(** A new key is placed with any hint. *)
Lemma hint_placed s l1 l2 u v p k :
  at_place s u v p -> u ++ v = l1 ++ l2 -> cut key cmp k l1 l2 -> here key cmp k l2 = false -> placed s l1 l2 k (insert_position key cmp s k true p).
Proof.
  intros Hp E Hc Hh. assert (Hr : represents s (l1 ++ l2)) by (rewrite <- E; by eapply place_represents).
  assert (Hnone : forall c, match l2 with y :: _ => c = cmp k (key y) | [] => c = -1 end -> l2 = [] \/ (c =? 0) = here key cmp k l2).
  { intros c Hcy. destruct l2; [by left|right]. by rewrite Hcy. }
  destruct (hinted_position s u v p k Hp) as [[Hf (c & Hi & Hcy)]|[_ [[Hf (q & c & Hi & Hq & Hcy)]|Hi]]].
  - destruct (fits_cut key cmp k l1 l2 u v Hc Hh (eq_sym E) Hf) as [-> ->]. exists p, c. auto.
  - assert (Eb : (behind u v).1 ++ (behind u v).2 = l1 ++ l2) by (rewrite <- E; destruct v; cbn; [by rewrite app_nil_r|by rewrite <- app_assoc]).
    destruct (fits_cut key cmp k l1 l2 _ _ Hc Hh (eq_sym Eb) Hf) as [Eu Ev]. rewrite Eu, Ev in *. exists q, c. auto.
  - rewrite Hi. by apply search_placed.
Qed.

(** What becomes of a put: it fails only for want of memory, and then nothing
    is put and the iterator is at the end. *)
Definition put_result l l' x (ret : Z) s' q : Prop :=
  ret = STDESUCCESS /\ represents s' l' /\ stdskl_it_key s' q = inr x \/
  ret = STDENOMEM /\ represents s' l /\ stdskl_is_end s' q = true.

(** One entry that is put in its place. *)
Lemma put_placed s l1 l2 x hint it m :
  placed s l1 l2 (key x) (insert_position key cmp s (key x) hint (default (sk_end s) it)) ->
  exists ret s' q m', stdskl_put key cmp s it x hint m = inr (ret, s', q, m') /\ put_result (l1 ++ l2) (l1 ++ put_at l1 l2 x) x ret s' q /\
    (enough m \/ here key cmp (key x) l2 = true -> ret = STDESUCCESS).
Proof.
  intros Hp. destruct (insert_placed s l1 l2 x hint _ m Hp) as (ret & s' & node & p' & m' & Hi & Hm & Hh & Hr).
  unfold stdskl_put, stdskl_put_seq_n, stdskl_low_insert. cbn [insert_entries]. rewrite Hi. cbn [rbind].
  assert (Hret : enough m \/ here key cmp (key x) l2 = true -> ret = STDESUCCESS) by (intros [He|He]; [by apply Hm|by apply Hh]).
  destruct Hr as [[-> Hr]|(-> & q & u & v & -> & Hq & _)]; cbn [Z.eqb negb STDENOMEM STDESUCCESS rbind default].
  - eexists _, _, _, _. split; [done|]. split; [|done]. right. split; [done|]. split; [done|]. by apply bool_decide_eq_true.
  - eexists _, _, _, _. split; [done|]. split; [|done]. left. split; [done|]. split; [by eapply place_represents|]. by destruct (place_next _ _ _ _ _ Hq) as (_ & ? & _).
Qed.

(** A sequence of new keys, each hinted with the place behind the last: all of
    it, or what came before memory ran out. *)
Lemma insert_entries_new src : forall s u v p hint first m,
  at_place s u v p -> skl_ok key cmp (u ++ v) ->
  Forall (fun x => skl_find key cmp (key x) (u ++ v) = None) src -> ForallOrdPairs (fun x y => cmp (key y) (key x) <> 0) src ->
  exists ret s' f m' pre post, insert_entries key cmp true src hint p first s m = inr (ret, s', f, m') /\ src = pre ++ post /\
    represents s' (foldl (fun acc x => skl_put key cmp x acc) (u ++ v) pre) /\
    (ret = STDESUCCESS /\ post = [] \/ ret = STDENOMEM /\ post <> []) /\ (enough m -> ret = STDESUCCESS).
Proof.
  induction src as [|x src IH]; intros s u v p hint first m Hp Hs Hn Hd; cbn [insert_entries].
  { eexists _, _, _, _, [], []. split; [done|]. split; [done|]. split; [by eapply place_represents|]. split; [by left|done]. }
  apply Forall_cons in Hn as [Hx Hn]. inversion Hd as [|? ? Hxd Hd']; subst. destruct (cut_exists key cmp (key x) (u ++ v) Hs) as (l1 & l2 & E & Hc).
  assert (Hh : here key cmp (key x) l2 = false). { rewrite E, (find_cut key cmp (key x) l1 l2 Hc) in Hx. by destruct l2 as [|y l2]; [|cbn in *; destruct (_ =? 0)]. }
  assert (Hpl : placed s l1 l2 (key x) (insert_position key cmp s (key x) hint p)).
  { destruct hint; [by eapply hint_placed|]. apply search_placed; [|done]. rewrite <- E. by eapply place_represents. }
  destruct (insert_placed s l1 l2 x hint p m Hpl) as (ret & s' & node & p' & m1 & -> & Hm & _ & Hr). cbn [rbind].
  destruct Hr as [[-> Hr]|(-> & q & u' & v' & -> & _ & E' & Hp')]; cbn [Z.eqb negb STDENOMEM STDESUCCESS].
  { eexists _, _, _, _, [], (x :: src). split; [done|]. split; [done|]. split; [by rewrite E|]. split; [by right|]. intros He. by destruct (Hm He). }
  unfold put_at in E'. rewrite <- (put_cut key cmp x l1 l2 Hc), <- E in E'.
  destruct (IH s' u' v' p' true (match first with None => Some q | Some _ => first end) m1 Hp') as (ret & s2 & f & m2 & pre & post & -> & -> & Hr & Hend & Hm2).
  - rewrite E'. by apply skl_put_ok.
  - rewrite E'. rewrite Forall_forall in *. intros y Hy. rewrite skl_find_put by done. rewrite (proj2 (Z.eqb_neq _ _)) by by apply Hxd. by apply Hn.
  - done.
  - eexists _, _, _, _, (x :: pre), post. split; [done|]. split; [done|]. split; [cbn [foldl]; by rewrite <- E'|]. split; [done|]. intros He. by apply Hm2, Hm.
Qed.

Lemma erase_place s l1 x l2 p : at_place s l1 (x :: l2) p -> exists s' q, stdskl_erase s p = inr (s', q) /\ at_place s' l1 l2 q.
Proof.
  intros (T1 & T2 & H & Hok & HM & Hsz & <- & E2 & ->). destruct T2 as [|t T2]; [done|]. injection E2 as <- <-.
  destruct (erase_ok s H T1 [t] T2 Hok) as (s' & He & Hok' & Hsz' & Ee). unfold stdskl_erase, stdskl_erase_n. cbn [app length] in He. change (Z.of_nat 1) with 1 in He.
  rewrite He. cbn [rbind]. eexists s', _. split; [done|]. exists T1, T2, H. rewrite Ee. split; [done|]. split; [done|]. split; [|done].
  rewrite Hsz', Hsz, !length_app. cbn. lia.
Qed.

Lemma construct_represents ksize (x : seed) m s m' : stdskl_construct ksize x m = (STDESUCCESS, Some s, m') -> represents s [].
Proof.
  unfold stdskl_construct, stdskl_low_create_node. destruct (ksize =? 0); [done|]. destruct (malloc m) as [[] m1]; [|done]. cbn [negb].
  intros [= <- _]. set (s := set_end _ _). exists (sk_end s), [], [], 4%nat. split; [|split; [unfold STDSKL_MAX_HEIGHT; lia|done]].
  assert (Hd : forall p, p ∈ dom (sk_nodes s) <-> p = sk_end s) by (intros p; unfold s; cbn; rewrite dom_insert_L, dom_empty_L, elem_of_union, elem_of_singleton, elem_of_empty; tauto).
  constructor; [apply NoDup_singleton|intros p; rewrite Hd, elem_of_nil; tauto|reflexivity|by intros t ?%elem_of_nil|].
  intros T1 T2 lvl [-> ->]%eq_sym%app_eq_nil Hl. cbn [lv]. destruct lvl as [|[|[|[|[|]]]]]; [split; reflexivity..|lia].
Qed.

(** Putting an entry behind the list, as [skl_put_end] says. *)
Lemma put_end_placed s l x m :
  represents s l -> skl_ok key cmp l ->
  exists ret s' q m', stdskl_put key cmp s (Some (sk_end s)) x true m = inr (ret, s', q, m') /\
    put_result l (skl_put_end key cmp x l) x ret s' q /\ (enough m -> ret = STDESUCCESS).
Proof.
  intros (p0 & Hp0) Hs.
  assert (Hcut : exists l1 l2, l = l1 ++ l2 /\ l1 ++ put_at l1 l2 x = skl_put_end key cmp x l /\
    placed s l1 l2 (key x) (insert_position key cmp s (key x) true (sk_end s))).
  { destruct (place_any s [] l l [] p0 Hp0 ltac:(by rewrite app_nil_r)) as (p & Hp). pose proof (place_end _ _ _ Hp). subst p.
    destruct (hinted_position s l [] (sk_end s) (key x) Hp) as [[[_ Hf] (c & Hi & ->)]|[Hno Hi]].
    - exists l, []. rewrite app_nil_r. split; [done|]. split; [|exists (sk_end s), (-1); auto].
      unfold skl_put_end, put_at. destruct (last l) as [y|] eqn:El; [|by apply last_None in El as ->]. specialize (Hf y eq_refl). by rewrite (proj2 (Z.ltb_ge _ _)) by lia.
    - destruct (cut_exists key cmp (key x) l Hs) as (l1 & l2 & E & Hc). exists l1, l2. split; [done|].
      assert (Epe : skl_put_end key cmp x l = skl_put key cmp x l).
      { unfold skl_put_end. destruct (last l) as [y|] eqn:El; [|apply last_None in El as ->; done]. destruct (Z.ltb_spec (cmp (key x) (key y)) 0); [done|].
        destruct Hno. split; [done|]. intros z Hz. rewrite El in Hz. injection Hz as <-. done. }
      split; [rewrite Epe, E; symmetry; by apply put_cut|]. assert (Hr : represents s (l1 ++ l2)) by (rewrite <- E; by exists p0).
      destruct Hi as [[[Hf _] (q & c & Hi & Hq & Hcy)]|Hi]; [|rewrite Hi; by apply search_placed].
      cbn [behind fst snd] in *. assert (l1 = [] /\ l = l2) as [-> ->].
      { destruct l1 as [|y l1]; [done|]. rewrite E in Hf. specialize (Hf y eq_refl). pose proof (ct_before _ _ _ _ _ Hc y ltac:(by left)). lia. }
      exists q, c. split; [done|]. split; [done|]. destruct l2; [by left|right]. by rewrite Hcy. }
  destruct Hcut as (l1 & l2 & E & <- & Hpl). subst l. destruct (put_placed s l1 l2 x true (Some (sk_end s)) m Hpl) as (ret & s' & q & m' & H1 & H2 & H3).
  exists ret, s', q, m'. auto.
Qed.

(** C22: a skip list is the ordered list it stands for.  Whatever heights the
    random numbers give its towers and whichever allocations fail, these
    operations end, use no node that was freed and no link a node does not
    have, and leave a skip list: looking up a key finds its entry or the end;
    putting an entry without a hint replaces the one with its key, which needs
    no memory, or adds it in its place; putting an entry with a new key does
    so with any place of the list as the hint; putting a sequence of new,
    different keys puts all of them or, when memory runs out, the first ones;
    erasing what was found takes it out; running through the list shows its
    entries in order.  A put that fails puts nothing and leaves the iterator at
    the end.  (With a hint, an entry whose key is in the list may be added
    beside the old one instead of replacing it: [Findings.hint_keeps_both].) *)
Theorem skip_list_refines s l :
  represents s l -> skl_ok key cmp l ->
  (forall k, exists p, stdskl_find_it key cmp s k = inr p /\
     match skl_find key cmp k l with Some x => stdskl_it_key s p = inr x | None => stdskl_is_end s p = true end) /\
  (forall x m, exists ret s' q m', stdskl_put key cmp s None x false m = inr (ret, s', q, m') /\
     put_result l (skl_put key cmp x l) x ret s' q /\ (enough m \/ skl_find key cmp (key x) l <> None -> ret = STDESUCCESS)) /\
  (forall x l1 l2 p m, l = l1 ++ l2 -> at_place s l1 l2 p -> skl_find key cmp (key x) l = None ->
     exists ret s' q m', stdskl_put key cmp s (Some p) x true m = inr (ret, s', q, m') /\
       put_result l (skl_put key cmp x l) x ret s' q /\ (enough m -> ret = STDESUCCESS)) /\
  (forall src m, Forall (fun x => skl_find key cmp (key x) l = None) src -> ForallOrdPairs (fun x y => cmp (key y) (key x) <> 0) src ->
     exists ret s' q m' pre post, stdskl_put_seq_n key cmp s None src false m = inr (ret, s', q, m') /\ src = pre ++ post /\
       represents s' (foldl (fun acc x => skl_put key cmp x acc) l pre) /\
       (ret = STDESUCCESS /\ post = [] \/ ret = STDENOMEM /\ post <> []) /\ (enough m -> ret = STDESUCCESS)) /\
  (forall k l', skl_erase key cmp k l = Some l' ->
     exists p s' q, stdskl_find_it key cmp s k = inr p /\ stdskl_erase s p = inr (s', q) /\ represents s' l') /\
  (exists p, stdskl_begin s = inr p /\ forall n, (length l < n)%nat -> iterate n s p = inr l).
Proof.
  intros Hr Hs. assert (Hcut : forall k, exists l1 l2, l = l1 ++ l2 /\ cut key cmp k l1 l2) by (intros k; by apply cut_exists).
  split_and!.
  - intros k. destruct (Hcut k) as (l1 & l2 & E & Hc). rewrite E in *. destruct (find_place s l1 l2 k true Hr Hc) as (p & Hf & Hp).
    unfold stdskl_find_it. rewrite Hf. cbn [rbind]. eexists. split; [done|]. rewrite (find_cut key cmp k l1 l2 Hc).
    destruct l2 as [|y l2]; [by apply bool_decide_eq_true|]. cbn [here head]. destruct (cmp k (key y) =? 0); [|by apply bool_decide_eq_true].
    by destruct (place_next _ _ _ _ _ Hp) as (_ & ? & _).
  - intros x m. destruct (Hcut (key x)) as (l1 & l2 & -> & Hc).
    destruct (put_placed s l1 l2 x false None m) as (ret & s' & q & m' & Hp & Hres & Hret); [by apply search_placed|]. exists ret, s', q, m'. split; [done|].
    rewrite (put_cut key cmp x l1 l2 Hc), (find_cut key cmp (key x) l1 l2 Hc). split; [done|]. intros [He|He]; apply Hret; [by left|right].
    by destruct (here key cmp (key x) l2).
  - intros x u v p m E Hp Hn. destruct (Hcut (key x)) as (l1 & l2 & E2 & Hc). rewrite E2 in *. rewrite (find_cut key cmp (key x) l1 l2 Hc) in Hn.
    rewrite (put_cut key cmp x l1 l2 Hc).
    destruct (put_placed s l1 l2 x true (Some p) m) as (ret & s' & q & m' & H1 & H2 & H3); [|by exists ret, s', q, m'; auto].
    apply (hint_placed s l1 l2 u v); [done|done|done|]. destruct l2; [done|]. cbn in *. by destruct (_ =? 0).
  - intros src m Hn Hd. destruct Hr as (p0 & Hp0). destruct (place_any s [] l l [] p0 Hp0 ltac:(by rewrite app_nil_r)) as (p & Hp).
    pose proof (place_end _ _ _ Hp). subst p. rewrite <- (app_nil_r l) in Hs, Hn |- *.
    destruct (insert_entries_new src s l [] (sk_end s) false None m Hp Hs Hn Hd) as (ret & s' & f & m' & pre & post & Hi & H').
    unfold stdskl_put_seq_n, stdskl_low_insert. cbn [from_option id]. rewrite Hi. cbn [rbind]. by eexists _, _, _, _, pre, post.
  - intros k l' He. destruct (Hcut k) as (l1 & l2 & E & Hc). rewrite E in *. rewrite (erase_cut key cmp k l1 l2 Hc) in He.
    destruct l2 as [|y l2]; [done|]. cbn [here tail] in He. destruct (cmp k (key y) =? 0) eqn:Ek; [|done]. injection He as <-.
    destruct (find_place s l1 (y :: l2) k true Hr Hc) as (p & Hf & Hp). destruct (erase_place s l1 y l2 p Hp) as (s' & q & He & Hq).
    exists p, s', q. unfold stdskl_find_it. rewrite Hf. cbn [rbind here]. rewrite Ek. split; [done|]. split; [done|]. by eapply place_represents.
  - destruct (begin_place s l Hr) as (p & Hb & Hp). exists p. split; [done|]. intros n Hn. by eapply iterate_spec.
Qed.
End refine.

#[export] Instance difference_order : KeyOrder Z.sub.
Proof. split; intros; lia. Qed.
(** An empty list, and one made of a sequence; then no memory is left. *)
Definition empty_list : skl (A := Z) :=
  match stdskl_construct 8 (stdrand32_dseed 12345) [] with (_, Some s, _) => s | _ => mkSkl ∅ 1%positive 0 (mkSeed 0 0 0) 0 0 end.
Definition some_keys : list Z := [5; 3; 9; 1; 20; 7; 12; 30; 25; 4; 2].
Lemma empty_list_represents : represents empty_list [].
Proof. refine (construct_represents 8 (stdrand32_dseed 12345) [] empty_list [] _). vm_compute. reflexivity. Qed.

Lemma skip_list_refines_witness :
  match stdskl_put_seq_n (fun z => z) Z.sub empty_list None some_keys false [] with
  | inr (ret, s, _, _) =>
      ret = STDESUCCESS /\ represents s [1; 2; 3; 4; 5; 7; 9; 12; 20; 25; 30] /\
      (exists p s' q, stdskl_find_it (fun z => z) Z.sub s 12 = inr p /\ stdskl_erase s p = inr (s', q) /\ represents s' [1; 2; 3; 4; 5; 7; 9; 20; 25; 30]) /\
      match stdskl_put (fun z => z) Z.sub s None 6 false [false] with
      | inr (ret, s', _, _) => ret = STDENOMEM /\ represents s' [1; 2; 3; 4; 5; 7; 9; 12; 20; 25; 30]
      | inl _ => False
      end
  | inl _ => False
  end.
Proof.
  destruct (skip_list_refines (fun z => z) Z.sub empty_list [] empty_list_represents ltac:(constructor)) as (_ & _ & _ & Hseq & _).
  destruct (Hseq some_keys []) as (ret & s & q & m' & pre & post & Hput & Hpre & Hr & Hend & Hm).
  - repeat constructor.
  - repeat (apply FOP_cons; [repeat (apply Forall_cons; split; [lia|]); apply Forall_nil_2|]). apply FOP_nil.
  - specialize (Hm ltac:(constructor)). destruct Hend as [[_ ->]|[Hbad _]]; [|rewrite Hm in Hbad; discriminate Hbad].
    rewrite app_nil_r in Hpre. subst pre.
    assert (E : foldl (fun acc x => skl_put (fun z => z) Z.sub x acc) [] some_keys = [1; 2; 3; 4; 5; 7; 9; 12; 20; 25; 30]) by (vm_compute; reflexivity).
    rewrite E in Hr. destruct (skip_list_refines (fun z => z) Z.sub s _ Hr) as (_ & Hp & _ & _ & Her & _).
    + repeat (apply SSorted_cons; [|repeat (apply Forall_cons; split; [unfold key_lt; lia|]); apply Forall_nil_2]). apply SSorted_nil.
    + destruct (Hp 6 [false]) as (ret2 & s2 & q2 & m2 & Hput2 & Hres & _).
      assert (Hfail : match stdskl_put_seq_n (fun z => z) Z.sub empty_list None some_keys false [] with
                      | inr (_, s, _, _) => match stdskl_put (fun z => z) Z.sub s None 6 false [false] with inr (r, _, _, _) => r = STDENOMEM | inl _ => False end
                      | inl _ => False end) by (vm_compute; reflexivity).
      rewrite Hput in *. rewrite Hput2 in *. subst ret2. split; [exact Hm|]. split; [exact Hr|]. split; [apply Her; vm_compute; reflexivity|]. split; [reflexivity|].
      destruct Hres as [[Hbad _]|(_ & Hrep & _)]; [discriminate Hbad|exact Hrep].
Defined.
