(* ===== verification/Groups.v ===== *)
(** * Process groups ([daemon/groups.c])

    Joins, leaves and disconnections change the groups and tell the local
    members; a transitional membership marks the daemons that were lost, a
    regular one removes them, and when it merges daemons they exchange their
    groups in GROUPS messages before anything else is delivered. *)

From Stdlib Require Import ZArith Lia.
From stdpp Require Import base strings numbers option gmap list.
From S2P Require Import Prelude Wire Bytes Config Events EventsFd State Network FlowControl MembSets MembCore ProtSend.
From S2P Require Import Sample Retrans Requests Packing Deliver Delivery Sending EndToEnd Message Names GroupState SessState SessTable SessDir SessWrite SessStream SessServe SessDeliver SessRead Skl.

(* --------------------------------------------------------------------- *)
(** ** Comparisons *)

(** [strncmp( a, b, MAX_GROUP_NAME )]. *)
Definition G_compare_nameptr (a b : list Z) : Z := strncmp (cstr a) (cstr b) MAX_GROUP_NAME.

(** The order of the daemons in a configuration; those that are not in it come
    after, by their address. *)
Definition G_compare_proc_ids_by_conf_internal (config : configuration) (a b : Z) : Z :=
  let aip := u32 a in
  let bip := u32 b in
  let ia := Conf_proc_ref_by_id_in_conf config aip in
  let ib := Conf_proc_ref_by_id_in_conf config bip in
  if (-1 <? ia) && (-1 <? ib) then ia - ib
  else if (ia <? 0) && (ib <? 0) then (if aip =? bip then 0 else if aip <? bip then -1 else 1)
  else if ia <? 0 then 1
  else if ib <? 0 then -1
  else ia - ib.

Definition Is_unknown_memb_id (m : membership_id) : bool := mi_proc_id m =? -1.
Definition Is_partitioned_daemon (d : daemon_members) : bool := Is_unknown_memb_id (dm_memb_id d).
Definition Is_established_daemon (d : daemon_members) : bool := negb (Is_unknown_memb_id (dm_memb_id d)).

(** Arbitrary but deterministic: the differences are [int]s. *)
Definition G_compare_memb_ids (mid1 mid2 : membership_id) : Z :=
  match Is_unknown_memb_id mid1, Is_unknown_memb_id mid2 with
  | true, false => 1
  | false, true => -1
  | true, true => 0
  | false, false =>
      if negb (mi_proc_id mid1 =? mi_proc_id mid2) then s32 (mi_proc_id mid1 - mi_proc_id mid2)
      else if negb (mi_time mid1 =? mi_time mid2) then s32 (mi_time mid1 - mi_time mid2)
      else 0
  end.

Definition G_compare_daemon_vs_set (cn : configuration) (da db : daemon_members) : Z :=
  let cmp := G_compare_memb_ids (dm_memb_id da) (dm_memb_id db) in
  if cmp =? 0 then G_compare_proc_ids_by_conf_internal cn (dm_proc_id da) (dm_proc_id db) else cmp.

(** ** The three kinds of skip lists *)

Definition G_get_group (group_name : list Z) (l : list group) : option group :=
  skl_find gr_name G_compare_nameptr group_name l.
Definition put_new_group (g : group) (l : list group) : list group := skl_put gr_name G_compare_nameptr g l.
(** Writing through a pointer to a group in the list. *)
Definition write_group (g : group) (l : list group) : list group :=
  (fun h => if G_compare_nameptr (gr_name h) (gr_name g) =? 0 then g else h) <$> l.

Definition G_compare_proc_ids_by_conf (cn : configuration) : Z -> Z -> Z := G_compare_proc_ids_by_conf_internal cn.
Definition find_daemon (cn : configuration) (proc_id : Z) (l : list daemon_members) : option daemon_members :=
  skl_find dm_proc_id (G_compare_proc_ids_by_conf cn) proc_id l.
Definition G_get_daemon (cn : configuration) (g : group) (proc_id : Z) : option daemon_members :=
  find_daemon cn proc_id (gr_DaemonsList g).
Definition put_daemon (cn : configuration) (d : daemon_members) (g : group) : group :=
  set_gr_DaemonsList (skl_put dm_proc_id (G_compare_proc_ids_by_conf cn) d (gr_DaemonsList g)) g.
(** Writing through a pointer to a daemon in the list. *)
Definition write_daemon (d : daemon_members) (g : group) : group :=
  set_gr_DaemonsList ((fun e => if u32 (dm_proc_id e) =? u32 (dm_proc_id d) then d else e) <$> gr_DaemonsList g) g.

Definition find_member (name : list Z) (l : list member) : option member := skl_find id G_compare_nameptr name l.
Definition G_get_member (d : daemon_members) (private_group_name : list Z) : option member :=
  find_member private_group_name (dm_MembersList d).
Definition put_member (m : member) (d : daemon_members) : daemon_members :=
  set_dm_MembersList (skl_put id G_compare_nameptr m (dm_MembersList d)) d.

(** [memset( name, 0, MAX_GROUP_NAME ); strcpy( name, s )]. *)
Definition strcpy_name (site : string) (s : list Z) : res (list Z) :=
  if MAX_GROUP_NAME <=? Z.of_nat (length (cstr s)) then inl (Undefined site) else inr (strncpy s MAX_GROUP_NAME).

(** [Conf_proc_by_name]. *)
Definition Conf_proc_by_name (c : configuration) (name : list Z) : option proc :=
  find (fun p => bool_decide (str_bytes (p_name p) = name)) (conf_allprocs c).

(** ** Removing *)

Definition G_remove_daemon (cn : configuration) (g : group) (d : daemon_members) : res group :=
  match skl_erase dm_proc_id (G_compare_proc_ids_by_conf cn) (dm_proc_id d) (gr_DaemonsList g) with
  | None => inl (Fatal "G_remove_daemon: invalid daemon removal")
  | Some l => inr (set_gr_num_members (gr_num_members g - Z.of_nat (length (dm_MembersList d))) (set_gr_DaemonsList l g))
  end.

Definition empty {A} (l : list A) : bool := match l with [] => true | _ => false end.

Definition G_remove_group (g : group) (s : groups_state) : res groups_state :=
  let? _ := assert_that (Fatal "G_remove_group: assert") (empty (gr_DaemonsList g) && empty (gr_mboxes g)) in
  match skl_erase gr_name G_compare_nameptr (gr_name g) (GroupsList s) with
  | None => inl (Fatal "G_remove_group: invalid group removal")
  | Some l => inr (set_Num_groups (Num_groups s - 1) (set_GroupsList l s))
  end.

(** The first entry is overwritten with the last. *)
Definition G_remove_mailbox (g : group) (m : Z) : res group :=
  match list_find (fun x => x = m) (gr_mboxes g) with
  | None => inl (Fatal "G_remove_mailbox: didn't find local mailbox")
  | Some (i, _) => inr (set_gr_mboxes (remove_swap (gr_mboxes g) i) g)
  end.

(** Everybody who is not partitioned is in the membership of the group. *)
Definition G_update_daemon_memb_ids (g : group) : group :=
  set_gr_DaemonsList ((fun d => if Is_established_daemon d then set_dm_memb_id (gi_memb_id (gr_grp_id g)) d else d)
                        <$> gr_DaemonsList g) g.

(** ** The synced set: the daemons whose groups are known to be the same *)

(** The part that is in the membership, and whether something was lost. *)
Definition G_update_synced_set_status (l : list Z) (memb : configuration) : list Z * bool :=
  let l' := filter (fun id => 0 <= Conf_id_in_conf memb (u32 id)) l in
  (l', negb (Nat.eqb (length l') (length l))).
Definition G_update_synced_set (l : list Z) (memb : configuration) : list Z := (G_update_synced_set_status l memb).1.

(** The loop of [G_add_to_synced_set]: [l] and [r] are what is left. *)
Fixpoint merge_synced (fuel : nat) (c : configuration) (l r : list Z) : res (list Z) :=
  let index id :=
    let i := Conf_proc_ref_by_id_in_conf c (u32 id) in
    if i =? -1 then inl (Fatal "G_add_to_synced_set: proc_id not in conf") else inr i in
  match fuel with
  | O => match l, r with [], [] => inr [] | _, _ => inl (Diverges "G_add_to_synced_set") end
  | S fuel =>
      let? index_l := (match l with [] => inr (-1) | x :: _ => index x end) in
      let? index_r := (match r with [] => inr (-1) | y :: _ => index y end) in
      match l, r with
      | [], [] => inr []
      | x :: l', _ =>
          if (index_l <? index_r) || (index_r =? -1) then
            let? t := merge_synced fuel c l' r in inr (x :: t)
          else match r with
               | y :: r' =>
                   if index_r <? index_l then let? t := merge_synced fuel c l r' in inr (y :: t)
                   else inl (Fatal "G_add_to_synced_set: intersection isn't empty")
               | [] => inl (Fatal "G_add_to_synced_set: intersection isn't empty")
               end
      | [], y :: r' => let? t := merge_synced fuel c [] r' in inr (y :: t)
      end
  end.
Definition G_add_to_synced_set (c : configuration) (sset my : list Z) : res (list Z) :=
  let? t := merge_synced (length my + length sset) c my sset in
  if MAX_PROCS_RING <? Z.of_nat (length t) then inl (Undefined "G_add_to_synced_set: temp.proc_ids[]") else inr t.

(** [Is_synced_set_leader]. *)
Definition Is_synced_set_leader (proc_id : Z) (s : groups_state) : bool :=
  u32 (aget 0 (MySyncedSet s) 0) =? u32 proc_id.

(* --------------------------------------------------------------------- *)
(** ** Membership messages *)

Definition REG_MEMB_MESS : Z := 0x1000.
Definition TRANSITION_MESS : Z := 0x2000.
Definition CAUSED_BY_DISCONNECT : Z := 0x400.
Definition CAUSED_BY_NETWORK : Z := 0x800.
Definition sizeof_group_id : Z := 12.
Definition sizeof_membership_id : Z := 8.

Definition enc_memb_id (m : membership_id) : list Z := enc32 (mi_proc_id m) ++ enc32 (mi_time m).
Definition enc_group_id (g : group_id) : list Z := enc_memb_id (gi_memb_id g) ++ enc32 (gi_index g).

(** The names of all members, in the order of the daemons. *)
Definition group_members (l : list daemon_members) : list member := l ≫= dm_MembersList.

(** The header and the bytes of [buf]. *)
Definition G_build_memb_buf (g : group) (caused : Z) : message_header * list Z :=
  (mkMessageHeader (u32 (Z.lor (Set_endian REG_MEMB_MESS) caused)) (gr_name g) (gr_num_members g) (Set_endian 0) sizeof_group_id,
   concat (group_members (gr_DaemonsList g)) ++ enc_group_id (gr_grp_id g)).

Definition add_data_len (n : Z) (h : message_header) : message_header :=
  mkMessageHeader (mh_type h) (mh_private_group_name h) (mh_num_groups h) (mh_hint h) (mh_data_len h + n).

(** The vs sets while they are built: the last one is being filled. *)
Record vs_sets : Type := mkVsSets {
  vs_done : list (list member);
  vs_curr : option (list member);
  vs_memb_id : membership_id;  (* curr_vs_set_memb_id *)
  vs_local : option Z;  (* local_vs_set_offset, once it is written *)
  vs_found : bool;  (* found_joiner *)
}.
Definition vs_list (v : vs_sets) : list (list member) := vs_done v ++ option_list (vs_curr v).
Definition enc_vs_set (l : list member) : list Z := enc32 (Z.of_nat (length l)) ++ concat l.
Definition vs_bytes (l : list (list member)) : list Z := l ≫= enc_vs_set.

(** The members of one daemon; the joiner is left out, once. *)
Fixpoint vs_members (joiner : option member) (l : list member) (found : bool) : list member * bool :=
  match l with
  | [] => ([], found)
  | m :: l =>
      if match joiner with Some j => negb found && (strcmp (cstr j) (cstr m) =? 0) | None => false end
      then vs_members joiner l true
      else let '(l, found) := vs_members joiner l found in (m :: l, found)
  end.

(** One daemon: its members go into the current set, or into a new one when
    its membership is another or unknown. *)
Definition vs_daemon (my_id : Z) (joiner : option member) (d : daemon_members) (v : vs_sets) : res vs_sets :=
  let needed := Is_unknown_memb_id (vs_memb_id v) || negb (Memb_is_equal (vs_memb_id v) (dm_memb_id d)) in
  let done := if needed then vs_list v else vs_done v in
  let curr := if needed then [] else default [] (vs_curr v) in
  let offset := Z.of_nat (length (vs_bytes done)) in
  let? local :=
    (if u32 (dm_proc_id d) =? my_id then
       if negb (default 0 (vs_local v) =? 0) then inl (Fatal "G_build_memb_vs_buf: Found my vs set twice")
       else inr (Some offset)
     else inr (vs_local v)) in
  let '(l, found) := vs_members joiner (dm_MembersList d) (vs_found v) in
  inr (mkVsSets done (Some (curr ++ l)) (if needed then dm_memb_id d else vs_memb_id v) local found).

Fixpoint vs_daemons (my_id : Z) (joiner : option member) (l : list daemon_members) (v : vs_sets) : res vs_sets :=
  match l with
  | [] => inr v
  | d :: l => let? v := vs_daemon my_id joiner d v in vs_daemons my_id joiner l v
  end.

(** The header and the bytes; [local_vs_set_offset] stays what the buffer held
    before when this daemon has no members. *)
Definition G_build_memb_vs_buf (cn : configuration) (my_id : Z) (g : group) (caused : Z) (joiner : option member)
    : res (message_header * list Z) :=
  let '(h, b) := G_build_memb_buf g caused in
  let temp := foldl (fun acc d => skl_put id (G_compare_daemon_vs_set cn) d acc) [] (gr_DaemonsList g) in
  let? v := vs_daemons my_id joiner temp (mkVsSets [] None unknown_memb_id None false) in
  let? local := or_err (Undefined "G_build_memb_vs_buf: local_vs_set_offset") (vs_local v) in
  let? sets :=
    (match joiner with
     | Some j =>
         if negb (vs_found v) then inl (Fatal "G_build_memb_vs_buf: Expected to find joining member")
         else inr (vs_list v ++ [[j]])
     | None => inr (vs_list v)
     end) in
  let region := vs_bytes sets in
  inr (add_data_len (4 + 4 + Z.of_nat (length region)) h, b ++ enc32 (Z.of_nat (length sets)) ++ enc32 local ++ region).

(** A message with this header, made of the bytes in [Mess_buf]. *)
Definition make_message (h : message_header) (b : list Z) : res message_obj :=
  if MAX_MESSAGE_BODY_LEN <? Z.of_nat (length b) then inl (Undefined "groups: Mess_buf[]")
  else Message_Buffer_to_Message_Fragments (with_message_header (fun _ => h) Message_new_message) b (Z.of_nat (length b)).

Definition G_build_trans_mess (g : group) : message_obj :=
  let msg := Message_create_message TRANSITION_MESS (gr_name g) in
  let msg := with_message_header (fun h => mkMessageHeader (mh_type h) (mh_private_group_name h) (mh_num_groups h) (mh_hint h) sizeof_group_id)
               (elem_at_len 0 (sizeof_message_header + sizeof_group_id) msg) in
  aset msg 0 (mkElem (put_bytes (se_buf (element msg 0)) sizeof_message_header (enc_group_id (gr_grp_id g)))
                (se_len (element msg 0))).

Section groups.
Context `{Session}.

(** One session, if it wants membership messages. *)
Definition notify_session (i : Z) (msg : message_obj) (needed : Z) : MS Z :=
  if i <? 0 then fail (Undefined "groups: Sessions[ses]")
  else
    let* r := the_session i in
    if Is_session MEMB_SESSION (s_status r) then Sess_write i msg needed else ret needed.
(** The loop over the mailboxes of a group. *)
Fixpoint notify (mboxes : list Z) (msg : message_obj) (needed : Z) : MS Z :=
  match mboxes with
  | [] => ret needed
  | m :: mboxes =>
      let* i := index_of m in
      let* needed := notify_session i msg needed in
      notify mboxes msg needed
  end.

Definition G_send_lightweight_memb (g : group) (caused : Z) (private_group_name : list Z) : MS unit :=
  let '(h, b) := G_build_memb_buf g caused in
  let b := b ++ enc32 1 ++ enc32 0 ++ enc32 1 ++ private_group_name in
  let* msg := lift (make_message (add_data_len (3 * 4 + MAX_GROUP_NAME) h) b) in
  let* _ := notify (gr_mboxes g) msg 0 in
  ret tt.

Definition G_send_self_leave (g : group) (i : Z) : MS unit :=
  let h := mkMessageHeader (u32 (Set_endian CAUSED_BY_LEAVE)) (gr_name g) 0 (Set_endian 0) 0 in
  let* msg := lift (make_message h []) in
  let* _ := notify_session i msg 0 in
  ret tt.

(** The joiner, when it is local, gets the message with its own offset. *)
Definition G_send_heavyweight_join (g : group) (joiner : option member) (new_mbox : Z) : MS unit :=
  let* w := get in
  let* ' (h, b) := lift (G_build_memb_vs_buf (Cn_active (gs w)) (g_My_id (gs w)) g CAUSED_BY_NETWORK joiner) in
  let* msg := lift (make_message h b) in
  let others := match joiner with
                | Some _ => filter (fun m => m <> new_mbox) (gr_mboxes g)
                | None => gr_mboxes g
                end in
  let* _ := notify others msg 0 in
  if negb (new_mbox =? -1) then
    let temp := mh_data_len h - (4 + MAX_GROUP_NAME) - (sizeof_group_id + 2 * 4) in
    let b := put_bytes b (mh_num_groups h * MAX_GROUP_NAME + sizeof_group_id + 4) (enc32 temp) in
    let* joiner_msg := lift (make_message h b) in
    let* i := index_of new_mbox in
    let* _ := notify_session i joiner_msg 0 in
    ret tt
  else ret tt.
Definition G_send_heavyweight_memb (g : group) : MS unit := G_send_heavyweight_join g None (-1).

Definition G_send_trans_memb (g : group) : MS unit :=
  let* _ := notify (gr_mboxes g) (G_build_trans_mess g) 0 in
  ret tt.

(** ** Joins *)

Definition put_group (g : group) : MS unit := g_do (fun s => set_GroupsList (write_group g (GroupsList s)) s).

(** The group of a join, a new one when there is none. *)
Definition join_group (group_name : list Z) : MS group :=
  let* w := get in
  match G_get_group group_name (GroupsList (gs w)) with
  | Some g => ret g
  | None =>
      let* name := lift (strcpy_name "G_handle_join: strcpy" group_name) in
      let id := match Gstate (gs w) with GOP => G_Reg_memb_id (gs w) | _ => G_Trans_memb_id (gs w) end in
      let g := mkGroup name (mkGroupId id 0) false 0 [] [] in
      g_do (fun s => set_Num_groups (Num_groups s + 1) (set_GroupsList (put_new_group g (GroupsList s)) s)) ;;
      ret g
  end.

(** The daemon of the joiner in the group. *)
Definition join_daemon (g : group) (id : Z) : MS (group * daemon_members) :=
  let* w := get in
  match G_get_daemon (Cn_active (gs w)) g id with
  | Some d => ret (g, d)
  | None =>
      let same := bool_decide (Gstate (gs w) = GOP) || negb (Conf_id_in_conf (G_Trans_memb (gs w)) id =? -1) in
      let d := mkDaemonMembers (s32 id) (if same then gi_memb_id (gr_grp_id g) else unknown_memb_id) [] in
      let g := put_daemon (Cn_active (gs w)) d g in
      put_group g ;;
      ret (g, d)
  end.

(** [Sess_get_session] of a local member. *)
Definition local_session (site : string) (private_name : list Z) : MS Z :=
  let* w := get in
  let* i := lift (Sess_get_session private_name (ss w)) in
  if i <? 0 then fail (Fatal site) else ret i.

(** The mailbox of the joiner when it is local, else -1. *)
Definition join_mbox (d : daemon_members) (private_name : list Z) : MS Z :=
  let* w := get in
  if u32 (dm_proc_id d) =? g_My_id (gs w) then
    let* i := local_session "G_handle_join: local session does not exist" private_name in
    let* r := the_session i in
    ret (s_mbox r)
  else ret (-1).

Definition private_names (site : string) (private_group_name : list Z) : MS (list Z * list Z) :=
  let* names := lift (G_private_to_names private_group_name) in
  match names with
  | None => fail (Undefined site)
  | Some n => ret n
  end.

Definition G_handle_join (private_group_name group_name : list Z) : MS unit :=
  let* w := get in
  match Gstate (gs w) with
  | GGATHER | GGT => fail (Fatal "G_handle_join in GGATHER or GGT")
  | _ =>
      let* ' (private_name, proc_name) := private_names "G_handle_join: private_name" private_group_name in
      match Conf_proc_by_name (cf_Config (cf (core w))) proc_name with
      | None => ret tt
      | Some new_p =>
          let* g := join_group group_name in
          let* ' (g, d) := join_daemon g (p_id new_p) in
          match G_get_member d private_group_name with
          | Some _ => ret tt
          | None =>
              let* m := lift (strcpy_name "G_handle_join: strcpy" private_group_name) in
              let d := put_member m d in
              let g := write_daemon d g in
              let id := gr_grp_id g in
              let g := set_gr_grp_id (mkGroupId (gi_memb_id id) (gi_index id + 1)) (set_gr_num_members (gr_num_members g + 1) g) in
              let* new_mbox := join_mbox d private_name in
              let g := if new_mbox =? -1 then g else set_gr_mboxes (gr_mboxes g ++ [new_mbox]) g in
              let g := set_gr_changed (gr_changed g || Is_partitioned_daemon d) g in
              put_group g ;;
              when (negb (empty (gr_mboxes g)))
                (if gr_changed g then
                   G_send_heavyweight_join g (Some m) new_mbox ;;
                   G_send_trans_memb g
                 else G_send_lightweight_memb g CAUSED_BY_JOIN m)
          end
      end
  end.

(** ** Leaves and disconnections *)

(** Take the member out of the group: the group, or [None] when it is gone. *)
Definition remove_member (site : string) (g : group) (d : daemon_members) (private_group_name : list Z) : MS (option group) :=
  let* w := get in
  match skl_erase id G_compare_nameptr private_group_name (dm_MembersList d) with
  | None => fail (Fatal site)
  | Some l =>
      let d := set_dm_MembersList l d in
      let g := set_gr_num_members (gr_num_members g - 1) (write_daemon d g) in
      let* g := (if empty l then lift (G_remove_daemon (Cn_active (gs w)) g d) else ret g) in
      put_group g ;;
      if gr_num_members g =? 0 then
        let* w := get in
        let* s := lift (G_remove_group g (gs w)) in
        g_do (fun _ => s) ;;
        ret None
      else
        let id := gr_grp_id g in
        let g := set_gr_grp_id (mkGroupId (gi_memb_id id) (gi_index id + 1)) g in
        put_group g ;;
        ret (Some g)
  end.

(** Tell the local members that [m] has gone. *)
Definition tell_departure (g : group) (caused : Z) (m : member) : MS unit :=
  when (negb (empty (gr_mboxes g)))
    (if gr_changed g then
       G_send_heavyweight_memb g ;;
       G_send_trans_memb g
     else G_send_lightweight_memb g caused m).

Definition G_handle_leave (private_group_name group_name : list Z) : MS unit :=
  let* w := get in
  match Gstate (gs w) with
  | GGATHER | GGT => fail (Fatal "G_handle_leave in GGATHER or GGT")
  | _ =>
      let* ' (private_name, proc_name) := private_names "G_handle_leave: private_name" private_group_name in
      match Conf_proc_by_name (cf_Config (cf (core w))) proc_name with
      | None => ret tt
      | Some p =>
          match G_get_group group_name (GroupsList (gs w)) with
          | None => ret tt
          | Some g =>
              match G_get_daemon (Cn_active (gs w)) g (p_id p) with
              | None => ret tt
              | Some d =>
                  match G_get_member d private_group_name with
                  | None => ret tt
                  | Some m =>
                      let* g := (if p_id p =? g_My_id (gs w) then
                                   let* i := local_session "G_handle_leave: member has no local session" private_name in
                                   G_send_self_leave g i ;;
                                   let* r := the_session i in
                                   lift (G_remove_mailbox g (s_mbox r))
                                 else ret g) in
                      let* g := remove_member "G_handle_leave: couldn't extract member" g d m in
                      match g with
                      | Some g => tell_departure g CAUSED_BY_LEAVE m
                      | None => ret tt
                      end
                  end
              end
          end
      end
  end.

(** One group of a client that is gone; [i] is its session when it was local. *)
Definition kill_in_group (private_group_name : list Z) (p : proc) (i : Z) (g : group) : MS unit :=
  let* w := get in
  match G_get_daemon (Cn_active (gs w)) g (p_id p) with
  | None => ret tt
  | Some d =>
      match G_get_member d private_group_name with
      | None => ret tt
      | Some m =>
          let* g := (if p_id p =? g_My_id (gs w) then
                       if i <? 0 then fail (Undefined "G_handle_kill: Sessions[ses]")
                       else
                         let* r := the_session i in
                         lift (G_remove_mailbox g (s_mbox r))
                     else ret g) in
          let* g := remove_member "G_handle_kill: unable to extract member" g d m in
          match g with
          | Some g => tell_departure g CAUSED_BY_DISCONNECT m
          | None => ret tt
          end
      end
  end.

(** [body] on every group; it touches its own group only. *)
Definition for_groups (body : group -> MS unit) : MS unit :=
  let* w := get in
  mforeach body (GroupsList (gs w)).

Definition G_handle_kill (private_group_name : list Z) : MS unit :=
  let* w := get in
  match Gstate (gs w) with
  | GGATHER | GGT => fail (Fatal "G_handle_kill in GGATHER or GGT")
  | _ =>
      let* ' (private_name, proc_name) := private_names "G_handle_kill: private_name" private_group_name in
      match Conf_proc_by_name (cf_Config (cf (core w))) proc_name with
      | None => ret tt
      | Some p =>
          let* i := (if p_id p =? g_My_id (gs w) then
                       let* w := get in lift (Sess_get_session private_name (ss w))
                     else ret (-1)) in
          for_groups (kill_in_group private_group_name p i)
      end
  end.

(* --------------------------------------------------------------------- *)
(** ** GROUPS messages *)

Definition GROUPS_BUF_PREAMBLE_SIZE : Z := sizeof_membership_id + 1.
Definition GROUPS_BUF_GROUP_INFO_SIZE : Z := MAX_GROUP_NAME + sizeof_group_id + 2 + 2.
Definition GROUPS_BUF_DAEMON_INFO_SIZE : Z := 4 + sizeof_membership_id + 2.

(** The iterators: the groups that are left, and the daemons of the first of
    them. *)
Definition groups_iter : Type := list group * list daemon_members.
Definition iter_of (l : list group) : groups_iter :=
  (l, match l with g :: _ => gr_DaemonsList g | [] => [] end).

(** A daemon of a group; the membership id is that of the group. *)
Definition enc_daemon (id : membership_id) (d : daemon_members) : list Z :=
  enc32 (dm_proc_id d) ++ enc_memb_id id ++ enc16 (Z.of_nat (length (dm_MembersList d))) ++ concat (dm_MembersList d).

(** The daemons that fit behind [num_bytes] bytes, and those that are left. *)
Fixpoint build_daemons (id : membership_id) (l : list daemon_members) (num_bytes : Z) : res (list daemon_members * list daemon_members) :=
  match l with
  | [] => inr ([], [])
  | d :: l' =>
      let num_memb := Z.of_nat (length (dm_MembersList d)) in
      let size_needed := GROUPS_BUF_DAEMON_INFO_SIZE + num_memb * MAX_GROUP_NAME + sizeof_message_header in
      if GROUPS_BUF_SIZE - num_bytes <? size_needed then inr ([], l)
      else if negb (u16 num_memb =? num_memb) then inl (Fatal "G_build_groups_buf: number of members")
      else
        let? '(fit, rest) := build_daemons id l' (num_bytes + Z.of_nat (length (enc_daemon id d))) in
        inr (d :: fit, rest)
  end.

Definition enc_group (g : group) (fit : list daemon_members) : list Z :=
  gr_name g ++ enc_group_id (gr_grp_id g) ++ enc16 (cbool (gr_changed g)) ++ enc16 (Z.of_nat (length fit))
  ++ (fit ≫= enc_daemon (gi_memb_id (gr_grp_id g))).

(** The groups from the iterators on that fit behind [b]. *)
Fixpoint build_groups (l : list group) (dit : list daemon_members) (b : list Z) : res (list Z * groups_iter) :=
  match l with
  | [] => inr (b, ([], dit))
  | g :: l' =>
      let num_bytes := Z.of_nat (length b) in
      if GROUPS_BUF_SIZE - num_bytes <? GROUPS_BUF_GROUP_INFO_SIZE + sizeof_message_header then inr (b, (l, dit))
      else
        let? '(fit, rest) := build_daemons (gi_memb_id (gr_grp_id g)) dit (num_bytes + GROUPS_BUF_GROUP_INFO_SIZE) in
        let b := b ++ enc_group g fit in
        match rest with
        | [] => build_groups l' (iter_of l').2 b
        | _ => inr (b, (l, rest))
        end
  end.

Definition preamble (first_time : bool) (s : groups_state) : list Z :=
  enc_memb_id (G_Reg_memb_id s)
  ++ (if first_time then 1 :: enc32 (Z.of_nat (length (MySyncedSet s))) ++ (MySyncedSet s ≫= enc32) else [0]).

Definition G_build_groups_buf (it : groups_iter) (first_time : bool) (s : groups_state) : res (list Z * groups_iter) :=
  let it := if first_time then iter_of (GroupsList s) else it in
  build_groups it.1 it.2 (preamble first_time s).

(** The loop of [G_build_new_groups_bufs]; [bufs] are those built so far, the
    last one first. *)
Fixpoint build_bufs (fuel : nat) (it : groups_iter) (first_time : bool) (bufs : list buf) (s : groups_state) : res (list buf) :=
  match fuel with
  | O => inl (Diverges "G_build_new_groups_bufs")
  | S fuel =>
      let? '(b, it) := G_build_groups_buf it first_time s in
      match it.1 with
      | [] => inr (b :: bufs)
      | _ => build_bufs fuel it false (b :: bufs) s
      end
  end.
(** Every buffer but the first takes a daemon at least. *)
Definition bufs_fuel (s : groups_state) : nat := S (S (length (GroupsList s ≫= gr_DaemonsList))).
Definition G_build_new_groups_bufs (s : groups_state) : res groups_state :=
  let? bufs := build_bufs (bufs_fuel s) ([], []) true (Groups_bufs s) s in
  inr (set_Groups_bufs bufs s).

Definition G_stamp_groups_bufs (s : groups_state) : groups_state :=
  set_Groups_bufs ((fun b => put_bytes b 0 (enc_memb_id (G_Reg_memb_id s))) <$> Groups_bufs s) s.
Definition G_discard_groups_bufs (s : groups_state) : groups_state := set_Groups_bufs [] s.

(** The last four bytes of the name are the size of the synced set. *)
Definition G_build_groups_msg_hdr (my_name : list Z) (synced_size groups_bytes : Z) : message_header :=
  mkMessageHeader (u32 (Set_endian GROUPS_MESS))
    (put_bytes (resize (Z.to_nat MAX_GROUP_NAME) 0 my_name) (MAX_GROUP_NAME - 4) (enc32 synced_size)) 0 (Set_endian 0) groups_bytes.

Definition groups_message (my_name : list Z) (synced_size : Z) (service : Z) (b : buf) : res message_obj :=
  let h := G_build_groups_msg_hdr my_name synced_size (Z.of_nat (length b)) in
  let h := set_mh_type (Z.lor (mh_type h) service) h in
  Message_Buffer_to_Message_Fragments (with_message_header (fun _ => h) Message_new_message) b (Z.of_nat (length b)).

(** All but the last are sent reliable, the last one agreed. *)
Fixpoint send_bufs (my_name : list Z) (synced_size : Z) (bufs : list buf) : MS unit :=
  match bufs with
  | [] => ret tt
  | b :: bufs =>
      let* msg := lift (groups_message my_name synced_size (match bufs with [] => AGREED_MESS | _ => RELIABLE_MESS end) b) in
      match Prot_Create_Down_Link msg (Message_get_packet_type (mh_type (Message_get_message_header msg))) with
      | None => fail (Undefined "G_send_groups_messages: down_ptr")
      | Some down_ptr => core_call (Prot_new_message down_ptr) ;; send_bufs my_name synced_size bufs
      end
  end.
Definition G_send_groups_messages : MS unit :=
  let* w := get in
  send_bufs (sx_My_name (ss w)) (Z.of_nat (length (MySyncedSet (gs w)))) (Groups_bufs (gs w)).

(** ** Reading GROUPS messages *)

(** [num] bytes of [Temp_buf] are left: more is what was there before. *)
Definition take_bytes (site : string) (n : Z) (bs : list Z) : res (list Z * list Z) :=
  if Z.of_nat (length bs) <? n then inl (Undefined site) else inr (take (Z.to_nat n) bs, drop (Z.to_nat n) bs).
(** Fields in the byte order of the sender. *)
Definition in_order32 (same : bool) (z : Z) : Z := if same then z else s32 (Flip_int32 z).
Definition in_order16 (same : bool) (z : Z) : Z := if same then z else u16 (Flip_int16 z).
Definition get_memb_id (same : bool) (b : buf) (o : Z) : membership_id :=
  mkMembId (in_order32 same (get_s32 b o)) (in_order32 same (get_s32 b (o + 4))).

Fixpoint read_members (n : nat) (bs : list Z) (l : list member) : res (list member * list Z) :=
  match n with
  | O => inr (l, bs)
  | S n =>
      let? '(m, bs) := take_bytes "G_mess_to_groups: Temp_buf[]" MAX_GROUP_NAME bs in
      read_members n bs (skl_put_end id G_compare_nameptr m l)
  end.

Fixpoint read_daemons (cn : configuration) (same : bool) (n : nat) (bs : list Z) (g : group) : res (group * list Z) :=
  match n with
  | O => inr (g, bs)
  | S n =>
      let? '(b, bs) := take_bytes "G_mess_to_groups: Temp_buf[]" GROUPS_BUF_DAEMON_INFO_SIZE bs in
      let id := get_memb_id same b 4 in
      let num_memb := in_order16 same (get_u16 b 12) in
      let? '(l, bs) := read_members (Z.to_nat num_memb) bs [] in
      let g := put_daemon cn (mkDaemonMembers (in_order32 same (get_s32 b 0)) id l) g in
      let g := set_gr_changed (gr_changed g || negb (Memb_is_equal id (gi_memb_id (gr_grp_id g)))) g in
      read_daemons cn same n bs (set_gr_num_members (gr_num_members g + num_memb) g)
  end.

(** One group after the other; every one has at least its own fields, so the
    number of bytes is enough [fuel]. *)
Fixpoint read_groups (fuel : nat) (same : bool) (bs : list Z) (s : groups_state) : res groups_state :=
  match bs with
  | [] => inr s
  | _ =>
      match fuel with
      | O => inl (Diverges "G_mess_to_groups")
      | S fuel =>
          let? '(b, bs) := take_bytes "G_mess_to_groups: Temp_buf[]" GROUPS_BUF_GROUP_INFO_SIZE bs in
          let group_name := take (Z.to_nat MAX_GROUP_NAME) b in
          let? '(g, s) :=
            (match G_get_group group_name (GroupsList s) with
             | Some g => inr (g, s)
             | None =>
                 let? name := strcpy_name "G_mess_to_groups: strcpy" group_name in
                 let id := mkGroupId (get_memb_id same b MAX_GROUP_NAME) (in_order32 same (get_s32 b (MAX_GROUP_NAME + 8))) in
                 let g := mkGroup name id false 0 [] [] in
                 inr (g, set_Num_groups (Num_groups s + 1) (set_GroupsList (put_new_group g (GroupsList s)) s))
             end) in
          let g := set_gr_changed (gr_changed g || truth (get_u16 b (MAX_GROUP_NAME + sizeof_group_id))) g in
          let num_dmns := in_order16 same (get_u16 b (MAX_GROUP_NAME + sizeof_group_id + 2)) in
          let? '(g, bs) := read_daemons (Cn_active s) same (Z.to_nat num_dmns) bs g in
          read_groups fuel same bs (set_GroupsList (write_group g (GroupsList s)) s)
      end
  end.

(** The bytes of the elements, as they are copied to [Temp_buf]. *)
Definition mess_temp (msg : message_obj) : res (list Z) :=
  let b := msg ≫= (fun e => get_bytes (se_buf e) 0 (se_len e)) in
  if sizeof_Temp_buf <? Z.of_nat (length b) then inl (Undefined "G_mess_to_groups: Temp_buf[]") else inr b.

Fixpoint read_proc_ids (same : bool) (n : nat) (bs : list Z) : res (list Z * list Z) :=
  match n with
  | O => inr ([], bs)
  | S n =>
      let? '(b, bs) := take_bytes "G_mess_to_groups: Temp_buf[]" 4 bs in
      let? '(l, bs) := read_proc_ids same n bs in
      inr (in_order32 same (get_s32 b 0) :: l, bs)
  end.

(** The synced set, when this is the first message of its sender, and the
    groups. *)
Definition G_mess_to_groups (msg : message_obj) (sset : option (list Z)) (s : groups_state)
    : res (option (list Z) * groups_state) :=
  let same := Same_endian (mh_type (Message_get_message_header msg)) in
  let? temp := mess_temp msg in
  let? '(_, bs) := take_bytes "G_mess_to_groups: Temp_buf[]" (sizeof_message_header + sizeof_membership_id) temp in
  let? '(flag, bs) := take_bytes "G_mess_to_groups: Temp_buf[]" 1 bs in
  let? '(sset, bs) :=
    (if get_byte flag 0 =? 1 then
       let? '(b, bs) := take_bytes "G_mess_to_groups: Temp_buf[]" 4 bs in
       let size := u32 (in_order32 same (get_s32 b 0)) in
       if MAX_PROCS_RING <? size then inl (Undefined "G_mess_to_groups: sset->proc_ids[]")
       else
         let? '(l, bs) := read_proc_ids same (Z.to_nat size) bs in
         inr (Some l, bs)
     else inr (sset, bs)) in
  let? s := read_groups (length bs) same bs s in
  inr (sset, s).

(** The messages of one synced set. *)
Fixpoint read_link (l : list message_obj) (sset : option (list Z)) (s : groups_state) : res (option (list Z) * groups_state) :=
  match l with
  | [] => inr (sset, s)
  | m :: l =>
      let? '(sset, s) := G_mess_to_groups m sset s in
      read_link l sset s
  end.
Definition add_synced (c : configuration) (sset : option (list Z)) (s : groups_state) : res groups_state :=
  let? l := or_err (Undefined "groups: sset") sset in
  let? t := G_add_to_synced_set c l (MySyncedSet s) in
  inr (set_MySyncedSet t s).
(** All the links that [use] lets through, with the configuration [c]. *)
Fixpoint read_gathered (c : configuration) (use : groups_message_link -> bool) (l : list groups_message_link) (sset : option (list Z))
    (s : groups_state) : res groups_state :=
  match l with
  | [] => inr (set_Gathered [] s)
  | k :: l =>
      if use k then
        let? '(sset, s) := read_link (gl_messages k) sset s in
        let? s := add_synced c sset s in
        read_gathered c use l sset s
      else read_gathered c use l sset s
  end.

(** ** The state machine *)

Definition set_gstate (x : gstate) : MS unit :=
  g_do (set_Gstate x) ;; on_core (stat_do (set_st_gstate (gstate_code x))).

Definition G_shift_to_GOP : MS unit :=
  set_gstate GOP ;;
  on_core (Prot_set_delivery_threshold UNRELIABLE_TYPE).

(** [G_eliminate_partitioned_daemons_status]: the group and whether a daemon
    was removed. *)
Definition partitioned (s : groups_state) (d : daemon_members) : bool :=
  match Gstate s with
  | GGT => Conf_id_in_conf (G_Trans_memb s) (u32 (dm_proc_id d)) =? -1
  | _ => Is_partitioned_daemon d
  end.
Fixpoint eliminate (s : groups_state) (l : list daemon_members) (g : group) : res (group * bool) :=
  match l with
  | [] => inr (g, false)
  | d :: l =>
      if partitioned s d then
        let? g := G_remove_daemon (Cn_active s) g d in
        let? '(g, _) := eliminate s l g in
        inr (g, true)
      else eliminate s l g
  end.
Definition G_eliminate_partitioned_daemons_status (s : groups_state) (g : group) : res (group * bool) :=
  eliminate s (gr_DaemonsList g) g.

Definition remove_group (g : group) : MS unit :=
  let* w := get in
  let* s := lift (G_remove_group g (gs w)) in
  g_do (fun _ => s).

(** A changed group of a membership that only lost daemons. *)
Definition install_group (g : group) : MS unit :=
  when (gr_changed g)
    (let* w := get in
     let* ' (g, _) := lift (G_eliminate_partitioned_daemons_status (gs w) g) in
     put_group g ;;
     if gr_num_members g =? 0 then remove_group g
     else
       let g := set_gr_changed false (set_gr_grp_id (mkGroupId (G_Reg_memb_id (gs w)) 1) g) in
       let g := G_update_daemon_memb_ids g in
       put_group g ;;
       when (negb (empty (gr_mboxes g))) (G_send_heavyweight_memb g)).

(** A changed group of a membership that merges daemons. *)
Definition clean_group (g : group) : MS unit :=
  when (gr_changed g)
    (let* w := get in
     let* ' (g, _) := lift (G_eliminate_partitioned_daemons_status (gs w) g) in
     put_group g ;;
     when (gr_num_members g =? 0) (remove_group g)).

(** Any group when another membership came while gathering. *)
Definition cascade_group (g : group) : MS unit :=
  let* w := get in
  let* ' (g, group_changed) := lift (G_eliminate_partitioned_daemons_status (gs w) g) in
  put_group g ;;
  when group_changed
    (g_do (set_Groups_bufs_fresh false) ;;
     if gr_num_members g =? 0 then remove_group g else put_group (set_gr_changed true g)).

Definition build_new_bufs : MS unit :=
  let* w := get in
  let* s := lift (G_build_new_groups_bufs (gs w)) in
  g_do (fun _ => s) ;;
  g_do (set_Groups_bufs_fresh true).

Definition is_leader : MS bool := gets (fun w => Is_synced_set_leader (g_My_id (gs w)) (gs w)).

Definition reset_gathered (s : groups_state) : groups_state :=
  set_Num_daemons_gathered 0 (set_Num_mess_gathered 0 (set_Gathered_complete false s)).

(** In GTRANS. *)
Definition reg_memb_in_trans : MS unit :=
  let* w := get in
  if Conf_num_procs (G_Trans_memb (gs w)) =? Conf_num_procs (G_Reg_memb (gs w)) then
    for_groups install_group ;;
    G_shift_to_GOP
  else
    for_groups clean_group ;;
    s_do (set_Session_threshold MEDIUM_PRIORITY) ;;
    Sess_set_active_threshold ;;
    on_core (Prot_set_down_queue GROUPS_DOWNQUEUE) ;;
    on_core (Prot_set_delivery_threshold AGREED_TYPE) ;;
    let* leader := is_leader in
    when leader (build_new_bufs ;; G_send_groups_messages) ;;
    set_gstate GGATHER.

(** In GGT: those whose messages have all come are synced with this daemon if
    its own messages have. *)
Definition reg_memb_in_ggt : MS unit :=
  let* w := get in
  let use k := Gathered_complete (gs w) && gl_complete k in
  let* s := lift (read_gathered (cf_Config (cf (core w))) use (Gathered (gs w)) None (gs w)) in
  g_do (fun _ => s) ;;
  when (existsb (fun k => use k && negb (empty (gl_messages k))) (Gathered (gs w))) (g_do (set_Groups_bufs_fresh false)) ;;
  for_groups cascade_group ;;
  let* w := get in
  let '(l, synced_set_changed) := G_update_synced_set_status (MySyncedSet (gs w)) (G_Trans_memb (gs w)) in
  g_do (set_MySyncedSet l) ;;
  when synced_set_changed (g_do (set_Groups_bufs_fresh false)) ;;
  g_do reset_gathered ;;
  let* leader := is_leader in
  when leader
    (let* w := get in
     (if Groups_bufs_fresh (gs w) then g_do G_stamp_groups_bufs
      else g_do G_discard_groups_bufs ;; build_new_bufs) ;;
     G_send_groups_messages) ;;
  set_gstate GGATHER.

Definition G_handle_reg_memb (reg_memb : configuration) (reg_memb_id : membership_id) : MS unit :=
  let* w := get in
  match Gstate (gs w) with
  | GOP => fail (Fatal "G_handle_reg_memb in GOP")
  | GGATHER => fail (Fatal "G_handle_reg_memb in GGATHER")
  | GTRANS =>
      g_do (fun s => set_G_Reg_memb_id reg_memb_id (set_G_Reg_memb reg_memb s)) ;;
      reg_memb_in_trans
  | GGT =>
      g_do (fun s => set_G_Reg_memb_id reg_memb_id (set_G_Reg_memb reg_memb s)) ;;
      reg_memb_in_ggt
  end.

(** Daemons that are not in the transitional membership are partitioned. *)
Definition mark_partitioned (trans_memb : configuration) (d : daemon_members) : daemon_members :=
  if Conf_id_in_conf trans_memb (u32 (dm_proc_id d)) =? -1 then set_dm_memb_id unknown_memb_id d else d.
Definition lost_daemon (trans_memb : configuration) (g : group) : bool :=
  existsb (fun d => Conf_id_in_conf trans_memb (u32 (dm_proc_id d)) =? -1) (gr_DaemonsList g).

Definition trans_group (g : group) : MS unit :=
  let* w := get in
  let g' := set_gr_DaemonsList (mark_partitioned (G_Trans_memb (gs w)) <$> gr_DaemonsList g) g in
  put_group g' ;;
  when (lost_daemon (G_Trans_memb (gs w)) g)
    (when (negb (empty (gr_mboxes g'))) (G_send_trans_memb g') ;;
     put_group (G_update_daemon_memb_ids
       (set_gr_changed true (set_gr_grp_id (mkGroupId (G_Trans_memb_id (gs w)) 1) g')))).

Definition G_handle_trans_memb (trans_memb : configuration) (trans_memb_id : membership_id) : MS unit :=
  let* w := get in
  match Gstate (gs w) with
  | GTRANS => fail (Fatal "G_handle_trans_memb in GTRANS")
  | GGT => fail (Fatal "G_handle_trans_memb in GGT")
  | GOP =>
      g_do (fun s => set_G_Trans_memb_id trans_memb_id (set_G_Trans_memb trans_memb s)) ;;
      for_groups trans_group ;;
      set_gstate GTRANS ;;
      g_do (fun s => set_MySyncedSet (G_update_synced_set (MySyncedSet s) (G_Trans_memb s)) s)
  | GGATHER =>
      g_do (fun s => set_G_Trans_memb_id trans_memb_id (set_G_Trans_memb trans_memb s)) ;;
      for_groups (fun g => when (lost_daemon trans_memb g) (put_group (set_gr_changed true g))) ;;
      set_gstate GGT
  end.

(** A changed group when all states have been exchanged. *)
Definition notify_group (g : group) : MS unit :=
  when (gr_changed g)
    (let* w := get in
     let g := set_gr_changed false (set_gr_grp_id (mkGroupId (G_Reg_memb_id (gs w)) 1) g) in
     put_group g ;;
     when (negb (empty (gr_mboxes g))) (G_send_heavyweight_memb g) ;;
     put_group (G_update_daemon_memb_ids g)).

Definition G_compute_and_notify : MS unit :=
  let* w := get in
  let* s := lift (read_gathered (cf_Config (cf (core w))) (fun _ => true) (Gathered (gs w)) None (gs w)) in
  g_do (fun _ => s) ;;
  for_groups notify_group ;;
  g_do reset_gathered ;;
  g_do (fun s => set_Groups_bufs_fresh false (G_discard_groups_bufs s)).

(** Keep a message of another synced set. *)
Fixpoint keep_message (rep : Z) (msg : message_obj) (l : list groups_message_link) : option (list groups_message_link) :=
  match l with
  | [] => None
  | k :: l =>
      if u32 (gl_rep_proc_id k) =? rep
      then Some (mkGroupsMessageLink (gl_rep_proc_id k) (gl_complete k) (msg :: gl_messages k) :: l)
      else match keep_message rep msg l with Some l => Some (k :: l) | None => None end
  end.
Definition add_message (rep : Z) (msg : message_obj) (l : list groups_message_link) : list groups_message_link :=
  match keep_message rep msg l with
  | Some l => l
  | None => mkGroupsMessageLink (s32 rep) false [msg] :: l
  end.
Definition complete_link (rep : Z) (k : groups_message_link) : groups_message_link :=
  if u32 (gl_rep_proc_id k) =? rep then mkGroupsMessageLink (gl_rep_proc_id k) true (gl_messages k) else k.

(** What a message adds to what was gathered. *)
Definition gather_message (rep : Z) (h : message_header) (msg : message_obj) (s : groups_state) : groups_state :=
  let mine := Is_synced_set_leader rep s in
  let s := if mine then s else set_Gathered (add_message rep msg (Gathered s)) s in
  let s := set_Num_mess_gathered (Num_mess_gathered s + 1) s in
  if is_mess AGREED_MESS (mh_type h) then
    let represented := in_order32 (Same_endian (mh_type h)) (get_s32 (mh_private_group_name h) (MAX_GROUP_NAME - 4)) in
    let s := set_Num_daemons_gathered (s32 (Num_daemons_gathered s + represented)) s in
    if mine then set_Gathered_complete true s else set_Gathered (complete_link rep <$> Gathered s) s
  else s.

Definition G_handle_groups (msg : message_obj) : MS unit :=
  let* w := get in
  match Gstate (gs w) with
  | GOP => fail (Fatal "G_handle_groups in GOP")
  | GTRANS => fail (Fatal "G_handle_groups in GTRANS")
  | _ =>
      let h := Message_get_message_header msg in
      let id := get_memb_id (Same_endian (mh_type h)) (bytes_from msg (Message_get_first_data_ptr msg)) 0 in
      if negb (Memb_is_equal id (G_Reg_memb_id (gs w))) then ret tt
      else
        match Conf_proc_by_name (cf_Config (cf (core w))) (cstr (mh_private_group_name h)) with
        | None => ret tt
        | Some p =>
            g_do (gather_message (p_id p) h msg) ;;
            let* w := get in
            if negb (Num_daemons_gathered (gs w) =? Conf_num_procs (G_Reg_memb (gs w))) then ret tt
            else
              on_core (Prot_set_down_queue NORMAL_DOWNQUEUE) ;;
              s_do (set_Session_threshold LOW_PRIORITY) ;;
              Sess_set_active_threshold ;;
              G_compute_and_notify ;;
              let* w := get in
              G_shift_to_GOP ;;
              match Gstate (gs w) with
              | GGATHER => ret tt
              | _ => G_handle_trans_memb (G_Trans_memb (gs w)) (G_Trans_memb_id (gs w))
              end
        end
  end.

Definition Sess_deliver_reg_memb (reg_memb : configuration) (reg_memb_id : membership_id) : MS unit :=
  G_handle_reg_memb reg_memb reg_memb_id.
Definition Sess_deliver_trans_memb (trans_memb : configuration) (trans_memb_id : membership_id) : MS unit :=
  G_handle_trans_memb trans_memb trans_memb_id.

(** [my_id] is [My.id]. *)
Definition G_init (my_id : Z) : MS unit :=
  let* w := get in
  g_do (fun s =>
    set_Cn_active (cf_Config (cf (core w)))
      (reset_gathered (set_Gathered [] (set_Groups_bufs_fresh false (set_Groups_bufs []
        (set_GroupsList [] (set_MySyncedSet [s32 my_id] (set_Num_groups 0 (set_g_My_id my_id s))))))))) ;;
  G_shift_to_GOP.

(** Reorder the daemons of every group by the configuration that was loaded:
    into a list in its order, and from it into the new list. *)
Definition reorder (cn : configuration) (g : group) : group :=
  let tmp := skl_put_seq dm_proc_id (G_compare_proc_ids_by_conf cn) (gr_DaemonsList g) in
  set_gr_DaemonsList (foldl (fun l d => skl_put_end dm_proc_id (G_compare_proc_ids_by_conf cn) d l) [] tmp) g.
Definition G_signal_conf_reload : MS unit :=
  let* w := get in
  let cn := cf_Config (cf (core w)) in
  g_do (fun s => set_Cn_active cn (set_GroupsList (reorder cn <$> GroupsList s) s)).

(** ** What the session layer sees *)

Definition groups_c : Groups := {|
  G_mboxes := fun w name => gr_mboxes <$> G_get_group name (GroupsList (gs w));
  G_is_ready := fun w => bool_decide (Gstate (gs w) = GOP) || bool_decide (Gstate (gs w) = GTRANS);
  SessDeliver.G_handle_join := G_handle_join;
  SessDeliver.G_handle_leave := G_handle_leave;
  SessDeliver.G_handle_kill := G_handle_kill;
  SessDeliver.G_handle_groups := G_handle_groups
|}.
End groups.
