(* ===== verification/GroupsHold.v ===== *)
(** * Holding back the clients while groups are exchanged

    While the daemons tell each other their groups ([GGATHER], [GGT]) the
    clients are held back below the medium priority, only GROUPS messages are
    sent, and only agreed messages are delivered.  The state moves along the
    edges of the state machine, and an event that the state does not expect
    is an alarm. *)

From Stdlib Require Import ZArith Lia.
From stdpp Require Import base strings numbers option gmap list.
From S2P Require Import Prelude Wire Bytes Config Events State Sample Network FlowControl MembSets MembCore Deliver Delivery ProtSend Retrans Requests Packing Sending EndToEnd Message EventsFd Names.
From S2P Require Import GroupState SessState SessTable SessDir SessWrite SessStream SessServe SessDeliver SessRead Skl Groups.

Definition state_alarms : list err :=
  [Fatal "G_handle_reg_memb in GOP"; Fatal "G_handle_reg_memb in GGATHER"; Fatal "G_handle_trans_memb in GTRANS";
   Fatal "G_handle_trans_memb in GGT"; Fatal "G_handle_groups in GOP"; Fatal "G_handle_groups in GTRANS";
   Fatal "G_handle_join in GGATHER or GGT"; Fatal "G_handle_leave in GGATHER or GGT"; Fatal "G_handle_kill in GGATHER or GGT"].
Definition no_alarm (e : err) : Prop := e ∉ state_alarms.

Ltac no_alarm_tac :=
  let H := fresh in intros H; repeat (apply elem_of_cons in H as [H|H]; [discriminate H|]); by apply elem_of_nil in H.

Section fine.
Context {A B : Type}.
(** The errors of a computation are no alarms of the state machine. *)
Definition fine (r : res A) : Prop := forall e, r = inl e -> no_alarm e.
Lemma fine_inr (a : A) : fine (inr a).
Proof. by intros e. Qed.
Lemma fine_inl (e : err) : no_alarm e -> fine (inl e).
Proof. by intros He e' [= <-]. Qed.
End fine.
Lemma fine_bind {A B} (r : res A) (k : A -> res B) : fine r -> (forall a, fine (k a)) -> fine (let? a := r in k a).
Proof. intros Hr Hk e. destruct r as [e'|a]; cbn; [intros [= <-]; by apply Hr|apply Hk]. Qed.

Create HintDb fine.
Ltac fine_step :=
  lazymatch goal with
  | |- fine (rbind _ _) => apply fine_bind; [|intros ?]
  | |- fine (inr _) => apply fine_inr
  | |- fine (inl _) => apply fine_inl; no_alarm_tac
  | |- fine (let _ := _ in _) => cbv zeta
  | |- fine (or_err _ ?o) => destruct o; cbn [or_err]
  | |- fine (assert_that _ ?b) => destruct b; cbn [assert_that]
  | |- fine (match ?x with _ => _ end) => destruct x
  end.
Ltac fine_auto := repeat first [ solve [auto with fine] | fine_step ].

Lemma fine_strcpy site s : no_alarm (Undefined site) -> fine (strcpy_name site s).
Proof. intros H. unfold strcpy_name. destruct (_ <=? _); [by apply fine_inl|apply fine_inr]. Qed.
#[export] Hint Extern 1 (fine (strcpy_name _ _)) => apply fine_strcpy; no_alarm_tac : fine.
Lemma fine_fragments m b n : fine (Message_Buffer_to_Message_Fragments m b n).
Proof. unfold Message_Buffer_to_Message_Fragments. fine_auto. Qed.
#[export] Hint Resolve fine_fragments : fine.
Lemma fine_make_message h b : fine (make_message h b).
Proof. unfold make_message. fine_auto. Qed.
Lemma fine_groups_message n k s b : fine (groups_message n k s b).
Proof. unfold groups_message. fine_auto. Qed.

Lemma fine_vs_daemons my j l : forall v, fine (vs_daemons my j l v).
Proof. induction l as [|d l IH]; intros v; cbn [vs_daemons]; unfold vs_daemon; fine_auto. Qed.
#[export] Hint Resolve fine_make_message fine_groups_message fine_vs_daemons : fine.
Lemma fine_vs cn my g c j : fine (G_build_memb_vs_buf cn my g c j).
Proof. unfold G_build_memb_vs_buf. cbn [G_build_memb_buf]. fine_auto. Qed.

Lemma fine_remove_daemon cn g d : fine (G_remove_daemon cn g d).
Proof. unfold G_remove_daemon. fine_auto. Qed.
Lemma fine_remove_group g s : fine (G_remove_group g s).
Proof. unfold G_remove_group. fine_auto. Qed.
Lemma fine_remove_mailbox g m : fine (G_remove_mailbox g m).
Proof. unfold G_remove_mailbox. fine_auto. Qed.
#[export] Hint Resolve fine_vs fine_remove_daemon fine_remove_group fine_remove_mailbox : fine.
Lemma fine_eliminate s l : forall g, fine (eliminate s l g).
Proof. induction l as [|d l IH]; intros g; cbn [eliminate]; fine_auto. Qed.

Lemma fine_build_daemons id l : forall n, fine (build_daemons id l n).
Proof. induction l as [|d l IH]; intros n; cbn [build_daemons]; fine_auto. Qed.
#[export] Hint Resolve fine_eliminate fine_build_daemons : fine.
Lemma fine_build_groups l : forall d b, fine (build_groups l d b).
Proof. induction l as [|g l IH]; intros d b; cbn [build_groups]; fine_auto. Qed.
#[export] Hint Resolve fine_build_groups : fine.
Lemma fine_build_bufs n : forall it first bufs s, fine (build_bufs n it first bufs s).
Proof. induction n as [|n IH]; intros it first bufs s; cbn [build_bufs]; unfold G_build_groups_buf; fine_auto. Qed.
#[export] Hint Resolve fine_build_bufs : fine.
Lemma fine_new_bufs s : fine (G_build_new_groups_bufs s).
Proof. unfold G_build_new_groups_bufs. fine_auto. Qed.

Lemma fine_take site n bs : no_alarm (Undefined site) -> fine (take_bytes site n bs).
Proof. intros H. unfold take_bytes. destruct (_ <? _); [by apply fine_inl|apply fine_inr]. Qed.
#[export] Hint Extern 1 (fine (take_bytes _ _ _)) => apply fine_take; no_alarm_tac : fine.
Lemma fine_members n : forall bs l, fine (read_members n bs l).
Proof. induction n as [|n IH]; intros bs l; cbn [read_members]; fine_auto. Qed.
#[export] Hint Resolve fine_new_bufs fine_members : fine.
Lemma fine_daemons cn same n : forall bs g, fine (read_daemons cn same n bs g).
Proof. induction n as [|n IH]; intros bs g; cbn [read_daemons]; fine_auto. Qed.
#[export] Hint Resolve fine_daemons : fine.
Lemma fine_groups n same : forall bs s, fine (read_groups n same bs s).
Proof. induction n as [|n IH]; intros bs s; cbn [read_groups]; fine_auto. Qed.
Lemma fine_ids same n : forall bs, fine (read_proc_ids same n bs).
Proof. induction n as [|n IH]; intros bs; cbn [read_proc_ids]; fine_auto. Qed.
#[export] Hint Resolve fine_groups fine_ids : fine.
Lemma fine_mess m o s : fine (G_mess_to_groups m o s).
Proof. unfold G_mess_to_groups, mess_temp. fine_auto. Qed.
#[export] Hint Resolve fine_mess : fine.
Lemma fine_link l : forall o s, fine (read_link l o s).
Proof. induction l as [|m l IH]; intros o s; cbn [read_link]; fine_auto. Qed.
Lemma fine_merge c n : forall l r, fine (merge_synced n c l r).
Proof. induction n as [|n IH]; intros l r; cbn [merge_synced]; fine_auto. Qed.
#[export] Hint Resolve fine_link fine_merge : fine.
Lemma fine_add c o s : fine (add_synced c o s).
Proof. unfold add_synced, G_add_to_synced_set. fine_auto. Qed.
#[export] Hint Resolve fine_add : fine.
Lemma fine_gathered c use l : forall o s, fine (read_gathered c use l o s).
Proof. induction l as [|k l IH]; intros o s; cbn [read_gathered]; fine_auto. Qed.
#[export] Hint Resolve fine_gathered : fine.

Lemma fine_private p : fine (G_private_to_names p).
Proof. unfold G_private_to_names. fine_auto. Qed.
Lemma fine_walk fuel next P : forall p, fine (walk fuel next P p).
Proof. induction fuel as [|n IH]; intros [i|]; cbn [walk]; fine_auto. Qed.
#[export] Hint Resolve fine_private fine_walk : fine.
Lemma fine_session n s : fine (Sess_get_session n s).
Proof. unfold Sess_get_session, first_not_before. fine_auto. Qed.
Lemma fine_index b s : fine (Sess_get_session_index b s).
Proof. unfold Sess_get_session_index. fine_auto. Qed.
#[export] Hint Resolve fine_session fine_index : fine.

(* --------------------------------------------------------------------- *)
(** ** What the core is told *)

(** What the groups component sets in the core, and the level of the
    descriptors. *)
Definition core_kept (c c' : world) : Prop :=
  Down_queue_ptr (prt c') = Down_queue_ptr (prt c) /\ Prot_delivery_threshold (prt c') = Prot_delivery_threshold (prt c) /\
  ev_Active_priority (ev c') = ev_Active_priority (ev c).
#[export] Instance core_kept_preorder : PreOrder core_kept.
Proof. split; [done|]. intros c1 c2 c3 (?&?&?) (?&?&?). unfold core_kept. split_and!; congruence. Qed.

Abbreviation core_calm := (keeps core_kept no_alarm).
(** The promise of the session layer to the core about blocking the users. *)
Class SessionHold `{Session} : Prop := { sess_block_users_level_hold : core_calm sess_block_users_level }.
#[export] Instance null_session_hold : SessionHold.
Proof. split. apply keeps_ret, _. Defined.

Create HintDb hold.
Ltac hold_step :=
  lazymatch goal with
  | |- keeps _ _ (bind _ _) => apply (keeps_bind _ _); [|intros ?]
  | |- keeps _ _ (ret _) => apply (keeps_ret _ _)
  | |- keeps _ _ get => apply (keeps_get _ _)
  | |- keeps _ _ (gets _) => apply (keeps_gets _ _)
  | |- keeps _ _ (fail _) => apply keeps_fail; no_alarm_tac
  | |- keeps _ _ (when _ _) => apply (keeps_when _ _); intros _
  | |- keeps _ _ (mforeach _ _) => apply (keeps_mforeach _ _); intros ?
  | |- keeps _ _ (or_fatal _ ?o) => destruct o; cbn [or_fatal]
  | |- keeps _ _ (let _ := _ in _) => cbv zeta
  | |- keeps _ _ (match ?x with _ => _ end) => destruct x
  | |- forall _, _ => intros ?
  end.
Ltac hold_auto := repeat first [ solve [auto with hold] | hold_step ].

Section core.
Lemma calm_modify f : (forall c, core_kept c (f c)) -> core_calm (modify f).
Proof. apply keeps_modify. Qed.
Lemma calm_tok f : core_calm (tok_do f). Proof. by apply calm_modify. Qed.
Lemma calm_io f : core_calm (io_do f). Proof. by apply calm_modify. Qed.
Lemma calm_stat f : core_calm (stat_do f). Proof. by apply calm_modify. Qed.
Lemma calm_down q : core_calm (set_down q). Proof. by apply calm_modify. Qed.
Lemma calm_hurry h : core_calm (prt_do (set_Hurry_head h)). Proof. by apply calm_modify. Qed.
Lemma calm_E_queue f code delta : core_calm (E_queue f code delta).
Proof. intros c. unfold wp, E_queue, read_clock, bind, get, io_do, ev_do, modify, ret. done. Qed.
Lemma calm_E_dequeue f code : core_calm (E_dequeue f code).
Proof. by apply calm_modify. Qed.
Lemma calm_emit o : core_calm (emit o). Proof. by apply calm_modify. Qed.
Hint Resolve calm_tok calm_io calm_stat calm_down calm_hurry calm_E_queue calm_E_dequeue calm_emit : hold.

Lemma calm_sendto dst d : core_calm (DL_sendto_gen dst d).
Proof. unfold DL_sendto_gen. hold_auto. Qed.
Hint Resolve calm_sendto : hold.
Lemma calm_ucast id h e : core_calm (Net_ucast id h e).
Proof. unfold Net_ucast. hold_auto. Qed.
Lemma calm_send_token h e : core_calm (Net_send_token h e).
Proof. unfold Net_send_token, check_token_len. hold_auto. Qed.
Hint Resolve calm_ucast calm_send_token : hold.
Lemma calm_last : core_calm send_last_token.
Proof. unfold send_last_token. hold_auto. Qed.
Lemma calm_leader c id : core_calm (leader_is c id).
Proof. unfold leader_is. hold_auto. Qed.
Hint Resolve calm_last calm_leader : hold.
Lemma calm_token_hurry : core_calm Prot_token_hurry.
Proof. unfold Prot_token_hurry. hold_auto. Qed.
Hint Resolve calm_token_hurry : hold.
Lemma calm_handle_hurry id : core_calm (Handle_hurry id).
Proof. unfold Handle_hurry. hold_auto. Qed.

Context `{SessionHold}.
Lemma calm_block : core_calm State.Sess_block_users_level.
Proof. unfold State.Sess_block_users_level. apply (keeps_bind _ _); [apply calm_emit|]. intros _. apply sess_block_users_level_hold. Qed.
Hint Resolve calm_handle_hurry calm_block : hold.
Lemma calm_new_message d : core_calm (Prot_new_message d).
Proof. unfold Prot_new_message. hold_auto. Qed.
End core.
#[export] Hint Resolve calm_new_message calm_E_queue calm_E_dequeue calm_stat : hold.

(** The descriptor tables do not touch the threshold. *)
Definition same_active (e e' : ev_state) : Prop := ev_Active_priority e' = ev_Active_priority e.
#[export] Instance same_active_preorder : PreOrder same_active.
Proof. split; [done|]. intros e1 e2 e3 H1 H2. unfold same_active in *. congruence. Qed.
Lemma calm_in_ev {A} (m : M ev_state A) : keeps same_active no_alarm m -> core_calm (in_ev m).
Proof. intros Hm c. specialize (Hm (ev c)). unfold wp, in_ev in *. destruct (m (ev c)); done. Qed.

Section fds.
Lemma active_modify f : (forall e, same_active e (f e)) -> keeps same_active no_alarm (modify f).
Proof. apply keeps_modify. Qed.
Lemma active_queue_at i q : keeps same_active no_alarm (modify (set_fd_queue_at i q)).
Proof. by apply active_modify. Qed.
Lemma active_clr fd t : keeps same_active no_alarm (modify (fd_clr fd t)).
Proof. by apply active_modify. Qed.
Hint Resolve active_queue_at active_clr : hold.
Lemma active_attach fd t f c d p : keeps same_active no_alarm (E_attach_fd fd t f c d p).
Proof. unfold E_attach_fd. hold_auto. apply active_modify. intros e. unfold same_active. by case_match. Qed.
Lemma active_detach_priority fd t p : keeps same_active no_alarm (E_detach_fd_priority fd t p).
Proof. unfold E_detach_fd_priority. hold_auto. Qed.
Hint Resolve active_detach_priority : hold.
Lemma active_detach fd t : keeps same_active no_alarm (E_detach_fd fd t).
Proof. unfold E_detach_fd, at_each_priority. hold_auto. Qed.
End fds.

(* --------------------------------------------------------------------- *)
(** ** What the session layer and the component leave alone *)

(** The active level is the higher of the two thresholds. *)
Record levels_ok (w : sess_world) : Prop := mkLevelsOk {
  ll_session : 0 <= Session_threshold (ss w) < NUM_PRIORITY;
  ll_protocol : Protocol_threshold (ss w) = LOW_PRIORITY \/ Protocol_threshold (ss w) = MEDIUM_PRIORITY;
  ll_active : ev_Active_priority (ev (core w)) = Z.max (Session_threshold (ss w)) (Protocol_threshold (ss w));
}.
Definition same_hold (w w' : sess_world) : Prop :=
  Gstate (gs w') = Gstate (gs w) /\ Session_threshold (ss w') = Session_threshold (ss w) /\
  Down_queue_ptr (prt (core w')) = Down_queue_ptr (prt (core w)) /\
  Prot_delivery_threshold (prt (core w')) = Prot_delivery_threshold (prt (core w)) /\ (levels_ok w -> levels_ok w').
#[export] Instance same_hold_preorder : PreOrder same_hold.
Proof. split; [done|]. intros w1 w2 w3 (?&?&?&?&?) (?&?&?&?&?). unfold same_hold. split_and!; try congruence. auto. Qed.
Abbreviation calm := (keeps same_hold no_alarm).

Section calm.
Lemma calm_on_core {A} (m : M world A) : core_calm m -> calm (on_core m).
Proof.
  intros Hm w. specialize (Hm (core w)). unfold wp, on_core in *. destruct (m (core w)) as [a c|e]; [|done].
  destruct Hm as (H1 & H2 & H3). split; [done|]. split; [done|]. split; [done|]. split; [done|].
  intros [L1 L2 L3]. constructor; [done|done|]. cbn. by rewrite H3.
Qed.
Lemma calm_s_do f :
  (forall s, Session_threshold (f s) = Session_threshold s /\ Protocol_threshold (f s) = Protocol_threshold s) -> calm (s_do f).
Proof.
  intros Hf. apply (keeps_modify _). intros w. destruct (Hf (ss w)) as [H1 H2]. split; [done|]. split; [done|]. split; [done|]. split; [done|].
  intros [L1 L2 L3]. by constructor; cbn; rewrite ?H1, ?H2.
Qed.
Lemma calm_ses_do i f : calm (ses_do i f).
Proof. by apply calm_s_do. Qed.
Lemma calm_g_do f : (forall s, Gstate (f s) = Gstate s) -> calm (g_do f).
Proof. intros Hf. apply (keeps_modify _). intros w. split; [apply Hf|]. split; [done|]. split; [done|]. split; [done|]. by intros [L1 L2 L3]. Qed.
Lemma calm_lift {A} (r : res A) : fine r -> calm (lift r).
Proof. apply (keeps_lift _). Qed.
Lemma calm_index mbox : calm (index_of mbox).
Proof. intros w. unfold index_of. apply calm_lift. auto with fine. Qed.
Lemma calm_the_session i : calm (the_session i).
Proof. apply (keeps_gets _ _). Qed.
Lemma calm_attach fd t f : calm (attach_fd fd t f).
Proof. unfold attach_fd. apply (keeps_bind _ _); [apply calm_on_core, calm_in_ev, active_attach|intros ?; apply (keeps_ret _ _)]. Qed.
Lemma calm_detach fd t : calm (detach_fd fd t).
Proof. unfold detach_fd. apply (keeps_bind _ _); [apply calm_on_core, calm_in_ev, active_detach|intros ?; apply (keeps_ret _ _)]. Qed.
Lemma calm_send mbox b : calm (send mbox b).
Proof. unfold send. hold_auto; by apply calm_s_do. Qed.
Hint Resolve calm_on_core calm_ses_do calm_lift calm_index calm_the_session calm_attach calm_detach calm_send : hold.
Lemma calm_send_part mbox b (from n : Z) : calm (send_part mbox b from n).
Proof. unfold send_part. hold_auto. Qed.
Lemma calm_later mbox : calm (badger_later mbox).
Proof. unfold badger_later. hold_auto. Qed.
Lemma calm_no_more mbox : calm (badger_no_more mbox).
Proof. unfold badger_no_more. hold_auto. Qed.
Hint Resolve calm_send_part calm_later calm_no_more : hold.
Lemma calm_head i mbox msg : calm (badger_head i mbox msg).
Proof. unfold badger_head. hold_auto. Qed.
Lemma calm_body i mbox l : forall from, calm (badger_body i mbox l from).
Proof. induction l as [|e l IH]; intros from; cbn [badger_body]; hold_auto. Qed.
Hint Resolve calm_head calm_body : hold.
Lemma calm_loop i mbox q : calm (badger_loop i mbox q).
Proof. induction q as [|m q IH]; cbn [badger_loop]; hold_auto. Qed.
Hint Resolve calm_loop : hold.
Lemma calm_badger mbox : calm (Sess_badger mbox).
Proof. unfold Sess_badger. hold_auto. Qed.
Lemma calm_clear i : calm (Sess_clear_session i).
Proof. unfold Sess_clear_session. hold_auto. Qed.
Hint Resolve calm_badger calm_clear : hold.

(** Setting the level makes it the higher of the two. *)
Lemma set_masks_active (p : Z) e : wp (set_masks p) (fun _ e' => same_active e e') never e.
Proof.
  unfold set_masks. assert (H : keeps same_active never (set_masks p)); [|apply H]. unfold set_masks. apply (keeps_mforeach _ _). intros i.
  apply (keeps_bind _ _); [apply (keeps_get _ _)|]. intros e1. apply (keeps_mforeach _ _). intros x. apply (keeps_when _ _). intros _. by apply (keeps_modify _).
Qed.
Lemma threshold_active (p : Z) e :
  0 <= p < NUM_PRIORITY -> wp (E_set_active_threshold p) (fun _ e' => ev_Active_priority e' = p) never e.
Proof.
  intros Hp. unfold E_set_active_threshold. rewrite (proj2 (Z.ltb_ge p 0)), (proj2 (Z.leb_gt NUM_PRIORITY p)) by lia. cbn [orb].
  apply wp_bind, wp_get, wp_if; intros E; [apply Z.eqb_eq in E; by apply wp_ret|].
  apply wp_bind, wp_modify, wp_bind, wp_modify, wp_bind. eapply wp_mono; [apply set_masks_active| |done]. intros [] e' H. apply wp_ret. exact H.
Qed.
Lemma set_active_spec w :
  0 <= Session_threshold (ss w) < NUM_PRIORITY -> Protocol_threshold (ss w) = LOW_PRIORITY \/ Protocol_threshold (ss w) = MEDIUM_PRIORITY ->
  wp Sess_set_active_threshold (fun _ w' => ss w' = ss w /\ gs w' = gs w /\ prt (core w') = prt (core w) /\ levels_ok w') never w.
Proof.
  intros Hs Hp. unfold Sess_set_active_threshold. apply wp_bind, wp_get, wp_bind. unfold wp at 1, on_core, in_ev.
  set (p := if Session_threshold (ss w) <? Protocol_threshold (ss w) then _ else _).
  assert (Ep : p = Z.max (Session_threshold (ss w)) (Protocol_threshold (ss w))).
  { unfold p. destruct (Z.ltb_spec (Session_threshold (ss w)) (Protocol_threshold (ss w))); lia. }
  change NUM_PRIORITY with 3 in *. change LOW_PRIORITY with 0 in *. change MEDIUM_PRIORITY with 1 in *.
  pose proof (threshold_active p (ev (core w)) ltac:(change NUM_PRIORITY with 3; lia)) as H. unfold wp in H.
  destruct (E_set_active_threshold p (ev (core w))) as [r e'|]; [|done]. apply wp_ret. split; [done|]. split; [done|]. split; [done|].
  constructor; [done|done|]. cbn. by rewrite H.
Qed.
Lemma calm_level o : calm (level_change o).
Proof.
  assert (H : forall p w, p = LOW_PRIORITY \/ p = MEDIUM_PRIORITY ->
     wp (s_do (set_Protocol_threshold p) ;; Sess_set_active_threshold) (fun _ => same_hold w) no_alarm w).
  { intros p w Hp. destruct (decide (0 <= Session_threshold (ss w) < NUM_PRIORITY)) as [Hs|Hs].
    - apply wp_bind, wp_modify. eapply wp_mono; [by apply set_active_spec| |done]. intros [] w' (H1 & H2 & H3 & H4).
      split; [by rewrite H2|]. rewrite H1, H3. done.
    - apply wp_bind, wp_modify. unfold Sess_set_active_threshold. apply wp_bind, wp_get, wp_bind. unfold wp at 1, on_core, in_ev.
      match goal with |- context [E_set_active_threshold ?q ?e] => assert (Hk : core_kept (core w) (core w)) by done; destruct (E_set_active_threshold q e) as [r e'|er] eqn:Ee end.
      + apply wp_ret. split; [done|]. split; [done|]. split; [done|]. split; [done|]. intros [L1 _ _]. done.
      + exfalso. revert Ee. unfold E_set_active_threshold. destruct (_ || _); [done|]. unfold bind at 1, get. destruct (_ =? _); [done|].
        unfold bind, modify. match goal with |- context [set_masks ?q ?e] => pose proof (set_masks_active q e) as Hm end. unfold wp in Hm. by destruct (set_masks _ _). }
  destruct o; try apply (keeps_ret _ _); unfold level_change, Sess_block_users_level, Sess_unblock_users_level; intros w; apply wp_bind, wp_get, wp_when; try done; intros _; apply H; auto.
Qed.
Hint Resolve calm_level : hold.
Lemma calm_core_call {A} (m : M world A) : core_calm m -> calm (core_call m).
Proof. intros Hm. unfold core_call. hold_auto. Qed.
End calm.
#[export] Hint Resolve calm_on_core calm_ses_do calm_lift calm_index calm_the_session calm_attach calm_detach calm_send_part calm_badger calm_clear calm_later calm_level calm_core_call : hold.
#[export] Hint Extern 1 (fine _) => solve [auto with fine] : hold.
#[export] Hint Extern 1 (calm (g_do _)) => (by apply calm_g_do) : hold.

Section told.
Context `{SessionHold}.
Lemma calm_kill mbox : calm (Sess_kill mbox).
Proof. unfold Sess_kill. hold_auto. Qed.
Lemma calm_rest mbox l : forall sent, calm (send_rest mbox l sent).
Proof. induction l as [|e l IH]; intros sent; cbn [send_rest]; hold_auto. Qed.
Hint Resolve calm_kill calm_rest : hold.
Lemma calm_now mbox msg : calm (write_now mbox msg).
Proof. unfold write_now. hold_auto. Qed.
Hint Resolve calm_now : hold.
Lemma calm_write i msg needed : calm (Sess_write i msg needed).
Proof. unfold Sess_write. hold_auto. Qed.
Hint Resolve calm_write : hold.
Lemma calm_notify_session i msg needed : calm (notify_session i msg needed).
Proof. unfold notify_session. hold_auto. Qed.
Hint Resolve calm_notify_session : hold.
Lemma calm_notify ms : forall msg needed, calm (notify ms msg needed).
Proof. induction ms as [|m ms IH]; intros msg needed; cbn [notify]; hold_auto. Qed.
Hint Resolve calm_notify : hold.
Lemma calm_light g c m : calm (G_send_lightweight_memb g c m).
Proof. unfold G_send_lightweight_memb. cbn [G_build_memb_buf]. hold_auto. Qed.
Lemma calm_self g i : calm (G_send_self_leave g i).
Proof. unfold G_send_self_leave. hold_auto. Qed.
Lemma calm_heavy_join g j m : calm (G_send_heavyweight_join g j m).
Proof. unfold G_send_heavyweight_join. hold_auto. Qed.
Lemma calm_trans_mess g : calm (G_send_trans_memb g).
Proof. unfold G_send_trans_memb. hold_auto. Qed.
Hint Resolve calm_light calm_self calm_heavy_join calm_trans_mess : hold.
Lemma calm_heavy g : calm (G_send_heavyweight_memb g).
Proof. unfold G_send_heavyweight_memb. hold_auto. Qed.
Lemma calm_send_bufs nm n l : calm (send_bufs nm n l).
Proof. induction l as [|b l IH]; cbn [send_bufs]; hold_auto. Qed.
Hint Resolve calm_heavy calm_send_bufs : hold.
Lemma calm_groups_messages : calm G_send_groups_messages.
Proof. unfold G_send_groups_messages. hold_auto. Qed.
End told.
#[export] Hint Resolve calm_notify calm_light calm_self calm_heavy_join calm_trans_mess calm_heavy calm_groups_messages : hold.

(* --------------------------------------------------------------------- *)
(** ** The pure functions keep the state of the state machine *)

(** What comes out is still in the state of [s]. *)
Definition in_state {A} (st : A -> groups_state) (r : res A) (s : groups_state) : Prop :=
  forall a, r = inr a -> Gstate (st a) = Gstate s.
Abbreviation keeps_gstate := (in_state (fun s => s)).

Section in_state.
Implicit Types (s : groups_state).
Lemma in_state_bind {A B} (sa : A -> groups_state) (sb : B -> groups_state) (r : res A) (k : A -> res B) s :
  in_state sa r s -> (forall a, in_state sb (k a) (sa a)) -> in_state sb (let? a := r in k a) s.
Proof. intros Hr Hk b. destruct r as [e|a]; cbn; [done|]. intros Hb. rewrite (Hk a b Hb). by apply Hr. Qed.
Lemma in_state_pure {A B} (sb : B -> groups_state) (r : res A) (k : A -> res B) s :
  (forall a, in_state sb (k a) s) -> in_state sb (let? a := r in k a) s.
Proof. intros Hk b. destruct r as [e|a]; cbn; [done|]. apply Hk. Qed.

Lemma in_state_remove g s : keeps_gstate (G_remove_group g s) s.
Proof. unfold G_remove_group. apply in_state_pure. intros []. destruct (skl_erase _ _ _ _) as [l|]; intros a; [by intros [= <-]|done]. Qed.
Lemma in_state_new_bufs s : keeps_gstate (G_build_new_groups_bufs s) s.
Proof. unfold G_build_new_groups_bufs. apply in_state_pure. intros bufs a. by intros [= <-]. Qed.
Lemma in_state_groups n same : forall bs s, keeps_gstate (read_groups n same bs s) s.
Proof.
  induction n as [|n IH]; intros [|b bs] s; cbn [read_groups]; try (intros a; by intros [= <-]).
  apply in_state_pure. intros [h bs1]. apply (in_state_bind snd).
  - destruct (G_get_group _ _) as [g|]; [intros a; by intros [= <-]|]. apply in_state_pure. intros nm a. by intros [= <-].
  - intros [g s1]. cbv zeta. cbn [snd]. apply in_state_pure. intros [g2 bs2] s2 Hs2. apply IH in Hs2. by rewrite Hs2.
Qed.
Lemma in_state_mess m o s : in_state snd (G_mess_to_groups m o s) s.
Proof.
  unfold G_mess_to_groups. cbv zeta. apply in_state_pure. intros temp. apply in_state_pure. intros [x bs]. apply in_state_pure. intros [flag bs1].
  apply in_state_pure. intros [sset bs2]. apply (in_state_bind (fun s => s)); [apply in_state_groups|]. intros s2 a. by intros [= <-].
Qed.
Lemma in_state_link l : forall o s, in_state snd (read_link l o s) s.
Proof.
  induction l as [|m l IH]; intros o s; cbn [read_link]; [intros a; by intros [= <-]|].
  apply (in_state_bind snd); [apply in_state_mess|]. intros [o1 s1]. apply IH.
Qed.
Lemma in_state_add c o s : keeps_gstate (add_synced c o s) s.
Proof. unfold add_synced. apply in_state_pure. intros l. apply in_state_pure. intros t a. by intros [= <-]. Qed.
Lemma in_state_gathered c use l : forall o s, keeps_gstate (read_gathered c use l o s) s.
Proof.
  induction l as [|k l IH]; intros o s; cbn [read_gathered]; [intros a; by intros [= <-]|]. destruct (use k); [|apply IH].
  apply (in_state_bind snd); [apply in_state_link|]. intros [o1 s1]. apply (in_state_bind (fun s => s)); [apply in_state_add|]. intros s2. apply IH.
Qed.
End in_state.

Section updates.
(** The state of the component is replaced with what [f] makes of it. *)
Lemma calm_update_then {A} (f : sess_world -> res groups_state) (k : sess_world -> MS A) :
  (forall w, fine (f w)) -> (forall w, keeps_gstate (f w) (gs w)) -> (forall w, calm (k w)) ->
  calm (let* w := get in let* s := lift (f w) in g_do (fun _ => s) ;; k w).
Proof.
  intros Hf Hs Hk w. apply wp_bind, wp_get, wp_bind. unfold wp at 1, lift. destruct (f w) as [e|s] eqn:E; [by apply (Hf w)|].
  apply wp_bind, wp_modify. eapply wp_mono; [apply (Hk w)| |done]. intros a w' H. etransitivity; [|exact H].
  split; [by apply (Hs w)|]. split; [done|]. split; [done|]. split; [done|]. by intros [].
Qed.
Lemma calm_update (f : sess_world -> res groups_state) :
  (forall w, fine (f w)) -> (forall w, keeps_gstate (f w) (gs w)) -> calm (let* w := get in let* s := lift (f w) in g_do (fun _ => s)).
Proof.
  intros Hf Hs w. apply wp_bind, wp_get, wp_bind. unfold wp at 1, lift. destruct (f w) as [e|s] eqn:E; [by apply (Hf w)|].
  apply wp_modify. split; [by apply (Hs w)|]. split; [done|]. split; [done|]. split; [done|]. by intros [].
Qed.
End updates.

(* --------------------------------------------------------------------- *)
(** ** The handlers *)

Section handlers.
Context `{SessionHold}.
Implicit Types (g : group) (p : list Z).

Lemma calm_put_group g : calm (put_group g).
Proof. unfold put_group. hold_auto. Qed.
Lemma calm_remove_group g : calm (remove_group g).
Proof. unfold remove_group. apply calm_update; intros w; [apply fine_remove_group|apply in_state_remove]. Qed.
Hint Resolve calm_put_group calm_remove_group : hold.
Lemma calm_join_group nm : calm (join_group nm).
Proof. unfold join_group. hold_auto. Qed.
Lemma calm_join_daemon g i : calm (join_daemon g i).
Proof. unfold join_daemon. hold_auto. Qed.
Lemma calm_local_session site p : no_alarm (Fatal site) -> calm (local_session site p).
Proof. intros Hs. unfold local_session. hold_auto. by apply keeps_fail. Qed.
Hint Extern 1 (calm (local_session _ _)) => apply calm_local_session; no_alarm_tac : hold.
Lemma calm_join_mbox d p : calm (join_mbox d p).
Proof. unfold join_mbox. hold_auto. Qed.
Lemma calm_private_names site p : no_alarm (Undefined site) -> calm (private_names site p).
Proof. intros Hs. unfold private_names. hold_auto. Qed.
Hint Extern 1 (calm (private_names _ _)) => apply calm_private_names; no_alarm_tac : hold.
Lemma calm_tell g c m : calm (tell_departure g c m).
Proof. unfold tell_departure. hold_auto. Qed.
Lemma calm_drop_group g : calm (let* w := get in let* s := lift (G_remove_group g (gs w)) in g_do (fun _ => s) ;; ret (@None group)).
Proof.
  apply (calm_update_then (fun w => G_remove_group g (gs w)) (fun _ => ret None)); intros w.
  - apply fine_remove_group. - apply in_state_remove. - apply (keeps_ret _ _).
Qed.
Hint Resolve calm_drop_group : hold.
Lemma calm_remove_member site g d p : no_alarm (Fatal site) -> calm (remove_member site g d p).
Proof. intros Hs. unfold remove_member. hold_auto; by apply keeps_fail. Qed.
Hint Extern 1 (calm (remove_member _ _ _ _)) => apply calm_remove_member; no_alarm_tac : hold.
Hint Resolve calm_join_group calm_join_daemon calm_join_mbox calm_tell : hold.
Lemma calm_kill_in p pr i g : calm (kill_in_group p pr i g).
Proof. unfold kill_in_group. hold_auto. Qed.
Hint Resolve calm_kill_in : hold.
Lemma calm_for_groups body : (forall g, calm (body g)) -> calm (for_groups body).
Proof. intros Hb. unfold for_groups. hold_auto. Qed.

Lemma calm_install g : calm (install_group g).
Proof. unfold install_group, G_eliminate_partitioned_daemons_status. hold_auto. Qed.
Lemma calm_clean g : calm (clean_group g).
Proof. unfold clean_group, G_eliminate_partitioned_daemons_status. hold_auto. Qed.
Lemma calm_cascade g : calm (cascade_group g).
Proof. unfold cascade_group, G_eliminate_partitioned_daemons_status. hold_auto. Qed.
Lemma calm_trans g : calm (trans_group g).
Proof. unfold trans_group. hold_auto. Qed.
Lemma calm_mark t g : calm (when (lost_daemon t g) (put_group (set_gr_changed true g))).
Proof. hold_auto. Qed.
Lemma calm_notify_group g : calm (notify_group g).
Proof. unfold notify_group. hold_auto. Qed.
Lemma calm_new_bufs : calm build_new_bufs.
Proof.
  unfold build_new_bufs. apply (calm_update_then (fun w => G_build_new_groups_bufs (gs w)) (fun _ => g_do (set_Groups_bufs_fresh true))); intros w.
  - apply fine_new_bufs. - apply in_state_new_bufs. - hold_auto.
Qed.
Lemma calm_is_leader : calm is_leader.
Proof. apply (keeps_gets _ _). Qed.
Hint Resolve calm_new_bufs calm_is_leader calm_notify_group : hold.
Lemma calm_compute : calm G_compute_and_notify.
Proof.
  unfold G_compute_and_notify.
  apply (calm_update_then (fun w => read_gathered (cf_Config (cf (core w))) (fun _ => true) (Gathered (gs w)) None (gs w))
     (fun _ => for_groups notify_group ;; g_do reset_gathered ;; g_do (fun s => set_Groups_bufs_fresh false (G_discard_groups_bufs s)))); intros w.
  - auto with fine. - apply in_state_gathered.
  - apply (keeps_bind _ _); [apply calm_for_groups; auto with hold|intros ?; hold_auto].
Qed.
End handlers.
#[export] Hint Resolve calm_install calm_clean calm_cascade calm_trans calm_mark calm_notify_group calm_compute calm_new_bufs calm_is_leader calm_join_group calm_join_daemon calm_join_mbox calm_tell calm_put_group calm_remove_group calm_kill_in : hold.
#[export] Hint Extern 1 (calm (local_session _ _)) => apply calm_local_session; no_alarm_tac : hold.
#[export] Hint Extern 1 (calm (private_names _ _)) => apply calm_private_names; no_alarm_tac : hold.
#[export] Hint Extern 1 (calm (remove_member _ _ _ _)) => apply calm_remove_member; no_alarm_tac : hold.
#[export] Hint Extern 2 (calm (for_groups _)) => (apply calm_for_groups; intros ?; auto with hold) : hold.

(* --------------------------------------------------------------------- *)
(** ** The state machine *)

(** What comes from the layers below and from the clients' requests. *)
Variant group_event : Type :=
| Trans_event (memb : configuration) (id : membership_id)
| Reg_event (memb : configuration) (id : membership_id)
| Groups_event (msg : message_obj)
| Join_event (private_group_name group_name : list Z)
| Leave_event (private_group_name group_name : list Z)
| Kill_event (private_group_name : list Z).

Definition gathering (s : gstate) : bool := match s with GGATHER | GGT => true | _ => false end.
Definition expected (e : group_event) (s : gstate) : bool :=
  match e with
  | Trans_event _ _ => match s with GOP | GGATHER => true | _ => false end
  | Reg_event _ _ => match s with GTRANS | GGT => true | _ => false end
  | Groups_event _ => gathering s
  | _ => negb (gathering s)
  end.
Definition alarm (e : group_event) (s : gstate) : err :=
  match e with
  | Trans_event _ _ => Fatal (match s with GTRANS => "G_handle_trans_memb in GTRANS" | _ => "G_handle_trans_memb in GGT" end)
  | Reg_event _ _ => Fatal (match s with GOP => "G_handle_reg_memb in GOP" | _ => "G_handle_reg_memb in GGATHER" end)
  | Groups_event _ => Fatal (match s with GOP => "G_handle_groups in GOP" | _ => "G_handle_groups in GTRANS" end)
  | Join_event _ _ => Fatal "G_handle_join in GGATHER or GGT"
  | Leave_event _ _ => Fatal "G_handle_leave in GGATHER or GGT"
  | Kill_event _ => Fatal "G_handle_kill in GGATHER or GGT"
  end.

(** The message makes the number of gathered daemons that of the membership. *)
Definition completes (msg : message_obj) (w : sess_world) : bool :=
  let h := Message_get_message_header msg in
  let id := get_memb_id (Same_endian (mh_type h)) (bytes_from msg (Message_get_first_data_ptr msg)) 0 in
  Memb_is_equal id (G_Reg_memb_id (gs w)) &&
  match Conf_proc_by_name (cf_Config (cf (core w))) (cstr (mh_private_group_name h)) with
  | None => false
  | Some p => Num_daemons_gathered (gather_message (p_id p) h msg (gs w)) =? Conf_num_procs (G_Reg_memb (gs w))
  end.

(** The state that follows, and the service that is delivered then. *)
Definition next (e : group_event) (w : sess_world) : gstate * Z :=
  let s := Gstate (gs w) in
  let t := Prot_delivery_threshold (prt (core w)) in
  match e, s with
  | Trans_event _ _, GOP => (GTRANS, t)
  | Trans_event _ _, GGATHER => (GGT, t)
  | Reg_event memb _, GTRANS =>
      if Conf_num_procs (G_Trans_memb (gs w)) =? Conf_num_procs memb then (GOP, UNRELIABLE_TYPE) else (GGATHER, AGREED_TYPE)
  | Reg_event _ _, GGT => (GGATHER, t)
  | Groups_event msg, GGATHER => if completes msg w then (GOP, UNRELIABLE_TYPE) else (s, t)
  | Groups_event msg, GGT => if completes msg w then (GTRANS, UNRELIABLE_TYPE) else (s, t)
  | _, _ => (s, t)
  end.

(** The clients are held back below medium priority, and only the queue of
    the GROUPS messages is sent from, exactly while gathering. *)
Definition session_level (s : gstate) : Z := if gathering s then MEDIUM_PRIORITY else LOW_PRIORITY.
Definition queue_of (s : gstate) : Z := if gathering s then GROUPS_DOWNQUEUE else NORMAL_DOWNQUEUE.
Record held_ok (w : sess_world) : Prop := mkHeldOk {
  hk_session : Session_threshold (ss w) = session_level (Gstate (gs w));
  hk_queue : Down_queue_ptr (prt (core w)) = queue_of (Gstate (gs w));
  hk_levels : levels_ok w;
}.

(** The state, the level of the sessions, the queue and the threshold. *)
Definition stance (x : gstate) (v q t : Z) (w : sess_world) : Prop :=
  Gstate (gs w) = x /\ Session_threshold (ss w) = v /\ Down_queue_ptr (prt (core w)) = q /\
  Prot_delivery_threshold (prt (core w)) = t /\ levels_ok w.

Section machine.
Context `{SessionHold}.
Implicit Types (x : gstate) (v q t : Z) (w : sess_world).

Lemma stance_calm {A} (m : MS A) x v q t w : calm m -> stance x v q t w -> wp m (fun _ => stance x v q t) no_alarm w.
Proof.
  intros Hm (?&?&?&?&?). eapply wp_mono; [apply Hm| |done]. intros a w' (?&?&?&?&?). unfold stance. split_and!; try congruence. auto.
Qed.
Lemma stance_gs g' x v q t w : Gstate g' = Gstate (gs w) -> stance x v q t w -> stance x v q t (mkSessWorld (ss w) (core w) g').
Proof. intros E (<- & ? & ? & ? & []). done. Qed.
Lemma stance_then {A B} (m : MS A) (k : A -> MS B) Q x v q t w :
  calm m -> stance x v q t w -> (forall a w', stance x v q t w' -> wp (k a) Q no_alarm w') -> wp (bind m k) Q no_alarm w.
Proof. intros Hm Hs Hk. apply wp_bind. eapply wp_mono; [by apply (stance_calm m x v q t)|exact Hk|done]. Qed.
Lemma stance_gstate x x' v q t w : stance x v q t w -> wp (set_gstate x') (fun _ => stance x' v q t) no_alarm w.
Proof. intros (?&?&?&?&[]). unfold set_gstate. apply wp_bind, wp_modify. unfold wp, on_core, stat_do, modify. done. Qed.
Lemma stance_level {A} (k : unit -> MS A) Q x v v' q t w :
  v' = LOW_PRIORITY \/ v' = MEDIUM_PRIORITY -> stance x v q t w -> (forall a w', stance x v' q t w' -> wp (k a) Q no_alarm w') ->
  wp (s_do (set_Session_threshold v') ;; let* a := Sess_set_active_threshold in k a) Q no_alarm w.
Proof.
  intros Hv (?&?&?&?&[]) Hk. apply wp_bind, wp_modify, wp_bind. eapply wp_mono; [apply set_active_spec; [|done]| |done].
  - cbn. destruct Hv as [-> | ->]; done.
  - intros a w' (E1 & E2 & E3 & E4). apply Hk. unfold stance. rewrite E1, E2, E3. done.
Qed.
Lemma stance_queue {A} (k : unit -> MS A) Q x v q q' t w :
  q' = NORMAL_DOWNQUEUE \/ q' = GROUPS_DOWNQUEUE -> stance x v q t w -> (forall a w', stance x v q' t w' -> wp (k a) Q no_alarm w') ->
  wp (let* a := on_core (Prot_set_down_queue q') in k a) Q no_alarm w.
Proof. intros Hq (?&?&?&?&[]) Hk. apply wp_bind. destruct Hq as [-> | ->]; unfold wp at 1; cbn; apply Hk; done. Qed.
Lemma threshold_spec t c :
  legal_threshold t = true -> wp (Prot_set_delivery_threshold t) (fun _ => core_kept (on_prt (set_Prot_delivery_threshold t) c)) no_alarm c.
Proof.
  intros Ht. unfold Prot_set_delivery_threshold. apply wp_bind, wp_get. rewrite Ht. cbn [negb]. apply wp_bind, wp_modify.
  match goal with |- wp ?m _ _ _ => assert (Hm : core_calm m) by hold_auto end. apply Hm.
Qed.
Lemma stance_threshold x v q t t' w :
  legal_threshold t' = true -> stance x v q t w -> wp (on_core (Prot_set_delivery_threshold t')) (fun _ => stance x v q t') no_alarm w.
Proof.
  intros Ht (?&?&?&?&[H1 H2 H3]). unfold wp, on_core. pose proof (threshold_spec t' (core w) Ht) as Hc. unfold wp in Hc.
  destruct (Prot_set_delivery_threshold t' (core w)) as [a c|e]; [|done]. destruct Hc as (E1 & E2 & E3).
  split; [done|]. split; [done|]. split; [by cbn; rewrite E1|]. split; [by cbn; rewrite E2|]. constructor; [done|done|]. cbn. by rewrite E3.
Qed.
Lemma stance_op x v q t w : stance x v q t w -> wp G_shift_to_GOP (fun _ => stance GOP v q UNRELIABLE_TYPE) no_alarm w.
Proof.
  intros Hs. unfold G_shift_to_GOP. apply wp_bind. eapply wp_mono; [by eapply stance_gstate| |done].
  intros a w' Hw'. eapply stance_threshold; [reflexivity|exact Hw'].
Qed.

Lemma held_stance w : held_ok w -> stance (Gstate (gs w)) (session_level (Gstate (gs w))) (queue_of (Gstate (gs w))) (Prot_delivery_threshold (prt (core w))) w.
Proof. by intros [? ? ?]. Qed.
Lemma stance_held x t w : stance x (session_level x) (queue_of x) t w -> held_ok w /\ (Gstate (gs w), Prot_delivery_threshold (prt (core w))) = (x, t).
Proof. intros (<- & ? & ? & <- & ?). done. Qed.

(** *** The transitional membership *)
Lemma trans_stance memb id v q t w :
  match Gstate (gs w) with GOP | GGATHER => true | _ => false end = true -> stance (Gstate (gs w)) v q t w ->
  wp (G_handle_trans_memb memb id) (fun _ => stance (match Gstate (gs w) with GOP => GTRANS | _ => GGT end) v q t) no_alarm w.
Proof.
  intros Hx Hs. unfold G_handle_trans_memb. apply wp_bind, wp_get. destruct (Gstate (gs w)) eqn:E; try done.
  - eapply stance_then; [|exact Hs|]; [hold_auto|]. intros [] w1 H1. eapply stance_then; [|exact H1|]; [auto with hold|].
    intros [] w2 H2. apply wp_bind. eapply wp_mono; [by eapply stance_gstate| |done]. intros [] w3 H3. eapply stance_calm; [hold_auto|exact H3].
  - eapply stance_then; [|exact Hs|]; [hold_auto|]. intros [] w1 H1. eapply stance_then; [|exact H1|]; [auto with hold|].
    intros [] w2 H2. by eapply stance_gstate.
Qed.

(** *** The regular membership *)
Lemma leader_stance (m : MS unit) x v q t w :
  calm m -> stance x v q t w -> wp (let* leader := is_leader in when leader m ;; set_gstate GGATHER) (fun _ => stance GGATHER v q t) no_alarm w.
Proof.
  intros Hm Hs. eapply stance_then; [|exact Hs|]; [auto with hold|]. intros b w1 H1. eapply stance_then; [|exact H1|]; [by apply (keeps_when _ _)|].
  intros [] w2 H2. by eapply stance_gstate.
Qed.
Lemma reg_trans_stance t w :
  stance GTRANS LOW_PRIORITY NORMAL_DOWNQUEUE t w ->
  wp reg_memb_in_trans (fun _ => if Conf_num_procs (G_Trans_memb (gs w)) =? Conf_num_procs (G_Reg_memb (gs w))
    then stance GOP LOW_PRIORITY NORMAL_DOWNQUEUE UNRELIABLE_TYPE else stance GGATHER MEDIUM_PRIORITY GROUPS_DOWNQUEUE AGREED_TYPE) no_alarm w.
Proof.
  intros Hs. unfold reg_memb_in_trans. apply wp_bind, wp_get. destruct (_ =? _).
  - eapply stance_then; [|exact Hs|]; [auto with hold|]. intros [] w1 H1. by eapply stance_op.
  - eapply stance_then; [|exact Hs|]; [auto with hold|]. intros [] w1 H1. eapply stance_level; [by right|exact H1|]. intros [] w2 H2.
    eapply stance_queue; [by right|exact H2|]. intros [] w3 H3. apply wp_bind. eapply wp_mono; [eapply stance_threshold; [reflexivity|exact H3]| |done].
    intros [] w4 H4. eapply leader_stance; [hold_auto|exact H4].
Qed.
Lemma reg_ggt_stance t w :
  stance GGT MEDIUM_PRIORITY GROUPS_DOWNQUEUE t w ->
  wp reg_memb_in_ggt (fun _ => stance GGATHER MEDIUM_PRIORITY GROUPS_DOWNQUEUE t) no_alarm w.
Proof.
  intros Hs. unfold reg_memb_in_ggt. cbv zeta. apply wp_bind, wp_get, wp_bind. unfold wp at 1, lift.
  destruct (read_gathered _ _ _ _ _) as [e|s] eqn:E; [by eapply fine_gathered|]. apply in_state_gathered in E.
  apply wp_bind, wp_modify. pose proof (stance_gs s _ _ _ _ w E Hs) as H1.
  eapply stance_then; [|exact H1|]; [hold_auto|]. intros [] w2 H2. eapply stance_then; [|exact H2|]; [auto with hold|]. intros [] w3 H3.
  apply wp_bind, wp_get. destruct (G_update_synced_set_status _ _) as [l changed].
  eapply stance_then; [|exact H3|]; [hold_auto|]. intros [] w4 H4. eapply stance_then; [|exact H4|]; [hold_auto|]. intros [] w5 H5.
  eapply stance_then; [|exact H5|]; [hold_auto|]. intros [] w6 H6. eapply leader_stance; [hold_auto|exact H6].
Qed.
Lemma reg_stance memb id w :
  held_ok w -> expected (Reg_event memb id) (Gstate (gs w)) = true ->
  wp (G_handle_reg_memb memb id) (fun _ w' => held_ok w' /\ (Gstate (gs w'), Prot_delivery_threshold (prt (core w'))) = next (Reg_event memb id) w) no_alarm w.
Proof.
  intros Hk Hx. pose proof (held_stance w Hk) as Hs. unfold G_handle_reg_memb, next. apply wp_bind, wp_get.
  destruct (Gstate (gs w)) eqn:E; try done; apply wp_bind, wp_modify; set (g' := set_G_Reg_memb_id _ _);
    apply (stance_gs g') in Hs; try done; [eapply wp_mono; [by eapply reg_trans_stance| |done]|eapply wp_mono; [by eapply reg_ggt_stance| |done]].
  - intros [] w'. change (G_Trans_memb g') with (G_Trans_memb (gs w)). change (G_Reg_memb g') with memb. destruct (_ =? _); apply stance_held.
  - intros [] w'. apply stance_held.
Qed.

(** *** GROUPS messages *)
Definition resumed (x : gstate) : gstate := match x with GGATHER => GOP | _ => GTRANS end.
Lemma last_stance x t w :
  gathering x = true -> stance x MEDIUM_PRIORITY GROUPS_DOWNQUEUE t w ->
  wp (on_core (Prot_set_down_queue NORMAL_DOWNQUEUE) ;;
      s_do (set_Session_threshold LOW_PRIORITY) ;;
      Sess_set_active_threshold ;;
      G_compute_and_notify ;;
      let* w := get in
      G_shift_to_GOP ;;
      match Gstate (gs w) with
      | GGATHER => ret tt
      | _ => G_handle_trans_memb (G_Trans_memb (gs w)) (G_Trans_memb_id (gs w))
      end)
    (fun _ w' => held_ok w' /\ (Gstate (gs w'), Prot_delivery_threshold (prt (core w'))) = (resumed x, UNRELIABLE_TYPE)) no_alarm w.
Proof.
  intros Hx Hs. eapply stance_queue; [by left|exact Hs|]. intros [] w2 H2. eapply stance_level; [by left|exact H2|]. intros [] w3 H3.
  eapply stance_then; [|exact H3|]; [auto with hold|]. intros [] w4 H4. apply wp_bind, wp_get, wp_bind.
  rewrite (proj1 H4). eapply wp_mono; [by eapply stance_op| |done]. intros [] w5 H5.
  destruct x eqn:E; try done; [apply wp_ret; by apply stance_held|].
  pose proof (proj1 H5) as E5. eapply wp_mono; [eapply (trans_stance _ _ LOW_PRIORITY NORMAL_DOWNQUEUE UNRELIABLE_TYPE); rewrite E5; done| |done].
  rewrite E5. intros [] w6 H6. by apply stance_held.
Qed.
Lemma gather_same rep h msg s :
  Gstate (gather_message rep h msg s) = Gstate s /\ G_Reg_memb (gather_message rep h msg s) = G_Reg_memb s.
Proof. unfold gather_message. destruct (Is_synced_set_leader _ _), (is_mess _ _); done. Qed.
Lemma groups_stance msg w :
  held_ok w -> gathering (Gstate (gs w)) = true ->
  wp (G_handle_groups msg) (fun _ w' => held_ok w' /\ (Gstate (gs w'), Prot_delivery_threshold (prt (core w'))) = next (Groups_event msg) w) no_alarm w.
Proof.
  intros Hk Hx. pose proof (held_stance w Hk) as Hs. unfold G_handle_groups, next, completes. apply wp_bind, wp_get.
  destruct (Gstate (gs w)) eqn:E; try done;
    (destruct (Memb_is_equal _ _); cbn [negb andb]; [|by apply wp_ret; rewrite E]);
    (destruct (Conf_proc_by_name _ _) as [pr|]; [|by apply wp_ret; rewrite E]); apply wp_bind, wp_modify;
    match goal with |- context [gather_message ?a ?b ?c ?d] => destruct (gather_same a b c d) as [Eg Er]; set (g' := gather_message a b c d) in * end;
    rewrite <- E in Hs; apply (stance_gs g') in Hs; try done; rewrite E in Hs; apply wp_bind, wp_get; cbn [gs]; rewrite Er;
    (destruct (Num_daemons_gathered g' =? _); cbn [negb]; [|apply wp_ret; by apply stance_held]);
    (eapply wp_mono; [eapply last_stance; [|exact Hs]; reflexivity| |done]); intros [] w'; exact id.
Qed.
End machine.

(** The handler of an event. *)
Definition run_event `{Session} (e : group_event) : MS unit :=
  match e with
  | Trans_event memb id => Sess_deliver_trans_memb memb id
  | Reg_event memb id => Sess_deliver_reg_memb memb id
  | Groups_event msg => G_handle_groups msg
  | Join_event p g => G_handle_join p g
  | Leave_event p g => G_handle_leave p g
  | Kill_event p => G_handle_kill p
  end.

Section theorem.
Context `{SessionHold}.
Lemma client_stance (m : MS unit) w e :
  calm m -> held_ok w -> next e w = (Gstate (gs w), Prot_delivery_threshold (prt (core w))) ->
  wp m (fun _ w' => held_ok w' /\ (Gstate (gs w'), Prot_delivery_threshold (prt (core w'))) = next e w) no_alarm w.
Proof. intros Hm Hk ->. eapply wp_mono; [apply stance_calm, held_stance; done| |done]. intros a w'. apply stance_held. Qed.
(** A request in a regular state. *)
Ltac client_tac Hx :=
  unfold run_event, G_handle_join, G_handle_leave, G_handle_kill;
  lazymatch goal with
  | |- wp (bind get ?k) _ _ ?w =>
      apply wp_bind, wp_get; apply client_stance; [|done|by unfold next; destruct (Gstate (gs w))];
      cbn [expected] in Hx; destruct (Gstate (gs w)); try discriminate Hx; hold_auto
  end.

(** C11: the state machine of the groups.  An event that the state does not
    expect (a transitional membership twice, a join while groups are
    exchanged, ...) stops the daemon with exactly its alarm.  An expected one
    never ends with any of these alarms, and moves along the edges: a
    transitional membership takes [GOP] to [GTRANS] and [GGATHER] to [GGT]; a
    regular one ends the former when nobody new has come, and starts
    gathering otherwise; the last GROUPS message of the membership takes
    [GGATHER] to [GOP] and [GGT] to [GTRANS]; nothing else moves.  While
    gathering, and only then, the clients are held back below medium priority
    and the queue of the GROUPS messages is the one that is sent from; every
    service is delivered again when the gathering ends. *)
Theorem groups_machine (e : group_event) (w : sess_world) :
  held_ok w ->
  if expected e (Gstate (gs w)) then
    wp (run_event e) (fun _ w' => held_ok w' /\ (Gstate (gs w'), Prot_delivery_threshold (prt (core w'))) = next e w) no_alarm w
  else run_event e w = Failed (alarm e (Gstate (gs w))).
Proof.
  intros Hk. destruct (expected e (Gstate (gs w))) eqn:Hx.
  - destruct e as [c i|c i|msg|p g|p g|p]; cbn [run_event].
    + eapply wp_mono; [by apply trans_stance, held_stance| |done]. intros [] w' H1.
      unfold next. cbn in Hx. destruct (Gstate (gs w)); try done; by apply stance_held.
    + by apply reg_stance.
    + by apply groups_stance.
    + client_tac Hx.
    + client_tac Hx.
    + client_tac Hx.
  - destruct e as [c i|c i|msg|p g|p g|p]; cbn in Hx |- *;
      unfold Sess_deliver_trans_memb, Sess_deliver_reg_memb, G_handle_trans_memb, G_handle_reg_memb, G_handle_groups, G_handle_join, G_handle_leave, G_handle_kill, bind, get;
      by destruct (Gstate (gs w)).
Qed.
End theorem.

(** The daemon [a], alone, and then with the others of its configuration. *)
Definition alone_conf : configuration := mkConfiguration 0 [sample_proc "a" 11 0 0] [mkSegment [Inet 1 4803] [sample_proc "a" 11 0 0]].
Definition alone_world : sess_world := mkSessWorld no_table sample_world (set_G_Trans_memb alone_conf no_groups).

Lemma groups_machine_witness :
  let w := alone_world in
  wp (run_event (Trans_event alone_conf (mkMembId 11 5)))
    (fun _ w' => held_ok w' /\ (Gstate (gs w'), Prot_delivery_threshold (prt (core w'))) = (GTRANS, UNRELIABLE_TYPE)) no_alarm w /\
  run_event (Groups_event []) w = Failed (Fatal "G_handle_groups in GOP") /\
  match (run_event (Trans_event alone_conf (mkMembId 11 5)) ;; run_event (Reg_event sample_conf (mkMembId 11 6))) w with
  | Done _ w' => (Gstate (gs w'), Session_threshold (ss w'), ev_Active_priority (ev (core w')), Down_queue_ptr (prt (core w')))
        = (GGATHER, MEDIUM_PRIORITY, MEDIUM_PRIORITY, GROUPS_DOWNQUEUE) /\
      run_event (Join_event (str_bytes "#ana#a") (str_bytes "chat")) w' = Failed (Fatal "G_handle_join in GGATHER or GGT")
  | Failed _ => False
  end.
Proof.
  assert (H : held_ok alone_world).
  { constructor; [reflexivity|reflexivity|]. constructor; [|left; reflexivity|reflexivity]. vm_compute. split; congruence. }
  split; [exact (groups_machine (Trans_event alone_conf (mkMembId 11 5)) alone_world H)|].
  split; [exact (groups_machine (Groups_event []) alone_world H)|]. vm_compute. split; reflexivity.
Defined.
