(* ===== verification/GroupsOk.v ===== *)
(** * What holds of the groups at all times

    The comparisons by which the lists of groups, daemons and members are
    kept ([G_compare_nameptr], [G_compare_proc_ids_by_conf],
    [G_compare_daemon_vs_set]) are orders: the first two always, the last one
    on membership identifiers whose differences fit an [int].  The lists are
    in order without repetitions, the names are padded strings, a group has
    daemons and a daemon has members, and the number of members is what it
    says.  What a daemon knows of the groups is, for every group and daemon,
    the list of the members there; how entering and leaving a group changes
    these lists. *)

From stdpp Require Import base strings numbers option gmap list sorting.
From S2P Require Import Prelude Wire Bytes Config Events State Message Names GroupState SessHeader Skl Groups.

(** A comparison is an order when its sign is that of a difference of ranks. *)
Definition by_rank {K} (cmp : K -> K -> Z) (rank : K -> Z) : Prop :=
  forall a b, (cmp a b < 0 <-> rank a < rank b) /\ (cmp a b = 0 <-> rank a = rank b).

Lemma by_rank_gt {K} (cmp : K -> K -> Z) rank a b : by_rank cmp rank -> 0 < cmp a b <-> rank b < rank a.
Proof. intros H. destruct (H a b). lia. Qed.
Lemma by_rank_order {K} (cmp : K -> K -> Z) rank : by_rank cmp rank -> KeyOrder cmp.
Proof.
  intros H. constructor.
  - intros a b. rewrite (by_rank_gt cmp rank) by done. by destruct (H a b).
  - intros a b c. destruct (H a b), (H b c), (H a c). lia.
  - intros a b c. destruct (H a b), (H b c), (H a c). lia.
Qed.

(* --------------------------------------------------------------------- *)
(** ** Names *)

(** What identifies a group or a member: the string in the array. *)
Definition name_of (a : list Z) : list Z := take (Z.to_nat MAX_GROUP_NAME) (cstr a).

Lemma compare_name_eq a b : G_compare_nameptr a b = 0 <-> name_of a = name_of b.
Proof. apply strcmp_eq. Qed.

#[export] Instance name_order : KeyOrder G_compare_nameptr.
Proof.
  constructor; unfold G_compare_nameptr, strncmp; intros a b.
  - rewrite strcmp_anti. lia.
  - intros c. apply str_lt_trans.
  - intros c ->%strcmp_eq. done.
Qed.

(** An array of [MAX_GROUP_NAME] characters with a nul at the end holds a
    string and is padded with nuls: it is what the string says. *)
Definition padded (a : list Z) : Prop := a = strncpy a MAX_GROUP_NAME /\ Z.of_nat (length (cstr a)) < MAX_GROUP_NAME.

Lemma cstr_cstr s : cstr (cstr s) = cstr s.
Proof. induction s as [|c s IH]; [done|]. cbn. destruct (Z.eqb_spec c 0) as [|Hc]; [done|]. cbn. apply Z.eqb_neq in Hc. by rewrite Hc, IH. Qed.
Lemma cstr_nul_free s : Forall (fun c => c <> 0) s -> cstr s = s.
Proof. induction 1 as [|c s Hc Hs IH]; [done|]. cbn. apply Z.eqb_neq in Hc. by rewrite Hc, IH. Qed.
Lemma cstr_resize s (n : nat) : (length (cstr s) <= n)%nat -> cstr (resize n 0 (cstr s)) = cstr s.
Proof.
  intros Hl. rewrite resize_ge by done. destruct (n - length (cstr s))%nat as [|k]; cbn.
  - by rewrite app_nil_r, cstr_cstr.
  - apply cstr_app, cstr_no_nul.
Qed.

Lemma name_of_cstr a : Z.of_nat (length (cstr a)) <= MAX_GROUP_NAME -> name_of a = cstr a.
Proof. intros H. unfold name_of. apply take_ge. change MAX_GROUP_NAME with 32 in *. lia. Qed.

Lemma strncpy_padded a : Z.of_nat (length (cstr a)) < MAX_GROUP_NAME -> padded (strncpy a MAX_GROUP_NAME) /\ cstr (strncpy a MAX_GROUP_NAME) = cstr a.
Proof.
  intros H. change MAX_GROUP_NAME with 32 in *. assert (Hc : cstr (strncpy a 32) = cstr a) by (apply cstr_resize; lia).
  split; [|done]. split; [|by rewrite Hc]. unfold strncpy at 2. rewrite Hc. done.
Qed.
Lemma padded_length a : padded a -> length a = Z.to_nat MAX_GROUP_NAME.
Proof. intros [-> _]. unfold strncpy. by rewrite length_resize. Qed.
Lemma padded_name a : padded a -> name_of a = cstr a.
Proof. intros [_ H]. apply name_of_cstr. lia. Qed.
Lemma padded_ext a b : padded a -> padded b -> cstr a = cstr b -> a = b.
Proof.
  intros [Ha _] [Hb _] H. transitivity (strncpy a MAX_GROUP_NAME); [done|]. unfold strncpy in *. by rewrite H.
Qed.
Lemma padded_same a b : padded a -> padded b -> G_compare_nameptr a b = 0 <-> a = b.
Proof.
  intros Ha Hb. rewrite compare_name_eq, !padded_name by done. split; [by apply padded_ext|by intros ->].
Qed.

(* --------------------------------------------------------------------- *)
(** ** Daemons *)

Section conf.
Context (cn : configuration).
Implicit Types a b : Z.

Definition conf_ref a : Z := Conf_proc_ref_by_id_in_conf cn (u32 a).
(** First the daemons of the configuration, then the others by address. *)
Definition conf_rank a : Z := if 0 <=? conf_ref a then conf_ref a else Z.of_nat (length (conf_allprocs cn)) + u32 a.

Lemma conf_ref_cases a :
  (conf_ref a = -1 /\ forall p, p ∈ conf_allprocs cn -> p_id p <> u32 a) \/
  (0 <= conf_ref a < Z.of_nat (length (conf_allprocs cn)) /\
     exists p, conf_allprocs cn !! Z.to_nat (conf_ref a) = Some p /\ p_id p = u32 a).
Proof.
  unfold conf_ref, Conf_proc_ref_by_id_in_conf. set (P := fun p => p_id p =? u32 a).
  destruct (first_index_found P (conf_allprocs cn) 0) as [Hn|(Hle & p & Hp & Hid%Z.eqb_eq)]; [left|right].
  - split; [done|]. intros p Hp E. assert (0 <= first_index P (conf_allprocs cn) 0); [|lia].
    eapply first_index_nonneg; [exact Hp|by apply Z.eqb_eq|done].
  - rewrite Z.sub_0_r in Hp. split; [|by exists p]. apply lookup_lt_Some in Hp as Hlt. lia.
Qed.

Lemma conf_ref_inj a b : 0 <= conf_ref a -> conf_ref a = conf_ref b -> u32 a = u32 b.
Proof.
  intros Ha He. destruct (conf_ref_cases a) as [[? _]|(_ & p & Hp & <-)]; [lia|].
  destruct (conf_ref_cases b) as [[? _]|(_ & q & Hq & <-)]; [lia|]. rewrite <- He, Hp in Hq. by injection Hq as ->.
Qed.

Lemma conf_rank_eq a b : conf_rank a = conf_rank b <-> u32 a = u32 b.
Proof.
  split; [|intros E; unfold conf_rank, conf_ref; by rewrite E]. pose proof (u32_range a). pose proof (u32_range b). unfold conf_rank.
  destruct (conf_ref_cases a) as [[-> _]|[Ha _]], (conf_ref_cases b) as [[-> _]|[Hb _]]; cbn; repeat rewrite (proj2 (Z.leb_le 0 _)) by lia;
    [lia|lia|lia|]. intros E. by apply conf_ref_inj; [lia|].
Qed.

Lemma compare_proc_rank : by_rank (G_compare_proc_ids_by_conf cn) conf_rank.
Proof.
  intros a b. rewrite conf_rank_eq. unfold G_compare_proc_ids_by_conf, G_compare_proc_ids_by_conf_internal.
  change (Conf_proc_ref_by_id_in_conf cn (u32 a)) with (conf_ref a). change (Conf_proc_ref_by_id_in_conf cn (u32 b)) with (conf_ref b).
  pose proof (u32_range a). pose proof (u32_range b). cbv zeta. pose proof (conf_rank_eq a b) as Heq. revert Heq. unfold conf_rank.
  destruct (conf_ref_cases a) as [[Ha _]|[Ha _]], (conf_ref_cases b) as [[Hb _]|[Hb _]]; rewrite ?Ha, ?Hb; change (-1 <? -1) with false; change (0 <=? -1) with false; change (-1 <? 0) with true; cbn [andb].
  - destruct (Z.eqb_spec (u32 a) (u32 b)), (Z.ltb_spec (u32 a) (u32 b)); lia.
  - rewrite (proj2 (Z.leb_le 0 (conf_ref b))), (proj2 (Z.ltb_ge (conf_ref b) 0)) by lia. lia.
  - rewrite (proj2 (Z.leb_le 0 (conf_ref a))), (proj2 (Z.ltb_ge (conf_ref a) 0)), andb_false_r by lia. cbn. lia.
  - rewrite !(proj2 (Z.leb_le 0 _)), !(proj2 (Z.ltb_lt (-1) _)) by lia. cbn. lia.
Qed.

#[export] Instance proc_order : KeyOrder (G_compare_proc_ids_by_conf cn).
Proof. eapply by_rank_order, compare_proc_rank. Qed.
Lemma compare_proc_eq a b : G_compare_proc_ids_by_conf cn a b = 0 <-> u32 a = u32 b.
Proof. rewrite <- conf_rank_eq. apply compare_proc_rank. Qed.
End conf.

(* --------------------------------------------------------------------- *)
(** ** Daemons by membership *)

Definition same_sign (x y : Z) : Prop := (x < 0 <-> y < 0) /\ (x = 0 <-> y = 0).

(** One comparison after the other. *)
Definition lex {K} (c1 c2 : K -> K -> Z) (a b : K) : Z := if c1 a b =? 0 then c2 a b else c1 a b.
Lemma lex_order {K} (c1 c2 : K -> K -> Z) : KeyOrder c1 -> KeyOrder c2 -> KeyOrder (lex c1 c2).
Proof.
  intros H1 H2. constructor; unfold lex; intros a b.
  - pose proof (cmp_anti c1 a b). pose proof (cmp_anti c1 b a). pose proof (cmp_anti c2 a b).
    destruct (Z.eqb_spec (c1 a b) 0), (Z.eqb_spec (c1 b a) 0); lia.
  - intros c. destruct (Z.eqb_spec (c1 a b) 0) as [E|E], (Z.eqb_spec (c1 b c) 0) as [F|F]; intros G1 G2.
    + pose proof (cmp_zero_lt c1 a b c E). pose proof (cmp_zero_gt c1 a b c E).
      rewrite (proj2 (Z.eqb_eq (c1 a c) 0)) by lia. by apply (cmp_lt_trans c2 a b c).
    + pose proof (cmp_zero_lt c1 a b c E). destruct (Z.eqb_spec (c1 a c) 0); lia.
    + pose proof (cmp_zero_gt c1 b c a F). pose proof (cmp_anti c1 a b). pose proof (cmp_anti c1 a c).
      destruct (Z.eqb_spec (c1 a c) 0); lia.
    + pose proof (cmp_lt_trans c1 a b c). destruct (Z.eqb_spec (c1 a c) 0); lia.
  - intros c. destruct (Z.eqb_spec (c1 a b) 0) as [E|E]; [|lia]. intros G.
    pose proof (cmp_zero_lt c1 a b c E). pose proof (cmp_zero_gt c1 a b c E). pose proof (cmp_zero_lt c2 a b c G).
    destruct (Z.eqb_spec (c1 a c) 0), (Z.eqb_spec (c1 b c) 0); lia.
Qed.

Definition rank_diff {K} (rank : K -> Z) (a b : K) : Z := rank a - rank b.
Lemma rank_diff_order {K} (rank : K -> Z) : KeyOrder (rank_diff rank).
Proof. apply (by_rank_order _ rank). intros a b. unfold rank_diff. lia. Qed.

(** The membership identifiers in their order, the unknown one last. *)
Definition memb_rank1 (m : membership_id) : Z := if Is_unknown_memb_id m then 2 ^ 31 else mi_proc_id m.
Definition memb_rank2 (m : membership_id) : Z := if Is_unknown_memb_id m then 0 else mi_time m.
Definition memb_order (a b : membership_id) : Z := lex (rank_diff memb_rank1) (rank_diff memb_rank2) a b.
Definition vs_order (cn : configuration) (a b : daemon_members) : Z :=
  lex (fun a b => memb_order (dm_memb_id a) (dm_memb_id b)) (fun a b => G_compare_proc_ids_by_conf cn (dm_proc_id a) (dm_proc_id b)) a b.

Lemma order_on {A K} (f : A -> K) (c : K -> K -> Z) : KeyOrder c -> KeyOrder (fun a b => c (f a) (f b)).
Proof.
  intros Hc. constructor; intros a b; [apply (cmp_anti c)|intros x; apply (cmp_lt_trans c)|intros x; apply (cmp_zero_lt c)].
Qed.
#[export] Instance memb_order_order : KeyOrder memb_order.
Proof. apply lex_order; apply rank_diff_order. Qed.
#[export] Instance vs_order_order cn : KeyOrder (vs_order cn).
Proof.
  apply lex_order; [exact (order_on dm_memb_id memb_order _)|exact (order_on dm_proc_id (G_compare_proc_ids_by_conf cn) _)].
Qed.

(** Identifiers whose differences an [int] can hold. *)
Definition comparable (m1 m2 : membership_id) : Prop :=
  Is_unknown_memb_id m1 = true \/ Is_unknown_memb_id m2 = true \/
  ((- 2 ^ 31 <= mi_proc_id m1 - mi_proc_id m2 < 2 ^ 31) /\ (- 2 ^ 31 <= mi_time m1 - mi_time m2 < 2 ^ 31)).
Definition memb_id_ok (m : membership_id) : Prop := - 2 ^ 31 <= mi_proc_id m < 2 ^ 31.

Lemma memb_order_same m1 m2 :
  memb_id_ok m1 -> memb_id_ok m2 -> comparable m1 m2 -> same_sign (G_compare_memb_ids m1 m2) (memb_order m1 m2).
Proof.
  unfold memb_id_ok, comparable, same_sign, G_compare_memb_ids, memb_order, lex, rank_diff, memb_rank1, memb_rank2. intros H1 H2 Hc.
  destruct (Is_unknown_memb_id m1), (Is_unknown_memb_id m2).
  - change (2 ^ 31 - 2 ^ 31 =? 0) with true. cbn [Z.sub]. lia.
  - rewrite (proj2 (Z.eqb_neq (2 ^ 31 - _) 0)) by lia. lia.
  - rewrite (proj2 (Z.eqb_neq (_ - 2 ^ 31) 0)) by lia. lia.
  - destruct Hc as [?|[?|[Hp Ht]]]; [done|done|]. rewrite !s32_id by done.
    destruct (Z.eqb_spec (mi_proc_id m1) (mi_proc_id m2)), (Z.eqb_spec (mi_time m1) (mi_time m2)), (Z.eqb_spec (mi_proc_id m1 - mi_proc_id m2) 0);
      cbn [negb]; lia.
Qed.

Lemma vs_order_same cn d e :
  memb_id_ok (dm_memb_id d) -> memb_id_ok (dm_memb_id e) -> comparable (dm_memb_id d) (dm_memb_id e) ->
  same_sign (G_compare_daemon_vs_set cn d e) (vs_order cn d e).
Proof.
  intros H1 H2 Hc. pose proof (memb_order_same _ _ H1 H2 Hc) as [Hl Hz]. unfold G_compare_daemon_vs_set, vs_order, lex, same_sign.
  destruct (Z.eqb_spec (G_compare_memb_ids (dm_memb_id d) (dm_memb_id e)) 0), (Z.eqb_spec (memb_order (dm_memb_id d) (dm_memb_id e)) 0);
    try lia. unfold G_compare_proc_ids_by_conf. lia.
Qed.

(** Comparisons with the same sign put an entry in the same place. *)
Lemma skl_put_same {A K} (key : A -> K) (c1 c2 : K -> K -> Z) x l :
  Forall (fun y => same_sign (c1 (key x) (key y)) (c2 (key x) (key y))) l -> skl_put key c1 x l = skl_put key c2 x l.
Proof.
  induction 1 as [|y l [Hl Hz] Hs IH]; [done|]. cbn. rewrite IH.
  destruct (Z.ltb_spec 0 (c1 (key x) (key y))), (Z.ltb_spec 0 (c2 (key x) (key y))); try lia; [done|].
  destruct (Z.eqb_spec (c1 (key x) (key y)) 0), (Z.eqb_spec (c2 (key x) (key y)) 0); (done || lia).
Qed.

Lemma skl_put_subset {A K} (key : A -> K) (c : K -> K -> Z) x l y : y ∈ skl_put key c x l -> y = x \/ y ∈ l.
Proof.
  induction l as [|z l IH]; cbn; [intros ->%list_elem_of_singleton; by left|].
  destruct (0 <? _); [|destruct (_ =? 0)]; rewrite ?elem_of_cons; [intros [->|H]; [tauto|]; apply IH in H; tauto|tauto|tauto].
Qed.

Lemma skl_put_seq_same {A K} (key : A -> K) (c1 c2 : K -> K -> Z) l :
  (forall x y, x ∈ l -> y ∈ l -> same_sign (c1 (key x) (key y)) (c2 (key x) (key y))) ->
  skl_put_seq key c1 l = skl_put_seq key c2 l.
Proof.
  intros H. unfold skl_put_seq. assert (Hg : forall acc, (forall y, y ∈ acc -> y ∈ l) -> forall l', (forall y, y ∈ l' -> y ∈ l) ->
    foldl (fun acc x => skl_put key c1 x acc) acc l' = foldl (fun acc x => skl_put key c2 x acc) acc l').
  { intros acc Ha l'. revert acc Ha. induction l' as [|x l' IH]; intros acc Ha Hl; [done|]. cbn.
    assert (Hx : x ∈ l) by (apply Hl; by left).
    rewrite (skl_put_same key c1 c2 x acc) by (apply Forall_forall; intros y Hy; apply H; [done|by apply Ha]).
    apply IH; [|intros y Hy; apply Hl; by right]. intros y [->|Hy]%skl_put_subset; [done|by apply Ha]. }
  apply Hg; [by intros y ?%elem_of_nil|done].
Qed.

Section ok.
Context (cn : configuration).
Implicit Types (g : group) (d : daemon_members) (l : list group).

Record daemon_ok d : Prop := mkDaemonOk {
  do_id : - 2 ^ 31 <= dm_proc_id d < 2 ^ 31;
  do_sorted : skl_ok id G_compare_nameptr (dm_MembersList d);
  do_names : Forall padded (dm_MembersList d);
  do_some : dm_MembersList d <> [];
}.
(** The daemons of a group. *)
Record members_ok g : Prop := mkMembersOk {
  mo_sorted : skl_ok dm_proc_id (G_compare_proc_ids_by_conf cn) (gr_DaemonsList g);
  mo_daemons : Forall daemon_ok (gr_DaemonsList g);
  mo_number : gr_num_members g = Z.of_nat (length (group_members (gr_DaemonsList g)));
}.
Record group_ok g : Prop := mkGroupOk {
  go_name : padded (gr_name g);
  go_members : members_ok g;
  go_some : gr_DaemonsList g <> [];
}.
Definition names_ok l : Prop := skl_ok gr_name G_compare_nameptr l.
Definition groups_list_ok l : Prop := names_ok l /\ Forall group_ok l.

Lemma int32_u32 z : - 2 ^ 31 <= z < 2 ^ 31 -> s32 (u32 z) = z.
Proof. intros H. rewrite s32_u32. by apply s32_id. Qed.
Lemma u32_inj a b : - 2 ^ 31 <= a < 2 ^ 31 -> - 2 ^ 31 <= b < 2 ^ 31 -> u32 a = u32 b -> a = b.
Proof. intros Ha Hb E. rewrite <- (int32_u32 a), <- (int32_u32 b) by done. by rewrite E. Qed.

(** ** Groups by name *)

Lemma compare_name_ext a a' b : G_compare_nameptr a a' = 0 -> G_compare_nameptr a b = G_compare_nameptr a' b.
Proof. unfold G_compare_nameptr, strncmp. intros ->%strcmp_eq. done. Qed.
Lemma compare_name_ext_r a b b' : G_compare_nameptr b b' = 0 -> G_compare_nameptr a b = G_compare_nameptr a b'.
Proof. unfold G_compare_nameptr, strncmp. intros ->%strcmp_eq. done. Qed.
Lemma compare_name_refl a : G_compare_nameptr a a = 0.
Proof. exact (cmp_refl G_compare_nameptr a). Qed.
Lemma compare_name_sym a b : G_compare_nameptr a b = 0 -> G_compare_nameptr b a = 0.
Proof. exact (cmp_sym G_compare_nameptr a b). Qed.

Lemma get_put_new n g l :
  names_ok l -> G_get_group n (put_new_group g l) = if G_compare_nameptr n (gr_name g) =? 0 then Some g else G_get_group n l.
Proof. intros Hs. exact (skl_find_put gr_name G_compare_nameptr n g l Hs). Qed.

Lemma write_key g h l : h ∈ l -> G_compare_nameptr (gr_name h) (gr_name (if G_compare_nameptr (gr_name h) (gr_name g) =? 0 then g else h)) = 0.
Proof. intros _. destruct (Z.eqb_spec (G_compare_nameptr (gr_name h) (gr_name g)) 0); [done|apply compare_name_refl]. Qed.

Lemma get_write n g l :
  G_get_group n (write_group g l) =
    (fun h => if G_compare_nameptr n (gr_name g) =? 0 then g else h) <$> G_get_group n l.
Proof.
  unfold G_get_group, write_group. rewrite (skl_find_fmap gr_name).
  2: { intros h Hh. apply eq_sym, compare_name_ext_r. by apply (write_key g h l). }
  assert (H : forall h, skl_find gr_name G_compare_nameptr n l = Some h -> G_compare_nameptr n (gr_name h) = 0).
  { induction l as [|x l IH]; cbn; [done|]. intros h. destruct (0 <? _); [apply IH|].
    destruct (Z.eqb_spec (G_compare_nameptr n (gr_name x)) 0); [by intros [= <-]|done]. }
  destruct (skl_find gr_name G_compare_nameptr n l) as [h|]; [|done]. cbn. specialize (H h eq_refl).
  by rewrite (compare_name_ext _ _ (gr_name g) H).
Qed.

Lemma write_names g l : names_ok l -> names_ok (write_group g l).
Proof.
  intros Hs. apply (skl_ok_fmap gr_name G_compare_nameptr); [|done]. intros x y Hx Hy. unfold key_lt.
  rewrite <- (compare_name_ext _ _ _ (write_key g x l Hx)), <- (compare_name_ext_r _ _ _ (write_key g y l Hy)). done.
Qed.
Lemma put_new_names g l : names_ok l -> names_ok (put_new_group g l).
Proof. exact (skl_put_ok gr_name G_compare_nameptr g l). Qed.

Lemma write_ok g l : groups_list_ok l -> group_ok g -> groups_list_ok (write_group g l).
Proof.
  intros [Hs Hl] Hg. split; [by apply write_names|]. apply Forall_fmap. eapply Forall_impl; [exact Hl|]. intros h Hh. cbn. by destruct (_ =? 0).
Qed.
Lemma put_new_ok g l : groups_list_ok l -> group_ok g -> groups_list_ok (put_new_group g l).
Proof.
  intros [Hs Hl] Hg. split; [by apply put_new_names|]. apply Forall_forall. intros h.
  unfold put_new_group. rewrite (skl_put_In gr_name G_compare_nameptr) by exact Hs. rewrite Forall_forall in Hl. intros [->|[? _]]; [done|by apply Hl].
Qed.

Lemma get_group_names n g l : names_ok l -> G_get_group n l = Some g -> g ∈ l /\ G_compare_nameptr n (gr_name g) = 0.
Proof. intros Hs Hg. by apply (skl_find_Some gr_name G_compare_nameptr) in Hg. Qed.
Lemma get_group_ok n g l : groups_list_ok l -> G_get_group n l = Some g -> group_ok g /\ g ∈ l /\ G_compare_nameptr n (gr_name g) = 0.
Proof.
  intros [Hs Hl] Hg. apply (skl_find_Some gr_name G_compare_nameptr) in Hg as [Hg Hk]; [|exact Hs]. rewrite Forall_forall in Hl. auto.
Qed.
Lemma get_group_in g l : names_ok l -> g ∈ l -> G_get_group (gr_name g) l = Some g.
Proof. intros Hs Hg. apply (skl_find_Some gr_name G_compare_nameptr); [exact Hs|]. split; [done|apply compare_name_refl]. Qed.
Lemma get_group_None n l : names_ok l -> G_get_group n l = None <-> forall g, g ∈ l -> G_compare_nameptr n (gr_name g) <> 0.
Proof. exact (skl_find_None gr_name G_compare_nameptr n l). Qed.
Lemma get_group_same n n' l : G_compare_nameptr n n' = 0 -> G_get_group n l = G_get_group n' l.
Proof.
  intros E. unfold G_get_group. induction l as [|g l IH]; [done|]. cbn. by rewrite (compare_name_ext _ _ _ E), IH.
Qed.

(** Two lists with the same groups are the same. *)
Lemma groups_list_ext l l' : names_ok l -> names_ok l' -> (forall n, G_get_group n l = G_get_group n l') -> l = l'.
Proof.
  intros H H' He. apply (skl_ext gr_name G_compare_nameptr); [exact H|exact H'|]. intros g. split; intros Hg.
  - apply (get_group_in g l) in Hg; [|done]. rewrite He in Hg. by apply get_group_names in Hg as [? _].
  - apply (get_group_in g l') in Hg; [|done]. rewrite <- He in Hg. by apply get_group_names in Hg as [? _].
Qed.

(** ** Daemons by address *)

Lemma find_daemon_Some id g d :
  members_ok g -> G_get_daemon cn g id = Some d <-> d ∈ gr_DaemonsList g /\ u32 (dm_proc_id d) = u32 id.
Proof.
  intros Hg. unfold G_get_daemon, find_daemon. rewrite (skl_find_Some dm_proc_id (G_compare_proc_ids_by_conf cn)) by apply Hg. rewrite compare_proc_eq. naive_solver.
Qed.

Lemma same_daemon g d e : members_ok g -> d ∈ gr_DaemonsList g -> e ∈ gr_DaemonsList g -> u32 (dm_proc_id d) = u32 (dm_proc_id e) -> d = e.
Proof.
  intros Hg Hd He E. apply (skl_unique dm_proc_id (G_compare_proc_ids_by_conf cn) (gr_DaemonsList g)); [apply Hg|done|done|].
  by apply compare_proc_eq.
Qed.

Lemma group_members_perm_put d g :
  members_ok g -> G_get_daemon cn g (dm_proc_id d) = None ->
  gr_DaemonsList (put_daemon cn d g) ≡ₚ d :: gr_DaemonsList g.
Proof. intros Hg Hn. apply skl_put_Permutation; [apply Hg|exact Hn]. Qed.
End ok.

(* --------------------------------------------------------------------- *)
(** ** Who is in which group *)

Section view.
Context (cn : configuration).
Implicit Types (g : group) (d : daemon_members) (l : list group) (m x : member) (n id : list Z) (p : Z).

(** The members of a group at the daemon [p]. *)
Definition members_of_daemon g p : list member :=
  match G_get_daemon cn g p with Some d => dm_MembersList d | None => [] end.
(** [x] is a member of the group [n] at the daemon [p]. *)
Definition is_member l n p x : Prop := exists g, G_get_group n l = Some g /\ x ∈ members_of_daemon g p.

Definition daemons_sorted g : Prop := skl_ok dm_proc_id (G_compare_proc_ids_by_conf cn) (gr_DaemonsList g).
(** The daemons of a group, which need not have any. *)
Record daemons_ok g : Prop := mkDaemonsOk {
  ds_sorted : daemons_sorted g;
  ds_daemons : Forall daemon_ok (gr_DaemonsList g);
}.
Definition num_listed g : Z := Z.of_nat (length (group_members (gr_DaemonsList g))).
Lemma members_ok_parts g : members_ok cn g <-> daemons_ok g /\ gr_num_members g = num_listed g.
Proof. split; [intros [? ? ?]; by split|intros [[? ?] ?]; by constructor]. Qed.

(** ** Putting a daemon *)

Lemma get_put_daemon d g p :
  daemons_sorted g -> G_get_daemon cn (put_daemon cn d g) p = if u32 p =? u32 (dm_proc_id d) then Some d else G_get_daemon cn g p.
Proof.
  intros Hs. unfold G_get_daemon, find_daemon, put_daemon. cbn [gr_DaemonsList set_gr_DaemonsList].
  rewrite (skl_find_put dm_proc_id (G_compare_proc_ids_by_conf cn) p d _ Hs). pose proof (compare_proc_eq cn p (dm_proc_id d)).
  destruct (Z.eqb_spec (G_compare_proc_ids_by_conf cn p (dm_proc_id d)) 0), (Z.eqb_spec (u32 p) (u32 (dm_proc_id d))); tauto.
Qed.
Lemma put_daemons_ok d g : daemons_ok g -> daemon_ok d -> daemons_ok (put_daemon cn d g).
Proof.
  intros [Hs Hd] Hok. constructor; [by apply (skl_put_ok dm_proc_id (G_compare_proc_ids_by_conf cn))|]. apply Forall_forall.
  intros e [->|[He _]]%(skl_put_In dm_proc_id (G_compare_proc_ids_by_conf cn)); [done| |done]. rewrite Forall_forall in Hd. by apply Hd.
Qed.
Lemma put_nonempty d g : gr_DaemonsList (put_daemon cn d g) <> [].
Proof. unfold put_daemon. cbn [gr_DaemonsList set_gr_DaemonsList]. destruct (gr_DaemonsList g) as [|e l]; [done|]. cbn. by repeat case_match. Qed.

Lemma group_members_perm (l l' : list daemon_members) : l ≡ₚ l' -> length (group_members l) = length (group_members l').
Proof. intros Hp. unfold group_members. by rewrite Hp. Qed.
Lemma view_members_cons d (l : list daemon_members) : length (group_members (d :: l)) = (length (dm_MembersList d) + length (group_members l))%nat.
Proof. unfold group_members. by rewrite bind_cons, length_app. Qed.
Lemma put_num_listed d g :
  daemons_ok g ->
  num_listed (put_daemon cn d g) = num_listed g - Z.of_nat (length (members_of_daemon g (dm_proc_id d))) + Z.of_nat (length (dm_MembersList d)).
Proof.
  intros [Hs _]. unfold num_listed, members_of_daemon, G_get_daemon, find_daemon, put_daemon. cbn [gr_DaemonsList set_gr_DaemonsList].
  destruct (skl_find dm_proc_id _ (dm_proc_id d) (gr_DaemonsList g)) as [e|] eqn:E.
  - destruct (skl_put_replace dm_proc_id _ d e _ Hs E) as (rest & H1 & H2). rewrite (group_members_perm _ _ H1), (group_members_perm _ _ H2), !view_members_cons. lia.
  - rewrite (group_members_perm _ _ (skl_put_Permutation dm_proc_id _ d _ Hs E)), view_members_cons. cbn. lia.
Qed.

(** Writing through the pointer to a daemon is putting it. *)
Lemma write_is_put d e g :
  daemons_sorted g -> G_get_daemon cn g (dm_proc_id d) = Some e -> write_daemon d g = put_daemon cn d g.
Proof.
  intros Hs He. unfold write_daemon, put_daemon. f_equal. rewrite (skl_put_write dm_proc_id (G_compare_proc_ids_by_conf cn) d e _ Hs He).
  apply list_fmap_ext. intros i x _. pose proof (compare_proc_eq cn (dm_proc_id x) (dm_proc_id d)).
  destruct (Z.eqb_spec (G_compare_proc_ids_by_conf cn (dm_proc_id x) (dm_proc_id d)) 0), (Z.eqb_spec (u32 (dm_proc_id x)) (u32 (dm_proc_id d))); tauto.
Qed.
Lemma put_daemon_twice d e g :
  daemons_sorted g -> dm_proc_id d = dm_proc_id e -> put_daemon cn d (put_daemon cn e g) = put_daemon cn d g.
Proof.
  intros Hs E. unfold put_daemon. cbn [gr_DaemonsList set_gr_DaemonsList]. unfold set_gr_DaemonsList. cbn. f_equal.
  apply (skl_put_twice dm_proc_id (G_compare_proc_ids_by_conf cn)); [done|]. by apply compare_proc_eq; rewrite E.
Qed.

(** ** Entering *)

(** The joiner is put in at its daemon. *)
Definition entered g d m : group :=
  let g := put_daemon cn (put_member m d) g in
  let id := gr_grp_id g in
  set_gr_grp_id (mkGroupId (gi_memb_id id) (gi_index id + 1)) (set_gr_num_members (gr_num_members g + 1) g).

(** The daemon of the group, or a new one without members. *)
Definition daemon_of g p d : Prop :=
  - 2 ^ 31 <= dm_proc_id d < 2 ^ 31 /\ u32 (dm_proc_id d) = u32 p /\
  (G_get_daemon cn g p = Some d \/ (G_get_daemon cn g p = None /\ dm_MembersList d = [])).

Lemma get_daemon_same g p q : members_ok cn g -> u32 p = u32 q -> G_get_daemon cn g p = G_get_daemon cn g q.
Proof.
  intros Hg E. apply option_eq. intros d. rewrite !(find_daemon_Some cn) by done. by rewrite E.
Qed.
Lemma daemon_of_members g p d : members_ok cn g -> daemon_of g p d -> members_of_daemon g (dm_proc_id d) = dm_MembersList d.
Proof.
  intros Hg (_ & E & Hd). unfold members_of_daemon. rewrite (get_daemon_same g _ p) by done. by destruct Hd as [->|[-> ->]].
Qed.

Lemma put_member_ok d m : Forall padded (dm_MembersList d) -> skl_ok (fun x => x) G_compare_nameptr (dm_MembersList d) ->
  - 2 ^ 31 <= dm_proc_id d < 2 ^ 31 -> padded m -> daemon_ok (put_member m d).
Proof.
  intros Hp Hs Hid Hm. constructor; unfold put_member; cbn [dm_proc_id dm_MembersList set_dm_MembersList]; [done| | |].
  - by apply (skl_put_ok _ G_compare_nameptr).
  - apply Forall_forall. intros x [->|[Hx _]]%(skl_put_In _ G_compare_nameptr); [done| |done]. rewrite Forall_forall in Hp. by apply Hp.
  - destruct (dm_MembersList d) as [|y l]; [done|]. cbn. by repeat case_match.
Qed.

Lemma member_list g p d : members_ok cn g -> daemon_of g p d ->
  Forall padded (dm_MembersList d) /\ skl_ok (fun x => x) G_compare_nameptr (dm_MembersList d).
Proof.
  intros Hg (_ & _ & [Hd|[_ ->]]); [|by split; constructor]. apply (find_daemon_Some cn) in Hd as [Hd _]; [|done].
  pose proof (mo_daemons cn g Hg) as Hall. rewrite Forall_forall in Hall. destruct (Hall d Hd). by split.
Qed.

Lemma entered_ok g p d m :
  padded (gr_name g) -> members_ok cn g -> daemon_of g p d -> padded m -> G_get_member d m = None ->
  group_ok cn (entered g d m) /\
  (forall q x, x ∈ members_of_daemon (entered g d m) q <-> x ∈ members_of_daemon g q \/ (u32 q = u32 p /\ x = m)).
Proof.
  intros Hn Hg Hd Hm Hf. pose proof (proj1 (members_ok_parts g) Hg) as [Hds Hnum].
  destruct (member_list g p d Hg Hd) as [Hp Hs]. pose proof Hd as (Hid & Hpid & _).
  assert (Hok : daemon_ok (put_member m d)) by by apply put_member_ok.
  assert (Hlist : dm_MembersList (put_member m d) ≡ₚ m :: dm_MembersList d) by exact (skl_put_Permutation (fun x => x) G_compare_nameptr m _ Hs Hf).
  split.
  - constructor; [done| |apply put_nonempty]. apply members_ok_parts. split.
    + by destruct (put_daemons_ok (put_member m d) g Hds Hok).
    + change (gr_num_members (entered g d m)) with (gr_num_members g + 1). change (num_listed (entered g d m)) with (num_listed (put_daemon cn (put_member m d) g)).
      rewrite put_num_listed by done. change (dm_proc_id (put_member m d)) with (dm_proc_id d).
      rewrite (daemon_of_members g p d Hg Hd), Hnum. apply Permutation_length in Hlist. rewrite Hlist. cbn [length]. lia.
  - intros q x. unfold members_of_daemon at 1. change (G_get_daemon cn (entered g d m) q) with (G_get_daemon cn (put_daemon cn (put_member m d) g) q).
    rewrite get_put_daemon by apply Hds. change (dm_proc_id (put_member m d)) with (dm_proc_id d). rewrite Hpid.
    destruct (Z.eqb_spec (u32 q) (u32 p)) as [E|E].
    + assert (Hq : members_of_daemon g q = dm_MembersList d).
      { rewrite <- (daemon_of_members g p d Hg Hd). unfold members_of_daemon. by rewrite (get_daemon_same g q (dm_proc_id d)) by congruence. }
      rewrite Hq, Hlist, elem_of_cons. tauto.
    + unfold members_of_daemon. tauto.
Qed.

(** ** Leaving *)

(** The group when the member list of [d] is [ms]: without the daemon when
    there is nobody left. *)
Definition left_group g d (ms : list member) : res group :=
  let d := set_dm_MembersList ms d in
  let g := set_gr_num_members (gr_num_members g - 1) (write_daemon d g) in
  if empty ms then G_remove_daemon cn g d else inr g.

(** Only the lists of a group changed. *)
Definition only_lists g g' : Prop :=
  gr_name g' = gr_name g /\ gr_grp_id g' = gr_grp_id g /\ gr_changed g' = gr_changed g /\ gr_mboxes g' = gr_mboxes g.

Record left_ok g p m g' : Prop := mkLeftOk {
  lf_members : members_ok cn g';
  lf_lists : only_lists g g';
  lf_number : gr_num_members g' = gr_num_members g - 1;
  lf_view : forall q x, x ∈ members_of_daemon g' q <-> x ∈ members_of_daemon g q /\ ~ (u32 q = u32 p /\ x = m);
}.

(** The other members of a daemon. *)
Lemma erase_member d m :
  daemon_ok d -> m ∈ dm_MembersList d ->
  exists ms, skl_erase id G_compare_nameptr m (dm_MembersList d) = Some ms /\ dm_MembersList d ≡ₚ m :: ms /\
    skl_ok (fun x => x) G_compare_nameptr ms /\ Forall padded ms /\ (forall x, x ∈ ms <-> x ∈ dm_MembersList d /\ x <> m).
Proof.
  intros [_ Hs Hp _] Hm. assert (Hf : skl_find (fun x => x) G_compare_nameptr m (dm_MembersList d) = Some m).
  { apply (skl_find_Some (fun x => x) G_compare_nameptr); [exact Hs|]. split; [done|apply compare_name_refl]. }
  destruct (skl_erase_Some (fun x => x) G_compare_nameptr m _ m Hs Hf) as (ms & He & Hpm & Hms). exists ms.
  split; [exact He|]. split; [done|]. split; [done|]. rewrite Hpm in Hp. apply Forall_cons in Hp as [_ Hp]. split; [done|].
  pose proof (skl_ok_NoDup (fun x => x) G_compare_nameptr _ Hs) as Hn. rewrite Hpm in Hn. apply NoDup_cons in Hn as [Hn _].
  intros x. rewrite Hpm, elem_of_cons. split; [|tauto]. intros Hx. split; [by right|]. by intros ->.
Qed.

Lemma left_group_spec g p d m :
  members_ok cn g -> G_get_daemon cn g p = Some d -> m ∈ dm_MembersList d ->
  exists ms g', skl_erase id G_compare_nameptr m (dm_MembersList d) = Some ms /\ left_group g d ms = inr g' /\ left_ok g p m g'.
Proof.
  intros Hg Hd Hm. pose proof (proj1 (members_ok_parts g) Hg) as [Hds Hnum]. pose proof Hds as [Hs Hall].
  apply (find_daemon_Some cn) in Hd as [Hd Hpid]; [|done]. assert (Hdok : daemon_ok d) by (rewrite Forall_forall in Hall; by apply Hall).
  destruct (erase_member d m Hdok Hm) as (ms & He & Hpm & Hsms & Hpms & Hin). exists ms.
  set (d' := set_dm_MembersList ms d). assert (Hfd : G_get_daemon cn g (dm_proc_id d') = Some d) by by apply (find_daemon_Some cn).
  destruct (skl_put_replace dm_proc_id (G_compare_proc_ids_by_conf cn) d' d (gr_DaemonsList g) Hs Hfd) as (rest & H1 & H2).
  assert (Hw : write_daemon d' g = put_daemon cn d' g) by by apply (write_is_put d' d).
  assert (Hold : members_of_daemon g (dm_proc_id d') = dm_MembersList d) by (unfold members_of_daemon; by rewrite Hfd).
  assert (Hnum' : num_listed (put_daemon cn d' g) = num_listed g - 1).
  { rewrite put_num_listed, Hold by done. apply Permutation_length in Hpm. rewrite Hpm. change (dm_MembersList d') with ms. cbn [length]. lia. }
  assert (Hother : forall q, u32 q <> u32 p -> G_get_daemon cn (put_daemon cn d' g) q = G_get_daemon cn g q).
  { intros q E. rewrite get_put_daemon by apply Hds. change (dm_proc_id d') with (dm_proc_id d). rewrite Hpid. by rewrite (proj2 (Z.eqb_neq _ _)). }
  assert (Hsame : forall q, u32 q = u32 p -> members_of_daemon g q = dm_MembersList d).
  { intros q E. unfold members_of_daemon. by rewrite (get_daemon_same g q (dm_proc_id d') Hg), Hfd by (cbn; congruence). }
  unfold left_group. fold d'. rewrite Hw. destruct ms as [|m1 ms]; cbn [empty].
  - (* nobody left *) unfold G_remove_daemon. change (dm_proc_id d') with (dm_proc_id d) in *.
    set (L := gr_DaemonsList (set_gr_num_members _ (put_daemon cn d' g))). change (skl_put dm_proc_id _ d' (gr_DaemonsList g)) with L in H2.
    assert (HsL : skl_ok dm_proc_id (G_compare_proc_ids_by_conf cn) L) by by apply (skl_put_ok dm_proc_id (G_compare_proc_ids_by_conf cn)).
    assert (HfL : skl_find dm_proc_id (G_compare_proc_ids_by_conf cn) (dm_proc_id d) L = Some d').
    { pose proof (get_put_daemon d' g (dm_proc_id d) Hs) as E. rewrite Z.eqb_refl in E. exact E. }
    destruct (skl_erase_Some dm_proc_id _ _ _ _ HsL HfL) as (L' & HeL & HpL & HsL'). rewrite HeL. eexists. split; [done|]. split; [done|].
    assert (HpL' : L' ≡ₚ rest) by (apply (Permutation_cons_inv (a := d')); by rewrite <- HpL, <- H2).
    constructor; [|done|cbn; lia|].
    + apply members_ok_parts. split; [constructor; [exact HsL'|]|].
      * cbn. rewrite HpL'. rewrite H1 in Hall. by apply Forall_cons in Hall as [_ ?].
      * cbn. rewrite Hnum. unfold num_listed in *. cbn [gr_DaemonsList set_gr_DaemonsList set_gr_num_members].
        apply Permutation_length in Hpm. cbn [length] in Hpm. rewrite (group_members_perm _ _ HpL'), (group_members_perm _ _ H1), view_members_cons. lia.
    + intros q x. unfold members_of_daemon at 1, G_get_daemon, find_daemon. cbn [gr_DaemonsList set_gr_DaemonsList set_gr_num_members].
      rewrite (skl_find_erase dm_proc_id _ _ q d' L L' HsL HfL HeL). pose proof (compare_proc_eq cn q (dm_proc_id d)).
      destruct (Z.eqb_spec (G_compare_proc_ids_by_conf cn q (dm_proc_id d)) 0) as [E|E].
      * rewrite (Hsame q) by (rewrite <- Hpid; tauto). split; [by intros ?%elem_of_nil|]. rewrite Hpm, elem_of_cons. intros [[->|?] Hn]; [|done].
        destruct Hn. split; [rewrite <- Hpid; tauto|done].
      * assert (Hne : u32 q <> u32 p) by (rewrite <- Hpid; tauto). change (skl_find dm_proc_id (G_compare_proc_ids_by_conf cn) q L) with (G_get_daemon cn (put_daemon cn d' g) q).
        rewrite Hother by done. change (match G_get_daemon cn g q with Some d0 => dm_MembersList d0 | None => [] end) with (members_of_daemon g q). tauto.
  - eexists. split; [done|]. split; [done|]. constructor; [|done|done|].
    + apply members_ok_parts. split; [|cbn; change (num_listed _) with (num_listed (put_daemon cn d' g)); lia].
      destruct (put_daemons_ok d' g Hds) as [? ?]; [|by split]. destruct Hdok. constructor; [done|exact Hsms|exact Hpms|done].
    + intros q x. unfold members_of_daemon at 1. change (G_get_daemon cn (set_gr_num_members _ ?h) q) with (G_get_daemon cn h q).
      destruct (decide (u32 q = u32 p)) as [E|E].
      * rewrite get_put_daemon by apply Hds. change (dm_proc_id d') with (dm_proc_id d). rewrite Hpid, E, Z.eqb_refl. change (dm_MembersList d') with (m1 :: ms).
        rewrite Hin, (Hsame q E). tauto.
      * change (G_get_daemon cn _ q) with (G_get_daemon cn (put_daemon cn d' g) q). rewrite Hother by done. unfold members_of_daemon. tauto.
Qed.
End view.
