(* ===== verification/GroupsVs.v ===== *)
(** * Membership messages ([G_build_memb_vs_buf])

    The message of a membership caused by the network lists the members and
    the virtual synchrony sets: the daemons that came along with each other
    are together, a partitioned daemon is alone, a joiner is last, and each
    daemon points its clients at the set it is in itself. *)

From Stdlib Require Import ZArith Lia Sorting.Sorted.
From stdpp Require Import base strings numbers option gmap list sorting.
From S2P Require Import Prelude Wire Bytes Config Events State Message Names MembCore GroupState Skl Groups GroupsOk.

(** ** Sets of daemons *)

(** The classes of daemons: two are together exactly when both have the same
    known membership. *)
Record classes_ok (cl : list (list daemon_members)) : Prop := mkClassesOk {
  cls_full : forall c, c ∈ cl -> c <> [];
  cls_same : forall i j c c' d e, cl !! i = Some c -> cl !! j = Some c' -> d ∈ c -> e ∈ c' ->
    i = j <-> d = e \/ (dm_memb_id d = dm_memb_id e /\ Is_established_daemon d = true);
}.

Lemma lookup_snoc_cases {A} (l : list A) x i y :
  (l ++ [x]) !! i = Some y -> (l !! i = Some y /\ (i < length l)%nat) \/ (i = length l /\ y = x).
Proof.
  intros H. apply lookup_app_Some in H as [H|[Hle H]]; [left; split; [done|by apply lookup_lt_Some in H]|right].
  apply list_lookup_singleton_Some in H as [Hi ->]. split; [lia|done].
Qed.

Lemma in_class {A} (cl : list (list A)) i c d : cl !! i = Some c -> d ∈ c -> d ∈ concat cl.
Proof. intros Hc Hd. apply list_elem_of_In, in_concat. exists c. split; apply list_elem_of_In; [by eapply list_elem_of_lookup_2|done]. Qed.
Lemma class_of {A} (cl : list (list A)) d : d ∈ concat cl -> exists i c, cl !! i = Some c /\ d ∈ c.
Proof.
  intros Hd. apply list_elem_of_In, in_concat in Hd as (c & Hc & Hd). apply list_elem_of_In, list_elem_of_lookup_1 in Hc as [i Hi].
  exists i, c. split; [done|by apply list_elem_of_In].
Qed.

Lemma classes_new cl x :
  classes_ok cl ->
  (forall d, d ∈ concat cl -> d <> x /\ (dm_memb_id d = dm_memb_id x -> Is_established_daemon d = false)) ->
  classes_ok (cl ++ [[x]]).
Proof.
  intros [Hf Hs] Hx. constructor.
  - intros c [Hc| ->%list_elem_of_singleton]%elem_of_app; [by apply Hf|done].
  - intros i j c c' d e Hi Hj Hd He. apply lookup_snoc_cases in Hi as [[Hi Hli]|[-> ->]], Hj as [[Hj Hlj]|[-> ->]].
    + by apply (Hs i j c c').
    + apply list_elem_of_singleton in He as ->. pose proof (in_class _ _ _ _ Hi Hd) as Hin. destruct (Hx d Hin) as [Hne Hm].
      split; [lia|]. intros [->|[Hsame Hest]]; [done|]. rewrite Hm in Hest; done.
    + apply list_elem_of_singleton in Hd as ->. pose proof (in_class _ _ _ _ Hj He) as Hin. destruct (Hx e Hin) as [Hne Hm].
      split; [lia|]. intros [->|[Hsame Hest]]; [done|]. unfold Is_established_daemon in *. rewrite Hsame, Hm in Hest; done.
    + apply list_elem_of_singleton in Hd as ->, He as ->. split; [by left|done].
Qed.

Lemma classes_more cs c x :
  classes_ok (cs ++ [c]) -> Is_established_daemon x = true ->
  (forall d, d ∈ c -> dm_memb_id d = dm_memb_id x) -> (forall d, d ∈ concat (cs ++ [c]) -> d <> x) ->
  classes_ok (cs ++ [c ++ [x]]).
Proof.
  intros [Hf Hs] Hest Hc Hx.
  assert (Hlast : (cs ++ [c]) !! length cs = Some c) by by rewrite lookup_app_r, Nat.sub_diag.
  assert (Hold : forall i b, cs !! i = Some b -> (cs ++ [c]) !! i = Some b) by (intros i b Hb; by apply lookup_app_l_Some).
  assert (Hcest : forall d, dm_memb_id d = dm_memb_id x -> Is_established_daemon d = true).
  { intros d Hd. unfold Is_established_daemon in *. by rewrite Hd. }
  assert (Hfull : c <> []) by (apply Hf, elem_of_app; right; by left).
  destruct c as [|c0 c1]; [done|]. set (c := c0 :: c1) in *. assert (H0 : c0 ∈ c) by by left.
  (* [x] belongs to the last class just as [c0] does *)
  assert (Hother : forall i b d, cs !! i = Some b -> d ∈ b -> dm_memb_id d = dm_memb_id x -> False).
  { intros i b d Hb Hd E. assert (i = length cs); [|by apply lookup_lt_Some in Hb; lia].
    apply (Hs i (length cs) b c d c0); [by apply Hold|done|done|done|]. right. rewrite (Hc c0 H0). auto. }
  constructor.
  - intros b [Hb| ->%list_elem_of_singleton]%elem_of_app; [apply Hf, elem_of_app; by left|]. by destruct c.
  - intros i j b b' d e Hi Hj Hd He. apply lookup_snoc_cases in Hi as [[Hi Hli]|[-> ->]], Hj as [[Hj Hlj]|[-> ->]].
    + by apply (Hs i j b b'); [apply Hold|apply Hold| |].
    + apply elem_of_app in He as [He| ->%list_elem_of_singleton]; [by apply (Hs i (length cs) b c); [apply Hold| | |]|].
      split; [lia|]. intros [->|[E _]].
      * exfalso. apply (Hx x); [|done]. rewrite concat_app. apply elem_of_app. left. by eapply in_class.
      * by destruct (Hother i b d).
    + apply elem_of_app in Hd as [Hd| ->%list_elem_of_singleton]; [by apply (Hs (length cs) j c b'); [|apply Hold| |]|].
      split; [lia|]. intros [<-|[E _]].
      * exfalso. apply (Hx x); [|done]. rewrite concat_app. apply elem_of_app. left. by eapply in_class.
      * by destruct (Hother j b' e).
    + split; [|done]. intros _. right.
      assert (Hm : forall y, y ∈ c ++ [x] -> dm_memb_id y = dm_memb_id x).
      { intros y [Hy| ->%list_elem_of_singleton]%elem_of_app; [by apply Hc|done]. }
      rewrite (Hm d Hd), (Hm e He). split; [done|]. apply Hcest, Hm, Hd.
Qed.

(** ** The order of the memberships *)

Section order.
Implicit Types (m : membership_id) (d e : daemon_members).

Lemma memb_order_zero m1 m2 :
  memb_id_ok m1 -> memb_id_ok m2 -> memb_order m1 m2 = 0 ->
  m1 = m2 \/ (Is_unknown_memb_id m1 = true /\ Is_unknown_memb_id m2 = true).
Proof.
  unfold memb_id_ok, memb_order, lex, rank_diff, memb_rank1, memb_rank2. intros H1 H2.
  destruct (Is_unknown_memb_id m1) eqn:U1, (Is_unknown_memb_id m2) eqn:U2; [by right|..].
  - rewrite (proj2 (Z.eqb_neq _ _)) by lia. lia.
  - rewrite (proj2 (Z.eqb_neq _ _)) by lia. lia.
  - destruct m1 as [p1 t1], m2 as [p2 t2]. cbn in *. left. destruct (Z.eqb_spec (p1 - p2) 0); f_equal; lia.
Qed.

Lemma unknown_last m1 m2 : memb_id_ok m2 -> Is_unknown_memb_id m1 = true -> memb_order m1 m2 <= 0 -> Is_unknown_memb_id m2 = true.
Proof.
  unfold memb_id_ok, memb_order, lex, rank_diff, memb_rank1. intros Hm -> H.
  destruct (Is_unknown_memb_id m2); [done|]. revert H. rewrite (proj2 (Z.eqb_neq _ _)) by lia. lia.
Qed.

Lemma memb_equal m1 m2 : Memb_is_equal m1 m2 = true <-> m1 = m2.
Proof.
  unfold Memb_is_equal, memb_id_eqb. destruct m1, m2. cbn. rewrite andb_true_iff, !Z.eqb_eq. split; [by intros [-> ->]|by intros [= -> ->]].
Qed.

(** In order, a membership that was left does not come back. *)
Lemma left_behind d e x :
  memb_id_ok (dm_memb_id d) -> memb_id_ok (dm_memb_id e) -> memb_id_ok (dm_memb_id x) ->
  memb_order (dm_memb_id d) (dm_memb_id e) <= 0 -> memb_order (dm_memb_id e) (dm_memb_id x) <= 0 ->
  Is_unknown_memb_id (dm_memb_id e) = true \/ dm_memb_id e <> dm_memb_id x ->
  dm_memb_id d = dm_memb_id x -> Is_established_daemon d = false.
Proof.
  intros Hd He Hx H1 H2 Hleft E. unfold Is_established_daemon. rewrite E in *. apply negb_false_iff.
  destruct Hleft as [U|Hne]; [by eapply unknown_last|].
  pose proof (cmp_anti memb_order (dm_memb_id e) (dm_memb_id x)). pose proof (cmp_anti memb_order (dm_memb_id x) (dm_memb_id e)).
  destruct (memb_order_zero (dm_memb_id e) (dm_memb_id x)) as [|[_ ?]]; [done|done|lia|done|done].
Qed.

Lemma vs_order_memb cn d e : vs_order cn d e < 0 -> memb_order (dm_memb_id d) (dm_memb_id e) <= 0.
Proof. unfold vs_order, lex. destruct (Z.eqb_spec (memb_order (dm_memb_id d) (dm_memb_id e)) 0); lia. Qed.
End order.

(* --------------------------------------------------------------------- *)
(** ** The loop over the daemons *)

Section vs.
Context (my_id : Z) (joiner : option member).
Implicit Types (d : daemon_members) (l p : list daemon_members) (v : vs_sets) (cl : list (list daemon_members)).

(** The members but the joiner. *)
Definition shown (m : member) : bool :=
  match joiner with Some j => negb (strcmp (cstr j) (cstr m) =? 0) | None => true end.
Definition vs_set (c : list daemon_members) : list member := filter (fun m => shown m = true) (group_members c).
Definition mine d : Prop := u32 (dm_proc_id d) = my_id.

Lemma group_members_app l l' : group_members (l ++ l') = group_members l ++ group_members l'.
Proof. apply bind_app. Qed.
Lemma vs_set_app c c' : vs_set (c ++ c') = vs_set c ++ vs_set c'.
Proof. unfold vs_set. by rewrite group_members_app, filter_app. Qed.

Lemma vs_members_spec (l : list member) (found : bool) :
  NoDup (cstr <$> l) -> (found = true -> Forall (fun m => shown m = true) l) ->
  vs_members joiner l found = (filter (fun m => shown m = true) l, found || existsb (fun m => negb (shown m)) l).
Proof.
  revert found. induction l as [|m l IH]; intros found Hnd Hf; cbn [vs_members existsb]; [by rewrite orb_false_r|].
  apply NoDup_cons in Hnd as [Hm Hnd]. rewrite filter_cons.
  assert (Hf' : found = true -> shown m = true /\ Forall (fun m => shown m = true) l) by (intros E; apply Hf in E; by apply Forall_cons in E).
  assert (Hc : match joiner with Some j => negb found && (strcmp (cstr j) (cstr m) =? 0) | None => false end = negb found && negb (shown m)).
  { unfold shown. destruct joiner; [by rewrite negb_involutive|by rewrite andb_false_r]. }
  rewrite Hc. destruct (shown m) eqn:Hs; cbn [negb orb].
  - rewrite andb_false_r, decide_True by done. by rewrite IH by (done || (intros E'; apply Hf', E')).
  - rewrite andb_true_r, decide_False by done. destruct found; [by destruct Hf'|]. cbn [negb orb].
    rewrite IH; [done|done|]. intros _. apply Forall_forall. intros m' Hm'. unfold shown in *. destruct joiner as [k|]; [|done].
    apply negb_false_iff, Z.eqb_eq, strcmp_eq in Hs. rewrite Hs.
    destruct (Z.eqb_spec (strcmp (cstr m) (cstr m')) 0) as [E'|]; [|done]. destruct Hm. apply strcmp_eq in E'. rewrite E'.
    by apply list_elem_of_fmap_2.
Qed.

Definition local_ok cl v : Prop :=
  match vs_local v with
  | None => forall d, d ∈ concat cl -> ~ mine d
  | Some o => exists i c d, cl !! i = Some c /\ d ∈ c /\ mine d /\ o = Z.of_nat (length (vs_bytes (vs_set <$> take i cl)))
  end.

(** The state after the daemons [concat cl]. *)
Record vs_inv cl v : Prop := mkVsInv {
  vi_classes : classes_ok cl;
  vi_local : local_ok cl v;
  vi_found : vs_found v = existsb (fun m => negb (shown m)) (group_members (concat cl));
  vi_sets : (cl = [] /\ vs_done v = [] /\ vs_curr v = None /\ vs_memb_id v = unknown_memb_id) \/
            (exists cs c, cl = cs ++ [c] /\ vs_done v = vs_set <$> cs /\ vs_curr v = Some (vs_set c) /\
               forall d, d ∈ c -> dm_memb_id d = vs_memb_id v);
}.

Lemma inv_list cl v : vs_inv cl v -> vs_list v = vs_set <$> cl.
Proof.
  intros [_ _ _ [(-> & Hd & Hc & _)|(cs & c & -> & Hd & Hc & _)]]; unfold vs_list; rewrite Hd, Hc; [done|]. by rewrite fmap_app.
Qed.

(** What is left is apart from what was done. *)
Definition apart cl d : Prop :=
  NoDup (cstr <$> group_members (concat cl ++ [d])) /\ NoDup ((fun d => u32 (dm_proc_id d)) <$> concat cl ++ [d]).

Lemma apart_new cl d : apart cl d -> forall e, e ∈ concat cl -> e <> d /\ (mine d -> ~ mine e).
Proof.
  intros [_ H] e He. rewrite fmap_app in H. apply NoDup_app in H as (_ & H & _).
  assert (Hne : u32 (dm_proc_id e) <> u32 (dm_proc_id d)).
  { intros E. apply (H (u32 (dm_proc_id e))); [by apply (list_elem_of_fmap_2 (fun d => u32 (dm_proc_id d)))|rewrite E; by left]. }
  unfold mine. split; congruence.
Qed.

(** The members of one more daemon. *)
Lemma members_step cl v d :
  vs_inv cl v -> apart cl d ->
  vs_members joiner (dm_MembersList d) (vs_found v) =
    (vs_set [d], existsb (fun m => negb (shown m)) (group_members (concat cl ++ [d]))).
Proof.
  intros Hi [Hn _]. rewrite group_members_app, fmap_app in Hn. apply NoDup_app in Hn as (Hn1 & Hn2 & Hn3).
  unfold group_members in Hn2, Hn3 at 1. cbn [mbind list_bind] in Hn2, Hn3. rewrite app_nil_r in Hn2, Hn3.
  rewrite vs_members_spec, (vi_found _ _ Hi), group_members_app, existsb_app; [|done|].
  - unfold vs_set, group_members. cbn [mbind list_bind]. by rewrite app_nil_r.
  - rewrite (vi_found _ _ Hi). intros (j & Hj & Hs)%existsb_exists. apply Forall_forall. intros m Hm. unfold shown in *.
    destruct joiner as [k|]; [|done]. apply list_elem_of_In in Hj.
    destruct (Z.eqb_spec (strcmp (cstr k) (cstr j)) 0) as [E|]; [|done]. apply strcmp_eq in E. rewrite E.
    destruct (Z.eqb_spec (strcmp (cstr j) (cstr m)) 0) as [E'|]; [|done]. apply strcmp_eq in E'.
    exfalso. apply (Hn2 (cstr j)); [by apply list_elem_of_fmap_2|]. rewrite E'. by apply list_elem_of_fmap_2.
Qed.
(** What [my_id] finds, when the daemon is put behind the sets [done]. *)
Definition local_after v d (done : list (list member)) : option Z :=
  if u32 (dm_proc_id d) =? my_id then Some (Z.of_nat (length (vs_bytes done))) else vs_local v.

Lemma local_after_ok cl cl' v v' d i c :
  local_ok cl v -> apart cl d -> concat cl' = concat cl ++ [d] ->
  (forall j, (j <= i)%nat -> take j cl' = take j cl) -> cl' !! i = Some c -> d ∈ c ->
  (forall j b e, cl !! j = Some b -> e ∈ b -> (j <= i)%nat /\ exists b', cl' !! j = Some b' /\ e ∈ b') ->
  vs_local v' = local_after v d (vs_set <$> take i cl) -> local_ok cl' v'.
Proof.
  intros Hl Ha Hc Ht Hi Hd Hold Hv. unfold local_ok in *. rewrite Hv. unfold local_after.
  destruct (Z.eqb_spec (u32 (dm_proc_id d)) my_id) as [E|E].
  - exists i, c, d. rewrite Ht by done. done.
  - destruct (vs_local v) as [o|].
    + destruct Hl as (j & b & e & Hj & He & Hm & ->). destruct (Hold j b e Hj He) as (Hle & b' & Hj' & He').
      exists j, b', e. rewrite Ht by done. done.
    + rewrite Hc. intros e [He| ->%list_elem_of_singleton]%elem_of_app; [by apply Hl|done].
Qed.

Lemma daemon_step cl v d :
  vs_inv cl v -> apart cl d ->
  (Is_unknown_memb_id (vs_memb_id v) = true \/ vs_memb_id v <> dm_memb_id d ->
     forall e, e ∈ concat cl -> dm_memb_id e = dm_memb_id d -> Is_established_daemon e = false) ->
  exists cl' v', vs_daemon my_id joiner d v = inr v' /\ vs_inv cl' v' /\ concat cl' = concat cl ++ [d].
Proof.
  intros Hi Ha Hleft. pose proof (apart_new _ _ Ha) as Hne. unfold vs_daemon. rewrite (members_step cl v d Hi Ha).
  assert (Hlocal : forall done, (if u32 (dm_proc_id d) =? my_id then
     if negb (default 0 (vs_local v) =? 0) then inl (Fatal "G_build_memb_vs_buf: Found my vs set twice")
     else inr (Some (Z.of_nat (length (vs_bytes done)))) else inr (vs_local v)) = inr (local_after v d done)).
  { intros done. unfold local_after. destruct (Z.eqb_spec (u32 (dm_proc_id d)) my_id) as [E|E]; [|reflexivity].
    pose proof (vi_local _ _ Hi) as Hl. unfold local_ok in Hl. destruct (vs_local v) as [o|]; [|reflexivity].
    destruct Hl as (j & b & e & Hj & He & Hm & _). exfalso. by apply (proj2 (Hne e (in_class _ _ _ _ Hj He))). }
  destruct (Is_unknown_memb_id (vs_memb_id v) || negb (Memb_is_equal (vs_memb_id v) (dm_memb_id d))) eqn:Hneed.
  - rewrite Hlocal. cbn [rbind]. assert (Hcc : concat (cl ++ [[d]]) = concat cl ++ [d]) by by rewrite concat_app.
    eexists (cl ++ [[d]]), _. split; [reflexivity|]. split; [|done]. constructor; cbn [vs_found vs_done vs_curr vs_memb_id].
    + apply classes_new; [apply Hi|]. intros e He. split; [by apply Hne|]. apply Hleft; [|done].
      apply orb_true_iff in Hneed as [?|Hn]; [by left|right]. intros E. apply memb_equal in E. by rewrite E in Hn.
    + eapply (local_after_ok cl _ v _ d (length cl) [d]); [apply Hi|done|done|..].
      * intros j Hj. by rewrite take_app_le.
      * by rewrite lookup_app_r, Nat.sub_diag.
      * by left.
      * intros j b e Hj He. apply lookup_lt_Some in Hj as Hlt. split; [lia|]. exists b. split; [by apply lookup_app_l_Some|done].
      * cbn [vs_local]. rewrite firstn_all. by rewrite (inv_list _ _ Hi).
    + by rewrite Hcc.
    + right. exists cl, [d]. split; [done|]. split; [apply (inv_list _ _ Hi)|]. split; [done|]. by intros e ->%list_elem_of_singleton.
  - apply orb_false_iff in Hneed as [Hk Heq]. apply negb_false_iff, memb_equal in Heq.
    destruct (vi_sets _ _ Hi) as [(-> & _ & _ & Hu)|(cs & c & -> & Hd & Hc & Hm)]; [by rewrite Hu in Hk|].
    rewrite Hlocal, Hc, Hd. cbn [rbind default]. assert (Hcc : concat (cs ++ [c ++ [d]]) = concat (cs ++ [c]) ++ [d]).
    { rewrite !concat_app. cbn. by rewrite !app_nil_r, app_assoc. }
    eexists (cs ++ [c ++ [d]]), _. split; [reflexivity|]. split; [|done]. constructor; cbn [vs_found vs_done vs_curr vs_memb_id].
    + apply classes_more; [apply Hi|unfold Is_established_daemon; by rewrite <- Heq, Hk|intros e He; rewrite <- Heq; by apply Hm|].
      intros e He. by apply Hne.
    + eapply (local_after_ok (cs ++ [c]) _ v _ d (length cs) (c ++ [d])); [apply Hi|done|done|..].
      * intros j Hj. by rewrite !take_app_le.
      * by rewrite lookup_app_r, Nat.sub_diag.
      * apply elem_of_app. right. by left.
      * intros j b e Hj He. apply lookup_snoc_cases in Hj as [[Hj Hlt]|[-> ->]].
        -- split; [lia|]. exists b. split; [by apply lookup_app_l_Some|done].
        -- split; [done|]. exists (c ++ [d]). split; [by rewrite lookup_app_r, Nat.sub_diag|apply elem_of_app; by left].
      * cbn [vs_local]. by rewrite take_app_length.
    + by rewrite Hcc.
    + right. exists cs, (c ++ [d]). split; [done|]. split; [done|]. split; [by rewrite vs_set_app|].
      intros e [He| ->%list_elem_of_singleton]%elem_of_app; [by apply Hm|done].
Qed.
End vs.

(* --------------------------------------------------------------------- *)
(** ** The whole message *)

(** Daemons that are told apart, with identifiers the comparison can order. *)
Record vs_daemons_ok (l : list daemon_members) : Prop := mkVsDaemonsOk {
  vd_ids : NoDup ((fun d => u32 (dm_proc_id d)) <$> l);
  vd_names : NoDup (cstr <$> group_members l);
  vd_memb : forall d, d ∈ l -> memb_id_ok (dm_memb_id d);
  vd_comparable : forall d e, d ∈ l -> e ∈ l -> comparable (dm_memb_id d) (dm_memb_id e);
}.

#[export] Instance group_members_perm : Proper ((≡ₚ) ==> (≡ₚ)) group_members.
Proof. intros l l' Hp. unfold group_members. by rewrite Hp. Qed.

Lemma vs_daemons_perm l l' : l ≡ₚ l' -> vs_daemons_ok l -> vs_daemons_ok l'.
Proof.
  intros Hp [H1 H2 H3 H4]. constructor.
  - by rewrite <- Hp.
  - unfold group_members in *. by rewrite <- Hp.
  - intros d. rewrite <- Hp. apply H3.
  - intros d e. rewrite <- Hp. apply H4.
Qed.

Lemma group_members_in m l : m ∈ group_members l <-> exists d, d ∈ l /\ m ∈ dm_MembersList d.
Proof.
  unfold group_members. rewrite list_elem_of_bind. split; intros (d & H1 & H2); exists d; by split.
Qed.

Lemma vs_loop my_id joiner cn l : forall cl v,
  vs_inv my_id joiner cl v -> vs_daemons_ok (concat cl ++ l) -> skl_ok id (vs_order cn) (concat cl ++ l) ->
  exists cl' v', vs_daemons my_id joiner l v = inr v' /\ vs_inv my_id joiner cl' v' /\ concat cl' = concat cl ++ l.
Proof.
  induction l as [|d l IH]; intros cl v Hi Hok Hs; cbn [vs_daemons].
  { exists cl, v. by rewrite app_nil_r. }
  replace (concat cl ++ d :: l) with ((concat cl ++ [d]) ++ l) in Hok, Hs by by rewrite <- app_assoc.
  destruct (daemon_step my_id joiner cl v d Hi) as (cl1 & v1 & H1 & Hi1 & Hc1).
  - destruct Hok as [Hids Hnames _ _]. split.
    + rewrite group_members_app, fmap_app in Hnames. by apply NoDup_app in Hnames as [? _].
    + rewrite fmap_app in Hids. by apply NoDup_app in Hids as [? _].
  - intros Hleft e He E. destruct (vi_sets _ _ _ _ Hi) as [(-> & _)|(cs & c & -> & _ & _ & Hm)]; [by apply elem_of_nil in He|].
    assert (Hfull : c <> []) by (apply (cls_full _ (vi_classes _ _ _ _ Hi)), elem_of_app; right; by left).
    destruct (exists_last Hfull) as (c' & x & ->). assert (Hx : dm_memb_id x = vs_memb_id v) by (apply Hm, elem_of_app; right; by left).
    assert (Hcat : concat (cs ++ [c' ++ [x]]) = (concat cs ++ c') ++ [x]) by (rewrite concat_app; cbn; by rewrite app_nil_r, app_assoc).
    rewrite Hcat in *. rewrite <- Hx in Hleft.
    assert (Hin : forall y, y ∈ ((concat cs ++ c') ++ [x]) ++ [d] -> memb_id_ok (dm_memb_id y)).
    { intros y Hy. apply (vd_memb _ Hok), elem_of_app. by left. }
    apply skl_ok_app in Hs as (Hs & _ & _). apply skl_ok_app in Hs as (Hs & _ & Hxd).
    apply (left_behind e x d); try done.
    + apply Hin, elem_of_app. by left.
    + apply Hin. rewrite !elem_of_app. left. right. by left.
    + apply Hin. rewrite !elem_of_app. right. by left.
    + apply skl_ok_app in Hs as (_ & _ & Hex). apply elem_of_app in He as [He| ->%list_elem_of_singleton].
      * apply (vs_order_memb cn). apply Hex; [done|by left].
      * by rewrite (cmp_refl memb_order).
    + apply (vs_order_memb cn). apply Hxd; [apply elem_of_app; right|]; by left.
  - rewrite H1. cbn [rbind]. rewrite <- Hc1 in Hok, Hs. destruct (IH cl1 v1 Hi1 Hok Hs) as (cl2 & v2 & H2 & Hi2 & Hc2).
    exists cl2, v2. split; [done|]. split; [done|]. by rewrite Hc2, Hc1, <- app_assoc.
Qed.

(** The daemons in the order of their memberships. *)
Lemma vs_sorted cn l :
  vs_daemons_ok l ->
  let temp := foldl (fun acc d => skl_put id (G_compare_daemon_vs_set cn) d acc) [] l in
  temp ≡ₚ l /\ skl_ok id (vs_order cn) temp.
Proof.
  intros Hok temp. assert (He : temp = skl_put_seq id (vs_order cn) l).
  { apply (skl_put_seq_same id (G_compare_daemon_vs_set cn)). intros d e Hd Hee. apply vs_order_same; apply Hok; done. }
  rewrite He. destruct (skl_put_seq_spec id (vs_order cn) l) as [H1 H2]; [|by eapply NoDup_fmap_1, Hok|done].
  intros d e Hd Hee. unfold vs_order, lex. cbn [id]. destruct (Z.eqb_spec (memb_order (dm_memb_id d) (dm_memb_id e)) 0); [|done].
  intros E%compare_proc_eq. pose proof (vd_ids _ Hok) as Hn. apply list_elem_of_lookup_1 in Hd as [i Hi], Hee as [j Hj].
  assert (i = j) as <-; [|congruence]. eapply NoDup_lookup; [exact Hn|rewrite list_lookup_fmap, Hi; done|rewrite list_lookup_fmap, Hj; cbn; by rewrite E].
Qed.

Lemma concat_vs_sets joiner cl : concat (vs_set joiner <$> cl) = vs_set joiner (concat cl).
Proof. induction cl as [|c cl IH]; [done|]. cbn [fmap list_fmap concat] in *. by rewrite vs_set_app, IH. Qed.

Lemma found_joiner j l : j ∈ group_members l -> existsb (fun m => negb (shown (Some j) m)) (group_members l) = true.
Proof.
  intros Hj. apply existsb_exists. exists j. split; [by apply list_elem_of_In|]. unfold shown. by rewrite strcmp_refl.
Qed.

Definition joiner_set (joiner : option member) : list (list member) := match joiner with Some j => [[j]] | None => [] end.

Lemma filter_all {A} (P : A -> Prop) `{!forall x, Decision (P x)} l : Forall P l -> filter P l = l.
Proof. induction 1 as [|x l Hx Hl IH]; [done|]. by rewrite filter_cons, decide_True, IH. Qed.

(** Nobody is left out. *)
Lemma vs_sets_all joiner l :
  vs_daemons_ok l -> match joiner with Some j => j ∈ group_members l | None => True end ->
  vs_set joiner l ++ concat (joiner_set joiner) ≡ₚ group_members l.
Proof.
  intros Hok Hj. unfold vs_set. pose proof (vd_names _ Hok) as Hn. revert Hj Hn. generalize (group_members l) as ms. clear l Hok. intros ms Hj Hn.
  destruct joiner as [j|]; cbn [joiner_set shown].
  2: { rewrite app_nil_r. by rewrite filter_all by (by apply Forall_forall). }
  cbn [concat]. rewrite app_nil_r. induction ms as [|m ms IH]; [by apply elem_of_nil in Hj|].
  apply NoDup_cons in Hn as [Hm Hn]. rewrite filter_cons. destruct (Z.eqb_spec (strcmp (cstr j) (cstr m)) 0) as [E|E]; cbn [negb].
  - rewrite decide_False by done. apply strcmp_eq in E. assert (Hnot : j ∉ ms).
    { intros Hin. apply Hm. rewrite <- E. by apply list_elem_of_fmap_2. }
    apply elem_of_cons in Hj as [->|]; [|done]. rewrite filter_all.
    + by rewrite Permutation_app_comm.
    + apply Forall_forall. intros x Hx. apply negb_true_iff, Z.eqb_neq. rewrite strcmp_eq. intros Ex. apply Hm. rewrite Ex. by apply list_elem_of_fmap_2.
  - rewrite decide_True by done. apply elem_of_cons in Hj as [->|Hj]; [by rewrite strcmp_refl in E|]. cbn. constructor. by apply IH.
Qed.

(** C16: the virtual synchrony sets.  The message about a membership caused by
    the network lists the members of the group in the order of their daemons,
    the group id, and the sets: they partition the members, the daemons of a
    set came along with each other, a daemon that is partitioned has a set of
    its own, and so has a joiner, at the end; the sets are in the order of the
    memberships; the offset points at the set of the local daemon.  The length
    in the header is that of the data.

    All this only when the identifiers of the daemons' memberships can be
    compared ([vd_comparable] in [vs_daemons_ok]): the process numbers, and the
    times, of any two of them differ by less than 2^31.  Beyond that
    [G_compare_memb_ids] goes round in a circle ([memb_ids_circle]), sorting
    by it puts nothing together, and nothing is shown here. *)
Theorem memb_vs_message cn my_id g caused joiner :
  vs_daemons_ok (gr_DaemonsList g) ->
  (exists d, d ∈ gr_DaemonsList g /\ u32 (dm_proc_id d) = my_id) ->
  match joiner with Some j => j ∈ group_members (gr_DaemonsList g) | None => True end ->
  exists cl k c d,
    concat cl ≡ₚ gr_DaemonsList g /\ StronglySorted (fun d e => G_compare_daemon_vs_set cn d e < 0) (concat cl) /\ classes_ok cl /\
    cl !! k = Some c /\ d ∈ c /\ u32 (dm_proc_id d) = my_id /\
    let sets := (vs_set joiner <$> cl) ++ joiner_set joiner in
    let data := enc_group_id (gr_grp_id g) ++ enc32 (Z.of_nat (length sets))
                  ++ enc32 (Z.of_nat (length (vs_bytes (take k sets)))) ++ vs_bytes sets in
    concat sets ≡ₚ group_members (gr_DaemonsList g) /\
    G_build_memb_vs_buf cn my_id g caused joiner =
      inr (mkMessageHeader (u32 (Z.lor (Set_endian REG_MEMB_MESS) caused)) (gr_name g) (gr_num_members g) (Set_endian 0)
             (Z.of_nat (length data)),
           concat (group_members (gr_DaemonsList g)) ++ data).
Proof.
  intros Hok (d0 & Hd0 & Hmine) Hj. destruct (vs_sorted cn _ Hok) as [Hp Hs]. unfold G_build_memb_vs_buf. cbv zeta.
  set (temp := foldl _ [] (gr_DaemonsList g)) in *. cbn [G_build_memb_buf].
  destruct (vs_loop my_id joiner cn temp [] (mkVsSets [] None unknown_memb_id None false)) as (cl & v & Hv & Hi & Hc).
  - constructor; [|by intros d ?%elem_of_nil|done|by left]. constructor; [by intros c ?%elem_of_nil|done].
  - cbn. eapply vs_daemons_perm; [symmetry; exact Hp|done].
  - done.
  - cbn in Hc. rewrite Hv. cbn [rbind]. pose proof (vi_local _ _ _ _ Hi) as Hl. unfold local_ok in Hl.
    rewrite Hc in Hl. destruct (vs_local v) as [o|]; [|destruct (Hl d0); [by rewrite Hp|done]].
    destruct Hl as (k & c & d & Hk & Hd & Hm & ->). cbn [or_err rbind]. exists cl, k, c, d.
    split; [by rewrite Hc|]. split; [|split; [apply Hi|split; [done|split; [done|split; [done|]]]]].
    { rewrite Hc. eapply StronglySorted_impl_in; [|exact Hs]. intros x y Hx Hy Hxy. apply (vs_order_same cn x y); [..|exact Hxy];
        apply Hok; by rewrite <- Hp. }
    assert (Hsets : concat ((vs_set joiner <$> cl) ++ joiner_set joiner) ≡ₚ group_members (gr_DaemonsList g)).
    { rewrite concat_app, concat_vs_sets, Hc. etransitivity; [apply vs_sets_all|].
      - eapply vs_daemons_perm; [symmetry; exact Hp|done].
      - destruct joiner as [j|]; [|done]. by rewrite Hp.
      - by rewrite Hp. }
    cbv zeta. split; [exact Hsets|].
    assert (Hk' : take k ((vs_set joiner <$> cl) ++ joiner_set joiner) = vs_set joiner <$> take k cl).
    { rewrite take_app_le, fmap_take; [done|]. rewrite length_fmap. apply lookup_lt_Some in Hk. lia. }
    rewrite Hk'. assert (Hfin : (match joiner with
         | Some j => if negb (vs_found v) then inl (Fatal "G_build_memb_vs_buf: Expected to find joining member") else inr (vs_list v ++ [[j]])
         | None => inr (vs_list v) end : res _) = inr ((vs_set joiner <$> cl) ++ joiner_set joiner)).
    { rewrite (inv_list _ _ _ _ Hi). destruct joiner as [j|]; cbn [joiner_set]; [|by rewrite app_nil_r].
      rewrite (vi_found _ _ _ _ Hi), Hc, (found_joiner j temp); [done|by rewrite Hp]. }
    rewrite Hfin. cbn [rbind]. set (sets := (vs_set joiner <$> cl) ++ joiner_set joiner).
    f_equal. f_equal; [|by rewrite <- !app_assoc].
    unfold add_data_len. cbn [mh_type mh_private_group_name mh_num_groups mh_hint mh_data_len]. f_equal.
    rewrite !length_app.
    assert (H32 : forall z, length (enc32 z) = 4%nat) by done. rewrite !H32. change (length (enc_group_id (gr_grp_id g))) with 12%nat. unfold sizeof_group_id. lia.
Qed.

(** A group in which one of two daemons is partitioned; [b] has just joined. *)
Definition private (name proc_name : string) : list Z := strncpy (private_group (str_bytes name) (str_bytes proc_name)) MAX_GROUP_NAME.
Definition vs_group : group :=
  mkGroup (strncpy (str_bytes "room") MAX_GROUP_NAME) (mkGroupId (mkMembId 1 7) 3) true 3
    [mkDaemonMembers 1 (mkMembId 1 7) [private "a" "h1"; private "b" "h1"]; mkDaemonMembers 2 unknown_memb_id [private "c" "h2"]] [5; 6].

Lemma vs_group_ok : vs_daemons_ok (gr_DaemonsList vs_group).
Proof.
  constructor.
  - vm_compute. repeat constructor; set_solver.
  - apply (bool_decide_unpack _). vm_compute. exact I.
  - intros d [->|[->|Hd%elem_of_nil]%elem_of_cons]%elem_of_cons; [vm_compute; split; congruence..|done].
  - intros d e [->|[->|Hd%elem_of_nil]%elem_of_cons]%elem_of_cons [->|[->|He%elem_of_nil]%elem_of_cons]%elem_of_cons; try done.
    + right. right. vm_compute. repeat split; congruence.
    + right. by left.
    + by left.
    + by left.
Qed.

Lemma memb_vs_message_witness :
  (exists sets local,
     concat sets ≡ₚ [private "a" "h1"; private "b" "h1"; private "c" "h2"] /\
     G_build_memb_vs_buf no_config 1 vs_group CAUSED_BY_NETWORK (Some (private "b" "h1")) =
       inr (mkMessageHeader (u32 (Z.lor (Set_endian REG_MEMB_MESS) CAUSED_BY_NETWORK)) (gr_name vs_group) 3 (Set_endian 0)
              (Z.of_nat (20 + length (vs_bytes sets))),
            concat (group_members (gr_DaemonsList vs_group)) ++ enc_group_id (gr_grp_id vs_group)
              ++ enc32 (Z.of_nat (length sets)) ++ enc32 local ++ vs_bytes sets)) /\
  match G_build_memb_vs_buf no_config 1 vs_group CAUSED_BY_NETWORK (Some (private "b" "h1")) with
  | inr (_, b) => drop (96 + 12) b =
      enc32 3 ++ enc32 0 ++ enc_vs_set [private "a" "h1"] ++ enc_vs_set [private "c" "h2"] ++ enc_vs_set [private "b" "h1"]
  | inl _ => False
  end.
Proof.
  split; [|vm_compute; reflexivity].
  destruct (memb_vs_message no_config 1 vs_group CAUSED_BY_NETWORK (Some (private "b" "h1")) vs_group_ok)
    as (cl & k & c & d & _ & _ & _ & _ & _ & _ & Hp & Hb).
  - eexists. split; [by left|]. vm_compute. reflexivity.
  - apply list_elem_of_In. vm_compute. tauto.
  - eexists _, _. split; [exact Hp|]. rewrite Hb. f_equal.
Defined.
