(* ===== verification/GroupsBufs.v ===== *)
(** * The buffers of the GROUPS messages ([G_build_new_groups_bufs])

    The groups of a synced set are cut into buffers.  Every buffer fits a
    message, the daemons of a group may go on in the next buffer, each daemon
    is in one buffer, and the loop ends when no daemon has more members of a
    group than a buffer takes. *)

From Stdlib Require Import ZArith Lia.
From stdpp Require Import base strings numbers option gmap list.
From S2P Require Import Prelude Wire Bytes Config Events State Message Names Requests SessRead GroupState Skl Groups GroupsOk.

(** The members of one daemon and group that an empty buffer has room for. *)
Definition max_wire_members : Z :=
  (GROUPS_BUF_SIZE - GROUPS_BUF_PREAMBLE_SIZE - GROUPS_BUF_GROUP_INFO_SIZE - GROUPS_BUF_DAEMON_INFO_SIZE - sizeof_message_header)
  / MAX_GROUP_NAME.

Definition name_sized (m : list Z) : Prop := Z.of_nat (length m) = MAX_GROUP_NAME.
Record daemon_fits (d : daemon_members) : Prop := mkDaemonFits {
  df_members : Z.of_nat (length (dm_MembersList d)) <= max_wire_members;
  df_names : Forall name_sized (dm_MembersList d);
}.
Record group_fits (g : group) : Prop := mkGroupFits {
  gf_name : name_sized (gr_name g);
  gf_some : gr_DaemonsList g <> [];
  gf_daemons : Forall daemon_fits (gr_DaemonsList g);
}.

(** ** Cutting *)

(** What is written: a group and some of its daemons. *)
Definition part : Type := group * list daemon_members.
Definition whole (g : group) : part := (g, gr_DaemonsList g).

(** The daemons of each group are cut into consecutive pieces. *)
Inductive cut : list part -> list part -> Prop :=
| cut_nil : cut [] []
| cut_whole g ds ps qs : cut ps qs -> cut ((g, ds) :: ps) ((g, ds) :: qs)
| cut_here g ds ds' ps qs : cut ((g, ds') :: ps) qs -> cut ((g, ds ++ ds') :: ps) ((g, ds) :: qs).

Lemma cut_daemons ps qs : cut ps qs -> ps ≫= snd = qs ≫= snd.
Proof.
  induction 1 as [|g ds ps qs _ IH|g ds ds' ps qs _ IH]; cbn in *; [done|by rewrite IH|]. by rewrite <- IH, app_assoc.
Qed.

Lemma cut_refl ps : cut ps ps.
Proof. induction ps as [|[g ds] ps IH]; by constructor. Qed.

(** What the iterators have left. *)
Definition left_parts (l : list group) (dit : list daemon_members) : list part :=
  match l with [] => [] | g :: l => (g, dit) :: (whole <$> l) end.
Definition daemons_left (l : list group) (dit : list daemon_members) : nat := length (left_parts l dit ≫= snd).

Lemma left_parts_next l : left_parts l (iter_of l).2 = whole <$> l.
Proof. by destruct l. Qed.

Definition enc_part (p : part) : list Z := enc_group p.1 p.2.
Definition enc_parts (l : list part) : list Z := l ≫= enc_part.

(* --------------------------------------------------------------------- *)
(** ** Sizes *)

(** The sizes as numbers, for [lia]. *)
Ltac wire_sizes :=
  unfold name_sized in *; change MAX_GROUP_NAME with 32 in *; change GROUPS_BUF_DAEMON_INFO_SIZE with 14 in *;
  change GROUPS_BUF_GROUP_INFO_SIZE with 48 in *; change GROUPS_BUF_PREAMBLE_SIZE with 9 in *; change GROUPS_BUF_SIZE with 100000 in *;
  change sizeof_message_header with 48 in *; change max_wire_members with 3121 in *.

Lemma concat_names (l : list member) : Forall name_sized l -> Z.of_nat (length (concat l)) = MAX_GROUP_NAME * Z.of_nat (length l).
Proof.
  induction 1 as [|m l Hm Hl IH]; [done|]. cbn [concat length]. rewrite length_app. wire_sizes. lia.
Qed.
Lemma enc_daemon_length id d :
  Forall name_sized (dm_MembersList d) ->
  Z.of_nat (length (enc_daemon id d)) = GROUPS_BUF_DAEMON_INFO_SIZE + Z.of_nat (length (dm_MembersList d)) * MAX_GROUP_NAME.
Proof.
  intros H. unfold enc_daemon. rewrite !length_app, !Nat2Z.inj_add, (concat_names _ H).
  change (length (enc32 (dm_proc_id d))) with 4%nat. change (length (enc_memb_id id)) with 8%nat.
  change (length (enc16 _)) with 2%nat. wire_sizes. lia.
Qed.
Lemma enc_group_length g fit :
  name_sized (gr_name g) ->
  Z.of_nat (length (enc_group g fit)) =
    GROUPS_BUF_GROUP_INFO_SIZE + Z.of_nat (length (fit ≫= enc_daemon (gi_memb_id (gr_grp_id g)))).
Proof.
  intros H. unfold enc_group. rewrite !length_app, !Nat2Z.inj_add. unfold name_sized in H. rewrite H.
  change (length (enc_group_id _)) with 12%nat. change (length (enc16 _)) with 2%nat.
  change (length (enc16 _)) with 2%nat. wire_sizes. lia.
Qed.

(* --------------------------------------------------------------------- *)
(** ** One buffer *)

Lemma build_daemons_spec id l : forall n,
  Forall daemon_fits l ->
  exists fit rest, build_daemons id l n = inr (fit, rest) /\ l = fit ++ rest /\
    (n + sizeof_message_header <= GROUPS_BUF_SIZE ->
     n + Z.of_nat (length (fit ≫= enc_daemon id)) + sizeof_message_header <= GROUPS_BUF_SIZE) /\
    (n <= GROUPS_BUF_PREAMBLE_SIZE + GROUPS_BUF_GROUP_INFO_SIZE -> l <> [] -> fit <> []).
Proof.
  induction l as [|d l IH]; intros n Hl; cbn [build_daemons].
  { exists [], []. split; [done|]. split; [done|]. split; [cbn; lia|done]. }
  apply Forall_cons in Hl as [[Hm Hn] Hl]. pose proof (enc_daemon_length id d Hn) as Hlen.
  wire_sizes.
  destruct (Z.ltb_spec (100000 - n) (14 + Z.of_nat (length (dm_MembersList d)) * 32 + 48)) as [Hno|Hyes].
  { exists [], (d :: l). split; [done|]. split; [done|]. split; [cbn; lia|lia]. }
  rewrite u16_id, Z.eqb_refl by lia. cbn [negb].
  destruct (IH (n + Z.of_nat (length (enc_daemon id d))) Hl) as (fit & rest & H1 & -> & H2 & H3). rewrite H1. cbn [rbind].
  exists (d :: fit), rest. split; [done|]. split; [done|]. split; [|done]. intros _. cbn [mbind list_bind]. rewrite length_app. lia.
Qed.

Lemma build_groups_spec l : forall dit b,
  Forall group_fits l -> Forall daemon_fits dit -> (l <> [] -> dit <> []) ->
  Z.of_nat (length b) + sizeof_message_header <= GROUPS_BUF_SIZE ->
  exists parts l' dit', build_groups l dit b = inr (b ++ enc_parts parts, (l', dit')) /\
    Z.of_nat (length (b ++ enc_parts parts)) + sizeof_message_header <= GROUPS_BUF_SIZE /\
    (forall qs, cut (left_parts l' dit') qs -> cut (left_parts l dit) (parts ++ qs)) /\
    Forall group_fits l' /\ Forall daemon_fits dit' /\ (l' <> [] -> dit' <> []) /\
    (Z.of_nat (length b) <= GROUPS_BUF_PREAMBLE_SIZE -> l <> [] -> parts ≫= snd <> []).
Proof.
  induction l as [|g l IH]; intros dit b Hl Hd Hne Hb; cbn [build_groups].
  { exists [], [], dit. cbn [enc_parts mbind list_bind]. rewrite app_nil_r. done. }
  pose proof Hl as Hl0. apply Forall_cons in Hl as [[Hn Hs Hg] Hl].
  destruct (Z.ltb_spec (GROUPS_BUF_SIZE - Z.of_nat (length b)) (GROUPS_BUF_GROUP_INFO_SIZE + sizeof_message_header)) as [Hno|Hyes].
  { exists [], (g :: l), dit. cbn [enc_parts mbind list_bind]. rewrite app_nil_r. do 6 (split; [done|]). wire_sizes. lia. }
  destruct (build_daemons_spec (gi_memb_id (gr_grp_id g)) dit (Z.of_nat (length b) + GROUPS_BUF_GROUP_INFO_SIZE) Hd)
    as (fit & rest & H1 & -> & H2 & H3). rewrite H1. cbn [rbind].
  assert (Hlen : Z.of_nat (length (b ++ enc_group g fit)) + sizeof_message_header <= GROUPS_BUF_SIZE).
  { rewrite length_app, Nat2Z.inj_add, enc_group_length by done. wire_sizes. lia. }
  assert (Hfit : Z.of_nat (length b) <= GROUPS_BUF_PREAMBLE_SIZE -> g :: l <> [] -> fit <> []).
  { intros Hle _. apply H3; [wire_sizes; lia|by apply Hne]. }
  destruct rest as [|d rest].
  - destruct (IH (iter_of l).2 (b ++ enc_group g fit)) as (parts & l' & dit' & HE & HL & HC & HF & HD & HN & _); [done| | |done|].
    + destruct l as [|h l]; [constructor|]. by apply Forall_cons in Hl as [[_ _ ?] _].
    + destruct l as [|h l]; [done|]. intros _. by apply Forall_cons in Hl as [[_ ? _] _].
    + rewrite HE. exists ((g, fit) :: parts), l', dit'. cbn [enc_parts mbind list_bind enc_part fst snd]. rewrite app_assoc.
      split; [done|]. split; [done|]. split; [|split; [done|split; [done|split; [done|]]]].
      * intros qs Hq. rewrite app_nil_r. cbn [left_parts app]. apply cut_whole. rewrite <- left_parts_next. by apply HC.
      * intros Hle Hg' E. apply Hfit in Hle; [|done]. by apply app_eq_nil in E as [? _].
  - exists [(g, fit)], (g :: l), (d :: rest). cbn [enc_parts mbind list_bind enc_part fst snd]. rewrite !app_nil_r.
    split; [done|]. split; [done|]. split; [|split; [done|split; [by apply Forall_app in Hd as [_ ?]|split; [done|done]]]].
    intros qs Hq. cbn [left_parts app] in *. by apply cut_here.
Qed.

(* --------------------------------------------------------------------- *)
(** ** All the buffers *)

Section bufs.
Context (s : groups_state).

Definition buf_of (p : bool * list part) : buf := preamble p.1 s ++ enc_parts p.2.
Definition buf_fits (b : buf) : Prop := Z.of_nat (length b) + sizeof_message_header <= GROUPS_BUF_SIZE.

Lemma preamble_later : Z.of_nat (length (preamble false s)) = GROUPS_BUF_PREAMBLE_SIZE.
Proof. done. Qed.

Lemma build_bufs_later fuel : forall l dit bufs,
  Forall group_fits l -> Forall daemon_fits dit -> l <> [] -> dit <> [] -> (daemons_left l dit < fuel)%nat ->
  exists cuts, build_bufs fuel (l, dit) false bufs s = inr (reverse (buf_of <$> (pair false <$> cuts)) ++ bufs) /\
    Forall buf_fits (buf_of <$> (pair false <$> cuts)) /\ cut (left_parts l dit) (concat cuts).
Proof.
  induction fuel as [|fuel IH]; intros l dit bufs Hl Hd Hne Hdne Hf; [lia|]. cbn [build_bufs]. unfold G_build_groups_buf. cbn [fst snd].
  pose proof preamble_later as Hpl.
  destruct (build_groups_spec l dit (preamble false s) Hl Hd) as (parts & l' & dit' & HE & HL & HC & HF & HD & HN & HP);
    [done|rewrite Hpl; done|]. rewrite HE. cbn [rbind fst].
  destruct l' as [|g' l'].
  - exists [parts]. split; [done|]. split; [by repeat constructor|]. cbn [concat]. apply HC. constructor.
  - assert (Hsplit : (daemons_left (g' :: l') dit' < daemons_left l dit)%nat).
    { pose proof (HC _ (cut_refl _)) as Hcut. apply cut_daemons in Hcut. unfold daemons_left. rewrite Hcut, bind_app, length_app.
      assert (Hp : parts ≫= snd <> []) by (by apply HP; [rewrite Hpl|]). destruct (parts ≫= snd); [done|cbn; lia]. }
    destruct (IH (g' :: l') dit' ((preamble false s ++ enc_parts parts) :: bufs)) as (cuts & H1 & H2 & H3); [done|done|done|by apply HN|lia|].
    exists (parts :: cuts). rewrite H1. cbn [fmap list_fmap concat]. rewrite reverse_cons, <- app_assoc. split; [done|].
    split; [by constructor|]. by apply HC.
Qed.
End bufs.

(** The groups can be sent: the names are as long as the wire has them, the
    daemons have members that a buffer has room for, and the synced set is
    within its array. *)
Record sendable_groups (s : groups_state) : Prop := mkSendableGroups {
  sg_groups : Forall group_fits (GroupsList s);
  sg_synced : Z.of_nat (length (MySyncedSet s)) <= MAX_PROCS_RING;
}.

Lemma bufs_built s :
  sendable_groups s ->
  exists parts cuts,
    let bufs := buf_of s (true, parts) :: (buf_of s <$> (pair false <$> cuts)) in
    build_bufs (bufs_fuel s) ([], []) true (Groups_bufs s) s = inr (reverse bufs ++ Groups_bufs s) /\
    Forall buf_fits bufs /\ cut (whole <$> GroupsList s) (parts ++ concat cuts).
Proof.
  intros [Hg Hs]. unfold bufs_fuel. cbn [build_bufs]. unfold G_build_groups_buf.
  assert (Hpre : Z.of_nat (length (preamble true s)) + sizeof_message_header <= GROUPS_BUF_SIZE).
  { unfold preamble. rewrite length_app. cbn [length]. rewrite length_app, length_enc32s. change (length (enc_memb_id _)) with 8%nat.
    change (length (enc32 _)) with 4%nat. change MAX_PROCS_RING with 128 in *. wire_sizes. lia. }
  assert (Hdit : Forall daemon_fits (iter_of (GroupsList s)).2 /\ (GroupsList s <> [] -> (iter_of (GroupsList s)).2 <> [])).
  { destruct (GroupsList s) as [|g l]; [by split; [constructor|]|]. apply Forall_cons in Hg as [[_ ? ?] _]. by split. }
  destruct (build_groups_spec (GroupsList s) (iter_of (GroupsList s)).2 (preamble true s) Hg)
    as (parts & l' & dit' & HE & HL & HC & HF & HD & HN & _); [apply Hdit|apply Hdit|done|].
  change (iter_of (GroupsList s)).1 with (GroupsList s). rewrite HE. cbn [rbind fst].
  rewrite left_parts_next in HC. destruct l' as [|g' l'].
  - exists parts, []. split; [done|]. split; [by repeat constructor|]. apply HC. constructor.
  - pose proof (HC _ (cut_refl _)) as Hcut. apply cut_daemons in Hcut. rewrite bind_app in Hcut.
    destruct (build_bufs_later s (S (length (GroupsList s ≫= gr_DaemonsList))) (g' :: l') dit'
                ((preamble true s ++ enc_parts parts) :: Groups_bufs s)) as (cuts & H1 & H2 & H3); [done|done|done|by apply HN| |].
    + unfold daemons_left. assert (Hw : (whole <$> GroupsList s) ≫= snd = GroupsList s ≫= gr_DaemonsList) by apply list_fmap_bind.
      rewrite <- Hw, Hcut, length_app. lia.
    + exists parts, cuts. cbv zeta. rewrite reverse_cons, <- app_assoc. split; [exact H1|]. split; [by constructor|]. by apply HC.
Qed.

(** C19: the buffers of the GROUPS messages.  When no daemon has more members
    of a group than a buffer takes, [G_build_new_groups_bufs] ends without an
    alarm; each buffer leaves room for the message header, the first one holds
    the synced set, and together they hold the groups in order, the daemons of
    each group cut into consecutive pieces, every daemon in one piece. *)
Theorem groups_bufs_end s :
  sendable_groups s ->
  exists parts cuts,
    let bufs := buf_of s (true, parts) :: (buf_of s <$> (pair false <$> cuts)) in
    G_build_new_groups_bufs s = inr (set_Groups_bufs (reverse bufs ++ Groups_bufs s) s) /\
    Forall buf_fits bufs /\ cut (whole <$> GroupsList s) (parts ++ concat cuts).
Proof.
  intros Hs. destruct (bufs_built s Hs) as (parts & cuts & H1 & H2 & H3). exists parts, cuts. cbv zeta.
  unfold G_build_new_groups_bufs. rewrite H1. done.
Qed.

(** A group whose daemons have 2000 members each: two buffers. *)
Definition crowd (n : nat) : list member := (fun i => resize 32 0 [35; 65 + Z.of_nat i / 60; 65 + Z.of_nat i mod 60; 35; 104]) <$> seq 0 n.
Definition crowded (n : nat) : groups_state :=
  set_GroupsList [mkGroup (strncpy (str_bytes "room") MAX_GROUP_NAME) (mkGroupId (mkMembId 1 7) 3) false (2 * Z.of_nat n)
    [mkDaemonMembers 1 (mkMembId 1 7) (crowd n); mkDaemonMembers 2 (mkMembId 1 7) (crowd n)] []]
    (set_MySyncedSet [1; 2] no_groups).

Lemma crowd_sized n : Forall name_sized (crowd n) /\ length (crowd n) = n.
Proof.
  unfold crowd. split; [|by rewrite length_fmap, length_seq]. apply Forall_fmap, Forall_forall. intros i _. unfold name_sized.
  cbn [compose]. by rewrite length_resize.
Qed.

Lemma groups_bufs_end_witness :
  (exists bufs, G_build_new_groups_bufs (crowded 2000) = inr (set_Groups_bufs bufs (crowded 2000)) /\ Forall buf_fits bufs) /\
  match G_build_new_groups_bufs (crowded 2000) with
  | inr s => (fun b => Z.of_nat (length b)) <$> Groups_bufs s = [64071; 64083]
  | inl _ => False
  end.
Proof.
  split; [|vm_compute; reflexivity].
  assert (Hok : sendable_groups (crowded 2000)).
  { destruct (crowd_sized 2000) as [Hs Hl]. constructor; [|vm_compute; congruence]. apply Forall_singleton. constructor; [reflexivity|discriminate|].
    assert (Hd : forall d, dm_MembersList d = crowd 2000 -> daemon_fits d).
    { intros d Hd. constructor; rewrite Hd; [rewrite Hl; vm_compute; congruence|exact Hs]. }
    apply Forall_cons. split; [apply Hd; reflexivity|]. apply Forall_singleton. apply Hd; reflexivity. }
  assert (Hb : Groups_bufs (crowded 2000) = []) by reflexivity.
  destruct (groups_bufs_end (crowded 2000) Hok) as (parts & cuts & H1 & H2 & _). rewrite Hb, app_nil_r in H1.
  exists (reverse (buf_of (crowded 2000) (true, parts) :: (buf_of (crowded 2000) <$> (pair false <$> cuts)))). split; [exact H1|].
  apply Forall_reverse. exact H2.
Defined.
