(* ===== verification/GroupsMerge.v ===== *)
(** * Reading GROUPS messages ([G_mess_to_groups])

    What one daemon writes another one reads: the messages of a synced set,
    however its groups were cut into buffers, add exactly its groups, daemons
    and members to those of the reader, and say who is in the synced set. *)

From Stdlib Require Import ZArith Lia Sorting.Sorted.
From stdpp Require Import base strings numbers option gmap list sorting.
From S2P Require Import Prelude Wire Bytes Config Events State Packing EndToEnd Message Names MembCore Requests SessRead GroupState Skl Groups GroupsOk GroupsBufs.

(** ** Fields *)

Section fields.
Implicit Types (bs a c : list Z).

Lemma take_bytes_app site n a bs : Z.of_nat (length a) = n -> take_bytes site n (a ++ bs) = inr (a, bs).
Proof.
  intros <-. unfold take_bytes. rewrite (proj2 (Z.ltb_ge _ _)) by (rewrite length_app; lia).
  by rewrite Nat2Z.id, take_app_length, drop_app_length.
Qed.

Lemma field32 a z c o : Z.of_nat (length a) = o -> get_s32 (a ++ enc32 z ++ c) o = s32 z.
Proof. intros Ho. apply get_s32_enc. intros i Hi. by apply get_byte_mid. Qed.
Lemma field16 a z c o : Z.of_nat (length a) = o -> get_u16 (a ++ enc16 z ++ c) o = u16 z.
Proof. intros Ho. apply (get_u16_enc []). intros i Hi. by apply get_byte_mid. Qed.

Definition int32_memb (m : membership_id) : Prop := - 2 ^ 31 <= mi_proc_id m < 2 ^ 31 /\ - 2 ^ 31 <= mi_time m < 2 ^ 31.
Definition int32_group (g : group_id) : Prop := int32_memb (gi_memb_id g) /\ - 2 ^ 31 <= gi_index g < 2 ^ 31.

Lemma field_memb a m c o : Z.of_nat (length a) = o -> int32_memb m -> get_memb_id true (a ++ enc_memb_id m ++ c) o = m.
Proof.
  intros Ho [Hp Ht]. unfold get_memb_id, enc_memb_id. cbn [in_order32]. rewrite <- app_assoc.
  rewrite field32 by done. rewrite (app_assoc a), field32 by (rewrite length_app; cbn; lia).
  rewrite !s32_id by done. by destruct m.
Qed.
End fields.

(* --------------------------------------------------------------------- *)
(** ** One part of a buffer *)

Section part.
Context (cn : configuration).
Implicit Types (g h : group) (d : daemon_members) (bs : list Z).

(** A daemon as it is sent: with the membership of its group. *)
Definition sent_daemon g d : daemon_members := mkDaemonMembers (dm_proc_id d) (gi_memb_id (gr_grp_id g)) (dm_MembersList d).
(** A daemon that was read is added to a group. *)
Definition add_daemon h d : group :=
  let h := put_daemon cn d h in
  let h := set_gr_changed (gr_changed h || negb (Memb_is_equal (dm_memb_id d) (gi_memb_id (gr_grp_id h)))) h in
  set_gr_num_members (gr_num_members h + Z.of_nat (length (dm_MembersList d))) h.
Definition add_daemons h (l : list daemon_members) : group := foldl add_daemon h l.

(** What one part does to the groups of the reader. *)
Definition known g (s : groups_state) : group * groups_state :=
  match G_get_group (gr_name g) (GroupsList s) with
  | Some h => (h, s)
  | None =>
      let h := mkGroup (gr_name g) (gr_grp_id g) false 0 [] [] in
      (h, set_Num_groups (Num_groups s + 1) (set_GroupsList (put_new_group h (GroupsList s)) s))
  end.
Definition merge_part (s : groups_state) (p : part) : groups_state :=
  let '(h, s) := known p.1 s in
  let h := add_daemons (set_gr_changed (gr_changed h || gr_changed p.1) h) (sent_daemon p.1 <$> p.2) in
  set_GroupsList (write_group h (GroupsList s)) s.

Lemma read_members_spec (ms : list member) : forall bs l,
  Forall name_sized ms -> skl_ok id G_compare_nameptr (l ++ ms) -> read_members (length ms) (concat ms ++ bs) l = inr (l ++ ms, bs).
Proof.
  induction ms as [|m ms IH]; intros bs l Hs Hok; cbn [length read_members concat app]; [by rewrite app_nil_r|].
  apply Forall_cons in Hs as [Hm Hs]. rewrite <- app_assoc, take_bytes_app by done. cbn [rbind].
  rewrite (skl_put_end_last id G_compare_nameptr).
  - rewrite IH; [by rewrite <- app_assoc|done|]. by rewrite <- app_assoc.
  - apply (skl_ok_app id G_compare_nameptr) in Hok as (_ & _ & H). intros y Hy. apply H; [done|by left].
Qed.

(** What a daemon must be for its part to be read back. *)
Record daemon_readable d : Prop := mkDaemonReadable {
  dr_fits : daemon_fits d;
  dr_id : - 2 ^ 31 <= dm_proc_id d < 2 ^ 31;
  dr_sorted : skl_ok id G_compare_nameptr (dm_MembersList d);
}.

Lemma read_daemons_spec g (fit : list daemon_members) : forall bs h,
  Forall daemon_readable fit -> int32_memb (gi_memb_id (gr_grp_id g)) ->
  read_daemons cn true (length fit) ((fit ≫= enc_daemon (gi_memb_id (gr_grp_id g))) ++ bs) h =
    inr (add_daemons h (sent_daemon g <$> fit), bs).
Proof.
  induction fit as [|d fit IH]; intros bs h Hf Hi; cbn [length read_daemons mbind list_bind fmap list_fmap]; [done|].
  apply Forall_cons in Hf as [[[Hn Hs] Hid Hso] Hf]. unfold enc_daemon at 1. set (m := gi_memb_id (gr_grp_id g)) in *.
  set (n := Z.of_nat (length (dm_MembersList d))) in *.
  replace (((enc32 (dm_proc_id d) ++ enc_memb_id m ++ enc16 n ++ concat (dm_MembersList d)) ++ (fit ≫= enc_daemon m)) ++ bs)
    with ((enc32 (dm_proc_id d) ++ enc_memb_id m ++ enc16 n) ++ concat (dm_MembersList d) ++ (fit ≫= enc_daemon m) ++ bs)
    by by rewrite <- !app_assoc.
  rewrite take_bytes_app by done. cbn [rbind]. cbv zeta.
  rewrite field_memb by done. rewrite (app_assoc (enc32 _)), <- (app_nil_r (enc16 n)), field16 by done. cbn [in_order16].
  change max_wire_members with 3121 in Hn. rewrite u16_id by (unfold n; lia). unfold n at 1. rewrite Nat2Z.id.
  rewrite read_members_spec by done. cbn [app rbind].
  rewrite app_nil_r, <- app_assoc, get_s32_enc32, s32_id by done. cbn [in_order32].
  rewrite IH by done. done.
Qed.

Record group_readable g : Prop := mkGroupReadable {
  gd_name : padded (gr_name g);
  gd_id : int32_group (gr_grp_id g);
  gd_daemons : Forall daemon_readable (gr_DaemonsList g);
}.
Definition part_readable (p : part) : Prop :=
  padded (gr_name p.1) /\ int32_group (gr_grp_id p.1) /\ Forall daemon_readable p.2 /\ Z.of_nat (length p.2) < 2 ^ 16.

Lemma strcpy_padded site a : padded a -> strcpy_name site a = inr a.
Proof. intros [Ha Hl]. unfold strcpy_name. rewrite (proj2 (Z.leb_gt _ _)) by done. by rewrite <- Ha. Qed.

Lemma read_groups_step fuel same bs s :
  bs <> [] -> read_groups (S fuel) same bs s = ltac:(let t := eval cbn [read_groups] in (read_groups (S fuel) same bs s) in
    match t with match _ with [] => _ | _ :: _ => ?e end => exact e end).
Proof. by destruct bs. Qed.

(** The fields in front of the daemons. *)
Definition group_head g (n : Z) : list Z := gr_name g ++ enc_group_id (gr_grp_id g) ++ enc16 (cbool (gr_changed g)) ++ enc16 n.

Lemma group_head_fields g n :
  padded (gr_name g) -> int32_group (gr_grp_id g) -> 0 <= n < 2 ^ 16 ->
  let b := group_head g n in
  Z.of_nat (length b) = GROUPS_BUF_GROUP_INFO_SIZE /\ take (Z.to_nat MAX_GROUP_NAME) b = gr_name g /\
  mkGroupId (get_memb_id true b MAX_GROUP_NAME) (get_s32 b (MAX_GROUP_NAME + 8)) = gr_grp_id g /\
  truth (get_u16 b (MAX_GROUP_NAME + sizeof_group_id)) = gr_changed g /\ get_u16 b (MAX_GROUP_NAME + sizeof_group_id + 2) = n.
Proof.
  intros Hn [Hm Hi] Hr b. apply padded_length in Hn. assert (Hl : Z.of_nat (length (gr_name g)) = 32) by (rewrite Hn; done).
  unfold b, group_head. change MAX_GROUP_NAME with 32 in *. change sizeof_group_id with 12.
  split; [rewrite !length_app, !Nat2Z.inj_add, Hl; done|]. split; [by rewrite <- Hn, take_app_length|].
  unfold enc_group_id. split; [|split].
  - rewrite <- app_assoc, field_memb by done. rewrite (app_assoc (gr_name g)), field32 by (rewrite length_app, Nat2Z.inj_add, Hl; done).
    rewrite s32_id by done. by destruct (gr_grp_id g).
  - rewrite (app_assoc (gr_name g)), field16 by (rewrite !length_app, !Nat2Z.inj_add, Hl; done). by destruct (gr_changed g).
  - rewrite (app_assoc (gr_name g)), (app_assoc (_ ++ _)), <- (app_nil_r (enc16 n)), field16
      by (rewrite !length_app, !Nat2Z.inj_add, Hl; done). by apply u16_id.
Qed.

Lemma read_part fuel p bs s :
  part_readable p -> Cn_active s = cn ->
  read_groups (S fuel) true (enc_part p ++ bs) s = read_groups fuel true bs (merge_part s p).
Proof.
  destruct p as [g fit]. intros (Hn & Hi & Hf & Hl) Hcn. cbn [fst snd] in *.
  assert (Hb : enc_part (g, fit) ++ bs = group_head g (Z.of_nat (length fit)) ++ (fit ≫= enc_daemon (gi_memb_id (gr_grp_id g))) ++ bs).
  { unfold enc_part, enc_group, group_head. cbn [fst snd]. by rewrite <- !app_assoc. }
  destruct (group_head_fields g (Z.of_nat (length fit)) Hn Hi) as (H1 & H2 & H3 & H4 & H5); [lia|].
  set (b := group_head g (Z.of_nat (length fit))) in *. rewrite Hb, read_groups_step.
  2: { intros E. apply app_eq_nil in E as [E _]. by rewrite E in H1. }
  rewrite take_bytes_app by done. cbn [rbind]. rewrite H2, H4, H5. cbn [in_order16 in_order32]. rewrite Nat2Z.id.
  assert (Hk : (match G_get_group (gr_name g) (GroupsList s) with
     | Some h => inr (h, s)
     | None => let? name := strcpy_name "G_mess_to_groups: strcpy" (gr_name g) in
               let id := mkGroupId (get_memb_id true b MAX_GROUP_NAME) (in_order32 true (get_s32 b (MAX_GROUP_NAME + 8))) in
               let h := mkGroup name id false 0 [] [] in
               inr (h, set_Num_groups (Num_groups s + 1) (set_GroupsList (put_new_group h (GroupsList s)) s))
     end : res _) = inr (known g s)).
  { unfold known. destruct (G_get_group _ _); [done|]. rewrite strcpy_padded by done. cbn [rbind in_order32]. by rewrite H3. }
  cbn [in_order32] in Hk. rewrite Hk. cbn [rbind]. unfold merge_part. cbn [fst snd]. destruct (known g s) as [h s'] eqn:Eks. cbn [rbind].
  assert (Hcn' : Cn_active s' = cn).
  { unfold known in Eks. destruct (G_get_group _ _); by injection Eks as <- <-. }
  rewrite Hcn', read_daemons_spec by (done || apply Hi). done.
Qed.

Lemma merge_part_conf s p : Cn_active (merge_part s p) = Cn_active s.
Proof. unfold merge_part, known. destruct (G_get_group _ _); done. Qed.

Lemma read_parts fuel ps : forall s,
  Forall part_readable ps -> Cn_active s = cn -> (length ps <= fuel)%nat ->
  read_groups fuel true (enc_parts ps) s = inr (foldl merge_part s ps).
Proof.
  revert fuel. induction ps as [|p ps IH]; intros fuel s Hp Hcn Hf; cbn [enc_parts mbind list_bind foldl].
  { by destruct fuel. }
  destruct fuel as [|fuel]; [cbn in Hf; lia|]. apply Forall_cons in Hp as [Hp Hps]. rewrite read_part by done.
  apply IH; [done|by rewrite merge_part_conf|cbn in Hf; lia].
Qed.
End part.

(* --------------------------------------------------------------------- *)
(** ** Merging *)

Section merge.
Context (cn : configuration).
Implicit Types (g h : group) (s : groups_state) (n : list Z).

Definition new_of g : group := mkGroup (gr_name g) (gr_grp_id g) false 0 [] [].
(** The group [o] of the reader, or a new one, with the daemons of a part. *)
Definition merged (o : option group) (p : part) : group :=
  let h := default (new_of p.1) o in
  add_daemons cn (set_gr_changed (gr_changed h || gr_changed p.1) h) (sent_daemon p.1 <$> p.2).

Lemma add_daemons_keeps l : forall h, let h' := add_daemons cn h l in
  gr_name h' = gr_name h /\ gr_grp_id h' = gr_grp_id h /\ gr_mboxes h' = gr_mboxes h.
Proof.
  induction l as [|d l IH]; intros h; [done|]. unfold add_daemons in *. cbv zeta in *. cbn [foldl]. destruct (IH (add_daemon cn h d)) as (-> & -> & ->). done.
Qed.
Lemma merged_name o p : (forall h, o = Some h -> G_compare_nameptr (gr_name p.1) (gr_name h) = 0) ->
  G_compare_nameptr (gr_name p.1) (gr_name (merged o p)) = 0.
Proof.
  intros Ho. unfold merged. destruct (add_daemons_keeps (sent_daemon p.1 <$> p.2)
    (set_gr_changed (gr_changed (default (new_of p.1) o) || gr_changed p.1) (default (new_of p.1) o))) as (-> & _).
  cbn. destruct o as [h|]; cbn; [by apply Ho|apply compare_name_refl].
Qed.

(** The groups after one part. *)
Lemma merge_part_get s p n :
  names_ok (GroupsList s) ->
  names_ok (GroupsList (merge_part cn s p)) /\
  G_get_group n (GroupsList (merge_part cn s p)) =
    if G_compare_nameptr n (gr_name p.1) =? 0 then Some (merged (G_get_group n (GroupsList s)) p) else G_get_group n (GroupsList s).
Proof.
  intros Hs. unfold merge_part, known. set (o := G_get_group (gr_name p.1) (GroupsList s)).
  assert (Hn : forall h, o = Some h -> G_compare_nameptr (gr_name p.1) (gr_name h) = 0) by (intros h Hh; by apply get_group_names in Hh as [_ ?]).
  pose proof (merged_name o p Hn) as Hm. fold (new_of p.1).
  assert (Hg : G_compare_nameptr n (gr_name p.1) = 0 -> G_get_group n (GroupsList s) = o) by (intros E; by apply get_group_same).
  destruct o as [h|] eqn:Eo; cbn [GroupsList set_GroupsList set_Num_groups].
  - change (add_daemons cn (set_gr_changed (gr_changed h || gr_changed p.1) h) (sent_daemon p.1 <$> p.2)) with (merged (Some h) p).
    split; [by apply write_names|]. rewrite get_write, <- (compare_name_ext_r n _ _ Hm).
    destruct (Z.eqb_spec (G_compare_nameptr n (gr_name p.1)) 0) as [E|E]; [by rewrite Hg|]. by destruct (G_get_group n _).
  - change (add_daemons cn (set_gr_changed (gr_changed (new_of p.1) || gr_changed p.1) (new_of p.1)) (sent_daemon p.1 <$> p.2)) with (merged None p).
    split; [by apply write_names, put_new_names|]. rewrite get_write, <- (compare_name_ext_r n _ _ Hm), get_put_new by done. cbn [gr_name new_of].
    destruct (Z.eqb_spec (G_compare_nameptr n (gr_name p.1)) 0) as [E|E]; [by rewrite Hg|]. by destruct (G_get_group n _).
Qed.

(** Only the groups and their number change. *)
Definition with_groups (l : list group) (k : Z) s : groups_state := set_Num_groups k (set_GroupsList l s).
Lemma merge_part_frame s p :
  merge_part cn s p = with_groups (GroupsList (merge_part cn s p))
    (Num_groups s + match G_get_group (gr_name p.1) (GroupsList s) with Some _ => 0 | None => 1 end) s.
Proof.
  unfold merge_part, known, with_groups. destruct (G_get_group (gr_name p.1) (GroupsList s)) as [h|]; [|done]. cbn. rewrite Z.add_0_r. by destruct s.
Qed.

Lemma add_daemons_app h l l' : add_daemons cn h (l ++ l') = add_daemons cn (add_daemons cn h l) l'.
Proof. apply foldl_app. Qed.

(** A group whose daemons come in two pieces. *)
Lemma merged_split o g a b : merged (Some (merged o (g, a))) (g, b) = merged o (g, a ++ b).
Proof.
  unfold merged. cbn [fst snd default]. set (h := default (new_of g) o). set (h0 := set_gr_changed (gr_changed h || gr_changed g) h).
  rewrite fmap_app, add_daemons_app. set (h1 := add_daemons cn h0 (sent_daemon g <$> a)). f_equal.
  assert (Hc : gr_changed g = true -> gr_changed h1 = true).
  { intros E. assert (H0 : gr_changed h0 = true) by (unfold h0; cbn; by rewrite E, orb_true_r). unfold h1. clear -H0.
    generalize (sent_daemon g <$> a) as l. revert H0. generalize h0 as x. intros x Hx l. revert x Hx.
    induction l as [|d l IH]; intros x Hx; [done|]. unfold add_daemons in *. cbn [foldl]. apply IH. cbn. by rewrite Hx. }
  destruct h1 as [n1 i1 c1 k1 d1 m1]. cbn in *. unfold set_gr_changed. cbn. f_equal. destruct (gr_changed g); [by rewrite Hc|by rewrite orb_false_r].
Qed.

Lemma groups_state_ext s s' (s0 : groups_state) (k : Z) : names_ok (GroupsList s) -> names_ok (GroupsList s') ->
  (forall n, G_get_group n (GroupsList s) = G_get_group n (GroupsList s')) ->
  s = with_groups (GroupsList s) k s0 -> s' = with_groups (GroupsList s') k s0 -> s = s'.
Proof. intros H1 H2 He E E'. rewrite E, E'. by rewrite (groups_list_ext _ _ H1 H2 He). Qed.

Lemma merge_split s g a b : names_ok (GroupsList s) -> merge_part cn (merge_part cn s (g, a)) (g, b) = merge_part cn s (g, a ++ b).
Proof.
  intros Hs. destruct (merge_part_get s (g, a) (gr_name g) Hs) as [Hn1 Hg1]. cbn [fst] in Hg1. rewrite compare_name_refl in Hg1. cbn [Z.eqb] in Hg1.
  destruct (merge_part_get (merge_part cn s (g, a)) (g, b) (gr_name g) Hn1) as [Hn2 _].
  destruct (merge_part_get s (g, a ++ b) (gr_name g) Hs) as [Hn3 _].
  apply (groups_state_ext _ _ s (Num_groups s + match G_get_group (gr_name g) (GroupsList s) with Some _ => 0 | None => 1 end));
    [done|done| | |exact (merge_part_frame s (g, a ++ b))].
  - intros n. rewrite (proj2 (merge_part_get _ (g, b) n Hn1)), (proj2 (merge_part_get s (g, a) n Hs)), (proj2 (merge_part_get s (g, a ++ b) n Hs)).
    cbn [fst]. destruct (Z.eqb_spec (G_compare_nameptr n (gr_name g)) 0) as [E|E]; [|done]. by rewrite merged_split.
  - etransitivity; [exact (merge_part_frame (merge_part cn s (g, a)) (g, b))|]. cbn [fst]. rewrite Hg1, Z.add_0_r.
    generalize (GroupsList (merge_part cn (merge_part cn s (g, a)) (g, b))) as l. intros l. rewrite merge_part_frame. done.
Qed.

(** It does not matter where the groups were cut. *)
Lemma merge_cut ps qs : cut ps qs -> forall s, names_ok (GroupsList s) -> foldl (merge_part cn) s qs = foldl (merge_part cn) s ps.
Proof.
  induction 1 as [|g ds ps qs _ IH|g ds ds' ps qs _ IH]; intros s Hs; [done| |]; cbn [foldl].
  - apply IH. by apply (merge_part_get s (g, ds) []).
  - rewrite IH by (by apply (merge_part_get s (g, ds) [])). cbn [foldl]. by rewrite merge_split.
Qed.

(** All the groups of the sender. *)
Lemma merge_groups_get l : forall s n, names_ok l -> names_ok (GroupsList s) ->
  let s' := foldl (merge_part cn) s (whole <$> l) in
  names_ok (GroupsList s') /\
  G_get_group n (GroupsList s') =
    match G_get_group n l with Some g => Some (merged (G_get_group n (GroupsList s)) (whole g)) | None => G_get_group n (GroupsList s) end.
Proof.
  induction l as [|g l IH]; intros s n Hl Hs; [done|]. cbn [fmap list_fmap foldl]. cbv zeta.
  apply (skl_ok_cons gr_name G_compare_nameptr) in Hl as [Hl Hg].
  destruct (merge_part_get s (whole g) n Hs) as [Hs1 Hg1]. destruct (IH (merge_part cn s (whole g)) n Hl Hs1) as [H1 H2].
  split; [done|]. rewrite H2, Hg1. cbn [whole fst]. change (G_get_group n (g :: l)) with
    (if 0 <? G_compare_nameptr n (gr_name g) then G_get_group n l else if G_compare_nameptr n (gr_name g) =? 0 then Some g else None).
  assert (Hlater : G_compare_nameptr n (gr_name g) <= 0 -> G_get_group n l = None).
  { intros Hle. apply get_group_None; [done|]. intros h Hh. rewrite Forall_forall in Hg. specialize (Hg h Hh). unfold key_lt in Hg.
    destruct (Z.eq_dec (G_compare_nameptr n (gr_name g)) 0) as [E|E]; [rewrite (compare_name_ext _ _ _ E); lia|].
    pose proof (cmp_lt_trans G_compare_nameptr n (gr_name g) (gr_name h)). lia. }
  destruct (Z.ltb_spec 0 (G_compare_nameptr n (gr_name g))) as [Hlt|Hge].
  - by rewrite (proj2 (Z.eqb_neq _ _)) by lia.
  - rewrite (Hlater Hge). destruct (_ =? 0); done.
Qed.
End merge.

(* --------------------------------------------------------------------- *)
(** ** What a merged group is *)

Section explicit.
Context (cn : configuration).
Implicit Types (g h : group) (d : daemon_members).

Definition members_of (l : list daemon_members) : Z := Z.of_nat (length (group_members l)).
(** The group as it is at a daemon that did not know it. *)
Definition received g : group :=
  mkGroup (gr_name g) (gr_grp_id g) (gr_changed g) (members_of (gr_DaemonsList g)) (sent_daemon g <$> gr_DaemonsList g) [].
(** The group of the reader with the daemons of the sender. *)
Definition joined h g : group :=
  mkGroup (gr_name h) (gr_grp_id h)
    (gr_changed h || gr_changed g || negb (Memb_is_equal (gi_memb_id (gr_grp_id g)) (gi_memb_id (gr_grp_id h))))
    (gr_num_members h + members_of (gr_DaemonsList g))
    (foldl (fun l d => skl_put dm_proc_id (G_compare_proc_ids_by_conf cn) d l) (gr_DaemonsList h) (sent_daemon g <$> gr_DaemonsList g))
    (gr_mboxes h).

Lemma group_members_cons d l : group_members (d :: l) = dm_MembersList d ++ group_members l.
Proof. done. Qed.
Lemma members_of_cons d l : members_of (d :: l) = Z.of_nat (length (dm_MembersList d)) + members_of l.
Proof. unfold members_of. rewrite group_members_cons, length_app. lia. Qed.

Lemma add_sent_daemons g (l : list daemon_members) : forall h,
  add_daemons cn h (sent_daemon g <$> l) =
  mkGroup (gr_name h) (gr_grp_id h)
    (gr_changed h || (negb (empty l) && negb (Memb_is_equal (gi_memb_id (gr_grp_id g)) (gi_memb_id (gr_grp_id h)))))
    (gr_num_members h + members_of l)
    (foldl (fun l d => skl_put dm_proc_id (G_compare_proc_ids_by_conf cn) d l) (gr_DaemonsList h) (sent_daemon g <$> l)) (gr_mboxes h).
Proof.
  induction l as [|d l IH]; intros h.
  { cbn. unfold members_of. cbn. rewrite orb_false_r, Z.add_0_r. by destruct h. }
  rewrite members_of_cons. cbn [fmap list_fmap]. unfold add_daemons in *. cbn [foldl]. rewrite IH. cbn. f_equal; [|lia].
  destruct (Memb_is_equal _ _); cbn; [by rewrite andb_false_r, !orb_false_r|]. by rewrite !orb_true_r.
Qed.

Lemma sent_sorted g (l : list daemon_members) :
  skl_ok dm_proc_id (G_compare_proc_ids_by_conf cn) l -> skl_ok dm_proc_id (G_compare_proc_ids_by_conf cn) (sent_daemon g <$> l).
Proof. apply (skl_ok_fmap dm_proc_id (G_compare_proc_ids_by_conf cn)). by intros x y _ _. Qed.

Lemma memb_equal_refl m : Memb_is_equal m m = true.
Proof. unfold Memb_is_equal, memb_id_eqb. by rewrite !Z.eqb_refl. Qed.

Lemma merged_none g :
  skl_ok dm_proc_id (G_compare_proc_ids_by_conf cn) (gr_DaemonsList g) -> merged cn None (whole g) = received g.
Proof.
  intros Hs. unfold merged, received. cbn [whole fst snd default new_of]. rewrite add_sent_daemons. cbn.
  rewrite memb_equal_refl, andb_false_r, orb_false_r. f_equal.
  exact (skl_put_seq_sorted dm_proc_id (G_compare_proc_ids_by_conf cn) _ (sent_sorted g _ Hs)).
Qed.
Lemma merged_some h g : gr_DaemonsList g <> [] -> merged cn (Some h) (whole g) = joined h g.
Proof.
  intros Hne. unfold merged, joined. cbn [whole fst snd default]. rewrite add_sent_daemons. cbn. f_equal.
  by destruct (gr_DaemonsList g).
Qed.
End explicit.

(* --------------------------------------------------------------------- *)
(** ** One message *)

(** A message of a daemon, header and buffer. *)
Definition carries (m : message_obj) (b : buf) : Prop :=
  Same_endian (mh_type (Message_get_message_header m)) = true /\
  exists head, Z.of_nat (length head) = sizeof_message_header /\ mess_bytes m = head ++ b.

Lemma groups_message_carries my_name synced_size service b :
  service = RELIABLE_MESS \/ service = AGREED_MESS -> buf_fits b ->
  exists m, groups_message my_name synced_size service b = inr m /\ carries m b.
Proof.
  intros Hs Hb. unfold buf_fits in Hb. wire_sizes. unfold groups_message. set (h := set_mh_type _ _).
  assert (Hh : header_ok h).
  { unfold h, header_ok. cbn [mh_type mh_private_group_name mh_num_groups mh_hint mh_data_len set_mh_type G_build_groups_msg_hdr].
    split; [apply u32_range|]. split; [|split; [done|split; [done|lia]]].
    unfold put_bytes. rewrite !length_app, length_drop, !length_resize. done. }
  assert (He : Same_endian (mh_type h) = true) by (destruct Hs as [-> | ->]; vm_compute; reflexivity).
  set (m0 := with_message_header (fun _ => h) Message_new_message).
  assert (Hm0 : Message_get_message_header m0 = h) by by apply get_header_put.
  pose proof (fragments_of_buffer (mkElem (put_header h []) sizeof_message_header) b (Z.of_nat (length b)) eq_refl ltac:(lia)) as Hf.
  change (Message_Buffer_to_Message_Fragments m0 b (Z.of_nat (length b))) with
    (Message_Buffer_to_Message_Fragments [mkElem (put_header h []) sizeof_message_header] b (Z.of_nat (length b))).
  destruct (Message_Buffer_to_Message_Fragments _ b _) as [e|m].
  { change (MAX_SCATTER_ELEMENTS * sizeof_packet_body) with 143200 in Hf. change sizeof_message_header with 48 in Hf. lia. }
  destruct Hf as (_ & _ & Hby & Hmh & _). exists m. split; [done|]. split; [by rewrite Hmh; change (Same_endian (mh_type (Message_get_message_header m0)) = true); rewrite Hm0|].
  eexists. split; [|rewrite Hby, get_bytes_whole; reflexivity]. by rewrite elem_bytes_length.
Qed.

Lemma mess_temp_spec m b : carries m b -> buf_fits b -> mess_temp m = inr (mess_bytes m).
Proof.
  intros (_ & head & Hh & Hb) Hf. unfold mess_temp, buf_fits in *.
  assert (He : m ≫= (fun e => get_bytes (se_buf e) 0 (se_len e)) = mess_bytes m).
  { unfold mess_bytes, content. clear. induction m as [|e m IH]; [done|]. cbn [mbind list_bind fmap list_fmap concat] in *. by rewrite IH. }
  rewrite He, Hb, length_app. change sizeof_Temp_buf with 100000. wire_sizes. by rewrite (proj2 (Z.ltb_ge _ _)) by lia.
Qed.

Lemma read_proc_ids_spec (l : list Z) : forall bs,
  Forall (fun id => - 2 ^ 31 <= id < 2 ^ 31) l -> read_proc_ids true (length l) ((l ≫= enc32) ++ bs) = inr (l, bs).
Proof.
  induction l as [|id l IH]; intros bs Hl; [done|]. apply Forall_cons in Hl as [Hid Hl]. cbn [length read_proc_ids mbind list_bind].
  rewrite <- app_assoc, take_bytes_app by done. cbn [rbind]. rewrite IH by done. cbn [rbind in_order32].
  rewrite <- (app_nil_r (enc32 id)), get_s32_enc32, s32_id by done. done.
Qed.

(** What a sender puts in its messages can be read back. *)
Record sender_ok (s0 : groups_state) : Prop := mkSenderOk {
  so_sendable : sendable_groups s0;
  so_readable : Forall group_readable (GroupsList s0);
  so_names : names_ok (GroupsList s0);
  so_daemons : Forall (fun g => Z.of_nat (length (gr_DaemonsList g)) < 2 ^ 16) (GroupsList s0);
  so_synced : Forall (fun id => - 2 ^ 31 <= id < 2 ^ 31) (MySyncedSet s0);
}.

Lemma mess_to_groups_spec s0 m first parts sset s :
  sender_ok s0 -> carries m (buf_of s0 (first, parts)) -> buf_fits (buf_of s0 (first, parts)) -> Forall part_readable parts ->
  G_mess_to_groups m sset s = inr (if first then Some (MySyncedSet s0) else sset, foldl (merge_part (Cn_active s)) s parts).
Proof.
  intros Hs Hc Hf Hp. unfold G_mess_to_groups. rewrite (mess_temp_spec m _ Hc Hf). destruct Hc as [-> (head & Hh & ->)]. cbv zeta.
  unfold buf_of, preamble. cbn [fst snd rbind]. rewrite <- !app_assoc, (app_assoc head), take_bytes_app
    by (rewrite length_app, Nat2Z.inj_add, Hh; reflexivity).
  cbn [rbind]. pose proof (so_synced _ Hs) as Hids. pose proof (sg_synced _ (so_sendable _ Hs)) as Hlen. change MAX_PROCS_RING with 128 in *.
  assert (Hread : read_groups (length (enc_parts parts)) true (enc_parts parts) s = inr (foldl (merge_part (Cn_active s)) s parts)).
  { apply (read_parts (Cn_active s)); [done|done|]. clear -Hp. induction Hp as [|p ps [Hn _] Hps IH]; [done|].
    cbn [enc_parts mbind list_bind length]. rewrite length_app. unfold enc_parts in IH. apply padded_length in Hn.
    unfold enc_part at 1, enc_group. rewrite length_app, Hn. change (Z.to_nat MAX_GROUP_NAME) with 32%nat. lia. }
  destruct first.
  - change ((1 :: enc32 (Z.of_nat (length (MySyncedSet s0))) ++ (MySyncedSet s0 ≫= enc32)) ++ enc_parts parts)
      with ([1] ++ (enc32 (Z.of_nat (length (MySyncedSet s0))) ++ (MySyncedSet s0 ≫= enc32)) ++ enc_parts parts).
    rewrite take_bytes_app by done. cbn [rbind]. change (get_byte [1] 0 =? 1) with true. cbv iota.
    rewrite <- app_assoc, take_bytes_app by done. cbn [rbind]. cbv zeta.
    rewrite <- (app_nil_r (enc32 (Z.of_nat _))), get_s32_enc32. cbn [in_order32]. rewrite u32_s32, u32_id by lia.
    change MAX_PROCS_RING with 128. rewrite (proj2 (Z.ltb_ge _ _)) by lia. rewrite Nat2Z.id, read_proc_ids_spec by done. cbn [rbind].
    by rewrite Hread.
  - change ([0] ++ enc_parts parts) with ([0] ++ enc_parts parts). rewrite take_bytes_app by done. cbn [rbind].
    change (get_byte [0] 0 =? 1) with false. cbv iota. cbn [rbind]. by rewrite Hread.
Qed.

Lemma cut_Forall (P : part -> Prop) ps qs :
  (forall g a b, P (g, a ++ b) -> P (g, a) /\ P (g, b)) -> cut ps qs -> Forall P ps -> Forall P qs.
Proof.
  intros Hsp. induction 1 as [|g ds ps qs _ IH|g ds ds' ps qs _ IH]; intros Hp; [done| |]; apply Forall_cons in Hp as [H1 H2].
  - constructor; [done|by apply IH].
  - apply Hsp in H1 as [H1 H3]. constructor; [done|]. apply IH. by constructor.
Qed.

Lemma parts_readable s0 qs : sender_ok s0 -> cut (whole <$> GroupsList s0) qs -> Forall part_readable qs.
Proof.
  intros Hs Hc. eapply cut_Forall; [|exact Hc|].
  - intros g a b (H1 & H2 & H3 & H4). cbn [fst snd] in *. apply Forall_app in H3 as [H3 H3']. rewrite length_app in H4.
    split; (split; [done|split; [done|split; [done|cbn; lia]]]).
  - apply Forall_fmap, Forall_forall. intros g Hg. pose proof (so_readable _ Hs) as Hr. pose proof (so_daemons _ Hs) as Hd.
    rewrite Forall_forall in Hr, Hd. destruct (Hr g Hg) as [H1 H2 H3]. split; [done|]. split; [done|]. split; [done|]. by apply Hd.
Qed.

Lemma foldl_merge_conf cn l : forall s, Cn_active (foldl (merge_part cn) s l) = Cn_active s.
Proof. induction l as [|p l IH]; intros s; [done|]. cbn [foldl]. by rewrite IH, merge_part_conf. Qed.
Lemma foldl_merge_frame cn l : forall s,
  let s' := foldl (merge_part cn) s l in s' = with_groups (GroupsList s') (Num_groups s') s.
Proof.
  induction l as [|p l IH]; intros s; cbn [foldl]; cbv zeta; [by destruct s|].
  rewrite (IH (merge_part cn s p)) at 1. rewrite (merge_part_frame cn s p) at 3. done.
Qed.

(** The later messages of a synced set. *)
Lemma read_link_later s0 ms cuts : forall sset s,
  sender_ok s0 ->
  Forall2 (fun m parts => carries m (buf_of s0 (false, parts)) /\ buf_fits (buf_of s0 (false, parts)) /\ Forall part_readable parts) ms cuts ->
  read_link ms sset s = inr (sset, foldl (merge_part (Cn_active s)) s (concat cuts)).
Proof.
  intros sset s Hs H. revert sset s. induction H as [|m parts ms cuts (Hc & Hf & Hp) H IH]; intros sset s; [done|]. cbn [read_link concat].
  rewrite (mess_to_groups_spec s0 m false parts) by done. cbn [rbind]. rewrite IH, foldl_merge_conf, foldl_app. done.
Qed.

(** C15: exchanging groups.  The messages in which a daemon sends the groups
    of its synced set can be built, and a daemon that reads them, the first
    one built first, has all the groups of both: one it did not know is as
    the sender has it, one that both have gets the daemons and members of the
    sender and is changed when it was at either or when they had it in
    different memberships; nothing else changes, and the synced set it reads
    is that of the sender.  Where the groups were cut plays no role. *)
Theorem groups_travel s0 s my_name :
  sender_ok s0 -> Groups_bufs s0 = [] -> names_ok (GroupsList s) ->
  Forall (fun g => skl_ok dm_proc_id (G_compare_proc_ids_by_conf (Cn_active s)) (gr_DaemonsList g)) (GroupsList s0) ->
  exists bufs, G_build_new_groups_bufs s0 = inr (set_Groups_bufs bufs s0) /\
    let sends b m := exists service, (service = RELIABLE_MESS \/ service = AGREED_MESS) /\
      groups_message my_name (Z.of_nat (length (MySyncedSet s0))) service b = inr m in
    Forall (fun b => exists m, sends b m) bufs /\
    forall msgs, Forall2 sends bufs msgs ->
    exists s', read_link (reverse msgs) None s = inr (Some (MySyncedSet s0), s') /\
      s' = with_groups (GroupsList s') (Num_groups s') s /\ names_ok (GroupsList s') /\
      forall n, G_get_group n (GroupsList s') =
        match G_get_group n (GroupsList s0), G_get_group n (GroupsList s) with
        | None, o => o
        | Some g, None => Some (received g)
        | Some g, Some h => Some (joined (Cn_active s) h g)
        end.
Proof.
  intros Hs Hb Hn Hd. destruct (bufs_built s0 (so_sendable _ Hs)) as (parts & cuts & H1 & H2 & H3).
  set (bufs := buf_of s0 (true, parts) :: (buf_of s0 <$> (pair false <$> cuts))) in *. cbv zeta in H1.
  exists (reverse bufs). unfold G_build_new_groups_bufs. rewrite H1, Hb, app_nil_r. cbn [rbind]. split; [done|]. cbv zeta.
  assert (Hsend : forall b service m, buf_fits b -> service = RELIABLE_MESS \/ service = AGREED_MESS ->
    groups_message my_name (Z.of_nat (length (MySyncedSet s0))) service b = inr m -> carries m b).
  { intros b service m Hf Hsv Hm. destruct (groups_message_carries my_name (Z.of_nat (length (MySyncedSet s0))) service b Hsv Hf) as (m' & Hm' & Hc).
    congruence. }
  split.
  - apply Forall_reverse. eapply Forall_impl; [exact H2|]. intros b Hf.
    destruct (groups_message_carries my_name (Z.of_nat (length (MySyncedSet s0))) AGREED_MESS b) as (m & Hm & _); [by right|done|].
    exists m, AGREED_MESS. split; [by right|done].
  - intros msgs Hm. apply Forall2_reverse in Hm. rewrite reverse_involutive in Hm.
    pose proof (parts_readable s0 _ Hs H3) as Hr. apply Forall_app in Hr as [Hr0 Hr].
    unfold bufs in Hm. apply Forall2_cons_inv_l in Hm as (m0 & ms & (sv & Hsv & Hm0) & Hms & ->).
    apply Forall_cons in H2 as [Hf0 Hf]. cbn [read_link].
    rewrite (mess_to_groups_spec s0 m0 true parts) by (done || by eapply Hsend). cbn [rbind].
    rewrite (read_link_later s0 ms cuts), foldl_merge_conf, <- foldl_app; [|done|].
    2: { clear -Hms Hf Hr Hsend. revert ms Hms. induction cuts as [|c cuts IH]; intros ms Hms; cbn [fmap list_fmap concat] in *.
         - apply Forall2_nil_inv_l in Hms as ->. constructor.
         - apply Forall2_cons_inv_l in Hms as (m & ms' & (sv & Hsv & Hm) & Hms & ->). apply Forall_cons in Hf as [Hf0 Hf].
           apply Forall_app in Hr as [Hr0 Hr]. constructor; [|by apply IH]. split; [by eapply Hsend|done]. }
    eexists. split; [reflexivity|]. split; [apply (foldl_merge_frame (Cn_active s))|].
    rewrite (merge_cut (Cn_active s) _ _ H3 s Hn). split; [by apply (merge_groups_get (Cn_active s) _ s []); [apply Hs|]|].
    intros n. rewrite (proj2 (merge_groups_get (Cn_active s) _ s n (so_names _ Hs) Hn)).
    destruct (G_get_group n (GroupsList s0)) as [g|] eqn:Eg; [|done]. apply get_group_names in Eg as [Hg _]; [|apply Hs].
    rewrite Forall_forall in Hd. pose proof (sg_groups _ (so_sendable _ Hs)) as Hfit. rewrite Forall_forall in Hfit.
    destruct (G_get_group n (GroupsList s)) as [h|]; [by rewrite merged_some by apply (Hfit g Hg)|by rewrite merged_none by by apply Hd].
Qed.

(** Two daemons: [h1] has [a] and [b] in [chat] and [a] in [room], [h2] has [c]
    in [room]. *)
Definition pname (s : string) : list Z := strncpy (str_bytes s) MAX_GROUP_NAME.
Definition h1_groups : groups_state :=
  set_MySyncedSet [1] (set_GroupsList
    [mkGroup (pname "chat") (mkGroupId (mkMembId 1 7) 2) false 2 [mkDaemonMembers 1 (mkMembId 1 7) [pname "#a#h1"; pname "#b#h1"]] [5; 6];
     mkGroup (pname "room") (mkGroupId (mkMembId 1 7) 1) false 1 [mkDaemonMembers 1 (mkMembId 1 7) [pname "#a#h1"]] [5]] no_groups).
Definition h2_groups : groups_state :=
  set_MySyncedSet [2] (set_GroupsList
    [mkGroup (pname "room") (mkGroupId (mkMembId 2 4) 1) false 1 [mkDaemonMembers 2 (mkMembId 2 4) [pname "#c#h2"]] [9]] no_groups).

Ltac by_computation := vm_compute; repeat split; congruence.
Lemma pname_padded s : Z.of_nat (length (cstr (str_bytes s))) < MAX_GROUP_NAME -> padded (pname s).
Proof. intros H. by apply strncpy_padded. Qed.
Ltac padded_names := repeat (apply Forall_cons; split; [apply pname_padded; reflexivity|]); apply Forall_nil.

Lemma h1_sender : sender_ok h1_groups.
Proof.
  assert (Hsort : skl_ok id G_compare_nameptr [pname "#a#h1"; pname "#b#h1"] /\ skl_ok id G_compare_nameptr [pname "#a#h1"]).
  { split; repeat constructor; vm_compute; reflexivity. }
  assert (Hfit : forall g, g ∈ GroupsList h1_groups -> group_fits g /\ group_readable g).
  { assert (Hread : forall d, dm_proc_id d = 1 -> dm_MembersList d = [pname "#a#h1"; pname "#b#h1"] \/ dm_MembersList d = [pname "#a#h1"] -> daemon_readable d).
    { intros d Hid Hm. constructor; [constructor|rewrite Hid; lia|].
      - destruct Hm as [-> | ->]; vm_compute; congruence.
      - destruct Hm as [-> | ->]; repeat constructor.
      - destruct Hm as [-> | ->]; apply Hsort. }
    intros g [->|[->|[]%elem_of_nil]%elem_of_cons]%elem_of_cons; (split; constructor);
      [reflexivity|discriminate|apply Forall_singleton, Hread; auto|apply pname_padded; reflexivity|by_computation|apply Forall_singleton, Hread; auto
      |reflexivity|discriminate|apply Forall_singleton, Hread; auto|apply pname_padded; reflexivity|by_computation|apply Forall_singleton, Hread; auto]. }
  constructor.
  - constructor; [apply Forall_forall; intros g Hg; by apply Hfit|by_computation].
  - apply Forall_forall. intros g Hg. by apply Hfit.
  - repeat constructor; vm_compute; reflexivity.
  - repeat constructor; vm_compute; reflexivity.
  - repeat constructor; vm_compute; congruence.
Qed.

Lemma groups_travel_witness :
  let my_name := str_bytes "h1" in
  (exists bufs msgs s', G_build_new_groups_bufs h1_groups = inr (set_Groups_bufs bufs h1_groups) /\
     Forall2 (fun b m => exists service, groups_message my_name 1 service b = inr m) bufs msgs /\
     read_link (reverse msgs) None h2_groups = inr (Some [1], s') /\
     G_get_group (pname "room") (GroupsList s') =
       Some (joined no_config (mkGroup (pname "room") (mkGroupId (mkMembId 2 4) 1) false 1 [mkDaemonMembers 2 (mkMembId 2 4) [pname "#c#h2"]] [9])
               (mkGroup (pname "room") (mkGroupId (mkMembId 1 7) 1) false 1 [mkDaemonMembers 1 (mkMembId 1 7) [pname "#a#h1"]] [5]))) /\
  match G_build_new_groups_bufs h1_groups with
  | inr s0 => match Groups_bufs s0 with
    | [b] => match groups_message my_name 1 AGREED_MESS b with
      | inr m => match read_link [m] None h2_groups with
        | inr (_, s') => (fun g => (gr_name g, gr_changed g, gr_num_members g, gr_mboxes g, group_members (gr_DaemonsList g))) <$> GroupsList s' =
            [(pname "chat", false, 2, [], [pname "#a#h1"; pname "#b#h1"]); (pname "room", true, 2, [9], [pname "#a#h1"; pname "#c#h2"])]
        | inl _ => False end
      | inl _ => False end
    | _ => False end
  | inl _ => False
  end.
Proof.
  intros my_name. split; [|vm_compute; reflexivity].
  assert (Hn2 : names_ok (GroupsList h2_groups)) by (repeat constructor).
  assert (Hd : Forall (fun g => skl_ok dm_proc_id (G_compare_proc_ids_by_conf (Cn_active h2_groups)) (gr_DaemonsList g)) (GroupsList h1_groups)).
  { repeat constructor. }
  destruct (groups_travel h1_groups h2_groups my_name h1_sender eq_refl Hn2 Hd) as (bufs & Hb & Hsend & Hread). cbv zeta in Hread.
  apply Forall_exists_Forall2_l in Hsend as [msgs Hm].
  destruct (Hread msgs Hm) as (s' & Hr & _ & _ & Hg). exists bufs, msgs, s'. split; [exact Hb|]. split; [|split; [exact Hr|]].
  - eapply Forall2_impl; [exact Hm|]. intros b m (sv & _ & H). by exists sv.
  - rewrite Hg. assert (E1 : G_get_group (pname "room") (GroupsList h1_groups) = last (GroupsList h1_groups)) by (vm_compute; reflexivity).
    assert (E2 : G_get_group (pname "room") (GroupsList h2_groups) = head (GroupsList h2_groups)) by (vm_compute; reflexivity).
    rewrite E1, E2. reflexivity.
Defined.
