(* ===== verification/GroupsSynced.v ===== *)
(** * The synced set ([G_add_to_synced_set], [G_update_synced_set])

    The daemons whose groups this daemon knows to be its own are kept in the
    order of the configuration, the first one is their representative. *)

From Stdlib Require Import ZArith Lia Sorting.Sorted.
From stdpp Require Import base strings numbers option gmap list sorting.
From S2P Require Import Prelude Wire Bytes Config Events State Message Names GroupState Skl Groups GroupsOk Sample.

Section synced.
Context (c : configuration).
Implicit Types (l r t : list Z) (id : Z).

Definition before (a b : Z) : Prop := conf_ref c a < conf_ref c b.
(** Configured daemons, in order. *)
Record synced_ok l : Prop := mkSyncedOk {
  sy_sorted : StronglySorted before l;
  sy_known : Forall (fun id => 0 <= conf_ref c id) l;
}.
Definition apart_sets l r : Prop := forall a b, a ∈ l -> b ∈ r -> conf_ref c a <> conf_ref c b.

Lemma synced_cons id l : synced_ok (id :: l) <-> synced_ok l /\ Forall (before id) l /\ 0 <= conf_ref c id.
Proof.
  split.
  - intros [Hs Hk]. apply StronglySorted_inv in Hs as [Hs Hb]. apply Forall_cons in Hk as [Hid Hk]. by split.
  - intros ([Hs Hk] & Hb & Hid). split; by constructor.
Qed.

(** Nothing of a list in order comes before its head, or before what its head
    comes after. *)
Lemma not_before x l y r :
  synced_ok (x :: l) -> conf_ref c y < conf_ref c x -> forall a, a ∈ x :: l -> conf_ref c y < conf_ref c a.
Proof.
  intros (_ & Hb & _)%synced_cons Hlt a [->|Ha]%elem_of_cons; [done|]. rewrite Forall_forall in Hb. specialize (Hb a Ha). unfold before in Hb. lia.
Qed.

Lemma order_known id : 0 <= conf_ref c id ->
  (if Conf_proc_ref_by_id_in_conf c (u32 id) =? -1 then inl (Fatal "G_add_to_synced_set: proc_id not in conf")
   else inr (Conf_proc_ref_by_id_in_conf c (u32 id))) = inr (conf_ref c id).
Proof. intros H. fold (conf_ref c id). by rewrite (proj2 (Z.eqb_neq _ _)) by lia. Qed.

(** The head that was taken is in front of the rest. *)
Lemma merged_head x l r t :
  synced_ok (x :: l) -> Forall (before x) r -> synced_ok t -> t ≡ₚ l ++ r -> synced_ok (x :: t) /\ x :: t ≡ₚ (x :: l) ++ r.
Proof.
  intros (Hl & Hb & Hx)%synced_cons Hr Ht Hp. split; [|by rewrite Hp]. apply synced_cons. split; [done|]. split; [|done].
  rewrite Hp. apply Forall_app. by split.
Qed.

Lemma merge_synced_spec fuel : forall l r,
  synced_ok l -> synced_ok r -> (length l + length r <= fuel)%nat ->
  (apart_sets l r /\ exists t, merge_synced fuel c l r = inr t /\ synced_ok t /\ t ≡ₚ l ++ r) \/
  (~ apart_sets l r /\ merge_synced fuel c l r = inl (Fatal "G_add_to_synced_set: intersection isn't empty")).
Proof.
  induction fuel as [|fuel IH]; intros l r Hl Hr Hf.
  { destruct l, r; try (cbn in Hf; lia). left. split; [by intros a b ?%elem_of_nil|]. exists []. split; [done|]. split; [done|done]. }
  cbn [merge_synced]. destruct l as [|x l], r as [|y r].
  - left. split; [by intros a b ?%elem_of_nil|]. exists []. split; [done|]. by split.
  - pose proof Hr as (Hr' & Hby & Hy)%synced_cons. rewrite (order_known y) by done. cbn [rbind].
    left. split; [by intros a b ?%elem_of_nil|]. destruct (IH [] r Hl Hr') as [(_ & t & -> & Ht & Hp)|[Hna _]]; [cbn in *; lia| |].
    + cbn [rbind]. exists (y :: t). split; [done|]. destruct (merged_head y r [] t) as [H1 H2]; [done|constructor|done|by rewrite app_nil_r|]. split; [done|]. by rewrite H2, app_nil_r.
    + destruct Hna. by intros a b ?%elem_of_nil.
  - pose proof Hl as (Hl' & Hbx & Hx)%synced_cons. rewrite (order_known x) by done. cbn [rbind]. change (-1 =? -1) with true. rewrite orb_true_r.
    left. split; [by intros a b _ ?%elem_of_nil|]. destruct (IH l [] Hl' Hr) as [(_ & t & -> & Ht & Hp)|[Hna _]]; [cbn in *; lia| |].
    + cbn [rbind]. exists (x :: t). split; [done|]. apply (merged_head x l [] t); [done|constructor|done|done].
    + destruct Hna. by intros a b _ ?%elem_of_nil.
  - pose proof Hl as (Hl' & Hbx & Hx)%synced_cons. pose proof Hr as (Hr' & Hby & Hy)%synced_cons.
    rewrite (order_known x), (order_known y) by done. cbn [rbind]. rewrite (proj2 (Z.eqb_neq (conf_ref c y) (-1))), orb_false_r by lia.
    destruct (Z.ltb_spec (conf_ref c x) (conf_ref c y)) as [Hlt|Hge].
    + pose proof (not_before y r x [] Hr Hlt) as Hbefore. destruct (IH l (y :: r) Hl' Hr) as [(Ha & t & -> & Ht & Hp)|[Hna ->]]; [cbn in *; lia|left|right].
      * split; [intros a b [->|H1]%elem_of_cons H2; [specialize (Hbefore b H2); lia|by apply Ha]|]. cbn [rbind]. exists (x :: t). split; [done|].
        apply (merged_head x l (y :: r) t); [done|by apply Forall_forall|done|done].
      * split; [|done]. intros Ha. apply Hna. intros a b H1 H2. apply Ha; [by right|done].
    + destruct (Z.ltb_spec (conf_ref c y) (conf_ref c x)) as [Hlt|Hge'].
      * pose proof (not_before x l y [] Hl Hlt) as Hbefore. destruct (IH (x :: l) r Hl Hr') as [(Ha & t & -> & Ht & Hp)|[Hna ->]]; [cbn in *; lia|left|right].
        -- split; [intros a b H1 [->|H2]%elem_of_cons; [specialize (Hbefore a H1); lia|by apply Ha]|]. cbn [rbind]. exists (y :: t). split; [done|].
           destruct (merged_head y r (x :: l) t) as [H1 H2]; [done|by apply Forall_forall|done|by rewrite Hp, Permutation_app_comm|].
           split; [done|]. rewrite H2. by rewrite Permutation_app_comm.
        -- split; [|done]. intros Ha. apply Hna. intros a b H1 H2. apply Ha; [done|by right].
      * right. split; [|done]. intros Ha. apply (Ha x y); [by left|by left|lia].
Qed.

(** There are no more daemons than the configuration has. *)
Lemma synced_length l : synced_ok l -> (length l <= length (conf_allprocs c))%nat.
Proof.
  intros [Hs Hk]. assert (Hn : NoDup (conf_ref c <$> l)).
  { clear Hk. induction Hs as [|x l Hs IH Hx]; [constructor|]. cbn. constructor; [|done]. intros (y & E & Hy)%list_elem_of_fmap.
    rewrite Forall_forall in Hx. specialize (Hx y Hy). unfold before in Hx. lia. }
  rewrite <- (length_fmap (conf_ref c) l), <- (Nat2Z.id (length (conf_allprocs c))), <- (length_seqZ 0). apply NoDup_incl_length; [by apply NoDup_ListNoDup|].
  intros i Hi. apply list_elem_of_In in Hi. apply list_elem_of_In. apply list_elem_of_fmap in Hi as (a & -> & Ha). apply elem_of_seqZ.
  rewrite Forall_forall in Hk. specialize (Hk a Ha). destruct (conf_ref_cases c a) as [[? _]|[? _]]; lia.
Qed.

(** The lists are determined by their daemons. *)
Lemma synced_unique l r : synced_ok l -> synced_ok r -> l ≡ₚ r -> l = r.
Proof.
  intros [Hl _] [Hr _]. apply (StronglySorted_unique_strong before); [|done|done]. unfold before. intros a b _ _ H1 H2. lia.
Qed.

Lemma add_to_synced l r :
  Z.of_nat (length (conf_allprocs c)) <= MAX_PROCS_RING -> synced_ok l -> synced_ok r ->
  (apart_sets l r /\ exists t, G_add_to_synced_set c r l = inr t /\ synced_ok t /\ t ≡ₚ l ++ r) \/
  (~ apart_sets l r /\ G_add_to_synced_set c r l = inl (Fatal "G_add_to_synced_set: intersection isn't empty")).
Proof.
  intros Hc Hl Hr. unfold G_add_to_synced_set. destruct (merge_synced_spec _ l r Hl Hr (Nat.le_refl _)) as [(Ha & t & -> & Ht & Hp)|[Hna ->]]; [left|by right].
  split; [done|]. exists t. cbn [rbind]. pose proof (synced_length t Ht) as Hlen. by rewrite (proj2 (Z.ltb_ge _ _)) by lia.
Qed.

Lemma filter_synced (P : Z -> Prop) `{!forall x, Decision (P x)} l : synced_ok l -> synced_ok (filter P l).
Proof.
  induction l as [|x l IH]; [done|]. intros (Hl & Hb & Hx)%synced_cons. rewrite filter_cons. destruct (decide (P x)); [|by apply IH].
  apply synced_cons. split; [by apply IH|]. split; [|done]. rewrite Forall_forall in *. intros y [_ Hy]%list_elem_of_filter. by apply Hb.
Qed.

Lemma filter_lost (P : Z -> Prop) `{!forall x, Decision (P x)} l :
  negb (Nat.eqb (length (filter P l)) (length l)) = true <-> exists x, x ∈ l /\ ~ P x.
Proof.
  rewrite negb_true_iff, Nat.eqb_neq. split.
  - intros Hn. induction l as [|x l IH]; [done|]. rewrite filter_cons in Hn. destruct (decide (P x)) as [Hx|Hx]; [|exists x; split; [by left|done]].
    cbn in Hn. destruct IH as (y & Hy & Hn'); [lia|]. exists y. split; [by right|done].
  - intros (x & Hx & Hn). apply Nat.lt_neq. by apply (length_filter_lt P l x).
Qed.

(** The synced set.  Two sets of configured daemons in the order of the
    configuration that have no daemon in common are merged by
    [G_add_to_synced_set] into the one such list of the daemons of both
    ([proc_ids] cannot overflow, and the result does not depend on which of
    the sets is the own one, so all daemons agree on the representative);
    the daemon stops with "intersection isn't empty" exactly when they have
    one in common.  [G_update_synced_set_status] keeps the daemons of the
    membership, in order, and its flag says whether a daemon was lost. *)
Theorem synced_sets l r :
  Z.of_nat (length (conf_allprocs c)) <= MAX_PROCS_RING -> synced_ok l -> synced_ok r ->
  (apart_sets l r ->
     G_add_to_synced_set c r l = G_add_to_synced_set c l r /\
     exists t, G_add_to_synced_set c r l = inr t /\ synced_ok t /\ t ≡ₚ l ++ r) /\
  (~ apart_sets l r -> G_add_to_synced_set c r l = inl (Fatal "G_add_to_synced_set: intersection isn't empty")) /\
  (forall memb,
     synced_ok (G_update_synced_set l memb) /\
     (forall id, id ∈ G_update_synced_set l memb <-> id ∈ l /\ 0 <= Conf_id_in_conf memb (u32 id)) /\
     ((G_update_synced_set_status l memb).2 = true <-> exists id, id ∈ l /\ Conf_id_in_conf memb (u32 id) < 0)).
Proof.
  intros Hc Hl Hr. split; [|split].
  - intros Ha. destruct (add_to_synced l r Hc Hl Hr) as [(_ & t & E & Ht & Hp)|[Hna _]]; [|done].
    destruct (add_to_synced r l Hc Hr Hl) as [(_ & t' & E' & Ht' & Hp')|[Hna _]].
    + split; [|by exists t]. rewrite E, E'. f_equal. apply synced_unique; [done|done|]. by rewrite Hp, Hp', Permutation_app_comm.
    + destruct Hna. intros a b H1 H2. symmetry. by apply Ha.
  - intros Hna. by destruct (add_to_synced l r Hc Hl Hr) as [[Ha _]|[_ E]].
  - intros memb. split; [by apply filter_synced|]. split.
    + intros id. unfold G_update_synced_set. cbn [G_update_synced_set_status fst]. rewrite list_elem_of_filter. tauto.
    + unfold G_update_synced_set_status. cbn [snd]. rewrite filter_lost. by setoid_rewrite Z.nle_gt.
Qed.
End synced.

Lemma synced_sets_witness :
  let c := sample_conf in
  (synced_ok c [11; 21] /\ synced_ok c [12]) /\ G_add_to_synced_set c [12] [11; 21] = inr [11; 12; 21] /\
  (exists t, G_add_to_synced_set c [12] [11; 21] = inr t /\ synced_ok c t /\ t ≡ₚ [11; 21] ++ [12]) /\
  ((G_update_synced_set_status [11; 12; 21] sample_future).2 = true <->
     exists id, id ∈ [11; 12; 21] /\ Conf_id_in_conf sample_future (u32 id) < 0).
Proof.
  assert (H1 : synced_ok sample_conf [11; 21]) by (repeat constructor; by vm_compute).
  assert (H2 : synced_ok sample_conf [12]) by (repeat constructor; by vm_compute).
  assert (H3 : synced_ok sample_conf [11; 12; 21]) by (repeat constructor; by vm_compute).
  assert (Hc : Z.of_nat (length (conf_allprocs sample_conf)) <= MAX_PROCS_RING) by (vm_compute; discriminate).
  split; [by split|]. split; [by vm_compute|]. split.
  - apply (synced_sets sample_conf [11; 21] [12] Hc H1 H2). intros a b Ha Hb.
    repeat (apply elem_of_cons in Ha as [->|Ha] || apply elem_of_nil in Ha as []);
      apply list_elem_of_singleton in Hb as ->; vm_compute; discriminate.
  - apply (synced_sets sample_conf [11; 12; 21] [] Hc H3); repeat constructor.
Defined.
