(* ===== verification/GroupsTell.v ===== *)
(** * Telling the local members ([notify], [G_send_lightweight_memb])

    A membership message is written once to every local member of the group
    that has asked for membership messages and whose session is open; nothing
    of the groups changes meanwhile, and nobody else gets anything. *)

From Stdlib Require Import ZArith Lia.
From stdpp Require Import base strings numbers option gmap list.
From S2P Require Import Prelude Wire Bytes Config Events EventsFd State Network FlowControl MembSets MembCore ProtSend.
From S2P Require Import Sample Retrans Requests Packing Deliver Delivery Sending EndToEnd Message Names GroupState SessState SessTable SessDir SessWrite SessStream SessServe SessDeliver SessFanout SessRead Skl Groups GroupsOk.

(* --------------------------------------------------------------------- *)
(** ** The session layer leaves the groups alone *)

Definition same_gs (w w' : sess_world) : Prop := gs w' = gs w.
#[export] Instance same_gs_preorder : PreOrder same_gs.
Proof. split; [done|]. intros w1 w2 w3 H1 H2. unfold same_gs in *. congruence. Qed.
Abbreviation gs_kept := (keeps same_gs anyerr).

Lemma kept_on_core {A} (m : M world A) : gs_kept (on_core m).
Proof. intros w. unfold wp, on_core. by destruct (m (core w)). Qed.
Lemma kept_s_do f : gs_kept (s_do f).
Proof. by apply keeps_modify. Qed.
Lemma kept_lift {A} (r : res A) : gs_kept (lift (S := sess_world) r).
Proof. by apply (keeps_lift _). Qed.
Lemma kept_index_of mbox : gs_kept (index_of mbox).
Proof. intros w. unfold index_of. apply kept_lift. Qed.
Create HintDb kept.
#[export] Hint Resolve kept_on_core kept_s_do kept_lift kept_index_of : kept.

(** Walk through the text of a function. *)
Ltac kept_step :=
  lazymatch goal with
  | |- keeps _ _ (bind _ _) => apply (keeps_bind _ _); [|intros ?]
  | |- keeps _ _ (ret _) => apply (keeps_ret _ _)
  | |- keeps _ _ get => apply (keeps_get _ _)
  | |- keeps _ _ (gets _) => apply (keeps_gets _ _)
  | |- keeps _ _ (fail _) => by apply keeps_fail
  | |- keeps _ _ (when _ _) => apply (keeps_when _ _); intros _
  | |- keeps _ _ (mforeach _ _) => apply (keeps_mforeach _ _); intros ?
  | |- keeps _ _ (ses_do _ _) => apply kept_s_do
  | |- keeps _ _ (the_session _) => apply (keeps_gets _ _)
  | |- keeps _ _ (let _ := _ in _) => cbv zeta
  | |- keeps _ _ (match ?x with _ => _ end) => destruct x
  end.
Ltac kept_auto := repeat first [ solve [auto with kept] | kept_step ].

Lemma kept_send mbox b : gs_kept (send mbox b).
Proof. unfold send. kept_auto. Qed.
Lemma kept_send_part mbox b (from n : Z) : gs_kept (send_part mbox b from n).
Proof. unfold send_part. destruct (n <? 0); [by apply keeps_fail|apply kept_send]. Qed.
Lemma kept_later mbox : gs_kept (badger_later mbox).
Proof. unfold badger_later, attach_fd. kept_auto. Qed.
Lemma kept_no_more mbox : gs_kept (badger_no_more mbox).
Proof. unfold badger_no_more, detach_fd. kept_auto. Qed.
#[export] Hint Resolve kept_send_part kept_later kept_no_more : kept.

Lemma kept_head i mbox msg : gs_kept (badger_head i mbox msg).
Proof. unfold badger_head. kept_auto. Qed.
Lemma kept_body i mbox l : forall from, gs_kept (badger_body i mbox l from).
Proof. induction l as [|e l IH]; intros from; cbn [badger_body]; kept_auto. Qed.
#[export] Hint Resolve kept_head kept_body : kept.
Lemma kept_loop i mbox q : gs_kept (badger_loop i mbox q).
Proof. induction q as [|m q IH]; cbn [badger_loop]; kept_auto. Qed.
#[export] Hint Resolve kept_loop : kept.
Lemma kept_badger mbox : gs_kept (Sess_badger mbox).
Proof. unfold Sess_badger. kept_auto. Qed.
Lemma kept_threshold : gs_kept Sess_set_active_threshold.
Proof. unfold Sess_set_active_threshold. kept_auto. Qed.
#[export] Hint Resolve kept_badger kept_threshold : kept.
Lemma kept_level o : gs_kept (level_change o).
Proof. destruct o; try apply (keeps_ret _ _); unfold level_change, Sess_block_users_level, Sess_unblock_users_level; kept_auto. Qed.
#[export] Hint Resolve kept_level : kept.
Lemma kept_core_call {A} (m : M world A) : gs_kept (core_call m).
Proof. unfold core_call. kept_auto. Qed.
#[export] Hint Resolve kept_core_call : kept.
Lemma kept_clear i : gs_kept (Sess_clear_session i).
Proof. unfold Sess_clear_session, detach_fd. kept_auto. Qed.
#[export] Hint Resolve kept_clear : kept.

Section sending.
Context `{Session}.
Lemma kept_kill mbox : gs_kept (Sess_kill mbox).
Proof. unfold Sess_kill. kept_auto. Qed.
Lemma kept_rest mbox l : forall sent, gs_kept (send_rest mbox l sent).
Proof. induction l as [|e l IH]; intros sent; cbn [send_rest]; kept_auto. Qed.
#[local] Hint Resolve kept_kill kept_rest : kept.
Lemma kept_now mbox msg : gs_kept (write_now mbox msg).
Proof. unfold write_now. kept_auto. Qed.
#[local] Hint Resolve kept_now : kept.
Lemma kept_write i msg needed : gs_kept (Sess_write i msg needed).
Proof. unfold Sess_write. kept_auto. Qed.
#[local] Hint Resolve kept_write : kept.
Lemma kept_notify_session i msg needed : gs_kept (notify_session i msg needed).
Proof. unfold notify_session. kept_auto. Qed.
End sending.
#[export] Hint Resolve kept_write kept_notify_session : kept.

(* --------------------------------------------------------------------- *)
(** ** What the members get *)

Section told.
Context (l : list Z).
Implicit Types (w : sess_world) (msg : message_obj) (i : Z) (ms : list Z) (f : Z -> list Z).

(** Session [i] gets the membership messages of its groups. *)
Definition informed w i : bool := Is_session MEMB_SESSION (s_status (ses (ss w) i)) && Is_session OP_SESSION (s_status (ses (ss w) i)).

(** The sessions [l] were sent [f]; [n] messages at most were queued. *)
Record told f (n : Z -> Z) w w' : Prop := mkTold {
  td_table : table_ok (ss w) l -> table_ok (ss w') l;
  td_events : only_events w w';
  td_name : sx_My_name (ss w') = sx_My_name (ss w);
  td_session : forall i, mbox_of i w' = mbox_of i w /\ s_name (ses (ss w') i) = s_name (ses (ss w) i) /\ s_status (ses (ss w') i) = s_status (ses (ss w) i);
  td_serving : forall i, i ∈ l -> serving i l w -> serving i l w';
  td_queue : forall i, i ∈ l -> queued i w' <= queued i w + n i;
  td_stream : forall i, i ∈ l -> stream i w' = stream i w ++ f i;
}.

Lemma told_nothing w w' f (n : Z -> Z) :
  ss w' = ss w -> core w' = core w -> (forall i, i ∈ l -> f i = [] /\ 0 <= n i) -> told f n w w'.
Proof.
  intros Hs Hc Hf. constructor; unfold mbox_of, queued, stream, only_events, outputs; rewrite ?Hs, ?Hc; try done.
  - split; [by destruct (core w)|done].
  - intros i Hi [H1 H2 H3 H4 H5]. unfold badgering, timers, mbox_of in *.
    constructor; unfold badgering, timers, mbox_of; rewrite ?Hs, ?Hc; done.
  - intros i Hi. destruct (Hf i Hi). lia.
  - intros i Hi. destruct (Hf i Hi) as [-> _]. unfold mbox_of. by rewrite app_nil_r, Hs.
Qed.

Lemma told_trans f1 n1 f2 n2 w w1 w2 :
  told f1 n1 w w1 -> told f2 n2 w1 w2 -> told (fun i => f1 i ++ f2 i) (fun i => n1 i + n2 i) w w2.
Proof.
  intros [A1 B1 M1 C1 D1 E1 F1] [A2 B2 M2 C2 D2 E2 F2]. constructor; [auto|by etransitivity|congruence| |auto| |].
  - intros i. destruct (C1 i) as (? & ? & ?), (C2 i) as (? & ? & ?). split_and!; congruence.
  - intros i Hi. specialize (E1 i Hi). specialize (E2 i Hi). lia.
  - intros i Hi. by rewrite F2, F1, app_assoc by done.
Qed.

Lemma told_ext f f' (n n' : Z -> Z) w w' : (forall i, i ∈ l -> f i = f' i /\ n i <= n' i) -> told f n w w' -> told f' n' w w'.
Proof.
  intros He [A B M C D E F]. constructor; try done.
  - intros i Hi. specialize (E i Hi). destruct (He i Hi). lia.
  - intros i Hi. destruct (He i Hi) as [<- _]. by apply F.
Qed.

Lemma told_from f n w w1 w2 : ss w1 = ss w -> core w1 = core w -> told f n w1 w2 -> told f n w w2.
Proof.
  intros Hs Hc H. eapply told_ext; [|eapply (told_trans (fun _ => []) (fun _ => 0)); [|exact H]]; [|by apply told_nothing]. done.
Qed.

(** The clients among [ms] that are to be told have room for [k] messages. *)
Definition ready_for ms (k : Z) w : Prop :=
  forall i, i ∈ l -> mbox_of i w ∈ ms -> informed w i = true ->
    serving i l w /\ queued i w + k <= cf_MaxSessionMessages (cf (core w)).

Lemma told_informed f n w w' i : told f n w w' -> informed w' i = informed w i.
Proof. intros H. destruct (td_session _ _ _ _ H i) as (_ & _ & Hs). unfold informed. by rewrite Hs. Qed.
Lemma told_mbox f n w w' i : told f n w w' -> mbox_of i w' = mbox_of i w.
Proof. intros H. by destruct (td_session _ _ _ _ H i). Qed.
Lemma told_limit f n w w' : told f n w w' -> cf (core w') = cf (core w).
Proof. intros H. destruct (td_events _ _ _ _ H) as [<- _]. done. Qed.
Lemma told_mboxes f n w w' : told f n w w' -> mboxes (ss w') l = mboxes (ss w) l.
Proof. intros H. apply mboxes_ext. intros i _. by apply (told_mbox f n). Qed.

Lemma told_ready f n (k k' : Z) ms w w' :
  told f n w w' -> (forall i, i ∈ l -> mbox_of i w ∈ ms -> n i + k <= k') -> ready_for ms k' w -> ready_for ms k w'.
Proof.
  intros H Hk Hr i Hi Hm Hg. rewrite (told_mbox f n w w' i H) in Hm. rewrite (told_informed f n w w' i H) in Hg.
  destruct (Hr i Hi Hm Hg) as [Hs Hq]. split; [by apply (td_serving _ _ _ _ H)|]. rewrite (told_limit f n w w' H).
  pose proof (td_queue _ _ _ _ H i Hi). specialize (Hk i Hi Hm). lia.
Qed.
Lemma ready_weaken ms ms' (k k' : Z) w : ms' ⊆ ms -> k <= k' -> ready_for ms k' w -> ready_for ms' k w.
Proof. intros Hms Hk Hr i Hi Hm Hg. destruct (Hr i Hi (Hms _ Hm) Hg). split; [done|lia]. Qed.

Definition one i : Z -> Z := fun j => if decide (j = i) then 1 else 0.

Lemma told_served w w' i msg :
  i ∈ l -> table_ok (ss w) l -> serving i l w' -> served i w w' -> queued i w' <= queued i w + 1 ->
  stream i w' = stream i w ++ mess_bytes msg -> told (fun j => if decide (j = i) then mess_bytes msg else []) (one i) w w'.
Proof.
  intros Hi Ht Hs Hsv Hq Hst. pose proof Hsv as (Ho & He & _). pose proof (writes_still i (mbox_of i w) (ss w) (ss w') Ho) as [Hm Hstat].
  assert (Hoth : forall j, j ∈ l -> j <> i -> (serving j l w -> serving j l w') /\ stream j w' = stream j w /\ queued j w' = queued j w /\ mbox_of j w' = mbox_of j w).
  { intros j Hj Hne. by apply (other_serving l w w' i j). }
  constructor; [by intros _; apply (sv_table _ _ _ Hs)|done| | | | |].
  - destruct Ho as (_ & _ & Hc & _). by injection Hc.
  - intros j. destruct (decide (j = i)) as [->|Hne]; [|by destruct Ho as (Hj & _); unfold mbox_of; rewrite Hj].
    split; [done|]. split; [|done]. destruct Ho as (_ & Hst' & _). by injection Hst'.
  - intros j Hj Hsj. destruct (decide (j = i)) as [->|Hne]; [done|]. by apply Hoth.
  - intros j Hj. unfold one. destruct (decide (j = i)) as [->|Hne]; [done|]. destruct (Hoth j Hj Hne) as (_ & _ & -> & _). lia.
  - intros j Hj. destruct (decide (j = i)) as [->|Hne]; [done|]. rewrite app_nil_r. by apply Hoth.
Qed.

Context `{Session}.

(** The one session, when it is informed. *)
Definition only_to i w (b : list Z) (j : Z) : list Z := if bool_decide (j = i /\ informed w i = true) then b else [].

Lemma notify_session_spec i msg (needed : Z) w :
  i ∈ l -> table_ok (ss w) l -> sendable msg ->
  (informed w i = true -> serving i l w /\ queued i w + 1 <= cf_MaxSessionMessages (cf (core w))) ->
  wp (notify_session i msg needed) (fun _ w' => told (only_to i w (mess_bytes msg)) (one i) w w' /\ gs w' = gs w) never w.
Proof.
  intros Hi Ht Hmsg Hr. apply wp_and_any; [|apply kept_notify_session]. destruct (table_range _ _ _ Ht Hi) as [Hi0 Hi1].
  unfold notify_session. rewrite (proj2 (Z.ltb_ge i 0)) by lia. apply wp_bind, wp_gets.
  assert (Hno : informed w i = false -> told (only_to i w (mess_bytes msg)) (one i) w w).
  { intros E. apply told_nothing; [done|done|]. intros j _. unfold only_to, one. rewrite bool_decide_false by (rewrite E; by intros [_ ?]).
    split; [done|]. destruct (decide (j = i)); lia. }
  unfold informed in *. destruct (Is_session MEMB_SESSION _) eqn:Hmb; cbn [andb] in *; [|by apply wp_ret, Hno].
  destruct (Is_session OP_SESSION (s_status (ses (ss w) i))) eqn:Hop.
  - destruct (Hr eq_refl) as [Hs Hq]. eapply wp_mono; [apply (write_spec i l msg needed w Hi Hs Hmsg); unfold queued in Hq; lia| |done].
    intros k w' (_ & Hs' & Hsv & Hq' & Hst). eapply told_ext; [|by apply told_served]. intros j Hj. split; [|done]. cbn beta.
    unfold only_to, informed. rewrite Hmb, Hop. destruct (decide (j = i)) as [E|E]; [by rewrite bool_decide_true|by rewrite bool_decide_false by tauto].
  - unfold Sess_write. rewrite (proj2 (Z.leb_le 0 i)), (proj2 (Z.leb_le i _)) by lia. cbn [andb negb]. apply wp_bind, wp_get. rewrite Hop. cbn [negb]. by apply wp_ret, Hno.
Qed.

(** The members [ms] that are informed get [b]. *)
Definition announced ms w (b : list Z) i : list Z := if bool_decide (mbox_of i w ∈ ms /\ informed w i = true) then b else [].
Definition among ms w i : Z := if bool_decide (mbox_of i w ∈ ms) then 1 else 0.

Lemma among_one ms w i : among ms w i <= 1.
Proof. unfold among. case_bool_decide; lia. Qed.

Lemma notify_spec ms : forall msg (needed : Z) w,
  NoDup ms -> ms ⊆ mboxes (ss w) l -> table_ok (ss w) l -> sendable msg -> ready_for ms 1 w ->
  wp (notify ms msg needed) (fun _ w' => told (announced ms w (mess_bytes msg)) (among ms w) w w' /\ gs w' = gs w) never w.
Proof.
  induction ms as [|m ms IH]; intros msg needed w Hn Hsub Ht Hmsg Hr; cbn [notify].
  { apply wp_ret. split; [|done]. apply told_nothing; [done|done|]. intros i Hi. unfold announced, among.
    rewrite !bool_decide_false by (rewrite ?elem_of_nil; tauto). done. }
  apply NoDup_cons in Hn as [Hmn Hn]. assert (Hin : m ∈ mboxes (ss w) l) by (apply Hsub; by left).
  apply list_elem_of_fmap in Hin as (i & -> & Hi). apply wp_bind. unfold wp at 1, index_of, lift. rewrite (index_known (ss w) l i Ht Hi).
  apply wp_bind. eapply wp_mono; [apply notify_session_spec; [done|done|done|intros Hg; apply Hr; [done|by left|done]]| |done].
  intros k w1 [Ht1 Hgs1]. pose proof (td_table _ _ _ _ Ht1 Ht) as Htab1.
  assert (Hother : forall j, j ∈ l -> mbox_of j w ∈ ms -> j <> i) by (intros j Hj Hm ->; by apply Hmn).
  eapply wp_mono; [apply IH; [done| |done|done|]| |done].
  - rewrite (told_mboxes _ _ _ _ Ht1). intros b Hb. apply Hsub. by right.
  - eapply (told_ready _ _ 1 1); [exact Ht1| |by eapply ready_weaken; [by intros b Hb; right|done|exact Hr]].
    intros j Hj Hm. unfold one. rewrite decide_False by (by apply Hother). lia.
  - intros k2 w2 [Ht2 Hgs2]. split; [|congruence]. eapply told_ext; [|by eapply told_trans]. intros j Hj. cbn beta.
    unfold only_to, announced, among, one. rewrite (told_mbox _ _ _ _ j Ht1), (told_informed _ _ _ _ j Ht1).
    change (s_mbox (ses (ss w) i)) with (mbox_of i w).
    destruct (decide (j = i)) as [->|Hne].
    + rewrite !(bool_decide_false (mbox_of i w ∈ ms /\ _)), !(bool_decide_false (mbox_of i w ∈ ms)), !(bool_decide_true (_ ∈ _ :: _)) by (tauto || by left).
      split; [|lia]. rewrite app_nil_r. apply (f_equal (fun b : bool => if b then _ else _)), bool_decide_ext. split; [intros [_ ?]; by split; [left|]|tauto].
    + assert (Hmb : mbox_of j w <> mbox_of i w).
      { intros E. apply Hne. by eapply (key_unique s_mbox (ss w) l); [apply (tb_mboxes _ _ Ht)| | |]. }
      rewrite (bool_decide_false (j = i /\ _)) by tauto. cbn [app]. split.
      * apply (f_equal (fun b : bool => if b then _ else _)), bool_decide_ext. rewrite elem_of_cons. tauto.
      * rewrite (bool_decide_ext (mbox_of j w ∈ mbox_of i w :: ms) (mbox_of j w ∈ ms)) by (rewrite elem_of_cons; tauto). lia.
Qed.
End told.
