(* ===== verification/GroupsLocal.v ===== *)
(** * The groups and the sessions of a daemon, and the membership messages
      as bytes ([make_message], [G_send_lightweight_memb])

    The private name of a local member is made of the name of its session and
    of the daemon.  The mailboxes of a group are those of the sessions of its
    local members: [groups_inv] says so of all groups, and that they and the
    session table are what they should be.  The second part says what a client
    gets when somebody joins, leaves or disconnects: the header with the cause,
    all members, the group id and the one who came or went. *)

From stdpp Require Import base strings numbers option gmap list sorting.
From S2P Require Import Prelude Wire Bytes Config Events State Sample Network FlowControl MembSets MembCore Deliver Delivery ProtSend Retrans Requests Packing Sending EndToEnd Message EventsFd Names.
From S2P Require Import GroupState SessState SessTable SessDir SessWrite SessStream SessServe SessDeliver SessFanout SessRead Skl Groups GroupsOk GroupsTell.

(** ** Private names *)

Section names.
Implicit Types (p n q s : list Z).

Lemma strchr_hash_Some s n r : strchr_hash s = Some (n, Some r) -> s = n ++ HASH :: r /\ Forall (fun c => c <> 0) n.
Proof.
  revert n r. induction s as [|c s IH]; intros n r; cbn; [done|]. destruct (Z.eqb_spec c HASH) as [->|Hh]; [by intros [= <- <-]|].
  destruct (Z.eqb_spec c 0) as [|H0]; [done|]. destruct (strchr_hash s) as [[k o]|]; [|done]. intros [= <- ->].
  destruct (IH k r eq_refl) as [-> Hk]. split; [done|by constructor].
Qed.

Lemma cstr_app_nonzero s r : Forall (fun c => c <> 0) s -> cstr (s ++ r) = s ++ cstr r.
Proof. induction 1 as [|c s Hc Hs IH]; [done|]. cbn. rewrite (proj2 (Z.eqb_neq _ _) Hc). by rewrite IH. Qed.

(** What a private group name says. *)
Lemma private_parts p n q :
  G_private_to_names p = inr (Some (n, q)) ->
  cstr p = private_group n q /\ legal_name MAX_PRIVATE_NAME n /\ legal_name (MAX_PROC_NAME - 1) q.
Proof.
  destruct p as [|c0 s]; [done|]. cbn [G_private_to_names]. destruct (strchr_hash s) as [[n' [r|]]|] eqn:E; [|done..].
  destruct (strchr_hash_Some _ _ _ E) as [-> Hn0]. destruct (negb (has_nul r)); [done|].
  cbv zeta. destruct (negb (c0 =? HASH) || _ || _ || _ || _) eqn:Hb; [discriminate|].
  destruct (negb (forallb legal_char n' && _)) eqn:Hleg; [discriminate|]. intros [= <- <-].
  apply negb_false_iff, andb_true_iff in Hleg as [Hl1 Hl2].
  apply orb_false_iff in Hb as [[[[H1%negb_false_iff%Z.eqb_eq H2%Z.ltb_ge]%orb_false_iff H3%Z.ltb_ge]%orb_false_iff H4%Z.leb_gt]%orb_false_iff H5%Z.ltb_ge].
  subst c0.
  assert (HN : legal_name MAX_PRIVATE_NAME n') by (split; [lia|done]). assert (HQ : legal_name (MAX_PROC_NAME - 1) (cstr r)) by (split; [lia|done]).
  split; [|done]. rewrite private_group_short by done. change (HASH :: n' ++ HASH :: r) with ([HASH] ++ n' ++ [HASH] ++ r).
  rewrite !cstr_app_nonzero by (done || by repeat constructor). done.
Qed.

Lemma private_group_cstr n q :
  legal_name MAX_PRIVATE_NAME n -> legal_name (MAX_PROC_NAME - 1) q ->
  cstr (private_group n q) = private_group n q /\ Z.of_nat (length (private_group n q)) < MAX_GROUP_NAME.
Proof.
  intros Hn Hq. rewrite private_group_short by done. split.
  - apply cstr_nul_free. constructor; [done|]. apply Forall_app. split; [by eapply legal_name_no_nul|]. constructor; [done|by eapply legal_name_no_nul].
  - destruct Hn as [Hn _], Hq as [Hq _]. cbn [length]. rewrite length_app. cbn [length].
    unfold MAX_GROUP_NAME, MAX_PRIVATE_NAME, MAX_PROC_NAME in *. lia.
Qed.

(** The field of a private name, filled from what a client sent. *)
Definition private_field n q : list Z := strncpy (private_group n q) MAX_GROUP_NAME.

Lemma strncpy_ext s s' : cstr s = cstr s' -> strncpy s MAX_GROUP_NAME = strncpy s' MAX_GROUP_NAME.
Proof. unfold strncpy. by intros ->. Qed.
Lemma private_field_of p n q :
  G_private_to_names p = inr (Some (n, q)) ->
  strncpy p MAX_GROUP_NAME = private_field n q /\ Z.of_nat (length (cstr p)) < MAX_GROUP_NAME /\ padded (private_field n q).
Proof.
  intros Hp. destruct (private_parts p n q Hp) as (Hc & Hn & Hq). destruct (private_group_cstr n q Hn Hq) as [Hcc Hl].
  split; [apply strncpy_ext; by rewrite Hc, Hcc|]. split; [by rewrite Hc|]. apply strncpy_padded. by rewrite Hcc.
Qed.
Lemma private_field_inj n q n' q' :
  legal_name MAX_PRIVATE_NAME n -> legal_name (MAX_PROC_NAME - 1) q ->
  legal_name MAX_PRIVATE_NAME n' -> legal_name (MAX_PROC_NAME - 1) q' ->
  private_field n q = private_field n' q' -> n = n' /\ q = q'.
Proof.
  intros Hn Hq Hn' Hq' E. destruct (private_group_cstr n q Hn Hq) as [Hc Hl], (private_group_cstr n' q' Hn' Hq') as [Hc' Hl'].
  assert (Eg : private_group n q = private_group n' q').
  { rewrite <- Hc, <- Hc'. rewrite <- (proj2 (strncpy_padded (private_group n q) ltac:(by rewrite Hc))).
    rewrite <- (proj2 (strncpy_padded (private_group n' q') ltac:(by rewrite Hc'))). unfold private_field in E. by rewrite E. }
  rewrite !private_group_short in Eg by done. injection Eg as Eg. apply (f_equal strchr_hash) in Eg.
  rewrite (strchr_hash_app _ n q Hn), (strchr_hash_app _ n' q' Hn') in Eg. by injection Eg as -> ->.
Qed.
End names.

(* --------------------------------------------------------------------- *)
(** ** The invariant *)

Section local.
Implicit Types (w : sess_world) (g : group) (i : Z) (l : list Z).

Definition local_name w i : member := private_field (s_name (ses (ss w) i)) (sx_My_name (ss w)).
(** The members of a group here. *)
Definition local_members w g : list member := members_of_daemon (Cn_active (gs w)) g (g_My_id (gs w)).

(** The mailboxes of a group are those of its local members, which all have a
    session. *)
Record local_ok l w g : Prop := mkLocalOk {
  lc_boxes : NoDup (gr_mboxes g);
  lc_in : forall b, b ∈ gr_mboxes g <-> exists i, i ∈ l /\ b = mbox_of i w /\ local_name w i ∈ local_members w g;
  lc_sessions : forall x, x ∈ local_members w g -> exists i, i ∈ l /\ x = local_name w i;
}.

(** What names and addresses the daemons have. *)
Record conf_ok w : Prop := mkConfOk {
  co_ids : NoDup (p_id <$> conf_allprocs (cf_Config (cf (core w))));
  co_range : Forall (fun p => 0 <= p_id p < 2 ^ 32) (conf_allprocs (cf_Config (cf (core w))));
  co_me : exists me, me ∈ conf_allprocs (cf_Config (cf (core w))) /\ str_bytes (p_name me) = sx_My_name (ss w) /\ p_id me = g_My_id (gs w);
  co_name : legal_name (MAX_PROC_NAME - 1) (sx_My_name (ss w));
}.

Record groups_inv l w : Prop := mkGroupsInv {
  gi_table : table_ok (ss w) l;
  gi_names : forall i, i ∈ l -> legal_name MAX_PRIVATE_NAME (s_name (ses (ss w) i));
  gi_boxes : forall i, i ∈ l -> 0 <= mbox_of i w;
  gi_conf : conf_ok w;
  gi_groups : groups_list_ok (Cn_active (gs w)) (GroupsList (gs w));
  gi_number : Num_groups (gs w) = Z.of_nat (length (GroupsList (gs w)));
  gi_local : Forall (local_ok l w) (GroupsList (gs w));
}.

Lemma proc_of_name w n q :
  Conf_proc_by_name (cf_Config (cf (core w))) n = Some q ->
  q ∈ conf_allprocs (cf_Config (cf (core w))) /\ str_bytes (p_name q) = n.
Proof.
  unfold Conf_proc_by_name. intros H. apply find_some in H as [Hq E%bool_decide_eq_true]. split; [by apply list_elem_of_In|done].
Qed.
(** A process with the address of this one has its name. *)
Lemma my_name w n q : conf_ok w -> Conf_proc_by_name (cf_Config (cf (core w))) n = Some q -> p_id q = g_My_id (gs w) -> n = sx_My_name (ss w).
Proof.
  intros Hc (Hq & <-)%proc_of_name E. destruct (co_me _ Hc) as (me & Hme & <- & Hid). pose proof (co_ids _ Hc) as Hn.
  apply list_elem_of_lookup in Hq as [a Ha], Hme as [b Hb]. assert (a = b) as <-; [|congruence].
  eapply NoDup_lookup; [exact Hn|by rewrite list_lookup_fmap, Ha|rewrite list_lookup_fmap, Hb; cbn; congruence].
Qed.
Lemma proc_range w n q : conf_ok w -> Conf_proc_by_name (cf_Config (cf (core w))) n = Some q -> u32 (p_id q) = p_id q.
Proof.
  intros Hc (Hq & _)%proc_of_name. pose proof (co_range _ Hc) as Hr. rewrite Forall_forall in Hr. by apply u32_id, Hr.
Qed.
Lemma my_range w : conf_ok w -> u32 (g_My_id (gs w)) = g_My_id (gs w).
Proof.
  intros Hc. destruct (co_me _ Hc) as (me & Hme & _ & <-). pose proof (co_range _ Hc) as Hr. rewrite Forall_forall in Hr. by apply u32_id, Hr.
Qed.

(** Sessions with the same private name are the same. *)
Lemma local_name_inj l w i j : groups_inv l w -> i ∈ l -> j ∈ l -> local_name w i = local_name w j -> i = j.
Proof.
  intros Hi Hil Hjl E. pose proof (co_name _ (gi_conf _ _ Hi)) as Hmy.
  apply private_field_inj in E as [E _]; [|by apply (gi_names _ _ Hi)|done|by apply (gi_names _ _ Hi)|done].
  eapply (key_unique s_name (ss w) l); [|done|done|done]. apply sorted_NoDup, (tb_sorted _ _ (gi_table _ _ Hi)).
Qed.

(** The session of a local private name. *)
Lemma local_session_of l w n :
  groups_inv l w -> legal_name MAX_PRIVATE_NAME n ->
  (exists i, i ∈ l /\ private_field n (sx_My_name (ss w)) = local_name w i) ->
  exists i, i ∈ l /\ Sess_get_session n (ss w) = inr i /\ local_name w i = private_field n (sx_My_name (ss w)).
Proof.
  intros Hi Hn (i & Hil & E). pose proof (co_name _ (gi_conf _ _ Hi)) as Hmy. exists i. split; [done|]. split; [|done].
  apply private_field_inj in E as [E _]; [|done|done|by apply (gi_names _ _ Hi)|done].
  destruct (lookup_name (ss w) l n (gi_table _ _ Hi)) as [(j & Hj & Hjn & ->)|[Hno _]].
  - f_equal. eapply (key_unique s_name (ss w) l); [|done|done|congruence]. apply sorted_NoDup, (tb_sorted _ _ (gi_table _ _ Hi)).
  - destruct Hno. rewrite E. by apply in_names.
Qed.

(** What matters of the sessions. *)
Lemma local_ext l w w' g :
  (forall i, mbox_of i w' = mbox_of i w /\ local_name w' i = local_name w i) -> local_members w' g = local_members w g ->
  local_ok l w g -> local_ok l w' g.
Proof.
  intros Hs Hm [L1 L2 L3]. constructor; [done| |].
  - intros b. rewrite L2. split; intros (i & Hi & E & Hx); exists i; destruct (Hs i) as [E1 E2]; rewrite ?Hm, ?E1, ?E2 in *; done.
  - intros x. rewrite Hm. intros (i & Hi & ->)%L3. exists i. by destruct (Hs i) as [_ ->].
Qed.

(** Telling the members leaves all this as it is. *)
Lemma told_inv l f n w w' : told l f n w w' -> gs w' = gs w -> groups_inv l w -> groups_inv l w'.
Proof.
  intros Ht Hgs [H1 H2 Hb H3 H4 H5 H6]. pose proof (td_session _ _ _ _ _ Ht) as Hs. pose proof (td_name _ _ _ _ _ Ht) as Hn.
  pose proof (told_limit _ _ _ _ _ Ht) as Hcf. constructor; rewrite ?Hgs; try done.
  - by apply (td_table _ _ _ _ _ Ht).
  - intros i Hi. destruct (Hs i) as (_ & -> & _). by apply H2.
  - intros i Hi. destruct (Hs i) as (-> & _). by apply Hb.
  - destruct H3 as [C1 C2 C3 C4]. constructor; by rewrite ?Hcf, ?Hn, ?Hgs.
  - eapply Forall_impl; [exact H6|]. intros g. apply local_ext; [|unfold local_members; by rewrite Hgs].
    intros i. unfold local_name. destruct (Hs i) as (-> & -> & _). by rewrite Hn.
Qed.
End local.

(** What fits in a message behind its header. *)
Definition max_body : Z := MAX_SCATTER_ELEMENTS * sizeof_packet_body - sizeof_message_header.

Lemma header_elem h : header_ok h -> elem_bytes (mkElem (put_header h []) sizeof_message_header) = enc_header h.
Proof.
  intros (_ & Hn & _). pose proof (enc_header_length h Hn) as Hl. unfold elem_bytes, put_header, put_bytes. cbn [se_buf se_len].
  change (Z.to_nat 0) with 0%nat. cbn [resize take app]. rewrite drop_nil, app_nil_r. by rewrite <- Hl, get_bytes_whole.
Qed.

Lemma make_message_spec h b :
  header_ok h -> is_mess REJECT_MESS (mh_type h) = false -> Z.of_nat (length b) <= max_body ->
  exists m, make_message h b = inr m /\ sendable m /\ mess_bytes m = enc_header h ++ b.
Proof.
  intros Hh Hrej Hb. unfold max_body in Hb. change (MAX_SCATTER_ELEMENTS * sizeof_packet_body - sizeof_message_header) with 143152 in Hb.
  unfold make_message. change MAX_MESSAGE_BODY_LEN with 144000. rewrite (proj2 (Z.ltb_ge _ _)) by lia.
  set (e0 := mkElem (put_header h []) sizeof_message_header).
  pose proof (fragments_of_buffer e0 b (Z.of_nat (length b)) eq_refl ltac:(lia)) as Hf.
  change (with_message_header (fun _ => h) Message_new_message) with [e0].
  destruct (Message_Buffer_to_Message_Fragments [e0] b _) as [e|m].
  { destruct Hf as [_ Hf]. change (MAX_SCATTER_ELEMENTS * sizeof_packet_body) with 143200 in Hf. change sizeof_message_header with 48 in Hf. lia. }
  destruct Hf as (Hok & Hc & Hby & Hmh & _). pose proof (header_elem h Hh : elem_bytes e0 = _) as He0. rewrite He0, get_bytes_whole in Hby. clear He0. exists m. split; [done|]. split; [|done].
  assert (Hhead : Message_get_message_header m = h) by (rewrite Hmh; by apply get_header_put). destruct Hh as (_ & Hn & _).
  apply (f_equal length) in Hby. rewrite length_app in Hby. change sizeof_message_header with 48 in *.
  assert (Hl : length (enc_header h) = 48%nat) by (apply Nat2Z.inj, (enc_header_length h Hn)). rewrite Hl in Hby.
  destruct m as [|e m]; [change (length (mess_bytes [])) with 0%nat in Hby; lia|]. exists e, m. split; [done|]. split; [by apply Hok|]. split.
  - change sizeof_message_header with 48. rewrite mess_bytes_cons, length_app, elem_bytes_length in Hby. destruct m as [|e' m]; [change (length (mess_bytes [])) with 0%nat in Hby; lia|]. unfold chunked in Hc. cbn in Hc.
    apply Forall_cons in Hc as [-> _]. change sizeof_packet_body with 1432. lia.
  - rewrite <- header_cons with (m := m). by rewrite Hhead, Hrej.
Qed.

(** The message about one member. *)
Definition memb_message (g : group) (caused : Z) (m : member) : list Z :=
  let '(h, b) := G_build_memb_buf g caused in
  enc_header (add_data_len (3 * 4 + MAX_GROUP_NAME) h) ++ b ++ enc32 1 ++ enc32 0 ++ enc32 1 ++ m.
Definition leave_message (g : group) : list Z :=
  enc_header (mkMessageHeader (u32 (Set_endian CAUSED_BY_LEAVE)) (gr_name g) 0 (Set_endian 0) 0).

(** The members fit in a message. *)
Definition fits (g : group) : Prop := gr_num_members g <= 4471.

Section send.
Context `{Session}.
Context (cn : configuration).
Implicit Types (g : group) (w : sess_world) (m : member) (l : list Z).

Lemma concat_padded (ms : list member) : Forall padded ms -> Z.of_nat (length (concat ms)) = MAX_GROUP_NAME * Z.of_nat (length ms).
Proof.
  induction 1 as [|m ms Hm Hms IH]; [done|]. cbn [concat length]. rewrite length_app, (padded_length m Hm). change MAX_GROUP_NAME with 32 in *. lia.
Qed.
Lemma all_padded g : group_ok cn g -> Forall padded (group_members (gr_DaemonsList g)).
Proof.
  intros Hg. unfold group_members. apply Forall_bind. eapply Forall_impl; [apply (mo_daemons cn g), Hg|]. by intros d [].
Qed.

Lemma lightweight_spec l g caused m w :
  group_ok cn g -> fits g -> padded m -> caused = CAUSED_BY_JOIN \/ caused = CAUSED_BY_LEAVE \/ caused = CAUSED_BY_DISCONNECT ->
  NoDup (gr_mboxes g) -> gr_mboxes g ⊆ mboxes (ss w) l -> table_ok (ss w) l -> ready_for l (gr_mboxes g) 1 w ->
  wp (G_send_lightweight_memb g caused m)
    (fun _ w' => told l (announced (gr_mboxes g) w (memb_message g caused m)) (among (gr_mboxes g) w) w w' /\ gs w' = gs w) never w.
Proof.
  intros Hg Hfit Hm Hc Hn Hsub Ht Hr. unfold G_send_lightweight_memb. cbn [G_build_memb_buf]. set (b := _ ++ _ ++ _ ++ _ ++ m).
  pose proof (mo_number cn g (go_members cn g Hg)) as Hnum. pose proof (concat_padded _ (all_padded g Hg)) as Hlen.
  pose proof (padded_length m Hm) as Hml. pose proof (padded_length _ (go_name cn g Hg)) as Hnl. unfold fits in Hfit. change MAX_GROUP_NAME with 32 in *.
  assert (Hb : Z.of_nat (length b) = 32 * gr_num_members g + 56).
  { unfold b. rewrite !length_app, Hml. change (length (enc_group_id (gr_grp_id g))) with 12%nat. change (length (enc32 1)) with 4%nat. change (length (enc32 0)) with 4%nat. lia. }
  set (h := add_data_len _ _). assert (Hh : header_ok h).
  { split; [apply u32_range|]. split; [change (mh_private_group_name h) with (gr_name g); rewrite Hnl; done|].
    split; [change (mh_num_groups h) with (gr_num_members g); lia|]. split; [done|]. done. }
  assert (Hrej : is_mess REJECT_MESS (mh_type h) = false) by (destruct Hc as [-> | [-> | ->]]; by vm_compute).
  destruct (make_message_spec h b Hh Hrej) as (msg & Hmk & Hs & Hby); [unfold max_body; change (_ - _) with 143152; lia|].
  apply wp_bind. unfold wp at 1, lift. rewrite Hmk. apply wp_bind. eapply wp_mono; [by apply (notify_spec l)| |done].
  intros k w' [H1 H2]. apply wp_ret. split; [|done]. rewrite Hby in H1. exact H1.
Qed.

Lemma self_leave_spec l g i w :
  group_ok cn g -> i ∈ l -> table_ok (ss w) l -> (informed w i = true -> serving i l w /\ queued i w + 1 <= cf_MaxSessionMessages (cf (core w))) ->
  wp (G_send_self_leave g i) (fun _ w' => told l (only_to i w (leave_message g)) (one i) w w' /\ gs w' = gs w) never w.
Proof.
  intros Hg Hi Ht Hr. unfold G_send_self_leave. cbv zeta. set (h := mkMessageHeader _ _ _ _ _). pose proof (padded_length _ (go_name cn g Hg)) as Hnl.
  assert (Hh : header_ok h) by (split; [apply u32_range|]; split; [change (mh_private_group_name h) with (gr_name g); by rewrite Hnl|]; by split_and!).
  destruct (make_message_spec h [] Hh) as (msg & Hmk & Hs & Hby); [by vm_compute|done|].
  apply wp_bind. unfold wp at 1, lift. rewrite Hmk. apply wp_bind. eapply wp_mono; [by apply (notify_session_spec l)| |done].
  intros k w' [H1 H2]. apply wp_ret. split; [|done]. rewrite Hby, app_nil_r in H1. exact H1.
Qed.
End send.
