(* ===== verification/GroupsJoin.v ===== *)
(** * Joining a group ([G_handle_join])

    A join that comes up from the core adds exactly the joiner to exactly its
    group, at the daemon its private name says, and tells exactly the members
    of the group here, the joiner among them when it is a client of this
    daemon. *)

From Stdlib Require Import ZArith Lia Sorting.Sorted.
From stdpp Require Import base strings numbers option gmap list sorting.
From S2P Require Import Prelude Wire Bytes Config Events EventsFd State Network FlowControl MembSets MembCore ProtSend.
From S2P Require Import Sample Retrans Requests Packing Deliver Delivery Sending EndToEnd Message Names GroupState SessState SessTable SessDir SessWrite SessStream SessServe SessDeliver SessFanout SessRead Skl Groups GroupsOk GroupsMerge GroupsTell GroupsLocal.

(** ** One group of the list changes *)

Section holds.
Implicit Types (w : sess_world) (g : group) (n : list Z).

Definition groups_w (l : list group) (k : Z) w : sess_world := mkSessWorld (ss w) (core w) (with_groups l k (gs w)).

(** The state [w'] is [w] but for the group [n], which is [g]. *)
Record holds w n g w' : Prop := mkHolds {
  hd_world : exists l k, w' = groups_w l k w;
  hd_names : names_ok (GroupsList (gs w'));
  hd_get : forall x, G_get_group x (GroupsList (gs w')) = if G_compare_nameptr x n =? 0 then Some g else G_get_group x (GroupsList (gs w));
  hd_name : G_compare_nameptr n (gr_name g) = 0;
  hd_padded : padded (gr_name g);
  hd_number : Num_groups (gs w') - Z.of_nat (length (GroupsList (gs w'))) = Num_groups (gs w) - Z.of_nat (length (GroupsList (gs w)));
}.

Lemma same_key x n n' : G_compare_nameptr n n' = 0 -> (G_compare_nameptr x n' =? 0) = (G_compare_nameptr x n =? 0).
Proof. intros E. by rewrite (compare_name_ext_r x n n' E). Qed.

Lemma holds_put w n g g' w' :
  holds w n g w' -> gr_name g' = gr_name g -> wp (put_group g') (fun _ w2 => holds w n g' w2) never w'.
Proof.
  intros [(l & k & ->) Hn Hg Hk Hp Hnum] E. unfold put_group. apply wp_modify. constructor; [by exists (write_group g' l), k|exact (write_names g' l Hn)| |by rewrite E|by rewrite E|].
  - intros x. change (GroupsList _) with (write_group g' l) at 1. change (GroupsList (gs (groups_w l k w))) with l in Hg.
    rewrite get_write, E, (same_key x n), Hg by done. destruct (_ =? 0); [done|]. by destruct (G_get_group x _).
  - cbn in *. unfold write_group. by rewrite length_fmap.
Qed.

(** What holds of all groups holds again. *)
Lemma holds_Forall (P : group -> Prop) w n g w' :
  holds w n g w' -> names_ok (GroupsList (gs w)) -> Forall P (GroupsList (gs w)) -> P g -> Forall P (GroupsList (gs w')).
Proof.
  intros [_ Hn Hg _ _ _] Hl Hall Hp. apply Forall_forall. intros h Hh. apply (get_group_in h _ Hn) in Hh. rewrite Hg in Hh.
  destruct (_ =? 0); [by injection Hh as <-|]. apply get_group_names in Hh as [Hh _]; [|done]. rewrite Forall_forall in Hall. by apply Hall.
Qed.

(** The view after a group has changed. *)
Lemma holds_view cn w n g w' x p m :
  holds w n g w' ->
  is_member cn (GroupsList (gs w')) x p m <->
    if G_compare_nameptr x n =? 0 then m ∈ members_of_daemon cn g p else is_member cn (GroupsList (gs w)) x p m.
Proof.
  intros H. unfold is_member. setoid_rewrite (hd_get _ _ _ _ H x). destruct (_ =? 0); [|done]. split; [by intros (h & [= <-] & ?)|by exists g].
Qed.

Lemma holds_same w n g : names_ok (GroupsList (gs w)) -> padded (gr_name g) -> G_get_group n (GroupsList (gs w)) = Some g -> holds w n g w.
Proof.
  intros Hn Hp Hg. pose proof (get_group_names _ _ _ Hn Hg) as [_ Hk]. constructor; [|done| |done|done|done].
  - exists (GroupsList (gs w)), (Num_groups (gs w)). destruct w as [s c []]. done.
  - intros x. destruct (Z.eqb_spec (G_compare_nameptr x n) 0) as [E|]; [|done]. by rewrite (get_group_same x n).
Qed.

(** The session layer and all but the groups are the same. *)
Lemma holds_ss w n g w' : holds w n g w' -> ss w' = ss w /\ core w' = core w /\ Cn_active (gs w') = Cn_active (gs w) /\ g_My_id (gs w') = g_My_id (gs w) /\
  Gstate (gs w') = Gstate (gs w) /\ G_Trans_memb (gs w') = G_Trans_memb (gs w).
Proof. intros [(l & k & ->) _ _ _ _ _]. by destruct w as [s c []]. Qed.
Lemma holds_mbox w n g w' i : holds w n g w' -> mbox_of i w' = mbox_of i w /\ local_name w' i = local_name w i /\ informed w' i = informed w i.
Proof. intros (Hs & _)%holds_ss. unfold mbox_of, local_name, informed. by rewrite Hs. Qed.
Lemma holds_members w n g w' h : holds w n g w' -> local_members w' h = local_members w h.
Proof. intros (_ & _ & Hc & Hm & _)%holds_ss. unfold local_members. by rewrite Hc, Hm. Qed.
Lemma holds_local w n g w' l h : holds w n g w' -> local_ok l w' h <-> local_ok l w h.
Proof.
  intros H. split; apply local_ext; try (intros i; by destruct (holds_mbox w n g w' i H) as (-> & -> & _)); by rewrite (holds_members w n g w' h H).
Qed.

Lemma holds_inv l w n g w' :
  holds w n g w' -> groups_inv l w -> group_ok (Cn_active (gs w)) g -> local_ok l w g -> groups_inv l w'.
Proof.
  intros H [H1 H2 Hb H3 H4 H5 H6] Hg Hl. pose proof (holds_ss _ _ _ _ H) as (Es & Ec & Ea & Em & _). destruct H4 as [Hn Hall].
  constructor; rewrite ?Es, ?Ea; try done.
  - intros i. unfold mbox_of. rewrite Es. apply Hb.
  - destruct H3 as [C1 C2 C3 C4]. constructor; by rewrite ?Ec, ?Es, ?Em.
  - split; [apply (hd_names _ _ _ _ H)|]. by apply (holds_Forall _ w n g w').
  - pose proof (hd_number _ _ _ _ H). lia.
  - apply (holds_Forall _ w n g w'); [done|done| |].
    + eapply Forall_impl; [exact H6|]. intros h. by apply holds_local with (n := n) (g := g).
    + by apply (holds_local w n g w' l g).
Qed.
End holds.

(* --------------------------------------------------------------------- *)
(** ** The joiner's group and daemon *)

Section join.
Implicit Types (w : sess_world) (g : group) (n m : list Z) (d : daemon_members).

Definition new_group w n : group :=
  mkGroup (strncpy n MAX_GROUP_NAME) (mkGroupId (match Gstate (gs w) with GOP => G_Reg_memb_id (gs w) | _ => G_Trans_memb_id (gs w) end) 0) false 0 [] [].
(** The group of the name, or a new one. *)
Definition group_for w n g : Prop :=
  G_get_group n (GroupsList (gs w)) = Some g \/ (G_get_group n (GroupsList (gs w)) = None /\ g = new_group w n).

Lemma new_group_name w n : Z.of_nat (length (cstr n)) < MAX_GROUP_NAME -> padded (gr_name (new_group w n)) /\ G_compare_nameptr n (gr_name (new_group w n)) = 0.
Proof.
  intros Hn. destruct (strncpy_padded n Hn) as [Hp Hc]. split; [exact Hp|]. apply compare_name_eq. unfold name_of. cbn [gr_name new_group]. by rewrite Hc.
Qed.

Lemma join_group_spec w n :
  groups_list_ok (Cn_active (gs w)) (GroupsList (gs w)) -> Z.of_nat (length (cstr n)) < MAX_GROUP_NAME ->
  wp (join_group n) (fun g w' => holds w n g w' /\ group_for w n g) never w.
Proof.
  intros Hok Hn. unfold join_group. apply wp_bind, wp_get. pose proof Hok as [Hs _]. destruct (G_get_group n (GroupsList (gs w))) as [g|] eqn:Hg.
  - apply wp_ret. split; [|by left]. apply holds_same; [done| |done]. by apply (get_group_ok (Cn_active (gs w))) in Hg as [[? _ _] _].
  - unfold strcpy_name. rewrite (proj2 (Z.leb_gt _ _)) by done. unfold wp at 1, bind at 1, lift.
    destruct (new_group_name w n Hn) as [Hp Hk]. fold (new_group w n). set (g := new_group w n) in *.
    apply wp_bind, wp_modify, wp_ret. split; [|right; done].
    assert (Hnone : G_get_group (gr_name g) (GroupsList (gs w)) = None) by (rewrite <- (get_group_same n) by done; done).
    constructor; [by exists (put_new_group g (GroupsList (gs w))), (Num_groups (gs w) + 1)|exact (put_new_names g _ Hs)| |done|done|].
    + intros x. change (GroupsList _) with (put_new_group g (GroupsList (gs w))) at 1. by rewrite (get_put_new x g _ Hs), (same_key x n).
    + cbn. unfold put_new_group. rewrite (Permutation_length (skl_put_Permutation gr_name G_compare_nameptr g _ Hs Hnone)). cbn [length]. lia.
Qed.

Lemma group_for_ok w n g :
  groups_list_ok (Cn_active (gs w)) (GroupsList (gs w)) -> Z.of_nat (length (cstr n)) < MAX_GROUP_NAME -> group_for w n g ->
  padded (gr_name g) /\ members_ok (Cn_active (gs w)) g.
Proof.
  intros Hok Hn [Hg|[_ ->]].
  - by apply (get_group_ok (Cn_active (gs w))) in Hg as [[? ? _] _].
  - split; [by apply new_group_name|]. by repeat constructor.
Qed.

(** The daemon in the group, a new one without members when there is none. *)
Definition new_daemon w g p : daemon_members :=
  mkDaemonMembers (s32 p)
    (if bool_decide (Gstate (gs w) = GOP) || negb (Conf_id_in_conf (G_Trans_memb (gs w)) p =? -1) then gi_memb_id (gr_grp_id g) else unknown_memb_id) [].

Lemma join_daemon_spec w n g p w' :
  holds w n g w' -> members_ok (Cn_active (gs w)) g ->
  wp (join_daemon g p) (fun r w2 => holds w n r.1 w2 /\ daemon_of (Cn_active (gs w)) g p r.2 /\
      (r.1 = g /\ G_get_daemon (Cn_active (gs w)) g p = Some r.2 \/ r.1 = put_daemon (Cn_active (gs w)) r.2 g /\ dm_MembersList r.2 = [] /\ r.2 = new_daemon w g p)) never w'.
Proof.
  intros H Hg. pose proof (holds_ss _ _ _ _ H) as (_ & _ & Ea & _ & Est & Etr). unfold join_daemon. apply wp_bind, wp_get. rewrite Ea, Est, Etr.
  destruct (G_get_daemon (Cn_active (gs w)) g p) as [d|] eqn:Hd.
  - apply wp_ret. split; [done|]. split; [|by left]. apply (find_daemon_Some (Cn_active (gs w))) in Hd as Hd2; [|done]. destruct Hd2 as [Hin E].
    split; [|split; [done|by left]]. pose proof (mo_daemons _ _ Hg) as Hall. rewrite Forall_forall in Hall. by apply Hall.
  - fold (new_daemon w g p). cbv zeta. apply wp_bind. eapply wp_mono; [apply (holds_put w n g); [exact H|done]| |done].
    intros [] w2 H2. apply wp_ret. split; [exact H2|]. split; [|right; done]. split; [apply s32_range|]. split; [apply u32_s32|]. by right.
Qed.

(** The entry of the joiner at its daemon. *)
Lemma write_entered cn g g1 d p m :
  members_ok cn g -> daemon_of cn g p d -> (g1 = g /\ G_get_daemon cn g p = Some d) \/ g1 = put_daemon cn d g ->
  write_daemon (put_member m d) g1 = put_daemon cn (put_member m d) g.
Proof.
  intros Hg (Hid & Hp & _) Hg1. pose proof (mo_sorted cn g Hg) as Hs.
  destruct Hg1 as [[-> Hd]| ->].
  - apply (write_is_put cn _ d); [done|]. change (dm_proc_id (put_member m d)) with (dm_proc_id d). by rewrite (get_daemon_same cn g _ p).
  - rewrite (write_is_put cn _ d).
    + by apply put_daemon_twice.
    + by apply (skl_put_ok dm_proc_id (G_compare_proc_ids_by_conf cn)).
    + rewrite get_put_daemon by done. by rewrite Z.eqb_refl.
Qed.

(** Nothing of the group is waiting for the end of a membership change. *)
Record settled w n p : Prop := mkSettled {
  se_group : forall g, group_for w n g ->
    gr_changed g = false /\ Is_unknown_memb_id (gi_memb_id (gr_grp_id g)) = false /\
    Forall (fun d => Is_partitioned_daemon d = false) (gr_DaemonsList g);
  se_came : Gstate (gs w) = GOP \/ Conf_id_in_conf (G_Trans_memb (gs w)) p <> -1;
}.

Lemma settled_daemon w n g p d :
  settled w n p -> group_for w n g -> members_ok (Cn_active (gs w)) g ->
  G_get_daemon (Cn_active (gs w)) g p = Some d \/ d = new_daemon w g p -> Is_partitioned_daemon d = false.
Proof.
  intros [Hs Hc] Hg Hok. destruct (Hs g Hg) as (_ & Hid & Hd). intros [Hin| ->].
  - apply (find_daemon_Some (Cn_active (gs w))) in Hin as [Hin _]; [|done]. rewrite Forall_forall in Hd. by apply Hd.
  - unfold Is_partitioned_daemon, new_daemon. cbn [dm_memb_id]. rewrite (proj2 (orb_true_iff _ _)); [exact Hid|].
    destruct Hc as [Hc|Hc]; [left; by apply bool_decide_eq_true|right]. by rewrite (proj2 (Z.eqb_neq _ _)).
Qed.

(** The mailbox of the joiner [n] of the daemon [p]. *)
Definition joiner_box (l : list Z) w (p : Z) (n : list Z) (b : Z) : Prop :=
  (p = g_My_id (gs w) /\ exists i, i ∈ l /\ s_name (ses (ss w) i) = n /\ b = mbox_of i w) \/ (p <> g_My_id (gs w) /\ b = -1).

Lemma join_mbox_spec l w w' d n :
  groups_inv l w -> ss w' = ss w -> g_My_id (gs w') = g_My_id (gs w) ->
  (u32 (dm_proc_id d) = g_My_id (gs w) -> exists i, i ∈ l /\ s_name (ses (ss w) i) = n) ->
  wp (join_mbox d n) (fun b w2 => w2 = w' /\ joiner_box l w (u32 (dm_proc_id d)) n b) never w'.
Proof.
  intros Hi Hs Hm Hloc. unfold join_mbox. apply wp_bind, wp_get. rewrite Hm. apply wp_if; intros E.
  - apply Z.eqb_eq in E. destruct (Hloc E) as (i & Hil & Hin). unfold local_session. apply wp_bind, wp_bind, wp_get. rewrite Hs.
    assert (Hf : Sess_get_session n (ss w) = inr i).
    { destruct (lookup_name (ss w) l n (gi_table _ _ Hi)) as [(j & Hj & Hjn & ->)|[Hno _]].
      - f_equal. eapply (key_unique s_name (ss w) l); [|done|done|congruence]. apply sorted_NoDup, (tb_sorted _ _ (gi_table _ _ Hi)).
      - destruct Hno. rewrite <- Hin. by apply in_names. }
    unfold wp, bind, lift. rewrite Hf. destruct (table_range _ _ _ (gi_table _ _ Hi) Hil) as [H0 _]. rewrite (proj2 (Z.ltb_ge i 0)) by lia. cbn.
    split; [done|]. left. split; [done|]. exists i. split; [done|]. split; [done|]. unfold mbox_of. by rewrite Hs.
  - apply Z.eqb_neq in E. apply wp_ret. split; [done|by right].
Qed.

(** The group with the mailbox of the joiner. *)
Definition with_box g (b : Z) : group := if b =? -1 then g else set_gr_mboxes (gr_mboxes g ++ [b]) g.

Lemma local_group_for l w n g : groups_inv l w -> group_for w n g -> local_ok l w g.
Proof.
  intros Hi [Hg|[_ ->]].
  - pose proof (gi_local _ _ Hi) as Hall. rewrite Forall_forall in Hall. apply Hall.
    by apply (get_group_ok (Cn_active (gs w)) n g) in Hg as (_ & ? & _); [|by apply (gi_groups _ _ Hi)].
  - constructor; [constructor| |].
    + intros b. split; [by intros ?%elem_of_nil|]. by intros (i & _ & _ & ?%elem_of_nil).
    + by intros x ?%elem_of_nil.
Qed.

Lemma joined_local l w g d p (n q : list Z) b :
  groups_inv l w -> members_ok (Cn_active (gs w)) g -> padded (gr_name g) -> local_ok l w g -> daemon_of (Cn_active (gs w)) g p d ->
  legal_name MAX_PRIVATE_NAME n -> legal_name (MAX_PROC_NAME - 1) q -> padded (private_field n q) -> u32 p = p -> (p = g_My_id (gs w) -> q = sx_My_name (ss w)) ->
  G_get_member d (private_field n q) = None -> joiner_box l w p n b ->
  local_ok l w (with_box (entered (Cn_active (gs w)) g d (private_field n q)) b).
Proof.
  intros Hi Hg Hgn [L1 L2 L3] Hd Hn Hq Hpad Hp Hme Hf Hb. set (m := private_field n q) in *.
  destruct (entered_ok (Cn_active (gs w)) g p d m Hgn Hg Hd Hpad Hf) as [_ Hv].
  assert (Hlm : forall x, x ∈ local_members w (with_box (entered (Cn_active (gs w)) g d m) b) <-> x ∈ local_members w g \/ (p = g_My_id (gs w) /\ x = m)).
  { intros x. unfold local_members. rewrite <- (my_range w (gi_conf _ _ Hi)) at 3. rewrite <- Hp at 1.
    assert (E : members_of_daemon (Cn_active (gs w)) (with_box (entered (Cn_active (gs w)) g d m) b) (g_My_id (gs w))
                = members_of_daemon (Cn_active (gs w)) (entered (Cn_active (gs w)) g d m) (g_My_id (gs w))) by (unfold with_box; by destruct (b =? -1)).
    rewrite E, Hv. split; intros [?|[? ?]]; auto. }
  destruct Hb as [(Emy & i & Hil & Hin & ->)|[Emy ->]].
  - assert (Hm : m = local_name w i) by (unfold m, local_name; by rewrite Hin, Hme).
    assert (Hnot : m ∉ local_members w g).
    { intros Hx. unfold local_members in Hx. rewrite <- Emy in Hx. unfold members_of_daemon in Hx. destruct Hd as (Hid & Hpid & [Hd|[Hd _]]); rewrite Hd in Hx; [|by apply elem_of_nil in Hx].
      unfold G_get_member, find_member in Hf. apply (find_daemon_Some (Cn_active (gs w))) in Hd as [Hd _]; [|done].
      pose proof (mo_daemons _ _ Hg) as Hall. rewrite Forall_forall in Hall. destruct (Hall d Hd) as [_ Hs _ _].
      pose proof (proj1 (skl_find_None id G_compare_nameptr m _ Hs) Hf m Hx) as Hne. by rewrite compare_name_refl in Hne. }
    pose proof (gi_boxes _ _ Hi i Hil) as Hbox. unfold with_box in *. rewrite (proj2 (Z.eqb_neq _ _)) in * by lia. constructor.
    + cbn [gr_mboxes set_gr_mboxes]. apply NoDup_app. split; [exact L1|]. split; [|apply NoDup_singleton].
      intros x Hx ->%list_elem_of_singleton. apply L2 in Hx as (j & Hj & E & Hjm). apply Hnot. rewrite Hm.
      assert (i = j) as ->; [|done]. by eapply (key_unique s_mbox (ss w) l); [apply (tb_mboxes _ _ (gi_table _ _ Hi))|..].
    + intros x. cbn [gr_mboxes set_gr_mboxes]. rewrite elem_of_app, list_elem_of_singleton. change (gr_mboxes (entered _ g d m)) with (gr_mboxes g). rewrite L2. split.
      * intros [(j & Hj & -> & Hjm)| ->]; [exists j|exists i]; rewrite Hlm; auto.
      * intros (j & Hj & -> & Hjm). rewrite Hlm in Hjm. destruct Hjm as [Hjm|[_ Ejm]]; [left; by exists j|right].
        rewrite Hm in Ejm. by rewrite (local_name_inj l w j i).
    + intros x. rewrite Hlm. intros [Hx|[_ ->]]; [by apply L3|by exists i].
  - unfold with_box in *. cbn in Hlm |- *. constructor; [exact L1| |].
    + intros x. change (gr_mboxes (entered _ g d m)) with (gr_mboxes g). rewrite L2. split; intros (j & Hj & E & Hjm); exists j; rewrite Hlm in *; tauto.
    + intros x. rewrite Hlm. intros [Hx|[? _]]; [by apply L3|done].
Qed.
End join.

(* --------------------------------------------------------------------- *)
(** ** The handler *)

Section handler.
Context `{Session}.
Implicit Types (w : sess_world) (g : group) (n m : list Z) (d : daemon_members).

(** A client that is told has room for a message. *)
Definition all_ready (l : list Z) w : Prop := ready_for l (mboxes (ss w) l) 1 w.

(** The members of the group [g] here get the bytes. *)
Definition tells l g (b : list Z) w w' : Prop := told l (announced (gr_mboxes g) w b) (among (gr_mboxes g) w) w w'.

Lemma box_subset l w g : local_ok l w g -> gr_mboxes g ⊆ mboxes (ss w) l.
Proof. intros Hl b Hb. apply (lc_in _ _ _ Hl) in Hb as (i & Hi & -> & _). by apply in_mboxes. Qed.

(** The last steps: the group is written back and its members are told. *)
Lemma tell_group l w n g w1 caused m :
  groups_inv l w -> holds w n g w1 -> group_ok (Cn_active (gs w)) g -> local_ok l w g -> fits g -> padded m -> all_ready l w ->
  caused = CAUSED_BY_JOIN \/ caused = CAUSED_BY_LEAVE \/ caused = CAUSED_BY_DISCONNECT ->
  wp (when (negb (empty (gr_mboxes g))) (G_send_lightweight_memb g caused m))
    (fun _ w' => gs w' = gs w1 /\ groups_inv l w' /\ tells l g (memb_message g caused m) w w') never w1.
Proof.
  intros Hi Hh Hg Hl Hf Hm Hr Hc. pose proof (holds_ss _ _ _ _ Hh) as (Hs & Hco & _). pose proof (holds_inv l w n g w1 Hh Hi Hg Hl) as Hi1.
  assert (Ha : announced (gr_mboxes g) w1 = announced (gr_mboxes g) w /\ among (gr_mboxes g) w1 = among (gr_mboxes g) w).
  { unfold announced, among, informed, mbox_of. by rewrite Hs. }
  apply wp_when; intros Hb.
  - eapply wp_mono; [apply (lightweight_spec (Cn_active (gs w)) l g caused m w1)| |done]; try done.
    + apply Hl.
    + rewrite Hs. by apply box_subset.
    + apply (gi_table _ _ Hi1).
    + intros i Hil Hib Hin. unfold mbox_of, informed, queued in *. destruct (Hr i Hil) as [H1 H2].
      * by apply in_mboxes.
      * unfold informed. by rewrite <- Hs.
      * split; [|by rewrite Hs, Hco]. apply (td_serving l (fun _ => []) (fun _ => 0) w w1); [by apply told_nothing|done|done].
    + intros _ w' [H1 H2]. split; [done|]. split; [by eapply told_inv|]. destruct Ha as [E1 E2]. unfold tells. rewrite <- E1, <- E2. by apply (told_from l _ _ w w1).
  - split; [done|]. split; [done|]. apply negb_false_iff in Hb. destruct (gr_mboxes g) as [|b ms] eqn:E; [|done].
    unfold tells. rewrite E. apply told_nothing; [done|done|]. intros i _. unfold announced, among.
    rewrite !bool_decide_false by (rewrite ?elem_of_nil; tauto). done.
Qed.

(** What a join does. *)
Record joined_group (l : list Z) w n p m w' : Prop := mkJoinedGroup {
  jg_inv : groups_inv l w';
  jg_view : forall x id y, is_member (Cn_active (gs w)) (GroupsList (gs w')) x id y <->
    is_member (Cn_active (gs w)) (GroupsList (gs w)) x id y \/ (G_compare_nameptr x n = 0 /\ u32 id = p /\ y = m);
  jg_again : is_member (Cn_active (gs w)) (GroupsList (gs w)) n p m -> ss w' = ss w /\ core w' = core w;
  jg_told : ~ is_member (Cn_active (gs w)) (GroupsList (gs w)) n p m ->
    exists g, G_get_group n (GroupsList (gs w')) = Some g /\ tells l g (memb_message g CAUSED_BY_JOIN m) w w';
}.

Lemma set_unchanged g (b : bool) : gr_changed g = false -> b = false -> set_gr_changed (gr_changed g || b) g = g.
Proof. intros E ->. rewrite E. destruct g. cbn in *. by rewrite E. Qed.

(** The member that is looked up is the one that is put. *)
Lemma get_member_field d p n q : G_private_to_names p = inr (Some (n, q)) -> G_get_member d p = G_get_member d (private_field n q).
Proof.
  intros Hp. destruct (private_parts p n q Hp) as (Hc & Hn & Hq). destruct (private_field_of p n q Hp) as (<- & Hl & _).
  unfold G_get_member, find_member. induction (dm_MembersList d) as [|x l IH]; [done|]. cbn [skl_find].
  rewrite (compare_name_ext p (strncpy p MAX_GROUP_NAME)); [by rewrite IH|]. apply compare_name_eq. unfold name_of.
  by rewrite (proj2 (strncpy_padded p Hl)).
Qed.

(** [x] is a member exactly when the look-up finds it. *)
Lemma get_member_view w g p d m :
  members_ok (Cn_active (gs w)) g -> daemon_of (Cn_active (gs w)) g p d -> padded m ->
  (G_get_member d m <> None <-> m ∈ members_of_daemon (Cn_active (gs w)) g p).
Proof.
  intros Hg Hd Hm. destruct (member_list (Cn_active (gs w)) g p d Hg Hd) as [Hp Hs].
  pose proof (daemon_of_members (Cn_active (gs w)) g p d Hg Hd) as E.
  assert (E2 : members_of_daemon (Cn_active (gs w)) g p = dm_MembersList d).
  { rewrite <- E. unfold members_of_daemon. rewrite (get_daemon_same _ g p (dm_proc_id d)); [done|done|]. by destruct Hd as (_ & -> & _). }
  rewrite E2. unfold G_get_member, find_member. split.
  - destruct (skl_find _ _ m _) as [x|] eqn:Hx; [intros _|done]. apply (skl_find_Some id G_compare_nameptr m _ x Hs) in Hx as [Hx Hk].
    rewrite Forall_forall in Hp. apply (padded_same m x Hm (Hp x Hx)) in Hk as ->. done.
  - intros Hx E3. apply (skl_find_None id G_compare_nameptr m _ Hs) with (x := m) in E3; [|done]. by rewrite compare_name_refl in E3.
Qed.

(** A group that is found or new has the members that the view says. *)
Lemma group_for_view w n g p y :
  group_for w n g -> y ∈ members_of_daemon (Cn_active (gs w)) g p <-> is_member (Cn_active (gs w)) (GroupsList (gs w)) n p y.
Proof.
  unfold is_member. intros [Hg|[Hg ->]]; rewrite Hg.
  - split; [by exists g|]. by intros (h & [= <-] & ?).
  - split; [by intros ?%elem_of_nil|]. by intros (h & ? & _).
Qed.
Lemma is_member_same cn l x n p y : G_compare_nameptr x n = 0 -> is_member cn l x p y <-> is_member cn l n p y.
Proof. intros E. unfold is_member. by rewrite (get_group_same x n l E). Qed.

(** In a regular state and after a transitional membership the handlers do
    the same. *)
Lemma in_regular {A} (s : gstate) (m k : MS A) (Q : A -> sess_world -> Prop) E w :
  s = GOP \/ s = GTRANS -> wp m Q E w ->
  wp (match s with GGATHER | GGT => k | _ => m end) Q E w.
Proof. by intros [-> | ->]. Qed.

(** The joiner is new in its group. *)
Lemma enter_spec l w p n q gname g g1 d w2 id :
  groups_inv l w -> G_private_to_names p = inr (Some (n, q)) -> Z.of_nat (length (cstr gname)) < MAX_GROUP_NAME -> group_for w gname g ->
  holds w gname g1 w2 -> daemon_of (Cn_active (gs w)) g id d ->
  (g1 = g /\ G_get_daemon (Cn_active (gs w)) g id = Some d) \/ (g1 = put_daemon (Cn_active (gs w)) d g /\ dm_MembersList d = [] /\ d = new_daemon w g id) ->
  settled w gname id -> u32 id = id -> (id = g_My_id (gs w) -> q = sx_My_name (ss w)) ->
  (id = g_My_id (gs w) -> exists i, i ∈ l /\ s_name (ses (ss w) i) = n) ->
  gr_num_members g < 4471 -> all_ready l w -> G_get_member d (private_field n q) = None ->
  wp (let d := put_member (private_field n q) d in
      let g := write_daemon d g1 in
      let id := gr_grp_id g in
      let g := set_gr_grp_id (mkGroupId (gi_memb_id id) (gi_index id + 1)) (set_gr_num_members (gr_num_members g + 1) g) in
      let* new_mbox := join_mbox d n in
      let g := if new_mbox =? -1 then g else set_gr_mboxes (gr_mboxes g ++ [new_mbox]) g in
      let g := set_gr_changed (gr_changed g || Is_partitioned_daemon d) g in
      put_group g ;;
      when (negb (empty (gr_mboxes g)))
        (if gr_changed g then
           G_send_heavyweight_join g (Some (private_field n q)) new_mbox ;;
           G_send_trans_memb g
         else G_send_lightweight_memb g CAUSED_BY_JOIN (private_field n q)))
    (fun _ w' => joined_group l w gname id (private_field n q) w') never w2.
Proof.
  intros Hi Hp Hgn Hg Hh Hd Hg1 Hset Hid Hme Hloc Hfit Hr Hf. set (m := private_field n q) in *.
  destruct (private_field_of p n q Hp) as (_ & _ & Hpad). destruct (private_parts p n q Hp) as (_ & Hn & Hq).
  destruct (group_for_ok w gname g (gi_groups _ _ Hi) Hgn Hg) as [Hnm Hok]. pose proof (holds_ss _ _ _ _ Hh) as (Hs & Hco & Hac & Hmy & _).
  assert (Hpart : Is_partitioned_daemon (put_member m d) = false).
  { change (Is_partitioned_daemon d = false). eapply settled_daemon; [done|done|done|]. destruct Hg1 as [[_ ?]|(_ & _ & ?)]; auto. }
  cbv zeta. rewrite (write_entered (Cn_active (gs w)) g g1 d id m Hok Hd) by (destruct Hg1 as [?|[? _]]; auto).
  set (ge := entered (Cn_active (gs w)) g d m). change (set_gr_grp_id _ (set_gr_num_members _ (put_daemon _ (put_member m d) g))) with ge.
  destruct (entered_ok (Cn_active (gs w)) g id d m Hnm Hok Hd Hpad Hf) as [Hge Hv]. fold ge in Hge, Hv.
  apply wp_bind. eapply wp_mono; [apply (join_mbox_spec l w w2); [done|done|done|]| |done].
  { change (dm_proc_id (put_member m d)) with (dm_proc_id d). destruct Hd as (_ & -> & _). by rewrite Hid. }
  intros b w3 [-> Hb]. change (dm_proc_id (put_member m d)) with (dm_proc_id d) in Hb. assert (Hdid : u32 (dm_proc_id d) = id) by (destruct Hd as (_ & -> & _); done).
  rewrite Hdid in Hb. fold (with_box ge b). destruct (se_group _ _ _ Hset g Hg) as (Hch & _).
  rewrite set_unchanged by (done || unfold with_box; by destruct (b =? -1)).
  set (g' := with_box ge b). assert (Hch' : gr_changed g' = false) by (unfold g', with_box; by destruct (b =? -1)). rewrite Hch'.
  pose proof (joined_local l w g d id n q b Hi Hok Hnm (local_group_for l w gname g Hi Hg) Hd Hn Hq Hpad Hid Hme Hf Hb) as Hlocal. fold m ge g' in Hlocal.
  assert (Hname : gr_name g' = gr_name g1) by (unfold g', with_box; destruct (b =? -1); destruct Hg1 as [[-> _]|[-> _]]; done).
  assert (Hgok : group_ok (Cn_active (gs w)) g') by (unfold g', with_box; destruct (b =? -1); [done|]; by destruct Hge as [? [? ? ?] ?]).
  assert (Hgv : forall r x, x ∈ members_of_daemon (Cn_active (gs w)) g' r <-> x ∈ members_of_daemon (Cn_active (gs w)) ge r) by (unfold g', with_box; by destruct (b =? -1)).
  apply wp_bind. eapply wp_mono; [by apply (holds_put w gname g1 g')| |done]. intros [] w4 H4.
  eapply wp_mono; [apply (tell_group l w gname g' w4 CAUSED_BY_JOIN m); try done; [|by left]| |done].
  { unfold fits, g', with_box. destruct (b =? -1); cbn; lia. }
  intros [] w5 (Hgs & Hinv & Htold). constructor; [done| | |].
  - intros x r y. rewrite Hgs, (holds_view (Cn_active (gs w)) w gname g' w4) by done. destruct (Z.eqb_spec (G_compare_nameptr x gname) 0) as [E|E]; [|tauto].
    rewrite Hgv, Hv, (group_for_view w gname g r y Hg), (is_member_same _ _ x gname r y E), Hid. tauto.
  - intros Hin%(group_for_view w gname g id m Hg). exfalso. apply (get_member_view w g id d m) in Hin; done.
  - intros _. exists g'. split; [|done]. rewrite Hgs, (hd_get _ _ _ _ H4), compare_name_refl. done.
Qed.

(** C12: a join.  In a regular state, and after a transitional membership as
    long as the group has lost no daemon, [G_handle_join] ends without an
    alarm, keeps the groups and the sessions consistent (the lists in order,
    the counts right, the mailboxes of every group those of its local
    members), makes the sender a member of exactly this group at its daemon
    and changes no other membership; the local members of the group, the
    joiner among them when it is local, are sent one message about the join,
    and a member that joins again changes nothing. *)
Theorem join_group_members (l : list Z) w (p n q : list Z) (pr : proc) (gname : list Z) :
  groups_inv l w -> Gstate (gs w) = GOP \/ Gstate (gs w) = GTRANS ->
  G_private_to_names p = inr (Some (n, q)) -> Conf_proc_by_name (cf_Config (cf (core w))) q = Some pr ->
  Z.of_nat (length (cstr gname)) < MAX_GROUP_NAME ->
  (p_id pr = g_My_id (gs w) -> exists i, i ∈ l /\ s_name (ses (ss w) i) = n) ->
  settled w gname (p_id pr) -> (forall g, group_for w gname g -> gr_num_members g < 4471) -> all_ready l w ->
  wp (G_handle_join p gname) (fun _ w' => joined_group l w gname (p_id pr) (private_field n q) w') never w.
Proof.
  intros Hi Hst Hp Hpr Hgn Hloc Hset Hfit Hr. unfold G_handle_join. apply wp_bind, wp_get. apply (in_regular _ _ _ _ _ _ Hst).
  apply wp_bind. unfold private_names. apply wp_bind. unfold wp at 1, lift. rewrite Hp. apply wp_ret. rewrite Hpr.
  apply wp_bind. eapply wp_mono; [by apply join_group_spec; [apply Hi|]| |done]. intros g w1 [H1 Hg].
  destruct (group_for_ok w gname g (gi_groups _ _ Hi) Hgn Hg) as [Hnm Hok]. destruct (private_field_of p n q Hp) as (Hcpy & Hl & Hpad).
  apply wp_bind. eapply wp_mono; [by apply (join_daemon_spec w gname g)| |done]. intros [g1 d] w2 (H2 & Hd & Hg1). cbn [fst snd] in *.
  rewrite (get_member_field d p n q Hp). destruct (G_get_member d (private_field n q)) as [x|] eqn:Hx.
  - assert (Hin : is_member (Cn_active (gs w)) (GroupsList (gs w)) gname (p_id pr) (private_field n q)).
    { apply (group_for_view w gname g _ _ Hg). apply (get_member_view w g (p_id pr) d); [done|done|done|]. by rewrite Hx. }
    destruct Hg1 as [[-> Hgd]|(_ & Hnil & _)]; [|unfold G_get_member in Hx; by rewrite Hnil in Hx].
    assert (Hex : G_get_group gname (GroupsList (gs w)) = Some g).
    { destruct Hg as [?|[Hno _]]; [done|]. destruct Hin as (h & Hh & _). congruence. }
    pose proof (holds_ss _ _ _ _ H2) as (Hs & Hc & _). apply wp_ret. constructor; [| |done|done].
    + apply (holds_inv l w gname g w2); [done|done| |].
      * by apply (get_group_ok (Cn_active (gs w)) gname g) in Hex as [? _]; [|apply Hi].
      * by apply (local_group_for l w gname).
    + intros x' r y. rewrite (holds_view (Cn_active (gs w)) w gname g w2 x' r y H2). destruct (Z.eqb_spec (G_compare_nameptr x' gname) 0) as [E|E]; [|tauto].
      rewrite (group_for_view w gname g r y (or_introl Hex)), (is_member_same _ _ x' gname r y E). split; [tauto|]. intros [?|(_ & Er & ->)]; [done|].
      apply (group_for_view w gname g r _ (or_introl Hex)). apply (group_for_view w gname g _ _ (or_introl Hex)) in Hin.
      pose proof (proc_range w q pr (gi_conf _ _ Hi) Hpr) as Hrange. unfold members_of_daemon in *.
      by rewrite (get_daemon_same _ g r (p_id pr)) by (done || congruence).
  - apply wp_bind. unfold wp at 1, lift, strcpy_name. rewrite (proj2 (Z.leb_gt _ _)) by done. rewrite Hcpy.
    eapply (enter_spec l w p n q gname g g1 d w2 (p_id pr)); try done; [by apply (proc_range w q), Hpr; apply Hi| |by apply Hfit].
    intros E. by apply (my_name w q pr (gi_conf _ _ Hi)).
Qed.
End handler.

(** The client [ana] of the daemon [a] wants membership messages. *)
Definition lobby_table : sess_state := set_sx_My_name (str_bytes "a") (upd 996 (set_s_status (Z.lor MEMB_SESSION OP_SESSION)) slow_table).
Definition lobby_with (l : list group) : sess_world :=
  mkSessWorld lobby_table sample_world
    (set_Num_groups (Z.of_nat (length l)) (set_GroupsList l
      (set_g_My_id 11 (set_G_Reg_memb_id (mkMembId 11 7) (set_Cn_active sample_conf no_groups))))).

Lemma set_status_serving i l s c g g' (x : Z) nm :
  serving i l (mkSessWorld s c g) -> Is_session OP_SESSION x = true ->
  serving i l (mkSessWorld (set_sx_My_name nm (upd i (set_s_status x) s)) c g').
Proof.
  intros [H1 _ H3 H4 H5] Hx. assert (Hs : forall j, ses (set_sx_My_name nm (upd i (set_s_status x) s)) j = if decide (j = i) then set_s_status x (ses s i) else ses s j).
  { intros j. change (ses (set_sx_My_name nm ?t)) with (ses t). apply ses_upd. }
  constructor; unfold mbox_of, badgering, timers in *; cbn [ss core] in *; rewrite ?Hs, ?decide_True by done; try done.
  eapply table_same; [| |exact H1]; [|done]. intros j. rewrite Hs. by case_decide; subst.
Qed.
Lemma lobby_names : s_name (ses lobby_table 996) = str_bytes "ana" /\ s_mbox (ses lobby_table 996) = 7.
Proof. vm_compute. split; reflexivity. Qed.
Lemma lobby_serving l : serving 996 [996] (lobby_with l).
Proof. exact (set_status_serving 996 [996] slow_table sample_world no_groups _ (Z.lor MEMB_SESSION OP_SESSION) (str_bytes "a") slow_serving eq_refl). Qed.

Lemma lobby_ready l : all_ready [996] (lobby_with l).
Proof. intros i ->%list_elem_of_singleton _ _. split; [apply lobby_serving|]. vm_compute. discriminate. Qed.

Lemma legal_ana : legal_name MAX_PRIVATE_NAME (str_bytes "ana").
Proof. split; [by vm_compute|reflexivity]. Qed.
Lemma legal_a : legal_name (MAX_PROC_NAME - 1) (str_bytes "a").
Proof. split; [by vm_compute|reflexivity]. Qed.
Lemma lobby_inv l :
  groups_list_ok sample_conf l -> Forall (local_ok [996] (lobby_with l)) l -> groups_inv [996] (lobby_with l).
Proof.
  intros Hl Hloc. pose proof (lobby_serving l) as Hs. destruct lobby_names as [Hn Hm]. constructor; [| | | |exact Hl|reflexivity|exact Hloc].
  - apply (sv_table _ _ _ Hs).
  - intros i ->%list_elem_of_singleton. exact (eq_ind_r (legal_name MAX_PRIVATE_NAME) legal_ana Hn).
  - intros i ->%list_elem_of_singleton. assert (H7 : 0 <= 7) by lia. exact (eq_ind_r (Z.le 0) H7 Hm).
  - constructor.
    + apply (bool_decide_unpack _). vm_compute. exact I.
    + repeat constructor; vm_compute; congruence.
    + exists (sample_proc "a" 11 0 0). split; [by left|]. split; [exact eq_refl|exact eq_refl].
    + exact legal_a.
Qed.

Lemma join_group_members_witness :
  let w := lobby_with [] in
  wp (G_handle_join (pname "#ana#a") (pname "chat"))
    (fun _ w' => joined_group [996] w (pname "chat") 11 (private_field (str_bytes "ana") (str_bytes "a")) w') never w /\
  match G_handle_join (pname "#ana#a") (pname "chat") w with
  | Done _ w' => (fun g => (gr_name g, group_members (gr_DaemonsList g), gr_mboxes g)) <$> GroupsList (gs w') = [(pname "chat", [pname "#ana#a"], [7])] /\
      queued 996 w' = 1
  | Failed _ => False
  end.
Proof.
  assert (Hp : G_private_to_names (pname "#ana#a") = inr (Some (str_bytes "ana", str_bytes "a"))) by (vm_compute; reflexivity).
  split.
  - apply (join_group_members [996] (lobby_with []) _ _ (str_bytes "a") (sample_proc "a" 11 0 0)).
    + apply lobby_inv; [|constructor]. split; constructor.
    + by left.
    + exact Hp.
    + reflexivity.
    + vm_compute. reflexivity.
    + intros _. exists 996. split; [by apply list_elem_of_singleton|]. apply lobby_names.
    + constructor; [|by left]. intros g [Hg|[_ ->]]; [discriminate|]. split; [done|]. split; [reflexivity|constructor].
    + intros g [Hg|[_ ->]]; [discriminate|]. cbn. lia.
    + apply lobby_ready.
  - vm_compute. split; reflexivity.
Defined.
