(* ===== verification/GroupsLeave.v ===== *)
(** * Leaving a group and disconnecting ([G_handle_leave], [G_handle_kill])

    A member that leaves is taken out of its group, a client that is gone out
    of all of its groups, in the order of the groups; a daemon without members
    goes with its last one, a group with its last daemon.  The members that
    stay and are here are told, and one that leaves gets a confirmation. *)

From stdpp Require Import base strings numbers option gmap list sorting.
From S2P Require Import Prelude Wire Bytes Config Events State Sample Network FlowControl MembSets MembCore Deliver Delivery ProtSend Retrans Requests Packing Sending EndToEnd Message EventsFd Names.
From S2P Require Import GroupState SessState SessTable SessDir SessWrite SessStream SessServe SessDeliver SessFanout SessRead Skl Groups GroupsOk GroupsMerge GroupsTell GroupsLocal GroupsJoin.

(** ** One group of the list goes *)

Section gone.
Implicit Types (w : sess_world) (g : group) (n : list Z).

(** The state [w'] is [w] without the group [n]. *)
Record gone w n w' : Prop := mkGone {
  gn_world : exists l k, w' = groups_w l k w;
  gn_names : names_ok (GroupsList (gs w'));
  gn_get : forall x, G_get_group x (GroupsList (gs w')) = if G_compare_nameptr x n =? 0 then None else G_get_group x (GroupsList (gs w));
  gn_number : Num_groups (gs w') - Z.of_nat (length (GroupsList (gs w'))) = Num_groups (gs w) - Z.of_nat (length (GroupsList (gs w)));
}.

Lemma remove_gone w n g w' :
  holds w n g w' -> gr_DaemonsList g = [] -> gr_mboxes g = [] ->
  wp (remove_group g) (fun _ w2 => gone w n w2) never w'.
Proof.
  intros [(l & k & ->) Hn Hg Hk Hp Hnum] Hd Hb. unfold remove_group. apply wp_bind, wp_get. change (GroupsList (gs (groups_w l k w))) with l in *.
  assert (Hf : G_get_group (gr_name g) l = Some g) by (rewrite Hg; by rewrite (compare_name_sym _ _ Hk), Z.eqb_refl).
  destruct (skl_erase_Some gr_name G_compare_nameptr (gr_name g) l g Hn Hf) as (l' & He & Hpm & Hs').
  unfold wp, bind, lift, G_remove_group. rewrite Hd, Hb. cbn [empty andb assert_that rbind]. change (GroupsList (gs (groups_w l k w))) with l. rewrite He.
  cbn. constructor; [by exists l', (k - 1)|exact Hs'| |].
  - intros x. change (GroupsList _) with l' at 1. unfold G_get_group at 1. rewrite (skl_find_erase gr_name G_compare_nameptr (gr_name g) x g l l' Hn Hf He).
    rewrite (same_key x n) by done. change (skl_find gr_name G_compare_nameptr x l) with (G_get_group x l). rewrite Hg. by destruct (_ =? 0).
  - cbn in *. apply Permutation_length in Hpm. rewrite Hpm in Hnum. cbn [length] in Hnum. lia.
Qed.

Lemma gone_ss w n w' : gone w n w' -> ss w' = ss w /\ core w' = core w /\ Cn_active (gs w') = Cn_active (gs w) /\ g_My_id (gs w') = g_My_id (gs w).
Proof. intros [(l & k & ->) _ _ _]. by destruct w as [s c []]. Qed.

Lemma gone_in w n w' h : gone w n w' -> names_ok (GroupsList (gs w)) -> h ∈ GroupsList (gs w') -> h ∈ GroupsList (gs w) /\ G_compare_nameptr (gr_name h) n <> 0.
Proof.
  intros H Hn Hh. apply (get_group_in h _ (gn_names _ _ _ H)) in Hh. rewrite (gn_get _ _ _ H) in Hh.
  destruct (Z.eqb_spec (G_compare_nameptr (gr_name h) n) 0) as [|E]; [done|]. split; [|done]. by apply get_group_names in Hh as [? _].
Qed.

Lemma gone_inv l w n w' : gone w n w' -> groups_inv l w -> groups_inv l w'.
Proof.
  intros H [H1 H2 Hb H3 H4 H5 H6]. pose proof (gone_ss _ _ _ H) as (Es & Ec & Ea & Em). destruct H4 as [Hn Hall].
  assert (Hin : forall h, h ∈ GroupsList (gs w') -> h ∈ GroupsList (gs w)) by (intros h Hh; by eapply gone_in in Hh as [? _]).
  constructor; rewrite ?Es, ?Ea; try done.
  - intros i. unfold mbox_of. rewrite Es. apply Hb.
  - destruct H3 as [C1 C2 C3 C4]. constructor; by rewrite ?Ec, ?Es, ?Em.
  - split; [apply (gn_names _ _ _ H)|]. rewrite Forall_forall in *. intros h Hh. by apply Hall, Hin.
  - pose proof (gn_number _ _ _ H). lia.
  - rewrite Forall_forall in *. intros h Hh. apply (local_ext l w); [|unfold local_members; by rewrite Ea, Em|by apply H6, Hin].
    intros i. unfold mbox_of, local_name. by rewrite Es.
Qed.

Lemma gone_view cn w n w' x p m :
  gone w n w' ->
  is_member cn (GroupsList (gs w')) x p m <-> G_compare_nameptr x n <> 0 /\ is_member cn (GroupsList (gs w)) x p m.
Proof.
  intros H. unfold is_member. setoid_rewrite (gn_get _ _ _ H x). destruct (Z.eqb_spec (G_compare_nameptr x n) 0) as [E|E]; [|tauto].
  split; [by intros (h & ? & _)|by intros [? _]].
Qed.
End gone.

(* --------------------------------------------------------------------- *)
(** ** Taking a member out *)

Section leave.
Implicit Types (w : sess_world) (g : group) (n m : list Z) (d : daemon_members).

(** The group after [m] of the daemon [p] has left, with the mailboxes [ms]. *)
Record departed w g p m (ms : list Z) g' : Prop := mkDeparted {
  dp_members : members_ok (Cn_active (gs w)) g';
  dp_name : gr_name g' = gr_name g;
  dp_changed : gr_changed g' = gr_changed g;
  dp_boxes : gr_mboxes g' = ms;
  dp_number : gr_num_members g' = gr_num_members g - 1;
  dp_view : forall q x, x ∈ members_of_daemon (Cn_active (gs w)) g' q <-> x ∈ members_of_daemon (Cn_active (gs w)) g q /\ ~ (u32 q = u32 p /\ x = m);
}.

(** No members, no daemons. *)
Lemma no_members cn g : members_ok cn g -> gr_num_members g = 0 -> gr_DaemonsList g = [].
Proof.
  intros [_ Hd Hn] E. rewrite E in Hn. destruct (gr_DaemonsList g) as [|d l]; [done|]. apply Forall_cons in Hd as [[_ _ _ Hd] _].
  rewrite view_members_cons in Hn. destruct (dm_MembersList d); [done|]. cbn in Hn. lia.
Qed.

Lemma remove_member_spec site w n g p d m ms :
  names_ok (GroupsList (gs w)) -> G_get_group n (GroupsList (gs w)) = Some g -> group_ok (Cn_active (gs w)) g ->
  G_get_daemon (Cn_active (gs w)) g p = Some d -> m ∈ dm_MembersList d ->
  (forall g', departed w g p m ms g' -> gr_DaemonsList g' = [] -> ms = []) ->
  wp (remove_member site (set_gr_mboxes ms g) d m)
    (fun o w2 => match o with
       | Some g' => holds w n g' w2 /\ departed w g p m ms g' /\ gr_DaemonsList g' <> []
       | None => gone w n w2 /\ exists g', departed w g p m ms g' /\ gr_DaemonsList g' = []
       end) never w.
Proof.
  intros Hn Hg Hok Hd Hm Hbox. set (cn := Cn_active (gs w)) in *. unfold remove_member. apply wp_bind, wp_get.
  assert (Hok' : members_ok cn (set_gr_mboxes ms g)) by (destruct (go_members _ _ Hok); by constructor).
  destruct (left_group_spec cn (set_gr_mboxes ms g) p d m Hok' Hd Hm) as (l & g1 & He & Hl & [H1 (Hnm & Hid & Hch & Hmb) H3 H4]).
  rewrite He. cbv zeta. unfold left_group in Hl.
  assert (Hd1 : departed w g p m ms g1) by (by constructor).
  apply wp_bind. unfold wp at 1.
  assert (Hlift : (if empty l then lift (G_remove_daemon cn (set_gr_num_members (gr_num_members (set_gr_mboxes ms g) - 1)
        (write_daemon (set_dm_MembersList l d) (set_gr_mboxes ms g))) (set_dm_MembersList l d))
      else ret (set_gr_num_members (gr_num_members (set_gr_mboxes ms g) - 1)
        (write_daemon (set_dm_MembersList l d) (set_gr_mboxes ms g)))) w = Done g1 w).
  { revert Hl. clear. destruct l; cbn [empty]; unfold lift, ret; [by intros ->|by intros [= <-]]. }
  fold cn. rewrite Hlift. assert (H0 : holds w n g w) by (apply holds_same; [done|apply Hok|done]).
  apply wp_bind. eapply wp_mono; [by apply (holds_put w n g g1 w H0)| |done]. intros [] w1 Hh1. apply wp_if; intros E.
  - apply Z.eqb_eq in E. pose proof (no_members cn g1 H1 E) as Hnil. apply wp_bind, wp_get.
    assert (Hrm : wp (remove_group g1) (fun _ w2 => gone w n w2) never w1).
    { apply remove_gone; [done|done|]. change (gr_mboxes g1 = []). rewrite (dp_boxes _ _ _ _ _ _ Hd1). by apply (Hbox g1). }
    unfold remove_group, wp, bind, get in Hrm. unfold wp, bind. destruct (lift (G_remove_group g1 (gs w1)) w1) as [s ws|]; [|done].
    unfold g_do, modify in *. cbn in *. split; [done|by exists g1].
  - apply Z.eqb_neq in E. apply wp_bind. eapply wp_mono; [apply (holds_put w n g1); [exact Hh1|done]| |done]. intros [] w2 Hh2. apply wp_ret.
    split; [exact Hh2|]. split; [constructor; [by destruct H1; constructor|done..]|]. cbn. intros Hnil. apply E. rewrite (mo_number _ _ H1), Hnil. done.
Qed.

(** The mailboxes that stay when [m] of the daemon [p] leaves. *)
Definition boxes_left (l : list Z) w g p m (ms : list Z) : Prop :=
  (p = g_My_id (gs w) /\ exists i, i ∈ l /\ m = local_name w i /\ gr_mboxes g ≡ₚ mbox_of i w :: ms) \/
  (p <> g_My_id (gs w) /\ ms = gr_mboxes g).

Lemma departed_local l w g p m ms g' :
  groups_inv l w -> local_ok l w g -> u32 p = p -> boxes_left l w g p m ms -> departed w g p m ms g' -> local_ok l w g'.
Proof.
  intros Hi [L1 L2 L3] Hp Hb [_ _ _ Hmb _ Hv].
  assert (Hlm : forall x, x ∈ local_members w g' <-> x ∈ local_members w g /\ ~ (p = g_My_id (gs w) /\ x = m)).
  { intros x. unfold local_members. rewrite Hv, (my_range w (gi_conf _ _ Hi)), Hp. split; intros [? Hn]; (split; [done|]); intros [? ?]; apply Hn; auto. }
  destruct Hb as [(Emy & i & Hil & -> & Hpm)|[Emy ->]].
  - rewrite Hpm in L1. apply NoDup_cons in L1 as [Hnot L1]. constructor; [by rewrite Hmb| |].
    + intros b. rewrite Hmb. split.
      * intros Hb. assert (Hbg : b ∈ gr_mboxes g) by (rewrite Hpm; by right). apply L2 in Hbg as (j & Hj & -> & Hjm). exists j. split; [done|]. split; [done|].
        apply Hlm. split; [done|]. intros [_ E]. apply (local_name_inj l w j i Hi Hj Hil) in E as ->. done.
      * intros (j & Hj & -> & [Hjm Hno]%Hlm). assert (Hbg : mbox_of j w ∈ gr_mboxes g) by (apply L2; by exists j).
        rewrite Hpm in Hbg. apply elem_of_cons in Hbg as [E|?]; [|done]. destruct Hno. split; [done|].
        assert (j = i) as ->; [|done]. by eapply (key_unique s_mbox (ss w) l); [apply (tb_mboxes _ _ (gi_table _ _ Hi))|..].
    + intros x [Hx _]%Hlm. by apply L3.
  - constructor; [by rewrite Hmb| |].
    + intros b. rewrite Hmb, L2. split; intros (j & Hj & E & Hjm); exists j; rewrite Hlm in *; tauto.
    + intros x [Hx _]%Hlm. by apply L3.
Qed.

Lemma nobody_left l w g p m ms g' :
  groups_inv l w -> local_ok l w g -> u32 p = p -> boxes_left l w g p m ms -> departed w g p m ms g' -> gr_DaemonsList g' = [] -> ms = [].
Proof.
  intros Hi Hl Hp Hb Hd Hnil. destruct (departed_local l w g p m ms g' Hi Hl Hp Hb Hd) as [_ L2 _]. rewrite <- (dp_boxes _ _ _ _ _ _ Hd).
  destruct (gr_mboxes g') as [|b bs]; [done|]. destruct (proj1 (L2 b)) as (i & _ & _ & Hx); [by left|].
  unfold local_members, members_of_daemon, G_get_daemon in Hx. rewrite Hnil in Hx. by apply elem_of_nil in Hx.
Qed.

(** The mailbox of a local member. *)
Lemma remove_mailbox_spec l w g i m :
  local_ok l w g -> i ∈ l -> m = local_name w i -> m ∈ local_members w g ->
  exists ms, G_remove_mailbox g (mbox_of i w) = inr (set_gr_mboxes ms g) /\ gr_mboxes g ≡ₚ mbox_of i w :: ms.
Proof.
  intros [_ L2 _] Hi -> Hm. assert (Hb : mbox_of i w ∈ gr_mboxes g) by (apply L2; by exists i).
  unfold G_remove_mailbox. destruct (list_find _ (gr_mboxes g)) as [[k b]|] eqn:E.
  - apply list_find_Some in E as (Hk & -> & _). eexists. split; [reflexivity|]. by apply remove_swap_perm.
  - apply list_find_None in E. rewrite Forall_forall in E. by destruct (E _ Hb).
Qed.

Context `{Session}.

(** What the departure of [m] of the daemon [p] from the group [n] does. *)
Record left_result (l : list Z) w n p m (caused : Z) w' : Prop := mkLeftResult {
  lr_inv : groups_inv l w';
  lr_view : forall x id y, is_member (Cn_active (gs w)) (GroupsList (gs w')) x id y <->
    is_member (Cn_active (gs w)) (GroupsList (gs w)) x id y /\ ~ (G_compare_nameptr x n = 0 /\ u32 id = p /\ y = m);
  lr_conf : Cn_active (gs w') = Cn_active (gs w) /\ g_My_id (gs w') = g_My_id (gs w);
  lr_others : forall x, G_compare_nameptr x n <> 0 -> G_get_group x (GroupsList (gs w')) = G_get_group x (GroupsList (gs w));
  lr_told :
    (G_get_group n (GroupsList (gs w')) = None /\ ss w' = ss w /\ core w' = core w) \/
    (exists g, G_get_group n (GroupsList (gs w')) = Some g /\ gr_changed g = false /\ tells l g (memb_message g caused m) w w');
}.

Lemma member_at w n g p m : G_get_group n (GroupsList (gs w)) = Some g ->
  is_member (Cn_active (gs w)) (GroupsList (gs w)) n p m <-> m ∈ members_of_daemon (Cn_active (gs w)) g p.
Proof. intros Hg. unfold is_member. rewrite Hg. split; [by intros (h & [= <-] & ?)|by exists g]. Qed.

Lemma take_out site l w n g p d m ms caused :
  groups_inv l w -> G_get_group n (GroupsList (gs w)) = Some g -> gr_changed g = false -> fits g -> u32 p = p -> padded m ->
  G_get_daemon (Cn_active (gs w)) g p = Some d -> m ∈ dm_MembersList d -> boxes_left l w g p m ms -> all_ready l w ->
  caused = CAUSED_BY_LEAVE \/ caused = CAUSED_BY_DISCONNECT ->
  wp (let* o := remove_member site (set_gr_mboxes ms g) d m in
      match o with Some g' => tell_departure g' caused m | None => ret tt end)
    (fun _ w' => left_result l w n p m caused w') never w.
Proof.
  intros Hi Hg Hch Hfit Hp Hpad Hd Hm Hb Hr Hc. 
  destruct (get_group_ok (Cn_active (gs w)) n g _ (gi_groups _ _ Hi) Hg) as (Hok & Hin & Hkey). pose proof (gi_local _ _ Hi) as Hall. rewrite Forall_forall in Hall. pose proof (Hall g Hin) as Hl.
  assert (Hview : forall g', departed w g p m ms g' -> forall x id y, G_compare_nameptr x n = 0 ->
     y ∈ members_of_daemon (Cn_active (gs w)) g' id <-> is_member (Cn_active (gs w)) (GroupsList (gs w)) x id y /\ ~ (G_compare_nameptr x n = 0 /\ u32 id = p /\ y = m)).
  { intros g' Hdp x id y E. rewrite (dp_view _ _ _ _ _ _ Hdp), (is_member_same (Cn_active (gs w)) _ x n id y E), (member_at w n g id y Hg), Hp. tauto. }
  apply wp_bind. eapply wp_mono; [apply (remove_member_spec site w n g p d m ms); try done; [apply (gi_groups _ _ Hi)|]| |done].
  { intros g' Hdp. by apply (nobody_left l w g p m ms g' Hi Hl Hp Hb Hdp). }
  intros [g'|] w1; cbn beta iota.
  - intros (Hh & Hdp & Hne). assert (Hch' : gr_changed g' = false) by (by rewrite (dp_changed _ _ _ _ _ _ Hdp)).
    unfold tell_departure. rewrite Hch'. pose proof (departed_local l w g p m ms g' Hi Hl Hp Hb Hdp) as Hl'.
    eapply wp_mono; [apply (tell_group l w n g' w1 caused m); try done; [|unfold fits in *; rewrite (dp_number _ _ _ _ _ _ Hdp); lia|by right]| |done].
    { constructor; [|apply (dp_members _ _ _ _ _ _ Hdp)|done]. rewrite (dp_name _ _ _ _ _ _ Hdp). apply Hok. }
    intros [] w2 (Hgs & Hinv & Ht). constructor; [done| |by rewrite Hgs; destruct (holds_ss _ _ _ _ Hh) as (_ & _ & ? & ? & _)| |].
    + intros x id y. rewrite Hgs, (holds_view (Cn_active (gs w)) w n g' w1 x id y Hh). destruct (Z.eqb_spec (G_compare_nameptr x n) 0) as [E|E]; [by apply Hview|tauto].
    + intros x E. rewrite Hgs, (hd_get _ _ _ _ Hh). by rewrite (proj2 (Z.eqb_neq _ _)).
    + right. exists g'. split; [|by split]. rewrite Hgs, (hd_get _ _ _ _ Hh). by rewrite compare_name_refl.
  - intros (Hgone & g' & Hdp & Hnil). pose proof (gone_ss _ _ _ Hgone) as (Hs & Hco & Hconf). apply wp_ret. constructor; [by apply (gone_inv l w n)| |done| |].
    + intros x id y. rewrite (gone_view (Cn_active (gs w)) w n w1 x id y Hgone). destruct (decide (G_compare_nameptr x n = 0)) as [E|E]; [|tauto].
      split; [by intros [? _]|]. intros Hy%(Hview g' Hdp x id y E). unfold members_of_daemon, G_get_daemon in Hy. rewrite Hnil in Hy. by apply elem_of_nil in Hy.
    + intros x E. rewrite (gn_get _ _ _ Hgone). by rewrite (proj2 (Z.eqb_neq _ _)).
    + left. split; [|done]. rewrite (gn_get _ _ _ Hgone). by rewrite compare_name_refl.
Qed.

(** The member that a private name finds. *)
Lemma find_member_field w g p d x pg n q :
  members_ok (Cn_active (gs w)) g -> G_private_to_names pg = inr (Some (n, q)) -> G_get_daemon (Cn_active (gs w)) g p = Some d ->
  G_get_member d pg = Some x -> x = private_field n q /\ x ∈ dm_MembersList d.
Proof.
  intros Hg Hp Hd Hx. rewrite (get_member_field d pg n q Hp) in Hx. destruct (private_field_of pg n q Hp) as (_ & _ & Hpad).
  apply (find_daemon_Some (Cn_active (gs w))) in Hd as [Hd _]; [|done]. pose proof (mo_daemons _ _ Hg) as Hall. rewrite Forall_forall in Hall.
  destruct (Hall d Hd) as [_ Hs Hpd _]. unfold G_get_member, find_member in Hx. apply (skl_find_Some id G_compare_nameptr _ _ _ Hs) in Hx as [Hx Hk].
  rewrite Forall_forall in Hpd. apply (padded_same _ _ Hpad (Hpd x Hx)) in Hk as ->. done.
Qed.

(** The announcement of a departure from the group [n]: none when it is gone. *)
Definition departure (l : list Z) w n m (caused : Z) w' (f : Z -> list Z) : Prop :=
  (G_get_group n (GroupsList (gs w')) = None /\ forall j, f j = []) \/
  (exists g, G_get_group n (GroupsList (gs w')) = Some g /\ f = announced (gr_mboxes g) w (memb_message g caused m)).
(** The confirmation for the member that leaves, when it is here. *)
Definition confirmation w n p m (j : Z) : list Z :=
  match G_get_group n (GroupsList (gs w)) with
  | Some g => if bool_decide (p = g_My_id (gs w) /\ local_name w j = m /\ informed w j = true) then leave_message g else []
  | None => []
  end.

Record left_group_members (l : list Z) w n p m w' : Prop := mkLeft {
  lv_inv : groups_inv l w';
  lv_view : forall x id y, is_member (Cn_active (gs w)) (GroupsList (gs w')) x id y <->
    is_member (Cn_active (gs w)) (GroupsList (gs w)) x id y /\ ~ (G_compare_nameptr x n = 0 /\ u32 id = p /\ y = m);
  lv_again : ~ is_member (Cn_active (gs w)) (GroupsList (gs w)) n p m -> w' = w;
  lv_told : is_member (Cn_active (gs w)) (GroupsList (gs w)) n p m ->
    exists f, departure l w n m CAUSED_BY_LEAVE w' f /\ told l (fun j => confirmation w n p m j ++ f j) (fun _ => 2) w w';
}.

Lemma left_result_told l w w1 n p m caused w' (c : Z -> list Z) (k : Z -> Z) :
  told l c k w w1 -> left_result l w1 n p m caused w' ->
  exists f, departure l w n m caused w' f /\ told l (fun j => c j ++ f j) (fun j => k j + 1) w w'.
Proof.
  intros Ht [_ _ _ _ Htold]. destruct Htold as [(Hn & Hs & Hc)|(g & Hg & _ & Ht2)].
  - exists (fun _ => []). split; [by left|]. eapply told_ext; [|eapply told_trans; [exact Ht|by apply (told_nothing l w1 w' (fun _ => []) (fun _ => 0))]].
    intros j _. split; [done|]. lia.
  - exists (announced (gr_mboxes g) w (memb_message g caused m)). split; [right; by exists g|]. eapply told_ext; [|eapply told_trans; [exact Ht|exact Ht2]].
    intros j _. cbn beta. split; [|pose proof (among_one (gr_mboxes g) w1 j); lia].
    f_equal. unfold announced. by rewrite (told_mbox _ _ _ _ _ j Ht), (told_informed _ _ _ _ _ j Ht).
Qed.

Lemma ready_all_weaken l w (k k' : Z) : k <= k' -> ready_for l (mboxes (ss w) l) k' w -> ready_for l (mboxes (ss w) l) k w.
Proof. intros Hk. by apply ready_weaken. Qed.
Lemma told_all_ready l f (n : Z -> Z) (k k' : Z) w w' :
  told l f n w w' -> (forall i, i ∈ l -> n i + k <= k') -> ready_for l (mboxes (ss w) l) k' w -> ready_for l (mboxes (ss w') l) k w'.
Proof. intros Ht Hk Hr. rewrite (told_mboxes _ _ _ _ _ Ht). eapply told_ready; [exact Ht|by intros i Hi _; apply Hk|exact Hr]. Qed.

(** Looking up the member of a private name. *)
Lemma look_up w g p pg n q :
  members_ok (Cn_active (gs w)) g -> G_private_to_names pg = inr (Some (n, q)) ->
  match G_get_daemon (Cn_active (gs w)) g p with
  | Some d =>
      match G_get_member d pg with
      | Some x => x = private_field n q /\ x ∈ dm_MembersList d
      | None => private_field n q ∉ members_of_daemon (Cn_active (gs w)) g p
      end
  | None => private_field n q ∉ members_of_daemon (Cn_active (gs w)) g p
  end.
Proof.
  intros Hok Hp. destruct (private_field_of pg n q Hp) as (_ & _ & Hpad). destruct (G_get_daemon (Cn_active (gs w)) g p) as [d|] eqn:Hd.
  2: { unfold members_of_daemon. rewrite Hd. by intros ?%elem_of_nil. }
  destruct (G_get_member d pg) as [x|] eqn:Hx; [by eapply find_member_field|]. intros Hm.
  rewrite (get_member_field d pg n q Hp) in Hx. apply (get_member_view w g p d) in Hm; [done|done| |done].
  apply (find_daemon_Some (Cn_active (gs w))) in Hd as Hd2; [|done]. destruct Hd2 as [Hdin E]. split; [|split; [done|by left]].
  pose proof (mo_daemons _ _ Hok) as Hall. rewrite Forall_forall in Hall. by apply Hall.
Qed.

(** A local member and its session. *)
Lemma local_member l w n g d :
  groups_inv l w -> local_ok l w g -> legal_name MAX_PRIVATE_NAME n ->
  G_get_daemon (Cn_active (gs w)) g (g_My_id (gs w)) = Some d -> private_field n (sx_My_name (ss w)) ∈ dm_MembersList d ->
  exists i, i ∈ l /\ Sess_get_session n (ss w) = inr i /\ local_name w i = private_field n (sx_My_name (ss w)) /\ 0 <= i.
Proof.
  intros Hi Hl Hn Hd Hm. assert (Hlm : private_field n (sx_My_name (ss w)) ∈ local_members w g) by (unfold local_members, members_of_daemon; by rewrite Hd).
  destruct (local_session_of l w n Hi Hn (lc_sessions _ _ _ Hl _ Hlm)) as (i & Hil & Hs & E). exists i. split_and!; try done.
  by destruct (table_range _ _ _ (gi_table _ _ Hi) Hil).
Qed.

(** A leave of a member. *)
Lemma leave_member (l : list Z) w (n q : list Z) (p : Z) (gname : list Z) g d :
  groups_inv l w -> legal_name MAX_PRIVATE_NAME n -> padded (private_field n q) -> u32 p = p -> (p = g_My_id (gs w) -> q = sx_My_name (ss w)) ->
  G_get_group gname (GroupsList (gs w)) = Some g -> gr_changed g = false -> fits g -> ready_for l (mboxes (ss w) l) 2 w ->
  G_get_daemon (Cn_active (gs w)) g p = Some d -> private_field n q ∈ dm_MembersList d ->
  wp (let* g := (if p =? g_My_id (gs w) then
                   let* i := local_session "G_handle_leave: member has no local session" n in
                   G_send_self_leave g i ;;
                   let* r := the_session i in
                   lift (G_remove_mailbox g (s_mbox r))
                 else ret g) in
      let* o := remove_member "G_handle_leave: couldn't extract member" g d (private_field n q) in
      match o with Some g' => tell_departure g' CAUSED_BY_LEAVE (private_field n q) | None => ret tt end)
    (fun _ w' => left_group_members l w gname p (private_field n q) w') never w.
Proof.
  intros Hi Hn Hpad Hid Hme Hg Hch Hfit Hr Hd Hm. destruct (get_group_ok _ _ _ _ (gi_groups _ _ Hi) Hg) as (Hok & Hin & _).
  pose proof (gi_local _ _ Hi) as Hall. rewrite Forall_forall in Hall. pose proof (Hall g Hin) as Hl. clear Hall. set (m := private_field n q) in *.
  assert (Hmem : is_member (Cn_active (gs w)) (GroupsList (gs w)) gname p m).
  { apply (member_at w gname g); [done|]. unfold members_of_daemon. by rewrite Hd. }
  assert (Hfin : forall w1 w' c k, gs w1 = gs w -> told l c k w w1 -> (forall j, k j <= 1) -> (forall j, j ∈ l -> c j = confirmation w gname p m j) ->
    left_result l w1 gname p m CAUSED_BY_LEAVE w' -> left_group_members l w gname p m w').
  { intros w1 w' c k Hgs Ht Hk Hc Hres. pose proof Hres as [H1 H2 _ _ _]. rewrite Hgs in H2. constructor; [done|done|done|]. intros _.
    destruct (left_result_told l w w1 gname p m CAUSED_BY_LEAVE w' c k Ht Hres) as (f & Hf & Htf). exists f. split; [done|].
    eapply told_ext; [|exact Htf]. intros j Hj. cbn beta. split; [by rewrite Hc|specialize (Hk j); lia]. }
  destruct (Z.eqb_spec p (g_My_id (gs w))) as [Emy|Emy].
  - assert (Hq : q = sx_My_name (ss w)) by auto. assert (Hm2 : private_field n (sx_My_name (ss w)) ∈ dm_MembersList d) by (by rewrite <- Hq).
    destruct (local_member l w n g d Hi Hl Hn) as (i & Hil & Hs & Hln & H0); [by rewrite <- Emy|done|]. rewrite <- Hq in Hln. fold m in Hln.
    apply wp_bind. unfold local_session. apply wp_bind, wp_bind, wp_get. unfold wp at 1, bind at 1, lift. rewrite Hs, (proj2 (Z.ltb_ge i 0)) by lia. unfold ret at 1.
    apply wp_bind. eapply wp_mono; [apply (self_leave_spec (Cn_active (gs w)) l g i w Hok Hil (gi_table _ _ Hi))| |done].
    { intros Hinf. destruct (Hr i Hil) as [? ?]; [by apply in_mboxes|done|]. split; [done|lia]. }
    intros [] w1 [Ht Hgs]. pose proof (told_inv l _ _ w w1 Ht Hgs Hi) as Hi1. pose proof (told_mbox _ _ _ _ _ i Ht) as Hmb.
    apply wp_bind, wp_gets. change (s_mbox (ses (ss w1) i)) with (mbox_of i w1). rewrite Hmb.
    assert (Hlm : m ∈ local_members w g) by (unfold local_members; rewrite <- Emy; unfold members_of_daemon; by rewrite Hd).
    destruct (remove_mailbox_spec l w g i m Hl Hil (eq_sym Hln) Hlm) as (ms & Hrm & Hpm). unfold wp at 1, lift. rewrite Hrm.
    assert (Hln1 : local_name w1 i = m).
    { rewrite <- Hln. unfold local_name. destruct (td_session _ _ _ _ _ Ht i) as (_ & -> & _). by rewrite (td_name _ _ _ _ _ Ht). }
    eapply wp_mono; [apply (take_out _ l w1 gname g p d m ms CAUSED_BY_LEAVE); rewrite ?Hgs; try done| |done].
    + left. rewrite Hgs. split; [done|]. exists i. by rewrite Hln1, Hmb.
    + apply (told_all_ready l _ _ 1 2 w w1 Ht); [|done]. intros j _. unfold one. destruct (decide (j = i)); lia.
    + by left.
    + intros [] w'. apply (Hfin w1 w' _ _ Hgs Ht); [intros j; unfold one; destruct (decide (j = i)); lia|].
      intros j Hj. unfold only_to, confirmation. rewrite Hg. apply (f_equal (fun b : bool => if b then _ else _)), bool_decide_ext. rewrite <- Hln.
      split; [by intros [-> ?]|]. intros (_ & E & Hinf). apply (local_name_inj l w j i Hi Hj Hil) in E as ->. done.
  - apply wp_bind, wp_ret. assert (Hid2 : set_gr_mboxes (gr_mboxes g) g = g) by by destruct g. rewrite <- Hid2.
    eapply wp_mono; [apply (take_out _ l w gname g p d m (gr_mboxes g) CAUSED_BY_LEAVE); try done| |done].
    + by right.
    + by apply (ready_all_weaken l w 1 2).
    + by left.
    + intros [] w'. apply (Hfin w w' (fun _ => []) (fun _ => 0)); [done|by apply told_nothing|done|].
      intros j _. unfold confirmation. rewrite Hg. by rewrite bool_decide_false by tauto.
Qed.

(** C13: a leave.  In a regular state, and after a transitional membership as
    long as the group has lost no daemon, [G_handle_leave] ends without an
    alarm, keeps the groups and the sessions consistent, and takes exactly
    this member out of exactly this group (the group and its daemon go with
    their last member, and so does the mailbox of a local member); the local
    members that stay are sent one message about it, the one that leaves a
    confirmation when it is local; who is not a member changes nothing. *)
Theorem leave_group_members (l : list Z) w (p n q : list Z) (pr : proc) (gname : list Z) :
  groups_inv l w -> Gstate (gs w) = GOP \/ Gstate (gs w) = GTRANS ->
  G_private_to_names p = inr (Some (n, q)) -> Conf_proc_by_name (cf_Config (cf (core w))) q = Some pr ->
  (forall g, G_get_group gname (GroupsList (gs w)) = Some g -> gr_changed g = false /\ fits g) ->
  ready_for l (mboxes (ss w) l) 2 w ->
  wp (G_handle_leave p gname) (fun _ w' => left_group_members l w gname (p_id pr) (private_field n q) w') never w.
Proof.
  intros Hi Hst Hp Hpr Hset Hr. set (m := private_field n q). destruct (private_field_of p n q Hp) as (_ & _ & Hpad). fold m in Hpad.
  destruct (private_parts p n q Hp) as (_ & Hn & Hq). pose proof (proc_range w q pr (gi_conf _ _ Hi) Hpr) as Hid.
  assert (Hno : ~ is_member (Cn_active (gs w)) (GroupsList (gs w)) gname (p_id pr) m -> left_group_members l w gname (p_id pr) m w).
  { intros Hno. constructor; [done| |done|done]. intros x id y. split; [|tauto]. intros Hy. split; [done|]. intros (E & Ei & ->). apply Hno.
    apply (is_member_same _ _ x gname id m E) in Hy as (g & Hg & Hy). exists g. split; [done|]. unfold members_of_daemon in *.
    destruct (get_group_ok _ _ _ _ (gi_groups _ _ Hi) Hg) as (Hok & _). by rewrite (get_daemon_same _ g (p_id pr) id) by (apply Hok || congruence). }
  unfold G_handle_leave. apply wp_bind, wp_get. apply (in_regular _ _ _ _ _ _ Hst).
  apply wp_bind. unfold private_names. apply wp_bind. unfold wp at 1, lift. rewrite Hp. apply wp_ret. rewrite Hpr.
  destruct (G_get_group gname (GroupsList (gs w))) as [g|] eqn:Hg; [|apply wp_ret, Hno; by intros (h & ? & _); congruence].
  destruct (get_group_ok _ _ _ _ (gi_groups _ _ Hi) Hg) as (Hok & Hin & _). destruct (Hset g eq_refl) as [Hch Hfit].
  pose proof (look_up w g (p_id pr) p n q (go_members _ _ Hok) Hp) as Hlook.
  destruct (G_get_daemon (Cn_active (gs w)) g (p_id pr)) as [d|] eqn:Hd; [|apply wp_ret, Hno; by rewrite (member_at w gname g)].
  destruct (G_get_member d p) as [x|] eqn:Hx; [|apply wp_ret, Hno; by rewrite (member_at w gname g)]. destruct Hlook as [-> Hm].
  apply leave_member; try done. intros E. by apply (my_name w q pr (gi_conf _ _ Hi)).
Qed.
End leave.

(** The client [ana] of the daemon [a] and a client of [b] are in a group. *)
Definition chat_room : group :=
  mkGroup (pname "chat") (mkGroupId (mkMembId 11 7) 2) false 2
    [mkDaemonMembers 11 (mkMembId 11 7) [pname "#ana#a"]; mkDaemonMembers 12 (mkMembId 11 7) [pname "#bob#b"]] [7].

Lemma ana_field : private_field (str_bytes "ana") (str_bytes "a") = pname "#ana#a".
Proof. vm_compute. reflexivity. Qed.
Lemma lobby_name l : local_name (lobby_with l) 996 = pname "#ana#a".
Proof.
  destruct lobby_names as [Hn _]. rewrite <- ana_field. unfold local_name. change (sx_My_name (ss (lobby_with l))) with (str_bytes "a").
  exact (eq_ind_r (fun x => private_field x (str_bytes "a") = private_field (str_bytes "ana") (str_bytes "a")) eq_refl Hn).
Qed.

Lemma chat_room_ok : group_ok sample_conf chat_room.
Proof.
  assert (Hd : forall id s, - 2 ^ 31 <= id < 2 ^ 31 -> Z.of_nat (length (cstr (str_bytes s))) < MAX_GROUP_NAME -> daemon_ok (mkDaemonMembers id (mkMembId 11 7) [pname s])).
  { intros id s Hid Hs. constructor; [done| | |done]; [repeat constructor|]. apply Forall_singleton. by apply pname_padded. }
  constructor; [by apply pname_padded| |done]. constructor; [| |reflexivity].
  - repeat constructor; vm_compute; reflexivity.
  - apply Forall_cons. split; [|apply Forall_singleton]; (apply Hd; [lia|vm_compute; reflexivity]).
Qed.

Lemma chat_room_inv : groups_inv [996] (lobby_with [chat_room]).
Proof.
  assert (Hlm : local_members (lobby_with [chat_room]) chat_room = [pname "#ana#a"]) by (vm_compute; reflexivity).
  assert (Hmb : mbox_of 996 (lobby_with [chat_room]) = 7) by apply lobby_names.
  apply lobby_inv.
  - split; [repeat constructor|]. apply Forall_singleton, chat_room_ok.
  - apply Forall_singleton. constructor; [apply NoDup_singleton| |]; rewrite Hlm.
    + intros b. change (gr_mboxes chat_room) with [7]. rewrite list_elem_of_singleton. split.
      * intros ->. exists 996. split; [by apply list_elem_of_singleton|]. split; [by rewrite Hmb|]. rewrite lobby_name. by apply list_elem_of_singleton.
      * by intros (i & ->%list_elem_of_singleton & -> & _).
    + intros x ->%list_elem_of_singleton. exists 996. split; [by apply list_elem_of_singleton|]. by rewrite lobby_name.
Qed.

Lemma lobby_room l (k : Z) : k <= 4 -> ready_for [996] (mboxes (ss (lobby_with l)) [996]) k (lobby_with l).
Proof.
  intros Hk i ->%list_elem_of_singleton _ _. split; [apply lobby_serving|].
  assert (Hq : queued 996 (lobby_with l) = 0) by (vm_compute; reflexivity). rewrite Hq.
  assert (Hm : 4 <= cf_MaxSessionMessages (cf (core (lobby_with l)))) by (vm_compute; discriminate). lia.
Qed.

Lemma leave_group_members_witness :
  let w := lobby_with [chat_room] in
  wp (G_handle_leave (pname "#ana#a") (pname "chat"))
    (fun _ w' => left_group_members [996] w (pname "chat") 11 (private_field (str_bytes "ana") (str_bytes "a")) w') never w /\
  match G_handle_leave (pname "#ana#a") (pname "chat") w with
  | Done _ w' => (fun g => (gr_name g, group_members (gr_DaemonsList g), gr_mboxes g)) <$> GroupsList (gs w') = [(pname "chat", [pname "#bob#b"], [])] /\
      out_bytes (ss w') 7 = leave_message chat_room
  | Failed _ => False
  end.
Proof.
  assert (Hp : G_private_to_names (pname "#ana#a") = inr (Some (str_bytes "ana", str_bytes "a"))) by (vm_compute; reflexivity).
  split; [|vm_compute; split; reflexivity].
  apply (leave_group_members [996] (lobby_with [chat_room]) _ _ (str_bytes "a") (sample_proc "a" 11 0 0)).
  - apply chat_room_inv.
  - by left.
  - exact Hp.
  - reflexivity.
  - intros g Hg. assert (g = chat_room) as ->; [|split; [done|by vm_compute]].
    change (G_get_group (pname "chat") [chat_room] = Some g) in Hg. assert (Hf : G_get_group (pname "chat") [chat_room] = Some chat_room) by (vm_compute; reflexivity). congruence.
  - apply lobby_room. lia.
Defined.

Lemma Forall2_impl_in {A B} (P Q : A -> B -> Prop) l k :
  Forall2 P l k -> (forall x y, x ∈ l -> P x y -> Q x y) -> Forall2 Q l k.
Proof.
  induction 1 as [|x y l k Hxy Hlk IH]; intros HPQ; [done|]. constructor; [by apply HPQ; [left|]|]. apply IH. intros u v Hu. apply HPQ. by right.
Qed.

Section kill.
Context `{Session}.
Context (l : list Z) (w : sess_world) (p : Z) (m : member).
Implicit Types (g : group) (L : list group).

(** What one group had to say about it. *)
Definition kill_told w' g (f : Z -> list Z) : Prop :=
  ((m ∉ members_of_daemon (Cn_active (gs w)) g p) /\ forall j, f j = []) \/
  ((m ∈ members_of_daemon (Cn_active (gs w)) g p) /\ departure l w (gr_name g) m CAUSED_BY_DISCONNECT w' f).
Definition all_of (fs : list (Z -> list Z)) (j : Z) : list Z := concat ((fun f => f j) <$> fs).

(** The groups [L] have been gone through. *)
Record killed_in L w' : Prop := mkKilled {
  kl_inv : groups_inv l w';
  kl_conf : Cn_active (gs w') = Cn_active (gs w) /\ g_My_id (gs w') = g_My_id (gs w);
  kl_view : forall x id y, is_member (Cn_active (gs w)) (GroupsList (gs w')) x id y <->
    is_member (Cn_active (gs w)) (GroupsList (gs w)) x id y /\
      ~ ((exists g, g ∈ L /\ G_compare_nameptr x (gr_name g) = 0) /\ u32 id = p /\ y = m);
  kl_others : forall x, (forall g, g ∈ L -> G_compare_nameptr x (gr_name g) <> 0) -> G_get_group x (GroupsList (gs w')) = G_get_group x (GroupsList (gs w));
  kl_told : exists fs, Forall2 (kill_told w') L fs /\ told l (all_of fs) (fun _ => Z.of_nat (length L)) w w';
}.

Lemma killed_none : groups_inv l w -> killed_in [] w.
Proof.
  intros Hi. constructor; [done|done| |done|].
  - intros x id y. split; [|tauto]. intros Hy. split; [done|]. by intros ((g & ?%elem_of_nil & _) & _).
  - exists []. split; [constructor|]. by apply told_nothing.
Qed.

Lemma all_of_snoc fs f j : all_of (fs ++ [f]) j = all_of fs j ++ f j.
Proof. unfold all_of. rewrite fmap_app, concat_app. cbn. by rewrite app_nil_r. Qed.

(** The announcements of earlier groups stay what they are. *)
Lemma kill_told_kept w1 w' g f :
  (G_get_group (gr_name g) (GroupsList (gs w')) = G_get_group (gr_name g) (GroupsList (gs w1))) -> kill_told w1 g f -> kill_told w' g f.
Proof. unfold kill_told, departure. by intros ->. Qed.

(** Another group. *)
Lemma killed_next L g w1 w' :
  (forall h, h ∈ L -> G_compare_nameptr (gr_name h) (gr_name g) <> 0) ->
  killed_in L w1 -> m ∈ members_of_daemon (Cn_active (gs w)) g p ->
  left_result l w1 (gr_name g) p m CAUSED_BY_DISCONNECT w' -> killed_in (L ++ [g]) w'.
Proof.
  intros Hnew [K1 [Ka Km] K3 K4 (fs & Kfs & Kt)] Hm Hres. pose proof Hres as [R1 R2 [Ra Rm] R4 _]. rewrite Ka in R2.
  destruct (left_result_told l w w1 (gr_name g) p m CAUSED_BY_DISCONNECT w' _ _ Kt Hres) as (f & Hf & Ht).
  constructor; [done|by rewrite Ra, Rm| | |].
  - intros x id y. rewrite R2, K3. split.
    + intros [[Hy Hn] Hn2]. split; [done|]. intros ((h & Hh & E) & Eid & Ey). apply elem_of_app in Hh as [Hh| ->%list_elem_of_singleton]; [|by apply Hn2].
      apply Hn. split; [by exists h|done].
    + intros [Hy Hn]. split; [split; [done|]|]; [intros ((h & Hh & E) & Eid & Ey)|intros (E & Eid & Ey)]; apply Hn; (split; [|done]);
        [exists h; by rewrite elem_of_app; auto|exists g; rewrite elem_of_app, list_elem_of_singleton; auto].
  - intros x Hx. rewrite R4, K4; [done| |]; [intros h Hh; apply Hx, elem_of_app; by left|apply Hx, elem_of_app; right; by apply list_elem_of_singleton].
  - exists (fs ++ [f]). split.
    + apply Forall2_app; [|constructor; [by right|constructor]]. eapply Forall2_impl_in; [exact Kfs|].
      intros h fh Hh. apply kill_told_kept. by apply R4, Hnew.
    + eapply told_ext; [|exact Ht]. intros j _. rewrite all_of_snoc, length_app. split; [done|cbn; lia].
Qed.

(** A group that does not have it. *)
Lemma killed_skip L g w1 :
  G_get_group (gr_name g) (GroupsList (gs w1)) = Some g -> u32 p = p -> members_ok (Cn_active (gs w)) g ->
  killed_in L w1 -> m ∉ members_of_daemon (Cn_active (gs w)) g p -> killed_in (L ++ [g]) w1.
Proof.
  intros Hg Hp Hok [K1 Kc K3 K4 (fs & Kfs & Kt)] Hm. constructor; [done|done| | |].
  - intros x id y. rewrite K3. split.
    + intros [Hy Hn]. split; [done|]. intros ((h & Hh & E) & Eid & ->). apply elem_of_app in Hh as [Hh| ->%list_elem_of_singleton]; [by apply Hn; split; [exists h|]|].
      assert (Hin : is_member (Cn_active (gs w)) (GroupsList (gs w1)) x id m) by (apply K3; by split).
      apply Hm. apply (is_member_same _ _ x (gr_name g) id m E) in Hin as (g2 & Hg2 & Hin). assert (g2 = g) as -> by congruence.
      unfold members_of_daemon in *. by rewrite (get_daemon_same _ g p id Hok) by congruence.
    + intros [Hy Hn]. split; [done|]. intros ((h & Hh & E) & Eid & Ey). apply Hn. split; [|done]. exists h. split; [apply elem_of_app; by left|done].
  - intros x Hx. apply K4. intros h Hh. apply Hx, elem_of_app. by left.
  - exists (fs ++ [fun _ => []]). split.
    + apply Forall2_app; [done|]. constructor; [by left|constructor].
    + eapply told_ext; [|exact Kt]. intros j _. rewrite all_of_snoc, app_nil_r, length_app. split; [done|lia].
Qed.
End kill.

Section handler.
Context `{Session}.
Implicit Types (w : sess_world) (g : group).

Lemma kill_in_group_spec (l : list Z) w (pg n q : list Z) (pr : proc) (i : Z) L g rest w1 :
  groups_inv l w -> G_private_to_names pg = inr (Some (n, q)) -> u32 (p_id pr) = p_id pr ->
  (p_id pr = g_My_id (gs w) -> i ∈ l /\ local_name w i = private_field n q) ->
  Forall (fun g => gr_changed g = false /\ fits g) (GroupsList (gs w)) ->
  ready_for l (mboxes (ss w) l) (Z.of_nat (length (GroupsList (gs w)))) w ->
  GroupsList (gs w) = L ++ g :: rest -> killed_in l w (p_id pr) (private_field n q) L w1 ->
  wp (kill_in_group pg pr i g) (fun _ w' => killed_in l w (p_id pr) (private_field n q) (L ++ [g]) w') never w1.
Proof.
  intros Hi Hp Hid Hloc Hset Hr HL Hk. set (m := private_field n q) in *. destruct (private_field_of pg n q Hp) as (_ & _ & Hpad). fold m in Hpad.
  pose proof Hk as [K1 [Ka Km] K3 K4 (fs & Kfs & Kt)]. destruct (gi_groups _ _ Hi) as [Hn Hall].
  assert (Hgin : g ∈ GroupsList (gs w)) by (rewrite HL, elem_of_app; right; by left).
  rewrite Forall_forall in Hset, Hall. destruct (Hset g Hgin) as [Hch Hfit]. pose proof (Hall g Hgin) as Hok.
  assert (Hnew : forall h, h ∈ L -> G_compare_nameptr (gr_name h) (gr_name g) <> 0).
  { intros h Hh. unfold names_ok in Hn. rewrite HL in Hn. apply (skl_ok_app gr_name G_compare_nameptr) in Hn as (_ & _ & Hlt).
    specialize (Hlt h g Hh ltac:(by left)). unfold key_lt in Hlt. lia. }
  assert (Hg : G_get_group (gr_name g) (GroupsList (gs w1)) = Some g).
  { rewrite K4; [by apply get_group_in|]. intros h Hh E. apply (Hnew h Hh). by apply compare_name_sym. }
  pose proof (look_up w1 g (p_id pr) pg n q) as Hlook. rewrite Ka in Hlook. specialize (Hlook (go_members _ _ Hok) Hp).
  unfold kill_in_group. apply wp_bind, wp_get. rewrite Ka, Km.
  destruct (G_get_daemon (Cn_active (gs w)) g (p_id pr)) as [d|] eqn:Hd; [|apply wp_ret; apply killed_skip; try done; apply Hok].
  destruct (G_get_member d pg) as [x|] eqn:Hx; [|apply wp_ret; apply killed_skip; try done; apply Hok]. destruct Hlook as [-> Hm]. fold m in Hm |- *.
  assert (Hmem : m ∈ members_of_daemon (Cn_active (gs w)) g (p_id pr)) by (unfold members_of_daemon; by rewrite Hd).
  assert (Hready : all_ready l w1).
  { apply (told_all_ready l _ _ 1 (Z.of_nat (length (GroupsList (gs w)))) w w1 Kt); [|done]. intros j _. rewrite HL, length_app. cbn [length]. lia. }
  assert (Hl1 : local_ok l w1 g) by (pose proof (gi_local _ _ K1) as Hloc1; rewrite Forall_forall in Hloc1; apply Hloc1; by apply get_group_names in Hg as [? _]; [|apply (gi_groups _ _ K1)]).
  assert (Hfin : forall ms, boxes_left l w1 g (p_id pr) m ms ->
    wp (let* o := remove_member "G_handle_kill: unable to extract member" (set_gr_mboxes ms g) d m in
        match o with Some g' => tell_departure g' CAUSED_BY_DISCONNECT m | None => ret tt end)
      (fun _ w' => killed_in l w (p_id pr) m (L ++ [g]) w') never w1).
  { intros ms Hms. eapply wp_mono; [apply (take_out _ l w1 (gr_name g) g (p_id pr) d m ms CAUSED_BY_DISCONNECT); rewrite ?Ka; try done; by right| |done].
    intros [] w'. by apply (killed_next l w (p_id pr) m L g w1). }
  destruct (Z.eqb_spec (p_id pr) (g_My_id (gs w))) as [Emy|Emy].
  - destruct (Hloc Emy) as [Hil Hln]. destruct (table_range _ _ _ (gi_table _ _ Hi) Hil) as [H0 _]. rewrite (proj2 (Z.ltb_ge i 0)) by lia.
    apply wp_bind, wp_bind, wp_gets. change (s_mbox (ses (ss w1) i)) with (mbox_of i w1).
    assert (Hln1 : m = local_name w1 i).
    { rewrite <- Hln. unfold local_name. destruct (td_session _ _ _ _ _ Kt i) as (_ & -> & _). by rewrite (td_name _ _ _ _ _ Kt). }
    assert (Hlm : m ∈ local_members w1 g) by (unfold local_members; by rewrite Ka, Km, <- Emy).
    destruct (remove_mailbox_spec l w1 g i m Hl1 Hil Hln1 Hlm) as (ms & Hrm & Hpm). unfold wp at 1, lift. rewrite Hrm.
    apply Hfin. left. rewrite Km. split; [done|]. by exists i.
  - apply wp_bind, wp_ret. replace g with (set_gr_mboxes (gr_mboxes g) g) at 1 by by destruct g. apply Hfin. right. by rewrite Km.
Qed.

(** C14: a disconnection.  In a regular state, and after a transitional
    membership as long as no group has lost a daemon, [G_handle_kill] ends
    without an alarm, keeps the groups and the sessions consistent and takes
    the client out of all groups and nobody else out of any; in the order of
    the groups it was in, the local members that stay in each are sent one
    message about it. *)
Theorem kill_group_members (l : list Z) w (p n q : list Z) (pr : proc) :
  groups_inv l w -> Gstate (gs w) = GOP \/ Gstate (gs w) = GTRANS ->
  G_private_to_names p = inr (Some (n, q)) -> Conf_proc_by_name (cf_Config (cf (core w))) q = Some pr ->
  (p_id pr = g_My_id (gs w) -> exists i, i ∈ l /\ s_name (ses (ss w) i) = n) ->
  Forall (fun g => gr_changed g = false /\ fits g) (GroupsList (gs w)) ->
  ready_for l (mboxes (ss w) l) (Z.of_nat (length (GroupsList (gs w)))) w ->
  wp (G_handle_kill p)
    (fun _ w' =>
       groups_inv l w' /\
       (forall x id y, is_member (Cn_active (gs w)) (GroupsList (gs w')) x id y <->
          is_member (Cn_active (gs w)) (GroupsList (gs w)) x id y /\ ~ (u32 id = p_id pr /\ y = private_field n q)) /\
       exists fs, Forall2 (kill_told l w (p_id pr) (private_field n q) w') (GroupsList (gs w)) fs /\
         told l (all_of fs) (fun _ => Z.of_nat (length (GroupsList (gs w)))) w w') never w.
Proof.
  intros Hi Hst Hp Hpr Hloc Hset Hr. pose proof (proc_range w q pr (gi_conf _ _ Hi) Hpr) as Hid.
  unfold G_handle_kill. apply wp_bind, wp_get. apply (in_regular _ _ _ _ _ _ Hst).
  apply wp_bind. unfold private_names. apply wp_bind. unfold wp at 1, lift. rewrite Hp. apply wp_ret. rewrite Hpr.
  assert (Hs : exists i, wp (if p_id pr =? g_My_id (gs w) then let* w := get in lift (Sess_get_session n (ss w)) else ret (-1)) (fun j w' => j = i /\ w' = w) never w /\
    (p_id pr = g_My_id (gs w) -> i ∈ l /\ local_name w i = private_field n q)).
  { destruct (Z.eqb_spec (p_id pr) (g_My_id (gs w))) as [E|E]; [|exists (-1); by split].
    destruct (Hloc E) as (i & Hil & Hin). exists i. assert (Hq : q = sx_My_name (ss w)) by by apply (my_name w q pr (gi_conf _ _ Hi)).
    destruct (lookup_name (ss w) l n (gi_table _ _ Hi)) as [(j & Hj & Hjn & Hs)|[Hno _]]; [|destruct Hno; rewrite <- Hin; by apply in_names].
    assert (j = i) as -> by (eapply (key_unique s_name (ss w) l); [apply sorted_NoDup, (tb_sorted _ _ (gi_table _ _ Hi))|done|done|congruence]).
    split; [apply wp_bind, wp_get; unfold wp, lift; by rewrite Hs|]. intros _. split; [done|]. unfold local_name. by rewrite Hin, Hq. }
  destruct Hs as (i & Hs & Hil). apply wp_bind. eapply wp_mono; [exact Hs| |done]. intros j w0 [-> ->]. unfold for_groups. apply wp_bind, wp_get.
  eapply wp_mono; [apply (wp_mforeach (fun rest w1 => exists L, GroupsList (gs w) = L ++ rest /\ killed_in l w (p_id pr) (private_field n q) L w1))| |done].
  - exists []. split; [done|]. by apply killed_none.
  - intros g rest w1 (L & HL & Hk). eapply wp_mono; [by apply (kill_in_group_spec l w p n q pr i L g rest w1)| |done].
    intros [] w' Hk'. exists (L ++ [g]). by rewrite <- app_assoc.
  - intros [] w' (L & HL & [K1 _ K3 _ Kt]). rewrite app_nil_r in HL. subst L. split; [done|]. split; [|done].
    intros x id y. rewrite K3. split; intros [Hy Hn]; (split; [done|]).
    + intros [Eid Ey]. apply Hn. split; [|done]. destruct Hy as (g & Hg & _). exists g. apply get_group_names in Hg as [Hg Hk]; [done|]. apply (gi_groups _ _ Hi).
    + intros (_ & Eid & Ey). by apply Hn.
Qed.
End handler.

Lemma kill_group_members_witness :
  let w := lobby_with [chat_room] in
  wp (G_handle_kill (pname "#bob#b"))
    (fun _ w' => forall x id y, is_member sample_conf (GroupsList (gs w')) x id y <->
       is_member sample_conf [chat_room] x id y /\ ~ (u32 id = 12 /\ y = private_field (str_bytes "bob") (str_bytes "b"))) never w /\
  match G_handle_kill (pname "#bob#b") w with
  | Done _ w' => (fun g => (gr_name g, group_members (gr_DaemonsList g), gr_mboxes g)) <$> GroupsList (gs w') = [(pname "chat", [pname "#ana#a"], [7])] /\
      stream 996 w' = (GroupsList (gs w') ≫= (fun g => memb_message g CAUSED_BY_DISCONNECT (pname "#bob#b")))
  | Failed _ => False
  end.
Proof.
  assert (Hp : G_private_to_names (pname "#bob#b") = inr (Some (str_bytes "bob", str_bytes "b"))) by (vm_compute; reflexivity).
  split; [|vm_compute; split; reflexivity].
  eapply wp_mono; [apply (kill_group_members [996] (lobby_with [chat_room]) (pname "#bob#b") (str_bytes "bob") (str_bytes "b") (sample_proc "b" 12 0 1))| |done].
  - apply chat_room_inv.
  - by left.
  - exact Hp.
  - reflexivity.
  - discriminate.
  - apply Forall_singleton. split; [done|by vm_compute].
  - apply lobby_room. by vm_compute.
  - intros [] w' (_ & Hv & _). exact Hv.
Defined.
