(* ===== verification/Arq.v ===== *)
(** * The token is accepted once

    The ARQ counter of the token: the leader increments it, everybody else
    copies it, and a daemon accepts a token only if the counter is the next
    one.  A token that arrives again, as [Prot_token_hurry] makes it, is not
    processed twice, and the next one is accepted. *)

From Stdlib Require Import ZArith Lia.
From stdpp Require Import base strings numbers option gmap list sorting.
From S2P Require Import Prelude Wire Bytes Config Events State Sample Network FlowControl MembSets MembCore Deliver.
From S2P Require Import ProtSend Retrans MembForm MembInstall Membership ProtHandle Requests Ring.

Definition token_arq (w : world) : Z := Get_arq (th_type (Token (tok w))).

(** What passing the token on leaves alone. *)
Definition arq_rel (w w' : world) : Prop :=
  token_arq w' = token_arq w /\ prt w' = prt w /\ mem w' = mem w.
#[export] Instance arq_rel_preorder : PreOrder arq_rel.
Proof. split; [done|]. unfold arq_rel. intros w1 w2 w3 (?&?&?) (?&?&?). split_and!; congruence. Qed.
Abbreviation passes := (keeps arq_rel anyerr).

Section arq.
Context `{Session}.

Lemma Get_arq_range t : 0 <= Get_arq t < 16.
Proof.
  unfold Get_arq. rewrite Z.shiftr_div_pow2 by done.
  assert (H1 : Z.land t ARQ_TYPE = Z.land (t / 2 ^ 16) 15 * 2 ^ 16).
  { change ARQ_TYPE with (Z.shiftl 15 16). rewrite <- Z.shiftr_div_pow2, <- Z.shiftl_mul_pow2 by done.
    apply Z.bits_inj'. intros n Hn. rewrite Z.land_spec, !Z.shiftl_spec, Z.land_spec by done.
    destruct (Z.lt_ge_cases n 16); [by rewrite !(Z.testbit_neg_r _ (n - 16)), andb_false_r by lia|].
    rewrite Z.shiftr_spec by lia. by replace (n - 16 + 16) with n by lia. }
  rewrite H1, Z.div_mul by done. change 15 with (Z.ones 4). rewrite Z.land_ones by done. by apply Z.mod_pos_bound.
Qed.

Lemma Get_arq_endian t : Get_arq (Set_endian t) = Get_arq t.
Proof. unfold Get_arq. by rewrite land_endian. Qed.

Lemma passes_other f :
  (forall w, tok (f w) = tok w) -> (forall w, prt (f w) = prt w) -> (forall w, mem (f w) = mem w) ->
  passes (modify f).
Proof. intros Ht Hp Hm. apply keeps_modify. intros w. unfold arq_rel, token_arq. by rewrite Ht. Qed.

Lemma passes_tok f : (forall t, Token (f t) = Token t) -> passes (tok_do f).
Proof. intros Hf. apply keeps_modify. intros w. unfold arq_rel, token_arq. cbn. by rewrite Hf. Qed.

Lemma passes_io {A} (m : M world A) : keeps io_only anyerr m -> passes m.
Proof.
  intros Hm w. eapply wp_mono; [apply Hm| |done]. intros a w' (_ & Hm' & Hp & Ht & _).
  unfold arq_rel, token_arq. by rewrite Ht.
Qed.

Lemma Net_send_token_stamp h l w :
  wp (Net_send_token h l) (fun r w' => io_only w w' /\ Get_arq (th_type r.2) = Get_arq (th_type h)) anyerr w.
Proof.
  unfold Net_send_token, check_token_len. apply wp_bind. repeat (apply wp_if; intros _; [done|]).
  apply wp_ret, wp_bind, wp_get. cbv zeta. apply wp_bind.
  eapply wp_mono; [apply sends_sendto| |done]. intros r w' Hw. apply wp_ret. split; [done|]. apply Get_arq_endian.
Qed.

Lemma passes_send_token : passes send_token.
Proof.
  intros w. unfold send_token. apply wp_bind, wp_get. cbv zeta. apply wp_bind.
  eapply wp_mono; [apply Net_send_token_stamp| |done]. intros [r h] w' [(_ & Hm & Hp & Ht & _) Ha].
  apply wp_modify. unfold arq_rel, token_arq. cbn. by split_and!.
Qed.

Lemma passes_E_queue f c d : passes (E_queue f c d).
Proof. unfold E_queue, read_clock. repeat first [apply (keeps_bind _ _); [|intros ?] | apply (keeps_get _ _) | apply (keeps_ret _ _) | by apply passes_other]. Qed.

Lemma passes_leader_is c i : passes (leader_is c i).
Proof. unfold leader_is, or_fatal. destruct (Conf_leader c); [apply (keeps_ret _ _)|by apply (keeps_bind _ _); [apply keeps_fail|]]. Qed.

Lemma passes_bcast_pack p : passes (bcast_pack p).
Proof.
  unfold bcast_pack. apply (keeps_bind _ _); [apply (keeps_get _ _)|intros w]. cbv zeta.
  apply (keeps_bind _ _); [|intros [r h]; apply (keeps_ret _ _)].
  apply passes_io. intros s. eapply wp_mono; [apply sends_Net_bcast|done|done].
Qed.

Lemma passes_write_through h : passes (write_through h).
Proof.
  unfold write_through. apply (keeps_bind _ _); [apply (keeps_get _ _)|intros w].
  destruct (_ !! _); [|apply (keeps_ret _ _)]. apply (keeps_when _ _). intros _. by apply passes_other.
Qed.

Lemma passes_send_queued n : passes (send_queued n).
Proof.
  induction n as [|n IH]; cbn [send_queued]; [apply (keeps_ret _ _)|].
  apply (keeps_bind _ _); [apply (keeps_get _ _)|intros w]. cbv zeta. destruct (pq_links _); [by apply keeps_fail|].
  apply (keeps_bind _ _); [by apply passes_tok|intros _].
  apply (keeps_bind _ _); [apply passes_bcast_pack|intros h].
  apply (keeps_bind _ _); [apply passes_write_through|done].
Qed.

Lemma passes_token_forward : passes token_forward.
Proof.
  unfold token_forward, Prot_flush_bcast.
  repeat first
    [ apply (keeps_get _ _) | apply (keeps_ret _ _) | apply passes_send_token | apply passes_E_queue
    | apply passes_leader_is | apply passes_send_queued | by apply passes_tok
    | apply (keeps_when _ _); intros ? | apply (keeps_bind _ _); [|intros ?] ].
Qed.

(** The counter the token leaves with. *)
Definition next_arq (leader : bool) (a : Z) : Z := if leader then (a + 1) mod 16 else a.
Definition i_lead (w : world) (l : Z) : bool := l =? p_id (prot_My (prt w)).

Lemma Get_arq_Set_retrans t v : Get_arq (Set_retrans t v) = Get_arq t.
Proof.
  unfold Get_arq, Set_retrans. rewrite land_lor_out, land_clear_out; [done|done|].
  rewrite <- Z.land_assoc. change (Z.land RETRANS_TYPE ARQ_TYPE) with 0. apply Z.land_0_r.
Qed.

Lemma token_update_arq ptr w l :
  Conf_leader (Memb_active_ptr w) = Some l ->
  wp (token_update ptr) (fun _ w' => token_arq w' = next_arq (i_lead w l) (token_arq w) /\
    prt w' = prt w /\ mem w' = mem w) never w.
Proof.
  intros Hl. unfold token_update, tok_do. wp_steps. cbv zeta. unfold leader_is, or_fatal.
  change (Memb_active_ptr (on_tok _ (on_tok _ w))) with (Memb_active_ptr w). rewrite Hl.
  apply wp_bind, wp_ret, wp_ret, wp_modify. split; [|done].
  change (p_id (prot_My (prt (on_tok _ (on_tok _ w))))) with (p_id (prot_My (prt w))). unfold i_lead, next_arq, token_arq.
  assert (Ht : forall evs id a t, th_type (token_aru evs id a t) = th_type t).
  { intros evs id a t. unfold token_aru. by destruct (_ || _). }
  destruct (l =? p_id (prot_My (prt w))); cbn [tok on_tok Token set_Token th_type set_th_type].
  - rewrite Get_arq_Set_retrans, (proj1 (arq_field _ _)). destruct (is_state _ _).
    all: cbn [th_type set_th_seq set_th_proc_id]; rewrite Ht; cbn; by rewrite Zmod_mod.
  - destruct (is_state _ _); cbn [th_type set_th_seq set_th_proc_id]; by rewrite Ht.
Qed.

(** The end of a visit, with what the daemon remembers of the token. *)
Definition pass_token (ptr : Z) : M world unit := token_update ptr ;; token_forward ;; token_stable.

Lemma pass_token_last ptr w l :
  Conf_leader (Memb_active_ptr w) = Some l ->
  wp (pass_token ptr) (fun _ w' => Get_arq (th_type (Last_token (tok w'))) = next_arq (i_lead w l) (token_arq w) /\
    prt w' = prt w /\ mem w' = mem w) anyerr w.
Proof.
  intros Hl. unfold pass_token. apply wp_bind.
  eapply wp_mono; [by apply token_update_arq| |done]. intros ? w1 (Ha1 & Hp1 & Hm1). apply wp_bind.
  eapply wp_mono; [apply passes_token_forward| |done]. intros ? w2 (Ha2 & Hp2 & Hm2).
  unfold token_stable, tok_do, win_do. apply wp_bind, wp_get. cbv zeta. apply wp_bind, wp_if; intros _; [done|].
  apply wp_modify. wp_steps. cbn. unfold token_arq in *. split_and!; congruence.
Qed.
End arq.

Lemma wp_any {A} (m : M world A) (Q : A -> world -> Prop) s :
  (forall a s', Q a s') -> wp m Q anyerr s.
Proof. intros HQ. unfold wp. by destruct (m s). Qed.
Lemma wp_wipe (Q : unit -> world -> Prop) E s : (forall s', Q tt s') -> wp wipe_last_aru Q E s.
Proof. intros HQ. unfold wipe_last_aru, tok_do, mem_do. wp_steps; apply HQ. Qed.

(** C36: a token is accepted once.  When a daemon has passed a token on, the
    same token arriving again (its counter the one it had when it was
    received) is refused, and the token of the next round, whose counter is
    one more, is accepted; at the leader, which increments the counter, as
    well as at the others, which wait for the increment. *)
Theorem token_accepted_once `{Session} (w w' : world) (ptr l : Z) (t : token_header) :
  Conf_leader (Memb_active_ptr w) = Some l -> pass_token ptr w = Done tt w' ->
  let a := token_arq w in
  let again := on_tok (set_Token t) w' in
  (Get_arq (th_type t) = a -> wp token_is_next (fun b _ => b = false) anyerr again) /\
  (Get_arq (th_type t) = (a + 1) mod 16 -> wp token_is_next (fun b _ => b = true) never again).
Proof.
  intros Hl Hp a again. destruct (wp_done _ _ _ _ _ _ Hp (pass_token_last ptr w l Hl)) as (Hlast & Hprt & Hmem).
  fold a in Hlast. assert (Ha : 0 <= a < 16) by apply Get_arq_range.
  assert (Hne : (a + 1) mod 16 <> a).
  { destruct (decide (a = 15)) as [->|]; [done|]. rewrite Z.mod_small by lia. lia. }
  unfold token_is_next, again. split; intros Ht; apply wp_bind, wp_get; cbv zeta; unfold leader_is, or_fatal.
  all: change (Memb_active_ptr (on_tok (set_Token t) w')) with (Memb_active_ptr w').
  all: replace (Memb_active_ptr w') with (Memb_active_ptr w) by (unfold Memb_active_ptr; by rewrite Hmem).
  all: rewrite Hl; apply wp_bind, wp_bind, wp_ret, wp_ret; cbn [tok on_tok Token set_Token Last_token prt].
  all: rewrite Hprt, Hlast, Ht; unfold next_arq, i_lead in *; destruct (l =? p_id (prot_My (prt w))).
  - rewrite (proj2 (Z.eqb_neq a _)) by done. by apply wp_ret.
  - rewrite Z.eqb_refl. apply wp_bind, wp_any. intros. by apply wp_ret.
  - rewrite Z.eqb_refl. cbn [negb]. apply wp_bind, wp_wipe. intros s1. by apply wp_ret.
  - rewrite (proj2 (Z.eqb_neq _ a)), Z.eqb_refl by done. cbn [negb]. apply wp_bind, wp_wipe. intros s1. apply wp_bind.
    apply wp_when; intros _; [apply wp_modify|]; by apply wp_ret.
Qed.

(** The leader [11] of a ring of three: it passes a token with counter 15. *)
Definition sample_leading : world :=
  on_prt (set_prot_My (sample_proc "a" 11 0 0))
  (on_mem (set_Membership sample_conf)
  (on_tok (fun t => set_Token (set_th_type (Set_arq 0 15) zero_token_header) t) sample_world)).

Lemma token_accepted_once_witness :
  exists w', pass_token 0 sample_leading = Done tt w' /\
    wp token_is_next (fun b _ => b = false) anyerr (on_tok (set_Token (set_th_type (Set_arq 0 15) zero_token_header)) w') /\
    wp token_is_next (fun b _ => b = true) never (on_tok (set_Token zero_token_header) w').
Proof.
  destruct (pass_token 0 sample_leading) as [[] w'|e] eqn:Hp; [|by vm_compute in Hp].
  exists w'. split; [reflexivity|].
  assert (Hl : Conf_leader (Memb_active_ptr sample_leading) = Some 11) by (vm_compute; reflexivity).
  split.
  - apply (token_accepted_once sample_leading w' 0 11); [exact Hl|exact Hp|vm_compute; reflexivity].
  - apply (token_accepted_once sample_leading w' 0 11); [exact Hl|exact Hp|vm_compute; reflexivity].
Defined.
