(* ===== verification/Window.v ===== *)
(** * The receive window

    Which packets the daemon holds: [My_aru] is the end of the unbroken
    prefix, a packet is inserted once, at the slot of its number, and never
    below what was discarded; giving up a membership restores it.  Delivery
    moves packets out but leaves the shape of the window alone,
    provided the session layer keeps its promise. *)

From Stdlib Require Import ZArith Lia.
From stdpp Require Import base strings numbers option gmap list sorting.
From S2P Require Import Prelude Wire Bytes Config Events State Network FlowControl MembSets MembCore Deliver.
From S2P Require Import Delivery ProtSend Retrans MembForm MembInstall Membership ProtHandle Frame Sample.

(* --------------------------------------------------------------------- *)
(** ** The unbroken prefix *)

Section advance.
Context (w : world).

Lemma advance_aru_spec n : forall a,
  let a' := advance_aru w n a in
  a <= a' <= a + Z.of_nat n /\ (forall s, a < s <= a' -> missing w s = false) /\
  (a' < a + Z.of_nat n -> missing w (a' + 1) = true).
Proof.
  induction n as [|n IH]; intros a; cbn [advance_aru]; cbv zeta.
  - split_and!; [lia|lia| |lia]. intros. lia.
  - destruct (missing w (a + 1)) eqn:Hm.
    + split_and!; [lia|lia| |done]. intros. lia.
    + destruct (IH (a + 1)) as (Hb & Hp & Hn). split_and!; [lia|lia| |intros; apply Hn; lia].
      intros s Hs. destruct (decide (s = a + 1)) as [->|]; [done|]. apply Hp. lia.
Qed.
End advance.

(** The window is in shape: it is at most as wide as the array, everything up
    to [My_aru] is there, what follows [My_aru] is not, and nothing is there
    beyond [Highest_seq]. *)
Record win_ok (w : world) : Prop := {
  wo_bounds : Last_discarded (win w) <= My_aru (win w) <= Highest_seq (win w);
  wo_width : Highest_seq (win w) <= Last_discarded (win w) + MAX_PACKETS_IN_STRUCT;
  wo_prefix : forall s, Last_discarded (win w) < s <= My_aru (win w) -> missing w s = false;
  wo_next : My_aru (win w) < Highest_seq (win w) -> missing w (My_aru (win w) + 1) = true;
  wo_high : forall s, Highest_seq (win w) < s <= Last_discarded (win w) + MAX_PACKETS_IN_STRUCT ->
    missing w s = true
}.

(** A packet as it was, or delivered meanwhile: it is there like before, with
    the same header, from the same process, with the same data. *)
Definition same_packet (p p' : packet_info) : Prop :=
  p' = p \/
  (pi_exist p <> 0 /\ pi_exist p' = 2 /\ pi_head p' = pi_head p /\ pi_proc_index p' = pi_proc_index p /\
   get_bytes (pi_body p') 0 (ph_data_len (pi_head p)) = get_bytes (pi_body p) 0 (ph_data_len (pi_head p))).

#[export] Instance same_packet_preorder : PreOrder same_packet.
Proof.
  split; [by left|]. intros p1 p2 p3 [->|(H1 & H2 & Hh & Hp & Hb)] [->|(H3 & H4 & Hh' & Hp' & Hb')]; try by right.
  { by left. }
  right. rewrite Hh in Hb'. split_and!; congruence.
Qed.

Lemma same_packet_exist p p' : same_packet p p' -> (pi_exist p' =? 0) = (pi_exist p =? 0).
Proof. intros [->|(Hp & -> & _)]; [done|]. symmetry. by apply Z.eqb_neq. Qed.

(** What delivery keeps of the window. *)
Definition win_same (w w' : world) : Prop :=
  Highest_seq (win w') = Highest_seq (win w) /\ My_aru (win w') = My_aru (win w) /\
  Last_discarded (win w') = Last_discarded (win w) /\ Aru (win w') = Aru (win w) /\
  (forall e, same_packet (pkt w e) (pkt w' e)).

Lemma same_missing w w' s : same_packet (pkt w (slot s)) (pkt w' (slot s)) -> missing w' s = missing w s.
Proof. apply same_packet_exist. Qed.

#[export] Instance win_same_preorder : PreOrder win_same.
Proof.
  split; [by intros w; split_and!|]. intros w1 w2 w3 (?&?&?&?&Hm1) (?&?&?&?&Hm2).
  unfold win_same. split_and!; [congruence..|]. intros e. etransitivity; [apply Hm1|apply Hm2].
Qed.

Lemma win_ok_same w w' : win_same w w' -> win_ok w -> win_ok w'.
Proof.
  intros (Hh & Hm & Hl & Ha & He) [? ? ? ? ?]. split; rewrite ?Hh, ?Hm, ?Hl; try done.
  all: intros; rewrite (same_missing _ _ _ (He _)); auto.
Qed.

Abbreviation stays := (keeps win_same nofuel).

(* --------------------------------------------------------------------- *)
(** ** What delivery leaves alone *)

Section stays.
Context `{SessionFrame}.

Lemma stays_other f : (forall w, win (f w) = win w) -> stays (modify f).
Proof.
  intros Hf. apply keeps_modify. intros w. unfold win_same, pkt. by rewrite Hf.
Qed.

Lemma stays_win f :
  (forall r, Packets (f r) = Packets r) -> (forall r, Highest_seq (f r) = Highest_seq r) ->
  (forall r, My_aru (f r) = My_aru r) -> (forall r, Last_discarded (f r) = Last_discarded r) ->
  (forall r, Aru (f r) = Aru r) -> stays (win_do f).
Proof.
  intros Hp Hh Hm Hl Ha. apply keeps_modify. intros w. unfold win_same, pkt. cbn.
  by rewrite Hp.
Qed.

Lemma stays_upcall {A} (m : M world A) : keeps upcall_rel never m -> stays m.
Proof.
  intros Hm s. eapply wp_mono; [apply Hm| |done]. intros _ s' (Hw & _).
  unfold win_same, pkt. by rewrite Hw.
Qed.

Lemma stays_Sess_deliver_message m : stays (Sess_deliver_message m).
Proof.
  unfold Sess_deliver_message, emit. apply (keeps_bind _ _); [by apply stays_other|].
  intros _. apply stays_upcall, sess_deliver_message_frame.
Qed.

Lemma split_fragments_fuel fuel : forall b n p,
  n - Z.max 0 p <= Z.of_nat fuel -> forall m, split_fragments fuel b n p <> inl (Diverges m).
Proof.
  induction fuel as [|fuel IH]; intros b n p Hf m; cbn -[Z.of_nat padding_for get_frag].
  - destruct (Z.ltb_spec p n); [|done]. destruct (Z.ltb_spec p 0); [done|lia].
  - destruct (Z.ltb_spec p n); [|done]. destruct (Z.ltb_spec p 0); [done|].
    destruct (get_frag b _) as [i l]. zcases; try done.
    pose proof (padding_for_bound p).
    destruct (split_fragments fuel _ _ _) as [e|r] eqn:Hr; [|done]. cbn. intros [= ->].
    revert Hr. apply IH. unfold sizeof_fragment_header. lia.
Qed.

Lemma stays_put_pkt e p w :
  same_packet (pkt w e) p -> win_same w (on_win (fun r => set_Packets (<[e := p]> (Packets r)) r) w).
Proof.
  intros Hp. split_and!; try done. intros s. unfold pkt at 2. cbn.
  destruct (decide (s = e)) as [->|Hn]; [by rewrite lookup_insert_eq|by rewrite lookup_insert_ne].
Qed.


(** A packet that is there is still there after its delivery. *)
Lemma stays_Deliver_packet e b w :
  pi_exist (pkt w e) <> 0 -> wp (Deliver_packet e b) (fun _ => win_same w) nofuel w.
Proof.
  intros He. unfold Deliver_packet. apply wp_bind, wp_get. cbv zeta. apply wp_bind.
  destruct (split_fragments _ _ _ _) as [er|rest] eqn:Hs.
  { intros m ->. revert Hs. apply split_fragments_fuel. lia. }
  unfold lift, wp at 1. apply wp_bind.
  eapply (wp_mono _ (fun _ w1 => win_same w w1 /\ pkt w1 e = pkt w e) _ nofuel).
  { unfold chain_packet, put_up. wp_steps; try done. }
  2: done.
  intros mess w1 [Hw Hp]. apply wp_bind, wp_modify.
  assert (H1 : win_same w1 (on_win (fun r => set_Packets (<[e := set_pi_exist 2 (set_pi_body
    (if b then get_bytes (pi_body (pkt w e)) 0 (ph_data_len (pi_head (pkt w e))) else pi_body (pkt w e))
    (pkt w e))]> (Packets r)) r) w1)).
  { apply stays_put_pkt. rewrite Hp. right. cbn. split_and!; try done. destruct b; [apply get_bytes_again|done]. }
  match goal with |- wp ?m _ _ ?s => assert (Hk : stays m) end.
  { keeps_auto; first [by apply stays_other|by apply stays_win|apply stays_Sess_deliver_message]. }
  eapply wp_mono; [apply Hk| |done]. intros ? w2 Hw2. etransitivity; [exact Hw|]. by etransitivity.
Qed.

Lemma stays_Deliver_agreed_packets : stays Deliver_agreed_packets.
Proof.
  intros w. unfold Deliver_agreed_packets. apply wp_bind, wp_get.
  do 3 (apply wp_if; intros ?; [by apply wp_ret|]). apply wp_bind.
  apply (wp_mfor (fun _ => win_same w) (My_aru (win w) + 1)); [done|lia| |].
  - intros i s _ Hs Hc%Z.leb_le. split; [destruct Hs as (?&?&?); lia|].
    unfold deliver_agreed_step. apply wp_bind, wp_get. cbv zeta.
    apply wp_if; [intros He%Z.eqb_eq|intros _].
    { apply wp_if; intros _; [by apply wp_ret, wp_ret|].
      apply wp_bind. eapply wp_mono; [apply stays_Deliver_packet; by rewrite He| |done].
      intros ? s1 Hs1. unfold win_do. wp_steps. etransitivity; [exact Hs|by etransitivity]. }
    apply wp_if; intros _; [|by apply wp_fail]. apply wp_if; intros _; [by apply wp_fail|]. unfold win_do. by wp_steps.
  - intros i s _ Hs _. by apply wp_ret.
Qed.

Lemma stays_Deliver_reliable_packets a n : stays (Deliver_reliable_packets a n).
Proof.
  unfold Deliver_reliable_packets. apply (keeps_bind _ _); [apply (keeps_get _ _)|intros w].
  do 2 (apply (keeps_if _ _); intros ?; [apply (keeps_ret _ _)|]). cbv zeta.
  apply (keeps_mforeach _ _). intros i s. apply wp_bind, wp_get. cbv zeta.
  apply wp_when; [|done]. intros [[He%Z.eqb_eq _]%andb_true_iff _]%andb_true_iff.
  apply stays_Deliver_packet. by rewrite He.
Qed.
Lemma stays_in_ev {A} (m : M ev_state A) : (forall e, wp m (fun _ _ => True) never e) -> stays (in_ev m).
Proof.
  intros Hm w. specialize (Hm (ev w)). unfold wp, in_ev in *. by destruct (m (ev w)).
Qed.

Lemma stays_move_channel f a b c fd : stays (move_channel f a b c fd).
Proof.
  unfold move_channel. apply (keeps_bind _ _); [|intros r; apply (keeps_bind _ _); [|intros _]].
  - apply stays_in_ev. intros e. unfold E_detach_fd_priority. wp_steps; try done. cbv zeta.
    destruct (find_fd _ _ _ _); wp_steps; done.
  - by destruct (r <? 0); [apply keeps_fail|apply (keeps_ret _ _)].
  - apply (keeps_bind _ _); [|intros r'; by destruct (_ && _); [apply keeps_fail|apply (keeps_ret _ _)]].
    apply stays_in_ev. intros e. unfold E_attach_fd. wp_steps; try done. cbv zeta.
    destruct (find_fd _ _ _ _); wp_steps; done.
Qed.

Lemma stays_accelerate h : stays (accelerate h).
Proof.
  unfold accelerate, give_token_priority.
  keeps_auto; first [by apply stays_other|apply stays_move_channel].
Qed.

Lemma stays_count_received : stays count_received.
Proof. unfold count_received. keeps_auto; by apply stays_other. Qed.
End stays.

(* --------------------------------------------------------------------- *)
(** ** Inserting a packet *)

(** [w'] holds what [w] holds, and the packet [p] under the number [seq];
    a packet may have been delivered meanwhile. *)
Definition holds_also (w : world) (seq : Z) (p : packet_info) (w' : world) : Prop :=
  forall s, Last_discarded (win w) < s <= Last_discarded (win w) + MAX_PACKETS_IN_STRUCT ->
    same_packet (if decide (s = seq) then p else pkt w (slot s)) (pkt w' (slot s)).

Lemma holds_missing w seq p w' s :
  holds_also w seq p w' -> pi_exist p <> 0 ->
  Last_discarded (win w) < s <= Last_discarded (win w) + MAX_PACKETS_IN_STRUCT ->
  missing w' s = missing w s && negb (s =? seq).
Proof.
  intros Hh Hp Hs. pose proof (same_packet_exist _ _ (Hh s Hs)) as He. unfold missing. rewrite He.
  destruct (decide (s = seq)) as [->|Hn].
  - rewrite Z.eqb_refl, andb_false_r. by apply Z.eqb_neq.
  - by rewrite (proj2 (Z.eqb_neq s seq) Hn), andb_true_r.
Qed.

Lemma window_same w seq p w1 w2 :
  holds_also w seq p w1 -> (forall e, same_packet (pkt w1 e) (pkt w2 e)) -> holds_also w seq p w2.
Proof. intros Hh He s Hs. etransitivity; [by apply Hh|apply He]. Qed.

Section insert.
Context `{SessionFrame}.

(** The window counters of [v] and the packets of [w]. *)
Lemma win_ok_put w seq p w1 :
  win_ok w -> Last_discarded (win w) < seq <= Last_discarded (win w) + MAX_PACKETS_IN_STRUCT ->
  Packets (win w1) = <[slot seq := p]> (Packets (win w)) -> holds_also w seq p w1.
Proof.
  intros Hw Hs Hk s Hr. unfold pkt. rewrite Hk. destruct (decide (s = seq)) as [->|Hn].
  - by rewrite lookup_insert_eq.
  - rewrite lookup_insert_ne; [done|]. intros He. apply Hn. symmetry. apply slot_inj; [lia|done].
Qed.

Lemma update_after_insert_window w seq p w1 :
  pi_exist p <> 0 ->
  win_ok w -> Last_discarded (win w) < seq <= Last_discarded (win w) + MAX_PACKETS_IN_STRUCT ->
  missing w seq = true -> holds_also w seq p w1 ->
  Highest_seq (win w1) = Highest_seq (win w) -> My_aru (win w1) = My_aru (win w) ->
  Last_discarded (win w1) = Last_discarded (win w) ->
  wp (update_after_insert seq) (fun _ w' => win_ok w' /\
    Highest_seq (win w') = Z.max (Highest_seq (win w)) seq /\
    Last_discarded (win w') = Last_discarded (win w) /\ holds_also w seq p w') nofuel w1.
Proof.
  intros Hp0 [Hb Hwd Hpre Hnext Hhigh] Hs Hm Hh0 HH HM HL.
  pose proof (fun s => holds_missing w seq p w1 s Hh0 Hp0) as Hh.
  set (hs := Z.max (Highest_seq (win w)) seq).
  assert (Hseq : My_aru (win w) < seq).
  { apply Z.nle_gt. intros Hle. rewrite Hpre in Hm by lia. done. }
  set (w2 := on_win (fun r => if Highest_seq r <? seq then set_Highest_seq seq r else r) w1).
  assert (H2 : Highest_seq (win w2) = hs /\ My_aru (win w2) = My_aru (win w) /\
               Last_discarded (win w2) = Last_discarded (win w) /\ (forall e, pkt w2 e = pkt w1 e)).
  { unfold w2, hs, pkt. cbn. destruct (Z.ltb_spec (Highest_seq (win w1)) seq); cbn; split_and!; (done || lia). }
  destruct H2 as (H2h & H2m & H2l & H2p).
  assert (H2e : forall s, missing w2 s = missing w1 s) by (intros s; unfold missing; by rewrite H2p).
  unfold update_after_insert. apply wp_bind, wp_modify. fold w2. apply wp_bind, wp_get. cbv zeta.
  assert (Hend : forall (m : M world unit) w3, stays m -> Highest_seq (win w3) = hs ->
    Last_discarded (win w3) = Last_discarded (win w) -> (forall e, pkt w3 e = pkt w2 e) ->
    win_ok w3 -> wp m (fun _ w' => win_ok w' /\ Highest_seq (win w') = hs /\
      Last_discarded (win w') = Last_discarded (win w) /\ holds_also w seq p w') nofuel w3).
  { intros m w3 Hst H3h H3l H3m H3o. eapply wp_mono; [apply Hst| |done]. intros ? w' Hsame.
    split; [exact (win_ok_same _ _ Hsame H3o)|]. destruct Hsame as (Hsh & Hsm & Hsl & Hsa & Hse).
    split_and!; [congruence|congruence|]. apply (window_same _ _ _ w1); [done|]. intros e. rewrite <- H2p, <- H3m. apply Hse. }
  apply wp_if; [intros He%Z.eqb_eq|intros Hne%Z.eqb_neq].
  - cbn [win on_win]. apply wp_bind, wp_modify, Hend; [apply stays_Deliver_agreed_packets|done..|].
    destruct (advance_aru_spec w2 (Z.to_nat (Highest_seq (win w2) - My_aru (win w2))) (My_aru (win w2)))
      as (Ha & Hp & Hn). rewrite Z2Nat.id in Ha, Hn by lia.
    split; cbn [win on_win set_My_aru My_aru Highest_seq Last_discarded]; rewrite ?H2l.
    + lia.
    + lia.
    + intros s Hr. change (missing w2 s = false). destruct (decide (s <= My_aru (win w2))); [|apply Hp; lia].
      rewrite H2e, Hh, Hpre by lia. done.
    + intros Hlt. apply Hn. lia.
    + intros s Hr. change (missing w2 s = true). rewrite H2e, Hh, Hhigh by lia.
      cbn. apply negb_true_iff, Z.eqb_neq. lia.
  - apply Hend; [apply stays_Deliver_reliable_packets|done..|].
    split; rewrite ?H2m, ?H2l, ?H2h.
    + lia.
    + lia.
    + intros s Hr. rewrite H2e, Hh, Hpre by lia. done.
    + intros _. rewrite H2e, Hh by lia. apply andb_true_iff. split; [|apply negb_true_iff, Z.eqb_neq; lia].
      destruct (decide (My_aru (win w) < Highest_seq (win w))); [by apply Hnext|apply Hhigh; lia].
    + intros s Hr. rewrite H2e, Hh, Hhigh by lia. cbn. apply negb_true_iff, Z.eqb_neq. lia.
Qed.
End insert.


(* --------------------------------------------------------------------- *)
(** ** Backing off a membership *)

(** A hole that was agreed on is a hole again. *)
Definition undummy (p : packet_info) : packet_info := if pi_exist p =? 3 then set_pi_exist 0 p else p.

Section backoff.
Context (w : world).
Hypothesis width : Highest_seq (win w) <= Last_discarded (win w) + MAX_PACKETS_IN_STRUCT.

(** With the packets [l] still to be looked at. *)
Definition clearing (l : list Z) (w' : world) : Prop :=
  (exists pk, win w' = set_Packets pk (win w)) /\
  (forall s, Last_discarded (win w) < s <= Last_discarded (win w) + MAX_PACKETS_IN_STRUCT ->
    pkt w' (slot s) = if decide (s <= Highest_seq (win w) /\ s ∉ l) then undummy (pkt w (slot s)) else pkt w (slot s)).

Lemma clear_one i l w1 :
  Last_discarded (win w) < i <= Highest_seq (win w) -> i ∉ l -> clearing (i :: l) w1 ->
  wp (let* w := get in when (pi_exist (pkt w (slot i)) =? 3) (set_exist (slot i) 0)) (fun _ => clearing l) never w1.
Proof.
  intros Hi Hl [[pk Hpk] Hc]. assert (Hpi : pkt w1 (slot i) = pkt w (slot i)).
  { rewrite Hc by lia. rewrite decide_False; [done|]. rewrite not_elem_of_cons. tauto. }
  assert (Hrest : forall s, Last_discarded (win w) < s <= Last_discarded (win w) + MAX_PACKETS_IN_STRUCT -> s <> i ->
    pkt w1 (slot s) = if decide (s <= Highest_seq (win w) /\ s ∉ l) then undummy (pkt w (slot s)) else pkt w (slot s)).
  { intros s Hs Hn. rewrite Hc by done. destruct (decide (s <= Highest_seq (win w) /\ s ∉ l)) as [[? ?]|Hno].
    - rewrite decide_True; [done|]. rewrite not_elem_of_cons. done.
    - rewrite decide_False; [done|]. rewrite not_elem_of_cons. tauto. }
  apply wp_bind, wp_get. rewrite Hpi. apply wp_when; intros He.
  - unfold set_exist. apply wp_bind, wp_get, wp_modify. split.
    { exists (<[slot i := set_pi_exist 0 (pkt w1 (slot i))]> pk). cbn. by rewrite Hpk. }
    intros s Hs. unfold pkt at 1. cbn. destruct (decide (s = i)) as [->|Hn].
    + rewrite lookup_insert_eq, decide_True by (split; [lia|done]). cbn. by rewrite Hpi; unfold undummy; rewrite He.
    + rewrite lookup_insert_ne; [by apply Hrest|]. intros Heq. apply Hn, slot_inj; [lia|done].
  - split; [by exists pk|]. intros s Hs. destruct (decide (s = i)) as [->|Hn]; [|by apply Hrest].
    rewrite decide_True by (split; [lia|done]). rewrite Hpi. unfold undummy. by rewrite He.
Qed.

Lemma clear_all l w1 :
  NoDup l -> (forall i, i ∈ l -> Last_discarded (win w) < i <= Highest_seq (win w)) -> clearing l w1 ->
  wp (mforeach (fun i => let* w := get in when (pi_exist (pkt w (slot i)) =? 3) (set_exist (slot i) 0)) l)
    (fun _ => clearing []) never w1.
Proof.
  revert w1. induction l as [|i l IH]; intros w1 Hn Hl Hc; [done|]. cbn [mforeach]. inversion Hn; subst. apply wp_bind.
  eapply wp_mono; [apply (clear_one i l); [apply Hl; by left|done|done]| |done]. intros ? w2 Hw2.
  apply IH; [done| |done]. intros j Hj. apply Hl. by right.
Qed.
End backoff.

(** Backing off.  When the installation of a membership is given up, the
    holes it agreed on are holes again, every packet that was there still is,
    nothing counts as stable any more ([Aru] falls back to what was
    discarded), and [My_aru] is again the end of the unbroken prefix: the
    window is in shape for the next attempt. *)
Theorem Backoff_restores_window (w : world) :
  Last_discarded (win w) <= Highest_seq (win w) <= Last_discarded (win w) + MAX_PACKETS_IN_STRUCT ->
  (forall s, Highest_seq (win w) < s <= Last_discarded (win w) + MAX_PACKETS_IN_STRUCT -> missing w s = true) ->
  wp Backoff_membership (fun _ w' => win_ok w' /\ Aru (win w') = Last_discarded (win w) /\
    Highest_seq (win w') = Highest_seq (win w) /\ Last_discarded (win w') = Last_discarded (win w) /\
    (forall s, Last_discarded (win w) < s <= Highest_seq (win w) ->
       pkt w' (slot s) = undummy (pkt w (slot s)))) never w.
Proof.
  intros Hw Hhigh. unfold Backoff_membership. apply wp_bind, wp_get. apply wp_bind. unfold clear_dummies.
  eapply wp_mono; [apply (clear_all w (proj2 Hw) (seqZ (Last_discarded (win w) + 1) _)); [apply NoDup_seqZ| |]| |done].
  { intros i Hi%elem_of_seqZ. lia. }
  { split; [exists (Packets (win w)); by destruct (win w)|]. intros s Hs. rewrite decide_False; [done|].
    rewrite elem_of_seqZ. lia. }
  intros ? w1 [[pk Hpk] Hc]. apply wp_bind, wp_modify, wp_bind, wp_get, wp_modify.
  set (w2 := on_win _ w1). assert (Hl2 : Last_discarded (win w2) = Last_discarded (win w)) by (cbn; by rewrite Hpk).
  assert (Hh2 : Highest_seq (win w2) = Highest_seq (win w)) by (cbn; by rewrite Hpk).
  destruct (advance_aru_spec w2 (Z.to_nat (Highest_seq (win w2) - Last_discarded (win w2))) (Last_discarded (win w2)))
    as (Ha & Hp & Hn). rewrite Z2Nat.id in Ha, Hn by lia.
  assert (Hin : forall s, Last_discarded (win w) < s <= Highest_seq (win w) -> pkt w2 (slot s) = undummy (pkt w (slot s))).
  { intros s Hs. change (pkt w1 (slot s) = undummy (pkt w (slot s))). rewrite Hc by lia.
    rewrite decide_True; [done|]. split; [lia|]. by intros ?%not_elem_of_nil. }
  split; [|split_and!; [cbn; by rewrite Hpk|done|done|exact Hin]].
  split; cbn [win on_win set_My_aru My_aru Highest_seq Last_discarded]; [lia|lia| | |].
  - exact Hp.
  - intros Hlt. apply Hn. lia.
  - intros s Hs. change (missing w1 s = true). unfold missing. rewrite Hc by lia.
    rewrite decide_False by lia. apply Hhigh. lia.
Qed.

Lemma Backoff_restores_window_witness :
  wp Backoff_membership (fun _ w' => win_ok w' /\ Aru (win w') = 0 /\ pkt w' 2 = set_pi_exist 0 sample_hole)
    never sample_evs /\ My_aru (win (run_to Backoff_membership sample_evs)) = 1.
Proof.
  split; [|vm_compute; reflexivity].
  assert (Hh : forall s, 4 < s <= 8192 -> missing sample_evs s = true).
  { intros s Hs. unfold missing, pkt, sample_evs. cbn [win on_win on_mem Packets set_Packets].
    assert (Hslot : forall i, 1 <= i <= 4 -> i <> slot s).
    { intros i Hi He. assert (i = s); [|lia]. apply slot_inj; [unfold MAX_PACKETS_IN_STRUCT; lia|].
      rewrite slot_mod, Z.mod_small; [done|unfold MAX_PACKETS_IN_STRUCT; lia]. }
    by rewrite !lookup_insert_ne by (apply Hslot; lia). }
  pose proof (Backoff_restores_window sample_evs ltac:(cbn; unfold MAX_PACKETS_IN_STRUCT; lia) Hh) as Ht.
  refine (wp_mono _ _ _ _ _ _ Ht _ _); [|done].
  intros ? w' (Hok & Ha & _ & _ & Hin). split; [exact Hok|]. split; [exact Ha|]. exact (Hin 2 ltac:(cbn; lia)).
Defined.


(** The first packet of a ring, of one message. *)
Definition first_packet : packet_header :=
  set_ph_seq 1 (pi_head (sample_packet (Set_endian AGREED_TYPE) (-1) [10; 11; 12; 13])).

Lemma win_ok_empty w :
  Packets (win w) = ∅ -> Last_discarded (win w) = My_aru (win w) -> My_aru (win w) = Highest_seq (win w) ->
  win_ok w.
Proof.
  intros Hp Hl Hm. split; intros; unfold missing, pkt; rewrite ?Hp; unfold MAX_PACKETS_IN_STRUCT in *; (done || lia).
Qed.

