(* ===== verification/Control.v ===== *)
(** * The membership state machine

    Each state of the membership is left by a timeout at the latest, and the
    timeout is armed exactly in that state: the token loss while the token is
    alive or a form token is awaited, Gather_or_represented in SEG,
    Shift_to_seg in REPRESENTED, Form_or_fail in GATHER.  The invariant is
    preserved by every handler, so the alarms the code calls a bug in its
    state machine are never raised. *)

From Stdlib Require Import ZArith Lia.
From stdpp Require Import base strings numbers option gmap list sorting.
From S2P Require Import Prelude Wire Config Events State Network FlowControl MembSets MembCore Deliver.
From S2P Require Import ProtSend Retrans MembForm MembInstall Membership ProtHandle Frame Daemon Sample.

(* --------------------------------------------------------------------- *)
(** ** The invariant *)

Definition alive_ok (st : memb_state) (alive : bool) : bool :=
  match st with
  | OP | EVS => alive
  | SEG | REPRESENTED | FORM => negb alive
  | GATHER => true
  end.

(** Which timeouts are armed in a state. *)
Definition expected (st : memb_state) (alive : bool) (f : ev_func) : bool :=
  match f with
  | Memb_token_loss_event => alive || is_state st FORM
  | Gather_or_represented_event => is_state st SEG
  | Shift_to_seg_event => is_state st REPRESENTED
  | Form_or_fail_event => is_state st GATHER
  | _ => false
  end.

(** The control state of [w] is [st], [alive], and the timeouts [a]. *)
Definition ctl_is (st : memb_state) (alive : bool) (a : ev_func -> bool) (w : world) : Prop :=
  tq_ok (time_queue w) /\ State (mem w) = st /\ Token_alive (mem w) = alive /\
  (forall f, timeout_of f = true -> armed f w = a f).

(** The timeouts of the state are armed, and no others. *)
Definition ctl_at (st : memb_state) (alive : bool) (w : world) : Prop :=
  alive_ok st alive = true /\ ctl_is st alive (expected st alive) w.
Definition control_ok (w : world) : Prop := exists st alive, ctl_at st alive w.

(** The transitions of the membership: where one event can take a daemon in
    state [s], with its token alive or not. *)
Definition edge (s : memb_state) (alive : bool) (s' : memb_state) (alive' : bool) : bool :=
  match s, alive, s', alive' with
  | OP, true, (OP | GATHER), true => true
  | OP, true, (SEG | FORM), false => true
  | SEG, false, (SEG | REPRESENTED | GATHER), false => true
  | REPRESENTED, false, (REPRESENTED | SEG | FORM), false => true
  | GATHER, true, (GATHER | OP), true => true
  | GATHER, true, (SEG | FORM), false => true
  | GATHER, false, (GATHER | FORM), false => true
  | FORM, false, (FORM | SEG), false => true
  | FORM, false, EVS, true => true
  | EVS, true, (EVS | OP), true => true
  | EVS, true, SEG, false => true
  | _, _, _, _ => false
  end.
Definition goes (st : memb_state) (alive : bool) (w : world) : Prop :=
  exists st' alive', edge st alive st' alive' = true /\ ctl_at st' alive' w.

Definition upd (a : ev_func -> bool) (f : ev_func) (b : bool) (g : ev_func) : bool :=
  if decide (g = f) then b else a g.

(* --------------------------------------------------------------------- *)
(** ** Symbolic execution on the control state *)

Section rules.
Implicit Types (st : memb_state) (al : bool) (a : ev_func -> bool).

Lemma ctl_ext st al a a' w :
  (forall f, timeout_of f = true -> a f = a' f) -> ctl_is st al a w -> ctl_is st al a' w.
Proof. intros Ha (Hq & Hs & Hl & Hf). repeat split; try done; try apply Hq. intros f Ht. by rewrite Hf, Ha. Qed.

Lemma wp_quiet {A} (m : M world A) st al a (Q : A -> world -> Prop) s :
  quiet m -> ctl_is st al a s -> (forall x s', ctl_is st al a s' -> Q x s') -> wp m Q no_bug s.
Proof.
  intros Hm (Hq & Hs & Hl & Hf) HQ. eapply wp_mono; [apply Hm| |done].
  intros x s' Hr. destruct (Hr Hq) as (Hq' & Hs' & Hl' & Hf'). apply HQ.
  repeat split; try congruence; try apply Hq'. intros f Ht. by rewrite Hf', Hf.
Qed.

Lemma wp_arm f delta st al a (Q : unit -> world -> Prop) s :
  ctl_is st al a s -> (forall s', ctl_is st al (upd a f true) s' -> Q tt s') ->
  wp (E_queue f 0 delta) Q no_bug s.
Proof.
  intros Hc HQ. unfold E_queue. apply wp_bind.
  eapply wp_quiet; [apply quiet_read_clock|exact Hc|]. clear s Hc. intros now s (Hq & Hs & Hl & Hf).
  apply wp_modify, HQ. repeat split; try done; try by apply tq_ok_E_queue.
  intros g Hg. unfold armed, time_queue, upd. cbn [on_ev ev set_ev_Time_queue ev_Time_queue]. rewrite in_queue_E_queue by apply Hq.
  destruct (decide (g = f)) as [->|Hn]; [by rewrite bool_decide_true|].
  rewrite bool_decide_false by congruence. by apply Hf.
Qed.

Lemma wp_disarm f st al a (Q : unit -> world -> Prop) s :
  ctl_is st al a s -> (forall s', ctl_is st al (upd a f false) s' -> Q tt s') ->
  wp (E_dequeue f 0) Q no_bug s.
Proof.
  intros (Hq & Hs & Hl & Hf) HQ. apply wp_modify, HQ.
  repeat split; try done; try by apply tq_ok_E_dequeue.
  intros g Hg. unfold armed, time_queue, upd. cbn [on_ev ev set_ev_Time_queue ev_Time_queue]. rewrite in_queue_E_dequeue by apply Hq.
  destruct (decide (g = f)) as [->|Hn]; [by rewrite bool_decide_true|].
  rewrite bool_decide_false by congruence. by apply Hf.
Qed.

Lemma wp_set_State st' st al a (Q : unit -> world -> Prop) s :
  ctl_is st al a s -> (forall s', ctl_is st' al a s' -> Q tt s') ->
  wp (mem_do (set_State st')) Q no_bug s.
Proof. intros (Hq & Hs & Hl & Hf) HQ. apply wp_modify, HQ. repeat split; try done; apply Hq. Qed.

Lemma wp_set_alive al' st al a (Q : unit -> world -> Prop) s :
  ctl_is st al a s -> (forall s', ctl_is st al' a s' -> Q tt s') ->
  wp (mem_do (set_Token_alive al')) Q no_bug s.
Proof. intros (Hq & Hs & Hl & Hf) HQ. apply wp_modify, HQ. repeat split; try done; apply Hq. Qed.

Lemma goes_intro st' al' st al s :
  edge st al st' al' = true -> alive_ok st' al' = true -> ctl_is st' al' (expected st' al') s ->
  goes st al s.
Proof. intros He Ha Hc. by exists st', al'. Qed.

Lemma edge_refl st al : alive_ok st al = true -> edge st al st al = true.
Proof. by destruct st, al. Qed.

Lemma goes_stay st al s : ctl_at st al s -> goes st al s.
Proof. intros [Ha Hc]. apply (goes_intro st al); [by apply edge_refl|done|done]. Qed.

Lemma at_quiet {A} (m : M world A) st al s :
  quiet m -> ctl_at st al s -> wp m (fun _ => ctl_at st al) no_bug s.
Proof. intros Hm [Ha Hc]. eapply wp_quiet; [done..|]. by intros x s' Hc'. Qed.

Lemma goes_quiet {A} (m : M world A) st al s :
  quiet m -> goes st al s -> wp m (fun _ => goes st al) no_bug s.
Proof.
  intros Hm (st' & al' & He & Hc). eapply wp_mono; [by eapply at_quiet| |done].
  intros x s' Hc'. by exists st', al'.
Qed.

Lemma at_goes_quiet {A} (m : M world A) st al s :
  quiet m -> ctl_at st al s -> wp m (fun _ => goes st al) no_bug s.
Proof. intros Hm Hc. apply goes_quiet; [done|]. by apply goes_stay. Qed.
End rules.

(** One step: a state change, a timeout, or an operation that is quiet. *)
Ltac ctl_step :=
  lazymatch goal with
  | |- wp (bind _ _) _ _ _ => apply wp_bind
  | |- wp get _ _ _ => apply wp_get
  | |- wp (ret _) _ _ _ => apply wp_ret
  | |- wp (let _ := _ in _) _ _ _ => cbv zeta
  | |- wp (when _ _) _ _ _ => apply wp_when; intros ?
  | |- wp (fail _) _ _ _ => apply wp_fail; nobug
  | |- wp (if _ then _ else _) _ _ _ => apply wp_if; intros ?
  | |- wp (match ?x with _ => _ end) _ _ _ => lazymatch type of x with prod _ _ => destruct x end
  | H : ctl_is _ _ _ ?s |- wp (mem_do (set_State _)) _ _ ?s =>
      eapply wp_set_State; [exact H|]; clear dependent s; intros s H
  | H : ctl_is _ _ _ ?s |- wp (mem_do (set_Token_alive _)) _ _ ?s =>
      eapply wp_set_alive; [exact H|]; clear dependent s; intros s H
  end.
Ltac ctl_quiet :=
  match goal with
  | H : ctl_is _ _ _ ?s |- wp _ _ _ ?s =>
      eapply wp_quiet; [solve [auto with keeps] | exact H |];
      let x := fresh "x" in let s' := fresh "s" in let H' := fresh "Hc" in intros x s' H'
  end.
Ltac ctl_timer :=
  match goal with
  | H : ctl_is _ _ _ ?s |- wp (E_queue _ 0 _) _ _ ?s =>
      eapply wp_arm; [exact H|]; let s' := fresh "s" in let H' := fresh "Hc" in intros s' H'
  | H : ctl_is _ _ _ ?s |- wp (E_dequeue _ 0) _ _ ?s =>
      eapply wp_disarm; [exact H|]; let s' := fresh "s" in let H' := fresh "Hc" in intros s' H'
  end.
(** Compare timeouts that went through updates. *)
Ltac ctl_done :=
  eapply ctl_ext; [|eassumption];
  let f := fresh in let H := fresh in
  intros f H; destruct f; try discriminate H; unfold upd; cbn;
  repeat match goal with
  | Ha : forall f, timeout_of f = true -> ?a f = _ |- context [?a _] => rewrite Ha by reflexivity
  | Ha : ?a ?f = _ |- context [?a ?f] => rewrite Ha
  end; cbn; try reflexivity; try congruence.

(* --------------------------------------------------------------------- *)
(** ** The shifts *)

Section shifts.
Context `{SessionOk} `{PlatformOk}.
Implicit Types (st : memb_state) (al : bool) (a : ev_func -> bool).

Lemma quiet_Backoff_membership : quiet Backoff_membership.
Proof. unfold Backoff_membership, clear_dummies. keeps_auto. Qed.
Hint Resolve quiet_Backoff_membership : keeps.

Lemma Shift_to_seg_ctl st al a s :
  ctl_is st al a s ->
  wp Shift_to_seg (fun _ => ctl_is SEG al (upd a Gather_or_represented_event true)) no_bug s.
Proof.
  intros Hc. unfold Shift_to_seg, set_state.
  repeat first [ctl_step | ctl_quiet | ctl_timer]. ctl_done.
Qed.

Lemma Shift_to_gather_ctl st al a s :
  ctl_is st al a s ->
  wp Shift_to_gather (fun _ => ctl_is GATHER al (upd a Form_or_fail_event true)) no_bug s.
Proof.
  intros Hc. unfold Shift_to_gather, set_state.
  repeat first [ctl_step | ctl_quiet | ctl_timer]. done.
Qed.

Lemma Shift_to_represented_ctl st al a s :
  ctl_is st al a s ->
  wp Shift_to_represented (fun _ => ctl_is REPRESENTED al
    (upd (upd a Gather_or_represented_event false) Shift_to_seg_event true)) no_bug s.
Proof.
  intros Hc. unfold Shift_to_represented, set_state.
  repeat first [ctl_step | ctl_quiet | ctl_timer]. done.
Qed.

Lemma Shift_to_op_ctl st al a s :
  ctl_is st al a s -> wp Shift_to_op (fun _ => ctl_is OP al a) no_bug s.
Proof.
  intros Hc. unfold Shift_to_op. repeat first [ctl_step | ctl_quiet]; done.
Qed.

Lemma enter_form_ctl st al a s :
  ctl_is st al a s ->
  wp enter_form (fun _ => ctl_is FORM false (upd a Memb_token_loss_event true)) no_bug s.
Proof.
  intros Hc. unfold enter_form. repeat first [ctl_step | ctl_quiet | ctl_timer]. done.
Qed.

Lemma enter_evs_ctl st al a s :
  ctl_is st al a s ->
  wp enter_evs (fun _ => ctl_is EVS true (upd a Memb_token_loss_event true)) no_bug s.
Proof.
  intros Hc. unfold enter_evs. repeat first [ctl_step | ctl_quiet | ctl_timer]. done.
Qed.

(** The loss of the token is never a bug of the state machine in a state
    that has one to lose, and leads to SEG. *)
Lemma loss_update_potential_ctl st al a s :
  st <> SEG -> st <> REPRESENTED -> (st = GATHER -> al = true) -> ctl_is st al a s ->
  wp loss_update_potential (fun _ => ctl_is st al a) no_bug s.
Proof.
  intros Hn1 Hn2 Hn3 Hc.
  assert (Hs : State (mem s) = st) by apply Hc.
  assert (Hl : Token_alive (mem s) = al) by apply Hc.
  unfold loss_update_potential. apply wp_bind, wp_get. rewrite Hs, Hl. cbv zeta.
  destruct st; try done.
  2: specialize (Hn3 eq_refl); rewrite Hn3 in Hc |- *; cbn [negb].
  all: repeat first [ctl_step | ctl_quiet]; done.
Qed.

Lemma Memb_token_loss_ctl st al a s :
  st <> SEG -> st <> REPRESENTED -> (st = GATHER -> al = true) ->
  a Gather_or_represented_event = false -> a Shift_to_seg_event = false ->
  ctl_is st al a s ->
  wp Memb_token_loss (fun _ => ctl_is SEG false (expected SEG false)) no_bug s.
Proof.
  intros Hn1 Hn2 Hn3 Hg Ht Hc. unfold Memb_token_loss. apply wp_bind.
  eapply wp_mono; [by eapply loss_update_potential_ctl| |done]. clear dependent s. intros [] s Hc; cbn beta in Hc.
  repeat first [ctl_step | ctl_quiet | ctl_timer].
  eapply wp_mono; [by eapply Shift_to_seg_ctl| |done]. intros [] s' Hc'; cbn beta in Hc'. ctl_done.
Qed.

(** Chain a lemma on the control state. *)
Ltac ctl_use lem :=
  match goal with
  | Hc : ctl_is _ _ _ ?s |- wp _ _ _ ?s =>
      eapply wp_mono; [eapply lem; try exact Hc | | done];
      [..| clear dependent s; let s' := fresh "s" in let H' := fresh "Hc" in
           intros ? s' H'; cbn beta in H']
  end.
Ltac ctl_run := repeat first [ctl_step | ctl_quiet | ctl_timer].

Lemma Gather_or_represented_ctl st al a s :
  alive_ok SEG al = true -> ctl_is st al a s ->
  (forall f, timeout_of f = true -> a f = false) ->
  wp Gather_or_represented (fun _ => goes SEG al) no_bug s.
Proof.
  intros Hal Hc Ha. unfold Gather_or_represented. ctl_run.
  - ctl_use Shift_to_gather_ctl. apply (goes_intro GATHER al); [by destruct al|done|].
    destruct al; [done|]. ctl_done.
  - ctl_use Shift_to_represented_ctl. apply (goes_intro REPRESENTED al); [by destruct al..|].
    destruct al; [done|]. ctl_done.
Qed.

Lemma back_to_op_ctl st al a s :
  ctl_is st al a s -> wp back_to_op (fun _ => ctl_is OP al a) no_bug s.
Proof. intros Hc. unfold back_to_op. ctl_run. ctl_use Shift_to_op_ctl. done. Qed.

Lemma quiet_update_potential l : quiet (update_potential l).
Proof. unfold update_potential. keeps_auto. Qed.
Lemma quiet_next_time : quiet next_time.
Proof. unfold next_time. keeps_auto. Qed.
Lemma quiet_ucast_token_twice i h l : quiet (ucast_token_twice i h l).
Proof. unfold ucast_token_twice. keeps_auto. Qed.
Hint Resolve quiet_update_potential quiet_next_time quiet_ucast_token_twice : keeps.
Lemma quiet_create_send h b : quiet (create_send h b).
Proof. unfold create_send. keeps_auto. Qed.
Lemma quiet_fill_send h m r b : quiet (fill_send h m r b).
Proof. unfold fill_send. keeps_auto. Qed.
Hint Resolve quiet_create_send quiet_fill_send : keeps.

Lemma Create_form1_ctl st al a s :
  ctl_is st al a s ->
  wp Create_form1 (fun _ => ctl_is FORM false (upd a Memb_token_loss_event true)) no_bug s.
Proof.
  intros Hc. unfold Create_form1. ctl_run.
  ctl_use enter_form_ctl. done.
Qed.

Lemma gather_again_ctl st al a s :
  ctl_is st al a s -> wp gather_again (fun _ => ctl_is GATHER al (upd a Form_or_fail_event true)) no_bug s.
Proof. intros Hc. unfold gather_again. ctl_run. ctl_use Shift_to_gather_ctl. done. Qed.

Lemma Form_or_fail_ctl al s :
  ctl_is GATHER al (upd (expected GATHER al) Form_or_fail_event false) s ->
  wp Form_or_fail (fun _ => goes GATHER al) no_bug s.
Proof.
  intros Hc. assert (Hl : Token_alive (mem s) = al) by apply Hc.
  unfold Form_or_fail. apply wp_bind, wp_get. rewrite Hl. apply wp_bind. ctl_quiet. destruct x as [id i].
  destruct (u32 id =? my_id s), al; cbn [andb].
  - destruct (_ =? 1).
    + ctl_use back_to_op_ctl. apply (goes_intro OP true); [done|done|]. ctl_done.
    + ctl_use Create_form1_ctl. apply (goes_intro FORM false); [done|done|]. ctl_done.
  - ctl_use Create_form1_ctl. apply (goes_intro FORM false); [done|done|]. ctl_done.
  - ctl_use back_to_op_ctl. apply (goes_intro OP true); [done|done|]. ctl_done.
  - ctl_use gather_again_ctl. apply (goes_intro GATHER false); [done|done|]. ctl_done.
Qed.

Lemma quiet_scast_send_pack l : quiet (scast_send_pack l).
Proof. unfold scast_send_pack. keeps_auto. Qed.
Lemma quiet_ucast_send_pack l i : quiet (ucast_send_pack l i).
Proof. unfold ucast_send_pack. keeps_auto. Qed.
Hint Resolve quiet_scast_send_pack quiet_ucast_send_pack : keeps.
Lemma quiet_prepare_send_pack t n : quiet (prepare_send_pack t n).
Proof. unfold prepare_send_pack. keeps_auto. Qed.
Hint Resolve quiet_prepare_send_pack : keeps.
Lemma quiet_Scast_alive c : quiet (Scast_alive c).
Proof. unfold Scast_alive. keeps_auto. Qed.
Lemma quiet_Send_join : quiet Send_join.
Proof. unfold Send_join. keeps_auto. Qed.
Lemma quiet_send_refer i r t : quiet (send_refer i r t).
Proof. unfold send_refer. keeps_auto. Qed.
Lemma quiet_insert_f_member i : quiet (insert_f_member i).
Proof. unfold insert_f_member. keeps_auto. Qed.
Lemma quiet_mforeach_ucast l ids : quiet (mforeach (fun id => ucast_send_pack l (s32 id)) ids).
Proof. keeps_auto. Qed.
Hint Resolve quiet_Scast_alive quiet_Send_join quiet_send_refer quiet_insert_f_member
  quiet_mforeach_ucast : keeps.

(** The shift of a process that has a token, from OP. *)
Lemma Shift_to_gather_from_op al s :
  alive_ok OP al = true -> ctl_is OP al (expected OP al) s -> wp Shift_to_gather (fun _ => goes OP al) no_bug s.
Proof.
  intros Ha Hc. destruct al; [|done]. ctl_use Shift_to_gather_ctl.
  apply (goes_intro GATHER true); [done|done|]. ctl_done.
Qed.

Lemma Memb_lookup_new_members_ctl st al s :
  ctl_at st al s -> wp Memb_lookup_new_members (fun _ => goes st al) no_bug s.
Proof.
  intros (Ha & Hc). assert (Hs : State (mem s) = st) by apply Hc.
  unfold Memb_lookup_new_members. apply wp_bind, wp_get. rewrite Hs.
  destruct (is_state st OP) eqn:Ho; cbn [negb]; [|apply wp_ret; by apply (goes_stay st al)].
  apply bool_decide_eq_true in Ho as ->. clear Hs. ctl_run.
  - by apply (Shift_to_gather_from_op al).
  - by apply (Shift_to_gather_from_op al).
  - by apply (goes_stay OP al).
Qed.

(** The loss of the token from a consistent state that can lose it. *)
Lemma Memb_token_loss_ok st al s :
  st <> SEG -> st <> REPRESENTED -> (st = GATHER -> al = true) ->
  ctl_at st al s -> wp Memb_token_loss (fun _ => goes st al) no_bug s.
Proof.
  intros Hn1 Hn2 Hn3 [Ha Hc]. ctl_use Memb_token_loss_ctl; try by destruct st.
  apply (goes_intro SEG false); [|done|done]. destruct st, al; try done. by discriminate Hn3.
Qed.

Lemma loss_and_insert_ok st al id s :
  st <> SEG -> st <> REPRESENTED -> (st = GATHER -> al = true) ->
  ctl_at st al s -> wp (loss_and_insert id) (fun _ => goes st al) no_bug s.
Proof.
  intros Hn1 Hn2 Hn3 Hc. unfold loss_and_insert. apply wp_bind.
  eapply wp_mono; [by eapply Memb_token_loss_ok| |done]. intros [] s' Hs'.
  apply goes_quiet; [auto with keeps|done].
Qed.

(** ** Form tokens *)

Lemma quiet_fill_as_member m r : quiet (fill_as_member m r).
Proof. unfold fill_as_member. keeps_auto. Qed.
Lemma quiet_fill_as_rep m r : quiet (fill_as_rep m r).
Proof. unfold fill_as_rep. keeps_auto. Qed.
Hint Resolve quiet_fill_as_member quiet_fill_as_rep : keeps.

Lemma fill_members_ctl st al a m r s :
  st = OP \/ st = REPRESENTED \/ st = GATHER -> ctl_is st al a s ->
  wp (fill_members m r) (fun _ => ctl_is st al a) no_bug s.
Proof.
  intros Hst Hc. assert (Hs : State (mem s) = st) by apply Hc.
  unfold fill_members. apply wp_bind, wp_get. rewrite Hs.
  destruct Hst as [->|[->| ->]]; ctl_quiet; done.
Qed.

Lemma Fill_form1_ctl st al h b s :
  st = OP \/ st = REPRESENTED \/ st = GATHER -> alive_ok st al = true ->
  ctl_is st al (expected st al) s ->
  wp (Fill_form1 h b) (fun _ => goes st al) no_bug s.
Proof.
  intros Hst Ha Hc. unfold Fill_form1. ctl_run.
  ctl_use fill_members_ctl; [done|]. destruct a as [[m r]|]; [|apply wp_ret; by apply (goes_stay st al)].
  ctl_run.
  ctl_use enter_form_ctl. apply (goes_intro FORM false); [by destruct Hst as [->|[->| ->]], al|done|].
  destruct Hst as [->|[->| ->]]; ctl_done.
Qed.

Lemma Discard_packets_outside st al a s :
  st <> EVS -> ctl_is st al a s -> wp Discard_packets (fun _ => ctl_is st al a) no_bug s.
Proof.
  intros Hst Hc. assert (Hs : State (mem s) = st) by apply Hc.
  unfold Discard_packets. apply wp_bind, wp_get. rewrite Hs.
  unfold is_state. rewrite bool_decide_false by done. ctl_run; done.
Qed.

Lemma Memb_regular_ctl st al a s :
  ctl_is st al a s -> wp Memb_regular (fun _ => ctl_is OP al a) no_bug s.
Proof. intros Hc. unfold Memb_regular. ctl_run; ctl_use Shift_to_op_ctl; done. Qed.

Lemma discard_evs_ctl st al a s :
  ctl_is st al a s -> wp discard_evs (fun _ => ctl_is OP al a) no_bug s.
Proof.
  intros Hc. unfold discard_evs, discard_install, discard_after_transitional. ctl_run.
  ctl_use Memb_regular_ctl. ctl_run; done.
Qed.

Lemma Discard_packets_ok st al s : ctl_at st al s -> wp Discard_packets (fun _ => goes st al) no_bug s.
Proof.
  intros (Ha & Hc). destruct (decide (st = EVS)) as [->|Hst].
  - assert (Hs : State (mem s) = EVS) by apply Hc.
    unfold Discard_packets. apply wp_bind, wp_get. rewrite Hs. cbn [is_state].
    destruct al; [|done].
    ctl_run; try by apply (goes_stay EVS true).
    ctl_use discard_evs_ctl. apply (goes_intro OP true); [done|done|]. ctl_done.
  - eapply wp_mono; [by eapply Discard_packets_outside| |done]. intros [] s' Hc'. by apply (goes_stay st al).
Qed.

Lemma quiet_choose_ids m i : quiet (choose_ids m i).
Proof. unfold choose_ids. keeps_auto. Qed.
Lemma quiet_set_future m i : quiet (set_future m i).
Proof. unfold set_future. keeps_auto. Qed.
Lemma quiet_forget_above n : quiet (forget_above n).
Proof. induction n; cbn; keeps_auto. Qed.
Lemma quiet_make_hole i : quiet (make_hole i).
Proof. unfold make_hole. keeps_auto. Qed.
Lemma quiet_reset_my_aru : quiet reset_my_aru.
Proof. unfold reset_my_aru. keeps_auto. Qed.
Lemma quiet_set_future_commit r p : quiet (set_future_commit r p).
Proof. unfold set_future_commit. keeps_auto. Qed.
Lemma quiet_choose_trans_time r t : quiet (choose_trans_time r t).
Proof. unfold choose_trans_time. keeps_auto. Qed.
Lemma quiet_pass_form2 h b n : quiet (pass_form2 h b n).
Proof. unfold pass_form2, send_token_twice. keeps_auto. Qed.
Hint Resolve quiet_choose_ids quiet_set_future quiet_forget_above quiet_make_hole quiet_reset_my_aru
  quiet_set_future_commit quiet_choose_trans_time quiet_pass_form2 : keeps.

Lemma cut_window_ctl st al a r s :
  st <> EVS -> ctl_is st al a s -> wp (cut_window r) (fun _ => ctl_is st al a) no_bug s.
Proof. intros Hst Hc. unfold cut_window. ctl_run. ctl_use Discard_packets_outside; done. Qed.

Lemma quiet_make_holes l : quiet (mforeach make_hole l).
Proof. keeps_auto. Qed.
Hint Resolve quiet_make_holes : keeps.

Lemma Read_form2_ctl al h b s :
  ctl_at FORM al s -> wp (Read_form2 h b) (fun _ => goes FORM al) no_bug s.
Proof.
  intros [Ha Hc]. destruct al; [done|]. unfold Read_form2. ctl_run; try by apply goes_stay.
  destruct x0 as [[[r o] n]|]; [|apply wp_ret; by apply goes_stay].
  unfold install_form2. ctl_run.
  ctl_use cut_window_ctl; [done|]. ctl_run. ctl_use enter_evs_ctl.
  apply (goes_intro EVS true); [done|done|]. ctl_done.
Qed.

(** ** Messages and tokens *)

Ltac on_state Hc :=
  match type of Hc with ctl_is ?st _ _ ?s =>
    let Hs := fresh "Hs" in
    assert (Hs : State (mem s) = st) by apply Hc;
    apply wp_bind, wp_get; rewrite Hs
  end.

Lemma Memb_handle_alive_ok st al h s :
  ctl_at st al s -> wp (Memb_handle_alive h) (fun _ => goes st al) no_bug s.
Proof.
  intros [Ha Hc]. assert (Hl : Token_alive (mem s) = al) by apply Hc.
  unfold Memb_handle_alive. on_state Hc. rewrite Hl. cbv zeta.
  destruct st, al; try done; ctl_run; try by apply goes_stay.
  all: try (by eapply loss_and_insert_ok).
  apply (goes_intro REPRESENTED false); [done|done|]. ctl_done.
Qed.

Lemma join_in_op_ok al h b s :
  ctl_at OP al s -> wp (join_in_op h b) (fun _ => goes OP al) no_bug s.
Proof.
  intros [Ha Hc]. destruct al; [|done]. unfold join_in_op. ctl_run; try by apply goes_stay.
  - by eapply Memb_token_loss_ok.
  - by apply Shift_to_gather_from_op.
Qed.

Lemma quiet_from_my_rep h b : quiet (from_my_rep h b).
Proof. unfold from_my_rep. keeps_auto. Qed.
Hint Resolve quiet_from_my_rep : keeps.

Lemma join_in_seg_ok al h b s :
  ctl_at SEG al s -> wp (join_in_seg h b) (fun _ => goes SEG al) no_bug s.
Proof.
  intros [Ha Hc]. destruct al; [done|]. unfold join_in_seg. ctl_run; [|by apply goes_stay].
  ctl_use Shift_to_represented_ctl. ctl_run.
  apply (goes_intro REPRESENTED false); [done|done|]. ctl_done.
Qed.

Lemma join_in_represented_ok al h b s :
  ctl_at REPRESENTED al s -> wp (join_in_represented h b) (fun _ => goes REPRESENTED al) no_bug s.
Proof.
  intros [Ha Hc]. destruct al; [done|]. unfold join_in_represented. ctl_run.
  all: apply goes_stay; split; [done|]; ctl_done.
Qed.

Lemma join_in_gather_ok al h b s :
  ctl_at GATHER al s -> wp (join_in_gather h b) (fun _ => goes GATHER al) no_bug s.
Proof.
  intros [_ Hc]. unfold join_in_gather. ctl_run.
  all: apply goes_stay; split; [done|]; ctl_done.
Qed.

Lemma Memb_handle_join_ok st al h b s :
  ctl_at st al s -> wp (Memb_handle_join h b) (fun _ => goes st al) no_bug s.
Proof.
  intros [Ha Hc]. unfold Memb_handle_join. apply wp_bind. ctl_quiet.
  clear dependent s. rename s0 into s, Hc0 into Hc. on_state Hc.
  destruct st.
  - by eapply join_in_op_ok.
  - by eapply join_in_seg_ok.
  - by eapply join_in_represented_ok.
  - by eapply join_in_gather_ok.
  - ctl_run. by apply goes_stay.
  - ctl_run; [|by apply goes_stay]. by eapply loss_and_insert_ok.
Qed.

Lemma Memb_handle_refer_ok st al h s :
  ctl_at st al s -> wp (Memb_handle_refer h) (fun _ => goes st al) no_bug s.
Proof. apply at_goes_quiet. unfold Memb_handle_refer. keeps_auto. Qed.

Lemma Memb_handle_foreign_ok st al h b s :
  ctl_at st al s -> wp (Memb_handle_foreign h b) (fun _ => goes st al) no_bug s.
Proof.
  intros Hok. pose proof Hok as [Ha Hc]. unfold Memb_handle_foreign. on_state Hc.
  destruct st; try by apply wp_ret, goes_stay.
  destruct (Conf_proc_by_id _ _); [|by apply wp_ret, goes_stay]. ctl_run; try by apply goes_stay.
  by apply Memb_lookup_new_members_ctl.
Qed.

Lemma Memb_handle_message_ok st al h b s :
  ctl_at st al s -> wp (Memb_handle_message h b) (fun _ => goes st al) no_bug s.
Proof.
  intros Hok. unfold Memb_handle_message. ctl_run.
  - by apply Memb_handle_alive_ok.
  - by apply Memb_handle_join_ok.
  - by apply Memb_handle_refer_ok.
  - by apply Memb_handle_foreign_ok.
  - by apply goes_stay.
Qed.

Lemma Memb_handle_token_ok st al h b s :
  ctl_at st al s -> wp (Memb_handle_token h b) (fun _ => goes st al) no_bug s.
Proof.
  intros Hok. pose proof Hok as [Ha Hc]. unfold Memb_handle_token.
  destruct (truth (Is_form1 _)); [|destruct (truth (Is_form2 _)); [|by apply wp_ret, goes_stay]].
  - unfold Memb_handle_form1. on_state Hc.
    destruct st; try by apply wp_ret, goes_stay.
    + ctl_run; [by apply goes_stay|]. eapply Fill_form1_ctl; [|done..]. auto.
    + eapply Fill_form1_ctl; [|done..]. auto.
    + eapply Fill_form1_ctl; [|done..]. auto.
  - unfold Memb_handle_form2. on_state Hc.
    destruct st; try by apply wp_ret, goes_stay. by eapply Read_form2_ctl.
Qed.

Lemma Prot_initiate_conf_reload_ok st al s :
  ctl_at st al s -> wp Prot_initiate_conf_reload (fun _ => goes st al) no_bug s.
Proof.
  intros Hok. pose proof Hok as [Ha Hc]. unfold Prot_initiate_conf_reload.
  unfold Memb_state. on_state Hc. destruct (is_state st OP) eqn:Ho; cbn [negb]; [|by apply wp_ret, goes_stay].
  apply bool_decide_eq_true in Ho as ->. destruct al; [|done].
  unfold FC_signal_conf_reload, Memb_signal_conf_reload. ctl_run.
  all: apply goes_stay; split; [done|]; ctl_done.
Qed.

(** ** The handlers of the protocol *)

Lemma quiet_restart_hurry w : quiet (
     let* leader := leader_is (Memb_active_ptr w) (p_id (prot_My (prt w))) in
     when leader (E_queue Prot_token_hurry_event 0 (Hurry_timeout (tmo w)))).
Proof. keeps_auto. Qed.

Lemma restart_token_timers_ok st al s :
  ctl_at st al s -> wp restart_token_timers (fun _ => ctl_at st al) no_bug s.
Proof.
  intros [Ha Hc]. assert (Hl : Token_alive (mem s) = al) by apply Hc.
  unfold restart_token_timers, Memb_token_alive. apply wp_bind, wp_get. rewrite Hl.
  destruct al; [|by apply wp_ret]. cbn [when]. apply wp_bind. ctl_timer.
  eapply wp_quiet; [apply quiet_restart_hurry|exact Hc0|]. intros [] s' Hc'.
  split; [done|]. ctl_done.
Qed.

Lemma quiet_move_channel f p q c fd : quiet (move_channel f p q c fd).
Proof. unfold move_channel. keeps_auto. Qed.
Hint Resolve quiet_move_channel : keeps.
Lemma quiet_accelerate h : quiet (accelerate h).
Proof. unfold accelerate, give_token_priority. keeps_auto. Qed.
Lemma quiet_update_after_insert i : quiet (update_after_insert i).
Proof. unfold update_after_insert. keeps_auto. Qed.
Lemma quiet_count_received : quiet count_received.
Proof. unfold count_received. keeps_auto. Qed.
Hint Resolve quiet_accelerate quiet_update_after_insert quiet_count_received : keeps.
Lemma quiet_insert_packet h b : quiet (insert_packet h b).
Proof. unfold insert_packet. keeps_auto. Qed.

Lemma control_message_ok st al h b s :
  ctl_at st al s -> wp (control_message h b) (fun _ => goes st al) no_bug s.
Proof.
  intros Hok. unfold control_message. ctl_run.
  - apply at_goes_quiet; [auto with keeps|done].
  - apply at_goes_quiet; [auto with keeps|done].
  - unfold Prot_handle_conf_reload. ctl_run; [by apply Prot_initiate_conf_reload_ok|].
    apply at_goes_quiet; [auto with keeps|done].
  - by apply goes_stay.
Qed.

Lemma Prot_handle_bcast_ok st al fd rx s :
  ctl_at st al s -> wp (Prot_handle_bcast fd rx) (fun _ => goes st al) no_bug s.
Proof.
  intros Hok. unfold Prot_handle_bcast. apply wp_bind.
  eapply wp_mono; [apply (at_quiet (Net_recv fd rx)); [auto with keeps|done]| |done].
  clear s Hok. intros [n h] s Hok. cbn beta zeta in *. ctl_run; try by apply goes_stay.
  - by apply control_message_ok.
  - by apply Memb_handle_message_ok.
  - apply at_goes_quiet; [auto with keeps|done].
  - by apply Memb_handle_message_ok.
  - eapply wp_mono; [by apply restart_token_timers_ok| |done]. intros [] s' Hs'.
    apply at_goes_quiet; [apply quiet_insert_packet|done].
Qed.

Lemma quiet_token_admissible n : quiet (token_admissible n).
Proof. unfold token_admissible. keeps_auto. Qed.
Lemma quiet_token_is_next : quiet token_is_next.
Proof. unfold token_is_next, wipe_last_aru. keeps_auto. Qed.
Lemma quiet_give_bcast_priority : quiet give_bcast_priority.
Proof. unfold give_bcast_priority. keeps_auto. Qed.
Lemma quiet_token_send : quiet token_send.
Proof. unfold token_send. keeps_auto. Qed.
Lemma quiet_token_requests ans : quiet (token_requests ans).
Proof. unfold token_requests. keeps_auto. Qed.
Lemma quiet_token_commit : quiet token_commit.
Proof. unfold token_commit. keeps_auto. Qed.
Lemma quiet_token_update n : quiet (token_update n).
Proof. unfold token_update. keeps_auto. Qed.
Lemma quiet_send_token : quiet send_token.
Proof. unfold send_token. keeps_auto. Qed.
Hint Resolve quiet_give_bcast_priority quiet_token_send quiet_token_requests quiet_token_commit
  quiet_token_update quiet_send_token : keeps.
Lemma quiet_token_stable : quiet token_stable.
Proof. unfold token_stable. keeps_auto. Qed.
Hint Resolve quiet_token_stable : keeps.

Lemma token_forward_ok st s :
  ctl_at st true s -> wp token_forward (fun _ => ctl_at st true) no_bug s.
Proof. intros [Ha Hc]. unfold token_forward. ctl_run. all: split; [done|]; ctl_done. Qed.

Lemma token_deliver_ok n st s :
  ctl_at st true s -> wp (token_deliver n) (fun _ => goes st true) no_bug s.
Proof.
  intros Hok. unfold token_deliver. apply wp_bind.
  eapply wp_mono; [by eapply Discard_packets_ok| |done]. clear s Hok. intros [] s (st' & al & He & Ha & Hc).
  ctl_run.
  - match goal with Hb : _ && _ = true |- _ => apply andb_true_iff in Hb; destruct Hb as [Hb _];
      apply bool_decide_eq_true in Hb; rename Hb into Hevs end.
    assert (st' = EVS) as -> by (rewrite <- Hevs; symmetry; apply Hc1).
    assert (st = EVS) as -> by (by destruct st). assert (al = true) as -> by (by destruct al).
    eapply wp_mono; [by apply (Memb_token_loss_ok EVS true)| |done].
    intros [] s' Hok. apply goes_quiet; [keeps_auto|done].
  - by exists st', al.
Qed.

Lemma token_visit_ok st s :
  ctl_at st true s -> wp token_visit (fun _ => goes st true) no_bug s.
Proof.
  intros [Ha Hc]. unfold token_visit. ctl_run.
  all: eapply wp_mono; [by eapply token_forward_ok| |done];
    intros [] s' [Ha' Hc']; ctl_run; by apply token_deliver_ok.
Qed.

Lemma token_admissible_dead n s :
  Token_alive (mem s) = false -> token_admissible n s = Done false s.
Proof. intros Hl. unfold token_admissible, bind, get, Memb_token_alive. by rewrite Hl. Qed.

Lemma Prot_handle_token_ok st al fd rx s :
  ctl_at st al s -> wp (Prot_handle_token fd rx) (fun _ => goes st al) no_bug s.
Proof.
  intros [Ha Hc]. unfold Prot_handle_token. ctl_run; try by apply goes_stay.
  - by apply Memb_handle_token_ok.
  - destruct al.
    + eapply wp_quiet; [apply quiet_token_admissible|exact Hc2|]. intros [] s' Hc'; cbn [negb].
      * apply wp_bind. eapply wp_quiet; [apply quiet_token_is_next|exact Hc'|].
        intros [] s'' Hc''; [by eapply token_visit_ok|]. by apply goes_stay.
      * by apply goes_stay.
    + unfold wp at 1. rewrite token_admissible_dead by apply Hc2. by apply goes_stay.
Qed.

Lemma quiet_attach_channels : quiet attach_channels.
Proof. unfold attach_channels. keeps_auto. Qed.
Lemma quiet_Conf_set_accelerated_ring b : quiet (in_cf (Conf_set_accelerated_ring b)).
Proof. by apply quiet_in_cf. Qed.
Hint Resolve quiet_attach_channels quiet_Conf_set_accelerated_ring : keeps.
Lemma quiet_Net_init : quiet Net_init.
Proof. unfold Net_init. keeps_auto. Qed.
Hint Resolve quiet_Net_init : keeps.
Lemma quiet_init_timeouts : quiet init_timeouts.
Proof. unfold init_timeouts. keeps_auto. Qed.
Hint Resolve quiet_init_timeouts : keeps.

Lemma Memb_init_ok s st al :
  ctl_is st al (fun _ => false) s -> wp Memb_init (fun _ => ctl_at SEG false) no_bug s.
Proof.
  intros Hc. unfold Memb_init. apply wp_bind. ctl_use Shift_to_op_ctl. ctl_run.
  ctl_use Memb_token_loss_ctl; try done.
Qed.

Lemma Prot_init_ok s :
  time_queue s = [] -> wp Prot_init (fun _ => ctl_at SEG false) no_bug s.
Proof.
  intros Hq. assert (Hc : ctl_is (State (mem s)) (Token_alive (mem s)) (fun _ => false) s).
  { repeat split; try by (rewrite Hq; repeat constructor).
    intros f _. unfold armed. by rewrite Hq. }
  unfold Prot_init. ctl_run. eapply wp_mono; [by eapply Memb_init_ok| |done].
  intros [] s' Hok. apply at_quiet; [keeps_auto|done].
Qed.

(** ** Time events *)

Lemma Shift_to_seg_event_ok al s :
  alive_ok REPRESENTED al = true ->
  ctl_is REPRESENTED al (upd (expected REPRESENTED al) Shift_to_seg_event false) s ->
  wp Shift_to_seg (fun _ => goes REPRESENTED al) no_bug s.
Proof.
  intros Ha Hc. destruct al; [done|]. ctl_use Shift_to_seg_ctl.
  apply (goes_intro SEG false); [done|done|]. ctl_done.
Qed.

(** The event at the head of the queue runs from the state its timeout
    belongs to. *)
Lemma dispatch_ok st al e s :
  alive_ok st al = true -> expected st al (ev_f (ev_k e)) = true \/ timeout_of (ev_f (ev_k e)) = false ->
  ctl_is st al (upd (expected st al) (ev_f (ev_k e)) false) s ->
  wp (dispatch (ev_f (ev_k e)) (ev_code (ev_k e))) (fun _ => goes st al) no_bug s.
Proof.
  intros Ha Hx Hc. destruct e as [t [f code d]]. cbn in *.
  assert (Hq : timeout_of f = false -> ctl_at st al s).
  { intros Hf. split; [done|]. eapply ctl_ext; [|exact Hc].
    intros g Hg. unfold upd. destruct (decide (g = f)) as [->|]; [congruence|done]. }
  destruct f; cbn [dispatch]; try (apply at_goes_quiet; [solve [auto with keeps]|by apply Hq]).
  - destruct Hx as [Hx|]; [|done]. eapply wp_mono; [eapply Memb_token_loss_ctl; [..|exact Hc]| |done].
    all: try by destruct st, al. intros ? s' Hc'. apply (goes_intro SEG false); [by destruct st, al|done|done].
  - destruct Hx as [Hx|]; [|done]. destruct st; try done. by eapply Form_or_fail_ctl.
  - destruct Hx as [Hx|]; [|done]. destruct st; try done. destruct al; [done|].
    eapply Gather_or_represented_ctl; [|exact Hc|]; [done|]. intros f Hf.
    destruct f; try discriminate; reflexivity.
  - destruct Hx as [Hx|]; [|done]. destruct st; try done. by eapply Shift_to_seg_event_ok.
  - apply Memb_lookup_new_members_ctl. by apply Hq.
  - apply Prot_initiate_conf_reload_ok. by apply Hq.
Qed.

Lemma armed_head e q f : tq_ok (e :: q) -> timeout_of f = true ->
  E_in_queue (mkKey f 0 0) q = E_in_queue (mkKey f 0 0) (e :: q) && negb (bool_decide (f = ev_f (ev_k e))).
Proof.
  intros [[_ Hd] Hk] Hf. unfold E_in_queue. cbn [existsb].
  inversion Hd as [|? ? Hn _]; subst. inversion Hk as [|? ? Hc _]; subst.
  destruct (decide (f = ev_f (ev_k e))) as [->|Hne].
  - rewrite (bool_decide_true (ev_f _ = _)) by done. rewrite andb_false_r.
    apply not_true_is_false. intros (e' & He' & Heq)%existsb_exists.
    apply bool_decide_eq_true in Heq. apply Hn. rewrite (Hc Hf), <- Heq.
    by apply list_elem_of_fmap_2, list_elem_of_In.
  - rewrite (bool_decide_false (f = _)) by done. cbn [negb]. rewrite andb_true_r.
    unfold similar at 2. rewrite (bool_decide_false (ev_k e = _)); [done|]. intros Heq. apply Hne. by rewrite Heq.
Qed.

Lemma fire_time_event_ok st al s :
  ctl_at st al s -> wp fire_time_event (fun _ => goes st al) no_bug s.
Proof.
  intros Hok. unfold fire_time_event. apply wp_bind.
  eapply wp_mono; [apply (at_quiet read_clock); [auto with keeps|done]| |done].
  clear s Hok. intros now s Hok. apply wp_bind, wp_get.
  destruct (ev_Time_queue (ev s)) as [|e q] eqn:Hq; [by apply wp_ret, goes_stay|].
  apply wp_if; intros _; [|by apply wp_ret, goes_stay]. destruct Hok as (Ha & Htq & Hs & Hl & Hf).
  unfold time_queue in Htq. rewrite Hq in Htq. apply wp_bind, wp_modify, wp_bind.
  eapply wp_mono; [eapply (dispatch_ok st al e); [done| |]| |done].
  - destruct (timeout_of (ev_f (ev_k e))) eqn:Ht; [left|by right].
    rewrite <- Hf by done. unfold armed, time_queue, E_in_queue. rewrite Hq. cbn [existsb].
    destruct Htq as [_ Hk]. inversion Hk as [|? ? Hc _]; subst.
    unfold similar at 1. rewrite bool_decide_true; [done|]. by apply Hc.
  - repeat split; try done; try (by apply tq_ok_tail in Htq as [[? ?] ?]).
    intros f Ht. specialize (Hf f Ht). unfold armed, time_queue, upd in *. rewrite Hq in Hf.
    transitivity (E_in_queue (mkKey f 0 0) q); [done|]. rewrite (armed_head _ _ _ Htq Ht), Hf.
    destruct (decide (f = _)) as [->|]; [by rewrite bool_decide_true, andb_false_r|].
    rewrite bool_decide_false by done. apply andb_true_r.
  - intros [] s' Hok'. by apply wp_ret.
Qed.

Lemma step_goes st al s s' : ctl_at st al s -> step s s' -> goes st al s'.
Proof.
  intros Hok Hst. destruct Hst as [? ? He|? ? ? ? He|? ? ? ? He|? ? ? He|? ? ? He|? ? ? He].
  - by apply (wp_done _ _ _ _ _ _ He (fire_time_event_ok _ _ _ Hok)).
  - by apply (wp_done _ _ _ _ _ _ He (Prot_handle_bcast_ok _ _ _ _ _ Hok)).
  - by apply (wp_done _ _ _ _ _ _ He (Prot_handle_token_ok _ _ _ _ _ Hok)).
  - refine (wp_done _ _ _ _ _ _ He (at_goes_quiet _ _ _ _ _ Hok)). auto with keeps.
  - refine (wp_done _ _ _ _ _ _ He (at_goes_quiet _ _ _ _ _ Hok)). auto with keeps.
  - refine (wp_done _ _ _ _ _ _ He (at_goes_quiet _ _ _ _ _ Hok)). auto with keeps.
Qed.

Lemma reachable_control_ok s : reachable s -> control_ok s.
Proof.
  induction 1 as [s0 s Hq Hi|s s' _ (st & al & Hc) Hs].
  - exists SEG, false. exact (wp_done _ _ _ _ _ _ Hi (Prot_init_ok s0 Hq)).
  - destruct (step_goes st al s s' Hc Hs) as (st' & al' & _ & Hc'). by exists st', al'.
Qed.

Lemma wp_failed {A} (m : M world A) Q E s e : m s = Failed e -> wp m Q E s -> E e.
Proof. unfold wp. by intros ->. Qed.
End shifts.

(* --------------------------------------------------------------------- *)
(** ** What holds of the running daemon *)

(** C1: the timeouts of a running daemon are the ones of its state.  In every
    reachable state each of the four timeouts of the membership is in the
    time queue exactly when the state calls for it, so an event can never
    find the daemon in a state in which nothing will ever wake it. *)
Theorem timeouts_match_state `{SessionOk} `{PlatformOk} (w : world) (f : ev_func) :
  reachable w -> timeout_of f = true ->
  armed f w = expected (State (mem w)) (Token_alive (mem w)) f.
Proof.
  intros Hr Hf. destruct (reachable_control_ok w Hr) as (st & al & _ & _ & -> & -> & Ha). by apply Ha.
Qed.

Lemma timeouts_match_state_witness :
  reachable sample_started /\ armed Gather_or_represented_event sample_started = true.
Proof.
  assert (Hr : reachable sample_started).
  { apply (reach_init sample_world); [done|]. vm_compute. reflexivity. }
  split; [exact Hr|].
  rewrite (timeouts_match_state sample_started Gather_or_represented_event Hr eq_refl).
  vm_compute. reflexivity.
Defined.

(** C37: the alarms the membership calls a bug in its state machine (a token
    lost in a state that has none, a form token filled in a state that cannot
    fill one) are never raised: no turn of a reachable daemon stops with one
    of them. *)
Theorem no_state_machine_alarm `{SessionOk} `{PlatformOk} (w : world) (e : err) :
  reachable w -> step_fails w e -> no_bug e.
Proof.
  intros Hr Hf. destruct (reachable_control_ok w Hr) as (st & al & Hc).
  destruct Hf as [? ? He|? ? ? ? He|? ? ? ? He|? ? ? He|? ? ? He|? ? ? He].
  - exact (wp_failed _ _ _ _ _ He (fire_time_event_ok _ _ _ Hc)).
  - exact (wp_failed _ _ _ _ _ He (Prot_handle_bcast_ok _ _ _ _ _ Hc)).
  - exact (wp_failed _ _ _ _ _ He (Prot_handle_token_ok _ _ _ _ _ Hc)).
  - refine (wp_failed _ _ _ _ _ He (at_quiet _ _ _ _ _ Hc)). auto with keeps.
  - refine (wp_failed _ _ _ _ _ He (at_quiet _ _ _ _ _ Hc)). auto with keeps.
  - refine (wp_failed _ _ _ _ _ He (at_quiet _ _ _ _ _ Hc)). auto with keeps.
Qed.

(** A turn that does stop the daemon: the session layer asks for an illegal
    delivery threshold. *)
Lemma no_state_machine_alarm_witness :
  exists e, step_fails sample_started e /\ no_bug e.
Proof.
  eexists.
  assert (Hf : step_fails sample_started (Fatal "Prot_set_delivery_threshold: illegal service")).
  { apply (fails_threshold 1000). vm_compute. reflexivity. }
  split; [exact Hf|]. refine (no_state_machine_alarm sample_started _ _ Hf).
  apply (reach_init sample_world); [done|]. vm_compute. reflexivity.
Defined.

(** C30: the membership is the state machine [edge] describes.  One turn of a
    reachable daemon takes it along an edge: a form token is only believed
    after gathering or being represented, a membership is only installed
    (EVS) out of a form token, a regular membership (OP) only out of EVS or
    back from a gathering that kept its token. *)
Theorem step_follows_edge `{SessionOk} `{PlatformOk} (w w' : world) :
  reachable w -> step w w' ->
  edge (State (mem w)) (Token_alive (mem w)) (State (mem w')) (Token_alive (mem w')) = true.
Proof.
  intros Hr Hs. destruct (reachable_control_ok w Hr) as (st & al & Hc).
  destruct (step_goes st al w w' Hc Hs) as (st' & al' & He & _ & _ & -> & -> & _).
  by destruct Hc as (_ & _ & -> & -> & _).
Qed.

Lemma step_follows_edge_witness :
  exists w', step sample_started w' /\
    edge (State (mem sample_started)) (Token_alive (mem sample_started)) (State (mem w')) (Token_alive (mem w')) = true.
Proof.
  exists (run_to fire_time_event sample_started).
  assert (Hs : step sample_started (run_to fire_time_event sample_started)).
  { apply step_timer. vm_compute. reflexivity. }
  split; [exact Hs|]. refine (step_follows_edge _ _ _ Hs).
  apply (reach_init sample_world); [done|]. vm_compute. reflexivity.
Defined.
