(* ===== verification/Sp.v ===== *)
(** * The client library: sessions, sending and receiving ([libspread/sp.c])

    The library keeps a table of sessions, one per open mailbox, and turns
    the calls of an application into bytes on the socket of the mailbox and
    back.  A mailbox is the file descriptor of its socket; the sockets block,
    so a call to [recv] or [send] that finds its input of results exhausted
    does not return.  Another thread may kill a session whenever the library
    has let [Struct_mutex] go: what the others do is an input as well. *)

From Stdlib Require Import ZArith Lia.
From stdpp Require Import base strings numbers option gmap list.
From S2P Require Import Prelude Wire Bytes State Message Names Groups.

(** ** Constants ([include/sp.h]) *)

Definition MAX_LIB_SESSIONS : Z := Z.shiftl 0x1 10.
Definition DROP_RECV : Z := 0x01000000.
Definition MEMBERSHIP_MESS : Z := 0x00003f00.

Definition CONNECTION_CLOSED : Z := -8.
Definition ILLEGAL_SESSION : Z := -11.
Definition ILLEGAL_SERVICE : Z := -12.
Definition ILLEGAL_MESSAGE : Z := -13.
Definition ILLEGAL_GROUP : Z := -14.
Definition BUFFER_TOO_SHORT : Z := -15.
Definition GROUPS_TOO_SHORT : Z := -16.
Definition MESSAGE_TOO_LONG : Z := -17.
Definition NET_ERROR_ON_SESSION : Z := -18.

Definition Is_regular_mess (t : Z) : bool := is_mess REGULAR_MESS t && negb (is_mess REJECT_MESS t).
Definition Is_membership_mess (t : Z) : bool := is_mess MEMBERSHIP_MESS t && negb (is_mess REJECT_MESS t).

(** ** The state *)

Inductive sp_sess_state : Type := SESS_UNUSED | SESS_ACTIVE | SESS_ERROR.
#[export] Instance sp_sess_state_eq_dec : EqDecision sp_sess_state.
Proof. solve_decision. Defined.

Record sp_session : Type := mkSpSession {
  cs_mbox : Z;
  cs_state : sp_sess_state;
  cs_private_group_name : list Z;  (* the characters before the nul *)
  cs_recv_saved_head : message_header;
  cs_recv_message_saved : bool;
}.

Definition set_cs_mbox (x : Z) (r : sp_session) : sp_session :=
  mkSpSession x (cs_state r) (cs_private_group_name r) (cs_recv_saved_head r)
    (cs_recv_message_saved r).
Definition set_cs_state (x : sp_sess_state) (r : sp_session) : sp_session :=
  mkSpSession (cs_mbox r) x (cs_private_group_name r) (cs_recv_saved_head r)
    (cs_recv_message_saved r).
Definition set_cs_private_group_name (x : list Z) (r : sp_session) : sp_session :=
  mkSpSession (cs_mbox r) (cs_state r) x (cs_recv_saved_head r) (cs_recv_message_saved r).
Definition set_cs_recv_saved_head (x : message_header) (r : sp_session) : sp_session :=
  mkSpSession (cs_mbox r) (cs_state r) (cs_private_group_name r) x (cs_recv_message_saved
    r).
Definition set_cs_recv_message_saved (x : bool) (r : sp_session) : sp_session :=
  mkSpSession (cs_mbox r) (cs_state r) (cs_private_group_name r) (cs_recv_saved_head r) x.

Definition no_header : message_header := mkMessageHeader 0 (replicate 32 0) 0 0 0.
(** A session as [sp_initialize] leaves it. *)
Definition unused_session : sp_session := mkSpSession (-1) SESS_UNUSED [] no_header false.

(** The variables of the library, and the sockets as in the session layer of
    the daemon: the bytes to come and those sent, the results to come of
    [recv] and [send]; the closed mailboxes; for each time [Struct_mutex] is
    taken again, the mailbox another thread has killed in between. *)
Record sp_lib : Type := mkSpLib {
  cl_Sessions : gmap Z sp_session;
  cl_Num_sessions : Z;
  cl_in : gmap Z (list Z);
  cl_recv : list Z;
  cl_send : list Z;
  cl_out : gmap Z (list Z);
  cl_closed : list Z;
  cl_others : list (option Z);
}.

Definition set_cl_Sessions (x : gmap Z sp_session) (r : sp_lib) : sp_lib :=
  mkSpLib x (cl_Num_sessions r) (cl_in r) (cl_recv r) (cl_send r) (cl_out r) (cl_closed r)
    (cl_others r).
Definition set_cl_Num_sessions (x : Z) (r : sp_lib) : sp_lib :=
  mkSpLib (cl_Sessions r) x (cl_in r) (cl_recv r) (cl_send r) (cl_out r) (cl_closed r)
    (cl_others r).
Definition set_cl_in (x : gmap Z (list Z)) (r : sp_lib) : sp_lib :=
  mkSpLib (cl_Sessions r) (cl_Num_sessions r) x (cl_recv r) (cl_send r) (cl_out r)
    (cl_closed r) (cl_others r).
Definition set_cl_recv (x : list Z) (r : sp_lib) : sp_lib :=
  mkSpLib (cl_Sessions r) (cl_Num_sessions r) (cl_in r) x (cl_send r) (cl_out r)
    (cl_closed r) (cl_others r).
Definition set_cl_send (x : list Z) (r : sp_lib) : sp_lib :=
  mkSpLib (cl_Sessions r) (cl_Num_sessions r) (cl_in r) (cl_recv r) x (cl_out r)
    (cl_closed r) (cl_others r).
Definition set_cl_out (x : gmap Z (list Z)) (r : sp_lib) : sp_lib :=
  mkSpLib (cl_Sessions r) (cl_Num_sessions r) (cl_in r) (cl_recv r) (cl_send r) x
    (cl_closed r) (cl_others r).
Definition set_cl_closed (x : list Z) (r : sp_lib) : sp_lib :=
  mkSpLib (cl_Sessions r) (cl_Num_sessions r) (cl_in r) (cl_recv r) (cl_send r) (cl_out r)
    x (cl_others r).
Definition set_cl_others (x : list (option Z)) (r : sp_lib) : sp_lib :=
  mkSpLib (cl_Sessions r) (cl_Num_sessions r) (cl_in r) (cl_recv r) (cl_send r) (cl_out r)
    (cl_closed r) x.

Abbreviation SPM := (M sp_lib).

Definition sp_do (f : sp_lib -> sp_lib) : SPM unit := modify f.
Definition cs (w : sp_lib) (i : Z) : sp_session := default unused_session (cl_Sessions w !! i).
Definition cs_do (i : Z) (f : sp_session -> sp_session) : SPM unit :=
  sp_do (fun w => set_cl_Sessions (<[i := f (cs w i)]> (cl_Sessions w)) w).

Definition cl_in_bytes (w : sp_lib) (mbox : Z) : list Z := default [] (cl_in w !! mbox).
Definition cl_out_bytes (w : sp_lib) (mbox : Z) : list Z := default [] (cl_out w !! mbox).

(** ** Sockets *)

(** A call that never returns. *)
Definition blocked : err := Diverges "sp: blocked on a socket".

(** [while( ( ( ret = recv( mbox, buf, n, 0 ) ) == -1 ) && ... EINTR ... );]: the
    call is made again as long as it is interrupted or finds no bytes.  An
    empty request gives 0. *)
Fixpoint recv_from (l : list Z) (mbox n : Z) : SPM (Z * list Z) :=
  if n =? 0 then ret (0, [])
  else
    match l with
    | [] => fail blocked
    | k :: l =>
        sp_do (set_cl_recv l) ;;
        if k =? -1 then recv_from l mbox n
        else if k <=? 0 then ret (k, [])
        else
          let* w := get in
          let bs := take (Z.to_nat (Z.min k n)) (cl_in_bytes w mbox) in
          match bs with
          | [] => recv_from l mbox n
          | _ =>
              sp_do (fun w => set_cl_in (<[mbox := drop (length bs) (cl_in_bytes w mbox)]> (cl_in w)) w) ;;
              ret (Z.of_nat (length bs), bs)
          end
    end.
Definition sp_recv (mbox n : Z) : SPM (Z * list Z) := let* w := get in recv_from (cl_recv w) mbox n.

(** [for( len = 0, remain = n; remain > 0; len += ret, remain -= ret )]: whether
    all the bytes came, and those that came. *)
Fixpoint recv_loop (fuel : nat) (mbox remain : Z) (bs : list Z) : SPM (bool * list Z) :=
  if remain <=? 0 then ret (true, bs)
  else
    match fuel with
    | O => fail blocked
    | S fuel =>
        let* ' (k, xs) := sp_recv mbox remain in
        if k <=? 0 then ret (false, bs) else recv_loop fuel mbox (remain - k) (bs ++ xs)
    end.
(** Every round takes a result. *)
Definition recv_n (mbox n : Z) : SPM (bool * list Z) :=
  let* w := get in recv_loop (S (length (cl_recv w))) mbox n [].

(** The same for [send], which may also take nothing. *)
Fixpoint send_from (l : list Z) (mbox : Z) (bs : list Z) : SPM Z :=
  match l with
  | [] => fail blocked
  | k :: l =>
      sp_do (set_cl_send l) ;;
      if k =? -1 then send_from l mbox bs
      else if k <? 0 then ret k
      else
        let bs := take (Z.to_nat k) bs in
        sp_do (fun w => set_cl_out (<[mbox := cl_out_bytes w mbox ++ bs]> (cl_out w)) w) ;;
        ret (Z.of_nat (length bs))
  end.
Fixpoint send_loop (fuel : nat) (mbox : Z) (bs : list Z) : SPM bool :=
  match bs, fuel with
  | [], _ => ret true
  | _, O => fail blocked
  | _, S fuel =>
      let* w := get in
      let* k := send_from (cl_send w) mbox bs in
      if k <? 0 then ret false else send_loop fuel mbox (drop (Z.to_nat k) bs)
  end.
Definition send_n (mbox : Z) (bs : list Z) : SPM bool :=
  let* w := get in send_loop (S (length (cl_send w))) mbox bs.

Definition sp_close (mbox : Z) : SPM unit := sp_do (fun w => set_cl_closed (cl_closed w ++ [mbox]) w).

(** ** The table of sessions *)

(** [MBOX_TO_BASE_SES] *)
Definition MBOX_TO_BASE_SES (mbox : Z) : Z := Z.land mbox (MAX_LIB_SESSIONS - 1).
(** [if( ++ses == MAX_LIB_SESSIONS ) ses = 0;] *)
Definition next_ses (ses : Z) : Z := if ses + 1 =? MAX_LIB_SESSIONS then 0 else ses + 1.

(** The first session from [ses] on for which [stop] holds, until [base_ses]
    comes again. *)
Fixpoint find_ses (fuel : nat) (stop : sp_session -> bool) (w : sp_lib) (ses base_ses : Z) : res Z :=
  if stop (cs w ses) then inr ses
  else
    let ses := next_ses ses in
    if ses =? base_ses then inr (-1)
    else
      match fuel with
      | O => inl (Diverges "sp: session table")
      | S fuel => find_ses fuel stop w ses base_ses
      end.
Definition TABLE_FUEL : nat := Z.to_nat MAX_LIB_SESSIONS.

Definition SP_get_session (mbox : Z) : SPM Z :=
  let* w := get in
  lift (find_ses TABLE_FUEL (fun r => cs_mbox r =? mbox) w (MBOX_TO_BASE_SES mbox) (MBOX_TO_BASE_SES mbox)).

Definition SP_kill (mbox : Z) : SPM unit :=
  let* ses := SP_get_session mbox in
  if ses <? 0 then ret tt
  else
    cs_do ses (set_cs_mbox (-1)) ;;
    cs_do ses (set_cs_state SESS_UNUSED) ;;
    sp_close mbox ;;
    sp_do (fun w => set_cl_Num_sessions (cl_Num_sessions w - 1) w).

(** [Mutex_lock( &Struct_mutex )] after it was let go: what another thread
    has done in between. *)
Definition relock : SPM unit :=
  let* w := get in
  match cl_others w with
  | [] => ret tt
  | o :: l => sp_do (set_cl_others l) ;; match o with Some m => SP_kill m | None => ret tt end
  end.

(** The end of [SP_connect_timeout_low]: a session for the connected socket
    [s]; the return value. *)
Definition SP_connect_session (s : Z) (private_group : list Z) : SPM Z :=
  let* w := get in
  if MAX_LIB_SESSIONS <=? cl_Num_sessions w then sp_close s ;; ret SessState.REJECT_QUOTA
  else
    sp_do (fun w => set_cl_Num_sessions (cl_Num_sessions w + 1) w) ;;
    let* ses := lift (find_ses TABLE_FUEL (fun r => bool_decide (cs_state r = SESS_UNUSED)) w (MBOX_TO_BASE_SES s) (MBOX_TO_BASE_SES s)) in
    if ses =? -1 then sp_close s ;; ret (-19)
    else
      cs_do ses (fun r => mkSpSession s SESS_ACTIVE private_group (cs_recv_saved_head r) false) ;;
      ret SessState.ACCEPT_SESSION.

(** The socket of the mailbox failed; the session may have disappeared. *)
Definition net_error (ses mbox : Z) : SPM Z :=
  relock ;;
  let* ses' := SP_get_session mbox in
  if negb (ses =? ses') then ret CONNECTION_CLOSED
  else cs_do ses (set_cs_state SESS_ERROR) ;; ret CONNECTION_CLOSED.

(** ** Sending *)

Definition sizeof_head_buf : Z := 10000.
(** The hint that carries the [mess_type] of the application. *)
Definition hint_of (mess_type : Z) : Z := Set_endian (Z.land (Z.shiftl mess_type 8) 0x00ffff00).
(** The lengths of the elements, added as [int]. *)
Definition scat_len (scat_mess : scatter) : Z := foldl (fun n e => s32 (n + s32 (se_len e))) 0 scat_mess.

(** The loop over the elements; [len] is what was sent, [None] after an error. *)
Fixpoint send_elements (mbox : Z) (l : scatter) (len : Z) : SPM (option Z) :=
  match l with
  | [] => ret (Some len)
  | e :: l =>
      let n := s32 (se_len e) in
      let* ok := send_n mbox (get_bytes (se_buf e) 0 n) in
      if ok : bool then send_elements mbox l (len + Z.max 0 n) else ret None
  end.

(** [groups] is the memory the pointer leads to; a size computed from a
    negative [num_groups] is a huge [size_t]. *)
Definition SP_internal_multicast (mbox service_type num_groups : Z) (groups : buf) (mess_type : Z) (scat_mess : scatter) : SPM Z :=
  if sizeof_head_buf <? u64 (sizeof_message_header + MAX_GROUP_NAME * num_groups) then
    fail (Undefined "SP_internal_multicast: head_buf[]")
  else
    let* ses := SP_get_session mbox in
    if ses <? 0 then ret ILLEGAL_SESSION
    else
      let* w := get in
      let r := cs w ses in
      if negb (bool_decide (cs_state r = SESS_ACTIVE)) then ret NET_ERROR_ON_SESSION
      else
        let mess_len := scat_len scat_mess in
        if MAX_MESSAGE_BODY_LEN <? mess_len + num_groups * MAX_GROUP_NAME then ret MESSAGE_TOO_LONG
        else if sizeof_head_buf - sizeof_message_header <? u64 (MAX_GROUP_NAME * num_groups) then
          fail (Undefined "SP_internal_multicast: head_buf[]")
        else
          let head := mkMessageHeader (u32 (Set_endian service_type)) (strncpy (cs_private_group_name r) MAX_GROUP_NAME)
                        num_groups (hint_of mess_type) mess_len in
          let* ok := send_n mbox (enc_header head ++ get_bytes groups 0 (MAX_GROUP_NAME * num_groups)) in
          if negb ok then net_error ses mbox
          else
            let* len := send_elements mbox scat_mess 0 in
            match len with Some len => ret len | None => net_error ses mbox end.

(** A name for [char groups[][MAX_GROUP_NAME]]. *)
Definition send_group (group : list Z) : buf := strncpy (take (Z.to_nat (MAX_GROUP_NAME - 1)) group) MAX_GROUP_NAME.

Definition legal_group (group : list Z) : bool :=
  negb (Z.of_nat (length group) =? 0) && negb (MAX_GROUP_NAME <=? Z.of_nat (length group))
  && forallb (fun c => negb ((c <? 36) || (126 <? c))) group.

Definition SP_join (mbox : Z) (group : list Z) : SPM Z :=
  if negb (legal_group group) then ret ILLEGAL_GROUP
  else SP_internal_multicast mbox JOIN_MESS 1 (send_group group) 0 [].
Definition SP_leave (mbox : Z) (group : list Z) : SPM Z :=
  if negb (legal_group group) then ret ILLEGAL_GROUP
  else SP_internal_multicast mbox LEAVE_MESS 1 (send_group group) 0 [].

(** What the name does not fill of [send_group] is sent as the stack held it:
    0 here. *)
Definition SP_disconnect (mbox : Z) : SPM Z :=
  let* ses := SP_get_session mbox in
  if ses <? 0 then ret ILLEGAL_SESSION
  else
    let* w := get in
    relock ;;
    let* _ := SP_internal_multicast mbox KILL_MESS 1 (strncpy (cs_private_group_name (cs w ses)) MAX_GROUP_NAME) 0 [] in
    relock ;;
    SP_kill mbox ;;
    ret 0.

Definition SP_multigroup_scat_multicast (mbox service_type num_groups : Z) (groups : buf) (mess_type : Z) (scat_mess : scatter) : SPM Z :=
  if negb (Is_regular_mess service_type) then ret ILLEGAL_SERVICE
  else SP_internal_multicast mbox service_type num_groups groups mess_type scat_mess.
Definition SP_scat_multicast (mbox service_type : Z) (group : list Z) (mess_type : Z) (scat_mess : scatter) : SPM Z :=
  SP_multigroup_scat_multicast mbox service_type 1 (send_group group) mess_type scat_mess.
(** [mess_len] becomes the [size_t] of the element. *)
Definition SP_multigroup_multicast (mbox service_type num_groups : Z) (groups : buf) (mess_type mess_len : Z) (mess : buf) : SPM Z :=
  SP_multigroup_scat_multicast mbox service_type num_groups groups mess_type [mkElem mess (u64 mess_len)].
Definition SP_multicast (mbox service_type : Z) (group : list Z) (mess_type mess_len : Z) (mess : buf) : SPM Z :=
  SP_multigroup_scat_multicast mbox service_type 1 (send_group group) mess_type [mkElem mess (u64 mess_len)].

(** ** The small calls *)

(** The loop over the sessions; what else they hold stays. *)
Definition sp_initialize (w : sp_lib) : sp_lib :=
  set_cl_Sessions ((fun r => set_cs_state SESS_UNUSED (set_cs_mbox (-1) r)) <$> cl_Sessions w) w.

(** [fionread] is the result of [ioctl( mbox, FIONREAD, ...)]: [None] for an
    error. *)
Definition SP_poll (fionread : option Z) (mbox : Z) : SPM Z :=
  let* ses := SP_get_session mbox in
  if ses <? 0 then ret ILLEGAL_SESSION
  else match fionread with None => ret ILLEGAL_SESSION | Some num_bytes => ret num_bytes end.

Definition SP_query_groups : Z := -1.
Definition SP_query_members : Z := -1.
