(* ===== verification/SpRecv.v ===== *)
(** * The client library: receiving ([SP_scat_receive] of [libspread/sp.c])

    A message is read in the pieces the socket gives: the header, which is
    kept in the session when the buffers of the application are too small, the
    old type of a rejected message, the groups and the data, which go into the
    elements of a scatter.  The words of a membership message are put into the
    byte order of the host. *)

From Stdlib Require Import ZArith Lia.
From stdpp Require Import base strings numbers option gmap list.
From S2P Require Import Prelude Wire Bytes State ProtSend Message Names SessRead Groups Sp.

(** What the pointer arguments of the call lead to, before and after. *)
Record recv_args : Type := mkRecvArgs {
  ra_service_type : Z;
  ra_sender : list Z;
  ra_num_groups : Z;
  ra_groups : buf;
  ra_mess_type : Z;
  ra_endian_mismatch : Z;
  ra_scat : scatter;
}.

Definition set_ra_service_type (x : Z) (r : recv_args) : recv_args :=
  mkRecvArgs x (ra_sender r) (ra_num_groups r) (ra_groups r) (ra_mess_type r)
    (ra_endian_mismatch r) (ra_scat r).
Definition set_ra_sender (x : list Z) (r : recv_args) : recv_args :=
  mkRecvArgs (ra_service_type r) x (ra_num_groups r) (ra_groups r) (ra_mess_type r)
    (ra_endian_mismatch r) (ra_scat r).
Definition set_ra_num_groups (x : Z) (r : recv_args) : recv_args :=
  mkRecvArgs (ra_service_type r) (ra_sender r) x (ra_groups r) (ra_mess_type r)
    (ra_endian_mismatch r) (ra_scat r).
Definition set_ra_groups (x : buf) (r : recv_args) : recv_args :=
  mkRecvArgs (ra_service_type r) (ra_sender r) (ra_num_groups r) x (ra_mess_type r)
    (ra_endian_mismatch r) (ra_scat r).
Definition set_ra_mess_type (x : Z) (r : recv_args) : recv_args :=
  mkRecvArgs (ra_service_type r) (ra_sender r) (ra_num_groups r) (ra_groups r) x
    (ra_endian_mismatch r) (ra_scat r).
Definition set_ra_endian_mismatch (x : Z) (r : recv_args) : recv_args :=
  mkRecvArgs (ra_service_type r) (ra_sender r) (ra_num_groups r) (ra_groups r)
    (ra_mess_type r) x (ra_scat r).
Definition set_ra_scat (x : scatter) (r : recv_args) : recv_args :=
  mkRecvArgs (ra_service_type r) (ra_sender r) (ra_num_groups r) (ra_groups r)
    (ra_mess_type r) (ra_endian_mismatch r) x.

Definition Clear_endian (t : Z) : Z := Z.land (u32 t) (Z.lnot ENDIAN_TYPE).
(** The [mess_type] in a hint. *)
Definition hint_type (hint : Z) : Z :=
  let hint := if Same_endian hint then hint else s32 (Flip_int32 hint) in
  s16 (Z.land (Z.shiftr (Clear_endian hint) 8) 0x0000ffff).
Definition carries_hint (type : Z) : bool := Is_regular_mess type || is_mess REJECT_MESS type.

Definition set_mh_hint (x : Z) (h : message_header) : message_header :=
  mkMessageHeader (mh_type h) (mh_private_group_name h) (mh_num_groups h) x (mh_data_len h).

(** ** The header *)

Definition max_scat_len (scat : scatter) : Z := foldl (fun n e => s32 (n + s32 (se_len e))) 0 scat.

(** The header in the byte order of the host; the saved one when there is
    one.  A sum: the return value of the call, or what it goes on with. *)
Definition receive_header (ses mbox : Z) : SPM (Z + message_header) :=
  let* w := get in
  if cs_recv_message_saved (cs w ses) then ret (inr (cs_recv_saved_head (cs w ses)))
  else
    let* ' (ok, bs) := recv_n mbox sizeof_message_header in
    if negb ok then let* e := net_error ses mbox in ret (inl e)
    else
      let h := get_header bs in
      ret (inr (if Same_endian (mh_type h) then h else Flip_mess h)).

(** The buffers are too small: the header is kept, and the caller told what is
    needed. *)
Definition too_short (ses mbox : Z) (saved : bool) (h : message_header) (max_groups max_mess_len : Z) (ra : recv_args) : SPM (Z * recv_args) :=
  let* gone :=
    (if saved then ret false
     else
       relock ;;
       let* ses' := SP_get_session mbox in
       if negb (ses =? ses') then ret true
       else cs_do ses (set_cs_recv_saved_head h) ;; cs_do ses (set_cs_recv_message_saved true) ;; ret false) in
  if gone : bool then ret (ILLEGAL_SESSION, ra)
  else
    let num_groups := if max_groups <? mh_num_groups h then - mh_num_groups h else 0 in
    let endian_mismatch := if max_mess_len <? mh_data_len h then - mh_data_len h else 0 in
    let ra := set_ra_mess_type (if carries_hint (mh_type h) then hint_type (mh_hint h) else 0) ra in
    let ra := set_ra_service_type (Clear_endian (mh_type h)) ra in
    let ra := set_ra_num_groups num_groups (set_ra_endian_mismatch endian_mismatch ra) in
    let ra := set_ra_sender (strncpy (mh_private_group_name h) MAX_GROUP_NAME) ra in
    ret (if truth num_groups then GROUPS_TOO_SHORT else BUFFER_TOO_SHORT, ra).

(** ** The pieces *)

(** [old_type], which only a rejected message has. *)
Definition receive_old_type (ses mbox : Z) (h : message_header) : SPM (Z + Z) :=
  if negb (is_mess REJECT_MESS (mh_type h)) then ret (inr 0)
  else
    let* ' (ok, bs) := recv_n mbox 4 in
    if negb ok then let* e := net_error ses mbox in ret (inl e)
    else
      let old_type := get_s32 bs 0 in
      ret (inr (if Same_endian (mh_type h) then old_type else s32 (Flip_int32 old_type))).

(** Bytes that are thrown away, at most a [dummy_buf] at a time. *)
Definition sizeof_dummy_buf : Z := 10240.
Fixpoint drain_loop (fuel : nat) (mbox remain : Z) : SPM bool :=
  if remain <=? 0 then ret true
  else
    match fuel with
    | O => fail blocked
    | S fuel =>
        let* ' (k, _) := sp_recv mbox (Z.min remain sizeof_dummy_buf) in
        if k <=? 0 then ret false else drain_loop fuel mbox (remain - k)
    end.
Definition drain (mbox n : Z) : SPM bool :=
  let* w := get in drain_loop (S (length (cl_recv w))) mbox n.

(** The groups, as many as there is room for, and their number. *)
Definition receive_groups (ses mbox max_groups : Z) (h : message_header) (ra : recv_args) : SPM (option Z * recv_args) :=
  let short_groups := max_groups <? mh_num_groups h in
  let n := if short_groups then max_groups else mh_num_groups h in
  if 2 ^ 31 <=? mh_num_groups h * MAX_GROUP_NAME then fail (Undefined "SP_scat_receive: int overflow")
  else
    let* ' (ok, bs) := recv_n mbox (n * MAX_GROUP_NAME) in
    let ra := set_ra_groups (put_bytes (ra_groups ra) 0 bs) ra in
    if negb ok then let* e := net_error ses mbox in ret (Some e, ra)
    else if short_groups then
      let* ok := drain mbox ((mh_num_groups h - max_groups) * MAX_GROUP_NAME) in
      if negb ok then let* e := net_error ses mbox in ret (Some e, ra)
      else ret (None, set_ra_num_groups (- mh_num_groups h) ra)
    else ret (None, set_ra_num_groups (mh_num_groups h) ra).

(** The loop over the elements of the scatter from [byte_index] of
    [scat_index] on. *)
Fixpoint recv_elements (fuel : nat) (mbox remain scat_index byte_index : Z) (scat : scatter) : SPM (bool * scatter) :=
  if remain <=? 0 then ret (true, scat)
  else if Z.of_nat (length scat) <=? scat_index then fail (Undefined "SP_scat_receive: elements[]")
  else
    match fuel with
    | O => fail blocked
    | S fuel =>
        let to_read := Z.min (s32 (se_len (element scat scat_index) - byte_index)) remain in
        let* ' (k, bs) := sp_recv mbox to_read in
        let scat := store scat_index byte_index bs scat in
        if k <=? 0 then ret (false, scat)
        else if k =? to_read then recv_elements fuel mbox (remain - k) (scat_index + 1) 0 scat
        else recv_elements fuel mbox (remain - k) scat_index (byte_index + k) scat
    end.
(** The first element with room for a byte. *)
Fixpoint first_element (scat : scatter) (i : Z) : Z :=
  match scat with
  | [] => i
  | e :: scat => if 0 <? s32 (se_len e) then i else first_element scat (i + 1)
  end.
Definition receive_data (ses mbox n : Z) (ra : recv_args) : SPM (option Z * recv_args) :=
  let* w := get in
  let* ' (ok, scat) := recv_elements (S (length (cl_recv w))) mbox n (first_element (ra_scat ra) 0) 0 (ra_scat ra) in
  let ra := set_ra_scat scat ra in
  if negb ok then let* e := net_error ses mbox in ret (Some e, ra) else ret (None, ra).

(** The index of the group [name] among the groups. *)
Fixpoint group_index (groups : buf) (name : list Z) (n : nat) (i : Z) : option Z :=
  match n with
  | O => None
  | S n =>
      if strcmp (cstr (drop (Z.to_nat (MAX_GROUP_NAME * i)) groups)) name =? 0 then Some i
      else group_index groups name n (i + 1)
  end.

(** ** A membership message in the other byte order *)

Definition elem_at (scat : scatter) (i : Z) : res scat_elem :=
  or_err (Undefined "SP_scat_receive: elements[]") (if i <? 0 then None else scat !! Z.to_nat i).

(** The next [n] bytes at the position, and the position after them. *)
Fixpoint scat_take (fuel : nat) (scat : scatter) (i o n : Z) : res (list Z * (Z * Z)) :=
  if n <=? 0 then inr ([], (i, o))
  else
    match fuel with
    | O => inl (Diverges "SP_scat_receive: flip")
    | S fuel =>
        let? e := elem_at scat i in
        let room := s32 (se_len e - o) in
        let k := Z.min n room in
        let? ' (bs, p) := (if k =? room then scat_take fuel scat (i + 1) 0 (n - k) else scat_take fuel scat i (o + k) (n - k)) in
        inr (get_bytes (se_buf e) o k ++ bs, p)
    end.
(** The bytes [bs] written at the position. *)
Fixpoint scat_put (fuel : nat) (scat : scatter) (i o : Z) (bs : list Z) : res scatter :=
  match bs, fuel with
  | [], _ => inr scat
  | _, O => inl (Diverges "SP_scat_receive: flip")
  | _, S fuel =>
      let? e := elem_at scat i in
      let k := Z.min (Z.of_nat (length bs)) (s32 (se_len e - o)) in
      scat_put fuel (store i o (take (Z.to_nat k) bs) scat) (i + 1) 0 (drop (Z.to_nat k) bs)
  end.
(** The position [n] bytes further. *)
Fixpoint scat_skip (fuel : nat) (scat : scatter) (i o n : Z) : res (Z * Z) :=
  if n <=? 0 then inr (i, o)
  else
    match fuel with
    | O => inl (Diverges "SP_scat_receive: flip")
    | S fuel =>
        let? e := elem_at scat i in
        let room := s32 (se_len e - o) in
        if n <? room then inr (i, o + n) else scat_skip fuel scat (i + 1) 0 (n - room)
    end.
(** Every round but the last leaves an element. *)
Definition flip_fuel (scat : scatter) : nat := S (S (length scat)).

Definition flip_word (bs : list Z) : list Z := enc32 (Flip_int32 (get_s32 bs 0)).

(** The counters of the vs sets; [word] is what [groups_buf] starts with. *)
Fixpoint flip_vs_sets (n : nat) (max_mess_len : Z) (scat : scatter) (i o total target : Z) (word : list Z) : res scatter :=
  match n with
  | O => inr scat
  | S n =>
      let? ' (i, o) := scat_skip (flip_fuel scat) scat i o (target - total) in
      let total := Z.max total target in
      let flip_size := if max_mess_len <? 4 + total then max_mess_len - total else 4 in
      let? ' (bs, (i', o')) := scat_take (flip_fuel scat) scat i o flip_size in
      let total := total + flip_size in
      let word := flip_word (put_bytes word 0 bs) in
      let? scat := scat_put (flip_fuel scat) scat i o (take (Z.to_nat flip_size) word) in
      let num_vs := get_u32 word 0 in
      flip_vs_sets n max_mess_len scat i' o' total (s32 (total + num_vs * MAX_GROUP_NAME)) word
  end.

(** The group id, the number of sets and the offset of the local one; then
    the sets.  With a shorter message the code goes on with what its stack
    held. *)
Definition flip_memb (max_mess_len : Z) (scat : scatter) : res scatter :=
  let flip_size := sizeof_group_id + 2 * 4 in
  if max_mess_len <? flip_size then inl (Undefined "SP_scat_receive: groups_buf")
  else
    let? ' (bs, (i, o)) := scat_take (flip_fuel scat) scat 0 0 flip_size in
    let words := (fun k => flip_word (drop (Z.to_nat (4 * k)) bs)) <$> seqZ 0 5 in
    let? scat := scat_put (flip_fuel scat) scat 0 0 (concat words) in
    let num_vs_sets := get_u32 (aget [] words 3) 0 in
    flip_vs_sets (Z.to_nat (s32 num_vs_sets)) max_mess_len scat i o flip_size flip_size (aget [] words 0).

(** ** The call *)

(** The message is complete: the end of the call. *)
Definition finish (ses mbox : Z) (saved : bool) (old_type max_mess_len : Z) (h : message_header) (ra : recv_args) : SPM (Z * recv_args) :=
  let type := if is_mess REJECT_MESS (mh_type h) then u32 (Z.lor old_type REJECT_MESS) else mh_type h in
  let ra := set_ra_service_type (Clear_endian type) ra in
  if max_mess_len <? mh_data_len h then
    let* ok := drain mbox (mh_data_len h - max_mess_len) in
    if negb ok then let* e := net_error ses mbox in ret (e, ra) else ret (BUFFER_TOO_SHORT, ra)
  else if saved then
    relock ;;
    let* ses' := SP_get_session mbox in
    if negb (ses =? ses') then ret (ILLEGAL_SESSION, ra)
    else
      cs_do ses (set_cs_recv_saved_head no_header) ;;
      cs_do ses (set_cs_recv_message_saved false) ;;
      ret (mh_data_len h, ra)
  else ret (mh_data_len h, ra).

(** Groups and data of a message that is taken from the socket. *)
Definition receive_rest (ses mbox : Z) (saved : bool) (private_group : list Z) (max_groups max_mess_len : Z) (h : message_header) (ra : recv_args)
    : SPM (Z * recv_args) :=
  let hinted := carries_hint (mh_type h) in
  let ra := set_ra_mess_type (if hinted then hint_type (mh_hint h) else -1) ra in
  let ra := set_ra_endian_mismatch (if hinted then cbool (negb (Same_endian (mh_hint h))) else 0) ra in
  let ra := set_ra_sender (strncpy (mh_private_group_name h) MAX_GROUP_NAME) ra in
  let* old_type := receive_old_type ses mbox h in
  match old_type with
  | inl e => ret (e, ra)
  | inr old_type =>
      let* ' (e, ra) := receive_groups ses mbox max_groups h ra in
      match e with
      | Some e => ret (e, ra)
      | None =>
          let* ' (e, ra) := receive_data ses mbox (Z.min (mh_data_len h) max_mess_len) ra in
          match e with
          | Some e => ret (e, ra)
          | None =>
              let reg_memb := is_mess REG_MEMB_MESS (mh_type h) in
              let ra :=
                if reg_memb && negb (max_groups <? mh_num_groups h) then
                  match group_index (ra_groups ra) private_group (Z.to_nat (mh_num_groups h)) 0 with
                  | Some i => set_ra_mess_type (s16 i) ra
                  | None => ra
                  end
                else ra in
              let* scat := lift (if reg_memb && negb (Same_endian (mh_type h)) then flip_memb max_mess_len (ra_scat ra)
                                 else inr (ra_scat ra)) in
              finish ses mbox saved old_type max_mess_len h (set_ra_scat scat ra)
          end
      end
  end.

Definition SP_scat_receive (mbox max_groups : Z) (ra : recv_args) : SPM (Z * recv_args) :=
  let* ses := SP_get_session mbox in
  if ses <? 0 then ret (ILLEGAL_SESSION, ra)
  else
    let* w := get in
    if negb (bool_decide (cs_state (cs w ses) = SESS_ACTIVE)) then ret (NET_ERROR_ON_SESSION, ra)
    else
      relock ;;
      let* ses' := SP_get_session mbox in
      let* w := get in
      if negb (ses =? ses') then ret (ILLEGAL_SESSION, ra)
      else if negb (bool_decide (cs_state (cs w ses) = SESS_ACTIVE)) then ret (NET_ERROR_ON_SESSION, ra)
      else
        let private_group := cs_private_group_name (cs w ses) in
        let saved := cs_recv_message_saved (cs w ses) in
        let drop_semantics := is_mess DROP_RECV (ra_service_type ra) in
        let* h := receive_header ses mbox in
        match h with
        | inl e => ret (e, ra)
        | inr h =>
            let max_mess_len := max_scat_len (ra_scat ra) in
            if mh_num_groups h <? 0 then ret (ILLEGAL_MESSAGE, ra)
            else if mh_data_len h <? 0 then ret (ILLEGAL_MESSAGE, ra)
            else if negb drop_semantics && ((max_groups <? mh_num_groups h) || (max_mess_len <? mh_data_len h)) then
              too_short ses mbox saved h max_groups max_mess_len ra
            else receive_rest ses mbox saved private_group max_groups max_mess_len h ra
        end.

(** [SP_receive]: one element of [max_mess_len] bytes at [mess]. *)
Definition SP_receive (mbox max_groups max_mess_len : Z) (mess : buf) (ra : recv_args) : SPM (Z * recv_args) :=
  SP_scat_receive mbox max_groups (set_ra_scat [mkElem mess (u64 max_mess_len)] ra).
