(* ===== verification/SpTable.v ===== *)
(** * The sockets and the table of the client library

    What the loops around [recv] and [send] do whatever the calls give: the
    bytes taken are the next ones of the stream, the bytes sent extend the
    stream of the daemon.  A loop ends with all its bytes when the socket is
    [live]: the bytes are there and every call gives at least one.  The
    sessions are kept in an array that is searched from the entry the number
    of the mailbox gives, around the end: a finite map. *)

From Stdlib Require Import ZArith Lia.
From stdpp Require Import base strings numbers option gmap list.
From S2P Require Import Prelude Wire Bytes State ProtSend Packing EndToEnd Message Names SessState SessRead SessParse Groups Sp SpRecv.

(** [n] bytes can be read from the mailbox. *)
Definition live (mbox n : Z) (w : sp_lib) : Prop :=
  Forall (fun k => 0 < k) (cl_recv w) /\ n <= Z.of_nat (length (cl_recv w)) /\ n <= Z.of_nat (length (cl_in_bytes w mbox)).

Definition still (w : sp_lib) : sp_lib := set_cl_in ∅ (set_cl_recv [] w).

(** The bytes [xs] were read from the mailbox, and nothing else happened. *)
Record took (mbox : Z) (xs : list Z) (w w' : sp_lib) : Prop := mkTook {
  tk_still : still w' = still w;
  tk_in : cl_in_bytes w mbox = xs ++ cl_in_bytes w' mbox;
  tk_results : (length (cl_recv w') <= length (cl_recv w))%nat;
  tk_live : forall n, live mbox (Z.of_nat (length xs) + n) w -> live mbox n w';
}.

(* --------------------------------------------------------------------- *)
(** ** Receiving *)

Section recv.
Context (mbox : Z).
Implicit Types (w : sp_lib) (n : Z) (xs bs l : list Z).

Lemma live_le n n' w : n' <= n -> live mbox n w -> live mbox n' w.
Proof. intros ? (? & ? & ?). split_and!; [done|lia|lia]. Qed.

Lemma sp_took_refl w : took mbox [] w w.
Proof. split; [done..|]. intros n. apply live_le. cbn. lia. Qed.

Lemma sp_took_trans xs ys w w1 w2 : took mbox xs w w1 -> took mbox ys w1 w2 -> took mbox (xs ++ ys) w w2.
Proof.
  intros [S1 I1 R1 L1] [S2 I2 R2 L2]. split; [by rewrite S2|by rewrite I1, I2, <- app_assoc|lia|].
  intros n Hn. apply L2, L1. rewrite length_app, Nat2Z.inj_add in Hn. eapply live_le; [|exact Hn]. lia.
Qed.

Lemma took_cs xs w w' i : took mbox xs w w' -> cs w' i = cs w i.
Proof. intros [Hs _ _ _]. unfold cs. change (cl_Sessions w') with (cl_Sessions (still w')). by rewrite Hs. Qed.

(** A result that gave nothing. *)
Lemma took_pop k l w : cl_recv w = k :: l -> k <= 0 \/ cl_in_bytes w mbox = [] -> took mbox [] w (set_cl_recv l w).
Proof.
  intros Hl Hk. split; [done|done|rewrite Hl; cbn; lia|]. intros n (Hf & Hn & Hb). rewrite Hl in Hf, Hn. inversion Hf; subst. cbn in Hn, Hb.
  split_and!; [done| |done]. destruct Hk as [?|He]; [lia|]. rewrite He in Hb. cbn in *. lia.
Qed.

(** A result that gave the bytes [bs]. *)
Lemma took_bytes k l bs rest w : cl_recv w = k :: l -> bs <> [] -> cl_in_bytes w mbox = bs ++ rest ->
  took mbox bs w (set_cl_in (<[mbox := rest]> (cl_in w)) (set_cl_recv l w)).
Proof.
  intros Hl Hne Hin. assert (Hi : cl_in_bytes (set_cl_in (<[mbox := rest]> (cl_in w)) (set_cl_recv l w)) mbox = rest).
  { unfold cl_in_bytes. cbn. by rewrite lookup_insert_eq. }
  split; [done|by rewrite Hi|rewrite Hl; cbn; lia|]. intros n (Hf & Hn & Hb). rewrite Hl in Hf, Hn. rewrite Hin, length_app in Hb. unfold live. rewrite Hi. cbn.
  inversion Hf; subst. split_and!; [done| |lia]. cbn in Hn. destruct bs; [done|]. cbn in *. lia.
Qed.

Definition recv_post n w '(k, bs) w' : Prop :=
  took mbox bs w w' /\ (length (cl_recv w') < length (cl_recv w))%nat /\
  if 0 <? k then k = Z.of_nat (length bs) /\ k <= n else bs = [] /\ ~ live mbox n w.

Lemma recv_post_later n w w1 a w' : took mbox [] w w1 -> recv_post n w1 a w' -> recv_post n w a w'.
Proof.
  intros Ht. destruct a as [k bs]. intros (Hb & Hr & Hk). split; [by apply (sp_took_trans [] bs w w1 w')|].
  split; [pose proof (tk_results _ _ _ _ Ht); lia|].
  destruct (0 <? k); [done|]. destruct Hk as [? Hd]. split; [done|]. intros Hl. by apply Hd, (tk_live _ _ _ _ Ht).
Qed.

Lemma recv_from_spec n : 0 < n -> forall l w, cl_recv w = l ->
  wp (recv_from l mbox n) (recv_post n w) (fun e => e = blocked /\ ~ live mbox n w) w.
Proof.
  intros Hn. induction l as [|k l IH]; intros w Hl; cbn [recv_from]; rewrite (proj2 (Z.eqb_neq n 0)) by lia.
  { apply wp_fail. split; [done|]. intros (_ & Hx & _). rewrite Hl in Hx. cbn in Hx. lia. }
  assert (Hagain : took mbox [] w (set_cl_recv l w) ->
    wp (recv_from l mbox n) (recv_post n w) (fun e => e = blocked /\ ~ live mbox n w) (set_cl_recv l w)).
  { intros Ht. eapply wp_mono; [by apply IH| |].
    - intros a w' H. by eapply recv_post_later.
    - intros e [He Hd]. split; [done|]. intros H. by apply Hd, (tk_live _ _ _ _ Ht). }
  apply wp_bind, wp_modify. apply wp_if; intros Hk; [apply Z.eqb_eq in Hk; apply Hagain, (took_pop k); [done|lia]|].
  apply wp_if; intros Hk0.
  { apply wp_ret. unfold recv_post. apply Z.leb_le in Hk0. rewrite (proj2 (Z.ltb_ge 0 k)) by lia.
    split; [apply (took_pop k); [done|by left]|]. split; [rewrite Hl; cbn; lia|]. split; [done|]. intros (Hf & _). rewrite Hl in Hf. inversion Hf. lia. }
  apply Z.leb_gt in Hk0. apply wp_bind, wp_get. change (cl_in_bytes (set_cl_recv l w) mbox) with (cl_in_bytes w mbox).
  pose proof (take_drop (Z.to_nat (Z.min k n)) (cl_in_bytes w mbox)) as Hsplit.
  assert (Hlen : Z.of_nat (length (take (Z.to_nat (Z.min k n)) (cl_in_bytes w mbox))) <= n) by (rewrite length_take; lia).
  pose proof (length_take (cl_in_bytes w mbox) (Z.to_nat (Z.min k n))) as Hz.
  destruct (take _ _) as [|b bs] eqn:Ht.
  - apply Hagain. apply (took_pop k); [done|]. right. destruct (cl_in_bytes w mbox); [done|]. cbn in Hz. lia.
  - apply wp_bind, wp_modify, wp_ret. unfold recv_post. rewrite (proj2 (Z.ltb_lt 0 _)) by (cbn; lia). split; [|split; [rewrite Hl; cbn; lia|done]].
    apply (took_bytes k l _ _ w); [done|done|]. rewrite <- Hsplit at 1. f_equal. rewrite <- Ht, length_take. unfold cl_in_bytes at 3. cbn.
    fold (cl_in_bytes w mbox). destruct (decide (Z.to_nat (Z.min k n) <= length (cl_in_bytes w mbox))%nat) as [?|?].
    + by rewrite Nat.min_l by lia.
    + rewrite Nat.min_r by lia. rewrite !drop_ge by lia. done.
Qed.

Lemma sp_recv_spec n w : 0 < n -> wp (sp_recv mbox n) (recv_post n w) (fun e => e = blocked /\ ~ live mbox n w) w.
Proof. intros Hn. apply wp_bind, wp_get. by apply recv_from_spec. Qed.

(** [recv] of nothing on an open stream gives 0. *)
Lemma sp_recv_zero w : sp_recv mbox 0 w = Done (0, []) w.
Proof. unfold sp_recv, bind, get. by destruct (cl_recv w). Qed.

(** All the bytes of a request, or some of them before the stream broke. *)
Definition all_post n w '(ok, bs) w' : Prop :=
  took mbox bs w w' /\ if ok : bool then Z.of_nat (length bs) = Z.max 0 n else Z.of_nat (length bs) < n /\ ~ live mbox n w.

(** The rest of a request after [xs]. *)
Lemma all_post_later n w w1 xs (ok : bool) ys w' : 0 < n -> Z.of_nat (length xs) <= n -> took mbox xs w w1 ->
  all_post (n - Z.of_nat (length xs)) w1 (ok, ys) w' -> all_post n w (ok, xs ++ ys) w'.
Proof.
  intros Hn Hx Ht [Hb Hk]. split; [by apply (sp_took_trans xs ys w w1 w')|]. rewrite length_app, Nat2Z.inj_add.
  destruct ok; [lia|]. destruct Hk as [Hs Hd]. split; [lia|]. intros H. apply Hd, (tk_live _ _ _ _ Ht). eapply live_le; [|exact H]. lia.
Qed.

Lemma recv_loop_spec fuel : forall w n bs, Z.of_nat (length (cl_recv w)) < Z.of_nat fuel ->
  wp (recv_loop fuel mbox n bs) (fun '(ok, r) w' => exists xs, r = bs ++ xs /\ all_post n w (ok, xs) w')
    (fun e => e = blocked /\ ~ live mbox n w) w.
Proof.
  induction fuel as [|fuel IH]; intros w n bs Hf; [lia|]. cbn [recv_loop]. apply wp_if; intros Hn.
  { apply wp_ret. exists []. rewrite app_nil_r. split; [done|]. split; [apply sp_took_refl|]. apply Z.leb_le in Hn. cbn. lia. }
  apply Z.leb_gt in Hn. apply wp_bind. eapply wp_mono; [by apply sp_recv_spec| |done].
  intros [k xs] w1 (Ht & Hr & Hk). destruct (Z.leb_spec k 0) as [Hk0|Hk0].
  - rewrite (proj2 (Z.ltb_ge 0 k)) in Hk by lia. destruct Hk as [-> Hd]. apply wp_ret. exists []. rewrite app_nil_r.
    split; [done|]. split; [done|]. split; [cbn; lia|done].
  - rewrite (proj2 (Z.ltb_lt 0 k)) in Hk by lia. destruct Hk as [-> Hle].
    eapply wp_mono; [apply IH; lia| |].
    + intros [ok r] w2 (ys & -> & Hy). exists (xs ++ ys). rewrite app_assoc. split; [done|]. by apply (all_post_later n w w1).
    + intros e [He Hd]. split; [done|]. intros H. apply Hd, (tk_live _ _ _ _ Ht). eapply live_le; [|exact H]. lia.
Qed.

Lemma recv_n_spec n w : wp (recv_n mbox n) (all_post n w) (fun e => e = blocked /\ ~ live mbox n w) w.
Proof.
  apply wp_bind, wp_get. eapply wp_mono; [apply recv_loop_spec; lia| |done]. intros [ok r] w' (xs & -> & H). done.
Qed.

(** Reading the overflow away. *)
Lemma drain_loop_spec fuel : forall w n, Z.of_nat (length (cl_recv w)) < Z.of_nat fuel ->
  wp (drain_loop fuel mbox n) (fun ok w' => exists xs, all_post n w (ok, xs) w') (fun e => e = blocked /\ ~ live mbox n w) w.
Proof.
  induction fuel as [|fuel IH]; intros w n Hf; [lia|]. cbn [drain_loop]. apply wp_if; intros Hn.
  { apply wp_ret. exists []. split; [apply sp_took_refl|]. apply Z.leb_le in Hn. cbn. lia. }
  apply Z.leb_gt in Hn. assert (Hd0 : 0 < Z.min n sizeof_dummy_buf) by (unfold sizeof_dummy_buf; lia).
  assert (Hless : forall v, live mbox n v -> live mbox (Z.min n sizeof_dummy_buf) v) by (intros v; apply live_le; lia).
  apply wp_bind. eapply wp_mono; [by apply sp_recv_spec| |intros e [Hb Hd]; split; [done|]; intros H; by apply Hd, Hless].
  intros [k xs] w1 (Ht & Hr & Hk). destruct (Z.leb_spec k 0) as [Hk0|Hk0].
  - rewrite (proj2 (Z.ltb_ge 0 k)) in Hk by lia. destruct Hk as [-> Hd]. apply wp_ret. exists [].
    split; [done|]. split; [cbn; lia|]. intros H. by apply Hd, Hless.
  - rewrite (proj2 (Z.ltb_lt 0 k)) in Hk by lia. destruct Hk as [-> Hle].
    eapply wp_mono; [apply IH; lia| |].
    + intros ok w2 (ys & Hy). exists (xs ++ ys). apply (all_post_later n w w1); [done|lia|done..].
    + intros e [He Hd]. split; [done|]. intros H. apply Hd, (tk_live _ _ _ _ Ht). eapply live_le; [|exact H]. lia.
Qed.

Lemma drain_spec n w : wp (drain mbox n) (fun ok w' => exists xs, all_post n w (ok, xs) w') (fun e => e = blocked /\ ~ live mbox n w) w.
Proof. apply wp_bind, wp_get. apply drain_loop_spec. lia. Qed.
End recv.

(* --------------------------------------------------------------------- *)
(** ** The bytes of a scatter *)

(** [xs] written at [p]. *)
Definition splice (p : Z) (xs m : list Z) : list Z :=
  take (Z.to_nat p) m ++ xs ++ drop (Z.to_nat p + length xs) m.

(** Elements with room: what [(int)] makes of the lengths is what they are. *)
Definition roomy (scat : scatter) : Prop := Forall (fun e => 0 < se_len e) scat /\ mess_len scat < 2 ^ 31.

Section scatter.
Implicit Types (scat : scatter) (xs ys m : list Z).

Lemma splice_splice p xs ys m : 0 <= p -> p + Z.of_nat (length xs) + Z.of_nat (length ys) <= Z.of_nat (length m) ->
  splice (p + Z.of_nat (length xs)) ys (splice p xs m) = splice p (xs ++ ys) m.
Proof.
  intros Hp Hm. unfold splice. rewrite length_app. replace (Z.to_nat (p + Z.of_nat (length xs))) with (Z.to_nat p + length xs)%nat by lia.
  assert (Ht : length (take (Z.to_nat p) m) = Z.to_nat p) by (rewrite length_take; lia).
  rewrite (app_assoc (take _ m)), take_app_length' by (rewrite length_app; lia).
  rewrite drop_app_ge by (rewrite length_app; lia). rewrite drop_drop, length_app, Ht, <- !app_assoc. do 4 f_equal. lia.
Qed.

Lemma splice_app p xs a m : 0 <= p -> splice (Z.of_nat (length a) + p) xs (a ++ m) = a ++ splice p xs m.
Proof.
  intros Hp. unfold splice. rewrite take_app_ge, <- app_assoc by lia. f_equal. f_equal; [f_equal; lia|]. f_equal.
  rewrite drop_app_ge by lia. f_equal. lia.
Qed.

Lemma splice_short p xs a m : 0 <= p -> p + Z.of_nat (length xs) <= Z.of_nat (length a) -> splice p xs (a ++ m) = splice p xs a ++ m.
Proof. intros Hp Ha. unfold splice. rewrite take_app_le, drop_app_le by lia. by rewrite <- !app_assoc. Qed.

Lemma get_bytes_put b (o n : Z) xs : 0 <= o -> o + Z.of_nat (length xs) <= n ->
  get_bytes (put_bytes b o xs) 0 n = splice o xs (get_bytes b 0 n).
Proof.
  intros Ho Hn. pose proof (get_bytes_length b 0 o) as H1. pose proof (get_bytes_length b o (Z.of_nat (length xs))) as H2.
  replace n with (o + (Z.of_nat (length xs) + (n - o - Z.of_nat (length xs)))) by lia.
  rewrite !get_bytes_split by lia. rewrite !Z.add_0_l, get_bytes_put_in, !get_bytes_put_out by lia. unfold splice.
  rewrite take_app_length' by lia. f_equal. f_equal. rewrite app_assoc, drop_app_length' by (rewrite length_app; lia). done.
Qed.

Lemma lens_mess_len scat scat' : se_len <$> scat' = se_len <$> scat -> mess_len scat' = mess_len scat.
Proof.
  revert scat'. induction scat as [|e scat IH]; intros [|e' scat'] H; try done. injection H as H1 H2. cbn. rewrite H1. f_equal. by apply IH.
Qed.

Lemma lens_length scat scat' : se_len <$> scat' = se_len <$> scat -> length scat' = length scat.
Proof. intros H. by rewrite <- (length_fmap se_len scat'), H, length_fmap. Qed.

Lemma roomy_lens scat scat' : se_len <$> scat' = se_len <$> scat -> roomy scat -> roomy scat'.
Proof.
  intros H [Hf Hl]. split; [|by rewrite (lens_mess_len scat)].
  rewrite Forall_lookup in Hf |- *. intros i e He. assert (Hi : (se_len <$> scat') !! i = (se_len <$> scat) !! i) by by rewrite H.
  rewrite !list_lookup_fmap, He in Hi. symmetry in Hi. apply fmap_Some in Hi as (e0 & He0 & ->). exact (Hf i e0 He0).
Qed.

Lemma roomy_le e a b : roomy (a ++ e :: b) -> 0 < se_len e <= mess_len (a ++ e :: b) /\ 0 <= mess_len a /\ 0 <= mess_len b.
Proof.
  intros [Hf _]. assert (Hpos : forall l, Forall (fun e => 0 < se_len e) l -> 0 <= mess_len l) by (induction 1; rewrite ?mess_len_cons; cbn; lia).
  apply Forall_app in Hf as [Ha Hb]. inversion Hb; subst. rewrite mess_len_app, mess_len_cons. pose proof (Hpos a Ha). pose proof (Hpos b ltac:(done)). lia.
Qed.

Lemma roomy_bytes scat : roomy scat -> Z.of_nat (length (mess_bytes scat)) = mess_len scat.
Proof.
  intros [Hf _]. induction Hf as [|e l He Hf IH]; [done|]. rewrite mess_bytes_cons, mess_len_cons, length_app, elem_bytes_length. lia.
Qed.

(** Writing into one element. *)
Lemma store_split a e b (o : Z) xs :
  store (Z.of_nat (length a)) o xs (a ++ e :: b) = a ++ mkElem (put_bytes (se_buf e) o xs) (se_len e) :: b.
Proof.
  unfold store, element, aset, aget. destruct (Z.ltb_spec (Z.of_nat (length a)) 0); [lia|].
  rewrite Nat2Z.id, lookup_app_r, Nat.sub_diag by lia. cbn. rewrite insert_app_r_alt, Nat.sub_diag by lia. done.
Qed.

Lemma store_bytes a e b (o : Z) xs : roomy (a ++ e :: b) -> 0 <= o -> o + Z.of_nat (length xs) <= se_len e ->
  let scat' := store (Z.of_nat (length a)) o xs (a ++ e :: b) in
  mess_bytes scat' = splice (mess_len a + o) xs (mess_bytes (a ++ e :: b)) /\ se_len <$> scat' = se_len <$> (a ++ e :: b).
Proof.
  intros Hr Ho Hx scat'. split; [|apply store_lens].
  assert (Ha : Z.of_nat (length (mess_bytes a)) = mess_len a).
  { apply roomy_bytes. pose proof (roomy_le _ _ _ Hr). destruct Hr as [[? ?]%Forall_app Hl]. split; [done|].
    rewrite mess_len_app, mess_len_cons in Hl. lia. }
  unfold scat'. rewrite store_split, !mess_bytes_app, !mess_bytes_cons, <- Ha, splice_app by done. f_equal. unfold elem_bytes at 1. cbn [se_buf se_len].
  rewrite get_bytes_put by lia. rewrite splice_short; [done|done|]. rewrite elem_bytes_length. lia.
Qed.

(** [p] bytes are before the byte [bi] of the element [si]. *)
Definition at_pos scat (si bi p : Z) : Prop :=
  exists a e b, scat = a ++ e :: b /\ si = Z.of_nat (length a) /\ 0 <= bi < se_len e /\ p = mess_len a + bi.

(** After [k] more bytes of the element, not all of the rest of the message. *)
Lemma at_pos_next a e b e' (bi k n : Z) : roomy (a ++ e :: b) -> se_len e' = se_len e -> 0 <= bi -> 0 <= k ->
  mess_len a + bi + n <= mess_len (a ++ e :: b) -> k = Z.min (se_len e - bi) n -> k < n ->
  at_pos (a ++ e' :: b) (Z.of_nat (length a) + 1) 0 (mess_len a + bi + k).
Proof.
  intros Hr He Hb Hk Hn Hmin Hlt. destruct b as [|e2 b].
  { rewrite mess_len_app in Hn. cbn in Hn. lia. }
  exists (a ++ [e']), e2, b. rewrite <- app_assoc, length_app, mess_len_app. split; [done|]. split; [cbn; lia|].
  destruct Hr as [Hf _]. apply Forall_app in Hf as [_ Hf]. inversion Hf as [|? ? _ Hf2]; subst. inversion Hf2; subst. cbn. lia.
Qed.

Lemma splice_nil p m : splice p [] m = m.
Proof. unfold splice. cbn. rewrite Nat.add_0_r. apply take_drop. Qed.

Section data.
Context (mbox : Z).

Definition data_post (n p : Z) w scat '(ok, scat') w' : Prop :=
  exists xs, all_post mbox n w (ok, xs) w' /\ se_len <$> scat' = se_len <$> scat /\ mess_bytes scat' = splice p xs (mess_bytes scat).

Lemma recv_elements_spec fuel : forall w (n si bi p : Z) scat, roomy scat -> Z.of_nat (length (cl_recv w)) < Z.of_nat fuel ->
  n <= 0 \/ at_pos scat si bi p -> p + n <= mess_len scat ->
  wp (recv_elements fuel mbox n si bi scat) (data_post n p w scat) (fun e => e = blocked /\ ~ live mbox n w) w.
Proof.
  induction fuel as [|fuel IH]; intros w n si bi p scat Hr Hf Hpos Hn; [lia|]. cbn [recv_elements]. apply wp_if; intros Hz.
  { apply wp_ret. exists []. rewrite splice_nil. split; [|done]. split; [apply sp_took_refl|]. apply Z.leb_le in Hz. cbn. lia. }
  apply Z.leb_gt in Hz. destruct Hpos as [?|(a & e & b & -> & -> & Hb & ->)]; [lia|].
  rewrite (proj2 (Z.leb_gt _ _)) by (rewrite length_app; cbn; lia).
  assert (He : element (a ++ e :: b) (Z.of_nat (length a)) = e).
  { unfold element, aget. destruct (Z.ltb_spec (Z.of_nat (length a)) 0); [lia|]. by rewrite Nat2Z.id, list_lookup_middle. }
  pose proof (roomy_le _ _ _ Hr) as Hle. pose proof (proj2 Hr) as Hmax. rewrite He, s32_id by lia.
  assert (Hk0 : 0 < Z.min (se_len e - bi) n) by lia.
  apply wp_bind. eapply wp_mono; [by apply sp_recv_spec| |intros x [? Hd]; split; [done|]; intros Hl; apply Hd; eapply live_le; [|exact Hl]; lia].
  intros [k xs] w1 (Ht & Hres & Hk). destruct (Z.leb_spec k 0) as [Hk0'|Hk0'].
  { rewrite (proj2 (Z.ltb_ge 0 k)) in Hk by lia. destruct Hk as [-> Hd]. apply wp_ret.
    destruct (store_bytes a e b bi []) as [H1 H2]; [done|lia|cbn; lia|]. exists []. rewrite H1, H2, splice_nil. split; [|done].
    split; [done|]. split; [cbn; lia|]. intros Hl. apply Hd. eapply live_le; [|exact Hl]. lia. }
  rewrite (proj2 (Z.ltb_lt 0 k)) in Hk by lia. destruct Hk as [-> Hle2].
  destruct (store_bytes a e b bi xs) as [H1 H2]; [done|lia|lia|]. rewrite store_split in *.
  set (e' := mkElem _ _) in *.
  assert (Hgo : forall si' bi', n - Z.of_nat (length xs) <= 0 \/ at_pos (a ++ e' :: b) si' bi' (mess_len a + bi + Z.of_nat (length xs)) ->
    wp (recv_elements fuel mbox (n - Z.of_nat (length xs)) si' bi' (a ++ e' :: b)) (data_post n (mess_len a + bi) w (a ++ e :: b))
      (fun x => x = blocked /\ ~ live mbox n w) w1).
  { intros si' bi' Hp. eapply wp_mono; [apply IH; [by eapply roomy_lens|lia|exact Hp|rewrite (lens_mess_len _ _ H2); lia]| |].
    - intros [ok scat'] w2 (ys & Hy & Hl & Hm). exists (xs ++ ys). split; [by apply (all_post_later mbox n w w1); [|lia| |]|].
      split; [congruence|]. rewrite Hm, H1, splice_splice; [done|lia|]. rewrite (roomy_bytes _ Hr).
      destruct Hy as [_ Hy]. destruct ok; lia.
    - intros x [? Hd]. split; [done|]. intros Hl. apply Hd, (tk_live _ _ _ _ Ht). eapply live_le; [|exact Hl]. lia. }
  apply wp_if; intros Heq; apply Hgo.
  - apply Z.eqb_eq in Heq. destruct (decide (n - Z.of_nat (length xs) <= 0)) as [?|?]; [by left|]. right.
    apply (at_pos_next a e b e' bi _ n); (done || lia).
  - apply Z.eqb_neq in Heq. right. exists a, e', b. unfold e'. cbn. split_and!; [done|done|lia|lia|lia].
Qed.
End data.
End scatter.

Definition in_table (i : Z) : Prop := 0 <= i < MAX_LIB_SESSIONS.

(** The search came to an entry with [stop], or there is none. *)
Definition found (stop : sp_session -> bool) (w : sp_lib) (i : Z) : Prop :=
  in_table i /\ stop (cs w i) = true \/ i = -1 /\ forall j, in_table j -> stop (cs w j) = false.

(* --------------------------------------------------------------------- *)
(** ** Searching the table *)

Section search.
Implicit Types (w : sp_lib) (i k base mbox : Z).

Lemma max_lib : MAX_LIB_SESSIONS = 1024. Proof. done. Qed.

Lemma base_in_table mbox : in_table (MBOX_TO_BASE_SES mbox).
Proof.
  unfold MBOX_TO_BASE_SES, in_table. rewrite max_lib. change (1024 - 1) with (Z.ones 10). rewrite Z.land_ones by lia.
  apply Z.mod_pos_bound. lia.
Qed.

(** The [k]-th entry of the search. *)
Definition nth_ses base k : Z := (base + k) mod 1024.

Lemma next_nth base k : next_ses (nth_ses base k) = nth_ses base (k + 1).
Proof.
  unfold next_ses, nth_ses. rewrite max_lib. pose proof (Z.mod_pos_bound (base + k) 1024 ltac:(lia)) as Hb.
  replace (base + (k + 1)) with ((base + k) + 1) by lia. rewrite <- (Z.add_mod_idemp_l (base + k)) by lia.
  destruct (Z.eqb_spec ((base + k) mod 1024 + 1) 1024) as [->|?]; [done|]. rewrite (Z.mod_small ((base + k) mod 1024 + 1)); lia.
Qed.

Lemma nth_again base k : 0 <= base < 1024 -> 0 < k <= 1024 -> nth_ses base k = base <-> k = 1024.
Proof.
  intros Hb Hk. unfold nth_ses. split.
  - intros H. pose proof (Z.div_mod (base + k) 1024 ltac:(lia)) as Hd. assert ((base + k) / 1024 = 1); lia.
  - intros ->. replace (base + 1024) with (base + 1 * 1024) by lia. rewrite Z.mod_add, Z.mod_small; lia.
Qed.

Lemma nth_onto base i : 0 <= base < 1024 -> 0 <= i < 1024 -> exists k, 0 <= k < 1024 /\ nth_ses base k = i.
Proof.
  intros Hb Hi. exists ((i - base) mod 1024). split; [apply Z.mod_pos_bound; lia|]. unfold nth_ses.
  rewrite Z.add_mod_idemp_r by lia. replace (base + (i - base)) with i by lia. by rewrite Z.mod_small.
Qed.

Lemma find_ses_from stop w base fuel : 0 <= base < 1024 -> forall k, 0 <= k < 1024 -> 1024 - k <= Z.of_nat fuel + 1 ->
  (forall j, 0 <= j < k -> stop (cs w (nth_ses base j)) = false) ->
  exists i, find_ses fuel stop w (nth_ses base k) base = inr i /\ found stop w i.
Proof.
  intros Hb. induction fuel as [|fuel IH]; intros k Hk Hf Hno; cbn [find_ses];
    (destruct (stop (cs w (nth_ses base k))) eqn:Hs;
     [eexists; split; [done|]; left; split; [|done]; unfold in_table, nth_ses; rewrite max_lib; apply Z.mod_pos_bound; lia|]);
    rewrite next_nth; destruct (Z.eqb_spec (nth_ses base (k + 1)) base) as [He|He]; rewrite nth_again in He by lia.
  2: lia.
  3: { apply IH; [lia|lia|]. intros j Hj. destruct (decide (j = k)) as [->|?]; [done|]. apply Hno. lia. }
  all: eexists; split; [done|]; right; split; [done|]; intros j Hj; destruct (nth_onto base j) as (n & Hn & <-); [done|done|].
  all: destruct (decide (n = k)) as [->|?]; [done|]; apply Hno; lia.
Qed.

Lemma find_ses_spec stop w mbox :
  exists i, find_ses TABLE_FUEL stop w (MBOX_TO_BASE_SES mbox) (MBOX_TO_BASE_SES mbox) = inr i /\ found stop w i.
Proof.
  pose proof (base_in_table mbox) as Hb. unfold in_table in Hb. rewrite max_lib in Hb.
  destruct (find_ses_from stop w (MBOX_TO_BASE_SES mbox) TABLE_FUEL Hb 0) as (i & Hi & Hf); [lia|done|lia|].
  unfold nth_ses in Hi. rewrite Z.add_0_r, Z.mod_small in Hi by lia. by exists i.
Qed.

Lemma get_session_spec mbox w : exists i, SP_get_session mbox w = Done i w /\ found (fun r => cs_mbox r =? mbox) w i.
Proof.
  destruct (find_ses_spec (fun r => cs_mbox r =? mbox) w mbox) as (i & Hi & Hf). exists i. split; [|done].
  unfold SP_get_session, bind, get, lift. by rewrite Hi.
Qed.
End search.

(* --------------------------------------------------------------------- *)
(** ** The table as a map *)

Record table_is (w : sp_lib) (T : gmap Z sp_session) : Prop := mkTableIs {
  ti_in : forall m r, T !! m = Some r <-> exists i, in_table i /\ cs w i = r /\ cs_mbox r = m /\ m <> -1;
  ti_free : forall i, in_table i -> cs_mbox (cs w i) = -1 <-> cs_state (cs w i) = SESS_UNUSED;
  ti_once : forall i j, in_table i -> in_table j -> cs_mbox (cs w i) = cs_mbox (cs w j) -> cs_mbox (cs w i) <> -1 -> i = j;
  ti_num : cl_Num_sessions w = Z.of_nat (size T);
}.

Section table.
Implicit Types (w : sp_lib) (T : gmap Z sp_session) (i j m : Z).

Lemma cs_set w i x j : cs (set_cl_Sessions (<[i := x]> (cl_Sessions w)) w) j = if decide (j = i) then x else cs w j.
Proof. unfold cs. cbn. case_decide as Hj; [subst; by rewrite lookup_insert_eq|by rewrite lookup_insert_ne]. Qed.

(** What [SP_get_session] finds. *)
Lemma get_session_map w T m : table_is w T -> m <> -1 ->
  exists i, SP_get_session m w = Done i w /\ match T !! m with Some r => in_table i /\ cs w i = r | None => i = -1 end.
Proof.
  intros Ht Hm. destruct (get_session_spec m w) as (i & Hi & Hf). exists i. split; [done|].
  destruct (T !! m) as [r|] eqn:Hr.
  - apply (ti_in _ _ Ht) in Hr as (j & Hj & <- & Hmj & _). destruct Hf as [[Hin Hs]|[_ Hno]].
    + apply Z.eqb_eq in Hs. split; [done|]. f_equal. apply (ti_once _ _ Ht); (done || congruence).
    + specialize (Hno j Hj). apply Z.eqb_neq in Hno. done.
  - destruct Hf as [[Hin Hs]|[? _]]; [|done]. apply Z.eqb_eq in Hs.
    assert (Hx : T !! m = Some (cs w i)) by (apply (ti_in _ _ Ht); by exists i). congruence.
Qed.

(** There is a free entry unless the table is full. *)
Lemma free_entry w T : table_is w T -> Z.of_nat (size T) < MAX_LIB_SESSIONS -> exists i, in_table i /\ cs_state (cs w i) = SESS_UNUSED.
Proof.
  intros Ht Hs. destruct (decide (Exists (fun i => cs_state (cs w i) = SESS_UNUSED) (seqZ 0 MAX_LIB_SESSIONS))) as [He|Hno].
  { apply Exists_exists in He as (i & Hi & Hu). exists i. apply elem_of_seqZ in Hi. by split. }
  rewrite <- Forall_Exists_neg in Hno. rewrite Forall_forall in Hno.
  assert (Hused : forall i, in_table i -> cs_mbox (cs w i) <> -1).
  { intros i Hi Hm. apply (Hno i); [apply elem_of_seqZ; unfold in_table in Hi; lia|]. by apply (ti_free _ _ Ht). }
  exfalso. assert (Hsub : list_to_set ((fun i => cs_mbox (cs w i)) <$> seqZ 0 MAX_LIB_SESSIONS) ⊆ dom T).
  { intros m. rewrite elem_of_list_to_set, elem_of_dom. intros (i & -> & Hi)%list_elem_of_fmap. apply elem_of_seqZ in Hi.
    exists (cs w i). apply (ti_in _ _ Ht). exists i. split_and!; [unfold in_table; lia|done..|]. apply Hused. unfold in_table; lia. }
  apply subseteq_size in Hsub. rewrite size_list_to_set, length_fmap, length_seqZ, size_dom in Hsub; [lia|].
  apply NoDup_fmap_2_strong; [|apply NoDup_seqZ]. intros i j Hi%elem_of_seqZ Hj%elem_of_seqZ He.
  apply (ti_once _ _ Ht); [unfold in_table; lia..|done|]. apply Hused. unfold in_table; lia.
Qed.

(** A free entry becomes the session [r]. *)
Lemma table_insert w T i r : table_is w T -> in_table i -> cs_state (cs w i) = SESS_UNUSED -> cs_mbox r <> -1 -> cs_state r <> SESS_UNUSED ->
  T !! cs_mbox r = None ->
  table_is (set_cl_Sessions (<[i := r]> (cl_Sessions w)) (set_cl_Num_sessions (cl_Num_sessions w + 1) w)) (<[cs_mbox r := r]> T).
Proof.
  intros Ht Hi Hu Hm Hs Hno. set (w' := set_cl_Sessions _ _).
  assert (Hcs : forall j, cs w' j = if decide (j = i) then r else cs w j) by (intros j; apply (cs_set (set_cl_Num_sessions _ w))).
  assert (Hfree : cs_mbox (cs w i) = -1) by by apply (ti_free _ _ Ht).
  assert (Hne : forall j, in_table j -> j <> i -> cs_mbox (cs w j) <> cs_mbox r).
  { intros j Hj Hji He. assert (Hx : T !! cs_mbox r = Some (cs w j)); [|congruence]. apply (ti_in _ _ Ht). by exists j. }
  constructor.
  - intros m x. split.
    + rewrite lookup_insert_Some. intros [[<- <-]|[Hne1 Hx]].
      * exists i. rewrite Hcs, decide_True by done. by split.
      * apply (ti_in _ _ Ht) in Hx as (j & Hj & Hx & Hmx & ?). exists j. rewrite Hcs, decide_False; [done|]. intros ->. congruence.
    + intros (j & Hj & Hx & Hmx & Hm1). rewrite Hcs in Hx. case_decide as Hd.
      * subst. by rewrite lookup_insert_eq.
      * subst x m. rewrite lookup_insert_ne by (intros He; by apply (Hne j)). apply (ti_in _ _ Ht). by exists j.
  - intros j Hj. rewrite Hcs. case_decide; [done|]. by apply (ti_free _ _ Ht).
  - intros j k Hj Hk. rewrite !Hcs. do 2 case_decide; subst; [done|..]; intros He Hx.
    + by destruct (Hne k).
    + by destruct (Hne j).
    + by apply (ti_once _ _ Ht).
  - unfold w'. cbn. rewrite (ti_num _ _ Ht), map_size_insert_None by done. lia.
Qed.

(** An entry becomes free. *)
Lemma table_delete w T i m : table_is w T -> in_table i -> cs_mbox (cs w i) = m -> m <> -1 ->
  forall x, cs_mbox x = -1 -> cs_state x = SESS_UNUSED ->
  table_is (set_cl_Num_sessions (cl_Num_sessions w - 1) (set_cl_Sessions (<[i := x]> (cl_Sessions w)) w)) (delete m T).
Proof.
  intros Ht Hi Hm Hm1 x Hx Hu. set (w' := set_cl_Num_sessions _ _).
  assert (Hcs : forall j, cs w' j = if decide (j = i) then x else cs w j) by (intros j; apply cs_set).
  assert (HT : T !! m = Some (cs w i)) by (apply (ti_in _ _ Ht); by exists i).
  constructor.
  - intros k r. rewrite lookup_delete_Some. split.
    + intros [Hne (j & Hj & Hr & Hk & Hk1)%(ti_in _ _ Ht)]. exists j. rewrite Hcs, decide_False; [done|]. intros ->. congruence.
    + intros (j & Hj & Hr & Hk & Hk1). rewrite Hcs in Hr. case_decide as Hd; [subst; congruence|]. split.
      * intros <-. apply Hd. apply (ti_once _ _ Ht); congruence.
      * apply (ti_in _ _ Ht). by exists j.
  - intros j Hj. rewrite Hcs. case_decide; [by rewrite Hx, Hu|]. by apply (ti_free _ _ Ht).
  - intros j k Hj Hk. rewrite !Hcs. do 2 case_decide; subst; [done|..]; intros He Hne; [congruence..|by apply (ti_once _ _ Ht)].
  - unfold w'. cbn. rewrite (ti_num _ _ Ht). rewrite map_size_delete_Some by by rewrite HT.
    assert (size T <> 0%nat); [|lia]. intros H0%map_size_empty_inv. by rewrite H0 in HT.
Qed.

(** A session that was just opened. *)
Definition opened (s : Z) (private_group : list Z) (r : sp_session) : Prop :=
  cs_mbox r = s /\ cs_state r = SESS_ACTIVE /\ cs_private_group_name r = private_group /\ cs_recv_message_saved r = false.

Lemma map_same w w' T : table_is w T -> cl_Sessions w' = cl_Sessions w -> cl_Num_sessions w' = cl_Num_sessions w -> table_is w' T.
Proof.
  intros [H1 H2 H3 H4] Hs Hn. assert (Hc : forall i, cs w' i = cs w i) by (intros i; unfold cs; by rewrite Hs).
  constructor; [|intros i; rewrite Hc; apply H2|intros i j; rewrite !Hc; apply H3|by rewrite Hn].
  intros m r. rewrite H1. split; intros (i & Hi); exists i; by rewrite Hc in *.
Qed.

Lemma connect_spec w T (s : Z) private_group : table_is w T -> s <> -1 -> T !! s = None ->
  exists r w', SP_connect_session s private_group w = Done r w' /\
    if Z.of_nat (size T) <? MAX_LIB_SESSIONS
    then r = ACCEPT_SESSION /\ exists x, opened s private_group x /\ table_is w' (<[s := x]> T)
    else r = REJECT_QUOTA /\ table_is w' T /\ cl_closed w' = cl_closed w ++ [s].
Proof.
  intros Ht Hs HT. unfold SP_connect_session, bind, get. rewrite (ti_num _ _ Ht), Z.leb_antisym.
  destruct (Z.ltb_spec (Z.of_nat (size T)) MAX_LIB_SESSIONS) as [Hlt|Hge]; cbn [negb].
  - destruct (free_entry w T Ht Hlt) as (j & Hj & Hu).
    destruct (find_ses_spec (fun r => bool_decide (cs_state r = SESS_UNUSED)) w s) as (i & Hi & [[Hin Hst]|[_ Hno]]).
    2: { specialize (Hno j Hj). cbn in Hno. rewrite bool_decide_eq_false in Hno. done. }
    apply bool_decide_eq_true in Hst. unfold sp_do, modify, lift. rewrite Hi.
    destruct (Z.eqb_spec i (-1)) as [->|?]; [by destruct Hin|]. eexists _, _. split; [reflexivity|]. split; [done|].
    exists (mkSpSession s SESS_ACTIVE private_group (cs_recv_saved_head (cs w i)) false). split; [done|].
    refine (table_insert w T i (mkSpSession s SESS_ACTIVE private_group _ false) Ht Hin Hst _ _ _); done.
  - eexists _, _. split; [reflexivity|]. split; [done|]. split; [by apply (map_same w)|done].
Qed.

Lemma kill_spec w T m : table_is w T -> m <> -1 ->
  exists w', SP_kill m w = Done tt w' /\ table_is w' (delete m T) /\
    cl_closed w' = cl_closed w ++ match T !! m with Some _ => [m] | None => [] end.
Proof.
  intros Ht Hm. destruct (get_session_map w T m Ht Hm) as (i & Hi & Hr). unfold SP_kill, bind. rewrite Hi.
  destruct (T !! m) as [r|] eqn:HT.
  - destruct Hr as [Hin Hr]. destruct (Z.ltb_spec i 0) as [Hneg|_]; [destruct Hin; lia|].
    eexists. split; [reflexivity|]. split; [|done].
    assert (Hcm : cs_mbox (cs w i) = m) by (apply (ti_in _ _ Ht) in HT as (? & ? & ? & ? & ?); congruence).
    eapply map_same; [by refine (table_delete w T i m Ht Hin Hcm Hm (set_cs_state SESS_UNUSED (set_cs_mbox (-1) (cs w i))) _ _)| |done].
    cbn. rewrite insert_insert_eq. do 2 f_equal. unfold cs at 1. cbn. by rewrite lookup_insert_eq.
  - subst i. cbn. exists w. split; [done|]. rewrite delete_id by done. by rewrite app_nil_r.
Qed.
End table.

(** C21: The sessions of the client library are a finite map from mailboxes:
    the search around the array finds the session of a mailbox or that there
    is none, a connection adds a session unless 1024 are open, which it
    refuses and closes (never with the "BUG" of a missing entry), and killing
    a session removes it and closes its socket, or does nothing when there is
    none; the counter of the sessions stays their number. *)
Theorem client_sessions (w : sp_lib) (T : gmap Z sp_session) (m : Z) (private_group : list Z) :
  table_is w T -> m <> -1 ->
  (exists i, SP_get_session m w = Done i w /\
     match T !! m with Some r => in_table i /\ cs w i = r | None => i = -1 end) /\
  (T !! m = None -> exists r w', SP_connect_session m private_group w = Done r w' /\
     if Z.of_nat (size T) <? MAX_LIB_SESSIONS
     then r = ACCEPT_SESSION /\ exists x, opened m private_group x /\ table_is w' (<[m := x]> T)
     else r = REJECT_QUOTA /\ table_is w' T /\ cl_closed w' = cl_closed w ++ [m]) /\
  (exists w', SP_kill m w = Done tt w' /\ table_is w' (delete m T) /\
     cl_closed w' = cl_closed w ++ match T !! m with Some _ => [m] | None => [] end).
Proof.
  intros Ht Hm. split; [by apply get_session_map|]. split; [intros HT; by apply connect_spec|by apply kill_spec].
Qed.

(** The library before the first connection. *)
Definition no_lib : sp_lib := mkSpLib ∅ 0 ∅ [] [] ∅ [] [].

Lemma no_lib_empty : table_is no_lib ∅.
Proof.
  constructor; [|done|done|done]. intros m r. split; [by rewrite lookup_empty|]. intros (i & _ & <- & Hm & Hm1). by subst m.
Qed.

(** A library with the session [ana] on mailbox 7 and one on 1031, which
    starts its search at the same entry. *)
Definition two_sessions : sp_lib :=
  set_cl_Num_sessions 2 (set_cl_Sessions
    {[7 := mkSpSession 7 SESS_ACTIVE (private_group (str_bytes "ana") (str_bytes "host1")) no_header false;
      8 := mkSpSession 1031 SESS_ACTIVE (private_group (str_bytes "eva") (str_bytes "host1")) no_header false]} no_lib).
Definition two_map : gmap Z sp_session := {[7 := cs two_sessions 7; 1031 := cs two_sessions 8]}.

Lemma two_sessions_cs j : cs two_sessions j = if decide (j = 7) then cs two_sessions 7 else if decide (j = 8) then cs two_sessions 8 else unused_session.
Proof.
  unfold cs, two_sessions. cbn [cl_Sessions set_cl_Sessions set_cl_Num_sessions].
  case_decide; [by subst|]. case_decide; [by subst|]. by rewrite lookup_insert_ne, lookup_singleton_ne by done.
Qed.

Lemma two_sessions_table : table_is two_sessions two_map.
Proof.
  constructor.
  - intros m r. unfold two_map. rewrite lookup_insert_Some, lookup_singleton_Some. split.
    + intros [[<- <-]|[? [<- <-]]]; [exists 7|exists 8]; (split; [by vm_compute|]); (split; [done|]); by vm_compute.
    + intros (i & _ & Hr & Hm & Hm1). rewrite two_sessions_cs in Hr. repeat case_decide; subst; [by left|by right|by destruct Hm1].
  - intros i _. rewrite two_sessions_cs. by repeat case_decide.
  - intros i j _ _. rewrite (two_sessions_cs i), (two_sessions_cs j). repeat case_decide; by subst.
  - done.
Qed.

Lemma client_sessions_witness :
  (exists i, SP_get_session 1031 two_sessions = Done i two_sessions /\
     match two_map !! 1031 with Some r => in_table i /\ cs two_sessions i = r | None => i = -1 end) /\
  (two_map !! 1031 = None -> exists r w', SP_connect_session 1031 [97] two_sessions = Done r w' /\
     if Z.of_nat (size two_map) <? MAX_LIB_SESSIONS
     then r = ACCEPT_SESSION /\ exists x, opened 1031 [97] x /\ table_is w' (<[1031 := x]> two_map)
     else r = REJECT_QUOTA /\ table_is w' two_map /\ cl_closed w' = cl_closed two_sessions ++ [1031]) /\
  (exists w', SP_kill 1031 two_sessions = Done tt w' /\ table_is w' (delete 1031 two_map) /\
     cl_closed w' = cl_closed two_sessions ++ match two_map !! 1031 with Some _ => [1031] | None => [] end).
Proof. apply (client_sessions two_sessions two_map 1031 [97]); [exact two_sessions_table|discriminate]. Defined.
