(* ===== verification/SpReceive.v ===== *)
(** * What a client receives ([SP_scat_receive])

    A message that is in the stream of a mailbox is handed to the application
    whole, or, when its buffers are too small, not at all: then its header
    waits in the session and the next call can have it. *)

From Stdlib Require Import ZArith Lia.
From stdpp Require Import base strings numbers option gmap list.
From S2P Require Import Prelude Wire Bytes State ProtSend Packing EndToEnd Message Names SessRead SessParse Groups Sp SpRecv SpTable.

(** The mailbox has an active session, and no other thread interferes. *)
Record connected (mbox ses : Z) (w : sp_lib) : Prop := mkConnected {
  cn_get : SP_get_session mbox w = Done ses w;
  cn_pos : 0 <= ses;
  cn_active : cs_state (cs w ses) = SESS_ACTIVE;
  cn_alone : cl_others w = [];
}.

(** The call ends because the socket failed. *)
Definition broken (ses r : Z) (w' : sp_lib) : Prop := r = CONNECTION_CLOSED /\ cs_state (cs w' ses) = SESS_ERROR.

Section frame.
Context (mbox ses : Z).
Implicit Types (w : sp_lib) (xs bs : list Z).

Lemma find_ses_same stop w w' base : (forall j, stop (cs w' j) = stop (cs w j)) ->
  forall fuel i, find_ses fuel stop w' i base = find_ses fuel stop w i base.
Proof. intros Hs. induction fuel as [|fuel IH]; intros i; cbn; rewrite Hs; [done|]. by rewrite IH. Qed.

Lemma get_session_same w w' i : (forall j, cs_mbox (cs w' j) = cs_mbox (cs w j)) ->
  SP_get_session mbox w = Done i w -> SP_get_session mbox w' = Done i w'.
Proof.
  intros Hm. unfold SP_get_session, bind, get, lift. rewrite (find_ses_same _ w w') by (intros j; by rewrite Hm).
  destruct (find_ses _ _ _ _ _); [done|]. by intros [= ->].
Qed.

Lemma connected_took xs w w' : connected mbox ses w -> took mbox xs w w' -> connected mbox ses w'.
Proof.
  intros [Hg Hp Ha Ho] Ht. assert (Hc : forall j, cs w' j = cs w j) by (intros j; by eapply took_cs).
  constructor; [|done|by rewrite Hc|].
  - apply (get_session_same w); [|done]. intros j. by rewrite Hc.
  - change (cl_others w') with (cl_others (still w')). by rewrite (tk_still _ _ _ _ Ht).
Qed.

Lemma net_error_spec w : connected mbox ses w -> wp (net_error ses mbox) (broken ses) never w.
Proof.
  intros [Hg Hp Ha Ho]. unfold net_error, relock. apply wp_bind, wp_bind, wp_get. rewrite Ho. apply wp_ret, wp_bind.
  unfold wp. rewrite Hg, Z.eqb_refl. cbn. split; [done|]. rewrite cs_set, decide_True by done. done.
Qed.

(** After a piece was not read. *)
Lemma fail_piece {A} (k : Z -> SPM A) xs w w' (Q : A -> sp_lib -> Prop) (E : err -> Prop) :
  connected mbox ses w -> took mbox xs w w' -> (forall e w2, broken ses e w2 -> wp (k e) Q E w2) ->
  wp (bind (net_error ses mbox) k) Q E w'.
Proof.
  intros Hc Ht Hk. apply wp_bind. eapply wp_mono; [apply net_error_spec; by eapply connected_took|apply Hk|done].
Qed.
End frame.

(* --------------------------------------------------------------------- *)
(** ** The pieces *)

(** In the byte order of the host. *)
Definition host_header (h : message_header) : message_header := if Same_endian (mh_type h) then h else Flip_mess h.

(** The message of header [h] whose other bytes start with [bs] is next: its
    header was saved, or comes first in the stream. *)
Definition incoming (mbox ses : Z) (h : message_header) (hd bs : list Z) (w : sp_lib) : Prop :=
  cl_in_bytes w mbox = hd ++ bs /\
  if cs_recv_message_saved (cs w ses) then cs_recv_saved_head (cs w ses) = h /\ hd = []
  else exists hw, header_ok hw /\ host_header hw = h /\ hd = enc_header hw.

(** What the old type of a rejected message says. *)
Definition old_type_of (h : message_header) (old : list Z) : Z :=
  if is_mess REJECT_MESS (mh_type h) then
    if Same_endian (mh_type h) then get_s32 old 0 else s32 (Flip_int32 (get_s32 old 0))
  else 0.

(** *** The type of a message *)

(** Byte [k] of a word, [0] being the one of least value. *)
Definition byte_of (z k : Z) : Z := z / 2 ^ (8 * k) mod 256.
(** The type in the hint of a header is a signed number of 16 bits in the two
    bytes in the middle: the one of higher value in byte 2 when the hint comes
    in the order of the host, in byte 1 when it does not. *)
Definition hint_says (hint : Z) : Z :=
  if Same_endian hint then s16 (byte_of hint 1 + 256 * byte_of hint 2)
  else s16 (byte_of hint 2 + 256 * byte_of hint 1).

Lemma two_bytes z i j n : 0 <= i -> 0 <= j -> 0 <= n < 16 ->
  Z.testbit (byte_of z i + 256 * byte_of z j) n = Z.testbit z (if n <? 8 then n + 8 * i else n - 8 + 8 * j).
Proof.
  intros Hi Hj Hn. assert (Hb : forall k m, 0 <= k -> 0 <= m < 8 -> Z.testbit (byte_of z k) m = Z.testbit z (m + 8 * k)).
  { intros k m Hk Hm. unfold byte_of. change 256 with (2 ^ 8). by rewrite Z.mod_pow2_bits_low, Z.div_pow2_bits by lia. }
  pose proof (Z.mod_pos_bound (z / 2 ^ (8 * i)) 256 ltac:(lia)) as Hr. fold (byte_of z i) in Hr.
  destruct (Z.ltb_spec n 8).
  - rewrite <- Hb by lia. rewrite <- (Z.mod_pow2_bits_low _ 8) by lia. change (2 ^ 8) with 256.
    f_equal. rewrite Z.mul_comm, Z.mod_add by lia. by apply Z.mod_small.
  - transitivity (Z.testbit ((byte_of z i + 256 * byte_of z j) / 2 ^ 8) (n - 8)).
    { rewrite Z.div_pow2_bits by lia. f_equal. lia. }
    rewrite <- Hb by lia. f_equal. change (2 ^ 8) with 256. rewrite Z.mul_comm, Z.div_add by lia. rewrite Z.div_small; lia.
Qed.
Lemma hint_type_says hint : hint_type hint = hint_says hint.
Proof.
  assert (Hs : forall a b, (forall n, 0 <= n < 16 -> Z.testbit a n = Z.testbit b n) -> s16 a = s16 b).
  { intros a b Hab. by rewrite <- (s16_u16 a), <- (s16_u16 b), (u16_ext a b). }
  assert (Hc : forall z n, 0 <= n < 16 -> Z.testbit (Z.land (Z.shiftr (Clear_endian z) 8) 0x0000ffff) n = Z.testbit z (n + 8)).
  { intros z n Hn. unfold Clear_endian. rewrite Z.land_spec, Z.shiftr_spec, Z.land_spec, Z.lnot_spec, u32_testbit by lia.
    each_below n 16; cbn; rewrite ?andb_true_r; reflexivity. }
  unfold hint_type, hint_says. cbv zeta. destruct (Same_endian hint); apply Hs; intros n Hn; rewrite Hc, two_bytes by lia.
  - f_equal. destruct (Z.ltb_spec n 8); lia.
  - rewrite <- u32_testbit, u32_s32, u32_testbit, Flip_int32_testbit by lia. f_equal.
    each_below n 16; reflexivity.
Qed.

(** The name of group [i] of a message. *)
Definition group_at (groups : buf) (i : Z) : list Z := cstr (drop (Z.to_nat (MAX_GROUP_NAME * i)) groups).
(** What the application is told as type: of a membership message, the place
    of its own private group among the members when it is one of them; else
    what the sender gave, or [-1]. *)
Definition given_type (h : message_header) : Z := if carries_hint (mh_type h) then hint_says (mh_hint h) else -1.
Definition type_told (private_group : list Z) (h : message_header) (groups : buf) (t : Z) : Prop :=
  if is_mess REG_MEMB_MESS (mh_type h) then
    (exists i, 0 <= i < mh_num_groups h /\ group_at groups i = private_group /\
       (forall j, 0 <= j < i -> group_at groups j <> private_group) /\ t = s16 i) \/
    ((forall j, 0 <= j < mh_num_groups h -> group_at groups j <> private_group) /\ t = given_type h)
  else t = given_type h.

Lemma group_index_first groups name n : forall i,
  match group_index groups name n i with
  | Some k => i <= k < i + Z.of_nat n /\ group_at groups k = name /\ forall j, i <= j < k -> group_at groups j <> name
  | None => forall j, i <= j < i + Z.of_nat n -> group_at groups j <> name
  end.
Proof.
  induction n as [|n IH]; intros i; cbn [group_index]; [lia|]. fold (group_at groups i).
  destruct (Z.eqb_spec (strcmp (group_at groups i) name) 0) as [He%strcmp_eq|Hn].
  { split; [lia|]. split; [done|lia]. }
  assert (Hi : group_at groups i <> name) by (intros He; by apply Hn, strcmp_eq).
  specialize (IH (i + 1)). destruct (group_index groups name n (i + 1)) as [k|].
  - destruct IH as (Hk & He & Hj). split; [lia|]. split; [done|]. intros j Hr. destruct (decide (j = i)) as [->|]; [done|]. apply Hj. lia.
  - intros j Hr. destruct (decide (j = i)) as [->|]; [done|]. apply IH. lia.
Qed.

Lemma type_told_index private_group h groups : 0 <= mh_num_groups h ->
  type_told private_group h groups
    match (if is_mess REG_MEMB_MESS (mh_type h) then group_index groups private_group (Z.to_nat (mh_num_groups h)) 0 else None) with
    | Some i => s16 i
    | None => if carries_hint (mh_type h) then hint_type (mh_hint h) else -1
    end.
Proof.
  intros Hn. unfold type_told, given_type. rewrite hint_type_says. destruct (is_mess REG_MEMB_MESS _); [|done].
  pose proof (group_index_first groups private_group (Z.to_nat (mh_num_groups h)) 0) as Hg.
  destruct (group_index _ _ _ _) as [k|]; rewrite Z.add_0_l, Z2Nat.id in Hg by done; [left|by right].
  exists k. destruct Hg as (? & ? & ?). do 3 (split; [done|]). done.
Qed.

Section pieces.
Context (mbox ses : Z).
Implicit Types (w : sp_lib) (h : message_header) (xs bs hd old groups data rest : list Z).

(** Reading as many bytes as a piece has. *)
Lemma recv_piece (n : Z) xs rest w : cl_in_bytes w mbox = xs ++ rest -> Z.of_nat (length xs) = n ->
  wp (recv_n mbox n) (fun '(ok, bs) w' => exists ys, took mbox ys w w' /\
      if ok : bool then bs = xs /\ ys = xs /\ cl_in_bytes w' mbox = rest else ~ live mbox n w)
    (fun e => e = blocked /\ ~ live mbox n w) w.
Proof.
  intros Hin Hn. eapply wp_mono; [apply recv_n_spec| |done]. intros [ok bs] w' [Ht Hok]. exists bs. split; [done|].
  destruct ok; [|by destruct Hok]. pose proof (tk_in _ _ _ _ Ht) as Hb. rewrite Hin in Hb.
  apply app_inj_1 in Hb as [-> ->]; [done|lia].
Qed.

Lemma drain_piece (n : Z) xs rest w : cl_in_bytes w mbox = xs ++ rest -> Z.of_nat (length xs) = n ->
  wp (drain mbox n) (fun ok w' => exists ys, took mbox ys w w' /\
      if ok : bool then ys = xs /\ cl_in_bytes w' mbox = rest else ~ live mbox n w)
    (fun e => e = blocked /\ ~ live mbox n w) w.
Proof.
  intros Hin Hn. eapply wp_mono; [apply drain_spec| |done]. intros ok w' (ys & Ht & Hok). exists ys. split; [done|].
  destruct ok; [|by destruct Hok]. pose proof (tk_in _ _ _ _ Ht) as Hb. rewrite Hin in Hb.
  apply app_inj_1 in Hb as [-> ->]; [done|lia].
Qed.

Lemma header_read_back h : header_ok h -> get_header (enc_header h) = h.
Proof.
  intros Hok. pose proof (get_header_put h [] Hok) as Hg. unfold put_header, put_bytes in Hg.
  by rewrite drop_nil, app_nil_r in Hg.
Qed.

Lemma receive_header_spec h hd bs w : connected mbox ses w -> incoming mbox ses h hd bs w ->
  wp (receive_header ses mbox)
    (fun a w' => match a with
                 | inl e => broken ses e w' /\ ~ live mbox (Z.of_nat (length hd)) w
                 | inr h' => h' = h /\ took mbox hd w w'
                 end)
    (fun e => e = blocked /\ ~ live mbox (Z.of_nat (length hd)) w) w.
Proof.
  intros Hc [Hin Hs]. unfold receive_header. apply wp_bind, wp_get. destruct (cs_recv_message_saved (cs w ses)).
  { destruct Hs as [-> ->]. apply wp_ret. split; [done|apply sp_took_refl]. }
  destruct Hs as (hw & Hok & <- & ->). assert (Hl : Z.of_nat (length (enc_header hw)) = sizeof_message_header) by apply enc_header_length, Hok.
  rewrite Hl.
  apply wp_bind. eapply wp_mono; [apply (recv_piece _ (enc_header hw) bs)| |done]; [done|done|].
  intros [[|] b] w1 (ys & Ht & Hb); cbn [negb].
  - destruct Hb as (-> & -> & _). apply wp_ret. split; [|done]. unfold host_header.
    by rewrite header_read_back.
  - eapply fail_piece; [exact Hc|exact Ht|]. intros e w2 He. by apply wp_ret.
Qed.

Lemma receive_old_spec h old bs w : connected mbox ses w -> cl_in_bytes w mbox = old ++ bs ->
  Z.of_nat (length old) = (if is_mess REJECT_MESS (mh_type h) then 4 else 0) ->
  wp (receive_old_type ses mbox h)
    (fun a w' => match a with
                 | inl e => broken ses e w' /\ ~ live mbox (Z.of_nat (length old)) w
                 | inr t => t = old_type_of h old /\ took mbox old w w'
                 end)
    (fun e => e = blocked /\ ~ live mbox (Z.of_nat (length old)) w) w.
Proof.
  intros Hc Hin Hl. unfold receive_old_type, old_type_of. destruct (is_mess REJECT_MESS (mh_type h)); cbn [negb].
  - rewrite Hl. apply wp_bind. eapply wp_mono; [by apply (recv_piece 4 old bs)| |done].
    intros [[|] b] w1 (ys & Ht & Hb); cbn [negb].
    + destruct Hb as (-> & -> & _). by apply wp_ret.
    + eapply fail_piece; [exact Hc|exact Ht|]. intros e w2 He. by apply wp_ret.
  - destruct old; [|cbn in Hl; lia]. apply wp_ret. split; [done|apply sp_took_refl].
Qed.

Lemma receive_groups_spec (max_groups : Z) h groups bs ra w : connected mbox ses w -> cl_in_bytes w mbox = groups ++ bs ->
  Z.of_nat (length groups) = MAX_GROUP_NAME * mh_num_groups h -> mh_num_groups h <= max_groups -> MAX_GROUP_NAME * mh_num_groups h < 2 ^ 31 ->
  wp (receive_groups ses mbox max_groups h ra)
    (fun '(e, ra') w' => match e with
                 | Some e => broken ses e w' /\ ~ live mbox (Z.of_nat (length groups)) w
                 | None => ra' = set_ra_num_groups (mh_num_groups h) (set_ra_groups (put_bytes (ra_groups ra) 0 groups) ra) /\ took mbox groups w w'
                 end)
    (fun e => e = blocked /\ ~ live mbox (Z.of_nat (length groups)) w) w.
Proof.
  intros Hc Hin Hl Hfit Hmax. unfold receive_groups. rewrite (proj2 (Z.ltb_ge max_groups _)) by done.
  rewrite (Z.mul_comm (mh_num_groups h)), (proj2 (Z.leb_gt _ _)) by done. rewrite <- Hl.
  apply wp_bind. eapply wp_mono; [by apply (recv_piece _ groups bs)| |done].
  intros [[|] b] w1 (ys & Ht & Hb); cbn [negb].
  - destruct Hb as (-> & -> & _). by apply wp_ret.
  - eapply fail_piece; [exact Hc|exact Ht|]. intros e w2 He. by apply wp_ret.
Qed.

Lemma first_roomy scat : roomy scat -> first_element scat 0 = 0.
Proof.
  intros [Hf Hl]. destruct scat as [|e scat]; [done|]. inversion Hf; subst. cbn.
  pose proof (roomy_le e [] scat (conj Hf Hl)) as Hle. cbn [app] in Hle. rewrite s32_id by lia. by rewrite (proj2 (Z.ltb_lt _ _)).
Qed.

Lemma receive_data_spec data bs ra w : connected mbox ses w -> cl_in_bytes w mbox = data ++ bs -> roomy (ra_scat ra) ->
  Z.of_nat (length data) <= mess_len (ra_scat ra) ->
  wp (receive_data ses mbox (Z.of_nat (length data)) ra)
    (fun '(e, ra') w' => match e with
                 | Some e => broken ses e w' /\ ~ live mbox (Z.of_nat (length data)) w
                 | None => took mbox data w w' /\ exists scat, ra' = set_ra_scat scat ra /\ se_len <$> scat = se_len <$> ra_scat ra /\
                     mess_bytes scat = data ++ drop (length data) (mess_bytes (ra_scat ra))
                 end)
    (fun e => e = blocked /\ ~ live mbox (Z.of_nat (length data)) w) w.
Proof.
  intros Hc Hin Hr Hl. unfold receive_data. apply wp_bind, wp_get, wp_bind. rewrite first_roomy by done.
  eapply wp_mono; [apply (recv_elements_spec mbox _ w _ 0 0 0)| |done]; [done|lia| |done|].
  { destruct (ra_scat ra) as [|e scat] eqn:Hs; [left; cbn in Hl; lia|]. right. exists [], e, scat. cbn.
    destruct Hr as [Hf _]. inversion Hf; subst. split_and!; (done || lia). }
  intros [[|] scat] w1 (ys & [Ht Hk] & Hlens & Hm); cbn [negb].
  - apply wp_ret. pose proof (tk_in _ _ _ _ Ht) as Hb. rewrite Hin in Hb. apply app_inj_1 in Hb as [-> _]; [|lia].
    split; [done|]. by exists scat.
  - destruct Hk as [_ Hd]. eapply fail_piece; [exact Hc|exact Ht|]. intros e w2 He. by apply wp_ret.
Qed.
End pieces.

(* --------------------------------------------------------------------- *)
(** ** A whole message *)

(** What the application has after the call. *)
Record delivered (private_group : list Z) (h : message_header) (old groups data : list Z) (ra ra' : recv_args) : Prop := mkDelivered {
  dv_service : ra_service_type ra' =
    Clear_endian (if is_mess REJECT_MESS (mh_type h) then u32 (Z.lor (old_type_of h old) REJECT_MESS) else mh_type h);
  dv_sender : ra_sender ra' = strncpy (mh_private_group_name h) MAX_GROUP_NAME;
  dv_num_groups : ra_num_groups ra' = mh_num_groups h;
  dv_groups : ra_groups ra' = put_bytes (ra_groups ra) 0 groups;
  dv_mess_type : type_told private_group h (ra_groups ra') (ra_mess_type ra');
  dv_endian : ra_endian_mismatch ra' = if carries_hint (mh_type h) then cbool (negb (Same_endian (mh_hint h))) else 0;
  dv_lens : se_len <$> ra_scat ra' = se_len <$> ra_scat ra;
  dv_data : mess_bytes (ra_scat ra') = data ++ drop (length data) (mess_bytes (ra_scat ra));
}.

(** The parts of the message of header [h]. *)
Record parts_ok (h : message_header) (old groups data : list Z) : Prop := mkPartsOk {
  po_old : Z.of_nat (length old) = if is_mess REJECT_MESS (mh_type h) then 4 else 0;
  po_groups : Z.of_nat (length groups) = MAX_GROUP_NAME * mh_num_groups h;
  po_data : Z.of_nat (length data) = mh_data_len h;
  po_small : MAX_GROUP_NAME * mh_num_groups h < 2 ^ 31;
  po_order : is_mess REG_MEMB_MESS (mh_type h) = true -> Same_endian (mh_type h) = true;
}.

(** The session once its message is taken. *)
Definition taken (saved : bool) (r : sp_session) : sp_session :=
  if saved then set_cs_recv_message_saved false (set_cs_recv_saved_head no_header r) else r.

Section whole.
Context (mbox ses : Z).
Implicit Types (w : sp_lib) (h : message_header) (hd old groups data rest : list Z).

Definition took_message w (saved : bool) rest w' : Prop :=
  cl_in_bytes w' mbox = rest /\ cl_out w' = cl_out w /\ cl_others w' = [] /\
  forall j, cs w' j = if decide (j = ses) then taken saved (cs w ses) else cs w j.

Lemma finish_spec (saved : bool) old_type max_mess_len h ra w : connected mbox ses w -> mh_data_len h <= max_mess_len ->
  wp (finish ses mbox saved old_type max_mess_len h ra)
    (fun '(r, ra') w' => r = mh_data_len h /\
       ra' = set_ra_service_type (Clear_endian (if is_mess REJECT_MESS (mh_type h) then u32 (Z.lor old_type REJECT_MESS) else mh_type h)) ra /\
       took_message w saved (cl_in_bytes w mbox) w')
    never w.
Proof.
  intros [Hg Hp Ha Ho] Hl. unfold finish, took_message. rewrite (proj2 (Z.ltb_ge max_mess_len _)) by done. destruct saved.
  - unfold relock. apply wp_bind, wp_bind, wp_get. rewrite Ho. apply wp_ret, wp_bind. unfold wp at 1. rewrite Hg, Z.eqb_refl. cbn [negb].
    apply wp_bind, wp_modify, wp_bind, wp_modify, wp_ret. split_and!; [done|done|done|done|done|].
    intros j. rewrite !cs_set. case_decide; [|done]. by rewrite decide_True.
  - apply wp_ret. split_and!; [done|done|done|done|done|]. intros j. by case_decide; subst.
Qed.

Definition rest_post w (saved : bool) pg h old groups data rest ra '(r, ra') w' : Prop :=
  r = mh_data_len h /\ delivered pg h old groups data ra ra' /\ took_message w saved rest w' \/
  broken ses r w' /\ ~ live mbox (Z.of_nat (length (old ++ groups ++ data))) w.

(** Not live after [xs] is not live for all of it. *)
Lemma not_live xs n m w w' : took mbox xs w w' -> ~ live mbox n w' -> Z.of_nat (length xs) + n <= m -> ~ live mbox m w.
Proof. intros Ht Hd Hm Hl. apply Hd, (tk_live _ _ _ _ Ht). by eapply live_le. Qed.

Lemma receive_rest_spec (saved : bool) pg (max_groups max_mess_len : Z) h old groups data rest ra w :
  connected mbox ses w -> cl_in_bytes w mbox = old ++ groups ++ data ++ rest -> parts_ok h old groups data -> roomy (ra_scat ra) ->
  max_mess_len = mess_len (ra_scat ra) -> mh_num_groups h <= max_groups -> mh_data_len h <= max_mess_len ->
  wp (receive_rest ses mbox saved pg max_groups max_mess_len h ra) (rest_post w saved pg h old groups data rest ra)
    (fun e => e = blocked /\ ~ live mbox (Z.of_nat (length (old ++ groups ++ data))) w) w.
Proof.
  intros Hc Hin [Hold Hgr Hda Hsm Hend] Hr Hm Hfg Hfd. unfold receive_rest. set (ra1 := set_ra_sender _ _).
  assert (Hlen : Z.of_nat (length (old ++ groups ++ data)) = Z.of_nat (length old) + Z.of_nat (length groups) + Z.of_nat (length data)).
  { rewrite !length_app. lia. }
  unfold rest_post. rewrite Hlen.
  apply wp_bind. eapply wp_mono; [by apply (receive_old_spec mbox ses h old (groups ++ data ++ rest))| |intros e [? Hd]; split; [done|]; eapply not_live; [apply sp_took_refl|exact Hd|cbn; lia]].
  intros [e|t] w1.
  { intros [Hb Hd]. apply wp_ret. right. split; [done|]. eapply not_live; [apply sp_took_refl|exact Hd|cbn; lia]. }
  intros [-> H1]. pose proof (connected_took _ _ _ _ _ Hc H1) as Hc1.
  assert (Hin1 : cl_in_bytes w1 mbox = groups ++ data ++ rest).
  { pose proof (tk_in _ _ _ _ H1) as Hb. rewrite Hin in Hb. by apply app_inv_head in Hb. }
  apply wp_bind. eapply wp_mono; [by apply (receive_groups_spec mbox ses max_groups h groups (data ++ rest))| |intros e [? Hd]; split; [done|]; eapply not_live; [exact H1|exact Hd|lia]].
  intros [[e|] ra2] w2.
  { intros [Hb Hd]. apply wp_ret. right. split; [done|]. eapply not_live; [exact H1|exact Hd|lia]. }
  intros [-> H2]. pose proof (connected_took _ _ _ _ _ Hc1 H2) as Hc2. pose proof (sp_took_trans _ _ _ _ _ _ H1 H2) as H12.
  assert (Hin2 : cl_in_bytes w2 mbox = data ++ rest).
  { pose proof (tk_in _ _ _ _ H2) as Hb. rewrite Hin1 in Hb. by apply app_inv_head in Hb. }
  rewrite Z.min_l, <- Hda by done.
  apply wp_bind. eapply wp_mono; [apply (receive_data_spec mbox ses data rest); [done|done|exact Hr|rewrite Hda; etransitivity; [exact Hfd|]; rewrite Hm; apply Z.le_refl]| |intros e [? Hd]; split; [done|]; eapply not_live; [exact H12|exact Hd|rewrite length_app; lia]].
  intros [[e|] ra3] w3.
  { intros [Hb Hd]. apply wp_ret. right. split; [done|]. eapply not_live; [exact H12|exact Hd|rewrite length_app; lia]. }
  intros [H3 (scat & -> & Hlens & Hdata)]. pose proof (connected_took _ _ _ _ _ Hc2 H3) as Hc3. pose proof (sp_took_trans _ _ _ _ _ _ H12 H3) as H123.
  rewrite (proj2 (Z.ltb_ge max_groups _)) by done. cbn [negb]. rewrite andb_true_r.
  replace (is_mess REG_MEMB_MESS (mh_type h) && negb (Same_endian (mh_type h))) with false.
  2: { destruct (is_mess REG_MEMB_MESS (mh_type h)) eqn:Hrm; [|done]. by rewrite Hend. }
  apply wp_bind. eapply wp_ret. eapply wp_mono; [by apply finish_spec| |done].
  intros [r ra'] w4 (-> & -> & Hi & Ho & Hot & Hcs). left. split; [done|].
  assert (Hf : forall j, cs w3 j = cs w j) by (intros j; by eapply took_cs). split.
  - cbn [ra_groups set_ra_scat set_ra_num_groups set_ra_groups]. set (g := put_bytes (ra_groups ra1) 0 groups).
    assert (Hn0 : 0 <= mh_num_groups h) by (clear -Hgr; change MAX_GROUP_NAME with 32 in Hgr; lia).
    pose proof (type_told_index pg h g Hn0) as Htt.
    destruct (is_mess REG_MEMB_MESS (mh_type h)) eqn:Hrm; [destruct (group_index g pg (Z.to_nat (mh_num_groups h)) 0) eqn:Hgi|];
      constructor; cbn; rewrite ?Hrm, ?Hgi; try done; exact Htt.
  - split_and!; [|rewrite Ho; change (cl_out w3) with (cl_out (still w3)); by rewrite (tk_still _ _ _ _ H123)|done|].
    + rewrite Hi. pose proof (tk_in _ _ _ _ H3) as Hb. rewrite Hin2 in Hb. by apply app_inv_head in Hb.
    + intros j. rewrite Hcs, !Hf. done.
Qed.
End whole.

(* --------------------------------------------------------------------- *)
(** ** The call *)

Lemma max_scat_len_roomy scat : roomy scat -> max_scat_len scat = mess_len scat.
Proof.
  intros Hr. unfold max_scat_len. rewrite <- (Z.add_0_l (mess_len scat)). destruct Hr as [Hf Hl]. rewrite <- (Z.add_0_l (mess_len scat)) in Hl.
  assert (H0 : 0 <= 0) by done. revert Hl H0. generalize 0 at 1 3 4 5 as n.
  induction Hf as [|e l He Hf IH]; intros n Hl Hn; [cbn; lia|]. rewrite mess_len_cons in *.
  assert (Hpos : 0 <= mess_len l) by (clear -Hf; induction Hf; rewrite ?mess_len_cons; cbn; lia).
  cbn [foldl]. rewrite (s32_id (se_len e)), s32_id by lia. rewrite IH; lia.
Qed.

Section call.
Context (mbox ses : Z).
Implicit Types (w : sp_lib) (h : message_header) (hd old groups data rest bs : list Z).

(** The beginning of the call, up to the test of the buffers. *)
Lemma receive_start (max_groups : Z) h hd bs ra w Q E : connected mbox ses w -> incoming mbox ses h hd bs w ->
  0 <= mh_num_groups h -> 0 <= mh_data_len h -> roomy (ra_scat ra) ->
  (forall e, e = blocked /\ ~ live mbox (Z.of_nat (length hd)) w -> E e) ->
  (forall r w', broken ses r w' /\ ~ live mbox (Z.of_nat (length hd)) w -> Q (r, ra) w') ->
  (forall w', took mbox hd w w' ->
     wp (if negb (is_mess DROP_RECV (ra_service_type ra)) && ((max_groups <? mh_num_groups h) || (mess_len (ra_scat ra) <? mh_data_len h))
         then too_short ses mbox (cs_recv_message_saved (cs w ses)) h max_groups (mess_len (ra_scat ra)) ra
         else receive_rest ses mbox (cs_recv_message_saved (cs w ses)) (cs_private_group_name (cs w ses)) max_groups (mess_len (ra_scat ra)) h ra) Q E w') ->
  wp (SP_scat_receive mbox max_groups ra) Q E w.
Proof.
  intros Hc Hin Hg Hd Hr HE HQ Hgo. pose proof Hc as [Hget Hp Ha Ho]. unfold SP_scat_receive. apply wp_bind. unfold wp at 1. rewrite Hget.
  rewrite (proj2 (Z.ltb_ge ses 0)) by done. apply wp_bind, wp_get. rewrite Ha, bool_decide_eq_true_2 by done. cbn [negb].
  unfold relock. apply wp_bind, wp_bind, wp_get. rewrite Ho. apply wp_ret, wp_bind. unfold wp at 1. rewrite Hget. apply wp_bind, wp_get.
  rewrite Z.eqb_refl, Ha, bool_decide_eq_true_2 by done. cbn [negb].
  apply wp_bind. eapply wp_mono; [by apply (receive_header_spec mbox ses h hd bs)| |exact HE]. intros [e|h'] w1.
  - intros H. apply wp_ret. by apply HQ.
  - intros [-> Ht]. rewrite (proj2 (Z.ltb_ge (mh_num_groups h) 0)), (proj2 (Z.ltb_ge (mh_data_len h) 0)), max_scat_len_roomy by done. by apply Hgo.
Qed.
End call.

(** What is not yet in the session of the message and comes from the socket. *)
Definition wire_len (hd old groups data : list Z) : Z := Z.of_nat (length (hd ++ old ++ groups ++ data)).

(** The call for a message that fits. *)
Lemma receive_fitting (mbox ses max_groups : Z) (h : message_header) (hd old groups data rest : list Z) (ra : recv_args) (w : sp_lib) :
  connected mbox ses w -> incoming mbox ses h hd (old ++ groups ++ data ++ rest) w -> parts_ok h old groups data ->
  roomy (ra_scat ra) -> mh_num_groups h <= max_groups -> mh_data_len h <= mess_len (ra_scat ra) ->
  wp (SP_scat_receive mbox max_groups ra)
    (fun '(r, ra') w' =>
       r = mh_data_len h /\ delivered (cs_private_group_name (cs w ses)) h old groups data ra ra' /\
         took_message mbox ses w (cs_recv_message_saved (cs w ses)) rest w' \/
       broken ses r w' /\ ~ live mbox (wire_len hd old groups data) w)
    (fun e => e = blocked /\ ~ live mbox (wire_len hd old groups data) w) w.
Proof.
  intros Hc Hin Hp Hr Hg Hd. unfold wire_len. rewrite length_app, Nat2Z.inj_add.
  pose proof (po_groups _ _ _ _ Hp). pose proof (po_data _ _ _ _ Hp). unfold MAX_GROUP_NAME, MAX_PRIVATE_NAME, MAX_PROC_NAME in *.
  eapply receive_start; [exact Hc|exact Hin|lia|lia|exact Hr| | |].
  - intros e [? Hl]. split; [done|]. eapply not_live; [apply sp_took_refl|exact Hl|cbn; lia].
  - intros r w' [? Hl]. right. split; [done|]. eapply not_live; [apply sp_took_refl|exact Hl|cbn; lia].
  - intros w' Ht. rewrite (proj2 (Z.ltb_ge max_groups _)), (proj2 (Z.ltb_ge (mess_len _) _)), andb_false_r by done.
    assert (Hf : forall j, cs w' j = cs w j) by (intros j; by eapply took_cs).
    eapply wp_mono; [apply (receive_rest_spec mbox ses _ _ max_groups _ h old groups data rest)|..]; try done.
    + by eapply connected_took.
    + pose proof (tk_in _ _ _ _ Ht) as Hb. destruct Hin as [Hin _]. rewrite Hin in Hb. by apply app_inv_head in Hb.
    + intros [r ra'] w2 [(? & ? & Hi & Hou & ? & Hcs)|[? Hl]]; [left|right].
      * split; [done|]. split; [done|]. split; [done|]. split; [rewrite Hou; change (cl_out w') with (cl_out (still w')); by rewrite (tk_still _ _ _ _ Ht)|].
        split; [done|]. intros j. rewrite Hcs, !Hf. done.
      * split; [done|]. eapply not_live; [exact Ht|exact Hl|lia].
    + intros e [? Hl]. split; [done|]. eapply not_live; [exact Ht|exact Hl|lia].
Qed.

(** C8: A message that is next on a mailbox, its header kept in the session or
    first in the stream, in either byte order, and that fits the buffers is
    handed up by SP_scat_receive: its service (with the old one of a rejected
    message), sender, groups, type - the two bytes of the hint in the order of
    the sender, or, of a membership message, the place of the private group of
    the application among the members - and its bytes one after the other in
    the elements of the scatter; exactly its bytes are taken from the stream
    and no other session changes.  When the bytes do not all come the call
    blocks, or fails and marks the session.  It is assumed that every element
    of the scatter has room ([roomy]; a scatter with an empty one may fail,
    [empty_element_breaks]) and that a membership message is in the byte order
    of the host ([po_order]). *)
Theorem receive_message (mbox ses max_groups : Z) (h : message_header) (hd old groups data rest : list Z) (ra : recv_args) (w : sp_lib) :
  connected mbox ses w -> incoming mbox ses h hd (old ++ groups ++ data ++ rest) w -> parts_ok h old groups data ->
  roomy (ra_scat ra) -> mh_num_groups h <= max_groups -> mh_data_len h <= mess_len (ra_scat ra) ->
  wp (SP_scat_receive mbox max_groups ra)
    (fun '(r, ra') w' =>
       r = mh_data_len h /\ delivered (cs_private_group_name (cs w ses)) h old groups data ra ra' /\
         took_message mbox ses w (cs_recv_message_saved (cs w ses)) rest w' \/
       broken ses r w' /\ ~ live mbox (wire_len hd old groups data) w)
    (fun e => e = blocked /\ ~ live mbox (wire_len hd old groups data) w) w.
Proof. intros. by apply receive_fitting. Qed.

(** What the caller is told about a message its buffers are too small for. *)
Record told (max_groups max_mess_len : Z) (h : message_header) (ra ra' : recv_args) : Prop := mkTold {
  td_groups : ra_num_groups ra' = if max_groups <? mh_num_groups h then - mh_num_groups h else 0;
  td_data : ra_endian_mismatch ra' = if max_mess_len <? mh_data_len h then - mh_data_len h else 0;
  td_service : ra_service_type ra' = Clear_endian (mh_type h);
  td_sender : ra_sender ra' = strncpy (mh_private_group_name h) MAX_GROUP_NAME;
  td_type : ra_mess_type ra' = if carries_hint (mh_type h) then hint_says (mh_hint h) else 0;
  td_scat : ra_scat ra' = ra_scat ra;
  td_array : ra_groups ra' = ra_groups ra;
}.

Section retry.
Context (mbox ses : Z).
Implicit Types (w : sp_lib) (h : message_header) (hd old groups data rest bs : list Z).

(** The header of the message is in the session, the rest in the stream. *)
Definition kept h bs w w' : Prop :=
  connected mbox ses w' /\ incoming mbox ses h [] bs w' /\ cs_recv_message_saved (cs w' ses) = true /\
  cs_private_group_name (cs w' ses) = cs_private_group_name (cs w ses) /\
  (forall n, live mbox n w -> live mbox n w') /\ forall j, j <> ses -> cs w' j = cs w j.

Lemma too_short_spec (saved : bool) h (max_groups max_mess_len : Z) bs ra w : connected mbox ses w -> cl_in_bytes w mbox = bs ->
  cs_recv_message_saved (cs w ses) = saved -> (if saved then cs_recv_saved_head (cs w ses) = h else True) ->
  (max_groups <? mh_num_groups h) || (max_mess_len <? mh_data_len h) = true -> 0 <= mh_num_groups h ->
  wp (too_short ses mbox saved h max_groups max_mess_len ra)
    (fun '(r, ra') w' => r = (if truth (ra_num_groups ra') then GROUPS_TOO_SHORT else BUFFER_TOO_SHORT) /\
       told max_groups max_mess_len h ra ra' /\ kept h bs w w')
    never w.
Proof.
  intros Hc Hin Hs Hsv Hshort Hg. pose proof Hc as [Hget Hp Ha Ho]. unfold too_short, kept. rewrite hint_type_says. destruct saved.
  - apply wp_bind, wp_ret, wp_ret. split; [done|]. split; [done|]. split_and!; [done| |done|done|done|done].
    split; [done|]. rewrite Hs. done.
  - unfold relock. apply wp_bind, wp_bind, wp_bind, wp_get. rewrite Ho. apply wp_ret, wp_bind. unfold wp at 1. rewrite Hget, Z.eqb_refl. cbn [negb].
    apply wp_bind, wp_modify, wp_bind, wp_modify, wp_ret. set (w2 := set_cl_Sessions _ _).
    assert (Hcs : forall j, cs w2 j = if decide (j = ses) then set_cs_recv_message_saved true (set_cs_recv_saved_head h (cs w ses)) else cs w j).
    { intros j. unfold w2. rewrite !cs_set. case_decide; [|done]. by rewrite decide_True. }
    apply wp_ret. split; [done|]. split; [done|]. split_and!.
    + constructor; [|done|by rewrite Hcs, decide_True|done]. apply (get_session_same _ w); [|done].
      intros j. rewrite Hcs. by case_decide; subst.
    + split; [done|]. by rewrite Hcs, decide_True.
    + by rewrite Hcs, decide_True.
    + by rewrite Hcs, decide_True.
    + done.
    + intros j Hj. by rewrite Hcs, decide_False.
Qed.

Lemma receive_short (max_groups : Z) h hd bs ra w : connected mbox ses w -> incoming mbox ses h hd bs w ->
  0 <= mh_num_groups h -> 0 <= mh_data_len h -> roomy (ra_scat ra) -> is_mess DROP_RECV (ra_service_type ra) = false ->
  (max_groups <? mh_num_groups h) || (mess_len (ra_scat ra) <? mh_data_len h) = true ->
  wp (SP_scat_receive mbox max_groups ra)
    (fun '(r, ra') w' =>
       r = (if truth (ra_num_groups ra') then GROUPS_TOO_SHORT else BUFFER_TOO_SHORT) /\ told max_groups (mess_len (ra_scat ra)) h ra ra' /\
         (exists w1, took mbox hd w w1 /\ kept h bs w1 w') \/
       broken ses r w' /\ ~ live mbox (Z.of_nat (length hd)) w)
    (fun e => e = blocked /\ ~ live mbox (Z.of_nat (length hd)) w) w.
Proof.
  intros Hc Hin Hg Hd Hr Hdrop Hshort. eapply receive_start; [exact Hc|exact Hin|done|done|exact Hr|done|by right|].
  intros w1 Ht. rewrite Hdrop, Hshort. cbn [negb andb].
  assert (Hf : forall j, cs w1 j = cs w j) by (intros j; by eapply took_cs).
  eapply wp_mono; [apply (too_short_spec _ h max_groups _ bs)|..]; try done.
  - by eapply connected_took.
  - pose proof (tk_in _ _ _ _ Ht) as Hb. destruct Hin as [Hin _]. rewrite Hin in Hb. by apply app_inv_head in Hb.
  - by rewrite Hf.
  - rewrite Hf. destruct Hin as [_ Hin]. destruct (cs_recv_message_saved (cs w ses)); [by destruct Hin|done].
  - intros [r ra'] w2 (? & ? & Hk). left. split; [done|]. split; [done|]. by exists w1.
Qed.
End retry.

(** C9: A call of SP_scat_receive whose buffers are too small for the next
    message, without DROP_RECV, says so, tells how many groups and bytes there
    are, and takes nothing but the header, which it keeps: a second call with
    buffers that are large enough is given the same message whole, and the
    session has no kept header any more. *)
Theorem receive_again (mbox ses max_groups1 max_groups2 : Z) (h : message_header) (hd old groups data rest : list Z)
    (ra1 ra2 : recv_args) (w : sp_lib) :
  connected mbox ses w -> incoming mbox ses h hd (old ++ groups ++ data ++ rest) w -> parts_ok h old groups data ->
  roomy (ra_scat ra1) -> is_mess DROP_RECV (ra_service_type ra1) = false ->
  (max_groups1 <? mh_num_groups h) || (mess_len (ra_scat ra1) <? mh_data_len h) = true ->
  roomy (ra_scat ra2) -> mh_num_groups h <= max_groups2 -> mh_data_len h <= mess_len (ra_scat ra2) ->
  live mbox (wire_len hd old groups data) w ->
  wp (let* ' (r1, ra1') := SP_scat_receive mbox max_groups1 ra1 in
      let* ' (r2, ra2') := SP_scat_receive mbox max_groups2 ra2 in
      ret (r1, ra1', r2, ra2'))
    (fun '(r1, ra1', r2, ra2') w' =>
       r1 = (if truth (ra_num_groups ra1') then GROUPS_TOO_SHORT else BUFFER_TOO_SHORT) /\
       told max_groups1 (mess_len (ra_scat ra1)) h ra1 ra1' /\
       r2 = mh_data_len h /\ delivered (cs_private_group_name (cs w ses)) h old groups data ra2 ra2' /\
       cl_in_bytes w' mbox = rest /\ cs_recv_message_saved (cs w' ses) = false /\ forall j, j <> ses -> cs w' j = cs w j)
    never w.
Proof.
  intros Hc Hin Hp Hr1 Hdrop Hshort Hr2 Hg Hd Hl. unfold wire_len in Hl. rewrite length_app, Nat2Z.inj_add in Hl.
  pose proof (po_groups _ _ _ _ Hp). pose proof (po_data _ _ _ _ Hp). unfold MAX_GROUP_NAME, MAX_PRIVATE_NAME, MAX_PROC_NAME in *.
  assert (Hlh : live mbox (Z.of_nat (length hd)) w) by (eapply live_le; [|exact Hl]; lia).
  apply wp_bind. eapply wp_mono; [apply (receive_short mbox ses max_groups1 h hd); (done || lia)| |intros e [_ Hd']; by destruct Hd'].
  intros [r1 ra1'] w1 [(Hr & Ht & w0 & Htk & Hc1 & Hin1 & Hs1 & Hpg & Hlive & Hoth)|[_ Hd']]; [|by destruct Hd'].
  assert (Hf : forall j, cs w0 j = cs w j) by (intros j; by eapply took_cs).
  assert (Hl1 : live mbox (wire_len [] old groups data) w1) by (apply Hlive, (tk_live _ _ _ _ Htk); exact Hl).
  apply wp_bind. eapply wp_mono; [apply (receive_fitting mbox ses max_groups2 h [] old groups data rest ra2); done| |intros e [_ Hd']; by destruct Hd'].
  intros [r2 ra2'] w2 [(-> & Hdl & Hi & _ & _ & Hcs)|[_ Hd']]; [|by destruct Hd'].
  apply wp_ret. rewrite Hpg, Hf in Hdl. split_and!; [done..|by rewrite Hcs, decide_True, Hs1|].
  intros j Hj. by rewrite Hcs, decide_False, Hoth, Hf.
Qed.

(* --------------------------------------------------------------------- *)
(** ** A client *)

(** A message of [eva] to the group [g], of type 42. *)
Definition eva_header : message_header :=
  mkMessageHeader (u32 (Set_endian AGREED_MESS)) (strncpy (private_group (str_bytes "eva") (str_bytes "host1")) 32) 1 (hint_of 42) 6.
Definition eva_group : list Z := strncpy [103] 32.
Definition eva_data : list Z := [1; 2; 3; 4; 5; 6].
(** It comes to [ana] in pieces, and something follows. *)
Definition receiving : sp_lib :=
  set_cl_recv [20; 100; 32; 3; 1; 5; 1] (set_cl_in {[7 := enc_header eva_header ++ eva_group ++ eva_data ++ [77]]} two_sessions).
(** The same bytes, each in a packet of its own. *)
Definition trickling : sp_lib := set_cl_recv (replicate 90 1) receiving.
(** The arguments: room for [lens] bytes. *)
Definition room_for (lens : list Z) : recv_args := mkRecvArgs 0 [] 0 [] 0 0 ((fun n => mkElem [] n) <$> lens).

Lemma ana_connected l : connected 7 7 (set_cl_recv l receiving).
Proof. constructor; [by vm_compute|lia|by vm_compute|done]. Qed.

Lemma eva_incoming l : incoming 7 7 eva_header (enc_header eva_header) ([] ++ eva_group ++ eva_data ++ [77]) (set_cl_recv l receiving).
Proof.
  split; [by vm_compute|]. change (cs_recv_message_saved _) with false. exists eva_header. split; [|split; by vm_compute].
  split_and!; vm_compute; congruence.
Qed.

Lemma eva_parts : parts_ok eva_header [] eva_group eva_data.
Proof. constructor; vm_compute; congruence. Qed.

Lemma room_roomy lens : Forall (fun n => 0 < n) lens -> foldr Z.add 0 lens < 2 ^ 31 -> roomy (ra_scat (room_for lens)).
Proof.
  intros Hf Hl. split.
  - cbn. by apply Forall_fmap.
  - replace (mess_len _) with (foldr Z.add 0 lens); [done|]. clear. induction lens as [|n l IH]; [done|]. cbn. by rewrite IH.
Qed.

Lemma receive_message_witness :
  wp (SP_scat_receive 7 2 (room_for [4; 10]))
    (fun '(r, ra') w' =>
       r = mh_data_len eva_header /\
         delivered (cs_private_group_name (cs receiving 7)) eva_header [] eva_group eva_data (room_for [4; 10]) ra' /\
         took_message 7 7 receiving (cs_recv_message_saved (cs receiving 7)) [77] w' \/
       broken 7 r w' /\ ~ live 7 (wire_len (enc_header eva_header) [] eva_group eva_data) receiving)
    (fun e => e = blocked /\ ~ live 7 (wire_len (enc_header eva_header) [] eva_group eva_data) receiving) receiving /\
  match SP_scat_receive 7 2 (room_for [4; 10]) receiving with
  | Done (r, ra') w' => r = 6 /\ ra_mess_type ra' = 42 /\ content (ra_scat ra') = [[1; 2; 3; 4]; [5; 6; 0; 0; 0; 0; 0; 0; 0; 0]] /\
      cl_in_bytes w' 7 = [77]
  | Failed _ => False
  end.
Proof.
  split; [|vm_compute; repeat split; reflexivity].
  apply (receive_message 7 7 2 eva_header (enc_header eva_header) [] eva_group eva_data [77] (room_for [4; 10]) receiving).
  - apply (ana_connected [20; 100; 32; 3; 1; 5; 1]).
  - apply (eva_incoming [20; 100; 32; 3; 1; 5; 1]).
  - apply eva_parts.
  - apply room_roomy; [repeat constructor|vm_compute; congruence].
  - vm_compute. congruence.
  - vm_compute. congruence.
Defined.

Lemma receive_again_witness :
  wp (let* ' (r1, ra1') := SP_scat_receive 7 0 (room_for [5]) in
      let* ' (r2, ra2') := SP_scat_receive 7 2 (room_for [4; 10]) in
      ret (r1, ra1', r2, ra2'))
    (fun '(r1, ra1', r2, ra2') w' =>
       r1 = (if truth (ra_num_groups ra1') then GROUPS_TOO_SHORT else BUFFER_TOO_SHORT) /\
       told 0 (mess_len (ra_scat (room_for [5]))) eva_header (room_for [5]) ra1' /\
       r2 = mh_data_len eva_header /\
       delivered (cs_private_group_name (cs trickling 7)) eva_header [] eva_group eva_data (room_for [4; 10]) ra2' /\
       cl_in_bytes w' 7 = [77] /\ cs_recv_message_saved (cs w' 7) = false /\ forall j, j <> 7 -> cs w' j = cs trickling j)
    never trickling /\
  match SP_scat_receive 7 0 (room_for [5]) trickling with
  | Done (r, ra') _ => r = GROUPS_TOO_SHORT /\ ra_num_groups ra' = -1 /\ ra_endian_mismatch ra' = -6
  | Failed _ => False
  end.
Proof.
  split; [|vm_compute; repeat split; reflexivity].
  apply (receive_again 7 7 0 2 eva_header (enc_header eva_header) [] eva_group eva_data [77] (room_for [5]) (room_for [4; 10]) trickling).
  - apply (ana_connected (replicate 90 1)).
  - apply (eva_incoming (replicate 90 1)).
  - apply eva_parts.
  - apply room_roomy; [repeat constructor|vm_compute; congruence].
  - reflexivity.
  - reflexivity.
  - apply room_roomy; [repeat constructor|vm_compute; congruence].
  - vm_compute. congruence.
  - vm_compute. congruence.
  - split; [|vm_compute; split; congruence]. apply Forall_replicate. lia.
Defined.
