(* ===== verification/SpSend.v ===== *)
(** * What a client sends ([SP_internal_multicast])

    The library writes a header, the groups and the data of a message to the
    socket of the mailbox, and the session layer of the daemon reads these
    bytes back as that message. *)

From Stdlib Require Import ZArith Lia.
From stdpp Require Import base strings numbers option gmap list.
From S2P Require Import Prelude Wire Bytes State ProtSend Packing EndToEnd Message Names SessState SessTable SessRead SessHeader SessParse Groups Sp SpRecv SpTable SpReceive.

(** The socket takes [n] bytes: every call to [send] takes at least one. *)
Definition able (n : Z) (w : sp_lib) : Prop := Forall (fun k => 0 < k) (cl_send w) /\ n <= Z.of_nat (length (cl_send w)).
Definition mute (w : sp_lib) : sp_lib := set_cl_out ∅ (set_cl_send [] w).

(** The bytes [xs] were written to the mailbox, and nothing else happened. *)
Record gave (mbox : Z) (xs : list Z) (w w' : sp_lib) : Prop := mkGave {
  gv_mute : mute w' = mute w;
  gv_out : cl_out_bytes w' mbox = cl_out_bytes w mbox ++ xs;
  gv_results : (length (cl_send w') <= length (cl_send w))%nat;
  gv_able : forall n, able (Z.of_nat (length xs) + n) w -> able n w';
}.

Section send.
Context (mbox : Z).
Implicit Types (w : sp_lib) (n : Z) (xs bs l : list Z).

Lemma able_le n n' w : n' <= n -> able n w -> able n' w.
Proof. intros ? [? ?]. split; [done|lia]. Qed.

Lemma gave_refl w : gave mbox [] w w.
Proof. split; [done|by rewrite app_nil_r|done|]. intros n. apply able_le. cbn. lia. Qed.

Lemma gave_trans xs ys w w1 w2 : gave mbox xs w w1 -> gave mbox ys w1 w2 -> gave mbox (xs ++ ys) w w2.
Proof.
  intros [S1 I1 R1 L1] [S2 I2 R2 L2]. split; [by rewrite S2|by rewrite I2, I1, <- app_assoc|lia|].
  intros n Hn. apply L2, L1. rewrite length_app, Nat2Z.inj_add in Hn. eapply able_le; [|exact Hn]. lia.
Qed.

Lemma gave_cs xs w w' i : gave mbox xs w w' -> cs w' i = cs w i.
Proof. intros [Hs _ _ _]. unfold cs. change (cl_Sessions w') with (cl_Sessions (mute w')). by rewrite Hs. Qed.

Lemma connected_gave ses xs w w' : connected mbox ses w -> gave mbox xs w w' -> connected mbox ses w'.
Proof.
  intros [Hg Hp Ha Ho] Ht. assert (Hc : forall j, cs w' j = cs w j) by (intros j; by eapply gave_cs).
  constructor; [|done|by rewrite Hc|].
  - apply (get_session_same _ w); [|done]. intros j. by rewrite Hc.
  - change (cl_others w') with (cl_others (mute w')). by rewrite (gv_mute _ _ _ _ Ht).
Qed.

(** A result that took nothing, and one that took the bytes [bs]. *)
Lemma gave_pop k l w : cl_send w = k :: l -> k <= 0 -> gave mbox [] w (set_cl_send l w).
Proof.
  intros Hl Hk. split; [done|by rewrite app_nil_r|rewrite Hl; cbn; lia|]. intros n [Hf _]. rewrite Hl in Hf. inversion Hf. lia.
Qed.

Lemma gave_bytes k l bs w : cl_send w = k :: l -> bs <> [] \/ k = 0 ->
  gave mbox bs w (set_cl_out (<[mbox := cl_out_bytes w mbox ++ bs]> (cl_out w)) (set_cl_send l w)).
Proof.
  intros Hl Hb. split; [done| |rewrite Hl; cbn; lia|].
  - unfold cl_out_bytes at 1. cbn. by rewrite lookup_insert_eq.
  - intros n [Hf Hn]. rewrite Hl in Hf, Hn. inversion Hf; subst. split; [done|]. cbn in *. destruct Hb as [Hb|?]; [|lia].
    destruct bs; [done|]. cbn in Hn. lia.
Qed.

(** The value of a call: the bytes taken, or an error. *)
Definition send_post bs w (k : Z) w' : Prop :=
  (length (cl_send w') < length (cl_send w))%nat /\
  if 0 <=? k then k <= Z.of_nat (length bs) /\ gave mbox (take (Z.to_nat k) bs) w w'
  else gave mbox [] w w' /\ ~ able (Z.of_nat (length bs)) w.

Lemma send_from_spec bs : bs <> [] -> forall l w, cl_send w = l ->
  wp (send_from l mbox bs) (send_post bs w) (fun e => e = blocked /\ ~ able (Z.of_nat (length bs)) w) w.
Proof.
  intros Hb. induction l as [|k l IH]; intros w Hl; cbn [send_from].
  { apply wp_fail. split; [done|]. intros [_ Hn]. rewrite Hl in Hn. destruct bs; [done|]. cbn in Hn. lia. }
  apply wp_bind, wp_modify. apply wp_if; intros Hk.
  { apply Z.eqb_eq in Hk. assert (Hg : gave mbox [] w (set_cl_send l w)) by (apply (gave_pop k); [done|lia]).
    assert (Hno : ~ able (Z.of_nat (length bs)) w) by (intros [Hf _]; rewrite Hl in Hf; inversion Hf; lia).
    eapply wp_mono; [by apply IH| |intros e [? _]; by split]. intros k' w' [Hlt Hp]. split; [rewrite Hl; cbn in *; lia|].
    destruct (0 <=? k'); [destruct Hp as [? Hp]; split; [done|]|destruct Hp as [Hp _]; split; [|done]]; by apply (gave_trans [] _ _ _ _ Hg). }
  apply wp_if; intros Hk0.
  { apply wp_ret. apply Z.ltb_lt in Hk0. split; [rewrite Hl; cbn; lia|]. rewrite (proj2 (Z.leb_gt 0 k)) by lia.
    split; [apply (gave_pop k); [done|lia]|]. intros [Hf _]. rewrite Hl in Hf. inversion Hf. lia. }
  apply Z.ltb_ge in Hk0. apply wp_bind, wp_modify, wp_ret. split; [rewrite Hl; cbn; lia|].
  rewrite (proj2 (Z.leb_le 0 _)) by lia. split; [rewrite length_take; lia|].
  replace (take (Z.to_nat (Z.of_nat (length (take (Z.to_nat k) bs)))) bs) with (take (Z.to_nat k) bs).
  2: { rewrite Nat2Z.id, length_take. destruct (decide (Z.to_nat k <= length bs)%nat); [by rewrite Nat.min_l|].
       by rewrite Nat.min_r, !take_ge by lia. }
  apply (gave_bytes k l _ w); [done|]. destruct (decide (k = 0)) as [->|?]; [by right|left].
  destruct bs; [done|]. destruct (Z.to_nat k) eqn:?; [lia|done].
Qed.

(** Everything is sent, or some of it before the socket failed. *)
Definition sent_post bs w (ok : bool) w' : Prop :=
  exists xs, gave mbox xs w w' /\ if ok then xs = bs else (exists ys, bs = xs ++ ys) /\ ~ able (Z.of_nat (length bs)) w.

Lemma sent_later bs k w w1 (ok : bool) w' : 0 <= k <= Z.of_nat (length bs) -> gave mbox (take (Z.to_nat k) bs) w w1 ->
  sent_post (drop (Z.to_nat k) bs) w1 ok w' -> sent_post bs w ok w'.
Proof.
  intros Hk Hg (xs & Hx & Ho). exists (take (Z.to_nat k) bs ++ xs). split; [by eapply gave_trans|]. destruct ok.
  - subst xs. by rewrite take_drop.
  - destruct Ho as [[ys Hy] Hd]. split; [exists ys; by rewrite <- app_assoc, <- Hy, take_drop|]. intros Ha. apply Hd, (gv_able _ _ _ _ Hg).
    rewrite length_take, length_drop. eapply able_le; [|exact Ha]. lia.
Qed.

Lemma send_loop_spec fuel : forall w bs, Z.of_nat (length (cl_send w)) < Z.of_nat fuel ->
  wp (send_loop fuel mbox bs) (sent_post bs w) (fun e => e = blocked /\ ~ able (Z.of_nat (length bs)) w) w.
Proof.
  induction fuel as [|fuel IH]; intros w bs Hf; [lia|]. destruct (decide (bs = [])) as [->|Hne].
  { apply wp_ret. exists []. split; [apply gave_refl|done]. }
  assert (He : send_loop (S fuel) mbox bs = (let* w := get in let* k := send_from (cl_send w) mbox bs in
     if k <? 0 then ret false else send_loop fuel mbox (drop (Z.to_nat k) bs))) by by destruct bs.
  rewrite He. apply wp_bind, wp_get, wp_bind. eapply wp_mono; [by apply send_from_spec| |done]. intros k w1 [Hlt Hp].
  rewrite Z.leb_antisym in Hp. destruct (Z.ltb_spec k 0) as [Hk|Hk]; cbn [negb] in Hp.
  - destruct Hp as [Hg Hd]. apply wp_ret. exists []. split; [done|]. split; [by exists bs|done].
  - destruct Hp as [Hkl Hg]. eapply wp_mono; [apply IH; lia| |].
    + intros ok w2. by apply sent_later.
    + intros e [? Hd]. split; [done|]. intros Ha. apply Hd, (gv_able _ _ _ _ Hg). rewrite length_take, length_drop. eapply able_le; [|exact Ha]. lia.
Qed.

Lemma send_n_spec bs w : wp (send_n mbox bs) (sent_post bs w) (fun e => e = blocked /\ ~ able (Z.of_nat (length bs)) w) w.
Proof. apply wp_bind, wp_get. apply send_loop_spec. lia. Qed.
End send.

(* --------------------------------------------------------------------- *)
(** ** A message *)

(** The header the library writes. *)
Definition client_header (name : list Z) (service_type num_groups mess_type mess_len : Z) : message_header :=
  mkMessageHeader (u32 (Set_endian service_type)) (strncpy name MAX_GROUP_NAME) num_groups (hint_of mess_type) mess_len.

(** Elements a scatter of the application can have. *)
Definition sizes_fit (scat : scatter) : Prop := Forall (fun e => 0 <= se_len e) scat /\ mess_len scat < 2 ^ 31.

Section multicast.
Context (mbox ses : Z).
Implicit Types (w : sp_lib) (scat : scatter).

Lemma fit_cons e scat : sizes_fit (e :: scat) -> 0 <= se_len e < 2 ^ 31 /\ 0 <= mess_len scat /\ sizes_fit scat.
Proof.
  intros [Hf Hl]. inversion Hf as [|? ? He Hf']; subst. rewrite mess_len_cons in Hl.
  assert (Hpos : 0 <= mess_len scat) by (clear -Hf'; induction Hf'; rewrite ?mess_len_cons; cbn; lia).
  split; [lia|]. split; [done|]. split; [done|lia].
Qed.

Lemma scat_len_fit scat : sizes_fit scat -> scat_len scat = mess_len scat.
Proof.
  intros Hf. unfold scat_len. rewrite <- (Z.add_0_l (mess_len scat)). pose proof (proj2 Hf) as Hl. rewrite <- (Z.add_0_l (mess_len scat)) in Hl.
  assert (H0 : 0 <= 0) by done. revert Hl H0 Hf. generalize 0 at 1 3 4 5 as n.
  induction scat as [|e l IH]; intros n Hl Hn Hf; [cbn; lia|]. rewrite mess_len_cons in *. apply fit_cons in Hf as (He & Hp & Hf).
  cbn [foldl]. rewrite (s32_id (se_len e)), s32_id by lia. rewrite IH; [lia|lia|lia|done].
Qed.

Lemma fit_bytes scat : sizes_fit scat -> Z.of_nat (length (mess_bytes scat)) = mess_len scat.
Proof.
  induction scat as [|e l IH]; intros Hf; [done|]. apply fit_cons in Hf as (He & _ & Hf).
  rewrite mess_bytes_cons, mess_len_cons, length_app, elem_bytes_length, Nat2Z.inj_add, IH by done. lia.
Qed.

Lemma send_elements_spec scat : sizes_fit scat -> forall w (len : Z),
  wp (send_elements mbox scat len)
    (fun r w' => sent_post mbox (mess_bytes scat) w (bool_decide (is_Some r)) w' /\ (forall n, r = Some n -> n = len + mess_len scat))
    (fun e => e = blocked /\ ~ able (Z.of_nat (length (mess_bytes scat))) w) w.
Proof.
  induction scat as [|e l IH]; intros Hf w len; cbn [send_elements].
  { apply wp_ret. split; [exists []; split; [apply gave_refl|done]|]. intros n [= ->]. cbn. lia. }
  apply fit_cons in Hf as (He & _ & Hf). rewrite s32_id by lia. rewrite mess_bytes_cons, mess_len_cons, length_app, Nat2Z.inj_add.
  change (get_bytes (se_buf e) 0 (se_len e)) with (elem_bytes e).
  apply wp_bind. eapply wp_mono; [apply send_n_spec| |].
  2: { intros x [? Hd]. split; [done|]. intros Ha. apply Hd. eapply able_le; [|exact Ha]. lia. }
  intros [|] w1 (xs & Hg & Hx).
  - subst xs. eapply wp_mono; [by apply IH| |].
    + intros r w2 [(ys & Hy & Ho) Hn]. split.
      * exists (elem_bytes e ++ ys). split; [by eapply gave_trans|]. destruct (bool_decide _); [by subst ys|].
        destruct Ho as [[zs ->] Hd]. split; [exists zs; by rewrite <- app_assoc|].
        intros Ha. apply Hd, (gv_able _ _ _ _ Hg). rewrite length_app, Nat2Z.inj_add in Ha. exact Ha.
      * intros n Hr. rewrite (Hn n Hr). lia.
    + intros x [? Hd]. split; [done|]. intros Ha. apply Hd, (gv_able _ _ _ _ Hg). exact Ha.
  - apply wp_ret. split; [|done]. exists xs. split; [done|]. change (bool_decide (is_Some None)) with false. destruct Hx as [[ys ->] Hd].
    split; [exists (ys ++ mess_bytes l); by rewrite <- app_assoc|].
    intros Ha. apply Hd. eapply able_le; [|exact Ha]. rewrite (length_app _ (mess_bytes l)). lia.
Qed.

(** The bytes of a message on the socket. *)
Definition message_bytes (h : message_header) (groups : buf) scat : list Z :=
  enc_header h ++ get_bytes groups 0 (MAX_GROUP_NAME * mh_num_groups h) ++ mess_bytes scat.

(** A call for a connected mailbox and a message that is not too long. *)
Lemma multicast_spec (service_type num_groups mess_type : Z) groups scat w :
  connected mbox ses w -> sizes_fit scat -> 0 <= num_groups <= 310 -> mess_len scat + num_groups * MAX_GROUP_NAME <= MAX_MESSAGE_BODY_LEN ->
  let bs := message_bytes (client_header (cs_private_group_name (cs w ses)) service_type num_groups mess_type (mess_len scat)) groups scat in
  wp (SP_internal_multicast mbox service_type num_groups groups mess_type scat)
    (fun r w' => r = mess_len scat /\ gave mbox bs w w' \/
       broken ses r w' /\ ~ able (Z.of_nat (length bs)) w /\ exists xs ys, bs = xs ++ ys /\ cl_out_bytes w' mbox = cl_out_bytes w mbox ++ xs)
    (fun e => e = blocked /\ ~ able (Z.of_nat (length bs)) w) w.
Proof.
  intros Hc Hf Hn Hm bs. pose proof Hc as [Hget Hp Ha Ho]. unfold SP_internal_multicast.
  assert (Hu : forall z, 0 <= z < 2 ^ 64 -> u64 z = z) by (intros z ?; by apply Z.mod_small).
  change MAX_GROUP_NAME with 32 in *. change sizeof_message_header with 48. change sizeof_head_buf with 10000.
  rewrite !Hu, (proj2 (Z.ltb_ge 10000 _)) by lia. apply wp_bind. unfold wp at 1. rewrite Hget. rewrite (proj2 (Z.ltb_ge ses 0)) by done.
  apply wp_bind, wp_get. rewrite Ha, bool_decide_eq_true_2 by done. cbn [negb]. rewrite scat_len_fit by done.
  rewrite (proj2 (Z.ltb_ge MAX_MESSAGE_BODY_LEN _)), (proj2 (Z.ltb_ge (10000 - 48) _)) by lia.
  set (head := enc_header _ ++ _). assert (Hbs : bs = head ++ mess_bytes scat) by (unfold bs, message_bytes, head; by rewrite <- app_assoc).
  rewrite Hbs, length_app, Nat2Z.inj_add.
  assert (Herr : forall k w' (Q : Z -> sp_lib -> Prop) (E : err -> Prop), gave mbox k w w' ->
    (forall r w2, broken ses r w2 -> cl_out_bytes w2 mbox = cl_out_bytes w mbox ++ k -> Q r w2) -> wp (net_error ses mbox) Q E w').
  { intros k w' Q E Hg HQ. pose proof (connected_gave _ _ _ _ _ Hc Hg) as [Hget' Hp' Ha' Ho'].
    unfold net_error, relock. apply wp_bind, wp_bind, wp_get. rewrite Ho'. apply wp_ret, wp_bind.
    unfold wp at 1. rewrite Hget', Z.eqb_refl. cbn [negb]. apply wp_bind, wp_modify, wp_ret. apply HQ; [|apply Hg].
    split; [done|]. by rewrite cs_set, decide_True. }
  apply wp_bind. eapply wp_mono; [apply send_n_spec| |].
  2: { intros x [? Hd]. split; [done|]. intros Hab. apply Hd. eapply able_le; [|exact Hab]. lia. }
  intros [|] w1 (xs & Hg & Hx); cbn [negb].
  - subst xs. apply wp_bind. eapply wp_mono; [by apply send_elements_spec| |].
    2: { intros x [? Hd]. split; [done|]. intros Hab. apply Hd, (gv_able _ _ _ _ Hg). exact Hab. }
    intros [len|] w2 [(ys & Hy & Hx) Hlen].
    + change (bool_decide (is_Some (Some len))) with true in Hx. cbn iota in Hx. subst ys. apply wp_ret. left. split; [by rewrite (Hlen len)|by eapply gave_trans].
    + change (bool_decide (is_Some None)) with false in Hx. cbn iota in Hx. destruct Hx as [[zs Hz] Hd].
      eapply Herr; [by eapply gave_trans|]. intros r w3 Hb Hout. right. split; [done|]. split.
      * intros Hab. apply Hd, (gv_able _ _ _ _ Hg). exact Hab.
      * exists (head ++ ys), zs. split; [by rewrite Hz, app_assoc|done].
  - destruct Hx as [[ys Hy] Hd]. eapply Herr; [exact Hg|]. intros r w3 Hb Hout. right. split; [done|]. split.
    + intros Hab. apply Hd. eapply able_le; [|exact Hab]. lia.
    + exists xs, (ys ++ mess_bytes scat). split; [by rewrite Hy, app_assoc|done].
Qed.
End multicast.

(* --------------------------------------------------------------------- *)
(** ** What the daemon makes of it *)

(** [Set_endian] only touches the bits of the byte order. *)
Lemma endian_bit t k : 0 <= k < 32 -> Z.testbit (Set_endian t) k = if (k =? 7) || (k =? 31) then true else Z.testbit t k.
Proof.
  intros Hk. assert (Hu : Z.testbit (Set_endian t) k = Z.testbit (u32 (Set_endian t)) k) by (unfold u32; by rewrite Z.mod_pow2_bits_low by lia).
  assert (He : Z.testbit ENDIAN_TYPE k = (k =? 7) || (k =? 31)).
  { assert (Hall : forallb (fun k => eqb (Z.testbit ENDIAN_TYPE k) ((k =? 7) || (k =? 31))) (seqZ 0 32) = true) by (vm_compute; reflexivity).
    rewrite forallb_forall in Hall. specialize (Hall k). rewrite <- list_elem_of_In, elem_of_seqZ, eqb_true_iff in Hall. apply Hall. lia. }
  rewrite Hu. unfold Set_endian. rewrite u32_s32. unfold u32. rewrite Z.mod_pow2_bits_low by lia.
  change ARCH_ENDIAN with ENDIAN_TYPE. rewrite Z.lor_spec, Z.land_spec, Z.lnot_spec, He by lia. rewrite Z.mod_pow2_bits_low by lia.
  by destruct ((k =? 7) || (k =? 31)); rewrite ?orb_true_r, ?orb_false_r, ?andb_true_r.
Qed.

Lemma same_endian_set t : Same_endian (u32 (Set_endian t)) = true.
Proof.
  unfold Same_endian. apply Z.eqb_eq. apply Z.bits_inj'. intros k Hk. rewrite Z.land_spec.
  destruct (Z.lt_ge_cases k 32) as [Hk32|Hk32].
  - unfold u32. rewrite !Z.mod_pow2_bits_low, endian_bit by lia. destruct ((k =? 7) || (k =? 31)) eqn:He; [done|].
    assert (Hall : forallb (fun k => eqb (Z.testbit ENDIAN_TYPE k) ((k =? 7) || (k =? 31))) (seqZ 0 32) = true) by (vm_compute; reflexivity).
    rewrite forallb_forall in Hall. specialize (Hall k). rewrite <- list_elem_of_In, elem_of_seqZ, eqb_true_iff in Hall.
    change ARCH_ENDIAN with ENDIAN_TYPE. rewrite Hall, He by lia. by rewrite andb_false_r.
  - unfold u32. rewrite !Z.mod_pow2_bits_high by lia. change ARCH_ENDIAN with (ENDIAN_TYPE mod 2 ^ 32). by rewrite Z.mod_pow2_bits_high by lia.
Qed.

Lemma endian_twice t : u32 (Set_endian (u32 (Set_endian t))) = u32 (Set_endian t).
Proof.
  apply u32_ext. intros k Hk. rewrite endian_bit by done. unfold u32. rewrite Z.mod_pow2_bits_low, endian_bit by lia. by case_match.
Qed.

Lemma kinds_endian t : kinds (u32 (Set_endian t)) = kinds t.
Proof.
  assert (Hb : Forall (fun k => Z.testbit (u32 (Set_endian t)) k = Z.testbit t k) kind_bits).
  { rewrite Forall_forall. intros k Hk. assert (H : 0 <= k < 32 /\ (k =? 7) || (k =? 31) = false).
    { unfold kind_bits in Hk. rewrite !elem_of_cons, elem_of_nil in Hk. split; lia. }
    destruct H as [Hk32 He]. unfold u32. by rewrite Z.mod_pow2_bits_low, endian_bit, He by lia. }
  unfold kinds. induction Hb as [|k l Hk Hb IH]; [done|]. rewrite !filter_cons, IH, Hk. done.
Qed.

Lemma hint_mask mess_type k : 0 <= k < 32 -> Z.testbit (hint_of mess_type) k = true -> k = 7 \/ k = 31 \/ 8 <= k < 24.
Proof.
  intros Hk. unfold hint_of. rewrite endian_bit by done. destruct ((k =? 7) || (k =? 31)) eqn:He; [lia|].
  rewrite Z.land_spec. change 0x00ffff00 with (Z.shiftl (Z.ones 16) 8). rewrite !Z.shiftl_spec, Z.testbit_ones by lia. lia.
Qed.

Lemma hint_of_range mess_type : - 2 ^ 31 <= hint_of mess_type < 2 ^ 31.
Proof. apply s32_range. Qed.

(** The name of a session fills its field up with zeros. *)
Lemma private_field name proc_name : legal_name MAX_PRIVATE_NAME name -> legal_name (MAX_PROC_NAME - 1) proc_name ->
  let field := strncpy (private_group name proc_name) MAX_GROUP_NAME in
  Z.of_nat (length field) = MAX_GROUP_NAME /\ closed_name field = field /\ cstr field = HASH :: name ++ HASH :: proc_name.
Proof.
  intros Hn Hp. rewrite private_group_short by done. set (full := HASH :: name ++ HASH :: proc_name). intros field.
  assert (Hnul : Forall (fun c => c <> 0) full).
  { constructor; [done|]. apply Forall_app. split; [by eapply legal_name_no_nul|]. constructor; [done|by eapply legal_name_no_nul]. }
  assert (Hc : cstr full = full).
  { clear -Hnul. induction Hnul as [|c s Hc Hs IH]; [done|]. cbn. rewrite (proj2 (Z.eqb_neq _ _) Hc). by rewrite IH. }
  assert (Hlen : (length full < 32)%nat).
  { destruct Hn as [Hn _], Hp as [Hp _]. unfold full, MAX_PRIVATE_NAME, MAX_PROC_NAME in *. cbn [length]. rewrite length_app. cbn [length]. lia. }
  assert (Hf : field = full ++ replicate (32 - length full) 0).
  { unfold field, strncpy. rewrite Hc. change (Z.to_nat MAX_GROUP_NAME) with 32%nat. by rewrite resize_ge by lia. }
  split; [|split].
  - unfold field, strncpy. by rewrite length_resize.
  - rewrite Hf. unfold closed_name, aset. change (MAX_GROUP_NAME - 1 <? 0) with false. cbn iota.
    change (Z.to_nat (MAX_GROUP_NAME - 1)) with 31%nat. apply list_insert_id. rewrite lookup_app_r, lookup_replicate_2 by lia. done.
  - rewrite Hf. destruct (32 - length full)%nat as [|k] eqn:?; [lia|]. cbn [replicate]. by apply cstr_app.
Qed.

(** ** The daemon reads it *)

(** The groups and the data are within what the daemon takes. *)
Definition admissible (num_groups mess_len : Z) : Prop :=
  0 <= num_groups <= MAX_GROUPS_PER_MESSAGE /\ mess_len + MAX_GROUP_NAME * num_groups <= MAX_MESSAGE_BODY_LEN - sizeof_message_header.

Section daemon.
Context (i : Z) (s : sess_state).
Context (service_type num_groups mess_type : Z) (groups : buf) (scat : scatter).
Let name := private_group (s_name (ses s i)) (sx_My_name s).
Let h := client_header name service_type num_groups mess_type (mess_len scat).

Hypothesis Hname : legal_name MAX_PRIVATE_NAME (s_name (ses s i)).
Hypothesis Hproc : legal_name (MAX_PROC_NAME - 1) (sx_My_name s).
Hypothesis Hservice : length (kinds service_type) = 1%nat.
Hypothesis Hfit : sizes_fit scat.
Hypothesis Hadm : admissible num_groups (mess_len scat).

Lemma client_header_ok : header_ok h.
Proof.
  pose proof (private_field _ _ Hname Hproc) as (Hl & _). destruct Hadm as [Hg Ht]. unfold h, name, client_header, header_ok. cbn.
  change MAX_GROUPS_PER_MESSAGE with 100 in Hg. pose proof (fit_bytes scat Hfit). destruct Hfit as [_ Hm].
  split; [apply u32_range|]. split; [exact Hl|]. split; [lia|]. split; [apply hint_of_range|lia].
Qed.

Lemma client_header_in : header_in h = h.
Proof. unfold header_in, h, client_header. cbn [mh_type]. by rewrite same_endian_set; unfold set_mh_type; cbn; rewrite endian_twice. Qed.

Lemma client_header_valid : Sess_validate_read_header i sizeof_message_header h s = inr (0, h).
Proof.
  pose proof (private_field _ _ Hname Hproc) as (Hl & Hcl & Hc). destruct Hadm as [Hg Ht]. pose proof (fit_bytes scat Hfit).
  destruct (validate_spec i h s Hl Hname Hproc) as (k & h' & Hv & _ & Hacc & Hh).
  assert (Hk : k = 0).
  { apply Hacc. constructor; [|change (mh_private_group_name h) with (strncpy name MAX_GROUP_NAME); unfold name; by rewrite Hcl|exact Hg| |cbn; lia|cbn; lia].
    { change (kinds (mh_type h)) with (kinds (u32 (Set_endian service_type))). by rewrite kinds_endian. }
    intros j Hj. apply hint_mask, Hj. }
  rewrite Hv, Hh, Hk. unfold left_header.
  change (kinds (mh_type h)) with (kinds (u32 (Set_endian service_type))). rewrite kinds_endian, decide_True by done.
  unfold set_mh_private_group_name. change (mh_private_group_name h) with (strncpy name MAX_GROUP_NAME). unfold name. by rewrite Hcl.
Qed.

Lemma client_bytes_parse more : parse_one i s (message_bytes h groups scat ++ more) = Complete (message_bytes h groups scat) more.
Proof.
  pose proof client_header_ok as Hok. assert (Hel : Z.of_nat (length (enc_header h)) = sizeof_message_header) by apply enc_header_length, Hok.
  destruct Hadm as [Hg _]. pose proof (fit_bytes scat Hfit) as Hb. set (body := get_bytes groups 0 (MAX_GROUP_NAME * mh_num_groups h) ++ mess_bytes scat).
  assert (Hbl : Z.of_nat (length body) = body_len h).
  { unfold body, body_len. rewrite length_app, get_bytes_length, Nat2Z.inj_add, Hb. cbn. change MAX_GROUP_NAME with 32. lia. }
  assert (Hm : message_bytes h groups scat = enc_header h ++ body) by done. rewrite Hm, <- app_assoc. unfold parse_one.
  rewrite (proj2 (Z.ltb_ge _ _)) by (rewrite length_app, Nat2Z.inj_add, Hel; lia).
  assert (Hgh : get_header (enc_header h ++ body ++ more) = h).
  { etransitivity; [|exact (header_read_back h Hok)]. apply get_header_ext. intros j Hj. apply get_byte_app_l. lia. }
  rewrite Hgh, client_header_in, client_header_valid. change (0 <? 0) with false. cbn iota.
  rewrite (proj2 (Z.ltb_ge _ _)) by (rewrite !length_app, !Nat2Z.inj_add, Hel, Hbl; lia).
  rewrite <- Hel, <- Hbl. unfold get_bytes. rewrite !Nat2Z.id, drop_app_length, resize_app_le, resize_all_alt by lia || done.
  f_equal. rewrite app_assoc. apply drop_app_length'. rewrite length_app. lia.
Qed.
End daemon.

(** What an application sends as [mess_type] is what the others are given. *)
Lemma hint_round_trip mess_type : int16_ok mess_type -> hint_type (hint_of mess_type) = mess_type.
Proof.
  intros Hm. unfold hint_type, hint_of. set (t := Z.land _ 0x00ffff00). cbv zeta.
  assert (Hs : Same_endian (Set_endian t) = true).
  { rewrite <- (same_endian_set t). unfold Same_endian. f_equal. f_equal. unfold u32. by rewrite Z.mod_mod by lia. }
  rewrite Hs. transitivity (s16 (u16 mess_type)); [f_equal|].
  - apply Z.bits_inj'. intros k Hk. change 0x0000ffff with (Z.ones 16). rewrite Z.land_ones by lia. unfold u16.
    destruct (Z.lt_ge_cases k 16); [|by rewrite !Z.mod_pow2_bits_high by lia].
    rewrite !Z.mod_pow2_bits_low, Z.shiftr_spec by lia. unfold Clear_endian. rewrite Z.land_spec, Z.lnot_spec by lia.
    unfold u32. rewrite Z.mod_pow2_bits_low, endian_bit by lia.
    assert (He : Z.testbit ENDIAN_TYPE (k + 8) = (k + 8 =? 7) || (k + 8 =? 31)).
    { assert (Hall : forallb (fun k => eqb (Z.testbit ENDIAN_TYPE k) ((k =? 7) || (k =? 31))) (seqZ 0 32) = true) by (vm_compute; reflexivity).
      rewrite forallb_forall in Hall. specialize (Hall (k + 8)). rewrite <- list_elem_of_In, elem_of_seqZ, eqb_true_iff in Hall. apply Hall. lia. }
    rewrite He, (proj2 (Z.eqb_neq (k + 8) 7)), (proj2 (Z.eqb_neq (k + 8) 31)) by lia. cbn [orb negb]. rewrite andb_true_r.
    unfold t. rewrite Z.land_spec. change 0x00ffff00 with (Z.shiftl (Z.ones 16) 8). rewrite !Z.shiftl_spec, Z.testbit_ones by lia.
    replace (k + 8 - 8) with k by lia. rewrite (proj2 (Z.leb_le 0 k)), (proj2 (Z.ltb_lt k 16)) by lia. by rewrite andb_true_r.
  - unfold s16, u16. rewrite Zplus_mod_idemp_l. by apply s16_id.
Qed.

(** C10: A message that a client multicasts on a mailbox that takes it is read
    by its daemon as that message: SP_internal_multicast ends with the number
    of bytes of the data, and what it has written the parser of the session
    layer accepts and cuts off whole, whatever follows, with the service, the
    groups and the data asked for and a hint from which the receivers get the
    message type back.  The groups are at most 100, and with the data and the
    header within the limit of the daemon. *)
Theorem client_to_daemon (mbox cses i : Z) (s : sess_state) (service_type num_groups mess_type : Z) (groups : buf) (scat : scatter) (w : sp_lib) :
  connected mbox cses w -> cs_private_group_name (cs w cses) = private_group (s_name (ses s i)) (sx_My_name s) ->
  legal_name MAX_PRIVATE_NAME (s_name (ses s i)) -> legal_name (MAX_PROC_NAME - 1) (sx_My_name s) ->
  length (kinds service_type) = 1%nat -> int16_ok mess_type -> sizes_fit scat -> admissible num_groups (mess_len scat) ->
  able (sizeof_message_header + MAX_GROUP_NAME * num_groups + mess_len scat) w ->
  wp (SP_internal_multicast mbox service_type num_groups groups mess_type scat)
    (fun r w' => r = mess_len scat /\ exists h,
       cl_out_bytes w' mbox = cl_out_bytes w mbox ++ message_bytes h groups scat /\
       (forall more, parse_one i s (message_bytes h groups scat ++ more) = Complete (message_bytes h groups scat) more) /\
       kinds (mh_type h) = kinds service_type /\ mh_num_groups h = num_groups /\ mh_data_len h = mess_len scat /\
       hint_type (mh_hint h) = mess_type)
    never w.
Proof.
  intros Hc Hpg Hn Hp Hs Hm Hf Ha Hable. pose proof (client_header_ok i s service_type num_groups mess_type scat Hn Hp Hs Hf Ha) as (_ & Hl & _).
  pose proof (fit_bytes scat Hf) as Hb. pose proof Ha as [Hg Ht]. change MAX_GROUPS_PER_MESSAGE with 100 in Hg. change MAX_GROUP_NAME with 32 in Ht.
  change sizeof_message_header with 48 in Ht.
  eapply wp_mono; [apply (multicast_spec mbox cses service_type num_groups mess_type groups scat w Hc Hf)| |].
  - lia.
  - change MAX_GROUP_NAME with 32. lia.
  - assert (Hlen : Z.of_nat (length (message_bytes (client_header (cs_private_group_name (cs w cses)) service_type num_groups mess_type (mess_len scat)) groups scat)) =
      sizeof_message_header + MAX_GROUP_NAME * num_groups + mess_len scat).
    { rewrite Hpg. unfold message_bytes. rewrite !length_app, !Nat2Z.inj_add, enc_header_length, get_bytes_length, Hb by done. cbn. lia. }
    rewrite Hlen, Hpg. intros r w' [[-> Hgv]|(_ & Hno & _)]; [|by destruct Hno]. split; [done|]. eexists. split; [apply Hgv|].
    split; [intros more; by apply client_bytes_parse|]. split; [apply kinds_endian|]. split; [done|]. split; [done|]. by apply hint_round_trip.
  - intros e [_ Hno]. apply Hno. eapply able_le; [|exact Hable]. rewrite Hpg. unfold message_bytes.
    rewrite !length_app, !Nat2Z.inj_add, enc_header_length, get_bytes_length, Hb by done. cbn. lia.
Qed.

(** [ana] multicasts two elements to the group [g]. *)
Definition ana_sending : sp_lib := set_cl_send (replicate 90 7) two_sessions.
Definition ana_scat : scatter := [mkElem [1; 2; 3] 3; mkElem [4] 1].

Lemma client_to_daemon_witness :
  wp (SP_internal_multicast 7 AGREED_MESS 1 (strncpy [103] 32) (-2) ana_scat)
    (fun r w' => r = mess_len ana_scat /\ exists h,
       cl_out_bytes w' 7 = cl_out_bytes ana_sending 7 ++ message_bytes h (strncpy [103] 32) ana_scat /\
       (forall more, parse_one 996 ana_table (message_bytes h (strncpy [103] 32) ana_scat ++ more) =
          Complete (message_bytes h (strncpy [103] 32) ana_scat) more) /\
       kinds (mh_type h) = kinds AGREED_MESS /\ mh_num_groups h = 1 /\ mh_data_len h = mess_len ana_scat /\
       hint_type (mh_hint h) = -2)
    never ana_sending /\
  match SP_multicast 7 AGREED_MESS [103] (-2) 3 [1; 2; 3] ana_sending with
  | Done r w' => r = 3 /\ length (cl_out_bytes w' 7) = 83%nat
  | Failed _ => False
  end.
Proof.
  split; [|vm_compute; split; reflexivity].
  apply (client_to_daemon 7 7 996 ana_table AGREED_MESS 1 (-2) (strncpy [103] 32) ana_scat ana_sending).
  - constructor; [by vm_compute|lia|by vm_compute|done].
  - vm_compute. reflexivity.
  - split; [vm_compute; split; congruence|reflexivity].
  - split; [vm_compute; split; congruence|reflexivity].
  - reflexivity.
  - split; vm_compute; congruence.
  - split; [repeat constructor; cbn; lia|vm_compute; congruence].
  - split; vm_compute; [split|]; congruence.
  - split; [apply Forall_replicate; lia|vm_compute; congruence].
Defined.
