(* ===== verification/SpMemb.v ===== *)
(** * The client library: reading membership messages ([libspread/sp.c])

    What an application learns of a membership message: the group id, the
    virtual synchrony sets by number and offset, and their members.  The
    message is in one buffer, or in the elements of a scatter. *)

From Stdlib Require Import ZArith Lia.
From stdpp Require Import base strings numbers option gmap list.
From S2P Require Import Prelude Wire Bytes State ProtSend Packing EndToEnd Message Names GroupState SessRead Groups Sp SpRecv.

Definition SP_equal_group_ids (g1 g2 : group_id) : Z :=
  if (mi_proc_id (gi_memb_id g1) =? mi_proc_id (gi_memb_id g2)) && (mi_time (gi_memb_id g1) =? mi_time (gi_memb_id g2))
     && (gi_index g1 =? gi_index g2)
  then 1 else 0.

Definition get_group_id (b : buf) (o : Z) : group_id :=
  mkGroupId (mkMembId (get_s32 b o) (get_s32 b (o + 4))) (get_s32 b (o + 8)).

(** ** Offsets *)

Definition SP_get_gid_offset_memb_mess : Z := 0.
Definition SP_get_num_vs_sets_offset_memb_mess : Z := sizeof_group_id.
Definition SP_get_offset_to_local_vs_set_offset : Z := sizeof_group_id + 4.
Definition SP_get_first_vs_set_offset_memb_mess : Z := sizeof_group_id + 2 * 4.
Definition SP_get_vs_set_size_offset_vs_set : Z := 0.
Definition SP_get_vs_set_members_offset_vs_set : Z := 4.

Record vs_set_info : Type := mkVsSetInfo { vi_num_members : Z; vi_members_offset : Z (* unsigned int *) }.
Record membership_info : Type := mkMembershipInfo {
  mbi_gid : group_id;
  mbi_changed_member : list Z;
  mbi_num_vs_sets : Z;
  mbi_my_vs_set : vs_set_info;
}.

(** The member in a message of this cause; otherwise the field stays. *)
Definition changed_member (service_type : Z) (member changed : list Z) : list Z :=
  if is_mess CAUSED_BY_JOIN service_type || is_mess CAUSED_BY_LEAVE service_type || is_mess CAUSED_BY_DISCONNECT service_type then member
  else if is_mess CAUSED_BY_NETWORK service_type then replicate 32 0
  else changed.

(** ** In one buffer *)

Definition SP_get_memb_info (memb_mess : buf) (service_type : Z) (memb_info : membership_info) : Z * membership_info :=
  if negb (Is_membership_mess service_type) then (ILLEGAL_MESSAGE, memb_info)
  else
    let gid := get_group_id memb_mess SP_get_gid_offset_memb_mess in
    if is_mess REG_MEMB_MESS service_type then
      let changed := changed_member service_type
        (get_bytes memb_mess (SP_get_first_vs_set_offset_memb_mess + SP_get_vs_set_members_offset_vs_set) MAX_GROUP_NAME)
        (mbi_changed_member memb_info) in
      let my_vs_offset := u32 (get_u32 memb_mess SP_get_offset_to_local_vs_set_offset + SP_get_first_vs_set_offset_memb_mess) in
      (1, mkMembershipInfo gid changed (get_u32 memb_mess SP_get_num_vs_sets_offset_memb_mess)
            (mkVsSetInfo (get_u32 memb_mess (my_vs_offset + SP_get_vs_set_size_offset_vs_set))
               (u32 (my_vs_offset + SP_get_vs_set_members_offset_vs_set))))
    else (1, mkMembershipInfo gid (mbi_changed_member memb_info) 0 (mkVsSetInfo 0 0)).

(** The loop from the set [i] at [memb_offset] on. *)
Fixpoint vs_sets_from (n : nat) (memb_mess : buf) (local_vs_set_offset memb_offset i : Z) : list vs_set_info * option Z :=
  match n with
  | O => ([], None)
  | S n =>
      let num_members := get_u32 memb_mess memb_offset in
      let members_offset := u32 (memb_offset + SP_get_vs_set_members_offset_vs_set) in
      let '(l, mine) := vs_sets_from n memb_mess local_vs_set_offset (u32 (members_offset + num_members * MAX_GROUP_NAME)) (i + 1) in
      (mkVsSetInfo num_members members_offset :: l,
       match mine with Some j => Some j | None => if memb_offset =? local_vs_set_offset then Some i else None end)
  end.

(** The return value, the array and what [my_vs_set_index] becomes. *)
Definition SP_get_vs_sets_info (memb_mess : buf) (num_vs_sets : Z) : Z * list vs_set_info * option Z :=
  let actual_num_vs_sets := get_u32 memb_mess SP_get_num_vs_sets_offset_memb_mess in
  if num_vs_sets <? s32 actual_num_vs_sets then (BUFFER_TOO_SHORT, [], None)
  else
    let local_vs_set_offset := u32 (get_u32 memb_mess SP_get_offset_to_local_vs_set_offset + SP_get_first_vs_set_offset_memb_mess) in
    let '(l, mine) := vs_sets_from (Z.to_nat (s32 actual_num_vs_sets)) memb_mess local_vs_set_offset SP_get_first_vs_set_offset_memb_mess 0 in
    (s32 actual_num_vs_sets, l, mine).

Definition SP_get_vs_set_members (memb_mess : buf) (vs_set : vs_set_info) (member_names_count : Z) : Z * list (list Z) :=
  if member_names_count <? s32 (vi_num_members vs_set) then (BUFFER_TOO_SHORT, [])
  else
    (s32 (vi_num_members vs_set),
     (fun i => get_bytes memb_mess (vi_members_offset vs_set + MAX_GROUP_NAME * i) MAX_GROUP_NAME) <$> seqZ 0 (s32 (vi_num_members vs_set))).

(** ** In a scatter *)

Definition scat_elem_at (msg : scatter) (i : Z) : res scat_elem :=
  or_err (Undefined "scat_read: elements[]") (msg !! Z.to_nat i).

(** [while( start_byte > elements[scat].len )]: the length taken off is the one
    of the element after. *)
Fixpoint scat_seek (fuel : nat) (msg : scatter) (scat start_byte : Z) : res (Z * Z) :=
  let? e := scat_elem_at msg scat in
  if start_byte <=? s32 (se_len e) then inr (scat, start_byte)
  else
    match fuel with
    | O => inl (Diverges "scat_read")
    | S fuel => let? e' := scat_elem_at msg (scat + 1) in scat_seek fuel msg (scat + 1) (s32 (start_byte - se_len e'))
    end.
(** The copying loop; every piece goes to [dest_ptr]. *)
Fixpoint scat_copy (fuel : nat) (msg : scatter) (scat scat_index left : Z) (dest : buf) : res buf :=
  if left <=? 0 then inr dest
  else
    match fuel with
    | O => inl (Diverges "scat_read")
    | S fuel =>
        let? e := scat_elem_at msg scat in
        let room := s32 (se_len e - scat_index) in
        let bytes_to_copy := Z.min left (s32 (se_len e) - scat_index) in
        let dest := put_bytes dest 0 (get_bytes (se_buf e) scat_index bytes_to_copy) in
        if bytes_to_copy =? room then scat_copy fuel msg (scat + 1) 0 (left - bytes_to_copy) dest
        else scat_copy fuel msg scat bytes_to_copy (left - bytes_to_copy) dest
    end.
(** What [dest_ptr] leads to afterwards.  A round leaves an element or is the
    last one. *)
Definition scat_read (dest : buf) (msg : scatter) (start_byte copy_size : Z) : res buf :=
  let? ' (scat, scat_index) := scat_seek (length msg) msg 0 start_byte in
  scat_copy (S (S (length msg))) msg scat scat_index copy_size dest.

(** An [int32u] variable read from the scatter. *)
Definition scat_u32 (old : Z) (msg : scatter) (start_byte : Z) : res Z :=
  let? b := scat_read (enc32 old) msg start_byte 4 in inr (get_u32 b 0).

(** [my_vs_offset] is a variable of the call: what it held comes first. *)
Definition SP_scat_get_memb_info (memb_mess_scat : scatter) (service_type : Z) (memb_info : membership_info) : res (Z * membership_info) :=
  if negb (Is_membership_mess service_type) then inr (ILLEGAL_MESSAGE, memb_info)
  else
    let? gid := scat_read (enc_group_id (mbi_gid memb_info)) memb_mess_scat 0 sizeof_group_id in
    let gid := get_group_id gid 0 in
    if is_mess REG_MEMB_MESS service_type then
      let? member :=
        (if is_mess CAUSED_BY_JOIN service_type || is_mess CAUSED_BY_LEAVE service_type || is_mess CAUSED_BY_DISCONNECT service_type
         then scat_read (mbi_changed_member memb_info) memb_mess_scat
                (SP_get_first_vs_set_offset_memb_mess + SP_get_vs_set_members_offset_vs_set) MAX_GROUP_NAME
         else inr (mbi_changed_member memb_info)) in
      let changed := changed_member service_type member (mbi_changed_member memb_info) in
      let? num_vs_sets := scat_u32 (mbi_num_vs_sets memb_info) memb_mess_scat SP_get_num_vs_sets_offset_memb_mess in
      let? my_vs_offset := scat_u32 0 memb_mess_scat SP_get_offset_to_local_vs_set_offset in
      let my_vs_offset := u32 (my_vs_offset + SP_get_first_vs_set_offset_memb_mess) in
      let? num_members := scat_u32 (vi_num_members (mbi_my_vs_set memb_info)) memb_mess_scat (s32 (my_vs_offset + SP_get_vs_set_size_offset_vs_set)) in
      inr (1, mkMembershipInfo gid changed num_vs_sets (mkVsSetInfo num_members (u32 (my_vs_offset + SP_get_vs_set_members_offset_vs_set))))
    else inr (1, mkMembershipInfo gid (mbi_changed_member memb_info) 0 (mkVsSetInfo 0 0)).

(** The loop of the scatter version, over the sets the caller asked for. *)
Fixpoint scat_vs_sets_from (vs_sets : list vs_set_info) (msg : scatter) (local_vs_set_offset memb_offset i : Z) : res (list vs_set_info * option Z) :=
  match vs_sets with
  | [] => inr ([], None)
  | vs :: vs_sets =>
      let? num_members := scat_u32 (vi_num_members vs) msg (s32 memb_offset) in
      let members_offset := u32 (memb_offset + SP_get_vs_set_members_offset_vs_set) in
      let? ' (l, mine) := scat_vs_sets_from vs_sets msg local_vs_set_offset (u32 (members_offset + num_members * MAX_GROUP_NAME)) (i + 1) in
      inr (mkVsSetInfo num_members members_offset :: l,
           match mine with Some j => Some j | None => if memb_offset =? local_vs_set_offset then Some i else None end)
  end.
(** [vs_sets] is the array of the caller, all of whose entries are filled in. *)
Definition SP_scat_get_vs_sets_info (memb_mess_scat : scatter) (vs_sets : list vs_set_info) : res (Z * list vs_set_info * option Z) :=
  let? actual_num_vs_sets := scat_u32 0 memb_mess_scat SP_get_num_vs_sets_offset_memb_mess in
  if Z.of_nat (length vs_sets) <? s32 actual_num_vs_sets then inr (BUFFER_TOO_SHORT, vs_sets, None)
  else
    let? local_vs_set_offset := scat_u32 0 memb_mess_scat SP_get_offset_to_local_vs_set_offset in
    let local_vs_set_offset := u32 (local_vs_set_offset + SP_get_first_vs_set_offset_memb_mess) in
    let? ' (l, mine) := scat_vs_sets_from vs_sets memb_mess_scat local_vs_set_offset SP_get_first_vs_set_offset_memb_mess 0 in
    inr (s32 actual_num_vs_sets, l, mine).

(** [member_names] is the memory of the array. *)
Definition SP_scat_get_vs_set_members (memb_mess_scat : scatter) (vs_set : vs_set_info) (member_names : buf) (member_names_count : Z)
    : res (Z * buf) :=
  if member_names_count <? s32 (vi_num_members vs_set) then inr (BUFFER_TOO_SHORT, member_names)
  else
    let? names := scat_read member_names memb_mess_scat (s32 (vi_members_offset vs_set)) (s32 (vi_num_members vs_set * MAX_GROUP_NAME)) in
    inr (s32 (vi_num_members vs_set), names).
