(* ===== verification/SpMembOk.v ===== *)
(** * What an application reads in a membership message

    The library gets out of the bytes of a membership message exactly what
    the daemon has put in: the group id, the sets and their members.  The
    functions for a scatter agree with those for a buffer when the message is
    in one element. *)

From Stdlib Require Import ZArith Lia.
From stdpp Require Import base strings numbers option gmap list.
From S2P Require Import Prelude Wire Bytes State ProtSend Packing EndToEnd Message Names GroupState SessRead Groups GroupsVs Sp SpRecv SpMemb.

(** The data of a membership message, its local set the [k]-th. *)
Definition memb_data (gid : group_id) (sets : list (list member)) (k : nat) : list Z :=
  enc_group_id gid ++ enc32 (Z.of_nat (length sets)) ++ enc32 (Z.of_nat (length (vs_bytes (take k sets)))) ++ vs_bytes sets.

(** A group id of three [int32], names of full length, and no more bytes than
    an offset can count. *)
Record memb_data_ok (gid : group_id) (sets : list (list member)) : Prop := mkMembDataOk {
  md_proc : int32_ok (mi_proc_id (gi_memb_id gid));
  md_time : int32_ok (mi_time (gi_memb_id gid));
  md_index : int32_ok (gi_index gid);
  md_names : Forall (Forall (fun m : member => length m = 32%nat)) sets;
  md_small : 20 + Z.of_nat (length (vs_bytes sets)) < 2 ^ 31;
}.

(** What the sets from the offset [o] on look like. *)
Fixpoint set_infos (o : Z) (sets : list (list member)) : list vs_set_info :=
  match sets with
  | [] => []
  | s :: sets => mkVsSetInfo (Z.of_nat (length s)) (o + 4) :: set_infos (o + 4 + 32 * Z.of_nat (length s)) sets
  end.

Section offsets.
Implicit Types (sets : list (list member)) (b x y : list Z).

Lemma get_u32_mid x y (n : Z) : 0 <= n < 2 ^ 32 -> get_u32 (x ++ enc32 n ++ y) (Z.of_nat (length x)) = n.
Proof.
  intros Hn. transitivity (u32 n); [|by apply u32_id]. apply get_u32_enc32. intros i Hi. by rewrite get_byte_mid.
Qed.

Lemma get_s32_mid x y (n : Z) : int32_ok n -> get_s32 (x ++ enc32 n ++ y) (Z.of_nat (length x)) = n.
Proof.
  intros Hn. transitivity (s32 n); [|by apply s32_id]. apply get_s32_enc. intros i Hi. by rewrite get_byte_mid.
Qed.

Lemma get_bytes_mid x y z : get_bytes (x ++ y ++ z) (Z.of_nat (length x)) (Z.of_nat (length y)) = y.
Proof.
  unfold get_bytes. rewrite !Nat2Z.id, drop_app_length. rewrite resize_app_le, resize_all_alt by done. done.
Qed.

Lemma names_length (s : list member) : Forall (fun m : member => length m = 32%nat) s -> Z.of_nat (length (concat s)) = 32 * Z.of_nat (length s).
Proof. induction 1 as [|m s Hm Hs IH]; [done|]. cbn. rewrite length_app, Nat2Z.inj_add, IH, Hm. lia. Qed.

Lemma vs_bytes_cons s sets : vs_bytes (s :: sets) = enc32 (Z.of_nat (length s)) ++ concat s ++ vs_bytes sets.
Proof. done. Qed.

Lemma vs_bytes_app sets1 sets2 : vs_bytes (sets1 ++ sets2) = vs_bytes sets1 ++ vs_bytes sets2.
Proof. unfold vs_bytes. by rewrite bind_app. Qed.

Lemma vs_bytes_snoc done s : Forall (fun m : member => length m = 32%nat) s ->
  Z.of_nat (length (vs_bytes (done ++ [s]))) = Z.of_nat (length (vs_bytes done)) + 4 + 32 * Z.of_nat (length s).
Proof.
  intros Hs. rewrite vs_bytes_app, vs_bytes_cons, !length_app, !Nat2Z.inj_add, names_length by done. cbn. lia.
Qed.

(** The names of [t] one after the other. *)
Lemma names_read (t : list member) z y (o : Z) : Forall (fun m : member => length m = 32%nat) t -> Z.of_nat (length z) = o ->
  (fun i => get_bytes (z ++ concat t ++ y) (o + MAX_GROUP_NAME * i) MAX_GROUP_NAME) <$> seqZ 0 (Z.of_nat (length t)) = t.
Proof.
  intros Hn. revert z o. induction Hn as [|m t Hm Hn IH]; intros z o Hz; [done|].
  rewrite seqZ_cons by (cbn; lia). cbn [fmap list_fmap concat]. rewrite <- app_assoc. f_equal.
  - rewrite Z.mul_0_r, Z.add_0_r, <- Hz. change MAX_GROUP_NAME with (Z.of_nat 32). rewrite <- Hm. apply get_bytes_mid.
  - rewrite (app_assoc z). etransitivity; [|apply (IH (z ++ m) (o + 32)); rewrite length_app; lia].
    replace (Z.pred (Z.of_nat (length (m :: t)))) with (Z.of_nat (length t)) by (cbn; lia).
    rewrite <- (fmap_add_seqZ 1 0), <- list_fmap_compose. apply list_fmap_ext. intros i a _. unfold compose. f_equal. change MAX_GROUP_NAME with 32. lia.
Qed.

(** The loop over the sets [todo], [done] being behind it. *)
Lemma vs_sets_from_spec hd (local : Z) todo : forall done b, b = hd ++ vs_bytes (done ++ todo) -> Z.of_nat (length hd) = 20 ->
  Forall (Forall (fun m : member => length m = 32%nat)) todo -> 20 + Z.of_nat (length (vs_bytes (done ++ todo))) < 2 ^ 31 ->
  exists mine, vs_sets_from (length todo) b local (20 + Z.of_nat (length (vs_bytes done))) (Z.of_nat (length done)) =
      (set_infos (20 + Z.of_nat (length (vs_bytes done))) todo, mine) /\
    forall k, mine = Some k <-> exists j, (j < length todo)%nat /\ k = Z.of_nat (length done + j) /\
                20 + Z.of_nat (length (vs_bytes (done ++ take j todo))) = local.
Proof.
  induction todo as [|s todo IH]; intros done b -> Hhd Hnames Hsmall.
  { exists None. split; [done|]. intros k. split; [done|]. intros (j & Hj & _). cbn in Hj. lia. }
  apply Forall_cons in Hnames as [Hs Hnames].
  assert (Hlen : length (vs_bytes (done ++ s :: todo)) = (length (vs_bytes done) + (4 + (length (concat s) + length (vs_bytes todo))))%nat).
  { rewrite vs_bytes_app, vs_bytes_cons, !length_app. done. }
  pose proof (names_length s Hs) as Hsl. rewrite Hlen in Hsmall.
  assert (Hnum : get_u32 (hd ++ vs_bytes (done ++ s :: todo)) (20 + Z.of_nat (length (vs_bytes done))) = Z.of_nat (length s)).
  { rewrite vs_bytes_app, vs_bytes_cons. rewrite (app_assoc hd). replace (20 + Z.of_nat (length (vs_bytes done))) with (Z.of_nat (length (hd ++ vs_bytes done)))
      by (rewrite length_app; lia). apply get_u32_mid. lia. }
  assert (Happ : done ++ s :: todo = (done ++ [s]) ++ todo) by by rewrite <- app_assoc.
  destruct (IH (done ++ [s]) (hd ++ vs_bytes (done ++ s :: todo))) as (mine & Hm & Hmine); [by rewrite Happ|done|done| |].
  { rewrite <- Happ, Hlen. lia. }
  pose proof (vs_bytes_snoc done s Hs) as Hsn. rewrite Hsn in Hm.
  cbn [length vs_sets_from]. rewrite Hnum. unfold SP_get_vs_set_members_offset_vs_set. change MAX_GROUP_NAME with 32.
  rewrite (u32_id (_ + 4)), u32_id by lia.
  replace (20 + Z.of_nat (length (vs_bytes done)) + 4 + Z.of_nat (length s) * 32)
    with (20 + (Z.of_nat (length (vs_bytes done)) + 4 + 32 * Z.of_nat (length s))) by lia.
  rewrite length_app, Nat2Z.inj_add in Hm. change (Z.of_nat (length [s])) with 1 in Hm. rewrite Hm. eexists. split.
  { cbn [set_infos]. do 3 f_equal. lia. }
  intros k. split.
  - intros Hk. destruct mine as [j|].
    + injection Hk as ->. destruct (proj1 (Hmine k) eq_refl) as (j & Hj & -> & Ho). exists (S j). rewrite length_app in *. cbn.
      split; [lia|]. split; [cbn in *; lia|]. by rewrite <- app_assoc in Ho.
    + destruct (Z.eqb_spec (20 + Z.of_nat (length (vs_bytes done))) local) as [He|]; [|done]. injection Hk as <-.
      exists 0%nat. rewrite take_0, app_nil_r, Nat.add_0_r. split; [cbn; lia|]. by split.
  - intros (j & Hj & -> & Ho). destruct j as [|j].
    + rewrite take_0, app_nil_r in Ho. destruct mine as [k|].
      * destruct (proj1 (Hmine k) eq_refl) as (j & Hj' & _ & Ho'). exfalso.
        rewrite vs_bytes_app, length_app, Nat2Z.inj_add, Hsn in Ho'. lia.
      * rewrite (proj2 (Z.eqb_eq _ _)) by done. by rewrite Nat.add_0_r.
    + cbn in Hj. rewrite (proj2 (Hmine (Z.of_nat (length done + S j)))); [done|]. exists j. rewrite length_app. split; [lia|].
      split; [cbn; lia|]. by rewrite <- app_assoc.
Qed.
End offsets.

Section reading.
Context (gid : group_id) (sets : list (list member)) (k : nat) (s : list member).
Hypothesis Hok : memb_data_ok gid sets.
Hypothesis Hk : sets !! k = Some s.
Let b := memb_data gid sets k.
Let off j := Z.of_nat (length (vs_bytes (take j sets))).

Lemma split_at j t : sets !! j = Some t -> vs_bytes sets = vs_bytes (take j sets) ++ enc32 (Z.of_nat (length t)) ++ concat t ++ vs_bytes (drop (S j) sets).
Proof. intros Hj. rewrite <- (take_drop_middle sets j t Hj) at 1. by rewrite vs_bytes_app, vs_bytes_cons. Qed.

Lemma off_bound j t : sets !! j = Some t -> 0 <= off j /\ 20 + off j + 4 + 32 * Z.of_nat (length t) < 2 ^ 31.
Proof.
  intros Hj. pose proof (md_small _ _ Hok) as Hs. rewrite (split_at j t Hj), !length_app, !Nat2Z.inj_add, names_length in Hs.
  - unfold off. cbn in Hs. lia.
  - exact (proj1 (Forall_lookup _ _) (md_names _ _ Hok) j t Hj).
Qed.

(** The bytes of the [j]-th set in the data. *)
Lemma data_at j t : sets !! j = Some t -> exists x y, Z.of_nat (length x) = 20 + off j /\ b = x ++ enc32 (Z.of_nat (length t)) ++ concat t ++ y.
Proof.
  intros Hj. exists (enc_group_id gid ++ enc32 (Z.of_nat (length sets)) ++ enc32 (off k) ++ vs_bytes (take j sets)), (vs_bytes (drop (S j) sets)).
  split; [rewrite !length_app, !Nat2Z.inj_add; unfold off; cbn; lia|]. unfold b, memb_data. fold (off k).
  rewrite (split_at j t Hj). by rewrite <- !app_assoc.
Qed.

Lemma data_group_id : get_group_id b 0 = gid.
Proof.
  destruct gid as [[p t] x]. destruct Hok as [Hp Ht Hx _ _]. cbn in Hp, Ht, Hx. unfold get_group_id, b, memb_data, enc_group_id, enc_memb_id. cbn [gi_memb_id gi_index mi_proc_id mi_time].
  rewrite <- !app_assoc. f_equal; [f_equal|].
  - by apply (get_s32_mid []).
  - by apply (get_s32_mid (enc32 p)).
  - rewrite (app_assoc (enc32 p)). by apply (get_s32_mid (enc32 p ++ enc32 t)).
Qed.

Lemma data_num_sets : get_u32 b 12 = Z.of_nat (length sets).
Proof.
  unfold b, memb_data. apply (get_u32_mid (enc_group_id gid)). pose proof (md_small _ _ Hok) as Hs.
  assert (Hl : Z.of_nat (length sets) <= Z.of_nat (length (vs_bytes sets))); [|lia].
  clear. induction sets as [|t l IH]; [done|]. rewrite vs_bytes_cons, !length_app. cbn. lia.
Qed.

Lemma data_local : get_u32 b 16 = off k.
Proof.
  unfold b, memb_data. rewrite (app_assoc (enc_group_id gid)). apply (get_u32_mid (enc_group_id gid ++ enc32 _)).
  pose proof (off_bound k s Hk). fold (off k). lia.
Qed.

Lemma sets_bound : Z.of_nat (length sets) < 2 ^ 31.
Proof.
  pose proof (md_small _ _ Hok) as Hs. assert (Hl : Z.of_nat (length sets) <= Z.of_nat (length (vs_bytes sets))); [|lia].
  clear. induction sets as [|t l IH]; [done|]. rewrite vs_bytes_cons, !length_app. cbn. lia.
Qed.

Lemma memb_info_spec service_type info : Is_membership_mess service_type = true -> is_mess REG_MEMB_MESS service_type = true ->
  SP_get_memb_info b service_type info =
    (1, mkMembershipInfo gid (changed_member service_type (get_bytes b 24 MAX_GROUP_NAME) (mbi_changed_member info)) (Z.of_nat (length sets))
          (mkVsSetInfo (Z.of_nat (length s)) (24 + off k))).
Proof.
  intros Hm Hr. unfold SP_get_memb_info, SP_get_gid_offset_memb_mess, SP_get_num_vs_sets_offset_memb_mess, SP_get_offset_to_local_vs_set_offset,
    SP_get_first_vs_set_offset_memb_mess, SP_get_vs_set_members_offset_vs_set, SP_get_vs_set_size_offset_vs_set, sizeof_group_id.
  rewrite Hm, Hr. cbn [negb]. change (12 + 4) with 16. change (12 + 2 * 4) with 20. change (20 + 4) with 24.
  pose proof (off_bound k s Hk). rewrite data_group_id, data_num_sets, data_local, !u32_id by lia.
  destruct (data_at k s Hk) as (x & y & Hx & Hb). do 3 f_equal; [|lia].
  replace (off k + 20 + 0) with (Z.of_nat (length x)) by lia. rewrite Hb. apply get_u32_mid. lia.
Qed.

Lemma set_infos_lookup j t : sets !! j = Some t -> set_infos 20 sets !! j = Some (mkVsSetInfo (Z.of_nat (length t)) (24 + off j)).
Proof.
  intros Hj. pose proof (md_names _ _ Hok) as Hn. unfold off. clear b off Hok Hk. replace (24 + _) with (20 + Z.of_nat (length (vs_bytes (take j sets))) + 4) by lia.
  generalize 20 as o. revert j Hj. induction sets as [|u l IH]; intros j Hj o; [done|]. apply Forall_cons in Hn as [Hu Hn]. destruct j as [|j].
  - injection Hj as ->. cbn. do 2 f_equal. lia.
  - change (set_infos o (u :: l) !! S j) with (set_infos (o + 4 + 32 * Z.of_nat (length u)) l !! j).
    change (take (S j) (u :: l)) with (u :: take j l). rewrite (IH Hn j Hj), vs_bytes_cons, !length_app, !Nat2Z.inj_add, names_length by done.
    do 2 f_equal. cbn. lia.
Qed.

Lemma vs_sets_info_spec (n : Z) : Z.of_nat (length sets) <= n ->
  SP_get_vs_sets_info b n = (Z.of_nat (length sets), set_infos 20 sets, Some (Z.of_nat k)).
Proof.
  intros Hn. unfold SP_get_vs_sets_info, SP_get_num_vs_sets_offset_memb_mess, SP_get_offset_to_local_vs_set_offset, SP_get_first_vs_set_offset_memb_mess, sizeof_group_id.
  change (12 + 4) with 16. change (12 + 2 * 4) with 20. pose proof sets_bound. pose proof (off_bound k s Hk).
  rewrite data_num_sets, s32_id, data_local, u32_id, (proj2 (Z.ltb_ge _ _)), Nat2Z.id by lia.
  destruct (vs_sets_from_spec (enc_group_id gid ++ enc32 (Z.of_nat (length sets)) ++ enc32 (off k)) (off k + 20) sets [] b) as (mine & Hm & Hmine).
  - unfold b, memb_data. by rewrite <- !app_assoc.
  - done.
  - apply (md_names _ _ Hok).
  - apply (md_small _ _ Hok).
  - change (vs_bytes []) with (@nil Z) in Hm. cbn [length] in Hm. change (20 + Z.of_nat 0) with 20 in Hm. change (Z.of_nat 0) with 0 in Hm. rewrite Hm.
    f_equal. apply Hmine. exists k. split; [by eapply lookup_lt_Some|]. split; [done|]. cbn [app]. fold (off k). lia.
Qed.

Lemma set_members_spec j (t : list member) (count : Z) : sets !! j = Some t -> Z.of_nat (length t) <= count ->
  SP_get_vs_set_members b (mkVsSetInfo (Z.of_nat (length t)) (24 + off j)) count = (Z.of_nat (length t), t).
Proof.
  intros Hj Hc. unfold SP_get_vs_set_members. cbn [vi_num_members vi_members_offset]. pose proof (off_bound j t Hj).
  rewrite s32_id, (proj2 (Z.ltb_ge count (Z.of_nat (length t)))) by (try done; lia). f_equal. destruct (data_at j t Hj) as (x & y & Hx & ->).
  pose proof (proj1 (Forall_lookup _ _) (md_names _ _ Hok) j t Hj) as Hn.
  assert (Hx' : Z.of_nat (length (x ++ enc32 (Z.of_nat (length t)))) = 24 + off j) by (rewrite length_app; cbn; lia).
  rewrite app_assoc. by apply names_read.
Qed.
End reading.

(** C17: What an application learns of a membership message that the network
    caused is what the daemon has written: SP_get_memb_info gives the group
    id, the number of virtual synchrony sets and the set of its own daemon;
    SP_get_vs_sets_info, given room, every set with its size and the index of
    the local one, and SP_get_vs_set_members the names in each set, in order.
    Without room they say so. *)
Theorem membership_read (gid : group_id) (sets : list (list member)) (k : nat) (s : list member) (service_type : Z) (info : membership_info) :
  memb_data_ok gid sets -> sets !! k = Some s ->
  Is_membership_mess service_type = true -> is_mess REG_MEMB_MESS service_type = true ->
  let b := memb_data gid sets k in
  (exists changed mine, SP_get_memb_info b service_type info = (1, mkMembershipInfo gid changed (Z.of_nat (length sets)) mine) /\
     vi_num_members mine = Z.of_nat (length s) /\ set_infos 20 sets !! k = Some mine) /\
  (forall n, SP_get_vs_sets_info b n =
     if n <? Z.of_nat (length sets) then (BUFFER_TOO_SHORT, [], None)
     else (Z.of_nat (length sets), set_infos 20 sets, Some (Z.of_nat k))) /\
  (forall j (t : list member) count, sets !! j = Some t -> exists i, set_infos 20 sets !! j = Some i /\
     SP_get_vs_set_members b i count =
       if count <? Z.of_nat (length t) then (BUFFER_TOO_SHORT, []) else (Z.of_nat (length t), t)).
Proof.
  intros Hok Hk Hm Hr b. split; [|split].
  - eexists _, _. split; [by apply (memb_info_spec gid sets k s)|]. split; [done|]. by apply (set_infos_lookup gid).
  - intros n. destruct (Z.ltb_spec n (Z.of_nat (length sets))) as [Hn|Hn]; [|by apply (vs_sets_info_spec gid sets k s)].
    unfold SP_get_vs_sets_info, SP_get_num_vs_sets_offset_memb_mess, sizeof_group_id, b.
    pose proof (sets_bound gid sets Hok). by rewrite (data_num_sets gid sets k Hok), s32_id, (proj2 (Z.ltb_lt _ _)) by lia.
  - intros j t count Hj. eexists. split; [by apply (set_infos_lookup gid)|].
    destruct (Z.ltb_spec count (Z.of_nat (length t))) as [Hn|Hn]; [|by apply (set_members_spec gid sets k)].
    unfold SP_get_vs_set_members. cbn [vi_num_members]. pose proof (off_bound gid sets Hok j t Hj).
    by rewrite s32_id, (proj2 (Z.ltb_lt _ _)) by lia.
Qed.

(** The message of [GroupsVs.vs_group]: its bytes are read back. *)
Definition vs_sample_sets : list (list member) := [[private "a" "h1"]; [private "c" "h2"]; [private "b" "h1"]].
Definition vs_sample_gid : group_id := mkGroupId (mkMembId 1 7) 3.
Definition no_info : membership_info := mkMembershipInfo vs_sample_gid [] 0 (mkVsSetInfo 0 0).
Definition by_network : Z := Z.lor REG_MEMB_MESS CAUSED_BY_NETWORK.

Lemma membership_read_witness :
  let b := memb_data vs_sample_gid vs_sample_sets 0 in
  ((exists changed mine, SP_get_memb_info b by_network no_info = (1, mkMembershipInfo vs_sample_gid changed 3 mine) /\
      vi_num_members mine = 1 /\ set_infos 20 vs_sample_sets !! 0%nat = Some mine) /\
   (forall n, SP_get_vs_sets_info b n =
      if n <? 3 then (BUFFER_TOO_SHORT, [], None) else (3, set_infos 20 vs_sample_sets, Some 0)) /\
   (forall j (t : list member) count, vs_sample_sets !! j = Some t -> exists i, set_infos 20 vs_sample_sets !! j = Some i /\
      SP_get_vs_set_members b i count = if count <? Z.of_nat (length t) then (BUFFER_TOO_SHORT, []) else (Z.of_nat (length t), t))) /\
  match G_build_memb_vs_buf no_config 1 vs_group CAUSED_BY_NETWORK (Some (private "b" "h1")) with
  | inr (h, bytes) => drop 96 bytes = b /\ Z.land (mh_type h) 0xff00 = by_network
  | inl _ => False
  end.
Proof.
  intros b. split; [|vm_compute; split; reflexivity].
  apply (membership_read vs_sample_gid vs_sample_sets 0 [private "a" "h1"] by_network no_info).
  - constructor; [vm_compute; split; congruence..| |vm_compute; reflexivity]. apply (bool_decide_unpack _). vm_compute. exact I.
  - reflexivity.
  - reflexivity.
  - reflexivity.
Defined.

(* --------------------------------------------------------------------- *)
(** ** A scatter of one element *)

Section one.
Context (b : buf) (n : Z).
Let msg : scatter := [mkElem b n].
Hypothesis Hn : n < 2 ^ 31.

Lemma scat_read_one dest (o m : Z) : 0 <= o -> 0 < m -> o + m <= n -> scat_read dest msg o m = inr (put_bytes dest 0 (get_bytes b o m)).
Proof.
  intros Ho Hm Hl. unfold scat_read, msg. cbn [length scat_seek scat_elem_at]. change (scat_elem_at [mkElem b n] 0) with (@inr err _ (mkElem b n)).
  cbn [rbind se_len]. rewrite s32_id by lia. rewrite (proj2 (Z.leb_le _ _)) by lia. cbn [rbind].
  unfold scat_copy at 1; fold scat_copy. rewrite (proj2 (Z.leb_gt m 0)) by lia. change (scat_elem_at [mkElem b n] 0) with (@inr err _ (mkElem b n)).
  cbn [rbind se_len se_buf]. rewrite !s32_id, Z.min_l, Z.sub_diag by lia. by destruct (m =? n - o).
Qed.

Lemma put_whole (dest xs : list Z) : (length dest <= length xs)%nat -> put_bytes dest 0 xs = xs.
Proof. intros H. unfold put_bytes. rewrite drop_ge by (cbn; lia). cbn. rewrite resize_0. cbn. by rewrite app_nil_r. Qed.

Lemma get_byte_bytes (o m i : Z) : 0 <= o -> 0 <= i < m -> get_byte (get_bytes b o m) i = get_byte b (o + i).
Proof. intros Ho Hi. unfold get_bytes, get_byte at 1. rewrite get_byte_resize by done. apply get_byte_drop; lia. Qed.

Lemma get_u32_bytes (o m i : Z) : 0 <= o -> 0 <= i -> i + 4 <= m -> get_u32 (get_bytes b o m) i = get_u32 b (o + i).
Proof. intros Ho Hi Hm. unfold get_u32, get_u16. rewrite !get_byte_bytes by lia. by rewrite !Z.add_assoc. Qed.

Lemma scat_u32_one old (o : Z) : 0 <= o -> o + 4 <= n -> scat_u32 old msg o = inr (get_u32 b o).
Proof.
  intros Ho Hl. unfold scat_u32. rewrite scat_read_one by lia. cbn [rbind].
  rewrite put_whole by (rewrite get_bytes_length; done). by rewrite get_u32_bytes, Z.add_0_r by lia.
Qed.

Lemma group_id_one g : 12 <= n -> exists x, scat_read (enc_group_id g) msg 0 sizeof_group_id = inr x /\ get_group_id x 0 = get_group_id b 0.
Proof.
  intros Hl. unfold sizeof_group_id. rewrite scat_read_one by lia. eexists. split; [done|].
  rewrite put_whole by (rewrite get_bytes_length; done). unfold get_group_id, get_s32. by rewrite !get_u32_bytes by lia.
Qed.

Lemma memb_info_one service_type info : 56 <= n -> (length (mbi_changed_member info) <= 32)%nat ->
  u32 (get_u32 b 16 + 20) + 4 <= n -> SP_scat_get_memb_info msg service_type info = inr (SP_get_memb_info b service_type info).
Proof.
  intros Hl Hc Hoff. unfold SP_scat_get_memb_info, SP_get_memb_info. destruct (Is_membership_mess service_type); [|done]. cbn [negb].
  destruct (group_id_one (mbi_gid info)) as (x & -> & Hx); [lia|]. cbn [rbind]. rewrite Hx.
  destruct (is_mess REG_MEMB_MESS service_type); [|done].
  unfold SP_get_first_vs_set_offset_memb_mess, SP_get_vs_set_members_offset_vs_set, SP_get_num_vs_sets_offset_memb_mess,
    SP_get_offset_to_local_vs_set_offset, SP_get_vs_set_size_offset_vs_set, sizeof_group_id.
  change (12 + 2 * 4) with 20. change (12 + 4) with 16. change (20 + 4) with 24. pose proof (u32_range (get_u32 b 16 + 20)) as Hr.
  assert (Hm : (if is_mess CAUSED_BY_JOIN service_type || is_mess CAUSED_BY_LEAVE service_type || is_mess CAUSED_BY_DISCONNECT service_type
      then scat_read (mbi_changed_member info) msg 24 MAX_GROUP_NAME else inr (mbi_changed_member info) : res _) =
      inr (if is_mess CAUSED_BY_JOIN service_type || is_mess CAUSED_BY_LEAVE service_type || is_mess CAUSED_BY_DISCONNECT service_type
           then get_bytes b 24 MAX_GROUP_NAME else mbi_changed_member info)).
  { case_match; [|done]. change MAX_GROUP_NAME with 32. rewrite scat_read_one by lia. by rewrite put_whole by (rewrite get_bytes_length; done). }
  rewrite Hm. cbn [rbind]. rewrite !scat_u32_one by lia. cbn [rbind]. rewrite (s32_id (_ + 0)), scat_u32_one by lia. cbn [rbind]. rewrite Z.add_0_r.
  unfold changed_member. by destruct (is_mess CAUSED_BY_JOIN service_type || is_mess CAUSED_BY_LEAVE service_type || is_mess CAUSED_BY_DISCONNECT service_type).
Qed.
End one.

(** The loops over the sets agree on the data of a message. *)
Lemma vs_sets_one hd (local n : Z) todo : forall done b vs_sets, b = hd ++ vs_bytes (done ++ todo) -> Z.of_nat (length hd) = 20 ->
  Forall (Forall (fun m : member => length m = 32%nat)) todo -> Z.of_nat (length b) <= n < 2 ^ 31 -> length vs_sets = length todo ->
  let o := 20 + Z.of_nat (length (vs_bytes done)) in
  scat_vs_sets_from vs_sets [mkElem b n] local o (Z.of_nat (length done)) = inr (vs_sets_from (length todo) b local o (Z.of_nat (length done))).
Proof.
  induction todo as [|s todo IH]; intros done b vs_sets Hb Hhd Hnames Hsmall Hl o.
  { by destruct vs_sets. }
  destruct vs_sets as [|vs vs_sets]; [discriminate|].
  apply Forall_cons in Hnames as [Hs Hnames]. pose proof (names_length s Hs) as Hsl.
  assert (Hlen : length b = (length hd + (length (vs_bytes done) + (4 + (length (concat s) + length (vs_bytes todo)))))%nat).
  { rewrite Hb, length_app, vs_bytes_app, vs_bytes_cons, !length_app. done. }
  assert (Hnum : get_u32 b o = Z.of_nat (length s)).
  { unfold o. rewrite Hb, vs_bytes_app, vs_bytes_cons, (app_assoc hd).
    replace (20 + Z.of_nat (length (vs_bytes done))) with (Z.of_nat (length (hd ++ vs_bytes done))) by (rewrite length_app; lia). apply get_u32_mid. lia. }
  assert (Happ : done ++ s :: todo = (done ++ [s]) ++ todo) by by rewrite <- app_assoc.
  pose proof (vs_bytes_snoc done s Hs) as Hsn. unfold o in *. cbn [length scat_vs_sets_from vs_sets_from].
  rewrite s32_id, scat_u32_one by lia. cbn [rbind]. rewrite Hnum. unfold SP_get_vs_set_members_offset_vs_set. change MAX_GROUP_NAME with 32.
  rewrite (u32_id (_ + 4)), u32_id by lia.
  replace (20 + Z.of_nat (length (vs_bytes done)) + 4 + Z.of_nat (length s) * 32) with (20 + Z.of_nat (length (vs_bytes (done ++ [s])))) by lia.
  replace (Z.of_nat (length done) + 1) with (Z.of_nat (length (done ++ [s]))) by (rewrite length_app; cbn; lia).
  cbn in Hl. rewrite (IH (done ++ [s]) b vs_sets); [|by rewrite <- Happ|done|done|done|lia]. cbn [rbind]. by destruct (vs_sets_from _ _ _ _ _).
Qed.

(** With the whole of a membership message in one element of a scatter,
    the functions for scatters agree with those for a buffer: on what
    SP_get_memb_info gives, on the sets when the array of the caller has as
    many entries as there are sets, and on the names of the members of each
    set. *)
Theorem scat_one_element (gid : group_id) (sets : list (list member)) (k : nat) (s : list member) (service_type : Z) (info : membership_info)
    (vs_sets : list vs_set_info) :
  memb_data_ok gid sets -> sets !! k = Some s -> length vs_sets = length sets -> (length (mbi_changed_member info) <= 32)%nat ->
  let b := memb_data gid sets k in
  let msg := [mkElem b (Z.of_nat (length b))] in
  56 <= Z.of_nat (length b) ->
  SP_scat_get_memb_info msg service_type info = inr (SP_get_memb_info b service_type info) /\
  SP_scat_get_vs_sets_info msg vs_sets = inr (SP_get_vs_sets_info b (Z.of_nat (length sets))) /\
  (forall j (t : list member) names count, sets !! j = Some t -> t <> [] -> Z.of_nat (length t) <= count -> length names = length (concat t) ->
     SP_scat_get_vs_set_members msg (mkVsSetInfo (Z.of_nat (length t)) (24 + Z.of_nat (length (vs_bytes (take j sets))))) names count =
       inr (Z.of_nat (length t), concat (SP_get_vs_set_members b (mkVsSetInfo (Z.of_nat (length t)) (24 + Z.of_nat (length (vs_bytes (take j sets))))) count).2)).
Proof.
  intros Hok Hk Hvs Hch b msg H56.
  assert (Hlen : Z.of_nat (length b) = 20 + Z.of_nat (length (vs_bytes sets))) by (unfold b, memb_data; rewrite !length_app; cbn; lia).
  pose proof (md_small _ _ Hok) as Hsm. pose proof (off_bound gid sets Hok k s Hk) as Hoff. pose proof (sets_bound gid sets Hok) as Hsb.
  destruct (data_at gid sets k k s Hk) as (x & y & Hx & Hb).
  assert (Hlk : 20 + Z.of_nat (length (vs_bytes (take k sets))) + 4 <= Z.of_nat (length b)).
  { unfold b. rewrite Hb, !length_app. cbn. lia. }
  assert (Hu : u32 (get_u32 b 16 + 20) = Z.of_nat (length (vs_bytes (take k sets))) + 20).
  { unfold b. rewrite (data_local gid sets k s Hok Hk). apply u32_id. lia. }
  split; [|split].
  - apply memb_info_one; [lia|lia|done|]. rewrite Hu. lia.
  - unfold SP_scat_get_vs_sets_info, SP_get_vs_sets_info, SP_get_num_vs_sets_offset_memb_mess, SP_get_offset_to_local_vs_set_offset,
      SP_get_first_vs_set_offset_memb_mess, sizeof_group_id. change (12 + 4) with 16. change (12 + 2 * 4) with 20. unfold msg.
    rewrite !scat_u32_one by lia. cbn [rbind]. rewrite Hvs, Hu.
    pose proof (data_num_sets gid sets k Hok) as Hnum. fold b in Hnum. rewrite Hnum, s32_id, Z.ltb_irrefl, Nat2Z.id by lia.
    pose proof (vs_sets_one (enc_group_id gid ++ enc32 (Z.of_nat (length sets)) ++ enc32 (Z.of_nat (length (vs_bytes (take k sets)))))
      (Z.of_nat (length (vs_bytes (take k sets))) + 20) (Z.of_nat (length b)) sets [] b vs_sets) as H1.
    cbn [length app] in H1. change (vs_bytes []) with (@nil Z) in H1. change (20 + Z.of_nat (length (@nil Z))) with 20 in H1. change (Z.of_nat 0) with 0 in H1.
    rewrite H1; [cbn [rbind]; by destruct (vs_sets_from _ _ _ _ _)|unfold b, memb_data; by rewrite <- !app_assoc|done|apply (md_names _ _ Hok)|lia|done].
  - intros j t names count Hj Hne Hc Hnames. pose proof (off_bound gid sets Hok j t Hj) as Ho.
    assert (Hset := set_members_spec gid sets k Hok j t count Hj Hc). cbv beta in Hset. change (memb_data gid sets k) with b in Hset.
    rewrite Hset. cbn [snd]. unfold SP_scat_get_vs_set_members. cbn [vi_num_members vi_members_offset].
    pose proof (proj1 (Forall_lookup _ _) (md_names _ _ Hok) j t Hj) as Hn. pose proof (names_length t Hn) as Hnl.
    rewrite s32_id by lia. rewrite (proj2 (Z.ltb_ge count _)) by done. change MAX_GROUP_NAME with 32. rewrite !s32_id by lia.
    destruct (data_at gid sets k j t Hj) as (x1 & y1 & Hx1 & Hb1). assert (0 < length t)%nat by (destruct t; [done|cbn; lia]).
    assert (Hb2 : b = (x1 ++ enc32 (Z.of_nat (length t))) ++ concat t ++ y1) by (unfold b; rewrite Hb1; by rewrite <- app_assoc).
    assert (Hbl : Z.of_nat (length b) = 24 + Z.of_nat (length (vs_bytes (take j sets))) + 32 * Z.of_nat (length t) + Z.of_nat (length y1)).
    { rewrite Hb2, !length_app. cbn. lia. }
    unfold msg. rewrite scat_read_one by lia. cbn [rbind]. do 2 f_equal.
    rewrite put_whole by (rewrite get_bytes_length; lia).
    replace (24 + Z.of_nat (length (vs_bytes (take j sets)))) with (Z.of_nat (length (x1 ++ enc32 (Z.of_nat (length t))))) by (rewrite length_app; cbn; lia).
    replace (Z.of_nat (length t) * 32) with (Z.of_nat (length (concat t))) by lia. rewrite Hb2. apply get_bytes_mid.
Qed.

Lemma scat_one_element_witness :
  let b := memb_data vs_sample_gid vs_sample_sets 0 in
  let msg := [mkElem b (Z.of_nat (length b))] in
  let zero := replicate 3 (mkVsSetInfo 0 0) in
  SP_scat_get_memb_info msg by_network no_info = inr (SP_get_memb_info b by_network no_info) /\
  SP_scat_get_vs_sets_info msg zero = inr (SP_get_vs_sets_info b 3) /\
  (forall j (t : list member) names count, vs_sample_sets !! j = Some t -> t <> [] -> Z.of_nat (length t) <= count -> length names = length (concat t) ->
     SP_scat_get_vs_set_members msg (mkVsSetInfo (Z.of_nat (length t)) (24 + Z.of_nat (length (vs_bytes (take j vs_sample_sets))))) names count =
       inr (Z.of_nat (length t),
            concat (SP_get_vs_set_members b (mkVsSetInfo (Z.of_nat (length t)) (24 + Z.of_nat (length (vs_bytes (take j vs_sample_sets))))) count).2)).
Proof.
  apply (scat_one_element vs_sample_gid vs_sample_sets 0 [private "a" "h1"] by_network no_info (replicate 3 (mkVsSetInfo 0 0))).
  - constructor; [vm_compute; split; congruence..| |vm_compute; reflexivity]. apply (bool_decide_unpack _). vm_compute. exact I.
  - reflexivity.
  - reflexivity.
  - cbn. lia.
  - vm_compute. congruence.
Defined.
