(* ===== verification/SpConnect.v ===== *)
(** * The client library: connecting ([SP_connect_timeout_low] of [libspread/sp.c])

    The name of the daemon, the socket, and the exchange that makes it a
    mailbox: the client says its version and name, the daemon lists the
    authentication methods it allows, the client chooses, and the daemon
    accepts with the private group of the new session or rejects with a code.
    The sockets do not block here: every call has an optional time limit. *)

From Stdlib Require Import ZArith Lia.
From stdpp Require Import base strings numbers option gmap list.
From S2P Require Import Prelude Wire Bytes Events State Message Names SessState Acm SessAuth SessAccept Sp.

Definition ILLEGAL_SPREAD : Z := -1.
Definition COULD_NOT_CONNECT : Z := -2.
Definition REJECT_NO_NAME : Z := -4.
Definition SP_BUG : Z := -19.
Definition ILLEGAL_TIME : Z := -20.

(** 0 when a pointer is [NULL], otherwise 1 and the numbers. *)
Definition SP_version (some_null : bool) : Z * option (Z * Z * Z) :=
  if some_null then (0, None) else (1, Some (SP_MAJOR_VERSION, SP_MINOR_VERSION, SP_PATCH_VERSION)).

(** [SP_strerror] *)
Definition SP_strerror (error : Z) : string :=
  if error =? ILLEGAL_SPREAD then "Illegal spread name provided."
  else if error =? COULD_NOT_CONNECT then "Could not connect."
  else if error =? REJECT_QUOTA then "Connection rejected, too many users."
  else if error =? REJECT_NO_NAME then "Connection rejected, no name was supplied."
  else if error =? REJECT_ILLEGAL_NAME then "Connection rejected, illegal name."
  else if error =? REJECT_NOT_UNIQUE then "Connection rejected, name not unique."
  else if error =? REJECT_VERSION then "Connection rejected, client library incompatible with daemon."
  else if error =? CONNECTION_CLOSED then "Connection closed by Spread."
  else if error =? REJECT_AUTH then "Connection rejected, authentication failed."
  else if error =? ILLEGAL_SESSION then "Illegal session was supplied."
  else if error =? ILLEGAL_SERVICE then "Illegal service request."
  else if error =? ILLEGAL_MESSAGE then "Illegal message."
  else if error =? ILLEGAL_GROUP then "Illegal group."
  else if error =? BUFFER_TOO_SHORT then "Buffer too short."
  else if error =? GROUPS_TOO_SHORT then "Groups list too short."
  else if error =? MESSAGE_TOO_LONG then "Message (body + group names) too large."
  else if error =? NET_ERROR_ON_SESSION then "Network socket error. SP_kill() the mailbox."
  else if error =? SP_BUG then "Internal Spread bug detected."
  else if error =? ILLEGAL_TIME then "Illegal time."
  else "Unrecognized error.".

(** ** Waiting for a socket *)

(** A round of [wait_nointr] with [poll]: the clock, which is looked at when
    there is a limit, and what [poll] gives. *)
Inductive poll_result : Type := Poll_intr | Poll_ret (k : Z).
(** The time-out of a round in milliseconds, -1 for none; [None] when the limit
    has passed. *)
Definition poll_ms (abs_time_out : option sp_time) (now : sp_time) : option Z :=
  match abs_time_out with
  | None => Some (-1)
  | Some t =>
      let t := E_sub_time t now in
      if (sec t <? 0) || (usec t <? 0) then None
      else if (2 ^ 31 - 1) `quot` 1000 <=? sec t then Some (2 ^ 31 - 1)
      else Some (sec t * 1000 + (usec t + 999) `quot` 1000)
  end.
(** 0 ready, 1 at the limit, -1 error; and the time-outs given to [poll]. *)
Fixpoint wait_nointr (l : list (sp_time * poll_result)) (abs_time_out : option sp_time) : res (Z * list Z) :=
  match l with
  | [] => inl blocked
  | (now, r) :: l =>
      match poll_ms abs_time_out now with
      | None => inr (1, [])
      | Some ms =>
          match r with
          | Poll_intr => let? ' (v, waits) := wait_nointr l abs_time_out in inr (v, ms :: waits)
          | Poll_ret k => inr (if k =? 1 then 0 else if k =? 0 then 1 else -1, [ms])
          end
      end
  end.

(** ** The socket of the exchange *)

(** What a round of a loop around [recv] or [send] meets: the clock is at the
    time limit, a value, a signal, or a call that would block and what
    [wait_nointr] then gives (0 ready, 1 at the limit, -1 for an error). *)
Inductive nb_result : Type :=
| Nb_expired
| Nb_ret (k : Z)
| Nb_intr
| Nb_again (wait : Z).

(** The bytes the daemon will send and those sent to it, the rounds to come,
    and whether the socket was closed. *)
Record hs_state : Type := mkHsState {
  hs_in : list Z;
  hs_out : list Z;
  hs_recv : list nb_result;
  hs_send : list nb_result;
  hs_closed : bool;
}.
Definition set_hs_in (x : list Z) (r : hs_state) : hs_state := mkHsState x (hs_out r) (hs_recv r) (hs_send r) (hs_closed r).
Definition set_hs_out (x : list Z) (r : hs_state) : hs_state := mkHsState (hs_in r) x (hs_recv r) (hs_send r) (hs_closed r).
Definition set_hs_recv (x : list nb_result) (r : hs_state) : hs_state := mkHsState (hs_in r) (hs_out r) x (hs_send r) (hs_closed r).
Definition set_hs_send (x : list nb_result) (r : hs_state) : hs_state := mkHsState (hs_in r) (hs_out r) (hs_recv r) x (hs_closed r).
Definition set_hs_closed (x : bool) (r : hs_state) : hs_state := mkHsState (hs_in r) (hs_out r) (hs_recv r) (hs_send r) x.

Abbreviation HSM := (M hs_state).
Definition hs_close : HSM unit := modify (set_hs_closed true).

(** [recv_n_nointr_nb]: the bytes left to receive, and those received.  The
    clock is only looked at when there is a limit ([timed]). *)
Fixpoint recv_nb (l : list nb_result) (timed : bool) (n : Z) (bs : list Z) : HSM (Z * list Z) :=
  if n <=? 0 then ret (n, bs)
  else
    match l with
    | [] => fail blocked
    | r :: l =>
        modify (set_hs_recv l) ;;
        match r with
        | Nb_expired => if timed then ret (n, bs) else recv_nb l timed n bs
        | Nb_intr => recv_nb l timed n bs
        | Nb_again wait => if wait =? 0 then recv_nb l timed n bs else ret (n, bs)
        | Nb_ret k =>
            if k <=? 0 then ret (n, bs)
            else
              let* w := get in
              let xs := take (Z.to_nat (Z.min k n)) (hs_in w) in
              modify (set_hs_in (drop (length xs) (hs_in w))) ;;
              recv_nb l timed (n - Z.of_nat (length xs)) (bs ++ xs)
        end
    end.
Definition recv_n_nointr_nb (timed : bool) (n : Z) : HSM (Z * list Z) := let* w := get in recv_nb (hs_recv w) timed n [].

(** [send_n_nointr_nb]: the bytes left to send. *)
Fixpoint send_nb (l : list nb_result) (timed : bool) (bs : list Z) : HSM Z :=
  match bs with
  | [] => ret 0
  | _ =>
      match l with
      | [] => fail blocked
      | r :: l =>
          modify (set_hs_send l) ;;
          match r with
          | Nb_expired => if timed then ret (Z.of_nat (length bs)) else send_nb l timed bs
          | Nb_intr => send_nb l timed bs
          | Nb_again wait => if wait =? 0 then send_nb l timed bs else ret (Z.of_nat (length bs))
          | Nb_ret k =>
              if k <=? 0 then ret (Z.of_nat (length bs))
              else
                modify (fun w => set_hs_out (hs_out w ++ take (Z.to_nat k) bs) w) ;;
                send_nb l timed (drop (Z.to_nat k) bs)
          end
      end
  end.
Definition send_n_nointr_nb (timed : bool) (bs : list Z) : HSM Z := let* w := get in send_nb (hs_send w) timed bs.

(** ** Authentication methods *)

(** [authenticate] is a function of the application. *)
Record auth_method_info : Type := mkAuthMethodInfo { ai_name : list Z; ai_authenticate : HSM Z }.
Definition sp_null_authenticate : HSM Z := ret 1.
(** [Auth_Methods], as far as [Num_Reg_Auth_Methods] goes. *)
Definition default_methods : list auth_method_info := [mkAuthMethodInfo str_NULL sp_null_authenticate].

(** A method of the application: its name, and [None] for a null function. *)
Definition registered (m : list Z * option (HSM Z)) : option auth_method_info :=
  if MAX_AUTH_NAME <=? Z.of_nat (length m.1) then None
  else match m.2 with Some f => Some (mkAuthMethodInfo m.1 f) | None => None end.
Definition SP_set_auth_methods (methods : list (list Z * option (HSM Z))) (old : list auth_method_info) : Z * list auth_method_info :=
  if MAX_AUTH_METHODS <? Z.of_nat (length methods) then (0, old)
  else match mapM registered methods with Some l => (1, l) | None => (0, old) end.
Definition SP_set_auth_method (auth_name : list Z) (auth_function : option (HSM Z)) (old : list auth_method_info) : Z * list auth_method_info :=
  match registered (auth_name, auth_function) with Some m => (1, [m]) | None => (0, old) end.

(** The words between the spaces. *)
Fixpoint split_words (s : list Z) : list (list Z) :=
  match s with
  | [] => [[]]
  | c :: s =>
      if c =? 32 then [] :: split_words s
      else match split_words s with w :: ws => (c :: w) :: ws | [] => [[c]] end
  end.
(** [list_str] has 90 bytes, with the nul after the list. *)
Definition valid_auth_method (auth_method auth_list : list Z) : res bool :=
  if MAX_AUTH_NAME * MAX_AUTH_METHODS <=? Z.of_nat (length auth_list) then inl (Undefined "valid_auth_method: list_str[]")
  else inr (existsb (fun w => strcmp auth_method w =? 0) (split_words (cstr auth_list))).

(** The loop over the chosen methods: all of them are allowed. *)
Fixpoint all_valid (l : list auth_method_info) (auth_list : list Z) : res bool :=
  match l with
  | [] => inr true
  | m :: l => let? ok := valid_auth_method (ai_name m) auth_list in if ok then all_valid l auth_list else inr false
  end.
(** All of them run, even after a failure. *)
Fixpoint run_all (l : list auth_method_info) : HSM bool :=
  match l with
  | [] => ret false
  | m :: l => let* r := ai_authenticate m in let* failed := run_all l in ret ((r =? 0) || failed)
  end.

(** ** The exchange *)

(** The first message of the client. *)
Definition connect_bytes (private_name : option (list Z)) (priority group_membership : Z) : list Z :=
  let name := take (Z.to_nat MAX_PRIVATE_NAME) (default [] private_name) in
  [SP_MAJOR_VERSION; SP_MINOR_VERSION; SP_PATCH_VERSION;
   Z.lor (Z.shiftl (cbool (1 <=? priority)) 4) (cbool (negb (group_membership =? 0))); Z.of_nat (length name)] ++ name.

(** [auth_choice]: the names in their fields of the array. *)
Definition auth_choice (l : list auth_method_info) : list Z :=
  resize (Z.to_nat (MAX_AUTH_NAME * MAX_AUTH_METHODS)) 0 (l ≫= fun m => strncpy (ai_name m) MAX_AUTH_NAME).

Definition closed_with (code : Z) : HSM (Z * list Z) := hs_close ;; ret (code, []).

(** The answer of the daemon and the private group. *)
Definition read_answer (timed : bool) (priority : Z) : HSM (Z * list Z) :=
  let* ' (k, conn) := recv_n_nointr_nb timed 5 in
  if truth k then
    hs_close ;;
    if (k <? 5) && negb (s8 (get_byte conn 0) =? ACCEPT_SESSION) then ret (s8 (get_byte conn 0), []) else ret (CONNECTION_CLOSED, [])
  else if negb (s8 (get_byte conn 0) =? ACCEPT_SESSION) then closed_with (s8 (get_byte conn 0))
  else
    let sp_v1 := s8 (get_byte conn 1) in
    let sp_v2 := s8 (get_byte conn 2) in
    let sp_v3 := s8 (get_byte conn 3) in
    let len := s8 (get_byte conn 4) in
    if (sp_v1 <? 0) || (sp_v2 <? 0) || (sp_v3 <? 0) || (len <? 0) || (MAX_GROUP_NAME <=? len) then closed_with CONNECTION_CLOSED
    else if sp_v1 <? 3 then closed_with REJECT_VERSION
    else if (0 <? priority) && (sp_v1 =? 3) && (sp_v2 <? 8) then closed_with REJECT_VERSION
    else
      let* ' (k, private_group) := recv_n_nointr_nb timed len in
      if truth k then closed_with CONNECTION_CLOSED else ret (ACCEPT_SESSION, cstr (private_group ++ [0])).

(** From the first message on; the return value and the private group. *)
Definition connect_exchange (timed : bool) (methods : list auth_method_info) (private_name : option (list Z)) (priority group_membership : Z)
    : HSM (Z * list Z) :=
  let* k := send_n_nointr_nb timed (connect_bytes private_name priority group_membership) in
  if truth k then closed_with CONNECTION_CLOSED
  else
    let* ' (k, b) := recv_n_nointr_nb timed 1 in
    let auth_list_len := s8 (get_byte b 0) in
    if truth k then closed_with CONNECTION_CLOSED
    else if auth_list_len <? 0 then closed_with auth_list_len
    else if MAX_AUTH_NAME * MAX_AUTH_METHODS <? auth_list_len then closed_with CONNECTION_CLOSED
    else
      let* ' (k, auth_list) := recv_n_nointr_nb timed auth_list_len in
      if truth k then closed_with CONNECTION_CLOSED
      else
        let* valid := lift (all_valid methods auth_list) in
        if negb valid then closed_with REJECT_AUTH
        else
          let* k := send_n_nointr_nb timed (auth_choice methods) in
          if truth k then closed_with CONNECTION_CLOSED
          else
            let* failed := run_all methods in
            if failed then closed_with REJECT_AUTH else read_answer timed priority.

(** ** The name of the daemon *)

Definition is_space (c : Z) : bool := (c =? 32) || ((9 <=? c) && (c <=? 13)).
Definition is_digit (c : Z) : bool := (48 <=? c) && (c <=? 57).
Fixpoint skip_spaces (s : list Z) : list Z :=
  match s with c :: s' => if is_space c then skip_spaces s' else s | [] => [] end.
Fixpoint take_while (p : Z -> bool) (s : list Z) : list Z :=
  match s with c :: s' => if p c then c :: take_while p s' else [] | [] => [] end.
(** [sscanf( s, "%hu%s", &port, host_name )]: the conversions made and their
    values; a number is read as an [unsigned long]. *)
Definition sscanf_hu_s (s : list Z) : Z * Z * list Z :=
  let s := skip_spaces s in
  let '(neg, s) := match s with c :: s' => if c =? 45 then (true, s') else if c =? 43 then (false, s') else (false, s) | [] => (false, s) end in
  let digits := take_while is_digit s in
  match digits with
  | [] => (0, 0, [])
  | _ =>
      let v := foldl (fun v c => Z.min (10 * v + (c - 48)) (2 ^ 64)) 0 digits in
      let port := if 2 ^ 64 <=? v then u16 (2 ^ 64 - 1) else u16 (if neg then - v else v) in
      match take_while (fun c => negb (is_space c)) (skip_spaces (drop (length digits) s)) with
      | [] => (1, port, [])
      | host => (2, port, host)
      end
  end.

(** What the system gives: [MAXHOSTNAMELEN], the families of the addresses of
    a host, [None] with [EAI_NONAME] and another error; the descriptors of
    [socket], the results of [ioctl] and of [connect]. *)
Inductive host_result : Type := No_name | Host_error | Addresses (families : list Z).
Inductive conn_result : Type := Conn_ok | Conn_error | Conn_progress (wait so_ret so_err : Z).
Record connect_env : Type := mkConnectEnv {
  ce_maxhost : Z;
  ce_host : list Z -> host_result;
  ce_unix_socket : Z;
  ce_inet_socket : Z;
  ce_connect : conn_result;
  ce_nonblock : bool;
  ce_block : bool;
}.
Definition connect_nointr (c : conn_result) : Z :=
  match c with
  | Conn_ok => 0
  | Conn_error => -1
  | Conn_progress wait so_ret so_err =>
      if wait =? 0 then if (so_ret =? 0) && negb (so_err =? 0) then -1 else so_ret else wait
  end.
Definition AF_INET : Z := 2.
Definition AF_INET6 : Z := 10.
Definition DEFAULT_SPREAD_CONNECTION : list Z := str_bytes "4803".

(** The descriptor of a socket for the daemon, or the error of the call. *)
Definition daemon_socket (env : connect_env) (spread_name : option (list Z)) : Z + Z :=
  let name := match spread_name with None | Some [] => DEFAULT_SPREAD_CONNECTION | Some s => s end in
  if ce_maxhost env + 6 + 1 <=? Z.of_nat (length name) then inl ILLEGAL_SPREAD
  else
    let '(n, _, host_name) := sscanf_hu_s name in
    if n =? 1 then if ce_unix_socket env =? -1 then inl COULD_NOT_CONNECT else inr (ce_unix_socket env)
    else if n =? 2 then
      if negb (get_byte host_name 0 =? 64) then inl ILLEGAL_SPREAD
      else
        match ce_host env (drop 1 host_name) with
        | No_name => inl ILLEGAL_SPREAD
        | Host_error => inl COULD_NOT_CONNECT
        | Addresses l =>
            if existsb (fun f => (f =? AF_INET) || (f =? AF_INET6)) l then
              if ce_inet_socket env =? -1 then inl COULD_NOT_CONNECT else inr (ce_inet_socket env)
            else inl COULD_NOT_CONNECT
        end
    else inl ILLEGAL_SPREAD.

(** The library and the socket of the exchange. *)
Record connecting : Type := mkConnecting { co_lib : sp_lib; co_hs : hs_state }.
Abbreviation CM := (M connecting).
Definition in_lib {A} (m : SPM A) : CM A := fun w =>
  match m (co_lib w) with Done a l => Done a (mkConnecting l (co_hs w)) | Failed e => Failed e end.
Definition in_hs {A} (m : HSM A) : CM A := fun w =>
  match m (co_hs w) with Done a h => Done a (mkConnecting (co_lib w) h) | Failed e => Failed e end.

(** The return value, and the mailbox and the private group once they are
    written. *)
Definition SP_connect_timeout_low (env : connect_env) (methods : list auth_method_info) (spread_name private_name : option (list Z))
    (priority group_membership : Z) (timed : bool) : CM (Z * option Z * list Z) :=
  match daemon_socket env spread_name with
  | inl e => ret (e, None, [])
  | inr s =>
      if negb (ce_nonblock env) then in_hs hs_close ;; ret (COULD_NOT_CONNECT, None, [])
      else if connect_nointr (ce_connect env) <? 0 then in_hs hs_close ;; ret (COULD_NOT_CONNECT, None, [])
      else
        let* ' (r, private_group) := in_hs (connect_exchange timed methods private_name priority group_membership) in
        if negb (r =? ACCEPT_SESSION) then ret (r, None, private_group)
        else if negb (ce_block env) then in_hs hs_close ;; ret (CONNECTION_CLOSED, Some s, private_group)
        else
          let* r := in_lib (SP_connect_session s private_group) in
          ret (r, Some s, private_group)
  end.

Definition SP_connect (env : connect_env) (methods : list auth_method_info) (spread_name private_name : option (list Z))
    (priority group_membership : Z) : CM (Z * option Z * list Z) :=
  SP_connect_timeout_low env methods spread_name private_name priority group_membership false.

(** A limit of 0 is no limit. *)
Definition SP_connect_timeout (env : connect_env) (methods : list auth_method_info) (spread_name private_name : option (list Z))
    (priority group_membership : Z) (time_out : sp_time) : CM (Z * option Z * list Z) :=
  if ((sec time_out <? 0) && (0 <? usec time_out)) || ((0 <? sec time_out) && (usec time_out <? 0))
     || ((usec time_out <=? -1000000) || (1000000 <=? usec time_out))
  then ret (ILLEGAL_TIME, None, [])
  else
    let timed := negb (sec time_out =? 0) || negb (usec time_out =? 0) in
    SP_connect_timeout_low env methods spread_name private_name priority group_membership timed.
