(* ===== verification/SpHandshake.v ===== *)
(** * The client library and the daemon agree on a connection

    What the library writes when it connects is what the session layer of the
    daemon reads, and the answers of the daemon are what the library expects. *)

From Stdlib Require Import ZArith Lia.
From stdpp Require Import base strings numbers option gmap list sorting.
From S2P Require Import Prelude Wire Bytes Config Events EventsFd State Network FlowControl MembSets MembCore ProtSend.
From S2P Require Import Sample Retrans Requests Packing Deliver Delivery Sending EndToEnd Message Names GroupState SessState SessTable SessDir SessWrite SessStream SessServe SessDeliver SessRead SessHeader SessParse Acm SessAuth SessAccept Sp SpConnect.

#[local] Abbreviation NEW := MAX_SESSIONS.

(* --------------------------------------------------------------------- *)
(** ** The daemon reads what the client says *)

Section daemon.
Context (mbox : Z).
Implicit Types (w : sess_world) (xs rest : list Z).

(** The next results of [recv] are [ks], the bytes to come [bs]. *)
Definition fed (ks bs : list Z) w : Prop := so_recv (ss w) = ks /\ in_bytes (ss w) mbox = bs.

(** A [recv] that gets what is there, up to the length asked for. *)
Lemma recv_fed (n k : Z) ks xs rest w : fed (k :: ks) (xs ++ rest) w -> 0 < n <= k -> xs <> [] ->
  Z.of_nat (length xs) = n \/ rest = [] /\ Z.of_nat (length xs) <= n ->
  wp (recv mbox n) (fun '(r, bs) w' => r = Z.of_nat (length xs) /\ bs = xs /\ fed ks rest w' /\
    (forall j, ses (ss w') j = ses (ss w) j) /\ table_vars (ss w') = table_vars (ss w)) never w.
Proof.
  intros [Hk Hb] Hn Hne Hl. unfold recv. apply wp_bind, wp_get. rewrite Hk. cbn [next_result head from_option id]. apply wp_bind, wp_modify.
  rewrite (proj2 (Z.leb_gt k 0)), Hb by lia.
  replace (take (Z.to_nat (Z.min k n)) (xs ++ rest)) with xs.
  2: { destruct Hl as [Hl|[-> Hl]]; [rewrite take_app_length'; [done|lia]|rewrite app_nil_r, take_ge; [done|lia]]. }
  assert (0 < length xs)%nat by (destruct xs; [done|cbn; lia]). rewrite (proj2 (Z.eqb_neq _ 0)) by lia.
  apply wp_bind, wp_modify, wp_ret. cbn [ss]. split; [done|]. split; [done|]. split; [|done]. split; [cbn; by rewrite Hk|].
  unfold in_bytes. cbn. rewrite lookup_insert_eq. change (default [] (so_in (ss w) !! mbox)) with (in_bytes (ss w) mbox).
  rewrite Hb. cbn. apply drop_app_length.
Qed.

Lemma fed_upd ks bs f w : fed ks bs w -> fed ks bs (mkSessWorld (upd NEW f (ss w)) (core w) (gs w)).
Proof. done. Qed.
End daemon.

(** The session the client asks for, as the daemon has it. *)
Record asks_for (name : list Z) (priority group_membership : Z) (r : session) : Prop := mkAsksFor {
  af_name : s_name r = name;
  af_version : s_lib_version r = (SP_MAJOR_VERSION, SP_MINOR_VERSION, SP_PATCH_VERSION);
  af_priority : s_priority r = cbool (1 <=? priority);
  af_memb : Is_session MEMB_SESSION (s_status r) = negb (group_membership =? 0);
}.

Lemma legal_cstr n s : legal_name n s -> cstr s = s.
Proof.
  intros Hl%legal_name_no_nul. induction Hl as [|c s Hc Hs IH]; [done|]. cbn. rewrite (proj2 (Z.eqb_neq _ _) Hc). by rewrite IH.
Qed.

Section read.
Context (mbox : Z) (l : list Z).

Lemma memb_bit (b : bool) status :
  Is_session MEMB_SESSION (if b then Set_session MEMB_SESSION status else Clear_session MEMB_SESSION status) = b.
Proof.
  unfold Is_session, Set_session, Clear_session. change MEMB_SESSION with 1. destruct b.
  - apply truth_true. intros H. apply (f_equal (fun x => Z.testbit x 0)) in H. rewrite Z.land_spec, Z.lor_spec in H. cbn in H. by rewrite orb_true_r in H.
  - apply truth_false. rewrite <- Z.land_assoc. apply Z.bits_inj'. intros k Hk. rewrite !Z.land_spec, Z.lnot_spec, Z.bits_0 by lia.
    destruct (Z.testbit 1 k); by rewrite ?andb_false_r.
Qed.

(** The byte with the priority and the wish for membership messages. *)
Lemma flags_byte (p m : bool) :
  let c := s8 (Z.lor (Z.shiftl (cbool p) 4) (cbool m)) in Z.quot c 16 = cbool p /\ (Z.rem c 2 =? 1) = m.
Proof. destruct p, m; split; reflexivity. Qed.

Lemma read_connect_spec (rnums ks : list Z) (name : list Z) (priority group_membership k1 k2 k3 k4 : Z) (w : sess_world) :
  table_ok (ss w) l -> legal_name MAX_PRIVATE_NAME name -> Forall (fun k => 10 <= k) [k1; k2; k3; k4] ->
  fed mbox (k1 :: k2 :: k3 :: k4 :: ks) (connect_bytes (Some name) priority group_membership) w ->
  wp (read_connect rnums mbox)
    (fun c w' => asks_for name priority group_membership (ses (ss w') NEW) /\
       match c with
       | Some (t, v) => (name ∉ names (ss w) l) /\ v = (SP_MAJOR_VERSION, SP_MINOR_VERSION, SP_PATCH_VERSION)
       | None => name ∈ names (ss w) l
       end) never w.
Proof.
  intros Ht Hn Hks Hf. inversion Hks as [|? ? Hk1 Hks1]; subst. inversion Hks1 as [|? ? Hk2 Hks2]; subst.
  inversion Hks2 as [|? ? Hk3 Hks3]; subst. inversion Hks3 as [|? ? Hk4 _]; subst.
  pose proof Hn as [[Hn0 Hn1] Hlegal]. change MAX_PRIVATE_NAME with 10 in Hn1.
  assert (Hcb : connect_bytes (Some name) priority group_membership =
    [5; 0] ++ [1] ++ [Z.lor (Z.shiftl (cbool (1 <=? priority)) 4) (cbool (negb (group_membership =? 0))); Z.of_nat (length name)] ++ name).
  { unfold connect_bytes. cbn [default from_option id]. rewrite (take_ge name) by (change MAX_PRIVATE_NAME with 10; lia). done. }
  rewrite Hcb in Hf. unfold read_connect, read_version. apply wp_bind, wp_bind.
  eapply wp_mono; [apply (recv_fed mbox 2 k1 _ [5; 0] _ w Hf); [lia|done|by left]| |done].
  intros [r bs] w1 (-> & -> & Hf1 & Hs1 & Hv1). change (s8 (get_byte [5; 0] 0)) with 5. change (s8 (get_byte [5; 0] 1)) with 0. cbn [length Z.of_nat Pos.of_succ_nat Pos.succ Z.eqb Pos.eqb negb].
  change (31400 <? version_number (5, 0, 0)) with true. cbn iota.
  apply wp_bind. eapply wp_mono; [apply (recv_fed mbox 1 k2 _ [1] _ w1 Hf1); [lia|done|by left]| |done].
  intros [r bs] w2 (-> & -> & Hf2 & Hs2 & Hv2). change (s8 (get_byte [1] 0)) with 1. cbn [length Z.of_nat Pos.of_succ_nat Z.eqb Pos.eqb negb].
  apply wp_ret. change (version_number (5, 0, 1) <? 30100) with false. cbn iota. apply wp_bind, wp_modify.
  set (w3 := mkSessWorld _ _ _). set (fl := Z.lor _ _) in *.
  apply wp_bind. eapply wp_mono; [apply (recv_fed mbox 2 k3 _ [fl; Z.of_nat (length name)] name w3 Hf2); [lia|done|by left]| |done].
  intros [r bs] w4 (-> & -> & Hf4 & Hs4 & Hv4). change (get_byte [fl; Z.of_nat (length name)] 0) with fl. change (get_byte [fl; Z.of_nat (length name)] 1) with (Z.of_nat (length name)).
  cbn [length Z.of_nat Pos.of_succ_nat Pos.succ Z.eqb Pos.eqb negb].
  destruct (flags_byte (1 <=? priority) (negb (group_membership =? 0))) as [Hq Hr]. fold fl in Hq, Hr.
  apply wp_bind, wp_modify, wp_bind, wp_modify. set (w6 := mkSessWorld _ _ _).
  assert (Hs8 : s8 (Z.of_nat (length name)) = Z.of_nat (length name)) by (unfold s8; rewrite Z.mod_small; lia).
  rewrite Hs8. change MAX_PRIVATE_NAME with 10 at 1. rewrite (proj2 (Z.ltb_ge 10 _)), (proj2 (Z.ltb_ge _ 0)) by lia. cbn [orb].
  apply wp_bind, wp_modify. rewrite (proj2 (Z.eqb_neq _ 0)) by lia. set (w7 := mkSessWorld _ _ _). apply wp_bind.
  assert (Hf7 : fed mbox (k4 :: ks) (name ++ []) w7) by (rewrite app_nil_r; exact Hf4).
  unfold read_name. apply wp_bind. change MAX_PRIVATE_NAME with 10 at 1.
  eapply wp_mono; [apply (recv_fed mbox 10 k4 _ name [] w7 Hf7); [lia|by intros ->|by right]| |done].
  intros [r bs] w8 (-> & -> & Hf8 & Hs8' & Hv8). rewrite (proj2 (Z.ltb_ge _ 0)), Z.eqb_refl by lia. cbn [negb].
  apply wp_bind, wp_modify. set (w9 := mkSessWorld _ _ _). rewrite Hlegal. cbn [negb].
  assert (Hnew : asks_for name priority group_membership (ses (ss w9) NEW)).
  { unfold w9. cbn [ss]. rewrite ses_upd, decide_True, Hs8' by done. unfold w7, w6, w3. cbn [ss]. rewrite !ses_upd, !decide_True by done. rewrite Hs4. unfold w3. cbn [ss].
    rewrite ses_upd, decide_True by done. constructor; cbn; [by eapply legal_cstr|done|done|]. rewrite Hr. apply memb_bit. }
  assert (Hoth : forall j, j <> NEW -> ses (ss w9) j = ses (ss w) j).
  { intros j Hj. unfold w9. cbn [ss]. rewrite ses_upd, decide_False, Hs8' by done. unfold w7, w6. cbn [ss]. rewrite !ses_upd, !decide_False, Hs4 by done.
    unfold w3. cbn [ss]. rewrite ses_upd, decide_False by done. by rewrite Hs2, Hs1. }
  assert (Ht9 : table_ok (ss w9) l).
  { apply (table_same_in (ss w)); [intros j Hj; by rewrite Hoth| |done]. change (table_vars (ss w9)) with (table_vars (ss w8)). rewrite Hv8.
    change (table_vars (ss w7)) with (table_vars (ss w4)). rewrite Hv4. change (table_vars (ss w3)) with (table_vars (ss w2)). congruence. }
  apply wp_bind, wp_get, wp_bind. destruct (unique_split (ss w9) l (s_name (ses (ss w9) NEW)) Ht9) as (u & t & l1 & l2 & Hu & _ & _ & Huq & _).
  unfold wp at 1, lift. rewrite Hu. rewrite (af_name _ _ _ _ Hnew) in Huq.
  assert (Hnames : names (ss w9) l = names (ss w) l).
  { apply names_ext. intros j Hj. rewrite Hoth; [done|]. intros ->. destruct Ht as [_ (f & _ & Hp) _ _ _ _].
    assert (Hin : NEW ∈ l ++ f) by (apply elem_of_app; by left). rewrite Hp in Hin. apply elem_of_seqZ in Hin. lia. }
  rewrite Hnames in Huq. destruct u; cbn [negb].
  - apply wp_ret, wp_ret. split; [done|]. split; [by apply Huq|done].
  - unfold reject. apply wp_bind, wp_bind. eapply wp_mono; [apply (send_out mbox)| |done]. intros [] w10 Hout. apply wp_modify, wp_ret, wp_ret. cbn [ss].
    split; [|].
    + change (ses (set_so_closed _ (ss w10)) NEW) with (ses (ss w10) NEW). by rewrite (out_ses w9 w10).
    + destruct (decide (name ∈ names (ss w) l)) as [?|Hno]; [done|]. by apply Huq in Hno.
Qed.
End read.

(* --------------------------------------------------------------------- *)
(** ** The client reads the answers *)

(** Every round of a loop gives bytes, and there are [n] rounds. *)
Definition flows (n : Z) (l : list nb_result) : Prop := Forall (fun r => exists k, r = Nb_ret k /\ 0 < k) l /\ n <= Z.of_nat (length l).

Lemma flows_le (m n : Z) l : flows n l -> m <= n -> flows m l.
Proof. intros [Hf Hn] Hm. split; [done|lia]. Qed.

Section client.
Context (timed : bool).
Implicit Types (w : hs_state) (xs rest bs : list Z).

Lemma recv_flows l : forall (n : Z) xs rest bs w, flows n l -> hs_in w = xs ++ rest -> Z.of_nat (length xs) = n -> hs_recv w = l ->
  exists l', recv_nb l timed n bs w = Done (0, bs ++ xs) (set_hs_in rest (set_hs_recv l' w)) /\
    forall m, flows (n + m) l -> flows m l'.
Proof.
  induction l as [|r l IH]; intros n xs rest bs w [Hf Hn] Hin Hl Hw.
  - destruct xs; [|cbn in *; lia]. cbn in Hl. subst n. exists []. rewrite app_nil_r. split; [|intros m; by rewrite Z.add_0_l].
    destruct w. cbn in *. by subst.
  - inversion Hf as [|? ? (k & -> & Hk) Hf']; subst. cbn [recv_nb]. destruct xs as [|x xs].
    { cbn [length Z.of_nat Z.leb Z.compare]. exists (Nb_ret k :: l). rewrite app_nil_r. split; [|intros m; by rewrite Z.add_0_l].
      destruct w. cbn in *. by subst. }
    set (ys := x :: xs) in *. assert (Hy : 0 < Z.of_nat (length ys)) by (cbn; lia). rewrite (proj2 (Z.leb_gt _ 0)) by done.
    unfold bind at 1. cbn [modify]. rewrite (proj2 (Z.leb_gt k 0)) by done. unfold bind at 1. cbn [get]. change (hs_in (set_hs_recv l w)) with (hs_in w).
    rewrite Hin. set (zs := take (Z.to_nat (Z.min k (Z.of_nat (length ys)))) (ys ++ rest)).
    assert (Hz : zs = take (Z.to_nat (Z.min k (Z.of_nat (length ys)))) ys) by (unfold zs; by rewrite take_app_le by lia).
    assert (Hzl : (0 < length zs <= length ys)%nat) by (rewrite Hz, length_take; lia).
    assert (Hyz : ys = zs ++ drop (length zs) ys).
    { rewrite Hz at 1. rewrite <- (take_drop (Z.to_nat (Z.min k (Z.of_nat (length ys)))) ys) at 1. f_equal. f_equal. rewrite Hz, length_take. lia. }
    unfold bind at 1. cbn [modify].
    destruct (IH (Z.of_nat (length ys) - Z.of_nat (length zs)) (drop (length zs) ys) rest (bs ++ zs)
      (set_hs_in (drop (length zs) (ys ++ rest)) (set_hs_recv l w))) as (l' & Hrun & Hfl).
    + split; [done|]. cbn [length] in Hn. lia.
    + change (drop (length zs) (ys ++ rest) = drop (length zs) ys ++ rest). apply drop_app_le. lia.
    + rewrite length_drop. lia.
    + done.
    + exists l'. rewrite Hrun, <- app_assoc, <- Hyz. split; [done|]. intros m [Hg Hm]. apply Hfl. split; [done|]. cbn [length] in Hm. lia.
Qed.

Lemma recv_run (n : Z) xs rest w : flows n (hs_recv w) -> hs_in w = xs ++ rest -> Z.of_nat (length xs) = n ->
  exists l', recv_n_nointr_nb timed n w = Done (0, xs) (set_hs_in rest (set_hs_recv l' w)) /\ forall m, flows (n + m) (hs_recv w) -> flows m l'.
Proof. intros Hf Hin Hl. apply (recv_flows (hs_recv w) n xs rest [] w Hf Hin Hl eq_refl). Qed.

Lemma send_flows l : forall bs w, flows (Z.of_nat (length bs)) l -> hs_send w = l ->
  exists l', send_nb l timed bs w = Done 0 (set_hs_out (hs_out w ++ bs) (set_hs_send l' w)) /\ forall m, flows (Z.of_nat (length bs) + m) l -> flows m l'.
Proof.
  induction l as [|r l IH]; intros bs w [Hf Hn] Hw.
  - destruct bs; [|cbn in *; lia]. exists []. rewrite app_nil_r. split; [|intros m; by rewrite Z.add_0_l]. destruct w. cbn in *. by subst.
  - inversion Hf as [|? ? (k & -> & Hk) Hf']; subst. destruct bs as [|b bs].
    { exists (Nb_ret k :: l). rewrite app_nil_r. split; [|intros m; by rewrite Z.add_0_l]. destruct w. cbn in *. by subst. }
    cbn [send_nb]. set (ys := b :: bs) in *. unfold bind at 1. cbn [modify]. rewrite (proj2 (Z.leb_gt k 0)) by done. unfold bind at 1. cbn [modify].
    assert (Hdl : (length (drop (Z.to_nat k) ys) < length ys)%nat) by (rewrite length_drop; unfold ys; cbn; lia). clearbody ys.
    destruct (IH (drop (Z.to_nat k) ys) (set_hs_out (hs_out (set_hs_recv (hs_recv w) (set_hs_send l w)) ++ take (Z.to_nat k) ys) (set_hs_send l w))) as (l' & Hrun & Hfl).
    + split; [done|]. cbn [length] in Hn. lia.
    + done.
    + exists l'. cbn in Hrun |- *. rewrite Hrun. rewrite <- app_assoc, take_drop. split; [done|]. intros m [Hg Hm]. apply Hfl. split; [done|]. cbn [length] in Hm. lia.
Qed.

Lemma send_run bs w : flows (Z.of_nat (length bs)) (hs_send w) ->
  exists l', send_n_nointr_nb timed bs w = Done 0 (set_hs_out (hs_out w ++ bs) (set_hs_send l' w)) /\
    forall m, flows (Z.of_nat (length bs) + m) (hs_send w) -> flows m l'.
Proof. intros Hf. by apply (send_flows (hs_send w) bs w). Qed.
Lemma s8_small (k : Z) : 0 <= k < 128 -> s8 k = k.
Proof. intros Hk. unfold s8. rewrite Z.mod_small; lia. Qed.

(** A choice the daemon allows, of methods that say yes. *)
Definition allowed_method (allowed : list Z) (m : auth_method_info) : Prop :=
  ai_name m ∈ split_words (cstr allowed) /\ forall w, exists r, ai_authenticate m w = Done r w /\ r <> 0.

Lemma allowed_valid allowed l : Forall (allowed_method allowed) l -> Z.of_nat (length allowed) < MAX_AUTH_NAME * MAX_AUTH_METHODS ->
  all_valid l allowed = inr true.
Proof.
  intros Hl Hn. induction Hl as [|m l [Hm _] Hl IH]; [done|]. cbn [all_valid]. unfold valid_auth_method. rewrite (proj2 (Z.leb_gt _ _)) by done.
  cbn [rbind]. rewrite (proj2 (existsb_exists _ _)); [done|]. exists (ai_name m). split; [by apply list_elem_of_In|]. rewrite strcmp_refl. done.
Qed.
Lemma allowed_run allowed l w : Forall (allowed_method allowed) l -> run_all l w = Done false w.
Proof.
  intros Hl. revert w. induction Hl as [|m l [_ Hm] Hl IH]; intros w; [done|]. cbn [run_all]. destruct (Hm w) as (r & Hr & Hnz).
  unfold bind. rewrite Hr, IH. by rewrite (proj2 (Z.eqb_neq r 0)).
Qed.

(** What the daemon writes to a client it accepts. *)
Definition accept_bytes (pg : list Z) : list Z :=
  [u8 ACCEPT_SESSION; u8 SP_MAJOR_VERSION; u8 SP_MINOR_VERSION; u8 SP_PATCH_VERSION; u8 (Z.of_nat (length pg))] ++ pg.

Lemma no_nul_cstr s : Forall (fun c => c <> 0) s -> cstr (s ++ [0]) = s.
Proof. intros Hs. induction Hs as [|c s Hc Hs IH]; [done|]. cbn. rewrite (proj2 (Z.eqb_neq _ _) Hc). by rewrite IH. Qed.

Lemma answer_spec (priority : Z) (pg rest : list Z) w :
  Forall (fun c => c <> 0) pg -> Z.of_nat (length pg) < MAX_GROUP_NAME ->
  hs_in w = accept_bytes pg ++ rest -> flows (5 + Z.of_nat (length pg)) (hs_recv w) ->
  exists l', read_answer timed priority w = Done (ACCEPT_SESSION, pg) (set_hs_in rest (set_hs_recv l' w)).
Proof.
  intros Hpg Hlen Hin Hf. unfold read_answer, accept_bytes in *. set (hd := [_; _; _; _; _]) in *. rewrite <- app_assoc in Hin.
  destruct (recv_run 5 hd (pg ++ rest) w) as (l1 & H1 & Hf1); [apply (flows_le _ _ _ Hf); lia|done|done|].
  unfold bind at 1. rewrite H1. change (s8 (get_byte hd 0)) with 1. change (s8 (get_byte hd 1)) with 5. change (s8 (get_byte hd 2)) with 0.
  change (s8 (get_byte hd 3)) with 1. change (get_byte hd 4) with (u8 (Z.of_nat (length pg))).
  assert (Hs : s8 (u8 (Z.of_nat (length pg))) = Z.of_nat (length pg)).
  { change MAX_GROUP_NAME with 32 in Hlen. unfold u8. rewrite Z.mod_small by lia. apply s8_small. lia. }
  rewrite Hs. change (truth 0) with false. change (1 =? ACCEPT_SESSION) with true. cbn [negb orb Z.ltb Z.compare].
  rewrite (proj2 (Z.ltb_ge _ 0)), (proj2 (Z.leb_gt _ _)) by lia. cbn [orb]. rewrite andb_false_r. cbn [andb]. change (5 <? 3) with false. cbn iota.
  set (w1 := set_hs_in (pg ++ rest) _) in *.
  destruct (recv_run (Z.of_nat (length pg)) pg rest w1) as (l2 & H2 & _); [apply Hf1; exact Hf|done|done|].
  unfold bind at 1. rewrite H2. change (truth 0) with false. exists l2. cbn. by rewrite no_nul_cstr.
Qed.

Lemma exchange_spec methods (name allowed pg rest : list Z) (priority group_membership : Z) w :
  Forall (allowed_method allowed) methods -> 0 < Z.of_nat (length allowed) < MAX_AUTH_NAME * MAX_AUTH_METHODS ->
  Forall (fun c => c <> 0) pg -> Z.of_nat (length pg) < MAX_GROUP_NAME ->
  hs_in w = [u8 (Z.of_nat (length allowed))] ++ allowed ++ accept_bytes pg ++ rest ->
  flows (6 + Z.of_nat (length allowed) + Z.of_nat (length pg)) (hs_recv w) ->
  flows (Z.of_nat (length (connect_bytes (Some name) priority group_membership)) + 90) (hs_send w) ->
  exists w', connect_exchange timed methods (Some name) priority group_membership w = Done (ACCEPT_SESSION, pg) w' /\
    hs_out w' = hs_out w ++ connect_bytes (Some name) priority group_membership ++ auth_choice methods /\
    hs_in w' = rest /\ hs_closed w' = hs_closed w.
Proof.
  intros Hm Ha Hpg Hlen Hin Hr Hs. set (cb := connect_bytes _ _ _) in *. unfold connect_exchange. fold cb.
  destruct (send_run cb w) as (s1 & H1 & Hf1); [apply (flows_le _ _ _ Hs); lia|].
  unfold bind at 1. rewrite H1. change (truth 0) with false. cbn iota. apply Hf1 in Hs. clear Hf1.
  set (w1 := set_hs_out _ _). change (hs_recv w) with (hs_recv w1) in Hr. change (hs_in w) with (hs_in w1) in Hin.
  destruct (recv_run 1 _ _ w1 ltac:(apply (flows_le _ _ _ Hr); lia) Hin eq_refl) as (l2 & H2 & Hf2).
  unfold bind at 1. rewrite H2. change (truth 0) with false.
  assert (Hs8 : s8 (get_byte [u8 (Z.of_nat (length allowed))] 0) = Z.of_nat (length allowed)).
  { change (get_byte [u8 (Z.of_nat (length allowed))] 0) with (u8 (Z.of_nat (length allowed))).
    change (MAX_AUTH_NAME * MAX_AUTH_METHODS) with 90 in Ha. unfold u8. rewrite Z.mod_small by lia. apply s8_small. lia. }
  rewrite Hs8, (proj2 (Z.ltb_ge _ 0)), (proj2 (Z.ltb_ge _ _)) by lia. cbn iota.
  set (w2 := set_hs_in _ _).
  assert (Hr2 : flows (Z.of_nat (length allowed) + (5 + Z.of_nat (length pg))) l2).
  { apply Hf2. apply (flows_le _ _ _ Hr). lia. }
  destruct (recv_run (Z.of_nat (length allowed)) allowed (accept_bytes pg ++ rest) w2) as (l3 & H3 & Hf3);
    [apply (flows_le _ _ _ Hr2); lia|done|done|].
  unfold bind at 1. rewrite H3. change (truth 0) with false. cbn iota.
  unfold bind at 1, lift. rewrite (allowed_valid allowed) by (done || lia). cbn [negb].
  set (w3 := set_hs_in _ _).
  assert (Hc : Z.of_nat (length (auth_choice methods)) = 90) by (unfold auth_choice; rewrite length_resize; done).
  destruct (send_run (auth_choice methods) w3) as (s4 & H4 & _); [rewrite Hc; apply Hs|].
  unfold bind at 1. rewrite H4. change (truth 0) with false. cbn iota. unfold bind at 1. rewrite (allowed_run allowed) by done. cbn iota.
  set (w4 := set_hs_out _ _).
  destruct (answer_spec priority pg rest w4 Hpg Hlen eq_refl) as (l5 & H5); [apply Hf3, Hr2|].
  rewrite H5. eexists. split; [done|]. cbn. rewrite <- app_assoc. done.
Qed.
End client.

(* --------------------------------------------------------------------- *)
(** ** The daemon writes what the client expects *)

Section answer.
Context (mbox : Z).

(** The calls to [send] to come take all of [n] bytes. *)
Definition takes_all (n : Z) (calls : nat) (w : sess_world) : Prop := Forall (fun k => n <= k) (so_send (ss w)) /\ (calls <= length (so_send (ss w)))%nat.

Lemma send_all n calls (bs : list Z) w : takes_all n (S calls) w -> 0 <= Z.of_nat (length bs) <= n ->
  wp (send_bytes mbox bs) (fun _ w' => out_bytes (ss w') mbox = out_bytes (ss w) mbox ++ bs /\ takes_all n calls w') never w.
Proof.
  intros [Hk Hl] Hn. unfold send_bytes, send. destruct (so_send (ss w)) as [|k ks] eqn:Hs; [cbn in Hl; lia|].
  inversion Hk as [|? ? Hk1 Hks]; subst. apply wp_bind, wp_bind, wp_get. rewrite Hs. cbn [next_result head from_option id].
  apply wp_bind, wp_modify. rewrite (proj2 (Z.ltb_ge k 0)), take_ge by lia. apply wp_bind, wp_modify, wp_ret, wp_ret. cbn [ss].
  split; [unfold out_bytes; cbn; by rewrite lookup_insert_eq|]. split; cbn; rewrite Hs; [done|cbn in Hl |- *; lia].
Qed.

Lemma accept_writes (r : session) (proc_name : list Z) w : s_mbox r = mbox -> s_lib_version r = (SP_MAJOR_VERSION, SP_MINOR_VERSION, SP_PATCH_VERSION) ->
  takes_all MAX_GROUP_NAME 6 w ->
  wp (accept_message r proc_name) (fun _ w' => out_bytes (ss w') mbox = out_bytes (ss w) mbox ++ accept_bytes (private_group (s_name r) proc_name)) never w.
Proof.
  intros Hm Hv Hw. unfold accept_message. rewrite Hm, Hv. cbv zeta. set (pg := private_group _ _).
  assert (Hpg : Z.of_nat (length pg) <= MAX_GROUP_NAME) by (unfold pg, private_group; rewrite length_take; change MAX_GROUP_NAME with 32; lia).
  change (31500 <=? version_number (SP_MAJOR_VERSION, SP_MINOR_VERSION, SP_PATCH_VERSION)) with true. cbn [when].
  assert (Hone : forall (b : Z), 0 <= Z.of_nat (length [b]) <= MAX_GROUP_NAME) by (intros b; split; discriminate).
  do 5 (apply wp_bind; eapply wp_mono; [eapply send_all; [eassumption|apply Hone]| |done]; clear Hw; cbn beta; intros [] ? [? Hw]).
  eapply wp_mono; [eapply send_all; [exact Hw|lia]| |done]. cbn beta. intros [] w' [Hout _].
  rewrite Hout. repeat match goal with H : out_bytes _ _ = _ |- _ => rewrite H; clear H end. unfold accept_bytes. by rewrite <- !app_assoc.
Qed.
End answer.

Lemma private_group_no_nul name proc_name : legal_name MAX_PRIVATE_NAME name -> legal_name (MAX_PROC_NAME - 1) proc_name ->
  Forall (fun c => c <> 0) (private_group name proc_name) /\ Z.of_nat (length (private_group name proc_name)) < MAX_GROUP_NAME.
Proof.
  intros Hn Hp. rewrite private_group_short by done. split.
  - constructor; [done|]. apply Forall_app. split; [by eapply legal_name_no_nul|]. constructor; [done|by eapply legal_name_no_nul].
  - destruct Hn as [Hn _], Hp as [Hp _]. change MAX_GROUP_NAME with 32. change MAX_PRIVATE_NAME with 10 in Hn. change MAX_PROC_NAME with 20 in Hp.
    cbn [length]. rewrite length_app. cbn [length]. lia.
Qed.

(** C26: client and daemon agree on a connection.  For a legal private name:
    the daemon reads the first message of the client as a session with this
    name, the version of the library, the priority and the wish for membership
    messages of the call, and goes on exactly when the name is free; what it
    writes when it accepts is the version and the private group; and a client
    that chooses allowed methods returns success with this private group,
    having written its message and its choice and read no byte more. *)
Theorem handshake (timed : bool) (a : acm) (methods : list auth_method_info) (name proc_name : list Z) (priority group_membership mbox : Z) :
  legal_name MAX_PRIVATE_NAME name -> legal_name (MAX_PROC_NAME - 1) proc_name ->
  let pg := private_group name proc_name in
  let allowed := Acm_auth_get_allowed_list a in
  (forall l rnums ks k1 k2 k3 k4 w, table_ok (ss w) l -> Forall (fun k => 10 <= k) [k1; k2; k3; k4] ->
    fed mbox (k1 :: k2 :: k3 :: k4 :: ks) (connect_bytes (Some name) priority group_membership) w ->
    wp (read_connect rnums mbox)
      (fun c w' => asks_for name priority group_membership (ses (ss w') NEW) /\
         match c with
         | Some (t, v) => (name ∉ names (ss w) l) /\ v = (SP_MAJOR_VERSION, SP_MINOR_VERSION, SP_PATCH_VERSION)
         | None => name ∈ names (ss w) l
         end) never w) /\
  (forall r w, asks_for name priority group_membership r -> s_mbox r = mbox -> takes_all MAX_GROUP_NAME 6 w ->
    wp (accept_message r proc_name) (fun _ w' => out_bytes (ss w') mbox = out_bytes (ss w) mbox ++ accept_bytes pg) never w) /\
  (forall rest h, Forall (allowed_method allowed) methods -> 0 < Z.of_nat (length allowed) < MAX_AUTH_NAME * MAX_AUTH_METHODS ->
    hs_in h = [u8 (Z.of_nat (length allowed))] ++ allowed ++ accept_bytes pg ++ rest ->
    flows (6 + Z.of_nat (length allowed) + Z.of_nat (length pg)) (hs_recv h) ->
    flows (Z.of_nat (length (connect_bytes (Some name) priority group_membership)) + 90) (hs_send h) ->
    exists h', connect_exchange timed methods (Some name) priority group_membership h = Done (ACCEPT_SESSION, pg) h' /\
      hs_out h' = hs_out h ++ connect_bytes (Some name) priority group_membership ++ auth_choice methods /\
      hs_in h' = rest /\ hs_closed h' = hs_closed h).
Proof.
  intros Hn Hp pg allowed. destruct (private_group_no_nul name proc_name Hn Hp) as [Hnul Hlen]. split; [|split].
  - intros l rnums ks k1 k2 k3 k4 w Ht Hk Hf. by apply (read_connect_spec mbox l rnums ks name priority group_membership k1 k2 k3 k4).
  - intros r w [Hrn Hrv _ _] Hm Hw. unfold pg. rewrite <- Hrn. by apply accept_writes.
  - intros rest h Hm Ha Hin Hr Hs. by apply (exchange_spec timed methods name allowed pg rest).
Qed.

(** A client [bob] that takes the default method, beside the session [ana]. *)
Definition bob : list Z := str_bytes "bob".
Definition bob_asks : sess_world :=
  mkSessWorld (set_so_recv [10; 10; 10; 10] (set_so_in {[9 := connect_bytes (Some bob) 1 1]} (ss asked_client))) sample_world no_groups.
Definition bob_group : list Z := private_group bob (str_bytes "host1").
Definition bob_exchange : hs_state :=
  mkHsState ([5] ++ str_bytes "NULL " ++ accept_bytes bob_group ++ [77]) [] (replicate 40 (Nb_ret 3)) (replicate 110 (Nb_ret 7)) false.
Lemma repeat_flows (n : Z) m k : 0 < k -> n <= Z.of_nat m -> flows n (replicate m (Nb_ret k)).
Proof.
  intros Hk Hm. split; [|by rewrite length_replicate]. apply Forall_forall. intros r [-> _]%elem_of_replicate. by exists k.
Qed.

Lemma bob_table : table_ok (ss bob_asks) [996].
Proof.
  destruct asked_ok as [Hok _]. unfold bob_asks. cbn [ss]. revert Hok. generalize (ss asked_client). intros s Hok.
  eapply (table_same s); [intros j; reflexivity|reflexivity|exact Hok].
Qed.

Lemma handshake_witness :
  wp (read_connect [] 9) (fun c w' => asks_for bob 1 1 (ses (ss w') NEW) /\
       match c with
       | Some (t, v) => (bob ∉ names (ss bob_asks) [996]) /\ v = (SP_MAJOR_VERSION, SP_MINOR_VERSION, SP_PATCH_VERSION)
       | None => bob ∈ names (ss bob_asks) [996]
       end) never bob_asks /\
  exists h', connect_exchange true default_methods (Some bob) 1 1 bob_exchange = Done (ACCEPT_SESSION, bob_group) h' /\
    hs_out h' = (connect_bytes (Some bob) 1 1 ++ auth_choice default_methods) /\ hs_in h' = [77] /\ hs_closed h' = false.
Proof.
  assert (Hb : legal_name MAX_PRIVATE_NAME bob) by (vm_compute; repeat split; discriminate).
  assert (Hp : legal_name (MAX_PROC_NAME - 1) (str_bytes "host1")) by (vm_compute; repeat split; discriminate).
  destruct (handshake true sample_acm default_methods bob (str_bytes "host1") 1 1 9 Hb Hp) as (Hread & _ & Hclient). split.
  - apply (Hread [996] [] [] 10 10 10 10).
    + exact bob_table.
    + repeat constructor; vm_compute; discriminate.
    + split; [reflexivity|]. unfold in_bytes, bob_asks. cbn [ss]. cbn [so_in set_so_in set_so_recv]. by rewrite lookup_singleton_eq.
  - apply (Hclient [77] bob_exchange).
    + constructor; [|constructor]. split; [vm_compute; by left|]. intros w. by exists 1.
    + vm_compute. by split.
    + vm_compute. reflexivity.
    + apply repeat_flows; vm_compute; [reflexivity|discriminate].
    + apply repeat_flows; vm_compute; [reflexivity|discriminate].
Defined.
