(* ===== verification/HashTable.v ===== *)
(** * Hash tables ([stdutil/src/stdhash.c], hash codes and powers of two of
      [stdutil.c])

    An open-addressing table with double hashing: the low bits of the hash code
    of a key say where its probe sequence starts, the high bits, made odd, the
    stride.  An erased node stays as a placeholder, inactive, until the table
    is rehashed; keys need not be unique.

    A table is a block of memory; a hash numbers the blocks it has had, and an
    iterator points into one of them, so that one left behind by a rehash is
    seen to point to a freed block.  A node belongs to one position of one
    table and is held there.  The results of [malloc] and [calloc] are an
    input. *)

From Stdlib Require Import ZArith Lia.
From stdpp Require Import base strings numbers option list.
From S2P Require Import Prelude.

(* --------------------------------------------------------------------- *)
(** ** Hash codes *)

Definition byte_at (b : list Z) (i : nat) : Z := default 0 (b !! i).
Definition stdhcode_sfh_get16bits (b : list Z) : Z := Z.lor (Z.shiftl (byte_at b 1) 8) (byte_at b 0).

(** The main mixing loop, four bytes a turn; [n] turns. *)
Fixpoint sfh_loop (n : nat) (kit : list Z) (ret : Z) : list Z * Z :=
  match n with
  | O => (kit, ret)
  | S n =>
      let ret := u32 (ret + stdhcode_sfh_get16bits kit) in
      let tmp := Z.lxor (u32 (Z.shiftl (stdhcode_sfh_get16bits (drop 2 kit)) 11)) ret in
      let ret := Z.lxor (u32 (Z.shiftl ret 16)) tmp in
      let kit := drop 4 kit in
      sfh_loop n kit (u32 (ret + Z.shiftr ret 11))
  end.
Definition sfh_xor (ret s : Z) : Z := Z.lxor ret (u32 (Z.shiftl ret s)).
Definition sfh_add (ret s : Z) : Z := u32 (ret + Z.shiftr ret s).

Definition stdhcode_sfh (buf : list Z) : Z :=
  let buf_len := Z.of_nat (length buf) in
  let '(kit, ret) := sfh_loop (Z.to_nat (Z.shiftr buf_len 2)) buf (u32 buf_len) in
  let r := Z.land buf_len 3 in
  let ret :=
    if r =? 3 then
      let ret := sfh_xor (u32 (ret + stdhcode_sfh_get16bits kit)) 16 in
      sfh_add (Z.lxor ret (Z.shiftl (byte_at kit 2) 18)) 11
    else if r =? 2 then sfh_add (sfh_xor (u32 (ret + stdhcode_sfh_get16bits kit)) 11) 17
    else if r =? 1 then sfh_add (sfh_xor (u32 (ret + byte_at kit 0)) 10) 1
    else ret in
  sfh_add (sfh_xor (sfh_add (sfh_xor (sfh_add (sfh_xor ret 3) 5) 4) 17) 25) 6.

(* --------------------------------------------------------------------- *)
(** ** Powers of two *)

(** [for (ret = 0; x != 0x1; x >>= 1, ++ret)], for [x] of at most [n + 1] bits. *)
Fixpoint lg_loop (n : nat) (x ret : Z) : Z :=
  match n with
  | O => ret
  | S n => if x =? 1 then ret else lg_loop n (Z.shiftr x 1) (ret + 1)
  end.
Definition stdlg_down (x : Z) : Z := if x =? 0 then u32 (-1) else lg_loop 64 x 0.
Definition stdlg_up (x : Z) : Z :=
  if x =? 1 then 0
  else if x =? 0 then u32 (-1)
  else u32 (stdlg_down (x - 1) + 1).

(** A shift of a 64-bit integer by 64 is undefined. *)
Definition stdpow2_up (x : Z) : res Z :=
  if x =? 0 then inr 0
  else if stdlg_up x <? 64 then inr (u64 (Z.shiftl 1 (stdlg_up x)))
  else inl (Undefined "stdpow2_up: shift").
Definition stdpow2_cap (x : Z) : res Z :=
  let? up_pow2 := stdpow2_up x in
  inr (if up_pow2 <? u64 (x + Z.shiftr x 1) then u64 (Z.shiftl up_pow2 1) else up_pow2).

(* --------------------------------------------------------------------- *)
(** ** Data *)

Definition STDEACCES : Z := 13.
Definition STDSIZE_MAX : Z := 2 ^ 64 - 1.
Definition STDHASH_MIN_AUTO_ALLOC : Z := 16.
Definition STDHASH_OPTS_NO_AUTO_GROW : Z := 1.
Definition STDHASH_OPTS_NO_AUTO_SHRINK : Z := 2.

(** [stdhash_node]: the cached hash code, 0 when inactive, and the key and the
    value behind it. *)
Record hnode : Type := mkNode { hcode : Z; nkey : list Z; nval : list Z }.

(** The [NULL] table has no cells. *)
Record stdhash : Type := mkHash {
  h_block : nat;
  table : list (option hnode);
  begin : nat;
  cap_min1 : Z;
  cap_lg : Z;
  num_nodes : Z;
  size : Z;
  ksize : Z;
  vsize : Z;
  cmp_fcn : option (list Z -> list Z -> Z);
  hcode_fcn : option (list Z -> Z);
  opts : Z;
}.
Definition set_counts (t : list (option hnode)) (b : nat) (nodes sz : Z) (h : stdhash) : stdhash :=
  mkHash (h_block h) t b (cap_min1 h) (cap_lg h) nodes sz (ksize h) (vsize h) (cmp_fcn h) (hcode_fcn h) (opts h).
Definition set_table (blk : nat) (t : list (option hnode)) (b : nat) (min1 lg nodes : Z) (h : stdhash) : stdhash :=
  mkHash blk t b min1 lg nodes (size h) (ksize h) (vsize h) (cmp_fcn h) (hcode_fcn h) (opts h).
Definition set_opts (o : Z) (h : stdhash) : stdhash :=
  mkHash (h_block h) (table h) (begin h) (cap_min1 h) (cap_lg h) (num_nodes h) (size h) (ksize h) (vsize h) (cmp_fcn h) (hcode_fcn h) o.
Definition set_ksize (k : Z) (h : stdhash) : stdhash :=
  mkHash (h_block h) (table h) (begin h) (cap_min1 h) (cap_lg h) (num_nodes h) (size h) k (vsize h) (cmp_fcn h) (hcode_fcn h) (opts h).

(** [stdit] of a hash: the position, in its block, and the block it takes for
    the table of its hash. *)
Record stdit : Type := mkIt { it_node : nat * nat; it_table : nat }.

Definition cell (t : list (option hnode)) (p : nat) : res (option hnode) := or_err (Undefined "stdhash: *node_pos") (t !! p).
(** [*node_pos] of an iterator that must be at a node. *)
Definition node_at (t : list (option hnode)) (p : nat) : res hnode :=
  let? c := cell t p in or_err (Undefined "stdhash: NULL node") c.
Definition deref (h : stdhash) (it : stdit) : res hnode :=
  if bool_decide (fst (it_node it) = h_block h) then node_at (table h) (snd (it_node it))
  else inl (Undefined "stdhash: freed table").

(** [STDHASH_POS_EMPTY || STDHASH_POS_INACTIVE]. *)
Definition hole (c : option hnode) : bool :=
  match c with None => true | Some n => hcode n =? 0 end.

(* --------------------------------------------------------------------- *)
(** ** Comparing, hashing, probing *)

(** [memcmp] up to its sign, which the hash does not use. *)
Definition memcmp (k1 k2 : list Z) : Z := if bool_decide (k1 = k2) then 0 else 1.

Definition stdhash_low_cmp (h : stdhash) (k1 k2 : list Z) : Z :=
  match cmp_fcn h with None => memcmp k1 k2 | Some f => f k1 k2 end.
Definition stdhash_low_hcode (h : stdhash) (key : list Z) : Z :=
  let ret := match hcode_fcn h with None => stdhcode_sfh key | Some f => f key end in
  if ret =? 0 then 1 else ret.
Definition stdhash_low_hash (hc min1 lg : Z) : res (nat * nat) :=
  let s := u64 (32 - lg) in
  if s <? 32 then inr (Z.to_nat (Z.land hc min1), Z.to_nat (Z.lor (Z.shiftr hc s) 1))
  else inl (Undefined "stdhash_low_hash: shift").

(** Offset to the next probe position, with wrap around. *)
Definition offset (cap curr h2 : nat) : nat :=
  let c := (curr + h2)%nat in if Nat.leb cap c then (c - cap)%nat else c.

(** [stdhash_low_next] from the position after the current one. *)
Fixpoint next_from (fuel : nat) (t : list (option hnode)) (p : nat) : res nat :=
  match fuel with
  | O => inl (Diverges "stdhash_low_next")
  | S fuel =>
      if Nat.eqb p (length t) then inr p
      else
        let? c := cell t p in
        if hole c then next_from fuel t (S p) else inr p
  end.
Definition stdhash_low_next (t : list (option hnode)) (p : nat) : res nat := next_from (S (length t)) t (S p).
(** [stdhash_low_next( h->table - 1, h->table_end )]. *)
Definition first_active (t : list (option hnode)) : res nat := next_from (S (length t)) t 0.
Fixpoint stdhash_low_prev (t : list (option hnode)) (p : nat) : res nat :=
  match p with
  | O => inl (Undefined "stdhash_low_prev: before the table")
  | S p =>
      let? c := cell t p in
      if hole c then stdhash_low_prev t p else inr p
  end.

Definition stdhash_low_clear (h : stdhash) : stdhash :=
  if num_nodes h =? 0 then h
  else set_counts (replicate (length (table h)) None) (length (table h)) 0 0 h.

Fixpoint probe (fuel : nat) (h : stdhash) (find_match : bool) (key : list Z) (hc : Z) (curr h2 : nat) : res nat :=
  match fuel with
  | O => inl (Diverges "stdhash_low_find")
  | S fuel =>
      let? c := cell (table h) curr in
      match c with
      | None => inr curr
      | Some n =>
          if (if find_match then (hcode n =? hc) && (stdhash_low_cmp h key (nkey n) =? 0) else hcode n =? 0) then inr curr
          else probe fuel h find_match key hc (offset (length (table h)) curr h2) h2
      end
  end.
(** The position found and the hash code of the key. *)
Definition stdhash_low_find (h : stdhash) (find_match : bool) (key : list Z) : res (nat * Z) :=
  let hc := stdhash_low_hcode h key in
  let? '(h1, h2) := stdhash_low_hash hc (cap_min1 h) (cap_lg h) in
  let? p := probe (length (table h)) h find_match key hc h1 h2 in
  inr (p, hc).

(* --------------------------------------------------------------------- *)
(** ** Rehashing *)

(** The first empty position of a probe sequence of the new table. *)
Fixpoint search_empty (fuel : nat) (t : list (option hnode)) (p h2 : nat) : res nat :=
  match fuel with
  | O => inl (Diverges "stdhash_low_rehash")
  | S fuel =>
      let? c := cell t p in
      match c with
      | None => inr p
      | Some _ => search_empty fuel t (offset (length t) p h2) h2
      end
  end.
(** The loop over the old table, [l] what is left of it. *)
Fixpoint move_nodes (l : list (option hnode)) (t : list (option hnode)) (min1 lg : Z) : res (list (option hnode)) :=
  match l with
  | [] => inr t
  | None :: l => move_nodes l t min1 lg
  | Some n :: l =>
      if hcode n =? 0 then move_nodes l t min1 lg
      else
        let? '(h1, h2) := stdhash_low_hash (hcode n) min1 lg in
        let? p := search_empty (length t) t h1 h2 in
        move_nodes l (<[p := Some n]> t) min1 lg
  end.

(** Where the first active node of the new table is. *)
Definition search_begin (sz : Z) (t : list (option hnode)) : res nat :=
  if sz =? 0 then inr (length t) else first_active t.

Definition stdhash_low_rehash (h : stdhash) (request_size : Z) (m : memory) : res (Z * stdhash * memory) :=
  let request_size := Z.max request_size STDHASH_MIN_AUTO_ALLOC in
  let? cap := stdpow2_cap request_size in
  let good_cap := u64 (Z.shiftl cap 1) in
  if (good_cap <? request_size) || (STDSIZE_MAX <? good_cap) then inr (STDENOMEM, h, m)
  else
    let new_cap := good_cap in
    let new_cap_lg := stdlg_up new_cap in
    let new_cap_min1 := u64 (new_cap - 1) in
    let '(ok, m) := if new_cap =? 0 then (true, m) else malloc m in
    if negb ok then inr (STDENOMEM, h, m)
    else
      let? t := move_nodes (table h) (replicate (Z.to_nat new_cap) None) new_cap_min1 new_cap_lg in
      let? b := search_begin (size h) t in
      inr (STDESUCCESS, set_table (S (h_block h)) t b new_cap_min1 new_cap_lg (size h) h, m).

(* --------------------------------------------------------------------- *)
(** ** Sizes and thresholds *)

Definition cap_of (h : stdhash) : Z := u64 (cap_min1 h + 1).
Definition stdhash_size (h : stdhash) : Z := size h.
Definition stdhash_empty (h : stdhash) : bool := size h =? 0.
Definition stdhash_load_lvl (h : stdhash) : Z := num_nodes h.
Definition stdhash_high_thresh (h : stdhash) : Z := Z.shiftr (cap_of h) 1.
Definition stdhash_low_thresh (h : stdhash) : Z := Z.shiftr (cap_of h) 3.
Definition stdhash_max_size (h : stdhash) : Z := Z.shiftr STDSIZE_MAX 2.

(** The table is to shrink: allowed, not at the minimum, fallen to the low
    threshold. *)
Definition must_shrink (h : stdhash) : bool :=
  (Z.land (opts h) STDHASH_OPTS_NO_AUTO_SHRINK =? 0) && negb (cap_of h =? STDHASH_MIN_AUTO_ALLOC) && (size h <=? stdhash_low_thresh h).

Definition stdhash_clear (h : stdhash) (m : memory) : res (stdhash * memory) :=
  let h := stdhash_low_clear h in
  if must_shrink h then let? '(_, h, m) := stdhash_low_rehash h (size h) m in inr (h, m)
  else inr (h, m).
Definition stdhash_reserve (h : stdhash) (num_pairs : Z) (m : memory) : res (Z * stdhash * memory) :=
  if stdhash_high_thresh h <? num_pairs then stdhash_low_rehash h num_pairs m else inr (STDESUCCESS, h, m).
Definition stdhash_rehash (h : stdhash) (m : memory) : res (Z * stdhash * memory) := stdhash_low_rehash h (size h) m.

(* --------------------------------------------------------------------- *)
(** ** Insertion *)

(** What a source iterator yields: its key, if it has one, and its value. *)
Definition src_pair : Type := option (list Z) * list Z.
Definition src_key (x : src_pair) : list Z := match fst x with Some k => k | None => snd x end.
Definition memcpy (n : Z) (src : list Z) : list Z := take (Z.to_nat n) src.

(** The node that the pair is written to: [Some] of the counts it changes to,
    or [None] when there is no memory for a new one. *)
Definition new_node (h : stdhash) (overwrite : bool) (old : option hnode) (m : memory) : option (Z * Z) * memory :=
  match old with
  | None => let '(ok, m) := malloc m in ((if ok then Some (num_nodes h + 1, size h + 1) else None), m)
  | Some _ => (Some (num_nodes h, if overwrite then size h else size h + 1), m)
  end.

(** The body of the loop once the table has room: the result, the position
    written, if any. *)
Definition insert_pair (h : stdhash) (overwrite : bool) (x : src_pair) (m : memory) : res (Z * stdhash * option nat * memory) :=
  let key := src_key x in
  let? '(search, hc) := stdhash_low_find h overwrite key in
  let? old := cell (table h) search in
  match new_node h overwrite old m with
  | (None, m) => inr (STDENOMEM, h, None, m)
  | (Some (nodes, sz), m) =>
      let n := mkNode hc (memcpy (ksize h) key) (memcpy (vsize h) (snd x)) in
      let b := if Nat.ltb search (begin h) then search else begin h in
      inr (STDESUCCESS, set_counts (<[search := Some n]> (table h)) b nodes sz h, Some search, m)
  end.
(** The check of the load factor. *)
Definition make_room (h : stdhash) (hthresh : Z) (m : memory) : res (Z * stdhash * Z * memory) :=
  if hthresh <=? num_nodes h then
    if negb (Z.land (opts h) STDHASH_OPTS_NO_AUTO_GROW =? 0) then inr (STDEACCES, h, hthresh, m)
    else
      let? '(ret, h', m) := stdhash_low_rehash h (u64 (size h + 1)) m in
      if negb (ret =? STDESUCCESS) then inr (ret, h', hthresh, m)
      else inr (STDESUCCESS, h', stdhash_high_thresh h', m)
  else inr (STDESUCCESS, h, hthresh, m).

(** [src] is what the loop takes: the elements from [b] on, up to [e] or
    [num_ins] of them, or the first one [num_ins] times. *)
Fixpoint insert_loop (src : list src_pair) (overwrite : bool) (h : stdhash) (hthresh : Z) (first_ins : option (nat * nat)) (m : memory)
    : res (Z * stdhash * option (nat * nat) * memory) :=
  match src with
  | [] => inr (STDESUCCESS, h, first_ins, m)
  | x :: src =>
      let? '(ret, h, hthresh, m) := make_room h hthresh m in
      if negb (ret =? STDESUCCESS) then inr (ret, h, first_ins, m)
      else
        let? '(ret, h, pos, m) := insert_pair h overwrite x m in
        match pos with
        | None => inr (ret, h, first_ins, m)
        | Some p =>
            let first_ins := match first_ins with None => Some (h_block h, p) | Some _ => first_ins end in
            insert_loop src overwrite h hthresh first_ins m
        end
  end.
(** The iterator that is filled out when one is asked for. *)
Definition stdhash_low_insert (h : stdhash) (src : list src_pair) (overwrite : bool) (m : memory) : res (Z * stdhash * stdit * memory) :=
  let? '(ret, h, first_ins, m) := insert_loop src overwrite h (stdhash_high_thresh h) None m in
  inr (ret, h, mkIt (default (h_block h, length (table h)) first_ins) (h_block h), m).

Definition stdhash_put_seq_n (h : stdhash) (src : list src_pair) (m : memory) := stdhash_low_insert h src true m.
Definition stdhash_insert_seq_n (h : stdhash) (src : list src_pair) (m : memory) := stdhash_low_insert h src false m.
(** With an end instead of a number, [src] is what lies between. *)
Definition stdhash_put_seq (h : stdhash) (src : list src_pair) (m : memory) := stdhash_low_insert h src true m.
Definition stdhash_insert_seq (h : stdhash) (src : list src_pair) (m : memory) := stdhash_low_insert h src false m.
(** [stdit_pptr] over arrays of keys and values. *)
Definition pptr (keys vals : list (list Z)) : list src_pair := zip_with (fun k v => (Some k, v)) keys vals.
Definition stdhash_put_n (h : stdhash) (keys vals : list (list Z)) (m : memory) := stdhash_put_seq_n h (pptr keys vals) m.
Definition stdhash_put (h : stdhash) (key val : list Z) (m : memory) := stdhash_put_n h [key] [val] m.
Definition stdhash_insert_n (h : stdhash) (keys vals : list (list Z)) (m : memory) := stdhash_insert_seq_n h (pptr keys vals) m.
Definition stdhash_insert (h : stdhash) (key val : list Z) (m : memory) := stdhash_insert_n h [key] [val] m.
(** No advance: the same pair every time. *)
Definition stdhash_insert_rep (h : stdhash) (key val : list Z) (num_times : nat) (m : memory) :=
  stdhash_low_insert h (replicate num_times (Some key, val)) false m.

(* --------------------------------------------------------------------- *)
(** ** Making and copying *)

Definition bad_opts (o : Z) : bool := negb (Z.land o (Z.lnot (Z.lor STDHASH_OPTS_NO_AUTO_GROW STDHASH_OPTS_NO_AUTO_SHRINK)) =? 0).
(** [None] for [STDEINVAL]: the hash is left illegal. *)
Definition stdhash_construct (ksize vsize : Z) (kcmp : option (list Z -> list Z -> Z)) (khcode : option (list Z -> Z)) (o : Z) : option stdhash :=
  if (ksize =? 0) || bad_opts o then None
  else Some (mkHash 0 [] 0 (u64 (-1)) (u64 (-1)) 0 0 ksize vsize kcmp khcode o).
Definition stdhash_set_opts (h : stdhash) (o : Z) : Z * stdhash :=
  if bad_opts o then (STDEINVAL, h) else (STDESUCCESS, set_opts o h).

(** The loop that clones the nodes; [None] when memory runs out. *)
Fixpoint clone_nodes (src : list (option hnode)) (m : memory) : option (list (option hnode)) * memory :=
  match src with
  | [] => (Some [], m)
  | None :: src => let '(r, m) := clone_nodes src m in (cons None <$> r, m)
  | Some n :: src =>
      let '(ok, m) := malloc m in
      if ok then
        let '(r, m) := clone_nodes src m in
        (cons (Some n) <$> r, m)
      else (None, m)
  end.
(** A copy has blocks of its own.  On failure it is illegal, with no table,
    and its other fields mean nothing. *)
Definition stdhash_copy_construct (src : stdhash) (m : memory) : Z * stdhash * memory :=
  let fail := set_table 0 [] 0 (cap_min1 src) (cap_lg src) (num_nodes src) (set_ksize 0 src) in
  match table src with
  | [] => (STDESUCCESS, src, m)
  | _ =>
      let '(ok, m) := malloc m in
      if negb ok then (STDENOMEM, fail, m)
      else
        match clone_nodes (table src) m with
        | (None, m) => (STDENOMEM, fail, m)
        | (Some t, m) => (STDESUCCESS, set_table 1 t (begin src) (cap_min1 src) (cap_lg src) (num_nodes src) src, m)
        end
  end.
(** The table is freed and the hash illegal. *)
Definition stdhash_destruct (h : stdhash) : stdhash :=
  let h := stdhash_low_clear h in
  set_ksize 0 (set_table 0 [] (begin h) (cap_min1 h) (cap_lg h) (num_nodes h) h).
Definition stdhash_swap (h1 h2 : stdhash) : stdhash * stdhash := (h2, h1).
(** For two hashes: a copy that fails leaves the destination as it is. *)
Definition stdhash_set_eq (dst src : stdhash) (m : memory) : Z * stdhash * memory :=
  let '(ret, cpy, m) := stdhash_copy_construct src m in
  if ret =? STDESUCCESS then let '(dst, _) := stdhash_swap dst cpy in (ret, dst, m)
  else (ret, dst, m).

(* --------------------------------------------------------------------- *)
(** ** Iterators *)

Definition stdhash_begin (h : stdhash) : stdit := mkIt (h_block h, begin h) (h_block h).
Definition stdhash_end (h : stdhash) : stdit := mkIt (h_block h, length (table h)) (h_block h).
Definition stdhash_is_begin (h : stdhash) (it : stdit) : bool := bool_decide (it_node it = (h_block h, begin h)).
Definition stdhash_is_end (h : stdhash) (it : stdit) : bool := bool_decide (it_node it = (h_block h, length (table h))).
Definition stdhash_it_key (h : stdhash) (it : stdit) : res (list Z) := let? n := deref h it in inr (nkey n).
Definition stdhash_it_val (h : stdhash) (it : stdit) : res (list Z) := let? n := deref h it in inr (nval n).
Definition stdhash_it_eq (it1 it2 : stdit) : bool := bool_decide (it_node it1 = it_node it2).

(** An iterator that walks its table, which must be that of the hash. *)
Definition it_walk (f : list (option hnode) -> nat -> res nat) (h : stdhash) (it : stdit) : res stdit :=
  if bool_decide (fst (it_node it) = h_block h) then
    let? p := f (table h) (snd (it_node it)) in inr (mkIt (h_block h, p) (it_table it))
  else inl (Undefined "stdhash: freed table").
Definition stdhash_it_next : stdhash -> stdit -> res stdit := it_walk stdhash_low_next.
Definition stdhash_it_prev : stdhash -> stdit -> res stdit := it_walk stdhash_low_prev.
Fixpoint stdhash_it_advance (h : stdhash) (it : stdit) (num_advance : nat) : res stdit :=
  match num_advance with
  | O => inr it
  | S n => let? it := stdhash_it_next h it in stdhash_it_advance h it n
  end.
Fixpoint stdhash_it_retreat (h : stdhash) (it : stdit) (num_retreat : nat) : res stdit :=
  match num_retreat with
  | O => inr it
  | S n => let? it := stdhash_it_prev h it in stdhash_it_retreat h it n
  end.
Definition stdhash_last (h : stdhash) : res stdit := stdhash_it_prev h (stdhash_end h).
Definition stdhash_get (h : stdhash) (elem_num : Z) : res stdit :=
  if elem_num <=? Z.shiftr (size h) 1 then stdhash_it_advance h (stdhash_begin h) (Z.to_nat elem_num)
  else stdhash_it_retreat h (stdhash_end h) (Z.to_nat (size h - elem_num)).

Definition stdhash_find (h : stdhash) (key : list Z) : res stdit :=
  if size h =? 0 then inr (stdhash_end h)
  else
    let? '(search, _) := stdhash_low_find h true key in
    let? c := cell (table h) search in
    inr (mkIt (h_block h, match c with Some _ => search | None => length (table h) end) (h_block h)).
Definition stdhash_contains (h : stdhash) (key : list Z) : res bool :=
  let? it := stdhash_find h key in inr (negb (stdhash_is_end h it)).

(** The node has the hash code and the key of [n]. *)
Definition same_key (h : stdhash) (c n : hnode) : bool := (hcode c =? hcode n) && (stdhash_low_cmp h (nkey c) (nkey n) =? 0).
Fixpoint keyed_next (fuel : nat) (h : stdhash) (n : hnode) (curr h2 : nat) : res nat :=
  match fuel with
  | O => inl (Diverges "stdhash_keyed_next")
  | S fuel =>
      let curr := offset (length (table h)) curr h2 in
      let? c := cell (table h) curr in
      match c with
      | None => inr (length (table h))
      | Some c => if same_key h c n then inr curr else keyed_next fuel h n curr h2
      end
  end.
Definition stdhash_keyed_next (h : stdhash) (it : stdit) : res stdit :=
  let? n := deref h it in
  let? '(_, h2) := stdhash_low_hash (hcode n) (cap_min1 h) (cap_lg h) in
  let? p := keyed_next (length (table h)) h n (snd (it_node it)) h2 in
  inr (mkIt (h_block h, p) (it_table it)).

(** [curr_pos -= h2], wrapping around in front. *)
Definition offset_back (cap curr h2 : nat) : nat :=
  if Nat.ltb curr h2 then (cap - (h2 - curr))%nat else (curr - h2)%nat.
Fixpoint keyed_prev (fuel : nat) (h : stdhash) (n : hnode) (curr h1 h2 : nat) : res nat :=
  match fuel with
  | O => inl (Diverges "stdhash_keyed_prev")
  | S fuel =>
      if Nat.eqb curr h1 then inr (length (table h))
      else
        let curr := offset_back (length (table h)) curr h2 in
        let? c := node_at (table h) curr in
        if same_key h c n then inr curr else keyed_prev fuel h n curr h1 h2
  end.
Definition stdhash_keyed_prev (h : stdhash) (it : stdit) : res stdit :=
  let? n := deref h it in
  let? '(h1, h2) := stdhash_low_hash (hcode n) (cap_min1 h) (cap_lg h) in
  let? p := keyed_prev (length (table h)) h n (snd (it_node it)) h1 h2 in
  inr (mkIt (h_block h, p) (it_table it)).

(* --------------------------------------------------------------------- *)
(** ** Erasure *)

Definition stdhash_erase (h : stdhash) (it : stdit) (m : memory) : res (stdhash * stdit * memory) :=
  let? n := deref h it in
  let orig_pos := snd (it_node it) in
  let t := <[orig_pos := Some (mkNode 0 (nkey n) (nval n))]> (table h) in
  let? p := stdhash_low_next t orig_pos in
  let b := if Nat.eqb orig_pos (begin h) then p else begin h in
  let h := set_counts t b (num_nodes h) (u64 (size h - 1)) h in
  let it := mkIt (h_block h, p) (it_table it) in
  if must_shrink h then
    let? '(ret, h, m) := stdhash_low_rehash h (size h) m in
    inr (h, if ret =? STDESUCCESS then stdhash_begin h else it, m)
  else inr (h, it, m).

(** One turn erases a pair: [size + 1] turns are enough. *)
Fixpoint erase_key (fuel : nat) (h : stdhash) (key : list Z) (m : memory) : res (stdhash * memory) :=
  match fuel with
  | O => inl (Diverges "stdhash_erase_key")
  | S fuel =>
      let? search := stdhash_find h key in
      if stdhash_is_end h search then inr (h, m)
      else
        let? '(h, _, m) := stdhash_erase h search m in
        erase_key fuel h key m
  end.
Definition stdhash_erase_key (h : stdhash) (key : list Z) (m : memory) : res (stdhash * memory) :=
  erase_key (S (Z.to_nat (size h))) h key m.
