(* ===== verification/HashOk.v ===== *)
(** * Hash tables implement multisets of pairs

    The hash tables of [HashTable] are finite multisets of pairs of a key and a
    value: probing ends, since the stride is odd, the capacity a power of two
    and the table never more than half full; every active node is on the probe
    sequence of its key with no empty position before it; and every operation
    keeps this and does to the multiset what its name says, or says that it
    could not. *)

From Stdlib Require Import ZArith Lia.
From stdpp Require Import base strings numbers option list.
From S2P Require Import Prelude HashTable.

(* --------------------------------------------------------------------- *)
(** ** Probe sequences *)

Definition spot (cap h1 h2 i : nat) : nat := ((h1 + i * h2) mod cap)%nat.

Lemma spot_lt cap h1 h2 i : (0 < cap)%nat -> (spot cap h1 h2 i < cap)%nat.
Proof. intros H. apply Nat.mod_upper_bound. lia. Qed.

Lemma spot_0 cap h1 h2 : (h1 < cap)%nat -> spot cap h1 h2 0 = h1.
Proof. intros H. unfold spot. rewrite Nat.add_0_r. by apply Nat.mod_small. Qed.

Lemma offset_spot cap h1 h2 i : (h2 < cap)%nat -> offset cap (spot cap h1 h2 i) h2 = spot cap h1 h2 (S i).
Proof.
  intros H. pose proof (spot_lt cap h1 h2 i ltac:(lia)) as Hl. unfold offset.
  replace (spot cap h1 h2 (S i)) with ((spot cap h1 h2 i + h2) mod cap)%nat.
  - destruct (Nat.leb_spec cap (spot cap h1 h2 i + h2)).
    + rewrite <- (Nat.mod_unique (spot cap h1 h2 i + h2) cap 1 (spot cap h1 h2 i + h2 - cap)); lia.
    + by rewrite Nat.mod_small by lia.
  - unfold spot. rewrite Nat.Div0.add_mod_idemp_l. f_equal. lia.
Qed.

Lemma offset_back_spot cap h1 h2 i : (h2 < cap)%nat -> offset_back cap (spot cap h1 h2 (S i)) h2 = spot cap h1 h2 i.
Proof.
  intros H. rewrite <- offset_spot by done. pose proof (spot_lt cap h1 h2 i ltac:(lia)). unfold offset, offset_back.
  destruct (Nat.leb_spec cap (spot cap h1 h2 i + h2)), (Nat.ltb_spec (spot cap h1 h2 i + h2 - cap) h2), (Nat.ltb_spec (spot cap h1 h2 i + h2) h2); lia.
Qed.

Lemma odd_coprime h2 lg : Z.Odd h2 -> Z.gcd h2 (2 ^ Z.of_nat lg) = 1.
Proof.
  intros [k ->]. apply Z.coprime_pow_r; [lia|]. apply Z.bezout_1_gcd. exists 1, (- k). lia.
Qed.

(** An odd stride reaches every position of a table of a power of two. *)
Lemma spot_surj lg h1 h2 p :
  Z.Odd (Z.of_nat h2) -> (h1 < 2 ^ lg)%nat -> (p < 2 ^ lg)%nat -> exists i, (i < 2 ^ lg)%nat /\ spot (2 ^ lg) h1 h2 i = p.
Proof.
  intros Ho H1 Hp. destruct (Z.gcd_bezout _ _ _ (odd_coprime _ lg Ho)) as (u & v & Huv).
  set (N := 2 ^ Z.of_nat lg) in *. assert (HN : Z.of_nat (2 ^ lg) = N) by (rewrite Nat2Z.inj_pow; done). assert (0 < N) by lia.
  exists (Z.to_nat (((Z.of_nat p - Z.of_nat h1) * u) mod N)). pose proof (Z.mod_pos_bound ((Z.of_nat p - Z.of_nat h1) * u) N ltac:(lia)).
  split; [lia|]. apply Nat2Z.inj. unfold spot. rewrite Nat2Z.inj_mod, Nat2Z.inj_add, Nat2Z.inj_mul, Z2Nat.id, HN by lia.
  rewrite <- Zplus_mod_idemp_r, Zmult_mod_idemp_l, Zplus_mod_idemp_r.
  replace (_ + _) with (Z.of_nat p + (- (Z.of_nat p - Z.of_nat h1) * v) * N) by nia.
  rewrite Z_mod_plus_full. apply Z.mod_small. lia.
Qed.

Lemma spot_inj lg h1 h2 i j :
  Z.Odd (Z.of_nat h2) -> (i < 2 ^ lg)%nat -> (j < 2 ^ lg)%nat -> spot (2 ^ lg) h1 h2 i = spot (2 ^ lg) h1 h2 j -> i = j.
Proof.
  intros Ho Hi Hj He. apply (f_equal Z.of_nat) in He. unfold spot in He. rewrite !Nat2Z.inj_mod, !Nat2Z.inj_add, !Nat2Z.inj_mul, Nat2Z.inj_pow in He.
  change (Z.of_nat 2) with 2 in He. set (N := 2 ^ Z.of_nat lg) in *. assert (HN : Z.of_nat (2 ^ lg) = N) by (rewrite Nat2Z.inj_pow; done).
  assert (Hd : (N | (Z.of_nat i - Z.of_nat j) * Z.of_nat h2)).
  { apply Z.mod_divide; [lia|]. replace (_ * _) with ((Z.of_nat h1 + Z.of_nat i * Z.of_nat h2) - (Z.of_nat h1 + Z.of_nat j * Z.of_nat h2)) by lia.
    rewrite Zminus_mod, He, Z.sub_diag. apply Zmod_0_l. }
  rewrite Z.mul_comm in Hd. apply Z.gauss in Hd; [|rewrite Z.gcd_comm; by apply odd_coprime]. destruct Hd as [z Hz]. assert (z = 0) by nia. lia.
Qed.

(** The least index that a test accepts. *)
Lemma least_index (P : nat -> bool) n : P n = true -> exists j, (j <= n)%nat /\ P j = true /\ forall i, (i < j)%nat -> P i = false.
Proof.
  assert (Hs : (exists j, (j < S n)%nat /\ P j = true /\ forall i, (i < j)%nat -> P i = false) \/ (forall i, (i < S n)%nat -> P i = false)).
  { generalize (S n). clear n. induction n as [|n [(j & ? & ?)|Hno]]; [right; lia|left; exists j; split; [lia|done]|].
    destruct (P n) eqn:E; [left; exists n; split; [lia|done]|right]. intros i Hi. destruct (decide (i = n)) as [->|]; [done|]. apply Hno. lia. }
  intros Hn. destruct Hs as [(j & ? & ?)|Hno]; [exists j; split; [lia|done]|]. rewrite Hno in Hn by lia. done.
Qed.

(** What the two hashes of a hash code are. *)
Lemma low_hash_ok hc (lg : nat) :
  0 <= hc < 2 ^ 32 -> (1 <= lg <= 32)%nat ->
  exists h1 h2, stdhash_low_hash hc (2 ^ Z.of_nat lg - 1) (Z.of_nat lg) = inr (h1, h2) /\ (h1 < 2 ^ lg)%nat /\ (h2 < 2 ^ lg)%nat /\ Z.Odd (Z.of_nat h2).
Proof.
  intros Hc Hl. unfold stdhash_low_hash, u64. rewrite Z.mod_small by lia. rewrite (proj2 (Z.ltb_lt _ _)) by lia.
  eexists _, _. split; [reflexivity|]. assert (HN : Z.of_nat (2 ^ lg) = 2 ^ Z.of_nat lg) by (rewrite Nat2Z.inj_pow; done).
  replace (2 ^ Z.of_nat lg - 1) with (Z.ones (Z.of_nat lg)) by (rewrite Z.ones_equiv; lia). rewrite Z.land_ones by lia.
  pose proof (Z.mod_pos_bound hc (2 ^ Z.of_nat lg) ltac:(lia)). set (b := Z.shiftr hc (32 - Z.of_nat lg)).
  assert (Hb : 0 <= b < 2 ^ Z.of_nat lg).
  { unfold b. rewrite Z.shiftr_div_pow2 by lia. split; [apply Z.div_pos; lia|]. apply Z.div_lt_upper_bound; [lia|].
    rewrite <- Z.pow_add_r by lia. replace (_ + _) with 32 by lia. lia. }
  pose proof (Z.add_lor_land b 1) as Hor. change 1 with (Z.ones 1) in Hor at 2. rewrite Z.land_ones in Hor by lia.
  change (2 ^ 1) with 2 in Hor. pose proof (Z.div_mod b 2 ltac:(lia)) as Hdm. pose proof (Z.mod_pos_bound b 2 ltac:(lia)).
  assert (He : 2 ^ Z.of_nat lg = 2 * 2 ^ (Z.of_nat lg - 1)) by (rewrite <- Z.pow_succ_r by lia; f_equal; lia).
  split; [lia|]. rewrite Z2Nat.id by lia. split; [lia|]. exists (b / 2). lia.
Qed.

(* --------------------------------------------------------------------- *)
(** ** Powers of two *)

Lemma lg_loop_ok n x r : 1 <= x < 2 ^ Z.of_nat n -> lg_loop n x r = r + Z.log2 x.
Proof.
  revert x r. induction n as [|n IH]; intros x r Hx; [cbn in Hx; lia|]. cbn [lg_loop]. destruct (Z.eqb_spec x 1) as [->|Hn]; [cbn; lia|].
  pose proof (Z.log2_shiftr x 1 ltac:(lia)) as Hl. pose proof (Z.log2_pos x ltac:(lia)). rewrite IH, Hl; [lia|].
  rewrite Z.shiftr_div_pow2 by lia. change (2 ^ 1) with 2. rewrite Nat2Z.inj_succ, Z.pow_succ_r in Hx by lia.
  split; [apply Z.div_le_lower_bound; lia|apply Z.div_lt_upper_bound; lia].
Qed.

Lemma stdlg_up_ok x : 1 <= x <= 2 ^ 63 -> stdlg_up x = Z.log2_up x.
Proof.
  intros Hx. unfold stdlg_up. destruct (Z.eqb_spec x 1) as [->|H1]; [done|]. rewrite (proj2 (Z.eqb_neq x 0)) by lia.
  unfold stdlg_down. rewrite (proj2 (Z.eqb_neq _ _)), lg_loop_ok by (change (Z.of_nat 64) with 64; lia).
  unfold Z.log2_up. rewrite (proj2 (Z.compare_lt_iff 1 x)) by lia. pose proof (Z.log2_le_mono (x - 1) (2 ^ 63) ltac:(lia)) as Hm.
  rewrite Z.log2_pow2 in Hm by lia. pose proof (Z.log2_nonneg (x - 1)). rewrite <- Z.sub_1_r. rewrite u32_id by lia. lia.
Qed.

Lemma stdpow2_up_ok x : 1 <= x <= 2 ^ 63 -> stdpow2_up x = inr (2 ^ Z.log2_up x) /\ x <= 2 ^ Z.log2_up x < 2 * x.
Proof.
  intros Hx. unfold stdpow2_up. rewrite stdlg_up_ok by lia. pose proof (Z.log2_up_le_mono x (2 ^ 63) ltac:(lia)) as Hm.
  rewrite Z.log2_up_pow2 in Hm by lia. pose proof (Z.log2_up_nonneg x). rewrite (proj2 (Z.eqb_neq x 0)), (proj2 (Z.ltb_lt _ _)) by lia.
  rewrite Z.shiftl_1_l. assert (2 ^ Z.log2_up x <= 2 ^ 63) by (apply Z.pow_le_mono_r; lia).
  unfold u64. rewrite Z.mod_small by lia. split; [done|]. destruct (decide (x = 1)) as [->|]; [cbn; lia|].
  pose proof (Z.log2_up_spec x ltac:(lia)) as Hs. pose proof (Z.log2_up_pos x ltac:(lia)).
  replace (2 ^ Z.log2_up x) with (2 * 2 ^ Z.pred (Z.log2_up x)) in * by (rewrite <- Z.pow_succ_r by lia; f_equal; lia). lia.
Qed.

(** Between one and a half and three times the request. *)
Lemma stdpow2_cap_ok x : 1 <= x <= 2 ^ 61 -> exists k : nat, stdpow2_cap x = inr (2 ^ Z.of_nat k) /\ x + x / 2 <= 2 ^ Z.of_nat k < 3 * x.
Proof.
  intros Hx. destruct (stdpow2_up_ok x ltac:(lia)) as [E Hb]. unfold stdpow2_cap. rewrite E. cbn [rbind].
  rewrite Z.shiftr_div_pow2 by lia. change (2 ^ 1) with 2. pose proof (Z.div_mod x 2 ltac:(lia)). pose proof (Z.mod_pos_bound x 2 ltac:(lia)).
  unfold u64 at 1. rewrite (Z.mod_small (x + x / 2)) by lia. pose proof (Z.log2_up_nonneg x). destruct (Z.ltb_spec (2 ^ Z.log2_up x) (x + x / 2)).
  - exists (Z.to_nat (Z.log2_up x + 1)). rewrite Z2Nat.id, Z.pow_add_r, Z.shiftl_mul_pow2 by lia. change (2 ^ 1) with 2.
    unfold u64. rewrite Z.mod_small by lia. split; [done|lia].
  - exists (Z.to_nat (Z.log2_up x)). rewrite Z2Nat.id by lia. split; [done|lia].
Qed.

(* --------------------------------------------------------------------- *)
(** ** Cells and what they hold *)

Definition pair : Type := list Z * list Z.
(** The pair of a cell, unless it is a hole. *)
Definition pair_of (c : option hnode) : option pair :=
  match c with Some n => if hcode n =? 0 then None else Some (nkey n, nval n) | None => None end.
(** The pairs of a table, in the order of an iteration. *)
Definition pairs (t : list (option hnode)) : list pair := omap pair_of t.
Definition nodes (t : list (option hnode)) : list hnode := omap id t.
Definition olist {A} (o : option A) : list A := match o with Some x => [x] | None => [] end.

Lemma omap_at {B} (f : option hnode -> option B) t p c :
  t !! p = Some c -> exists rest, omap f t ≡ₚ olist (f c) ++ rest /\ forall c', omap f (<[p := c']> t) ≡ₚ olist (f c') ++ rest.
Proof.
  intros (a & b & -> & <-)%lookup_split. exists (omap f a ++ omap f b).
  assert (H : forall c', omap f (a ++ c' :: b) ≡ₚ olist (f c') ++ omap f a ++ omap f b).
  { intros c'. rewrite omap_app. cbn. destruct (f c'); cbn; [by rewrite Permutation_middle|done]. }
  split; [apply H|]. intros c'. rewrite insert_app_r_alt, Nat.sub_diag by lia. cbn. apply H.
Qed.

Lemma nodes_length t : (length (nodes t) <= length t)%nat.
Proof. apply length_omap_le || (unfold nodes; induction t as [|[n|] t IH]; cbn; lia). Qed.

Lemma empty_cell t : (length (nodes t) < length t)%nat -> exists p, t !! p = Some None.
Proof.
  induction t as [|[n|] t IH]; cbn; intros H; [lia| |by exists 0%nat].
  destruct IH as [p Hp]; [unfold nodes; lia|]. by exists (S p).
Qed.

(** A probe sequence stops, at the first cell that is empty or passes a test. *)
Definition stops (test : hnode -> bool) (c : option (option hnode)) : Prop :=
  match c with Some (Some n) => test n = true | Some None => True | None => False end.
Definition passes (test : hnode -> bool) (c : option (option hnode)) : Prop :=
  exists n, c = Some (Some n) /\ test n = false.

Lemma search_stops t lg h1 h2 test :
  length t = (2 ^ lg)%nat -> (length (nodes t) < 2 ^ lg)%nat -> (h1 < 2 ^ lg)%nat -> Z.Odd (Z.of_nat h2) ->
  exists j, (j < 2 ^ lg)%nat /\ stops test (t !! spot (2 ^ lg) h1 h2 j) /\ forall i, (i < j)%nat -> passes test (t !! spot (2 ^ lg) h1 h2 i).
Proof.
  intros Hl Hn H1 Ho. destruct (empty_cell t) as [p Hp]; [lia|]. apply lookup_lt_Some in Hp as Hlt.
  destruct (spot_surj lg h1 h2 p Ho H1) as (k & Hk & Es); [lia|].
  set (P := fun i => match t !! spot (2 ^ lg) h1 h2 i with Some (Some n) => test n | _ => true end).
  destruct (least_index P k) as (j & Hj & Hpj & Hmin); [unfold P; by rewrite Es, Hp|]. exists j. split; [lia|].
  assert (Hs : forall i, is_Some (t !! spot (2 ^ lg) h1 h2 i)) by (intros i; apply lookup_lt_is_Some; rewrite Hl; apply spot_lt; lia).
  split.
  - unfold P in Hpj. destruct (Hs j) as [[n|] E]; rewrite E in *; done.
  - intros i Hi. specialize (Hmin i Hi). unfold P in Hmin. destruct (Hs i) as [[n|] E]; rewrite E in *; [|done]. by exists n.
Qed.

Definition find_test (h : stdhash) (find_match : bool) (key : list Z) (hc : Z) (n : hnode) : bool :=
  if find_match then (hcode n =? hc) && (stdhash_low_cmp h key (nkey n) =? 0) else hcode n =? 0.

Section searches.
Context (t : list (option hnode)) (cap h1 h2 j : nat) (test : hnode -> bool).
Context (Hl : length t = cap) (H2 : (h2 < cap)%nat).
Context (Hj : stops test (t !! spot cap h1 h2 j)) (Hi : forall i, (i < j)%nat -> passes test (t !! spot cap h1 h2 i)).

Lemma probe_at h fm key hc fuel k :
  table h = t -> (forall n, find_test h fm key hc n = test n) -> (k <= j < k + fuel)%nat -> probe fuel h fm key hc (spot cap h1 h2 k) h2 = inr (spot cap h1 h2 j).
Proof using Hl H2 Hj Hi.
  intros Ht Htest. revert k. induction fuel as [|fuel IH]; intros k Hk; [lia|]. cbn [probe]. rewrite Ht.
  destruct (decide (k = j)) as [->|Hne].
  - unfold cell. destruct (t !! spot cap h1 h2 j) as [[n|]|]; [|done|done]. cbn [or_err rbind]. fold (find_test h fm key hc n). by rewrite Htest, Hj.
  - destruct (Hi k ltac:(lia)) as (n & En & Et). unfold cell. rewrite En. cbn [or_err rbind]. fold (find_test h fm key hc n).
    rewrite Htest, Et, Hl, offset_spot by done. apply IH. lia.
Qed.

Lemma search_empty_at fuel k :
  (forall n, test n = false) -> (k <= j < k + fuel)%nat -> search_empty fuel t (spot cap h1 h2 k) h2 = inr (spot cap h1 h2 j).
Proof using Hl H2 Hj Hi.
  intros Htest. revert k. induction fuel as [|fuel IH]; intros k Hk; [lia|]. cbn [search_empty].
  destruct (decide (k = j)) as [->|Hne].
  - unfold cell. destruct (t !! spot cap h1 h2 j) as [[n|]|]; [|done|done]. cbn in Hj. by rewrite Htest in Hj.
  - destruct (Hi k ltac:(lia)) as (n & En & _). unfold cell. rewrite En. cbn [or_err rbind].
    rewrite Hl, offset_spot by done. apply IH. lia.
Qed.
End searches.

(* --------------------------------------------------------------------- *)
(** ** Walking over a table *)

(** [b] is the first active position from [p] on, or the end. *)
Definition is_next (t : list (option hnode)) (p b : nat) : Prop :=
  (p <= b <= length t)%nat /\ (forall i c, (p <= i < b)%nat -> t !! i = Some c -> hole c = true) /\
  (forall c, t !! b = Some c -> hole c = false).

Lemma next_from_ok t fuel p : (p <= length t < p + fuel)%nat -> exists b, next_from fuel t p = inr b /\ is_next t p b.
Proof.
  revert p. induction fuel as [|fuel IH]; intros p Hp; [lia|]. cbn [next_from]. destruct (Nat.eqb_spec p (length t)) as [->|Hne].
  - exists (length t). split; [done|]. split; [lia|]. split; [intros; lia|]. intros c Hc. apply lookup_lt_Some in Hc. lia.
  - unfold cell. destruct (t !! p) as [c|] eqn:Ec; [|apply lookup_ge_None in Ec; lia]. cbn [or_err rbind]. destruct (hole c) eqn:Eh.
    + destruct (IH (S p) ltac:(lia)) as (b & -> & Hb & Hh & Ha). exists b. split; [done|]. split; [lia|]. split; [|done].
      intros i c' Hi Hc'. destruct (decide (i = p)) as [->|]; [congruence|]. apply (Hh i); [lia|done].
    + exists p. split; [done|]. split; [lia|]. split; [intros; lia|]. congruence.
Qed.

Lemma is_next_unique t p b b' : is_next t p b -> is_next t p b' -> b = b'.
Proof.
  assert (Hlt : forall b b', is_next t p b -> is_next t p b' -> ~ (b < b')%nat).
  { intros x y (Hx & _ & Hax) (Hy & Hhy & _) Hlt. destruct (t !! x) as [c|] eqn:Ec; [|apply lookup_ge_None in Ec; lia].
    specialize (Hax c eq_refl). rewrite (Hhy x c) in Hax by (lia || done). done. }
  intros H H'. pose proof (Hlt b b' H H'). pose proof (Hlt b' b H' H). lia.
Qed.

Lemma next_from_eq t p b fuel : (p <= length t < p + fuel)%nat -> is_next t p b -> next_from fuel t p = inr b.
Proof. intros Hp Hb. destruct (next_from_ok t fuel p Hp) as (b' & -> & Hb'). f_equal. by eapply is_next_unique. Qed.

Lemma hole_pair c : hole c = false <-> is_Some (pair_of c).
Proof. destruct c as [n|]; cbn; [|split; [done|intros [? ?]; done]]. destruct (hcode n =? 0); split; [done|intros [? ?]; done|by eexists|done]. Qed.

(** Between two positions next to one another there are no pairs. *)
Lemma pairs_next t p b : is_next t p b -> pairs (drop p t) = pairs (drop b t).
Proof.
  intros (Hp & Hh & _). replace b with (p + (b - p))%nat in * by lia. generalize dependent (b - p)%nat. intros d. revert p.
  induction d as [|d IH]; intros p Hp Hh; [by rewrite Nat.add_0_r|]. rewrite <- Nat.add_succ_comm. rewrite <- IH.
  - destruct (t !! p) as [c|] eqn:Ec; [|apply lookup_ge_None in Ec; lia]. rewrite (drop_S _ _ _ Ec). cbn. unfold pairs. cbn.
    destruct (pair_of c) eqn:E; [|done]. assert (Hf : hole c = false) by (apply hole_pair; by rewrite E). rewrite (Hh p c) in Hf by (lia || done). done.
  - lia.
  - intros i c Hi. apply Hh. lia.
Qed.

(* --------------------------------------------------------------------- *)
(** ** The invariant *)

Definition kcmp (cf : option (list Z -> list Z -> Z)) (k1 k2 : list Z) : Z := match cf with None => memcmp k1 k2 | Some f => f k1 k2 end.
Definition khash (hf : option (list Z -> Z)) (k : list Z) : Z :=
  let ret := match hf with None => stdhcode_sfh k | Some f => f k end in if ret =? 0 then 1 else ret.

(** What stdhash.c asks of the two functions of a hash. *)
Class KeyFns (cf : option (list Z -> list Z -> Z)) (hf : option (list Z -> Z)) : Prop := {
  kf_refl : forall k, kcmp cf k k = 0;
  kf_sym : forall k1 k2, kcmp cf k1 k2 = 0 -> kcmp cf k2 k1 = 0;
  kf_trans : forall k1 k2 k3, kcmp cf k1 k2 = 0 -> kcmp cf k2 k3 = 0 -> kcmp cf k1 k3 = 0;
  kf_hash : forall k1 k2, kcmp cf k1 k2 = 0 -> khash hf k1 = khash hf k2;
  kf_range : forall k, 0 <= khash hf k < 2 ^ 32;
}.

Lemma stdhcode_sfh_range b : 0 <= stdhcode_sfh b < 2 ^ 32.
Proof. unfold stdhcode_sfh. destruct (sfh_loop _ _ _) as [kit ret]. apply u32_range. Qed.

#[export] Instance default_fns : KeyFns None None.
Proof.
  assert (Hc : forall k1 k2, kcmp None k1 k2 = 0 <-> k1 = k2) by (intros k1 k2; cbn; unfold memcmp; by case_bool_decide).
  split; intros *; rewrite ?Hc; try congruence.
  unfold khash. pose proof (stdhcode_sfh_range k). destruct (Z.eqb_spec (stdhcode_sfh k) 0); lia.
Qed.

Section hash.
Context (cf : option (list Z -> list Z -> Z)) (hf : option (list Z -> Z)) (ks vs : Z) {HKF : KeyFns cf hf}.
Implicit Types (h : stdhash) (t : list (option hnode)) (lg p i j : nat) (k v : list Z) (n : hnode) (x : pair) (m : memory).

(** [p] is on the probe sequence of the hash code, behind nodes only. *)
Definition on_path t lg (hc : Z) p : Prop :=
  exists (h1 h2 i : nat), stdhash_low_hash hc (2 ^ Z.of_nat lg - 1) (Z.of_nat lg) = inr (h1, h2) /\ (i < 2 ^ lg)%nat /\
    spot (2 ^ lg) h1 h2 i = p /\ forall j, (j < i)%nat -> is_Some (mjoin (t !! spot (2 ^ lg) h1 h2 j)).

Definition sized x : Prop := Z.of_nat (length (fst x)) = ks /\ Z.of_nat (length (snd x)) = vs.
Record node_ok t lg p n : Prop := {
  no_hash : hcode n = khash hf (nkey n);
  no_sized : sized (nkey n, nval n);
  no_path : on_path t lg (hcode n) p;
}.
(** A table of [2 ^ lg] positions that is not full. *)
Record table_ok t lg : Prop := {
  to_length : length t = (2 ^ lg)%nat;
  to_lg : (1 <= lg <= 32)%nat;
  to_load : (length (nodes t) < 2 ^ lg)%nat;
  to_nodes : forall p n, t !! p = Some (Some n) -> hcode n <> 0 -> node_ok t lg p n;
}.
(** The fields of a hash that describe its table. *)
Inductive shape t : Z -> Z -> Prop :=
| no_table : t = [] -> shape t (u64 (-1)) (u64 (-1))
| a_table lg : table_ok t lg -> (2 * length (nodes t) <= 2 ^ lg)%nat -> shape t (2 ^ Z.of_nat lg - 1) (Z.of_nat lg).
Record hash_ok h : Prop := {
  ho_fns : cmp_fcn h = cf /\ hcode_fcn h = hf /\ ksize h = ks /\ vsize h = vs;
  ho_shape : shape (table h) (cap_min1 h) (cap_lg h);
  ho_nodes : num_nodes h = Z.of_nat (length (nodes (table h)));
  ho_size : size h = Z.of_nat (length (pairs (table h)));
  ho_begin : is_next (table h) 0 (begin h);
}.

Lemma khash_nonzero k : khash hf k <> 0.
Proof using Type. unfold khash. destruct (_ =? 0) eqn:E; [done|]. lia. Qed.

Lemma low_cmp_fn h k1 k2 : hash_ok h -> stdhash_low_cmp h k1 k2 = kcmp cf k1 k2.
Proof using Type. intros Hok. destruct (ho_fns _ Hok) as (E & _). unfold stdhash_low_cmp. by rewrite E. Qed.

Lemma low_hcode_fn h k : hash_ok h -> stdhash_low_hcode h k = khash hf k.
Proof using Type. intros Hok. destruct (ho_fns _ Hok) as (_ & E & _). unfold stdhash_low_hcode. by rewrite E. Qed.

Lemma pairs_length t : (length (pairs t) <= length (nodes t))%nat.
Proof using Type. unfold pairs, nodes. induction t as [|[n|] t IH]; cbn; [done| |done]. destruct (hcode n =? 0); cbn; lia. Qed.

Lemma active_pair n : hcode n <> 0 -> pair_of (Some n) = Some (nkey n, nval n).
Proof using Type. intros H. cbn. by rewrite (proj2 (Z.eqb_neq _ _)). Qed.

Lemma pairs_active n t : hcode n <> 0 -> pairs (Some n :: t) = (nkey n, nval n) :: pairs t.
Proof using Type. intros H. unfold pairs. cbn. by rewrite (proj2 (Z.eqb_neq _ _)). Qed.

Lemma pair_in t p n : t !! p = Some (Some n) -> hcode n <> 0 -> (nkey n, nval n) ∈ pairs t.
Proof using Type. intros Hp Hn. apply list_elem_of_omap. exists (Some n). split; [by eapply list_elem_of_lookup_2|by apply active_pair]. Qed.

Lemma in_pairs t x : x ∈ pairs t -> exists p n, t !! p = Some (Some n) /\ hcode n <> 0 /\ x = (nkey n, nval n).
Proof using Type.
  intros ([n|] & [p Hp]%list_elem_of_lookup & E)%list_elem_of_omap; [|done]. cbn in E. destruct (Z.eqb_spec (hcode n) 0); [done|].
  injection E as <-. by exists p, n.
Qed.

(** Growing: the probe sequences stay as long as no node goes away. *)
Lemma on_path_mono t t' lg hc p :
  (forall i, is_Some (mjoin (t !! i)) -> is_Some (mjoin (t' !! i))) -> on_path t lg hc p -> on_path t' lg hc p.
Proof using Type. intros H (h1 & h2 & i & Eh & Hi & Hp & Hj). exists h1, h2, i. split; [done|]. split; [done|]. split; [done|]. intros j Hlt. by apply H, Hj. Qed.

Lemma mjoin_insert t p n i : is_Some (mjoin (t !! i)) -> is_Some (mjoin (<[p := Some n]> t !! i)).
Proof using Type.
  intros H. destruct (decide (i = p)) as [->|]; [|by rewrite list_lookup_insert_ne].
  destruct (t !! p) eqn:E; [|by destruct H]. apply lookup_lt_Some in E. by rewrite list_lookup_insert_eq.
Qed.

Definition matches (key : list Z) x : bool := kcmp cf key (fst x) =? 0.

Definition located h lg (fm : bool) key p : Prop :=
  exists (h1 h2 j : nat), stdhash_low_hash (khash hf key) (2 ^ Z.of_nat lg - 1) (Z.of_nat lg) = inr (h1, h2) /\ (j < 2 ^ lg)%nat /\ p = spot (2 ^ lg) h1 h2 j /\
    stops (find_test h fm key (khash hf key)) (table h !! p) /\
    forall i, (i < j)%nat -> passes (find_test h fm key (khash hf key)) (table h !! spot (2 ^ lg) h1 h2 i).

(** A search ends, at the first position of the probe sequence that it looks
    for. *)
Lemma low_find_ok h lg fm key :
  hash_ok h -> table_ok (table h) lg -> cap_min1 h = 2 ^ Z.of_nat lg - 1 -> cap_lg h = Z.of_nat lg ->
  exists p, stdhash_low_find h fm key = inr (p, khash hf key) /\ on_path (table h) lg (khash hf key) p /\ located h lg fm key p.
Proof using HKF.
  intros Hok Ht Em El. destruct (low_hash_ok (khash hf key) lg) as (h1 & h2 & Eh & H1 & H2 & Ho); [apply kf_range|apply Ht|].
  destruct (search_stops (table h) lg h1 h2 (find_test h fm key (khash hf key))) as (j & Hj & Hs & Hps); [apply Ht..|done|done|].
  exists (spot (2 ^ lg) h1 h2 j). split; [|split].
  - unfold stdhash_low_find. rewrite low_hcode_fn, Em, El, Eh by done. cbn [rbind]. rewrite (to_length _ _ Ht). rewrite <- (spot_0 (2 ^ lg) h1 h2) at 1 by done.
    by rewrite (probe_at (table h) (2 ^ lg) h1 h2 j (find_test h fm key (khash hf key))) by (apply Ht || done || lia).
  - exists h1, h2, j. split; [done|]. split; [done|]. split; [done|]. intros i Hi. destruct (Hps i Hi) as (n & -> & _). by eexists.
  - by exists h1, h2, j.
Qed.

(** A search for a key finds a pair with it, or no pair has it. *)
Lemma find_match_ok h lg key p :
  hash_ok h -> table_ok (table h) lg -> located h lg true key p ->
  match table h !! p with
  | Some (Some n) => hcode n = khash hf key /\ matches key (nkey n, nval n) = true
  | Some None => Forall (fun x => matches key x = false) (pairs (table h))
  | None => False
  end.
Proof using HKF.
  intros Hok Ht (h1 & h2 & j & Eh & Hj & -> & Hs & Hps). unfold stops in Hs. destruct (table h !! spot (2 ^ lg) h1 h2 j) as [[n|]|] eqn:Ec; [| |done].
  - apply andb_true_iff in Hs as [Hc Hm]. rewrite low_cmp_fn in Hm by done. split; [lia|done].
  - apply Forall_forall. intros x (q & n & Eq & Hn & ->)%in_pairs. destruct (matches key (nkey n, nval n)) eqn:Em'; [|done]. exfalso.
    apply Z.eqb_eq in Em'. cbn in Em'. destruct (to_nodes _ _ Ht q n Eq Hn) as [Hh _ (h1' & h2' & i & Eh' & Hi & Es & Hbe)].
    rewrite Hh, <- (kf_hash _ _ Em'), Eh in Eh'. injection Eh' as <- <-.
    destruct (Nat.lt_trichotomy i j) as [Hlt|[->|Hlt]].
    + destruct (Hps i Hlt) as (n' & En' & Et). rewrite Es, Eq in En'. injection En' as <-. unfold find_test in Et.
      by rewrite low_cmp_fn, Hh, <- (kf_hash _ _ Em'), Z.eqb_refl, Em' in Et by done.
    + by rewrite Es, Eq in Ec.
    + specialize (Hbe j Hlt). rewrite Ec in Hbe. by destruct Hbe.
Qed.

Lemma find_hole_ok h lg key p :
  located h lg false key p -> match table h !! p with Some (Some n) => hcode n = 0 | Some None => True | None => False end.
Proof using Type.
  intros (h1 & h2 & j & Eh & Hj & -> & Hs & Hps). unfold stops in Hs. destruct (table h !! spot (2 ^ lg) h1 h2 j) as [[n|]|]; [|done|done]. apply Z.eqb_eq, Hs.
Qed.

(* --------------------------------------------------------------------- *)
(** ** Writing a node *)

Lemma nodes_write t p c n :
  t !! p = Some c -> length (nodes (<[p := Some n]> t)) = (length (nodes t) + match c with None => 1 | Some _ => 0 end)%nat.
Proof using Type.
  intros Hp. destruct (omap_at id t p c Hp) as (rest & E & E'). unfold nodes. rewrite E, E'. destruct c; cbn; lia.
Qed.

Lemma table_write_ok t lg p c n :
  table_ok t lg -> t !! p = Some c ->
  (hcode n <> 0 -> hcode n = khash hf (nkey n) /\ sized (nkey n, nval n) /\ on_path t lg (hcode n) p) ->
  (length (nodes (<[p := Some n]> t)) < 2 ^ lg)%nat -> table_ok (<[p := Some n]> t) lg.
Proof using Type.
  intros Ht Hp Hn Hl. split; [rewrite length_insert; apply Ht|apply Ht|done|]. intros q n' Hq Hn'.
  assert (Hm : forall hc q, on_path t lg hc q -> on_path (<[p := Some n]> t) lg hc q) by (intros hc q'; apply on_path_mono; intros i; apply mjoin_insert).
  apply list_lookup_insert_Some in Hq as [(<- & E & _)|[_ Hq]].
  - injection E as <-. destruct (Hn Hn') as (? & ? & ?). split; auto.
  - destruct (to_nodes _ _ Ht q n' Hq Hn'). split; auto.
Qed.

Lemma fresh_table lg : (1 <= lg <= 32)%nat -> table_ok (replicate (2 ^ lg) None) lg /\ nodes (replicate (2 ^ lg) None) = [] /\ pairs (replicate (2 ^ lg) None) = [].
Proof using Type.
  intros Hl. assert (E : forall B (f : option hnode -> option B) d, f None = None -> omap f (replicate d None) = []) by (intros B f d Hf; induction d; cbn; by rewrite ?Hf).
  unfold nodes, pairs. rewrite !E by done. split; [|done]. split; [by rewrite length_replicate|done| |].
  - unfold nodes. rewrite E by done. cbn. pose proof (Nat.pow_nonzero 2 lg). lia.
  - intros p n [? _]%lookup_replicate. done.
Qed.

Lemma move_nodes_ok lg l t :
  table_ok t lg -> (forall n, Some n ∈ l -> hcode n <> 0 -> hcode n = khash hf (nkey n) /\ sized (nkey n, nval n)) ->
  (length (nodes t) + length (pairs l) < 2 ^ lg)%nat ->
  exists t', move_nodes l t (2 ^ Z.of_nat lg - 1) (Z.of_nat lg) = inr t' /\ table_ok t' lg /\ pairs t' ≡ₚ pairs t ++ pairs l /\
    length (nodes t') = (length (nodes t) + length (pairs l))%nat.
Proof using HKF.
  revert t. induction l as [|[n|] l IH]; intros t Ht Hn Hl; cbn [move_nodes].
  - exists t. cbn. rewrite app_nil_r, Nat.add_0_r. auto.
  - assert (Hn' : forall n, Some n ∈ l -> hcode n <> 0 -> hcode n = khash hf (nkey n) /\ sized (nkey n, nval n)) by (intros n' ?; apply Hn; by right).
    destruct (Z.eqb_spec (hcode n) 0) as [E0|E0].
    + unfold pairs in *. cbn in *. rewrite E0 in *. cbn in *. by apply IH.
    + destruct (Hn n ltac:(by left) E0) as [Eh Hs]. destruct (low_hash_ok (hcode n) lg) as (h1 & h2 & Elh & H1 & H2 & Ho); [rewrite Eh; apply kf_range|apply Ht|].
      rewrite Elh. cbn [rbind]. destruct (search_stops t lg h1 h2 (fun _ => false)) as (j & Hj & Hst & Hps); [apply Ht..|done|done|].
      assert (Hse : search_empty (length t) t h1 h2 = inr (spot (2 ^ lg) h1 h2 j)).
      { rewrite <- (spot_0 (2 ^ lg) h1 h2) at 1 by done. rewrite (to_length _ _ Ht). by apply (search_empty_at t (2 ^ lg) h1 h2 j (fun _ => false)); try apply Ht; try lia. }
      rewrite Hse. clear Hse.
      cbn [rbind]. set (p := spot (2 ^ lg) h1 h2 j) in *. unfold stops in Hst. destruct (t !! p) as [[n'|]|] eqn:Ec; [done| |done].
      pose proof (nodes_write t p None n Ec) as Hnw. cbv beta iota in Hnw. rewrite pairs_active in Hl by done. cbn [length] in Hl.
      destruct (IH (<[p := Some n]> t)) as (t' & Et & Ht' & Hpt & Hnt); [|done|lia|].
      * eapply table_write_ok; [done|done| |lia]. intros _. split; [done|]. split; [done|]. exists h1, h2, j. split; [done|]. split; [done|]. split; [done|].
        intros i Hi. destruct (Hps i Hi) as (n' & -> & _). by eexists.
      * exists t'. split; [done|]. split; [done|]. destruct (omap_at pair_of t p None Ec) as (rest & E1 & E2).
        rewrite pairs_active by done. split; [|cbn [length]; lia]. rewrite Hpt. unfold pairs at 1 3. rewrite E2, E1, (active_pair n E0).
        cbn. by rewrite Permutation_middle.
  - unfold pairs in *. cbn in *. apply IH; [done| |done]. intros n ?. apply Hn. by right.
Qed.

(* --------------------------------------------------------------------- *)
(** ** Rehashing *)

Lemma pow2_nat lg : Z.of_nat (2 ^ lg) = 2 ^ Z.of_nat lg.
Proof using Type. by rewrite Nat2Z.inj_pow. Qed.

Lemma cap_of_ok h : hash_ok h -> cap_of h = Z.of_nat (length (table h)).
Proof using Type.
  intros Hok. unfold cap_of. pose proof (ho_shape _ Hok) as Hs. inversion Hs as [E Em El|lg Ht Hl Em El]; [by rewrite E|].
  rewrite (to_length _ _ Ht), pow2_nat. destruct (to_lg _ _ Ht) as [H1 H2]. assert (2 ^ Z.of_nat lg <= 2 ^ 32) by (apply Z.pow_le_mono_r; lia).
  unfold u64. rewrite Z.mod_small by lia. lia.
Qed.

Lemma high_thresh_ok h : hash_ok h -> stdhash_high_thresh h = Z.of_nat (length (table h)) / 2.
Proof using Type. intros Hok. unfold stdhash_high_thresh. by rewrite cap_of_ok, Z.shiftr_div_pow2 by (done || lia). Qed.

Lemma size_nodes h : hash_ok h -> 0 <= size h <= num_nodes h.
Proof using Type. intros Hok. rewrite (ho_size _ Hok), (ho_nodes _ Hok). pose proof (pairs_length (table h)). lia. Qed.

(** [h'] is [h] in a new table for [r] pairs. *)
Record rehashed h (r : Z) h' : Prop := {
  rh_ok : hash_ok h';
  rh_pairs : pairs (table h') ≡ₚ pairs (table h);
  rh_opts : opts h' = opts h;
  rh_block : h_block h' = S (h_block h);
  rh_nodes : num_nodes h' = size h;
  rh_cap : 3 * Z.max r STDHASH_MIN_AUTO_ALLOC - 1 <= Z.of_nat (length (table h')) < 6 * Z.max r STDHASH_MIN_AUTO_ALLOC;
}.

Lemma active_nodes h n : hash_ok h -> Some n ∈ table h -> hcode n <> 0 -> hcode n = khash hf (nkey n) /\ sized (nkey n, nval n).
Proof using Type.
  intros Hok [p Hp]%list_elem_of_lookup Hn. pose proof (ho_shape _ Hok) as Hs. inversion Hs as [E Em El|lg' Ht Hl Em El]; [by rewrite E in Hp|].
  destruct (to_nodes _ _ Ht p n Hp Hn). done.
Qed.

Lemma first_active_ok t : exists b, first_active t = inr b /\ is_next t 0 b.
Proof using Type. apply next_from_ok. lia. Qed.

Lemma empty_next t : pairs t = [] -> is_next t 0 (length t).
Proof using Type.
  intros E. split; [lia|]. split; [|intros c Hc; apply lookup_lt_Some in Hc; lia].
  intros i c _ Hc. destruct (hole c) eqn:Eh; [done|]. apply hole_pair in Eh as [x Ex]. assert (Hin : x ∈ pairs t) by (apply list_elem_of_omap; exists c; split; [by eapply list_elem_of_lookup_2|done]).
  rewrite E in Hin. by inversion Hin.
Qed.

Lemma rehash_ok h r m :
  hash_ok h -> size h <= r <= 2 ^ 30 ->
  exists ret h' m', stdhash_low_rehash h r m = inr (ret, h', m') /\ (enough m -> ret = STDESUCCESS /\ enough m') /\
    (ret = STDENOMEM /\ h' = h \/ ret = STDESUCCESS /\ rehashed h r h').
Proof using HKF.
  intros Hok Hr. pose proof (size_nodes h Hok). unfold stdhash_low_rehash. set (q := Z.max r STDHASH_MIN_AUTO_ALLOC). assert (Hq : 16 <= q <= 2 ^ 30 /\ r <= q) by (unfold q, STDHASH_MIN_AUTO_ALLOC; lia).
  destruct (stdpow2_cap_ok q ltac:(lia)) as (k & -> & Hk). cbn [rbind]. pose proof (Z.div_mod q 2 ltac:(lia)). pose proof (Z.mod_pos_bound q 2 ltac:(lia)).
  assert (Hk31 : (1 <= k <= 31)%nat).
  { split; [destruct k; [cbn in *; lia|lia]|]. destruct (decide (k <= 31)%nat); [done|]. assert (2 ^ 32 <= 2 ^ Z.of_nat k) by (apply Z.pow_le_mono_r; lia). lia. }
  assert (HS : 2 ^ Z.of_nat (S k) = 2 * 2 ^ Z.of_nat k) by (rewrite Nat2Z.inj_succ, Z.pow_succ_r by lia; done).
  rewrite Z.shiftl_mul_pow2 by lia. change (2 ^ 1) with 2. unfold u64. rewrite (Z.mod_small (2 ^ Z.of_nat k * 2)) by lia.
  replace (2 ^ Z.of_nat k * 2) with (2 ^ Z.of_nat (S k)) in * by lia. unfold STDSIZE_MAX. rewrite (proj2 (Z.ltb_ge _ _)), (proj2 (Z.ltb_ge _ _)) by lia. cbn [orb].
  rewrite (proj2 (Z.eqb_neq _ _)) by lia. rewrite Z.mod_small, stdlg_up_ok, Z.log2_up_pow2 by lia.
  destruct (malloc_ok m) as (b & m' & -> & Hm). destruct b; cbn [negb]; [|eexists _, _, _; split; [done|]; split; [intros He; by destruct (Hm He)|by left]].
  replace (Z.to_nat (2 ^ Z.of_nat (S k))) with (2 ^ S k)%nat by (rewrite <- pow2_nat; lia).
  destruct (fresh_table (S k) ltac:(lia)) as (Hf & En & Ep). pose proof (pow2_nat (S k)) as HN.
  destruct (move_nodes_ok (S k) (table h) _ Hf) as (t & -> & Ht & Hp & Hnt); [by intros n; apply active_nodes|rewrite En; cbn [length]; rewrite (ho_size _ Hok) in *; lia|].
  rewrite En, Ep in *. cbn [app length Nat.add] in Hp, Hnt. cbn [rbind].
  assert (Hb : exists b, search_begin (size h) t = inr b /\ is_next t 0 b).
  { unfold search_begin. destruct (Z.eqb_spec (size h) 0) as [E0|_]; [|apply first_active_ok]. exists (length t). split; [done|]. apply empty_next, Permutation_nil. rewrite Hp.
    rewrite (ho_size _ Hok) in E0. by destruct (pairs (table h)). }
  destruct Hb as (b & -> & Hb). cbn [rbind]. eexists _, _, _. split; [done|]. split; [intros He; by destruct (Hm He)|]. right. split; [done|].
  destruct (ho_fns _ Hok) as (F1 & F2 & F3 & F4). split; cbn; try done; [|rewrite (to_length _ _ Ht), HN; fold q; clearbody q; lia].
  pose proof (ho_size _ Hok). clearbody q. split; cbn; try done; [apply a_table; [done|] | |]; fold (nodes t) (pairs t); rewrite ?Hp; lia.
Qed.

(* --------------------------------------------------------------------- *)
(** ** Insertion *)

(** Room for a pair is made before it is written. *)
Lemma make_room_ok h m :
  hash_ok h -> size h < 2 ^ 30 ->
  exists ret h' m', make_room h (stdhash_high_thresh h) m = inr (ret, h', stdhash_high_thresh h', m') /\ hash_ok h' /\
    pairs (table h') ≡ₚ pairs (table h) /\ opts h' = opts h /\
    (ret = STDESUCCESS /\ num_nodes h' < stdhash_high_thresh h' \/ ret <> STDESUCCESS /\ h' = h) /\
    (enough m -> Z.land (opts h) STDHASH_OPTS_NO_AUTO_GROW = 0 -> ret = STDESUCCESS /\ enough m').
Proof using HKF.
  intros Hok Hs. pose proof (size_nodes h Hok). unfold make_room. destruct (Z.leb_spec (stdhash_high_thresh h) (num_nodes h)) as [Hfull|Hroom].
  - destruct (Z.eqb_spec (Z.land (opts h) STDHASH_OPTS_NO_AUTO_GROW) 0) as [Eg|Eg]; cbn [negb].
    + unfold u64. rewrite Z.mod_small by lia. destruct (rehash_ok h (size h + 1) m Hok ltac:(lia)) as (ret & h' & m' & -> & Hm & Hr). cbn [rbind].
      destruct Hr as [[-> ->]|[-> [R1 R2 R3 R4 R5 R6]]]; cbn; eexists _, _, _; (split; [done|]); split_and!; try done; try (intros Hen _; by destruct (Hm Hen)); [by right|left].
      split; [done|]. rewrite (high_thresh_ok h' R1), R5. assert (1 <= size h + 1) by lia.
      assert (size h + 1 <= Z.of_nat (length (table h')) / 2); [|lia]. apply Z.div_le_lower_bound; [lia|]. unfold STDHASH_MIN_AUTO_ALLOC in R6. lia.
    + eexists _, _, _. split; [done|]. split_and!; try done. right. done.
  - eexists _, _, _. split; [done|]. split_and!; try done. left. done.
Qed.

(** With a free position there is a table. *)
Lemma room_table h : hash_ok h -> num_nodes h < stdhash_high_thresh h ->
  exists lg, table_ok (table h) lg /\ cap_min1 h = 2 ^ Z.of_nat lg - 1 /\ cap_lg h = Z.of_nat lg /\ (2 * length (nodes (table h)) + 2 <= 2 ^ lg)%nat.
Proof using Type.
  intros Hok Hn. rewrite high_thresh_ok, (ho_nodes _ Hok) in Hn by done. pose proof (ho_shape _ Hok) as Hs. inversion Hs as [E Em El|lg Ht Hl Em El].
  - rewrite E in Hn. vm_compute in Hn. done.
  - exists lg. split; [done|]. split; [done|]. split; [done|]. rewrite (to_length _ _ Ht) in Hn.
    pose proof (Z.div_mod (Z.of_nat (2 ^ lg)) 2 ltac:(lia)). pose proof (Z.mod_pos_bound (Z.of_nat (2 ^ lg)) 2 ltac:(lia)). lia.
Qed.

Lemma write_begin t p b n : is_next t 0 b -> (p < length t)%nat -> hcode n <> 0 -> is_next (<[p := Some n]> t) 0 (if Nat.ltb p b then p else b).
Proof using Type.
  intros (Hb & Hh & Ha) Hp Hn. assert (Hnh : hole (Some n) = false) by (cbn; lia). unfold is_next. rewrite length_insert. destruct (Nat.ltb_spec p b).
  - split; [lia|]. split.
    + intros i c Hi Hc. rewrite list_lookup_insert_ne in Hc by lia. apply (Hh i); [lia|done].
    + intros c Hc. rewrite list_lookup_insert_eq in Hc by done. by injection Hc as <-.
  - split; [lia|]. split.
    + intros i c Hi Hc. rewrite list_lookup_insert_ne in Hc by lia. by apply (Hh i).
    + intros c Hc. apply list_lookup_insert_Some in Hc as [(_ & <- & _)|[_ Hc]]; [done|by apply Ha].
Qed.

(** [x] is put into [l]: it takes the place of a pair with its key, if there
    is one. *)
Definition put_into x (l l' : list pair) : Prop :=
  (Forall (fun y => matches (fst x) y = false) l /\ l' ≡ₚ x :: l) \/
  (exists y rest, matches (fst x) y = true /\ l ≡ₚ y :: rest /\ l' ≡ₚ x :: rest).
Definition added (overwrite : bool) x (l l' : list pair) : Prop :=
  if overwrite then put_into x l l' else l' ≡ₚ x :: l.
Definition src_value (x : src_pair) : pair := (src_key x, snd x).

Lemma memcpy_all z k : Z.of_nat (length k) = z -> memcpy z k = k.
Proof using Type. intros <-. unfold memcpy. rewrite Nat2Z.id. by apply firstn_all. Qed.

(** What writing a pair does: nothing, or it is added at a position. *)
Record inserted h (ow : bool) x h' : Prop := {
  in_ok : hash_ok h';
  in_opts : opts h' = opts h;
  in_block : h_block h' = h_block h;
  in_thresh : stdhash_high_thresh h' = stdhash_high_thresh h;
  in_added : added ow x (pairs (table h)) (pairs (table h'));
}.
Definition insert_post h (ow : bool) x m (r : res (Z * stdhash * option nat * memory)) : Prop :=
  exists ret h' pos m', r = inr (ret, h', pos, m') /\ (enough m -> ret = STDESUCCESS /\ enough m') /\
    (ret <> STDESUCCESS /\ pos = None /\ h' = h \/
     ret = STDESUCCESS /\ inserted h ow x h' /\ exists p n, pos = Some p /\ table h' !! p = Some (Some n) /\ hcode n <> 0 /\ (nkey n, nval n) = x).

Lemma write_post h lg ow p c n nds sz m m' :
  hash_ok h -> table_ok (table h) lg -> cap_min1 h = 2 ^ Z.of_nat lg - 1 -> cap_lg h = Z.of_nat lg -> (2 * length (nodes (table h)) + 2 <= 2 ^ lg)%nat ->
  table h !! p = Some c -> hcode n <> 0 -> hcode n = khash hf (nkey n) -> sized (nkey n, nval n) -> on_path (table h) lg (hcode n) p ->
  nds = num_nodes h + (match c with None => 1 | Some _ => 0 end) -> sz = size h + (match pair_of c with None => 1 | Some _ => 0 end) ->
  (enough m -> enough m') -> added ow (nkey n, nval n) (pairs (table h)) (pairs (<[p := Some n]> (table h))) ->
  insert_post h ow (nkey n, nval n) m
    (inr (STDESUCCESS, set_counts (<[p := Some n]> (table h)) (if Nat.ltb p (begin h) then p else begin h) nds sz h, Some p, m')).
Proof using HKF.
  intros Hok Ht Em El Hload Hc Hn Hh Hs Hpath -> -> Hm Ha. pose proof (nodes_write _ p c n Hc) as Hnw. apply lookup_lt_Some in Hc as Hlt.
  eexists _, _, _, _. split; [done|]. split; [auto|]. right. split; [done|]. split; [|exists p, n; split_and!; [done|by apply list_lookup_insert_eq|done|done]].
  split; [|done|done|done|exact Ha]. split; [apply Hok| | | |]; cbn [table cap_min1 cap_lg num_nodes size begin set_counts].
  - rewrite Em, El. apply a_table; [|destruct c; lia]. eapply table_write_ok; [done|done|done|destruct c; lia].
  - rewrite Hnw, (ho_nodes _ Hok). destruct c; lia.
  - destruct (omap_at pair_of _ p c Hc) as (rest & E & E'). rewrite (ho_size _ Hok). unfold pairs. rewrite E', E, (active_pair n Hn). destruct (pair_of c); cbn; lia.
  - apply write_begin; [apply Hok|done|done].
Qed.

Lemma insert_pair_ok h ow (x : src_pair) m :
  hash_ok h -> num_nodes h < stdhash_high_thresh h -> sized (src_value x) -> insert_post h ow (src_value x) m (insert_pair h ow x m).
Proof using HKF.
  intros Hok Hroom Hsz. pose proof Hsz as [Hk Hv]. destruct (room_table h Hok Hroom) as (lg & Ht & Em & El & Hload). destruct (ho_fns _ Hok) as (F1 & F2 & F3 & F4). cbn in Hk, Hv.
  destruct (low_find_ok h lg ow (src_key x) Hok Ht Em El) as (p & Ef & Hpath & Hloc). unfold insert_pair. rewrite Ef. cbn [rbind].
  rewrite F3, F4, !memcpy_all by done. set (n := mkNode (khash hf (src_key x)) (src_key x) (snd x)). assert (Hn0 : hcode n <> 0) by apply khash_nonzero.
  assert (Hc : match table h !! p with
               | Some None => ow = true -> Forall (fun y => matches (src_key x) y = false) (pairs (table h))
               | Some (Some n') => if ow then matches (src_key x) (nkey n', nval n') = true /\ hcode n' <> 0 else hcode n' = 0
               | None => False end).
  { destruct ow; [pose proof (find_match_ok h lg _ p Hok Ht Hloc) as H|pose proof (find_hole_ok h lg _ p Hloc) as H]; destruct (table h !! p) as [[n'|]|]; try done.
    destruct H as [-> H]. split; [done|]. apply khash_nonzero. }
  unfold cell. destruct (table h !! p) as [c|] eqn:Ec; [|done]. cbn [or_err rbind]. destruct (omap_at pair_of _ p c Ec) as (rest & Ep & Ep'). specialize (Ep' (Some n)).
  rewrite (active_pair n Hn0) in Ep'. destruct c as [n'|]; cbn [new_node].
  - apply (write_post h lg ow p (Some n') n); try done; [lia| |].
    + destruct ow; [rewrite active_pair by tauto; lia|cbn; rewrite Hc; done].
    + unfold pairs. destruct ow; cbn [added]; [right|rewrite Ep', Ep; cbn; by rewrite Hc].
      destruct Hc as [Hm Hn']. rewrite (active_pair n' Hn') in Ep. by exists (nkey n', nval n'), rest.
  - destruct (malloc_ok m) as (b & m' & -> & Hmem). destruct b.
    + apply (write_post h lg ow p None n); try done; [intros He; by destruct (Hmem He)|]. unfold pairs. destruct ow; cbn [added]; [left; split; [by apply Hc|]|]; by rewrite Ep', Ep.
    + eexists _, _, _, _. split; [done|]. split; [intros He; by destruct (Hmem He)|by left].
Qed.

#[export] Instance added_proper ow x : Proper ((≡ₚ) ==> (≡ₚ) ==> iff) (added ow x).
Proof using Type.
  assert (H : forall l1 l2 l1' l2', l1 ≡ₚ l2 -> l1' ≡ₚ l2' -> added ow x l1 l1' -> added ow x l2 l2').
  { intros l1 l2 l1' l2' E E'. destruct ow; cbn [added]; [|by rewrite E, E'].
    intros [[Hf Hl]|(y & rest & Hy & Hl & Hl')]; [left|right; exists y, rest; by rewrite <- E, <- E'].
    split; [by rewrite <- E|by rewrite <- E', Hl, E]. }
  intros l1 l2 E l1' l2' E'. split; by apply H.
Qed.

(** One pair after another. *)
Fixpoint added_all (ow : bool) (xs l l' : list pair) : Prop :=
  match xs with
  | [] => l' ≡ₚ l
  | x :: xs => exists l1, added ow x l l1 /\ added_all ow xs l1 l'
  end.

Lemma added_all_perm ow xs l1 l2 l' : l1 ≡ₚ l2 -> added_all ow xs l1 l' -> added_all ow xs l2 l'.
Proof using Type. intros E. destruct xs as [|x xs]; cbn; [by rewrite E|]. intros (l & Ha & H). exists l. by rewrite <- E. Qed.

Lemma added_all_insert xs l l' : added_all false xs l l' <-> l' ≡ₚ xs ++ l.
Proof using Type.
  revert l. induction xs as [|x xs IH]; intros l; cbn; [done|]. split.
  - intros (l1 & E & ->%IH). by rewrite E, Permutation_middle.
  - intros E. exists (x :: l). split; [done|]. apply IH. by rewrite E, Permutation_middle.
Qed.

Lemma added_length ow x l l' : added ow x l l' -> (length l <= length l' <= S (length l))%nat.
Proof using Type. destruct ow; cbn [added]; [intros [[_ ->]|(y & rest & _ & -> & ->)]|intros ->]; cbn; lia. Qed.

Lemma insert_loop_ok ow (src : list src_pair) h f m :
  hash_ok h -> Forall (fun x : src_pair => sized (src_value x)) src -> size h + Z.of_nat (length src) <= 2 ^ 30 ->
  exists ret h' f' m' (k : nat), insert_loop src ow h (stdhash_high_thresh h) f m = inr (ret, h', f', m') /\ hash_ok h' /\ opts h' = opts h /\
    added_all ow (take k (src_value <$> src)) (pairs (table h)) (pairs (table h')) /\
    (ret = STDESUCCESS /\ k = length src \/ ret <> STDESUCCESS /\ (k < length src)%nat) /\
    (enough m -> Z.land (opts h) STDHASH_OPTS_NO_AUTO_GROW = 0 -> ret = STDESUCCESS).
Proof using HKF.
  intros Hok Hsrc. revert h f m Hok. induction Hsrc as [|x src Hx Hsrc IH]; intros h f m Hok Hsz; cbn [insert_loop].
  - eexists _, h, _, _, 0%nat. split; [done|]. split; [done|]. split; [done|]. split; [by cbn|]. split; [by left|done].
  - cbn [length] in Hsz. destruct (make_room_ok h m Hok ltac:(lia)) as (ret & h1 & m1 & -> & Hok1 & Hp1 & Ho1 & Hr & Hg). cbn [rbind].
    destruct Hr as [[-> Hroom]|[Hret ->]]; [cbn [Z.eqb negb]|].
    2: { rewrite (proj2 (Z.eqb_neq _ _) Hret). eexists _, _, _, _, 0%nat. split; [done|]. split_and!; try done; [right; cbn; split; [done|lia]|].
         intros He Hgo. by destruct (Hg He Hgo). }
    change (negb (STDESUCCESS =? STDESUCCESS)) with false. destruct (insert_pair_ok h1 ow x m1 Hok1 Hroom Hx) as (ret & h2 & pos & m2 & -> & Hm2 & Hr). cbn [rbind].
    destruct Hr as [(Hret & -> & ->)|(-> & [I1 I2 I3 I4 I5] & p & n & -> & _)].
    + eexists _, _, _, _, 0%nat. split; [done|]. split_and!; try done; [right; cbn; split; [done|lia]|].
      intros He Hgo. destruct (Hg He Hgo) as [_ He1]. by destruct (Hm2 He1).
    + rewrite <- I4. assert (Hs2 : size h2 + Z.of_nat (length src) <= 2 ^ 30).
      { rewrite (ho_size _ I1). apply added_length in I5. rewrite Hp1, (ho_size _ Hok) in *. lia. }
      match goal with |- context [insert_loop _ _ _ _ ?f' _] => destruct (IH h2 f' m2 I1 Hs2) as (ret & h3 & f3 & m3 & k & -> & I & Eo & Ha & Hk & Hgo) end.
      eexists _, _, _, _, (S k). split; [done|]. split; [done|]. split; [congruence|]. split; [|split].
      * exists (pairs (table h2)). rewrite <- Hp1. done.
      * destruct Hk as [[-> ->]|[? ?]]; [by left|right; split; [done|cbn; lia]].
      * intros He Hgr. destruct (Hg He Hgr) as [_ He1]. destruct (Hm2 He1) as [_ He2]. apply Hgo; [done|congruence].
Qed.
End hash.
