(* ===== verification/HashUse.v ===== *)
(** * What a hash table does ([stdutil/src/stdhash.c])

    Finding, erasing, clearing, copying and the two kinds of iteration, with
    [HashOk]'s invariant; [hash_table_refines] puts the operations together. *)

From Stdlib Require Import ZArith Lia.
From stdpp Require Import base strings numbers option list.
From S2P Require Import Prelude HashTable HashOk.

Section use.
Context (cf : option (list Z -> list Z -> Z)) (hf : option (list Z -> Z)) (ks vs : Z) {HKF : KeyFns cf hf}.
Implicit Types (h : stdhash) (t : list (option hnode)) (lg p i j : nat) (k v : list Z) (n : hnode) (x : pair) (m : memory).
Abbreviation hash_ok := (hash_ok cf hf ks vs).
Abbreviation table_ok := (table_ok hf ks vs).
Abbreviation matches := (matches cf).

Lemma filter_all_pairs (P : pair -> bool) l : Forall (fun x => P x = false) l -> filter (fun x => P x = false) l = l.
Proof using Type. induction 1 as [|x l Hx Hl IH]; [done|]. rewrite filter_cons_True by done. by rewrite IH. Qed.

(** A pair at a position of the table. *)
Definition active_at h p n : Prop := table h !! p = Some (Some n) /\ hcode n <> 0.
Definition it_of h p : stdit := mkIt (h_block h, p) (h_block h).

Lemma active_deref h p n : active_at h p n -> deref h (it_of h p) = inr n /\ stdhash_is_end h (it_of h p) = false.
Proof using Type.
  intros [Hp _]. unfold deref, stdhash_is_end, node_at, cell. cbn. rewrite bool_decide_eq_true_2, Hp by done. split; [done|].
  apply bool_decide_eq_false_2. intros [= E]. apply lookup_lt_Some in Hp. lia.
Qed.

Lemma table_of h p n : hash_ok h -> active_at h p n -> exists lg, table_ok (table h) lg /\ cap_min1 h = 2 ^ Z.of_nat lg - 1 /\ cap_lg h = Z.of_nat lg /\ (2 * length (nodes (table h)) <= 2 ^ lg)%nat.
Proof using Type.
  intros Hok [Hp _]. pose proof (ho_shape _ _ _ _ _ Hok) as Hs. inversion Hs as [E Em El|lg Ht Hl Em El]; [by rewrite E in Hp|]. by exists lg.
Qed.

(** What a look-up does in a hash that is not empty. *)
Lemma find_located h key :
  hash_ok h -> size h <> 0 ->
  exists lg p, table_ok (table h) lg /\ cap_min1 h = 2 ^ Z.of_nat lg - 1 /\ cap_lg h = Z.of_nat lg /\ located hf h lg true key p /\
    stdhash_find h key = inr (it_of h (match table h !! p with Some (Some _) => p | _ => length (table h) end)).
Proof using HKF.
  intros Hok E0. unfold stdhash_find. rewrite (proj2 (Z.eqb_neq _ _) E0).
  pose proof (ho_shape _ _ _ _ _ Hok) as Hs. inversion Hs as [E Em El|lg Ht Hl Em El]; [rewrite (ho_size _ _ _ _ _ Hok), E in E0; done|].
  destruct (low_find_ok cf hf ks vs h lg true key Hok Ht (eq_sym Em) (eq_sym El)) as (p & -> & _ & Hloc). cbn [rbind].
  exists lg, p. split; [done|]. split; [done|]. split; [done|]. split; [done|].
  pose proof (find_match_ok cf hf ks vs h lg key p Hok Ht Hloc) as Hm. unfold cell. destruct (table h !! p) as [[n|]|]; done.
Qed.

Lemma no_pairs h : hash_ok h -> size h = 0 -> pairs (table h) = [].
Proof using Type. intros Hok E0. rewrite (ho_size _ _ _ _ _ Hok) in E0. by destruct (pairs (table h)). Qed.

(** The iterator at a pair with the key, or the end when no pair has it. *)
Lemma find_ok h key :
  hash_ok h ->
  exists it, stdhash_find h key = inr it /\
    (it = stdhash_end h /\ Forall (fun x => matches key x = false) (pairs (table h)) \/
     exists p n, it = it_of h p /\ active_at h p n /\ matches key (nkey n, nval n) = true).
Proof using HKF.
  intros Hok. destruct (decide (size h = 0)) as [E0|E0].
  - exists (stdhash_end h). rewrite (no_pairs h Hok E0). split; [unfold stdhash_find; by rewrite E0|by left].
  - destruct (find_located h key Hok E0) as (lg & p & Ht & Em & El & Hloc & ->). eexists. split; [done|].
    pose proof (find_match_ok cf hf ks vs h lg key p Hok Ht Hloc) as Hm. destruct (table h !! p) as [[n|]|] eqn:Ep; [right|left|done].
    + exists p, n. destruct Hm as [Hh Hm]. split; [done|]. split; [|done]. split; [done|]. rewrite Hh. apply khash_nonzero.
    + done.
Qed.

Lemma end_is_end h : stdhash_is_end h (stdhash_end h) = true.
Proof using Type. by apply bool_decide_eq_true_2. Qed.

(* --------------------------------------------------------------------- *)
(** ** Erasure *)

Lemma erase_begin t p b n n0 :
  is_next t 0 b -> t !! p = Some (Some n) -> hcode n <> 0 -> hcode n0 = 0 ->
  exists q, stdhash_low_next (<[p := Some n0]> t) p = inr q /\ is_next (<[p := Some n0]> t) (S p) q /\
    is_next (<[p := Some n0]> t) 0 (if Nat.eqb p b then q else b).
Proof using Type.
  intros (Hb & Hh & Ha) Hp Hn Hn0. apply lookup_lt_Some in Hp as Hlt.
  destruct (next_from_ok (<[p := Some n0]> t) (S (length t)) (S p)) as (q & Eq & Hq); [rewrite length_insert; lia|].
  exists q. unfold stdhash_low_next. rewrite length_insert. split; [done|]. split; [done|].
  assert (Hbp : (b <= p)%nat).
  { destruct (decide (b <= p)%nat); [done|]. pose proof (Hh p _ ltac:(lia) Hp) as Hx. cbn in Hx. lia. }
  destruct (Nat.eqb_spec p b) as [<-|Hne].
  - destruct Hq as (H1 & H2 & H3). split; [lia|]. split; [|done]. intros i c Hi Hc. destruct (decide (i < p)%nat).
    + rewrite list_lookup_insert_ne in Hc by lia. apply (Hh i); [lia|done].
    + destruct (decide (i = p)) as [->|]; [rewrite list_lookup_insert_eq in Hc by done; injection Hc as <-; cbn; lia|]. apply (H2 i); [lia|done].
  - split; [rewrite length_insert; lia|]. split.
    + intros i c Hi Hc. rewrite list_lookup_insert_ne in Hc by lia. by apply (Hh i).
    + intros c Hc. rewrite list_lookup_insert_ne in Hc by lia. by apply Ha.
Qed.

(** The node becomes a placeholder; the table may be made anew. *)
Lemma hash_erase_ok h p n m :
  hash_ok h -> size h <= 2 ^ 30 -> active_at h p n ->
  exists h' q m', stdhash_erase h (it_of h p) m = inr (h', it_of h' q, m') /\ hash_ok h' /\ pairs (table h) ≡ₚ (nkey n, nval n) :: pairs (table h') /\
    opts h' = opts h /\ (if bool_decide (h_block h' = h_block h) then is_next (table h') (S p) q else q = begin h').
Proof using HKF.
  intros Hok Hsz Hact. pose proof Hact as [Hp Hn]. destruct (table_of h p n Hok Hact) as (lg & Ht & Em & El & Hl).
  unfold stdhash_erase. rewrite (proj1 (active_deref h p n Hact)). cbn [rbind it_of it_node snd]. set (n0 := mkNode 0 (nkey n) (nval n)).
  destruct (erase_begin (table h) p (begin h) n n0 (ho_begin _ _ _ _ _ Hok) Hp Hn eq_refl) as (q & -> & Hq & Hb). cbn [rbind].
  destruct (omap_at pair_of _ p _ Hp) as (rest & Ep & Ep'). specialize (Ep' (Some n0)). rewrite (active_pair n Hn) in Ep. cbn [olist app pair_of n0 hcode] in Ep, Ep'.
  change (0 =? 0) with true in Ep'. cbn [olist app] in Ep'. pose proof (nodes_write (table h) p _ n0 Hp) as Hnw. cbv beta iota in Hnw. rewrite Nat.add_0_r in Hnw.
  assert (Hsize : size h = Z.of_nat (S (length rest))) by (rewrite (ho_size _ _ _ _ _ Hok); unfold pairs; by rewrite Ep).
  unfold u64. rewrite Z.mod_small by lia. set (h1 := set_counts _ _ _ _ h).
  assert (Hok1 : hash_ok h1).
  { split; [apply Hok| | | |exact Hb]; unfold h1; cbn [table cap_min1 cap_lg num_nodes size set_counts].
    - rewrite Em, El. apply a_table; [|lia]. eapply table_write_ok; [done|done|done|]. rewrite Hnw. apply Ht.
    - rewrite Hnw. apply Hok.
    - unfold pairs. rewrite Ep'. lia. }
  assert (Hp1 : pairs (table h) ≡ₚ (nkey n, nval n) :: pairs (table h1)) by (unfold pairs, h1; cbn [table set_counts]; by rewrite Ep, Ep').
  change (mkIt (h_block h, q) (it_table {| it_node := (h_block h, p); it_table := h_block h |})) with (it_of h1 q).
  destruct (must_shrink h1).
  - destruct (rehash_ok cf hf ks vs h1 (size h1) m Hok1 ltac:(unfold h1; cbn; lia)) as (ret & h2 & m2 & -> & _ & Hr). cbn [rbind].
    destruct Hr as [[-> ->]|[-> [R1 R2 R3 R4 R5 R6]]].
    + eexists h1, q, _. split; [done|]. split; [done|]. split; [done|]. split; [done|]. by rewrite bool_decide_eq_true_2.
    + eexists h2, (begin h2), _. split; [done|]. split; [done|]. split; [by rewrite R2|]. split; [done|]. rewrite bool_decide_eq_false_2; [done|]. rewrite R4. unfold h1. cbn. lia.
  - eexists h1, q, _. split; [done|]. split; [done|]. split; [done|]. split; [done|]. by rewrite bool_decide_eq_true_2.
Qed.

Lemma erase_key_loop fuel h key m :
  hash_ok h -> size h <= 2 ^ 30 -> (length (pairs (table h)) < fuel)%nat ->
  exists h' m', erase_key fuel h key m = inr (h', m') /\ hash_ok h' /\ opts h' = opts h /\
    pairs (table h') ≡ₚ filter (fun x => matches key x = false) (pairs (table h)).
Proof using HKF.
  revert h m. induction fuel as [|fuel IH]; intros h m Hok Hsz Hf; [lia|]. cbn [erase_key].
  destruct (find_ok h key Hok) as (it & -> & [[-> Hno]|(p & n & -> & Hact & Hm)]); cbn [rbind].
  - rewrite end_is_end. eexists _, _. split; [done|]. split; [done|]. split; [done|]. by rewrite filter_all_pairs.
  - rewrite (proj2 (active_deref h p n Hact)). destruct (hash_erase_ok h p n m Hok Hsz Hact) as (h1 & q & m1 & -> & Hok1 & Hp1 & Ho1 & _). cbn [rbind].
    pose proof (Permutation_length Hp1) as Hlen. cbn in Hlen. destruct (IH h1 m1 Hok1) as (h2 & m2 & -> & Hok2 & Ho2 & Hp2); [|lia|].
    + rewrite (ho_size _ _ _ _ _ Hok1). rewrite (ho_size _ _ _ _ _ Hok) in Hsz. lia.
    + eexists _, _. split; [done|]. split; [done|]. split; [congruence|]. rewrite Hp2, Hp1. rewrite filter_cons_False; [done|]. by rewrite Hm.
Qed.

(* --------------------------------------------------------------------- *)
(** ** Clearing and copying *)

Lemma clear_ok h m :
  hash_ok h -> exists h' m', stdhash_clear h m = inr (h', m') /\ hash_ok h' /\ pairs (table h') = [] /\ opts h' = opts h.
Proof using HKF.
  intros Hok. assert (Hlow : let h1 := stdhash_low_clear h in hash_ok h1 /\ pairs (table h1) = [] /\ opts h1 = opts h).
  { cbv zeta. unfold stdhash_low_clear. pose proof (pairs_length (table h)) as Hpl. destruct (Z.eqb_spec (num_nodes h) 0) as [E0|E0].
    - rewrite (ho_nodes _ _ _ _ _ Hok) in E0. split; [done|]. split; [|done]. destruct (pairs (table h)); [done|cbn in Hpl; lia].
    - pose proof (ho_shape _ _ _ _ _ Hok) as Hs. inversion Hs as [E Em El|lg Ht Hl Em El]; [rewrite (ho_nodes _ _ _ _ _ Hok), E in E0; done|].
      rewrite (to_length _ _ _ _ _ Ht). destruct (fresh_table hf ks vs lg ltac:(apply Ht)) as (Hf & En & Ep). split; [|by cbn].
      split; [apply Hok| | | |]; cbn [table cap_min1 cap_lg num_nodes size begin set_counts]; rewrite ?En, ?Ep; try done.
      + rewrite <- Em, <- El. apply a_table; [done|]. rewrite En. cbn. lia.
      + rewrite <- (length_replicate (2 ^ lg) (None (A := hnode))) at 2. by apply empty_next. }
  cbv zeta in Hlow. destruct Hlow as (Hok1 & Hp1 & Ho1). unfold stdhash_clear. set (h1 := stdhash_low_clear h) in *. clearbody h1. destruct (must_shrink h1); [|by eexists _, _].
  assert (Es : size h1 = 0) by (by rewrite (ho_size _ _ _ _ _ Hok1), Hp1).
  destruct (rehash_ok cf hf ks vs h1 (size h1) m Hok1 ltac:(lia)) as (ret & h2 & m2 & -> & _ & Hr). cbn [rbind].
  destruct Hr as [[-> ->]|[-> [R1 R2 R3 R4 R5 R6]]]; [by eexists _, _|]. eexists _, _. split; [done|]. split; [done|]. split; [|congruence].
  apply Permutation_nil. by rewrite R2, Hp1.
Qed.

Lemma clone_ok t m : exists r m', clone_nodes t m = (r, m') /\ (r = None \/ r = Some t) /\ (enough m -> r = Some t /\ enough m').
Proof using Type.
  revert m. induction t as [|[n|] t IH]; intros m; cbn [clone_nodes]; [by eexists _, _; split; [|split; [right|]]| |].
  - destruct (malloc_ok m) as (b & m1 & -> & Hm). destruct b; [|eexists _, _; split; [done|]; split; [by left|intros He; by destruct (Hm He)]].
    destruct (IH m1) as (r & m2 & -> & Hr & He). eexists _, _. split; [done|]. split; [destruct Hr as [->| ->]; [by left|by right]|].
    intros Hen. destruct (Hm Hen) as [_ H1]. by destruct (He H1) as [-> H2].
  - destruct (IH m) as (r & m2 & -> & Hr & He). eexists _, _. split; [done|]. split; [destruct Hr as [->| ->]; [by left|by right]|].
    intros Hen. by destruct (He Hen) as [-> H2].
Qed.

(** A copy has the same table of its own, or memory ran out and it is left
    illegal. *)
Lemma hash_copy_ok h m :
  hash_ok h -> exists ret h' m', stdhash_copy_construct h m = (ret, h', m') /\ (enough m -> ret = STDESUCCESS /\ enough m') /\
    (ret = STDESUCCESS /\ hash_ok h' /\ table h' = table h /\ opts h' = opts h \/ ret = STDENOMEM /\ table h' = [] /\ ksize h' = 0).
Proof using Type.
  intros Hok. unfold stdhash_copy_construct. destruct (table h) as [|c t] eqn:Et; [eexists _, _, _; split; [done|]; split; [done|left; by rewrite Et]|].
  rewrite <- Et. destruct (malloc_ok m) as (b & m1 & -> & Hm). destruct b; cbn [negb].
  - destruct (clone_ok (table h) m1) as (r & m2 & -> & Hr & He).
    assert (Henough : enough m -> r = Some (table h) /\ enough m2) by (intros H; destruct (Hm H); auto).
    destruct Hr as [->| ->]; eexists _, _, _; (split; [done|]); (split; [intros H; by destruct (Henough H)|]); [by right|left].
    split; [done|]. split; [|done]. split; apply Hok.
  - eexists _, _, _. split; [done|]. split; [intros H; by destruct (Hm H)|by right].
Qed.

(* --------------------------------------------------------------------- *)
(** ** Iteration *)

(** [for (stdhash_begin( h, &it ); !stdhash_is_end( h, &it ); stdhash_it_next( &it ))]. *)
Fixpoint iterate (fuel : nat) h (it : stdit) : res (list pair) :=
  match fuel with
  | O => inl (Diverges "iteration")
  | S fuel =>
      if stdhash_is_end h it then inr []
      else
        let? n := deref h it in
        let? it := stdhash_it_next h it in
        let? l := iterate fuel h it in
        inr ((nkey n, nval n) :: l)
  end.

Lemma iterate_ok fuel h p q :
  is_next (table h) p q -> (length (pairs (drop p (table h))) < fuel)%nat -> iterate fuel h (it_of h q) = inr (pairs (drop p (table h))).
Proof using Type.
  revert p q. induction fuel as [|fuel IH]; intros p q Hq Hf; [lia|]. cbn [iterate]. pose proof Hq as (Hb & _ & Ha).
  rewrite (pairs_next _ _ _ Hq) in *. destruct (table h !! q) as [c|] eqn:Ec.
  - specialize (Ha c eq_refl). destruct c as [n|]; [|done]. cbn in Ha. assert (Hact : active_at h q n) by (split; [done|lia]).
    destruct (active_deref h q n Hact) as [-> ->]. cbn [rbind]. rewrite (drop_S _ _ _ Ec), pairs_active in * by apply Hact. cbn [length] in Hf.
    apply lookup_lt_Some in Ec as Hlt. destruct (next_from_ok (table h) (S (length (table h))) (S q) ltac:(lia)) as (q' & Eq' & Hq').
    unfold stdhash_it_next, it_walk, stdhash_low_next. cbn [it_of it_node it_table fst snd]. rewrite bool_decide_eq_true_2, Eq' by done. cbn [rbind].
    change (mkIt (h_block h, q') (h_block h)) with (it_of h q'). rewrite (IH (S q) q' Hq') by lia. done.
  - apply lookup_ge_None in Ec. rewrite drop_ge by done. unfold stdhash_is_end. rewrite bool_decide_eq_true_2; [done|]. cbn. f_equal. lia.
Qed.

(** Backward from a position: [stdhash_it_prev] gives the pairs before it in
    reverse. *)
Lemma prev_ok t p x l :
  pairs (take p t) = l ++ [x] -> (p <= length t)%nat ->
  exists q n, stdhash_low_prev t p = inr q /\ t !! q = Some (Some n) /\ hcode n <> 0 /\ x = (nkey n, nval n) /\ pairs (take q t) = l.
Proof using Type.
  revert x l. induction p as [|p IH]; intros x l Hp Hl; [by destruct l|]. cbn [stdhash_low_prev].
  destruct (lookup_lt_is_Some_2 t p) as [c Ec]; [lia|].
  unfold cell. rewrite Ec. cbn [or_err rbind]. rewrite (take_S_r _ _ _ Ec) in Hp. unfold pairs in Hp. rewrite omap_app in Hp.
  destruct (hole c) eqn:Eh.
  - assert (Ep : pair_of c = None) by (destruct (pair_of c) eqn:E; [|done]; assert (hole c = false) by (apply hole_pair; by rewrite E); congruence).
    cbn in Hp. rewrite Ep, app_nil_r in Hp. apply IH; [done|lia].
  - destruct c as [n|]; [|done]. cbn in Eh. assert (Hn : hcode n <> 0) by lia. change (omap pair_of [Some n]) with (pairs [Some n]) in Hp.
    rewrite pairs_active in Hp by done. apply app_inj_tail in Hp as [Hp <-]. by exists p, n.
Qed.

(** [q] is at the pair with index [i], or at the end when there are [i]. *)
Definition at_rank t q i : Prop :=
  (q <= length t)%nat /\ length (pairs (take q t)) = i /\ forall c, t !! q = Some c -> hole c = false.

Lemma pairs_split t q : pairs t = pairs (take q t) ++ pairs (drop q t).
Proof using Type. unfold pairs. by rewrite <- omap_app, take_drop. Qed.

Lemma rank_active t q i : at_rank t q i -> (i < length (pairs t))%nat ->
  exists n, t !! q = Some (Some n) /\ hcode n <> 0 /\ pairs t !! i = Some (nkey n, nval n) /\ length (pairs (drop (S q) t)) = (length (pairs t) - S i)%nat.
Proof using Type.
  intros (Hq & Hi & Ha) Hlt. pose proof (pairs_split t q) as E. destruct (t !! q) as [c|] eqn:Ec.
  - specialize (Ha c eq_refl). destruct c as [n|]; [|done]. cbn in Ha. exists n. split; [done|]. split; [lia|].
    rewrite (drop_S _ _ _ Ec), pairs_active in E by lia. split.
    + rewrite E, <- Hi. by apply list_lookup_middle.
    + rewrite E, length_app. cbn. lia.
  - apply lookup_ge_None in Ec. rewrite drop_ge in E by done. rewrite E, length_app in Hlt. cbn in Hlt. lia.
Qed.

Lemma rank_unique_next t p q i : is_next t p q -> length (pairs (drop p t)) = (length (pairs t) - i)%nat -> (i <= length (pairs t))%nat -> at_rank t q i.
Proof using Type.
  intros Hq Hl Hi. rewrite (pairs_next _ _ _ Hq) in Hl. destruct Hq as (? & _ & Ha). split; [lia|]. split; [|done].
  pose proof (f_equal length (pairs_split t q)) as E. rewrite length_app in E. lia.
Qed.

Lemma advance_ok h d q i :
  at_rank (table h) q i -> (i + d <= length (pairs (table h)))%nat ->
  exists q', stdhash_it_advance h (it_of h q) d = inr (it_of h q') /\ at_rank (table h) q' (i + d).
Proof using Type.
  revert q i. induction d as [|d IH]; intros q i Hr Hd; [exists q; by rewrite Nat.add_0_r|]. cbn [stdhash_it_advance].
  destruct (rank_active _ _ _ Hr ltac:(lia)) as (n & Ec & _ & _ & Hl). apply lookup_lt_Some in Ec.
  destruct (next_from_ok (table h) (S (length (table h))) (S q) ltac:(lia)) as (q' & Eq' & Hq').
  unfold stdhash_it_next, it_walk, stdhash_low_next. cbn [it_of it_node it_table fst snd]. rewrite bool_decide_eq_true_2, Eq' by done. cbn [rbind].
  rewrite <- Nat.add_succ_comm. apply IH; [|lia]. apply (rank_unique_next _ _ _ _ Hq' Hl). lia.
Qed.

Lemma retreat_ok h d q i :
  at_rank (table h) q (d + i) -> exists q', stdhash_it_retreat h (it_of h q) d = inr (it_of h q') /\ at_rank (table h) q' i.
Proof using Type.
  revert q. induction d as [|d IH]; intros q Hr; [by exists q|]. destruct Hr as (Hq & Hl & _). cbn [stdhash_it_retreat].
  destruct (pairs (take q (table h))) as [|x l _] eqn:E using rev_ind; [done|]. destruct (prev_ok _ _ _ _ E Hq) as (q' & n & Eq & Ec & Hn & _ & El).
  unfold stdhash_it_prev, it_walk. cbn [it_of it_node it_table fst snd]. rewrite bool_decide_eq_true_2, Eq by done. cbn [rbind]. apply IH.
  apply lookup_lt_Some in Ec as Hlt. rewrite length_app in Hl. cbn in Hl. split; [lia|]. split; [rewrite El; lia|]. intros c Hc. rewrite Ec in Hc. injection Hc as <-. cbn. lia.
Qed.

(** [stdhash_get], from whichever end is nearer. *)
Lemma get_ok h i x :
  hash_ok h -> pairs (table h) !! i = Some x -> exists p n, stdhash_get h (Z.of_nat i) = inr (it_of h p) /\ active_at h p n /\ x = (nkey n, nval n).
Proof using Type.
  intros Hok Hx. apply lookup_lt_Some in Hx as Hlt. assert (Hg : exists p, stdhash_get h (Z.of_nat i) = inr (it_of h p) /\ at_rank (table h) p i).
  { unfold stdhash_get. rewrite (ho_size _ _ _ _ _ Hok). destruct (_ <=? _).
    - rewrite Nat2Z.id. apply (advance_ok h i (begin h) 0); [|lia]. apply (rank_unique_next _ 0); [apply Hok|rewrite drop_0; lia|lia].
    - apply (retreat_ok h _ (length (table h))). split; [done|]. split; [rewrite firstn_all; lia|]. intros c Hc. apply lookup_lt_Some in Hc. lia. }
  destruct Hg as (p & E & Hr). destruct (rank_active _ _ _ Hr Hlt) as (n & Hn & Hh & Hp & _). exists p, n. split; [done|]. split; [done|]. by injection (eq_trans (eq_sym Hx) Hp).
Qed.

(* --------------------------------------------------------------------- *)
(** ** Iteration over the pairs of a key *)

(** [for (stdhash_find( h, &it, key ); !stdhash_is_end( h, &it ); stdhash_keyed_next( h, &it ))]. *)
Fixpoint keyed_iterate (fuel : nat) h (it : stdit) : res (list pair) :=
  match fuel with
  | O => inl (Diverges "iteration")
  | S fuel =>
      if stdhash_is_end h it then inr []
      else
        let? n := deref h it in
        let? it := stdhash_keyed_next h it in
        let? l := keyed_iterate fuel h it in
        inr ((nkey n, nval n) :: l)
  end.

Section keyed.
Context h lg (key : list Z) (h1 h2 last : nat).
Context (Hok : hash_ok h) (Ht : table_ok (table h) lg) (Em : cap_min1 h = 2 ^ Z.of_nat lg - 1) (El : cap_lg h = Z.of_nat lg).
Context (Eh : stdhash_low_hash (khash hf key) (2 ^ Z.of_nat lg - 1) (Z.of_nat lg) = inr (h1, h2)) (H2 : (h2 < 2 ^ lg)%nat) (Ho : Z.Odd (Z.of_nat h2)).
Context (Hlast : (last < 2 ^ lg)%nat) (Hempty : table h !! spot (2 ^ lg) h1 h2 last = Some None).
Context (Hfull : forall i, (i < last)%nat -> is_Some (mjoin (table h !! spot (2 ^ lg) h1 h2 i))).
Abbreviation test := (find_test h true key (khash hf key)).
Abbreviation at_index i := (table h !! spot (2 ^ lg) h1 h2 i).

Definition hit (c : option hnode) : option pair := match c with Some n => if test n then Some (nkey n, nval n) else None | None => None end.
(** The pairs of the key on the probe sequence, from index [i] on. *)
Definition hits i d : list pair := omap (fun i => at_index i ≫= hit) (seq i d).

Lemma test_iff n : test n = true <-> hcode n = khash hf key /\ kcmp cf key (nkey n) = 0.
Proof using Hok. unfold find_test. rewrite (low_cmp_fn cf hf ks vs h _ _ Hok), andb_true_iff, !Z.eqb_eq. done. Qed.

Lemma same_key_test c n : test n = true -> same_key h c n = test c.
Proof using HKF Hok.
  intros [Hn Hk]%test_iff. unfold same_key, find_test. rewrite !(low_cmp_fn cf hf ks vs h _ _ Hok), Hn. f_equal.
  apply eq_true_iff_eq. rewrite !Z.eqb_eq. split; intros H; [eapply kf_trans; [exact Hk|by apply kf_sym]|eapply kf_trans; [by apply kf_sym|exact Hk]].
Qed.

Lemma keyed_next_at n d i fuel :
  test n = true -> (S i + d = last)%nat -> (d < fuel)%nat ->
  exists r, keyed_next fuel h n (spot (2 ^ lg) h1 h2 i) h2 = inr r /\
    (r = length (table h) /\ hits (S i) d = [] \/
     exists j c d', r = spot (2 ^ lg) h1 h2 j /\ (j + S d' = last)%nat /\ at_index j = Some (Some c) /\ test c = true /\ hits (S i) d = (nkey c, nval c) :: hits (S j) d').
Proof using HKF Hok Ht H2 Hlast Hempty Hfull.
  intros Hn. revert i fuel. induction d as [|d IH]; intros i fuel Hi Hf; (destruct fuel as [|fuel]; [lia|]); cbn [keyed_next]; rewrite (to_length _ _ _ _ _ Ht), offset_spot by done.
  - rewrite Nat.add_0_r in Hi. rewrite Hi. unfold cell. rewrite Hempty. cbn [or_err rbind]. eexists. split; [done|]. by left.
  - destruct (Hfull (S i) ltac:(lia)) as [c Ec]. unfold cell. destruct (at_index (S i)) as [[c'|]|] eqn:E; [|done|done]. cbn in Ec. injection Ec as ->. cbn [or_err rbind].
    rewrite same_key_test by done. unfold hits. cbn [seq omap list_omap]. rewrite E. cbn [mbind option_bind hit]. destruct (test c) eqn:Et.
    + eexists. split; [done|]. right. exists (S i), c, d. split; [done|]. split; [lia|]. done.
    + destruct (IH (S i) fuel ltac:(lia) ltac:(lia)) as (r & Er & Hr). exists r. rewrite (to_length _ _ _ _ _ Ht) in Hr. done.
Qed.

Lemma keyed_iterate_at fuel c d i :
  at_index i = Some (Some c) -> test c = true -> (i + S d = last)%nat -> (S (length (hits (S i) d)) < fuel)%nat ->
  keyed_iterate fuel h (it_of h (spot (2 ^ lg) h1 h2 i)) = inr ((nkey c, nval c) :: hits (S i) d).
Proof using All.
  revert c d i. induction fuel as [|fuel IH]; intros c d i Ec Et Hi Hf; [lia|]. cbn [keyed_iterate].
  assert (Hact : active_at h (spot (2 ^ lg) h1 h2 i) c) by (split; [done|]; apply test_iff in Et as [-> _]; apply khash_nonzero).
  destruct (active_deref h _ c Hact) as [Ed ->]. rewrite Ed. cbn [rbind]. unfold stdhash_keyed_next. rewrite Ed. cbn [rbind it_of it_node it_table snd].
  pose proof (proj1 (test_iff c) Et) as [-> _]. rewrite Em, El, Eh. cbn [rbind].
  destruct (keyed_next_at c d i (length (table h)) Et ltac:(lia)) as (r & -> & Hr); [rewrite (to_length _ _ _ _ _ Ht); lia|]. cbn [rbind].
  destruct Hr as [[-> Hh]|(j & c' & d' & -> & Hj & Ec' & Et' & Hh)]; rewrite Hh.
  - destruct fuel; [lia|]. cbn [keyed_iterate]. unfold stdhash_is_end. cbn [it_node]. by rewrite bool_decide_eq_true_2.
  - rewrite Hh in Hf. cbn [length] in Hf. change (mkIt (h_block h, spot (2 ^ lg) h1 h2 j) (h_block h)) with (it_of h (spot (2 ^ lg) h1 h2 j)).
    rewrite (IH c' d' j) by (done || lia). done.
Qed.

Lemma no_hits i : (last <= i < 2 ^ lg)%nat -> at_index i ≫= hit = None.
Proof using HKF Hok Ht Eh H2 Ho Hlast Hempty.
  intros Hi. destruct (at_index i) as [[c|]|] eqn:Ec; [|done|done]. cbn [mbind option_bind hit]. destruct (test c) eqn:Et; [|done]. exfalso.
  apply test_iff in Et as [Hh _]. destruct (to_nodes _ _ _ _ _ Ht _ c Ec) as [_ _ (h1' & h2' & i' & Eh' & Hi' & Es & Hbe)]; [rewrite Hh; apply khash_nonzero|].
  rewrite Hh, Eh in Eh'. injection Eh' as <- <-. apply (spot_inj lg h1 h2 i' i Ho Hi') in Es as ->; [|lia].
  destruct (decide (i = last)) as [->|]; [by rewrite Hempty in Ec|]. specialize (Hbe last ltac:(lia)). rewrite Hempty in Hbe. by destruct Hbe.
Qed.
End keyed.

Lemma omap_seq {B} (f : option hnode -> option B) t : omap (fun p => t !! p ≫= f) (seq 0 (length t)) = omap f t.
Proof using Type.
  induction t as [|c t IH] using rev_ind; [done|]. rewrite length_app, seq_app, !omap_app. f_equal.
  - rewrite <- IH. apply list_omap_ext, Forall2_same_length_lookup_2; [done|]. intros i p q Hp Hq. rewrite Hp in Hq. injection Hq as <-.
    apply lookup_seq in Hp as [-> Hp]. by rewrite lookup_app_l by lia.
  - cbn. by rewrite lookup_app_r, Nat.sub_diag by lia.
Qed.

Lemma omap_none {A B} (f : A -> option B) (l : list A) : (forall y, y ∈ l -> f y = None) -> omap f l = [].
Proof using Type. induction l as [|y l IH]; intros H; [done|]. cbn. rewrite H by left. apply IH. intros z Hz. apply H. by right. Qed.

Lemma spots_perm lg (h1 h2 : nat) : Z.Odd (Z.of_nat h2) -> (h1 < 2 ^ lg)%nat -> spot (2 ^ lg) h1 h2 <$> seq 0 (2 ^ lg) ≡ₚ seq 0 (2 ^ lg).
Proof using Type.
  intros Ho H1. apply NoDup_Permutation.
  - apply NoDup_fmap_2_strong; [|apply NoDup_seq]. intros i j Hi%elem_of_seq Hj%elem_of_seq. apply spot_inj; [done|lia|lia].
  - apply NoDup_seq.
  - intros p. rewrite list_elem_of_fmap, elem_of_seq. split.
    + intros (i & -> & Hi%elem_of_seq). split; [lia|]. apply spot_lt. lia.
    + intros [_ Hp]. destruct (spot_surj lg h1 h2 p Ho H1 Hp) as (i & Hi & <-). exists i. split; [done|]. apply elem_of_seq. lia.
Qed.

(** The hits are the pairs with the key. *)
Lemma hits_filter h key t :
  hash_ok h -> (forall n, Some n ∈ t -> hcode n <> 0 -> hcode n = khash hf (nkey n)) ->
  omap (hit h key) t = filter (fun x => matches key x = true) (pairs t).
Proof using HKF.
  intros Hok. induction t as [|c t IH]; intros Hn; [done|]. cbn [omap list_omap]. rewrite IH by (intros n ?; apply Hn; by right).
  destruct c as [n|]; [|done]. cbn [hit]. pose proof (test_iff h key Hok n) as Hi. destruct (decide (hcode n = 0)) as [E0|E0].
  - destruct (find_test h true key (khash hf key) n); [destruct (proj1 Hi eq_refl) as [Eh _]; rewrite E0 in Eh; by destruct (khash_nonzero hf key)|].
    unfold pairs. cbn. by rewrite E0.
  - rewrite pairs_active, filter_cons by done. pose proof (Hn n ltac:(by left) E0) as Eh.
    assert (Ek : matches key (nkey n, nval n) = true <-> kcmp cf key (nkey n) = 0) by (unfold HashOk.matches; by rewrite Z.eqb_eq).
    destruct (find_test h true key (khash hf key) n).
    + destruct (proj1 Hi eq_refl) as [_ Hk]. by rewrite decide_True by by apply Ek.
    + rewrite decide_False; [done|]. intros Hk%Ek. assert (Hf : false = true); [|done]. apply Hi. split; [|done]. by rewrite Eh, (kf_hash _ _ Hk).
Qed.

Lemma hits_split h lg key (h1 h2 : nat) i d d' : hits h lg key h1 h2 i (d + d') = hits h lg key h1 h2 i d ++ hits h lg key h1 h2 (i + d) d'.
Proof using Type. unfold hits. by rewrite seq_app, omap_app. Qed.

Lemma hits_all h lg key (h1 h2 : nat) :
  hash_ok h -> table_ok (table h) lg -> Z.Odd (Z.of_nat h2) -> (h1 < 2 ^ lg)%nat ->
  hits h lg key h1 h2 0 (2 ^ lg) ≡ₚ filter (fun x => matches key x = true) (pairs (table h)).
Proof using HKF.
  intros Hok Ht Ho H1. rewrite <- (hits_filter h key (table h) Hok), <- omap_seq, (to_length _ _ _ _ _ Ht).
  - rewrite <- (spots_perm lg h1 h2 Ho H1) at 1. unfold hits. generalize (seq 0 (2 ^ lg)). intros l. induction l as [|i l IH]; [done|]. cbn.
    destruct (table h !! spot (2 ^ lg) h1 h2 i ≫= hit h key); by rewrite IH.
  - intros n Hn Hn0. by destruct (active_nodes cf hf ks vs h n Hok Hn Hn0).
Qed.

(** From the pair that is found, all pairs with the key, each once. *)
Lemma keyed_all h key fuel :
  hash_ok h -> (length (pairs (table h)) < fuel)%nat ->
  exists it l, stdhash_find h key = inr it /\ keyed_iterate fuel h it = inr l /\ l ≡ₚ filter (fun x => matches key x = true) (pairs (table h)).
Proof using HKF.
  intros Hok Hfuel. assert (Hend : Forall (fun x => matches key x = false) (pairs (table h)) ->
    exists l, keyed_iterate fuel h (stdhash_end h) = inr l /\ l ≡ₚ filter (fun x => matches key x = true) (pairs (table h))).
  { intros Hno. exists []. split; [destruct fuel; [lia|cbn [keyed_iterate]; by rewrite end_is_end]|]. induction Hno as [|x l Hx Hl IH]; [done|].
    rewrite filter_cons_False by by rewrite Hx. apply IH. cbn in Hfuel. lia. }
  destruct (decide (size h = 0)) as [E0|E0].
  { exists (stdhash_end h). destruct Hend as (l & ? & ?); [by rewrite no_pairs|]. exists l. split; [unfold stdhash_find; by rewrite E0|done]. }
  destruct (find_located h key Hok E0) as (lg & p & Ht & Em & El & Hloc & ->). pose proof (find_match_ok cf hf ks vs h lg key p Hok Ht Hloc) as Hm.
  destruct Hloc as (h1 & h2 & j & Eh & Hj & -> & Hs & Hps). destruct (low_hash_ok (khash hf key) lg) as (h1' & h2' & Eh' & H1 & H2 & Ho); [apply kf_range|apply Ht|].
  rewrite Eh in Eh'. injection Eh' as <- <-. destruct (table h !! spot (2 ^ lg) h1 h2 j) as [[n|]|] eqn:Ec; [| |done].
  2: { destruct (Hend Hm) as (l & ? & ?). by exists (stdhash_end h), l. }
  destruct (search_stops (table h) lg h1 h2 (fun _ => false)) as (last & Hl & Hst & Hfull); [apply Ht..|done|done|].
  assert (Hempty : table h !! spot (2 ^ lg) h1 h2 last = Some None) by (destruct (table h !! spot (2 ^ lg) h1 h2 last) as [[?|]|]; done).
  assert (Hjl : (j < last)%nat).
  { destruct (Nat.lt_trichotomy j last) as [|[->|Hlt]]; [done|congruence|]. destruct (Hps last Hlt) as (n' & En' & _). congruence. }
  assert (Hall : forall i, (i < last)%nat -> is_Some (mjoin (table h !! spot (2 ^ lg) h1 h2 i))) by (intros i Hi; destruct (Hfull i Hi) as (n' & -> & _); by eexists).
  pose proof (hits_all h lg key h1 h2 Hok Ht Ho H1) as Hp. replace (2 ^ lg)%nat with (j + (S (last - S j) + (2 ^ lg - last)))%nat in Hp at 1 by lia.
  rewrite !hits_split in Hp. replace (0 + j + S (last - S j))%nat with last in Hp by lia.
  unfold hits in Hp. rewrite (omap_none _ (seq 0 j)) in Hp.
  2: { intros i [_ Hi]%elem_of_seq. destruct (Hps i Hi) as (n' & -> & En'). cbn [mbind option_bind hit]. by rewrite En'. }
  rewrite (omap_none _ (seq last _)), app_nil_r in Hp.
  2: { intros i Hi%elem_of_seq. apply (no_hits h lg key h1 h2 last Hok Ht Eh H2 Ho Hl Hempty). lia. }
  cbn [seq app omap list_omap Nat.add] in Hp. rewrite Ec in Hp. cbn [mbind option_bind hit] in Hp. cbn [stops] in Hs. rewrite Hs in Hp.
  fold (hits h lg key h1 h2 (S j) (last - S j)) in Hp. eexists _, _. split; [done|]. split; [|exact Hp].
  apply (keyed_iterate_at h lg key h1 h2 last Hok Ht Em El Eh H2 Ho Hl Hempty Hall); [done|done|lia|].
  pose proof (Permutation_length Hp) as Hlen. pose proof (length_filter (fun x => matches key x = true) (pairs (table h))). cbn [length] in Hlen. lia.
Qed.

(* --------------------------------------------------------------------- *)
(** ** The operations together *)

Lemma construct_ok o h : stdhash_construct ks vs cf hf o = Some h -> hash_ok h /\ pairs (table h) = [] /\ opts h = o.
Proof using Type.
  unfold stdhash_construct. destruct (_ || _); [done|]. intros [= <-]. split; [|done]. split; cbn; [done|by apply no_table|done|done|].
  split; [done|]. split; [lia|]. intros c Hc. done.
Qed.

(** The iterator of an insertion of one pair is at it. *)
Lemma insert_one_at h ow (x : src_pair) m ret h' it m' :
  hash_ok h -> size h < 2 ^ 30 -> sized ks vs (src_value x) -> stdhash_low_insert h [x] ow m = inr (ret, h', it, m') -> ret = STDESUCCESS ->
  exists p n, it = it_of h' p /\ active_at h' p n /\ (nkey n, nval n) = src_value x.
Proof using HKF.
  intros Hok Hsz Hx. unfold stdhash_low_insert. cbn [insert_loop].
  destruct (make_room_ok cf hf ks vs h m Hok Hsz) as (r1 & h1 & m1 & -> & Hok1 & _ & _ & Hr & _). cbn [rbind].
  destruct Hr as [[-> Hroom]|[Hr ->]]; [|rewrite (proj2 (Z.eqb_neq _ _) Hr); cbn [negb rbind]; intros [= -> _ _ _] ?; done].
  change (negb (STDESUCCESS =? STDESUCCESS)) with false. cbv iota.
  destruct (insert_pair_ok cf hf ks vs h1 ow x m1 Hok1 Hroom Hx) as (r2 & h2 & pos & m2 & -> & _ & Hr). cbn [rbind].
  destruct Hr as [(Hr & -> & ->)|(-> & Hin & p & n & -> & Hp & Hn & Hv)]; cbn [rbind].
  - intros [= -> _ _ _] ?. done.
  - intros [= _ <- <- _] _. exists p, n. unfold it_of. cbn. by split_and!.
Qed.

Lemma reserve_ok h r m :
  hash_ok h -> 0 <= r <= 2 ^ 30 ->
  exists ret h' m', stdhash_reserve h r m = inr (ret, h', m') /\ hash_ok h' /\ pairs (table h') ≡ₚ pairs (table h) /\ opts h' = opts h /\
    (ret = STDESUCCESS /\ r <= stdhash_high_thresh h' \/ ret = STDENOMEM /\ h' = h) /\ (enough m -> ret = STDESUCCESS).
Proof using HKF.
  intros Hok Hr. unfold stdhash_reserve. destruct (Z.ltb_spec (stdhash_high_thresh h) r) as [Hlt|Hge].
  - assert (Hs : size h <= stdhash_high_thresh h).
    { rewrite (high_thresh_ok cf hf ks vs h Hok). pose proof (size_nodes cf hf ks vs h Hok) as Hsn. rewrite (ho_nodes _ _ _ _ _ Hok) in Hsn.
      apply Z.div_le_lower_bound; [lia|]. pose proof (ho_shape _ _ _ _ _ Hok) as Hsh. inversion Hsh as [E Em El|lg Ht Hl Em El]; [rewrite E in Hsn; cbn in Hsn; lia|].
      rewrite (to_length _ _ _ _ _ Ht). lia. }
    destruct (rehash_ok cf hf ks vs h r m Hok ltac:(lia)) as (ret & h' & m' & -> & Hm & Hr').
    destruct Hr' as [[-> ->]|[-> [R1 R2 R3 R4 R5 R6]]]; eexists _, _, _; (split; [done|]); (split; [done|]).
    + split; [done|]. split; [done|]. split; [by right|]. intros He. by destruct (Hm He).
    + split; [done|]. split; [done|]. split; [left|done]. split; [done|]. rewrite (high_thresh_ok cf hf ks vs h' R1).
      apply Z.div_le_lower_bound; [lia|]. unfold STDHASH_MIN_AUTO_ALLOC in R6. lia.
  - eexists _, _, _. split; [done|]. split; [done|]. split; [done|]. split; [done|]. split; [by left|done].
Qed.

(** C23: a hash table is a multiset of pairs of a key and a value.  With the
    functions the hash asks for, up to [2 ^ 30] pairs and whatever memory
    there is, every operation ends, follows no pointer that is not a node's,
    keeps the table in order and does to the multiset what it says: a look-up
    finds a pair with the key or there is none; insertion adds the pairs and
    [put] replaces one with the same key, from the first on until memory or a
    table that may not grow stops it; erasing takes out the pair of the
    iterator, [erase_key] exactly the pairs of the key; clearing leaves none;
    making room and copying lose none; an iteration meets every pair once and
    one over a key every pair of the key once, and [stdhash_get] counts along
    the iteration. *)
Theorem hash_table_refines h :
  hash_ok h -> size h <= 2 ^ 30 ->
  (forall key, exists it, stdhash_find h key = inr it /\
     (it = stdhash_end h /\ Forall (fun x => matches key x = false) (pairs (table h)) \/
      exists n, deref h it = inr n /\ (nkey n, nval n) ∈ pairs (table h) /\ matches key (nkey n, nval n) = true)) /\
  (forall ow (src : list src_pair) m, Forall (fun x : src_pair => sized ks vs (src_value x)) src -> size h + Z.of_nat (length src) <= 2 ^ 30 ->
     exists ret h' it m' (k : nat), stdhash_low_insert h src ow m = inr (ret, h', it, m') /\ hash_ok h' /\
       added_all cf ow (take k (src_value <$> src)) (pairs (table h)) (pairs (table h')) /\
       (ret = STDESUCCESS /\ k = length src \/ ret <> STDESUCCESS /\ (k < length src)%nat) /\
       (enough m -> Z.land (opts h) STDHASH_OPTS_NO_AUTO_GROW = 0 -> ret = STDESUCCESS) /\
       (forall x : src_pair, src = [x] -> ret = STDESUCCESS -> exists n, deref h' it = inr n /\ (nkey n, nval n) = src_value x)) /\
  (forall p n m, active_at h p n -> exists h' it m', stdhash_erase h (it_of h p) m = inr (h', it, m') /\ hash_ok h' /\
     pairs (table h) ≡ₚ (nkey n, nval n) :: pairs (table h')) /\
  (forall key m, exists h' m', stdhash_erase_key h key m = inr (h', m') /\ hash_ok h' /\
     pairs (table h') ≡ₚ filter (fun x => matches key x = false) (pairs (table h))) /\
  (forall m, exists h' m', stdhash_clear h m = inr (h', m') /\ hash_ok h' /\ pairs (table h') = []) /\
  (forall r m, 0 <= r <= 2 ^ 30 -> exists ret h' m', stdhash_reserve h r m = inr (ret, h', m') /\ hash_ok h' /\ pairs (table h') ≡ₚ pairs (table h) /\
     (ret = STDESUCCESS /\ r <= stdhash_high_thresh h' \/ ret = STDENOMEM /\ h' = h)) /\
  (forall m, exists ret h' m', stdhash_copy_construct h m = (ret, h', m') /\
     (ret = STDESUCCESS /\ hash_ok h' /\ table h' = table h \/ ret = STDENOMEM /\ table h' = [])) /\
  (forall fuel, (length (pairs (table h)) < fuel)%nat ->
     iterate fuel h (stdhash_begin h) = inr (pairs (table h)) /\
     forall key, exists it l, stdhash_find h key = inr it /\ keyed_iterate fuel h it = inr l /\ l ≡ₚ filter (fun x => matches key x = true) (pairs (table h))) /\
  (forall i x, pairs (table h) !! i = Some x -> exists it n, stdhash_get h (Z.of_nat i) = inr it /\ deref h it = inr n /\ x = (nkey n, nval n)).
Proof using HKF.
  intros Hok Hsz. split_and!.
  - intros key. destruct (find_ok h key Hok) as (it & -> & [?|(p & n & -> & Hact & Hm)]); eexists; (split; [done|]); [by left|right].
    exists n. split; [apply (active_deref h p n Hact)|]. split; [by eapply pair_in; apply Hact|done].
  - intros ow src m Hsrc Hl. destruct (insert_loop_ok cf hf ks vs ow src h None m Hok Hsrc Hl) as (ret & h' & f' & m' & k & E & Hok' & _ & Ha & Hk & Hg).
    pose proof E as E'. unfold stdhash_low_insert. rewrite E. cbn [rbind]. eexists _, _, _, _, k. split; [done|]. split; [done|]. split; [done|]. split; [done|]. split; [done|].
    intros x -> Hret. cbn [length] in Hl. apply Forall_cons in Hsrc as [Hsrc _].
    destruct (insert_one_at h ow x m ret h' (mkIt (default (h_block h', length (table h')) f') (h_block h')) m') as (p & n & Ei & Hact & Hv); [exact Hok|lia|exact Hsrc| |exact Hret|].
    { unfold stdhash_low_insert. by rewrite E'. }
    exists n. rewrite Ei. split; [apply (active_deref h' p n Hact)|done].
  - intros p n m Hact. destruct (hash_erase_ok h p n m Hok Hsz Hact) as (h' & q & m' & -> & Hok' & Hp & _). by eexists _, _, _.
  - intros key m. destruct (erase_key_loop (S (Z.to_nat (size h))) h key m Hok Hsz) as (h' & m' & E & ? & _ & ?); [rewrite (ho_size _ _ _ _ _ Hok); lia|]. by exists h', m'.
  - intros m. destruct (clear_ok h m Hok) as (h' & m' & ? & ? & ? & _). by exists h', m'.
  - intros r m Hr. destruct (reserve_ok h r m Hok Hr) as (ret & h' & m' & ? & ? & ? & _ & ? & _). by exists ret, h', m'.
  - intros m. destruct (hash_copy_ok h m Hok) as (ret & h' & m' & ? & _ & [(? & ? & ? & _)|(? & ? & _)]); exists ret, h', m'; auto.
  - intros fuel Hf. split; [|intros key; by apply keyed_all]. rewrite <- (drop_0 (table h)). apply iterate_ok; [apply Hok|by rewrite drop_0].
  - intros i x Hx. destruct (get_ok h i x Hok Hx) as (p & n & -> & Hact & ->). eexists _, n. split; [done|]. split; [apply (active_deref h p n Hact)|done].
Qed.
End use.

Lemma hash_table_refines_witness :
  exists h0, stdhash_construct 2 1 None None 0 = Some h0 /\ HashOk.hash_ok None None 2 1 h0 /\
  exists ret h1 it m1, stdhash_insert_n h0 [[1; 2]; [3; 4]; [1; 2]; [5; 6]] [[10]; [20]; [30]; [40]] [] = inr (ret, h1, it, m1) /\ ret = STDESUCCESS /\
    pairs (table h1) ≡ₚ [([1; 2], [10]); ([3; 4], [20]); ([1; 2], [30]); ([5; 6], [40])] /\
    (exists h2 m2, stdhash_erase_key h1 [1; 2] [] = inr (h2, m2) /\ pairs (table h2) ≡ₚ [([3; 4], [20]); ([5; 6], [40])]).
Proof.
  eexists. split; [reflexivity|]. match goal with |- HashOk.hash_ok _ _ _ _ ?h /\ _ => destruct (construct_ok None None 2 1 0 h eq_refl) as (Hok & Hp & Ho); set (h0 := h) in * end.
  split; [exact Hok|]. clearbody h0. assert (Hs : size h0 = 0) by (by rewrite (ho_size _ _ _ _ _ Hok), Hp).
  destruct (hash_table_refines None None 2 1 h0 Hok ltac:(lia)) as (_ & Hins & _).
  destruct (Hins false (pptr [[1; 2]; [3; 4]; [1; 2]; [5; 6]] [[10]; [20]; [30]; [40]]) []) as (ret & h1 & it & m1 & k & E & Hok1 & Ha & Hk & Hg & _).
  { repeat constructor. }
  { rewrite Hs. cbn. lia. }
  specialize (Hg ltac:(constructor)). rewrite Ho in Hg. specialize (Hg eq_refl). destruct Hk as [[_ ->]|[? _]]; [|done].
  exists ret, h1, it, m1. split; [exact E|]. split; [exact Hg|]. rewrite Hp in Ha. apply added_all_insert in Ha. cbn in Ha. split; [exact Ha|].
  destruct (hash_table_refines None None 2 1 h1 Hok1) as (_ & _ & _ & Her & _).
  { rewrite (ho_size _ _ _ _ _ Hok1), Ha. cbn. lia. }
  destruct (Her [1; 2] []) as (h2 & m2 & E2 & _ & Hp2). exists h2, m2. split; [exact E2|]. by rewrite Hp2, Ha.
Defined.
