(* ===== verification/CircArray.v ===== *)
(** * Circular arrays ([stdutil/src/stdcarr.c])

    A sequence of values kept in a block of memory that wraps around: [begin]
    and [end] are positions in the block, one place stays free so that they
    differ unless the array is empty.  Inserting and erasing shift the part
    before or the part behind, with the moves of memory cut where the block
    ends; a block that is too small or too large is replaced.

    A position is an offset from [base].  Memory that was not written holds
    [None].  A move reads or writes inside the block or is undefined, and so is
    a [memcpy] of parts that overlap.  An array numbers the blocks it has had,
    [NULL] being one without memory. *)

From Stdlib Require Import ZArith Lia.
From stdpp Require Import base strings numbers option list.
From S2P Require Import Prelude HashTable.

(* --------------------------------------------------------------------- *)
(** ** Moves of memory *)

Definition len (t : list (option Z)) : Z := Z.of_nat (length t).

Definition read_mem (t : list (option Z)) (a n : Z) : res (list (option Z)) :=
  if n =? 0 then inr []
  else if (0 <=? a) && (0 <=? n) && (a + n <=? len t) then inr (take (Z.to_nat n) (drop (Z.to_nat a) t))
  else inl (Undefined "stdcarr: read outside the block").
Definition write_mem (t : list (option Z)) (a : Z) (l : list (option Z)) : res (list (option Z)) :=
  if Z.of_nat (length l) =? 0 then inr t
  else if (0 <=? a) && (a + Z.of_nat (length l) <=? len t) then
    inr (take (Z.to_nat a) t ++ l ++ drop (Z.to_nat a + length l) t)
  else inl (Undefined "stdcarr: write outside the block").
Definition memmove (t : list (option Z)) (dst src n : Z) : res (list (option Z)) :=
  let? l := read_mem t src n in write_mem t dst l.
(** [memcpy] inside one block: the parts are disjoint. *)
Definition memcpy_in (t : list (option Z)) (dst src n : Z) : res (list (option Z)) :=
  if (n =? 0) || (dst + n <=? src) || (src + n <=? dst) then memmove t dst src n
  else inl (Undefined "stdcarr: memcpy overlaps").

(* --------------------------------------------------------------------- *)
(** ** Data *)

Definition STDCARR_MIN_AUTO_ALLOC : Z := 16.
Definition STDCARR_OPTS_NO_AUTO_GROW : Z := 1.
Definition STDCARR_OPTS_NO_AUTO_SHRINK : Z := 2.

(** [c_mem] is [base .. endbase]. *)
Record stdcarr : Type := mkCarr {
  c_block : nat;
  c_mem : list (option Z);
  c_begin : Z;
  c_end : Z;
  c_cap : Z;
  c_size : Z;
  c_vsize : Z;
  c_opts : Z;
}.
Definition endbase (c : stdcarr) : Z := len (c_mem c).
(** The array after a shift inside its block, and in a new block. *)
Definition shifted (t : list (option Z)) (b e sz : Z) (c : stdcarr) : stdcarr :=
  mkCarr (c_block c) t b e (c_cap c) sz (c_vsize c) (c_opts c).
Definition moved (t : list (option Z)) (e cap sz : Z) (c : stdcarr) : stdcarr :=
  mkCarr (S (c_block c)) t 0 e cap sz (c_vsize c) (c_opts c).
Definition set_c_opts (o : Z) (c : stdcarr) : stdcarr :=
  mkCarr (c_block c) (c_mem c) (c_begin c) (c_end c) (c_cap c) (c_size c) (c_vsize c) o.
Definition set_c_vsize (v : Z) (c : stdcarr) : stdcarr :=
  mkCarr (c_block c) (c_mem c) (c_begin c) (c_end c) (c_cap c) (c_size c) v (c_opts c).
Definition set_c_mem (t : list (option Z)) (c : stdcarr) : stdcarr :=
  mkCarr (c_block c) t (c_begin c) (c_end c) (c_cap c) (c_size c) (c_vsize c) (c_opts c).

(** A pointer is a block with an offset; an iterator keeps those of the array
    when it was made. *)
Record carr_it : Type := mkCarrIt {
  i_val : nat * Z;
  i_base : nat;
  i_endbase : Z;
  i_begin : Z;
  i_end : Z;
  i_vsize : Z;
}.

Definition STDCARR_INS_SHIFT_RIGHT (c : stdcarr) (p : Z) : bool :=
  if c_begin c <=? p then Z.shiftr (c_size c) 1 * c_vsize c <? p - c_begin c
  else c_end c - p <=? Z.shiftr (c_size c) 1 * c_vsize c.
Definition STDCARR_ERS_SHIFT_RIGHT (c : stdcarr) (p n : Z) : bool :=
  if c_begin c <=? p then p - c_begin c <? Z.shiftr (c_size c - n) 1 * c_vsize c
  else Z.shiftr (c_size c + n) 1 * c_vsize c <=? c_end c - p.

(** [dst] is another block: where the next byte goes after the copy. *)
Definition stdcarr_low_copy_to_buf (dst : list (option Z)) (p : Z) (c : stdcarr) (c_begin c_end : Z) : res (list (option Z) * Z) :=
  if c_begin <=? c_end then
    let diff := c_end - c_begin in
    let? l := read_mem (c_mem c) c_begin diff in
    let? dst := write_mem dst p l in
    inr (dst, p + diff)
  else
    let diff := endbase c - c_begin in
    let? l := read_mem (c_mem c) c_begin diff in
    let? dst := write_mem dst p l in
    let p := p + diff in
    let diff := c_end in
    let? l := read_mem (c_mem c) 0 diff in
    let? dst := write_mem dst p l in
    inr (dst, p + diff).

(** With [base] at 0. *)
Definition stdcarr_low_forward (p n endb : Z) : Z :=
  let p := p + n in if p <? endb then p else p - endb.
Definition stdcarr_low_backward (p n endb : Z) : Z :=
  let p := p - n in if 0 <=? p then p else endb - (0 - p).

(* --------------------------------------------------------------------- *)
(** ** Shifting *)

Definition insert_shift_right (c : stdcarr) (it delta : Z) : res (list (option Z)) :=
  let t := c_mem c in
  if c_begin c <=? c_end c then
    let diff := c_end c + delta - endbase c in
    if diff <=? 0 then memmove t (it + delta) it (c_end c - it)
    else
      let diff2 := c_end c - it in
      if diff2 <=? diff then memcpy_in t (diff - diff2) it diff2
      else
        let? t := memcpy_in t 0 (c_end c - diff) diff in
        memmove t (it + delta) it (diff2 - diff)
  else
    let diff := c_end c - it in
    if 0 <=? diff then memmove t (it + delta) it diff
    else
      let? t := memmove t delta 0 (c_end c) in
      let diff := endbase c - it in
      if diff <=? delta then memcpy_in t (delta - diff) it diff
      else
        let? t := memcpy_in t 0 (endbase c - delta) delta in
        memmove t (it + delta) it (diff - delta).
Definition stdcarr_low_insert_shift_right (c : stdcarr) (it delta new_size : Z) : res stdcarr :=
  let? t := insert_shift_right c it delta in
  inr (shifted t (c_begin c) (stdcarr_low_forward (c_end c) delta (endbase c)) new_size c).

Definition insert_shift_left (c : stdcarr) (it delta : Z) : res (list (option Z)) :=
  let t := c_mem c in
  if c_begin c <=? c_end c then
    let diff := 0 - (c_begin c - delta) in
    if diff <=? 0 then memmove t (c_begin c - delta) (c_begin c) (it - c_begin c)
    else
      let diff2 := it - c_begin c in
      if diff2 <=? diff then memcpy_in t (endbase c - diff) (c_begin c) diff2
      else
        let? t := memcpy_in t (endbase c - diff) (c_begin c) diff in
        memmove t 0 (c_begin c + diff) (diff2 - diff)
  else if c_begin c <=? it then memmove t (c_begin c - delta) (c_begin c) (it - c_begin c)
  else
    let? t := memmove t (c_begin c - delta) (c_begin c) (endbase c - c_begin c) in
    let diff := it in
    if diff <=? delta then memcpy_in t (endbase c - delta) 0 diff
    else
      let? t := memcpy_in t (endbase c - delta) 0 delta in
      memmove t 0 delta (diff - delta).
Definition stdcarr_low_insert_shift_left (c : stdcarr) (it delta new_size : Z) : res stdcarr :=
  let? t := insert_shift_left c it delta in
  inr (shifted t (stdcarr_low_backward (c_begin c) delta (endbase c)) (c_end c) new_size c).

Definition erase_shift_left (c : stdcarr) (erase_end delta : Z) : res (list (option Z)) :=
  let t := c_mem c in
  let erase_begin := erase_end - delta in
  let diff := c_end c - erase_end in
  if 0 <=? diff then
    let diff2 := 0 - erase_begin in
    if diff2 <=? 0 then memmove t erase_begin erase_end diff
    else
      let erase_begin := endbase c - diff2 in
      if diff <=? diff2 then memcpy_in t erase_begin erase_end diff
      else
        let? t := memcpy_in t erase_begin erase_end diff2 in
        memmove t 0 (erase_end + diff2) (diff - diff2)
  else
    let diff := endbase c - erase_end in
    let? t := memmove t erase_begin erase_end diff in
    let erase_begin := erase_begin + diff in
    let diff := c_end c in
    if diff <=? delta then memcpy_in t erase_begin 0 diff
    else
      let? t := memcpy_in t erase_begin 0 delta in
      memmove t 0 delta (diff - delta).
Definition stdcarr_low_erase_shift_left (c : stdcarr) (erase_end delta new_size : Z) : res stdcarr :=
  let? t := erase_shift_left c erase_end delta in
  inr (shifted t (c_begin c) (stdcarr_low_backward (c_end c) delta (endbase c)) new_size c).

Definition erase_shift_right (c : stdcarr) (erase_begin delta : Z) : res (list (option Z)) :=
  let t := c_mem c in
  let erase_end := erase_begin + delta in
  let diff := erase_begin - c_begin c in
  if 0 <=? diff then
    let diff2 := erase_end - endbase c in
    if diff2 <=? 0 then memmove t (c_begin c + delta) (c_begin c) diff
    else
      let diff3 := diff2 - diff in
      if 0 <=? diff3 then memcpy_in t diff3 (c_begin c) diff
      else
        let? t := memcpy_in t 0 (erase_begin - diff2) diff2 in
        memmove t (c_begin c + delta) (c_begin c) (- diff3)
  else
    let diff := erase_begin in
    let erase_end := erase_end - diff in
    let? t := memmove t erase_end 0 diff in
    let diff := endbase c - c_begin c in
    if diff <=? delta then memcpy_in t (erase_end - diff) (c_begin c) diff
    else
      let? t := memcpy_in t 0 (endbase c - delta) delta in
      memmove t (c_begin c + delta) (c_begin c) (diff - delta).
Definition stdcarr_low_erase_shift_right (c : stdcarr) (erase_begin delta new_size : Z) : res stdcarr :=
  let? t := erase_shift_right c erase_begin delta in
  inr (shifted t (stdcarr_low_forward (c_begin c) delta (endbase c)) (c_end c) new_size c).

(* --------------------------------------------------------------------- *)
(** ** Making and taking room *)

Definition stdcarr_high_capacity (c : stdcarr) : Z := if negb (c_cap c =? 0) then c_cap c - 1 else 0.
Definition stdcarr_low_capacity (c : stdcarr) : Z := Z.shiftr (c_cap c) 2.
(** [malloc( asize )]: a block nobody has written to. *)
Definition new_block (asize : Z) : list (option Z) := replicate (Z.to_nat asize) None.

(** The copy into the new block, [delta] bytes left free at [it]. *)
Definition copy_with_room (c : stdcarr) (mem : list (option Z)) (it delta : Z) : res (list (option Z) * Z) :=
  match c_mem c with
  | [] => inr (mem, 0)
  | _ =>
      let? '(mem, p) := stdcarr_low_copy_to_buf mem 0 c (c_begin c) it in
      let? '(mem, _) := stdcarr_low_copy_to_buf mem (p + delta) c it (c_end c) in
      inr (mem, p)
  end.

(** The result, the array and where the room is. *)
Definition stdcarr_low_insert_shift (c : stdcarr) (it delta new_size : Z) (shift_right : bool) (m : memory) : res (Z * stdcarr * Z * memory) :=
  if delta =? 0 then inr (STDESUCCESS, c, it, m)
  else if new_size <=? stdcarr_high_capacity c then
    if shift_right then
      let? c := stdcarr_low_insert_shift_right c it delta new_size in
      inr (STDESUCCESS, c, it, m)
    else
      let? c := stdcarr_low_insert_shift_left c it delta new_size in
      inr (STDESUCCESS, c, stdcarr_low_backward it delta (endbase c), m)
  else if Z.land (c_opts c) STDCARR_OPTS_NO_AUTO_GROW =? 0 then
    let new_cap := Z.max (u64 (Z.shiftl new_size 1)) STDCARR_MIN_AUTO_ALLOC in
    let asize := u64 (new_cap * c_vsize c) in
    let '(ok, m) := malloc m in
    if negb ok then inr (STDENOMEM, c, it, m)
    else
      let mem := new_block asize in
      let? '(mem, p) := copy_with_room c mem it delta in
      inr (STDESUCCESS, moved mem (new_size * c_vsize c) new_cap new_size c, p, m)
  else inr (STDEACCES, c, it, m).

(** The array stays in its block. *)
Definition erase_in_place (c : stdcarr) (it delta new_size : Z) (shift_right : bool) (m : memory) : res (stdcarr * Z * memory) :=
  if shift_right then
    let? c := stdcarr_low_erase_shift_right c it delta new_size in
    inr (c, stdcarr_low_forward it delta (endbase c), m)
  else
    let? c := stdcarr_low_erase_shift_left c it delta new_size in
    inr (c, it, m).
Definition stdcarr_low_erase_shift (c : stdcarr) (it delta new_size : Z) (shift_right : bool) (m : memory) : res (stdcarr * Z * memory) :=
  if delta =? 0 then inr (c, it, m)
  else if negb (Z.land (c_opts c) STDCARR_OPTS_NO_AUTO_SHRINK =? 0) || (stdcarr_low_capacity c <? new_size) || (c_cap c =? STDCARR_MIN_AUTO_ALLOC) then
    erase_in_place c it delta new_size shift_right m
  else
    let new_cap := Z.max (u64 (Z.shiftl new_size 1)) STDCARR_MIN_AUTO_ALLOC in
    let asize := u64 (new_cap * c_vsize c) in
    if asize =? 0 then inr (moved [] (new_size * c_vsize c) new_cap new_size c, 0, m)
    else
      let '(ok, m) := malloc m in
      if negb ok then erase_in_place c it delta new_size shift_right m
      else
        let mem := new_block asize in
        let tmp := if shift_right then stdcarr_low_forward it delta (endbase c) else it in
        let tmp2 := if shift_right then it else stdcarr_low_backward it delta (endbase c) in
        let? '(mem, p) := stdcarr_low_copy_to_buf mem 0 c (c_begin c) tmp2 in
        let? '(mem, _) := stdcarr_low_copy_to_buf mem p c tmp (c_end c) in
        inr (moved mem (new_size * c_vsize c) new_cap new_size c, p, m).

(* --------------------------------------------------------------------- *)
(** ** Making, copying, sizes *)

Definition bad_carr_opts (o : Z) : bool := negb (Z.land o (Z.lnot (Z.lor STDCARR_OPTS_NO_AUTO_GROW STDCARR_OPTS_NO_AUTO_SHRINK)) =? 0).
(** [None] for [STDEINVAL]: the array is left illegal. *)
Definition stdcarr_construct (vsize o : Z) : option stdcarr :=
  if (vsize =? 0) || bad_carr_opts o then None else Some (mkCarr 0 [] 0 0 0 0 vsize o).
(** A copy has blocks of its own; on failure it is illegal. *)
Definition stdcarr_copy_construct (src : stdcarr) (m : memory) : res (Z * stdcarr * memory) :=
  match c_mem src with
  | [] => inr (STDESUCCESS, src, m)
  | _ =>
      let asize := u64 (c_vsize src * c_cap src) in
      let '(ok, m) := malloc m in
      if negb ok then inr (STDENOMEM, set_c_vsize 0 (set_c_mem [] src), m)
      else
        let? '(mem, e) := stdcarr_low_copy_to_buf (new_block asize) 0 src (c_begin src) (c_end src) in
        inr (STDESUCCESS, moved mem e (c_cap src) (c_size src) src, m)
  end.
Definition stdcarr_destruct (c : stdcarr) : stdcarr := set_c_vsize 0 (set_c_mem [] c).
Definition stdcarr_swap (c1 c2 : stdcarr) : stdcarr * stdcarr := (c2, c1).
Definition stdcarr_size (c : stdcarr) : Z := c_size c.
Definition stdcarr_empty (c : stdcarr) : bool := c_size c =? 0.
Definition stdcarr_max_size (c : stdcarr) : Z := STDSIZE_MAX / c_vsize c.
Definition stdcarr_set_opts (c : stdcarr) (o : Z) : Z * stdcarr :=
  if bad_carr_opts o then (STDEINVAL, c) else (STDESUCCESS, set_c_opts o c).

Definition stdcarr_resize (c : stdcarr) (num_elems : Z) (m : memory) : res (Z * stdcarr * memory) :=
  if c_size c <? num_elems then
    let? '(ret, c, _, m) := stdcarr_low_insert_shift c (c_end c) (u64 ((num_elems - c_size c) * c_vsize c)) num_elems true m in
    inr (ret, c, m)
  else if num_elems <? c_size c then
    let? '(c, _, m) := stdcarr_low_erase_shift c (c_end c) (u64 ((c_size c - num_elems) * c_vsize c)) num_elems false m in
    inr (STDESUCCESS, c, m)
  else inr (STDESUCCESS, c, m).
Definition stdcarr_clear (c : stdcarr) (m : memory) : res (stdcarr * memory) :=
  let? '(_, c, m) := stdcarr_resize c 0 m in inr (c, m).
Definition stdcarr_set_eq (dst src : stdcarr) (m : memory) : res (Z * stdcarr * memory) :=
  let? '(ret, dst, m) := stdcarr_resize dst (c_size src) m in
  if negb (ret =? STDESUCCESS) then inr (ret, dst, m)
  else
    let? '(mem, e) := stdcarr_low_copy_to_buf (c_mem dst) 0 src (c_begin src) (c_end src) in
    inr (ret, shifted mem 0 e (c_size dst) dst, m).

Definition stdcarr_set_capacity (c : stdcarr) (num_elems : Z) (m : memory) : res (Z * stdcarr * memory) :=
  if num_elems =? stdcarr_high_capacity c then inr (STDESUCCESS, c, m)
  else if num_elems =? 0 then inr (STDESUCCESS, moved [] 0 0 0 c, m)
  else
    let new_cap := u64 (num_elems + 1) in
    let asize := u64 (new_cap * c_vsize c) in
    let '(ok, m) := malloc m in
    if negb ok then inr (STDENOMEM, c, m)
    else
      let c := if num_elems <? c_size c
               then shifted (c_mem c) (c_begin c) (stdcarr_low_forward (c_begin c) (u64 (num_elems * c_vsize c)) (endbase c)) num_elems c
               else c in
      let? '(mem, _) := stdcarr_low_copy_to_buf (new_block asize) 0 c (c_begin c) (c_end c) in
      inr (STDESUCCESS, moved mem (c_size c * c_vsize c) new_cap (c_size c) c, m).
Definition stdcarr_reserve (c : stdcarr) (num_elems : Z) (m : memory) : res (Z * stdcarr * memory) :=
  if stdcarr_high_capacity c <? num_elems then stdcarr_set_capacity c num_elems m else inr (STDESUCCESS, c, m).
Definition stdcarr_shrink_fit (c : stdcarr) (m : memory) : res (Z * stdcarr * memory) := stdcarr_set_capacity c (c_size c) m.

(* --------------------------------------------------------------------- *)
(** ** Iterators *)

Definition it_at (c : stdcarr) (p : Z) : carr_it := mkCarrIt (c_block c, p) (c_block c) (endbase c) (c_begin c) (c_end c) (c_vsize c).
Definition stdcarr_begin (c : stdcarr) : carr_it := it_at c (c_begin c).
Definition stdcarr_end (c : stdcarr) : carr_it := it_at c (c_end c).
Definition set_i_val (p : nat * Z) (it : carr_it) : carr_it := mkCarrIt p (i_base it) (i_endbase it) (i_begin it) (i_end it) (i_vsize it).
Definition stdcarr_is_begin (c : stdcarr) (it : carr_it) : bool := bool_decide (i_val it = (c_block c, c_begin c)).
Definition stdcarr_is_end (c : stdcarr) (it : carr_it) : bool := bool_decide (i_val it = (c_block c, c_end c)).
Definition stdcarr_it_eq (it1 it2 : carr_it) : bool := bool_decide (i_val it1 = i_val it2).
Definition stdcarr_it_val (it : carr_it) : nat * Z := i_val it.

(** The offset of the iterator, which must be in the block [b]: pointers into
    different blocks cannot be compared. *)
Definition offset_in (b : nat) (it : carr_it) : res Z :=
  if bool_decide (fst (i_val it) = b) then inr (snd (i_val it)) else inl (Undefined "stdcarr: pointers into different blocks").
Definition stdcarr_rank (c : stdcarr) (it : carr_it) : res Z :=
  let? p := offset_in (c_block c) it in
  inr (if c_begin c <=? p then (p - c_begin c) / c_vsize c else ((endbase c - c_begin c) + p) / c_vsize c).
(** [stdssize] by [stdsize] is divided as [stdsize] and the quotient taken
    for a [stdssize]. *)
Definition s64 (z : Z) : Z := (z + 2 ^ 63) mod 2 ^ 64 - 2 ^ 63.
Definition stdcarr_it_cmp (it1 it2 : carr_it) : res Z :=
  let? p1 := offset_in (i_base it1) it1 in
  let? p2 := offset_in (i_base it1) it2 in
  let ret :=
    if i_begin it1 <=? p1 then
      if i_begin it1 <=? p2 then p1 - p2 else (p1 - i_endbase it1) + (0 - p2)
    else
      if p2 <? i_begin it1 then p1 - p2 else (i_endbase it1 - p2) + p1 in
  inr (s64 (u64 ret / i_vsize it1)).
Definition stdcarr_it_advance (it : carr_it) (num_advance : Z) : res carr_it :=
  let? p := offset_in (i_base it) it in
  inr (set_i_val (i_base it, stdcarr_low_forward p (u64 (i_vsize it * num_advance)) (i_endbase it)) it).
Definition stdcarr_it_retreat (it : carr_it) (num_retreat : Z) : res carr_it :=
  let? p := offset_in (i_base it) it in
  inr (set_i_val (i_base it, stdcarr_low_backward p (u64 (i_vsize it * num_retreat)) (i_endbase it)) it).
Definition stdcarr_it_next (it : carr_it) : res carr_it :=
  let? p := offset_in (i_base it) it in
  inr (set_i_val (i_base it, stdcarr_low_forward p (i_vsize it) (i_endbase it)) it).
Definition stdcarr_it_prev (it : carr_it) : res carr_it :=
  let? p := offset_in (i_base it) it in
  inr (set_i_val (i_base it, stdcarr_low_backward p (i_vsize it) (i_endbase it)) it).
Definition stdcarr_it_offset (it : carr_it) (offset : Z) : res carr_it :=
  if 0 <=? offset then stdcarr_it_advance it offset else stdcarr_it_retreat it (- offset).
Definition stdcarr_last (c : stdcarr) : res carr_it := stdcarr_it_prev (stdcarr_end c).
Definition stdcarr_get (c : stdcarr) (elem_num : Z) : res carr_it := stdcarr_it_advance (stdcarr_begin c) elem_num.

(* --------------------------------------------------------------------- *)
(** ** Inserting and erasing *)

(** Room for [n] values before the iterator, whose place it is given. *)
Definition open_room (c : stdcarr) (it : carr_it) (n : Z) (m : memory) : res (Z * stdcarr * carr_it * memory) :=
  let? p := offset_in (c_block c) it in
  let delta := u64 (n * c_vsize c) in
  let? '(ret, c, p, m) := stdcarr_low_insert_shift c p delta (u64 (c_size c + n)) (STDCARR_INS_SHIFT_RIGHT c p) m in
  inr (ret, c, set_i_val (c_block c, p) it, m).

(** [vals] are the bytes of [num_insert] values. *)
Definition stdcarr_insert_n (c : stdcarr) (it : carr_it) (vals : list (option Z)) (num_insert : Z) (m : memory) : res (Z * stdcarr * carr_it * memory) :=
  let delta := u64 (num_insert * c_vsize c) in
  let? '(ret, c, it, m) := open_room c it num_insert m in
  if negb (ret =? STDESUCCESS) then inr (ret, c, it, m)
  else
    let p := snd (i_val it) in
    let diff := endbase c - p in
    let? t :=
      if delta <=? diff then let? l := read_mem vals 0 delta in write_mem (c_mem c) p l
      else
        let? l := read_mem vals 0 diff in
        let? t := write_mem (c_mem c) p l in
        let? l := read_mem vals diff (delta - diff) in
        write_mem t 0 l in
    inr (ret, set_c_mem t c, it, m).
Definition stdcarr_insert (c : stdcarr) (it : carr_it) (val : list (option Z)) (m : memory) := stdcarr_insert_n c it val 1 m.

(** Values one by one, with wrap around. *)
Fixpoint copy_values (src : list (list (option Z))) (t : list (option Z)) (dst v : Z) : res (list (option Z)) :=
  match src with
  | [] => inr t
  | x :: src =>
      let? l := read_mem x 0 v in
      let? t := write_mem t dst l in
      copy_values src t (stdcarr_low_forward dst v (len t)) v
  end.
(** [src] is what the source iterator yields. *)
Definition stdcarr_insert_seq_n (c : stdcarr) (it : carr_it) (src : list (list (option Z))) (m : memory) : res (Z * stdcarr * carr_it * memory) :=
  let? '(ret, c, it, m) := open_room c it (Z.of_nat (length src)) m in
  if negb (ret =? STDESUCCESS) then inr (ret, c, it, m)
  else
    let? t := copy_values src (c_mem c) (snd (i_val it)) (c_vsize c) in
    inr (ret, set_c_mem t c, it, m).
Definition stdcarr_insert_rep (c : stdcarr) (it : carr_it) (val : list (option Z)) (num_times : nat) (m : memory) :=
  stdcarr_insert_seq_n c it (replicate num_times val) m.
Definition stdcarr_push_front_n (c : stdcarr) (vals : list (option Z)) (num_push : Z) (m : memory) := stdcarr_insert_n c (stdcarr_begin c) vals num_push m.
Definition stdcarr_push_front (c : stdcarr) (val : list (option Z)) (m : memory) := stdcarr_insert c (stdcarr_begin c) val m.
Definition stdcarr_push_front_seq_n (c : stdcarr) (src : list (list (option Z))) (m : memory) := stdcarr_insert_seq_n c (stdcarr_begin c) src m.
Definition stdcarr_push_front_rep (c : stdcarr) (val : list (option Z)) (n : nat) (m : memory) := stdcarr_insert_rep c (stdcarr_begin c) val n m.
Definition stdcarr_push_back_n (c : stdcarr) (vals : list (option Z)) (num_push : Z) (m : memory) := stdcarr_insert_n c (stdcarr_end c) vals num_push m.
Definition stdcarr_push_back (c : stdcarr) (val : list (option Z)) (m : memory) := stdcarr_insert c (stdcarr_end c) val m.
Definition stdcarr_push_back_seq_n (c : stdcarr) (src : list (list (option Z))) (m : memory) := stdcarr_insert_seq_n c (stdcarr_end c) src m.
Definition stdcarr_push_back_rep (c : stdcarr) (val : list (option Z)) (n : nat) (m : memory) := stdcarr_insert_rep c (stdcarr_end c) val n m.

Definition stdcarr_pop_front_n (c : stdcarr) (num_pop : Z) (m : memory) : res (stdcarr * memory) :=
  let? '(c, _, m) := stdcarr_low_erase_shift c (c_begin c) (u64 (num_pop * c_vsize c)) (c_size c - num_pop) true m in inr (c, m).
Definition stdcarr_pop_front (c : stdcarr) (m : memory) := stdcarr_pop_front_n c 1 m.
Definition stdcarr_pop_back_n (c : stdcarr) (num_pop : Z) (m : memory) : res (stdcarr * memory) :=
  let? '(c, _, m) := stdcarr_low_erase_shift c (c_end c) (u64 (num_pop * c_vsize c)) (c_size c - num_pop) false m in inr (c, m).
Definition stdcarr_pop_back (c : stdcarr) (m : memory) := stdcarr_pop_back_n c 1 m.

Definition stdcarr_erase_n (c : stdcarr) (it : carr_it) (num_erase : Z) (m : memory) : res (stdcarr * carr_it * memory) :=
  let? p := offset_in (c_block c) it in
  let delta := u64 (num_erase * c_vsize c) in
  let shift_right := STDCARR_ERS_SHIFT_RIGHT c p num_erase in
  let p := if shift_right then p else stdcarr_low_forward p delta (endbase c) in
  let? '(c, p, m) := stdcarr_low_erase_shift c p delta (c_size c - num_erase) shift_right m in
  inr (c, set_i_val (c_block c, p) it, m).
Definition stdcarr_erase (c : stdcarr) (it : carr_it) (m : memory) := stdcarr_erase_n c it 1 m.
(** The second iterator becomes the first. *)
Definition stdcarr_erase_seq (c : stdcarr) (b e : carr_it) (m : memory) : res (stdcarr * carr_it * memory) :=
  let? diff := stdcarr_it_cmp e b in stdcarr_erase_n c b diff m.
