(* ===== verification/CircArrayOk.v ===== *)
(** * Circular arrays implement sequences

    An array of [CircArray] stands for the sequence of its bytes, from [begin]
    on around the block: all moves stay inside the block, no [memcpy] overlaps,
    and inserting and erasing do to the sequence what they say, wherever it
    wraps around and whichever side is shifted. *)

From Stdlib Require Import ZArith Lia.
From stdpp Require Import base strings numbers option list.
From S2P Require Import Prelude HashTable HashOk CircArray.

Implicit Types (t : list (option Z)) (i j a n d L : Z).

(* --------------------------------------------------------------------- *)
(** ** Bytes of a block *)

Definition byte t i : option Z := default None (t !! Z.to_nat i).

Lemma byte_take t k i : 0 <= i < k -> byte (take (Z.to_nat k) t) i = byte t i.
Proof. intros H. unfold byte. by rewrite lookup_take_lt by lia. Qed.

Lemma byte_app_l t1 t2 i : 0 <= i < len t1 -> byte (t1 ++ t2) i = byte t1 i.
Proof. unfold len. intros H. unfold byte. by rewrite lookup_app_l by lia. Qed.

Lemma byte_app_r t1 t2 i : len t1 <= i -> byte (t1 ++ t2) i = byte t2 (i - len t1).
Proof. unfold len. intros H. unfold byte. rewrite lookup_app_r by lia. do 2 f_equal. lia. Qed.

Lemma byte_drop t k i : 0 <= k -> 0 <= i -> byte (drop (Z.to_nat k) t) i = byte t (k + i).
Proof. intros Hk Hi. unfold byte. rewrite lookup_drop. do 2 f_equal. lia. Qed.

Lemma read_mem_ok t a n :
  n = 0 \/ 0 <= a /\ 0 <= n /\ a + n <= len t ->
  exists l, read_mem t a n = inr l /\ len l = n /\ forall i, 0 <= i < n -> byte l i = byte t (a + i).
Proof.
  intros H. unfold read_mem. destruct (Z.eqb_spec n 0) as [->|Hn]; [exists []; split; [done|]; split; [done|lia]|].
  destruct H as [|(Ha & Hn0 & Hl)]; [done|]. rewrite (proj2 (Z.leb_le 0 a)), (proj2 (Z.leb_le 0 n)), (proj2 (Z.leb_le _ _)) by lia.
  eexists. split; [done|]. unfold len in *. split; [rewrite length_take, length_drop; lia|]. intros i Hi. by rewrite byte_take, byte_drop by lia.
Qed.

Lemma write_mem_ok t a (l : list (option Z)) :
  len l = 0 \/ 0 <= a /\ a + len l <= len t ->
  exists t', write_mem t a l = inr t' /\ len t' = len t /\
    forall i, 0 <= i < len t -> byte t' i = if decide (a <= i < a + len l) then byte l (i - a) else byte t i.
Proof.
  intros H. unfold write_mem. fold (len l). destruct (Z.eqb_spec (len l) 0) as [E|Hn].
  { exists t. split; [done|]. split; [done|]. intros i Hi. by rewrite decide_False by lia. }
  destruct H as [|[Ha Hl]]; [done|]. rewrite (proj2 (Z.leb_le 0 a)), (proj2 (Z.leb_le _ _)) by lia. eexists. split; [done|].
  assert (Hlen : len (take (Z.to_nat a) t) = a) by (unfold len in *; rewrite length_take; lia).
  split; [unfold len in *; rewrite !length_app, length_drop; lia|]. intros i Hi. case_decide.
  - rewrite byte_app_r, byte_app_l by lia. by rewrite Hlen.
  - destruct (decide (i < a)).
    + rewrite byte_app_l, byte_take by lia. done.
    + rewrite !byte_app_r by lia. rewrite Hlen. replace (Z.to_nat a + length l)%nat with (Z.to_nat (a + len l)) by (unfold len; lia).
      rewrite byte_drop by (unfold len in *; lia). f_equal. lia.
Qed.

Lemma memmove_ok t d a n :
  n = 0 \/ 0 <= d /\ d + n <= len t /\ 0 <= a /\ a + n <= len t /\ 0 <= n ->
  exists t', memmove t d a n = inr t' /\ len t' = len t /\
    forall i, 0 <= i < len t -> byte t' i = if decide (d <= i < d + n) then byte t (a + (i - d)) else byte t i.
Proof.
  intros H. unfold memmove. destruct (read_mem_ok t a n) as (l & -> & Hl & Hb); [lia|]. cbn [rbind].
  destruct (write_mem_ok t d l) as (t' & -> & Hl' & Hb'); [lia|]. exists t'. split; [done|]. split; [done|].
  intros i Hi. rewrite Hb', Hl by done. case_decide; [|done]. apply Hb. lia.
Qed.

Lemma memcpy_ok t d a n :
  n = 0 \/ (d + n <= a \/ a + n <= d) /\ 0 <= d /\ d + n <= len t /\ 0 <= a /\ a + n <= len t /\ 0 <= n ->
  exists t', memcpy_in t d a n = inr t' /\ len t' = len t /\
    forall i, 0 <= i < len t -> byte t' i = if decide (d <= i < d + n) then byte t (a + (i - d)) else byte t i.
Proof.
  intros H. unfold memcpy_in. assert (E : (n =? 0) || (d + n <=? a) || (a + n <=? d) = true) by lia. rewrite E. apply memmove_ok. lia.
Qed.

(* --------------------------------------------------------------------- *)
(** ** Positions around a block *)

(** [i] bytes behind [b], [i] at most [L]. *)
Definition pos L (b i : Z) : Z := if b + i <? L then b + i else b + i - L.

Lemma pos_range L b i : 0 <= b < L -> 0 <= i <= L -> 0 <= pos L b i < L.
Proof. intros Hb Hi. unfold pos. destruct (Z.ltb_spec (b + i) L); lia. Qed.

Lemma forward_pos L b i d : 0 <= b < L -> 0 <= i -> 0 <= d -> i + d <= L -> stdcarr_low_forward (pos L b i) d L = pos L b (i + d).
Proof. intros. unfold stdcarr_low_forward, pos. destruct (Z.ltb_spec (b + i) L), (Z.ltb_spec (b + (i + d)) L); case_match; lia. Qed.

Lemma backward_pos L b i d : 0 <= b < L -> 0 <= d <= i -> i <= L -> stdcarr_low_backward (pos L b i) d L = pos L b (i - d).
Proof. intros. unfold stdcarr_low_backward, pos. destruct (Z.ltb_spec (b + i) L), (Z.ltb_spec (b + (i - d)) L); case_match; lia. Qed.

(** The new [begin] is [d] bytes before the old one: the same positions from
    there. *)
Lemma pos_back L b i d : 0 <= b < L -> 0 <= d < L -> 0 <= i -> i + d <= L -> pos L (stdcarr_low_backward b d L) (i + d) = pos L b i.
Proof. intros. unfold stdcarr_low_backward, pos. repeat case_match; lia. Qed.

Lemma pos_forward L b i d : 0 <= b < L -> 0 <= d < L -> 0 <= i -> i + d <= L -> pos L (stdcarr_low_forward b d L) i = pos L b (i + d).
Proof. intros. unfold stdcarr_low_forward, pos. repeat case_match; lia. Qed.

(* --------------------------------------------------------------------- *)
(** ** The four shifts *)

Section shifts.
Context (c : stdcarr) (b n r d : Z).
Abbreviation t := (c_mem c).
Abbreviation L := (endbase c).
Abbreviation at_ i := (byte t (pos L b i)).
Context (Hb : 0 <= b < L) (Ebeg : c_begin c = b) (Eend : c_end c = pos L b n) (Hr : 0 <= r <= n).

(** One move after another, then each byte traced back through them. *)
Ltac moves :=
  repeat match goal with
    | |- context [memmove ?t ?d ?a ?n] =>
        let t' := fresh "t" in let H := fresh "Hm" in let Hl := fresh "Hl" in
        destruct (memmove_ok t d a n) as (t' & -> & Hl & H); [lia|]; cbn [rbind]
    | |- context [memcpy_in ?t ?d ?a ?n] =>
        let t' := fresh "t" in let H := fresh "Hm" in let Hl := fresh "Hl" in
        destruct (memcpy_ok t d a n) as (t' & -> & Hl & H); [lia|]; cbn [rbind]
    end.
Ltac back :=
  repeat match goal with
    | H : forall i, 0 <= i < len ?t -> byte ?t' i = _ |- context [byte ?t' ?j] => rewrite (H j) by lia; case_decide; try lia
    end; try done; try (f_equal; lia).
Ltac shift :=
  repeat (case_match; try lia); moves; eexists; (split; [done|]); (split; [lia|]); split; intros i Hi; repeat (case_match; try lia); back.

Lemma insert_shift_right_ok :
  0 < d -> n + d < L ->
  exists t', insert_shift_right c (pos L b r) d = inr t' /\ len t' = L /\
    (forall i, 0 <= i < r -> byte t' (pos L b i) = at_ i) /\ (forall i, r <= i < n -> byte t' (pos L b (i + d)) = at_ i).
Proof using Hb Ebeg Eend Hr.
  intros Hd Hn. unfold insert_shift_right. rewrite Ebeg, Eend. unfold endbase in *. unfold pos.
  destruct (Z.ltb_spec (b + n) (len t)), (Z.ltb_spec (b + r) (len t)); shift.
Qed.

Lemma insert_shift_left_ok :
  0 < d -> n + d < L ->
  exists t', insert_shift_left c (pos L b r) d = inr t' /\ len t' = L /\
    (forall i, 0 <= i < r -> byte t' (pos L (stdcarr_low_backward b d L) i) = at_ i) /\ (forall i, r <= i < n -> byte t' (pos L b i) = at_ i).
Proof using Hb Ebeg Eend Hr.
  intros Hd Hn. unfold insert_shift_left. rewrite Ebeg, Eend. unfold endbase, stdcarr_low_backward in *. unfold pos.
  destruct (Z.ltb_spec (b + n) (len t)), (Z.ltb_spec (b + r) (len t)); shift.
Qed.

Lemma erase_shift_left_ok :
  0 < d -> n < L -> r + d <= n ->
  exists t', erase_shift_left c (pos L b (r + d)) d = inr t' /\ len t' = L /\
    (forall i, 0 <= i < r -> byte t' (pos L b i) = at_ i) /\ (forall i, r <= i < n - d -> byte t' (pos L b i) = at_ (i + d)).
Proof using Hb Ebeg Eend Hr.
  intros Hd Hn Hrd. unfold erase_shift_left. rewrite Eend. unfold endbase in *. unfold pos.
  destruct (Z.ltb_spec (b + n) (len t)), (Z.ltb_spec (b + (r + d)) (len t)); shift.
Qed.

Lemma erase_shift_right_ok :
  0 < d -> n < L -> r + d <= n ->
  exists t', erase_shift_right c (pos L b r) d = inr t' /\ len t' = L /\
    (forall i, 0 <= i < r -> byte t' (pos L b (i + d)) = at_ i) /\ (forall i, r + d <= i < n -> byte t' (pos L b i) = at_ i).
Proof using Hb Ebeg Eend Hr.
  intros Hd Hn Hrd. unfold erase_shift_right. rewrite Ebeg. unfold endbase in *. unfold pos.
  destruct (Z.ltb_spec (b + r) (len t)); shift.
Qed.
End shifts.

(* --------------------------------------------------------------------- *)
(** ** The sequence of an array *)

Definition used (c : stdcarr) : Z := c_size c * c_vsize c.
Definition contents (c : stdcarr) : list (option Z) :=
  (fun k => byte (c_mem c) (pos (endbase c) (c_begin c) (Z.of_nat k))) <$> seq 0 (Z.to_nat (used c)).

Record carr_ok (c : stdcarr) : Prop := {
  co_vsize : 0 < c_vsize c;
  co_mem : endbase c = c_cap c * c_vsize c;
  co_end : c_end c = pos (endbase c) (c_begin c) (used c);
  co_align : (c_vsize c | c_begin c);
  co_shape : 0 <= c_size c < c_cap c /\ 0 <= c_begin c < endbase c \/ c_cap c = 0 /\ c_size c = 0 /\ c_begin c = 0;
}.

Lemma byte_contents c i : 0 <= i < used c -> byte (contents c) i = byte (c_mem c) (pos (endbase c) (c_begin c) i).
Proof.
  intros Hi. unfold byte at 1, contents. rewrite list_lookup_fmap, lookup_seq_lt by lia. cbn. do 2 f_equal. lia.
Qed.

Lemma len_contents c : 0 <= used c -> len (contents c) = used c.
Proof. intros H. unfold len, contents. rewrite length_fmap, length_seq. lia. Qed.

Lemma byte_ext (l1 l2 : list (option Z)) : len l1 = len l2 -> (forall i, 0 <= i < len l1 -> byte l1 i = byte l2 i) -> l1 = l2.
Proof.
  unfold len. intros Hl H. apply list_eq_same_length with (n := length l1); [lia|done|].
  intros k x y Hk Hx Hy. specialize (H (Z.of_nat k) ltac:(lia)). unfold byte in H. rewrite Nat2Z.id, Hx, Hy in H. done.
Qed.

(** The contents of an array, byte by byte. *)
Lemma contents_eq c (l : list (option Z)) :
  0 <= used c -> len l = used c -> (forall i, 0 <= i < used c -> byte (c_mem c) (pos (endbase c) (c_begin c) i) = byte l i) -> contents c = l.
Proof.
  intros Hu Hl H. apply byte_ext; [by rewrite len_contents|]. intros i Hi. rewrite len_contents in Hi by done. rewrite byte_contents by done. by apply H.
Qed.

Lemma used_bounds c : carr_ok c -> 0 <= used c /\ (used c < endbase c \/ endbase c = 0 /\ used c = 0) /\ 0 <= c_begin c.
Proof.
  intros [Hv Hm _ _ Hs]. unfold used. rewrite Hm. destruct Hs as [(? & ?)|(-> & -> & ->)]; [|lia]. split; [nia|]. split; [left; nia|lia].
Qed.

(** Copying the bytes [i .. j] to another block. *)
Lemma copy_to_buf_ok (dst : list (option Z)) p c i j :
  carr_ok c -> 0 <= i <= j -> j <= used c -> 0 <= p -> p + (j - i) <= len dst ->
  exists dst', stdcarr_low_copy_to_buf dst p c (pos (endbase c) (c_begin c) i) (pos (endbase c) (c_begin c) j) = inr (dst', p + (j - i)) /\ len dst' = len dst /\
    forall q, 0 <= q < len dst -> byte dst' q = if decide (p <= q < p + (j - i)) then byte (contents c) (i + (q - p)) else byte dst q.
Proof.
  intros Hok Hij Hj Hp Hd. destruct (used_bounds c Hok) as (Hu & HL & Hb0). set (L := endbase c) in *. set (b := c_begin c) in *.
  assert (Hb : 0 <= b < L \/ L = 0 /\ b = 0) by (destruct (co_shape _ Hok) as [[_ ?]|(E & _ & ?)]; [by left|right; split; [unfold L; rewrite (co_mem _ Hok), E; lia|done]]).
  assert (Hbyte : forall q, i <= q < j -> byte (contents c) q = byte (c_mem c) (pos L b q)) by (intros q Hq; apply byte_contents; lia).
  unfold stdcarr_low_copy_to_buf. fold L. destruct (Z.leb_spec (pos L b i) (pos L b j)) as [Hle|Hgt].
  - assert (Hdiff : pos L b j - pos L b i = j - i /\ pos L b j <= L) by (unfold pos in *; repeat case_match; lia). destruct Hdiff as [-> Hjl].
    destruct (read_mem_ok (c_mem c) (pos L b i) (j - i)) as (l & -> & Hl & Hbl); [unfold pos, L, endbase in *; repeat case_match; lia|]. cbn [rbind].
    destruct (write_mem_ok dst p l) as (dst' & -> & Hl' & Hbl'); [lia|]. cbn [rbind]. exists dst'. split; [done|]. split; [done|].
    intros q Hq. rewrite Hbl', Hl by done. case_decide; [|done]. rewrite Hbl, Hbyte by lia. f_equal. unfold pos in *. repeat case_match; lia.
  - assert (Hpos : pos L b i = b + i /\ pos L b j = b + j - L /\ b + i < L /\ L <= b + j) by (unfold pos in *; repeat case_match; lia). destruct Hpos as (-> & -> & Hi & Hj').
    destruct (read_mem_ok (c_mem c) (b + i) (L - (b + i))) as (l & -> & Hl & Hbl); [unfold L, endbase in *; lia|]. cbn [rbind].
    destruct (write_mem_ok dst p l) as (d1 & -> & Hl1 & Hb1); [lia|]. cbn [rbind].
    destruct (read_mem_ok (c_mem c) 0 (b + j - L)) as (l2 & -> & Hl2 & Hbl2); [unfold L, endbase in *; lia|]. cbn [rbind].
    destruct (write_mem_ok d1 (p + (L - (b + i))) l2) as (d2 & -> & Hl3 & Hb2); [lia|]. cbn [rbind]. exists d2. split; [do 2 f_equal; lia|]. split; [lia|].
    intros q Hq. rewrite Hb2, Hl2 by lia. case_decide; [rewrite decide_True by lia|].
    + rewrite Hbl2, Hbyte by lia. f_equal. unfold pos. case_match; lia.
    + rewrite Hb1, Hl by lia. case_decide; [rewrite decide_True by lia|by rewrite decide_False by lia].
      rewrite Hbl, Hbyte by lia. f_equal. unfold pos. case_match; lia.
Qed.

(* --------------------------------------------------------------------- *)
(** ** Making room *)

(** The block an array of [n] values may be given is smaller than [2 ^ 64]. *)
Definition fits (c : stdcarr) (n : Z) : Prop := Z.max (2 * n) STDCARR_MIN_AUTO_ALLOC * c_vsize c < 2 ^ 64.

(** [c'] is [c] with room for [k] values before value [r], at [p]. *)
Record roomed (c : stdcarr) (k r : Z) (c' : stdcarr) (p : Z) : Prop := {
  ro_ok : carr_ok c';
  ro_size : c_size c' = c_size c + k;
  ro_vsize : c_vsize c' = c_vsize c;
  ro_opts : c_opts c' = c_opts c;
  ro_pos : p = pos (endbase c') (c_begin c') (r * c_vsize c);
  ro_before : forall i, 0 <= i < r * c_vsize c -> byte (c_mem c') (pos (endbase c') (c_begin c') i) = byte (contents c) i;
  ro_behind : forall i, r * c_vsize c <= i < used c -> byte (c_mem c') (pos (endbase c') (c_begin c') (i + k * c_vsize c)) = byte (contents c) i;
}.

Lemma align_back (v b d L : Z) : (v | b) -> (v | d) -> (v | L) -> (v | stdcarr_low_backward b d L).
Proof. intros. unfold stdcarr_low_backward. case_match; repeat first [apply Z.divide_sub_r|apply Z.divide_add_r|apply Z.divide_0_r|done]. Qed.

Lemma align_forward (v b d L : Z) : (v | b) -> (v | d) -> (v | L) -> (v | stdcarr_low_forward b d L).
Proof. intros. unfold stdcarr_low_forward. case_match; repeat first [apply Z.divide_sub_r|apply Z.divide_add_r|done]. Qed.

Lemma endbase_shifted t b e sz c : len t = endbase c -> endbase (shifted t b e sz c) = endbase c.
Proof. done. Qed.

Lemma new_block_len z : 0 <= z -> len (new_block z) = z.
Proof. intros H. unfold len, new_block. rewrite length_replicate. lia. Qed.

(** An array in a new block, its values at the front. *)
Lemma moved_carr_ok t cap sz c :
  0 < c_vsize c -> len t = cap * c_vsize c -> 0 <= sz < cap -> carr_ok (moved t (sz * c_vsize c) cap sz c).
Proof.
  intros Hv Hl Hs. split; cbn; [done|exact Hl| |apply Z.divide_0_r|].
  - unfold used, endbase, pos. cbn. rewrite Hl. rewrite (proj2 (Z.ltb_lt _ _)) by nia. done.
  - left. split; [done|]. unfold endbase. cbn. rewrite Hl. nia.
Qed.

Section room.
Context (c : stdcarr) (k r : Z) (Hok : carr_ok c) (Hk : 0 <= k) (Hr : 0 <= r <= c_size c) (Hfits : fits c (c_size c + k)).
Abbreviation v := (c_vsize c).

Lemma small_products : 0 <= k * v < 2 ^ 64 /\ 0 <= c_size c + k < 2 ^ 63 /\ u64 (k * v) = k * v /\ u64 (c_size c + k) = c_size c + k /\ (0 < k -> 0 < k * v) /\
  0 <= r * v <= used c /\ used c + k * v = (c_size c + k) * v.
Proof using Hok Hk Hr Hfits.
  pose proof (co_vsize _ Hok) as Hv. unfold fits, STDCARR_MIN_AUTO_ALLOC in Hfits. unfold used.
  assert (c_size c + k < 2 ^ 63) by nia. assert (0 <= k * v < 2 ^ 64) by nia. unfold u64. rewrite !Z.mod_small by nia. nia.
Qed.

Lemma high_capacity_ok : stdcarr_high_capacity c = Z.max 0 (c_cap c - 1) /\ 0 <= c_cap c.
Proof using Hok. unfold stdcarr_high_capacity. destruct (co_shape _ Hok) as [[? _]|(-> & _)]; [|done]. destruct (Z.eqb_spec (c_cap c) 0); cbn [negb]; lia. Qed.

(** With room in the block. *)
Lemma room_in_place (right : bool) :
  0 < k -> c_size c + k <= stdcarr_high_capacity c ->
  exists c' p, (if right then let? c' := stdcarr_low_insert_shift_right c (pos (endbase c) (c_begin c) (r * v)) (k * v) (c_size c + k) in inr (c', pos (endbase c) (c_begin c) (r * v))
                else let? c' := stdcarr_low_insert_shift_left c (pos (endbase c) (c_begin c) (r * v)) (k * v) (c_size c + k) in
                     inr (c', stdcarr_low_backward (pos (endbase c) (c_begin c) (r * v)) (k * v) (endbase c'))) = inr (c', p) /\ roomed c k r c' p.
Proof using Hok Hk Hr Hfits.
  intros Hk0 Hroom. destruct small_products as (Hkv & _ & _ & _ & Hkv0 & Hrv & Hsum). specialize (Hkv0 Hk0). destruct high_capacity_ok as [Hc _].
  pose proof (co_vsize _ Hok) as Hv. destruct (co_shape _ Hok) as [[Hs Hb]|(E & _)]; [|lia]. pose proof (co_mem _ Hok) as HL. pose proof (co_end _ Hok) as Eend.
  assert (Hn : used c + k * v < endbase c) by (rewrite HL, Hsum; nia). assert (HdL : (v | endbase c)) by (rewrite HL; apply Z.divide_factor_r).
  assert (Hdk : (v | k * v)) by apply Z.divide_factor_r. destruct right.
  - destruct (insert_shift_right_ok c (c_begin c) (used c) (r * v) (k * v) Hb eq_refl Eend Hrv Hkv0 Hn) as (t' & Et & Hl & H1 & H2).
    unfold stdcarr_low_insert_shift_right. rewrite Et. cbn [rbind]. eexists _, _. split; [done|]. set (c' := shifted _ _ _ _ _).
    assert (EL : endbase c' = endbase c) by exact Hl. assert (Eu : used c' = used c + k * v) by (symmetry; exact Hsum). split; try done; rewrite ?EL.
    + split; cbn; [done|rewrite EL; exact HL| |apply Hok|rewrite EL; lia]. rewrite EL, Eu, Eend. apply forward_pos; lia.
    + done.
    + intros i Hi. rewrite byte_contents by lia. by apply H1.
    + intros i Hi. rewrite byte_contents by lia. by apply H2.
  - destruct (insert_shift_left_ok c (c_begin c) (used c) (r * v) (k * v) Hb eq_refl Eend Hrv Hkv0 Hn) as (t' & Et & Hl & H1 & H2).
    unfold stdcarr_low_insert_shift_left. rewrite Et. cbn [rbind]. eexists _, _. split; [done|]. set (c' := shifted _ _ _ _ _).
    assert (EL : endbase c' = endbase c) by exact Hl. assert (Eu : used c' = used c + k * v) by (symmetry; exact Hsum).
    assert (Eb : c_begin c' = stdcarr_low_backward (c_begin c) (k * v) (endbase c)) by done.
    assert (Hb' : 0 <= c_begin c' < endbase c) by (rewrite Eb; unfold stdcarr_low_backward; case_match; lia). split; try done; rewrite ?EL.
    + split; [done|rewrite EL; exact HL| |rewrite Eb; by apply align_back; [apply Hok| |]|left; split; [cbn; lia|by rewrite EL]].
      rewrite EL, Eu, Eb, pos_back by lia. exact Eend.
    + rewrite Eb. unfold stdcarr_low_backward, pos. repeat case_match; lia.
    + intros i Hi. rewrite byte_contents by lia. rewrite Eb. by apply H1.
    + intros i Hi. rewrite byte_contents, Eb, pos_back by lia. by apply H2.
Qed.

(** In a new block. *)
Lemma room_in_new (cap asize : Z) :
  0 < k -> cap = Z.max (u64 (Z.shiftl (c_size c + k) 1)) STDCARR_MIN_AUTO_ALLOC -> asize = u64 (cap * v) ->
  exists mem p,
    copy_with_room c (new_block asize) (pos (endbase c) (c_begin c) (r * v)) (k * v) = inr (mem, p) /\ roomed c k r (moved mem ((c_size c + k) * v) cap (c_size c + k) c) p.
Proof using Hok Hk Hr Hfits.
  intros Hk0 Ecap Easize. destruct small_products as (Hkv & Hsk & _ & _ & Hkv0 & Hrv & Hsum). specialize (Hkv0 Hk0).
  pose proof (co_vsize _ Hok) as Hv. unfold fits in Hfits.
  assert (Ecap' : cap = Z.max (2 * (c_size c + k)) STDCARR_MIN_AUTO_ALLOC).
  { rewrite Ecap, Z.shiftl_mul_pow2 by lia. change (2 ^ 1) with 2. unfold u64. rewrite Z.mod_small by lia. f_equal. lia. }
  assert (Easize' : asize = cap * v) by (rewrite Easize; unfold u64; apply Z.mod_small; rewrite Ecap'; unfold STDCARR_MIN_AUTO_ALLOC in *; nia).
  assert (Hcap : c_size c + k < cap) by (unfold STDCARR_MIN_AUTO_ALLOC in *; lia). assert (Hbl : len (new_block asize) = cap * v) by (rewrite new_block_len; nia).
  assert (Hfit : used c + k * v < cap * v) by (rewrite Hsum; nia).
  assert (Hpos : forall i, 0 <= i < cap * v -> pos (cap * v) 0 i = i) by (intros i Hi; unfold pos; rewrite (proj2 (Z.ltb_lt _ _)) by lia; lia).
  unfold copy_with_room. destruct (c_mem c) as [|x l] eqn:Emem.
  - assert (Hz : c_size c = 0).
    { destruct (co_shape _ Hok) as [[_ ?]|(_ & ? & _)]; [|done]. assert (endbase c = 0) by (unfold endbase; by rewrite Emem). lia. }
    assert (r = 0) as -> by lia. assert (Hu0 : used c = 0) by (unfold used; rewrite Hz; lia).
    eexists _, _. split; [done|]. split; try done; try (intros i Hi; lia); [apply moved_carr_ok; lia|]. unfold endbase. cbn [moved c_mem c_begin]. rewrite Hbl, Z.mul_0_l, Hpos by nia. done.
  - clear x l Emem. rewrite (co_end _ Hok).
    assert (E0 : c_begin c = pos (endbase c) (c_begin c) 0 \/ endbase c = 0).
    { destruct (co_shape _ Hok) as [[_ ?]|(E & _)]; [left; unfold pos; rewrite (proj2 (Z.ltb_lt _ _)) by lia; lia|right; rewrite (co_mem _ Hok), E; lia]. }
    assert (Ebeg : forall m q, stdcarr_low_copy_to_buf m q c (c_begin c) (pos (endbase c) (c_begin c) (r * v)) = stdcarr_low_copy_to_buf m q c (pos (endbase c) (c_begin c) 0) (pos (endbase c) (c_begin c) (r * v))).
    { intros m q. destruct E0 as [<-|E0]; [done|]. destruct (co_shape _ Hok) as [[_ ?]|(_ & _ & Eb)]; [lia|]. rewrite E0, Eb. done. }
    rewrite Ebeg. destruct (copy_to_buf_ok (new_block asize) 0 c 0 (r * v) Hok) as (m1 & -> & Hl1 & H1); [lia..|]. cbn [rbind].
    destruct (copy_to_buf_ok m1 (0 + (r * v - 0) + k * v) c (r * v) (used c) Hok) as (m2 & -> & Hl2 & H2); [lia..|]. cbn [rbind].
    eexists _, _. split; [done|]. assert (EL : endbase (moved m2 ((c_size c + k) * v) cap (c_size c + k) c) = cap * v) by (unfold endbase; cbn; lia).
    split; try done; rewrite ?EL; cbn [moved c_begin c_mem c_vsize].
    + apply moved_carr_ok; lia.
    + rewrite Hpos by lia. lia.
    + intros i Hi. rewrite Hpos, H2, decide_False, H1, decide_True by lia. f_equal. lia.
    + intros i Hi. rewrite Hpos, H2, decide_True by lia. f_equal. lia.
Qed.

Lemma room_ok (right : bool) (m : memory) :
  exists ret c' p m', stdcarr_low_insert_shift c (pos (endbase c) (c_begin c) (r * v)) (k * v) (c_size c + k) right m = inr (ret, c', p, m') /\
    (ret = STDESUCCESS /\ roomed c k r c' p \/ ret <> STDESUCCESS /\ c' = c) /\
    (enough m -> Z.land (c_opts c) STDCARR_OPTS_NO_AUTO_GROW = 0 -> ret = STDESUCCESS).
Proof using Hok Hk Hr Hfits.
  destruct small_products as (Hkv & _ & _ & _ & Hkv0 & Hrv & _). pose proof (co_vsize _ Hok). unfold stdcarr_low_insert_shift. destruct (Z.eqb_spec (k * v) 0) as [E|E].
  { assert (k = 0) as -> by nia. eexists _, _, _, _. split; [done|]. split; [|done]. left. split; [done|]. split; try done; [lia| |]; intros i Hi; rewrite ?Z.mul_0_l, ?Z.add_0_r, byte_contents by lia; done. }
  assert (Hk0 : 0 < k) by nia. destruct (Z.leb_spec (c_size c + k) (stdcarr_high_capacity c)) as [Hin|Hout].
  - destruct (room_in_place right Hk0 Hin) as (c' & p & Er & Hro). destruct right.
    + destruct (stdcarr_low_insert_shift_right _ _ _ _) as [e|c1]; [done|]. cbn [rbind] in *. injection Er as <- <-. eexists _, _, _, _. split; [done|]. split; [by left|done].
    + destruct (stdcarr_low_insert_shift_left _ _ _ _) as [e|c1]; [done|]. cbn [rbind] in *. injection Er as <- <-. eexists _, _, _, _. split; [done|]. split; [by left|done].
  - destruct (Z.eqb_spec (Z.land (c_opts c) STDCARR_OPTS_NO_AUTO_GROW) 0) as [Eg|Eg]; [|eexists _, _, _, _; split; [done|]; split; [by right|done]].
    destruct (malloc_ok m) as (b & m' & -> & Hm). destruct b; cbn [negb]; [|eexists _, _, _, _; split; [done|]; split; [by right|intros He; by destruct (Hm He)]].
    destruct (room_in_new _ _ Hk0 eq_refl eq_refl) as (mem & p & Er & Hro). rewrite Er. cbn [rbind]. eexists _, _, _, _. split; [done|]. split; [by left|done].
Qed.
End room.

(* --------------------------------------------------------------------- *)
(** ** Filling the room *)

(** Bytes written from the position [s] on, around the end of the block. *)
Definition fill t L b s (vals : list (option Z)) t' : Prop :=
  len t' = L /\ (forall q, 0 <= q < len vals -> byte t' (pos L b (s + q)) = byte vals q) /\
  forall i, 0 <= i < L -> ~ (s <= i < s + len vals) -> byte t' (pos L b i) = byte t (pos L b i).

Lemma pos_inj L b i j : 0 <= b < L -> 0 <= i < L -> 0 <= j < L -> pos L b i = pos L b j -> i = j.
Proof. unfold pos. intros. repeat case_match; lia. Qed.

Lemma fill_one t L b s (vals : list (option Z)) :
  len t = L -> 0 <= b < L -> 0 <= s -> s + len vals < L -> pos L b s + len vals <= L -> exists t', write_mem t (pos L b s) vals = inr t' /\ fill t L b s vals t'.
Proof.
  intros Hl Hb Hs Hn Hp. pose proof (pos_range L b s Hb ltac:(unfold len in *; lia)) as Hps. destruct (write_mem_ok t (pos L b s) vals) as (t' & -> & Hl' & H); [lia|].
  exists t'. split; [done|]. split; [lia|]. split.
  - intros q Hq. pose proof (pos_range L b (s + q) Hb ltac:(lia)). rewrite H by lia. assert (E : pos L b (s + q) = pos L b s + q) by (unfold pos in *; repeat case_match; lia).
    rewrite decide_True by lia. f_equal. lia.
  - intros i Hi Hne. pose proof (pos_range L b i Hb ltac:(lia)). rewrite H by lia. rewrite decide_False; [done|]. intros Hin. apply Hne. unfold pos in *. repeat case_match; lia.
Qed.

(** [stdcarr_insert_n]'s two pieces. *)
Lemma fill_wrapped t L b s (vals : list (option Z)) :
  len t = L -> 0 <= b < L -> 0 <= s -> s + len vals < L ->
  exists t', (if len vals <=? L - pos L b s then let? l := read_mem vals 0 (len vals) in write_mem t (pos L b s) l
              else let? l := read_mem vals 0 (L - pos L b s) in let? t := write_mem t (pos L b s) l in
                   let? l := read_mem vals (L - pos L b s) (len vals - (L - pos L b s)) in write_mem t 0 l) = inr t' /\ fill t L b s vals t'.
Proof.
  intros Hl Hb Hs Hn. assert (0 <= len vals) by (unfold len; lia). pose proof (pos_range L b s Hb ltac:(lia)) as Hps. destruct (Z.leb_spec (len vals) (L - pos L b s)) as [Hle|Hgt].
  - destruct (read_mem_ok vals 0 (len vals)) as (l & -> & Hl1 & H1); [lia|]. cbn [rbind].
    assert (l = vals) as -> by (apply byte_ext; [lia|]; intros i Hi; rewrite H1 by lia; done). apply fill_one; lia || done.
  - destruct (read_mem_ok vals 0 (L - pos L b s)) as (l & -> & Hl1 & H1); [lia|]. cbn [rbind].
    destruct (write_mem_ok t (pos L b s) l) as (t1 & -> & Ht1 & W1); [lia|]. cbn [rbind].
    destruct (read_mem_ok vals (L - pos L b s) (len vals - (L - pos L b s))) as (l2 & -> & Hl2 & H2); [lia|]. cbn [rbind].
    destruct (write_mem_ok t1 0 l2) as (t2 & -> & Ht2 & W2); [lia|]. exists t2. split; [done|]. split; [lia|]. split.
    + intros q Hq. pose proof (pos_range L b (s + q) Hb ltac:(lia)). rewrite W2 by lia. case_decide.
      * rewrite H2 by lia. f_equal. unfold pos in *. repeat case_match; lia.
      * rewrite W1 by lia. rewrite decide_True by (unfold pos in *; repeat case_match; lia). rewrite H1 by (unfold pos in *; repeat case_match; lia).
        f_equal. unfold pos in *. repeat case_match; lia.
    + intros i Hi Hne. pose proof (pos_range L b i Hb ltac:(lia)). rewrite W2, decide_False by (lia || (unfold pos in *; repeat case_match; lia)).
      rewrite W1, decide_False by (lia || (unfold pos in *; repeat case_match; lia)). done.
Qed.

(** The values one by one; a value never crosses the end of the block. *)
Lemma fill_values v (src : list (list (option Z))) t L b s :
  0 < v -> (v | L) -> (v | b) -> (v | s) -> Forall (fun x => len x = v) src -> len t = L -> 0 <= b < L -> 0 <= s -> s + v * Z.of_nat (length src) < L ->
  exists t', copy_values src t (pos L b s) v = inr t' /\ fill t L b s (concat src) t'.
Proof.
  intros Hv HdL Hdb. revert t s. induction src as [|x src IH]; intros t s Hds Hsrc Hl Hb Hs Hn; cbn [copy_values concat].
  - exists t. split; [done|]. split; [done|]. split; [|done]. intros q Hq. unfold len in Hq. cbn in Hq. lia.
  - apply Forall_cons in Hsrc as [Hx Hsrc]. cbn [length] in Hn. destruct (read_mem_ok x 0 v) as (l & -> & Hl1 & H1); [lia|]. cbn [rbind].
    assert (l = x) as -> by (apply byte_ext; [lia|]; intros i Hi; rewrite H1 by lia; done).
    assert (Hcross : pos L b s + v <= L).
    { pose proof (pos_range L b s Hb ltac:(lia)). assert (Hd : (v | pos L b s)) by (unfold pos; case_match; repeat first [apply Z.divide_sub_r|apply Z.divide_add_r|done]).
      destruct HdL as [y ->], Hd as [z Ez]. rewrite Ez in *. assert (z < y) by (apply (Z.mul_lt_mono_pos_r v); lia). nia. }
    destruct (fill_one t L b s x) as (t1 & -> & Hf1 & Hf2 & Hf3); [done|done|lia|lia|lia|]. cbn [rbind]. rewrite Hx in *.
    rewrite Hf1. rewrite forward_pos by lia. destruct (IH t1 (s + v)) as (t2 & -> & Hg1 & Hg2 & Hg3); [apply Z.divide_add_r; [done|apply Z.divide_refl]|done|done|done|lia|lia|].
    assert (Hlen : len (x ++ concat src) = v + len (concat src)) by (unfold len in *; rewrite length_app; lia).
    assert (0 <= len (concat src)) by (unfold len; lia). exists t2. split; [done|]. split; [done|]. split.
    + intros q Hq. destruct (decide (q < v)).
      * rewrite Hg3, Hf2, byte_app_l by (try lia; try (pose proof (Hlen); lia)). done.
      * replace (s + q) with (s + v + (q - v)) by lia. rewrite Hg2, byte_app_r by lia. f_equal. lia.
    + intros i Hi Hne. rewrite Hg3, Hf3 by lia. done.
Qed.

(* --------------------------------------------------------------------- *)
(** ** Taking room *)

Definition inserted_at (a : Z) (vals l : list (option Z)) : list (option Z) := take (Z.to_nat a) l ++ vals ++ drop (Z.to_nat a) l.
Definition cut_out (a d : Z) (l : list (option Z)) : list (option Z) := take (Z.to_nat a) l ++ drop (Z.to_nat (a + d)) l.

Lemma cut_out_byte a d l : 0 <= a -> 0 <= d -> a + d <= len l ->
  len (cut_out a d l) = len l - d /\ forall i, 0 <= i < len l - d -> byte (cut_out a d l) i = if decide (i < a) then byte l i else byte l (i + d).
Proof.
  intros Ha Hd Hl. unfold cut_out. assert (Ht : len (take (Z.to_nat a) l) = a) by (unfold len in *; rewrite length_take; lia). split.
  - unfold len in *. rewrite length_app, length_drop. lia.
  - intros i Hi. case_decide; [by rewrite byte_app_l, byte_take by lia|]. rewrite byte_app_r, byte_drop, Ht by lia. f_equal. lia.
Qed.

Lemma inserted_byte a (vals l : list (option Z)) : 0 <= a <= len l ->
  len (inserted_at a vals l) = len l + len vals /\
  forall i, 0 <= i < len l + len vals -> byte (inserted_at a vals l) i = if decide (i < a) then byte l i else if decide (i < a + len vals) then byte vals (i - a) else byte l (i - len vals).
Proof.
  intros Ha. unfold inserted_at. assert (Ht : len (take (Z.to_nat a) l) = a) by (unfold len in *; rewrite length_take; lia).
  assert (0 <= len vals) by (unfold len; lia). split; [unfold len in *; rewrite !length_app, length_drop; lia|].
  intros i Hi. case_decide; [by rewrite byte_app_l, byte_take by lia|]. rewrite byte_app_r, Ht by lia. case_decide; [by rewrite byte_app_l by lia|].
  rewrite byte_app_r, byte_drop by lia. f_equal. lia.
Qed.

(** [c'] is [c] without the [k] values from value [r] on, and [p] is the place
    of value [r'] in it. *)
Record erased (c : stdcarr) (k r : Z) (c' : stdcarr) (r' p : Z) : Prop := {
  er_ok : carr_ok c';
  er_size : c_size c' = c_size c - k;
  er_vsize : c_vsize c' = c_vsize c;
  er_opts : c_opts c' = c_opts c;
  er_pos : p = pos (endbase c') (c_begin c') (r' * c_vsize c);
  er_contents : contents c' = cut_out (r * c_vsize c) (k * c_vsize c) (contents c);
}.

Section erasing.
Context (c : stdcarr) (k r : Z) (Hok : carr_ok c) (Hk : 0 <= k) (Hr : 0 <= r) (Hrk : r + k <= c_size c) (Hfits : fits c (c_size c)).
Abbreviation v := (c_vsize c).
Abbreviation L := (endbase c).
Abbreviation b := (c_begin c).

Lemma erase_products : 0 <= k * v /\ u64 (k * v) = k * v /\ (0 < k -> 0 < k * v) /\ 0 <= r * v /\ r * v + k * v <= used c /\ used c - k * v = (c_size c - k) * v.
Proof using Hok Hk Hr Hrk Hfits.
  pose proof (co_vsize _ Hok) as Hv. unfold fits, STDCARR_MIN_AUTO_ALLOC in Hfits. unfold used. assert (0 <= k * v < 2 ^ 64) by nia.
  unfold u64. rewrite Z.mod_small by nia. nia.
Qed.

Lemma erased_contents c' : 0 <= used c' -> used c' = used c - k * v ->
  (forall i, 0 <= i < r * v -> byte (c_mem c') (pos (endbase c') (c_begin c') i) = byte (contents c) i) ->
  (forall i, r * v <= i < used c - k * v -> byte (c_mem c') (pos (endbase c') (c_begin c') i) = byte (contents c) (i + k * v)) ->
  contents c' = cut_out (r * v) (k * v) (contents c).
Proof using Hok Hk Hr Hrk Hfits.
  intros Hu Eu H1 H2. destruct erase_products as (? & _ & _ & ? & ? & _). pose proof (len_contents c ltac:(lia)) as Hlc.
  destruct (cut_out_byte (r * v) (k * v) (contents c)) as [Hlen Hb]; [lia..|]. apply contents_eq; [done|lia|]. intros i Hi. rewrite Hb by lia.
  case_decide; [apply H1|apply H2]; lia.
Qed.

Lemma erase_in_place_ok (right : bool) m :
  0 < k -> exists c' p, erase_in_place c (pos L b (if right then r * v else (r + k) * v)) (k * v) (c_size c - k) right m = inr (c', p, m) /\
    erased c k r c' (if right then r else r + k) p /\ c_block c' = c_block c.
Proof using Hok Hk Hr Hrk Hfits.
  intros Hk0. destruct erase_products as (_ & _ & Hkv & Hrv & Hn & Hdiff). specialize (Hkv Hk0). pose proof (co_vsize _ Hok) as Hv.
  destruct (co_shape _ Hok) as [[Hs Hb]|(_ & E & _)]; [|lia]. pose proof (co_mem _ Hok) as HL. pose proof (co_end _ Hok) as Eend.
  assert (HuL : used c < L) by (rewrite HL; unfold used; nia). assert (HdL : (v | L)) by (rewrite HL; apply Z.divide_factor_r). assert (Hdk : (v | k * v)) by apply Z.divide_factor_r.
  unfold erase_in_place. destruct right.
  - destruct (erase_shift_right_ok c b (used c) (r * v) (k * v) Hb eq_refl Eend ltac:(lia) Hkv HuL Hn) as (t' & Et & Hl & H1 & H2).
    unfold stdcarr_low_erase_shift_right. rewrite Et. cbn [rbind]. eexists _, _. split; [done|]. split; [|done]. set (c' := shifted _ _ _ _ _).
    assert (EL : endbase c' = L) by exact Hl. assert (Eu : used c' = used c - k * v) by (symmetry; exact Hdiff).
    assert (Eb : c_begin c' = stdcarr_low_forward b (k * v) L) by done. assert (Hb' : 0 <= c_begin c' < L) by (rewrite Eb; unfold stdcarr_low_forward; case_match; lia).
    split; try done.
    + split; [done|rewrite EL; exact HL| |rewrite Eb; by apply align_forward; [apply Hok| |]|left; split; [cbn; lia|by rewrite EL]].
      rewrite EL, Eu, Eb, pos_forward by lia. cbn. rewrite Eend. f_equal. lia.
    + rewrite EL, Eb, pos_forward by lia. apply forward_pos; lia.
    + apply erased_contents; [lia|done| |]; intros i Hi; rewrite EL, Eb, pos_forward, byte_contents by lia; [by apply H1|apply H2; lia].
  - replace ((r + k) * v) with (r * v + k * v) by lia.
    destruct (erase_shift_left_ok c b (used c) (r * v) (k * v) Hb eq_refl Eend ltac:(lia) Hkv HuL Hn) as (t' & Et & Hl & H1 & H2).
    unfold stdcarr_low_erase_shift_left. rewrite Et. cbn [rbind]. eexists _, _. split; [done|]. split; [|done]. set (c' := shifted _ _ _ _ _).
    assert (EL : endbase c' = L) by exact Hl. assert (Eu : used c' = used c - k * v) by (symmetry; exact Hdiff).
    split; try done.
    + split; [done|rewrite EL; exact HL| |apply Hok|left; split; [cbn; lia|by rewrite EL]]. rewrite EL, Eu. cbn. rewrite Eend. apply backward_pos; lia.
    + rewrite EL. cbn. f_equal. lia.
    + apply erased_contents; [lia|done| |]; intros i Hi; rewrite EL, byte_contents by lia; [by apply H1|apply H2; lia].
Qed.

(** The values move to a smaller block. *)
Lemma erase_to_new_ok (right : bool) cap asize :
  0 < k -> cap = Z.max (u64 (Z.shiftl (c_size c - k) 1)) STDCARR_MIN_AUTO_ALLOC -> asize = u64 (cap * v) ->
  asize <> 0 /\ exists m1 p m2 p2, stdcarr_low_copy_to_buf (new_block asize) 0 c b (pos L b (r * v)) = inr (m1, p) /\
    stdcarr_low_copy_to_buf m1 p c (pos L b ((r + k) * v)) (c_end c) = inr (m2, p2) /\
    erased c k r (moved m2 ((c_size c - k) * v) cap (c_size c - k) c) r p.
Proof using Hok Hk Hr Hrk Hfits.
  intros Hk0 Ecap Easize. destruct erase_products as (_ & _ & Hkv & Hrv & Hn & Hdiff). specialize (Hkv Hk0). pose proof (co_vsize _ Hok) as Hv. unfold fits in Hfits.
  assert (Ecap' : cap = Z.max (2 * (c_size c - k)) STDCARR_MIN_AUTO_ALLOC).
  { rewrite Ecap, Z.shiftl_mul_pow2 by lia. change (2 ^ 1) with 2. unfold u64. rewrite Z.mod_small; [f_equal; lia|]. unfold STDCARR_MIN_AUTO_ALLOC in *. nia. }
  assert (Easize' : asize = cap * v) by (rewrite Easize; unfold u64; apply Z.mod_small; rewrite Ecap'; unfold STDCARR_MIN_AUTO_ALLOC in *; nia).
  assert (Hcap : c_size c - k < cap) by (unfold STDCARR_MIN_AUTO_ALLOC in *; lia). assert (Hbl : len (new_block asize) = cap * v) by (rewrite new_block_len; nia).
  assert (Hfit : used c - k * v < cap * v) by (rewrite Hdiff; nia). split; [nia|].
  destruct (co_shape _ Hok) as [[_ Hb]|(_ & E & _)]; [|lia]. assert (E0 : b = pos L b 0) by (unfold pos; rewrite (proj2 (Z.ltb_lt _ _)) by lia; lia).
  assert (Ebeg : forall x, stdcarr_low_copy_to_buf (new_block asize) 0 c b x = stdcarr_low_copy_to_buf (new_block asize) 0 c (pos L b 0) x) by (intros x; by rewrite <- E0).
  rewrite Ebeg. destruct (copy_to_buf_ok (new_block asize) 0 c 0 (r * v) Hok) as (m1 & -> & Hl1 & H1); [lia..|]. rewrite (co_end _ Hok).
  replace ((r + k) * v) with (r * v + k * v) by lia.
  destruct (copy_to_buf_ok m1 (0 + (r * v - 0)) c (r * v + k * v) (used c) Hok) as (m2 & E2 & Hl2 & H2); [lia..|].
  eexists m1, _, m2, _. split; [done|]. split; [exact E2|]. set (c' := moved _ _ _ _ _).
  assert (EL : endbase c' = cap * v) by (unfold endbase, c'; cbn; lia). assert (Eu : used c' = used c - k * v) by (symmetry; exact Hdiff).
  assert (Hpos : forall i, 0 <= i < cap * v -> pos (cap * v) 0 i = i) by (intros i Hi; unfold pos; rewrite (proj2 (Z.ltb_lt _ _)) by lia; lia).
  split; try done.
  - apply moved_carr_ok; lia.
  - rewrite EL. cbn. rewrite Hpos by lia. lia.
  - apply erased_contents; [lia|done| |]; intros i Hi; rewrite EL; cbn; rewrite Hpos, H2 by lia.
    + rewrite decide_False, H1, decide_True by lia. f_equal. lia.
    + rewrite decide_True by lia. f_equal. lia.
Qed.

(** Where the place that is handed back is after an erasure: behind the
    erased values when they were shifted out to the right or the array has a
    new block, but [k] values further when they were shifted over. *)
Definition erased_rank (right : bool) (c' : stdcarr) : Z := if right || negb (bool_decide (c_block c' = c_block c)) then r else r + k.

Lemma erase_shift_ok (right : bool) m :
  exists c' p m', stdcarr_low_erase_shift c (pos L b (if right then r * v else (r + k) * v)) (k * v) (c_size c - k) right m = inr (c', p, m') /\
    erased c k r c' (erased_rank right c') p.
Proof using Hok Hk Hr Hrk Hfits.
  destruct erase_products as (Hkv & _ & Hkv0 & Hrv & Hn & Hdiff). pose proof (co_vsize _ Hok) as Hv. unfold stdcarr_low_erase_shift. destruct (Z.eqb_spec (k * v) 0) as [E|E].
  { assert (Ek : k = 0) by nia. eexists _, _, _. split; [done|]. unfold erased_rank. rewrite bool_decide_eq_true_2 by done. split; try done; [lia|destruct right; cbn; rewrite ?Ek, ?Z.add_0_r; done|].
    apply erased_contents; [unfold used; lia|lia| |]; intros i Hi; rewrite ?E, ?Z.add_0_r, byte_contents by lia; done. }
  assert (Hk0 : 0 < k) by nia. destruct (erase_in_place_ok right m Hk0) as (c1 & p1 & E1 & He1 & Eb1).
  assert (Hin : erased c k r c1 (erased_rank right c1) p1) by (unfold erased_rank; rewrite bool_decide_eq_true_2 by done; destruct right; exact He1).
  destruct (negb _ || _ || _); [eexists _, _, _; split; [exact E1|exact Hin]|].
  destruct (erase_to_new_ok right _ _ Hk0 eq_refl eq_refl) as (Hne & m1 & p & m2 & p2 & Ec1 & Ec2 & He). rewrite (proj2 (Z.eqb_neq _ _) Hne).
  destruct (malloc_ok m) as (ok & m' & -> & _). destruct ok; cbn [negb].
  - destruct (co_shape _ Hok) as [[_ Hb]|(_ & E0 & _)]; [|lia]. pose proof (used_bounds c Hok) as (_ & HuL & _).
    assert (Ef : (if right then stdcarr_low_forward (pos L b (if right then r * v else (r + k) * v)) (k * v) L else pos L b (if right then r * v else (r + k) * v)) = pos L b ((r + k) * v)).
    { destruct right; [|done]. rewrite forward_pos by lia. f_equal. lia. }
    assert (Eb : (if right then pos L b (if right then r * v else (r + k) * v) else stdcarr_low_backward (pos L b (if right then r * v else (r + k) * v)) (k * v) L) = pos L b (r * v)).
    { destruct right; [done|]. rewrite backward_pos by lia. f_equal. lia. }
    rewrite Ef, Eb, Ec1. cbn [rbind]. rewrite Ec2. cbn [rbind]. eexists _, _, _. split; [done|]. unfold erased_rank. rewrite bool_decide_eq_false_2 by (cbn; lia). by rewrite orb_true_r.
  - destruct (erase_in_place_ok right m' Hk0) as (c2 & p2' & E2 & He2 & Eb2). eexists _, _, _. split; [exact E2|]. unfold erased_rank. rewrite bool_decide_eq_true_2 by done. destruct right; exact He2.
Qed.
End erasing.

(* --------------------------------------------------------------------- *)
(** ** The operations *)

(** An iterator at value [r]. *)
Definition rank_it (c : stdcarr) (r : Z) : carr_it := it_at c (pos (endbase c) (c_begin c) (r * c_vsize c)).

Lemma begin_pos c : carr_ok c -> c_begin c = pos (endbase c) (c_begin c) 0.
Proof.
  intros Hok. unfold pos. rewrite Z.add_0_r. destruct (Z.ltb_spec (c_begin c) (endbase c)); [done|]. pose proof (co_mem _ Hok) as HL.
  destruct (co_shape _ Hok) as [[_ ?]|(E & _ & E')]; [lia|]. rewrite E in HL. lia.
Qed.

Section operations.
Context (c : stdcarr) (Hok : carr_ok c).
Abbreviation v := (c_vsize c).

Lemma begin_rank : stdcarr_begin c = rank_it c 0.
Proof using Hok. unfold stdcarr_begin, rank_it. by rewrite Z.mul_0_l, <- begin_pos. Qed.

Lemma end_rank : stdcarr_end c = rank_it c (c_size c).
Proof using Hok. unfold stdcarr_end, rank_it. f_equal. apply (co_end _ Hok). Qed.

Lemma offset_rank r : offset_in (c_block c) (rank_it c r) = inr (pos (endbase c) (c_begin c) (r * v)).
Proof using Type. unfold offset_in. cbn. by rewrite bool_decide_eq_true_2. Qed.

Lemma set_c_mem_ok c' t : carr_ok c' -> len t = endbase c' -> carr_ok (set_c_mem t c').
Proof using Type. intros [H1 H2 H3 H4 H5] Hl. split; unfold used, endbase in *; cbn; rewrite ?Hl; done. Qed.

Lemma filled_ok r k c' p t (vals : list (option Z)) :
  roomed c k r c' p -> 0 <= r <= c_size c -> 0 <= k -> len vals = k * v -> fill (c_mem c') (endbase c') (c_begin c') (r * v) vals t ->
  carr_ok (set_c_mem t c') /\ contents (set_c_mem t c') = inserted_at (r * v) vals (contents c).
Proof using Hok.
  intros [R1 R2 R3 R4 R5 R6 R7] Hr Hk Hv (F1 & F2 & F3). split; [by apply set_c_mem_ok|]. pose proof (co_vsize _ Hok).
  assert (Hu : 0 <= r * v <= used c) by (unfold used; nia). assert (0 <= k * v) by nia. pose proof (len_contents c ltac:(lia)) as Hlc.
  assert (Eu : used (set_c_mem t c') = used c + k * v) by (unfold used; cbn; rewrite R2, R3; lia).
  assert (Huc : used c' = used c + k * v) by exact Eu. destruct (used_bounds c' R1) as (_ & HL & _).
  assert (EL : endbase (set_c_mem t c') = endbase c') by (unfold endbase in *; cbn; exact F1).
  destruct (inserted_byte (r * v) vals (contents c)) as [Hil Hib]; [lia|]. apply contents_eq; [lia|lia|]. intros i Hi. rewrite EL, Hib by lia. cbn [c_mem c_begin set_c_mem].
  assert (HL' : used c + k * v < endbase c') by lia. case_decide; [|case_decide].
  - rewrite F3 by lia. apply R6. lia.
  - replace i with (r * v + (i - r * v)) at 1 by lia. apply F2. lia.
  - rewrite F3 by lia. rewrite Hv. replace i with (i - k * v + k * v) at 1 by lia. apply R7. lia.
Qed.

Definition may_grow (m : memory) : Prop := enough m /\ Z.land (c_opts c) STDCARR_OPTS_NO_AUTO_GROW = 0.
(** What an operation makes of the iterator [it]: its value pointer is at value
    [r] of the array that is left, and it keeps the block and the bounds of
    the array it was taken from. *)
Definition pointed_at (c' : stdcarr) (r : Z) (it : carr_it) : carr_it := set_i_val (i_val (rank_it c' r)) it.
(** The values are in, before value [r], and the iterator points at the first
    of them, or nothing has changed. *)
Definition insert_spec (r : Z) (vals : list (option Z)) (m : memory) (res : res (Z * stdcarr * carr_it * memory)) : Prop :=
  exists ret c' it m', res = inr (ret, c', it, m') /\ (may_grow m -> ret = STDESUCCESS) /\
    (ret = STDESUCCESS /\ carr_ok c' /\ contents c' = inserted_at (r * v) vals (contents c) /\ it = pointed_at c' r (rank_it c r) /\ c_vsize c' = v \/
     ret <> STDESUCCESS /\ c' = c).

(** The two ways in which the values are written into the room. *)
Lemma insert_from r k m (writer : stdcarr -> Z -> res (list (option Z))) (vals : list (option Z)) (f : res (Z * stdcarr * carr_it * memory)) :
  0 <= r <= c_size c -> 0 <= k -> fits c (c_size c + k) -> len vals = k * v ->
  (forall c' p, roomed c k r c' p -> c_block c' = c_block c' -> exists t, writer c' p = inr t /\ fill (c_mem c') (endbase c') (c_begin c') (r * v) vals t) ->
  f = (let? '(ret, c', it, m) := open_room c (rank_it c r) k m in
       if negb (ret =? STDESUCCESS) then inr (ret, c', it, m)
       else let? t := writer c' (snd (i_val it)) in inr (ret, set_c_mem t c', it, m)) ->
  insert_spec r vals m f.
Proof using Hok.
  intros Hr Hk Hfits Hv Hw ->. destruct (small_products c k r Hok Hk Hr Hfits) as (_ & _ & Ek & Es & _).
  unfold open_room. rewrite offset_rank. cbn [rbind]. rewrite Ek, Es.
  destruct (room_ok c k r Hok Hk Hr Hfits (STDCARR_INS_SHIFT_RIGHT c (pos (endbase c) (c_begin c) (r * v))) m) as (ret & c' & p & m' & -> & Hro & Hg). cbn [rbind].
  destruct Hro as [[-> Hro]|[Hret ->]].
  - destruct (Hw c' p Hro eq_refl) as (t & Et & Hf). change (negb (STDESUCCESS =? STDESUCCESS)) with false. cbn [set_i_val i_val snd]. rewrite Et. cbn [rbind].
    eexists _, _, _, _. split; [done|]. split; [done|]. left. destruct (filled_ok r k c' p t vals Hro Hr Hk Hv Hf) as [Hok' Hc].
    split; [done|]. split; [done|]. split; [done|]. split; [|exact (ro_vsize _ _ _ _ _ Hro)]. unfold pointed_at, set_i_val. cbn. do 2 f_equal. rewrite (ro_vsize _ _ _ _ _ Hro), (ro_pos _ _ _ _ _ Hro).
    unfold endbase at 2. cbn. by rewrite (proj1 Hf).
  - rewrite (proj2 (Z.eqb_neq _ _) Hret). eexists _, _, _, _. split; [done|]. split; [intros [He Hgo]; by destruct Hret, (Hg He Hgo)|by right].
Qed.

Lemma roomed_bounds k r c' p : roomed c k r c' p -> 0 <= r <= c_size c -> 0 <= k ->
  0 <= r * v /\ (0 < k * v -> 0 <= c_begin c' < endbase c' /\ r * v + k * v < endbase c').
Proof using Hok.
  intros [R1 R2 R3 R4 R5 R6 R7] Hr Hk. pose proof (co_vsize _ Hok) as Hv. split; [nia|]. intros Hkv. pose proof (co_mem _ R1) as HL.
  destruct (co_shape _ R1) as [[Hs Hb]|(E & E2 & _)]; [|nia]. split; [done|]. rewrite HL, R3. nia.
Qed.

Lemma nothing_filled c' (s : Z) : fill (c_mem c') (endbase c') (c_begin c') s [] (c_mem c').
Proof using Type. split; [done|]. split; [|done]. intros q Hq. unfold len in Hq. cbn in Hq. lia. Qed.

Lemma insert_n_ok r k (vals : list (option Z)) m :
  0 <= r <= c_size c -> 0 <= k -> fits c (c_size c + k) -> len vals = k * v -> insert_spec r vals m (stdcarr_insert_n c (rank_it c r) vals k m).
Proof using Hok.
  intros Hr Hk Hfits Hv. destruct (small_products c k r Hok Hk Hr Hfits) as (Hkv & _ & Ek & _).
  apply (insert_from r k m (fun c' p =>
      if len vals <=? endbase c' - p then let? l := read_mem vals 0 (len vals) in write_mem (c_mem c') p l
      else let? l := read_mem vals 0 (endbase c' - p) in let? t := write_mem (c_mem c') p l in
           let? l := read_mem vals (endbase c' - p) (len vals - (endbase c' - p)) in write_mem t 0 l)); try done.
  - intros c' p Hro _. destruct (roomed_bounds k r c' p Hro Hr Hk) as [Hrv Hb]. rewrite (ro_pos _ _ _ _ _ Hro). destruct (decide (k * v = 0)) as [E0|E0].
    + assert (vals = []) as -> by (destruct vals; [done|unfold len in Hv; cbn in Hv; lia]). exists (c_mem c'). split; [|apply nothing_filled].
      change (len []) with 0. rewrite (proj2 (Z.leb_le 0 _)); [done|]. pose proof (co_vsize _ Hok). pose proof (co_mem _ (ro_ok _ _ _ _ _ Hro)) as HL.
      pose proof (ro_size _ _ _ _ _ Hro) as Es. pose proof (ro_vsize _ _ _ _ _ Hro) as Evs. assert (k = 0) as -> by nia.
      destruct (co_shape _ (ro_ok _ _ _ _ _ Hro)) as [[Hs Hb']|(E & E2 & ->)].
      * pose proof (pos_range (endbase c') (c_begin c') (r * v) Hb'). assert (r * v <= endbase c') by (rewrite HL, Evs; nia). lia.
      * assert (r = 0) as -> by lia. rewrite HL, E. done.
    + apply fill_wrapped; [done|apply Hb; lia|lia|]. rewrite Hv. apply Hb. lia.
  - unfold stdcarr_insert_n. rewrite Ek, Hv. done.
Qed.

Lemma insert_seq_n_ok r (src : list (list (option Z))) m :
  0 <= r <= c_size c -> fits c (c_size c + Z.of_nat (length src)) -> Forall (fun x => len x = v) src ->
  insert_spec r (concat src) m (stdcarr_insert_seq_n c (rank_it c r) src m).
Proof using Hok.
  intros Hr Hfits Hsrc. assert (Hv : len (concat src) = Z.of_nat (length src) * v).
  { clear Hfits. induction Hsrc as [|x src Hx _ IH]; [done|]. cbn [concat length]. unfold len in *. rewrite length_app. lia. }
  apply (insert_from r (Z.of_nat (length src)) m (fun c' p => copy_values src (c_mem c') p (c_vsize c'))); try done; [lia|].
  intros c' p Hro _. destruct (roomed_bounds _ r c' p Hro Hr ltac:(lia)) as [Hrv Hb]. rewrite (ro_pos _ _ _ _ _ Hro), (ro_vsize _ _ _ _ _ Hro). pose proof (co_vsize _ Hok).
  destruct src as [|x src]; [exists (c_mem c'); split; [done|apply nothing_filled]|]. specialize (Hb ltac:(cbn [length]; nia)) as [Hb HL].
  assert (HdL : (v | endbase c')) by (rewrite (co_mem _ (ro_ok _ _ _ _ _ Hro)), (ro_vsize _ _ _ _ _ Hro); apply Z.divide_factor_r).
  apply fill_values; try done; [rewrite <- (ro_vsize _ _ _ _ _ Hro); apply Hro|apply Z.divide_factor_r|lia].
Qed.

(** Erasing [k] values from value [r] on, whichever side is shifted. *)
Lemma erase_n_ok r k m :
  0 <= r -> 0 <= k -> r + k <= c_size c -> fits c (c_size c) ->
  let right := STDCARR_ERS_SHIFT_RIGHT c (snd (i_val (rank_it c r))) k in
  exists c' it m', stdcarr_erase_n c (rank_it c r) k m = inr (c', it, m') /\ carr_ok c' /\ c_vsize c' = v /\
    contents c' = cut_out (r * v) (k * v) (contents c) /\ it = pointed_at c' (erased_rank c k r right c') (rank_it c r).
Proof using Hok.
  intros Hr Hk Hrk Hfits right. destruct (erase_products c k r Hok Hk Hr Hrk Hfits) as (Hkv & Ek & _ & Hrv & Hn & _). unfold stdcarr_erase_n. rewrite offset_rank. cbn [rbind]. rewrite Ek.
  cbv zeta. change (STDCARR_ERS_SHIFT_RIGHT c (pos (endbase c) (c_begin c) (r * v)) k) with right. clearbody right. destruct (erase_shift_ok c k r Hok Hk Hr Hrk Hfits right m) as (c' & p & m' & Ee & [E1 E2 E3 E4 E5 E6]).
  assert (Ep : (if right then pos (endbase c) (c_begin c) (r * v) else stdcarr_low_forward (pos (endbase c) (c_begin c) (r * v)) (k * v) (endbase c)) =
    pos (endbase c) (c_begin c) (if right then r * v else (r + k) * v)).
  { destruct right; [done|]. destruct (used_bounds c Hok) as (_ & HL & _). destruct (co_shape _ Hok) as [[_ Hb]|(E & Es & Eb)].
    - rewrite forward_pos by lia. f_equal. lia.
    - pose proof (co_mem _ Hok) as Hm. rewrite E in Hm. assert (r = 0) as -> by lia. assert (k = 0) as -> by lia. rewrite Hm, Eb. done. }
  rewrite Ep, Ee. cbn [rbind]. eexists c', _, m'. split; [done|]. split; [done|]. split; [done|]. split; [done|]. unfold pointed_at, set_i_val. cbn. do 2 f_equal. by rewrite E5, E3.
Qed.

Lemma pop_front_ok k m : 0 <= k <= c_size c -> fits c (c_size c) ->
  exists c' m', stdcarr_pop_front_n c k m = inr (c', m') /\ carr_ok c' /\ contents c' = cut_out 0 (k * v) (contents c).
Proof using Hok.
  intros Hk Hfits. destruct (erase_products c k 0 Hok ltac:(lia) ltac:(lia) ltac:(lia) Hfits) as (_ & Ek & _). unfold stdcarr_pop_front_n. rewrite Ek.
  destruct (erase_shift_ok c k 0 Hok ltac:(lia) ltac:(lia) ltac:(lia) Hfits true m) as (c' & p & m' & Ee & [E1 E2 E3 E4 E5 E6]).
  rewrite Z.mul_0_l, <- (begin_pos c Hok) in Ee. rewrite Ee. by exists c', m'.
Qed.

Lemma pop_back_ok k m : 0 <= k <= c_size c -> fits c (c_size c) ->
  exists c' m', stdcarr_pop_back_n c k m = inr (c', m') /\ carr_ok c' /\ c_vsize c' = v /\ c_size c' = c_size c - k /\ contents c' = cut_out ((c_size c - k) * v) (k * v) (contents c).
Proof using Hok.
  intros Hk Hfits. destruct (erase_products c k (c_size c - k) Hok ltac:(lia) ltac:(lia) ltac:(lia) Hfits) as (_ & Ek & _). unfold stdcarr_pop_back_n. rewrite Ek.
  destruct (erase_shift_ok c k (c_size c - k) Hok ltac:(lia) ltac:(lia) ltac:(lia) Hfits false m) as (c' & p & m' & Ee & [E1 E2 E3 E4 E5 E6]).
  replace (c_size c - k + k) with (c_size c) in Ee by lia. fold (used c) in Ee. rewrite <- (co_end _ Hok) in Ee. rewrite Ee. by exists c', m'.
Qed.

(** Resizing keeps the first values; what is added was not written. *)
Lemma resize_ok k m : 0 <= k -> fits c k -> fits c (c_size c) ->
  exists ret c' m', stdcarr_resize c k m = inr (ret, c', m') /\ (may_grow m -> ret = STDESUCCESS) /\
    (ret = STDESUCCESS /\ carr_ok c' /\ c_vsize c' = v /\ c_size c' = k /\ take (Z.to_nat (Z.min k (c_size c) * v)) (contents c') = take (Z.to_nat (k * v)) (contents c) \/ ret <> STDESUCCESS /\ c' = c).
Proof using Hok.
  intros Hk Hfk Hfc. pose proof (co_vsize _ Hok) as Hv. pose proof (used_bounds c Hok) as (Hu & _). unfold stdcarr_resize. destruct (Z.ltb_spec (c_size c) k) as [Hlt|Hge].
  - assert (Hfit : fits c (c_size c + (k - c_size c))) by (by replace (c_size c + (k - c_size c)) with k by lia). assert (Hs : 0 <= c_size c) by (unfold used in Hu; nia).
    destruct (small_products c (k - c_size c) (c_size c) Hok ltac:(lia) ltac:(lia) Hfit) as (_ & _ & Ek & _). rewrite Ek, (co_end _ Hok).
    destruct (room_ok c (k - c_size c) (c_size c) Hok ltac:(lia) ltac:(lia) Hfit true m) as (ret & c' & p & m' & Er & Hro & Hg).
    replace (c_size c + (k - c_size c)) with k in Er by lia. unfold used. rewrite Er. cbn [rbind]. eexists _, _, _. split; [done|]. split; [intros [He Hgo]; auto|].
    destruct Hro as [[-> [R1 R2 R3 R4 R5 R6 R7]]|[? ->]]; [left|by right]. split; [done|]. split; [done|]. split; [done|]. split; [lia|].
    assert (Hu' : used c' = k * v) by (unfold used; rewrite R2, R3; f_equal; lia). rewrite Z.min_r by lia. fold (used c).
    rewrite (firstn_all2 (contents c)) by (pose proof (len_contents c Hu) as Hl; unfold len, used in *; nia).
    apply byte_ext; [pose proof (len_contents c Hu); pose proof (len_contents c' ltac:(lia)); unfold len in *; rewrite length_take; unfold used in *; nia|].
    intros i Hi. assert (Hi' : 0 <= i < used c) by (pose proof (len_contents c' ltac:(lia)); unfold len in *; rewrite length_take in Hi; lia).
    rewrite byte_take by lia. rewrite byte_contents by (rewrite Hu'; unfold used in *; nia). by apply R6.
  - destruct (Z.ltb_spec k (c_size c)) as [Hlt|Hge'].
    + destruct (pop_back_ok (c_size c - k) m ltac:(lia) Hfc) as (c' & m' & Ep & Hok' & Ev & Es & Hc). unfold stdcarr_pop_back_n in Ep.
      replace (c_size c - (c_size c - k)) with k in * by lia. destruct (stdcarr_low_erase_shift _ _ _ _ _ _) as [e|[[c1 p] m1]]; [done|]. cbn [rbind] in *. injection Ep as -> ->.
      eexists _, _, _. split; [done|]. split; [done|]. left. do 4 (split; [done|]). rewrite Hc, Z.min_l by lia. unfold cut_out.
      pose proof (len_contents c Hu) as Hl. unfold len in Hl. apply take_app_length'. rewrite length_take. unfold used in *. nia.
    + assert (k = c_size c) as -> by lia. eexists _, _, _. split; [done|]. split; [done|]. left. do 4 (split; [done|]). by rewrite Z.min_id.
Qed.

Lemma copy_ok' m : fits c (c_cap c) ->
  exists ret c' m', stdcarr_copy_construct c m = inr (ret, c', m') /\ (enough m -> ret = STDESUCCESS) /\
    (ret = STDESUCCESS /\ carr_ok c' /\ contents c' = contents c \/ ret = STDENOMEM /\ c_vsize c' = 0).
Proof using Hok.
  intros Hfits. unfold stdcarr_copy_construct. destruct (c_mem c) as [|x l] eqn:Emem; [eexists _, _, _; split; [done|]; split; [done|by left]|].
  destruct (malloc_ok m) as (ok & m' & -> & Hm). destruct ok; cbn [negb]; [|eexists _, _, _; split; [done|]; split; [intros He; by destruct (Hm He)|by right]].
  pose proof (co_vsize _ Hok) as Hv. destruct (used_bounds c Hok) as (Hu & HuL & _). pose proof (co_mem _ Hok) as HL.
  destruct (co_shape _ Hok) as [[Hs Hb]|(E & _)]; [|unfold endbase in HL; rewrite E, Emem in HL; unfold len in HL; cbn in HL; lia].
  unfold fits, STDCARR_MIN_AUTO_ALLOC in Hfits. assert (Ea : u64 (v * c_cap c) = c_cap c * v) by (unfold u64; rewrite Z.mod_small; nia). rewrite Ea.
  assert (Hbl : len (new_block (c_cap c * v)) = c_cap c * v) by (rewrite new_block_len; nia).
  pose proof (begin_pos c Hok) as Eb. rewrite (co_end _ Hok).
  destruct (copy_to_buf_ok (new_block (c_cap c * v)) 0 c 0 (used c) Hok) as (m1 & E1 & Hl1 & H1); [lia..|]. rewrite <- Eb in E1. rewrite E1. cbn [rbind].
  eexists _, _, _. split; [done|]. split; [done|]. left. split; [done|]. replace (0 + (used c - 0)) with (c_size c * v) by (unfold used; lia).
  assert (Hok' : carr_ok (moved m1 (c_size c * v) (c_cap c) (c_size c) c)) by (apply moved_carr_ok; lia). split; [done|].
  apply contents_eq; [done|by rewrite len_contents|]. cbn [moved c_mem c_begin]. intros i Hi. change (used (moved _ _ _ _ _)) with (used c) in Hi.
  unfold endbase. cbn [c_mem moved]. rewrite Hl1, Hbl. unfold pos. rewrite (proj2 (Z.ltb_lt _ _)), Z.add_0_l, H1, decide_True by lia. f_equal. lia.
Qed.

(** Another capacity: as many of the first values as it holds. *)
Lemma set_capacity_ok k m : 0 <= k -> (k + 1) * v < 2 ^ 64 -> fits c (c_size c) ->
  exists ret c' m', stdcarr_set_capacity c k m = inr (ret, c', m') /\ (enough m -> ret = STDESUCCESS) /\
    (ret = STDESUCCESS /\ carr_ok c' /\ stdcarr_high_capacity c' = k /\ contents c' = take (Z.to_nat (k * v)) (contents c) \/ ret = STDENOMEM /\ c' = c).
Proof using Hok.
  intros Hk Hkv Hfits. pose proof (co_vsize _ Hok) as Hv. destruct (used_bounds c Hok) as (Hu & HuL & _). pose proof (len_contents c Hu) as Hlc.
  assert (Hs : 0 <= c_size c) by (unfold used in Hu; nia). unfold stdcarr_set_capacity. destruct (Z.eqb_spec k (stdcarr_high_capacity c)) as [Ek|Ek].
  { eexists _, _, _. split; [done|]. split; [done|]. left. do 2 (split; [done|]). split; [done|]. rewrite firstn_all2; [done|]. unfold len in Hlc.
    unfold stdcarr_high_capacity in Ek. destruct (co_shape _ Hok) as [[? _]|(E & E' & _)]; unfold used in *; [|rewrite E' in Hlc; lia].
    rewrite (proj2 (Z.eqb_neq (c_cap c) 0)) in Ek by lia. cbn in Ek. nia. }
  destruct (Z.eqb_spec k 0) as [->|Ek0].
  { eexists _, _, _. split; [done|]. split; [done|]. left. split; [done|]. split; [|done]. split; [done|done|done|apply Z.divide_0_r|by right]. }
  assert (E1 : u64 (k + 1) = k + 1) by (unfold u64; rewrite Z.mod_small; nia). rewrite E1.
  assert (E2 : u64 ((k + 1) * v) = (k + 1) * v) by (unfold u64; rewrite Z.mod_small; nia). rewrite E2.
  destruct (malloc_ok m) as (ok & m' & -> & Hm). destruct ok; cbn [negb]; [|eexists _, _, _; split; [done|]; split; [intros He; by destruct (Hm He)|by right]].
  set (n := Z.min k (c_size c)). set (c0 := if k <? c_size c then _ else c).
  assert (H0 : carr_ok c0 /\ c_size c0 = n /\ c_vsize c0 = v /\ c_mem c0 = c_mem c /\ c_begin c0 = c_begin c /\ c_end c0 = pos (endbase c) (c_begin c) (n * v)).
  { unfold c0, n. destruct (Z.ltb_spec k (c_size c)) as [Hlt|Hge].
    - assert (E3 : u64 (k * v) = k * v) by (unfold u64; rewrite Z.mod_small; nia). rewrite E3, Z.min_l by lia.
      destruct (co_shape _ Hok) as [[Hsh Hb]|(_ & E & _)]; [|lia]. pose proof (begin_pos c Hok) as Eb.
      assert (Hend : stdcarr_low_forward (c_begin c) (k * v) (endbase c) = pos (endbase c) (c_begin c) (k * v)) by (rewrite Eb at 1; apply forward_pos; unfold used in *; nia).
      rewrite Hend. split; [|done]. split; [done|exact (co_mem _ Hok)|done|exact (co_align _ Hok)|]. left. cbn. split; [lia|done].
    - rewrite Z.min_r by lia. split; [done|]. split; [done|]. split; [done|]. split; [done|]. split; [done|]. apply (co_end _ Hok). }
  clearbody c0. destruct H0 as (Hok0 & Es0 & Ev0 & Em0 & Eb0 & Ee0). assert (Hn : 0 <= n <= c_size c /\ n <= k /\ (n = k \/ n = c_size c)) by (unfold n; lia). clearbody n.
  assert (EL : endbase c0 = endbase c) by (unfold endbase; by rewrite Em0). assert (Eu0 : used c0 = n * v) by (unfold used; by rewrite Es0, Ev0).
  assert (Hbl : len (new_block ((k + 1) * v)) = (k + 1) * v) by (rewrite new_block_len; nia).
  destruct (copy_to_buf_ok (new_block ((k + 1) * v)) 0 c0 0 (used c0) Hok0) as (m1 & Ec1 & Hl1 & H1); [nia..|].
  rewrite <- (begin_pos _ Hok0), <- (co_end _ Hok0) in Ec1. rewrite Ec1. cbn [rbind]. eexists _, _, _. split; [done|]. split; [done|]. left. split; [done|].
  assert (Hok' : carr_ok (moved m1 (c_size c0 * c_vsize c0) (k + 1) (c_size c0) c0)) by (apply moved_carr_ok; [lia|rewrite Ev0; lia|lia]). split; [exact Hok'|].
  split; [unfold stdcarr_high_capacity; cbn; rewrite (proj2 (Z.eqb_neq _ _)) by lia; cbn; lia|].
  assert (Hlt : len (take (Z.to_nat (k * v)) (contents c)) = n * v) by (unfold len in *; rewrite length_take; unfold used in *; nia).
  apply contents_eq; [change (0 <= used c0); nia|rewrite Hlt; by rewrite <- Eu0|]. intros i Hi. change (used (moved _ _ _ _ _)) with (used c0) in Hi.
  rewrite byte_take by nia. cbn [moved c_mem c_begin]. unfold endbase. cbn [c_mem moved]. rewrite Hl1, Hbl. unfold pos at 1. rewrite (proj2 (Z.ltb_lt _ _)), Z.add_0_l, H1, decide_True by nia.
  rewrite Z.sub_0_r, Z.add_0_l, !byte_contents by (unfold used in *; nia). by rewrite EL, Em0, Eb0.
Qed.

(** Iterators count: [stdcarr_get], the next one, the rank, the end. *)
Lemma iterators_ok r : 0 <= r <= c_size c -> fits c (c_size c) ->
  stdcarr_get c r = inr (rank_it c r) /\ stdcarr_rank c (rank_it c r) = inr r /\ stdcarr_is_end c (rank_it c r) = bool_decide (r = c_size c) /\
  (r < c_size c -> stdcarr_it_next (rank_it c r) = inr (rank_it c (r + 1)) /\ stdcarr_it_prev (rank_it c (r + 1)) = inr (rank_it c r)).
Proof using Hok.
  intros Hr Hfits. pose proof (co_vsize _ Hok) as Hv. destruct (used_bounds c Hok) as (Hu & HuL & _). unfold fits, STDCARR_MIN_AUTO_ALLOC in Hfits.
  assert (Hrv : 0 <= r * v <= used c) by (unfold used; nia). assert (E64 : u64 (v * r) = r * v) by (unfold u64; rewrite Z.mod_small; nia).
  destruct (co_shape _ Hok) as [[Hs Hb]|(E & Es & Eb)].
  2: { assert (r = 0) as -> by lia. pose proof (co_mem _ Hok) as HL. rewrite E in HL. pose proof (co_end _ Hok) as Ee. rewrite HL, Eb in Ee. unfold used in Ee. rewrite Es in *.
       assert (Ep : pos (endbase c) (c_begin c) (0 * v) = 0) by (rewrite HL, Eb; done).
       split; [|split; [|split; [|lia]]].
       - unfold stdcarr_get. rewrite begin_rank. unfold stdcarr_it_advance, offset_in, rank_it, it_at. cbn -[bool_decide]. rewrite bool_decide_eq_true_2 by done. cbn [rbind]. rewrite Ep, E64, HL. done.
       - unfold stdcarr_rank. rewrite offset_rank. cbn [rbind]. rewrite Ep, Eb. cbn. by rewrite Z.div_0_l by lia.
       - unfold stdcarr_is_end. apply bool_decide_ext. cbn -[Z.mul]. rewrite Ep, Ee. done. }
  pose proof begin_rank as Ebr. rewrite (Z.mul_comm v r) in E64. split; [|split; [|split]].
  - unfold stdcarr_get. rewrite Ebr. unfold stdcarr_it_advance, offset_in. cbn. rewrite bool_decide_eq_true_2 by done. cbn. rewrite (Z.mul_comm v r), E64, forward_pos by lia. by rewrite Z.add_0_l.
  - unfold stdcarr_rank. rewrite offset_rank. cbn [rbind]. f_equal. unfold pos. destruct (Z.ltb_spec (c_begin c + r * v) (endbase c)).
    + rewrite (proj2 (Z.leb_le _ _)) by lia. rewrite Z.add_simpl_l. apply Z.div_mul. lia.
    + rewrite (proj2 (Z.leb_gt _ _)) by lia. replace (_ + _) with (r * v) by lia. apply Z.div_mul. lia.
  - unfold stdcarr_is_end. cbn. apply bool_decide_ext. rewrite (co_end _ Hok). split; [|by intros ->].
    intros [= Ep]. apply pos_inj in Ep; [|lia..]. unfold used in Ep. nia.
  - intros Hlt. assert (Hr1 : r * v + v <= used c) by (unfold used; nia). unfold stdcarr_it_next, stdcarr_it_prev, rank_it, offset_in. cbn.
    rewrite !bool_decide_eq_true_2 by done. cbn. rewrite Z.mul_add_distr_r, Z.mul_1_l, forward_pos, backward_pos by lia. rewrite Z.add_simpl_r. done.
Qed.
(** [stdcarr_set_eq] makes one array what another is. *)
Lemma set_eq_ok src m : carr_ok src -> c_vsize src = v -> fits c (c_size src) -> fits c (c_size c) ->
  exists ret c' m', stdcarr_set_eq c src m = inr (ret, c', m') /\ (may_grow m -> ret = STDESUCCESS) /\
    (ret = STDESUCCESS /\ carr_ok c' /\ contents c' = contents src \/ ret <> STDESUCCESS /\ c' = c).
Proof using Hok.
  intros Hsrc Ev Hfs Hfc. destruct (used_bounds src Hsrc) as (Hu & _). pose proof (co_vsize _ Hok) as Hv. unfold stdcarr_set_eq.
  destruct (resize_ok (c_size src) m) as (ret & c1 & m' & -> & Hg & [(-> & Hok1 & Ev1 & Es1 & _)|[Hret ->]]); [unfold used in Hu; nia|done|done| |]; cbn [rbind].
  - assert (Hu1 : used c1 = used src) by (unfold used; by rewrite Es1, Ev1, Ev). destruct (used_bounds c1 Hok1) as (_ & HuL & _).
    destruct (copy_to_buf_ok (c_mem c1) 0 src 0 (used src) Hsrc) as (t1 & Ec & Hl & H1); [unfold endbase in HuL; lia..|].
    rewrite <- (co_end _ Hsrc), <- (begin_pos _ Hsrc) in Ec. change (negb (STDESUCCESS =? STDESUCCESS)) with false. rewrite Ec. cbn [rbind].
    assert (EL : endbase (shifted t1 0 (0 + (used src - 0)) (c_size c1) c1) = endbase c1) by exact Hl.
    eexists _, _, _. split; [done|]. split; [done|]. left. split; [done|]. split.
    + split; rewrite ?EL; [apply Hok1|apply Hok1| |apply Z.divide_0_r|].
      * cbn. change (used (shifted _ _ _ _ _)) with (used c1). unfold pos. rewrite Hu1 in *. case_match; lia.
      * cbn. destruct (co_shape _ Hok1) as [[? ?]|(? & ? & ?)]; [left; lia|by right].
    + apply contents_eq; [change (0 <= used c1); lia|change (len (contents src) = used c1); by rewrite len_contents|].
      intros i Hi. change (used (shifted _ _ _ _ _)) with (used c1) in Hi. rewrite EL. cbn [shifted c_mem c_begin]. unfold endbase in *.
      unfold pos. rewrite (proj2 (Z.ltb_lt _ _)), Z.add_0_l, H1, decide_True by lia. f_equal. lia.
  - rewrite (proj2 (Z.eqb_neq _ _) Hret). cbn [negb]. eexists _, _, _. split; [done|]. split; [done|by right].
Qed.

(** C24: a circular array is a sequence of values.  As long as the bytes asked
    for are counted in 64 bits, and whatever memory there is, every operation
    below ends, moves memory inside a block only and without an overlapping
    [memcpy], keeps the array in order and does this to the sequence, wherever
    it wraps around and whichever side is shifted: inserting puts the values
    before the iterator, or leaves the array when it may not grow or memory is
    missing; erasing and popping cut out the values; resizing, another
    capacity and copying keep them; an iterator taken from the array as it is
    counts the values from either end.

    The iterator an operation hands back is stated as the code leaves it, which
    is less than stdcarr.c promises.  Only its value pointer is set, so it
    keeps the block and the bounds of the array before the operation
    ([pointed_at]; see [insert_leaves_old_block]).  After an insertion the
    pointer is at the first new value.  After an erasure it is at the value
    that followed the erased ones when the values in front were moved to the
    right or the array went to a new block; when the values behind were moved
    to the left in place it is [k] values further ([erase_moves_iterator]). *)
Theorem circular_array_refines :
  fits c (c_size c) ->
  (forall r k (vals : list (option Z)) m, 0 <= r <= c_size c -> 0 <= k -> fits c (c_size c + k) -> len vals = k * v ->
     insert_spec r vals m (stdcarr_insert_n c (rank_it c r) vals k m)) /\
  (forall r (src : list (list (option Z))) m, 0 <= r <= c_size c -> fits c (c_size c + Z.of_nat (length src)) -> Forall (fun x => len x = v) src ->
     insert_spec r (concat src) m (stdcarr_insert_seq_n c (rank_it c r) src m)) /\
  (stdcarr_begin c = rank_it c 0 /\ stdcarr_end c = rank_it c (c_size c)) /\
  (forall r k m, 0 <= r -> 0 <= k -> r + k <= c_size c ->
     let right := STDCARR_ERS_SHIFT_RIGHT c (snd (i_val (rank_it c r))) k in
     exists c' it m', stdcarr_erase_n c (rank_it c r) k m = inr (c', it, m') /\ carr_ok c' /\
       contents c' = cut_out (r * v) (k * v) (contents c) /\
       it = pointed_at c' (if right || negb (bool_decide (c_block c' = c_block c)) then r else r + k) (rank_it c r)) /\
  (forall k m, 0 <= k <= c_size c ->
     (exists c' m', stdcarr_pop_front_n c k m = inr (c', m') /\ carr_ok c' /\ contents c' = cut_out 0 (k * v) (contents c)) /\
     (exists c' m', stdcarr_pop_back_n c k m = inr (c', m') /\ carr_ok c' /\ contents c' = cut_out ((c_size c - k) * v) (k * v) (contents c))) /\
  (forall k m, 0 <= k -> fits c k ->
     exists ret c' m', stdcarr_resize c k m = inr (ret, c', m') /\ (may_grow m -> ret = STDESUCCESS) /\
       (ret = STDESUCCESS /\ carr_ok c' /\ c_size c' = k /\ take (Z.to_nat (Z.min k (c_size c) * v)) (contents c') = take (Z.to_nat (k * v)) (contents c) \/ ret <> STDESUCCESS /\ c' = c)) /\
  (forall k m, 0 <= k -> (k + 1) * v < 2 ^ 64 ->
     exists ret c' m', stdcarr_set_capacity c k m = inr (ret, c', m') /\ (enough m -> ret = STDESUCCESS) /\
       (ret = STDESUCCESS /\ carr_ok c' /\ stdcarr_high_capacity c' = k /\ contents c' = take (Z.to_nat (k * v)) (contents c) \/ ret = STDENOMEM /\ c' = c)) /\
  (forall src m, carr_ok src -> c_vsize src = v -> fits c (c_size src) ->
     exists ret c' m', stdcarr_set_eq c src m = inr (ret, c', m') /\ (may_grow m -> ret = STDESUCCESS) /\
       (ret = STDESUCCESS /\ carr_ok c' /\ contents c' = contents src \/ ret <> STDESUCCESS /\ c' = c)) /\
  (forall m, fits c (c_cap c) -> exists ret c' m', stdcarr_copy_construct c m = inr (ret, c', m') /\ (enough m -> ret = STDESUCCESS) /\
     (ret = STDESUCCESS /\ carr_ok c' /\ contents c' = contents c \/ ret = STDENOMEM /\ c_vsize c' = 0)) /\
  (forall r, 0 <= r <= c_size c ->
     stdcarr_get c r = inr (rank_it c r) /\ stdcarr_rank c (rank_it c r) = inr r /\ stdcarr_is_end c (rank_it c r) = bool_decide (r = c_size c) /\
     (r < c_size c -> stdcarr_it_next (rank_it c r) = inr (rank_it c (r + 1)) /\ stdcarr_it_prev (rank_it c (r + 1)) = inr (rank_it c r))).
Proof using Hok.
  intros Hf. split_and!; [by intros; apply insert_n_ok|by intros; apply insert_seq_n_ok|apply begin_rank|apply end_rank| | | | | | |].
  - intros r k m Hr Hk Hrk. destruct (erase_n_ok r k m Hr Hk Hrk Hf) as (c' & it & m' & ? & ? & _ & ?). by exists c', it, m'.
  - intros k m Hk. split; [by apply pop_front_ok|]. destruct (pop_back_ok k m Hk Hf) as (c' & m' & ? & ? & _ & _ & ?). by exists c', m'.
  - intros k m Hk Hfk. destruct (resize_ok k m Hk Hfk Hf) as (ret & c' & m' & ? & ? & [(? & ? & _ & ? & ?)|?]); exists ret, c', m'; (split; [done|]; split; [done|]); [by left|by right].
  - intros k m Hk Hkv. by apply set_capacity_ok.
  - intros src m H1 H2 H3. by apply set_eq_ok.
  - intros m Hc. by apply copy_ok'.
  - intros r Hr. by apply iterators_ok.
Qed.
End operations.

Lemma construct_carr_ok vs o c : 0 <= vs -> stdcarr_construct vs o = Some c -> carr_ok c /\ contents c = [] /\ c_vsize c = vs /\ c_size c = 0 /\ c_opts c = o.
Proof.
  intros H0. unfold stdcarr_construct. destruct (Z.eqb_spec vs 0); [done|]. destruct (bad_carr_opts o); [done|]. intros [= <-].
  split; [|done]. split; cbn; [lia|done|done|apply Z.divide_0_r|by right].
Qed.

Lemma circular_array_refines_witness :
  exists c0, stdcarr_construct 2 0 = Some c0 /\ carr_ok c0 /\
  exists ret c1 it m1, stdcarr_insert_n c0 (stdcarr_begin c0) (Some <$> [1; 2; 3; 4; 5; 6]) 3 [] = inr (ret, c1, it, m1) /\ ret = STDESUCCESS /\
    contents c1 = Some <$> [1; 2; 3; 4; 5; 6] /\
    (exists c2 m2, stdcarr_erase_n c1 (rank_it c1 1) 1 [] = inr (c2, m2) /\ contents (fst c2) = Some <$> [1; 2; 5; 6]).
Proof.
  eexists. split; [reflexivity|]. match goal with |- carr_ok ?c /\ _ => destruct (construct_carr_ok 2 0 c ltac:(lia) eq_refl) as (Hok & Hc & Hv & Hs & Ho); set (c0 := c) in * end.
  split; [exact Hok|]. clearbody c0. assert (Hf : forall c n, c_vsize c = 2 -> 0 <= n <= 3 -> fits c n) by (intros c n E Hn; unfold fits, STDCARR_MIN_AUTO_ALLOC; rewrite E; lia).
  destruct (circular_array_refines c0 Hok) as (Hins & _ & [Hbeg _] & _); [apply Hf; [done|lia]|]. rewrite Hbeg.
  destruct (Hins 0 3 (Some <$> [1; 2; 3; 4; 5; 6]) []) as (ret & c1 & it & m1 & E1 & Hg & Hr1); [lia|lia|apply Hf; [done|lia]|by rewrite Hv|].
  assert (Hret : ret = STDESUCCESS) by (apply Hg; split; [constructor|by rewrite Ho]). exists ret, c1, it, m1. split; [exact E1|]. split; [exact Hret|].
  destruct Hr1 as [(_ & Hok1 & Hc1 & _ & Hv1)|[? _]]; [|done]. rewrite Hc, Hv in Hc1. change (contents c1 = [Some 1; Some 2; Some 3; Some 4; Some 5; Some 6]) in Hc1. split; [exact Hc1|]. rewrite Hv in Hv1.
  assert (Hs1 : c_size c1 = 3).
  { pose proof (len_contents c1 (proj1 (used_bounds c1 Hok1))) as Hl. rewrite Hc1 in Hl. unfold used in Hl. rewrite Hv1 in Hl. unfold len in Hl. cbn [length] in Hl. lia. }
  destruct (circular_array_refines c1 Hok1) as (_ & _ & _ & Her & _); [apply Hf; [done|lia]|].
  destruct (Her 1 1 []) as (c2 & it2 & m2 & E2 & _ & Hc2 & _); [lia..|]. exists (c2, it2), m2. split; [exact E2|]. cbn [fst]. rewrite Hc2, Hv1, Hc1. reflexivity.
Defined.
