(* ===== verification/Findings.v ===== *)
(** * What the code does against its own comments

    Consequences of the definitions that show where the program does not do
    what its text says it does.  Each is a statement about the component's
    functions as they are. *)

From Stdlib Require Import ZArith Lia.
From stdpp Require Import base strings numbers option gmap list.
From S2P Require Import Prelude Wire Bytes Config Events State Sample Network FlowControl MembSets MembCore Deliver ProtSend Retrans MembForm MembInstall Membership ProtHandle Frame Packing EndToEnd.
From S2P Require Import Message Names GroupState SessState SessTable SessRead SessHeader SessParse Acm SessAuth SessAccept Skl SkipList Groups Sp SpRecv SpTable SpReceive SpSend SpMemb SpMembOk.
From S2P Require Import SpConnect SpHandshake HashTable CircArray.

(** [Read_form2] means to forget a packet whose sender did not come along.
    The look-up it does searches all configured processes, so the check
    stops the daemon for every sender the configuration knows, member or
    not. *)
Lemma forget_stops (w : world) (seq : Z) (p : proc) :
  let h := pi_head (pkt w (slot seq)) in
  pi_exist (pkt w (slot seq)) = 1 -> ph_memb_id h = Membership_id (mem w) -> ph_seq h = seq ->
  p ∈ conf_allprocs (Future_membership (mem w)) -> p_id p = u32 (ph_proc_id h) ->
  forget_checks w seq = inl (Fatal "Read_form2: sender is on the token").
Proof.
  intros h He Hid Hs Hp Hpid. unfold forget_checks. fold h. rewrite He, Hid, Hs, Z.eqb_refl. cbn.
  unfold Memb_is_equal, memb_id_eqb. rewrite !Z.eqb_refl. cbn.
  assert (Hi : 0 <= Conf_proc_ref_by_id_in_conf (Future_membership (mem w)) (u32 (ph_proc_id h))).
  { eapply first_index_nonneg; [exact Hp|by rewrite Hpid, Z.eqb_refl|done]. }
  by rewrite (proj2 (Z.eqb_neq _ (-1))) by lia.
Qed.

(** A request block of another ring that claims [-4] numbers is as long as
    nothing: [Answer_retrans] stays at it for ever. *)
Lemma answer_never_ends `{Session} (w : world) (a : answer) (rtr_len : Z) (fuel : nat) :
  0 < rtr_len -> an_new_ptr a = 0 -> rr_num_seq (dec_rtr (an_rtr a) 0) = -4 ->
  Memb_is_equal (rr_memb_id (dec_rtr (an_rtr a) 0)) (Memb_id w) = false ->
  answer_from fuel rtr_len 0 a w = Failed (Diverges "Answer_retrans").
Proof.
  intros Hl Hp Hn Hf. induction fuel as [|fuel IH]; cbn [answer_from]; rewrite (proj2 (Z.ltb_lt 0 rtr_len)) by done; [done|].
  change (sizeof_token_body <? 0 + sizeof_ring_rtr) with false. cbn [Z.ltb Z.compare orb]. unfold bind, get. cbn beta zeta iota. rewrite Hf, Hn, Hp. cbn.
  destruct a as [n np pid seg rtr]. cbn in Hp |- *. subst np. exact IH.
Qed.

(** The window is configured as an [int] and kept in an [int16]. *)
Lemma window_truncated (w : world) :
  cf_Window (cf w) = 40000 -> fc_Window (fc (run_to FC_init w)) = -25536.
Proof. intros Hw. unfold run_to, FC_init, bind, get. cbn. by rewrite Hw. Qed.

(** The hurry counter has four bits: the sixteenth hurry clears it. *)
Lemma hurry_counter_wraps (t : Z) : Get_retrans (Set_retrans t 16) = 0.
Proof. by rewrite (proj1 (retrans_field t 16)). Qed.

(** One segment: the default of the accelerated ring is chosen in
    [Memb_init], after [FC_init] has read it. *)
Definition local_conf : configuration :=
  let a := sample_proc "a" 11 0 0 in
  let b := sample_proc "b" 12 0 1 in
  mkConfiguration 7 [a; b] [mkSegment [Inet 1 4803] [a; b]].
Definition local_world : world := on_cf (fun _ => conf_initial local_conf (sample_proc "a" 11 0 0)) sample_world.

Lemma accelerated_default_unused :
  let w := run_to Prot_init local_world in
  cf_AcceleratedRing (cf w) = true /\ fc_Accelerated_ring (fc w) = false.
Proof. vm_compute. split; reflexivity. Qed.

(** ** Clients *)

(** A client of an old library is authorised by [NULL] alone: the method that
    every client has to pass, and that this one does not, is not run. *)
Lemma old_client_skips_required :
  am_required (method sample_acm (acm_authname_to_type sample_acm str_IP)) = true /\
  type_passes (sample_env (10 * 2 ^ 24 + 1)) 7 (acm_authname_to_type sample_acm str_IP) = false /\
  match start_auth (sample_env (10 * 2 ^ 24 + 1)) 996 (3, 15, 0) asked_client with
  | Done _ w' => Is_session OP_SESSION (s_status (ses (ss w') 996)) = true
  | Failed _ => False
  end.
Proof. split; [|split]; vm_compute; reflexivity. Qed.

(** The rule for clients of the Unix socket lets none of them in. *)
Lemma unix_rule_unused (r : ip_rules) : ip_allowed (insert_ip_rule 0 32 r) None = inr false.
Proof. unfold ip_allowed. by destruct (IP_File_Loaded _). Qed.

(** A rule for every address does not allow any: the shift is undefined. *)
Lemma every_address_rule (r : ip_rules) (client_ip : Z) :
  IP_File_Loaded r = true -> ip_allowed (insert_ip_rule 0 0 r) (Some client_ip) = inl (Undefined "ip_auth_client_connection: shift").
Proof. intros Hr. unfold ip_allowed. cbn [IP_File_Loaded insert_ip_rule]. by rewrite Hr. Qed.

(** A header is accepted that announces more than a scatter holds. *)
Lemma accepted_too_long :
  let h := ana_header AGREED_MESS 0 143900 in
  acceptable (str_bytes "ana") (str_bytes "host1") h /\
  MAX_SCATTER_ELEMENTS * sizeof_packet_body < sizeof_message_header + body_len h.
Proof.
  split; [|vm_compute; reflexivity]. constructor; try (vm_compute; repeat split; (reflexivity || discriminate)).
  intros k _ Hk. by rewrite Z.bits_0 in Hk.
Qed.

(** More names than the first element holds: the array that is returned starts
    with the header of the message. *)
Lemma groups_array_header :
  match Message_get_groups_array (sample_message 44) with
  | inr b => take 48 b = take 48 (mess_bytes (sample_message 44))
  | inl _ => False
  end.
Proof. vm_compute. reflexivity. Qed.

(* --------------------------------------------------------------------- *)
(** ** Groups *)

(** Putting a key with the end as the hint does not replace the entry that has
    it when this is the last one. *)
Lemma hint_keeps_both :
  let key (z : Z) := z in
  match stdskl_construct 8 (stdrand32_dseed 1) [] with
  | (_, Some s, _) =>
      match stdskl_put key Z.sub s None 5 false [] with
      | inr (_, s, _, _) =>
          match stdskl_put key Z.sub s (Some (sk_end s)) 5 true [] with
          | inr (ret, s, _, _) => ret = STDESUCCESS /\ stdskl_size s = 2
          | inl _ => False
          end
      | inl _ => False
      end
  | _ => False
  end.
Proof. vm_compute. split; reflexivity. Qed.

(** The differences of the process numbers wrap: three membership identifiers
    go round in a circle. *)
Lemma memb_ids_circle :
  let a := mkMembId (- 2 ^ 31) 0 in let b := mkMembId 0 0 in let c := mkMembId (2 ^ 31 - 1) 0 in
  G_compare_memb_ids a b < 0 /\ G_compare_memb_ids b c < 0 /\ G_compare_memb_ids c a < 0.
Proof. vm_compute. repeat split; reflexivity. Qed.

(** A group name that fills the field of the message does not fit the field of
    the group with the byte that ends it. *)
Lemma full_name_overflows site (name : list Z) :
  Z.of_nat (length (cstr name)) = MAX_GROUP_NAME -> strcpy_name site name = inl (Undefined site).
Proof. intros H. unfold strcpy_name. by rewrite H. Qed.

(** Killing the mailbox -1, which no session has, finds an unused entry: the
    number of sessions becomes negative. *)
Lemma kill_unused :
  match SP_kill (-1) no_lib with Done _ w => cl_Num_sessions w = -1 /\ cl_closed w = [-1] | Failed _ => False end.
Proof. vm_compute. by split. Qed.

(** A message whose header was kept is dropped by a call with drop semantics,
    but the header stays in the session: the call after takes the bytes of the
    next message for a body of the old one. *)
Lemma dropped_header_stays :
  match SP_scat_receive 7 2 (room_for [5]) trickling with
  | Done (r1, _) w1 =>
      r1 = BUFFER_TOO_SHORT /\ cs_recv_message_saved (cs w1 7) = true /\
      match SP_scat_receive 7 2 (set_ra_service_type DROP_RECV (room_for [5])) w1 with
      | Done (r2, _) w2 => r2 = BUFFER_TOO_SHORT /\ cl_in_bytes w2 7 = [77] /\ cs_recv_message_saved (cs w2 7) = true
      | Failed _ => False
      end
  | Failed _ => False
  end.
Proof. vm_compute. repeat split; reflexivity. Qed.

(** An empty element between two others: the empty [recv] gives 0, and the
    session counts as broken. *)
Lemma empty_element_breaks :
  match SP_scat_receive 7 2 (room_for [4; 0; 10]) trickling with
  | Done (r, _) w => r = CONNECTION_CLOSED /\ cs_state (cs w 7) = SESS_ERROR
  | Failed _ => False
  end.
Proof. vm_compute. by split. Qed.

(** A message the client sends and the daemon does not accept: the limit of the
    client leaves no room for the header. *)
Lemma too_long_is_sent (name : list Z) (pn : list Z) :
  let h := client_header name AGREED_MESS 1 0 143930 in
  (MAX_MESSAGE_BODY_LEN <? 143930 + 1 * MAX_GROUP_NAME) = false /\ ~ acceptable name pn h.
Proof. intros h. split; [reflexivity|]. intros [_ _ _ _ _ Htot]. revert Htot. cbn [mh_data_len mh_num_groups h client_header]. intros Htot. by vm_compute in Htot. Qed.

(** More than 311 groups do not fit the buffer of the header, whatever the
    session and the data are. *)
Lemma groups_overflow (mbox service_type num_groups mess_type : Z) (groups : buf) (scat : scatter) w :
  311 < num_groups < 2 ^ 26 -> exists site, SP_internal_multicast mbox service_type num_groups groups mess_type scat w = Failed (Undefined site).
Proof.
  intros Hn. exists "SP_internal_multicast: head_buf[]"%string. unfold SP_internal_multicast. rewrite (proj2 (Z.ltb_lt _ _)); [done|].
  unfold u64. change MAX_GROUP_NAME with 32. change sizeof_message_header with 48. change sizeof_head_buf with 10000. rewrite Z.mod_small; lia.
Qed.

(** A negative length is sent: the daemon reads a header that announces a
    negative number of bytes, which ends the session there. *)
Lemma negative_length_sent (pn : list Z) :
  match SP_multicast 7 AGREED_MESS [103] 0 (-5) [1; 2; 3] ana_sending with
  | Done r w => r = 0 /\ mh_data_len (get_header (cl_out_bytes w 7)) = -5 /\ ~ acceptable (str_bytes "ana") pn (get_header (cl_out_bytes w 7))
  | Failed _ => False
  end.
Proof.
  vm_compute. split; [done|]. split; [done|]. intros [_ _ _ _ Hd _]. by apply Hd.
Qed.

(** The reader of a scatter with two elements writes the second piece over the
    first, and finds byte 4 of
    three elements one byte too far. *)
Lemma scat_read_pieces :
  let msg := [mkElem [1; 2] 2; mkElem [3; 4] 2] in
  scat_read [0; 0; 0; 0] msg 0 4 = inr [3; 4; 0; 0] /\ get_bytes (concat (se_buf <$> msg)) 0 4 = [1; 2; 3; 4] /\
  scat_read [0] [mkElem [1; 2; 3] 3; mkElem [4] 1; mkElem [5; 6] 2] 4 1 = inr [6].
Proof. vm_compute. repeat split; reflexivity. Qed.

(** An array with more room than there are sets: the call for a buffer fills
    as many entries as there are sets, the one for a scatter goes on behind
    the message. *)
Lemma scat_sets_past_end :
  let b := memb_data vs_sample_gid vs_sample_sets 0 in
  (SP_get_vs_sets_info b 4).1.1 = 3 /\
  (match SP_scat_get_vs_sets_info [mkElem b (Z.of_nat (length b))] (replicate 4 (mkVsSetInfo 0 0)) with inl (Undefined _) => True | _ => False end).
Proof. vm_compute. by split. Qed.

(** The time limit passes while the socket connects: the exchange starts all
    the same. *)
Lemma connect_timeout_ignored (env : connect_env) methods (name : option (list Z)) priority group_membership so_ret so_err (s : Z) w :
  daemon_socket env None = inr s -> ce_nonblock env = true -> ce_connect env = Conn_progress 1 so_ret so_err ->
  send_n_nointr_nb true (connect_bytes name priority group_membership) (co_hs w) = Failed blocked ->
  SP_connect_timeout_low env methods None name priority group_membership true w = Failed blocked.
Proof.
  intros Hs Hb Hc Hsend. unfold SP_connect_timeout_low. rewrite Hs, Hb, Hc. cbn. unfold bind at 1, in_hs, connect_exchange, bind at 1. by rewrite Hsend.
Qed.

(** A list of authentication methods of the greatest length that is read: the
    nul after it does not fit the copy. *)
Lemma long_list_overflows (auth_method auth_list : list Z) :
  Z.of_nat (length auth_list) = MAX_AUTH_NAME * MAX_AUTH_METHODS -> valid_auth_method auth_method auth_list = inl (Undefined "valid_auth_method: list_str[]").
Proof. intros H. unfold valid_auth_method. by rewrite H. Qed.

(** A table as small as they get, 64 positions: erasing one of three pairs
    moves the rest to a new table of the same size. *)
Lemma rehash_at_minimum :
  match stdhash_construct 1 0 None None 0 with
  | Some h =>
      match stdhash_insert_n h [[1]; [2]; [3]] [[]; []; []] [] with
      | inr (_, h1, it, _) =>
          cap_of h1 = 64 /\ match stdhash_erase h1 it [] with inr (h2, _, _) => cap_of h2 = 64 /\ h_block h2 = S (h_block h1) | inl _ => False end
      | inl _ => False
      end
  | None => False
  end.
Proof. vm_compute. repeat split; reflexivity. Qed.

(** The table grows while a sequence of 33 pairs is inserted: the iterator
    handed out points to the table that was freed. *)
Lemma first_insertion_freed :
  match stdhash_construct 1 0 None None 0 with
  | Some h =>
      match stdhash_insert_n h ((fun i => [Z.of_nat i]) <$> seq 0 33) (replicate 33 []) [] with
      | inr (ret, h1, it, _) => ret = STDESUCCESS /\ it_table it = h_block h1 /\ deref h1 it = inl (Undefined "stdhash: freed table")
      | inl _ => False
      end
  | None => False
  end.
Proof. vm_compute. repeat split; reflexivity. Qed.

(** A table with more than [2 ^ 32] positions cannot be hashed into, so that
    a hash has room for far fewer pairs than [stdhash_max_size]. *)
Lemma hash_of_large_table (hc lg : Z) : 32 < lg < 64 -> stdhash_low_hash hc (2 ^ lg - 1) lg = inl (Undefined "stdhash_low_hash: shift").
Proof.
  intros Hl. unfold stdhash_low_hash, u64. replace ((32 - lg) mod 2 ^ 64) with (32 - lg + 2 ^ 64).
  - by rewrite (proj2 (Z.ltb_ge _ _)) by lia.
  - apply Z.mod_unique_pos with (q := -1); lia.
Qed.

(** The next power of two of more than [2 ^ 63] is a shift by 64. *)
Lemma pow2_up_overflow : stdpow2_up (2 ^ 63 + 1) = inl (Undefined "stdpow2_up: shift").
Proof. reflexivity. Qed.

(** An array made from nothing: [k] values of [v] bytes each, [0], [1], .... *)
Definition carr_sample (v : Z) (k : nat) : res stdcarr :=
  match stdcarr_construct v 0 with
  | Some c =>
      let? '(_, c, _, _) := stdcarr_push_back_seq_n c ((fun i => replicate (Z.to_nat v) (Some (Z.of_nat i))) <$> seq 0 k) [] in inr c
  | None => inl (Undefined "no array")
  end.

(** One of ten values is erased.  At 2 the iterator comes back at the value
    that followed; at 7, where the values behind are moved, at the one after
    that. *)
Lemma erase_moves_iterator :
  (let? c := carr_sample 1 10 in let? it := stdcarr_get c 2 in let? '(c, it, _) := stdcarr_erase c it [] in stdcarr_rank c it) = inr 2 /\
  (let? c := carr_sample 1 10 in let? it := stdcarr_get c 7 in let? '(c, it, _) := stdcarr_erase c it [] in stdcarr_rank c it) = inr 8.
Proof. vm_compute. by split. Qed.

(** The distance from the first of two values to the second: with one byte
    each it is negative, with four it is not. *)
Lemma it_cmp_unsigned :
  (let? c := carr_sample 1 2 in let? it := stdcarr_get c 1 in stdcarr_it_cmp (stdcarr_begin c) it) = inr (-1) /\
  (let? c := carr_sample 4 2 in let? it := stdcarr_get c 1 in stdcarr_it_cmp (stdcarr_begin c) it) = inr (2 ^ 62 - 1).
Proof. vm_compute. by split. Qed.

(** The array moves to a new block while a value is inserted in it: the
    iterator handed back points there but steps by the old block. *)
Lemma insert_leaves_old_block :
  (let? c := carr_sample 1 16 in let? it := stdcarr_get c 3 in let? '(ret, c, it, _) := stdcarr_insert_n c it (replicate 16 (Some 7)) 16 [] in
   let? r := stdcarr_rank c it in inr (ret, r, stdcarr_it_next it)) = inr (STDESUCCESS, 3, inl (Undefined "stdcarr: pointers into different blocks")).
Proof. vm_compute. reflexivity. Qed.

(** Room for four: erasing three values makes the array larger. *)
Lemma erase_grows :
  (let? c := carr_sample 1 3 in let? '(_, c, _) := stdcarr_shrink_fit c [] in let? '(c2, _) := stdcarr_pop_back_n c 3 [] in inr (c_cap c, c_cap c2)) = inr (4, 16).
Proof. vm_compute. reflexivity. Qed.
